(* ===== verification/_CoqProject ===== *)
-Q . S2P
Prelude.v
PyStr.v
PyFloat.v
Clock.v
Sql.v
Dict.v
Domain.v
UnitOfWork.v
Branch.v
Broadcast.v
Codec.v
TaskStore.v
ExchangeStore.v
MessageStore.v
ClaimStore.v
SummaryStore.v
Compactor.v
Router.v
RunnerText.v
RunnerState.v
Outbox.v
Pump.v
PumpLaws.v
Answers.v
Intake.v
Actor.v
Loop.v
LoopLaws.v
Cron.v
CronLaws.v
Manager.v
ManagerLaws.v
ManagerRuns.v
Collecting.v
Tariffs.v
TariffLaws.v
TaskTools.v
ResponseMemory.v
Secrets.v
SecretLaws.v
Identity.v
IdentityLaws.v
CollectionSchema.v
Collections.v
CollectionLaws.v
CollectionQuery.v
CollectionQueryLaws.v
CollectionIngest.v
Templates.v
Guard.v
ToolSpecs.v
External.v
ExternalLaws.v
Ranking.v
Instructions.v
InstructionService.v
InstructionLaws.v
Datasets.v
DatasetLaws.v
InstructionTools.v
Llm.v
LlmLaws.v
Embeddings.v
Media.v
NetTools.v
Mcp.v
McpLaws.v
TelegramBridge.v
TelegramBridgeLaws.v
Samples.v
AnswerLaws.v
IntakeLaws.v
ActorLaws.v
StoreExamples.v
CronExamples.v
UserExamples.v
CollectionExamples.v
InstructionExamples.v
ServiceExamples.v
