(* ===== verification/Prelude.v ===== *)
(** * OctoForge core: a verification development

    OctoForge ([src/core/src/octoforge_core]) is the core of a multi-user
    assistant.  A dialog of a person over a channel is run by an actor; a
    message of the person belongs to an exchange, an obligation to answer; an
    exchange is answered by a run, which streams an agent loop over a private
    branch of the dialog's narrative; what a run ends with goes to the log and,
    through an outbox, to the transports attached to the dialog.  Several
    processes may share one database; claims with generations say which of
    them runs a dialog.

    ** How the program is modelled

    Code that reads or writes state is a computation of the state and error
    monad [M S E A] of this file: [S -> Res E A * S].  Python's exceptions are
    the constructors of [Domain.Exn]; [except Exception] lets a cancellation
    through, as in Python.  A [dict] is an association list in insertion order
    ([Dict]), a [str] the list of its code points ([PyStr]), a [datetime] its
    microseconds since the epoch ([Clock]), a table the list of its rows in
    insertion order ([Sql]).

    Concurrency is the cooperative kind of [asyncio].  In a store method the
    other writers are an argument: the rows they commit under a statement.  In
    the compactor and in the actor every [await] is a point where the rest of
    the process runs, an arbitrary function of the state ([others k] at the
    k-th point); theorems about it assume a relation the others respect (a
    rely), or that they do nothing ([quiet]).  A unit of work is one
    transaction: nothing runs between its statements.

    ** The files

    - [Prelude]: the monad, its combinators and laws, [evolves] (a computation
      stays within a preorder) and [preserves] (it keeps an invariant), lists.
    - [PyStr], [Clock], [Sql], [Dict]: strings, time, tables, dictionaries.
    - [Domain]: [domain.py], [dialogs/api.py], [tasks/api.py],
      [agent/events.py], [llm/usage.py], the value objects of [tariffs/api.py]
      and [context/api.py].
    - [UnitOfWork]: [db/unit_of_work.py].  A connection may fail at any round
      trip; the faults are a list in its state.
    - [Codec], [ExchangeStore], [MessageStore], [ClaimStore]:
      [dialogs/store.py]; [TaskStore]: [tasks/store.py]; [SummaryStore]:
      [context/store.py].
    - [Compactor]: [context/compactor.py] and [context/prompts.py].  Its port
      is the record [ContextCompactor]; the class [CompactorLaws] is what the
      actor relies on, and both implementations are instances.
    - [Branch]: [agent/branch.py]; [Router]: [agent/router.py], with the class
      [RouterLaws] for its port; [Broadcast]: the subscriber queues.
    - The dialog actor, [ConversationRunner] of [agent/runner.py]:
      [RunnerText] (its pure helpers and texts), [RunnerState] (its fields, the
      database, its ports, its primitives), [Outbox] (deliveries and notices),
      [Pump] (runs), [Answers] (obligations and the end of a run), [Intake]
      (forwarded material, routing and submits), [Actor] (inbox,
      background runs, questions, stop, standing down).  The laws are in
      [PumpLaws], [AnswerLaws], [IntakeLaws], [ActorLaws].
    - [Loop]: [agent/loop.py], [llm/events.py] and [tools/registry.py], a run
      as a generator over its surroundings; [LoopLaws]: its laws, also as the
      actor runs it.
    - [Manager]: [ConversationManager] of [agent/runner.py], the registry of
      actors of a process.  An actor's handler runs on its own world inside the
      manager's; [ManagerLaws]: what every operation keeps, [ManagerRuns]: what
      it does when nothing else runs.
    - [Cron]: [cron/api.py], [cron/store.py], [cron/reporter.py],
      [cron/tools.py] and [cron/scheduler.py]; [CronLaws].
    - [Collecting]: [agent/collecting.py], over its ports and over the registry.
    - [Tariffs]: [tariffs/api.py], [tariffs/models.py], [tariffs/store.py],
      [tariffs/seed.py] and [tariffs/service.py]; [TariffLaws].
    - [TaskTools]: [tasks/tools.py], with its laws.
    - [ResponseMemory]: [net/response_memory.py], over [PyFloat], the binary64
      arithmetic of its estimates, with its laws.
    - Collections, [net/collections/]: [CollectionSchema] (schemas folded from
      records), [Collections] (the two tables), [CollectionQuery] (the query
      language compiled to SQL), [CollectionIngest] (from a
      body to a collection or a parked document, and the tools); their laws
      are in the same files, [CollectionLaws] and [CollectionQueryLaws].
    - External calls ([net/tool_spec.py], [net/guard.py], [net/external.py]):
      [Templates] (the placeholder language, with the parser of
      [string.Formatter]), [ToolSpecs] (an endpoint document to a record),
      [Guard] (over what is used of [urllib.parse] and [ipaddress], with the
      tables of Python 3.11), [External] (the executor, over ports for
      the client, the resolver, the stores and the delegates); [ExternalLaws].
    - Instructions and memories ([instructions/], [memory/tools.py]): [Ranking]
      (the records, their rankings and fusion, the share of a type),
      [Instructions] (the table, its constraints and its searches),
      [InstructionService] (the service and the registry of the system),
      [InstructionTools] (the tools); [InstructionLaws].  A computation of the
      service runs on the table and the counters waiting to be written
      ([ServiceState]).
    - [Datasets]: [datasets/], from the schema to the tools; [DatasetLaws].
    - [Llm]: the clients of models, [llm/errors.py] (what a failure is),
      [llm/retry.py] (both retry policies) and [llm/openai.py] (requests,
      replies and streams); [LlmLaws], which also puts a stream under the agent
      loop of [Loop].  A stream is what it yielded and how it ended ([Play]).
    - [Mcp]: [mcp/], the table of servers, the client, the executor of mirrored
      tools, the usage skills, the sync and the tool; [McpLaws].  The sync runs
      on the table of servers beside the state of the instruction service
      ([McpWorld]).
    - [Embeddings]: [llm/embeddings.py], [llm/http_reranker.py] and
      [llm/embedding_cache.py], with their laws.  The cache is a step function
      ([happen]) on its dictionaries, its futures and the calls in progress: an
      event is what lets one call run on from one [await] to the next.
    - [Media]: [media/], [vision/] and [speech/], with its laws; the concurrent
      descriptions of an album advance in the order of a schedule.
    - [NetTools]: [net/tools.py], [search/] and [context/tools.py], with its laws.
    - [TelegramBridge]: [bridge.py] and [drafts.py] of
      [src/surfaces/telegram], the chat of a dialog; [TelegramBridgeLaws].  A
      timer is a field of its draft; what runs while a request is on its way is
      again a function of the state.
    - [Secrets]: [secrets/]; [SecretLaws].  [Identity]: [identity/],
      [params/] and [settings/]; [IdentityLaws].
    - [Samples], [StoreExamples], [CronExamples], [UserExamples],
      [CollectionExamples], [InstructionExamples], [ServiceExamples]:
      concrete data and the theorems applied to it.

    ** What the theorems show

    - Stores: messages get consecutive numbers and are not lost to races; pairs
      are stored together; settled exchanges stay settled; a stale run settles
      nothing; crash recovery reopens what it should; a preempted process is
      never confirmed; the SQL task store answers as its in-memory reference
      does where ids are fresh and tasks are added in the order they were made.
    - Units of work are atomic whatever fails in them.
    - Compaction never loses a message and never runs twice on a dialog; an
      assembled prompt has no gap unless a message arrives while it is put
      together; the router's decisions are always valid.
    - Runs: an answer is stored, its task ended and the narrative extended
      together or not at all; a sync keeps the private part of a branch; the
      end of a run frees its own slot, tells the actor of its own task and
      exchange, and moves the exchange as the outcome and the unseen messages
      say; the streaming loop ends; every way to start a run keeps the limits.
    - A run of the agent loop ends with one terminal and whole iterations, and
      its tool replies are those of a sequential run; the actor's run of it
      reports the terminal the loop yielded.
    - The actor survives failing commands, ignores redelivered ones, covers a
      stop pressed too early, delivers in order and stamps what was accepted,
      and closes its streams when it stands down.
    - The registry: actors and builds stay where they belong, a heartbeat keeps
      exactly the confirmed actors, background work leaves other processes'
      dialogs alone, recovery fails soft, a shutdown gives every claim back.
    - Scheduled jobs are leased to one scheduler at a time; a firing leaves its
      job as its delivery ended; the missed runs reported are the slots missed.
    - The catalogue of plans keeps one default at most and bindings to plans
      that exist; a run starts exactly when the plan has room for it in the
      ledger of the day; metering never fails; starter plans touch nothing.
    - The task tools of a user reach no other user's jobs and no other dialog's
      tasks.
    - Parked documents stay within the budget of their owner and are read by
      nobody else; a search shows every occurrence it counts whole.
    - The schema of a collection fits its records, its counters tell the truth,
      creating one keeps the quotas; the SQL text of a query depends on its
      shape alone and mentions each bound parameter once.
    - Pouring into a collection keeps its records within its schema; the records
      of a body are the nearest array of objects, and a cut is told.
    - An endpoint sends only requests the guard let through, its URL, headers
      and body each made of the values allowed there and of secrets bound to the
      host asked for; where an address is written with [://], host parameters
      alone, under their allowlists, decide for given user values where it goes,
      but for one the pages' cursor overwrites; no maskable form of a secret is in what
      a request answers, escapes apart; a walk over pages asks for none
      twice; the guard blocks exactly the IPv4 ranges listed.
    - Instructions: titles stay unique for an owner and among the public ones,
      memories private, the system's records public; a user's writes leave
      everybody else's records alone; a start makes the registry of the table
      and a second one does nothing; a search shows what the user may see; a
      type takes half of a mixed result at most; embeddings catch up; memories
      stay within the plan's size.
    - Datasets: schemas read back, records fit the schema of a dataset of their
      owner, a query answers what it says and finds what was put, creating one
      keeps the quota.
    - Model calls: a retry comes after a transient failure only, a bounded
      number of times, and never repeats what a stream showed; a stream ends
      with the message its pieces make up, however they were cut, and with the
      calls it announced; the agent loop has run each call of it; a message
      reads back as it was sent.
    - MCP: a server's URL has one row whoever races; after a sync the records of
      its namespace are its tools and nothing else moved; a record calls the
      tool it was written for.
    - Embeddings and scores come in the order they were asked for, whatever the
      order of the answer; the cache answers with the vectors of the texts asked
      for, stays within its size, and no two batches of missing texts share one.
    - Media: where the gate answers no nothing is fetched; where it answers yes
      each file is fetched once and the ledger gets exactly what the models
      answered.
    - Lookups: no raw request leaves unless the plan, the list of origins and
      the guard let it; a web search stays within what was asked for; a search
      in the history lists exactly the messages it is for.
    - The chat of a dialog: an answer that ends is in the chat whole, each
      piece in its own message, as a reference fold of its events says, whatever
      failed before; long answers are cut at line ends without loss; a start
      inside a start changes nothing.
    - A secret comes back to its owner for a host its binding covers, label by
      label, and to nobody else; a code opens the form it was issued for.
    - An account is of one person for good, short of re-seating; admission keeps
      the cap.
    - Some theorems state how the code falls short of what it says:
      [failed_assembly_strands], [reparented_material_is_missed],
      [trim_forgets_unseen], [compact_now_inherits_failure],
      [drop_deregisters_successor], [evict_leaks_recovering_actor],
      [bad_schedule_cuts_tick], [metering_between_is_missed],
      [late_stop_overwrites], [find_position_past_end],
      [refused_contact_leaves_person], [sink_behind_breaks_schema],
      [one_slash_lets_a_string_name_the_host], [walk_misses_wire_cut],
      [cap_drops_exact_title], [text_search_forgets_vectors],
      [publish_of_a_taken_title], [shrinking_rewrite_is_refused],
      [old_embedding_fails_the_search], [call_without_id],
      [null_index_is_never_ready], [interleaved_arguments_are_lost],
      [hint_of_zero_is_ignored], [backoff_has_no_cap],
      [cancelled_waiter_cancels_others], [cancelled_computation_cancels_others],
      [short_answer_strands], [short_date_ends_at_midnight],
      [late_text_is_stranded], [early_timer_strands], [cancelled_send_repeats],
      [sealed_head_repeats], [late_message_leaves_gap],
      [evicted_text_is_computed_twice], [cursor_names_the_host],
      [escaped_secret_is_kept], [used_id_differs], [earlier_task_differs].

    ** Bounds

    The fuel of [Pump.stream_loop] is two turns, and
    [PumpLaws.stream_terminal_two_turns] shows that more change nothing.  The
    flush of the outbox takes every delivery queued when it starts and up to
    [Outbox.FLUSH_SLACK] queued while it runs; beyond that the model fails, it
    does not stop quietly.  The walk of [Intake.reparent_material] is bounded
    by the length of the narrative it starts with: nothing appended meanwhile
    is of the collection it moves.  [Actor.run_actor] takes the number of turns
    as an argument: the actor's loop has no end of its own; so do
    [Manager.run_heartbeat] and [Cron.run_rounds].  The fuel of
    [Cron.count_slots] is its cap and three, and [CronLaws.count_missed_spec]
    shows that the cap ends the count before the fuel does.  [External.walk_pages]
    takes the page ceiling as its fuel, as the loop of the source does;
    [Templates.scan] the length of the template and one, which
    [Templates.scan_more] shows to be enough.  The retry loops of [Llm] have the
    retries allowed as their fuel: the guard of the source stops them first, and
    [LlmLaws.complete_retries] shows that the last result is the one returned.
    [Mcp.list_pages] takes [MAX_LIST_PAGES] pages, as the source does, and
    [Mcp.sync_forever] the number of turns.  A schedule of [Media.gather] is
    followed by two turns of each picture, which is what a description needs at
    most: no schedule leaves one unfinished.  [TelegramBridge.seal_heads] may
    seal as many messages as there are pieces, which
    [TelegramBridgeLaws.seal_spec] shows to be enough.

    ** What is not modelled

    The rows other processes commit to a dialog's log while the actor's own
    append is under way: in the actor's world they come at the [await] before
    it, and [MessageStore.append_not_lost] shows that the retries of an append
    come to the same.  The prose of the tools' descriptions; the construction of the full-text
    mirror of SQLite; the statistics a stream logs.  The HTTP transport under
    the clients, the local embedding and reranking models, the operator
    commands, migrations, the surfaces but for the Telegram bridge,
    the server and deployment are I/O around
    the core.  The text of
    the prompt provider, the class name and text of an exception, encryption,
    hashes, JSON texts, the Unicode tables of case and of digits, the
    checks of [urlsplit] on bracketed and on non-ASCII hosts, the reader of an
    address text, the decoding of a body, the collation of ILIKE, the
    embedder and the reranker of a search, norms and products of vectors, the relevance of a
    text to a query, the reading of ISO and HTTP dates, [float] of a text, [str]
    of a value that is no text, [str.format] with other fields than [{value}],
    and the model that writes usage skills are parameters. *)
From stdpp Require Export base tactics list numbers option sorting gmap.
From Stdlib Require Export ZArith Lia.

#[export] Set Default Goal Selector "!".

(** ** Tactics of the development *)

(** Case analysis on every [match] and [if] of the goal, then the closers. *)
Ltac crush_match :=
  repeat (case_match; simplify_eq/=); try done; try lia.

(** Destructs the scrutinee of the first [match] in hypothesis [H]. *)
Ltac break_match_in H :=
  match type of H with
  | context [match ?x with _ => _ end] => destruct x eqn:?
  end.

(** Decides a closed decidable proposition by computation. *)
Ltac vm_decide := apply (bool_decide_unpack _); vm_compute; exact I.

(** ** The state-and-exception monad

    A coroutine of the source is a computation over the state it can touch.
    An exception does not undo the assignments made before it, so the state
    comes back in both cases. *)
Inductive Res (E A : Type) : Type :=
| Ok (a : A)
| Err (e : E).
Arguments Ok {E A} a.
Arguments Err {E A} e.

Definition M (S E A : Type) : Type := S -> Res E A * S.

Definition ret {S E A} (a : A) : M S E A := fun s => (Ok a, s).
Definition raise {S E A} (e : E) : M S E A := fun s => (Err e, s).
Definition bind {S E A B} (m : M S E A) (k : A -> M S E B) : M S E B :=
  fun s => match m s with
           | (Ok a, s') => k a s'
           | (Err e, s') => (Err e, s')
           end.
Definition get_st {S E} : M S E S := fun s => (Ok s, s).
Definition gets {S E A} (f : S -> A) : M S E A := fun s => (Ok (f s), s).
Definition modify {S E} (f : S -> S) : M S E unit := fun s => (Ok tt, f s).

(** [try: m except e: h e], and [with suppress(p): m]. *)
Definition try_except {S E A} (m : M S E A) (h : E -> M S E A) : M S E A :=
  fun s => match m s with
           | (Ok a, s') => (Ok a, s')
           | (Err e, s') => h e s'
           end.
Definition suppress {S E} (p : E -> bool) (m : M S E unit) : M S E unit :=
  try_except m (fun e => if p e then ret tt else raise e).

Declare Scope monad_scope.
Delimit Scope monad_scope with monad.
Notation "'let!' x := m 'in' k" := (bind m (fun x => k))
  (at level 10, x name, m at level 100, k at level 200) : monad_scope.
Notation "'let!' ' p := m 'in' k" := (bind m (fun x => match x with p => k end))
  (at level 10, p pattern, m at level 100, k at level 200) : monad_scope.
Notation "m ;;; k" := (bind m (fun _ => k))
  (at level 199, right associativity) : monad_scope.
Open Scope monad_scope.

(** A computation without state, and its place among those with one. *)
Definition rbind {E A B} (r : Res E A) (k : A -> Res E B) : Res E B :=
  match r with Ok a => k a | Err e => Err e end.
Definition lift {S E A} (r : Res E A) : M S E A := fun s => (r, s).
Notation "'let?' x := r 'in' k" := (rbind r (fun x => k))
  (at level 10, x name, r at level 100, k at level 200) : monad_scope.
Notation "'let?' ' p := r 'in' k" := (rbind r (fun x => match x with p => k end))
  (at level 10, p pattern, r at level 100, k at level 200) : monad_scope.
Lemma rbind_Ok {E A B} (r : Res E A) (k : A -> Res E B) b : rbind r k = Ok b -> exists a, r = Ok a /\ k a = Ok b.
Proof. destruct r; [eauto|done]. Qed.

(** [[f(x) for x in l]] that may raise. *)
Fixpoint each {E A B} (f : A -> Res E B) (l : list A) : Res E (list B) :=
  match l with
  | [] => Ok []
  | x :: l => let? y := f x in let? ys := each f l in Ok (y :: ys)
  end.
Lemma each_Ok {E A B} (f : A -> Res E B) (g : A -> B) l : (forall x, x ∈ l -> f x = Ok (g x)) -> each f l = Ok (g <$> l).
Proof.
  induction l as [|x l IH]; intros H; [done|]. cbn. rewrite H by by left. cbn. rewrite IH; [done|]. intros y Hy. apply H. by right.
Qed.

Definition when {S E} (b : bool) (m : M S E unit) : M S E unit := if b then m else ret tt.

(** [for x in l: f(x)] *)
Fixpoint for_each {S E A} (l : list A) (f : A -> M S E unit) : M S E unit :=
  match l with
  | [] => ret tt
  | x :: l => f x ;;; for_each l f
  end.

(** ** Reasoning about computations *)

(** [m] relates every start state to its end state by [R], whether it
    returns or raises. *)
Definition evolves {S E A} (R : S -> S -> Prop) (m : M S E A) : Prop :=
  forall s, R s (m s).2.

Lemma bind_Ok {S E A B} (m : M S E A) (k : A -> M S E B) s a s' :
  m s = (Ok a, s') -> bind m k s = k a s'.
Proof. intros H. unfold bind. by rewrite H. Qed.
Lemma bind_Err {S E A B} (m : M S E A) (k : A -> M S E B) s e s' :
  m s = (Err e, s') -> bind m k s = (Err e, s').
Proof. intros H. unfold bind. by rewrite H. Qed.
(** Two continuations that agree on what [m] returns. *)
Lemma bind_ext {S E A B} (m : M S E A) (k1 k2 : A -> M S E B) s :
  (forall a s', m s = (Ok a, s') -> k1 a s' = k2 a s') -> bind m k1 s = bind m k2 s.
Proof. intros H. unfold bind. destruct (m s) as [[a|e] s'] eqn:Hm; [by apply H|done]. Qed.
Lemma bind_assoc {S E A B C} (m : M S E A) (k : A -> M S E B) (h : B -> M S E C) s :
  bind (bind m k) h s = bind m (fun a => bind (k a) h) s.
Proof. unfold bind. by destruct (m s) as [[?|?] ?]. Qed.

(** What a computation that returned went through. *)
Lemma bind_result {S E A B} (m : M S E A) (k : A -> M S E B) s b s' :
  bind m k s = (Ok b, s') -> exists a s1, m s = (Ok a, s1) /\ k a s1 = (Ok b, s').
Proof. unfold bind. destruct (m s) as [[a|e] s1]; [by eexists _, _|done]. Qed.
Lemma try_result {S E A} (m : M S E A) (h : E -> M S E A) s a s' :
  try_except m h s = (Ok a, s') -> m s = (Ok a, s') \/ exists e s1, m s = (Err e, s1) /\ h e s1 = (Ok a, s').
Proof. unfold try_except. destruct (m s) as [[?|e] s1]; [auto|eauto]. Qed.

(** [m] preserves the invariant [I]. *)
Definition preserves {S E A} (I : S -> Prop) (m : M S E A) : Prop :=
  forall s, I s -> I (m s).2.

Create HintDb keep discriminated.
#[export] Hint Constants Opaque : keep.
#[export] Hint Variables Opaque : keep.

Section Preserves.
Context {S E : Type} (I : S -> Prop).

Lemma preserves_ret {A} (a : A) : preserves I (ret (E:=E) a).
Proof. by intros s. Qed.
Lemma preserves_raise {A} (e : E) : preserves I (raise (A:=A) e).
Proof. by intros s. Qed.
Lemma preserves_get_st : preserves I (get_st (E:=E)).
Proof. by intros s. Qed.
Lemma preserves_gets {A} (f : S -> A) : preserves I (gets (E:=E) f).
Proof. by intros s. Qed.
Lemma preserves_modify f : (forall s, I s -> I (f s)) -> preserves I (modify (E:=E) f).
Proof. intros H s Hs. by apply H. Qed.
Lemma preserves_bind {A B} (m : M S E A) (k : A -> M S E B) :
  preserves I m -> (forall a, preserves I (k a)) -> preserves I (bind m k).
Proof.
  intros Hm Hk s Hs. unfold bind. specialize (Hm s Hs).
  destruct (m s) as [[a|e] s']; simpl in *; [by apply Hk | done].
Qed.
Lemma preserves_try {A} (m : M S E A) h :
  preserves I m -> (forall e, preserves I (h e)) -> preserves I (try_except m h).
Proof.
  intros Hm Hh s Hs. unfold try_except. specialize (Hm s Hs).
  destruct (m s) as [[a|e] s']; simpl in *; [done | by apply Hh].
Qed.
Lemma preserves_suppress p (m : M S E unit) : preserves I m -> preserves I (suppress p m).
Proof.
  intros Hm. apply preserves_try; [done|]. intros e. destruct (p e); by intros s.
Qed.
Lemma preserves_when b (m : M S E unit) : preserves I m -> preserves I (when b m).
Proof. destruct b; [done | by intros _ s]. Qed.
Lemma preserves_for_each {A} (l : list A) f :
  (forall x, preserves I (f x)) -> preserves I (for_each (E:=E) l f).
Proof.
  intros Hf. induction l as [|x l IH]; simpl; [by intros s|]. by apply preserves_bind.
Qed.
End Preserves.

#[export] Hint Resolve preserves_ret preserves_raise preserves_get_st preserves_gets : keep.
#[export] Hint Resolve preserves_bind preserves_try preserves_suppress preserves_when
  preserves_for_each : keep.

Section Evolves.
Context {S E : Type} (R : S -> S -> Prop) `{!PreOrder R}.

Lemma evolves_ret {A} (a : A) : evolves R (ret (E:=E) a).
Proof. intros s. reflexivity. Qed.
Lemma evolves_raise {A} (e : E) : evolves R (raise (A:=A) e).
Proof. intros s. reflexivity. Qed.
Lemma evolves_get_st : evolves R (get_st (E:=E)).
Proof. intros s. reflexivity. Qed.
Lemma evolves_gets {A} (f : S -> A) : evolves R (gets (E:=E) f).
Proof. intros s. reflexivity. Qed.
Lemma evolves_modify f : (forall s, R s (f s)) -> evolves R (modify (E:=E) f).
Proof. intros H s. apply H. Qed.
Lemma evolves_bind {A B} (m : M S E A) (k : A -> M S E B) :
  evolves R m -> (forall a, evolves R (k a)) -> evolves R (bind m k).
Proof.
  intros Hm Hk s. unfold bind. specialize (Hm s).
  destruct (m s) as [[a|e] s']; simpl in *; [|done]. etrans; [done|]. apply Hk.
Qed.
Lemma evolves_try {A} (m : M S E A) h :
  evolves R m -> (forall e, evolves R (h e)) -> evolves R (try_except m h).
Proof.
  intros Hm Hh s. unfold try_except. specialize (Hm s).
  destruct (m s) as [[a|e] s']; simpl in *; [done|]. etrans; [done|]. apply Hh.
Qed.
Lemma evolves_suppress p (m : M S E unit) : evolves R m -> evolves R (suppress p m).
Proof.
  intros Hm. apply evolves_try; [done|]. intros e.
  destruct (p e); [apply evolves_ret | apply evolves_raise].
Qed.
Lemma evolves_when b (m : M S E unit) : evolves R m -> evolves R (when b m).
Proof. destruct b; [done | intros _; apply evolves_ret]. Qed.
Lemma evolves_for_each {A} (l : list A) f :
  (forall x, evolves R (f x)) -> evolves R (for_each (E:=E) l f).
Proof.
  intros Hf. induction l as [|x l IH]; simpl; [apply evolves_ret|]. by apply evolves_bind.
Qed.
End Evolves.

#[export] Hint Resolve evolves_ret evolves_raise evolves_get_st evolves_gets : keep.
#[export] Hint Resolve evolves_bind evolves_try evolves_suppress evolves_when
  evolves_for_each : keep.

(** Splits a computation into its primitive steps; what the hint database
    does not know is left to the caller. *)
Ltac keep_step :=
  first
    [ apply preserves_ret | apply preserves_raise | apply preserves_get_st
    | apply preserves_gets | apply preserves_bind; [|intros ?]
    | apply preserves_try; [|intros ?] | apply preserves_suppress
    | apply preserves_when | apply preserves_for_each; intros ?
    | solve [auto with keep]
    | apply evolves_ret; exact _ | apply evolves_raise; exact _ | apply evolves_get_st; exact _
    | apply evolves_gets; exact _ | apply evolves_bind; [exact _| |intros ?]
    | apply evolves_try; [exact _| |intros ?] | apply evolves_suppress; [exact _|]
    | apply evolves_when; [exact _|] | apply evolves_for_each; [exact _|intros ?]
    | case_match ].
Ltac keep_auto := repeat keep_step.

(** ** Reachability *)
Section Star.
Context {A : Type} (step : A -> A -> Prop).

Inductive star : A -> A -> Prop :=
| star_refl a : star a a
| star_step a b c : step a b -> star b c -> star a c.

Lemma star_trans a b c : star a b -> star b c -> star a c.
Proof. induction 1; eauto using star_step. Qed.

Lemma star_invariant (I : A -> Prop) :
  (forall a b, I a -> step a b -> I b) -> forall a b, star a b -> I a -> I b.
Proof. intros Hstep a b Hab. induction Hab; eauto. Qed.
End Star.

(** ** Lists *)

Lemma Forall_filter_keep {A} (Q : A -> Prop) P `{!forall x : A, Decision (P x)} (l : list A) :
  Forall Q l -> Forall Q (filter P l).
Proof. rewrite !Forall_forall. intros HQ x [_ Hx]%list_elem_of_filter. by apply HQ. Qed.

Lemma filter_all {A} P `{!forall x : A, Decision (P x)} (l : list A) :
  Forall P l -> filter P l = l.
Proof.
  induction 1 as [|x l Hx _ IH]; [done|]. by rewrite filter_cons_True, IH.
Qed.

Lemma filter_none {A} P `{!forall x : A, Decision (P x)} (l : list A) :
  Forall (fun x => ~ P x) l -> filter P l = [].
Proof.
  induction 1 as [|x l Hx _ IH]; [done|]. by rewrite filter_cons_False.
Qed.

Lemma head_filter_Some {A} P `{!forall x : A, Decision (P x)} (l : list A) x :
  head (filter P l) = Some x -> x ∈ l /\ P x.
Proof.
  intros Hh. assert (x ∈ filter P l) as Hx.
  { destruct (filter P l); simplify_eq/=. apply list_elem_of_here. }
  by apply list_elem_of_filter in Hx as [??].
Qed.

Lemma head_filter_None {A} P `{!forall x : A, Decision (P x)} (l : list A) :
  head (filter P l) = None <-> Forall (fun x => ~ P x) l.
Proof.
  induction l as [|x l IH]; [by split|]. rewrite filter_cons, Forall_cons.
  case_decide; naive_solver.
Qed.

Lemma Forall_sublist {A} (Q : A -> Prop) (l k : list A) : sublist l k -> Forall Q k -> Forall Q l.
Proof.
  intros Hs. rewrite !Forall_forall. intros HQ x Hx. apply HQ.
  by eapply elem_of_sublist.
Qed.

Lemma StronglySorted_sublist {A} (R : A -> A -> Prop) l k :
  sublist l k -> StronglySorted R k -> StronglySorted R l.
Proof.
  induction 1 as [|x l k Hs IH|x l k Hs IH]; intros Hk; [done| |]; inv Hk; [|by apply IH].
  constructor; [by apply IH|]. by eapply Forall_sublist.
Qed.

(** Two filters agree when their predicates do on the list's own elements. *)
Lemma list_filter_iff' {A} P Q `{!forall x : A, Decision (P x)} `{!forall x : A, Decision (Q x)}
    (l : list A) :
  (forall x, x ∈ l -> P x <-> Q x) -> filter P l = filter Q l.
Proof.
  induction l as [|x l IH]; intros Hiff; [done|]. rewrite !filter_cons.
  assert (P x <-> Q x) by (apply Hiff, list_elem_of_here).
  rewrite IH by (intros y Hy; by apply Hiff, list_elem_of_further).
  repeat case_decide; tauto.
Qed.

Lemma filter_fmap {A B} (f : A -> B) P `{!forall x : B, Decision (P x)} (l : list A) :
  filter P (f <$> l) = f <$> filter (fun x => P (f x)) l.
Proof.
  induction l as [|x l IH]; [done|]. rewrite fmap_cons.
  destruct (decide (P (f x))).
  - rewrite !filter_cons_True by done. by rewrite fmap_cons, IH.
  - by rewrite !filter_cons_False by done.
Qed.

Fixpoint sum_Z (l : list Z) : Z :=
  match l with [] => 0 | x :: l => x + sum_Z l end%Z.

Lemma sum_Z_app l k : sum_Z (l ++ k) = (sum_Z l + sum_Z k)%Z.
Proof. induction l; simpl; lia. Qed.

Lemma sum_Z_nonneg l : Forall (fun x => 0 <= x)%Z l -> (0 <= sum_Z l)%Z.
Proof. induction 1; simpl; lia. Qed.

(** Counting with sets. *)
Lemma size_list_to_set_le `{Countable K} (l : list K) :
  size (list_to_set l : gset K) <= length l.
Proof.
  induction l as [|x l IH]; [done|]. cbn [list_to_set length].
  rewrite size_union_alt, size_singleton.
  assert (size ((list_to_set l : gset K) ∖ {[x]}) <= size (list_to_set l : gset K)) by
    (apply subseteq_size; set_solver). unfold list_to_set in *. lia.
Qed.

Lemma length_omap_le {A B} (f : A -> option B) (l : list A) : length (omap f l) <= length l.
Proof. induction l as [|x l IH]; [done|]. cbn. destruct (f x); cbn; unfold omap in *; lia. Qed.
