(* ===== verification/PyStr.v ===== *)
(** * Python strings

    A [str] is the sequence of its Unicode code points, so that [len] and
    slices count what Python counts.  String literals in the scope [py] are
    decoded from UTF-8 when they are read.  The functions are the methods of
    [str] that the modelled code calls. *)
From stdpp Require Import pretty strings.
From Stdlib Require Import Strings.Byte.
From S2P Require Import Prelude.

Inductive pystr : Set := PyStr (codes : list N).
Definition codes (s : pystr) : list N := let 'PyStr l := s in l.

#[export] Instance pystr_eq_dec : EqDecision pystr.
Proof. solve_decision. Defined.
#[export] Instance pystr_countable : Countable pystr.
Proof. refine (inj_countable' codes PyStr _). by intros []. Defined.
#[export] Instance pystr_inhabited : Inhabited pystr := populate (PyStr []).

Module Utf8.
Definition cont (b : byte) : N := (Byte.to_N b - 128)%N.

Fixpoint decode (fuel : nat) (l : list byte) : option (list N) :=
  match fuel, l with
  | _, [] => Some []
  | O, _ => None
  | S fuel, b :: r =>
      let c := Byte.to_N b in
      if (c <? 128)%N then cons c <$> decode fuel r
      else if (c <? 224)%N then
        match r with
        | b1 :: r => cons ((c - 192) * 64 + cont b1)%N <$> decode fuel r
        | _ => None
        end
      else if (c <? 240)%N then
        match r with
        | b1 :: b2 :: r =>
            cons ((c - 224) * 4096 + cont b1 * 64 + cont b2)%N <$> decode fuel r
        | _ => None
        end
      else
        match r with
        | b1 :: b2 :: b3 :: r =>
            cons ((c - 240) * 262144 + cont b1 * 4096 + cont b2 * 64 + cont b3)%N
              <$> decode fuel r
        | _ => None
        end
  end.

Definition parse (l : list byte) : option pystr := PyStr <$> decode (length l) l.
Definition print (s : pystr) : option (list byte) := None.
End Utf8.

Declare Scope py_scope.
Delimit Scope py_scope with py.
String Notation pystr Utf8.parse Utf8.print : py_scope.
Bind Scope py_scope with pystr.
Open Scope py_scope.

(** ** Length, concatenation, slices *)

Definition str_len (s : pystr) : Z := Z.of_nat (length (codes s)).
Definition str_app (s t : pystr) : pystr := PyStr (codes s ++ codes t).
Infix "+s+" := str_app (at level 60, right associativity) : py_scope.

(** [s[:n]] and [s[n:]] for a non-negative [n]. *)
Definition str_take (n : Z) (s : pystr) : pystr := PyStr (take (Z.to_nat n) (codes s)).
Definition str_drop (n : Z) (s : pystr) : pystr := PyStr (drop (Z.to_nat n) (codes s)).

Definition newline : pystr := PyStr [10%N].

(** [not s] *)
Definition str_empty (s : pystr) : bool := match codes s with [] => true | _ => false end.

(** [sep.join(l)] *)
Fixpoint str_join (sep : pystr) (l : list pystr) : pystr :=
  match l with
  | [] => ""
  | [s] => s
  | s :: l => s +s+ sep +s+ str_join sep l
  end.

(** [str(n)] for an int *)
Definition str_of_Z (z : Z) : pystr :=
  PyStr (map Ascii.N_of_ascii (String.list_ascii_of_string (pretty z))).

(** ** White space *)

(** The code points for which [str.isspace] holds. *)
Definition is_space (c : N) : bool :=
  bool_decide (c ∈ [9; 10; 11; 12; 13; 28; 29; 30; 31; 32; 133; 160; 5760; 8192; 8193; 8194;
    8195; 8196; 8197; 8198; 8199; 8200; 8201; 8202; 8232; 8233; 8239; 8287; 12288]%N).

Fixpoint drop_space (l : list N) : list N :=
  match l with
  | c :: r => if is_space c then drop_space r else l
  | [] => []
  end.

(** [s.strip()] *)
Definition str_strip (s : pystr) : pystr :=
  PyStr (rev (drop_space (rev (drop_space (codes s))))).

(** [s.split()]: the maximal runs without white space. [word] is the run
    being read, reversed. *)
Fixpoint split_words (word l : list N) : list (list N) :=
  match l with
  | [] => match word with [] => [] | _ => [rev word] end
  | c :: r =>
      if is_space c then
        match word with [] => split_words [] r | _ => rev word :: split_words [] r end
      else split_words (c :: word) r
  end.
Definition str_split (s : pystr) : list pystr := PyStr <$> split_words [] (codes s).

(** The code points at which [str.splitlines] cuts. *)
Definition is_line_break (c : N) : bool :=
  bool_decide (c ∈ [10; 11; 12; 13; 28; 29; 30; 133; 8232; 8233]%N).

(** [s.splitlines()]; "\r\n" is one break. [line] is the line being read,
    reversed, and [None] when the previous character ended one. *)
Fixpoint split_lines (line : option (list N)) (l : list N) : list (list N) :=
  match l with
  | [] => match line with None => [] | Some w => [rev w] end
  | c :: r =>
      if is_line_break c then
        rev (default [] line) ::
        match c, r with
        | 13%N, 10%N :: r => split_lines None r
        | _, _ => split_lines None r
        end
      else split_lines (Some (c :: default [] line)) r
  end.
Definition str_splitlines (s : pystr) : list pystr := PyStr <$> split_lines None (codes s).

(** ** Order: [s <= t], code point by code point *)

Fixpoint codes_leb (a b : list N) : bool :=
  match a, b with
  | [], _ => true
  | _ :: _, [] => false
  | x :: a, y :: b => (x <? y)%N || ((x =? y)%N && codes_leb a b)
  end.
Definition str_leb (s t : pystr) : bool := codes_leb (codes s) (codes t).

Lemma codes_leb_refl a : codes_leb a a = true.
Proof. induction a as [|x a IH]; simpl; [done|]. by rewrite N.eqb_refl, IH, orb_true_r. Qed.

Lemma codes_leb_total a b : codes_leb a b = false -> codes_leb b a = true.
Proof.
  revert b. induction a as [|x a IH]; intros [|y b]; simpl; try done.
  destruct (N.ltb_spec x y); [done|]. simpl.
  destruct (N.eqb_spec x y) as [->|]; simpl.
  - intros Hf. rewrite N.eqb_refl, IH by done. apply orb_true_r.
  - intros _. destruct (N.ltb_spec y x); [done|lia].
Qed.

Lemma codes_leb_antisym a b : codes_leb a b = true -> codes_leb b a = true -> a = b.
Proof.
  revert b. induction a as [|x a IH]; intros [|y b]; simpl; try done.
  rewrite !orb_true_iff, !andb_true_iff, !N.ltb_lt, !N.eqb_eq.
  intros [?|[-> ?]] [?|[? ?]]; try lia. f_equal. auto.
Qed.

Lemma codes_leb_trans a b c : codes_leb a b = true -> codes_leb b c = true -> codes_leb a c = true.
Proof.
  revert b c. induction a as [|x a IH]; intros [|y b] [|z c]; simpl; try done.
  rewrite !orb_true_iff, !andb_true_iff, !N.ltb_lt, !N.eqb_eq.
  intros [?|[-> ?]] [?|[<- ?]]; try (left; lia). right. split; [done|]. by eapply IH.
Qed.

(** ** Ids *)

(** [uuid.uuid4().hex]: ids come from a supply of pairwise distinct strings,
    the [n]-th one here. *)
Definition uuid4_hex (n : N) : pystr :=
  PyStr (map Ascii.N_of_ascii (String.list_ascii_of_string (pretty n))).

(** ** Lemmas *)

Lemma codes_inj s t : codes s = codes t -> s = t.
Proof. destruct s, t; simpl; congruence. Qed.

Lemma str_len_nonneg s : (0 <= str_len s)%Z.
Proof. unfold str_len. lia. Qed.

Lemma str_len_app s t : str_len (s +s+ t) = (str_len s + str_len t)%Z.
Proof. unfold str_len. simpl. rewrite length_app. lia. Qed.

Lemma str_len_take n s : (0 <= n)%Z -> str_len (str_take n s) = Z.min n (str_len s).
Proof. intros. unfold str_len. simpl. rewrite length_take. lia. Qed.

Lemma str_len_take_le n s : (0 <= n -> str_len (str_take n s) <= n)%Z.
Proof. intros. rewrite str_len_take by done. lia. Qed.

Lemma str_len_drop n s : (0 <= n)%Z -> str_len (str_drop n s) = Z.max 0 (str_len s - n)%Z.
Proof. intros. unfold str_len. simpl. rewrite length_drop. lia. Qed.

Lemma str_take_all n s : (str_len s <= n)%Z -> str_take n s = s.
Proof.
  intros Hn. apply codes_inj. simpl. apply take_ge. unfold str_len in Hn. lia.
Qed.

Lemma str_take_drop n s : str_take n s +s+ str_drop n s = s.
Proof. destruct s. unfold str_app. simpl. by rewrite take_drop. Qed.

Lemma str_empty_spec s : str_empty s = true <-> s = "".
Proof. destruct s as [[|c l]]; simpl; naive_solver. Qed.

#[export] Instance uuid4_hex_inj : Inj (=) (=) uuid4_hex.
Proof.
  intros a b [= H]. apply (inj pretty).
  assert (Hl : String.list_ascii_of_string (pretty a) = String.list_ascii_of_string (pretty b)).
  { revert H. generalize (String.list_ascii_of_string (pretty a)),
      (String.list_ascii_of_string (pretty b)).
    intros l. induction l as [|x l IH]; intros [|y k]; try done. intros [= Hx Hl].
    f_equal; [|by apply IH].
    rewrite <-(Ascii.ascii_N_embedding x), <-(Ascii.ascii_N_embedding y). by rewrite Hx. }
  apply (f_equal String.string_of_list_ascii) in Hl.
  by rewrite !String.string_of_list_ascii_of_string in Hl.
Qed.

Lemma drop_space_idem l : drop_space (drop_space l) = drop_space l.
Proof.
  induction l as [|c l IH]; [done|]. simpl. destruct (is_space c) eqn:Hc; [done|].
  simpl. by rewrite Hc.
Qed.

(** A stripped string is empty exactly when every character is a space. *)
Lemma drop_space_nil l : drop_space l = [] <-> Forall (fun c => is_space c = true) l.
Proof.
  induction l as [|c l IH]; simpl; [naive_solver|]. rewrite Forall_cons.
  destruct (is_space c); naive_solver.
Qed.

Lemma split_words_nospace word l :
  Forall (fun c => is_space c = false) word ->
  Forall (fun w => w <> [] /\ Forall (fun c => is_space c = false) w) (split_words word l).
Proof.
  assert (Hrev : forall w, w <> [] -> Forall (fun c => is_space c = false) w ->
    rev w <> [] /\ Forall (fun c => is_space c = false) (rev w)).
  { intros w Hw Hs. split.
    - intros H. apply Hw. by rewrite <-(rev_involutive w), H.
    - by apply List.Forall_rev. }
  revert word. induction l as [|c l IH]; intros word Hw; simpl.
  - destruct word; [done|]. apply Forall_singleton. by apply Hrev.
  - destruct (is_space c) eqn:Hc; [|apply IH; by constructor].
    destruct word as [|d word]; [by apply IH|]. constructor; [by apply Hrev | by apply IH].
Qed.

(** ** Prefixes and separators *)

(** [s.startswith(p)] *)
Definition str_startswith (p s : pystr) : bool :=
  bool_decide (take (length (codes p)) (codes s) = codes p).

(** [s.split(c)] for a one-character separator. *)
Fixpoint split_char (c : N) (l : list N) : list (list N) :=
  match l with
  | [] => [[]]
  | x :: l =>
      match split_char c l with
      | w :: ws => if decide (x = c) then [] :: w :: ws else (x :: w) :: ws
      | [] => []
      end
  end.
Definition str_split_char (c : N) (s : pystr) : list pystr := PyStr <$> split_char c (codes s).

(** [sep.join(l)] takes a split apart string together again. *)
Fixpoint join_char (c : N) (l : list (list N)) : list N :=
  match l with
  | [] => []
  | [w] => w
  | w :: ws => w ++ c :: join_char c ws
  end.
Lemma split_char_cons c l : exists w ws, split_char c l = w :: ws.
Proof.
  induction l as [|x l (w & ws & IH)]; cbn; [eauto|]. rewrite IH. case_decide; eauto.
Qed.
Lemma join_split_char c l : join_char c (split_char c l) = l.
Proof.
  induction l as [|x l IH]; cbn; [done|]. destruct (split_char_cons c l) as (w & ws & E).
  rewrite E in *. case_decide as Hx; cbn; [|destruct ws; cbn in *; congruence].
  destruct ws; cbn in *; congruence.
Qed.
Lemma split_char_inj c l k : split_char c l = split_char c k -> l = k.
Proof. intros H. by rewrite <-(join_split_char c l), H, join_split_char. Qed.
(** Splitting at a separator that stands after a piece without one. *)
Lemma split_char_app c w l : c ∉ w -> split_char c (w ++ c :: l) = w :: split_char c l.
Proof.
  induction w as [|x w IH]; intros Hc; cbn.
  - destruct (split_char_cons c l) as (v & vs & E). by rewrite E, decide_True.
  - rewrite not_elem_of_cons in Hc. rewrite IH by tauto. by rewrite decide_False by naive_solver.
Qed.
Lemma split_char_none c w : c ∉ w -> split_char c w = [w].
Proof.
  induction w as [|x w IH]; intros Hc; cbn; [done|]. rewrite not_elem_of_cons in Hc.
  rewrite IH by tauto. by rewrite decide_False by naive_solver.
Qed.
Lemma split_char_no_sep c l w : w ∈ split_char c l -> c ∉ w.
Proof.
  revert w. induction l as [|x l IH]; intros w; cbn.
  - intros ->%list_elem_of_singleton. apply not_elem_of_nil.
  - destruct (split_char_cons c l) as (v & vs & E). rewrite E in *. case_decide as Hx.
    + intros [->|Hw]%elem_of_cons; [apply not_elem_of_nil|by apply IH].
    + intros [->|Hw]%elem_of_cons; [|apply IH; by right].
      rewrite not_elem_of_cons. split; [done|apply IH; left].
Qed.
(** [s.rstrip(c)], [s.endswith(p)] and [c in s] for one character. *)
Fixpoint drop_char (c : N) (l : list N) : list N :=
  match l with
  | [] => []
  | x :: l' => if decide (x = c) then drop_char c l' else l
  end.
Definition str_rstrip_char (c : N) (s : pystr) : pystr := PyStr (rev (drop_char c (rev (codes s)))).
Definition str_endswith (p s : pystr) : bool :=
  bool_decide (length (codes p) <= length (codes s)) &&
  bool_decide (drop (length (codes s) - length (codes p)) (codes s) = codes p).
Definition str_has (c : N) (s : pystr) : bool := bool_decide (c ∈ codes s).
Lemma str_endswith_spec p s : str_endswith p s = true <-> exists l, codes s = l ++ codes p.
Proof.
  unfold str_endswith. rewrite andb_true_iff, !bool_decide_eq_true. split.
  - intros [Hl H]. exists (take (length (codes s) - length (codes p)) (codes s)).
    by rewrite <-H at 2; rewrite take_drop.
  - intros [l Hl]. rewrite Hl, length_app. split; [lia|].
    by replace (length l + length (codes p) - length (codes p)) with (length l) by lia; rewrite drop_app_length.
Qed.
