(* ===== verification/PyFloat.v ===== *)
(** * Floats

    A Python [float] is an IEEE double: the standard library's specification
    of the format, at its precision and exponent range, rounding to nearest
    even.  Here are the operations the source uses. *)
From Stdlib Require Import SpecFloat.
From S2P Require Import Prelude PyStr.

Definition float : Set := spec_float.
Definition prec : Z := 53.
Definition emax : Z := 1024.

(** [float(n)], [a + b], [a * b], [a / b] *)
Definition float_of_Z (n : Z) : float := binary_normalize prec emax n 0 false.
Definition fadd (a b : float) : float := SFadd prec emax a b.
Definition fmul (a b : float) : float := SFmul prec emax a b.
Definition fdiv (a b : float) : float := SFdiv prec emax a b.
(** The literals [2.4] and [2.5]. *)
Definition f2_4 : float := fdiv (float_of_Z 24) (float_of_Z 10).
Definition f2_5 : float := fdiv (float_of_Z 25) (float_of_Z 10).

(** [int(a)] of a finite float: towards zero. *)
Definition float_trunc (a : float) : Z :=
  match a with
  | S754_finite s m e =>
      let v := if (0 <=? e)%Z then (Z.pos m * 2 ^ e)%Z else (Z.pos m / 2 ^ (- e))%Z in
      if s then (- v)%Z else v
  | _ => 0
  end.

(** [num / den] rounded to the nearest integer, ties to even. *)
Definition round_half_even (num den : Z) : Z :=
  let q := (num / den)%Z in
  match (2 * (num mod den) ?= den)%Z with
  | Lt => q
  | Gt => q + 1
  | Eq => if Z.even q then q else q + 1
  end%Z.
(** [f"{a:.1f}"] of a finite float that is not negative. *)
Definition format_1f (a : float) : pystr :=
  let tenths :=
    match a with
    | S754_finite _ m e =>
        if (0 <=? e)%Z then (Z.pos m * 2 ^ e * 10)%Z else round_half_even (Z.pos m * 10) (2 ^ (- e))
    | _ => 0
    end%Z in
  str_of_Z (tenths / 10) +s+ "." +s+ str_of_Z (tenths mod 10).
(** [f"{a:.0f}"] of a finite float that is not negative. *)
Definition format_0f (a : float) : pystr :=
  str_of_Z match a with
           | S754_finite _ m e => if (0 <=? e)%Z then (Z.pos m * 2 ^ e)%Z else round_half_even (Z.pos m) (2 ^ (- e))
           | _ => 0%Z
           end.

Example format_half : format_1f (fdiv (float_of_Z 3350) (float_of_Z 1000)) = "3.4".
Proof. vm_compute. reflexivity. Qed.
Example format_quarter : format_1f (fdiv (float_of_Z 1250) (float_of_Z 1000)) = "1.2".
Proof. vm_compute. reflexivity. Qed.
Example trunc_sum : float_trunc (fadd (fdiv (float_of_Z 7) f2_4) (fdiv (float_of_Z 3) (float_of_Z 4))) = 3%Z.
Proof. vm_compute. reflexivity. Qed.
