(* ===== verification/Clock.v ===== *)
(** * Time

    An aware UTC [datetime] is the number of microseconds since the Unix
    epoch, its resolution; a [timedelta] or a configured number of seconds is
    a number of microseconds.  [utc_now] of the source reads the clock of the
    world the modelled function runs in. *)
From S2P Require Import Prelude PyStr.
Local Open Scope Z_scope.

Abbreviation time := Z (only parsing).
Definition seconds (n : Z) : Z := n * 1000000.

Definition day_us : Z := seconds 86400.
Definition utc_day (t : time) : Z := t / day_us.

(** The proleptic Gregorian date of a day number: the [date] arithmetic of
    the standard library's [datetime]. *)
Definition civil (day : Z) : Z * Z * Z :=
  let z := day + 719468 in
  let era := z / 146097 in
  let doe := z mod 146097 in
  let yoe := (doe - doe / 1460 + doe / 36524 - doe / 146096) / 365 in
  let doy := doe - (365 * yoe + yoe / 4 - yoe / 100) in
  let mp := (5 * doy + 2) / 153 in
  let d := doy - (153 * mp + 2) / 5 + 1 in
  let m := if mp <? 10 then mp + 3 else mp - 9 in
  (yoe + era * 400 + (if m <=? 2 then 1 else 0), m, d).

Definition pad2 (n : Z) : pystr := if n <? 10 then "0" +s+ str_of_Z n else str_of_Z n.

(** [t.strftime("%Y-%m-%d")] *)
Definition format_day (t : time) : pystr :=
  let '(y, m, d) := civil (utc_day t) in
  str_of_Z y +s+ "-" +s+ pad2 m +s+ "-" +s+ pad2 d.

(** [t.strftime("%Y-%m-%d %H:%M")] *)
Definition format_minute (t : time) : pystr :=
  let s := (t mod day_us) / seconds 1 in
  format_day t +s+ " " +s+ pad2 (s / 3600) +s+ ":" +s+ pad2 (s / 60 mod 60).

Fixpoint zeros (n : nat) : pystr := match n with O => "" | S n => "0" +s+ zeros n end.
Definition pad6 (n : Z) : pystr :=
  zeros (6 - length (codes (str_of_Z n))) +s+ str_of_Z n.

(** [t.isoformat()] of an aware UTC datetime: microseconds only when there
    are some. *)
Definition format_iso (t : time) : pystr :=
  let s := (t mod day_us) / seconds 1 in
  let us := t mod seconds 1 in
  format_day t +s+ "T" +s+ pad2 (s / 3600) +s+ ":" +s+ pad2 (s / 60 mod 60) +s+ ":" +s+
  pad2 (s mod 60) +s+ (if us =? 0 then "" else "." +s+ pad6 us) +s+ "+00:00".

Example format_iso_leap : format_iso (seconds 1709251199 + 42) = "2024-02-29T23:59:59.000042+00:00".
Proof. vm_compute. reflexivity. Qed.
Example format_epoch : format_minute 0 = "1970-01-01 00:00".
Proof. vm_compute. reflexivity. Qed.
Example format_leap : format_minute (seconds 1709251199) = "2024-02-29 23:59".
Proof. vm_compute. reflexivity. Qed.

Lemma format_day_same (t t' : time) : utc_day t = utc_day t' -> format_day t = format_day t'.
Proof. unfold format_day. by intros ->. Qed.
