(* ===== verification/Sql.v ===== *)
(** * Tables

    A table is the list of its rows in insertion order.  The stores of the
    source issue single-table statements; each is one of the operators here,
    with the statement's [where] clause as a decidable predicate on rows.
    [order_by] is a stable sort, so rows that compare equal keep the order
    they were inserted in. *)
From S2P Require Import Prelude PyStr.

Section Table.
Context {R : Type}.
Implicit Types (t : list R) (r : R).

(** [select(Row).where(P)] *)
Definition select_where (P : R -> Prop) `{!forall r, Decision (P r)} t : list R := filter P t.

(** [update(Row).where(P).values(f)] *)
Definition update_where (P : R -> Prop) `{!forall r, Decision (P r)} (f : R -> R) t : list R :=
  (fun r => if decide (P r) then f r else r) <$> t.

(** [delete(Row).where(P)] *)
Definition delete_where (P : R -> Prop) `{!forall r, Decision (P r)} t : list R :=
  filter (fun r => ~ P r) t.

(** The [rowcount] of a statement with this [where] clause. *)
Definition rowcount (P : R -> Prop) `{!forall r, Decision (P r)} t : nat := length (filter P t).

(** [session.add(row)] *)
Definition insert_row (r : R) t : list R := t ++ [r].

Section Order.
Variable key : R -> Z.

Fixpoint insert_by (r : R) (l : list R) : list R :=
  match l with
  | [] => [r]
  | r' :: l' => if (key r <=? key r')%Z then r :: l else r' :: insert_by r l'
  end.

(** [.order_by(key)] *)
Fixpoint order_by (l : list R) : list R :=
  match l with
  | [] => []
  | r :: l => insert_by r (order_by l)
  end.

Lemma insert_by_perm r l : insert_by r l ≡ₚ r :: l.
Proof.
  induction l as [|r' l IH]; simpl; [done|]. case_match; [done|].
  rewrite IH. apply Permutation_swap.
Qed.

Lemma order_by_perm l : order_by l ≡ₚ l.
Proof. induction l as [|r l IH]; simpl; [done|]. by rewrite insert_by_perm, IH. Qed.

Lemma elem_of_order_by r l : r ∈ order_by l <-> r ∈ l.
Proof. by rewrite order_by_perm. Qed.

Lemma length_order_by l : length (order_by l) = length l.
Proof. by rewrite order_by_perm. Qed.

Definition sorted_by (l : list R) : Prop := Sorted (fun a b => key a <= key b)%Z l.

Lemma insert_by_sorted r l : sorted_by l -> sorted_by (insert_by r l).
Proof.
  unfold sorted_by. induction 1 as [|r' l Hl IH Hhd]; simpl; [by repeat constructor|].
  destruct (Z.leb_spec (key r) (key r')).
  - repeat constructor; done.
  - constructor; [done|]. destruct l as [|r'' l]; simpl.
    + constructor. lia.
    + case_match; constructor; [lia|]. by inv Hhd.
Qed.

Lemma order_by_sorted l : sorted_by (order_by l).
Proof. induction l; simpl; [constructor | by apply insert_by_sorted]. Qed.

(** A sorted list is left as it is: the sort is stable. *)
Lemma order_by_id l : sorted_by l -> order_by l = l.
Proof.
  unfold sorted_by. induction 1 as [|r l Hl IH Hhd]; simpl; [done|]. rewrite IH.
  destruct l as [|r' l]; simpl; [done|]. inv Hhd.
  by destruct (Z.leb_spec (key r) (key r')); [|lia].
Qed.
Lemma sorted_by_strong l : sorted_by l -> StronglySorted (fun a b => key a <= key b)%Z l.
Proof. apply Sorted_StronglySorted. intros a b c. lia. Qed.

Lemma sorted_by_sublist l k : sorted_by k -> sublist l k -> sorted_by l.
Proof.
  intros Hs%sorted_by_strong Hsub. apply StronglySorted_Sorted.
  by eapply StronglySorted_sublist.
Qed.
End Order.

Lemma sorted_by_snoc (key : R -> Z) l r :
  Forall (fun x => key x <= key r)%Z l -> sorted_by key l -> sorted_by key (l ++ [r]).
Proof.
  unfold sorted_by. intros Hl Hs. induction Hs as [|x l Hs IH Hhd]; simpl; [by repeat constructor|].
  apply Forall_cons in Hl as [Hx Hl]. constructor; [by apply IH|].
  destruct l; simpl; constructor; [done|]. by inv Hhd.
Qed.

Lemma sorted_by_proj (key : R -> Z) l k : key <$> l = key <$> k -> sorted_by key k -> sorted_by key l.
Proof.
  unfold sorted_by. intros Heq Hs. revert l Heq.
  induction Hs as [|b k Hs IH Hhd]; intros [|a l] Heq; simplify_eq/=; [done|].
  constructor; [by apply IH|]. destruct l as [|a' l]; [done|].
  destruct k as [|b' k]; simplify_eq/=. inv Hhd. constructor. congruence.
Qed.

(** The same on a text column, by code points. *)
Section OrderStr.
Variable key : R -> pystr.

Fixpoint insert_by_str (r : R) (l : list R) : list R :=
  match l with
  | [] => [r]
  | r' :: l' => if str_leb (key r) (key r') then r :: l else r' :: insert_by_str r l'
  end.
Fixpoint order_by_str (l : list R) : list R :=
  match l with
  | [] => []
  | r :: l => insert_by_str r (order_by_str l)
  end.

Lemma insert_by_str_perm r l : insert_by_str r l ≡ₚ r :: l.
Proof.
  induction l as [|r' l IH]; simpl; [done|]. case_match; [done|]. rewrite IH. apply Permutation_swap.
Qed.
Lemma order_by_str_perm l : order_by_str l ≡ₚ l.
Proof. induction l as [|r l IH]; simpl; [done|]. by rewrite insert_by_str_perm, IH. Qed.
End OrderStr.

(** [func.max(key)] over the rows, with its [coalesce] default. *)
Definition max_of (key : R -> Z) (dflt : Z) (l : list R) : Z :=
  match l with
  | [] => dflt
  | r :: l => fold_left (fun m r => Z.max m (key r)) l (key r)
  end.

Lemma fold_max_ge (key : R -> Z) l m : (m <= fold_left (fun m r => Z.max m (key r)) l m)%Z.
Proof. revert m. induction l as [|r l IH]; intros m; simpl; [lia|]. specialize (IH (Z.max m (key r))). lia. Qed.

Lemma fold_max_in (key : R -> Z) l m r :
  r ∈ l -> (key r <= fold_left (fun m r => Z.max m (key r)) l m)%Z.
Proof.
  revert m. induction l as [|r' l IH]; intros m Hr; [by apply not_elem_of_nil in Hr|].
  simpl. apply elem_of_cons in Hr as [->|Hr]; [|by apply IH].
  pose proof (fold_max_ge key l (Z.max m (key r'))). lia.
Qed.

Lemma max_of_ge key dflt l r : r ∈ l -> (key r <= max_of key dflt l)%Z.
Proof.
  destruct l as [|r' l]; intros Hr; [by apply not_elem_of_nil in Hr|]. simpl.
  apply elem_of_cons in Hr as [->|Hr]; [apply fold_max_ge | by apply fold_max_in].
Qed.

Section Where.
Context (P : R -> Prop) `{!forall r, Decision (P r)}.

Lemma elem_of_select r t : r ∈ select_where P t <-> P r /\ r ∈ t.
Proof. unfold select_where. by rewrite list_elem_of_filter. Qed.

Lemma elem_of_delete_where r t : r ∈ delete_where P t <-> ~ P r /\ r ∈ t.
Proof. unfold delete_where. by rewrite list_elem_of_filter. Qed.

Lemma length_update_where f t : length (update_where P f t) = length t.
Proof. apply length_fmap. Qed.

(** A statement whose clause no row satisfies changes nothing. *)
Lemma update_where_none f t : rowcount P t = 0%nat -> update_where P f t = t.
Proof.
  unfold rowcount, update_where. induction t as [|r t IH]; [done|].
  rewrite filter_cons, fmap_cons. case_decide; simpl; [lia|]. intros Hr. by rewrite IH.
Qed.

Lemma rowcount_zero t : rowcount P t = 0%nat <-> Forall (fun r => ~ P r) t.
Proof.
  unfold rowcount. induction t as [|r t IH]; [by split|]. rewrite filter_cons, Forall_cons.
  case_decide; simpl; [|naive_solver]. split; [lia|]. by intros [? _].
Qed.

(** A projection the assignment keeps is the same for every row after
    the statement. *)
Lemma update_where_proj {A} (g : R -> A) f t :
  (forall r, P r -> g (f r) = g r) -> g <$> update_where P f t = g <$> t.
Proof.
  intros Hg. unfold update_where. rewrite <-list_fmap_compose. apply list_fmap_ext.
  intros i r _. simpl. case_decide; auto.
Qed.

Lemma Forall_update_where (Q : R -> Prop) f t :
  (forall r, P r -> Q r -> Q (f r)) -> Forall Q t -> Forall Q (update_where P f t).
Proof.
  intros Hf HQ. unfold update_where. apply Forall_fmap. eapply Forall_impl; [exact HQ|].
  intros r Hr. simpl. case_decide; auto.
Qed.
End Where.

(** Rows by primary key. *)
Section Key.
Context {K : Type} `{EqDecision K} (pk : R -> K).

(** [session.get(Row, k)] *)
Definition find_key (k : K) t : option R := head (select_where (fun r => pk r = k) t).

Lemma find_key_Some k t r : find_key k t = Some r -> r ∈ t /\ pk r = k.
Proof. intros H. by apply head_filter_Some in H. Qed.

Lemma find_key_None k t : find_key k t = None <-> Forall (fun r => pk r <> k) t.
Proof. unfold find_key, select_where. by rewrite head_filter_None. Qed.

Lemma find_key_cons k r t :
  find_key k (r :: t) = if decide (pk r = k) then Some r else find_key k t.
Proof. unfold find_key, select_where. rewrite filter_cons. by case_decide. Qed.

Lemma find_key_app k t1 t2 :
  find_key k (t1 ++ t2) = match find_key k t1 with Some r => Some r | None => find_key k t2 end.
Proof.
  induction t1 as [|r t1 IH]; [done|]. rewrite <-app_comm_cons, !find_key_cons.
  by case_decide.
Qed.

Lemma find_key_elem k t r : NoDup (pk <$> t) -> r ∈ t -> pk r = k -> find_key k t = Some r.
Proof.
  induction t as [|r' t IH]; intros Hnd Hr Hk; [by apply not_elem_of_nil in Hr|].
  rewrite find_key_cons. inv Hnd. apply elem_of_cons in Hr as [->|Hr].
  - by rewrite decide_True.
  - rewrite decide_False; [by apply IH|]. intros Heq.
    match goal with H : _ ∉ _ |- _ => apply H end. apply list_elem_of_fmap. exists r.
    split; [congruence | done].
Qed.

(** A statement that keeps the keys acts on the row of each key. *)
Lemma find_key_update_fixed k (P : R -> Prop) `{!forall r, Decision (P r)} f t :
  (forall r, pk (f r) = pk r) ->
  find_key k (update_where P f t) =
    (fun r => if decide (P r) then f r else r) <$> find_key k t.
Proof.
  intros Hf. unfold update_where. induction t as [|r t IH]; [done|].
  rewrite fmap_cons, !find_key_cons.
  assert (pk (if decide (P r) then f r else r) = pk r) as -> by (case_decide; auto).
  case_decide; [done|]. by rewrite IH.
Qed.

Lemma find_key_update_in k (P : R -> Prop) `{!forall r, Decision (P r)} f t :
  (forall r, r ∈ t -> P r -> pk (f r) = pk r) ->
  find_key k (update_where P f t) =
    (fun r => if decide (P r) then f r else r) <$> find_key k t.
Proof.
  unfold update_where. induction t as [|r t IH]; intros Hf; [done|].
  rewrite fmap_cons, !find_key_cons.
  assert (pk (if decide (P r) then f r else r) = pk r) as -> by (case_decide; [apply Hf; [left|done]|done]).
  case_decide; [done|]. apply IH. intros r' Hr'. apply Hf. by right.
Qed.

Lemma key_inj t r r' : NoDup (pk <$> t) -> r ∈ t -> r' ∈ t -> pk r = pk r' -> r = r'.
Proof.
  intros Hnd Hr Hr' Heq. pose proof (find_key_elem (pk r) t r Hnd Hr eq_refl) as H.
  rewrite (find_key_elem (pk r) t r' Hnd Hr' (eq_sym Heq)) in H. congruence.
Qed.

Lemma find_key_update_ne k k' (P : R -> Prop) `{!forall r, Decision (P r)} f t :
  (forall r, P r -> pk r = k') -> (forall r, pk (f r) = pk r) -> k <> k' ->
  find_key k (update_where P f t) = find_key k t.
Proof.
  intros HP Hf Hne. rewrite find_key_update_fixed by done.
  destruct (find_key k t) as [r|] eqn:Hr; [|done]. simpl.
  apply find_key_Some in Hr as [_ Hr]. case_decide as HPr; [|done].
  apply HP in HPr. congruence.
Qed.

Lemma find_key_delete k (P : R -> Prop) `{!forall r, Decision (P r)} t :
  (forall r, P r -> pk r <> k) -> find_key k (delete_where P t) = find_key k t.
Proof.
  intros HP. unfold delete_where. induction t as [|r t IH]; [done|].
  rewrite filter_cons, find_key_cons. case_decide as Hd.
  - rewrite find_key_cons. by rewrite IH.
  - rewrite IH, decide_False; [done|]. by apply HP.
Qed.

Lemma find_key_delete_keep k (P : R -> Prop) `{!forall r, Decision (P r)} t r :
  find_key k t = Some r -> ~ P r -> find_key k (delete_where P t) = Some r.
Proof.
  intros Hr HP. unfold delete_where. induction t as [|r' t IH]; [done|].
  rewrite find_key_cons in Hr. rewrite filter_cons. case_decide as Hk; simplify_eq.
  - rewrite decide_True by done. rewrite find_key_cons. by rewrite decide_True.
  - case_decide; [|by apply IH]. rewrite find_key_cons, decide_False by done. by apply IH.
Qed.

Lemma rowcount_key k t : rowcount (fun r => pk r = k) t = 0%nat <-> find_key k t = None.
Proof. by rewrite rowcount_zero, find_key_None. Qed.
End Key.
End Table.

(** Selecting every row, and none. *)
Lemma select_all {R} (P : R -> Prop) `{!forall r, Decision (P r)} l : Forall P l -> select_where P l = l.
Proof.
  unfold select_where. induction 1 as [|r l Hr _ IH]; [done|]. rewrite filter_cons, decide_True by done. by rewrite IH.
Qed.
Lemma select_none {R} (P : R -> Prop) `{!forall r, Decision (P r)} l : Forall (fun r => ~ P r) l -> select_where P l = [].
Proof.
  unfold select_where. induction 1 as [|r l Hr _ IH]; [done|]. by rewrite filter_cons, decide_False.
Qed.

(** A session of its own: what raises leaves the database as it was. *)
Definition in_session {D E A} (m : M D E A) : M D E A := fun d =>
  match m d with
  | (Ok a, d') => (Ok a, d')
  | (Err e, _) => (Err e, d)
  end.
