(* ===== verification/Dict.v ===== *)
(** * Python dictionaries

    A [dict] keeps its keys in insertion order, and iteration follows that
    order; assigning to a key that is there replaces the value in place. *)
From S2P Require Import Prelude.

Section Dict.
Context {K V : Type} `{EqDecision K}.
Implicit Types (d : list (K * V)) (k : K) (v : V).

(** [d.get(k)] *)
Fixpoint dict_get k d : option V :=
  match d with
  | [] => None
  | (k', v) :: d => if decide (k' = k) then Some v else dict_get k d
  end.

(** [d[k] = v] *)
Fixpoint dict_set k v d : list (K * V) :=
  match d with
  | [] => [(k, v)]
  | (k', w) :: d => if decide (k' = k) then (k', v) :: d else (k', w) :: dict_set k v d
  end.

(** [d.pop(k, None)], [del d[k]] *)
Definition dict_pop k d : list (K * V) := filter (fun kv => kv.1 <> k) d.

(** An in-place change of the object [d[k]]. *)
Definition dict_update k (f : V -> V) d : list (K * V) :=
  (fun kv => if decide (kv.1 = k) then (kv.1, f kv.2) else kv) <$> d.

Definition dict_keys d : list K := fst <$> d.
(** [d.values()] *)
Definition dict_values d : list V := snd <$> d.

Definition dict_ok d : Prop := NoDup (dict_keys d).

Lemma dict_get_set k v d k' :
  dict_get k' (dict_set k v d) = if decide (k = k') then Some v else dict_get k' d.
Proof.
  induction d as [|[k1 w] d IH]; simpl; [done|].
  destruct (decide (k1 = k)) as [->|Hne]; simpl; [by repeat case_decide|].
  rewrite IH. repeat case_decide; congruence.
Qed.

Lemma dict_get_elem k v d : dict_get k d = Some v -> (k, v) ∈ d.
Proof.
  induction d as [|[k1 w] d IH]; simpl; [done|]. case_decide as Hk.
  - intros [= ->]. subst. apply list_elem_of_here.
  - intros Hg. apply list_elem_of_further. auto.
Qed.

Lemma elem_of_dict_set k v kv d : kv ∈ dict_set k v d -> kv = (k, v) \/ kv ∈ d.
Proof.
  induction d as [|[k' v'] d IH]; cbn; [by intros ?%list_elem_of_singleton; left|].
  rewrite elem_of_cons. case_decide; rewrite elem_of_cons; naive_solver.
Qed.
Lemma dict_get_key k v d : dict_get k d = Some v -> k ∈ dict_keys d.
Proof. intros Hg%dict_get_elem. apply list_elem_of_fmap. by exists (k, v). Qed.

Lemma dict_get_None k d : dict_get k d = None <-> k ∉ dict_keys d.
Proof.
  induction d as [|[k1 w] d IH]; simpl.
  - split; [intros _; apply not_elem_of_nil | done].
  - rewrite not_elem_of_cons. case_decide; naive_solver.
Qed.

Lemma dict_elem_get k v d : dict_ok d -> (k, v) ∈ d -> dict_get k d = Some v.
Proof.
  unfold dict_ok. induction d as [|[k1 w] d IH]; simpl; [by intros _ ?%not_elem_of_nil|].
  intros Hnd [[= -> ->]|Hin]%elem_of_cons; [by rewrite decide_True|].
  inv Hnd. case_decide as Hk; [|by apply IH]. subst.
  match goal with Hni : _ ∉ _ |- _ => destruct Hni end.
  apply list_elem_of_fmap. by exists (k, v).
Qed.

Lemma dict_keys_set k v d :
  dict_keys (dict_set k v d) = if decide (k ∈ dict_keys d) then dict_keys d
                               else dict_keys d ++ [k].
Proof.
  induction d as [|[k1 w] d IH].
  - rewrite decide_False; [done|]. apply not_elem_of_nil.
  - cbn [dict_set]. change (dict_keys ((k1, w) :: d)) with (k1 :: dict_keys d).
    destruct (decide (k1 = k)) as [->|Hne].
    + rewrite decide_True; [done|]. apply list_elem_of_here.
    + change (dict_keys ((k1, w) :: dict_set k v d)) with (k1 :: dict_keys (dict_set k v d)).
      rewrite IH. destruct (decide (k ∈ dict_keys d)) as [Hin|Hin].
      * rewrite decide_True; [done|]. by apply list_elem_of_further.
      * rewrite decide_False; [done|]. rewrite not_elem_of_cons. naive_solver.
Qed.

Lemma dict_ok_set k v d : dict_ok d -> dict_ok (dict_set k v d).
Proof.
  unfold dict_ok. rewrite dict_keys_set. intros Hd. case_decide; [done|].
  apply NoDup_app. split_and!; [done| |apply NoDup_singleton].
  intros x Hx ->%list_elem_of_singleton. done.
Qed.

Lemma dict_set_new k v d : dict_get k d = None -> dict_set k v d = d ++ [(k, v)].
Proof.
  induction d as [|[k1 w] d IH]; simpl; [done|]. case_decide; [done|].
  intros Hg. by rewrite IH.
Qed.

Lemma elem_of_dict_pop k kv d : kv ∈ dict_pop k d <-> kv.1 <> k /\ kv ∈ d.
Proof. unfold dict_pop. by rewrite list_elem_of_filter. Qed.

Lemma dict_get_pop k k' d :
  dict_get k' (dict_pop k d) = if decide (k = k') then None else dict_get k' d.
Proof.
  unfold dict_pop. induction d as [|[k1 w] d IH]; simpl; [by case_decide|].
  rewrite filter_cons. simpl. repeat case_decide; simpl; rewrite ?IH;
    repeat case_decide; congruence.
Qed.

Lemma dict_pop_sublist k d : sublist (dict_pop k d) d.
Proof. apply sublist_filter. Qed.

Lemma dict_ok_pop k d : dict_ok d -> dict_ok (dict_pop k d).
Proof.
  unfold dict_ok, dict_keys. intros Hd. eapply sublist_NoDup; [exact Hd|].
  apply fmap_sublist, dict_pop_sublist.
Qed.

Lemma dict_keys_update k f d : dict_keys (dict_update k f d) = dict_keys d.
Proof.
  unfold dict_keys, dict_update. rewrite <-list_fmap_compose. apply list_fmap_ext.
  intros i [k1 v] _. simpl. by case_decide.
Qed.

Lemma dict_get_update k f d k' :
  dict_get k' (dict_update k f d) = (if decide (k' = k) then f else id) <$> dict_get k' d.
Proof.
  unfold dict_update. induction d as [|[k1 v] d IH]; simpl; [done|].
  destruct (decide (k1 = k)) as [->|Hne]; simpl.
  - destruct (decide (k = k')) as [->|]; [by rewrite decide_True | exact IH].
  - destruct (decide (k1 = k')) as [->|]; [by rewrite decide_False | exact IH].
Qed.

Lemma dict_ok_update k f d : dict_ok d -> dict_ok (dict_update k f d).
Proof. unfold dict_ok. by rewrite dict_keys_update. Qed.

Lemma length_dict_update k f d : length (dict_update k f d) = length d.
Proof. apply length_fmap. Qed.
End Dict.
