(* ===== verification/Domain.v ===== *)
(** * The domain objects

    The enumerations and dataclasses of [domain.py], [dialogs/api.py],
    [tasks/api.py], [agent/events.py], [llm/usage.py] and the value objects
    of [tariffs/api.py].  A [StrEnum] is a module with an inductive [t]; its
    [value] is the string the databases and the prompts see. *)
From S2P Require Import Prelude PyStr PyFloat Clock Dict.

(** ** JSON values

    [dict[str, Any]] and [object] in the source: what [json.loads] returns.
    A number that is no integer keeps its literal. *)
Inductive json : Set :=
| JNull
| JBool (b : bool)
| JInt (z : Z)
| JFloat (literal : pystr)
| JStr (s : pystr)
| JList (l : list json)
| JObj (fields : list (pystr * json)).

Definition dict_has (key : pystr) (d : list (pystr * json)) : bool :=
  match dict_get key d with Some _ => true | None => false end.

(** [arguments.get(key)], with [null] as [None]. *)
Definition argument (key : pystr) (args : list (pystr * json)) : option json :=
  match dict_get key args with Some JNull => None | v => v end.
Definition json_str (v : option json) : option pystr :=
  match v with Some (JStr s) => Some s | _ => None end.
Definition json_opt_str (o : option pystr) : json :=
  match o with Some s => JStr s | None => JNull end.

(** ** Enumerations *)

Module MessageRole.
Inductive t : Set := SYSTEM | USER | ASSISTANT | TOOL.
#[global] Instance eq_dec : EqDecision t.
Proof. solve_decision. Defined.
Definition value (r : t) : pystr :=
  match r with
  | SYSTEM => "system" | USER => "user" | ASSISTANT => "assistant" | TOOL => "tool"
  end.
(** [MessageRole(s)]; [None] is the [ValueError]. *)
Definition of_value (s : pystr) : option t :=
  if decide (s = "system") then Some SYSTEM
  else if decide (s = "user") then Some USER
  else if decide (s = "assistant") then Some ASSISTANT
  else if decide (s = "tool") then Some TOOL else None.
Lemma role_of_value_value r : of_value (value r) = Some r.
Proof. by destruct r. Qed.
End MessageRole.

Module MessageKind.
Inductive t : Set := OWN | MATERIAL.
#[global] Instance eq_dec : EqDecision t.
Proof. solve_decision. Defined.
Definition value (k : t) : pystr := match k with OWN => "own" | MATERIAL => "material" end.
Definition of_value (s : pystr) : option t :=
  if decide (s = "own") then Some OWN
  else if decide (s = "material") then Some MATERIAL else None.
Lemma kind_of_value_value k : of_value (value k) = Some k.
Proof. by destruct k. Qed.
End MessageKind.

Module AttachmentKind.
Inductive t : Set := IMAGE | AUDIO.
#[global] Instance eq_dec : EqDecision t.
Proof. solve_decision. Defined.
Definition value (k : t) : pystr := match k with IMAGE => "image" | AUDIO => "audio" end.
Definition of_value (s : pystr) : option t :=
  if decide (s = "image") then Some IMAGE
  else if decide (s = "audio") then Some AUDIO else None.
Lemma attachment_kind_of_value_value k : of_value (value k) = Some k.
Proof. by destruct k. Qed.
End AttachmentKind.

Module ExchangeStatus.
Inductive t : Set :=
| COLLECTING | OPEN | IN_PROGRESS | AWAITING_USER | ANSWERED | CANCELLED | FAILED.
#[global] Instance eq_dec : EqDecision t.
Proof. solve_decision. Defined.
Definition value (s : t) : pystr :=
  match s with
  | COLLECTING => "collecting" | OPEN => "open" | IN_PROGRESS => "in_progress"
  | AWAITING_USER => "awaiting_user" | ANSWERED => "answered"
  | CANCELLED => "cancelled" | FAILED => "failed"
  end.
End ExchangeStatus.

Definition LIVE_EXCHANGE_STATUSES : list ExchangeStatus.t :=
  [ExchangeStatus.COLLECTING; ExchangeStatus.OPEN; ExchangeStatus.IN_PROGRESS;
   ExchangeStatus.AWAITING_USER].

Definition TITLE_MAX_LENGTH : Z := 60.

Module TaskKind.
Inductive t : Set := RUN | ANSWER.
#[global] Instance eq_dec : EqDecision t.
Proof. solve_decision. Defined.
End TaskKind.

Module TaskStatus.
Inductive t : Set := PENDING | RUNNING | DONE | FAILED | CANCELLED.
#[global] Instance eq_dec : EqDecision t.
Proof. solve_decision. Defined.
Definition value (s : t) : pystr :=
  match s with
  | PENDING => "pending" | RUNNING => "running" | DONE => "done"
  | FAILED => "failed" | CANCELLED => "cancelled"
  end.
End TaskStatus.

Module UsageKind.
Inductive t : Set :=
| LLM_ANSWER | LLM_ROUTING | LLM_COMPACTION | VOICE_TRANSCRIPTION | VISION | USER_MESSAGE.
#[global] Instance eq_dec : EqDecision t.
Proof. solve_decision. Defined.
End UsageKind.

Module UsageOrigin.
Inductive t : Set := INTERACTIVE | CRON | BACKGROUND.
#[global] Instance eq_dec : EqDecision t.
Proof. solve_decision. Defined.
End UsageOrigin.

(** ** Messages *)

Record Attachment := { at_kind : AttachmentKind.t; at_ref : pystr }.
#[export] Instance Attachment_eq_dec : EqDecision Attachment.
Proof. solve_decision. Defined.

Record MessageSource := {
  src_kind : MessageKind.t;
  src_origin : option pystr;
  src_attachments : list Attachment }.
Definition default_source : MessageSource :=
  {| src_kind := MessageKind.OWN; src_origin := None; src_attachments := [] |}.

Record ToolCall := { tc_id : pystr; tc_name : pystr; tc_arguments : list (pystr * json) }.

Record Usage := {
  prompt_tokens : Z;
  completion_tokens : Z;
  cached_tokens : option Z }.

Record ChatMessage := {
  cm_role : MessageRole.t;
  cm_content : pystr;
  cm_tool_calls : list ToolCall;
  cm_tool_call_id : option pystr;
  cm_task_id : option pystr;
  cm_kind : MessageKind.t;
  cm_attachments : list Attachment;
  cm_id : option pystr;
  cm_exchange_id : option pystr }.

(** [ChatMessage(role=.., content=..)] with the defaults of the other fields. *)
Definition chat_message (role : MessageRole.t) (content : pystr) : ChatMessage :=
  {| cm_role := role; cm_content := content; cm_tool_calls := []; cm_tool_call_id := None;
     cm_task_id := None; cm_kind := MessageKind.OWN; cm_attachments := [];
     cm_id := None; cm_exchange_id := None |}.

(** [replace(message, field=value)] *)
Definition with_content (c : pystr) (m : ChatMessage) : ChatMessage :=
  {| cm_role := cm_role m; cm_content := c; cm_tool_calls := cm_tool_calls m;
     cm_tool_call_id := cm_tool_call_id m; cm_task_id := cm_task_id m; cm_kind := cm_kind m;
     cm_attachments := cm_attachments m; cm_id := cm_id m;
     cm_exchange_id := cm_exchange_id m |}.
Definition with_id (i : pystr) (m : ChatMessage) : ChatMessage :=
  {| cm_role := cm_role m; cm_content := cm_content m; cm_tool_calls := cm_tool_calls m;
     cm_tool_call_id := cm_tool_call_id m; cm_task_id := cm_task_id m; cm_kind := cm_kind m;
     cm_attachments := cm_attachments m; cm_id := Some i;
     cm_exchange_id := cm_exchange_id m |}.
Definition with_exchange (e : option pystr) (m : ChatMessage) : ChatMessage :=
  {| cm_role := cm_role m; cm_content := cm_content m; cm_tool_calls := cm_tool_calls m;
     cm_tool_call_id := cm_tool_call_id m; cm_task_id := cm_task_id m; cm_kind := cm_kind m;
     cm_attachments := cm_attachments m; cm_id := cm_id m; cm_exchange_id := e |}.
Definition with_task (t : option pystr) (m : ChatMessage) : ChatMessage :=
  {| cm_role := cm_role m; cm_content := cm_content m; cm_tool_calls := cm_tool_calls m;
     cm_tool_call_id := cm_tool_call_id m; cm_task_id := t; cm_kind := cm_kind m;
     cm_attachments := cm_attachments m; cm_id := cm_id m;
     cm_exchange_id := cm_exchange_id m |}.

(** Equality of messages as the dataclass compares them: [id] and
    [exchange_id] carry [compare=False]. *)
Definition message_eq (a b : ChatMessage) : Prop :=
  with_exchange None (with_id "" a) = with_exchange None (with_id "" b).

#[export] Instance message_eq_equivalence : Equivalence message_eq.
Proof. split; repeat intro; unfold message_eq in *; congruence. Qed.
#[export] Instance with_content_proper c : Proper (message_eq ==> message_eq) (with_content c).
Proof. unfold message_eq. intros [] [] H. by simplify_eq/=. Qed.

Record Dialog := {
  dlg_id : pystr;
  dlg_user_id : pystr;
  dlg_channel : pystr;
  dlg_created_at : time;
  dlg_updated_at : time }.

(** ** Exchanges, claims and tasks *)

Record Exchange := {
  ex_id : pystr;
  ex_dialog_id : pystr;
  ex_status : ExchangeStatus.t;
  ex_title : pystr;
  ex_created_at : time;
  ex_updated_at : time;
  ex_pending_question : option pystr }.

Record DialogClaim := {
  cl_dialog_id : pystr;
  cl_owner : pystr;
  cl_generation : Z;
  cl_heartbeat_at : time }.

Record Task := {
  tk_id : pystr;
  tk_dialog_id : pystr;
  tk_title : pystr;
  tk_kind : TaskKind.t;
  tk_input : list (pystr * json);
  tk_exchange_id : option pystr;
  tk_status : TaskStatus.t;
  tk_result : option pystr;
  tk_error : option pystr;
  tk_created_at : time;
  tk_started_at : option time;
  tk_finished_at : option time;
  tk_delivered_at : option time }.

(** ** Summaries of compacted history ([context/api.py]) *)

Definition NO_COMPACTED_SEQ : Z := 0.

Record DialogueSummary := {
  sm_id : pystr;
  sm_dialog_id : pystr;
  sm_seq_from : Z;
  sm_seq_to : Z;
  sm_topics : list pystr;
  sm_content : pystr;
  sm_created_at : time }.

Record ArchivedMessage := {
  am_seq : Z;
  am_role : MessageRole.t;
  am_content : pystr;
  am_created_at : time }.

(** ** Loop events *)

Inductive LoopEvent :=
| IterationStarted (index : Z)
| TextDelta (text : pystr)
| ReasoningDelta
| AssistantMessage (message : ChatMessage) (interrupted : bool) (usage : option Usage)
| ToolCallRequested (call : ToolCall)
| ToolCallCompleted (call : ToolCall) (output : pystr)
| ToolCallFailed (call : ToolCall) (error : pystr)
| Finished (message : ChatMessage) (usage : option Usage)
    (source_client_message_id : option pystr)
| Cancelled
| Failed (error : pystr)
| RetryScheduled (attempt : Z) (delay : float) (reason : pystr)
| ProcessStarted (process_id title : pystr) (source_client_message_id : option pystr)
| ProcessCompleted (process_id title status : pystr).

(** ** Usage and limits *)

(** [parse_usage]: the accounting of an OpenAI-style usage object.  A JSON
    boolean is a Python [int]. *)
Definition json_int (v : option json) : option Z :=
  match v with
  | Some (JInt z) => Some z
  | Some (JBool b) => Some (if b then 1 else 0)%Z
  | _ => None
  end.
Definition parse_usage (raw : json) : option Usage :=
  match raw with
  | JObj d =>
      match json_int (dict_get "prompt_tokens" d), json_int (dict_get "completion_tokens" d) with
      | Some p, Some c =>
          let cached :=
            match dict_get "prompt_tokens_details" d with
            | Some (JObj dd) => json_int (dict_get "cached_tokens" dd)
            | _ => None
            end in
          Some {| prompt_tokens := p; completion_tokens := c; cached_tokens := cached |}
      | _, _ => None
      end
  | _ => None
  end.

Record UsageEvent := {
  ue_user_id : pystr;
  ue_kind : UsageKind.t;
  ue_origin : UsageOrigin.t;
  ue_prompt_tokens : Z;
  ue_completion_tokens : Z;
  ue_quantity : Z;
  ue_dialog_id : option pystr;
  ue_exchange_id : option pystr;
  ue_task_id : option pystr;
  ue_created_at : option time }.

Record LimitVerdict := {
  lv_allowed : bool;
  lv_reason : option pystr;
  lv_used : Z;
  lv_limit : Z }.
Definition verdict_ok : LimitVerdict :=
  {| lv_allowed := true; lv_reason := None; lv_used := 0; lv_limit := 0 |}.

(** [llm/errors.py]: what kinds of failures a call of a model has.  Each kind
    is a subclass of [LLMError] in the source. *)
Module ErrorKind.
Inductive t : Set := RATE_LIMIT | AUTH | QUOTA | CONTEXT_OVERFLOW | PROVIDER_INTERNAL | TRANSPORT | CLIENT.
#[global] Instance eq_dec : EqDecision t.
Proof. solve_decision. Defined.
Definition value (k : t) : pystr :=
  match k with
  | RATE_LIMIT => "rate_limit" | AUTH => "auth" | QUOTA => "quota" | CONTEXT_OVERFLOW => "context_overflow"
  | PROVIDER_INTERNAL => "provider_internal" | TRANSPORT => "transport" | CLIENT => "client"
  end.
End ErrorKind.

(** Exceptions the modelled code raises or catches by class. *)
Inductive Exn : Set :=
| StoreError
| IntegrityError
| DialogNotFoundError (id : pystr)
| ExchangeNotFoundError (id : pystr)
| TaskNotFoundError (id : pystr)
| CronJobNotFoundError (id : pystr)
| CronScheduleError (text : pystr)
| TariffNotFoundError (code : pystr)
| TariffInUseError (text : pystr)
| InvalidTariffError (text : pystr)
| ToolArgumentsError (text : pystr)
| SecretNotFoundError (code : pystr)
| SecretHostMismatchError (text : pystr)
| InvalidSecretError (text : pystr)
| UserParamNotFoundError (code : pystr)
| InvalidUserParamError (text : pystr)
| InvalidSettingError (text : pystr)
| UserNotFoundError (id : pystr)
| IdentityNotFoundError (text : pystr)
| IdentityTakenError (text : pystr)
| CollectionNotFoundError (id : pystr)
| CollectionQueryError (text : pystr)
| CollectionQuotaError (text : pystr)
| ToolSpecError (text : pystr)
| ExternalCallError (text : pystr)
| SsrfBlockedError (text : pystr)
| EgressBlockedError (text : pystr)
| InstructionNotFoundError (name : pystr)
| SystemInstructionError (text : pystr)
| DatasetNotFoundError (name : pystr)
| DatasetExistsError (text : pystr)
| DatasetSchemaError (text : pystr)
| DatasetQuotaError (limit : Z)
| DatasetRecordValidationError (violations : list pystr)
| VisionUnavailableError (reason : pystr)
| CompactorError
| LLMError (kind : ErrorKind.t) (text : pystr) (retry_after : option float)
| LLMResponseError (text : pystr)
| McpError (text : pystr)
| McpServerNameTakenError (name : pystr)
| SearchError (text : pystr)
| HttpError (text : pystr)
| TelegramApiError (text : pystr)
| AccessRefusedError (status : pystr)
| InviteNotFoundError (code : pystr)
| InviteAlreadyClaimedError (code : pystr)
| InviteExpiredError (code : pystr)
| CancelledError
| RuntimeError (text : pystr)
| OtherError (text : pystr).

Definition is_exchange_not_found (e : Exn) : bool :=
  match e with ExchangeNotFoundError _ => true | _ => false end.
Definition is_task_not_found (e : Exn) : bool :=
  match e with TaskNotFoundError _ => true | _ => false end.

(** [except Exception]: everything but the cancellation of the task, which is
    a [BaseException]. *)
Definition is_exception (e : Exn) : bool :=
  match e with CancelledError => false | _ => true end.
Definition except_exception {S A} (m : M S Exn A) (h : Exn -> M S Exn A) : M S Exn A :=
  try_except m (fun e => if is_exception e then h e else raise e).
(** [(x,) = l] *)
Definition the_only {S A} (l : list A) : M S Exn A := match l with [x] => ret x | _ => raise (OtherError "ValueError") end.
