(* ===== verification/UnitOfWork.v ===== *)
(** * The unit of work ([db/unit_of_work.py])

    One transaction over several store calls.  The database of type [D] sits
    behind a connection state [Conn D]: the committed tables, the session of
    the active unit (the [ContextVar]) and the faults the database still has
    in store, one per round trip.  A client state that holds a connection
    says so with an instance of [HasConn]; the operations are stated against
    that interface. *)
From S2P Require Import Prelude PyStr Domain.

Record Session (D : Type) := {
  working : D;
  sess_open : bool;
  sess_wrote : bool;
  sess_busy : bool }.
Arguments working {D}. Arguments sess_open {D}. Arguments sess_wrote {D}. Arguments sess_busy {D}.
Arguments Build_Session {D}.

Record Conn (D : Type) := {
  committed : D;
  active : option (Session D);
  faults : list bool }.
Arguments committed {D}. Arguments active {D}. Arguments faults {D}.
Arguments Build_Conn {D}.

(** A state with a connection in it. *)
Class HasConn (S D : Type) := {
  conn_of : S -> Conn D;
  set_conn : Conn D -> S -> S;
  conn_set c s : conn_of (set_conn c s) = c;
  set_set c c' s : set_conn c (set_conn c' s) = set_conn c s;
  set_same s : set_conn (conn_of s) s = s }.

#[export] Instance conn_has_conn D : HasConn (Conn D) D :=
  {| conn_of c := c; set_conn c _ := c; conn_set _ _ := eq_refl; set_set _ _ _ := eq_refl;
     set_same _ := eq_refl |}.

Definition nested_unit : Exn :=
  RuntimeError "a unit of work is already active; nesting would merge two transactions".
Definition concurrent_use : Exn :=
  RuntimeError
    "concurrent store calls inside a unit of work share one connection; run parallel reads outside the unit, each wrapped in outside_uow(...)".

Definition with_active {D} (o : option (Session D)) (c : Conn D) : Conn D :=
  {| committed := committed c; active := o; faults := faults c |}.
Definition with_committed {D} (d : D) (c : Conn D) : Conn D :=
  {| committed := d; active := active c; faults := faults c |}.
Definition with_faults {D} (l : list bool) (c : Conn D) : Conn D :=
  {| committed := committed c; active := active c; faults := l |}.
Definition with_working {D} (d : D) (s : Session D) : Session D :=
  {| working := d; sess_open := sess_open s; sess_wrote := sess_wrote s; sess_busy := sess_busy s |}.
Definition with_busy {D} (b : bool) (s : Session D) : Session D :=
  {| working := working s; sess_open := sess_open s; sess_wrote := sess_wrote s; sess_busy := b |}.
Definition wrote {D} (s : Session D) : Session D :=
  {| working := working s; sess_open := sess_open s; sess_wrote := true; sess_busy := sess_busy s |}.

(** The session a store call would share: the active unit's, while open. *)
Definition live_session {D} (c : Conn D) : option (Session D) :=
  match active c with
  | Some s => if sess_open s then Some s else None
  | None => None
  end.

Section Calls.
Context {D : Type}.

(** [in_unit_of_work] and [unit_has_writes] *)
Definition in_unit_of_work (c : Conn D) : bool :=
  match live_session c with Some _ => true | None => false end.
Definition unit_has_writes (s : Session D) : bool := sess_wrote s.

(** One round trip to the server: it may fail. *)
Definition round_trip (c : Conn D) : Res Exn unit * Conn D :=
  match faults c with
  | [] => (Ok tt, c)
  | f :: fs => (if f then Err StoreError else Ok tt, with_faults fs c)
  end.

(** The statements of one store method, run on the tables the session
    sees; a round trip carries them. *)
Definition execute {A} (body : M D Exn A) (d : D) (c : Conn D) : Res Exn A * D * Conn D :=
  match round_trip c with
  | (Err e, c) => (Err e, d, c)
  | (Ok _, c) => let '(r, d') := body d in (r, d', c)
  end.

(** [_borrow], entry and exit: whether the session is owned by the call;
    the unit's session is marked busy in between. *)
Definition borrow_enter (c : Conn D) : Res Exn bool * Conn D :=
  match live_session c with
  | None => (Ok true, c)
  | Some s =>
      if sess_busy s then (Err concurrent_use, c)
      else (Ok false, with_active (Some (with_busy true s)) c)
  end.
Definition on_session (f : Session D -> Session D) (c : Conn D) : Conn D :=
  with_active (f <$> active c) c.
Definition borrow_exit (owned : bool) (c : Conn D) : Conn D :=
  if owned then c else on_session (with_busy false) c.

(** The tables a borrowed session sees. *)
Definition visible (owned : bool) (c : Conn D) : D :=
  match owned, active c with false, Some s => working s | _, _ => committed c end.

(** [write_session]: the unit's session with the commit left to the unit,
    or a fresh one committed at exit. *)
Definition write_session {A} (body : M D Exn A) : M (Conn D) Exn A := fun c =>
  match borrow_enter c with
  | (Err e, c) => (Err e, c)
  | (Ok true, c) =>
      match execute body (committed c) c with
      | (Err e, _, c) => (Err e, c)
      | (Ok a, d, c) =>
          match round_trip c with
          | (Err e, c) => (Err e, c)
          | (Ok _, c) => (Ok a, with_committed d c)
          end
      end
  | (Ok false, c) =>
      let '(r, d, c) := execute body (visible false c) c in
      let c := on_session (with_working d) c in
      match r with
      | Err e => (Err e, borrow_exit false c)
      | Ok a => (Ok a, borrow_exit false (on_session wrote c))
      end
  end.

(** [read_session]: the same without a commit. *)
Definition read_session {A} (body : M D Exn A) : M (Conn D) Exn A := fun c =>
  match borrow_enter c with
  | (Err e, c) => (Err e, c)
  | (Ok true, c) => let '(r, _, c) := execute body (committed c) c in (r, c)
  | (Ok false, c) =>
      let '(r, d, c) := execute body (visible false c) c in
      (r, borrow_exit false (on_session (with_working d) c))
  end.
End Calls.

Section Units.
Context {S D : Type} `{HasConn S D}.

Definition on_conn {A} (m : M (Conn D) Exn A) : M S Exn A := fun s =>
  let '(r, c) := m (conn_of s) in (r, set_conn c s).

(** [UnitOfWork.__call__] around [body]; [null_unit] is the unit built
    without a session factory. *)
Definition uow {A} (null_unit : bool) (body : M S Exn A) : M S Exn A := fun s =>
  if null_unit then body s
  else if in_unit_of_work (conn_of s) then (Err nested_unit, s)
  else
    let token := active (conn_of s) in
    let fresh := {| working := committed (conn_of s); sess_open := true; sess_wrote := false;
                    sess_busy := false |} in
    let leave s := set_conn (with_active token (conn_of s)) s in
    match body (set_conn (with_active (Some fresh) (conn_of s)) s) with
    | (Err e, s) => (Err e, leave s)
    | (Ok a, s) =>
        match round_trip (conn_of s), active (conn_of s) with
        | (Err e, c), _ => (Err e, leave (set_conn c s))
        | (Ok _, c), Some ses => (Ok a, leave (set_conn (with_committed (working ses) c) s))
        | (Ok _, c), None => (Ok a, leave (set_conn c s))
        end
    end.

(** [outside_uow] *)
Definition outside_uow {A} (m : M S Exn A) : M S Exn A := fun s =>
  let token := active (conn_of s) in
  let '(r, s) := m (set_conn (with_active None (conn_of s)) s) in
  (r, set_conn (with_active token (conn_of s)) s).
End Units.

(** ** Laws *)

Section Laws.
Context {S D : Type} `{HC : HasConn S D}.

Lemma round_trip_committed (c : Conn D) :
  committed (round_trip c).2 = committed c /\ active (round_trip c).2 = active c.
Proof. unfold round_trip. by destruct (faults c). Qed.

(** What a session returns its statements returned on some tables. *)
Lemma execute_result {A} (body : M D Exn A) d (c : Conn D) a d' c' :
  execute body d c = (Ok a, d', c') -> (body d).1 = Ok a.
Proof. unfold execute. destruct (round_trip c) as [[u|e] c1]; [|done]. destruct (body d) as [r d1]. by intros [= -> _ _]. Qed.
Lemma write_result {A} (body : M D Exn A) (c c' : Conn D) a :
  write_session body c = (Ok a, c') -> exists d, (body d).1 = Ok a.
Proof.
  unfold write_session. destruct (borrow_enter c) as [[[|]|e] c1]; [| |done].
  - destruct (execute body _ c1) as [[[a1|e] d] c2] eqn:Hx; [|done]. apply execute_result in Hx.
    destruct (round_trip c2) as [[u|e] c3]; [|done]. intros [= <- _]. by eexists.
  - destruct (execute body _ c1) as [[[a1|e] d] c2] eqn:Hx; [|done]. apply execute_result in Hx.
    intros [= <- _]. by eexists.
Qed.
Lemma read_result {A} (body : M D Exn A) (c c' : Conn D) a :
  read_session body c = (Ok a, c') -> exists d, (body d).1 = Ok a.
Proof.
  unfold read_session. destruct (borrow_enter c) as [[[|]|e] c1]; [| |done];
    destruct (execute body _ c1) as [[r d] c2] eqn:Hx; intros [= -> _]; apply execute_result in Hx; by eexists.
Qed.

(** A store call made while the unit's session is still in use by another
    one is refused, and changes nothing. *)
Lemma concurrent_use_refused {A} (body : M D Exn A) (c : Conn D) c1 :
  borrow_enter c = (Ok false, c1) ->
  write_session body c1 = (Err concurrent_use, c1) /\
  read_session body c1 = (Err concurrent_use, c1).
Proof.
  unfold borrow_enter, live_session. destruct (active c) as [s|] eqn:Ha; [|done].
  destruct (sess_open s) eqn:Ho; [|done]. destruct (sess_busy s) eqn:Hb; [done|].
  intros [= <-]. unfold write_session, read_session, borrow_enter, live_session. simpl.
  by rewrite Ho.
Qed.

(** The unit's session, idle between calls. *)
Definition idle_unit (s : S) : Prop :=
  exists ses, active (conn_of s) = Some ses /\ sess_open ses = true /\ sess_busy ses = false.

(** What a computation inside a unit does: the committed tables stay as
    they are and the unit stays usable. *)
Definition within_unit (s s' : S) : Prop :=
  idle_unit s -> committed (conn_of s') = committed (conn_of s) /\ idle_unit s'.
#[global] Instance within_unit_preorder : PreOrder within_unit.
Proof.
  unfold within_unit. split; [by intros s|]. intros a b c Hab Hbc Ha.
  destruct (Hab Ha) as [Hc Hb]. destruct (Hbc Hb) as [Hc' Hi]. by rewrite Hc', Hc.
Qed.

(** How a unit's session moves: only its contents and its write flag. *)
Definition unit_shape (c : Conn D) (ses : Session D) (d : D) (l : list bool) (w : bool) : Conn D :=
  {| committed := committed c; faults := l;
     active := Some {| working := d; sess_open := true; sess_busy := false; sess_wrote := w |} |}.

Lemma execute_spec {A} (body : M D Exn A) d (c : Conn D) :
  exists l, execute body d c = (Err StoreError, d, with_faults l c) \/
            execute body d c = ((body d).1, (body d).2, with_faults l c).
Proof.
  unfold execute, round_trip. destruct (faults c) as [|[] fs] eqn:Hf.
  - exists []. right. destruct c; simpl in *; subst. by destruct (body d).
  - exists fs. by left.
  - exists fs. right. by destruct (body d).
Qed.

(** What a read returns, its statements returned on some tables. *)
Lemma read_session_returns {A} (body : M D Exn A) (c : Conn D) a c' :
  read_session body c = (Ok a, c') -> exists d, (body d).1 = Ok a.
Proof.
  unfold read_session. destruct (borrow_enter c) as [[[]|e] c1]; [| |done].
  - destruct (execute_spec body (committed c1) c1) as (l & [->| ->]); [done|].
    intros [= H _]. by eexists.
  - destruct (execute_spec body (visible false c1) c1) as (l & [->| ->]); [done|].
    intros [= H _]. by eexists.
Qed.

Lemma write_session_in_unit {A} (body : M D Exn A) (c : Conn D) ses :
  active c = Some ses -> sess_open ses = true -> sess_busy ses = false ->
  exists l w, write_session body c = (Err StoreError, unit_shape c ses (working ses) l w) \/
              write_session body c =
                ((body (working ses)).1, unit_shape c ses (body (working ses)).2 l w).
Proof.
  intros Ha Ho Hb. unfold write_session, borrow_enter, live_session. rewrite Ha, Ho, Hb.
  unfold visible. simpl.
  destruct (execute_spec body (working ses) (with_active (Some (with_busy true ses)) c))
    as (l & [Hx|Hx]); rewrite Hx.
  - exists l, (sess_wrote ses). left. unfold unit_shape. destruct c, ses; simpl in *. by subst.
  - destruct ((body (working ses)).1) as [a|e] eqn:Hr.
    + exists l, true. right. unfold unit_shape. destruct c, ses; simpl in *. by subst.
    + exists l, (sess_wrote ses). right. unfold unit_shape. destruct c, ses; simpl in *.
      by subst.
Qed.

Lemma read_session_in_unit {A} (body : M D Exn A) (c : Conn D) ses :
  active c = Some ses -> sess_open ses = true -> sess_busy ses = false ->
  exists l w, read_session body c = (Err StoreError, unit_shape c ses (working ses) l w) \/
              read_session body c =
                ((body (working ses)).1, unit_shape c ses (body (working ses)).2 l w).
Proof.
  intros Ha Ho Hb. unfold read_session, borrow_enter, live_session. rewrite Ha, Ho, Hb.
  unfold visible. simpl.
  destruct (execute_spec body (working ses) (with_active (Some (with_busy true ses)) c))
    as (l & [Hx|Hx]); rewrite Hx; exists l, (sess_wrote ses); [left|right];
    unfold unit_shape; destruct c, ses; simpl in *; by subst.
Qed.

Lemma within_unit_conn {A} (m : M (Conn D) Exn A) :
  (forall c ses, active c = Some ses -> sess_open ses = true -> sess_busy ses = false ->
     exists d l w, (m c).2 = unit_shape c ses d l w) ->
  evolves within_unit (on_conn (S:=S) m).
Proof.
  intros Hm s (ses & Ha & Ho & Hb). unfold on_conn.
  destruct (Hm _ _ Ha Ho Hb) as (d & l & w & Hx).
  destruct (m (conn_of s)) as [r c] eqn:Hmc. simpl in *. subst c.
  unfold idle_unit. rewrite conn_set. split; [done|]. by eexists.
Qed.

Lemma write_session_within {A} (body : M D Exn A) :
  evolves within_unit (on_conn (S:=S) (write_session body)).
Proof.
  apply within_unit_conn. intros c ses Ha Ho Hb.
  destruct (write_session_in_unit body c ses Ha Ho Hb) as (l & w & [Hx|Hx]); rewrite Hx; eauto.
Qed.
Lemma read_session_within {A} (body : M D Exn A) :
  evolves within_unit (on_conn (S:=S) (read_session body)).
Proof.
  apply within_unit_conn. intros c ses Ha Ho Hb.
  destruct (read_session_in_unit body c ses Ha Ho Hb) as (l & w & [Hx|Hx]); rewrite Hx; eauto.
Qed.

(** A unit is atomic: whatever it raises — a store failure, its own
    exception, a failed commit — the committed tables are those it
    started from; on success they are what its session held; the caller's
    context has no trace of it either way. *)
Lemma uow_atomic {A} (body : M S Exn A) s :
  evolves within_unit body -> in_unit_of_work (conn_of s) = false ->
  let s1 := set_conn (with_active (Some {| working := committed (conn_of s); sess_open := true;
                        sess_wrote := false; sess_busy := false |}) (conn_of s)) s in
  let '(r, s') := uow false body s in
  active (conn_of s') = active (conn_of s) /\
  match r with
  | Err _ => committed (conn_of s') = committed (conn_of s)
  | Ok a => exists s2 ses, body s1 = (Ok a, s2) /\ active (conn_of s2) = Some ses /\
              committed (conn_of s') = working ses
  end.
Proof.
  intros Hbody Hout s1. unfold uow. rewrite Hout. fold s1.
  assert (idle_unit s1) as Hi.
  { unfold idle_unit, s1. rewrite conn_set. simpl. by eexists. }
  destruct (Hbody s1 Hi) as [Hc (ses & Ha & _)].
  assert (committed (conn_of s1) = committed (conn_of s)) as Hs1
    by (unfold s1; by rewrite conn_set).
  destruct (body s1) as [[a|e] s2] eqn:Hb; simpl in *.
  - pose proof (round_trip_committed (conn_of s2)) as [Hrc Hra].
    destruct (round_trip (conn_of s2)) as [[[]|e] c]; simpl in *; rewrite ?Ha;
      rewrite ?conn_set; simpl; (split; [done|]); [by eexists _, _|congruence].
  - rewrite conn_set. simpl. split; [done|congruence].
Qed.

(** Without faults, calls of one unit act on its session like the bodies
    run one after another on the tables. *)
Definition enter_unit (d : D) (w : bool) (s : S) : S :=
  set_conn (with_active (Some {| working := d; sess_open := true; sess_wrote := w;
                                 sess_busy := false |}) (conn_of s)) s.

Lemma write_session_enter {A} (body : M D Exn A) d w s :
  faults (conn_of s) = [] ->
  exists w', on_conn (write_session body) (enter_unit d w s) =
             ((body d).1, enter_unit (body d).2 w' s).
Proof.
  intros Hf. unfold on_conn, enter_unit. rewrite conn_set.
  unfold write_session, borrow_enter, live_session, execute, round_trip, visible, on_session.
  simpl. rewrite Hf. destruct (body d) as [[a|e] d']; simpl; rewrite set_set; eauto.
Qed.

Lemma unit_calls_serial (bodies : list (M D Exn unit)) d w s :
  faults (conn_of s) = [] ->
  exists w', for_each bodies (fun b => on_conn (write_session b)) (enter_unit d w s) =
             ((for_each bodies id d).1, enter_unit (for_each bodies id d).2 w' s).
Proof.
  intros Hf. revert d w. induction bodies as [|b l IH]; intros d w; simpl; [by eexists|].
  unfold bind. destruct (write_session_enter b d w s Hf) as [w' ->]. change (id b d) with (b d).
  destruct (b d) as [[[]|e] d']; simpl; [apply IH | by eexists].
Qed.

(** A unit over several write calls is one transaction: all of them or
    none. *)
Lemma uow_serial (bodies : list (M D Exn unit)) s :
  faults (conn_of s) = [] -> in_unit_of_work (conn_of s) = false ->
  uow false (for_each bodies (fun b => on_conn (write_session b))) s =
    match for_each bodies id (committed (conn_of s)) with
    | (Ok a, d) => (Ok a, set_conn (with_committed d (conn_of s)) s)
    | (Err e, _) => (Err e, s)
    end.
Proof.
  intros Hf Hout. unfold uow. rewrite Hout.
  destruct (unit_calls_serial bodies (committed (conn_of s)) false s Hf) as [w' Hx].
  unfold enter_unit in Hx. rewrite Hx.
  destruct (for_each bodies id (committed (conn_of s))) as [[a|e] d]; simpl;
    rewrite !conn_set; simpl; unfold round_trip; simpl; rewrite ?Hf; simpl;
    rewrite ?conn_set, ?set_set; simpl; f_equal.
  etrans; [|apply set_same]. f_equal. by destruct (conn_of s).
Qed.

(** Nesting is refused before anything runs. *)
Lemma uow_nested_refused {A} (body : M S Exn A) s :
  in_unit_of_work (conn_of s) = true -> uow false body s = (Err nested_unit, s).
Proof. intros Hin. unfold uow. by rewrite Hin. Qed.
End Laws.
#[export] Hint Resolve write_session_within read_session_within : keep.

(** ** Tables of a database

    A database with a table of [R] rows in it; the statements of a store run
    on that table and leave the rest alone. *)
Class HasTable (D R : Type) := {
  table : D -> list R;
  set_table : list R -> D -> D;
  table_set t d : table (set_table t d) = t;
  set_table_set t t' d : set_table t (set_table t' d) = set_table t d;
  set_table_same d : set_table (table d) d = d }.

#[export] Instance list_has_table R : HasTable (list R) R :=
  {| table t := t; set_table t _ := t; table_set _ _ := eq_refl; set_table_set _ _ _ := eq_refl;
     set_table_same _ := eq_refl |}.

Definition on_table {D R} `{HasTable D R} {A} (m : M (list R) Exn A) : M D Exn A := fun d =>
  let '(r, t) := m (table d) in (r, set_table t d).

(** Writing one table leaves another as it is. *)
Class Apart (D R1 R2 : Type) `{HasTable D R1} `{HasTable D R2} :=
  table_apart (t : list R1) (d : D) : table (set_table t d) = (table d : list R2).
