(* ===== verification/Broadcast.v ===== *)
(** * Subscriber queues and event fan-out ([agent/runner.py])

    Every attached transport has one bounded queue.  A full queue drops
    stream chatter, never a critical event (terminals and process markers):
    for those the oldest droppable entry is evicted.  [None] in a queue is
    [STREAM_CLOSED], the end-of-stream marker. *)
From S2P Require Import Prelude PyStr Clock Domain.

Definition SUBSCRIBER_QUEUE_SIZE : nat := 100.

Record ConversationEvent := {
  ce_dialog_id : pystr;
  ce_seq : Z;
  ce_payload : LoopEvent;
  ce_exchange_id : option pystr }.

Abbreviation queue := (list (option ConversationEvent)) (only parsing).
Definition STREAM_CLOSED : option ConversationEvent := None.

(** [isinstance(event, _CRITICAL_EVENTS)] *)
Definition is_critical (event : LoopEvent) : bool :=
  match event with
  | Finished _ _ _ | Failed _ | Cancelled | ProcessStarted _ _ _ | ProcessCompleted _ _ _ => true
  | _ => false
  end.

(** [queue.put_nowait(item)]; [None] is [QueueFull]. *)
Definition put_nowait (item : option ConversationEvent) (q : queue) : option queue :=
  if decide (length q < SUBSCRIBER_QUEUE_SIZE)%nat then Some (q ++ [item]) else None.

(** [with suppress(QueueFull): queue.put_nowait(item)] *)
Definition put_or_skip (q : queue) (item : option ConversationEvent) : queue :=
  default q (put_nowait item q).

(** An entry that may be evicted: neither critical nor the end marker. *)
Definition droppable (item : option ConversationEvent) : bool :=
  match item with
  | None => false
  | Some e => negb (is_critical (ce_payload e))
  end.

(** Position of the first droppable entry, and the list without it. *)
Fixpoint victim (drained : queue) : option nat :=
  match drained with
  | [] => None
  | item :: rest => if droppable item then Some O else S <$> victim rest
  end.

(** [_evict_and_put]: the new queue, and whether the event was admitted. *)
Definition evict_and_put (q : queue) (envelope : ConversationEvent) : queue * bool :=
  match victim q with
  | Some i => (foldl put_or_skip [] (delete i q ++ [Some envelope]), true)
  | None => (foldl put_or_skip [] q, false)
  end.

(** [_close_stream]: the end marker goes in, evicting from the head while
    the queue is full.  One eviction makes room, so the loop needs no more
    turns than there are entries, plus one. *)
Fixpoint close_loop (fuel : nat) (q : queue) : option queue :=
  match fuel with
  | O => None
  | S fuel =>
      match put_nowait STREAM_CLOSED q with
      | Some q' => Some q'
      | None => close_loop fuel (tail q)
      end
  end.
Definition close_stream (q : queue) : queue := default q (close_loop (S (length q)) q).

(** The actor's side of the fan-out: the event counter, the drop counter and
    the subscribers with their queues. *)
Record Hub := {
  h_seq : Z;
  h_dropped : Z;
  h_subscribers : list (N * queue) }.

(** What [_broadcast] does for one subscriber: the queue, whether it accepted
    the event, and how many drops were counted. *)
Definition offer (envelope : ConversationEvent) (q : queue) : queue * bool * Z :=
  match put_nowait (Some envelope) q with
  | Some q' => (q', true, 0%Z)
  | None =>
      if is_critical (ce_payload envelope) then
        let '(q', ok) := evict_and_put q envelope in (q', ok, 1%Z)
      else (q, false, 1%Z)
  end.

(** [_broadcast]: the number of queues that accepted the event. *)
Definition broadcast (dialog_id : pystr) (event : LoopEvent) (exchange_id : option pystr)
    (h : Hub) : Hub * nat :=
  let envelope := {| ce_dialog_id := dialog_id; ce_seq := (h_seq h + 1)%Z;
                     ce_payload := event; ce_exchange_id := exchange_id |} in
  let results := (fun '(i, q) => (i, offer envelope q)) <$> h_subscribers h in
  ({| h_seq := (h_seq h + 1)%Z;
      h_dropped := (h_dropped h + sum_Z ((fun '(_, (_, _, d)) => d) <$> results))%Z;
      h_subscribers := (fun '(i, (q, _, _)) => (i, q)) <$> results |},
   length (filter (fun '(_, (_, ok, _)) => ok = true) results)).

(** ** Invariants *)

Definition queue_bounded (q : queue) : Prop := (length q <= SUBSCRIBER_QUEUE_SIZE)%nat.

(** Entries that must survive: critical events and the end marker. *)
Definition must_keep (item : option ConversationEvent) : Prop := droppable item = false.
#[export] Instance must_keep_dec item : Decision (must_keep item).
Proof. unfold must_keep. apply _. Defined.

(** The events of a queue carry increasing numbers, none above the counter. *)
Definition seqs (q : queue) : list Z := omap (fun i => ce_seq <$> i) q.
Definition queue_ordered (top : Z) (q : queue) : Prop :=
  StronglySorted Z.lt (seqs q) /\ Forall (fun s => s <= top)%Z (seqs q).

Definition hub_ok (h : Hub) : Prop :=
  Forall (fun '(_, q) => queue_bounded q /\ queue_ordered (h_seq h) q) (h_subscribers h).

(** ** Lemmas *)

Lemma put_nowait_Some item q q' :
  put_nowait item q = Some q' -> q' = q ++ [item] /\ queue_bounded q'.
Proof.
  unfold put_nowait, queue_bounded. case_decide; [|done]. intros [= <-].
  rewrite length_app. simpl. split; [done|lia].
Qed.

Lemma put_nowait_None item q : put_nowait item q = None <-> (SUBSCRIBER_QUEUE_SIZE <= length q)%nat.
Proof. unfold put_nowait. case_decide; naive_solver lia. Qed.

(** Refilling a drained queue loses nothing while it fits. *)
Lemma refill q k : (length q + length k <= SUBSCRIBER_QUEUE_SIZE)%nat ->
  foldl put_or_skip q k = q ++ k.
Proof.
  revert q. induction k as [|x k IH]; intros q Hk; simpl in *; [by rewrite app_nil_r|].
  unfold put_or_skip at 2. unfold put_nowait. rewrite decide_True by lia. simpl.
  rewrite IH; [by rewrite <-app_assoc|]. rewrite length_app. simpl. lia.
Qed.

Lemma victim_Some q i : victim q = Some i ->
  exists item, q !! i = Some item /\ droppable item = true.
Proof.
  revert i. induction q as [|x q IH]; intros i; simpl; [done|].
  destruct (droppable x) eqn:Hx; [intros [= <-]; eauto|].
  intros (j & Hj & ->)%fmap_Some. by apply IH.
Qed.

Lemma victim_None q : victim q = None <-> Forall must_keep q.
Proof.
  induction q as [|x q IH]; simpl; [by split|]. rewrite Forall_cons. unfold must_keep at 1.
  destruct (droppable x); [naive_solver|]. rewrite fmap_None. naive_solver.
Qed.

Lemma evict_and_put_spec q e : queue_bounded q ->
  evict_and_put q e =
    match victim q with
    | Some i => (delete i q ++ [Some e], true)
    | None => (q, false)
    end.
Proof.
  unfold queue_bounded, evict_and_put. intros Hq. destruct (victim q) as [i|] eqn:Hi.
  - apply victim_Some in Hi as (item & Hl & _). rewrite refill; [done|].
    simpl. rewrite length_app, length_delete by eauto. apply lookup_lt_Some in Hl. simpl. lia.
  - by rewrite refill.
Qed.

Lemma filter_keep_delete q i : victim q = Some i -> filter must_keep (delete i q) = filter must_keep q.
Proof.
  revert i. induction q as [|x q IH]; intros i; simpl; [done|].
  destruct (droppable x) eqn:Hx.
  - intros [= <-]. simpl. rewrite filter_cons_False; [done|]. unfold must_keep. congruence.
  - intros (j & Hj & ->)%fmap_Some. simpl. rewrite !filter_cons. by rewrite IH.
Qed.

(** [offer]: the queue stays bounded, nothing that must survive is lost, and
    an accepted event is the newest entry. *)
Lemma offer_spec e q q' ok d : queue_bounded q -> offer e q = (q', ok, d) ->
  queue_bounded q' /\
  (if ok then exists q0, q' = q0 ++ [Some e] /\ sublist q0 q /\
     filter must_keep q0 = filter must_keep q
   else q' = q) /\
  (is_critical (ce_payload e) = true -> ok = false -> Forall must_keep q).
Proof.
  intros Hq. unfold offer. destruct (put_nowait (Some e) q) as [q1|] eqn:Hp.
  { intros [= <- <- <-]. apply put_nowait_Some in Hp as [-> Hb]. split_and!; [done| |done].
    by exists q. }
  destruct (is_critical (ce_payload e)) eqn:Hc; [|by intros [= <- <- <-]].
  rewrite evict_and_put_spec by done. destruct (victim q) as [i|] eqn:Hv.
  - intros [= <- <- <-]. pose proof (victim_Some _ _ Hv) as (item & Hl & _).
    split_and!; [| |done].
    + unfold queue_bounded in *. rewrite length_app, length_delete by eauto.
      apply lookup_lt_Some in Hl. simpl. lia.
    + exists (delete i q). split_and!; [done|apply sublist_delete|by apply filter_keep_delete].
  - intros [= <- <- <-]. split_and!; [done|done|]. intros _ _. by apply victim_None.
Qed.

Lemma seqs_app q k : seqs (q ++ k) = seqs q ++ seqs k.
Proof. apply omap_app. Qed.

Lemma seqs_sublist q k : sublist q k -> sublist (seqs q) (seqs k).
Proof.
  induction 1 as [|x q k H IH|x q k H IH]; [done| |]; unfold seqs in *; simpl;
    destruct x; simpl; try done; by constructor.
Qed.

Lemma StronglySorted_snoc l (x : Z) :
  StronglySorted Z.lt l -> Forall (fun y => y < x)%Z l -> StronglySorted Z.lt (l ++ [x]).
Proof.
  induction 1 as [|y l Hl IH Hy]; intros Hx; simpl; [repeat constructor|].
  apply Forall_cons in Hx as [Hyx Hx]. constructor; [by apply IH|].
  apply Forall_app. split; [done|]. by constructor.
Qed.

Lemma queue_ordered_offer top e q q' ok d :
  queue_bounded q -> queue_ordered top q -> ce_seq e = (top + 1)%Z ->
  offer e q = (q', ok, d) -> queue_ordered (top + 1) q'.
Proof.
  intros Hb [Hs Ht] He Ho. destruct (offer_spec _ _ _ _ _ Hb Ho) as (_ & Hq & _).
  destruct ok.
  - destruct Hq as (q0 & -> & Hsub & _). apply seqs_sublist in Hsub.
    unfold queue_ordered. rewrite seqs_app. simpl. rewrite He.
    assert (Forall (fun s => s <= top)%Z (seqs q0)) as H0 by (by eapply Forall_sublist).
    split.
    + apply StronglySorted_snoc; [by eapply StronglySorted_sublist|].
      eapply Forall_impl; [exact H0|]. simpl. lia.
    + apply Forall_app. split; [|by repeat constructor; lia].
      eapply Forall_impl; [exact H0|]. simpl. lia.
  - subst q'. split; [done|]. eapply Forall_impl; [exact Ht|]. simpl. lia.
Qed.

Lemma broadcast_seq d ev ex h : h_seq (broadcast d ev ex h).1 = (h_seq h + 1)%Z.
Proof. done. Qed.

Lemma broadcast_ok d ev ex h : hub_ok h -> hub_ok (broadcast d ev ex h).1.
Proof.
  unfold hub_ok, broadcast. simpl. set (env := {| ce_seq := _ |}).
  induction (h_subscribers h) as [|[i q] subs IH]; simpl; [constructor|].
  intros [[Hb Ho] Hsubs]%Forall_cons. constructor; [|by apply IH].
  destruct (offer env q) as [[q' ok] dd] eqn:Hof. simpl.
  split; [by destruct (offer_spec _ _ _ _ _ Hb Hof)|].
  by apply (queue_ordered_offer (h_seq h) env q q' ok dd Hb Ho eq_refl Hof).
Qed.

(** An event somebody accepted is the newest entry of some queue. *)
Lemma broadcast_accepted d ev ex h :
  hub_ok h -> (0 < (broadcast d ev ex h).2)%nat ->
  exists i q e, (i, q ++ [Some e]) ∈ h_subscribers (broadcast d ev ex h).1 /\
    ce_payload e = ev /\ ce_exchange_id e = ex /\ ce_seq e = (h_seq h + 1)%Z.
Proof.
  unfold hub_ok, broadcast. simpl. set (env := {| ce_seq := _ |}).
  induction (h_subscribers h) as [|[i q] subs IH]; simpl; [lia|].
  intros [[Hb _] Hsubs]%Forall_cons. rewrite filter_cons.
  destruct (offer env q) as [[q' ok] dd] eqn:Hof. simpl.
  destruct (offer_spec _ _ _ _ _ Hb Hof) as (_ & Hq & _).
  destruct ok; simpl.
  - intros _. destruct Hq as (q0 & -> & _). exists i, q0, env. split; [|done].
    apply list_elem_of_here.
  - intros Hlen. destruct (IH Hsubs Hlen) as (j & q0 & e & Hin & He).
    exists j, q0, e. split; [|done]. by apply list_elem_of_further.
Qed.

Lemma close_loop_room q fuel :
  (length q < SUBSCRIBER_QUEUE_SIZE)%nat -> (0 < fuel)%nat -> close_loop fuel q = Some (q ++ [None]).
Proof.
  intros Hq. destruct fuel; [lia|]. intros _. simpl. unfold put_nowait.
  by rewrite decide_True.
Qed.

(** Closing a stream always puts the marker last and keeps the bound; a full
    queue loses only its oldest entry. *)
Lemma close_stream_spec q : queue_bounded q ->
  close_stream q = (if decide (length q < SUBSCRIBER_QUEUE_SIZE)%nat then q else tail q) ++ [None]
  /\ queue_bounded (close_stream q).
Proof.
  unfold queue_bounded. intros Hq. unfold close_stream. case_decide as Hlt.
  - rewrite close_loop_room by lia. simpl. rewrite length_app. simpl. split; [done|lia].
  - cbn [close_loop]. destruct (put_nowait STREAM_CLOSED q) eqn:Hp.
    { apply put_nowait_Some in Hp as [-> Hb]. unfold queue_bounded in Hb.
      rewrite length_app in Hb. simpl in Hb. lia. }
    destruct q as [|x q]; [simpl in Hlt; unfold SUBSCRIBER_QUEUE_SIZE in *; lia|].
    cbn [length tail] in *. rewrite close_loop_room by lia. simpl.
    split; [done|]. rewrite length_app. simpl. lia.
Qed.

#[global] Arguments broadcast : simpl never.
