(* ===== verification/Codec.v ===== *)
(** * The rows of the [messages] table and their columns

    [MessageRow] of [dialogs/models.py] with the conversions of
    [dialogs/store.py] between a row and a [ChatMessage].  [None] in a
    decoder is the [KeyError], [ValueError] or [TypeError] the source raises
    on a column no encoder of this module writes. *)
From S2P Require Import Prelude PyStr Clock Dict Domain.

(** [dict[str, Any]] as a JSON column holds it. *)
Abbreviation obj := (list (pystr * json)).

Record MessageRow := {
  mr_id : pystr;
  mr_dialog_id : pystr;
  mr_seq : Z;
  mr_role : pystr;
  mr_content : pystr;
  mr_tool_calls : option (list obj);
  mr_tool_call_id : option pystr;
  mr_client_message_id : option pystr;
  mr_prompt_tokens : option Z;
  mr_completion_tokens : option Z;
  mr_task_id : option pystr;
  mr_exchange_id : option pystr;
  mr_kind : option pystr;
  mr_attachments : option (list obj);
  mr_created_at : time }.

(** [str(value)] of a JSON scalar; the text of a float or a container is
    left out, no encoder writes one where this is read. *)
Definition str_of_json (v : json) : option pystr :=
  match v with
  | JStr s => Some s
  | JInt z => Some (str_of_Z z)
  | JBool b => Some (if b then "True" else "False")
  | JNull => Some "None"
  | JFloat _ | JList _ | JObj _ => None
  end.

Definition kind_to_column (kind : MessageKind.t) : option pystr :=
  if decide (kind = MessageKind.OWN) then None else Some (MessageKind.value kind).

(** [MessageKind(row.kind) if row.kind else MessageKind.OWN] *)
Definition kind_of_column (column : option pystr) : option MessageKind.t :=
  match column with
  | None => Some MessageKind.OWN
  | Some s => if str_empty s then Some MessageKind.OWN else MessageKind.of_value s
  end.

Definition attachments_to_json (items : list Attachment) : option (list obj) :=
  match items with
  | [] => None
  | _ => Some ((fun item => [("kind", JStr (AttachmentKind.value (at_kind item)));
                             ("ref", JStr (at_ref item))]) <$> items)
  end.

Definition attachment_of_json (item : obj) : option Attachment :=
  kind ← dict_get "kind" item;
  ref ← dict_get "ref" item;
  k ← (match kind with JStr s => AttachmentKind.of_value s | _ => None end);
  r ← str_of_json ref;
  Some {| at_kind := k; at_ref := r |}.

Definition attachments_from_json (raw : option (list obj)) : option (list Attachment) :=
  match raw with
  | None => Some []
  | Some l => mapM attachment_of_json l
  end.

Definition tool_calls_to_json (tool_calls : list ToolCall) : option (list obj) :=
  match tool_calls with
  | [] => None
  | _ => Some ((fun call => [("id", JStr (tc_id call)); ("name", JStr (tc_name call));
                             ("arguments", JObj (tc_arguments call))]) <$> tool_calls)
  end.

Definition tool_call_of_json (item : obj) : option ToolCall :=
  i ← dict_get "id" item; i ← str_of_json i;
  n ← dict_get "name" item; n ← str_of_json n;
  a ← dict_get "arguments" item;
  a ← (match a with JObj d => Some d | _ => None end);
  Some {| tc_id := i; tc_name := n; tc_arguments := a |}.

Definition tool_calls_from_json (raw : option (list obj)) : option (list ToolCall) :=
  match raw with
  | None => Some []
  | Some l => mapM tool_call_of_json l
  end.

Definition to_chat_message (row : MessageRow) : option ChatMessage :=
  role ← MessageRole.of_value (mr_role row);
  tool_calls ← tool_calls_from_json (mr_tool_calls row);
  kind ← kind_of_column (mr_kind row);
  attachments ← attachments_from_json (mr_attachments row);
  Some {| cm_role := role; cm_content := mr_content row; cm_tool_calls := tool_calls;
          cm_tool_call_id := mr_tool_call_id row; cm_task_id := mr_task_id row; cm_kind := kind;
          cm_attachments := attachments; cm_id := Some (mr_id row);
          cm_exchange_id := mr_exchange_id row |}.

(** The [values(..)] of the INSERT of [append]. *)
Definition row_of_message (row_id dialog_id : pystr) (seq : Z) (message : ChatMessage)
    (usage : option Usage) (client_message_id : option pystr) (now : time) : MessageRow :=
  {| mr_id := row_id; mr_dialog_id := dialog_id; mr_seq := seq;
     mr_role := MessageRole.value (cm_role message); mr_content := cm_content message;
     mr_tool_calls := tool_calls_to_json (cm_tool_calls message);
     mr_tool_call_id := cm_tool_call_id message; mr_client_message_id := client_message_id;
     mr_prompt_tokens := prompt_tokens <$> usage;
     mr_completion_tokens := completion_tokens <$> usage;
     mr_task_id := cm_task_id message; mr_exchange_id := cm_exchange_id message;
     mr_kind := kind_to_column (cm_kind message);
     mr_attachments := attachments_to_json (cm_attachments message); mr_created_at := now |}.

Definition to_archived (row : MessageRow) : option ArchivedMessage :=
  role ← MessageRole.of_value (mr_role row);
  Some {| am_seq := mr_seq row; am_role := role; am_content := mr_content row;
          am_created_at := mr_created_at row |}.

(** ** Round trips *)

Lemma mapM_roundtrip {A B} (enc : A -> B) (dec : B -> option A) l :
  (forall x, dec (enc x) = Some x) -> mapM dec (enc <$> l) = Some l.
Proof. intros H. induction l as [|x l IH]; [done|]. cbn. by rewrite H, IH. Qed.

Lemma attachment_roundtrip item :
  attachment_of_json [("kind", JStr (AttachmentKind.value (at_kind item)));
                      ("ref", JStr (at_ref item))] = Some item.
Proof. by destruct item as [[] r]. Qed.

Lemma attachments_roundtrip items : attachments_from_json (attachments_to_json items) = Some items.
Proof.
  destruct items as [|x l]; [done|]. cbn [attachments_to_json attachments_from_json].
  by apply mapM_roundtrip; intros; apply attachment_roundtrip.
Qed.

Lemma tool_calls_roundtrip calls : tool_calls_from_json (tool_calls_to_json calls) = Some calls.
Proof.
  destruct calls as [|x l]; [done|]. cbn [tool_calls_to_json tool_calls_from_json].
  by apply mapM_roundtrip; intros [].
Qed.

Lemma kind_roundtrip kind : kind_of_column (kind_to_column kind) = Some kind.
Proof. by destruct kind. Qed.

(** A message read back is the message written, under the id of its row. *)
Lemma message_roundtrip row_id dialog_id seq message usage client now :
  to_chat_message (row_of_message row_id dialog_id seq message usage client now) =
    Some (with_id row_id message).
Proof.
  unfold to_chat_message, row_of_message. cbn [mr_role mr_tool_calls mr_kind mr_attachments].
  rewrite MessageRole.role_of_value_value, tool_calls_roundtrip, kind_roundtrip, attachments_roundtrip.
  by destruct message.
Qed.

Lemma to_archived_row row_id dialog_id seq message usage client now :
  to_archived (row_of_message row_id dialog_id seq message usage client now) =
    Some {| am_seq := seq; am_role := cm_role message; am_content := cm_content message;
            am_created_at := now |}.
Proof. unfold to_archived. cbn [mr_role row_of_message]. by rewrite MessageRole.role_of_value_value. Qed.
