(* ===== verification/TaskStore.v ===== *)
(** * The task store ([tasks/store.py])

    [Sql] is [SqlAlchemyTaskStore], a computation over the task table;
    [InMemory] is [InMemoryTaskStore], the dictionary the source calls the
    behavioural reference.  [TaskStoreOps] is the port both implement, and
    the refinement at the end shows that every call of the SQL store answers
    as the reference does. *)
From S2P Require Import Prelude PyStr Clock Sql Dict Domain.

Definition ACTIVE : list TaskStatus.t := [TaskStatus.PENDING; TaskStatus.RUNNING].
Definition FINISHED : list TaskStatus.t := [TaskStatus.DONE; TaskStatus.FAILED].

(** The assignment of a finishing write. *)
Definition finish_values (now : time) (status : TaskStatus.t) (result error : option pystr)
    (delivered : bool) (t : Task) : Task :=
  {| tk_id := tk_id t; tk_dialog_id := tk_dialog_id t; tk_title := tk_title t;
     tk_kind := tk_kind t; tk_input := tk_input t; tk_exchange_id := tk_exchange_id t;
     tk_status := status;
     tk_result := match result with Some r => Some r | None => tk_result t end;
     tk_error := match error with Some e => Some e | None => tk_error t end;
     tk_created_at := tk_created_at t; tk_started_at := tk_started_at t;
     tk_finished_at := Some now;
     tk_delivered_at := if delivered then Some now else tk_delivered_at t |}.

Definition stamp_delivered (now : time) (t : Task) : Task :=
  {| tk_id := tk_id t; tk_dialog_id := tk_dialog_id t; tk_title := tk_title t;
     tk_kind := tk_kind t; tk_input := tk_input t; tk_exchange_id := tk_exchange_id t;
     tk_status := tk_status t; tk_result := tk_result t; tk_error := tk_error t;
     tk_created_at := tk_created_at t; tk_started_at := tk_started_at t;
     tk_finished_at := tk_finished_at t; tk_delivered_at := Some now |}.

(** The scope of a recovery query: one dialog, or every one. *)
Definition in_scope (dialog_id : option pystr) (t : Task) : Prop :=
  match dialog_id with Some d => tk_dialog_id t = d | None => True end.
#[export] Instance in_scope_dec d t : Decision (in_scope d t).
Proof. unfold in_scope. destruct d; apply _. Defined.

Definition orphaned (t : Task) : Prop := tk_status t ∈ ACTIVE.
Definition undelivered (t : Task) : Prop := tk_status t ∈ FINISHED /\ tk_delivered_at t = None.
#[export] Instance orphaned_dec t : Decision (orphaned t).
Proof. unfold orphaned. apply _. Defined.
#[export] Instance undelivered_dec t : Decision (undelivered t).
Proof. unfold undelivered. apply _. Defined.

(** The [TaskStore] port over a state [S]; [time] is the clock the call reads. *)
Record TaskStoreOps (S : Type) := {
  ts_add : Task -> M S Exn unit;
  ts_get : pystr -> M S Exn Task;
  ts_list : pystr -> M S Exn (list Task);
  ts_delete : pystr -> M S Exn unit;
  ts_delete_for_dialog : pystr -> M S Exn Z;
  ts_list_orphaned : option pystr -> M S Exn (list Task);
  ts_list_undelivered : option pystr -> M S Exn (list Task);
  ts_list_for_recovery : option pystr -> M S Exn (list Task * list Task);
  ts_mark_delivered : time -> pystr -> M S Exn unit;
  ts_mark_done : time -> pystr -> pystr -> bool -> M S Exn Task;
  ts_mark_failed : time -> pystr -> pystr -> bool -> M S Exn Task;
  ts_mark_cancelled : time -> pystr -> M S Exn Task }.

Module Sql.
Definition add (task : Task) : M (list Task) Exn unit := fun t =>
  match find_key tk_id (tk_id task) t with
  | Some _ => (Err IntegrityError, t)
  | None => (Ok tt, insert_row task t)
  end.

Definition get (task_id : pystr) : M (list Task) Exn Task := fun t =>
  match find_key tk_id task_id t with
  | None => (Err (TaskNotFoundError task_id), t)
  | Some row => (Ok row, t)
  end.

Definition list_ (dialog_id : pystr) : M (list Task) Exn (list Task) :=
  gets (fun t => order_by tk_created_at (select_where (fun r => tk_dialog_id r = dialog_id) t)).

(** [_finish]: one [UPDATE .. RETURNING]. *)
Definition finish (now : time) (task_id : pystr) (status : TaskStatus.t)
    (result error : option pystr) (delivered : bool) : M (list Task) Exn Task := fun t =>
  let t' := update_where (fun r => tk_id r = task_id)
              (finish_values now status result error delivered) t in
  match find_key tk_id task_id t' with
  | None => (Err (TaskNotFoundError task_id), t')
  | Some row => (Ok row, t')
  end.

Definition mark_done now task_id result delivered :=
  finish now task_id TaskStatus.DONE (Some result) None delivered.
Definition mark_failed now task_id error delivered :=
  finish now task_id TaskStatus.FAILED None (Some error) delivered.
Definition mark_cancelled now task_id :=
  finish now task_id TaskStatus.CANCELLED None None false.

Definition delete (task_id : pystr) : M (list Task) Exn unit := fun t =>
  match find_key tk_id task_id t with
  | None => (Err (TaskNotFoundError task_id), t)
  | Some _ => (Ok tt, delete_where (fun r => tk_id r = task_id) t)
  end.

Definition delete_for_dialog (dialog_id : pystr) : M (list Task) Exn Z := fun t =>
  (Ok (Z.of_nat (rowcount (fun r => tk_dialog_id r = dialog_id) t)),
   delete_where (fun r => tk_dialog_id r = dialog_id) t).

(** Both recovery sets from one query, split by status. *)
Definition list_for_recovery (dialog_id : option pystr)
    : M (list Task) Exn (list Task * list Task) :=
  gets (fun t =>
    let tasks := order_by tk_created_at
      (select_where (fun r => (orphaned r \/ undelivered r) /\ in_scope dialog_id r) t) in
    (filter (fun r => tk_status r ∈ ACTIVE) tasks,
     filter (fun r => tk_status r ∉ ACTIVE) tasks)).

Definition list_orphaned (dialog_id : option pystr) : M (list Task) Exn (list Task) :=
  let! p := list_for_recovery dialog_id in ret p.1.
Definition list_undelivered (dialog_id : option pystr) : M (list Task) Exn (list Task) :=
  let! p := list_for_recovery dialog_id in ret p.2.

Definition mark_delivered (now : time) (task_id : pystr) : M (list Task) Exn unit := fun t =>
  let t' := update_where (fun r => tk_id r = task_id) (stamp_delivered now) t in
  if decide (rowcount (fun r => tk_id r = task_id) t = 0%nat)
  then (Err (TaskNotFoundError task_id), t') else (Ok tt, t').

Definition ops : TaskStoreOps (list Task) :=
  {| ts_add := add; ts_get := get; ts_list := list_; ts_delete := delete;
     ts_delete_for_dialog := delete_for_dialog; ts_list_orphaned := list_orphaned;
     ts_list_undelivered := list_undelivered; ts_list_for_recovery := list_for_recovery;
     ts_mark_delivered := mark_delivered; ts_mark_done := mark_done;
     ts_mark_failed := mark_failed; ts_mark_cancelled := mark_cancelled |}.
End Sql.

Module InMemory.
Abbreviation store := (list (pystr * Task)) (only parsing).

Definition add (task : Task) : M store Exn unit := modify (dict_set (tk_id task) task).

Definition get (task_id : pystr) : M store Exn Task := fun d =>
  match dict_get task_id d with
  | None => (Err (TaskNotFoundError task_id), d)
  | Some task => (Ok task, d)
  end.

Definition list_ (dialog_id : pystr) : M store Exn (list Task) :=
  gets (fun d => filter (fun task => tk_dialog_id task = dialog_id) (dict_values d)).

(** [task = await self.get(id)], then assignments to the shared object,
    which is also what the call returns. *)
Definition mutate (task_id : pystr) (f : Task -> Task) : M store Exn Task :=
  let! task := get task_id in
  modify (dict_update task_id f) ;;;
  ret (f task).

Definition mark_done now task_id result delivered :=
  mutate task_id (finish_values now TaskStatus.DONE (Some result) None delivered).
Definition mark_failed now task_id error delivered :=
  mutate task_id (finish_values now TaskStatus.FAILED None (Some error) delivered).
Definition mark_cancelled now task_id :=
  mutate task_id (finish_values now TaskStatus.CANCELLED None None false).

Definition delete (task_id : pystr) : M store Exn unit :=
  let! task := get task_id in modify (dict_pop (tk_id task)).

Definition delete_for_dialog (dialog_id : pystr) : M store Exn Z := fun d =>
  let matched := fst <$> filter (fun kv => tk_dialog_id kv.2 = dialog_id) d in
  (Ok (Z.of_nat (length matched)), foldl (fun d k => dict_pop k d) d matched).

Definition list_orphaned (dialog_id : option pystr) : M store Exn (list Task) :=
  gets (fun d => filter (fun task => tk_status task ∈ ACTIVE /\ in_scope dialog_id task)
                   (dict_values d)).
Definition list_undelivered (dialog_id : option pystr) : M store Exn (list Task) :=
  gets (fun d => filter (fun task => tk_status task ∈ FINISHED /\ tk_delivered_at task = None /\
                                     in_scope dialog_id task) (dict_values d)).
Definition list_for_recovery (dialog_id : option pystr) : M store Exn (list Task * list Task) :=
  let! a := list_orphaned dialog_id in
  let! b := list_undelivered dialog_id in
  ret (a, b).

Definition mark_delivered (now : time) (task_id : pystr) : M store Exn unit :=
  mutate task_id (stamp_delivered now) ;;; ret tt.

Definition ops : TaskStoreOps store :=
  {| ts_add := add; ts_get := get; ts_list := list_; ts_delete := delete;
     ts_delete_for_dialog := delete_for_dialog; ts_list_orphaned := list_orphaned;
     ts_list_undelivered := list_undelivered; ts_list_for_recovery := list_for_recovery;
     ts_mark_delivered := mark_delivered; ts_mark_done := mark_done;
     ts_mark_failed := mark_failed; ts_mark_cancelled := mark_cancelled |}.
End InMemory.

(** ** Refinement *)

(** The SQL table holds the reference's tasks, in the order they were made. *)
Record store_rel (d : InMemory.store) (t : list Task) : Prop := {
  sr_rows : dict_values d = t;
  sr_keys : Forall (fun kv => kv.1 = tk_id kv.2) d;
  sr_nodup : dict_ok d;
  sr_sorted : sorted_by tk_created_at t }.

Definition refines {A} (m : M InMemory.store Exn A) (s : M (list Task) Exn A) : Prop :=
  forall d t, store_rel d t -> (m d).1 = (s t).1 /\ store_rel (m d).2 (s t).2.

Lemma rel_find d t k : store_rel d t -> dict_get k d = find_key tk_id k t.
Proof.
  intros [<- Hk _ _]. induction d as [|[k' v] d IH]; [done|]. apply Forall_cons in Hk as [Hk Hd].
  simpl in Hk. change (dict_values ((k', v) :: d)) with (v :: dict_values d).
  rewrite find_key_cons. simpl. rewrite Hk. case_decide; [done|]. by apply IH.
Qed.

Lemma rel_update d t k f :
  (forall v, tk_id (f v) = tk_id v) -> (forall v, tk_created_at (f v) = tk_created_at v) ->
  store_rel d t ->
  store_rel (dict_update k f d) (update_where (fun r => tk_id r = k) f t).
Proof.
  intros Hid Hca [<- Hk Hnd Hs]. split.
  - unfold dict_values, dict_update, update_where. rewrite <-!list_fmap_compose.
    apply list_fmap_ext. intros i [k' v] Hi. apply (Forall_lookup_1 _ _ _ _ Hk) in Hi.
    simpl in *. rewrite <-Hi. by case_decide.
  - unfold dict_update. apply Forall_fmap. eapply Forall_impl; [exact Hk|].
    intros [k' v]. simpl. case_decide; simpl; [by rewrite Hid | done].
  - by apply dict_ok_update.
  - eapply sorted_by_proj; [|exact Hs]. apply update_where_proj. intros. apply Hca.
Qed.

Lemma rel_delete d t (P : Task -> Prop) `{!forall r, Decision (P r)} :
  store_rel d t -> store_rel (filter (fun kv => ~ P kv.2) d) (delete_where P t).
Proof.
  intros [<- Hk Hnd Hs]. split.
  - unfold delete_where, dict_values. by rewrite filter_fmap.
  - by apply Forall_filter_keep.
  - eapply sublist_NoDup; [exact Hnd|]. apply fmap_sublist, sublist_filter.
  - eapply sorted_by_sublist; [exact Hs|]. apply sublist_filter.
Qed.

Lemma refines_bind {A B} (m : M InMemory.store Exn A) s (k : A -> M InMemory.store Exn B) ks :
  refines m s -> (forall a, refines (k a) (ks a)) -> refines (bind m k) (bind s ks).
Proof.
  intros Hm Hk d t Hr. destruct (Hm d t Hr) as [Heq Hr']. unfold bind.
  destruct (m d) as [[a|e] d'], (s t) as [[a'|e'] t']; simplify_eq/=; [by apply Hk | done].
Qed.

Lemma refines_finish now k status result error delivered :
  refines (InMemory.mutate k (finish_values now status result error delivered))
          (Sql.finish now k status result error delivered).
Proof.
  intros d t Hr. unfold InMemory.mutate, Sql.finish, bind, InMemory.get.
  rewrite find_key_update_fixed by done. rewrite (rel_find _ _ k Hr).
  destruct (find_key tk_id k t) as [v|] eqn:Hf; simpl.
  - apply find_key_Some in Hf as [_ Hv]. rewrite decide_True by done.
    split; [done|]. by apply rel_update.
  - split; [done|]. rewrite update_where_none; [done|]. by apply rowcount_key.
Qed.

Lemma refines_mark_delivered now k :
  refines (InMemory.mark_delivered now k) (Sql.mark_delivered now k).
Proof.
  intros d t Hr. unfold InMemory.mark_delivered, InMemory.mutate, Sql.mark_delivered, bind,
    InMemory.get. rewrite (rel_find _ _ k Hr).
  destruct (find_key tk_id k t) as [v|] eqn:Hf; simpl.
  - rewrite decide_False; [split; [done|by apply rel_update]|].
    rewrite rowcount_key. congruence.
  - rewrite decide_True by (by apply rowcount_key). split; [done|]. simpl.
    rewrite update_where_none; [done|]. by apply rowcount_key.
Qed.

Lemma refines_get k : refines (InMemory.get k) (Sql.get k).
Proof.
  intros d t Hr. unfold InMemory.get, Sql.get. rewrite (rel_find _ _ k Hr).
  by destruct (find_key tk_id k t).
Qed.

Lemma dict_pop_filter d t k : store_rel d t ->
  dict_pop k d = filter (fun kv => ~ tk_id kv.2 = k) d.
Proof.
  intros [_ Hk _ _]. apply list_filter_iff'. intros kv Hkv.
  rewrite Forall_forall in Hk. by rewrite (Hk kv Hkv).
Qed.

Lemma refines_delete k : refines (InMemory.delete k) (Sql.delete k).
Proof.
  intros d t Hr. unfold InMemory.delete, Sql.delete, bind, InMemory.get.
  rewrite (rel_find _ _ k Hr). destruct (find_key tk_id k t) as [v|] eqn:Hf; simpl; [|done].
  split; [done|]. apply find_key_Some in Hf as [_ ->]. erewrite dict_pop_filter by done.
  exact (rel_delete d t (fun r => tk_id r = k) Hr).
Qed.

Lemma refines_select (P : Task -> Prop) `{!forall r, Decision (P r)} :
  refines (gets (fun d => filter P (dict_values d)))
          (gets (fun t => order_by tk_created_at (select_where P t))).
Proof.
  intros d t Hr. unfold gets. simpl. split; [|done]. destruct Hr as [<- _ _ Hs].
  rewrite order_by_id; [done|]. eapply sorted_by_sublist; [exact Hs|]. apply sublist_filter.
Qed.

Lemma foldl_pop (P : Task -> Prop) `{!forall r, Decision (P r)} (d : InMemory.store) :
  dict_ok d ->
  foldl (fun d k => dict_pop k d) d (fst <$> filter (fun kv => P kv.2) d)
  = filter (fun kv => ~ P kv.2) d.
Proof.
  intros Hnd.
  assert (Hfold : forall ks (e : InMemory.store), foldl (fun d k => dict_pop k d) e ks =
    filter (fun kv => kv.1 ∉ ks) e).
  { intros ks. induction ks as [|k ks IH]; intros e; simpl.
    - symmetry. apply filter_all. apply Forall_forall. intros x _. apply not_elem_of_nil.
    - rewrite IH. unfold dict_pop. rewrite list_filter_filter. apply list_filter_iff.
      intros x. rewrite not_elem_of_cons. tauto. }
  rewrite Hfold. apply list_filter_iff'. intros [k v] Hin. simpl. split.
  - intros Hk HP. apply Hk. apply list_elem_of_fmap. exists (k, v).
    by rewrite list_elem_of_filter.
  - intros HP ([k' v'] & Hkk & [HP' Hin']%list_elem_of_filter)%list_elem_of_fmap.
    simpl in *. subst k'. apply (dict_elem_get _ _ _ Hnd) in Hin, Hin'. congruence.
Qed.

Lemma refines_delete_for_dialog d_id :
  refines (InMemory.delete_for_dialog d_id) (Sql.delete_for_dialog d_id).
Proof.
  intros d t Hr. unfold InMemory.delete_for_dialog, Sql.delete_for_dialog.
  cbn [fst snd]. split.
  - do 2 f_equal. rewrite length_fmap. destruct Hr as [<- _ _ _]. unfold rowcount, dict_values.
    by rewrite filter_fmap, length_fmap.
  - pose proof (foldl_pop (fun r => tk_dialog_id r = d_id) d (sr_nodup _ _ Hr)) as Hf.
    cbv beta in Hf. rewrite Hf.
    exact (rel_delete d t (fun r => tk_dialog_id r = d_id) Hr).
Qed.

Lemma recovery_split d_id (t : list Task) :
  sorted_by tk_created_at t ->
  let tasks := order_by tk_created_at
    (select_where (fun r => (orphaned r \/ undelivered r) /\ in_scope d_id r) t) in
  filter (fun r => tk_status r ∈ ACTIVE) tasks
    = filter (fun r => tk_status r ∈ ACTIVE /\ in_scope d_id r) t /\
  filter (fun r => tk_status r ∉ ACTIVE) tasks
    = filter (fun r => tk_status r ∈ FINISHED /\ tk_delivered_at r = None /\ in_scope d_id r) t.
Proof.
  intros Hs. cbv zeta. rewrite order_by_id; [|eapply sorted_by_sublist, sublist_filter; exact Hs].
  unfold select_where. rewrite !list_filter_filter.
  split; apply list_filter_iff; intros r; unfold orphaned, undelivered; [tauto|].
  assert (tk_status r ∈ FINISHED -> tk_status r ∉ ACTIVE).
  { destruct (tk_status r); vm_decide. }
  tauto.
Qed.

Lemma refines_list_for_recovery d_id :
  refines (InMemory.list_for_recovery d_id) (Sql.list_for_recovery d_id).
Proof.
  intros d t Hr. split; [|done]. cbn. f_equal. destruct Hr as [<- _ _ Hs].
  destruct (recovery_split d_id _ Hs) as [H1 H2]. cbv zeta in H1, H2. by rewrite H1, H2.
Qed.

Lemma refines_list_orphaned d_id : refines (InMemory.list_orphaned d_id) (Sql.list_orphaned d_id).
Proof.
  intros d t Hr. split; [|done]. cbn. f_equal. destruct Hr as [<- _ _ Hs]. symmetry. apply (recovery_split d_id _ Hs).
Qed.
Lemma refines_list_undelivered d_id : refines (InMemory.list_undelivered d_id) (Sql.list_undelivered d_id).
Proof.
  intros d t Hr. split; [|done]. cbn. f_equal. destruct Hr as [<- _ _ Hs]. symmetry. apply (recovery_split d_id _ Hs).
Qed.

Lemma refines_add (task : Task) d t :
  find_key tk_id (tk_id task) t = None ->
  Forall (fun r => tk_created_at r <= tk_created_at task)%Z t ->
  store_rel d t ->
  (InMemory.add task d).1 = (Sql.add task t).1 /\
  store_rel (InMemory.add task d).2 (Sql.add task t).2.
Proof.
  intros Hnew Hlater Hr. unfold Sql.add. rewrite Hnew. split; [done|].
  pose proof (rel_find _ _ (tk_id task) Hr) as Hg. rewrite Hnew in Hg.
  destruct Hr as [<- Hk Hnd Hs]. cbn. rewrite dict_set_new by done. split.
  - unfold dict_values. by rewrite fmap_app.
  - apply Forall_app. split; [done|]. by apply Forall_singleton.
  - unfold dict_ok, dict_keys. rewrite fmap_app. apply NoDup_app.
    split_and!; [done| |apply NoDup_singleton].
    intros x Hx ->%list_elem_of_singleton. by apply dict_get_None in Hg.
  - by apply sorted_by_snoc.
Qed.

(** *** Whole traces of calls *)

Inductive call :=
| CAdd (task : Task)
| CGet (task_id : pystr)
| CList (dialog_id : pystr)
| CDelete (task_id : pystr)
| CDeleteForDialog (dialog_id : pystr)
| COrphaned (dialog_id : option pystr)
| CUndelivered (dialog_id : option pystr)
| CForRecovery (dialog_id : option pystr)
| CMarkDelivered (now : time) (task_id : pystr)
| CMarkDone (now : time) (task_id result : pystr) (delivered : bool)
| CMarkFailed (now : time) (task_id error : pystr) (delivered : bool)
| CMarkCancelled (now : time) (task_id : pystr).

Inductive answer :=
| AUnit | ATask (t : Task) | ATasks (l : list Task) | ACount (n : Z)
| APair (a b : list Task).

Definition reply {S A} (f : A -> answer) (m : M S Exn A) : M S Exn answer :=
  let! x := m in ret (f x).

Definition perform {S} (o : TaskStoreOps S) (c : call) : M S Exn answer :=
  match c with
  | CAdd task => reply (fun _ => AUnit) (ts_add _ o task)
  | CGet k => reply ATask (ts_get _ o k)
  | CList d => reply ATasks (ts_list _ o d)
  | CDelete k => reply (fun _ => AUnit) (ts_delete _ o k)
  | CDeleteForDialog d => reply ACount (ts_delete_for_dialog _ o d)
  | COrphaned d => reply ATasks (ts_list_orphaned _ o d)
  | CUndelivered d => reply ATasks (ts_list_undelivered _ o d)
  | CForRecovery d => reply (fun p => APair p.1 p.2) (ts_list_for_recovery _ o d)
  | CMarkDelivered now k => reply (fun _ => AUnit) (ts_mark_delivered _ o now k)
  | CMarkDone now k r b => reply ATask (ts_mark_done _ o now k r b)
  | CMarkFailed now k e b => reply ATask (ts_mark_failed _ o now k e b)
  | CMarkCancelled now k => reply ATask (ts_mark_cancelled _ o now k)
  end.

Fixpoint run_calls {S} (o : TaskStoreOps S) (cs : list call) (s : S)
    : list (Res Exn answer) * S :=
  match cs with
  | [] => ([], s)
  | c :: cs =>
      let '(r, s1) := perform o c s in
      let '(rs, s2) := run_calls o cs s1 in
      (r :: rs, s2)
  end.

(** New tasks carry a fresh id and the current time. *)
Definition admissible_call (c : call) (t : list Task) : Prop :=
  match c with
  | CAdd task => find_key tk_id (tk_id task) t = None /\
                 Forall (fun r => tk_created_at r <= tk_created_at task)%Z t
  | _ => True
  end.

Fixpoint admissible (cs : list call) (t : list Task) : Prop :=
  match cs with
  | [] => True
  | c :: cs => admissible_call c t /\ admissible cs (perform Sql.ops c t).2
  end.

Lemma refines_ret {A} (a : A) : refines (ret a) (ret a).
Proof. by intros d t Hr. Qed.

Lemma refines_reply {A} (f : A -> answer) m s : refines m s -> refines (reply f m) (reply f s).
Proof. intros Hm. apply refines_bind; [done|]. intros a. apply refines_ret. Qed.

Lemma refines_perform c d t :
  admissible_call c t -> store_rel d t ->
  (perform InMemory.ops c d).1 = (perform Sql.ops c t).1 /\
  store_rel (perform InMemory.ops c d).2 (perform Sql.ops c t).2.
Proof.
  destruct c; intros Hadm Hr; cbn [perform].
  - destruct Hadm as [Hnew Hlater]. destruct (refines_add _ _ _ Hnew Hlater Hr) as [Heq Hr'].
    unfold reply, bind. cbn [ts_add InMemory.ops Sql.ops].
    destruct (InMemory.add task d) as [[?|?] ?], (Sql.add task t) as [[?|?] ?];
      by simplify_eq/=.
  - by apply (refines_reply ATask _ _ (refines_get _)).
  - by apply (refines_reply ATasks _ _ (refines_select _)).
  - by apply (refines_reply _ _ _ (refines_delete _)).
  - by apply (refines_reply ACount _ _ (refines_delete_for_dialog _)).
  - by apply (refines_reply ATasks _ _ (refines_list_orphaned _)).
  - by apply (refines_reply ATasks _ _ (refines_list_undelivered _)).
  - by apply (refines_reply _ _ _ (refines_list_for_recovery _)).
  - by apply (refines_reply _ _ _ (refines_mark_delivered _ _)).
  - by apply (refines_reply ATask _ _ (refines_finish _ _ _ _ _ _)).
  - by apply (refines_reply ATask _ _ (refines_finish _ _ _ _ _ _)).
  - by apply (refines_reply ATask _ _ (refines_finish _ _ _ _ _ _)).
Qed.

(** C24: The SQL store is the in-memory reference: from related states any
    sequence of calls in which an added task has a fresh id and was not made
    before the tasks there gets the same answers and errors and ends in
    related states.  (Under a used id the one store refuses and the other
    replaces the task; a task made earlier is listed first by the one and last
    by the other.) *)
Theorem sql_store_refines_reference cs d t :
  store_rel d t -> admissible cs t ->
  (run_calls InMemory.ops cs d).1 = (run_calls Sql.ops cs t).1 /\
  store_rel (run_calls InMemory.ops cs d).2 (run_calls Sql.ops cs t).2.
Proof.
  revert d t. induction cs as [|c cs IH]; intros d t Hr; cbn [run_calls admissible]; [done|].
  intros [Hc Hcs]. destruct (refines_perform c d t Hc Hr) as [Heq Hr'].
  destruct (perform InMemory.ops c d) as [r1 d1], (perform Sql.ops c t) as [r2 t1].
  cbn [fst snd] in *. destruct (IH d1 t1 Hr' Hcs) as [Heqs Hrs].
  destruct (run_calls InMemory.ops cs d1), (run_calls Sql.ops cs t1).
  cbn [fst snd] in *. split; [congruence | done].
Qed.
