(* ===== verification/ExchangeStore.v ===== *)
(** * The exchange store ([SqlAlchemyExchangeRepository], [dialogs/store.py])

    An exchange is one obligation to the user.  The functions here are the
    statements of the repository over the [exchanges] table; the ones that
    ask who owns an exchange also read the [tasks] table.  Every [UPDATE]
    moves [updated_at] to the clock ([onupdate=utc_now] on the column). *)
From S2P Require Import Prelude PyStr Clock Sql Domain.

Import ExchangeStatus.

Definition exchange_with (now : time) (status : ExchangeStatus.t) (title : pystr)
    (pending : option pystr) (e : Exchange) : Exchange :=
  {| ex_id := ex_id e; ex_dialog_id := ex_dialog_id e; ex_status := status; ex_title := title;
     ex_created_at := ex_created_at e; ex_updated_at := now; ex_pending_question := pending |}.

(** The assignments of the statements below. *)
Definition assign_status now status e :=
  exchange_with now status (ex_title e) (ex_pending_question e) e.
Definition assign_settled now status pending e :=
  exchange_with now status (ex_title e) pending e.
Definition assign_title now title e :=
  exchange_with now (ex_status e) (str_take TITLE_MAX_LENGTH title) (ex_pending_question e) e.
Definition assign_touch now e :=
  exchange_with now (ex_status e) (ex_title e) (ex_pending_question e) e.

Definition live (e : Exchange) : Prop := ex_status e ∈ LIVE_EXCHANGE_STATUSES.
#[export] Instance live_dec e : Decision (live e).
Proof. unfold live. apply _. Defined.

(** ** Ownership, read off the task table *)

(** [_has_live_task] *)
Definition pays (e : pystr) (t : Task) : Prop :=
  tk_exchange_id t = Some e /\ tk_status t ∈ [TaskStatus.PENDING; TaskStatus.RUNNING].
#[export] Instance pays_dec e t : Decision (pays e t).
Proof. unfold pays. apply _. Defined.
Definition has_live_task (tasks : list Task) (e : Exchange) : Prop := Exists (pays (ex_id e)) tasks.
#[export] Instance has_live_task_dec tasks e : Decision (has_live_task tasks e).
Proof. unfold has_live_task. apply _. Defined.

(** [order_by(created_at.desc(), id.desc())] *)
Definition newer (a b : Task) : bool :=
  (tk_created_at b <? tk_created_at a)%Z ||
  ((tk_created_at a =? tk_created_at b)%Z && str_leb (tk_id b) (tk_id a)).

Fixpoint newest (l : list Task) : option Task :=
  match l with
  | [] => None
  | t :: l =>
      match newest l with
      | None => Some t
      | Some t' => if newer t t' then Some t else Some t'
      end
  end.

(** [_newest_task_of] *)
Definition newest_task_of (tasks : list Task) (exchange_id : pystr) : option pystr :=
  tk_id <$> newest (select_where (fun t => tk_exchange_id t = Some exchange_id) tasks).

(** ** The repository *)

Definition create (now : time) (new_id dialog_id title : pystr) (status : option ExchangeStatus.t)
    : M (list Exchange) Exn Exchange := fun t =>
  let row := {| ex_id := new_id; ex_dialog_id := dialog_id; ex_status := default OPEN status;
                ex_title := str_take TITLE_MAX_LENGTH title; ex_created_at := now;
                ex_updated_at := now; ex_pending_question := None |} in
  match find_key ex_id new_id t with
  | Some _ => (Err IntegrityError, t)
  | None => (Ok row, insert_row row t)
  end.

Definition find_collecting (dialog_id : pystr) : M (list Exchange) Exn (option Exchange) :=
  gets (fun t => head (order_by ex_created_at
    (select_where (fun e => ex_dialog_id e = dialog_id /\ ex_status e = COLLECTING) t))).

Definition list_stale_collecting (now : time) (quiet : time)
    : M (list Exchange) Exn (list Exchange) :=
  gets (fun t => order_by ex_updated_at
    (select_where (fun e => ex_status e = COLLECTING /\ (ex_updated_at e < now - quiet)%Z) t)).

Definition touch (now : time) (exchange_id : pystr) : M (list Exchange) Exn unit :=
  modify (update_where (fun e => ex_id e = exchange_id) (assign_touch now)).

Definition set_title (now : time) (exchange_id title : pystr) : M (list Exchange) Exn unit :=
  modify (update_where (fun e => ex_id e = exchange_id) (assign_title now title)).

Definition get (exchange_id : pystr) : M (list Exchange) Exn Exchange := fun t =>
  match find_key ex_id exchange_id t with
  | None => (Err (ExchangeNotFoundError exchange_id), t)
  | Some row => (Ok row, t)
  end.

Definition list_live (dialog_id : pystr) : M (list Exchange) Exn (list Exchange) :=
  gets (fun t => order_by ex_created_at
    (select_where (fun e => ex_dialog_id e = dialog_id /\ live e) t)).

Definition in_dialog (dialog_id : option pystr) (e : Exchange) : Prop :=
  match dialog_id with Some d => ex_dialog_id e = d | None => True end.
#[export] Instance in_dialog_dec d e : Decision (in_dialog d e).
Proof. unfold in_dialog. destruct d; apply _. Defined.

Definition list_unowned_open (tasks : list Task) (dialog_id : option pystr)
    : M (list Exchange) Exn (list Exchange) :=
  gets (fun t => order_by ex_created_at
    (select_where (fun e => (ex_status e = OPEN /\ ~ has_live_task tasks e) /\
                            in_dialog dialog_id e) t)).

(** [.distinct()]: each value once. *)
Definition list_stranded_dialog_ids (tasks : list Task) : M (list Exchange) Exn (list pystr) :=
  gets (fun t => remove_dups (ex_dialog_id <$>
    select_where (fun e => ex_status e = IN_PROGRESS \/
                           (ex_status e = OPEN /\ ~ has_live_task tasks e)) t)).

Definition reopen_and_list_stranded (now : time) (tasks : list Task) (dialog_id : pystr)
    : M (list Exchange) Exn (Z * list Exchange) := fun t =>
  let stale := fun e => ex_dialog_id e = dialog_id /\ ex_status e = IN_PROGRESS in
  let t' := update_where stale (assign_status now OPEN) t in
  (Ok (Z.of_nat (rowcount stale t),
       order_by ex_created_at
         (select_where (fun e => ex_dialog_id e = dialog_id /\ ex_status e = OPEN /\
                                 ~ has_live_task tasks e) t')), t').

Definition set_status (now : time) (exchange_id : pystr) (status : ExchangeStatus.t)
    (pending_question : option pystr) : M (list Exchange) Exn unit := fun t =>
  let t' := update_where (fun e => ex_id e = exchange_id)
              (assign_settled now status pending_question) t in
  if decide (rowcount (fun e => ex_id e = exchange_id) t = 0%nat)
  then (Err (ExchangeNotFoundError exchange_id), t') else (Ok tt, t').

(** The [WHERE] clause of [settle_owned]. *)
Definition settles (tasks : list Task) (exchange_id task_id : pystr) (keep_if_awaiting : bool)
    (e : Exchange) : Prop :=
  ex_id e = exchange_id /\ newest_task_of tasks exchange_id = Some task_id /\ live e /\
  (keep_if_awaiting = true -> ex_status e <> AWAITING_USER).
#[export] Instance settles_dec tasks x t k e : Decision (settles tasks x t k e).
Proof. unfold settles. apply _. Defined.

Definition settle_owned (now : time) (tasks : list Task) (exchange_id task_id : pystr)
    (status : ExchangeStatus.t) (keep_if_awaiting : bool)
    : M (list Exchange) Exn (option Exchange) := fun t =>
  let P := settles tasks exchange_id task_id keep_if_awaiting in
  (Ok (assign_settled now status None <$> head (select_where P t)),
   update_where P (assign_settled now status None) t).

Definition delete_for_dialog (dialog_id : pystr) : M (list Exchange) Exn unit :=
  modify (delete_where (fun e => ex_dialog_id e = dialog_id)).

(** ** Lemmas *)

(** The total preorder behind "newest": creation time, then id. *)
Lemma newer_total a b : newer a b = false -> newer b a = true.
Proof.
  unfold newer. rewrite !orb_false_iff, !orb_true_iff, !andb_true_iff, !andb_false_iff.
  rewrite !Z.ltb_ge, !Z.ltb_lt, Z.eqb_neq, Z.eqb_eq. intros [Hle [Hne|Hs]].
  - left. lia.
  - destruct (Z.eq_dec (tk_created_at a) (tk_created_at b)) as [Heq|Hne]; [|left; lia].
    right. split; [lia|]. unfold str_leb in *. by apply codes_leb_total.
Qed.

Lemma newer_refl a : newer a a = true.
Proof. unfold newer, str_leb. by rewrite Z.eqb_refl, codes_leb_refl, orb_true_r. Qed.

Lemma newer_trans a b c : newer a b = true -> newer b c = true -> newer a c = true.
Proof.
  unfold newer, str_leb. rewrite !orb_true_iff, !andb_true_iff, !Z.ltb_lt, !Z.eqb_eq.
  intros [?|[? ?]] [?|[? ?]]; try (left; lia). right. split; [lia|]. by eapply codes_leb_trans.
Qed.

Lemma newer_antisym a b : newer a b = true -> newer b a = true -> tk_id a = tk_id b.
Proof.
  unfold newer, str_leb. rewrite !orb_true_iff, !andb_true_iff, !Z.ltb_lt, !Z.eqb_eq.
  intros [?|[? ?]] [?|[? ?]]; try lia. symmetry. apply codes_inj. by apply codes_leb_antisym.
Qed.

Lemma newest_Some l m : newest l = Some m -> m ∈ l /\ forall x, x ∈ l -> newer m x = true.
Proof.
  revert m. induction l as [|t l IH]; intros m; simpl; [done|].
  destruct (newest l) as [t'|] eqn:Hn.
  - destruct (IH t' eq_refl) as [Hin Hmax]. destruct (newer t t') eqn:Hnew; intros [= <-].
    + split; [apply list_elem_of_here|]. intros x [->|Hx]%elem_of_cons; [apply newer_refl|].
      eapply newer_trans; [exact Hnew|auto].
    + split; [by apply list_elem_of_further|]. intros x [->|Hx]%elem_of_cons; [|auto].
      by apply newer_total.
  - intros [= <-]. destruct l as [|y l]; [|by simpl in Hn; repeat case_match].
    split; [apply list_elem_of_here|]. intros x ->%list_elem_of_singleton. apply newer_refl.
Qed.

Lemma newest_task_of_Some tasks e k :
  newest_task_of tasks e = Some k ->
  exists m, m ∈ tasks /\ tk_id m = k /\ tk_exchange_id m = Some e /\
    forall x, x ∈ tasks -> tk_exchange_id x = Some e -> newer m x = true.
Proof.
  unfold newest_task_of. intros (m & Hm & ->)%fmap_Some. apply newest_Some in Hm as [Hin Hmax].
  apply elem_of_select in Hin as [He Hin]. exists m. split_and!; try done.
  intros x Hx Hxe. apply Hmax. by apply elem_of_select.
Qed.

Lemma newest_is_Some l x : x ∈ l -> exists m, newest l = Some m.
Proof.
  destruct l as [|t l]; [by intros ?%not_elem_of_nil|]. intros _. simpl.
  destruct (newest l); [case_match; eauto | eauto].
Qed.

(** A task that is not the latest of its exchange is never its newest. *)
Lemma newest_task_outvoted tasks e a b :
  NoDup (tk_id <$> tasks) ->
  a ∈ tasks -> b ∈ tasks -> tk_exchange_id b = Some e ->
  tk_id a <> tk_id b -> newer b a = true -> newest_task_of tasks e <> Some (tk_id a).
Proof.
  intros Hnd Ha Hb Heb Hne Hnew (m & Hm & Hid & Hme & Hmax)%newest_task_of_Some.
  assert (m = a) as ->.
  { pose proof (find_key_elem tk_id (tk_id a) tasks m Hnd Hm Hid).
    pose proof (find_key_elem tk_id (tk_id a) tasks a Hnd Ha eq_refl). congruence. }
  apply Hne. apply newer_antisym; [by apply Hmax | done].
Qed.

(** The latest task of an exchange is its newest: [newest_task_of] is
    determined by the order alone. *)
Lemma newest_task_latest tasks e a :
  NoDup (tk_id <$> tasks) -> a ∈ tasks -> tk_exchange_id a = Some e ->
  (forall b, b ∈ tasks -> tk_exchange_id b = Some e -> newer a b = true) ->
  newest_task_of tasks e = Some (tk_id a).
Proof.
  intros Hnd Ha Hea Hmax. unfold newest_task_of.
  assert (a ∈ select_where (fun t => tk_exchange_id t = Some e) tasks) as Hin
    by by apply elem_of_select.
  destruct (newest_is_Some _ _ Hin) as [m Hm]. rewrite Hm. simpl. f_equal.
  apply newest_Some in Hm as [Hm Hge]. apply elem_of_select in Hm as [Hme Hm].
  apply newer_antisym; [by apply Hge | by apply Hmax].
Qed.

Definition settled (s : ExchangeStatus.t) : bool :=
  match s with ANSWERED | CANCELLED | FAILED => true | _ => false end.

Lemma live_settled e : live e <-> settled (ex_status e) = false.
Proof.
  unfold live, LIVE_EXCHANGE_STATUSES. rewrite !elem_of_cons, elem_of_nil.
  destruct (ex_status e); naive_solver.
Qed.

(** ** The table's well-formedness *)

Definition exchanges_ok (t : list Exchange) : Prop :=
  NoDup (ex_id <$> t) /\ Forall (fun e => str_len (ex_title e) <= TITLE_MAX_LENGTH)%Z t.

Lemma select_by_id t x P `{!forall e : Exchange, Decision (P e)} :
  NoDup (ex_id <$> t) -> (forall e, P e -> ex_id e = x) ->
  head (select_where P t) =
    match find_key ex_id x t with
    | Some e => if decide (P e) then Some e else None
    | None => None
    end.
Proof.
  intros Hnd HP. destruct (head (select_where P t)) as [e|] eqn:He.
  - apply head_filter_Some in He as [Hin He].
    rewrite (find_key_elem ex_id x t e Hnd Hin (HP _ He)). by rewrite decide_True.
  - apply head_filter_None in He. rewrite Forall_forall in He.
    destruct (find_key ex_id x t) as [e|] eqn:Hk; [|done].
    apply find_key_Some in Hk as [Hin _]. rewrite decide_False; [done|]. by apply He.
Qed.

Lemma update_absent t x P `{!forall e : Exchange, Decision (P e)} f :
  NoDup (ex_id <$> t) -> (forall e, P e -> ex_id e = x) ->
  (forall e, find_key ex_id x t = Some e -> ~ P e) -> update_where P f t = t.
Proof.
  intros Hnd HP Hno. apply update_where_none. apply rowcount_zero. apply Forall_forall.
  intros e He HPe. apply (Hno e); [|done]. apply find_key_elem; [done|done|by apply HP].
Qed.

(** ** Every statement keeps the table well formed *)

Inductive call :=
| Create (new_id dialog_id title : pystr) (status : option ExchangeStatus.t)
| Touch (exchange_id : pystr)
| SetTitle (exchange_id title : pystr)
| Reopen (dialog_id : pystr)
| SetStatus (exchange_id : pystr) (status : ExchangeStatus.t) (pending : option pystr)
| Settle (exchange_id task_id : pystr) (status : ExchangeStatus.t) (keep_if_awaiting : bool)
| DeleteFor (dialog_id : pystr).

Definition void {A} (m : M (list Exchange) Exn A) : M (list Exchange) Exn unit := m ;;; ret tt.

Definition perform (now : time) (tasks : list Task) (c : call) : M (list Exchange) Exn unit :=
  match c with
  | Create i d title s => void (create now i d title s)
  | Touch x => touch now x
  | SetTitle x title => set_title now x title
  | Reopen d => void (reopen_and_list_stranded now tasks d)
  | SetStatus x s q => set_status now x s q
  | Settle x k s keep => void (settle_owned now tasks x k s keep)
  | DeleteFor d => delete_for_dialog d
  end.

(** A history: each call with the clock and the task table it ran against;
    a call that raised is followed by the next one all the same. *)
Fixpoint run_calls (h : list (time * list Task * call)) (t : list Exchange) : list Exchange :=
  match h with
  | [] => t
  | (now, tasks, c) :: h => run_calls h (perform now tasks c t).2
  end.

Lemma exchanges_ok_update P `{!forall e : Exchange, Decision (P e)} f t :
  (forall e, ex_id (f e) = ex_id e) ->
  (forall e, str_len (ex_title e) <= TITLE_MAX_LENGTH ->
             str_len (ex_title (f e)) <= TITLE_MAX_LENGTH)%Z ->
  exchanges_ok t -> exchanges_ok (update_where P f t).
Proof.
  intros Hid Htitle [Hnd Hall]. split.
  - by rewrite update_where_proj by auto.
  - apply Forall_update_where; auto.
Qed.

Lemma exchanges_ok_delete P `{!forall e : Exchange, Decision (P e)} t :
  exchanges_ok t -> exchanges_ok (delete_where P t).
Proof.
  intros [Hnd Hall]. unfold delete_where. split; [|by apply Forall_filter_keep].
  eapply sublist_NoDup; [exact Hnd|]. apply fmap_sublist, sublist_filter.
Qed.

Lemma exchanges_ok_insert e t :
  find_key ex_id (ex_id e) t = None -> (str_len (ex_title e) <= TITLE_MAX_LENGTH)%Z ->
  exchanges_ok t -> exchanges_ok (insert_row e t).
Proof.
  intros Hfresh%find_key_None Ht [Hnd Hall]. unfold insert_row. split.
  - rewrite fmap_app, NoDup_app. split_and!; [done| |by apply NoDup_singleton].
    intros i Hi ->%list_elem_of_singleton. apply list_elem_of_fmap in Hi as (e' & Heq & He').
    rewrite Forall_forall in Hfresh. by apply (Hfresh e' He').
  - apply Forall_app. split; [done|]. by apply Forall_singleton.
Qed.

Lemma exchanges_perform_ok now tasks c : preserves exchanges_ok (perform now tasks c).
Proof.
  intros t Ht. destruct c; unfold perform, void, bind, modify, create, touch, set_title,
    reopen_and_list_stranded, set_status, settle_owned, delete_for_dialog; simpl;
    try (apply exchanges_ok_update; [done| |done]; simpl; intros; try done;
         by apply str_len_take_le);
    try by apply exchanges_ok_delete.
  - destruct (find_key ex_id new_id t) eqn:Hk; [done|]. simpl.
    apply exchanges_ok_insert; [done|by apply str_len_take_le|done].
  - by case_decide; (apply exchanges_ok_update; [done| |done]; simpl; intros).
Qed.

Lemma exchanges_run_calls_ok h t : exchanges_ok t -> exchanges_ok (run_calls h t).
Proof.
  revert t. induction h as [|[[now tasks] c] h IH]; intros t Ht; [done|].
  simpl. apply IH. by apply exchanges_perform_ok.
Qed.

(** ** Settling *)

Lemma settles_id tasks x k keep e : settles tasks x k keep e -> ex_id e = x.
Proof. by intros [? _]. Qed.

(** [settle_owned] in full: with one row per id it writes the exchange
    exactly when the run is the newest of the exchange, the exchange is live
    and the AWAITING_USER carve-out does not hold it back; it returns the row
    as written, and touches no other row. *)
Lemma settle_owned_functional now tasks x k s keep t :
  NoDup (ex_id <$> t) ->
  match find_key ex_id x t with
  | Some e =>
      if decide (newest_task_of tasks x = Some k /\ live e /\
                 (keep = true -> ex_status e <> AWAITING_USER))
      then exists t', settle_owned now tasks x k s keep t = (Ok (Some (assign_settled now s None e)), t')
             /\ find_key ex_id x t' = Some (assign_settled now s None e)
             /\ forall y, y <> x -> find_key ex_id y t' = find_key ex_id y t
      else settle_owned now tasks x k s keep t = (Ok None, t)
  | None => settle_owned now tasks x k s keep t = (Ok None, t)
  end.
Proof.
  intros Hnd. unfold settle_owned.
  pose proof (select_by_id t x (settles tasks x k keep) Hnd (settles_id tasks x k keep)) as Hsel.
  destruct (find_key ex_id x t) as [e|] eqn:Hx.
  - pose proof (find_key_Some _ _ _ _ Hx) as [_ Hid]. rewrite Hsel.
    destruct (decide (newest_task_of tasks x = Some k /\ live e /\
                      (keep = true -> ex_status e <> AWAITING_USER))) as [Hc|Hc].
    + rewrite decide_True by done. eexists. split_and!; [done| |].
      * rewrite find_key_update_fixed by done. rewrite Hx. simpl.
        by rewrite decide_True.
      * intros y Hy. apply (find_key_update_ne ex_id y x); [|done|done]. apply settles_id.
    + rewrite decide_False by (intros (?&?&?&?); by apply Hc). simpl. f_equal.
      apply (update_absent t x); [done|apply settles_id|].
      intros e' He' (?&?&?&?). rewrite Hx in He'. simplify_eq. by apply Hc.
  - rewrite Hsel. simpl. f_equal. apply (update_absent t x); [done|apply settles_id|].
    intros e' He'. congruence.
Qed.

(** A call that can touch a settled exchange only by an explicit status
    write or by removing it with its dialog. *)
Definition spares (x d : pystr) (c : call) : bool :=
  match c with
  | SetStatus y _ _ => negb (bool_decide (x = y))
  | DeleteFor d' => negb (bool_decide (d = d'))
  | _ => true
  end.

(** What a settled exchange keeps: its row apart from title and time stamp. *)
Definition same_outcome (a b : Exchange) : Prop :=
  ex_id a = ex_id b /\ ex_dialog_id a = ex_dialog_id b /\ ex_status a = ex_status b /\
  ex_pending_question a = ex_pending_question b.
#[export] Instance same_outcome_equiv : Equivalence same_outcome.
Proof. unfold same_outcome. split; repeat intro; intuition congruence. Qed.

Lemma perform_settled now tasks c t e x :
  find_key ex_id x t = Some e -> settled (ex_status e) = true ->
  spares x (ex_dialog_id e) c = true ->
  exists e', find_key ex_id x (perform now tasks c t).2 = Some e' /\ same_outcome e e'.
Proof.
  intros Hx Hs Hc. pose proof (find_key_Some _ _ _ _ Hx) as [_ Hid].
  assert (~ live e) as Hl by (rewrite live_settled; congruence).
  destruct c; simpl in Hc; unfold perform, void, bind, modify, create, touch, set_title,
    reopen_and_list_stranded, set_status, settle_owned, delete_for_dialog; simpl.
  - destruct (find_key ex_id new_id t); [by exists e|]. simpl. exists e. split; [|done].
    unfold insert_row. by rewrite find_key_app, Hx.
  - rewrite find_key_update_fixed by done. rewrite Hx. simpl. eexists. split; [done|].
    case_decide; done.
  - rewrite find_key_update_fixed by done. rewrite Hx. simpl. eexists. split; [done|].
    case_decide; done.
  - rewrite find_key_update_fixed by done. rewrite Hx. simpl. eexists. split; [done|].
    rewrite decide_False; [done|]. intros [_ Hst]. by rewrite Hst in Hs.
  - apply negb_true_iff, bool_decide_eq_false in Hc.
    case_decide; simpl; rewrite find_key_update_fixed by done; rewrite Hx; simpl;
      (eexists; split; [done|]; rewrite decide_False; [done|congruence]).
  - rewrite find_key_update_fixed by done. rewrite Hx. simpl. eexists. split; [done|].
    rewrite decide_False; [done|]. by intros (_ & _ & ? & _).
  - apply negb_true_iff, bool_decide_eq_false in Hc. exists e. split; [|done].
    apply find_key_delete_keep; [done|congruence].
Qed.

(** C21: Once settled, an exchange stays settled whatever the store is asked
    next — every stale settle, crash recovery and rename included — short
    of an explicit status write. *)
Lemma settled_is_final h t e x :
  find_key ex_id x t = Some e -> settled (ex_status e) = true ->
  Forall (fun '(_, c) => spares x (ex_dialog_id e) c = true) h ->
  exists e', find_key ex_id x (run_calls h t) = Some e' /\ same_outcome e e'.
Proof.
  revert t e. induction h as [|[[now tasks] c] h IH]; intros t e Hx Hs Hh; [by exists e|].
  apply Forall_cons in Hh as [Hc Hh]. simpl.
  destruct (perform_settled now tasks c t e x Hx Hs Hc) as (e1 & Hx1 & Hsame).
  destruct (IH _ e1 Hx1) as (e2 & Hx2 & Hsame2).
  - destruct Hsame as (_ & _ & <- & _). done.
  - destruct Hsame as (_ & <- & _). done.
  - exists e2. split; [done|]. by etrans.
Qed.

(** A run that a later task of the same exchange has replaced settles
    nothing. *)
Lemma stale_run_outvoted now tasks a b x s keep t :
  NoDup (ex_id <$> t) -> NoDup (tk_id <$> tasks) ->
  a ∈ tasks -> b ∈ tasks -> tk_exchange_id b = Some x -> tk_id a <> tk_id b ->
  newer b a = true ->
  settle_owned now tasks x (tk_id a) s keep t = (Ok None, t).
Proof.
  intros Ht Htasks Ha Hb Hbx Hne Hnew.
  pose proof (settle_owned_functional now tasks x (tk_id a) s keep t Ht) as Hf.
  case_match; [|done]. rewrite decide_False in Hf; [done|]. intros [Hn _].
  by eapply newest_task_outvoted in Hn.
Qed.

(** ** Recovery *)

(** [reopen_and_list_stranded]: afterwards the dialog holds no exchange in
    progress, other dialogs are as they were, and the returned list is the
    dialog's open exchanges no live task pays for, the reset ones included,
    oldest first. *)
Lemma reopen_and_list_stranded_spec now tasks d t :
  exists n l t', reopen_and_list_stranded now tasks d t = (Ok (n, l), t') /\
    n = Z.of_nat (length (filter (fun e => ex_dialog_id e = d /\ ex_status e = IN_PROGRESS) t)) /\
    (forall e, e ∈ t' -> ex_dialog_id e = d -> ex_status e <> IN_PROGRESS) /\
    filter (fun e => ex_dialog_id e <> d) t' = filter (fun e => ex_dialog_id e <> d) t /\
    sorted_by ex_created_at l /\
    (forall e, e ∈ l <-> e ∈ t' /\ ex_dialog_id e = d /\ ex_status e = OPEN /\
                        ~ has_live_task tasks e) /\
    (forall e, e ∈ t -> ex_dialog_id e = d -> ex_status e = IN_PROGRESS ->
       ~ has_live_task tasks e -> assign_status now OPEN e ∈ l).
Proof.
  unfold reopen_and_list_stranded. do 3 eexists. split; [done|]. split_and!.
  - done.
  - intros e He Hd Hs. apply list_elem_of_fmap in He as (e0 & -> & He0).
    case_decide as Hc; [done|]. by apply Hc.
  - unfold update_where. rewrite filter_fmap.
    rewrite (list_filter_iff' _ (fun e => ex_dialog_id e <> d))
      by (intros e _; case_decide; naive_solver).
    rewrite <-(list_fmap_id (filter _ t)) at 2. apply list_fmap_ext.
    intros i e He%list_elem_of_lookup_2. apply list_elem_of_filter in He as [He _].
    rewrite decide_False; naive_solver.
  - apply order_by_sorted.
  - intros e. rewrite elem_of_order_by, elem_of_select. naive_solver.
  - intros e He Hd Hs Hl. apply elem_of_order_by, elem_of_select. split; [done|].
    apply list_elem_of_fmap. exists e. by rewrite decide_True.
Qed.
