(* ===== verification/MessageStore.v ===== *)
(** * The message log ([SqlAlchemyMessageRepository], [dialogs/store.py])

    The log is the list of rows in insertion order.  Writers race: between
    the read of [MAX(seq)] inside an INSERT and its unique check, rows of
    other writers may have been committed.  [hidden] are those rows: in the
    table, but not in what the subquery of the statement saw. *)
From S2P Require Import Prelude PyStr Clock Sql Domain UnitOfWork Codec.

Definition MESSAGE_SEQ_RETRY_ATTEMPTS : nat := 5.

(** [select(coalesce(max(seq), 0) + 1).where(dialog_id == ..)] *)
Definition next_seq (dialog_id : pystr) (t : list MessageRow) : Z :=
  max_of mr_seq 0 (select_where (fun r => mr_dialog_id r = dialog_id) t) + 1.

(** The constraints of the table: the primary key, (dialog_id, seq) and
    (dialog_id, client_message_id), where NULLs never clash. *)
Definition clashes (a b : MessageRow) : Prop :=
  mr_id a = mr_id b \/
  mr_dialog_id a = mr_dialog_id b /\
    (mr_seq a = mr_seq b \/
     match mr_client_message_id a with
     | Some _ => mr_client_message_id a = mr_client_message_id b
     | None => False
     end).
#[export] Instance clashes_dec a b : Decision (clashes a b).
Proof. unfold clashes. destruct (mr_client_message_id a); apply _. Defined.

Definition seen (hidden t : list MessageRow) : list MessageRow :=
  filter (fun r => mr_id r ∉ (mr_id <$> hidden)) t.

(** One INSERT of [append] or [append_pair]; [mk] gives the row for its seq. *)
Definition insert_message (hidden : list MessageRow) (dialog_id : pystr) (mk : Z -> MessageRow)
    : M (list MessageRow) Exn unit := fun t =>
  let row := mk (next_seq dialog_id (seen hidden t)) in
  if decide (Exists (clashes row) t) then (Err IntegrityError, t) else (Ok tt, insert_row row t).

Section Store.
Context {D : Type} `{HasTable D MessageRow}.

(** [session.begin_nested()]: a SAVEPOINT around the block. *)
Definition begin_nested {A} (m : M D Exn A) : M D Exn A := fun d =>
  match m d with (Err e, _) => (Err e, d) | r => r end.

(** [except IntegrityError: await session.rollback(); raise] *)
Definition rollback_on_integrity {A} (rolled_back : D) (m : M D Exn A) : M D Exn A := fun d =>
  match m d with (Err IntegrityError, _) => (Err IntegrityError, rolled_back) | r => r end.

(** [_insert_attempt]; [sqlite] is the dialect of the bind. *)
Definition insert_attempt (sqlite : bool) (statements : list (M D Exn unit))
    : M (Conn D) Exn unit := fun c =>
  write_session
    (match live_session c with
     | Some s =>
         if sqlite then for_each statements id
         else if unit_has_writes s then begin_nested (for_each statements id)
         else rollback_on_integrity (committed c) (for_each statements id)
     | None => for_each statements id
     end) c.

(** Other writers commit: their rows reach the committed tables and what
    the unit's session sees. *)
Definition others_commit (hidden : list MessageRow) (c : Conn D) : Conn D :=
  let add d := set_table (table d ++ hidden) d in
  on_session (fun s => with_working (add (working s)) s) (with_committed (add (committed c)) c).

(** The [for attempt in range(..)] of both methods: [attempt k] is the
    k-th, [hidden k] what other writers commit under it. *)
Fixpoint retry (left k : nat) (hidden : nat -> list MessageRow) {A}
    (attempt : nat -> M (Conn D) Exn A) : M (Conn D) Exn A :=
  match left with
  | O => raise (OtherError "unreachable: the final attempt either returns or raises")
  | S left' =>
      modify (others_commit (hidden k)) ;;;
      try_except (attempt k) (fun e =>
        match e with
        | IntegrityError =>
            if decide (k = MESSAGE_SEQ_RETRY_ATTEMPTS - 1)%nat then raise e
            else retry left' (S k) hidden attempt
        | _ => raise e
        end)
  end.

Definition append (sqlite : bool) (hidden : nat -> list MessageRow) (new_id : nat -> pystr)
    (now : time) (dialog_id : pystr) (message : ChatMessage) (usage : option Usage)
    (client_message_id : option pystr) : M (Conn D) Exn pystr :=
  retry MESSAGE_SEQ_RETRY_ATTEMPTS 0 hidden (fun attempt =>
    let row_id := new_id attempt in
    let statement := insert_message (hidden attempt) dialog_id (fun seq =>
      row_of_message row_id dialog_id seq message usage client_message_id now) in
    insert_attempt sqlite [on_table statement] ;;;
    ret row_id).

Definition append_pair (sqlite : bool) (hidden : nat -> list MessageRow)
    (new_id new_id2 : nat -> pystr) (now : time) (dialog_id : pystr)
    (first second : ChatMessage) : M (Conn D) Exn unit :=
  retry MESSAGE_SEQ_RETRY_ATTEMPTS 0 hidden (fun attempt =>
    let statement row_id message :=
      insert_message (hidden attempt) dialog_id (fun seq =>
        row_of_message row_id dialog_id seq message None None now) in
    insert_attempt sqlite [on_table (statement (new_id attempt) first);
                           on_table (statement (new_id2 attempt) second)]).
End Store.

(** ** The reads and the single-statement writes *)

Definition find_by_client_id (dialog_id client_message_id : pystr)
    : M (list MessageRow) Exn bool :=
  gets (fun t => match head (select_where (fun r => mr_dialog_id r = dialog_id /\
                        mr_client_message_id r = Some client_message_id) t) with
                 | Some _ => true | None => false end).

(** The rows of a query, mapped to messages: [None] is the mapper's error. *)
Definition to_messages (rows : list MessageRow) : M (list MessageRow) Exn (list ChatMessage) :=
  match mapM to_chat_message rows with
  | Some l => ret l
  | None => raise (OtherError "bad message row")
  end.

Definition select_after (dialog_id : pystr) (after_seq : Z) (t : list MessageRow)
    : list MessageRow :=
  order_by mr_seq (select_where (fun r => mr_dialog_id r = dialog_id /\ (after_seq < mr_seq r)%Z) t).

Definition list_after (dialog_id : pystr) (after_seq : Z)
    : M (list MessageRow) Exn (list ChatMessage) := fun t =>
  to_messages (select_after dialog_id after_seq t) t.

(** The compaction boundary, the subquery of [list_hot_slice]. *)
Definition boundary_of (summaries : list DialogueSummary) (dialog_id : pystr) : Z :=
  max_of sm_seq_to NO_COMPACTED_SEQ (select_where (fun s => sm_dialog_id s = dialog_id) summaries).

Definition list_hot_slice (summaries : list DialogueSummary) (dialog_id : pystr)
    : M (list MessageRow) Exn (list ChatMessage) := fun t =>
  to_messages (select_after dialog_id (boundary_of summaries dialog_id) t) t.

Definition list_messages (dialog_id : pystr) : M (list MessageRow) Exn (list ChatMessage) := fun t =>
  to_messages (order_by mr_seq (select_where (fun r => mr_dialog_id r = dialog_id) t)) t.

Definition assign_exchange (exchange_id : pystr) (r : MessageRow) : MessageRow :=
  {| mr_id := mr_id r; mr_dialog_id := mr_dialog_id r; mr_seq := mr_seq r; mr_role := mr_role r;
     mr_content := mr_content r; mr_tool_calls := mr_tool_calls r;
     mr_tool_call_id := mr_tool_call_id r; mr_client_message_id := mr_client_message_id r;
     mr_prompt_tokens := mr_prompt_tokens r; mr_completion_tokens := mr_completion_tokens r;
     mr_task_id := mr_task_id r; mr_exchange_id := Some exchange_id; mr_kind := mr_kind r;
     mr_attachments := mr_attachments r; mr_created_at := mr_created_at r |}.

Definition set_exchange (message_id exchange_id : pystr) : M (list MessageRow) Exn unit :=
  modify (update_where (fun r => mr_id r = message_id) (assign_exchange exchange_id)).

(** [SqlAlchemyDialogRepository.delete] on the log. *)
Definition delete_messages (dialog_id : pystr) : M (list MessageRow) Exn unit :=
  modify (delete_where (fun r => mr_dialog_id r = dialog_id)).

(** ** Well-formed logs *)

Definition in_dialog (d : pystr) (t : list MessageRow) : list MessageRow :=
  filter (fun r => mr_dialog_id r = d) t.

Definition client_key (r : MessageRow) : option (pystr * pystr) :=
  pair (mr_dialog_id r) <$> mr_client_message_id r.

Definition client_keys (t : list MessageRow) : list (pystr * pystr) := omap client_key t.

(** Ids and idempotency keys are unique; the seqs of every dialog are
    1, 2, 3, .. in insertion order, without a gap. *)
Definition messages_ok (t : list MessageRow) : Prop :=
  NoDup (mr_id <$> t) /\ NoDup (client_keys t) /\
  forall d, mr_seq <$> in_dialog d t = seqZ 1 (Z.of_nat (length (in_dialog d t))).

Lemma messages_ok_nil : messages_ok [].
Proof. split_and!; [constructor|constructor|done]. Qed.

Lemma in_dialog_app d t u : in_dialog d (t ++ u) = in_dialog d t ++ in_dialog d u.
Proof. apply filter_app. Qed.

Lemma messages_ok_prefix t u : messages_ok (t ++ u) -> messages_ok t.
Proof.
  intros (Hid & Hck & Hseq). split_and!.
  - rewrite fmap_app in Hid. by apply NoDup_app in Hid as [? _].
  - unfold client_keys in Hck. rewrite omap_app in Hck. by apply NoDup_app in Hck as [? _].
  - intros d. specialize (Hseq d). rewrite in_dialog_app, fmap_app, length_app, Nat2Z.inj_add in Hseq.
    rewrite seqZ_app in Hseq by lia.
    apply app_inj_1 in Hseq as [? _]; [done|]. rewrite length_fmap, length_seqZ. lia.
Qed.

Lemma max_of_in {R} (key : R -> Z) dflt l : l <> [] -> exists r, r ∈ l /\ max_of key dflt l = key r.
Proof.
  destruct l as [|r0 l]; [done|]. intros _. simpl.
  assert (forall x, x ∈ r0 :: l -> exists r, r ∈ r0 :: l /\
            fold_left (fun m r => Z.max m (key r)) l (key x) = key r) as Hgen; [|].
  2: { apply Hgen. apply list_elem_of_here. }
  assert (forall k, k ⊆ r0 :: l -> forall x, x ∈ r0 :: l -> exists r, r ∈ r0 :: l /\
            fold_left (fun m r => Z.max m (key r)) k (key x) = key r) as Hk.
  { induction k as [|y k IH]; intros Hsub x Hx; simpl; [by exists x|].
    assert (k ⊆ r0 :: l) by (intros z Hz; apply Hsub; by right).
    destruct (Z.max_spec (key x) (key y)) as [[_ ->]|[_ ->]]; apply IH; try done.
    apply Hsub. left. }
  intros x Hx. apply Hk; [|done]. intros z Hz. by right.
Qed.

(** In a well-formed log the next seq of a dialog is its length plus one. *)
Lemma next_seq_length d t :
  messages_ok t -> next_seq d t = (Z.of_nat (length (in_dialog d t)) + 1)%Z.
Proof.
  intros (_ & _ & Hseq). specialize (Hseq d). unfold next_seq, select_where. fold (in_dialog d t).
  destruct (in_dialog d t) as [|r0 l] eqn:Hl; [done|]. rewrite <-Hl in *.
  assert (in_dialog d t <> []) as Hne by (by rewrite Hl).
  destruct (max_of_in mr_seq 0 _ Hne) as (r & Hr & Heq).
  assert (mr_seq r ∈ mr_seq <$> in_dialog d t) as Hin by (by apply list_elem_of_fmap_2).
  rewrite Hseq in Hin. apply elem_of_seqZ in Hin.
  assert (Z.of_nat (length (in_dialog d t)) ∈ mr_seq <$> in_dialog d t) as Hlast.
  { rewrite Hseq. apply elem_of_seqZ. rewrite Hl. simpl. lia. }
  apply list_elem_of_fmap in Hlast as (r' & Heq' & Hr').
  pose proof (max_of_ge mr_seq 0 _ _ Hr'). rewrite Heq in *. lia.
Qed.

Lemma seen_app hidden t : NoDup (mr_id <$> t ++ hidden) -> seen hidden (t ++ hidden) = t.
Proof.
  intros Hnd. rewrite fmap_app in Hnd. apply NoDup_app in Hnd as (_ & Hdisj & _).
  unfold seen. rewrite filter_app, filter_all, filter_none, app_nil_r; [done| |].
  - apply Forall_forall. intros r Hr Hn. apply Hn. by apply list_elem_of_fmap_2.
  - apply Forall_forall. intros r Hr Hn. eapply Hdisj; [by apply list_elem_of_fmap_2|done].
Qed.

(** A row a statement of this module inserts. *)
Definition makes (d i : pystr) (client : option pystr) (mk : Z -> MessageRow) : Prop :=
  forall s, mr_dialog_id (mk s) = d /\ mr_seq (mk s) = s /\ mr_id (mk s) = i /\
            mr_client_message_id (mk s) = client.

(** What makes an INSERT lose: its id or idempotency key is taken, or
    another writer added to the same dialog under it. *)
Definition loses (hidden : list MessageRow) (d i : pystr) (client : option pystr)
    (t : list MessageRow) : Prop :=
  i ∈ (mr_id <$> t) \/ in_dialog d hidden <> [] \/
  match client with Some c => (d, c) ∈ client_keys t | None => False end.
#[export] Instance loses_dec hidden d i client t : Decision (loses hidden d i client t).
Proof. unfold loses. destruct client; apply _. Defined.

Lemma elem_of_client_keys d c t :
  (d, c) ∈ client_keys t <->
  exists r, r ∈ t /\ mr_dialog_id r = d /\ mr_client_message_id r = Some c.
Proof.
  unfold client_keys. rewrite list_elem_of_omap. unfold client_key. split.
  - intros (r & Hr & Hk). exists r. destruct (mr_client_message_id r); naive_solver.
  - intros (r & Hr & Hd & Hc). exists r. rewrite Hc. simpl. by subst.
Qed.

Lemma hidden_first d t0 hidden :
  messages_ok (t0 ++ hidden) -> in_dialog d hidden <> [] ->
  exists r, r ∈ t0 ++ hidden /\ mr_dialog_id r = d /\ mr_seq r = next_seq d t0.
Proof.
  intros Hok Hne. rewrite next_seq_length by by eapply messages_ok_prefix.
  destruct Hok as (_ & _ & Hseq). specialize (Hseq d).
  assert (Z.of_nat (length (in_dialog d t0)) + 1 ∈ mr_seq <$> in_dialog d (t0 ++ hidden))%Z as Hin.
  { rewrite Hseq. apply elem_of_seqZ. rewrite in_dialog_app, length_app.
    destruct (in_dialog d hidden); [done|]. simpl. lia. }
  apply list_elem_of_fmap in Hin as (r & Hs & Hr). unfold in_dialog in Hr.
  apply list_elem_of_filter in Hr as [Hd Hr]. eauto.
Qed.

Lemma clash_iff_loses hidden d i client mk t0 :
  makes d i client mk -> messages_ok (t0 ++ hidden) ->
  Exists (clashes (mk (next_seq d t0))) (t0 ++ hidden) <-> loses hidden d i client (t0 ++ hidden).
Proof.
  intros Hmk Hok. destruct (Hmk (next_seq d t0)) as (Hd & Hs & Hi & Hc).
  rewrite Exists_exists. unfold clashes, loses. rewrite Hd, Hs, Hi, Hc. split.
  - intros (r & Hr & [Heq|[Hdr [Hsr|Hcr]]]).
    + left. rewrite Heq. by apply list_elem_of_fmap_2.
    + right; left. intros Hnil. rewrite next_seq_length in Hsr by by eapply messages_ok_prefix.
      destruct Hok as (_ & _ & Hseq). specialize (Hseq d).
      rewrite in_dialog_app, Hnil, app_nil_r in Hseq.
      assert (mr_seq r ∈ mr_seq <$> in_dialog d t0) as Hin.
      { apply list_elem_of_fmap_2. apply elem_of_app in Hr as [Hr|Hr].
        - by apply list_elem_of_filter.
        - assert (r ∈ in_dialog d hidden) as Hx by by apply list_elem_of_filter.
          rewrite Hnil in Hx. by apply not_elem_of_nil in Hx. }
      rewrite Hseq in Hin. apply elem_of_seqZ in Hin. lia.
    + right; right. destruct client as [c|]; [|done]. apply elem_of_client_keys. eauto.
  - intros [Hin|[Hne|Hin]].
    + apply list_elem_of_fmap in Hin as (r & Heq & Hr). eauto.
    + destruct (hidden_first d t0 hidden Hok Hne) as (r & Hr & Hdr & Hsr). exists r. eauto.
    + destruct client as [c|]; [|done]. apply elem_of_client_keys in Hin as (r & Hr & Hdr & Hcr).
      exists r. split; [done|]. right. split; [done|]. right. done.
Qed.

Lemma messages_ok_snoc hidden d i client mk t0 :
  makes d i client mk -> messages_ok (t0 ++ hidden) -> ~ loses hidden d i client (t0 ++ hidden) ->
  messages_ok ((t0 ++ hidden) ++ [mk (next_seq d t0)]).
Proof.
  intros Hmk Hok Hl. set (row := mk (next_seq d t0)).
  destruct (Hmk (next_seq d t0)) as (Hd & Hs & Hi & Hc). fold row in Hd, Hs, Hi, Hc.
  pose proof (next_seq_length d t0 (messages_ok_prefix _ _ Hok)) as Hnext.
  destruct Hok as (Hid & Hck & Hseq).
  assert (in_dialog d hidden = []) as Hnil.
  { destruct (in_dialog d hidden) eqn:Hx; [done|]. exfalso. apply Hl. right; left. by rewrite Hx. }
  split_and!.
  - rewrite fmap_app, NoDup_app. split_and!; [done| |apply NoDup_singleton].
    intros j Hj ->%list_elem_of_singleton. apply Hl. left. by rewrite <-Hi.
  - unfold client_keys. rewrite omap_app, NoDup_app. split_and!; [done| |].
    + intros [d' c] Hj Hx. apply (elem_of_client_keys d' c [row]) in Hx as (r & Hr & Hdr & Hcr).
      apply list_elem_of_singleton in Hr as ->. apply Hl. right; right.
      rewrite Hc in Hcr. rewrite Hcr. by rewrite Hd in Hdr; subst d'.
    + cbn [omap list_omap]. destruct (client_key row); constructor;
        [by apply not_elem_of_nil | constructor].
  - intros d'. rewrite in_dialog_app. destruct (decide (d' = d)) as [->|Hne].
    + specialize (Hseq d). unfold in_dialog at 2 4. rewrite filter_cons_True, filter_nil by done.
      rewrite fmap_app, Hseq, length_app, Nat2Z.inj_add. rewrite seqZ_app by lia. f_equal. simpl.
      rewrite Hs, Hnext, in_dialog_app, Hnil, app_nil_r.
      unfold seqZ. simpl. f_equal. lia.
    + unfold in_dialog at 2 4. rewrite filter_cons_False, filter_nil by (simpl; congruence).
      rewrite app_nil_r. apply Hseq.
Qed.

Lemma insert_message_spec hidden d i client mk t0 :
  makes d i client mk -> messages_ok (t0 ++ hidden) ->
  insert_message hidden d mk (t0 ++ hidden) =
    if decide (loses hidden d i client (t0 ++ hidden)) then (Err IntegrityError, t0 ++ hidden)
    else (Ok tt, (t0 ++ hidden) ++ [mk (next_seq d t0)]).
Proof.
  intros Hmk Hok. unfold insert_message. rewrite seen_app by apply Hok.
  pose proof (clash_iff_loses hidden d i client mk t0 Hmk Hok) as Hiff.
  destruct (decide (loses hidden d i client (t0 ++ hidden))) as [Hl|Hl].
  - rewrite decide_True by tauto. done.
  - rewrite decide_False by tauto. done.
Qed.

(** ** The retry loop over a connection *)

Section Loop.
Context {D : Type} `{HasTable D MessageRow}.
Implicit Types c : Conn D.

(** The tables a store call sees, and the log among them. *)
Definition current c : D :=
  match live_session c with Some s => working s | None => committed c end.
Definition log_of c : list MessageRow := table (current c).

(** A connection between two calls, with no failure of the server ahead;
    a unit that wrote nothing yet holds nothing yet. *)
Definition calm c : Prop :=
  faults c = [] /\
  match live_session c with
  | Some s => sess_busy s = false /\ (sess_wrote s = false -> working s = committed c)
  | None => True
  end.

Lemma others_commit_calm hidden c :
  calm c -> calm (others_commit hidden c) /\
            current (others_commit hidden c) = set_table (log_of c ++ hidden) (current c) /\
            in_unit_of_work (others_commit hidden c) = in_unit_of_work c.
Proof.
  intros [Hf Hs]. unfold calm, current, log_of, current, in_unit_of_work, live_session in *.
  destruct (active c) as [s|] eqn:Ha; simpl; rewrite ?Ha; simpl; [|done].
  destruct (sess_open s) eqn:Ho; simpl; [|done]. destruct Hs as [Hb Hw]. split_and!; try done.
  intros Hx. by rewrite (Hw Hx).
Qed.

(** One attempt: the statements either all take effect or none does, in
    every mode of the connection. *)
Lemma insert_attempt_spec sqlite sts c r d' :
  calm c -> for_each sts id (current c) = (r, d') ->
  (r = Ok tt \/ r = Err IntegrityError /\ d' = current c) ->
  exists c', insert_attempt sqlite sts c = (r, c') /\ current c' = d' /\ calm c' /\
             in_unit_of_work c' = in_unit_of_work c.
Proof.
  intros [Hf Hs] Hsts Hr. destruct c as [d0 [[w [] wr b]|] f]; simpl in Hf; subst f.
  - destruct Hs as [Hb Hw]. simpl in Hb, Hw. subst b. change (for_each sts id w = (r, d')) in Hsts.
    assert (forall m : M D Exn unit, m w = (r, d') -> exists c',
      write_session m {| committed := d0; faults := []; active := Some {| working := w;
        sess_open := true; sess_wrote := wr; sess_busy := false |} |} = (r, c') /\
      current c' = d' /\ calm c' /\ in_unit_of_work c' = true) as Hgen.
    { intros m Hm. unfold write_session, borrow_enter, execute, round_trip, visible. simpl.
      rewrite Hm. destruct Hr as [->|[-> ->]]; eexists; (split; [done|]); done. }
    unfold insert_attempt. simpl. destruct sqlite; [by apply Hgen|].
    unfold unit_has_writes. simpl. destruct wr; apply Hgen.
    + unfold begin_nested. rewrite Hsts. by destruct Hr as [->|[-> ->]].
    + unfold rollback_on_integrity. rewrite Hsts. destruct Hr as [->|[-> ->]]; [done|].
      cbn. by rewrite (Hw eq_refl).
  - unfold insert_attempt, write_session, borrow_enter, execute, round_trip. simpl in *.
    change (for_each sts id d0 = (r, d')) in Hsts. rewrite Hsts.
    destruct Hr as [->|[-> ->]]; eexists; (split; [done|]); done.
  - unfold insert_attempt, write_session, borrow_enter, execute, round_trip. simpl in *.
    change (for_each sts id d0 = (r, d')) in Hsts. rewrite Hsts.
    destruct Hr as [->|[-> ->]]; eexists; (split; [done|]); done.
Qed.

(** The log after the first [n] rounds of other writers. *)
Definition raced (hidden : nat -> list MessageRow) (n : nat) (t : list MessageRow) :=
  t ++ concat (hidden <$> seq 0 n).
Lemma raced_S hidden n t : raced hidden (S n) t = raced hidden n t ++ hidden n.
Proof.
  unfold raced. rewrite seq_S, fmap_app, concat_app. simpl. by rewrite app_nil_r, app_assoc.
Qed.

(** What [retry] computes, when each attempt either changes the log by
    [tries] or loses and changes nothing. *)
Lemma retry_spec {A} hidden (attempt : nat -> M (Conn D) Exn A)
    (tries : nat -> list MessageRow -> option (A * list MessageRow)) t :
  (forall k c, calm c -> k < MESSAGE_SEQ_RETRY_ATTEMPTS -> log_of c = raced hidden (S k) t ->
     match tries k (log_of c) with
     | Some (a, t') => exists c', attempt k c = (Ok a, c') /\ calm c' /\
         current c' = set_table t' (current c) /\ in_unit_of_work c' = in_unit_of_work c
     | None => exists c', attempt k c = (Err IntegrityError, c') /\ calm c' /\
         current c' = current c /\ in_unit_of_work c' = in_unit_of_work c
     end) ->
  forall left k c, left + k = MESSAGE_SEQ_RETRY_ATTEMPTS -> 0 < left ->
  calm c -> log_of c = raced hidden k t ->
  exists n c', k <= n < MESSAGE_SEQ_RETRY_ATTEMPTS /\ calm c' /\
    in_unit_of_work c' = in_unit_of_work c /\
    (forall j, k <= j < n -> tries j (raced hidden (S j) t) = None) /\
    match tries n (raced hidden (S n) t) with
    | Some (a, t') => retry left k hidden attempt c = (Ok a, c') /\
                      current c' = set_table t' (current c)
    | None => n = MESSAGE_SEQ_RETRY_ATTEMPTS - 1 /\
              retry left k hidden attempt c = (Err IntegrityError, c') /\
              current c' = set_table (raced hidden (S n) t) (current c)
    end.
Proof.
  intros Hatt. induction left as [|left IH]; intros k c Hsum Hpos Hcalm Hlog; [lia|].
  destruct (others_commit_calm (hidden k) c Hcalm) as (Hcalm1 & Hcur1 & Hin1).
  set (c1 := others_commit (hidden k) c) in *.
  assert (log_of c1 = raced hidden (S k) t) as Hlog1.
  { unfold log_of at 1. rewrite Hcur1, table_set, Hlog. by rewrite raced_S. }
  assert (k < MESSAGE_SEQ_RETRY_ATTEMPTS) as Hk by lia.
  specialize (Hatt k c1 Hcalm1 Hk Hlog1) as Hk1. rewrite Hlog1 in Hk1.
  unfold retry. fold (@retry D _). unfold bind, modify, try_except. fold c1.
  destruct (tries k (raced hidden (S k) t)) as [[a t']|] eqn:Htry.
  - destruct Hk1 as (c' & Hx & Hc' & Hcur' & Hin'). exists k, c'. rewrite Hx, Htry.
    split_and!; try done; try lia; [congruence|].
    by rewrite Hcur', Hcur1, set_table_set.
  - destruct Hk1 as (c' & Hx & Hc' & Hcur' & Hin'). rewrite Hx.
    destruct (decide (k = MESSAGE_SEQ_RETRY_ATTEMPTS - 1)) as [Heq|Hne].
    + exists k, c'. rewrite Htry. split_and!; try done; try lia; [congruence|].
      by rewrite Hcur', Hcur1, Hlog, raced_S.
    + assert (log_of c' = raced hidden (S k) t) as Hlog' by (unfold log_of; by rewrite Hcur').
      destruct (IH (S k) c') as (n & c'' & Hn & Hc'' & Hin'' & Hno & Hres); [lia|lia|done|done|].
      exists n, c''. split_and!; try done; try lia; [congruence| |].
      * intros j Hj. destruct (decide (j = k)) as [->|]; [done|]. apply Hno. lia.
      * assert (forall u, set_table u (current c') = set_table u (current c)) as Hset
          by (intros u; by rewrite Hcur', Hcur1, set_table_set).
        destruct (tries n _) as [[a t']|]; rewrite Hset in Hres; done.
Qed.
End Loop.

(** ** [append] *)

Section Append.
Context {D : Type} `{HasTable D MessageRow}.
Implicit Types c : Conn D.

(** Other writers keep the log well formed. *)
Definition races_ok (hidden : nat -> list MessageRow) (t : list MessageRow) : Prop :=
  forall k, k <= MESSAGE_SEQ_RETRY_ATTEMPTS -> messages_ok (raced hidden k t).

Lemma on_table_log (st : M (list MessageRow) Exn unit) d r t' :
  st (table d) = (r, t') -> for_each [on_table st] id d = (r, set_table t' d).
Proof.
  intros Hst. simpl. unfold id, bind, on_table. rewrite Hst. by destruct r as [[]|e].
Qed.

Lemma in_dialog_raced hidden k d t :
  in_dialog d (hidden k) = [] ->
  next_seq d (raced hidden k t) = next_seq d (raced hidden (S k) t).
Proof.
  intros Hnil. unfold next_seq, select_where. fold (in_dialog d (raced hidden k t)).
  fold (in_dialog d (raced hidden (S k) t)). by rewrite raced_S, in_dialog_app, Hnil, app_nil_r.
Qed.

Lemma not_lost_nil hidden d i client t : ~ loses hidden d i client t -> in_dialog d hidden = [].
Proof.
  intros Hl. destruct (in_dialog d hidden) eqn:Hx; [done|]. exfalso. apply Hl. right; left.
  by rewrite Hx.
Qed.

(** One attempt of [append]. *)
Lemma append_attempt sqlite hidden i d client mk t0 c :
  makes d i client mk -> calm c -> log_of c = t0 ++ hidden -> messages_ok (t0 ++ hidden) ->
  let r := insert_attempt sqlite [on_table (insert_message hidden d mk)] c in
  if decide (loses hidden d i client (log_of c))
  then exists c', r = (Err IntegrityError, c') /\ calm c' /\ current c' = current c /\
                  in_unit_of_work c' = in_unit_of_work c
  else exists c', r = (Ok tt, c') /\ calm c' /\
                  current c' = set_table (log_of c ++ [mk (next_seq d (log_of c))]) (current c) /\
                  in_unit_of_work c' = in_unit_of_work c.
Proof.
  intros Hmk Hc Hlog Hok r. unfold r.
  pose proof (insert_message_spec hidden d i client mk t0 Hmk Hok) as Hins.
  rewrite <-Hlog in Hins. case_decide as Hl.
  - apply (on_table_log _ (current c)) in Hins. unfold log_of in Hins. rewrite set_table_same in Hins.
    destruct (insert_attempt_spec sqlite _ c _ _ Hc Hins) as (c2 & Hx & Hcur & Hcalm2 & Hin);
      [by right|]. eauto.
  - apply (on_table_log _ (current c)) in Hins.
    destruct (insert_attempt_spec sqlite _ c _ _ Hc Hins) as (c2 & Hx & Hcur & Hcalm2 & Hin);
      [by left|]. eexists. split_and!; try done. rewrite Hcur. do 4 f_equal.
    rewrite Hlog. unfold next_seq, select_where. fold (in_dialog d t0). fold (in_dialog d (t0 ++ hidden)).
    by rewrite in_dialog_app, (not_lost_nil _ _ _ _ _ Hl), app_nil_r.
Qed.

(** [append], whatever races it and in whatever mode its session is: the
    first attempt that loses to nobody writes the message at the end of
    its dialog and returns the id of the row; if all five lose it raises
    and writes nothing.  The log stays well formed either way. *)
Lemma append_spec sqlite hidden new_id now d message usage client c :
  calm c -> races_ok hidden (log_of c) ->
  let lost k := loses (hidden k) d (new_id k) client (raced hidden (S k) (log_of c)) in
  exists k c', k < MESSAGE_SEQ_RETRY_ATTEMPTS /\ calm c' /\ messages_ok (log_of c') /\
    (forall j, j < k -> lost j) /\
    let t := raced hidden (S k) (log_of c) in
    (~ lost k /\ append sqlite hidden new_id now d message usage client c = (Ok (new_id k), c') /\
       current c' = set_table (t ++ [row_of_message (new_id k) d (next_seq d t) message usage client now])
                      (current c) \/
     k = MESSAGE_SEQ_RETRY_ATTEMPTS - 1 /\ lost k /\
       append sqlite hidden new_id now d message usage client c = (Err IntegrityError, c') /\
       current c' = set_table t (current c)).
Proof.
  intros Hcalm Hraces lost.
  set (mk k seq := row_of_message (new_id k) d seq message usage client now).
  assert (forall k, makes d (new_id k) client (mk k)) as Hmk by (intros k s; done).
  set (tries k t := if decide (loses (hidden k) d (new_id k) client t) then None
                    else Some (new_id k, t ++ [mk k (next_seq d t)])).
  assert (forall k, k < MESSAGE_SEQ_RETRY_ATTEMPTS ->
      messages_ok (raced hidden k (log_of c) ++ hidden k)) as Hok
    by (intros k Hk; rewrite <-raced_S; apply Hraces; lia).
  unfold append.
  match goal with |- context [retry _ _ _ ?att] => set (attempt := att) end.
  destruct (retry_spec hidden attempt tries (log_of c)) with
    (left := MESSAGE_SEQ_RETRY_ATTEMPTS) (k := 0) (c := c)
    as (n & c' & Hn & Hc' & _ & Hno & Hres); [| done | unfold MESSAGE_SEQ_RETRY_ATTEMPTS; lia
                                              | done | by unfold raced; simpl; rewrite app_nil_r |].
  - intros k c1 Hc1 Hk Hlog1. unfold attempt, bind, tries. rewrite raced_S in Hlog1.
    pose proof (append_attempt sqlite (hidden k) (new_id k) d client (mk k) _ c1 (Hmk k) Hc1
                  Hlog1 (Hok k Hk)) as Hstep.
    case_decide; destruct Hstep as (c2 & Hx & ?); fold (mk k); rewrite Hx; eauto.
  - exists n, c'. unfold tries in Hno, Hres.
    assert (forall j, j < n -> lost j) as Hlost.
    { intros j Hj. specialize (Hno j ltac:(lia)). unfold lost.
      by destruct (decide (loses _ _ _ _ _)). }
    case_decide as Hl; [destruct Hres as (-> & Hx & Hcur) | destruct Hres as (Hx & Hcur)].
    + split; [lia|]. split; [done|]. split; [|split; [done|by right]].
      unfold log_of at 1. rewrite Hcur, table_set. apply Hraces. unfold MESSAGE_SEQ_RETRY_ATTEMPTS. lia.
    + split; [lia|]. split; [done|]. split; [|split; [done|by left]].
      unfold log_of at 1. rewrite Hcur, table_set.
      pose proof (messages_ok_snoc (hidden n) d (new_id n) client (mk n)
                    (raced hidden n (log_of c)) (Hmk n) (Hok n ltac:(lia))) as Hsn.
      rewrite <-raced_S in Hsn. specialize (Hsn Hl).
      pose proof (in_dialog_raced hidden n d (log_of c) (not_lost_nil _ _ _ _ _ Hl)) as Hnx.
      fold (mk n) in *. rewrite Hnx in Hsn. exact Hsn.
Qed.

Definition fresh_ids (new_id : nat -> pystr) (t : list MessageRow) : Prop :=
  forall k, k < MESSAGE_SEQ_RETRY_ATTEMPTS -> new_id k ∉ (mr_id <$> t).

Lemma fresh_raced new_id hidden t k :
  fresh_ids new_id (raced hidden MESSAGE_SEQ_RETRY_ATTEMPTS t) ->
  k < MESSAGE_SEQ_RETRY_ATTEMPTS -> new_id k ∉ (mr_id <$> raced hidden (S k) t).
Proof.
  intros Hf Hk Hin. apply (Hf k Hk). unfold raced in *. rewrite fmap_app in *.
  apply elem_of_app. apply elem_of_app in Hin as [Hin|Hin]; [by left|right].
  apply list_elem_of_fmap in Hin as (r & -> & Hr). apply list_elem_of_fmap. exists r.
  split; [done|]. rewrite list_elem_of_In, in_concat in *. destruct Hr as (l & Hl & Hr).
  exists l. split; [|done]. rewrite <-list_elem_of_In in *.
  apply list_elem_of_fmap in Hl as (j & -> & Hj). apply list_elem_of_fmap_2.
  rewrite elem_of_seq in *. lia.
Qed.

(** C11: A message is not lost to the race for its seq: with fresh ids and a
    fresh idempotency key it is stored as soon as one of the five attempts
    meets no other writer of the dialog. *)
Lemma append_not_lost sqlite hidden new_id now d message usage client c j :
  calm c -> races_ok hidden (log_of c) ->
  fresh_ids new_id (raced hidden MESSAGE_SEQ_RETRY_ATTEMPTS (log_of c)) ->
  (forall k x, client = Some x -> (d, x) ∉ client_keys (raced hidden k (log_of c))) ->
  j < MESSAGE_SEQ_RETRY_ATTEMPTS -> in_dialog d (hidden j) = [] ->
  exists k c' seq, k <= j /\
    append sqlite hidden new_id now d message usage client c = (Ok (new_id k), c') /\
    log_of c' = raced hidden (S k) (log_of c) ++
                [row_of_message (new_id k) d seq message usage client now] /\
    seq = (Z.of_nat (length (in_dialog d (raced hidden (S k) (log_of c)))) + 1)%Z.
Proof.
  intros Hcalm Hraces Hids Hclient Hj Hquiet.
  destruct (append_spec sqlite hidden new_id now d message usage client c Hcalm Hraces)
    as (k & c' & Hk & _ & _ & Hlost & Hres).
  assert (forall k, k < MESSAGE_SEQ_RETRY_ATTEMPTS ->
    loses (hidden k) d (new_id k) client (raced hidden (S k) (log_of c)) ->
    in_dialog d (hidden k) <> []) as Hwhy.
  { intros n Hn [Hin|[Hne|Hin]]; [by apply fresh_raced in Hin|done|].
    destruct client as [x|]; [|done]. by apply Hclient in Hin. }
  assert (k <= j) as Hkj.
  { destruct (decide (k <= j)); [done|]. exfalso.
    apply (Hwhy j Hj); [apply Hlost; lia|done]. }
  exists k, c'. destruct Hres as [(Hno & Hx & Hcur)|(Hk4 & Hl & _)].
  - eexists. split_and!; [done|done| |].
    + unfold log_of at 1. by rewrite Hcur, table_set.
    + rewrite next_seq_length; [done|]. apply Hraces. lia.
  - exfalso. assert (k = j) as -> by lia. by apply (Hwhy j Hj).
Qed.

(** A second message with a key the dialog already holds is refused on
    every attempt and leaves no row. *)
Lemma append_duplicate_refused sqlite hidden new_id now d message usage x c :
  calm c -> races_ok hidden (log_of c) -> (d, x) ∈ client_keys (log_of c) ->
  exists c', append sqlite hidden new_id now d message usage (Some x) c = (Err IntegrityError, c') /\
    log_of c' = raced hidden MESSAGE_SEQ_RETRY_ATTEMPTS (log_of c).
Proof.
  intros Hcalm Hraces Hin.
  destruct (append_spec sqlite hidden new_id now d message usage (Some x) c Hcalm Hraces)
    as (k & c' & Hk & _ & _ & _ & [(Hno & _)|(-> & _ & Hx & Hcur)]).
  - exfalso. apply Hno. right; right. unfold raced, client_keys in *. rewrite omap_app.
    apply elem_of_app. by left.
  - exists c'. split; [done|]. unfold log_of at 1. by rewrite Hcur, table_set.
Qed.
End Append.

(** ** [append_pair] *)

Section Pair.
Context {D : Type} `{HasTable D MessageRow}.
Implicit Types c : Conn D.

Lemma raced_in_dialog_nil hidden k d (t : list MessageRow) :
  in_dialog d (hidden k) = [] ->
  in_dialog d (raced hidden (S k) t) = in_dialog d (raced hidden k t).
Proof. intros Hnil. by rewrite raced_S, in_dialog_app, Hnil, app_nil_r. Qed.

Lemma next_seq_seen hidden d u :
  (forall r, r ∈ u -> mr_dialog_id r = d -> mr_id r ∉ (mr_id <$> hidden)) ->
  next_seq d (seen hidden u) = next_seq d u.
Proof.
  intros Hout. unfold next_seq, select_where, seen. do 2 f_equal. rewrite list_filter_filter.
  apply list_filter_iff'. naive_solver.
Qed.

(** The two statements of one attempt on the log. *)
Lemma pair_statements hidden d i i2 mk mk2 t0 :
  makes d i None mk -> makes d i2 None mk2 -> messages_ok (t0 ++ hidden) ->
  i ∉ (mr_id <$> t0 ++ hidden) -> i2 ∉ (mr_id <$> t0 ++ hidden) -> i <> i2 ->
  for_each [insert_message hidden d mk; insert_message hidden d mk2] id (t0 ++ hidden) =
    if decide (in_dialog d hidden = [])
    then (Ok tt, (t0 ++ hidden) ++ [mk (next_seq d t0); mk2 (next_seq d t0 + 1)%Z])
    else (Err IntegrityError, t0 ++ hidden).
Proof.
  intros Hmk Hmk2 Hok Hi Hi2 Hne. simpl. unfold id, bind.
  rewrite (insert_message_spec hidden d i None mk t0 Hmk Hok).
  destruct (decide (in_dialog d hidden = [])) as [Hnil|Hbusy].
  2: { by rewrite decide_True by (right; left; done). }
  assert (~ loses hidden d i None (t0 ++ hidden)) as Hl by (intros [?|[?|?]]; done).
  rewrite decide_False by done.
  pose proof (messages_ok_snoc hidden d i None mk t0 Hmk Hok Hl) as Hok2.
  destruct (Hmk (next_seq d t0)) as (Hd & Hs & Hidm & Hc).
  set (row := mk (next_seq d t0)) in *.
  assert (insert_message hidden d mk2 ((t0 ++ hidden) ++ [row]) =
          insert_message [] d mk2 (((t0 ++ hidden) ++ [row]) ++ [])) as ->.
  { unfold insert_message. rewrite app_nil_r. rewrite !next_seq_seen; [done| |].
    - intros r _ _. by apply not_elem_of_nil.
    - intros r [[Hr|Hr]%elem_of_app|Hr%list_elem_of_singleton]%elem_of_app Hrd Hin.
      + destruct Hok as (Hnd & _). rewrite fmap_app in Hnd. apply NoDup_app in Hnd as (_ & Hx & _).
        by apply (Hx (mr_id r)); [apply list_elem_of_fmap_2|].
      + assert (r ∈ in_dialog d hidden) as Hx by by apply list_elem_of_filter.
        rewrite Hnil in Hx. by apply not_elem_of_nil in Hx.
      + subst r. apply Hi. rewrite fmap_app. apply elem_of_app. right. by rewrite <-Hidm. }
  rewrite (insert_message_spec [] d i2 None mk2 _ Hmk2) by by rewrite app_nil_r.
  rewrite app_nil_r. rewrite decide_False.
  2: { intros [Hin|[?|?]]; [|done|done]. rewrite fmap_app in Hin.
       apply elem_of_app in Hin as [Hin|Hin%list_elem_of_singleton]; [done|]. congruence. }
  simpl. f_equal. rewrite <-(app_assoc (t0 ++ hidden)). do 2 f_equal. simpl. do 2 f_equal.
  rewrite !next_seq_length; [|by eapply messages_ok_prefix|done].
  rewrite !in_dialog_app, Hnil, !length_app. unfold in_dialog at 2.
  rewrite filter_cons_True by done. simpl. lia.
Qed.

Lemma on_tables (sts : list (M (list MessageRow) Exn unit)) d r t' :
  for_each sts id (table d) = (r, t') ->
  for_each (on_table <$> sts) id d = (r, set_table t' d).
Proof.
  revert d. induction sts as [|st sts IH]; intros d; simpl.
  - intros [= <- <-]. unfold ret. by rewrite set_table_same.
  - unfold id, bind, on_table in *. destruct (st (table d)) as [[a|e] t1].
    + intros Hx. rewrite (IH (set_table t1 d)); [by rewrite set_table_set|].
      by rewrite table_set.
    + by intros [= <- <-].
Qed.

(** [append_pair] stores both messages, next to each other at the end of
    the dialog, or raises and stores neither; no reader of the log, in any
    mode of the session, finds one without the other.  With fresh ids an
    attempt loses only to another writer of the same dialog. *)
Lemma append_pair_spec sqlite hidden new_id new_id2 now d first second c :
  calm c -> races_ok hidden (log_of c) ->
  fresh_ids new_id (raced hidden MESSAGE_SEQ_RETRY_ATTEMPTS (log_of c)) ->
  fresh_ids new_id2 (raced hidden MESSAGE_SEQ_RETRY_ATTEMPTS (log_of c)) ->
  (forall k, new_id k <> new_id2 k) ->
  exists k c', k < MESSAGE_SEQ_RETRY_ATTEMPTS /\ calm c' /\
    (forall j, j < k -> in_dialog d (hidden j) <> []) /\
    let t := raced hidden (S k) (log_of c) in
    let seq := (Z.of_nat (length (in_dialog d t)) + 1)%Z in
    (in_dialog d (hidden k) = [] /\
       append_pair sqlite hidden new_id new_id2 now d first second c = (Ok tt, c') /\
       log_of c' = t ++ [row_of_message (new_id k) d seq first None None now;
                         row_of_message (new_id2 k) d (seq + 1) second None None now] \/
     k = MESSAGE_SEQ_RETRY_ATTEMPTS - 1 /\ in_dialog d (hidden k) <> [] /\
       append_pair sqlite hidden new_id new_id2 now d first second c = (Err IntegrityError, c') /\
       log_of c' = t).
Proof.
  intros Hcalm Hraces Hid Hid2 Hne.
  set (mk (i : nat -> pystr) m k seq := row_of_message (i k) d seq m None None now).
  set (tries k t := if decide (in_dialog d (hidden k) = [])
                    then Some (tt, t ++ [mk new_id first k (next_seq d t);
                                         mk new_id2 second k (next_seq d t + 1)%Z])
                    else None).
  assert (forall k, k < MESSAGE_SEQ_RETRY_ATTEMPTS ->
      messages_ok (raced hidden k (log_of c) ++ hidden k)) as Hok
    by (intros k Hk; rewrite <-raced_S; apply Hraces; lia).
  unfold append_pair.
  match goal with |- context [retry _ _ _ ?att] => set (attempt := att) end.
  destruct (retry_spec hidden attempt tries (log_of c)) with
    (left := MESSAGE_SEQ_RETRY_ATTEMPTS) (k := 0) (c := c)
    as (n & c' & Hn & Hc' & _ & Hno & Hres); [| done | unfold MESSAGE_SEQ_RETRY_ATTEMPTS; lia
                                              | done | by unfold raced; simpl; rewrite app_nil_r |].
  - intros k c1 Hc1 Hk Hlog1. unfold attempt, tries.
    pose proof (fresh_raced _ _ _ _ Hid Hk) as Hf1. pose proof (fresh_raced _ _ _ _ Hid2 Hk) as Hf2.
    rewrite raced_S in Hf1, Hf2.
    pose proof (pair_statements (hidden k) d (new_id k) (new_id2 k) (mk new_id first k)
      (mk new_id2 second k) _ ltac:(done) ltac:(done) (Hok k Hk) Hf1 Hf2 (Hne k)) as Hst.
    rewrite <-raced_S, <-Hlog1 in Hst. case_decide as Hnil.
    + apply (on_tables _ (current c1)) in Hst.
      destruct (insert_attempt_spec sqlite _ c1 _ _ Hc1 Hst) as (c2 & Hx & Hcur & Hcalm2 & Hin);
        [by left|]. eexists. split_and!; [exact Hx|done| |done]. rewrite Hcur.
      unfold next_seq, select_where. fold (in_dialog d (log_of c1)).
      fold (in_dialog d (raced hidden k (log_of c))).
      by rewrite Hlog1, raced_in_dialog_nil.
    + apply (on_tables _ (current c1)) in Hst. unfold log_of in Hst. rewrite set_table_same in Hst.
      destruct (insert_attempt_spec sqlite _ c1 _ _ Hc1 Hst) as (c2 & Hx & Hcur & Hcalm2 & Hin);
        [by right|]. eexists. split_and!; [exact Hx|done|done|done].
  - exists n, c'. unfold tries in Hno, Hres. split; [lia|]. split; [done|]. split.
    { intros j Hj. specialize (Hno j ltac:(lia)). by destruct (decide (in_dialog _ _ = [])). }
    simpl. destruct (decide (in_dialog d (hidden n) = [])) as [Hnil|Hb].
    + left. destruct Hres as (Hx & Hcur). split_and!; [done|done|].
      unfold log_of at 1. rewrite Hcur, table_set.
      by rewrite next_seq_length by (apply Hraces; lia).
    + right. destruct Hres as (-> & Hx & Hcur). split_and!; try done.
      unfold log_of at 1. by rewrite Hcur, table_set.
Qed.
End Pair.

(** ** Reading the log *)

Lemma in_dialog_sorted d t : messages_ok t -> sorted_by mr_seq (in_dialog d t).
Proof.
  intros (_ & _ & Hseq). unfold sorted_by. specialize (Hseq d).
  generalize dependent (in_dialog d t). intros l.
  generalize (Z.of_nat (length l)) as n, 1%Z as m. clear.
  induction l as [|r l IH]; intros n m Hl; [constructor|].
  destruct (decide (0 < n)%Z) as [Hn|Hn]; [|by rewrite seqZ_nil in Hl by lia].
  rewrite seqZ_cons in Hl by lia. simplify_eq/=. constructor; [by eapply IH|].
  destruct l as [|r' l]; [constructor|]. constructor.
  destruct (decide (0 < Z.pred n)%Z) as [Hn'|Hn'].
  - rewrite seqZ_cons in * by lia. simplify_eq/=. lia.
  - rewrite (seqZ_nil _ (Z.pred n)) in * by lia. done.
Qed.

Lemma filter_seq_drop (b m : Z) (l : list MessageRow) :
  mr_seq <$> l = seqZ m (Z.of_nat (length l)) -> (m - 1 <= b)%Z ->
  filter (fun r => (b < mr_seq r)%Z) l = drop (Z.to_nat (b - m + 1)) l.
Proof.
  revert m. induction l as [|r l IH]; intros m Hl Hb; [by rewrite drop_nil|].
  cbn [length fmap list_fmap] in Hl. rewrite seqZ_cons in Hl by lia. injection Hl as Hr Hl.
  replace (Z.pred (Z.of_nat (S (length l)))) with (Z.of_nat (length l)) in Hl by lia.
  destruct (decide (b < mr_seq r)%Z) as [Hlt|Hge].
  - assert (b = m - 1)%Z as -> by lia.
    replace (Z.to_nat (m - 1 - m + 1)) with 0 by lia. rewrite filter_cons_True by done. simpl. f_equal.
    rewrite filter_all; [done|]. apply Forall_forall. intros x Hx.
    assert (mr_seq x ∈ mr_seq <$> l) as Hin by by apply list_elem_of_fmap_2.
    rewrite Hl in Hin. apply elem_of_seqZ in Hin. lia.
  - rewrite filter_cons_False by done. rewrite (IH (Z.succ m)) by (done || lia).
    replace (Z.to_nat (b - m + 1)) with (S (Z.to_nat (b - Z.succ m + 1))) by lia. done.
Qed.

(** The messages after a seq are the dialog's log without its first [b]
    messages: nothing is skipped and nothing repeated at the boundary. *)
Lemma select_after_drop d b t :
  messages_ok t -> (0 <= b)%Z -> select_after d b t = drop (Z.to_nat b) (in_dialog d t).
Proof.
  intros Hok Hb. unfold select_after.
  assert (select_where (fun r => mr_dialog_id r = d /\ (b < mr_seq r)%Z) t =
          drop (Z.to_nat b) (in_dialog d t)) as ->.
  { unfold select_where, in_dialog.
    destruct Hok as (_ & _ & Hseq). specialize (Hseq d). unfold in_dialog in Hseq.
    replace (Z.to_nat b) with (Z.to_nat (b - 1 + 1)) by lia.
    rewrite <-(filter_seq_drop b 1 _ Hseq) by lia.
    rewrite list_filter_filter. apply list_filter_iff'. tauto. }
  apply order_by_id. eapply sorted_by_sublist; [by apply in_dialog_sorted|apply sublist_drop].
Qed.

(** Compaction loses no message: the summarised prefix, up to the boundary,
    and the hot slice make up the dialog's log. *)
Lemma hot_slice_complete summaries d t :
  messages_ok t -> Forall (fun s => 0 <= sm_seq_to s)%Z summaries ->
  filter (fun r => (mr_seq r <= boundary_of summaries d)%Z) (in_dialog d t) ++
    select_after d (boundary_of summaries d) t = in_dialog d t /\
  list_hot_slice summaries d t =
    match mapM to_chat_message (drop (Z.to_nat (boundary_of summaries d)) (in_dialog d t)) with
    | Some l => (Ok l, t) | None => (Err (OtherError "bad message row"), t) end.
Proof.
  intros Hok Hpos. set (b := boundary_of summaries d).
  assert (0 <= b)%Z as Hb.
  { unfold b, boundary_of. destruct (select_where _ summaries) as [|s l] eqn:Hs; [done|].
    assert (s ∈ select_where (fun s => sm_dialog_id s = d) summaries) as Hin
      by (rewrite Hs; apply list_elem_of_here).
    rewrite <-Hs. pose proof (max_of_ge sm_seq_to NO_COMPACTED_SEQ _ s Hin).
    apply elem_of_select in Hin as [_ Hin]. rewrite Forall_forall in Hpos. specialize (Hpos s Hin). simpl in Hpos. lia. }
  split.
  - rewrite select_after_drop by done.
    destruct Hok as (_ & _ & Hseq). specialize (Hseq d). set (l := in_dialog d t) in *.
    assert (forall i r, l !! i = Some r -> mr_seq r = Z.of_nat i + 1)%Z as Hnth.
    { intros i r Hr. assert ((mr_seq <$> l) !! i = Some (mr_seq r)) as Hi
        by (by rewrite list_lookup_fmap, Hr).
      rewrite Hseq in Hi. apply lookup_seqZ in Hi as [-> _]. lia. }
    assert (filter (fun r => (mr_seq r <= b)%Z) l = take (Z.to_nat b) l) as ->; [|apply take_drop].
    rewrite <-(take_drop (Z.to_nat b) l) at 1. rewrite filter_app.
    rewrite (filter_all _ (take _ _)), filter_none; [by rewrite app_nil_r| |].
    + apply Forall_lookup. intros i r Hr. rewrite lookup_drop in Hr. apply Hnth in Hr. lia.
    + apply Forall_lookup. intros i r Hr. apply lookup_take_Some in Hr as [Hr Hi].
      apply Hnth in Hr. lia.
  - unfold list_hot_slice. fold b. rewrite select_after_drop by done. unfold to_messages.
    by destruct (mapM _ _).
Qed.

(** ** Inside a unit of work, on a database that may fail *)

Section InUnit.
Context {D : Type} `{HasTable D MessageRow}.

(** The unit's session before its first write holds the committed tables. *)
Definition unit_at (c : Conn D) (ses : Session D) : Prop :=
  active c = Some ses /\ sess_open ses = true /\ sess_busy ses = false /\
  (sess_wrote ses = false -> working ses = committed c).

Lemma write_session_unit_at {A} (body : M D Exn A) c ses :
  unit_at c ses ->
  exists l, write_session body c = (Err StoreError, unit_shape c ses (working ses) l (sess_wrote ses)) \/
    match body (working ses) with
    | (Ok a, d) => write_session body c = (Ok a, unit_shape c ses d l true)
    | (Err e, d) => write_session body c = (Err e, unit_shape c ses d l (sess_wrote ses))
    end.
Proof.
  intros (Ha & Ho & Hb & _). unfold write_session, borrow_enter, live_session. rewrite Ha, Ho, Hb.
  unfold visible. simpl.
  destruct (execute_spec body (working ses) (with_active (Some (with_busy true ses)) c))
    as (l & [Hx|Hx]); rewrite Hx; exists l.
  - left. unfold unit_shape. destruct c, ses; simpl in *. by subst.
  - right. destruct (body (working ses)) as [[a|e] d]; simpl;
      unfold unit_shape; destruct c, ses; simpl in *; by subst.
Qed.

(** An attempt that does not insert leaves the session as it was. *)
Lemma insert_attempt_unit sqlite (st : M (list MessageRow) Exn unit) c ses :
  unit_at c ses ->
  (forall t e t', st t = (Err e, t') -> e = IntegrityError /\ t' = t) ->
  exists l, 
    (exists e, insert_attempt sqlite [on_table st] c = (Err e, unit_shape c ses (working ses) l (sess_wrote ses))) \/
    exists t, st (table (working ses)) = (Ok tt, t) /\
      insert_attempt sqlite [on_table st] c = (Ok tt, unit_shape c ses (set_table t (working ses)) l true).
Proof.
  intros Hc Hst. pose proof Hc as (Ha & Ho & Hb & Hw). unfold insert_attempt.
  match goal with |- context [write_session ?b c] => set (body := b) end.
  assert (forall d, for_each [on_table st] id d =
    match st (table d) with (Ok _, t) => (Ok tt, set_table t d) | (Err e, t) => (Err e, set_table t d) end)
    as Hone.
  { intros d. cbn. unfold bind, id, on_table. by destruct (st (table d)) as [[[]|e] t]. }
  assert (body (working ses) = match st (table (working ses)) with
    | (Ok _, t) => (Ok tt, set_table t (working ses)) | (Err e, _) => (Err e, working ses) end) as Hbody.
  { unfold body, live_session. rewrite Ha, Ho.
    destruct (st (table (working ses))) as [[[]|e] t] eqn:Hrun;
      [|destruct (Hst _ _ _ Hrun) as [-> ->]];
      (destruct sqlite; [|destruct (unit_has_writes ses) eqn:Hu]);
      unfold begin_nested, rollback_on_integrity; rewrite Hone, Hrun, ?set_table_same; try done.
    by rewrite <-Hw. }
  destruct (write_session_unit_at body c ses Hc) as (l & [Hx|Hx]); exists l; [left; eauto|].
  rewrite Hbody in Hx. destruct (st (table (working ses))) as [[[]|e] t]; [right|left]; eauto.
Qed.

Lemma unit_shape_at (c : Conn D) ses d l w :
  unit_at c ses -> (w = false -> d = committed c) ->
  unit_at (unit_shape c ses d l w) {| working := d; sess_open := true; sess_busy := false; sess_wrote := w |}.
Proof. intros _ Hw. by split_and!. Qed.

(** An unraced [append] inside a unit, whatever the database does: it
    raises and the session holds what it held, or its row is at the end of
    the log the session sees. *)
Lemma append_in_unit sqlite new_id now d message usage client c ses :
  unit_at c ses ->
  exists d' l w, (append sqlite (fun _ => []) new_id now d message usage client c).2 = unit_shape c ses d' l w /\
    match (append sqlite (fun _ => []) new_id now d message usage client c).1 with
    | Err _ => d' = working ses
    | Ok i => w = true /\ (exists k, i = new_id k) /\
        d' = set_table (table (working ses) ++
               [row_of_message i d (next_seq d (table (working ses))) message usage client now]) (working ses)
    end.
Proof.
  intros Hc. unfold append.
  match goal with |- context [retry _ _ _ ?a] => set (attempt := a) end.
  cut (forall left k c ses, unit_at c ses ->
    exists d' l w, (retry left k (fun _ => []) attempt c).2 = unit_shape c ses d' l w /\
    match (retry left k (fun _ => []) attempt c).1 with
    | Err _ => d' = working ses
    | Ok i => w = true /\ (exists k, i = new_id k) /\
        d' = set_table (table (working ses) ++
               [row_of_message i d (next_seq d (table (working ses))) message usage client now]) (working ses)
    end); [intros Hloop; by apply Hloop|].
  clear c ses Hc. induction left as [|left IH]; intros k c ses Hc.
  { exists (working ses), (faults c), (sess_wrote ses). split; [|done]. cbn.
    destruct Hc as (Ha & Ho & Hb & _). unfold unit_shape. destruct c, ses; simpl in *. by subst. }
  cbn [retry]. unfold modify, bind at 1 2.
  assert (others_commit [] c = c) as ->.
  { unfold others_commit, on_session. destruct Hc as (Ha & _). rewrite app_nil_r, set_table_same.
    destruct c as [cm ac fl]. simpl in *. subst ac. simpl. rewrite app_nil_r, set_table_same. by destruct ses. }
  unfold try_except.
  set (st := insert_message [] d (fun seq => row_of_message (new_id k) d seq message usage client now)).
  destruct (insert_attempt_unit sqlite st c ses Hc) as (l & [[e He]|[t [Ht He]]]).
  { intros t e t'. unfold st, insert_message. by case_decide; intros [= <- <-]. }
  - unfold attempt. unfold bind. fold st. rewrite He. 
    destruct e; try (eexists _, _, _; by split).
    case_decide; [eexists _, _, _; by split|].
    destruct (IH (S k) (unit_shape c ses (working ses) l (sess_wrote ses))
      {| working := working ses; sess_open := true; sess_busy := false; sess_wrote := sess_wrote ses |})
      as (d' & l' & w' & Heq & Hres).
    { apply unit_shape_at; [done|]. apply Hc. }
    exists d', l', w'. split; [exact Heq|exact Hres].
  - unfold attempt. unfold bind. fold st. rewrite He. unfold ret. cbn.
    eexists _, _, _. split; [done|]. split; [done|]. split; [by eexists|].
    f_equal. unfold st, insert_message in Ht. case_decide; [done|]. injection Ht as <-.
    unfold insert_row, seen. do 3 f_equal. unfold next_seq.
    rewrite filter_all; [done|]. apply Forall_forall. intros r _. apply not_elem_of_nil.
Qed.
End InUnit.
