(* ===== verification/ClaimStore.v ===== *)
(** * Dialog ownership ([SqlAlchemyClaimRepository], [dialogs/store.py])

    One row per dialog says which process runs its actor.  A claim is the
    pair (owner, generation); a process keeps the claims it was given and
    compares them with the rows at every heartbeat. *)
From S2P Require Import Prelude PyStr Clock Sql Domain UnitOfWork Codec MessageStore.

Abbreviation claims := (list DialogClaim).

Definition FIRST_GENERATION : Z := 1.

(** The row after the conflict branch of [_claim_upsert]. *)
Definition bump (owner : pystr) (now : time) (row : DialogClaim) : DialogClaim :=
  {| cl_dialog_id := cl_dialog_id row; cl_owner := owner; cl_generation := cl_generation row + 1;
     cl_heartbeat_at := now |}.
Definition beat (now : time) (row : DialogClaim) : DialogClaim :=
  {| cl_dialog_id := cl_dialog_id row; cl_owner := cl_owner row;
     cl_generation := cl_generation row; cl_heartbeat_at := now |}.

(** [_claim_upsert]: INSERT, or bump on conflict; RETURNING the generation. *)
Definition claim_upsert (dialog_id owner : pystr) (now : time) : M claims Exn Z := fun t =>
  match find_key cl_dialog_id dialog_id t with
  | None => (Ok FIRST_GENERATION,
             insert_row {| cl_dialog_id := dialog_id; cl_owner := owner;
                           cl_generation := FIRST_GENERATION; cl_heartbeat_at := now |} t)
  | Some row => (Ok (cl_generation row + 1)%Z,
                 update_where (fun r => cl_dialog_id r = dialog_id) (bump owner now) t)
  end.

Definition claim (now : time) (dialog_id owner : pystr) : M claims Exn DialogClaim :=
  let! generation := claim_upsert dialog_id owner now in
  ret {| cl_dialog_id := dialog_id; cl_owner := owner; cl_generation := generation;
         cl_heartbeat_at := now |}.

(** [{claim.dialog_id: claim for claim in claims}]: the last one of an id wins. *)
Definition held_of (held : claims) : gmap pystr DialogClaim :=
  foldl (fun m c => <[cl_dialog_id c := c]> m) ∅ held.

Definition still_held (held : gmap pystr DialogClaim) (row : DialogClaim) : Prop :=
  match held !! cl_dialog_id row with
  | Some c => cl_owner c = cl_owner row /\ cl_generation c = cl_generation row
  | None => False
  end.
#[export] Instance still_held_dec held row : Decision (still_held held row).
Proof. unfold still_held. destruct (held !! _); apply _. Defined.

Definition heartbeat (now : time) (held_claims : claims) : M claims Exn (gset pystr) := fun t =>
  match held_claims with
  | [] => (Ok ∅, t)
  | _ =>
      let held := held_of held_claims in
      let rows := select_where (fun r => cl_dialog_id r ∈ dom held) t in
      let kept : gset pystr := list_to_set (cl_dialog_id <$> filter (still_held held) rows) in
      (Ok kept, if decide (kept = ∅) then t
                else update_where (fun r => cl_dialog_id r ∈ kept) (beat now) t)
  end.

Definition release (dialog_id owner : pystr) (generation : Z) : M claims Exn unit :=
  modify (delete_where (fun r => cl_dialog_id r = dialog_id /\ cl_owner r = owner /\
                                 cl_generation r = generation)).

Definition held_elsewhere (dialog_ids : gset pystr) (owner : pystr) (stale_before : time)
    : M claims Exn (gset pystr) := fun t =>
  if decide (dialog_ids = ∅) then (Ok ∅, t)
  else (Ok (list_to_set (cl_dialog_id <$> select_where (fun r =>
              cl_dialog_id r ∈ dialog_ids /\ cl_owner r <> owner /\
              (stale_before <= cl_heartbeat_at r)%Z) t)), t).

Definition current_generation (dialog_id : pystr) : M claims Exn (option Z) :=
  gets (fun t => cl_generation <$> find_key cl_dialog_id dialog_id t).

Definition delete_claim (dialog_id : pystr) : M claims Exn unit :=
  modify (delete_where (fun r => cl_dialog_id r = dialog_id)).

(** ** What the processes do to the table *)

Inductive call :=
| Claim (dialog_id owner : pystr)
| Heartbeat (held : claims)
| Release (dialog_id owner : pystr) (generation : Z)
| Delete (dialog_id : pystr).

Definition perform (now : time) (c : call) (t : claims) : claims :=
  match c with
  | Claim d o => (claim now d o t).2
  | Heartbeat held => (heartbeat now held t).2
  | Release d o g => (release d o g t).2
  | Delete d => (delete_claim d t).2
  end.
Fixpoint run_calls (h : list (time * call)) (t : claims) : claims :=
  match h with
  | [] => t
  | (now, c) :: h => run_calls h (perform now c t)
  end.

(** One row per dialog, generations from 1 up. *)
Definition claims_ok (t : claims) : Prop :=
  NoDup (cl_dialog_id <$> t) /\ Forall (fun r => FIRST_GENERATION <= cl_generation r)%Z t.

Lemma claims_ok_update P `{!forall r : DialogClaim, Decision (P r)} f t :
  (forall r, cl_dialog_id (f r) = cl_dialog_id r) ->
  (forall r, FIRST_GENERATION <= cl_generation r -> FIRST_GENERATION <= cl_generation (f r))%Z ->
  claims_ok t -> claims_ok (update_where P f t).
Proof.
  intros Hid Hg [Hnd Hall]. split; [by rewrite update_where_proj by auto|].
  apply Forall_update_where; auto.
Qed.
Lemma claims_ok_delete P `{!forall r : DialogClaim, Decision (P r)} t :
  claims_ok t -> claims_ok (delete_where P t).
Proof.
  intros [Hnd Hall]. unfold delete_where. split; [|by apply Forall_filter_keep].
  eapply sublist_NoDup; [exact Hnd|]. apply fmap_sublist, sublist_filter.
Qed.

Lemma claim_spec now d o t :
  claim now d o t =
    (Ok {| cl_dialog_id := d; cl_owner := o; cl_heartbeat_at := now;
           cl_generation := match find_key cl_dialog_id d t with
                            | Some row => cl_generation row + 1 | None => FIRST_GENERATION end |},
     match find_key cl_dialog_id d t with
     | Some _ => update_where (fun r => cl_dialog_id r = d) (bump o now) t
     | None => t ++ [{| cl_dialog_id := d; cl_owner := o; cl_generation := FIRST_GENERATION;
                        cl_heartbeat_at := now |}]
     end)%Z.
Proof. unfold claim, claim_upsert, bind. by destruct (find_key cl_dialog_id d t). Qed.

Lemma claims_perform_ok now c t : claims_ok t -> claims_ok (perform now c t).
Proof.
  intros Ht. destruct c; simpl.
  - rewrite claim_spec. simpl. destruct (find_key _ _ t) eqn:Hk.
    + apply claims_ok_update; [done| |done]. intros r. simpl. unfold FIRST_GENERATION. lia.
    + destruct Ht as [Hnd Hall]. split; [|by apply Forall_app; split; [|repeat constructor]].
      rewrite fmap_app, NoDup_app. split_and!; [done| |apply NoDup_singleton].
      intros i Hi ->%list_elem_of_singleton. apply list_elem_of_fmap in Hi as (r & Heq & Hr).
      rewrite find_key_None, Forall_forall in Hk. by apply (Hk r Hr).
  - unfold heartbeat. destruct held; [done|]. simpl. case_decide; [done|]. by apply claims_ok_update.
  - by apply claims_ok_delete.
  - by apply claims_ok_delete.
Qed.

Lemma claims_run_calls_ok h t : claims_ok t -> claims_ok (run_calls h t).
Proof.
  revert t. induction h as [|[now c] h IH]; intros t Ht; [done|]. simpl. by apply IH, claims_perform_ok.
Qed.

(** ** Holding a claim *)

(** The row of the dialog carries this owner and generation. *)
Definition holds (t : claims) (d o : pystr) (g : Z) : Prop :=
  exists r, find_key cl_dialog_id d t = Some r /\ cl_owner r = o /\ cl_generation r = g.

(** At most one claim of a dialog holds. *)
Lemma holds_unique t d o g o' g' : holds t d o g -> holds t d o' g' -> o = o' /\ g = g'.
Proof. intros (r & Hr & <- & <-) (r' & Hr' & <- & <-). by simplify_eq. Qed.

Lemma held_of_dom held : forall d c, held_of held !! d = Some c -> cl_dialog_id c = d.
Proof.
  unfold held_of. assert (forall m : gmap pystr DialogClaim,
    (forall d c, m !! d = Some c -> cl_dialog_id c = d) ->
    forall d c, foldl (fun m c => <[cl_dialog_id c := c]> m) m held !! d = Some c ->
                cl_dialog_id c = d) as Hgen.
  { induction held as [|c0 held IH]; intros m Hm; [done|]. simpl. apply IH.
    intros d c [[<- <-]|[_ Hc]]%lookup_insert_Some; [done|by apply Hm]. }
  apply Hgen. intros d c. by rewrite lookup_empty.
Qed.

(** [heartbeat] returns exactly the dialogs whose given claim still holds,
    and refreshes those rows and no other. *)
Lemma heartbeat_spec now held t :
  claims_ok t ->
  exists kept t', heartbeat now held t = (Ok kept, t') /\
    (forall d, d ∈ kept <-> exists c, held_of held !! d = Some c /\
                              holds t d (cl_owner c) (cl_generation c)) /\
    forall d, find_key cl_dialog_id d t' =
      (fun r => if decide (d ∈ kept) then beat now r else r) <$> find_key cl_dialog_id d t.
Proof.
  intros [Hnd _]. unfold heartbeat. destruct held as [|c0 held].
  - exists ∅, t. split_and!; [done| |].
    + intros d. split; [set_solver|]. intros (c & Hc & _). unfold held_of in Hc. simpl in Hc.
      by rewrite lookup_empty in Hc.
    + intros d. destruct (find_key cl_dialog_id d t); simpl; [|done]. by case_decide; [set_solver|].
  - set (m := held_of (c0 :: held)). eexists _, _. split; [done|].
    match goal with |- context [update_where (fun r => cl_dialog_id r ∈ ?k)] => set (kept := k) end.
    assert (forall d, d ∈ kept <-> exists c, m !! d = Some c /\
              holds t d (cl_owner c) (cl_generation c)) as Hkept.
    { intros d. unfold kept. rewrite elem_of_list_to_set, list_elem_of_fmap. unfold holds. split.
      - intros (r & -> & Hr). apply list_elem_of_filter in Hr as [Hh Hr].
        apply elem_of_select in Hr as [_ Hr]. unfold still_held in Hh.
        destruct (m !! cl_dialog_id r) as [c|] eqn:Hc; [|done]. exists c. split; [done|]. exists r.
        destruct Hh as [-> ->]. split; [|done]. by apply find_key_elem.
      - intros (c & Hc & r & Hr & Ho & Hg). apply find_key_Some in Hr as [Hr <-]. exists r.
        split; [done|]. apply list_elem_of_filter. split.
        + unfold still_held. by rewrite Hc.
        + apply elem_of_select. split; [|done]. apply elem_of_dom. by exists c. }
    split; [done|]. intros d. case_decide as He.
    + rewrite He. destruct (find_key cl_dialog_id d t); simpl; [|done]. by case_decide; [set_solver|].
    + rewrite find_key_update_fixed by done.
      destruct (find_key cl_dialog_id d t) as [r|] eqn:Hr; [|done]. simpl.
      apply find_key_Some in Hr as [_ <-]. done.
Qed.

(** ** Preemption *)

(** The owner of a dialog changes only by a claim of that owner. *)
Lemma perform_owner now c t d r' :
  find_key cl_dialog_id d (perform now c t) = Some r' -> claims_ok t ->
  (exists r, find_key cl_dialog_id d t = Some r /\ cl_owner r' = cl_owner r /\
             cl_generation r' = cl_generation r) \/
  c = Claim d (cl_owner r') /\
    cl_generation r' = match find_key cl_dialog_id d t with
                       | Some r => cl_generation r + 1 | None => FIRST_GENERATION end%Z.
Proof.
  intros Hr' Hok. destruct c; simpl in Hr'.
  - rewrite claim_spec in Hr'. simpl in Hr'. destruct (decide (dialog_id = d)) as [->|Hne].
    + right. destruct (find_key cl_dialog_id d t) as [r|] eqn:Hr.
      * rewrite find_key_update_fixed, Hr in Hr' by done. simpl in Hr'.
        apply find_key_Some in Hr as [_ Hd]. rewrite decide_True in Hr' by done. by simplify_eq/=.
      * rewrite find_key_app, Hr, find_key_cons in Hr'. simpl in Hr'.
        rewrite decide_True in Hr' by done. by simplify_eq/=.
    + left. exists r'. split; [|done]. destruct (find_key cl_dialog_id dialog_id t).
      * rewrite (find_key_update_ne cl_dialog_id d dialog_id) in Hr' by done. done.
      * rewrite find_key_app, find_key_cons in Hr'. simpl in Hr'.
        rewrite decide_False in Hr' by done. by destruct (find_key cl_dialog_id d t).
  - left. destruct (heartbeat_spec now held t Hok) as (kept & t' & Hx & _ & Hrows).
    rewrite Hx in Hr'. simpl in Hr'. rewrite Hrows in Hr'.
    destruct (find_key cl_dialog_id d t) as [r|]; [|done]. simpl in Hr'. exists r.
    split; [done|]. case_decide; by simplify_eq/=.
  - left. destruct (find_key cl_dialog_id d t) as [r|] eqn:Hr.
    + exists r. split; [done|]. unfold release, modify in Hr'. simpl in Hr'.
      unfold find_key, select_where, delete_where in Hr'. rewrite list_filter_filter in Hr'.
      apply head_filter_Some in Hr' as [Hin [Hd _]].
      pose proof (find_key_elem cl_dialog_id d t r' (proj1 Hok) Hin Hd). by simplify_eq.
    + exfalso. rewrite find_key_None, Forall_forall in Hr. apply find_key_Some in Hr' as [Hin Hd].
      unfold release, modify in Hin. simpl in Hin. apply elem_of_delete_where in Hin as [_ Hin].
      by apply (Hr r').
  - left. apply find_key_Some in Hr' as [Hin Hd]. simpl in Hin.
    apply elem_of_delete_where in Hin as [_ Hin]. exists r'. split; [|done].
    by apply find_key_elem; [apply Hok| |].
Qed.

(** C22: A process that lost a dialog to another one learns it: until it claims
    the dialog again itself, no heartbeat ever confirms it, whatever the
    other processes do in between — releasing and reclaiming included. *)
Lemma preempted_never_confirmed h t d a b now now' held :
  claims_ok t -> a <> b ->
  Forall (fun '(_, c) => c <> Claim d a) h ->
  (forall c, held_of held !! d = Some c -> cl_owner c = a) ->
  let t1 := (claim now d b t).2 in
  exists kept t2, heartbeat now' held (run_calls h t1) = (Ok kept, t2) /\ d ∉ kept.
Proof.
  intros Hok Hab Hh Hheld t1.
  assert (claims_ok t1) as Hok1 by exact (claims_perform_ok now (Claim d b) t Hok).
  assert (forall r, find_key cl_dialog_id d t1 = Some r -> cl_owner r <> a) as Hown.
  { intros r Hr. unfold t1 in Hr. rewrite claim_spec in Hr. simpl in Hr.
    destruct (find_key cl_dialog_id d t) as [r0|] eqn:Hr0.
    - rewrite find_key_update_fixed, Hr0 in Hr by done. simpl in Hr.
      apply find_key_Some in Hr0 as [_ Hd]. rewrite decide_True in Hr by done. by simplify_eq/=.
    - rewrite find_key_app, Hr0, find_key_cons in Hr. simpl in Hr.
      rewrite decide_True in Hr by done. by simplify_eq/=. }
  assert (claims_ok (run_calls h t1) /\
          forall r, find_key cl_dialog_id d (run_calls h t1) = Some r -> cl_owner r <> a) as [Hok2 Hown2].
  { clear Hheld. revert Hok1 Hown. generalize t1 as u. clear t1.
    induction h as [|[n c] h IH]; intros u Hu Hown; [done|]. simpl.
    apply Forall_cons in Hh as [Hc Hh]. apply IH; [done|by apply claims_perform_ok|].
    intros r Hr Ha. apply perform_owner in Hr as [(r0 & Hr0 & Ho & _)|[-> _]]; [| |done].
    - apply (Hown r0 Hr0). congruence.
    - by apply Hc; rewrite Ha. }
  destruct (heartbeat_spec now' held _ Hok2) as (kept & t2 & Hx & Hkept & _).
  exists kept, t2. split; [done|]. intros (c & Hc & r & Hr & Ho & _)%Hkept.
  apply (Hown2 r Hr). rewrite Ho. by apply Hheld.
Qed.

(** [release] drops the claim only if it is still exactly this one: a
    process that was preempted cannot drop its successor's. *)
Lemma release_exact d o g t :
  claims_ok t ->
  (holds t d o g -> find_key cl_dialog_id d (release d o g t).2 = None) /\
  (~ holds t d o g -> (release d o g t).2 = t).
Proof.
  intros [Hnd _]. unfold release, modify. simpl. split.
  - intros (r & Hr & Ho & Hg). apply find_key_None, Forall_forall. intros r' Hr' Hd.
    apply elem_of_delete_where in Hr' as [Hno Hin]. apply Hno.
    pose proof (find_key_elem cl_dialog_id d t r' Hnd Hin Hd). by simplify_eq.
  - intros Hno. unfold delete_where. apply filter_all, Forall_forall. intros r Hr (Hd & Ho & Hg).
    apply Hno. exists r. split; [|done]. by apply find_key_elem.
Qed.

(** [held_elsewhere]: exactly the asked dialogs another owner holds with a
    heartbeat no older than the threshold. *)
Lemma held_elsewhere_spec ids o stale t :
  claims_ok t ->
  exists s, held_elsewhere ids o stale t = (Ok s, t) /\
    forall d, d ∈ s <-> d ∈ ids /\ exists r, find_key cl_dialog_id d t = Some r /\
                          cl_owner r <> o /\ (stale <= cl_heartbeat_at r)%Z.
Proof.
  intros [Hnd _]. unfold held_elsewhere. case_decide as He.
  - eexists. split; [done|]. intros d. subst. set_solver.
  - eexists. split; [done|]. intros d. rewrite elem_of_list_to_set, list_elem_of_fmap. split.
    + intros (r & -> & Hr). apply elem_of_select in Hr as [(Hi & Ho & Hs) Hr]. split; [done|].
      exists r. split_and!; try done. by apply find_key_elem.
    + intros (Hi & r & Hr & Ho & Hs). apply find_key_Some in Hr as [Hr <-]. exists r.
      split; [done|]. by apply elem_of_select.
Qed.

(** ** The dialog registry ([SqlAlchemyDialogRepository], [dialogs/store.py] *)

Definition find_row (user_id channel : pystr) (t : list Dialog) : option Dialog :=
  head (select_where (fun r => dlg_user_id r = user_id /\ dlg_channel r = channel) t).

(** The constraints of the table: the primary key and (user_id, channel). *)
Definition dialog_clash (a b : Dialog) : Prop :=
  dlg_id a = dlg_id b \/ (dlg_user_id a = dlg_user_id b /\ dlg_channel a = dlg_channel b).
#[export] Instance dialog_clash_dec a b : Decision (dialog_clash a b).
Proof. unfold dialog_clash. apply _. Defined.

Definition insert_dialog (row : Dialog) : M (list Dialog) Exn Dialog := fun t =>
  if decide (Exists (dialog_clash row) t) then (Err IntegrityError, t)
  else (Ok row, insert_row row t).

Section Store.
Context {D : Type} `{HasTable D Dialog}.

(** [get_or_create]: two sessions; [hidden] is what other processes commit
    between them. *)
Definition get_or_create (hidden : list Dialog) (new_id : pystr) (now : time)
    (user_id channel : pystr) : M (Conn D) Exn Dialog :=
  let! row := read_session (on_table (gets (find_row user_id channel))) in
  match row with
  | Some row => ret row
  | None =>
      modify (fun c => on_session (fun s => with_working (set_table (table (working s) ++ hidden)
                                              (working s)) s)
                (with_committed (set_table (table (committed c) ++ hidden) (committed c)) c)) ;;;
      write_session (on_table (insert_dialog
        {| dlg_id := new_id; dlg_user_id := user_id; dlg_channel := channel;
           dlg_created_at := now; dlg_updated_at := now |}))
  end.

Definition get (dialog_id : pystr) : M (Conn D) Exn Dialog :=
  read_session (on_table (fun t =>
    match find_key dlg_id dialog_id t with
    | None => (Err (DialogNotFoundError dialog_id), t)
    | Some row => (Ok row, t)
    end)).

Definition list_by_channel (channel : pystr) : M (Conn D) Exn (list Dialog) :=
  read_session (on_table (gets (select_where (fun r => dlg_channel r = channel)))).

(** [delete]: the dialog and its log in one transaction. *)
Definition delete `{HasTable D MessageRow} (dialog_id : pystr) : M (Conn D) Exn unit :=
  write_session (fun d =>
    match find_key dlg_id dialog_id (table d) with
    | None => (Err (DialogNotFoundError dialog_id), d)
    | Some _ =>
        (on_table (delete_messages dialog_id) ;;;
         on_table (modify (delete_where (fun r : Dialog => dlg_id r = dialog_id)))) d
    end).
End Store.

Definition dialogs_ok (t : list Dialog) : Prop :=
  NoDup (dlg_id <$> t) /\ NoDup ((fun r => (dlg_user_id r, dlg_channel r)) <$> t).

Lemma find_row_spec u c t r :
  dialogs_ok t -> find_row u c t = Some r <-> r ∈ t /\ dlg_user_id r = u /\ dlg_channel r = c.
Proof.
  intros [_ Hnd]. unfold find_row. split.
  - intros Hr. apply head_filter_Some in Hr. naive_solver.
  - intros (Hr & Hu & Hc).
    destruct (head (select_where (fun r => dlg_user_id r = u /\ dlg_channel r = c) t)) as [r'|] eqn:Hh.
    + apply head_filter_Some in Hh as (Hr' & Hu' & Hc'). f_equal.
      pose proof (find_key_elem (fun r => (dlg_user_id r, dlg_channel r)) (u, c) t r Hnd Hr
        ltac:(congruence)) as H1.
      pose proof (find_key_elem (fun r => (dlg_user_id r, dlg_channel r)) (u, c) t r' Hnd Hr'
        ltac:(congruence)) as H2. congruence.
    + apply head_filter_None in Hh. rewrite Forall_forall in Hh. naive_solver.
Qed.

Lemma insert_dialog_ok row t :
  dialogs_ok t -> ~ Exists (dialog_clash row) t -> dialogs_ok (t ++ [row]).
Proof.
  intros [Hid Huc] Hno. rewrite Exists_exists in Hno. split; rewrite fmap_app, NoDup_app;
    (split_and!; [done| |apply NoDup_singleton]); intros x Hx ->%list_elem_of_singleton;
    apply list_elem_of_fmap in Hx as (r & Heq & Hr); apply Hno; exists r; (split; [done|]).
  - by left.
  - right. by simplify_eq/=.
Qed.

(** [get_or_create] outside a unit, whoever else registers at the same time:
    the person's dialog is found, or one is made, or — when another process
    registered the same pair in between — it raises; the registry never
    holds two dialogs of one pair. *)
Lemma get_or_create_spec {D} `{HasTable D Dialog} hidden new_id now u ch (c : Conn D) :
  faults c = [] -> active c = None ->
  dialogs_ok (table (committed c)) -> dialogs_ok (table (committed c) ++ hidden) ->
  let '(r, c') := get_or_create hidden new_id now u ch c in
  dialogs_ok (table (committed c')) /\
  match find_row u ch (table (committed c)) with
  | Some row => r = Ok row /\ c' = c
  | None =>
      let t := table (committed c) ++ hidden in
      match r with
      | Ok row => dlg_id row = new_id /\ dlg_user_id row = u /\ dlg_channel row = ch /\
                  table (committed c') = t ++ [row] /\ find_row u ch hidden = None
      | Err e => e = IntegrityError /\ table (committed c') = t
      end
  end.
Proof.
  intros Hf Ha Hok Hok2. destruct c as [d act fl]; simpl in *; subst.
  unfold get_or_create, bind, read_session, borrow_enter, live_session. simpl.
  unfold execute, round_trip. simpl. unfold on_table at 1, gets.
  destruct (find_row u ch (table d)) as [row|] eqn:Hrow; simpl; [done|].
  unfold write_session, borrow_enter, live_session, execute, round_trip, modify. simpl.
  unfold on_table. rewrite table_set. unfold insert_dialog. case_decide as Hx; simpl.
  - rewrite table_set. done.
  - rewrite !table_set. split; [by apply insert_dialog_ok|]. split_and!; try done.
    apply head_filter_None, Forall_forall. intros r Hr [Hu Hc]. apply Hx, Exists_exists. exists r.
    split; [apply elem_of_app; by right|]. by right.
Qed.
