(* ===== verification/SummaryStore.v ===== *)
(** * Summaries and the message archive ([SqlAlchemySummaryStore], [context/store.py])

    The rolling summaries of a dialog, and the read-only view of the
    [messages] table the compactor and the history search use. *)
From S2P Require Import Prelude PyStr Clock Sql Domain UnitOfWork Codec MessageStore.

(** ** Summaries *)

Definition insert_summary (summary : DialogueSummary) : M (list DialogueSummary) Exn unit := fun t =>
  match find_key sm_id (sm_id summary) t with
  | Some _ => (Err IntegrityError, t)
  | None => (Ok tt, insert_row summary t)
  end.

Definition create (summary : DialogueSummary) : M (list DialogueSummary) Exn DialogueSummary :=
  insert_summary summary ;;; ret summary.

Definition list_for_dialog (dialog_id : pystr)
    : M (list DialogueSummary) Exn (list DialogueSummary) :=
  gets (fun t => order_by sm_seq_from (select_where (fun s => sm_dialog_id s = dialog_id) t)).

(** One session: a failed INSERT leaves the old summaries to the rollback. *)
Definition replace_for_dialog (dialog_id : pystr) (summary : DialogueSummary)
    : M (list DialogueSummary) Exn unit :=
  modify (delete_where (fun s => sm_dialog_id s = dialog_id)) ;;;
  insert_summary summary.

Definition delete_for_dialog (dialog_id : pystr) : M (list DialogueSummary) Exn unit :=
  modify (delete_where (fun s => sm_dialog_id s = dialog_id)).

Definition max_seq_to (dialog_id : pystr) : M (list DialogueSummary) Exn Z :=
  gets (fun t => boundary_of t dialog_id).

Section Topic.
(** [str.lower] of the interpreter. *)
Context (str_lower : pystr -> pystr).

Definition find_by_topic (dialog_id topic : pystr)
    : M (list DialogueSummary) Exn (list DialogueSummary) :=
  let needle := str_lower (str_strip topic) in
  if str_empty needle then ret []
  else
    let! summaries := list_for_dialog dialog_id in
    ret (filter (fun s => needle ∈ (str_lower <$> sm_topics s)) summaries).
End Topic.

(** ** The archive *)

Definition count_hot_tail (summaries : list DialogueSummary) (dialog_id : pystr)
    : M (list MessageRow) Exn (nat * Z) :=
  gets (fun t =>
    let boundary := boundary_of summaries dialog_id in
    (length (filter (fun r => (boundary < mr_seq r)%Z)
               (select_where (fun r => mr_dialog_id r = dialog_id) t)), boundary)).

Definition to_archive (rows : list MessageRow) : M (list MessageRow) Exn (list ArchivedMessage) :=
  match mapM to_archived rows with
  | Some l => ret l
  | None => raise (OtherError "bad message row")
  end.

Definition tail_after (dialog_id : pystr) (seq : Z) (limit : option nat)
    : M (list MessageRow) Exn (list ArchivedMessage) := fun t =>
  let rows := select_after dialog_id seq t in
  to_archive (match limit with Some n => take n rows | None => rows end) t.

(** [.order_by(seq.desc()).limit(1)]: the last of the ascending order. *)
Definition latest_prompt_tokens (dialog_id : pystr) (after_seq : Z)
    : M (list MessageRow) Exn (option Z) :=
  gets (fun t =>
    last (order_by mr_seq (select_where (fun r =>
      mr_dialog_id r = dialog_id /\ (after_seq < mr_seq r)%Z /\
      mr_role r = MessageRole.value MessageRole.ASSISTANT /\ mr_prompt_tokens r <> None) t))
    ≫= mr_prompt_tokens).

(** ** Search *)

Record ArchiveFilter := {
  af_seq_ranges : option (list (Z * Z));
  af_date_from : option time;
  af_date_to : option time }.

Definition LIKE_ESCAPE : N := 92.
Definition PERCENT : N := 37.
Definition UNDERSCORE : N := 95.

(** [text.replace(c, r)] for a one-character [c]. *)
Definition replace_char (c : N) (r l : list N) : list N :=
  flat_map (fun x => if decide (x = c) then r else [x]) l.

Definition escape_like (text : list N) : list N :=
  replace_char UNDERSCORE [LIKE_ESCAPE; UNDERSCORE]
    (replace_char PERCENT [LIKE_ESCAPE; PERCENT]
      (replace_char LIKE_ESCAPE [LIKE_ESCAPE; LIKE_ESCAPE] text)).

Section Search.
(** Whether the database's ILIKE takes two code points for the same. *)
Context (same_char : N -> N -> bool).

(** [content ILIKE pattern ESCAPE '\'] *)
Fixpoint ilike (pattern s : list N) : bool :=
  match pattern with
  | [] => match s with [] => true | _ => false end
  | c :: p =>
      if decide (c = LIKE_ESCAPE) then
        match p, s with
        | c :: p, x :: s => same_char c x && ilike p s
        | _, _ => false
        end
      else if decide (c = PERCENT) then
        (fix any (s : list N) : bool :=
           ilike p s || match s with [] => false | _ :: s => any s end) s
      else
        match s with
        | [] => false
        | x :: s => (bool_decide (c = UNDERSCORE) || same_char c x) && ilike p s
        end
  end.

Definition in_ranges (ranges : option (list (Z * Z))) (r : MessageRow) : Prop :=
  match ranges with
  | None => True
  | Some l => Exists (fun '(a, b) => a <= mr_seq r <= b)%Z l
  end.
#[export] Instance in_ranges_dec ranges r : Decision (in_ranges ranges r).
Proof.
  unfold in_ranges. destruct ranges as [l|]; [|apply _]. apply Exists_dec.
  intros [a b]. apply _.
Defined.
Definition after_date (o : option time) (r : MessageRow) : Prop :=
  match o with Some d => (d <= mr_created_at r)%Z | None => True end.
#[export] Instance after_date_dec o r : Decision (after_date o r).
Proof. unfold after_date. destruct o; apply _. Defined.
Definition before_date (o : option time) (r : MessageRow) : Prop :=
  match o with Some d => (mr_created_at r < d)%Z | None => True end.
#[export] Instance before_date_dec o r : Decision (before_date o r).
Proof. unfold before_date. destruct o; apply _. Defined.

Definition search (dialog_id query : pystr) (filters : option ArchiveFilter) (limit : nat)
    : M (list MessageRow) Exn (list ArchivedMessage) := fun t =>
  let needle := str_strip query in
  let restriction := default {| af_seq_ranges := None; af_date_from := None; af_date_to := None |}
                       filters in
  if str_empty needle || bool_decide (af_seq_ranges restriction = Some []) then (Ok [], t)
  else
    let pattern := [PERCENT] ++ escape_like (codes needle) ++ [PERCENT] in
    let matching r := mr_dialog_id r = dialog_id /\ ilike pattern (codes (mr_content r)) = true /\
                      in_ranges (af_seq_ranges restriction) r /\
                      after_date (af_date_from restriction) r /\
                      before_date (af_date_to restriction) r in
    to_archive (take limit (order_by mr_seq (select_where matching t))) t.

(** ** The pattern is a literal substring *)

Lemma replace_char_app c r l k : replace_char c r (l ++ k) = replace_char c r l ++ replace_char c r k.
Proof. apply flat_map_app. Qed.

Definition special (c : N) : Prop := c = LIKE_ESCAPE \/ c = PERCENT \/ c = UNDERSCORE.
#[export] Instance special_dec c : Decision (special c).
Proof. unfold special. apply _. Defined.

(** Every special character gets one escape in front, no other changes. *)
Lemma escape_like_flat text :
  escape_like text = flat_map (fun c => if decide (special c) then [LIKE_ESCAPE; c] else [c]) text.
Proof.
  unfold escape_like. induction text as [|c text IH]; [done|].
  change (c :: text) with ([c] ++ text). rewrite !replace_char_app, IH, flat_map_app. f_equal.
  unfold replace_char, special. simpl.
  destruct (decide (c = LIKE_ESCAPE)) as [->|H1]; simpl; [done|].
  destruct (decide (c = PERCENT)) as [->|H2]; simpl; [done|].
  destruct (decide (c = UNDERSCORE)) as [->|H3]; simpl; [done|].
  by rewrite decide_False by tauto.
Qed.

(** A list of code points read as the literal [needle]. *)
Definition reads (needle s : list N) : Prop := Forall2 (fun c x => same_char c x = true) needle s.

Lemma ilike_literal needle p s :
  ilike (escape_like needle ++ p) s = true <->
  exists a b, s = a ++ b /\ reads needle a /\ ilike p b = true.
Proof.
  rewrite escape_like_flat. revert s. induction needle as [|c needle IH]; intros s.
  - simpl. split; [intros Hs; exists [], s; by repeat constructor|].
    intros (a & b & -> & Ha & Hb). by inv Ha.
  - assert (ilike (flat_map (fun c => if decide (special c) then [LIKE_ESCAPE; c] else [c]) (c :: needle) ++ p) s
            = match s with [] => false | x :: s => same_char c x &&
                ilike (flat_map (fun c => if decide (special c) then [LIKE_ESCAPE; c] else [c]) needle ++ p) s end) as ->.
    { simpl. destruct (decide (special c)) as [Hs|Hs]; simpl.
      - done.
      - rewrite (decide_False (P := c = LIKE_ESCAPE)) by (unfold special in Hs; tauto).
        rewrite (decide_False (P := c = PERCENT)) by (unfold special in Hs; tauto).
        rewrite bool_decide_false by (unfold special in Hs; tauto). done. }
    destruct s as [|x s].
    + split; [done|]. intros (a & b & Hab & Ha & _). by inv Ha.
    + rewrite andb_true_iff, IH. split.
      * intros (Hc & a & b & -> & Ha & Hb). exists (x :: a), b. split; [done|]. by repeat constructor.
      * intros (a & b & Hab & Ha & Hb). inv Ha. simplify_eq/=. split; [done|]. eauto.
Qed.

Lemma ilike_percent_step p s :
  ilike (PERCENT :: p) s =
    ilike p s || match s with [] => false | _ :: s => ilike (PERCENT :: p) s end.
Proof. by destruct s. Qed.

Lemma ilike_percent p s :
  ilike (PERCENT :: p) s = true <-> exists a b, s = a ++ b /\ ilike p b = true.
Proof.
  split.
  - induction s as [|x s IH]; rewrite ilike_percent_step, orb_true_iff; intros [H|H]; try done.
    + by exists [], [].
    + by exists [], (x :: s).
    + destruct (IH H) as (a & b & -> & Hb). by exists (x :: a), b.
  - intros (a & b & -> & Hb). induction a as [|x a IH]; rewrite ilike_percent_step, orb_true_iff.
    + by left.
    + by right.
Qed.

(** [search] looks for the query as a literal substring, whatever wildcards
    and escapes it contains. *)
Lemma search_pattern_literal needle s :
  ilike ([PERCENT] ++ escape_like needle ++ [PERCENT]) s = true <->
  exists a m b, s = a ++ m ++ b /\ reads needle m.
Proof.
  simpl app. rewrite ilike_percent. split.
  - intros (a & b & -> & Hb). apply ilike_literal in Hb as (m & b' & -> & Hm & _). eauto.
  - intros (a & m & b & -> & Hm). exists a, (m ++ b). split; [done|]. apply ilike_literal.
    exists m, b. split_and!; [done|done|]. apply ilike_percent. exists b, []. by rewrite app_nil_r.
Qed.
End Search.
