(* ===== verification/Compactor.v ===== *)
(** * Context compaction ([context/compactor.py], [context/prompts.py])

    The narrative part of a run's prompt: one topics block for the summarised
    prefix of the log and the hot tail after it.  The compactor runs beside
    the dialog, so every [await] of its methods is a point where other tasks
    move the state: [others k] is what they do at the k-th such point. *)
From S2P Require Import Prelude PyStr Clock Sql Domain UnitOfWork Codec MessageStore SummaryStore.

Definition INTERRUPTED_NOTE : pystr :=
  "[The previous assistant message was interrupted and may be incomplete.]".

(** [AssembledContext] *)
Record AssembledContext := {
  ac_messages : list ChatMessage;
  ac_tail_count : nat;
  ac_snapshot_len : nat }.

(** [CompactorConfig] *)
Record CompactorConfig := {
  hot_max_chars : Z;
  compact_target_chars : Z;
  model_context_tokens : Z;
  context_buffer_tokens : Z }.
Definition default_config : CompactorConfig :=
  {| hot_max_chars := 12000; compact_target_chars := 6000; model_context_tokens := 0;
     context_buffer_tokens := 2000 |}.

Definition SEGMENT_FETCH_LIMIT : nat := 500.

(** ** Choosing the segment *)

Definition is_split_pair (last_in first_out : ArchivedMessage) : bool :=
  bool_decide (am_role last_in = MessageRole.ASSISTANT) &&
  bool_decide (am_role first_out = MessageRole.SYSTEM) &&
  bool_decide (am_content first_out = INTERRUPTED_NOTE).

(** The loop of [select_compact_segment]: [started] is "segment is not
    empty", [total] the characters taken so far. *)
Fixpoint take_segment (target_chars total : Z) (started : bool) (l : list ArchivedMessage)
    : list ArchivedMessage :=
  match l with
  | [] => []
  | message :: l =>
      if started && (target_chars <? total + str_len (am_content message))%Z then []
      else message :: take_segment target_chars (total + str_len (am_content message)) true l
  end.

Definition select_compact_segment (tail : list ArchivedMessage) (target_chars : Z)
    : list ArchivedMessage :=
  let segment := take_segment target_chars 0 false (removelast tail) in
  match last segment, tail !! length segment with
  | Some last_in, Some first_out =>
      if is_split_pair last_in first_out then
        if decide (length segment + 1 = length tail)%nat then removelast segment
        else segment ++ [first_out]
      else segment
  | _, _ => segment
  end.

(** ** The pieces of the prompt *)

Definition tail_of (history : list ChatMessage) (tail_count : nat) : list ChatMessage :=
  let count := Nat.min tail_count (length history) in
  drop (length history - count) history.

Definition chars (messages : list ChatMessage) : Z :=
  sum_Z ((fun m => str_len (cm_content m)) <$> messages).

Definition TOPICS_BLOCK_HEADER : pystr :=
  "Compressed summaries of earlier topics of this conversation (the verbatim recent history follows):".
Definition NO_TOPICS : pystr := "-".

Definition topic_entry (summary : DialogueSummary) : pystr :=
  "[seq " +s+ str_of_Z (sm_seq_from summary) +s+ "-" +s+ str_of_Z (sm_seq_to summary) +s+
  "] (topics: " +s+ (match sm_topics summary with [] => NO_TOPICS | l => str_join ", " l end) +s+
  ") " +s+ sm_content summary.

Definition topics_block (summaries : list DialogueSummary) : ChatMessage :=
  chat_message MessageRole.SYSTEM
    (str_join newline (TOPICS_BLOCK_HEADER :: (topic_entry <$> summaries))).

(** ** The prompts *)

Definition TOPICS_PREFIX : pystr := "TOPICS:".
Definition SUMMARY_PREFIX : pystr := "SUMMARY:".
Definition MAX_TOPICS : nat := 4.
Definition NO_PREVIOUS_SUMMARY : pystr := "Previous summary: none.".

Definition SUMMARY_SYSTEM_PROMPT : pystr :=
  str_join newline
    ["You maintain a durable summary of a conversation.";
     "You receive the previous summary (possibly none) and a new conversation segment. " +s+
     "Produce the UPDATED summary: preserve what is still true, drop what is stale or " +s+
     "superseded, merge in the new facts.";
     "Reply in exactly this format:";
     TOPICS_PREFIX +s+ " tag1, tag2";
     SUMMARY_PREFIX;
     "<updated summary>";
     "Summary structure:";
     "- Goal: what the user is trying to achieve.";
     "- State: current state, what has been done.";
     "- Next: open tasks and next steps.";
     "- Decisions: key decisions, facts and agreements.";
     "Rules:";
     "1. Emit 1-4 topic tags: short, lowercase, normalized (singular, no punctuation).";
     "2. Keep exact identifiers: paths, commands, error texts, names, numbers, dates.";
     "3. Drop small talk and phrasing; keep the summary compact.";
     "4. Write in the language of the conversation."].

Definition format_segment (segment : list ArchivedMessage) : pystr :=
  str_join newline ((fun message =>
    "[" +s+ str_of_Z (am_seq message) +s+ "] " +s+ MessageRole.value (am_role message) +s+
    ": " +s+ am_content message) <$> segment).

Definition format_merge_request (previous : list DialogueSummary)
    (segment : list ArchivedMessage) : pystr :=
  str_join newline
    ((match previous with
      | [] => [NO_PREVIOUS_SUMMARY]
      | _ => "Previous summary:" :: ((fun s => "- " +s+ sm_content s) <$> previous)
      end) ++ [""; "New segment:"; format_segment segment]).

Section Parse.
(** [str.upper] and [str.lower] of the interpreter. *)
Context (str_upper str_lower : pystr -> pystr).

(** [if tag and tag not in tags: tags.append(tag)] *)
Definition add_tag (tags : list pystr) (item : pystr) : list pystr :=
  let tag := str_lower (str_strip item) in
  if negb (str_empty tag) && bool_decide (tag ∉ tags) then tags ++ [tag] else tags.
Definition parse_topics (raw : pystr) : list pystr :=
  take MAX_TOPICS (foldl add_tag [] (str_split_char 44 raw)).

Definition opens (prefix line : pystr) : bool := str_startswith prefix (str_upper (str_strip line)).

(** The state of the loop of [parse_summary_reply]: topics, kept lines, and
    whether the SUMMARY marker was seen. *)
Definition parse_line (st : list pystr * list pystr * bool) (line : pystr)
    : list pystr * list pystr * bool :=
  let '(topics, kept, in_summary) := st in
  let stripped := str_strip line in
  if negb in_summary && opens TOPICS_PREFIX line then
    (parse_topics (str_drop (str_len TOPICS_PREFIX) stripped), kept, in_summary)
  else if opens SUMMARY_PREFIX line then
    let remainder := str_strip (str_drop (str_len SUMMARY_PREFIX) stripped) in
    (topics, if str_empty remainder then kept else kept ++ [remainder], true)
  else if in_summary then (topics, kept ++ [line], in_summary)
  else (topics, kept, in_summary).

Definition parse_summary_reply (text : pystr) : list pystr * pystr :=
  let lines := str_splitlines text in
  let '(topics, kept, in_summary) := foldl parse_line ([], [], false) lines in
  let kept := if (in_summary : bool) then kept
              else filter (fun line => opens TOPICS_PREFIX line = false) lines in
  let content := str_strip (str_join newline kept) in
  if negb (str_empty content) then (topics, content)
  else (topics, str_strip (str_join newline (filter (fun line =>
          opens TOPICS_PREFIX line = false /\ opens SUMMARY_PREFIX line = false) lines))).

Lemma foldl_add_tag_ok l tags :
  NoDup tags -> Forall (fun t => str_empty t = false) tags ->
  NoDup (foldl add_tag tags l) /\ Forall (fun t => str_empty t = false) (foldl add_tag tags l).
Proof.
  revert tags. induction l as [|x l IH]; intros tags Hnd Hne; [done|]. simpl. unfold add_tag at 2 4.
  destruct (str_empty (str_lower (str_strip x))) eqn:He; simpl; [by apply IH|].
  case_bool_decide as Hin; [|by apply IH]. apply IH.
  - apply NoDup_app. split_and!; [done| |apply NoDup_singleton].
    by intros y Hy ->%list_elem_of_singleton.
  - apply Forall_app. split; [done|]. by apply Forall_singleton.
Qed.

Lemma parse_topics_ok raw :
  length (parse_topics raw) <= MAX_TOPICS /\ NoDup (parse_topics raw) /\
  Forall (fun t => str_empty t = false) (parse_topics raw).
Proof.
  unfold parse_topics.
  destruct (foldl_add_tag_ok (str_split_char 44 raw) [] (NoDup_nil_2) (Forall_nil_2 _)) as [Hnd Hne].
  split_and!.
  - rewrite length_take. lia.
  - eapply sublist_NoDup; [exact Hnd|]. apply sublist_take.
  - by apply Forall_take.
Qed.

(** However the model replies, the summary gets at most four tags, all
    different, none empty. *)
Lemma parse_summary_reply_topics text :
  let topics := (parse_summary_reply text).1 in
  length topics <= MAX_TOPICS /\ NoDup topics /\ Forall (fun t => str_empty t = false) topics.
Proof.
  assert (forall lines st,
    (length st.1.1 <= MAX_TOPICS /\ NoDup st.1.1 /\ Forall (fun t => str_empty t = false) st.1.1) ->
    let st' := foldl parse_line st lines in
    length st'.1.1 <= MAX_TOPICS /\ NoDup st'.1.1 /\ Forall (fun t => str_empty t = false) st'.1.1)
    as Hloop.
  { induction lines as [|x l IH]; intros st Hst; [done|]. simpl. apply IH.
    destruct st as [[topics kept] ins]. unfold parse_line.
    repeat case_match; simpl; try done. apply parse_topics_ok. }
  unfold parse_summary_reply. specialize (Hloop (str_splitlines text) ([], [], false)).
  destruct (foldl parse_line _ _) as [[topics kept] ins]. simpl in Hloop.
  case_match; simpl; apply Hloop; (split_and!; [unfold MAX_TOPICS; simpl; lia|constructor|constructor]).
Qed.
End Parse.

(** ** The segment *)

Definition total_chars (l : list ArchivedMessage) : Z := sum_Z ((fun m => str_len (am_content m)) <$> l).

(** A cut of the log at [n] does not separate an interrupted answer from its
    note. *)
Definition cut_splits (l : list ArchivedMessage) (n : nat) : Prop :=
  exists a b, n <> O /\ l !! (n - 1)%nat = Some a /\ l !! n = Some b /\ is_split_pair a b = true.

Lemma take_segment_prefix target total started l :
  exists k, take_segment target total started l = take k l.
Proof.
  revert total started. induction l as [|m l IH]; intros total started; simpl; [by exists 0|].
  case_match; [by exists 0|]. destruct (IH (total + str_len (am_content m))%Z true) as [k ->].
  by exists (S k).
Qed.

Lemma total_chars_cons m l : total_chars (m :: l) = (str_len (am_content m) + total_chars l)%Z.
Proof. done. Qed.

(** What the loop takes fits the budget, the first message excepted. *)
Lemma take_segment_fits target total l :
  (total + total_chars (take_segment target total true l) <= Z.max total target)%Z.
Proof.
  revert total. induction l as [|m l IH]; intros total; simpl; [unfold total_chars; simpl; lia|].
  destruct (Z.ltb_spec target (total + str_len (am_content m))); [unfold total_chars; simpl; lia|].
  specialize (IH (total + str_len (am_content m))%Z).
  rewrite total_chars_cons. lia.
Qed.

Lemma take_segment_started target l m :
  take_segment target 0 false (m :: l) = m :: take_segment target (str_len (am_content m)) true l.
Proof. done. Qed.

Lemma last_take {A} (l : list A) n x : last (take (S n) l) = Some x -> n < length l -> l !! n = Some x.
Proof.
  intros Hl Hn. rewrite last_lookup, length_take in Hl.
  replace (Nat.min (S n) (length l)) with (S n) in Hl by lia. simpl in Hl.
  by rewrite lookup_take_lt in Hl by lia.
Qed.

Lemma is_split_pair_middle a b c : is_split_pair a b = true -> is_split_pair b c = false.
Proof.
  unfold is_split_pair. rewrite !andb_true_iff, !bool_decide_eq_true. intros [[_ Hb] _].
  by rewrite Hb.
Qed.
Lemma is_split_pair_left a b c : is_split_pair a b = true -> is_split_pair c a = false.
Proof.
  unfold is_split_pair. rewrite !andb_true_iff, !bool_decide_eq_true. intros [[Ha _] _].
  rewrite Ha. by rewrite andb_false_r.
Qed.

(** The cut, as a position in the tail. *)
Lemma select_compact_segment_cut tail target :
  exists n, select_compact_segment tail target = take n tail /\ n <= length tail - 1 /\
            ~ cut_splits tail n.
Proof.
  unfold select_compact_segment.
  destruct (take_segment_prefix target 0 false (removelast tail)) as [k ->].
  assert (take k (removelast tail) = take (Nat.min k (length tail - 1)) tail) as ->.
  { rewrite removelast_firstn_len, take_take. f_equal. lia. }
  set (n := Nat.min k (length tail - 1)). assert (n <= length tail - 1) as Hn by lia.
  assert (length (take n tail) = n) as Hlen by (rewrite length_take; lia). rewrite Hlen.
  destruct (last (take n tail)) as [a|] eqn:Hlast.
  2: { exists n. split_and!; [done|lia|]. intros (? & ? & Hn0 & Ha & _).
       apply last_None in Hlast. assert (length tail = 0 \/ n = 0) as [Hz|Hz]; [|lia|done].
       rewrite Hlast in Hlen. simpl in Hlen. lia. }
  assert (exists p, n = S p) as [p Hp].
  { destruct n; [|eauto]. by rewrite take_0 in Hlast. }
  assert (tail !! p = Some a) as Ha by (rewrite Hp in Hlast; apply last_take in Hlast; [done|lia]).
  destruct (tail !! n) as [b|] eqn:Hb.
  2: { apply lookup_ge_None in Hb. lia. }
  destruct (is_split_pair a b) eqn:Hpair.
  2: { exists n. split_and!; [done|lia|]. intros (a' & b' & _ & Ha' & Hb' & Hx).
       replace (n - 1) with p in Ha' by lia. congruence. }
  case_decide as Hend.
  - exists p. split_and!; [|lia|].
    + rewrite Hp, removelast_firstn_len, length_take, take_take. f_equal. lia.
    + intros (a' & b' & Hp0 & Ha' & Hb' & Hx). rewrite Ha in Hb'. simplify_eq.
      by rewrite (is_split_pair_left _ _ a' Hpair) in Hx.
  - exists (S n). split_and!; [by rewrite (take_S_r _ _ b)|lia|].
    intros (a' & b' & _ & Ha' & Hb' & Hx). replace (S n - 1) with n in Ha' by lia.
    rewrite Hb in Ha'. simplify_eq. by rewrite (is_split_pair_middle _ _ b' Hpair) in Hx.
Qed.

Lemma removelast_sublist {A} (l : list A) : sublist (removelast l) l.
Proof. rewrite removelast_firstn_len. apply sublist_take. Qed.

Lemma total_chars_sublist l k : sublist l k -> (total_chars l <= total_chars k)%Z.
Proof.
  induction 1 as [|x l k _ IH|x l k _ IH]; rewrite ?total_chars_cons; [done|lia|].
  pose proof (str_len_nonneg (am_content x)). lia.
Qed.

Lemma total_chars_app l k : total_chars (l ++ k) = (total_chars l + total_chars k)%Z.
Proof. unfold total_chars. by rewrite fmap_app, sum_Z_app. Qed.

(** The segment stays within the budget, except for a first message too long
    for it and for the note of an interrupted answer. *)
Lemma select_compact_segment_bound tail target m :
  head tail = Some m ->
  (total_chars (select_compact_segment tail target) <=
     Z.max (str_len (am_content m)) target + str_len INTERRUPTED_NOTE)%Z.
Proof.
  intros Hm. unfold select_compact_segment. set (seg := take_segment target 0 false (removelast tail)).
  pose proof (str_len_nonneg INTERRUPTED_NOTE) as Hnote.
  assert (total_chars seg <= Z.max (str_len (am_content m)) target)%Z as Hseg.
  { unfold seg. destruct tail as [|m' [|m2 l]]; [done| |]; injection Hm as ->.
    - pose proof (str_len_nonneg (am_content m)). unfold total_chars. simpl. lia.
    - pose proof (take_segment_fits target (str_len (am_content m))
        (removelast (m2 :: l))).
      change (removelast (m :: m2 :: l)) with (m :: removelast (m2 :: l)).
      rewrite take_segment_started, total_chars_cons. lia. }
  destruct (last seg) as [a|], (tail !! length seg) as [b|]; try lia.
  destruct (is_split_pair a b) eqn:Hp; [|lia]. case_decide.
  - pose proof (total_chars_sublist _ _ (removelast_sublist seg)). lia.
  - rewrite total_chars_app. unfold is_split_pair in Hp.
    rewrite !andb_true_iff, !bool_decide_eq_true in Hp. destruct Hp as [_ Hb].
    unfold total_chars at 2. simpl. rewrite Hb. lia.
Qed.

(** Progress: a tail of two ordinary messages or more always gives a segment. *)
Lemma select_compact_segment_progress tail target a b c l :
  tail = a :: b :: c :: l -> select_compact_segment tail target <> [].
Proof.
  intros ->. unfold select_compact_segment.
  set (seg := take_segment target 0 false (removelast (a :: b :: c :: l))).
  assert (exists r, seg = a :: r) as [r Hr] by (unfold seg; simpl; eauto).
  rewrite Hr. destruct (last (a :: r)) as [x|]; [|done].
  destruct ((a :: b :: c :: l) !! length (a :: r)) as [y|]; [|done].
  destruct (is_split_pair x y); [|done]. case_decide as Hd; [|done].
  destruct r as [|r0 r]; [|done]. simpl in Hd. lia.
Qed.

(** ** The port, as the actor sees it *)

(** [ContextCompactor]: the operations, over the state [S] of the process. *)
Record ContextCompactor (S : Type) := {
  cc_assemble : Dialog -> (S -> list ChatMessage) -> M S Exn AssembledContext;
  cc_compacted_boundary : pystr -> M S Exn Z;
  cc_compact_now : Dialog -> M S Exn bool;
  cc_aclose : pystr -> M S Exn unit }.
Arguments cc_assemble {S}. Arguments cc_compacted_boundary {S}. Arguments cc_compact_now {S}.
Arguments cc_aclose {S}.

(** What the actor trims by: the tail is a suffix of the narrative as it was
    at some moment of the call, of the reported length. *)
Definition assembled_from (history : list ChatMessage) (ac : AssembledContext) : Prop :=
  ac_snapshot_len ac = length history /\ ac_tail_count ac <= length history /\
  exists block, ac_messages ac = block ++ drop (length history - ac_tail_count ac) history /\
                length block <= 1.

(** [R] is what the rest of the process does to the state meanwhile. *)
Class CompactorLaws {S} (c : ContextCompactor S) (R : S -> S -> Prop) := {
  assemble_law dialog history s ac s' :
    cc_assemble c dialog history s = (Ok ac, s') ->
    exists s1, assembled_from (history s1) ac /\ R s s1 /\ R s1 s' }.

Section Noop.
Context {S : Type}.

(** [NoopContextCompactor] *)
Definition noop_compactor : ContextCompactor S :=
  {| cc_assemble _ history := gets (fun s =>
       {| ac_messages := history s; ac_tail_count := length (history s);
          ac_snapshot_len := length (history s) |});
     cc_compacted_boundary _ := ret NO_COMPACTED_SEQ;
     cc_compact_now _ := ret false;
     cc_aclose _ := ret tt |}.

#[global] Instance noop_laws R `{!Reflexive R} : CompactorLaws noop_compactor R.
Proof.
  constructor. intros dialog history s ac s' [= <- <-]. exists s. unfold assembled_from. simpl.
  split; [|by split]. split_and!; [done|done|]. exists []. rewrite Nat.sub_diag. by split; [|simpl; lia].
Qed.
End Noop.

(** ** One compaction per dialog *)

(** The [asyncio] tasks of the compactor: [running] is its dictionary, [live]
    the tasks neither done nor cancelled, each with its dialog. *)
Record Guard := {
  running : gmap pystr N;
  live : gmap N pystr;
  next_task : N }.

(** [_start_compact]: the dialog's live task, or a new one. *)
Definition start_compact (dialog_id : pystr) (g : Guard) : N * Guard :=
  match running g !! dialog_id with
  | Some task =>
      match live g !! task with
      | Some _ => (task, g)
      | None => (next_task g, {| running := <[dialog_id := next_task g]> (running g);
                                 live := <[next_task g := dialog_id]> (live g);
                                 next_task := (next_task g + 1)%N |})
      end
  | None => (next_task g, {| running := <[dialog_id := next_task g]> (running g);
                             live := <[next_task g := dialog_id]> (live g);
                             next_task := (next_task g + 1)%N |})
  end.

(** A task ends: it is done, and [_on_compact_done] takes it off the
    dictionary unless a newer one is registered. *)
Definition on_compact_done (dialog_id : pystr) (task : N) (g : Guard) : Guard :=
  {| running := if decide (running g !! dialog_id = Some task) then delete dialog_id (running g)
                else running g;
     live := delete task (live g); next_task := next_task g |}.

(** [aclose] up to its [await]: unregistered, then cancelled. *)
Definition aclose (dialog_id : pystr) (g : Guard) : Guard :=
  match running g !! dialog_id with
  | None => g
  | Some task => {| running := delete dialog_id (running g); live := delete task (live g);
                    next_task := next_task g |}
  end.

Inductive guard_step : Guard -> Guard -> Prop :=
| GStart d g : guard_step g (start_compact d g).2
| GDone d task g : live g !! task = Some d -> guard_step g (on_compact_done d task g)
| GClose d g : guard_step g (aclose d g).

(** Every live task is the one registered for its dialog. *)
Definition guard_ok (g : Guard) : Prop :=
  (forall task d, live g !! task = Some d -> running g !! d = Some task) /\
  (forall task d, live g !! task = Some d -> (task < next_task g)%N).

Lemma start_fresh_ok d g :
  guard_ok g -> (forall task, running g !! d = Some task -> live g !! task = None) ->
  guard_ok {| running := <[d := next_task g]> (running g); live := <[next_task g := d]> (live g);
              next_task := (next_task g + 1)%N |}.
Proof.
  intros [Hreg Hlt] Hdead. split; simpl; intros task d' [[<- <-]|[Hne Hl]]%lookup_insert_Some.
  - by rewrite lookup_insert_eq.
  - rewrite lookup_insert_ne; [by apply Hreg|]. intros ->.
    specialize (Hreg _ _ Hl). by rewrite (Hdead _ Hreg) in Hl.
  - lia.
  - specialize (Hlt _ _ Hl). lia.
Qed.

Lemma guard_step_ok g g' : guard_step g g' -> guard_ok g -> guard_ok g'.
Proof.
  intros Hstep Hok. destruct Hstep as [d g|d task g Hl|d g].
  - unfold start_compact. destruct (running g !! d) as [t|] eqn:Hr.
    + destruct (live g !! t) eqn:Hl; [done|]. apply start_fresh_ok; [done|]. naive_solver.
    + apply start_fresh_ok; [done|]. naive_solver.
  - destruct Hok as [Hreg Hlt]. unfold on_compact_done. split; simpl; intros t d' Ht;
      rewrite lookup_delete_Some in Ht; destruct Ht as [Hne Ht]; [|by eapply Hlt].
    specialize (Hreg _ _ Ht). case_decide as Hd; [|done]. rewrite lookup_delete_ne; [done|].
    intros ->. congruence.
  - unfold aclose. destruct (running g !! d) as [task|] eqn:Hr; [|done].
    destruct Hok as [Hreg Hlt]. split; simpl; intros t d' Ht;
      rewrite lookup_delete_Some in Ht; destruct Ht as [Hne Ht]; [|by eapply Hlt].
    specialize (Hreg _ _ Ht). rewrite lookup_delete_ne; [done|]. intros ->. congruence.
Qed.

(** Two compactions of one dialog never run at the same time. *)
Lemma one_compaction_per_dialog g t1 t2 d :
  star guard_step {| running := ∅; live := ∅; next_task := 0 |} g ->
  live g !! t1 = Some d -> live g !! t2 = Some d -> t1 = t2.
Proof.
  intros Hstar H1 H2. assert (guard_ok g) as [Hreg _].
  { eapply (star_invariant guard_step guard_ok); [|exact Hstar|].
    - intros a b Ha Hab. by eapply guard_step_ok.
    - split; intros t d'; simpl; by rewrite lookup_empty. }
  apply Hreg in H1, H2. congruence.
Qed.

(** ** [LlmContextCompactor] *)

Section Llm.
Context {S D : Type} `{HasConn S D} `{HasTable D MessageRow} `{HasTable D DialogueSummary}.

(** The model behind [LLMClient.complete], the usage recorder (or none) and
    the character mappings of the interpreter. *)
Context (complete : list ChatMessage -> M S Exn (ChatMessage * option Usage)).
Context (meter : option (UsageEvent -> M S Exn unit)).
Context (str_upper str_lower : pystr -> pystr).
Context (config : CompactorConfig).

(** The compactor's own tasks: starting one, and its effect on the state. *)
Context (guard_of : S -> Guard) (set_guard : Guard -> S -> S).

(** What the other tasks of the process do while the k-th [await] of a
    method is pending. *)
Context (others : nat -> S -> S).
Definition await_point (k : nat) : M S Exn unit := modify (others k).

(** How the compaction task awaited at the k-th [await] ended. *)
Context (awaited : nat -> Res Exn unit).
Definition await_task (k : nat) : M S Exn unit := await_point k ;;; (fun s => (awaited k, s)).

Definition summaries_now (dialog_id : pystr) : M S Exn (list DialogueSummary) :=
  on_conn (read_session (on_table (list_for_dialog dialog_id))).
Definition max_seq_now (dialog_id : pystr) : M S Exn Z :=
  on_conn (read_session (on_table (max_seq_to dialog_id))).
Definition hot_tail_now (dialog_id : pystr) : M S Exn (nat * Z) :=
  on_conn (read_session (fun d : D =>
    on_table (count_hot_tail (table d) dialog_id) d)).
Definition tail_now (dialog_id : pystr) (seq : Z) (limit : option nat)
    : M S Exn (list ArchivedMessage) :=
  on_conn (read_session (on_table (tail_after dialog_id seq limit))).
Definition prompt_tokens_now (dialog_id : pystr) (after_seq : Z) : M S Exn (option Z) :=
  on_conn (read_session (on_table (latest_prompt_tokens dialog_id after_seq))).

(** [max((s.seq_to for s in summaries), default=NO_COMPACTED_SEQ)] *)
Definition covered (summaries : list DialogueSummary) : Z :=
  max_of sm_seq_to NO_COMPACTED_SEQ summaries.

(** [asyncio.gather] of two reads: they reach the database in some order. *)
Definition gather {A B} (left_first : bool) (a : M S Exn A) (b : M S Exn B) : M S Exn (A * B) :=
  if left_first
  then let! x := a in await_point 0 ;;; let! y := b in ret (x, y)
  else let! y := b in await_point 0 ;;; let! x := a in ret (x, y).

Definition token_overflow (dialog : Dialog) (after_seq : Z) : M S Exn bool :=
  if (model_context_tokens config <=? 0)%Z then ret false
  else
    await_point 3 ;;;
    let! prompt_tokens := prompt_tokens_now (dlg_id dialog) after_seq in
    match prompt_tokens with
    | None => ret false
    | Some tokens =>
        ret (model_context_tokens config - context_buffer_tokens config <=? tokens)%Z
    end.

Definition trigger_compact (dialog : Dialog) : M S Exn unit :=
  modify (fun s => set_guard (start_compact (dlg_id dialog) (guard_of s)).2 s).

(** The part of [assemble] up to its snapshot: the summaries and the counter. *)
Definition read_boundary (left_first : bool) (dialog_id : pystr)
    : M S Exn (list DialogueSummary * nat * Z) :=
  let! ' (summaries, (tail_count, counted_boundary)) :=
    gather left_first (summaries_now dialog_id) (hot_tail_now dialog_id) in
  await_point 1 ;;;
  if decide (counted_boundary <> covered summaries) then
    let! summaries := summaries_now dialog_id in
    await_point 2 ;;;
    ret (summaries, tail_count, covered summaries)
  else ret (summaries, tail_count, covered summaries).

Definition assemble (left_first : bool) (dialog : Dialog) (history : S -> list ChatMessage)
    : M S Exn AssembledContext :=
  let! ' (summaries, tail_count, max_seq_to) := read_boundary left_first (dlg_id dialog) in
  let! snapshot := gets history in
  let tail := tail_of snapshot tail_count in
  let! overflow :=
    (if (hot_max_chars config <? chars tail)%Z then ret true
     else token_overflow dialog max_seq_to) in
  when overflow (trigger_compact dialog) ;;;
  ret {| ac_messages := match summaries with [] => tail | _ => topics_block summaries :: tail end;
         ac_tail_count := length tail; ac_snapshot_len := length snapshot |}.

Definition summarize (new_id : pystr) (now : time) (dialog : Dialog)
    (segment : list ArchivedMessage) (previous : list DialogueSummary)
    : M S Exn DialogueSummary :=
  let! ' (message, usage) :=
    complete [chat_message MessageRole.SYSTEM SUMMARY_SYSTEM_PROMPT;
              chat_message MessageRole.USER (format_merge_request previous segment)] in
  match meter, usage with
  | Some record, Some usage =>
      record {| ue_user_id := dlg_user_id dialog; ue_kind := UsageKind.LLM_COMPACTION;
                ue_origin := UsageOrigin.INTERACTIVE; ue_prompt_tokens := prompt_tokens usage;
                ue_completion_tokens := completion_tokens usage; ue_quantity := 0;
                ue_dialog_id := Some (dlg_id dialog); ue_exchange_id := None;
                ue_task_id := None; ue_created_at := None |}
  | _, _ => ret tt
  end ;;;
  let '(topics, content) := parse_summary_reply str_upper str_lower (cm_content message) in
  match head segment, last segment with
  | Some first, Some final =>
      ret {| sm_id := new_id; sm_dialog_id := dlg_id dialog;
             sm_seq_from := foldl Z.min (am_seq first) (sm_seq_from <$> previous);
             sm_seq_to := am_seq final; sm_topics := topics; sm_content := content;
             sm_created_at := now |}
  | _, _ => raise (OtherError "list index out of range")
  end.

Definition compact (new_id : pystr) (now : time) (dialog : Dialog) : M S Exn unit :=
  let! max_seq_to := max_seq_now (dlg_id dialog) in
  await_point 0 ;;;
  let! tail := tail_now (dlg_id dialog) max_seq_to (Some SEGMENT_FETCH_LIMIT) in
  let segment := select_compact_segment tail (compact_target_chars config) in
  match segment with
  | [] => ret tt
  | _ =>
      await_point 1 ;;;
      let! previous := summaries_now (dlg_id dialog) in
      let! summary := summarize new_id now dialog segment previous in
      on_conn (write_session (on_table (replace_for_dialog (dlg_id dialog) summary)))
  end.

(** A compaction started by this caller and run to its end, whatever that is. *)
Definition own_run (new_id : pystr) (now : time) (dialog : Dialog) : M S Exn unit :=
  let! g := gets guard_of in
  let task := (start_compact (dlg_id dialog) g).1 in
  let finish := modify (fun s => set_guard (on_compact_done (dlg_id dialog) task (guard_of s)) s) in
  trigger_compact dialog ;;;
  try_except (compact new_id now dialog) (fun e => finish ;;; raise e) ;;;
  finish.

(** [compact_now]: a live compaction is awaited first, its cancellation (only)
    suppressed; then the guard is asked again, and either a newer run is
    awaited or one of our own is. *)
Definition compact_now (new_id : pystr) (now : time) (dialog : Dialog) : M S Exn bool :=
  let d := dlg_id dialog in
  let registered_live s :=
    match running (guard_of s) !! d with
    | Some task => bool_decide (is_Some (live (guard_of s) !! task))
    | None => false
    end in
  let start_and_wait (before : Z) : M S Exn bool :=
    let! busy := gets registered_live in
    let! ok := except_exception ((if busy then await_task 5 else own_run new_id now dialog) ;;; ret true)
                 (fun _ => ret false) in
    if ok then let! after := max_seq_now d in ret (before <? after)%Z else ret false in
  let! before := max_seq_now d in
  await_point 2 ;;;
  let! busy := gets registered_live in
  if busy then
    suppress (fun e => negb (is_exception e)) (await_task 3) ;;;
    let! after := max_seq_now d in
    if (before <? after)%Z then ret true else await_point 4 ;;; start_and_wait before
  else start_and_wait before.

(** ** Laws *)

(** Between calls: no unit of work around, no failing database. *)
Definition idle (s : S) : Prop := faults (conn_of s) = [] /\ live_session (conn_of s) = None.
Definition log_at (d : pystr) (s : S) : list MessageRow := in_dialog d (table (committed (conn_of s))).
Definition summaries_at (d : pystr) (s : S) : list DialogueSummary :=
  select_where (fun m => sm_dialog_id m = d) (table (committed (conn_of s))).
Definition boundary_at (d : pystr) (s : S) : Z := boundary_of (table (committed (conn_of s))) d.

Lemma read_idle {A} (body : M D Exn A) s :
  idle s -> on_conn (read_session body) s = ((body (committed (conn_of s))).1, s).
Proof.
  intros [Hf Hl]. unfold on_conn, read_session, borrow_enter. rewrite Hl.
  unfold execute, round_trip. rewrite Hf. destruct (body _) as [r d']. simpl. by rewrite set_same.
Qed.

Lemma on_table_gets {R A} `{HasTable D R} (f : list R -> A) d :
  (on_table (gets f) d).1 = Ok (f (table d)).
Proof. done. Qed.

Lemma summaries_idle d s :
  idle s -> summaries_now d s = (Ok (order_by sm_seq_from (summaries_at d s)), s).
Proof. intros Hs. unfold summaries_now. by rewrite read_idle. Qed.
Lemma max_seq_idle d s : idle s -> max_seq_now d s = (Ok (boundary_at d s), s).
Proof. intros Hs. unfold max_seq_now. by rewrite read_idle. Qed.
Lemma hot_tail_idle d s :
  idle s -> hot_tail_now d s =
    (Ok (length (filter (fun r => (boundary_at d s < mr_seq r)%Z) (log_at d s)), boundary_at d s), s).
Proof. intros Hs. unfold hot_tail_now. by rewrite read_idle. Qed.

Lemma covered_order d s : covered (order_by sm_seq_from (summaries_at d s)) = boundary_at d s.
Proof.
  unfold covered, boundary_at, boundary_of, summaries_at.
  generalize (select_where (fun m => sm_dialog_id m = d) (table (committed (conn_of s)))) as l.
  intros l. destruct (decide (l = [])) as [->|Hne]; [done|].
  assert (order_by sm_seq_from l <> []) as Hne'.
  { intros Hn. apply Hne. apply length_zero_iff_nil. by rewrite <-(length_order_by sm_seq_from), Hn. }
  destruct (max_of_in sm_seq_to NO_COMPACTED_SEQ _ Hne) as (a & Ha & Hae).
  destruct (max_of_in sm_seq_to NO_COMPACTED_SEQ _ Hne') as (b & Hb & Hbe).
  pose proof (max_of_ge sm_seq_to NO_COMPACTED_SEQ l b ltac:(by apply elem_of_order_by in Hb)).
  pose proof (max_of_ge sm_seq_to NO_COMPACTED_SEQ (order_by sm_seq_from l) a
                ltac:(by apply elem_of_order_by)). lia.
Qed.

(** Between two awaits other tasks may summarise more, never less. *)
Definition boundary_grows (d : pystr) : Prop :=
  forall k s, idle s -> idle (others k s) /\ (boundary_at d s <= boundary_at d (others k s))%Z.

(** The states [assemble] reads, from [s] where it is called: the tail is
    counted and the summaries are listed in one order or the other; where the
    two boundaries differ the summaries are listed again; and then the
    narrative is looked at. *)
Section Reads.
Context (left_first : bool) (d : pystr) (s : S).
Definition counted_in : S := if left_first then others 0 s else s.
Definition listed_in : S := if left_first then s else others 0 s.
Definition boundary_moved : Prop := boundary_at d counted_in <> boundary_at d listed_in.
Definition told_in : S := if decide boundary_moved then others 1 (others 0 s) else listed_in.
Definition seen_in : S := if decide boundary_moved then others 2 (others 1 (others 0 s)) else others 1 (others 0 s).
Definition told : list DialogueSummary := order_by sm_seq_from (summaries_at d told_in).
Definition hot_rows : list MessageRow :=
  filter (fun r => (boundary_at d counted_in < mr_seq r)%Z) (log_at d counted_in).
End Reads.

(** The summaries the prompt is built from cover everything the tail counter
    left out. *)
Lemma read_boundary_spec left_first d s :
  idle s -> boundary_grows d ->
  read_boundary left_first d s =
    (Ok (told left_first d s, length (hot_rows left_first d s), covered (told left_first d s)), seen_in left_first d s) /\
  idle (seen_in left_first d s) /\
  (boundary_at d (counted_in left_first s) <= covered (told left_first d s))%Z.
Proof.
  intros Hs Hgrow. destruct (Hgrow 0 s Hs) as [Hs0 Hb0]. destruct (Hgrow 1 _ Hs0) as [Hs1 Hb1].
  destruct (Hgrow 2 _ Hs1) as [Hs2 _]. unfold told. rewrite covered_order.
  unfold read_boundary, gather, told_in, seen_in, hot_rows, boundary_moved, counted_in, listed_in.
  destruct left_first; unfold bind, await_point, modify, ret;
    [rewrite summaries_idle, hot_tail_idle by done|rewrite hot_tail_idle, summaries_idle by done];
    rewrite ?covered_order; (repeat case_decide; try done); rewrite ?summaries_idle by done; rewrite ?covered_order;
    (split_and!; [done|done|lia]).
Qed.

Lemma tail_of_suffix history n :
  tail_of history n = drop (length history - Nat.min n (length history)) history /\
  length (tail_of history n) = Nat.min n (length history).
Proof. unfold tail_of. rewrite length_drop. split; [done|lia]. Qed.

Lemma snapshot_shape history (summaries : list DialogueSummary) n :
  assembled_from history
    {| ac_messages := match summaries with [] => tail_of history n
                      | _ => topics_block summaries :: tail_of history n end;
       ac_tail_count := length (tail_of history n); ac_snapshot_len := length history |}.
Proof.
  destruct (tail_of_suffix history n) as [Ht Hl]. unfold assembled_from. simpl. rewrite Hl.
  split_and!; [done|lia|]. rewrite <-Ht.
  exists (match summaries with [] => [] | _ => [topics_block summaries] end).
  destruct summaries; simpl; split; (done || lia).
Qed.

Section Shape.
Context (R : S -> S -> Prop) `{!PreOrder R}.
Context (Hothers : forall k s, R s (others k s)) (Hguard : forall g s, R s (set_guard g s)).
Context (Hconn : forall c s, R s (set_conn c s)).

Lemma evolves_on_conn {A} (m : M (Conn D) Exn A) : evolves R (on_conn m).
Proof. intros s. unfold on_conn. destruct (m (conn_of s)) as [r c]. apply Hconn. Qed.

Lemma evolves_overflow dialog after : evolves R (token_overflow dialog after).
Proof.
  unfold token_overflow. case_match; [keep_auto|].
  apply evolves_bind; [done|intros s; apply Hothers|]. intros _.
  apply evolves_bind; [done|apply evolves_on_conn|]. intros []; keep_auto.
Qed.

Lemma evolves_boundary left_first dialog_id : evolves R (read_boundary left_first dialog_id).
Proof.
  assert (forall k, evolves R (await_point k)) as Hawait by (intros k s; apply Hothers).
  unfold read_boundary, gather, summaries_now, hot_tail_now.
  apply evolves_bind; [done| |].
  - destruct left_first; repeat (apply evolves_bind; [done|apply evolves_on_conn || apply Hawait|intros ?]);
      apply evolves_ret, _.
  - intros [summaries [n b]]. apply evolves_bind; [done|apply Hawait|intros []].
    case_decide; [|apply evolves_ret, _].
    apply evolves_bind; [done|apply evolves_on_conn|intros ?].
    apply evolves_bind; [done|apply Hawait|intros []]. apply evolves_ret, _.
Qed.

Lemma assemble_shape left_first dialog history s ac s' :
  assemble left_first dialog history s = (Ok ac, s') ->
  exists s1, assembled_from (history s1) ac /\ R s s1 /\ R s1 s'.
Proof.
  unfold assemble. unfold bind at 1. pose proof (evolves_boundary left_first (dlg_id dialog) s) as Hread.
  destruct (read_boundary left_first (dlg_id dialog) s) as [[[[summaries n] b]|e] s1]; [|done].
  unfold bind at 1, gets. intros Hrun. exists s1.
  set (overflow := if (_ <? _)%Z then _ else _) in Hrun.
  assert (evolves R overflow) as Hov by (unfold overflow; destruct (_ <? _)%Z; [apply evolves_ret; exact _|apply evolves_overflow]).
  assert (forall o, evolves R (when o (trigger_compact dialog))) as Hwhen.
  { intros o. apply evolves_when; [done|]. intros s2. apply Hguard. }
  specialize (Hov s1). unfold bind in Hrun. destruct (overflow s1) as [[o|e] s2]; [|done].
  specialize (Hwhen o s2). destruct (when o (trigger_compact dialog) s2) as [[[]|e] s3]; [|done].
  unfold ret in Hrun. injection Hrun as <- <-. split_and!; [apply snapshot_shape|done|by etrans].
Qed.
End Shape.

Lemma token_overflow_idle dialog after s :
  idle s -> (forall k s, idle s -> idle (others k s)) ->
  exists b s', token_overflow dialog after s = (Ok b, s').
Proof.
  intros Hs Hothers. unfold token_overflow. case_match; [by eexists _, _|].
  unfold bind, await_point, modify, prompt_tokens_now. rewrite read_idle by by apply Hothers.
  simpl. destruct (last _ ≫= _); by eexists _, _.
Qed.

Lemma tail_of_counted (older l : list ChatMessage) : tail_of (older ++ l) (length l) = l.
Proof.
  unfold tail_of. rewrite length_app. replace (Nat.min (length l) (length older + length l)) with (length l) by lia.
  rewrite Nat.add_sub. apply drop_app_length.
Qed.

(** C20: What [assemble] puts together, whichever of its two reads comes first
    and whatever compaction commits in between: the topics block of the
    summaries as it last listed them, listed again where the counter had seen
    another boundary, and as many messages from the end of the narrative as
    the counter counted.  The summaries cover all the counter left out, so
    where the narrative still ends with the messages counted, each message of
    the log is covered by the summaries or is in the prompt. *)
Lemma assemble_spec left_first dialog history s :
  idle s -> boundary_grows (dlg_id dialog) ->
  let d := dlg_id dialog in
  let summaries := told left_first d s in
  let snapshot := history (seen_in left_first d s) in
  let tail := tail_of snapshot (length (hot_rows left_first d s)) in
  exists ac s',
    assemble left_first dialog history s = (Ok ac, s') /\
    ac_messages ac = match summaries with [] => [] | _ => [topics_block summaries] end ++ tail /\
    ac_tail_count ac = length tail /\ ac_snapshot_len ac = length snapshot /\
    assembled_from snapshot ac /\
    (boundary_at d (counted_in left_first s) <= covered summaries)%Z /\
    (forall older show, snapshot = older ++ (show <$> hot_rows left_first d s) ->
       forall r, r ∈ log_at d (counted_in left_first s) ->
         (mr_seq r <= covered summaries)%Z \/ show r ∈ ac_messages ac).
Proof.
  intros Hs Hgrow d summaries snapshot tail.
  destruct (read_boundary_spec left_first d s Hs Hgrow) as (Hread & Hs1 & Hb).
  unfold assemble. unfold bind at 1. fold d. rewrite Hread. unfold bind at 1, gets. fold summaries snapshot tail.
  destruct (token_overflow_idle dialog (covered summaries) _ Hs1 ltac:(intros; by apply Hgrow))
    as (b & s2 & Htok).
  assert (exists b s2, (if (hot_max_chars config <? chars tail)%Z then ret true
            else token_overflow dialog (covered summaries)) (seen_in left_first d s) = (Ok b, s2)) as (b' & s2' & Hov).
  { case_match; [by eexists _, _|eauto]. }
  unfold bind at 1. rewrite Hov. unfold bind, when.
  set (ac := {| ac_messages := match summaries with [] => tail | _ => topics_block summaries :: tail end;
                ac_tail_count := length tail; ac_snapshot_len := length snapshot |}).
  assert (ac_messages ac = match summaries with [] => [] | _ => [topics_block summaries] end ++ tail) as Hmsgs
    by (unfold ac; by destruct summaries).
  assert (assembled_from snapshot ac) as Hac by apply snapshot_shape.
  assert (forall older show, snapshot = older ++ (show <$> hot_rows left_first d s) ->
    forall r, r ∈ log_at d (counted_in left_first s) -> (mr_seq r <= covered summaries)%Z \/ show r ∈ ac_messages ac) as Hgap.
  2: { exists ac. destruct b'; eexists; (split; [reflexivity|]); by split_and!. }
  intros older show Hsnap r Hr. destruct (decide (boundary_at d (counted_in left_first s) < mr_seq r)%Z) as [Hlt|Hle]; [right|left; apply Z.nlt_ge in Hle; by etrans].
  rewrite Hmsgs. apply elem_of_app. right. unfold tail. rewrite Hsnap. rewrite <-(length_fmap show), tail_of_counted.
  apply list_elem_of_fmap_2. unfold hot_rows. by apply list_elem_of_filter.
Qed.

(** ** A compaction *)

(** What may happen to a dialog while its one compaction is suspended: the
    log grows at its end; the summaries are the compaction's own business. *)
Record sound (new_id d : pystr) (s : S) : Prop := {
  sound_idle : idle s;
  sound_log : messages_ok (table (committed (conn_of s)));
  sound_id : new_id ∉ (sm_id <$> table (committed (conn_of s)) : list pystr);
  sound_seq : Forall (fun m => 0 <= sm_seq_to m)%Z (table (committed (conn_of s)) : list DialogueSummary) }.
Definition steady (new_id d : pystr) (s s' : S) : Prop :=
  sound new_id d s -> sound new_id d s' /\ log_at d s `prefix_of` log_at d s' /\
  summaries_at d s' = summaries_at d s.
#[local] Instance steady_preorder new_id d : PreOrder (steady new_id d).
Proof.
  unfold steady. split; [by intros s|]. intros a b c Hab Hbc Ha.
  destruct (Hab Ha) as (Hb & Hl & Hs). destruct (Hbc Hb) as (Hc & Hl' & Hs').
  split_and!; [done|by etrans|congruence].
Qed.

Lemma steady_read {A} new_id d (body : M D Exn A) :
  evolves (steady new_id d) (on_conn (read_session body)).
Proof. intros s Hs. rewrite read_idle by apply Hs. done. Qed.

Lemma boundary_at_eq d s s' : summaries_at d s' = summaries_at d s -> boundary_at d s' = boundary_at d s.
Proof. unfold boundary_at, boundary_of, summaries_at. by intros ->. Qed.

Lemma boundary_nonneg new_id d s : sound new_id d s -> (0 <= boundary_at d s)%Z.
Proof.
  intros Hs. unfold boundary_at, boundary_of.
  destruct (decide (select_where (fun m => sm_dialog_id m = d) (table (committed (conn_of s))) = []))
    as [->|Hne]; [done|].
  destruct (max_of_in sm_seq_to NO_COMPACTED_SEQ _ Hne) as (m & Hm & ->).
  apply elem_of_select in Hm as [_ Hm]. pose proof (sound_seq _ _ _ Hs) as Hall.
  rewrite Forall_forall in Hall. by apply Hall.
Qed.

(** The archived form of the rows of a dialog, and their seqs. *)
Lemma mapM_archived rows l :
  mapM to_archived rows = Some l -> am_seq <$> l = mr_seq <$> rows.
Proof.
  revert l. induction rows as [|r rows IH]; intros l; [by intros [= <-]|]. cbn.
  destruct (to_archived r) as [a|] eqn:Ha; [|done]. cbn.
  destruct (mapM to_archived rows) as [k|]; [|done]. intros [= <-]. cbn. f_equal; [|by apply IH].
  unfold to_archived in Ha. destruct (MessageRole.of_value (mr_role r)); by simplify_eq/=.
Qed.

(** The last message of a prefix of the tail sits at its place in the log. *)
Lemma segment_last_seq d b (s : S) rows tail n m :
  messages_ok (table (committed (conn_of s))) -> (0 <= b)%Z ->
  rows = take SEGMENT_FETCH_LIMIT (select_after d b (table (committed (conn_of s)))) ->
  mapM to_archived rows = Some tail -> n <= length tail - 1 -> last (take n tail) = Some m ->
  am_seq m = (b + Z.of_nat n)%Z /\ (b + Z.of_nat n < Z.of_nat (length (log_at d s)))%Z.
Proof.
  intros Hok Hb -> Hmap Hn Hlast. pose proof (mapM_archived _ _ Hmap) as Hseqs.
  destruct n as [|n]; [by rewrite take_0 in Hlast|].
  assert (length tail = length (take SEGMENT_FETCH_LIMIT (select_after d b
    (table (committed (conn_of s)))))) as Hlen.
  { rewrite <-(length_fmap am_seq), Hseqs. apply length_fmap. }
  apply last_take in Hlast; [|lia].
  assert ((am_seq <$> tail) !! n = Some (am_seq m)) as Hx by (by rewrite list_lookup_fmap, Hlast).
  rewrite Hseqs, fmap_take, lookup_take_lt in Hx.
  2: { rewrite length_take in Hlen. apply lookup_lt_Some in Hlast. unfold SEGMENT_FETCH_LIMIT in *. lia. }
  rewrite select_after_drop, fmap_drop, lookup_drop in Hx by done.
  rewrite select_after_drop, length_take, length_drop in Hlen by done. unfold log_at. destruct Hok as (_ & _ & Hseq). specialize (Hseq d). rewrite Hseq in Hx.
  apply lookup_seqZ in Hx as [-> _].
  split; [lia|]. lia.
Qed.

Lemma write_idle {A} (body : M D Exn A) s a d :
  idle s -> body (committed (conn_of s)) = (Ok a, d) ->
  on_conn (write_session body) s = (Ok a, set_conn (with_committed d (conn_of s)) s).
Proof.
  intros [Hf Hl] Hb. unfold on_conn, write_session, borrow_enter. rewrite Hl.
  unfold execute, round_trip. rewrite Hf, Hb, Hf. done.
Qed.

Lemma replace_spec d summary (t : list DialogueSummary) :
  sm_id summary ∉ (sm_id <$> t) ->
  replace_for_dialog d summary t =
    (Ok tt, delete_where (fun m => sm_dialog_id m = d) t ++ [summary]).
Proof.
  intros Hid. unfold replace_for_dialog, bind, modify, insert_summary.
  destruct (find_key sm_id (sm_id summary) (delete_where _ t)) as [r|] eqn:Hr; [|done].
  exfalso. apply find_key_Some in Hr as [Hr Heq]. apply elem_of_delete_where in Hr as [_ Hr].
  apply Hid. rewrite <-Heq. by apply list_elem_of_fmap_2.
Qed.

Lemma select_replaced d summary (t : list DialogueSummary) :
  sm_dialog_id summary = d ->
  select_where (fun m => sm_dialog_id m = d)
    (delete_where (fun m => sm_dialog_id m = d) t ++ [summary]) = [summary].
Proof.
  intros Hd. unfold select_where, delete_where. rewrite filter_app, list_filter_filter.
  rewrite filter_none, filter_cons_True by (done || apply Forall_forall; tauto). done.
Qed.

Lemma foldl_min_le x l : (foldl Z.min x l <= x)%Z /\ Forall (fun y => foldl Z.min x l <= y)%Z l.
Proof.
  revert x. induction l as [|y l IH]; intros x; simpl; [split; [lia|constructor]|].
  destruct (IH (Z.min x y)) as [Hle Hall]. split; [lia|]. constructor; [lia|done].
Qed.

Section Compaction.
Context (dialog : Dialog) (new_id : pystr) (now : time).
Let d := dlg_id dialog.
Context `{!Apart D DialogueSummary MessageRow}.
Context (Hothers : forall k s, steady new_id d s (others k s)).
Context (Hcomplete : forall l, evolves (steady new_id d) (complete l)).
Context (Hmeter : forall record e, meter = Some record -> evolves (steady new_id d) (record e)).

Lemma steady_await k : evolves (steady new_id d) (await_point k).
Proof. intros s. apply Hothers. Qed.

Lemma steady_summarize segment previous :
  evolves (steady new_id d) (summarize new_id now dialog segment previous).
Proof.
  unfold summarize. apply evolves_bind; [apply _|apply Hcomplete|]. intros [message usage].
  apply evolves_bind; [apply _| |].
  - destruct meter as [record|] eqn:Hm; [|apply evolves_ret, _].
    destruct usage; [by apply Hmeter|apply evolves_ret, _].
  - intros _. destruct (parse_summary_reply _ _ _). repeat case_match; keep_auto.
Qed.

Lemma summarize_Ok segment previous s summary s' :
  summarize new_id now dialog segment previous s = (Ok summary, s') ->
  sm_id summary = new_id /\ sm_dialog_id summary = d /\
  (exists m, last segment = Some m /\ sm_seq_to summary = am_seq m) /\
  Forall (fun p => sm_seq_from summary <= sm_seq_from p)%Z previous.
Proof.
  unfold summarize, bind. destruct (complete _ s) as [[[message usage]|e] s1]; [|done].
  match goal with |- context [?m s1] => destruct (m s1) as [[[]|e] s2] end; [|done].
  destruct (parse_summary_reply _ _ _) as [topics content].
  destruct (head segment) as [a|], (last segment) as [m|]; try done.
  intros [= <- <-]. simpl. split_and!; [done|done|eauto|].
  destruct (foldl_min_le (am_seq a) (sm_seq_from <$> previous)) as [_ Hall].
  by rewrite Forall_fmap in Hall.
Qed.

(** C12: A compaction, whatever the model answers and whatever is appended while
    it waits, either leaves the dialog's summaries as they were or replaces
    them by one that covers a longer prefix of the log, from the same start;
    the log itself is never touched, and its last message stays outside. *)
Lemma compact_spec s :
  sound new_id d s ->
  let '(r, s') := compact new_id now dialog s in
  log_at d s `prefix_of` log_at d s' /\
  (summaries_at d s' = summaries_at d s \/
   r = Ok tt /\ exists summary n, summaries_at d s' = [summary] /\ 0 < n /\
     boundary_at d s' = (boundary_at d s + Z.of_nat n)%Z /\
     (boundary_at d s' < Z.of_nat (length (log_at d s')))%Z /\
     Forall (fun p => sm_seq_from summary <= sm_seq_from p)%Z (summaries_at d s)).
Proof.
  intros Hs. unfold compact. unfold bind at 1. rewrite max_seq_idle by apply Hs.
  set (b := boundary_at d s). assert (0 <= b)%Z as Hb by by eapply boundary_nonneg.
  unfold bind at 1. unfold await_point at 1, modify.
  destruct (Hothers 0 s Hs) as (Hs1 & Hl1 & Hsum1). set (s1 := others 0 s) in *.
  unfold bind at 1. unfold tail_now. rewrite read_idle by apply Hs1.
  unfold on_table, tail_after, to_archive.
  destruct (mapM to_archived _) as [tail|] eqn:Htail; simpl; [|split; [done|by left]].
  destruct (select_compact_segment_cut tail (compact_target_chars config)) as (n & Hseg & Hn & _).
  rewrite Hseg. destruct (take n tail) as [|m0 seg] eqn:Htake; [split; [done|by left]|].
  rewrite <-Htake. clear Hseg.
  unfold bind at 1, await_point, modify. destruct (Hothers 1 s1 Hs1) as (Hs2 & Hl2 & Hsum2).
  set (s2 := others 1 s1) in *. unfold bind at 1. rewrite summaries_idle by apply Hs2.
  unfold bind at 1. set (previous := order_by sm_seq_from (summaries_at (dlg_id dialog) s2)).
  pose proof (steady_summarize (take n tail) previous s2 Hs2) as (Hs3 & Hl3 & Hsum3).
  destruct (summarize new_id now dialog (take n tail) previous s2) as [[summary|e] s3] eqn:Hres;
    simpl in Hs3, Hl3, Hsum3.
  2: { split; [by do 2 (etrans; [done|])|]. left. congruence. }
  apply summarize_Ok in Hres as (Hid & Hd & (m & Hlast & Hto) & Hfrom).
  destruct (segment_last_seq d b s1 _ tail n m (sound_log _ _ _ Hs1) Hb eq_refl Htail Hn Hlast)
    as [Hm Hlt].
  assert (n <> 0) as Hn0 by (intros ->; by rewrite take_0 in Htake).
  destruct Hs3 as [Hidle3 Hok3 Hfresh3 _].
  pose proof (replace_spec d summary (table (committed (conn_of s3)))) as Hrep.
  rewrite (write_idle _ s3 tt (set_table (delete_where (fun m => sm_dialog_id m = d)
    (table (committed (conn_of s3))) ++ [summary]) (committed (conn_of s3)))); [|done|].
  2: { unfold on_table. fold d. rewrite Hrep; [done|]. by rewrite Hid. }
  set (s' := set_conn _ s3).
  assert (summaries_at d s' = [summary]) as Hsum'.
  { unfold summaries_at, s'. rewrite conn_set. simpl. rewrite table_set. by apply select_replaced. }
  assert (log_at d s' = log_at d s3) as Hlog'.
  { unfold log_at, s'. rewrite conn_set. simpl. by rewrite table_apart. }
  assert (boundary_at d s' = b + Z.of_nat n)%Z as Hb'.
  { unfold boundary_at, boundary_of. fold (summaries_at d s'). rewrite Hsum'. simpl. congruence. }
  rewrite Hlog', Hb'. split; [by do 2 (etrans; [done|])|]. right. split; [done|].
  exists summary, n. split_and!; [done|lia|done| |].
  - assert (length (log_at d s1) <= length (log_at d s3)); [|lia].
    apply prefix_length. by etrans.
  - rewrite <-Hsum1, <-Hsum2. apply Forall_forall. intros p Hp. rewrite Forall_forall in Hfrom.
    apply Hfrom. by apply elem_of_order_by.
Qed.
End Compaction.

(** The port implemented by [LlmContextCompactor]. *)
Definition llm_compactor (left_first : bool) (new_id : S -> pystr) (now : S -> time)
    : ContextCompactor S :=
  {| cc_assemble := assemble left_first;
     cc_compacted_boundary := max_seq_now;
     cc_compact_now dialog := fun s => compact_now (new_id s) (now s) dialog s;
     cc_aclose d := modify (fun s => set_guard (aclose d (guard_of s)) s) |}.
Lemma llm_laws left_first new_id now R `{!PreOrder R} :
  (forall k s, R s (others k s)) -> (forall g s, R s (set_guard g s)) ->
  (forall c s, R s (set_conn c s)) ->
  CompactorLaws (llm_compactor left_first new_id now) R.
Proof. intros ???. constructor. by apply assemble_shape. Qed.

(** [compact_now] promises a bool; but the failure of a compaction that was
    already in flight is not its caller's, and it comes out as it is: only
    its cancellation is suppressed. *)
Lemma compact_now_inherits_failure new_id now dialog s task e :
  idle s -> idle (others 2 s) ->
  running (guard_of (others 2 s)) !! dlg_id dialog = Some task ->
  is_Some (live (guard_of (others 2 s)) !! task) ->
  awaited 3 = Err e -> is_exception e = true ->
  exists s', compact_now new_id now dialog s = (Err e, s').
Proof.
  intros Hs Hs2 Hrun Hlive He Hexc. unfold compact_now. unfold bind at 1.
  rewrite max_seq_idle by done. unfold bind, await_point, modify, gets. rewrite Hrun.
  rewrite bool_decide_true by done. unfold suppress, try_except, await_task, bind, await_point, modify.
  rewrite He, Hexc. by eexists.
Qed.
End Llm.
