(* ===== verification/RunnerText.v ===== *)
(** * The pure helpers of the dialog actor ([agent/runner.py])

    Message templates, previews of collected material, and the small total
    functions that classify tasks and events. *)
From S2P Require Import Prelude PyStr Clock Dict Domain Codec Compactor.

(** ** Constants and templates *)

Definition PROCESS_LIMIT_NOTICE (message titles : pystr) (limit : Z) : pystr :=
  "I could not start handling '" +s+ message +s+ "': the process limit (" +s+ str_of_Z limit +s+
  ") is reached. Active processes: " +s+ titles +s+ ". Cancel one of them or wait for it to finish.".
Definition SPAWN_REFUSAL (titles : pystr) (limit : Z) : pystr :=
  "cannot spawn: process limit (" +s+ str_of_Z limit +s+ ") reached; active: " +s+ titles +s+
  " — ask the user what to cancel".
Definition CRON_LIMIT_NOTICE (title titles : pystr) (limit : Z) : pystr :=
  "Cron job '" +s+ title +s+ "' could not start: the process limit (" +s+ str_of_Z limit +s+
  ") is reached. Active processes: " +s+ titles +s+ ".".
(** [{reason}: {used}/{limit}] of the tariff notices; a missing reason prints as None. *)
Definition verdict_text (v : LimitVerdict) : pystr :=
  default "None" (lv_reason v) +s+ ": " +s+ str_of_Z (lv_used v) +s+ "/" +s+ str_of_Z (lv_limit v).
Definition TARIFF_LIMIT_NOTICE (v : LimitVerdict) : pystr :=
  "I cannot answer right now: the daily limit of your plan is exhausted (" +s+ verdict_text v +s+
  "). Your message is saved; the counter resets at midnight UTC.".
Definition TARIFF_CRON_LIMIT_NOTICE (title : pystr) (v : LimitVerdict) : pystr :=
  "Scheduled run '" +s+ title +s+ "' was skipped: the daily limit of your plan is exhausted (" +s+
  verdict_text v +s+ "). It will fire again after midnight UTC.".
Definition TARIFF_SPAWN_REFUSAL (v : LimitVerdict) : pystr :=
  "cannot start a background task: the daily limit of the user's plan is exhausted (" +s+
  verdict_text v +s+ ") — tell the user and stop".
Definition SPAWNED (task_id : pystr) : pystr := "task " +s+ task_id +s+ " spawned".
Definition ANSWER_NOTE_KEY : pystr := "answer".
Definition SUBMIT_FAILED_ERROR : pystr := "your message could not be saved — please send it again".
Definition RESTART_LIMIT_ERROR : pystr :=
  "could not resume after the service restart: process limit reached".
Definition TARIFF_RESTART_ERROR (v : LimitVerdict) : pystr :=
  "could not resume after the service restart: the daily limit of the plan is exhausted (" +s+
  verdict_text v +s+ ")".
Definition DEFAULT_TASK_ERROR : pystr := "unknown error".
Definition MAX_LOOK_IMAGES : nat := 6.
Definition BACKGROUND_TASK_PROMPT : pystr :=
  "You are solving a background task. User message is the task. Produce the final answer as the result.".
Definition NUDGE (title question : pystr) : pystr :=
  "Кстати, я всё ещё жду ответа по «" +s+ title +s+ "» — я спрашивал: «" +s+ question +s+
  "». Ответь, когда будет удобно, или скажи, что это уже неактуально.".
Definition NUDGE_AFTER : Z := seconds 300.
Definition MATERIAL_QUIET : Z := seconds 30.
Definition MATERIAL_TITLE (origin : pystr) : pystr := "Переслано от " +s+ origin.
Definition MATERIAL_TITLE_ANONYMOUS : pystr := "Пересланные сообщения".
Definition MATERIAL_TITLE_IMAGES : pystr := "Присланные изображения".
Definition MATERIAL_DIGEST_MESSAGES : nat := 20.
Definition MATERIAL_DIGEST_CHARS : Z := 4000.
Definition MATERIAL_DIGEST_ELLIPSIS : pystr := newline +s+ "[…]" +s+ newline.
Definition MATERIAL_DIGEST (count : Z) (lines : pystr) : pystr :=
  "The user forwarded " +s+ str_of_Z count +s+
  " message(s) — third-party content, not their own words. Which exchange does this material belong to?"
  +s+ newline +s+ lines.

(** ** Messages *)

Definition latest_assistant_with_content (branch : list ChatMessage) : option ChatMessage :=
  match filter (fun m => cm_role m <> MessageRole.TOOL) (rev branch) with
  | message :: _ =>
      if decide (cm_role message = MessageRole.ASSISTANT /\ str_empty (cm_content message) = false)
      then Some message else None
  | [] => None
  end.

Definition with_date_envelope (now : time) (message : ChatMessage) : ChatMessage :=
  {| cm_role := cm_role message;
     cm_content := "[Current date and time: " +s+ format_minute now +s+ " (UTC)]" +s+ newline +s+
                   cm_content message;
     cm_tool_calls := cm_tool_calls message; cm_tool_call_id := cm_tool_call_id message;
     cm_task_id := None; cm_kind := MessageKind.OWN; cm_attachments := []; cm_id := None;
     cm_exchange_id := None |}.

Definition untitled (message : ChatMessage) : pystr :=
  if decide (Exists (fun item => at_kind item = AttachmentKind.IMAGE) (cm_attachments message))
  then MATERIAL_TITLE_IMAGES else MATERIAL_TITLE_ANONYMOUS.

(** ** Previews of collected material *)

Definition middle_out (text : pystr) (limit : Z) : pystr :=
  if (str_len text <=? limit)%Z then text
  else
    let keep := (limit - str_len MATERIAL_DIGEST_ELLIPSIS)%Z in
    let head := (keep / 2)%Z in
    str_take head text +s+ MATERIAL_DIGEST_ELLIPSIS +s+ str_drop (str_len text - (keep - head)) text.

Definition bounded_preview (pieces : list pystr) (budget : Z) : pystr :=
  match pieces with
  | [] => ""
  | _ =>
      let share := Z.max (budget / Z.of_nat (length pieces)) (str_len MATERIAL_DIGEST_ELLIPSIS + 2) in
      str_join newline ((fun piece => middle_out piece share) <$> pieces)
  end.

(** ** Errors *)

(** [format_error] of [agent/loop.py]: the class and the text of an exception. *)
Definition format_error (name text : pystr) : pystr :=
  if str_empty text then name else name +s+ ": " +s+ text.

(** ** Tasks *)

Definition blank (s : pystr) : bool := str_empty (str_strip s).

Definition silent_done (task : Task) : bool :=
  bool_decide (tk_status task = TaskStatus.DONE) && blank (default "" (tk_result task)).

(** [_muted_after_ask]; [None] drops the event. *)
Definition muted_after_ask (event : LoopEvent) : option LoopEvent :=
  match event with
  | TextDelta _ | ReasoningDelta => None
  | Finished message usage source => Some (Finished (with_content "" message) usage source)
  | event => Some event
  end.

Definition task_source_message (task : Task) : option pystr :=
  json_str (dict_get "source_message_id" (tk_input task)).
Definition task_client_source (task : Task) : option pystr :=
  json_str (dict_get "source_client_message_id" (tk_input task)).

Definition task_origin (task : Task) : UsageOrigin.t :=
  if decide (tk_kind task = TaskKind.ANSWER) then UsageOrigin.INTERACTIVE
  else if dict_has "cron_job_id" (tk_input task) then UsageOrigin.CRON
  else UsageOrigin.BACKGROUND.

Definition exchange_outcome (status : TaskStatus.t) : ExchangeStatus.t :=
  match status with
  | TaskStatus.DONE => ExchangeStatus.ANSWERED
  | TaskStatus.CANCELLED => ExchangeStatus.CANCELLED
  | _ => ExchangeStatus.FAILED
  end.

Definition delivery_started (task : Task) : LoopEvent :=
  ProcessStarted (tk_id task) (tk_title task) (task_client_source task).

(** ** Properties *)

(** A preview never exceeds its limit, and a text that fits is untouched. *)
Lemma middle_out_bound text limit :
  (str_len MATERIAL_DIGEST_ELLIPSIS <= limit)%Z ->
  (str_len (middle_out text limit) <= limit)%Z /\
  ((str_len text <= limit)%Z -> middle_out text limit = text).
Proof.
  intros Hlim. unfold middle_out. destruct (Z.leb_spec (str_len text) limit) as [Hle|Hgt];
    [done|]. split; [|lia].
  set (keep := (limit - str_len MATERIAL_DIGEST_ELLIPSIS)%Z) in *.
  assert (0 <= keep)%Z by lia.
  assert (0 <= keep / 2 <= keep)%Z as [Hh1 Hh2] by (split; [apply Z.div_pos; lia|apply Z.div_le_upper_bound; lia]).
  pose proof (str_len_nonneg MATERIAL_DIGEST_ELLIPSIS).
  rewrite !str_len_app, str_len_take, str_len_drop by lia. lia.
Qed.

(** Both ends of a text that is cut survive: at least the first character
    and the last. *)
Lemma middle_out_ends text limit :
  (str_len MATERIAL_DIGEST_ELLIPSIS + 2 <= limit)%Z -> (limit < str_len text)%Z ->
  exists a m b, middle_out text limit = a +s+ m +s+ b /\
    a = str_take (str_len a) text /\ b = str_drop (str_len text - str_len b) text /\
    (1 <= str_len a)%Z /\ (1 <= str_len b)%Z.
Proof.
  intros Hlim Hlen. unfold middle_out. destruct (Z.leb_spec (str_len text) limit); [lia|].
  set (keep := (limit - str_len MATERIAL_DIGEST_ELLIPSIS)%Z).
  pose proof (str_len_nonneg MATERIAL_DIGEST_ELLIPSIS).
  assert (1 <= keep / 2)%Z by (apply Z.div_le_lower_bound; lia).
  assert (keep / 2 <= keep - 1)%Z.
  { assert (keep / 2 < keep)%Z by (apply Z.div_lt; lia). lia. }
  eexists _, _, _. split; [done|].
  rewrite !str_len_take, !str_len_drop by lia.
  replace (Z.min (keep / 2) (str_len text)) with (keep / 2)%Z by lia.
  replace (Z.max 0 (str_len text - (str_len text - (keep - keep / 2))))
    with (keep - keep / 2)%Z by lia.
  split_and!; [done|done|lia|lia].
Qed.

Lemma str_len_join_bound sep l n :
  Forall (fun s => str_len s <= n)%Z l ->
  (str_len (str_join sep l) <= Z.of_nat (length l) * n + (Z.of_nat (length l) - 1) * str_len sep \/
   l = [])%Z.
Proof.
  induction 1 as [|s l Hs Hl IH]; [by right|]. left. destruct l as [|s' l].
  - simpl. lia.
  - destruct IH as [IH|]; [|done].
    change (str_join sep (s :: s' :: l)) with (s +s+ sep +s+ str_join sep (s' :: l)).
    rewrite !str_len_app. simpl length in *. nia.
Qed.

(** The whole preview stays within the batch's budget and its separators,
    however the batch is split. *)
Lemma bounded_preview_bound pieces budget :
  pieces <> [] ->
  (Z.of_nat (length pieces) * (str_len MATERIAL_DIGEST_ELLIPSIS + 2) <= budget)%Z ->
  (str_len (bounded_preview pieces budget) <= budget + (Z.of_nat (length pieces) - 1))%Z.
Proof.
  intros Hne Hbud. unfold bounded_preview. destruct pieces as [|p ps]; [done|].
  set (n := Z.of_nat (length (p :: ps))) in *. assert (0 < n)%Z by (unfold n; simpl; lia).
  set (share := Z.max (budget / n) (str_len MATERIAL_DIGEST_ELLIPSIS + 2)).
  pose proof (str_len_nonneg MATERIAL_DIGEST_ELLIPSIS).
  assert (n * share <= budget)%Z as Hshare.
  { unfold share. destruct (Z.max_spec (budget / n) (str_len MATERIAL_DIGEST_ELLIPSIS + 2)) as [[_ ->]|[_ ->]];
      [lia|]. apply Z.mul_div_le. lia. }
  destruct (str_len_join_bound newline ((fun piece => middle_out piece share) <$> p :: ps) share)
    as [Hj|Hj]; [| |done].
  - apply Forall_fmap, Forall_forall. intros x _. simpl. apply middle_out_bound. lia.
  - rewrite length_fmap in Hj. fold n in Hj. change (str_len newline) with 1%Z in Hj. lia.
Qed.

(** A muted run shows no text, and its final is empty; its tool calls and
    its terminal keep flowing. *)
Lemma muted_after_ask_silent event out :
  muted_after_ask event = Some out ->
  match out with
  | TextDelta _ | ReasoningDelta => False
  | Finished message _ _ => cm_content message = ""
  | out => out = event
  end.
Proof. destruct event; intros H; simplify_eq/=; done. Qed.
