(* ===== verification/RunnerState.v ===== *)
(** * The state of a dialog's actor ([agent/runner.py])

    [Runner] is the memory of one [ConversationRunner]; [World] is that
    memory with the database behind it, the clock, the source of fresh ids and
    the scopes dropped from the response memory.  A handler of the actor is a computation over the world.

    Every store call is a point where the other tasks of the process may run:
    [others k] is what they do at the k-th such point.  The statements of one
    unit of work are one transaction, so nothing runs between them. *)
From S2P Require Import Prelude PyStr Clock Sql Dict Domain UnitOfWork Broadcast Codec TaskStore ExchangeStore MessageStore ClaimStore Compactor Router RunnerText.

(** ** Processes, deliveries, commands *)

(** [_Process]; [p_cancelled] is the flag of its [LoopControl]. *)
Record Process := {
  p_id : pystr;
  p_title : pystr;
  p_task_id : pystr;
  p_cancelled : bool;
  p_branch : list ChatMessage;
  p_narrative_built : bool;
  p_synced_len : nat;
  p_watermark : nat;
  p_exchange_id : option pystr;
  p_source_message_id : option pystr;
  p_source_client_message_id : option pystr;
  p_terminal_accepted : bool;
  p_overflow_retried : bool;
  p_asked : bool;
  p_origin : UsageOrigin.t;
  p_spent_prompt : Z;
  p_spent_completion : Z }.

(** [_Delivery]; [dv_key] is the identity of the object. *)
Record Delivery := {
  dv_key : N;
  dv_events : list LoopEvent;
  dv_task_id : option pystr;
  dv_exchange_id : option pystr }.

(** [_Unseen] *)
Inductive Unseen : Set := UNSEEN_NONE | MATERIAL_ONLY | SPOKEN.
#[export] Instance Unseen_eq_dec : EqDecision Unseen.
Proof. solve_decision. Defined.

(** [_Submit], [_ProcessTerminated], [_Flush], [_PromoteCollected] *)
Record Submit := {
  sb_message : ChatMessage;
  sb_client_message_id : option pystr;
  sb_reply_to_exchange_id : option pystr;
  sb_cancel_epoch : Z;
  sb_origin : option pystr }.
Record ProcessTerminated := {
  pt_task_id : pystr;
  pt_terminal : option LoopEvent;
  pt_exchange_id : option pystr;
  pt_delivered_live : bool;
  pt_exchange_status : option ExchangeStatus.t;
  pt_task : option Task;
  pt_unseen : Unseen }.
Inductive Command :=
| CSubmit (command : Submit)
| CTerminated (command : ProcessTerminated)
| CFlush
| CPromote (exchange_id : pystr).

(** ** The actor and its world *)

(** [r_cancelling]: the actor's task has a cancellation pending. *)
Record Runner := {
  r_dialog : Dialog;
  r_claim : DialogClaim;
  r_stood_down : bool;
  r_preempted : bool;
  r_cancelling : bool;
  r_narrative : list ChatMessage;
  r_processes : list (pystr * Process);
  r_tariff_notes : list (pystr * pystr);
  r_pending : list Delivery;
  r_next_key : N;
  r_cancel_epoch : Z;
  r_inbox : list Command;
  r_hub : Hub;
  r_spawn_lock : bool;
  r_assemble_lock : bool;
  r_flush_lock : bool }.

Record Db := {
  d_dialogs : list Dialog;
  d_messages : list MessageRow;
  d_exchanges : list Exchange;
  d_tasks : list Task;
  d_claims : list DialogClaim;
  d_summaries : list DialogueSummary }.

Record World := {
  w_conn : Conn Db;
  w_now : time;
  w_ids : N;
  w_tick : nat;
  w_dropped : list pystr;
  w_run : Runner }.

(** ** Updating one field *)

Definition set_p_cancelled (v : bool) (r : Process) : Process :=
  {| p_id := p_id r; p_title := p_title r; p_task_id := p_task_id r; p_cancelled := v;
     p_branch := p_branch r; p_narrative_built := p_narrative_built r;
     p_synced_len := p_synced_len r; p_watermark := p_watermark r;
     p_exchange_id := p_exchange_id r; p_source_message_id := p_source_message_id r;
     p_source_client_message_id := p_source_client_message_id r;
     p_terminal_accepted := p_terminal_accepted r; p_overflow_retried := p_overflow_retried r;
     p_asked := p_asked r; p_origin := p_origin r; p_spent_prompt := p_spent_prompt r;
     p_spent_completion := p_spent_completion r |}.
Definition set_p_branch (v : list ChatMessage) (r : Process) : Process :=
  {| p_id := p_id r; p_title := p_title r; p_task_id := p_task_id r;
     p_cancelled := p_cancelled r; p_branch := v; p_narrative_built := p_narrative_built r;
     p_synced_len := p_synced_len r; p_watermark := p_watermark r;
     p_exchange_id := p_exchange_id r; p_source_message_id := p_source_message_id r;
     p_source_client_message_id := p_source_client_message_id r;
     p_terminal_accepted := p_terminal_accepted r; p_overflow_retried := p_overflow_retried r;
     p_asked := p_asked r; p_origin := p_origin r; p_spent_prompt := p_spent_prompt r;
     p_spent_completion := p_spent_completion r |}.
Definition set_p_synced_len (v : nat) (r : Process) : Process :=
  {| p_id := p_id r; p_title := p_title r; p_task_id := p_task_id r;
     p_cancelled := p_cancelled r; p_branch := p_branch r;
     p_narrative_built := p_narrative_built r; p_synced_len := v; p_watermark := p_watermark r;
     p_exchange_id := p_exchange_id r; p_source_message_id := p_source_message_id r;
     p_source_client_message_id := p_source_client_message_id r;
     p_terminal_accepted := p_terminal_accepted r; p_overflow_retried := p_overflow_retried r;
     p_asked := p_asked r; p_origin := p_origin r; p_spent_prompt := p_spent_prompt r;
     p_spent_completion := p_spent_completion r |}.
Definition set_p_watermark (v : nat) (r : Process) : Process :=
  {| p_id := p_id r; p_title := p_title r; p_task_id := p_task_id r;
     p_cancelled := p_cancelled r; p_branch := p_branch r;
     p_narrative_built := p_narrative_built r; p_synced_len := p_synced_len r; p_watermark := v;
     p_exchange_id := p_exchange_id r; p_source_message_id := p_source_message_id r;
     p_source_client_message_id := p_source_client_message_id r;
     p_terminal_accepted := p_terminal_accepted r; p_overflow_retried := p_overflow_retried r;
     p_asked := p_asked r; p_origin := p_origin r; p_spent_prompt := p_spent_prompt r;
     p_spent_completion := p_spent_completion r |}.
Definition set_p_terminal_accepted (v : bool) (r : Process) : Process :=
  {| p_id := p_id r; p_title := p_title r; p_task_id := p_task_id r;
     p_cancelled := p_cancelled r; p_branch := p_branch r;
     p_narrative_built := p_narrative_built r; p_synced_len := p_synced_len r;
     p_watermark := p_watermark r; p_exchange_id := p_exchange_id r;
     p_source_message_id := p_source_message_id r;
     p_source_client_message_id := p_source_client_message_id r; p_terminal_accepted := v;
     p_overflow_retried := p_overflow_retried r; p_asked := p_asked r; p_origin := p_origin r;
     p_spent_prompt := p_spent_prompt r; p_spent_completion := p_spent_completion r |}.
Definition set_p_overflow_retried (v : bool) (r : Process) : Process :=
  {| p_id := p_id r; p_title := p_title r; p_task_id := p_task_id r;
     p_cancelled := p_cancelled r; p_branch := p_branch r;
     p_narrative_built := p_narrative_built r; p_synced_len := p_synced_len r;
     p_watermark := p_watermark r; p_exchange_id := p_exchange_id r;
     p_source_message_id := p_source_message_id r;
     p_source_client_message_id := p_source_client_message_id r;
     p_terminal_accepted := p_terminal_accepted r; p_overflow_retried := v; p_asked := p_asked r;
     p_origin := p_origin r; p_spent_prompt := p_spent_prompt r;
     p_spent_completion := p_spent_completion r |}.
Definition set_p_asked (v : bool) (r : Process) : Process :=
  {| p_id := p_id r; p_title := p_title r; p_task_id := p_task_id r;
     p_cancelled := p_cancelled r; p_branch := p_branch r;
     p_narrative_built := p_narrative_built r; p_synced_len := p_synced_len r;
     p_watermark := p_watermark r; p_exchange_id := p_exchange_id r;
     p_source_message_id := p_source_message_id r;
     p_source_client_message_id := p_source_client_message_id r;
     p_terminal_accepted := p_terminal_accepted r; p_overflow_retried := p_overflow_retried r;
     p_asked := v; p_origin := p_origin r; p_spent_prompt := p_spent_prompt r;
     p_spent_completion := p_spent_completion r |}.
Definition set_p_spent_prompt (v : Z) (r : Process) : Process :=
  {| p_id := p_id r; p_title := p_title r; p_task_id := p_task_id r;
     p_cancelled := p_cancelled r; p_branch := p_branch r;
     p_narrative_built := p_narrative_built r; p_synced_len := p_synced_len r;
     p_watermark := p_watermark r; p_exchange_id := p_exchange_id r;
     p_source_message_id := p_source_message_id r;
     p_source_client_message_id := p_source_client_message_id r;
     p_terminal_accepted := p_terminal_accepted r; p_overflow_retried := p_overflow_retried r;
     p_asked := p_asked r; p_origin := p_origin r; p_spent_prompt := v;
     p_spent_completion := p_spent_completion r |}.
Definition set_p_spent_completion (v : Z) (r : Process) : Process :=
  {| p_id := p_id r; p_title := p_title r; p_task_id := p_task_id r;
     p_cancelled := p_cancelled r; p_branch := p_branch r;
     p_narrative_built := p_narrative_built r; p_synced_len := p_synced_len r;
     p_watermark := p_watermark r; p_exchange_id := p_exchange_id r;
     p_source_message_id := p_source_message_id r;
     p_source_client_message_id := p_source_client_message_id r;
     p_terminal_accepted := p_terminal_accepted r; p_overflow_retried := p_overflow_retried r;
     p_asked := p_asked r; p_origin := p_origin r; p_spent_prompt := p_spent_prompt r;
     p_spent_completion := v |}.

Definition set_r_stood_down (v : bool) (r : Runner) : Runner :=
  {| r_dialog := r_dialog r; r_claim := r_claim r; r_stood_down := v;
     r_preempted := r_preempted r; r_cancelling := r_cancelling r; r_narrative := r_narrative r;
     r_processes := r_processes r; r_tariff_notes := r_tariff_notes r; r_pending := r_pending r;
     r_next_key := r_next_key r; r_cancel_epoch := r_cancel_epoch r; r_inbox := r_inbox r;
     r_hub := r_hub r; r_spawn_lock := r_spawn_lock r; r_assemble_lock := r_assemble_lock r;
     r_flush_lock := r_flush_lock r |}.
Definition set_r_preempted (v : bool) (r : Runner) : Runner :=
  {| r_dialog := r_dialog r; r_claim := r_claim r; r_stood_down := r_stood_down r;
     r_preempted := v; r_cancelling := r_cancelling r; r_narrative := r_narrative r;
     r_processes := r_processes r; r_tariff_notes := r_tariff_notes r; r_pending := r_pending r;
     r_next_key := r_next_key r; r_cancel_epoch := r_cancel_epoch r; r_inbox := r_inbox r;
     r_hub := r_hub r; r_spawn_lock := r_spawn_lock r; r_assemble_lock := r_assemble_lock r;
     r_flush_lock := r_flush_lock r |}.
Definition set_r_cancelling (v : bool) (r : Runner) : Runner :=
  {| r_dialog := r_dialog r; r_claim := r_claim r; r_stood_down := r_stood_down r;
     r_preempted := r_preempted r; r_cancelling := v; r_narrative := r_narrative r;
     r_processes := r_processes r; r_tariff_notes := r_tariff_notes r; r_pending := r_pending r;
     r_next_key := r_next_key r; r_cancel_epoch := r_cancel_epoch r; r_inbox := r_inbox r;
     r_hub := r_hub r; r_spawn_lock := r_spawn_lock r; r_assemble_lock := r_assemble_lock r;
     r_flush_lock := r_flush_lock r |}.
Definition set_r_narrative (v : list ChatMessage) (r : Runner) : Runner :=
  {| r_dialog := r_dialog r; r_claim := r_claim r; r_stood_down := r_stood_down r;
     r_preempted := r_preempted r; r_cancelling := r_cancelling r; r_narrative := v;
     r_processes := r_processes r; r_tariff_notes := r_tariff_notes r; r_pending := r_pending r;
     r_next_key := r_next_key r; r_cancel_epoch := r_cancel_epoch r; r_inbox := r_inbox r;
     r_hub := r_hub r; r_spawn_lock := r_spawn_lock r; r_assemble_lock := r_assemble_lock r;
     r_flush_lock := r_flush_lock r |}.
Definition set_r_processes (v : list (pystr * Process)) (r : Runner) : Runner :=
  {| r_dialog := r_dialog r; r_claim := r_claim r; r_stood_down := r_stood_down r;
     r_preempted := r_preempted r; r_cancelling := r_cancelling r; r_narrative := r_narrative r;
     r_processes := v; r_tariff_notes := r_tariff_notes r; r_pending := r_pending r;
     r_next_key := r_next_key r; r_cancel_epoch := r_cancel_epoch r; r_inbox := r_inbox r;
     r_hub := r_hub r; r_spawn_lock := r_spawn_lock r; r_assemble_lock := r_assemble_lock r;
     r_flush_lock := r_flush_lock r |}.
Definition set_r_tariff_notes (v : list (pystr * pystr)) (r : Runner) : Runner :=
  {| r_dialog := r_dialog r; r_claim := r_claim r; r_stood_down := r_stood_down r;
     r_preempted := r_preempted r; r_cancelling := r_cancelling r; r_narrative := r_narrative r;
     r_processes := r_processes r; r_tariff_notes := v; r_pending := r_pending r;
     r_next_key := r_next_key r; r_cancel_epoch := r_cancel_epoch r; r_inbox := r_inbox r;
     r_hub := r_hub r; r_spawn_lock := r_spawn_lock r; r_assemble_lock := r_assemble_lock r;
     r_flush_lock := r_flush_lock r |}.
Definition set_r_pending (v : list Delivery) (r : Runner) : Runner :=
  {| r_dialog := r_dialog r; r_claim := r_claim r; r_stood_down := r_stood_down r;
     r_preempted := r_preempted r; r_cancelling := r_cancelling r; r_narrative := r_narrative r;
     r_processes := r_processes r; r_tariff_notes := r_tariff_notes r; r_pending := v;
     r_next_key := r_next_key r; r_cancel_epoch := r_cancel_epoch r; r_inbox := r_inbox r;
     r_hub := r_hub r; r_spawn_lock := r_spawn_lock r; r_assemble_lock := r_assemble_lock r;
     r_flush_lock := r_flush_lock r |}.
Definition set_r_next_key (v : N) (r : Runner) : Runner :=
  {| r_dialog := r_dialog r; r_claim := r_claim r; r_stood_down := r_stood_down r;
     r_preempted := r_preempted r; r_cancelling := r_cancelling r; r_narrative := r_narrative r;
     r_processes := r_processes r; r_tariff_notes := r_tariff_notes r; r_pending := r_pending r;
     r_next_key := v; r_cancel_epoch := r_cancel_epoch r; r_inbox := r_inbox r; r_hub := r_hub r;
     r_spawn_lock := r_spawn_lock r; r_assemble_lock := r_assemble_lock r;
     r_flush_lock := r_flush_lock r |}.
Definition set_r_cancel_epoch (v : Z) (r : Runner) : Runner :=
  {| r_dialog := r_dialog r; r_claim := r_claim r; r_stood_down := r_stood_down r;
     r_preempted := r_preempted r; r_cancelling := r_cancelling r; r_narrative := r_narrative r;
     r_processes := r_processes r; r_tariff_notes := r_tariff_notes r; r_pending := r_pending r;
     r_next_key := r_next_key r; r_cancel_epoch := v; r_inbox := r_inbox r; r_hub := r_hub r;
     r_spawn_lock := r_spawn_lock r; r_assemble_lock := r_assemble_lock r;
     r_flush_lock := r_flush_lock r |}.
Definition set_r_inbox (v : list Command) (r : Runner) : Runner :=
  {| r_dialog := r_dialog r; r_claim := r_claim r; r_stood_down := r_stood_down r;
     r_preempted := r_preempted r; r_cancelling := r_cancelling r; r_narrative := r_narrative r;
     r_processes := r_processes r; r_tariff_notes := r_tariff_notes r; r_pending := r_pending r;
     r_next_key := r_next_key r; r_cancel_epoch := r_cancel_epoch r; r_inbox := v;
     r_hub := r_hub r; r_spawn_lock := r_spawn_lock r; r_assemble_lock := r_assemble_lock r;
     r_flush_lock := r_flush_lock r |}.
Definition set_r_hub (v : Hub) (r : Runner) : Runner :=
  {| r_dialog := r_dialog r; r_claim := r_claim r; r_stood_down := r_stood_down r;
     r_preempted := r_preempted r; r_cancelling := r_cancelling r; r_narrative := r_narrative r;
     r_processes := r_processes r; r_tariff_notes := r_tariff_notes r; r_pending := r_pending r;
     r_next_key := r_next_key r; r_cancel_epoch := r_cancel_epoch r; r_inbox := r_inbox r;
     r_hub := v; r_spawn_lock := r_spawn_lock r; r_assemble_lock := r_assemble_lock r;
     r_flush_lock := r_flush_lock r |}.
Definition set_r_spawn_lock (v : bool) (r : Runner) : Runner :=
  {| r_dialog := r_dialog r; r_claim := r_claim r; r_stood_down := r_stood_down r;
     r_preempted := r_preempted r; r_cancelling := r_cancelling r; r_narrative := r_narrative r;
     r_processes := r_processes r; r_tariff_notes := r_tariff_notes r; r_pending := r_pending r;
     r_next_key := r_next_key r; r_cancel_epoch := r_cancel_epoch r; r_inbox := r_inbox r;
     r_hub := r_hub r; r_spawn_lock := v; r_assemble_lock := r_assemble_lock r;
     r_flush_lock := r_flush_lock r |}.
Definition set_r_assemble_lock (v : bool) (r : Runner) : Runner :=
  {| r_dialog := r_dialog r; r_claim := r_claim r; r_stood_down := r_stood_down r;
     r_preempted := r_preempted r; r_cancelling := r_cancelling r; r_narrative := r_narrative r;
     r_processes := r_processes r; r_tariff_notes := r_tariff_notes r; r_pending := r_pending r;
     r_next_key := r_next_key r; r_cancel_epoch := r_cancel_epoch r; r_inbox := r_inbox r;
     r_hub := r_hub r; r_spawn_lock := r_spawn_lock r; r_assemble_lock := v;
     r_flush_lock := r_flush_lock r |}.
Definition set_r_flush_lock (v : bool) (r : Runner) : Runner :=
  {| r_dialog := r_dialog r; r_claim := r_claim r; r_stood_down := r_stood_down r;
     r_preempted := r_preempted r; r_cancelling := r_cancelling r; r_narrative := r_narrative r;
     r_processes := r_processes r; r_tariff_notes := r_tariff_notes r; r_pending := r_pending r;
     r_next_key := r_next_key r; r_cancel_epoch := r_cancel_epoch r; r_inbox := r_inbox r;
     r_hub := r_hub r; r_spawn_lock := r_spawn_lock r; r_assemble_lock := r_assemble_lock r;
     r_flush_lock := v |}.

Definition set_d_dialogs (v : list Dialog) (r : Db) : Db :=
  {| d_dialogs := v; d_messages := d_messages r; d_exchanges := d_exchanges r;
     d_tasks := d_tasks r; d_claims := d_claims r; d_summaries := d_summaries r |}.
Definition set_d_messages (v : list MessageRow) (r : Db) : Db :=
  {| d_dialogs := d_dialogs r; d_messages := v; d_exchanges := d_exchanges r;
     d_tasks := d_tasks r; d_claims := d_claims r; d_summaries := d_summaries r |}.
Definition set_d_exchanges (v : list Exchange) (r : Db) : Db :=
  {| d_dialogs := d_dialogs r; d_messages := d_messages r; d_exchanges := v;
     d_tasks := d_tasks r; d_claims := d_claims r; d_summaries := d_summaries r |}.
Definition set_d_tasks (v : list Task) (r : Db) : Db :=
  {| d_dialogs := d_dialogs r; d_messages := d_messages r; d_exchanges := d_exchanges r;
     d_tasks := v; d_claims := d_claims r; d_summaries := d_summaries r |}.
Definition set_d_claims (v : list DialogClaim) (r : Db) : Db :=
  {| d_dialogs := d_dialogs r; d_messages := d_messages r; d_exchanges := d_exchanges r;
     d_tasks := d_tasks r; d_claims := v; d_summaries := d_summaries r |}.
Definition set_d_summaries (v : list DialogueSummary) (r : Db) : Db :=
  {| d_dialogs := d_dialogs r; d_messages := d_messages r; d_exchanges := d_exchanges r;
     d_tasks := d_tasks r; d_claims := d_claims r; d_summaries := v |}.

Definition set_w_conn (v : Conn Db) (r : World) : World :=
  {| w_conn := v; w_now := w_now r; w_ids := w_ids r;
     w_tick := w_tick r; w_dropped := w_dropped r; w_run := w_run r |}.
Definition set_w_now (v : time) (r : World) : World :=
  {| w_conn := w_conn r; w_now := v; w_ids := w_ids r;
     w_tick := w_tick r; w_dropped := w_dropped r; w_run := w_run r |}.
Definition set_w_ids (v : N) (r : World) : World :=
  {| w_conn := w_conn r; w_now := w_now r; w_ids := v;
     w_tick := w_tick r; w_dropped := w_dropped r; w_run := w_run r |}.
Definition set_w_tick (v : nat) (r : World) : World :=
  {| w_conn := w_conn r; w_now := w_now r; w_ids := w_ids r;
     w_tick := v; w_dropped := w_dropped r; w_run := w_run r |}.
Definition set_w_dropped (v : list pystr) (r : World) : World :=
  {| w_conn := w_conn r; w_now := w_now r; w_ids := w_ids r;
     w_tick := w_tick r; w_dropped := v; w_run := w_run r |}.
Definition set_w_run (v : Runner) (r : World) : World :=
  {| w_conn := w_conn r; w_now := w_now r; w_ids := w_ids r;
     w_tick := w_tick r; w_dropped := w_dropped r; w_run := v |}.

(** ** The database of the actor *)

#[export] Instance world_has_conn : HasConn World Db.
Proof.
  refine {| conn_of := w_conn; set_conn := set_w_conn |}; [done|done|by intros []].
Defined.

#[export] Instance db_dialogs : HasTable Db Dialog.
Proof. refine {| table := d_dialogs; set_table := set_d_dialogs |}; [done|done|by intros []]. Defined.
#[export] Instance db_messages : HasTable Db MessageRow.
Proof. refine {| table := d_messages; set_table := set_d_messages |}; [done|done|by intros []]. Defined.
#[export] Instance db_exchanges : HasTable Db Exchange.
Proof. refine {| table := d_exchanges; set_table := set_d_exchanges |}; [done|done|by intros []]. Defined.
#[export] Instance db_tasks : HasTable Db Task.
Proof. refine {| table := d_tasks; set_table := set_d_tasks |}; [done|done|by intros []]. Defined.
#[export] Instance db_claims : HasTable Db DialogClaim.
Proof. refine {| table := d_claims; set_table := set_d_claims |}; [done|done|by intros []]. Defined.
#[export] Instance db_summaries : HasTable Db DialogueSummary.
Proof. refine {| table := d_summaries; set_table := set_d_summaries |}; [done|done|by intros []]. Defined.

#[export] Instance summaries_apart : Apart Db DialogueSummary MessageRow.
Proof. done. Qed.

(** ** Ports *)

(** [LimitGate] of [tariffs/api.py]. *)
Record LimitGate := {
  lg_check_run_budget : pystr -> M World Exn LimitVerdict;
  lg_record : UsageEvent -> M World Exn unit;
  lg_enabled_features : pystr -> M World Exn (option (list pystr)) }.

(** [ToolContext], as the actor fills it: the callbacks of the context (spawn,
    delete, ask, look) are operations of the same actor. *)
Record ToolContext := {
  tx_user_id : pystr;
  tx_channel : pystr;
  tx_dialog_id : pystr;
  tx_process_id : pystr;
  tx_can_see_images : bool;
  tx_owner_task_id : pystr;
  tx_enabled_features : option (list pystr) }.

(** The async generator [AgentLoop.stream] returns, over the state [S]: asked
    for its next event it runs (tools included), extends the list of messages
    it was given, and then stops, raises or yields. *)
Inductive Stream (S : Type) :=
| Next (run : S -> S) (signal : S -> Signal S)
with Signal (S : Type) :=
| Stop
| Raise (e : Exn)
| Yield (event : LoopEvent) (rest : Stream S).
Arguments Next {S}. Arguments Stop {S}. Arguments Raise {S}. Arguments Yield {S}.

(** [self._loop.stream]: the branch and the control are those of a process. *)
Definition AgentLoop (S : Type) : Type := pystr -> ToolContext -> Stream S.

(** [RunnerConfig]; the text of the prompt provider, the class and text of an
    exception, and the order in which the two reads of a gather at a given
    moment reach the store. *)
Record RunnerConfig := {
  cfg_loop : AgentLoop World;
  cfg_system_prompt : pystr;
  cfg_router : MessageRouter World;
  cfg_max_processes : Z;
  cfg_compactor : ContextCompactor World;
  cfg_task_outcome_listener : option (Task -> TaskStatus.t -> M World Exn unit);
  cfg_limits : option LimitGate;
  cfg_material_quiet : Z;
  cfg_vision : option (list pystr -> pystr -> M World Exn pystr);
  cfg_image_resolver : option (pystr -> M World Exn pystr);
  cfg_response_memory : bool;
  cfg_sqlite : bool;
  cfg_null_unit : bool;
  cfg_exn_name : Exn -> pystr;
  cfg_exn_text : Exn -> pystr;
  cfg_left_first : nat -> bool }.

(** ** Primitives *)

Section Primitives.
Context (config : RunnerConfig) (others : nat -> World -> World).

Definition runner {A} (f : Runner -> A) : M World Exn A := gets (fun s => f (w_run s)).
Definition update (f : Runner -> Runner) : M World Exn unit :=
  modify (fun s => set_w_run (f (w_run s)) s).
Definition utc_now : M World Exn time := gets w_now.
Definition dialog_id : M World Exn pystr := runner (fun r => dlg_id (r_dialog r)).

(** [uuid.uuid4().hex] *)
Definition fresh_id : M World Exn pystr := fun s =>
  (Ok (uuid4_hex (w_ids s)), set_w_ids (w_ids s + 1)%N s).

(** An [await]: the other tasks run, unless a unit of work holds the
    connection. *)
Definition yield : M World Exn unit := fun s =>
  if in_unit_of_work (w_conn s) then (Ok tt, s)
  else (Ok tt, others (w_tick s) (set_w_tick (S (w_tick s)) s)).

Definition db_read {A} (body : M Db Exn A) : M World Exn A :=
  yield ;;; on_conn (read_session body).
Definition db_write {A} (body : M Db Exn A) : M World Exn A :=
  yield ;;; on_conn (write_session body).

(** [async with self._uow()] *)
Definition unit_of_work {A} (body : M World Exn A) : M World Exn A :=
  yield ;;; uow (cfg_null_unit config) body.

(** [async with lock]: once it is free the lock is held until the body ends,
    however it ends. *)
Definition locked {A} (set_lock : bool -> Runner -> Runner) (body : M World Exn A)
    : M World Exn A :=
  yield ;;;
  update (set_lock true) ;;;
  let! a := try_except body (fun e => update (set_lock false) ;;; raise e) in
  update (set_lock false) ;;;
  ret a.

(** ** The stores, as the actor calls them *)

(** [MessageRepository.append] and [append_pair]: five ids are drawn at
    once, one for each attempt. *)
Definition draw_ids (n : N) : M World Exn (nat -> pystr) := fun s =>
  (Ok (fun k => uuid4_hex (w_ids s + N.of_nat k)), set_w_ids (w_ids s + n)%N s).
(** The actor's appends: who else writes to the log does so at the [await]
    before, in [yield].  A writer that commits inside the append itself makes
    it try again, to the same end ([MessageStore.append_not_lost]). *)
Definition no_race : nat -> list MessageRow := fun _ => [].

Definition messages_append (message : ChatMessage) (usage : option Usage)
    (client_message_id : option pystr) : M World Exn pystr :=
  yield ;;;
  let! d := dialog_id in
  let! now := utc_now in
  let! new_id := draw_ids 5 in
  on_conn (append (cfg_sqlite config) no_race new_id now d message usage client_message_id).
Definition messages_append_pair (first second : ChatMessage) : M World Exn unit :=
  yield ;;;
  let! d := dialog_id in
  let! now := utc_now in
  let! new_id := draw_ids 5 in
  let! new_id2 := draw_ids 5 in
  on_conn (append_pair (cfg_sqlite config) no_race new_id new_id2 now d first second).
Definition messages_set_exchange (message_id exchange_id : pystr) : M World Exn unit :=
  db_write (on_table (set_exchange message_id exchange_id)).
Definition messages_find_by_client_id (client_message_id : pystr) : M World Exn bool :=
  let! d := dialog_id in db_read (on_table (find_by_client_id d client_message_id)).

Definition tasks_add (task : Task) : M World Exn unit := db_write (on_table (Sql.add task)).
Definition tasks_get (task_id : pystr) : M World Exn Task := db_read (on_table (Sql.get task_id)).
Definition tasks_mark_done (task_id result : pystr) (delivered : bool) : M World Exn Task :=
  let! now := utc_now in db_write (on_table (Sql.mark_done now task_id result delivered)).
Definition tasks_mark_failed (task_id error : pystr) (delivered : bool) : M World Exn Task :=
  let! now := utc_now in db_write (on_table (Sql.mark_failed now task_id error delivered)).
Definition tasks_mark_cancelled (task_id : pystr) : M World Exn Task :=
  let! now := utc_now in db_write (on_table (Sql.mark_cancelled now task_id)).
Definition tasks_mark_delivered (task_id : pystr) : M World Exn unit :=
  let! now := utc_now in db_write (on_table (Sql.mark_delivered now task_id)).

Definition exchanges_create (title : pystr) (status : option ExchangeStatus.t)
    : M World Exn Exchange :=
  let! now := utc_now in
  let! i := fresh_id in
  let! d := dialog_id in
  db_write (on_table (ExchangeStore.create now i d title status)).
Definition exchanges_get (exchange_id : pystr) : M World Exn Exchange :=
  db_read (on_table (ExchangeStore.get exchange_id)).
Definition exchanges_list_live : M World Exn (list Exchange) :=
  let! d := dialog_id in db_read (on_table (list_live d)).
Definition exchanges_find_collecting : M World Exn (option Exchange) :=
  let! d := dialog_id in db_read (on_table (find_collecting d)).
Definition exchanges_list_unowned_open : M World Exn (list Exchange) :=
  let! d := dialog_id in
  db_read (fun db => on_table (list_unowned_open (table db) (Some d)) db).
Definition exchanges_touch (exchange_id : pystr) : M World Exn unit :=
  let! now := utc_now in db_write (on_table (touch now exchange_id)).
Definition exchanges_set_title (exchange_id title : pystr) : M World Exn unit :=
  let! now := utc_now in db_write (on_table (set_title now exchange_id title)).
Definition exchanges_set_status (exchange_id : pystr) (status : ExchangeStatus.t)
    (pending : option pystr) : M World Exn unit :=
  let! now := utc_now in db_write (on_table (set_status now exchange_id status pending)).
Definition exchanges_settle_owned (exchange_id task_id : pystr) (status : ExchangeStatus.t)
    (keep_if_awaiting : bool) : M World Exn (option Exchange) :=
  let! now := utc_now in
  db_write (fun db => on_table (settle_owned now (table db) exchange_id task_id status keep_if_awaiting) db).
Definition claims_current_generation : M World Exn (option Z) :=
  let! d := dialog_id in db_read (on_table (current_generation d)).

(** ** Processes *)

Definition get_process (process_id : pystr) : M World Exn (option Process) :=
  runner (fun r => dict_get process_id (r_processes r)).
Definition modify_process (process_id : pystr) (f : Process -> Process) : M World Exn unit :=
  update (fun r =>
    match dict_get process_id (r_processes r) with
    | Some p => set_r_processes (dict_set process_id (f p) (r_processes r)) r
    | None => r
    end).

(** [_live_process_for] *)
Definition live_process_for (exchange_id : pystr) (r : Runner) : option Process :=
  head (filter (fun p => p_exchange_id p = Some exchange_id) (dict_values (r_processes r))).

Definition active_titles (r : Runner) : pystr :=
  str_join ", " (p_title <$> dict_values (r_processes r)).

(** [_broadcast] *)
Definition broadcast_event (event : LoopEvent) (exchange_id : option pystr) : M World Exn nat :=
  fun s =>
    let '(hub, accepted) := broadcast (dlg_id (r_dialog (w_run s))) event exchange_id
                              (r_hub (w_run s)) in
    (Ok accepted, set_w_run (set_r_hub hub (w_run s)) s).

Definition new_delivery (events : list LoopEvent) (task_id exchange_id : option pystr)
    : M World Exn Delivery := fun s =>
  let k := r_next_key (w_run s) in
  (Ok {| dv_key := k; dv_events := events; dv_task_id := task_id; dv_exchange_id := exchange_id |},
   set_w_run (set_r_next_key (k + 1)%N (w_run s)) s).

Definition put_command (c : Command) : M World Exn unit :=
  update (fun r => set_r_inbox (r_inbox r ++ [c]) r).
End Primitives.

(** ** Running undisturbed *)

(** No other task runs, no unit of work is open, no database failure is
    ahead: then a handler is a function of the world. *)
Definition quiet (others : nat -> World -> World) : Prop := forall k s, others k s = s.
Definition at_rest (s : World) : Prop :=
  faults (w_conn s) = [] /\ live_session (w_conn s) = None.
Definition db_of (s : World) : Db := committed (w_conn s).
Definition with_db (d : Db) (s : World) : World := set_w_conn (with_committed d (w_conn s)) s.
(** One await went by. *)
Definition ticked (s : World) : World := set_w_tick (S (w_tick s)) s.

Section Quiet.
Context (others : nat -> World -> World) (Hquiet : quiet others).

Lemma yield_quiet s : at_rest s -> yield others s = (Ok tt, ticked s).
Proof.
  intros [_ Hl]. unfold yield, in_unit_of_work. rewrite Hl. by rewrite Hquiet.
Qed.

Lemma at_rest_ticked s : at_rest s -> at_rest (ticked s).
Proof. done. Qed.
Lemma at_rest_with_db d s : at_rest s -> at_rest (with_db d s).
Proof. intros [Hf Hl]. split; [done|]. exact Hl. Qed.
Lemma at_rest_run r s : at_rest s -> at_rest (set_w_run r s).
Proof. done. Qed.

Lemma db_write_quiet {A} (body : M Db Exn A) s :
  at_rest s ->
  db_write others body s =
    match body (db_of s) with
    | (Ok a, d) => (Ok a, with_db d (ticked s))
    | (Err e, _) => (Err e, ticked s)
    end.
Proof.
  intros Hs. unfold db_write. rewrite (bind_Ok _ _ _ _ _ (yield_quiet s Hs)).
  destruct Hs as [Hf Hl]. unfold on_conn, write_session, borrow_enter.
  change (conn_of (ticked s)) with (w_conn s). rewrite Hl.
  unfold execute, round_trip. rewrite Hf. change (committed (w_conn s)) with (db_of s).
  destruct (body (db_of s)) as [[a|e] d]; rewrite ?Hf; [done|]. by destruct s.
Qed.

Lemma db_read_quiet {A} (body : M Db Exn A) s :
  at_rest s -> db_read others body s = ((body (db_of s)).1, ticked s).
Proof.
  intros Hs. unfold db_read. rewrite (bind_Ok _ _ _ _ _ (yield_quiet s Hs)).
  destruct Hs as [Hf Hl]. unfold on_conn, read_session, borrow_enter.
  change (conn_of (ticked s)) with (w_conn s). rewrite Hl.
  unfold execute, round_trip. rewrite Hf. change (committed (w_conn s)) with (db_of s).
  destruct (body (db_of s)) as [r d]. by destruct s.
Qed.

(** Inside a unit of work: the session's tables are [d]. *)
Lemma db_write_enter {A} (body : M Db Exn A) d w s :
  faults (w_conn s) = [] ->
  exists w', db_write others body (enter_unit d w s) = ((body d).1, enter_unit (body d).2 w' s).
Proof.
  intros Hf. unfold db_write.
  assert (yield others (enter_unit d w s) = (Ok tt, enter_unit d w s)) as Hy by done.
  rewrite (bind_Ok _ _ _ _ _ Hy). by apply write_session_enter.
Qed.

(** A unit whose body returns commits what its session holds. *)
Lemma unit_quiet config {A} (body : M World Exn A) s a d w s2 :
  at_rest s -> cfg_null_unit config = false ->
  body (enter_unit (db_of s) false (ticked s)) = (Ok a, enter_unit d w s2) -> w_conn s2 = w_conn s ->
  unit_of_work config others body s = (Ok a, with_db d s2).
Proof.
  intros Hs Hnull Hbody Hconn. unfold unit_of_work. rewrite (bind_Ok _ _ _ _ _ (yield_quiet s Hs)).
  destruct Hs as [Hf Hl]. unfold uow. rewrite Hnull.
  assert (in_unit_of_work (conn_of (ticked s)) = false) as ->
    by (unfold in_unit_of_work; cbn; by rewrite Hl).
  unfold enter_unit in Hbody. change (committed (conn_of (ticked s))) with (db_of s).
  rewrite Hbody. unfold round_trip. cbn. rewrite Hconn, Hf. cbn. unfold with_db. f_equal.
  rewrite <-Hconn. destruct s2 as [[cm ac fl] now ids tick dr run]; cbn in *. subst. done.
Qed.
End Quiet.

(** ** Running among others

    A relation the other tasks respect, that the connection and the clock of
    awaits do not matter to. *)
Section Env.
Context (others : nat -> World -> World) (R : World -> World -> Prop) `{!PreOrder R}.

Record env_allows : Prop := {
  env_others k s : R s (others k s);
  env_conn c s : R s (set_w_conn c s);
  env_tick n s : R s (set_w_tick n s);
  env_ids n s : R s (set_w_ids n s) }.
Context (Henv : env_allows).

Lemma evolves_yield : evolves R (yield others).
Proof.
  intros s. unfold yield. destruct (in_unit_of_work (w_conn s)); [done|].
  simpl. etrans; [apply (env_tick Henv)|apply (env_others Henv)].
Qed.
Lemma evolves_conn {A} (m : M (Conn Db) Exn A) : evolves R (on_conn m).
Proof. intros s. unfold on_conn. destruct (m (conn_of s)). apply (env_conn Henv). Qed.
Lemma evolves_read {A} (body : M Db Exn A) : evolves R (db_read others body).
Proof. apply evolves_bind; [done|apply evolves_yield|]. intros _. apply evolves_conn. Qed.
Lemma evolves_write {A} (body : M Db Exn A) : evolves R (db_write others body).
Proof. apply evolves_bind; [done|apply evolves_yield|]. intros _. apply evolves_conn. Qed.
Lemma evolves_fresh : evolves R fresh_id.
Proof. intros s. apply (env_ids Henv). Qed.
Lemma evolves_draw n : evolves R (draw_ids n).
Proof. intros s. apply (env_ids Henv). Qed.
End Env.
#[export] Hint Resolve evolves_yield evolves_conn evolves_read evolves_write evolves_fresh
  evolves_draw : keep.

(** A stream every step of which keeps [I]. *)
Fixpoint stream_keeps {S} (I : S -> Prop) (stream : Stream S) : Prop :=
  match stream with
  | Next run signal => forall s, I s -> I (run s) /\
      match signal s with Yield _ rest => stream_keeps I rest | _ => True end
  end.

(** An invariant the surroundings of the actor respect: the other tasks,
    the connection, the clock of awaits, and the ports. *)
Section Keeps.
Context (config : RunnerConfig) (others : nat -> World -> World) (I : World -> Prop).

Record env_keeps : Prop := {
  keep_others k s : I s -> I (others k s);
  keep_conn c s : I s -> I (set_w_conn c s);
  keep_tick n s : I s -> I (set_w_tick n s);
  keep_ids n s : I s -> I (set_w_ids n s);
  keep_assemble dialog history : preserves I (cc_assemble (cfg_compactor config) dialog history);
  keep_compact dialog : preserves I (cc_compact_now (cfg_compactor config) dialog);
  keep_loop pid context : stream_keeps I (cfg_loop config pid context);
  keep_features limits user : cfg_limits config = Some limits ->
    preserves I (lg_enabled_features limits user);
  keep_record limits event : cfg_limits config = Some limits -> preserves I (lg_record limits event);
  keep_listener listener task status : cfg_task_outcome_listener config = Some listener ->
    preserves I (listener task status) }.
Context (Henv : env_keeps).

Lemma preserves_yield : preserves I (yield others).
Proof.
  intros s Hs. unfold yield. destruct (in_unit_of_work (w_conn s)); [done|].
  simpl. apply (keep_others Henv), (keep_tick Henv), Hs.
Qed.
Lemma preserves_conn {A} (m : M (Conn Db) Exn A) : preserves I (on_conn m).
Proof. intros s Hs. unfold on_conn. destruct (m (conn_of s)). by apply (keep_conn Henv). Qed.
Lemma preserves_read {A} (body : M Db Exn A) : preserves I (db_read others body).
Proof. apply preserves_bind; [apply preserves_yield|]. intros _. apply preserves_conn. Qed.
Lemma preserves_write {A} (body : M Db Exn A) : preserves I (db_write others body).
Proof. apply preserves_bind; [apply preserves_yield|]. intros _. apply preserves_conn. Qed.
Lemma preserves_update f :
  (forall s, I s -> I (set_w_run (f (w_run s)) s)) -> preserves I (update f).
Proof. intros Hf. apply preserves_modify, Hf. Qed.
Lemma preserves_locked {A} lock (body : M World Exn A) :
  (forall b s, I s -> I (set_w_run (lock b (w_run s)) s)) ->
  preserves I body -> preserves I (locked others lock body).
Proof.
  intros Hl Hb. unfold locked. apply preserves_bind; [apply preserves_yield|intros _].
  apply preserves_bind; [apply preserves_update, Hl|intros _].
  apply preserves_bind; [|intros a; apply preserves_bind; [apply preserves_update, Hl|intros _; apply preserves_ret]].
  apply preserves_try; [done|]. intros e. apply preserves_bind; [apply preserves_update, Hl|].
  intros _. apply preserves_raise.
Qed.
End Keeps.
#[export] Hint Resolve preserves_yield preserves_conn preserves_read preserves_write : keep.
