(* ===== verification/Outbox.v ===== *)
(** * The delivery outbox ([ConversationRunner], [agent/runner.py])

    Finished outcomes and notices wait in [r_pending] until a subscriber
    takes them; a task is stamped delivered only after that. *)
From S2P Require Import Prelude PyStr Clock Sql Dict Domain UnitOfWork Broadcast Codec TaskStore ExchangeStore MessageStore Compactor Router RunnerText RunnerState.

Section Outbox.
Context (config : RunnerConfig) (others : nat -> World -> World).

(** ** Flushing *)

(** The inner [for event in delivery.events]: what the last broadcast
    returned. *)
Fixpoint send_events (events : list LoopEvent) (exchange_id : option pystr) (accepted : nat)
    : M World Exn nat :=
  match events with
  | [] => ret accepted
  | event :: events =>
      let! accepted := broadcast_event event exchange_id in
      send_events events exchange_id accepted
  end.

(** [deque.remove(delivery)]: the first entry that is this very object. *)
Fixpoint remove_first (key : N) (l : list Delivery) : list Delivery :=
  match l with
  | [] => []
  | d :: l => if decide (dv_key d = key) then l else d :: remove_first key l
  end.

(** [popleft] when the delivery still leads the queue, else by identity. *)
Definition take_off (key : N) (pending : list Delivery) : list Delivery :=
  match pending with
  | d :: rest => if decide (dv_key d = key) then rest else remove_first key pending
  | [] => []
  end.

Definition stamp_delivery (delivery : Delivery) : M World Exn unit :=
  match dv_task_id delivery with
  | Some task_id => suppress is_task_not_found (tasks_mark_delivered others task_id)
  | None => ret tt
  end.

(** The [while] of [_flush_deliveries].  Every turn takes a delivery off the
    queue or ends the loop; deliveries queued while it runs are its business
    too, [FLUSH_SLACK] of them at most in the model, which fails beyond. *)
Definition FLUSH_SLACK : nat := 64.
Fixpoint flush_loop (fuel : nat) : M World Exn unit :=
  match fuel with
  | O => raise (OtherError "out of fuel")
  | S fuel =>
      let! r := runner id in
      match r_pending r, h_subscribers (r_hub r) with
      | delivery :: _, _ :: _ =>
          let! accepted := send_events (dv_events delivery) (dv_exchange_id delivery) 0 in
          if decide (accepted = 0) then ret tt
          else
            stamp_delivery delivery ;;;
            update (fun r => set_r_pending (take_off (dv_key delivery) (r_pending r)) r) ;;;
            flush_loop fuel
      | _, _ => ret tt
      end
  end.

Definition flush_deliveries : M World Exn unit :=
  locked others set_r_flush_lock
    (let! pending := runner r_pending in flush_loop (length pending + FLUSH_SLACK)).

(** ** Queueing *)

Definition push_back (delivery : Delivery) : M World Exn unit :=
  update (fun r => set_r_pending (r_pending r ++ [delivery]) r).
Definition push_front (delivery : Delivery) : M World Exn unit :=
  update (fun r => set_r_pending (delivery :: r_pending r) r).

(** [_persist] *)
Definition persist (message : ChatMessage) (usage : option Usage)
    (client_message_id : option pystr) : M World Exn pystr :=
  messages_append config others message usage client_message_id.

Definition narrative_append (message : ChatMessage) : M World Exn unit :=
  update (fun r => set_r_narrative (r_narrative r ++ [message]) r).

(** [_deliver_notice] *)
Definition deliver_notice (content : pystr) (exchange_id : option pystr) : M World Exn unit :=
  let notice := with_exchange exchange_id (chat_message MessageRole.ASSISTANT content) in
  let! message_id := persist notice None None in
  let notice := with_id message_id notice in
  narrative_append notice ;;;
  let! delivery := new_delivery [TextDelta content; Finished notice None None] None exchange_id in
  match exchange_id with
  | Some _ => push_front delivery
  | None => push_back delivery
  end ;;;
  flush_deliveries.

(** [_tariff_notice_once] *)
Definition tariff_notice_once (key notice : pystr) : M World Exn unit :=
  let! now := utc_now in
  let day := format_day now in
  let! notes := runner r_tariff_notes in
  if decide (dict_get key notes = Some day) then ret tt
  else
    update (fun r => set_r_tariff_notes (dict_set key day (r_tariff_notes r)) r) ;;;
    deliver_notice notice None.

Definition publish_tariff_cron_note (title cron_job_id : pystr) (verdict : LimitVerdict)
    : M World Exn unit :=
  tariff_notice_once cron_job_id (TARIFF_CRON_LIMIT_NOTICE title verdict).
Definition publish_cron_limit_note (title : pystr) : M World Exn unit :=
  let! titles := runner active_titles in
  deliver_notice (CRON_LIMIT_NOTICE title titles (cfg_max_processes config)) None.
Definition reject_for_limit (message : ChatMessage) : M World Exn unit :=
  let! titles := runner active_titles in
  deliver_notice (PROCESS_LIMIT_NOTICE (cm_content message) titles (cfg_max_processes config)) None.

(** [_enqueue_redelivery]: the stored outcome, unless it was delivered. *)
Definition enqueue_redelivery (task : Task) : M World Exn unit :=
  match tk_delivered_at task with
  | Some _ => ret tt
  | None =>
      match tk_status task with
      | TaskStatus.DONE =>
          let content := default "" (tk_result task) in
          let message := with_task (Some (tk_id task)) (chat_message MessageRole.ASSISTANT content) in
          let! delivery := new_delivery
            [delivery_started task; TextDelta content;
             Finished message None (task_client_source task)] (Some (tk_id task)) (tk_exchange_id task) in
          push_back delivery
      | TaskStatus.FAILED =>
          let error := match truthy (tk_error task) with Some e => e | None => DEFAULT_TASK_ERROR end in
          let! delivery := new_delivery [delivery_started task; Failed error]
                             (Some (tk_id task)) (tk_exchange_id task) in
          push_back delivery
      | _ => ret tt
      end
  end.

(** [_enqueue_terminal]; the terminal is a [Finished] or a [Failed]. *)
Definition enqueue_terminal (terminal : LoopEvent) (task : Task) : M World Exn unit :=
  let! delivery :=
    match terminal with
    | Finished message usage source =>
        let message := with_task (Some (tk_id task)) message in
        new_delivery [delivery_started task; TextDelta (cm_content message);
                      Finished message usage source] (Some (tk_id task)) (tk_exchange_id task)
    | Failed error =>
        new_delivery [delivery_started task; Failed error] (Some (tk_id task)) (tk_exchange_id task)
    | _ => raise (OtherError "not a terminal")
    end in
  push_back delivery.

(** [_mark_streamed_delivered] *)
Definition mark_streamed_delivered (task : Task) : M World Exn unit :=
  match tk_delivered_at task with
  | Some _ => ret tt
  | None =>
      if decide (tk_status task ∈ [TaskStatus.DONE; TaskStatus.FAILED])
      then suppress is_task_not_found (tasks_mark_delivered others (tk_id task))
      else ret tt
  end.

(** ** Subscribers *)

(** [subscribe]: [key] names the new queue; a retired runner hands back a
    closed one and attaches nothing. *)
Definition subscribe (key : N) : M World Exn queue := fun s =>
  let r := w_run s in
  if r_stood_down r then (Ok [STREAM_CLOSED], s)
  else
    let hub := {| h_seq := h_seq (r_hub r); h_dropped := h_dropped (r_hub r);
                  h_subscribers := h_subscribers (r_hub r) ++ [(key, [])] |} in
    (Ok [], set_w_run (set_r_inbox (r_inbox r ++ [CFlush]) (set_r_hub hub r)) s).
Definition unsubscribe (key : N) : M World Exn unit :=
  update (fun r => set_r_hub {| h_seq := h_seq (r_hub r); h_dropped := h_dropped (r_hub r);
    h_subscribers := filter (fun '(k, _) => k <> key) (h_subscribers (r_hub r)) |} r).

(** [request_result_delivery] *)
Definition request_result_delivery (task_id : pystr) : M World Exn unit :=
  put_command (CTerminated {| pt_task_id := task_id; pt_terminal := None; pt_exchange_id := None;
    pt_delivered_live := false; pt_exchange_status := None; pt_task := None;
    pt_unseen := UNSEEN_NONE |}).
End Outbox.

(** ** Laws *)

(** The hub after sending events, and the count of the last one. *)
Fixpoint send_pure (d : pystr) (events : list LoopEvent) (exchange_id : option pystr)
    (accepted : nat) (h : Hub) : nat * Hub :=
  match events with
  | [] => (accepted, h)
  | event :: events =>
      let '(h, accepted) := broadcast d event exchange_id h in
      send_pure d events exchange_id accepted h
  end.

Definition with_hub (h : Hub) (s : World) : World := set_w_run (set_r_hub h (w_run s)) s.

Lemma send_events_pure events x n s :
  send_events events x n s =
    (Ok (send_pure (dlg_id (r_dialog (w_run s))) events x n (r_hub (w_run s))).1,
     with_hub (send_pure (dlg_id (r_dialog (w_run s))) events x n (r_hub (w_run s))).2 s).
Proof.
  revert n s. induction events as [|e events IH]; intros n s; cbn [send_events send_pure].
  - unfold ret, with_hub. by destruct s as [? ? ? ? ? []].
  - unfold bind, broadcast_event. destruct (broadcast _ e x _) as [h k]. rewrite IH.
    by destruct s as [? ? ? ? ? []].
Qed.

Section Flush.
Context (others : nat -> World -> World).

(** What the flush relies on while it waits for the store: the other tasks
    hold no flush lock, so they may only add to the queue, at either end
    (a question jumps to the front). *)
Definition only_adds (k : nat) (s : World) : Prop :=
  let s' := others k s in
  exists front back, r_pending (w_run s') = front ++ r_pending (w_run s) ++ back /\
    Forall (fun d => dv_key d ∉ (dv_key <$> r_pending (w_run s))) front.

Lemma remove_first_app key front l :
  Forall (fun d => dv_key d <> key) front ->
  remove_first key (front ++ l) = front ++ remove_first key l.
Proof.
  induction 1 as [|d front Hd Hf IH]; [done|]. simpl. by rewrite decide_False, IH.
Qed.

Lemma take_off_app d front rest back :
  Forall (fun x => dv_key x <> dv_key d) front ->
  take_off (dv_key d) (front ++ d :: rest ++ back) = front ++ rest ++ back.
Proof.
  intros Hf. pose proof (remove_first_app (dv_key d) front (d :: rest ++ back) Hf) as Hrm.
  cbn [remove_first] in Hrm. rewrite decide_True in Hrm by done.
  destruct front as [|f front]; [by cbn; rewrite decide_True|].
  inv Hf. unfold take_off. cbn [app]. by rewrite decide_False.
Qed.

(** A delivery is taken off by identity: exactly the flushed one leaves the
    queue, and what the other tasks queued meanwhile — a question in front
    of it included — stays. *)
Lemma take_off_exact d rest s k :
  r_pending (w_run s) = d :: rest -> only_adds k s ->
  exists front back, r_pending (w_run (others k s)) = front ++ d :: rest ++ back /\
    take_off (dv_key d) (r_pending (w_run (others k s))) = front ++ rest ++ back.
Proof.
  intros Hp (front & back & Heq & Hfresh). exists front, back. rewrite Heq, Hp. split; [done|].
  apply take_off_app. eapply Forall_impl; [exact Hfresh|]. intros x Hx Hk. apply Hx.
  rewrite Hp, fmap_cons, Hk. apply list_elem_of_here.
Qed.
End Flush.

(** ** A whole flush, undisturbed *)

(** The task table after [mark_delivered] of a delivery's task; a task that
    is gone is passed over. *)
Definition stamp_task (now : time) (d : Delivery) (t : list Task) : list Task :=
  match dv_task_id d with
  | Some k => update_where (fun r => tk_id r = k) (stamp_delivered now) t
  | None => t
  end.

Definition outbox_of (s : World) : list Delivery := r_pending (w_run s).
Definition hub_of (s : World) : Hub := r_hub (w_run s).
Definition tasks_of (s : World) : list Task := d_tasks (db_of s).

(** Big steps of the flush: what is queued, the hub and the task table
    before; what was delivered; the same three after. *)
Inductive flushed (dialog : pystr) (now : time)
    : list Delivery -> Hub -> list Task -> list Delivery -> list Delivery -> Hub -> list Task -> Prop :=
| FEmpty h t : flushed dialog now [] h t [] [] h t
| FNobody p h t : h_subscribers h = [] -> flushed dialog now p h t [] p h t
| FRefused d p h h' t :
    h_subscribers h <> [] ->
    send_pure dialog (dv_events d) (dv_exchange_id d) 0 h = (0, h') ->
    flushed dialog now (d :: p) h t [] (d :: p) h' t
| FTaken d p h h1 h' t t' n done rest :
    h_subscribers h <> [] ->
    send_pure dialog (dv_events d) (dv_exchange_id d) 0 h = (n, h1) -> 0 < n ->
    flushed dialog now p h1 (stamp_task now d t) done rest h' t' ->
    flushed dialog now (d :: p) h t (d :: done) rest h' t'.

Section FlushQuiet.
Context (others : nat -> World -> World) (Hquiet : quiet others).

Definition with_tasks (t : list Task) (s : World) : World := with_db (set_d_tasks t (db_of s)) s.

Lemma stamp_delivery_quiet d s :
  at_rest s -> exists s', stamp_delivery others d s = (Ok tt, s') /\ at_rest s' /\
    tasks_of s' = stamp_task (w_now s) d (tasks_of s) /\ w_run s' = w_run s /\ w_now s' = w_now s.
Proof.
  intros Hs. unfold stamp_delivery, stamp_task. destruct (dv_task_id d) as [k|]; [|by exists s].
  unfold suppress, try_except, tasks_mark_delivered, utc_now, bind, gets.
  rewrite (db_write_quiet others Hquiet _ s Hs). unfold on_table, Sql.mark_delivered. simpl.
  case_decide as Hc; simpl.
  - exists (ticked s). split_and!; try done.
    change (tasks_of (ticked s)) with (tasks_of s). by rewrite update_where_none.
  - eexists. split; [done|]. by split_and!.
Qed.

Lemma flush_loop_quiet fuel s :
  at_rest s -> length (outbox_of s) < fuel ->
  exists s' done, flush_loop others fuel s = (Ok tt, s') /\ at_rest s' /\
    outbox_of s = done ++ outbox_of s' /\
    flushed (dlg_id (r_dialog (w_run s))) (w_now s)
      (outbox_of s) (hub_of s) (tasks_of s) done (outbox_of s') (hub_of s') (tasks_of s').
Proof.
  revert s. induction fuel as [|fuel IH]; intros s Hs Hfuel; [lia|].
  cbn [flush_loop]. unfold bind at 1, runner, gets. unfold id.
  change (r_pending (w_run s)) with (outbox_of s). change (r_hub (w_run s)) with (hub_of s).
  destruct (outbox_of s) as [|d rest] eqn:Hp.
  { exists s, []. rewrite Hp. split_and!; try done. constructor. }
  destruct (h_subscribers (hub_of s)) as [|sub subs] eqn:Hsubs.
  { exists s, []. rewrite Hp. split_and!; try done. by constructor. }
  unfold bind at 1. rewrite send_events_pure. change (r_hub (w_run s)) with (hub_of s).
  destruct (send_pure _ (dv_events d) _ 0 (hub_of s)) as [n h1] eqn:Hsend. cbn [fst snd].
  assert (h_subscribers (hub_of s) <> []) as Hne by (by rewrite Hsubs).
  case_decide as Hn.
  { subst n. exists (with_hub h1 s), []. change (outbox_of (with_hub h1 s)) with (outbox_of s).
    rewrite Hp. split_and!; try done. by apply (FRefused _ _ d rest). }
  destruct (stamp_delivery_quiet d (with_hub h1 s) Hs) as (s1 & Hst & Hs1 & Ht1 & Hr1 & Hn1).
  rewrite (bind_Ok _ _ _ _ _ Hst). unfold bind, update, modify.
  set (s2 := set_w_run _ s1).
  assert (outbox_of s2 = rest) as Hp2.
  { unfold s2, outbox_of. cbn. rewrite Hr1. change (r_pending (w_run (with_hub h1 s))) with (outbox_of s).
    rewrite Hp. cbn. by rewrite decide_True. }
  assert (hub_of s2 = h1) as Hh2 by (unfold s2, hub_of; cbn; by rewrite Hr1).
  assert (tasks_of s2 = stamp_task (w_now s) d (tasks_of s)) as Ht2 by exact Ht1.
  assert (r_dialog (w_run s2) = r_dialog (w_run s)) as Hd2 by (unfold s2; cbn; by rewrite Hr1).
  destruct (IH s2) as (s' & done & Hrun & Hs' & Happ & Hfl).
  { exact Hs1. }
  { rewrite Hp2. simpl in Hfuel. lia. }
  exists s', (d :: done). split; [exact Hrun|]. split; [done|]. rewrite Hp2 in Happ.
  split; [simpl; by f_equal|].
  eapply FTaken; [done|exact Hsend|lia|].
  rewrite Hp2, Hh2, Ht2, Hd2 in Hfl. change (w_now s2) with (w_now s1) in Hfl. by rewrite Hn1 in Hfl.
Qed.

Lemma locked_quiet {A} lock (body : M World Exn A) s :
  at_rest s ->
  locked others lock body s =
    (let s1 := set_w_run (lock true (w_run s)) (ticked s) in
     let '(r, s2) := body s1 in (r, set_w_run (lock false (w_run s2)) s2)).
Proof.
  intros Hs. unfold locked. rewrite (bind_Ok _ _ _ _ _ (yield_quiet others Hquiet s Hs)).
  unfold bind, update, modify, try_except. destruct (body _) as [[a|e] s2]; done.
Qed.

(** A flush delivers a prefix of the outbox in order.  A delivery leaves the
    outbox, and its task is stamped, only when its last event was accepted
    by a subscriber queue; at the first one nobody accepts, or with nobody
    attached, everything from there on stays queued. *)
Lemma flush_deliveries_spec s :
  at_rest s ->
  exists s' done, flush_deliveries others s = (Ok tt, s') /\ at_rest s' /\
    outbox_of s = done ++ outbox_of s' /\
    flushed (dlg_id (r_dialog (w_run s))) (w_now s)
      (outbox_of s) (hub_of s) (tasks_of s) done (outbox_of s') (hub_of s') (tasks_of s').
Proof.
  intros Hs. unfold flush_deliveries. rewrite locked_quiet by done. cbn zeta.
  set (s1 := set_w_run _ (ticked s)).
  destruct (flush_loop_quiet (length (outbox_of s1) + FLUSH_SLACK) s1 Hs ltac:(unfold FLUSH_SLACK; lia))
    as (s2 & done & Hrun & Hs2 & Happ & Hfl).
  unfold bind at 1, runner, gets. change (r_pending (w_run s1)) with (outbox_of s1). rewrite Hrun.
  eexists _, done. split; [done|]. split; [done|]. split; [exact Happ|exact Hfl].
Qed.
End FlushQuiet.

(** What [flushed] says about a delivery that left. *)
Lemma flushed_accepted dialog now p h t done rest h' t' d :
  flushed dialog now p h t done rest h' t' -> d ∈ done ->
  exists h0 n h1, send_pure dialog (dv_events d) (dv_exchange_id d) 0 h0 = (n, h1) /\ 0 < n.
Proof.
  induction 1; intros Hd; try (by apply not_elem_of_nil in Hd).
  apply elem_of_cons in Hd as [->|Hd]; eauto.
Qed.
