(* ===== verification/Pump.v ===== *)
(** * Runs: branches, pumps and their ends ([ConversationRunner], [agent/runner.py])

    A process streams the agent loop over a private branch, re-reads the
    narrative at every iteration, folds its outcome into the store and hands
    it back to the actor.  A [_Process] object is found in the model by its
    id in [r_processes]. *)
From S2P Require Import Prelude PyStr Clock Sql Dict Domain UnitOfWork Branch Broadcast Codec TaskStore ExchangeStore MessageStore Compactor Router RunnerText RunnerState Outbox.

Section Pump.
Context (config : RunnerConfig) (others : nat -> World -> World).

(** ** The narrative part of a branch *)

Definition system_message : ChatMessage :=
  chat_message MessageRole.SYSTEM (cfg_system_prompt config).

Definition live_exchange_ids (own_exchange_id : option pystr) : M World Exn (gset pystr) :=
  let! live := exchanges_list_live others in
  ret (list_to_set (filter (fun i => Some i <> own_exchange_id) (ex_id <$> live))).

Definition trim_narrative (dropped : Z) : M World Exn unit :=
  if (dropped <=? 0)%Z then ret tt
  else
    let n := Z.to_nat dropped in
    update (fun r =>
      set_r_processes
        ((fun '(k, p) => (k, set_p_watermark (p_watermark p - n) p)) <$> r_processes r)
        (set_r_narrative (drop n (r_narrative r)) r)).

(** [asyncio.gather] of two coroutines, whichever runs first. *)
Definition gather {A B} (a : M World Exn A) (b : M World Exn B) : M World Exn (A * B) :=
  let! tick := gets w_tick in
  if cfg_left_first config tick
  then let! x := a in let! y := b in ret (x, y)
  else let! y := b in let! x := a in ret (x, y).

Definition envelope_last (now : time) (l : list ChatMessage) : list ChatMessage :=
  match last l with
  | Some m => removelast l ++ [with_date_envelope now m]
  | None => l
  end.

(** [_assemble_narrative] *)
Definition assemble_narrative (own_exchange_id : option pystr)
    : M World Exn (list ChatMessage * nat) :=
  let! dialog := runner r_dialog in
  let! ' (assembled, live_ids) :=
    locked others set_r_assemble_lock
      (let! both := gather (cc_assemble (cfg_compactor config) dialog (fun s => r_narrative (w_run s)))
                      (live_exchange_ids own_exchange_id) in
       trim_narrative (Z.of_nat (ac_snapshot_len both.1) - Z.of_nat (ac_tail_count both.1)) ;;;
       ret both) in
  let! now := utc_now in
  ret (envelope_last now (render_branch (ac_messages assembled) own_exchange_id live_ids),
       ac_tail_count assembled).

(** ** Processes *)

Definition create_process (task : Task) (branch : list ChatMessage) (narrative_built : bool)
    : M World Exn Process :=
  let process :=
    {| p_id := tk_id task; p_title := tk_title task; p_task_id := tk_id task; p_cancelled := false;
       p_branch := branch; p_narrative_built := narrative_built; p_synced_len := 0;
       p_watermark := 0; p_exchange_id := tk_exchange_id task;
       p_source_message_id := task_source_message task;
       p_source_client_message_id := task_client_source task; p_terminal_accepted := false;
       p_overflow_retried := false; p_asked := false; p_origin := task_origin task;
       p_spent_prompt := 0; p_spent_completion := 0 |} in
  update (fun r => set_r_processes (dict_set (p_id process) process (r_processes r)) r) ;;;
  ret process.

(** [_start_process]: a task that is its own prompt. *)
Definition start_process (task : Task) : M World Exn unit :=
  let prompt := default (tk_title task) (json_str (dict_get "prompt" (tk_input task))) in
  let! now := utc_now in
  create_process task
    [chat_message MessageRole.SYSTEM BACKGROUND_TASK_PROMPT;
     with_date_envelope now (chat_message MessageRole.USER prompt)] false ;;;
  ret tt.

Definition cancel_process (target_id : pystr) : M World Exn bool :=
  let! process := get_process target_id in
  match process with
  | None => ret false
  | Some _ => modify_process target_id (set_p_cancelled true) ;;; ret true
  end.

(** The process of a pump; it stays registered until its own pump ends it. *)
Definition the_process (pid : pystr) : M World Exn Process :=
  let! process := get_process pid in
  match process with
  | Some process => ret process
  | None => raise (OtherError "no such process")
  end.

(** [_sync_branch] *)
Definition sync_branch (pid : pystr) (force : bool) : M World Exn unit :=
  let! process := the_process pid in
  let! narrative := runner r_narrative in
  if negb (p_narrative_built process) then ret tt
  else if negb force && bool_decide (length narrative = p_watermark process) then ret tt
  else
    let! ' (narrative, watermark) := assemble_narrative (p_exchange_id process) in
    modify_process pid (fun process =>
      let private := drop (p_synced_len process) (p_branch process) in
      set_p_watermark watermark
        (set_p_synced_len (1 + length narrative)
          (set_p_branch (system_message :: narrative ++ private) process))).

(** ** Streaming *)

Definition observe_spend (event : LoopEvent) (process : Process) : Process :=
  match event with
  | AssistantMessage _ _ (Some usage) =>
      set_p_spent_completion (p_spent_completion process + completion_tokens usage)
        (set_p_spent_prompt (p_spent_prompt process + prompt_tokens usage) process)
  | _ => process
  end.

Definition outgoing (process : Process) (event : LoopEvent) : option LoopEvent :=
  let out := match event with
             | Finished message usage _ =>
                 Finished message usage (p_source_client_message_id process)
             | event => event
             end in
  if p_asked process then muted_after_ask out else Some out.

(** A broadcast of a run's terminal: accepted or not, the process remembers. *)
Definition broadcast_terminal (pid : pystr) (terminal : LoopEvent) : M World Exn unit :=
  let! process := the_process pid in
  match p_exchange_id process with
  | None => ret tt
  | Some e =>
      let! accepted := broadcast_event terminal (Some e) in
      modify_process pid (set_p_terminal_accepted (0 <? accepted)%nat)
  end.

Definition fail_run (pid error : pystr) : M World Exn LoopEvent :=
  broadcast_terminal pid (Failed error) ;;;
  ret (Failed error).

Definition is_outcome (event : LoopEvent) : bool :=
  match event with Finished _ _ _ | Failed _ => true | _ => false end.
Definition is_terminal (event : LoopEvent) : bool :=
  match event with Cancelled => true | event => is_outcome event end.
Definition is_iteration_started (event : LoopEvent) : bool :=
  match event with IterationStarted _ => true | _ => false end.

(** The body of the [async for] of [_stream_once]; [terminal] is the local. *)
Definition handle_event (pid : pystr) (terminal event : LoopEvent) : M World Exn LoopEvent :=
  when (is_iteration_started event) (sync_branch pid false) ;;;
  modify_process pid (observe_spend event) ;;;
  let! process := the_process pid in
  match outgoing process event with
  | None => ret terminal
  | Some out =>
      (if is_outcome out then broadcast_terminal pid out
       else match p_exchange_id process with
            | Some e => let! _ := broadcast_event out (Some e) in ret tt
            | None => ret tt
            end) ;;;
      ret (if is_terminal out then out else terminal)
  end.

Fixpoint consume (pid : pystr) (stream : Stream World) (terminal : LoopEvent)
    : M World Exn LoopEvent :=
  match stream with
  | Next run signal => fun s =>
      match signal s with
      | Stop => (Ok terminal, run s)
      | Raise e => (Err e, run s)
      | Yield event rest =>
          (let! terminal := handle_event pid terminal event in consume pid rest terminal) (run s)
      end
  end.

Definition error_text (e : Exn) : pystr := format_error (cfg_exn_name config e) (cfg_exn_text config e).
Definition is_overflow (e : Exn) : bool :=
  match e with LLMError ErrorKind.CONTEXT_OVERFLOW _ _ => true | _ => false end.
Definition NO_TERMINAL : LoopEvent := Failed "loop ended without a terminal event".

Definition stream_once (pid : pystr) : M World Exn LoopEvent :=
  let! dialog := runner r_dialog in
  let! features :=
    match cfg_limits config with
    | Some limits => lg_enabled_features limits (dlg_user_id dialog)
    | None => ret None
    end in
  let! process := the_process pid in
  let context :=
    {| tx_user_id := dlg_user_id dialog; tx_channel := dlg_channel dialog;
       tx_dialog_id := dlg_id dialog; tx_process_id := pid;
       tx_can_see_images := bool_decide (is_Some (cfg_vision config)) &&
                            bool_decide (is_Some (cfg_image_resolver config));
       tx_owner_task_id := p_task_id process; tx_enabled_features := features |} in
  try_except (consume pid (cfg_loop config pid context) NO_TERMINAL) (fun e =>
    if is_overflow e || negb (is_exception e) then raise e
    else fail_run pid (error_text e)).

(** [_stream_terminal]: the [while True]; after one reactive compaction the
    next overflow ends the run, so two turns are all there are. *)
Fixpoint stream_loop (fuel : nat) (pid : pystr) : M World Exn LoopEvent :=
  match fuel with
  | O => raise (OtherError "out of fuel")
  | S fuel =>
      try_except (stream_once pid) (fun e =>
        if is_overflow e then
          let! process := the_process pid in
          if p_overflow_retried process || negb (p_narrative_built process)
          then fail_run pid (error_text e)
          else
            modify_process pid (set_p_overflow_retried true) ;;;
            let! dialog := runner r_dialog in
            let! compacted := cc_compact_now (cfg_compactor config) dialog in
            if negb compacted then fail_run pid (error_text e)
            else
              sync_branch pid true ;;;
              stream_loop fuel pid
        else raise e)
  end.
Definition stream_terminal (pid : pystr) : M World Exn LoopEvent := stream_loop 2 pid.

(** ** The end of a run *)

(** [_unseen_kind] *)
Definition arrived (process : Process) (narrative : list ChatMessage) : list ChatMessage :=
  filter (fun m => cm_role m = MessageRole.USER /\ cm_exchange_id m = p_exchange_id process)
    (drop (p_watermark process) narrative).
Definition unseen_kind (process : Process) (narrative : list ChatMessage) : Unseen :=
  if negb (p_narrative_built process) || bool_decide (p_exchange_id process = None) then UNSEEN_NONE
  else
    match arrived process narrative with
    | [] => UNSEEN_NONE
    | l => if decide (Forall (fun m => cm_kind m = MessageKind.MATERIAL) l)
           then MATERIAL_ONLY else SPOKEN
    end.

(** [_terminate_process] of the process [pid]; [process] is the object as it
    is now. *)
Definition terminate_process (pid : pystr) (process : Process) (status : TaskStatus.t) (terminal : LoopEvent)
    (task : option Task) : M World Exn unit :=
  update (fun r => set_r_processes (dict_pop pid (r_processes r)) r) ;;;
  when (cfg_response_memory config)
    (modify (fun s => set_w_dropped (w_dropped s ++ [p_task_id process]) s)) ;;;
  let! _ := broadcast_event
    (ProcessCompleted pid (p_title process) (TaskStatus.value status))
    (p_exchange_id process) in
  let! narrative := runner r_narrative in
  put_command (CTerminated
    {| pt_task_id := p_task_id process;
       pt_terminal := if is_outcome terminal then Some terminal else None;
       pt_exchange_id := p_exchange_id process;
       pt_delivered_live := p_terminal_accepted process;
       pt_exchange_status := Some (exchange_outcome status);
       pt_task := task;
       pt_unseen := unseen_kind process narrative |}).

Definition delivery_is_certain (process : Process) (content : pystr) : bool :=
  blank content || (bool_decide (is_Some (p_exchange_id process)) && p_terminal_accepted process).

Definition compact_after_run_final : M World Exn unit :=
  except_exception (let! _ := assemble_narrative None in ret tt) (fun _ => ret tt).

Definition report_outcome (task : Task) (status : TaskStatus.t) : M World Exn unit :=
  match cfg_task_outcome_listener config with
  | Some listener =>
      if dict_has "cron_job_id" (tk_input task)
      then except_exception (listener task status) (fun _ => ret tt) else ret tt
  | None => ret tt
  end.

(** [_salvage_interrupted_turn] *)
Definition salvage_interrupted_turn (process : Process)
    : M World Exn (option (ChatMessage * ChatMessage)) :=
  match latest_assistant_with_content (drop (p_synced_len process) (p_branch process)) with
  | None => ret None
  | Some last =>
      let salvaged := with_task (Some (p_task_id process)) last in
      let note := chat_message MessageRole.SYSTEM INTERRUPTED_NOTE in
      messages_append_pair config others salvaged note ;;;
      ret (Some (salvaged, note))
  end.

Definition answered (terminal : LoopEvent) : bool :=
  match terminal with Finished message _ _ => negb (blank (cm_content message)) | _ => false end.

Definition record_run_usage (process : Process) (terminal : LoopEvent) : M World Exn unit :=
  match cfg_limits config with
  | None => ret tt
  | Some limits =>
      if negb (answered terminal) && (p_spent_prompt process =? 0)%Z &&
         (p_spent_completion process =? 0)%Z then ret tt
      else
        let! dialog := runner r_dialog in
        lg_record limits
          {| ue_user_id := dlg_user_id dialog; ue_kind := UsageKind.LLM_ANSWER;
             ue_origin := p_origin process; ue_prompt_tokens := p_spent_prompt process;
             ue_completion_tokens := p_spent_completion process;
             ue_quantity := if answered terminal then 1 else 0;
             ue_dialog_id := Some (dlg_id dialog); ue_exchange_id := p_exchange_id process;
             ue_task_id := Some (p_task_id process); ue_created_at := None |}
  end.

(** [_finalize], the three ways a run may end. *)
Definition finish_done (process : Process) (message : ChatMessage) (usage : option Usage)
    : M World Exn Task :=
  let content := cm_content message in
  let delivered := delivery_is_certain process content in
  if blank content then tasks_mark_done others (p_task_id process) content delivered
  else
    let message := with_exchange (p_exchange_id process)
                     (with_task (Some (p_task_id process)) message) in
    let! task :=
      unit_of_work config others
        (let! _ := persist config others message usage None in
         tasks_mark_done others (p_task_id process) content delivered) in
    narrative_append message ;;;
    when (negb (p_narrative_built process)) compact_after_run_final ;;;
    ret task.
Definition finish_failed (process : Process) (error : pystr) : M World Exn Task :=
  tasks_mark_failed others (p_task_id process) error (delivery_is_certain process error).
Definition finish_cancelled (process : Process) : M World Exn Task :=
  let! ' (salvaged, task) :=
    unit_of_work config others
      (let! salvaged := salvage_interrupted_turn process in
       let! task := tasks_mark_cancelled others (p_task_id process) in
       ret (salvaged, task)) in
  match salvaged with
  | Some (message, note) => update (fun r => set_r_narrative (r_narrative r ++ [message; note]) r)
  | None => ret tt
  end ;;;
  ret task.

Definition finalize (pid : pystr) (terminal : LoopEvent) : M World Exn (TaskStatus.t * Task) :=
  let! process := the_process pid in
  let! ' (status, task) :=
    match terminal with
    | Finished message usage _ =>
        let! task := finish_done process message usage in ret (TaskStatus.DONE, task)
    | Failed error => let! task := finish_failed process error in ret (TaskStatus.FAILED, task)
    | _ => let! task := finish_cancelled process in ret (TaskStatus.CANCELLED, task)
    end in
  record_run_usage process terminal ;;;
  report_outcome task status ;;;
  ret (status, task).

(** [_pump_process]: the object is the registered one, or the last known. *)
Definition process_now (process : Process) (r : Runner) : Process :=
  default process (dict_get (p_id process) (r_processes r)).

(** What the [try] of [_pump_process] leaves in [terminal], [status] and
    [task], and the exception on its way out, if any. *)
Definition run_and_finalize (pid : pystr)
    : M World Exn (LoopEvent * (TaskStatus.t * option Task) * option Exn) :=
  let failed := (TaskStatus.FAILED, None) in
  let! ' (terminal, cut) :=
    try_except
      (let! t := except_exception (stream_terminal pid) (fun e => fail_run pid (error_text e)) in
       ret (t, None))
      (fun e => ret (Cancelled, Some e)) in
  match cut with
  | Some e => ret (terminal, failed, Some e)
  | None =>
      try_except (let! ' (status, task) := finalize pid terminal in
                  ret (terminal, (status, Some task), None))
        (fun e => ret (terminal, failed, if is_exception e then None else Some e))
  end.

Definition pump_process (process : Process) : M World Exn unit :=
  let! ' (terminal, (status, task), cut) := run_and_finalize (p_id process) in
  let! now := runner (process_now process) in
  terminate_process (p_id process) now status terminal task ;;;
  match cut with Some e => raise e | None => ret tt end.
End Pump.
