(* ===== verification/PumpLaws.v ===== *)
(** * Laws of a run ([agent/runner.py])

    A pump always gives its slot back; a sync renders or keeps unseen every
    message of the narrative; an answer and the end of its task land
    together; an overflow is retried once. *)
From S2P Require Import Prelude PyStr Clock Sql Dict Domain UnitOfWork Branch Broadcast Codec TaskStore ExchangeStore MessageStore Compactor Router RunnerText RunnerState Outbox Pump.

(** ** The process of a pump *)

(** What a pump does to its process while it runs. *)
Inductive own_change : Process -> Process -> Prop :=
| change_watermark n p : own_change p (set_p_watermark n p)
| change_synced_len n p : own_change p (set_p_synced_len n p)
| change_branch branch p : own_change p (set_p_branch branch p)
| change_spend event p : own_change p (observe_spend event p)
| change_accepted b p : own_change p (set_p_terminal_accepted b p)
| change_retried p : own_change p (set_p_overflow_retried true p).

(** A fact of the process of a pump, which the pump's own changes and what
    surrounds it keep, holds to the end of the run. *)
Section Own.
Context (config : RunnerConfig) (others : nat -> World -> World) (pid : pystr) (Q : Process -> Prop).
Definition own_process (s : World) : Prop :=
  match dict_get pid (r_processes (w_run s)) with Some p => Q p | None => True end.
Context (Hq : forall p p', own_change p p' -> Q p -> Q p') (Henv : env_keeps config others own_process).

Lemma own_modify f : (forall p, Q p -> Q (f p)) -> preserves own_process (modify_process pid f).
Proof using Type.
  intros Hf. apply preserves_update. intros s Hs. unfold own_process in *. cbn.
  destruct (dict_get pid (r_processes (w_run s))) as [p|] eqn:Hp; cbn; [|by rewrite Hp].
  rewrite dict_get_set, decide_True by done. by apply Hf.
Qed.
Lemma own_modified f : (forall p, own_change p (f p)) -> preserves own_process (modify_process pid f).
Proof using Hq. intros Hf. apply own_modify. intros p. by apply Hq. Qed.
Lemma own_update f : (forall r, r_processes (f r) = r_processes r) -> preserves own_process (update f).
Proof using Type. intros Hf. apply preserves_update. intros s Hs. unfold own_process in *. cbn. by rewrite Hf. Qed.
Lemma own_broadcast event x : preserves own_process (broadcast_event event x).
Proof using Type.
  intros s Hs. unfold broadcast_event.
  match goal with |- context [broadcast ?a ?b ?c ?d] => by destruct (broadcast a b c d) end.
Qed.
Lemma own_trim n : preserves own_process (trim_narrative n).
Proof using Hq.
  unfold trim_narrative. case_match; [apply preserves_ret|]. apply preserves_update.
  intros s. unfold own_process. cbn. intros Hs.
  induction (r_processes (w_run s)) as [|[k p] l IH]; [done|]. cbn in *.
  case_decide; [|by apply IH]. eapply Hq; [apply change_watermark|exact Hs].
Qed.
Lemma own_read : preserves own_process (the_process pid).
Proof using Type.
  unfold the_process, get_process, runner. apply preserves_bind; [apply preserves_gets|].
  intros []; [apply preserves_ret|apply preserves_raise].
Qed.
Lemma own_live own : preserves own_process (live_exchange_ids others own).
Proof using Henv.
  unfold live_exchange_ids, exchanges_list_live, dialog_id, runner.
  apply preserves_bind; [|intros; apply preserves_ret].
  apply preserves_bind; [apply preserves_gets|]. intros. by eapply preserves_read.
Qed.
Lemma own_assemble own : preserves own_process (assemble_narrative config others own).
Proof using Hq Henv.
  unfold assemble_narrative. apply preserves_bind; [apply preserves_gets|intros dialog].
  apply preserves_bind; [|intros []; apply preserves_bind; [apply preserves_gets|intros; apply preserves_ret]].
  eapply preserves_locked; [exact Henv| |].
  { intros b s Hs. exact Hs. }
  apply preserves_bind; [|intros both; apply preserves_bind; [apply own_trim|intros; apply preserves_ret]].
  unfold gather. apply preserves_bind; [apply preserves_gets|intros tick].
  case_match; (apply preserves_bind; [apply (keep_assemble _ _ _ Henv) || apply own_live|intros x]);
    (apply preserves_bind; [apply (keep_assemble _ _ _ Henv) || apply own_live|intros y]);
    apply preserves_ret.
Qed.
Lemma own_sync force : preserves own_process (sync_branch config others pid force).
Proof using Hq Henv.
  unfold sync_branch. apply preserves_bind; [apply own_read|intros p].
  apply preserves_bind; [apply preserves_gets|intros narrative]. repeat case_match; try apply preserves_ret.
  apply preserves_bind; [apply own_assemble|intros []]. apply own_modify. intros q Hqq.
  eapply Hq; [apply change_watermark|]. eapply Hq; [apply change_synced_len|]. by eapply Hq; [apply change_branch|].
Qed.
Lemma own_terminal terminal : preserves own_process (broadcast_terminal pid terminal).
Proof using Hq.
  unfold broadcast_terminal. apply preserves_bind; [apply own_read|intros p].
  case_match; [|apply preserves_ret]. apply preserves_bind; [apply own_broadcast|intros n].
  apply own_modified. apply change_accepted.
Qed.
Lemma own_fail error : preserves own_process (fail_run pid error).
Proof using Hq. apply preserves_bind; [apply own_terminal|intros; apply preserves_ret]. Qed.
Lemma own_event terminal event : preserves own_process (handle_event config others pid terminal event).
Proof using Hq Henv.
  unfold handle_event. apply preserves_bind; [apply preserves_when, own_sync|intros _].
  apply preserves_bind; [apply own_modified, change_spend|intros _].
  apply preserves_bind; [apply own_read|intros p]. case_match; [|apply preserves_ret].
  apply preserves_bind; [|intros _; apply preserves_ret].
  case_match; [apply own_terminal|]. case_match; [|apply preserves_ret].
  apply preserves_bind; [apply own_broadcast|intros; apply preserves_ret].
Qed.
Lemma own_consume stream terminal :
  stream_keeps own_process stream -> preserves own_process (consume config others pid stream terminal).
Proof using Hq Henv.
  revert stream terminal. fix IH 1. intros [run signal] terminal Hk s Hs.
  cbn [consume]. cbn [stream_keeps] in Hk. destruct (Hk s Hs) as [Hr Hk'].
  destruct (signal s) as [|e|event rest]; [exact Hr|exact Hr|].
  unfold bind. pose proof (own_event terminal event (run s) Hr) as He.
  destruct (handle_event config others pid terminal event (run s)) as [[t|e] s1]; [|exact He].
  by apply (IH rest t Hk').
Qed.
Lemma own_once : preserves own_process (stream_once config others pid).
Proof using Hq Henv.
  unfold stream_once. apply preserves_bind; [apply preserves_gets|intros dialog].
  apply preserves_bind.
  { destruct (cfg_limits config) as [limits|] eqn:Hl; [|apply preserves_ret].
    by apply (keep_features _ _ _ Henv). }
  intros features. apply preserves_bind; [apply own_read|intros p].
  apply preserves_try; [by apply own_consume, (keep_loop _ _ _ Henv)|].
  intros e. case_match; [apply preserves_raise|apply own_fail].
Qed.
Lemma own_stream fuel : preserves own_process (stream_loop config others fuel pid).
Proof using Hq Henv.
  induction fuel as [|fuel IH]; [apply preserves_raise|]. cbn [stream_loop]. apply preserves_try; [apply own_once|intros e].
  case_match; [|apply preserves_raise]. apply preserves_bind; [apply own_read|intros p]. case_match; [apply own_fail|].
  apply preserves_bind; [apply own_modified, change_retried|intros _]. apply preserves_bind; [apply preserves_gets|intros dialog].
  apply preserves_bind; [apply (keep_compact _ _ _ Henv)|intros compacted]. case_match; [apply own_fail|].
  apply preserves_bind; [apply own_sync|intros _; exact IH].
Qed.

Lemma own_uow {A} (body : M World Exn A) : preserves own_process body -> preserves own_process (unit_of_work config others body).
Proof using Henv.
  intros Hb. unfold unit_of_work. apply preserves_bind; [by eapply preserves_yield|intros _]. intros s Hs. unfold uow.
  case_match; [by apply Hb|]. case_match; [done|].
  match goal with |- context [body ?s1] => pose proof (Hb s1 (keep_conn _ _ _ Henv _ s Hs)) as H1; destruct (body s1) as [[a|e] s2] end;
    cbn in H1 |- *; [|exact H1].
  destruct (round_trip (w_conn s2)) as [[[]|e] c]; [|exact H1]. by destruct (active (w_conn s2)).
Qed.
Lemma own_log message usage client : preserves own_process (persist config others message usage client).
Proof using Henv.
  unfold persist, messages_append, dialog_id, runner, utc_now. apply preserves_bind; [by eapply preserves_yield|intros _].
  do 2 (apply preserves_bind; [apply preserves_gets|intros ?]).
  apply preserves_bind; [intros s Hs; exact Hs|intros id]. by eapply preserves_conn.
Qed.
Lemma own_write {A} (body : M Db Exn A) : preserves own_process (db_write others body).
Proof using Henv. by eapply preserves_write. Qed.
Lemma own_salvage p : preserves own_process (salvage_interrupted_turn config others p).
Proof using Henv.
  unfold salvage_interrupted_turn. case_match; [|apply preserves_ret]. apply preserves_bind; [|intros; apply preserves_ret].
  unfold messages_append_pair, dialog_id, runner, utc_now. apply preserves_bind; [by eapply preserves_yield|intros _].
  do 2 (apply preserves_bind; [apply preserves_gets|intros ?]).
  do 2 (apply preserves_bind; [intros s Hs; exact Hs|intros ?]). by eapply preserves_conn.
Qed.
Lemma own_finalize terminal : preserves own_process (finalize config others pid terminal).
Proof using Hq Henv.
  assert (forall p, preserves own_process (finish_cancelled config others p)) as Hcancelled.
  { intros p. unfold finish_cancelled. apply preserves_bind.
    - apply own_uow. apply preserves_bind; [apply own_salvage|intros x]. apply preserves_bind; [|intros; apply preserves_ret].
      unfold tasks_mark_cancelled, utc_now. apply preserves_bind; [apply preserves_gets|intros; apply own_write].
    - intros [[[m n]|] task]; (apply preserves_bind; [|intros; apply preserves_ret]); [by apply own_update|apply preserves_ret]. }
  unfold finalize. apply preserves_bind; [apply own_read|intros p]. apply preserves_bind.
  - destruct terminal; try (apply preserves_bind; [apply Hcancelled|intros; apply preserves_ret]);
      (apply preserves_bind; [|intros; apply preserves_ret]).
    + unfold finish_done. case_match.
      { unfold tasks_mark_done, utc_now. apply preserves_bind; [apply preserves_gets|intros; apply own_write]. }
      apply preserves_bind; [|intros task; apply preserves_bind; [by apply own_update|intros _]].
      * apply own_uow. apply preserves_bind; [apply own_log|intros _]. unfold tasks_mark_done, utc_now.
        apply preserves_bind; [apply preserves_gets|intros; apply own_write].
      * apply preserves_bind; [|intros; apply preserves_ret]. apply preserves_when. unfold compact_after_run_final, except_exception.
        apply preserves_try; [apply preserves_bind; [apply own_assemble|intros; apply preserves_ret]|].
        intros e. case_match; [apply preserves_ret|apply preserves_raise].
    + unfold finish_failed, tasks_mark_failed, utc_now. apply preserves_bind; [apply preserves_gets|intros; apply own_write].
  - intros [status task]. apply preserves_bind; [|intros _; apply preserves_bind; [|intros; apply preserves_ret]].
    + unfold record_run_usage, runner. destruct (cfg_limits config) as [limits|] eqn:Hl; [|apply preserves_ret]. case_match; [apply preserves_ret|].
      apply preserves_bind; [apply preserves_gets|intros dialog]. by apply (keep_record _ _ _ Henv).
    + unfold report_outcome. destruct (cfg_task_outcome_listener config) as [listener|] eqn:Hl; [|apply preserves_ret]. case_match; [|apply preserves_ret].
      unfold except_exception. apply preserves_try; [by apply (keep_listener _ _ _ Henv)|]. intros e. case_match; [apply preserves_ret|apply preserves_raise].
Qed.
Lemma own_run : preserves own_process (run_and_finalize config others pid).
Proof using Hq Henv.
  unfold run_and_finalize, except_exception. apply preserves_bind.
  - apply preserves_try; [|intros; apply preserves_ret]. apply preserves_bind; [|intros; apply preserves_ret].
    apply preserves_try; [apply own_stream|]. intros e. case_match; [apply own_fail|apply preserves_raise].
  - intros [terminal [e|]]; [apply preserves_ret|]. apply preserves_try; [|intros; apply preserves_ret].
    apply preserves_bind; [apply own_finalize|intros []; apply preserves_ret].
Qed.
End Own.

(** ** The slot *)

Section Slot.
Context (config : RunnerConfig) (others : nat -> World -> World).

Lemma try_catch_all {A} (m : M World Exn A) (f : Exn -> A) s :
  exists a s', try_except m (fun e => ret (f e)) s = (Ok a, s').
Proof. unfold try_except. destruct (m s) as [[a|e] s']; by eexists _, _. Qed.

Lemma run_and_finalize_returns pid s :
  exists a s', run_and_finalize config others pid s = (Ok a, s').
Proof.
  unfold run_and_finalize. unfold bind at 1.
  match goal with |- context [try_except ?m ?h s] => destruct (try_catch_all m (fun e => (Cancelled, Some e)) s) as (a & s1 & Ha) end.
  change (fun e : Exn => ret (Cancelled, Some e)) with (fun e : Exn => ret (S:=World) (E:=Exn) (Cancelled, Some e)).
  rewrite Ha. destruct a as [terminal [e|]]; [by eexists _, _|]. apply try_catch_all.
Qed.

(** What [_terminate_process] does. *)
Lemma terminate_process_spec pid p status terminal task s :
  exists s', terminate_process config pid p status terminal task s = (Ok tt, s') /\
    r_processes (w_run s') = dict_pop pid (r_processes (w_run s)) /\
    r_narrative (w_run s') = r_narrative (w_run s) /\
    db_of s' = db_of s /\
    r_inbox (w_run s') = r_inbox (w_run s) ++
      [CTerminated {| pt_task_id := p_task_id p;
         pt_terminal := if is_outcome terminal then Some terminal else None;
         pt_exchange_id := p_exchange_id p; pt_delivered_live := p_terminal_accepted p;
         pt_exchange_status := Some (exchange_outcome status); pt_task := task;
         pt_unseen := unseen_kind p (r_narrative (w_run s)) |}] /\
    w_dropped s' = w_dropped s ++ (if cfg_response_memory config then [p_task_id p] else []).
Proof.
  unfold terminate_process, update, broadcast_event, put_command, bind, modify, when, runner, gets.
  destruct (cfg_response_memory config);
    cbn -[broadcast]; (match goal with |- context [broadcast ?a ?b ?c ?d] => destruct (broadcast a b c d) as [hub n] end;
     simpl; eexists; split_and!; try done).
  by rewrite app_nil_r.
Qed.

(** A pump ends with [_terminate_process] of the object as it then is. *)
Lemma pump_process_terminates p s :
  exists terminal status task cut s1,
    run_and_finalize config others (p_id p) s = (Ok (terminal, (status, task), cut), s1) /\
    (pump_process config others p s).2 =
      (terminate_process config (p_id p) (process_now p (w_run s1)) status terminal task s1).2.
Proof.
  unfold pump_process. unfold bind at 1.
  destruct (run_and_finalize_returns (p_id p) s) as ([[terminal [status task]] cut] & s1 & ->).
  unfold bind at 1, runner, gets. exists terminal, status, task, cut, s1. split; [done|].
  destruct (terminate_process_spec (p_id p) (process_now p (w_run s1)) status terminal task s1)
    as (s2 & Ht & _).
  rewrite (bind_Ok _ _ _ _ _ Ht), Ht. by destruct cut.
Qed.

(** The task and the exchange of a process are set when it is made. *)
Definition same_run (p q : Process) : Prop := p_task_id q = p_task_id p /\ p_exchange_id q = p_exchange_id p.
Lemma same_run_own p q q' : own_change q q' -> same_run p q -> same_run p q'.
Proof. unfold same_run. destruct 1 as [| | |event q| |]; try done. unfold observe_spend. by repeat case_match. Qed.

(** C3: However a run ends — an answer, a failure of the loop, of the compactor
    or of the store while it is finalised, a cancelled pump — its own slot and
    no other is freed, the responses remembered for its task are dropped, and
    the actor is sent the end of its task and exchange, with the outcome the
    run had.  Its task and exchange are those of its process, which are the
    ones the run started with unless the other tasks or the ports tamper with
    the registered process. *)
Theorem pump_releases_slot p s :
  let s' := (pump_process config others p s).2 in
  exists terminal status task cut s1 c,
    run_and_finalize config others (p_id p) s = (Ok (terminal, (status, task), cut), s1) /\
    dict_get (p_id p) (r_processes (w_run s')) = None /\
    r_processes (w_run s') = dict_pop (p_id p) (r_processes (w_run s1)) /\
    db_of s' = db_of s1 /\
    r_inbox (w_run s') = r_inbox (w_run s1) ++ [CTerminated c] /\
    w_dropped s' = w_dropped s1 ++ (if cfg_response_memory config then [pt_task_id c] else []) /\
    pt_terminal c = (if is_outcome terminal then Some terminal else None) /\
    pt_exchange_status c = Some (exchange_outcome status) /\ pt_task c = task /\
    let now := process_now p (w_run s1) in
    pt_task_id c = p_task_id now /\ pt_exchange_id c = p_exchange_id now /\
    (env_keeps config others (own_process (p_id p) (same_run p)) ->
     dict_get (p_id p) (r_processes (w_run s)) = Some p -> same_run p now).
Proof.
  intros s'. subst s'. destruct (pump_process_terminates p s) as (terminal & status & task & cut & s1 & Hrun & ->).
  destruct (terminate_process_spec (p_id p) (process_now p (w_run s1)) status terminal task s1)
    as (s2 & -> & Hpop & _ & Hdb & Hi & Hd). cbn [snd].
  eexists terminal, status, task, cut, s1, _. split; [exact Hrun|].
  split; [by rewrite Hpop, dict_get_pop, decide_True|]. do 2 (split; [done|]). split; [exact Hi|]. cbn.
  do 6 (split; [done|]). intros Henv Hp.
  pose proof (own_run config others (p_id p) (same_run p) (same_run_own p) Henv s) as H. rewrite Hrun in H.
  unfold own_process in H at 1. rewrite Hp in H. specialize (H (conj eq_refl eq_refl)). cbn [snd] in H.
  unfold own_process, process_now in *. by destruct (dict_get (p_id p) (r_processes (w_run s1))).
Qed.
End Slot.

(** ** Syncing a branch *)

(** While a task holds the assemble lock the others may append to the
    narrative and do no more to it. *)
Definition append_only (s s' : World) : Prop :=
  r_assemble_lock (w_run s) = true ->
  r_assemble_lock (w_run s') = true /\ r_narrative (w_run s) `prefix_of` r_narrative (w_run s').
#[export] Instance append_only_preorder : PreOrder append_only.
Proof.
  unfold append_only. split; [done|]. intros a b c Hab Hbc Ha.
  destruct (Hab Ha) as [Hb Hp]. destruct (Hbc Hb) as [Hc Hp']. split; [done|by etrans].
Qed.

(** The part of a process only its own pump touches. *)
Definition private_part (p : Process) :=
  (p_branch p, p_synced_len p, p_narrative_built p, p_exchange_id p).

(** What the others do to a dialog in which the run [pid] goes on. *)
Definition leaves_run (pid : pystr) (s s' : World) : Prop :=
  append_only s s' /\
  forall p, dict_get pid (r_processes (w_run s)) = Some p ->
    exists p', dict_get pid (r_processes (w_run s')) = Some p' /\ private_part p' = private_part p.
#[export] Instance leaves_run_preorder pid : PreOrder (leaves_run pid).
Proof.
  unfold leaves_run. split; [intros s; split; [done|by eexists]|].
  intros a b c [Hab Pab] [Hbc Pbc].
  split; [by etransitivity|]. intros p Hp. destruct (Pab p Hp) as (p1 & Hp1 & He1).
  destruct (Pbc p1 Hp1) as (p2 & Hp2 & He2). exists p2. by rewrite He2.
Qed.

Section Sync.
Context (config : RunnerConfig) (others : nat -> World -> World) (pid : pystr).
Context (Henv : env_allows others (leaves_run pid)).
Context `{Hlaws : !CompactorLaws (cfg_compactor config) (leaves_run pid)}.

Lemma live_exchange_ids_appends own : evolves (leaves_run pid) (live_exchange_ids others own).
Proof.
  unfold live_exchange_ids, exchanges_list_live, dialog_id, runner.
  apply evolves_bind; [exact _| |intros; apply evolves_ret, _].
  apply evolves_bind; [exact _|apply evolves_gets, _|intros ?].
  by apply evolves_read; [exact _|].
Qed.

(** The gather, in either order: a snapshot the narrative only grew from. *)
Lemma gather_snapshot dialog own s ac live s' :
  gather config (cc_assemble (cfg_compactor config) dialog (fun s => r_narrative (w_run s)))
    (live_exchange_ids others own) s = (Ok (ac, live), s') ->
  exists s1, assembled_from (r_narrative (w_run s1)) ac /\ leaves_run pid s s1 /\ leaves_run pid s1 s'.
Proof.
  unfold gather. unfold bind at 1, gets. pose proof (live_exchange_ids_appends own) as Hlive.
  destruct (cfg_left_first config (w_tick s)); unfold bind.
  - destruct (cc_assemble _ _ _ s) as [[a|e] s1] eqn:Ha; [|done].
    specialize (Hlive s1). destruct (live_exchange_ids others own s1) as [[l|e] s2]; [|done].
    intros [= -> -> ->]. apply assemble_law in Ha as (s0 & Hfrom & H0 & H1).
    exists s0. split_and!; [done|done|by etrans].
  - specialize (Hlive s). destruct (live_exchange_ids others own s) as [[l|e] s1]; [|done].
    destruct (cc_assemble _ _ _ s1) as [[a|e] s2] eqn:Ha; [|done].
    intros [= -> -> ->]. apply assemble_law in Ha as (s0 & Hfrom & H0 & H1).
    exists s0. split_and!; [done|by etrans|done].
Qed.

Lemma trim_narrative_run n s :
  exists s', trim_narrative n s = (Ok tt, s') /\
    r_narrative (w_run s') = drop (Z.to_nat n) (r_narrative (w_run s)) /\
    forall p, dict_get pid (r_processes (w_run s)) = Some p ->
      exists p', dict_get pid (r_processes (w_run s')) = Some p' /\ private_part p' = private_part p.
Proof.
  unfold trim_narrative. destruct (Z.leb_spec n 0) as [Hn|Hn].
  - exists s. replace (Z.to_nat n) with 0 by lia. rewrite drop_0. naive_solver.
  - eexists. split; [done|]. split; [done|]. cbn. intros p.
    induction (r_processes (w_run s)) as [|[k q] l IH]; [done|]. cbn.
    case_decide; [|exact IH]. intros [= ->]. by eexists.
Qed.

(** [_assemble_narrative] renders the topics block and a suffix of the
    narrative; it hands back the length of that suffix, and what the
    narrative holds after it is what arrived meanwhile. *)
Lemma assemble_narrative_spec own s narr wm s' :
  assemble_narrative config others own s = (Ok (narr, wm), s') ->
  (exists block tail new live now,
    r_narrative (w_run s') = tail ++ new /\ wm = length tail /\ length block <= 1 /\
    narr = envelope_last now (render_branch (block ++ tail) own live)) /\
  forall p, dict_get pid (r_processes (w_run s)) = Some p ->
    exists p', dict_get pid (r_processes (w_run s')) = Some p' /\ private_part p' = private_part p.
Proof.
  unfold assemble_narrative. unfold bind at 1, runner, gets. unfold bind at 1, locked.
  unfold bind at 1. pose proof (evolves_yield others _ Henv s) as [_ Hy].
  destruct (yield others s) as [[[]|e] s0]; [|done]. cbn [snd] in Hy.
  unfold bind at 1, update, modify. set (s1 := set_w_run _ s0).
  assert (r_assemble_lock (w_run s1) = true) as Hlock by done.
  unfold try_except, bind.
  match goal with |- context [gather config ?a ?b s1] =>
    destruct (gather config a b s1) as [[[ac live]|e] s2] eqn:Hg end; [|done].
  apply gather_snapshot in Hg as (s3 & (Hlen & Htc & block & Hmsgs & Hblock) & [H13 P13] & [H32 P32]).
  destruct (H13 Hlock) as [Hlock3 _]. destruct (H32 Hlock3) as [_ [new Hnew]].
  cbn [fst snd].
  destruct (trim_narrative_run (Z.of_nat (ac_snapshot_len ac) - Z.of_nat (ac_tail_count ac)) s2)
    as (s4 & -> & Hn4 & P4).
  unfold ret, utc_now, gets. cbn. intros [= <- <- <-].
  set (snap := r_narrative (w_run s3)) in *. split.
  - exists block, (drop (length snap - ac_tail_count ac) snap), new, live, (w_now s4).
    cbn. rewrite Hn4, Hnew, Hlen. split_and!.
    + rewrite drop_app_le by lia. do 2 f_equal. lia.
    + rewrite length_drop. lia.
    + done.
    + by rewrite Hmsgs.
  - intros p Hp. destruct (Hy p Hp) as (p0 & Hp0 & <-). destruct (P13 p0 Hp0) as (p3 & Hp3 & <-).
    destruct (P32 p3 Hp3) as (p2 & Hp2 & <-). apply (P4 p2 Hp2).
Qed.

(** What a sync that was needed leaves: the branch is the system message,
    the rendered prefix and the run's own messages as they were; and every
    message of the narrative is in that prefix or lies past the watermark,
    where it counts as unseen. *)
Definition synced (s' : World) (p p' : Process) : Prop :=
  exists block tail new live now,
    r_narrative (w_run s') = tail ++ new /\ p_watermark p' = length tail /\ length block <= 1 /\
    let shown := envelope_last now (render_branch (block ++ tail) (p_exchange_id p) live) in
    p_branch p' = system_message config :: shown ++ drop (p_synced_len p) (p_branch p) /\
    p_synced_len p' = 1 + length shown.

Lemma sync_branch_cases force s s' p :
  dict_get pid (r_processes (w_run s)) = Some p ->
  sync_branch config others pid force s = (Ok tt, s') ->
  (p_narrative_built p = false \/ force = false /\ length (r_narrative (w_run s)) = p_watermark p) /\
    s' = s \/
  p_narrative_built p = true /\
    exists p', dict_get pid (r_processes (w_run s')) = Some p' /\ synced s' p p'.
Proof.
  intros Hp. unfold sync_branch, the_process, get_process. unfold bind at 1. unfold bind at 1.
  unfold runner, gets. rewrite Hp. unfold ret, bind at 1.
  destruct (p_narrative_built p) eqn:Hb; cbn [negb]; [|intros [= <-]; left; split; [by left|done]].
  destruct (negb force && _) eqn:Hskip.
  { apply andb_true_iff in Hskip as [Hf Hlen%bool_decide_eq_true].
    intros [= <-]. left. split; [|done]. right. by destruct force. }
  intros Hrun. right. split; [done|]. unfold bind in Hrun.
  destruct (assemble_narrative config others (p_exchange_id p) s) as [[[narr wm]|e] s1] eqn:Ha; [|done].
  apply assemble_narrative_spec in Ha as ((block & tail & new & live & now & Hn & -> & Hbl & ->) & Hpp).
  destruct (Hpp p Hp) as (p1 & Hp1 & Heq). unfold private_part in Heq. injection Heq as Hbr Hsl Hnb Hex.
  unfold modify_process, update, modify in Hrun. rewrite Hp1 in Hrun. injection Hrun as <-.
  eexists. split; [cbn; by rewrite dict_get_set, decide_True|].
  exists block, tail, new, live, now. cbn. rewrite Hbr, Hsl. by split_and!.
Qed.

(** [_sync_branch], with other runs and the compactor at work on the same
    narrative: unless there is nothing to sync, the narrative part of the
    branch becomes a rendering of the narrative up to the new watermark, and
    what the run itself wrote stays behind it, untouched. *)
Theorem sync_branch_spec force s s' p :
  dict_get pid (r_processes (w_run s)) = Some p ->
  sync_branch config others pid force s = (Ok tt, s') ->
  ((p_narrative_built p = false \/ force = false /\ length (r_narrative (w_run s)) = p_watermark p) /\
     s' = s \/
   p_narrative_built p = true /\
     exists p', dict_get pid (r_processes (w_run s')) = Some p' /\ synced s' p p') /\
  exists p', dict_get pid (r_processes (w_run s')) = Some p' /\
    drop (p_synced_len p') (p_branch p') = drop (p_synced_len p) (p_branch p).
Proof.
  intros Hp Hrun. pose proof (sync_branch_cases force s s' p Hp Hrun) as Hcases. split; [done|].
  destruct Hcases as [[_ ->]|(_ & p' & Hp' & block & tail & new & live & now & _ & _ & _ & Hb & Hsl)]; [by exists p|].
  exists p'. split; [done|]. rewrite Hb, Hsl. cbn [Nat.add drop]. by rewrite drop_app_length.
Qed.
End Sync.

(** ** What a run has not seen *)

Section Unseen.
Context (process : Process) (e : pystr).
Context (Hbuilt : p_narrative_built process = true) (Hex : p_exchange_id process = Some e).

Lemma elem_of_arrived narrative m :
  m ∈ arrived process narrative <-> asked_in e m /\ m ∈ drop (p_watermark process) narrative.
Proof. unfold arrived, asked_in. by rewrite list_elem_of_filter, Hex. Qed.

(** The user's words past the watermark make the run's end a reopening;
    forwarded material alone only parks the exchange. *)
Lemma unseen_kind_spec narrative :
  let late := filter (asked_in e) (drop (p_watermark process) narrative) in
  (unseen_kind process narrative = SPOKEN <->
     exists m, m ∈ late /\ cm_kind m <> MessageKind.MATERIAL) /\
  (unseen_kind process narrative = MATERIAL_ONLY <->
     late <> [] /\ Forall (fun m => cm_kind m = MessageKind.MATERIAL) late) /\
  (unseen_kind process narrative = UNSEEN_NONE <-> late = []).
Proof.
  cbv zeta. assert (arrived process narrative = filter (asked_in e) (drop (p_watermark process) narrative))
    as <-.
  { unfold arrived. apply list_filter_iff'. intros m _. unfold asked_in. by rewrite Hex. }
  unfold unseen_kind. rewrite Hbuilt, Hex. cbn [negb orb]. rewrite bool_decide_false by done.
  destruct (arrived process narrative) as [|m l] eqn:Ha.
  - split_and!; split; try done; [|intros []; done].
    intros (m & Hm & _). by apply not_elem_of_nil in Hm.
  - case_decide as Hall.
    + split_and!; split; try done. intros (x & Hx & Hk). rewrite Forall_forall in Hall.
      by apply Hall in Hx.
    + split_and!; split; try done; [|by intros []]. intros _.
      apply not_Forall_Exists in Hall; [|apply _]. by apply Exists_exists in Hall.
Qed.
End Unseen.

(** Trimming what lies before the watermark leaves the unseen part as it is. *)
Lemma trim_keeps_unseen n pid p s s' :
  trim_narrative n s = (Ok tt, s') -> dict_get pid (r_processes (w_run s)) = Some p ->
  (n <= Z.of_nat (p_watermark p))%Z ->
  exists p', dict_get pid (r_processes (w_run s')) = Some p' /\
    unseen_kind p' (r_narrative (w_run s')) = unseen_kind p (r_narrative (w_run s)).
Proof.
  unfold trim_narrative. destruct (Z.leb_spec n 0) as [Hn|Hn]; [intros [= <-]; by exists p|].
  intros [= <-] Hp Hle. exists (set_p_watermark (p_watermark p - Z.to_nat n) p). cbn. split.
  - induction (r_processes (w_run s)) as [|[k q] l IH]; [done|]. cbn in *.
    case_decide; [|by apply IH]. by simplify_eq.
  - unfold unseen_kind, arrived. cbn. rewrite drop_drop.
    replace (Z.to_nat n + (p_watermark p - Z.to_nat n)) with (p_watermark p) by lia. done.
Qed.

(** ** An answer and the end of its task *)

Section Atomic.
Context (config : RunnerConfig) (others : nat -> World -> World).

Lemma yield_in_unit s : in_unit_of_work (w_conn s) = true -> yield others s = (Ok tt, s).
Proof. intros Hin. unfold yield. by rewrite Hin. Qed.

Lemma unit_at_in (c : Conn Db) ses : unit_at c ses -> in_unit_of_work c = true.
Proof. intros (Ha & Ho & _). unfold in_unit_of_work, live_session. by rewrite Ha, Ho. Qed.

(** One store call inside a unit. *)
Lemma db_write_in_unit {A} (body : M Db Exn A) s ses :
  unit_at (w_conn s) ses ->
  exists l, db_write others body s =
      (Err StoreError, set_w_conn (unit_shape (w_conn s) ses (working ses) l (sess_wrote ses)) s) \/
    match body (working ses) with
    | (Ok a, d) => db_write others body s = (Ok a, set_w_conn (unit_shape (w_conn s) ses d l true) s)
    | (Err e, d) =>
        db_write others body s = (Err e, set_w_conn (unit_shape (w_conn s) ses d l (sess_wrote ses)) s)
    end.
Proof.
  intros Hu. unfold db_write. rewrite (bind_Ok _ _ _ _ _ (yield_in_unit s (unit_at_in _ _ Hu))).
  destruct (write_session_unit_at body (w_conn s) ses Hu) as (l & Hx). exists l. unfold on_conn.
  change (conn_of s) with (w_conn s).
  destruct Hx as [->|Hx]; [by left|right]. destruct (body (working ses)) as [[a|e] d]; by rewrite Hx.
Qed.

(** The two writes of an answer, inside their unit. *)
Lemma answer_writes message usage task_id content delivered s ses :
  unit_at (w_conn s) ses ->
  exists d l w ids r,
    (let! _ := persist config others message usage None in
     tasks_mark_done others task_id content delivered) s =
      (r, set_w_ids ids (set_w_conn (unit_shape (w_conn s) ses d l w) s)) /\
    match r with
    | Err _ => True
    | Ok task => exists i t,
        let dialog := dlg_id (r_dialog (w_run s)) in
        let log := d_messages (working ses) in
        let row := row_of_message i dialog (next_seq dialog log) message usage None (w_now s) in
        Sql.mark_done (w_now s) task_id content delivered (d_tasks (working ses)) = (Ok task, t) /\
        d = set_d_tasks t (set_d_messages (log ++ [row]) (working ses))
    end.
Proof.
  intros Hu. unfold persist, messages_append. rewrite bind_assoc.
  rewrite (bind_Ok _ _ _ _ _ (yield_in_unit s (unit_at_in _ _ Hu))).
  unfold dialog_id, runner, utc_now, gets, draw_ids, bind.
  set (ids := (w_ids s + 5)%N). set (s1 := set_w_ids ids s).
  destruct (append_in_unit (cfg_sqlite config) (fun k => uuid4_hex (w_ids s + N.of_nat k)) (w_now s)
    (dlg_id (r_dialog (w_run s))) message usage None (w_conn s) ses Hu) as (d & l & w & Hc & Hres).
  unfold on_conn. change (conn_of s1) with (w_conn s). change no_race with (fun _ : nat => @nil MessageRow).
  destruct (append _ _ _ _ _ _ _ _ (w_conn s)) as [[i|e] c]; cbn [fst snd] in *; subst c.
  2: { exists d, l, w, ids. by eexists. }
  destruct Hres as (-> & _ & ->).
  match goal with |- context [unit_shape (w_conn s) ses ?d l true] => set (d2 := d) end.
  set (ses2 := {| working := d2; sess_open := true; sess_busy := false; sess_wrote := true |}).
  set (s2 := set_conn _ s1).
  assert (unit_at (w_conn s2) ses2) as Hu2 by (by split_and!).
  unfold tasks_mark_done, utc_now, gets, bind. change (w_now s2) with (w_now s).
  match goal with |- context [db_write others ?b s2] => destruct (db_write_in_unit b s2 ses2 Hu2) as (l2 & Hx) end.
  destruct Hx as [Hx|Hx].
  { rewrite Hx. eexists _, l2, _, ids, _. by split. }
  unfold on_table at 1 in Hx. cbn [working ses2] in Hx.
  change (table d2) with (d_tasks (working ses)) in Hx.
  destruct (Sql.mark_done (w_now s) task_id content delivered (d_tasks (working ses))) as [[task|e] t] eqn:Hm;
    rewrite Hx; eexists _, l2, _, ids, _; (split; [done|]); [|done].
  exists i, t. by split.
Qed.
(** The unit of work of an answer, on a database that may fail at any round
    trip: nothing of it is stored, or all of it is. *)
Lemma answer_unit message usage task_id content delivered s :
  cfg_null_unit config = false ->
  in_unit_of_work (w_conn (yield others s).2) = false ->
  let s0 := (yield others s).2 in
  exists r s', unit_of_work config others
      (let! _ := persist config others message usage None in
       tasks_mark_done others task_id content delivered) s = (r, s') /\
    w_run s' = w_run s0 /\
    match r with
    | Err _ => db_of s' = db_of s0
    | Ok task => exists i t,
        let dialog := dlg_id (r_dialog (w_run s0)) in
        let log := d_messages (db_of s0) in
        let row := row_of_message i dialog (next_seq dialog log) message usage None (w_now s0) in
        Sql.mark_done (w_now s0) task_id content delivered (d_tasks (db_of s0)) = (Ok task, t) /\
        db_of s' = set_d_tasks t (set_d_messages (log ++ [row]) (db_of s0))
    end.
Proof.
  intros Hnull Hout s0. unfold unit_of_work. unfold bind at 1.
  assert (exists u, (yield others s).1 = Ok u) as [u Hu] by (unfold yield; case_match; by eexists).
  subst s0. destruct (yield others s) as [ry s0]. cbn [fst snd] in *. subst ry.
  unfold uow. rewrite Hnull. change (conn_of s0) with (w_conn s0). rewrite Hout.
  set (ses := {| working := committed (w_conn s0); sess_open := true; sess_wrote := false; sess_busy := false |}).
  set (s1 := set_conn _ s0).
  assert (unit_at (w_conn s1) ses) as Hat by (by split_and!).
  destruct (answer_writes message usage task_id content delivered s1 ses Hat)
    as (d & l & w & ids & r & Hrun & Hres).
  rewrite Hrun. destruct r as [task|e]; [|by eexists _, _].
  destruct Hres as (i & t & Hm & Hd). set (s2 := set_w_ids _ _).
  pose proof (round_trip_committed (conn_of s2)) as [Hrc Hra].
  destruct (round_trip (conn_of s2)) as [[[]|e] c] eqn:Hrt; cbn [fst snd] in *.
  - cbn [active conn_of w_conn s2]. eexists _, _. split; [done|]. split; [done|]. exists i, t. split; [exact Hm|exact Hd].
  - eexists _, _. split; [done|]. split; [done|]. cbn. rewrite Hrc. done.
Qed.

(** C1: An answer enters the log and ends its task in one step: whatever the
    store does, either the row, the finished task and the narrative's new
    message are all there, or the run ends in an error and the tables and
    the narrative are what they were. *)
Theorem finish_done_atomic process message usage s :
  cfg_null_unit config = false -> in_unit_of_work (w_conn (yield others s).2) = false ->
  blank (cm_content message) = false -> p_narrative_built process = true ->
  let s0 := (yield others s).2 in
  let final := with_exchange (p_exchange_id process) (with_task (Some (p_task_id process)) message) in
  let '(r, s') := finish_done config others process message usage s in
  match r with
  | Err _ => db_of s' = db_of s0 /\ r_narrative (w_run s') = r_narrative (w_run s0)
  | Ok task => exists i t,
      let dialog := dlg_id (r_dialog (w_run s0)) in
      let log := d_messages (db_of s0) in
      let row := row_of_message i dialog (next_seq dialog log) final usage None (w_now s0) in
      Sql.mark_done (w_now s0) (p_task_id process) (cm_content message)
        (delivery_is_certain process (cm_content message)) (d_tasks (db_of s0)) = (Ok task, t) /\
      db_of s' = set_d_tasks t (set_d_messages (log ++ [row]) (db_of s0)) /\
      r_narrative (w_run s') = r_narrative (w_run s0) ++ [final]
  end.
Proof.
  intros Hnull Hout Hblank Hbuilt s0 final. unfold finish_done. rewrite Hblank, Hbuilt.
  fold final. unfold bind at 1.
  destruct (answer_unit final usage (p_task_id process) (cm_content message)
    (delivery_is_certain process (cm_content message)) s Hnull Hout) as (r & s' & -> & Hr & Hres).
  fold s0 in Hr, Hres. destruct r as [task|e]; [|by rewrite Hr].
  destruct Hres as (i & t & Hm & Hd). cbn. exists i, t. split; [exact Hm|]. by rewrite Hr.
Qed.
End Atomic.

(** ** The reactive compaction *)

Section Overflow.
Context (config : RunnerConfig) (others : nat -> World -> World) (pid : pystr).

(** The run has used its one retry. *)
Definition retried (s : World) : Prop :=
  match dict_get pid (r_processes (w_run s)) with
  | Some p => p_overflow_retried p = true
  | None => True
  end.
Context (Henv : env_keeps config others retried).

Lemma retried_own p p' : own_change p p' -> p_overflow_retried p = true -> p_overflow_retried p' = true.
Proof. destruct 1 as [| | |event q| |]; try done. unfold observe_spend. by repeat case_match. Qed.
Lemma retried_once : preserves retried (stream_once config others pid).
Proof. exact (own_once config others pid _ retried_own Henv). Qed.
Lemma retried_sync force : preserves retried (sync_branch config others pid force).
Proof. exact (own_sync config others pid _ retried_own Henv force). Qed.

(** Once the retry is used, one turn of the loop is all there is. *)
Lemma stream_loop_retried n s :
  retried s -> stream_loop config others (S n) pid s = stream_loop config others 1 pid s.
Proof.
  intros Hs. cbn [stream_loop]. unfold try_except. pose proof (retried_once s Hs) as H1.
  destruct (stream_once config others pid s) as [[t|e] s1]; [done|]. cbn in H1.
  destruct (is_overflow e); [|done]. unfold the_process, get_process, runner, gets, bind, retried in *.
  destruct (dict_get pid (r_processes (w_run s1))) as [p|]; [|done]. cbn. by rewrite H1.
Qed.

(** The [while True] of [_stream_terminal] ends: after one reactive
    compaction the next overflow is final, so no number of further turns
    would change what two of them do. *)
Theorem stream_terminal_two_turns n s :
  stream_loop config others (2 + n) pid s = stream_terminal config others pid s.
Proof.
  unfold stream_terminal. change (2 + n) with (S (S n)). cbn [stream_loop]. unfold try_except.
  destruct (stream_once config others pid s) as [[t|e] s1]; [done|].
  destruct (is_overflow e); [|done]. apply bind_ext. intros p s2 _. case_match; [done|].
  apply bind_ext. intros [] s3 H3.
  assert (retried s3) as Hs3.
  { unfold modify_process, update, modify in H3. injection H3 as <-. unfold retried. cbn.
    destruct (dict_get pid (r_processes (w_run s2))) eqn:Hg; cbn; [|by rewrite Hg].
    by rewrite dict_get_set, decide_True. }
  apply bind_ext. intros dialog s4 [= <- <-]. apply bind_ext. intros b s5 H5.
  pose proof (keep_compact _ _ _ Henv (r_dialog (w_run s3)) s3 Hs3) as Hs5. rewrite H5 in Hs5.
  destruct b; [|done]. cbn [negb]. apply bind_ext. intros [] s6 H6.
  pose proof (retried_sync true s5 Hs5) as Hs6. rewrite H6 in Hs6.
  by apply (stream_loop_retried n).
Qed.
End Overflow.

(** Trimming beyond the watermark: what the run had not seen and the trim
    drops is no longer unseen, it is gone; the run's end will not know. *)
Theorem trim_forgets_unseen n pid p e s s' :
  trim_narrative n s = (Ok tt, s') -> dict_get pid (r_processes (w_run s)) = Some p ->
  p_exchange_id p = Some e -> (Z.of_nat (p_watermark p) <= n)%Z -> (0 < n)%Z ->
  Forall (fun m => ~ asked_in e m) (drop (Z.to_nat n) (r_narrative (w_run s))) ->
  exists p', dict_get pid (r_processes (w_run s')) = Some p' /\
    unseen_kind p' (r_narrative (w_run s')) = UNSEEN_NONE.
Proof.
  unfold trim_narrative. destruct (Z.leb_spec n 0); [lia|].
  intros [= <-] Hp Hex Hle _ Hnone. exists (set_p_watermark (p_watermark p - Z.to_nat n) p). cbn. split.
  - induction (r_processes (w_run s)) as [|[k q] l IH]; [done|]. cbn in *.
    case_decide; [|by apply IH]. by simplify_eq.
  - unfold unseen_kind, arrived. cbn. rewrite Hex.
    replace (p_watermark p - Z.to_nat n) with 0 by lia. rewrite drop_0.
    rewrite filter_none; [by destruct (_ || _)|]. eapply Forall_impl; [exact Hnone|].
    intros m Hm [Hr Hx]. by apply Hm.
Qed.

(** ** A run that has asked *)

(** Once a run has asked the user it shows nothing more of its own: no text,
    and an empty final, which ends its task without entering the log. *)
Theorem asked_run_is_silent config others process event out :
  p_asked process = true -> outgoing process event = Some out ->
  (forall text, out <> TextDelta text) /\ out <> ReasoningDelta /\
  match out with
  | Finished message usage _ =>
      blank (cm_content message) = true /\
      finish_done config others process message usage =
        tasks_mark_done others (p_task_id process) (cm_content message) true
  | _ => True
  end.
Proof.
  intros Ha. unfold outgoing. rewrite Ha.
  destruct event; cbn; intros [= <-]; split_and!; done.
Qed.
