(* ===== verification/Answers.v ===== *)
(** * Owing an answer ([ConversationRunner], [agent/runner.py])

    The one place an answer run starts, the paths that lead to it, and the
    end of a run as the actor sees it: the exchange is settled, the outcome
    queued or stamped, and what was left without a run is revived. *)
From S2P Require Import Prelude PyStr Clock Sql Dict Domain UnitOfWork Branch Broadcast Codec TaskStore ExchangeStore MessageStore Compactor Router RunnerText RunnerState Outbox Pump.

Section Answers.
Context (config : RunnerConfig) (others : nat -> World -> World).

(** ** Limits *)

(** [_run_budget_verdict]: the refusing verdict, if any. *)
Definition run_budget_verdict : M World Exn (option LimitVerdict) :=
  match cfg_limits config with
  | None => ret None
  | Some limits =>
      let! dialog := runner r_dialog in
      let! verdict := lg_check_run_budget limits (dlg_user_id dialog) in
      ret (if lv_allowed verdict then None else Some verdict)
  end.

(** [_exceeds_limit], with the number of slots about to be freed. *)
Definition exceeds_limit (cancelled : gset pystr) (r : Runner) : bool :=
  (cfg_max_processes config <?
   Z.of_nat (length (r_processes r)) - Z.of_nat (size cancelled) + 1)%Z.

(** [_cancelled_tasks] *)
Definition live_exchanges (r : Runner) : gset pystr :=
  list_to_set (omap p_exchange_id (dict_values (r_processes r))).
Definition cancelled_tasks (cancelled : gset pystr) (r : Runner) : gset pystr :=
  cancelled ∩ live_exchanges r.

Definition slots_full (r : Runner) : bool :=
  (cfg_max_processes config <=? Z.of_nat (length (r_processes r)))%Z.

(** ** Tasks *)

(** [_AnswerSource] *)
Record AnswerSource := {
  as_message_id : option pystr;
  as_client_message_id : option pystr;
  as_exchange_id : option pystr }.

Definition some_entry (key : pystr) (value : option pystr) : list (pystr * json) :=
  match value with Some v => [(key, JStr v)] | None => [] end.

(** [_prepare_process_task] *)
Definition task_input (now : time) (title prompt : pystr) (kind : TaskKind.t)
    (cron_job_id : option pystr) (source : option AnswerSource) : list (pystr * json) :=
  [("prompt" : pystr, JStr prompt)] ++
  (if decide (kind = TaskKind.RUN) then [("title" : pystr, JStr title)] else []) ++
  match cron_job_id with
  | Some id => [("cron_job_id" : pystr, JStr id); ("fired_at" : pystr, JStr (format_iso now))]
  | None => []
  end ++
  (if decide (kind = TaskKind.ANSWER) then
     [("source_message_id" : pystr,
       match source ≫= as_message_id with Some i => JStr i | None => JNull end)] ++
     some_entry "source_client_message_id" (source ≫= as_client_message_id) ++
     some_entry "exchange_id" (source ≫= as_exchange_id)
   else []).

Definition prepare_process_task (title prompt : pystr) (kind : TaskKind.t)
    (cron_job_id : option pystr) (source : option AnswerSource) : M World Exn Task :=
  let! now := utc_now in
  let! d := dialog_id in
  let! id := fresh_id in
  let task :=
    {| tk_id := id; tk_dialog_id := d; tk_title := title; tk_kind := kind;
       tk_input := task_input now title prompt kind cron_job_id source;
       tk_exchange_id := source ≫= as_exchange_id; tk_status := TaskStatus.RUNNING;
       tk_result := None; tk_error := None; tk_created_at := now; tk_started_at := Some now;
       tk_finished_at := None; tk_delivered_at := None |} in
  tasks_add others task ;;;
  ret task.

(** ** Starting an answer *)

(** [_still_owns_dialog]: fails open. *)
Definition still_owns_dialog : M World Exn bool :=
  except_exception
    (let! generation := claims_current_generation others in
     let! claim := runner r_claim in
     ret (match generation with
          | None => true
          | Some g => (g =? cl_generation claim)%Z
          end))
    (fun _ => ret true).

(** A run over the narrative: its branch, and the marks of its first sync. *)
Definition create_answer_process (task : Task) (exchange_id : option pystr) : M World Exn Process :=
  let! ' (narrative, watermark) := assemble_narrative config others exchange_id in
  let! process := create_process task (system_message config :: narrative) true in
  modify_process (p_id process) (fun p =>
    set_p_watermark watermark (set_p_synced_len (length (p_branch p)) p)) ;;;
  ret process.

(** [_start_answer] *)
Definition start_answer (exchange : Exchange) (message : ChatMessage)
    (client_key : option pystr) (cancel_epoch : option Z) (notify_limit : bool)
    : M World Exn unit :=
  let! owns := still_owns_dialog in
  if negb owns then update (set_r_preempted true)
  else
    let! budget := run_budget_verdict in
    match budget with
    | Some verdict =>
        when notify_limit
          (tariff_notice_once config others ANSWER_NOTE_KEY (TARIFF_LIMIT_NOTICE verdict))
    | None =>
        let! task :=
          unit_of_work config others
            (let! task := prepare_process_task (ex_title exchange) (cm_content message)
               TaskKind.ANSWER None
               (Some {| as_message_id := cm_id message; as_client_message_id := client_key;
                        as_exchange_id := Some (ex_id exchange) |}) in
             exchanges_set_status others (ex_id exchange) ExchangeStatus.IN_PROGRESS None ;;;
             ret task) in
        let! process := create_answer_process task (Some (ex_id exchange)) in
        let! epoch := runner r_cancel_epoch in
        when (match cancel_epoch with Some e => (e <? epoch)%Z | None => false end)
          (modify_process (p_id process) (set_p_cancelled true)) ;;;
        let! _ := broadcast_event
          (ProcessStarted (p_id process) (p_title process) (p_source_client_message_id process))
          (Some (ex_id exchange)) in
        ret tt
    end.

(** [_ensure_owner] *)
Definition ensure_owner (exchange_id : pystr) (message : ChatMessage) (client_key : option pystr)
    (cancelled : gset pystr) (cancel_epoch : option Z) (known : option Exchange)
    : M World Exn unit :=
  suppress is_exchange_not_found
    (locked others set_r_spawn_lock
      (let! answering := runner (live_process_for exchange_id) in
       match answering with
       | Some _ => ret tt
       | None =>
           let! exchange :=
             match known with
             | Some exchange => ret exchange
             | None => exchanges_get others exchange_id
             end in
           let! full := runner (fun r => exceeds_limit (cancelled_tasks cancelled r) r) in
           if full then reject_for_limit config others message
           else start_answer exchange message client_key cancel_epoch true
       end)).

(** [_resume_open_exchange] *)
Definition last_words (exchange_id : pystr) (narrative : list ChatMessage) : option ChatMessage :=
  head (filter (asked_in exchange_id) (rev narrative)).

Definition resume_open_exchange (exchange_id : pystr) (notify_limit : bool) : M World Exn unit :=
  let! narrative := runner r_narrative in
  match last_words exchange_id narrative with
  | None => ret tt
  | Some message =>
      suppress is_exchange_not_found
        (locked others set_r_spawn_lock
          (let! exchange := exchanges_get others exchange_id in
           let! answering := runner (live_process_for exchange_id) in
           if decide (ex_status exchange <> ExchangeStatus.OPEN \/ is_Some answering) then ret tt
           else
             let! full := runner (exceeds_limit ∅) in
             if full then when notify_limit (reject_for_limit config others message)
             else start_answer exchange message None None notify_limit))
  end.

(** [_sweep_unowned_open], also [resume_stranded] *)
Definition sweep_unowned_open : M World Exn unit :=
  let! stranded := except_exception (exchanges_list_unowned_open others) (fun _ => ret []) in
  for_each stranded (fun exchange => resume_open_exchange (ex_id exchange) false).

(** ** The end of a run *)

(** [_settle_to] *)
Definition settle_to (command : ProcessTerminated) (exchange_id : pystr)
    (status : ExchangeStatus.t) (keep_if_awaiting : bool) : M World Exn bool :=
  let! settled := exchanges_settle_owned others exchange_id (pt_task_id command) status keep_if_awaiting in
  ret (bool_decide (is_Some settled)).

(** [_settle_exchange] *)
Definition settle_exchange (command : ProcessTerminated) : M World Exn unit :=
  match pt_exchange_id command, pt_exchange_status command with
  | Some exchange_id, Some outcome =>
      let cancelled := bool_decide (outcome = ExchangeStatus.CANCELLED) in
      match cancelled, pt_unseen command with
      | false, SPOKEN =>
          let! settled := settle_to command exchange_id ExchangeStatus.OPEN false in
          when settled (resume_open_exchange exchange_id true)
      | false, MATERIAL_ONLY =>
          let! settled := settle_to command exchange_id ExchangeStatus.COLLECTING false in
          when settled (exchanges_touch others exchange_id)
      | _, _ =>
          let! _ := settle_to command exchange_id outcome (negb cancelled) in ret tt
      end
  | _, _ => ret tt
  end.

(** The queueing part of [_handle_terminated]. *)
Definition queue_outcome (command : ProcessTerminated) (task : Task) : M World Exn unit :=
  if silent_done task then mark_streamed_delivered others task
  else
    match pt_terminal command with
    | None => enqueue_redelivery task
    | Some terminal =>
        if bool_decide (is_Some (pt_exchange_id command)) && pt_delivered_live command
        then mark_streamed_delivered others task
        else enqueue_terminal terminal task
    end.

Definition task_of_command (command : ProcessTerminated) : M World Exn (option Task) :=
  match pt_task command with
  | Some task => ret (Some task)
  | None =>
      try_except (let! task := tasks_get others (pt_task_id command) in ret (Some task))
        (fun e => if is_task_not_found e then ret None else raise e)
  end.

(** [_handle_terminated] *)
Definition handle_terminated (command : ProcessTerminated) : M World Exn unit :=
  settle_exchange command ;;;
  let! task := task_of_command command in
  match task with
  | None => ret tt
  | Some task =>
      queue_outcome command task ;;;
      flush_deliveries others ;;;
      sweep_unowned_open
  end.
End Answers.
