(* ===== verification/Intake.v ===== *)
(** * Forwarded material and taking in a message ([ConversationRunner], [agent/runner.py])

    What the user shared rather than wrote joins the exchange being answered,
    or the dialog's one collection; a collection that went quiet is promoted
    into an obligation, or moved to the exchange it belongs to. *)
From S2P Require Import Prelude PyStr Clock Sql Dict Domain UnitOfWork Branch Broadcast Codec TaskStore ExchangeStore MessageStore Compactor Router RunnerText RunnerState Outbox Pump Answers.

Section Intake.
Context (config : RunnerConfig) (others : nat -> World -> World).

(** ** Metering *)

Definition record_event (kind : UsageKind.t) (quantity : Z) (usage : option Usage)
    : M World Exn unit :=
  match cfg_limits config with
  | None => ret tt
  | Some limits =>
      let! dialog := runner r_dialog in
      lg_record limits
        {| ue_user_id := dlg_user_id dialog; ue_kind := kind; ue_origin := UsageOrigin.INTERACTIVE;
           ue_prompt_tokens := default 0%Z (prompt_tokens <$> usage);
           ue_completion_tokens := default 0%Z (completion_tokens <$> usage);
           ue_quantity := quantity; ue_dialog_id := Some (dlg_id dialog);
           ue_exchange_id := None; ue_task_id := None; ue_created_at := None |}
  end.

(** [_record_user_message] *)
Definition record_user_message : M World Exn unit := record_event UsageKind.USER_MESSAGE 1 None.

(** [_record_routing] *)
Definition record_routing (usage : option Usage) : M World Exn unit :=
  match usage with
  | None => ret tt
  | Some _ => record_event UsageKind.LLM_ROUTING 0 usage
  end.

(** ** Reading a collection *)

(** [_material_pieces] *)
Definition material_pieces (exchange_id : pystr) (narrative : list ChatMessage) : list pystr :=
  take MATERIAL_DIGEST_MESSAGES
    (cm_content <$> filter (fun m => cm_exchange_id m = Some exchange_id /\
                                     cm_kind m = MessageKind.MATERIAL) narrative).

(** [_material_digest] *)
Definition material_digest (exchange_id : pystr) (narrative : list ChatMessage) : pystr :=
  let pieces := material_pieces exchange_id narrative in
  MATERIAL_DIGEST (Z.of_nat (length pieces)) (bounded_preview pieces MATERIAL_DIGEST_CHARS).

(** [_material_preview] *)
Definition material_preview (exchange_id : pystr) (narrative : list ChatMessage) : option pystr :=
  match material_pieces exchange_id narrative with
  | [] => None
  | pieces => Some (bounded_preview pieces MATERIAL_DIGEST_CHARS)
  end.

(** ** Taking material in *)

(** [max(answering, key=updated_at)]: the first of the greatest. *)
Fixpoint latest_of (l : list Exchange) : option Exchange :=
  match l with
  | [] => None
  | e :: l =>
      match latest_of l with
      | Some e' => if (ex_updated_at e <? ex_updated_at e')%Z then Some e' else Some e
      | None => Some e
      end
  end.

(** [_collecting_exchange] *)
Definition collecting_exchange (message : ChatMessage) (origin : option pystr)
    : M World Exn Exchange :=
  let! existing := exchanges_find_collecting others in
  match existing with
  | Some exchange => ret exchange
  | None =>
      let title := match truthy origin with
                   | Some origin => MATERIAL_TITLE origin
                   | None => untitled message
                   end in
      exchanges_create others title (Some ExchangeStatus.COLLECTING)
  end.

(** [_material_home] *)
Definition material_home (message : ChatMessage) (origin : option pystr) : M World Exn Exchange :=
  let! live := exchanges_list_live others in
  let! answering := runner (fun r => filter (fun e => is_Some (live_process_for (ex_id e) r)) live) in
  match latest_of answering with
  | Some exchange => ret exchange
  | None => collecting_exchange message origin
  end.

(** [_collect_material] *)
Definition collect_material (message : ChatMessage) (command : Submit) : M World Exn unit :=
  let! exchange := material_home message (sb_origin command) in
  narrative_append (with_exchange (Some (ex_id exchange)) message) ;;;
  match cm_id message with
  | Some id => messages_set_exchange others id (ex_id exchange)
  | None => ret tt
  end ;;;
  exchanges_touch others (ex_id exchange).

(** ** Promotion *)

Definition exchange_info (now : time) (preview : option pystr) (item : Exchange) : ExchangeInfo :=
  {| xi_id := ex_id item; xi_title := ex_title item; xi_status := ex_status item;
     xi_pending_question := ex_pending_question item; xi_age := (now - ex_updated_at item)%Z;
     xi_preview := preview |}.

Definition find_exchange (exchange_id : pystr) (l : list Exchange) : option Exchange :=
  head (filter (fun e => ex_id e = exchange_id) l).

(** [_material_target] *)
Definition material_target (collection : Exchange) : M World Exn (option Exchange) :=
  let! all := exchanges_list_live others in
  let live := filter (fun e => ex_id e <> ex_id collection /\
                               ex_status e <> ExchangeStatus.COLLECTING) all in
  match live with
  | [] => ret None
  | _ =>
      let! now := utc_now in
      let! narrative := runner r_narrative in
      let! decision := cfg_router config (exchange_info now None <$> live)
                         (material_digest (ex_id collection) narrative) (cfg_max_processes config) in
      record_routing (rd_usage decision) ;;;
      ret (match rd_action decision, rd_exchange_id decision with
           | RouteAction.CONTINUE, Some id => find_exchange id live
           | _, _ => None
           end)
  end.

(** The loop of [_reparent_material]: it walks the narrative by index while
    every store call in it lets the others run.  Nothing they append meanwhile
    is of the collection, so the length the loop starts with bounds it. *)
Fixpoint reparent_from (fuel index : nat) (collection target : pystr) : M World Exn unit :=
  match fuel with
  | O => ret tt
  | S fuel =>
      let! narrative := runner r_narrative in
      match narrative !! index with
      | None => ret tt
      | Some message =>
          if decide (cm_exchange_id message <> Some collection) then
            reparent_from fuel (S index) collection target
          else
            update (fun r => set_r_narrative
              (<[index := with_exchange (Some target) message]> (r_narrative r)) r) ;;;
            match cm_id message with
            | Some id => messages_set_exchange others id target
            | None => ret tt
            end ;;;
            reparent_from fuel (S index) collection target
      end
  end.

(** [_reparent_material] *)
Definition reparent_material (collection target : Exchange) : M World Exn unit :=
  let! narrative := runner r_narrative in
  reparent_from (length narrative) 0 (ex_id collection) (ex_id target) ;;;
  exchanges_set_status others (ex_id collection) ExchangeStatus.CANCELLED None ;;;
  exchanges_touch others (ex_id target) ;;;
  let! answering := runner (live_process_for (ex_id target)) in
  match answering with
  | Some _ => ret tt
  | None =>
      exchanges_set_status others (ex_id target) ExchangeStatus.OPEN None ;;;
      resume_open_exchange config others (ex_id target) false
  end.

(** [_handle_promote] *)
Definition handle_promote (exchange_id : pystr) : M World Exn unit :=
  let! found := try_except (let! e := exchanges_get others exchange_id in ret (Some e))
                  (fun e => if is_exchange_not_found e then ret None else raise e) in
  match found with
  | None => ret tt
  | Some exchange =>
      let! now := utc_now in
      if decide (ex_status exchange <> ExchangeStatus.COLLECTING) then ret tt
      else if (now - ex_updated_at exchange <? cfg_material_quiet config)%Z then ret tt
      else
        let! target := material_target exchange in
        match target with
        | Some target => reparent_material exchange target
        | None =>
            exchanges_set_status others (ex_id exchange) ExchangeStatus.OPEN None ;;;
            resume_open_exchange config others (ex_id exchange) false
        end
  end.
End Intake.

(** ** Taking in a message ([ConversationRunner], [agent/runner.py] *)

(** A submitted message is stored once, routed to the exchange it belongs to
    and given a run that owes it an answer. *)
Section Intake.
Context (config : RunnerConfig) (others : nat -> World -> World).

(** ** Routing *)

(** [_sole_fresh_collection] *)
Definition sole_fresh_collection (now : time) (live : list Exchange) : option Exchange :=
  match live with
  | [collection] =>
      if decide (ex_status collection <> ExchangeStatus.COLLECTING) then None
      else if (cfg_material_quiet config <=? now - ex_updated_at collection)%Z then None
      else Some collection
  | _ => None
  end.

(** [RouteDecision(action=CONTINUE, exchange_id=..)] *)
Definition continue_with (exchange_id : pystr) : RouteDecision :=
  {| rd_action := RouteAction.CONTINUE; rd_exchange_id := Some exchange_id; rd_cancel_ids := [];
     rd_title := None; rd_usage := None |}.

Definition named_reply (command : Submit) (live : list Exchange) : option pystr :=
  match sb_reply_to_exchange_id command with
  | Some id => if decide (id ∈ ex_id <$> live) then Some id else None
  | None => None
  end.

(** [_route] *)
Definition route (message : ChatMessage) (command : Submit) (live : list Exchange)
    : M World Exn RouteDecision :=
  match named_reply command live, live with
  | Some id, _ => ret (continue_with id)
  | None, [] => ret default_decision
  | None, _ =>
      let! now := utc_now in
      match sole_fresh_collection now live with
      | Some collection => ret (continue_with (ex_id collection))
      | None =>
          let! narrative := runner r_narrative in
          let infos := (fun item =>
            exchange_info now
              (if decide (ex_status item = ExchangeStatus.COLLECTING)
               then material_preview (ex_id item) narrative else None) item) <$> live in
          cfg_router config infos (cm_content message) (cfg_max_processes config)
      end
  end.

(** ** Applying a decision *)

(** [_cancel_exchanges] *)
Fixpoint cancel_exchanges (exchange_ids : list pystr) (cancelled : gset pystr)
    : M World Exn (gset pystr) :=
  match exchange_ids with
  | [] => ret cancelled
  | exchange_id :: exchange_ids =>
      let! cancelled := try_except
        (let! answering := runner (live_process_for exchange_id) in
         match answering with
         | Some process => let! _ := cancel_process (p_task_id process) in ret tt
         | None => ret tt
         end ;;;
         exchanges_set_status others exchange_id ExchangeStatus.CANCELLED None ;;;
         ret ({[exchange_id]} ∪ cancelled))
        (fun e => if is_exchange_not_found e then ret cancelled else raise e) in
      cancel_exchanges exchange_ids cancelled
  end.

(** [_retitle] *)
Definition retitle (exchange_id : pystr) (title : option pystr) : M World Exn unit :=
  match title with
  | None => ret tt
  | Some title => except_exception (exchanges_set_title others exchange_id title) (fun _ => ret tt)
  end.

(** [_nudge_stale_exchanges] *)
Definition nudge_due (now : time) (current_exchange_id : option pystr) (cancelled : gset pystr)
    (exchange : Exchange) : option pystr :=
  if decide (Some (ex_id exchange) = current_exchange_id \/ ex_id exchange ∈ cancelled \/
             ex_status exchange <> ExchangeStatus.AWAITING_USER) then None
  else if (now - ex_updated_at exchange <? NUDGE_AFTER)%Z then None
  else ex_pending_question exchange.

Definition nudge_stale_exchanges (current_exchange_id : option pystr) (live : list Exchange)
    (cancelled : gset pystr) : M World Exn unit :=
  let! now := utc_now in
  for_each live (fun exchange =>
    match nudge_due now current_exchange_id cancelled exchange with
    | Some question => deliver_notice config others (NUDGE (ex_title exchange) question) None
    | None => ret tt
    end).

(** The exchange a decision attaches the message to: the one named, a new
    one, none (a command), or none because no slot is left; the second part
    is the exchange just created, the third the refusal. *)
Definition attach (message : ChatMessage) (decision : RouteDecision) (cancelled : gset pystr)
    : M World Exn (option pystr * option Exchange * bool) :=
  match rd_action decision, rd_exchange_id decision with
  | RouteAction.CONTINUE, Some exchange_id =>
      retitle exchange_id (rd_title decision) ;;;
      ret (Some exchange_id, None, false)
  | RouteAction.COMMAND, _ => ret (None, None, false)
  | _, _ =>
      let! full := runner (fun r => exceeds_limit config (cancelled_tasks cancelled r) r) in
      if full then ret (None, None, true)
      else
        let! created := exchanges_create others (cm_content message) None in
        ret (Some (ex_id created), Some created, false)
  end.

(** [_apply_route] *)
Definition apply_route (message : ChatMessage) (decision : RouteDecision) (command : Submit)
    (live : list Exchange) : M World Exn unit :=
  let! cancelled := cancel_exchanges (rd_cancel_ids decision) ∅ in
  let! ' (exchange_id, created, refused) := attach message decision cancelled in
  let message := with_exchange exchange_id message in
  narrative_append message ;;;
  match cm_id message, exchange_id with
  | Some id, Some exchange_id => messages_set_exchange others id exchange_id
  | _, _ => ret tt
  end ;;;
  if (refused : bool) then reject_for_limit config others message
  else
    match exchange_id with
    | Some exchange_id =>
        ensure_owner config others exchange_id message (sb_client_message_id command) cancelled
          (Some (sb_cancel_epoch command)) created
    | None => ret tt
    end ;;;
    nudge_stale_exchanges exchange_id live cancelled.

(** ** Submitting *)

(** [_is_duplicate] *)
Definition is_duplicate (client_message_id : option pystr) : M World Exn bool :=
  match client_message_id with
  | None => ret false
  | Some key => messages_find_by_client_id others key
  end.

(** The [try] of [_handle_submit]: the id of the stored row, or nothing when
    the submit is a duplicate or could not be stored. *)
Definition store_submit (command : Submit) : M World Exn (option pystr) :=
  except_exception
    (let! duplicate := is_duplicate (sb_client_message_id command) in
     if duplicate then ret None
     else
       let! message_id := persist config others (sb_message command) None (sb_client_message_id command) in
       ret (Some message_id))
    (fun _ => let! _ := broadcast_event (Failed SUBMIT_FAILED_ERROR) None in ret None).

(** [_handle_submit] *)
Definition handle_submit (command : Submit) : M World Exn unit :=
  let! stored := store_submit command in
  match stored with
  | None => ret tt
  | Some message_id =>
      let message := with_id message_id (sb_message command) in
      record_user_message config ;;;
      if decide (cm_kind message = MessageKind.MATERIAL) then collect_material others message command
      else
        let! live := exchanges_list_live others in
        let! decision := route message command live in
        record_routing config (rd_usage decision) ;;;
        apply_route message decision command live
  end.
End Intake.
