(* ===== verification/Actor.v ===== *)
(** * The actor ([ConversationRunner], [agent/runner.py])

    Commands are consumed one at a time from the inbox; background runs,
    questions, cancellations and shutdowns enter from outside it. *)
From S2P Require Import Prelude PyStr Clock Sql Dict Domain UnitOfWork Branch Broadcast Codec TaskStore ExchangeStore MessageStore Compactor Router RunnerText RunnerState Outbox Pump Answers Intake.

(** [TaskDeleteOutcome] of [tools/base.py] *)
Module TaskDeleteOutcome.
Inductive t : Set := DELETED | NOT_RUNNING.
End TaskDeleteOutcome.

Section Actor.
Context (config : RunnerConfig) (others : nat -> World -> World).

(** ** Background runs *)

(** [spawn_task] *)
Definition spawn_task (title prompt : pystr) : M World Exn pystr :=
  let! budget := run_budget_verdict config in
  match budget with
  | Some verdict => ret (TARIFF_SPAWN_REFUSAL verdict)
  | None =>
      let! task := locked others set_r_spawn_lock
        (let! r := runner id in
         if slots_full config r then ret (inr (SPAWN_REFUSAL (active_titles r) (cfg_max_processes config)))
         else
           let! task := prepare_process_task others title prompt TaskKind.RUN None None in
           start_process task ;;;
           ret (inl task)) in
      ret (match task with inl task => SPAWNED (tk_id task) | inr refusal => refusal end)
  end.

(** [wake] *)
Definition wake (title prompt cron_job_id : pystr) : M World Exn bool :=
  let! budget := run_budget_verdict config in
  match budget with
  | Some verdict => publish_tariff_cron_note config others title cron_job_id verdict ;;; ret false
  | None =>
      let! over_limit := locked others set_r_spawn_lock
        (let! full := runner (slots_full config) in
         if full then ret true
         else
           let! task := prepare_process_task others title prompt TaskKind.RUN (Some cron_job_id) None in
           start_process task ;;;
           ret false) in
      when over_limit (publish_cron_limit_note config others title) ;;;
      ret (negb over_limit)
  end.

(** [delete_task]; awaiting the pump lets it run to its end. *)
Definition delete_task (task_id : pystr) : M World Exn TaskDeleteOutcome.t :=
  let! live := cancel_process task_id in
  if live then yield others ;;; ret TaskDeleteOutcome.DELETED
  else ret TaskDeleteOutcome.NOT_RUNNING.

(** ** Restarting orphans *)

(** A task failed without a run, its failure queued. *)
Definition fail_orphaned (task : Task) (error : pystr) : M World Exn unit :=
  let! _ := tasks_mark_failed others (tk_id task) error false in
  let! delivery := new_delivery [Failed error] (Some (tk_id task)) None in
  push_back delivery ;;;
  flush_deliveries others.

(** [_admit_orphaned] *)
Definition admit_orphaned (task : Task) : M World Exn bool :=
  let! budget := run_budget_verdict config in
  match budget with
  | None => ret true
  | Some verdict => fail_orphaned task (TARIFF_RESTART_ERROR verdict) ;;; ret false
  end.

(** [_exchange_awaits_user] *)
Definition exchange_awaits_user (exchange_id : pystr) : M World Exn bool :=
  try_except
    (let! exchange := exchanges_get others exchange_id in
     ret (bool_decide (ex_status exchange = ExchangeStatus.AWAITING_USER)))
    (fun e => if is_exchange_not_found e then ret false else raise e).

Definition set_status_if_there (exchange_id : option pystr) (status : ExchangeStatus.t)
    : M World Exn unit :=
  match exchange_id with
  | Some id => suppress is_exchange_not_found (exchanges_set_status others id status None)
  | None => ret tt
  end.

(** [_start_orphaned] *)
Definition start_orphaned (task : Task) : M World Exn unit :=
  if decide (tk_kind task <> TaskKind.ANSWER) then
    let! admitted := admit_orphaned task in
    when admitted (start_process task)
  else
    let exchange_id := tk_exchange_id task in
    let! awaits := match exchange_id with Some id => exchange_awaits_user id | None => ret false end in
    if awaits then let! _ := tasks_mark_done others (tk_id task) "" false in ret tt
    else
      let! admitted := admit_orphaned task in
      if negb admitted then set_status_if_there exchange_id ExchangeStatus.OPEN
      else
        let! _ := create_answer_process config others task exchange_id in
        set_status_if_there exchange_id ExchangeStatus.IN_PROGRESS.

(** [restart_task] *)
Definition restart_task (task : Task) : M World Exn unit :=
  let! started := locked others set_r_spawn_lock
    (let! full := runner (slots_full config) in
     if full then ret false else start_orphaned task ;;; ret true) in
  if started then ret tt else fail_orphaned task RESTART_LIMIT_ERROR.

(** ** What a run may ask of its dialog *)

(** [ask_user] *)
Definition ask_user (process_id question : pystr) : M World Exn bool :=
  let! process := get_process process_id in
  match process ≫= p_exchange_id with
  | None => ret false
  | Some exchange_id =>
      modify_process process_id (set_p_asked true) ;;;
      deliver_notice config others question (Some exchange_id) ;;;
      suppress is_exchange_not_found
        (exchanges_set_status others exchange_id ExchangeStatus.AWAITING_USER (Some question)) ;;;
      ret true
  end.

(** [_latest_images] *)
Definition images_of (message : ChatMessage) : list Attachment :=
  filter (fun a => at_kind a = AttachmentKind.IMAGE) (cm_attachments message).
Definition latest_images (narrative : list ChatMessage) : list Attachment :=
  match filter (fun l => l <> []) (images_of <$> rev narrative) with
  | images :: _ => take MAX_LOOK_IMAGES images
  | [] => []
  end.

Fixpoint gather_all {A B} (f : A -> M World Exn B) (l : list A) : M World Exn (list B) :=
  match l with
  | [] => ret []
  | x :: l => let! y := f x in let! ys := gather_all f l in ret (y :: ys)
  end.

(** [look_at_image] *)
Definition look_at_image (question : pystr) : M World Exn pystr :=
  match cfg_vision config, cfg_image_resolver config with
  | Some look, Some fetch =>
      let! attachments := runner (fun r => latest_images (r_narrative r)) in
      match attachments with
      | [] => raise (VisionUnavailableError "no image in this dialog")
      | _ =>
          let! images := gather_all (fun a => fetch (at_ref a)) attachments in
          look images question
      end
  | _, _ => raise (VisionUnavailableError "vision is not configured")
  end.

(** ** The stop button *)

(** [_handle_cancel] *)
Definition cancel_answers (r : Runner) : Runner :=
  set_r_processes
    ((fun '(k, p) => (k, if bool_decide (is_Some (p_exchange_id p)) then set_p_cancelled true p else p))
       <$> r_processes r)
    (set_r_cancel_epoch (r_cancel_epoch r + 1) r).
Definition handle_cancel : M World Exn unit := update cancel_answers.

(** [_cancel_parked_exchanges] *)
Definition dropped_by_stop (r : Runner) (exchange : Exchange) : bool :=
  (bool_decide (ex_status exchange = ExchangeStatus.AWAITING_USER) &&
   bool_decide (live_process_for (ex_id exchange) r = None)) ||
  bool_decide (ex_status exchange = ExchangeStatus.COLLECTING).
Definition cancel_parked_exchanges : M World Exn unit :=
  let! live := exchanges_list_live others in
  for_each live (fun exchange =>
    let! drop := runner (fun r => dropped_by_stop r exchange) in
    when drop (exchanges_set_status others (ex_id exchange) ExchangeStatus.CANCELLED None)).

(** [cancel] *)
Definition cancel : M World Exn unit := handle_cancel ;;; cancel_parked_exchanges.

(** ** The inbox *)

(** [submit] and [promote_collected] *)
Definition submit (content : pystr) (client_message_id reply_to_exchange_id : option pystr)
    (source : option MessageSource) : M World Exn unit :=
  let resolved := default default_source source in
  let! epoch := runner r_cancel_epoch in
  put_command (CSubmit
    {| sb_message :=
         {| cm_role := MessageRole.USER; cm_content := content; cm_tool_calls := [];
            cm_tool_call_id := None; cm_task_id := None; cm_kind := src_kind resolved;
            cm_attachments := src_attachments resolved; cm_id := None; cm_exchange_id := None |};
       sb_client_message_id := client_message_id; sb_reply_to_exchange_id := reply_to_exchange_id;
       sb_cancel_epoch := epoch; sb_origin := src_origin resolved |}).
Definition promote_collected (exchange_id : pystr) : M World Exn unit :=
  put_command (CPromote exchange_id).

(** [_dispatch] *)
Definition dispatch (command : Command) : M World Exn unit :=
  match command with
  | CSubmit command => handle_submit config others command
  | CTerminated command => handle_terminated config others command
  | CFlush => flush_deliveries others
  | CPromote exchange_id => handle_promote config others exchange_id
  end.

(** One turn of the loop of [_run_actor]; an empty inbox parks the actor. *)
Definition command_failed (command : Command) : M World Exn unit :=
  let! cancelling := runner r_cancelling in
  if cancelling then raise CancelledError
  else match command with
       | CSubmit _ => let! _ := broadcast_event (Failed SUBMIT_FAILED_ERROR) None in ret tt
       | _ => ret tt
       end.
Definition actor_turn : M World Exn unit :=
  let! inbox := runner r_inbox in
  match inbox with
  | [] => ret tt
  | command :: rest =>
      update (set_r_inbox rest) ;;;
      except_exception (dispatch command) (fun _ => command_failed command) ;;;
      let! r := runner id in
      if r_preempted r || r_cancelling r then raise CancelledError else ret tt
  end.

(** [_run_actor] over [n] turns. *)
Fixpoint run_actor (n : nat) : M World Exn unit :=
  match n with
  | O => ret tt
  | S n => actor_turn ;;; run_actor n
  end.

(** ** Shutting down *)

(** [stop]: everything is cancelled at once, then awaited; awaiting lets the
    cancelled tasks run to their end. *)
Definition stop : M World Exn unit :=
  let! processes := runner r_processes in
  update (fun r => set_r_cancelling true
    (set_r_processes ((fun '(k, p) => (k, set_p_cancelled true p)) <$> r_processes r) r)) ;;;
  for_each processes (fun _ => yield others) ;;;
  yield others ;;;
  let! d := dialog_id in
  cc_aclose (cfg_compactor config) d.

(** [stand_down] *)
Definition close_streams (r : Runner) : Runner :=
  let hub := r_hub r in
  set_r_hub {| h_seq := h_seq hub; h_dropped := h_dropped hub; h_subscribers := [] |} r.
Definition stand_down : M World Exn (list (N * queue)) :=
  let! r := runner id in
  if r_stood_down r then ret []
  else
    let closed := (fun '(k, q) => (k, close_stream q)) <$> h_subscribers (r_hub r) in
    update (fun r => close_streams (set_r_stood_down true r)) ;;;
    stop ;;;
    ret closed.

(** [can_still_answer] *)
Definition can_still_answer : M World Exn bool :=
  let! r := runner id in
  if r_stood_down r || r_preempted r then ret false else still_owns_dialog others.
End Actor.
