(* ===== verification/Loop.v ===== *)
(** * The agent loop ([agent/loop.py], [tools/registry.py])

    One run: model calls alternate with tool calls until the model answers.
    The loop is an async generator, a [Stream] over the state of its
    surroundings: between two of its events the consumer acts on that state,
    at each of its awaits the other tasks do.  Tool calls run beside the loop;
    when they finish, and what the model streams, is a script the
    surroundings provide. *)
From S2P Require Import Prelude PyStr PyFloat Clock Dict Domain RunnerText RunnerState.

(** ** Generators *)

Section Generators.
Context {S : Type}.

(** The code up to the next event depends on the state it starts in. *)
Definition gen_at (f : S -> Stream S) : Stream S :=
  Next (fun s => match f s with Next run _ => run s end)
       (fun s => match f s with Next _ signal => signal s end).
Definition gen_do (f : S -> S) (k : Stream S) : Stream S :=
  match k with Next run signal => Next (fun s => run (f s)) (fun s => signal (f s)) end.
Definition gen_yield (event : LoopEvent) (k : Stream S) : Stream S := Next id (fun _ => Yield event k).
Definition gen_stop : Stream S := Next id (fun _ => Stop).
Definition gen_raise (e : Exn) : Stream S := Next id (fun _ => Raise e).
Definition gen_yields (events : list LoopEvent) (k : Stream S) : Stream S := foldr gen_yield k events.
End Generators.

(** ** The tool registry *)

Record ToolSpec := { ts_name : pystr; ts_description : pystr; ts_parameters : list (pystr * json) }.
(** A registered tool: its spec and its [visible_to], when it has one. *)
Record Tool := { tool_spec : ToolSpec; tool_visible_to : option (ToolContext -> bool) }.
Definition tools : Type := list (pystr * Tool).

Module ToolRegistry.
(** [None] is the [DuplicateToolError]; of [get], the [ToolNotFoundError]. *)
Definition register (tool : Tool) (t : tools) : option tools :=
  let name := ts_name (tool_spec tool) in
  match dict_get name t with Some _ => None | None => Some (dict_set name tool t) end.
Definition get (name : pystr) (t : tools) : option Tool := dict_get name t.
Definition is_visible (tool : Tool) (context : ToolContext) : bool :=
  match tool_visible_to tool with None => true | Some visible_to => visible_to context end.
Definition specs (context : option ToolContext) (t : tools) : list ToolSpec :=
  tool_spec <$> match context with
                | None => dict_values t
                | Some context => filter (fun tool => is_visible tool context = true) (dict_values t)
                end.
End ToolRegistry.

(** ** Streamed completions ([llm/events.py])

    An index is [None] where the provider sends [null] for it. *)

Inductive StreamEvent :=
| LlmTextDelta (text : pystr)
| LlmReasoningDelta
| ToolCallStarted (index : option Z) (call_id name : pystr)
| ToolCallReady (call : ToolCall)
| ToolCallBroken (index : option Z) (call_id name error raw : pystr)
| StreamFinished (message : ChatMessage) (usage : option Usage)
| LlmRetryScheduled (attempt : Z) (delay : float) (reason : pystr).

Definition MAX_ITERATIONS_MESSAGE : pystr := "Agent loop reached the iteration limit".
Definition EMPTY_STREAM_MESSAGE : pystr := "LLM stream ended without a final message".
Definition STREAM_IDLE_TIMEOUT_MESSAGE : pystr := "LLM stream idle timeout".
Definition ERROR_OUTPUT_PREFIX : pystr := "error: ".
Definition CANCELLED_OUTPUT : pystr := "cancelled".
(** [TOOL_TIMEOUT_MESSAGE], with the [repr] of the name and the limit as
    [format] renders them. *)
Definition TOOL_TIMEOUT_MESSAGE (name seconds : pystr) : pystr :=
  "tool " +s+ name +s+ " exceeded its " +s+ seconds +s+ "s time limit".

(** ** Tool runs *)

(** [_ToolRunResult] *)
Record ToolRunResult := { tr_call : ToolCall; tr_content : pystr; tr_error : option pystr }.

(** How the [execute] of a tool ends: its text, an exception (its class and
    text), or not before the limit. *)
Inductive ToolOutcome :=
| Returned (output : pystr)
| RaisedError (class text : pystr)
| TimedOut.

(** [_ToolRunTracker]: the tasks it created, in order, each with "still
    running", and its fields. *)
Record Tracker := {
  tt_runs : list (ToolCall * bool);
  tt_tasks : list (pystr * nat);
  tt_results : list (pystr * ToolRunResult);
  tt_queue : list ToolRunResult;
  tt_order : list ToolCall;
  tt_seen : bool }.
Definition new_tracker : Tracker :=
  {| tt_runs := []; tt_tasks := []; tt_results := []; tt_queue := []; tt_order := []; tt_seen := false |}.

Definition spawn (call : ToolCall) (tr : Tracker) : Tracker :=
  {| tt_runs := tt_runs tr ++ [(call, true)];
     tt_tasks := dict_set (tc_id call) (length (tt_runs tr)) (tt_tasks tr);
     tt_results := tt_results tr; tt_queue := tt_queue tr; tt_order := tt_order tr ++ [call];
     tt_seen := true |}.

Definition with_queue (q : list ToolRunResult) (tr : Tracker) : Tracker :=
  {| tt_runs := tt_runs tr; tt_tasks := tt_tasks tr; tt_results := tt_results tr; tt_queue := q;
     tt_order := tt_order tr; tt_seen := tt_seen tr |}.
Definition with_runs (runs : list (ToolCall * bool)) (tr : Tracker) : Tracker :=
  {| tt_runs := runs; tt_tasks := tt_tasks tr; tt_results := tt_results tr; tt_queue := tt_queue tr;
     tt_order := tt_order tr; tt_seen := tt_seen tr |}.

Definition mark_broken (call_id name error : pystr) (tr : Tracker) : Tracker :=
  let call := {| tc_id := call_id; tc_name := name; tc_arguments := [] |} in
  {| tt_runs := tt_runs tr; tt_tasks := tt_tasks tr; tt_results := tt_results tr;
     tt_queue := tt_queue tr ++ [{| tr_call := call; tr_content := ERROR_OUTPUT_PREFIX +s+ error;
                                    tr_error := Some error |}];
     tt_order := tt_order tr ++ [call]; tt_seen := true |}.

Definition completion (result : ToolRunResult) : LoopEvent :=
  match tr_error result with
  | Some error => ToolCallFailed (tr_call result) error
  | None => ToolCallCompleted (tr_call result) (tr_content result)
  end.

Definition drain (tr : Tracker) : list LoopEvent * Tracker :=
  (completion <$> tt_queue tr,
   {| tt_runs := tt_runs tr; tt_tasks := tt_tasks tr;
      tt_results := foldl (fun d r => dict_set (tc_id (tr_call r)) r d) (tt_results tr) (tt_queue tr);
      tt_queue := []; tt_order := tt_order tr; tt_seen := tt_seen tr |}).

(** The tasks [_tasks] holds that are not done. *)
Definition is_running (tr : Tracker) (n : nat) : bool :=
  match tt_runs tr !! n with Some (_, running) => running | None => false end.
Definition pending_runs (tr : Tracker) : list nat :=
  filter (fun n => is_running tr n = true) (dict_values (tt_tasks tr)).

Definition end_run (n : nat) (runs : list (ToolCall * bool)) : list (ToolCall * bool) :=
  alter (fun run => (run.1, false)) n runs.

(** [abort]: the tasks of [_tasks] are cancelled; a cancelled run leaves no
    result, what had landed is kept. *)
Definition abort (tr : Tracker) : Tracker :=
  (drain (with_runs (foldr end_run (tt_runs tr) (dict_values (tt_tasks tr))) tr)).2.

Definition result_content (tr : Tracker) (call : ToolCall) : pystr :=
  match dict_get (tc_id call) (tt_results tr) with
  | None => CANCELLED_OUTPUT
  | Some result => tr_content result
  end.
Definition tool_reply (tr : Tracker) (call : ToolCall) : ChatMessage :=
  {| cm_role := MessageRole.TOOL; cm_content := result_content tr call; cm_tool_calls := [];
     cm_tool_call_id := Some (tc_id call); cm_task_id := None; cm_kind := MessageKind.OWN;
     cm_attachments := []; cm_id := None; cm_exchange_id := None |}.
Definition tool_messages (tr : Tracker) (calls : list ToolCall) : list ChatMessage :=
  tool_reply tr <$> calls.

(** [_execute_one] *)
Section Execute.
Context (registry : tools) (repr : pystr -> pystr) (seconds_text : pystr).

Definition execute_one (call : ToolCall) (outcome : ToolOutcome) : pystr * option pystr :=
  let failed error := (ERROR_OUTPUT_PREFIX +s+ error, Some error) in
  match ToolRegistry.get (tc_name call) registry with
  | None => failed (format_error "ToolNotFoundError" (tc_name call))
  | Some _ =>
      match outcome with
      | Returned output => (output, None)
      | RaisedError class text => failed (format_error class text)
      | TimedOut => failed (TOOL_TIMEOUT_MESSAGE (repr (tc_name call)) seconds_text)
      end
  end.

(** The n-th task ends: [_run_one] puts its result. *)
Definition land (tr : Tracker) (landing : nat * ToolOutcome) : Tracker :=
  let '(n, outcome) := landing in
  match tt_runs tr !! n with
  | Some (call, true) =>
      let '(content, error) := execute_one call outcome in
      with_queue (tt_queue tr ++ [{| tr_call := call; tr_content := content; tr_error := error |}])
        (with_runs (end_run n (tt_runs tr)) tr)
  | _ => tr
  end.
End Execute.

(** ** The scripts of the surroundings *)

(** One wait of [_next_event]: the tools that ended meanwhile, and what ended
    the wait.  A silent wait ends with the idle timeout, or with the
    cancellation of the run when its watch was [noticed]. *)
Inductive Arrival :=
| Arrived (event : StreamEvent)
| Ended
| Broke (e : Exn)
| Silent (noticed : bool).
Record Moment := { mo_landed : list (nat * ToolOutcome); mo_arrival : Arrival }.

(** One wait for tools: those that ended, and whether the cancel watch did. *)
Record Round := { rd_landed : list (nat * ToolOutcome); rd_noticed : bool }.

(** [_AssistantStreamState] and [_IterationOutcome] *)
Record AssistantState := {
  as_content_parts : list pystr;
  as_final_message : option ChatMessage;
  as_interrupted : bool;
  as_timed_out : bool;
  as_usage : option Usage }.
Definition new_assistant : AssistantState :=
  {| as_content_parts := []; as_final_message := None; as_interrupted := false;
     as_timed_out := false; as_usage := None |}.
Definition interrupt (st : AssistantState) : AssistantState :=
  {| as_content_parts := as_content_parts st; as_final_message := as_final_message st;
     as_interrupted := true; as_timed_out := as_timed_out st; as_usage := as_usage st |}.
Definition time_out (st : AssistantState) : AssistantState :=
  {| as_content_parts := as_content_parts st; as_final_message := as_final_message st;
     as_interrupted := as_interrupted st; as_timed_out := true; as_usage := as_usage st |}.

Record IterationOutcome := {
  io_message : option ChatMessage;
  io_interrupted : bool;
  io_failed : bool;
  io_usage : option Usage }.
Definition new_outcome : IterationOutcome :=
  {| io_message := None; io_interrupted := false; io_failed := false; io_usage := None |}.
Definition observe (outcome : IterationOutcome) (event : LoopEvent) : IterationOutcome :=
  match event with
  | AssistantMessage message interrupted usage =>
      {| io_message := Some message; io_interrupted := interrupted; io_failed := io_failed outcome;
         io_usage := usage |}
  | Failed _ =>
      {| io_message := io_message outcome; io_interrupted := io_interrupted outcome;
         io_failed := true; io_usage := io_usage outcome |}
  | _ => outcome
  end.

(** [_handle_stream_event] *)
Definition push_text (text : pystr) (st : AssistantState) : AssistantState :=
  {| as_content_parts := as_content_parts st ++ [text]; as_final_message := as_final_message st;
     as_interrupted := as_interrupted st; as_timed_out := as_timed_out st; as_usage := as_usage st |}.
Definition set_final (message : ChatMessage) (usage : option Usage) (st : AssistantState) : AssistantState :=
  {| as_content_parts := as_content_parts st; as_final_message := Some message;
     as_interrupted := as_interrupted st; as_timed_out := as_timed_out st; as_usage := usage |}.
Definition handle_stream_event (event : StreamEvent) (tr : Tracker) (st : AssistantState)
    : list LoopEvent * Tracker * AssistantState :=
  let '(events, tr, st) :=
    match event with
    | LlmTextDelta text => ([TextDelta text], tr, push_text text st)
    | LlmReasoningDelta => ([ReasoningDelta], tr, st)
    | ToolCallReady call => ([ToolCallRequested call], spawn call tr, st)
    | ToolCallBroken _ call_id name error _ => ([], mark_broken call_id name error tr, st)
    | StreamFinished message usage => ([], tr, set_final message usage st)
    | LlmRetryScheduled attempt delay reason => ([RetryScheduled attempt delay reason], tr, st)
    | ToolCallStarted _ _ _ => ([], tr, st)
    end in
  let '(landed, tr) := drain tr in
  (events ++ landed, tr, st).

(** ** [AgentLoop] *)

Section AgentLoop.
Context {S : Type}.
(** The history the loop appends to, the flag of its control, an await, and
    the scripts: what the model streams for a call made in this state, and
    how the tools end that are waited for from this state on. *)
Context (append : list ChatMessage -> S -> S) (is_cancelled : S -> bool) (pause : S -> S).
Context (llm : S -> list Moment) (rounds : S -> list Round).
Context (registry : tools) (repr : pystr -> pystr) (seconds_text : pystr) (max_iterations : Z).

Let land := land registry repr seconds_text.

(** [_pump_stream] *)
Fixpoint pump_stream (moments : list Moment) (tr : Tracker) (st : AssistantState)
    (k : Tracker -> AssistantState -> Stream S) : Stream S :=
  gen_do pause
    match moments with
    | [] => k tr st
    | moment :: moments =>
        gen_at (fun s =>
          let tr := foldl land tr (mo_landed moment) in
          match mo_arrival moment with
          | Ended => k tr st
          | Broke e => gen_do pause (gen_raise e)
          | Silent noticed => k tr (if is_cancelled s && noticed then interrupt st else time_out st)
          | Arrived event =>
              if is_cancelled s then k tr (interrupt st)
              else
                let '(events, tr, st) := handle_stream_event event tr st in
                gen_yields events (pump_stream moments tr st k)
          end)
    end.

(** [_finalize_assistant] and [_interrupt_iteration]; [_run] observes each
    event before it passes it on. *)
Definition emit_observed (event : LoopEvent) (k : IterationOutcome -> Stream S) : Stream S :=
  gen_yield event (k (observe new_outcome event)).

Definition interrupt_iteration (tr : Tracker) (content_parts : list pystr)
    (k : Tracker -> IterationOutcome -> Stream S) : Stream S :=
  let tr := abort tr in
  let message :=
    {| cm_role := MessageRole.ASSISTANT; cm_content := str_join "" content_parts;
       cm_tool_calls := tt_order tr; cm_tool_call_id := None; cm_task_id := None;
       cm_kind := MessageKind.OWN; cm_attachments := []; cm_id := None; cm_exchange_id := None |} in
  gen_do pause
    (gen_do (append (message :: tool_messages tr (cm_tool_calls message)))
      (emit_observed (AssistantMessage message true None) (k tr))).

Definition finalize_assistant (tr : Tracker) (st : AssistantState)
    (k : Tracker -> IterationOutcome -> Stream S) : Stream S :=
  if as_timed_out st then
    gen_do pause (emit_observed (Failed STREAM_IDLE_TIMEOUT_MESSAGE) (k (abort tr)))
  else if as_interrupted st then interrupt_iteration tr (as_content_parts st) k
  else
    match as_final_message st with
    | None => emit_observed (Failed EMPTY_STREAM_MESSAGE) (k tr)
    | Some message =>
        gen_do (append [message])
          (emit_observed (AssistantMessage message false (as_usage st)) (k tr))
    end.

(** [_stream_assistant] *)
Definition stream_assistant (k : Tracker -> IterationOutcome -> Stream S) : Stream S :=
  gen_at (fun s =>
    pump_stream (llm s) new_tracker new_assistant (fun tr st => finalize_assistant tr st k)).

(** [_ToolRunTracker.wait]; every run has a limit, so when the script ends
    the runs still pending time out. *)
Definition time_out_all (tr : Tracker) : Tracker :=
  foldl land tr ((fun n => (n, TimedOut)) <$> pending_runs tr).
Fixpoint wait (script : list Round) (tr : Tracker) (k : Tracker -> Stream S) : Stream S :=
  match pending_runs tr with
  | [] => let '(events, tr) := drain tr in gen_yields events (k tr)
  | _ =>
      gen_do pause
        match script with
        | [] =>
            gen_at (fun s =>
              if is_cancelled s then k tr
              else let '(events, tr) := drain (time_out_all tr) in gen_yields events (k tr))
        | round :: script =>
            gen_at (fun s =>
              let tr := foldl land tr (rd_landed round) in
              if is_cancelled s && rd_noticed round then k tr
              else let '(events, tr) := drain tr in gen_yields events (wait script tr k))
        end
  end.

(** [_stream_tool_calls] *)
Fixpoint spawn_calls (calls : list ToolCall) (tr : Tracker) (k : Tracker -> Stream S) : Stream S :=
  match calls with
  | [] => k tr
  | call :: calls => gen_yield (ToolCallRequested call) (spawn_calls calls (spawn call tr) k)
  end.
Definition stream_tool_calls (message : ChatMessage) (tr : Tracker) (k : Stream S) : Stream S :=
  let calls := cm_tool_calls message in
  spawn_calls (if tt_seen tr then [] else calls) tr (fun tr =>
    gen_at (fun s =>
      wait (rounds s) tr (fun tr =>
        gen_at (fun s =>
          if is_cancelled s then gen_do pause (gen_do (append (tool_messages (abort tr) calls)) k)
          else gen_do (append (tool_messages tr calls)) k)))).

(** [_run] *)
Fixpoint run_from (turns : nat) (index : Z) : Stream S :=
  match turns with
  | O => gen_yield (Failed MAX_ITERATIONS_MESSAGE) gen_stop
  | Datatypes.S turns =>
      gen_yield (IterationStarted index)
        (gen_at (fun s =>
          if is_cancelled s then gen_yield Cancelled gen_stop
          else
            stream_assistant (fun tr outcome =>
              if io_failed outcome then gen_stop
              else if io_interrupted outcome then gen_yield Cancelled gen_stop
              else
                match io_message outcome with
                | None => gen_raise (OtherError "AssertionError")
                | Some message =>
                    match cm_tool_calls message with
                    | [] => gen_yield (Finished message (io_usage outcome) None) gen_stop
                    | _ => stream_tool_calls message tr (run_from turns (index + 1))
                    end
                end)))
  end.
Definition run : Stream S := run_from (Z.to_nat max_iterations) 0.
End AgentLoop.
