(* ===== verification/LoopLaws.v ===== *)
(** * Laws of the agent loop ([agent/loop.py])

    What a run promises its consumer, whatever the model streams, however
    its tools end and whatever the consumer does between two events. *)
From S2P Require Import Prelude PyStr Clock Sql Dict Domain UnitOfWork Branch Broadcast Compactor Router RunnerText RunnerState Outbox Pump PumpLaws Loop.

(** ** Every run of a generator

    [gen_wp C Q stream done s]: resumed in [s] after the events [done], with a
    consumer that moves the state by [C] at each event, the generator ends,
    and its events, final state and exception satisfy [Q]. *)
Section Wp.
Context {S : Type} (C : S -> S -> Prop) (Q : list LoopEvent -> S -> option Exn -> Prop).

Fixpoint gen_wp (stream : Stream S) (done : list LoopEvent) (s : S) : Prop :=
  match stream with
  | Next run signal =>
      match signal s with
      | Stop => Q done (run s) None
      | Raise e => Q done (run s) (Some e)
      | Yield event rest => forall s2, C (run s) s2 -> gen_wp rest (done ++ [event]) s2
      end
  end.

Lemma wp_at f done s : gen_wp (f s) done s -> gen_wp (gen_at f) done s.
Proof. unfold gen_at. cbn [gen_wp]. by destruct (f s). Qed.
Lemma wp_do f k done s : gen_wp k done (f s) -> gen_wp (gen_do f k) done s.
Proof. by destruct k. Qed.
Lemma wp_yield event k done s :
  (forall s2, C s s2 -> gen_wp k (done ++ [event]) s2) -> gen_wp (gen_yield event k) done s.
Proof. done. Qed.
Lemma wp_stop done s : Q done s None -> gen_wp gen_stop done s.
Proof. done. Qed.
Lemma wp_raise e done s : Q done s (Some e) -> gen_wp (gen_raise e) done s.
Proof. done. Qed.
End Wp.
#[export] Hint Resolve wp_at wp_do wp_yield wp_stop wp_raise : core.

(** An invariant of the state and the events so far, kept by the consumer
    and by events of a kind. *)
Lemma wp_yields {S} (C : S -> S -> Prop) Q (I : list LoopEvent -> S -> Prop) (plain : LoopEvent -> Prop)
    events k done s :
  (forall event d s s2, plain event -> I d s -> C s s2 -> I (d ++ [event]) s2) ->
  Forall plain events -> I done s -> (forall d s, I d s -> gen_wp C Q k d s) ->
  gen_wp C Q (gen_yields events k) done s.
Proof.
  intros Hkeep Hp. revert done s. induction Hp as [|event events Hev Hp IH]; intros done s Hs Hk; [by apply Hk|].
  apply wp_yield. intros s2 Hc. apply IH; [by eapply Hkeep|done].
Qed.

(** ** Transcripts *)

(** The messages of whole iterations: every assistant message is followed at
    once by one reply per tool call of it, in call order. *)
Definition replies_to (call : ToolCall) (reply : ChatMessage) : Prop :=
  cm_role reply = MessageRole.TOOL /\ cm_tool_call_id reply = Some (tc_id call).
Inductive transcript : list ChatMessage -> Prop :=
| transcript_nil : transcript []
| transcript_turn l message replies :
    transcript l -> Forall2 replies_to (cm_tool_calls message) replies ->
    transcript (l ++ message :: replies).

Lemma tool_messages_reply tr calls : Forall2 replies_to calls (tool_messages tr calls).
Proof. unfold tool_messages. induction calls; constructor; [by split|done]. Qed.

(** ** Events *)

(** Neither a terminal nor the start of an iteration. *)
Definition progress (event : LoopEvent) : Prop :=
  is_terminal event = false /\ is_iteration_started event = false.
Definition started_index (event : LoopEvent) : option Z :=
  match event with IterationStarted index => Some index | _ => None end.
Definition started_indices (events : list LoopEvent) : list Z := omap started_index events.

Lemma started_indices_app a b : started_indices (a ++ b) = started_indices a ++ started_indices b.
Proof. unfold started_indices. apply omap_app. Qed.

Lemma completion_progress result : progress (completion result).
Proof. unfold completion. by destruct (tr_error result). Qed.
Lemma drain_progress tr : Forall progress (drain tr).1.
Proof. cbn. apply Forall_fmap, Forall_true. intros; apply completion_progress. Qed.

Lemma handle_stream_event_progress event tr st :
  Forall progress (handle_stream_event event tr st).1.1.
Proof.
  destruct event; cbn; repeat (constructor; [done|]);
    apply Forall_fmap, Forall_true; intros; apply completion_progress.
Qed.

Section Laws.
Context {S : Type} (append : list ChatMessage -> S -> S) (is_cancelled : S -> bool) (pause : S -> S).
Context (llm : S -> list Moment) (rounds : S -> list Round).
Context (registry : tools) (repr : pystr -> pystr) (seconds_text : pystr) (max_iterations : Z).
(** The run's own messages, at the end of its history: while the run is there
    ([ok]), appending appends to them, and nobody else touches them. *)
Context (ok : S -> Prop) (private : S -> list ChatMessage) (C : S -> S -> Prop).
Context (Happend : forall l s, ok s -> ok (append l s) /\ private (append l s) = private s ++ l).
Context (Hpause : forall s, ok s -> ok (pause s) /\ private (pause s) = private s).
Context (Hconsumer : forall s s', ok s -> C s s' -> ok s' /\ private s' = private s).

(** The exceptions that come out of a run are those of the model's stream. *)
Definition from_model (e : Exn) : Prop := exists s moment, moment ∈ llm s /\ mo_arrival moment = Broke e.

Definition good_end (done : list LoopEvent) (s : S) (r : option Exn) : Prop :=
  transcript (private s) /\
  (exists n, started_indices done = seqZ 0 n /\ (n <= Z.max 0 max_iterations)%Z) /\
  match r with
  | Some e => Forall (fun event => is_terminal event = false) done /\ from_model e
  | None => exists events terminal, done = events ++ [terminal] /\ is_terminal terminal = true /\
      Forall (fun event => is_terminal event = false) events /\
      match terminal with
      | Finished message _ _ => last (private s) = Some message /\ cm_tool_calls message = []
      | _ => True
      end
  end.

(** In iteration number [n - 1], the run's own messages being [l]. *)
Definition within (n : Z) (l : list ChatMessage) (done : list LoopEvent) (s : S) : Prop :=
  Forall (fun event => is_terminal event = false) done /\ started_indices done = seqZ 0 n /\
  (0 <= n <= Z.max 0 max_iterations)%Z /\ ok s /\ private s = l.

Ltac same_counts := (split; [done|split; [done|split; [done|]]]).
Lemma within_keep n l d s s' : within n l d s -> (ok s -> ok s' /\ private s' = private s) -> within n l d s'.
Proof. intros (?&?&?&Hok&<-) Hk. same_counts. by apply Hk. Qed.

Lemma within_progress n l event d s s2 :
  progress event -> within n l d s -> C s s2 -> within n l (d ++ [event]) s2.
Proof.
  intros [Ht Hi] (Hd & Hn & Hle & Hok & <-) Hc. split; [|split; [|split; [done|by apply Hconsumer]]].
  - apply Forall_app. split; [done|]. by constructor.
  - rewrite started_indices_app, Hn. destruct event; try done; cbn; by rewrite app_nil_r.
Qed.
Lemma within_pause n l d s : within n l d s -> within n l d (pause s).
Proof. intros Hs. by eapply within_keep, Hpause. Qed.
Lemma within_consumer n l d s s2 : within n l d s -> C s s2 -> within n l d s2.
Proof. intros Hs Hc. eapply within_keep; [done|]. intros Hok. by apply Hconsumer. Qed.
Lemma within_append n l m d s : within n l d s -> within n (l ++ m) d (append m s).
Proof. intros (?&?&?&Hok&<-). same_counts. by apply Happend. Qed.

Abbreviation wp := (gen_wp C good_end).

Lemma wp_progress n l events k done s :
  Forall progress events -> within n l done s -> (forall d s, within n l d s -> wp k d s) ->
  wp (gen_yields events k) done s.
Proof. apply wp_yields. intros. by eapply within_progress. Qed.

Lemma wp_pump n l moments tr st k done s :
  transcript l -> (forall moment e, moment ∈ moments -> mo_arrival moment = Broke e -> from_model e) ->
  within n l done s -> (forall tr st d s, within n l d s -> wp (k tr st) d s) ->
  wp (pump_stream is_cancelled pause registry repr seconds_text moments tr st k) done s.
Proof.
  intros Hl. revert tr st done s. induction moments as [|moment moments IH]; intros tr st done s Hb Hs Hk;
    cbn [pump_stream]; apply wp_do; [by apply Hk, within_pause|].
  apply wp_at. apply within_pause in Hs. destruct (mo_arrival moment) as [event| |e|noticed] eqn:Ha.
  - case_match; [by apply Hk|]. pose proof (handle_stream_event_progress event
      (foldl (land registry repr seconds_text) tr (mo_landed moment)) st) as Hp.
    destruct (handle_stream_event _ _ _) as [[events tr'] st']. eapply wp_progress; [done..|].
    intros d s' Hs'. apply IH; [|done..]. intros m e Hm. apply Hb. by right.
  - by apply Hk.
  - apply wp_do, wp_raise. apply within_pause in Hs. destruct Hs as (Hd & Hn & Hle & Hok & Hp). unfold good_end.
    rewrite Hp. split; [done|]. split; [exists n; split; [done|lia]|]. split; [done|]. apply (Hb moment e); [left|done].
  - by apply Hk.
Qed.

(** What an iteration hands on: a failure, told; a cut turn, with its
    replies; or the model's message, to be replied to. *)
Definition turn_over (n : Z) (l : list ChatMessage) (outcome : IterationOutcome) (d : list LoopEvent) (s : S) : Prop :=
  (io_failed outcome = true /\ exists events error, d = events ++ [Failed error] /\ within n l events s) \/
  (io_failed outcome = false /\ io_interrupted outcome = true /\
     exists m replies, Forall2 replies_to (cm_tool_calls m) replies /\ within n (l ++ m :: replies) d s) \/
  (io_failed outcome = false /\ io_interrupted outcome = false /\
     exists m, io_message outcome = Some m /\ within n (l ++ [m]) d s).

Lemma wp_finalize n l tr st k done s :
  within n l done s -> (forall tr outcome d s, turn_over n l outcome d s -> wp (k tr outcome) d s) ->
  wp (finalize_assistant append pause tr st k) done s.
Proof.
  intros Hs Hk. unfold finalize_assistant, interrupt_iteration, emit_observed. repeat case_match.
  - apply wp_do, wp_yield. intros s2 Hc. apply Hk. left. split; [done|]. eexists _, _. split; [done|].
    eapply within_consumer; [|exact Hc]. by apply within_pause.
  - apply wp_do, wp_do, wp_yield. intros s2 Hc. apply Hk. right; left. split; [done|]. split; [done|].
    eexists _, _. split; [apply tool_messages_reply|]. eapply within_progress; [done| |exact Hc].
    apply within_append. by apply within_pause.
  - apply wp_do, wp_yield. intros s2 Hc. apply Hk. right; right. split; [done|]. split; [done|]. eexists.
    split; [done|]. eapply within_progress; [done| |exact Hc]. by apply within_append.
  - apply wp_yield. intros s2 Hc. apply Hk. left. split; [done|]. eexists _, _. split; [done|].
    by eapply within_consumer.
Qed.

Lemma wp_wait n l script tr k done s :
  within n l done s -> (forall tr d s, within n l d s -> wp (k tr) d s) ->
  wp (wait is_cancelled pause registry repr seconds_text script tr k) done s.
Proof.
  revert tr done s. induction script as [|round script IH]; intros tr d s Hs Hk; cbn [wait];
    (destruct (pending_runs tr); [cbn; eapply wp_progress; [apply drain_progress|done|by intros; apply Hk]|]);
    apply wp_do, wp_at; apply within_pause in Hs.
  - case_match; [by apply Hk|]. cbn. eapply wp_progress; [apply drain_progress|done|by intros; apply Hk].
  - case_match; [by apply Hk|]. cbn. eapply wp_progress; [apply drain_progress|done|by intros; apply IH].
Qed.

Lemma wp_tool_calls n l message tr k done s :
  within n (l ++ [message]) done s ->
  (forall replies d s, Forall2 replies_to (cm_tool_calls message) replies ->
     within n (l ++ message :: replies) d s -> wp k d s) ->
  wp (stream_tool_calls append is_cancelled pause rounds registry repr seconds_text message tr k) done s.
Proof.
  intros Hs Hk. unfold stream_tool_calls.
  assert (forall calls tr done s (k' : Tracker -> Stream S), within n (l ++ [message]) done s ->
    (forall tr d s, within n (l ++ [message]) d s -> wp (k' tr) d s) -> wp (spawn_calls calls tr k') done s) as Hspawn.
  { induction calls as [|call calls IH]; intros tr' done' s' k' Hs' Hk'; cbn; [by apply Hk'|].
    apply wp_yield. intros s2 Hc. apply IH; [|done]. by eapply within_progress. }
  assert (forall tr d s, within n (l ++ [message]) d s ->
    within n (l ++ message :: tool_messages tr (cm_tool_calls message)) d
      (append (tool_messages tr (cm_tool_calls message)) s)) as Happ.
  { intros tr' d s' Hs'. change (message :: tool_messages tr' (cm_tool_calls message))
      with ([message] ++ tool_messages tr' (cm_tool_calls message)). rewrite app_assoc. by apply within_append. }
  apply Hspawn; [done|]. intros tr' d s' Hs'. apply wp_at. eapply wp_wait; [done|].
  intros tr2 d2 s2 Hs2. apply wp_at. case_match; repeat apply wp_do;
    (eapply Hk; [apply tool_messages_reply|]); apply Happ; [by apply within_pause|done].
Qed.

Lemma good_terminal n l terminal done s s2 :
  transcript l -> within n l done s -> C s s2 -> is_terminal terminal = true ->
  match terminal with
  | Finished message _ _ => last l = Some message /\ cm_tool_calls message = []
  | _ => True
  end -> good_end (done ++ [terminal]) s2 None.
Proof.
  intros Hl (Hd & Hn & Hle & Hok & Hp) Hc Ht Hf. unfold good_end. destruct (Hconsumer _ _ Hok Hc) as [_ ->]. rewrite Hp.
  split; [done|]. split.
  - exists n. split; [|lia]. rewrite started_indices_app, Hn. destruct terminal; try done; cbn; by rewrite app_nil_r.
  - by exists done, terminal.
Qed.

Lemma wp_run_from turns l n done s :
  transcript l -> within n l done s -> (n + Z.of_nat turns = Z.max 0 max_iterations)%Z ->
  wp (run_from append is_cancelled pause llm rounds registry repr seconds_text turns n) done s.
Proof.
  revert l n done s. induction turns as [|turns IH]; intros l n done s Hl Hs Hn; cbn [run_from].
  { apply wp_yield. intros s2 Hc. apply wp_stop. by eapply good_terminal. }
  apply wp_yield. intros s2 Hc.
  assert (within (n + 1) l (done ++ [IterationStarted n]) s2) as Hs2.
  { destruct Hs as (Hd & Hi & Hle & Hok & <-). split; [|split; [|split; [lia|by apply Hconsumer]]].
    - apply Forall_app. by repeat constructor.
    - rewrite started_indices_app, Hi. rewrite seqZ_app by lia. done. }
  apply wp_at. case_match.
  { apply wp_yield. intros s3 Hc3. apply wp_stop. by eapply good_terminal. }
  unfold stream_assistant. apply wp_at. eapply wp_pump; [done| |exact Hs2|].
  { intros moment e Hin Ha. by exists s2, moment. }
  intros tr st d s3 Hs3. eapply wp_finalize; [done|]. clear tr st d s3 Hs3.
  intros tr outcome d s3 [(-> & events & error & -> & Hw)|[(-> & -> & m & replies & Hr & Hw)|(-> & -> & m & -> & Hw)]].
  - apply wp_stop. destruct Hw as (Hd & Hi & Hle & Hok & Hp). unfold good_end. rewrite Hp. split; [done|]. split.
    + exists (n + 1)%Z. split; [|lia]. by rewrite started_indices_app, Hi, app_nil_r.
    + by exists events, (Failed error).
  - apply wp_yield. intros s4 Hc4. apply wp_stop. eapply good_terminal; [|done..]. by constructor.
  - destruct (cm_tool_calls m) as [|call calls] eqn:Hcalls.
    + apply wp_yield. intros s4 Hc4. apply wp_stop. eapply good_terminal; [|done..|].
      * apply (transcript_turn l m []); [done|]. rewrite Hcalls. constructor.
      * split; [apply last_snoc|done].
    + eapply wp_tool_calls; [exact Hw|]. intros replies d4 s4 Hr Hw4. eapply IH; [|exact Hw4|lia].
      by constructor.
Qed.

Lemma run_ends_well' s :
  ok s -> transcript (private s) ->
  gen_wp C good_end
    (run append is_cancelled pause llm rounds registry repr seconds_text max_iterations) [] s.
Proof.
  intros Hok Hs. unfold run. eapply wp_run_from; [exact Hs| |lia].
  split; [constructor|]. split; [done|]. split; [lia|by split].
Qed.

(** C5: Whatever the model streams, however the tools end, whenever the run is
    cancelled and whatever the consumer does with the events: a run ends; its
    last event is its only terminal, or the model's stream raised and there is
    none; it makes at most [max_iterations] model calls, numbered from 0; the
    messages it leaves are whole iterations, every tool call with its reply;
    and what it finishes with is the last of them. *)
Theorem run_ends_well s :
  ok s -> transcript (private s) ->
  gen_wp C good_end
    (run append is_cancelled pause llm rounds registry repr seconds_text max_iterations) [] s.
Proof. apply run_ends_well'. Qed.
End Laws.

(** ** Tool replies *)

Section Replies.
Context (registry : tools) (repr : pystr -> pystr) (seconds_text : pystr).

(** What may happen to a tracker while the calls run: the n-th ends, with the
    outcome [f n], or the results are drained. *)
Inductive happening := Lands (n : nat) | Drains.
Context (f : nat -> ToolOutcome) (calls : list ToolCall).
Definition happen (tr : Tracker) (h : happening) : Tracker :=
  match h with
  | Lands n => land registry repr seconds_text tr (n, f n)
  | Drains => (drain tr).2
  end.
Definition started : Tracker := foldl (fun tr call => spawn call tr) new_tracker calls.

Definition content_of (n : nat) (call : ToolCall) : pystr := (execute_one registry repr seconds_text call (f n)).1.

(** The results, landed or drained, are the right ones, and every run that
    ended has one. *)
Record tracked (tr : Tracker) : Prop := {
  tk_calls : fst <$> tt_runs tr = calls;
  tk_queued : Forall (fun r => exists n call, calls !! n = Some call /\ tr_call r = call /\
                        tr_content r = content_of n call) (tt_queue tr);
  tk_drained : forall i r, dict_get i (tt_results tr) = Some r ->
    exists n call, calls !! n = Some call /\ tc_id call = i /\ tr_content r = content_of n call;
  tk_ended : forall n call, tt_runs tr !! n = Some (call, false) ->
    is_Some (dict_get (tc_id call) (tt_results tr)) \/
    tc_id call ∈ ((fun r => tc_id (tr_call r)) <$> tt_queue tr) }.

Lemma started_tracked : tracked started /\ forall n call, calls !! n = Some call -> tt_runs started !! n = Some (call, true).
Proof.
  assert (forall l tr, tt_queue tr = [] -> tt_results tr = [] ->
    let tr' := foldl (fun tr call => spawn call tr) tr l in
    tt_queue tr' = [] /\ tt_results tr' = [] /\ tt_runs tr' = tt_runs tr ++ ((fun c => (c, true)) <$> l)) as H.
  { induction l as [|c l IH]; intros tr Hq Hr; cbn; [by rewrite app_nil_r|].
    destruct (IH (spawn c tr) Hq Hr) as (-> & -> & ->). split_and!; [done|done|]. cbn. by rewrite <-app_assoc. }
  destruct (H calls new_tracker eq_refl eq_refl) as (Hq & Hr & Hruns). fold started in Hq, Hr, Hruns.
  assert (forall n call b, tt_runs started !! n = Some (call, b) -> b = true) as Hall.
  { intros n call b. rewrite Hruns. cbn. rewrite list_lookup_fmap. by intros (c & _ & [= -> ->])%fmap_Some. }
  split; [split|].
  - rewrite Hruns. cbn. rewrite <-list_fmap_compose. apply list_fmap_id.
  - by rewrite Hq.
  - rewrite Hr. done.
  - intros n call Hn. by apply Hall in Hn.
  - intros n call Hn. rewrite Hruns. cbn. by rewrite list_lookup_fmap, Hn.
Qed.

Lemma drained_get (q : list ToolRunResult) d i r :
  dict_get i (foldl (fun d r => dict_set (tc_id (tr_call r)) r d) d q) = Some r ->
  dict_get i d = Some r \/ (r ∈ q /\ tc_id (tr_call r) = i).
Proof.
  revert d. induction q as [|x q IH]; intros d; [by left|]. cbn. intros [Hg|[Hin <-]]%IH.
  - rewrite dict_get_set in Hg. case_decide; [|by left]. simplify_eq. right. split; [left|done].
  - right. split; [by right|done].
Qed.
Lemma drained_some (q : list ToolRunResult) d i :
  is_Some (dict_get i d) \/ i ∈ ((fun r => tc_id (tr_call r)) <$> q) ->
  is_Some (dict_get i (foldl (fun d r => dict_set (tc_id (tr_call r)) r d) d q)).
Proof.
  revert d. induction q as [|x q IH]; intros d; cbn; [by intros [?|?%not_elem_of_nil]|].
  intros H. apply IH. rewrite dict_get_set. case_decide as Hi; [left; by eexists|].
  destruct H as [H|[H|H]%elem_of_cons]; [by left|by subst|by right].
Qed.

Lemma drain_tracked tr : tracked tr -> tracked (drain tr).2.
Proof.
  intros [Hc Hq Hd He]. split; cbn.
  - done.
  - constructor.
  - intros i r [Hg|[Hin Hi]]%drained_get; [by apply Hd|]. rewrite Forall_forall in Hq.
    destruct (Hq r Hin) as (n & call & Hn & Hcall & Hcont). exists n, call. by subst.
  - intros n call Hn. left. apply drained_some. by eapply He.
Qed.

Lemma land_tracked tr n : tracked tr -> tracked (land registry repr seconds_text tr (n, f n)).
Proof.
  intros [Hc Hq Hd He]. unfold land. destruct (tt_runs tr !! n) as [[call [|]]|] eqn:Hn; [|done..].
  destruct (execute_one registry repr seconds_text call (f n)) as [content error] eqn:Hx.
  assert (calls !! n = Some call) as Hcall by (by rewrite <-Hc, list_lookup_fmap, Hn).
  split; cbn.
  - rewrite <-Hc. unfold end_run. apply list_eq. intros i. rewrite !list_lookup_fmap.
    destruct (decide (i = n)) as [->|Hne]; [rewrite list_lookup_alter_eq, Hn|rewrite list_lookup_alter_ne by done]; done.
  - apply Forall_app. split; [done|]. constructor; [|done]. exists n, call. split_and!; [done|done|].
    unfold content_of. by rewrite Hx.
  - done.
  - intros m c Hm. rewrite fmap_app, elem_of_app. destruct (decide (m = n)) as [->|Hne].
    + unfold end_run in Hm. rewrite list_lookup_alter_eq, Hn in Hm. simplify_eq/=. right; right. by left.
    + unfold end_run in Hm. rewrite list_lookup_alter_ne in Hm by done. destruct (He m c Hm); [by left|right; by left].
Qed.

Lemma happen_tracked hs tr : tracked tr -> tracked (foldl happen tr hs).
Proof.
  revert tr. induction hs as [|h hs IH]; intros tr Htr; [done|]. cbn. apply IH.
  destruct h; [by apply land_tracked|by apply drain_tracked].
Qed.

Lemma happen_ended hs n tr :
  tracked tr -> n < length calls ->
  (Lands n ∈ hs \/ exists call, tt_runs tr !! n = Some (call, false)) ->
  exists call, tt_runs (foldl happen tr hs) !! n = Some (call, false).
Proof.
  revert tr. induction hs as [|h hs IH]; intros tr Htr Hlt H; cbn.
  { destruct H as [?%not_elem_of_nil|?]; done. }
  apply IH; [destruct h; [by apply land_tracked|by apply drain_tracked]|done|].
  assert (is_Some (tt_runs tr !! n)) as [[c b] Hn].
  { apply lookup_lt_is_Some. by rewrite <-(length_fmap fst), (tk_calls _ Htr). }
  destruct H as [[<-|Hin]%elem_of_cons|[call Hc]]; [right|by left|right].
  - cbn. rewrite Hn. destruct b; [|by exists c]. destruct (execute_one _ _ _ _ _). cbn.
    unfold end_run. rewrite list_lookup_alter_eq, Hn. by eexists.
  - destruct h as [m|]; [|by exists call]. cbn. destruct (tt_runs tr !! m) as [[c' [|]]|] eqn:Hm; [|by exists call..].
    destruct (execute_one _ _ _ _ _). cbn. unfold end_run. destruct (decide (m = n)) as [->|Hne].
    + congruence.
    + rewrite list_lookup_alter_ne by done. by exists call.
Qed.

(** The calls of a turn run concurrently; the replies the model reads do not
    depend on it: in whatever order the calls end and whenever results are
    collected in between, the replies are those of running the calls one after
    the other, in call order. *)
Theorem replies_in_call_order hs :
  NoDup (tc_id <$> calls) -> (forall n, n < length calls -> Lands n ∈ hs) ->
  cm_content <$> tool_messages (drain (foldl happen started hs)).2 calls = imap content_of calls.
Proof.
  intros Hnd Hall. destruct started_tracked as [Hst _].
  pose proof (happen_tracked hs _ Hst) as Htr. pose proof (drain_tracked _ Htr) as Hdr.
  unfold tool_messages. rewrite <-list_fmap_compose. apply list_eq. intros n.
  rewrite list_lookup_fmap, list_lookup_imap. destruct (calls !! n) as [call|] eqn:Hn; [|done]. cbn. f_equal.
  destruct (happen_ended hs n started Hst ltac:(by eapply lookup_lt_Some) ltac:(left; apply Hall; by eapply lookup_lt_Some)) as [c Hc].
  assert (c = call) as ->.
  { assert (calls !! n = Some c) as Hx; [|congruence]. by rewrite <-(tk_calls _ Htr), list_lookup_fmap, Hc. }
  assert (is_Some (dict_get (tc_id call) (tt_results (drain (foldl happen started hs)).2))) as [r Hr].
  { cbn. apply drained_some. by eapply (tk_ended _ Htr). }
  set (tr := (drain (foldl happen started hs)).2) in *.
  change (result_content tr call = content_of n call). unfold result_content. rewrite Hr.
  destruct (tk_drained _ Hdr _ _ Hr) as (m & c & Hm & Hid & ->).
  assert (m = n) as ->; [|congruence].
  apply (NoDup_lookup _ _ _ (tc_id call) Hnd); rewrite list_lookup_fmap, ?Hm, ?Hn; cbn; congruence.
Qed.
End Replies.

(** ** The agent loop under the runner ([agent/loop.py], [agent/runner.py] *)

(** [AgentLoop.stream] over the branch and the control of a process, consumed
    by [_stream_once]: what the loop promises reaches the end of the run. *)
Section AgentRun.
Context (config : RunnerConfig) (others : nat -> World -> World).

Definition branch_append (pid : pystr) (messages : list ChatMessage) (s : World) : World :=
  (modify_process pid (fun p => set_p_branch (p_branch p ++ messages) p) s).2.
Definition run_cancelled (pid : pystr) (s : World) : bool :=
  match dict_get pid (r_processes (w_run s)) with Some p => p_cancelled p | None => false end.

(** [self._loop.stream(process.branch, process.control, context)] *)
Definition agent_loop (llm : list ToolSpec -> World -> list Moment) (rounds : World -> list Round)
    (registry : tools) (repr : pystr -> pystr) (seconds_text : pystr) (max_iterations : Z)
    : AgentLoop World := fun pid context =>
  run (branch_append pid) (run_cancelled pid) (fun s => (yield others s).2)
    (llm (ToolRegistry.specs (Some context) registry)) rounds registry repr seconds_text max_iterations.

Context (pid : pystr) (Henv : env_allows others (leaves_run pid)).
Context `{Hlaws : !CompactorLaws (cfg_compactor config) (leaves_run pid)}.

(** The run's own messages, after the part of its branch the syncs rewrite. *)
Definition own_part (s : World) : list ChatMessage :=
  match dict_get pid (r_processes (w_run s)) with
  | Some p => drop (p_synced_len p) (p_branch p)
  | None => []
  end.
Definition present (s : World) : Prop :=
  exists p, dict_get pid (r_processes (w_run s)) = Some p /\ p_synced_len p <= length (p_branch p).
Definition keeps_own (s s' : World) : Prop := present s -> present s' /\ own_part s' = own_part s.

Lemma keeps_own_trans a b c : keeps_own a b -> keeps_own b c -> keeps_own a c.
Proof. intros Hab Hbc Ha. destruct (Hab Ha) as [Hb <-]. by apply Hbc. Qed.
Lemma keeps_own_refl s : keeps_own s s.
Proof. done. Qed.

Lemma leaves_run_keeps s s' : leaves_run pid s s' -> keeps_own s s'.
Proof.
  intros [_ Hl] (p & Hp & Hle). destruct (Hl p Hp) as (p' & Hp' & [= Hb Hs _ _]).
  unfold present, own_part. rewrite Hp, Hp', Hb, Hs. split; [|done]. exists p'. by rewrite Hb, Hs.
Qed.

Lemma modify_keeps f s :
  (forall p, p_branch (f p) = p_branch p /\ p_synced_len (f p) = p_synced_len p) ->
  keeps_own s (modify_process pid f s).2.
Proof.
  intros Hf (p & Hp & Hle). unfold modify_process, update, modify, own_part, present. cbn. rewrite Hp. cbn.
  rewrite !dict_get_set, decide_True by done. destruct (Hf p) as [-> ->]. split; [|done].
  eexists. split; [done|]. by destruct (Hf p) as [-> ->].
Qed.

Lemma branch_append_own l s :
  present s -> present (branch_append pid l s) /\ own_part (branch_append pid l s) = own_part s ++ l.
Proof.
  intros (p & Hp & Hle). unfold branch_append, modify_process, update, modify, own_part, present. cbn.
  rewrite Hp. cbn. rewrite !dict_get_set, decide_True by done. cbn. split.
  - eexists. split; [done|]. cbn. rewrite length_app. lia.
  - by rewrite drop_app_le.
Qed.

Lemma pause_keeps s : keeps_own s (yield others s).2.
Proof. apply leaves_run_keeps. apply evolves_yield; [exact _|done]. Qed.

Lemma broadcast_event_keeps event x s : keeps_own s (broadcast_event event x s).2.
Proof.
  unfold broadcast_event.
  match goal with |- context [broadcast ?a ?b ?c ?d] => by destruct (broadcast a b c d) end.
Qed.

Lemma sync_keeps force s s' : sync_branch config others pid force s = (Ok tt, s') -> keeps_own s s'.
Proof.
  intros Hrun (p & Hp & Hle). destruct (sync_branch_cases config others pid Henv force s s' p Hp Hrun)
    as [[_ ->]|(_ & p' & Hp' & block & tail & new & live & now & _ & _ & _ & Hb & Hsl)]; [by split; [exists p|]|].
  unfold present, own_part. rewrite Hp, Hp', Hb, Hsl. split.
  - exists p'. split; [done|]. rewrite Hb, Hsl. cbn. rewrite length_app. lia.
  - cbn [Nat.add drop]. by rewrite drop_app_length.
Qed.

(** What the runner makes of a terminal of the loop is one: the client's id
    is put in, and a run that has asked is muted. *)
Lemma outgoing_terminal p event :
  is_terminal event = true -> exists out, outgoing p event = Some out /\ is_terminal out = true.
Proof.
  intros Ht. unfold outgoing. destruct (p_asked p), event; try done; cbn; by eexists.
Qed.

(** One turn of the [async for] of [_stream_once]. *)
Lemma handle_event_keeps terminal event s t s' :
  handle_event config others pid terminal event s = (Ok t, s') ->
  keeps_own s s' /\
  (is_terminal event = true ->
   exists p, dict_get pid (r_processes (w_run s)) = Some p /\ outgoing p event = Some t /\ is_terminal t = true).
Proof.
  unfold handle_event. unfold bind at 1.
  destruct (when _ (sync_branch config others pid false) s) as [[[]|e] s1] eqn:Hsync; [|done].
  assert (keeps_own s s1) as H1.
  { destruct (is_iteration_started event); cbn in Hsync; [by eapply sync_keeps|]. by injection Hsync as <-. }
  unfold bind at 1. set (m := modify_process pid (observe_spend event)).
  assert (keeps_own s1 (m s1).2) as H2.
  { apply modify_keeps. intros p. unfold observe_spend. by repeat case_match. }
  destruct (m s1) as [[[]|e] s2] eqn:Hm; [|done]. unfold bind at 1.
  unfold the_process, get_process, runner, gets, bind.
  destruct (dict_get pid (r_processes (w_run s2))) as [p|] eqn:Hp; [|done]. unfold ret.
  destruct (outgoing p event) as [out|] eqn:Ho.
  2: { intros [= <- <-]. split; [by eapply keeps_own_trans|]. intros Ht.
       destruct (outgoing_terminal p event Ht) as (out & ? & _). congruence. }
  set (send := if is_outcome out then _ else _).
  assert (keeps_own s2 (send s2).2) as H3.
  { unfold send. destruct (is_outcome out).
    - unfold broadcast_terminal, the_process, get_process, runner, gets, bind. rewrite Hp. unfold ret.
      destruct (p_exchange_id p) as [x|]; [|done].
      pose proof (broadcast_event_keeps out (Some x) s2) as Hb.
      destruct (broadcast_event out (Some x) s2) as [[n|e] s3]; [|done].
      eapply keeps_own_trans; [exact Hb|]. by apply modify_keeps.
    - destruct (p_exchange_id p) as [x|]; [|done]. unfold bind.
      pose proof (broadcast_event_keeps out (Some x) s2) as Hb. unfold broadcast_event in *.
      match goal with |- context [broadcast ?a ?b ?c ?d] => by destruct (broadcast a b c d) end. }
  destruct (send s2) as [[[]|e] s3]; [|done]. intros [= <- <-]. split.
  - by do 2 (eapply keeps_own_trans; [eassumption|]).
  - intros Ht. destruct (outgoing_terminal p event Ht) as (out' & Ho' & Hterm).
    rewrite Ho in Ho'. injection Ho' as <-. rewrite Hterm. exists p. split_and!; [|exact Ho|done].
    assert (is_iteration_started event = false) as Hi by (by destruct event). rewrite Hi in Hsync. injection Hsync as <-.
    subst m. unfold observe_spend in Hm. unfold modify_process, update, modify in Hm. injection Hm as <-.
    cbn in Hp. destruct (dict_get pid (r_processes (w_run s))) as [q|] eqn:Hq; cbn in Hp; [|congruence].
    rewrite dict_get_set, decide_True in Hp by done. destruct event; try done; congruence.
Qed.

Definition consumer (s s' : World) : Prop :=
  exists terminal event t, handle_event config others pid terminal event s = (Ok t, s').

Lemma consumer_keeps s s' : present s -> consumer s s' -> present s' /\ own_part s' = own_part s.
Proof. intros Hp (terminal & event & t & Hh). by apply handle_event_keeps in Hh as [Hk _]; apply Hk. Qed.

(** What the generator yields to the runner's [async for], in order, and the
    process as each event finds it. *)
Fixpoint pulled (stream : Stream World) (terminal : LoopEvent) (s : World) : list (LoopEvent * option Process) :=
  match stream with
  | Next run signal =>
      match signal s with
      | Yield event rest =>
          (event, dict_get pid (r_processes (w_run (run s)))) ::
          match handle_event config others pid terminal event (run s) with
          | (Ok terminal, s) => pulled rest terminal s
          | (Err _, _) => []
          end
      | _ => []
      end
  end.

(** The [async for] ends where the generator does; the local [terminal] is
    what the last event left in it. *)
Lemma consume_wp Q stream done terminal s t s' :
  gen_wp consumer Q stream done s -> consume config others pid stream terminal s = (Ok t, s') ->
  let events := pulled stream terminal s in
  Q (done ++ (fst <$> events)) s' None /\
    match last events with
    | Some (event, p) => is_terminal event = true -> exists q, p = Some q /\ outgoing q event = Some t /\ is_terminal t = true
    | None => t = terminal
    end.
Proof.
  revert stream done terminal s. fix IH 1. intros [run signal] d terminal s Hwp Hrun.
  cbn [gen_wp] in Hwp. cbn [consume] in Hrun. cbn [pulled]. destruct (signal s) as [|e|event rest].
  - clear IH. injection Hrun as <- <-. by rewrite app_nil_r.
  - clear IH. done.
  - unfold bind in Hrun. destruct (handle_event config others pid terminal event (run s)) as [[t1|e] s1] eqn:Hh; [|done].
    destruct (IH rest (d ++ [event]) t1 s1 (Hwp s1 ltac:(by eexists _, _, _)) Hrun) as (HQ & Hl).
    rewrite <-app_assoc in HQ. split; [exact HQ|].
    destruct (pulled rest t1 s1) as [|e2 events]; [cbn in Hl |- *; subst t1|].
    + intros Ht. destruct (handle_event_keeps terminal event _ _ _ Hh) as [_ Hk]. destruct (Hk Ht) as (q & -> & Hq). by exists q.
    + rewrite last_cons_cons. destruct (last (e2 :: events)) eqn:Hlast; [exact Hl|by apply last_None in Hlast].
Qed.

Context (llm : list ToolSpec -> World -> list Moment) (rounds : World -> list Round).
Context (registry : tools) (repr : pystr -> pystr) (seconds_text : pystr) (max_iterations : Z).

(** C6: The real loop under the runner, with other runs and the compactor at
    work: when the loop runs out, the last event it yielded is its one
    terminal, and the run reports that event as the runner sends it out (with
    the client's id, the answer muted when the run had asked the user), never
    the fallback "loop ended without a terminal event"; and the branch ends
    with whole iterations only, the answer as the last message. *)
Theorem agent_run_reports_end context s t s' :
  let loop := agent_loop llm rounds registry repr seconds_text max_iterations pid context in
  present s -> transcript (own_part s) ->
  consume config others pid loop NO_TERMINAL s = (Ok t, s') ->
  transcript (own_part s') /\
  exists before event p, pulled loop NO_TERMINAL s = before ++ [(event, Some p)] /\
    Forall (fun e => is_terminal e.1 = false) before /\
    is_terminal event = true /\ outgoing p event = Some t /\ is_terminal t = true /\
    match event with
    | Finished message _ _ => last (own_part s') = Some message /\ cm_tool_calls message = []
    | _ => True
    end.
Proof.
  intros loop Hs Ht Hrun.
  pose proof (run_ends_well' (branch_append pid) (run_cancelled pid) (fun s => (yield others s).2)
    (llm (ToolRegistry.specs (Some context) registry)) rounds registry repr seconds_text max_iterations
    present own_part consumer branch_append_own (fun s => pause_keeps s)) as Hwp.
  specialize (Hwp consumer_keeps s Hs Ht).
  destruct (consume_wp _ _ _ _ _ _ _ Hwp Hrun) as ((Htr & _ & Hend) & Hl).
  split; [done|]. destruct Hend as (evs & ev & Heq & Hterm & Hbefore & Hfin). cbn [app] in Heq.
  fold loop in Heq, Hl. change (run _ _ _ _ _ _ _ _ _) with loop in Heq, Hl.
  destruct (pulled loop NO_TERMINAL s) as [|x l _] using rev_ind; [by destruct evs|].
  rewrite fmap_app in Heq. apply app_inj_tail in Heq as [<- <-]. rewrite last_snoc in Hl. destruct x as [e p]. cbn [fst] in *.
  destruct (Hl Hterm) as (q & -> & Hq & Htt). exists l, e, q. split_and!; try done. by apply Forall_fmap in Hbefore.
Qed.
End AgentRun.
