(* ===== verification/Cron.v ===== *)
(** * Scheduled jobs ([cron/api.py], [cron/store.py], [cron/reporter.py], [cron/tools.py])

    Jobs with a cadence, their table with the lease the scheduler fires under,
    and what the end of a fired run does to them.  The cron library and the
    timezone database are parameters: which expressions and zones exist, the
    next slot after an instant, the wall clock of a zone. *)
From S2P Require Import Prelude PyStr Clock Sql Dict Domain UnitOfWork.

(** ** Data *)

Record CronJob := {
  cj_id : pystr;
  cj_user_id : pystr;
  cj_channel : pystr;
  cj_title : pystr;
  cj_schedule : pystr;
  cj_timezone : pystr;
  cj_prompt : pystr;
  cj_enabled : bool;
  cj_next_fire_at : time;
  cj_last_fire_at : option time;
  cj_claimed_by : option pystr;
  cj_claimed_at : option time;
  cj_created_at : time;
  cj_one_shot : bool;
  cj_last_status : option TaskStatus.t;
  cj_last_error : option pystr;
  cj_retry_count : Z }.

Module WakeOutcome.
Inductive t : Set := DELIVERED | LIMITED | NOT_OURS.
#[export] Instance t_eq_dec : EqDecision t.
Proof. solve_decision. Defined.
End WakeOutcome.

(** ** The store *)

(** [CronStore], the port of the scheduler, the reporter and the tools. *)
Record CronStore (S : Type) := {
  cs_create : CronJob -> M S Exn CronJob;
  cs_get : pystr -> M S Exn CronJob;
  cs_list_for_user : pystr -> M S Exn (list CronJob);
  cs_delete_for_user : pystr -> pystr -> M S Exn unit;
  cs_set_enabled : pystr -> pystr -> bool -> option time -> M S Exn CronJob;
  cs_list_due : time -> time -> Z -> M S Exn (list CronJob);
  cs_claim : pystr -> time -> pystr -> time -> time -> M S Exn bool;
  cs_release_claim : pystr -> M S Exn unit;
  cs_complete_fire : pystr -> time -> time -> M S Exn unit;
  cs_record_fire_result : pystr -> TaskStatus.t -> option pystr -> option time -> M S Exn unit }.
Arguments cs_create {S}. Arguments cs_get {S}. Arguments cs_list_for_user {S}.
Arguments cs_delete_for_user {S}. Arguments cs_set_enabled {S}. Arguments cs_list_due {S}.
Arguments cs_claim {S}. Arguments cs_release_claim {S}. Arguments cs_complete_fire {S}.
Arguments cs_record_fire_result {S}.

(** The columns each [UPDATE] assigns. *)
Definition assign_enabled (enabled : bool) (next_fire_at : option time) (r : CronJob) : CronJob :=
  {| cj_id := cj_id r; cj_user_id := cj_user_id r; cj_channel := cj_channel r; cj_title := cj_title r;
     cj_schedule := cj_schedule r; cj_timezone := cj_timezone r; cj_prompt := cj_prompt r;
     cj_enabled := enabled; cj_next_fire_at := default (cj_next_fire_at r) next_fire_at;
     cj_last_fire_at := cj_last_fire_at r; cj_claimed_by := cj_claimed_by r;
     cj_claimed_at := cj_claimed_at r; cj_created_at := cj_created_at r; cj_one_shot := cj_one_shot r;
     cj_last_status := cj_last_status r; cj_last_error := cj_last_error r; cj_retry_count := cj_retry_count r |}.
Definition assign_lease (by_ : option pystr) (at_ : option time) (r : CronJob) : CronJob :=
  {| cj_id := cj_id r; cj_user_id := cj_user_id r; cj_channel := cj_channel r; cj_title := cj_title r;
     cj_schedule := cj_schedule r; cj_timezone := cj_timezone r; cj_prompt := cj_prompt r;
     cj_enabled := cj_enabled r; cj_next_fire_at := cj_next_fire_at r;
     cj_last_fire_at := cj_last_fire_at r; cj_claimed_by := by_; cj_claimed_at := at_;
     cj_created_at := cj_created_at r; cj_one_shot := cj_one_shot r;
     cj_last_status := cj_last_status r; cj_last_error := cj_last_error r; cj_retry_count := cj_retry_count r |}.
Definition assign_fire (fired_at next_fire_at : time) (r : CronJob) : CronJob :=
  {| cj_id := cj_id r; cj_user_id := cj_user_id r; cj_channel := cj_channel r; cj_title := cj_title r;
     cj_schedule := cj_schedule r; cj_timezone := cj_timezone r; cj_prompt := cj_prompt r;
     cj_enabled := cj_enabled r; cj_next_fire_at := next_fire_at;
     cj_last_fire_at := Some fired_at; cj_claimed_by := None; cj_claimed_at := None;
     cj_created_at := cj_created_at r; cj_one_shot := cj_one_shot r;
     cj_last_status := cj_last_status r; cj_last_error := cj_last_error r; cj_retry_count := cj_retry_count r |}.
Definition assign_result (status : TaskStatus.t) (error : option pystr) (retry_at : option time)
    (r : CronJob) : CronJob :=
  {| cj_id := cj_id r; cj_user_id := cj_user_id r; cj_channel := cj_channel r; cj_title := cj_title r;
     cj_schedule := cj_schedule r; cj_timezone := cj_timezone r; cj_prompt := cj_prompt r;
     cj_enabled := cj_enabled r; cj_next_fire_at := default (cj_next_fire_at r) retry_at;
     cj_last_fire_at := cj_last_fire_at r; cj_claimed_by := cj_claimed_by r;
     cj_claimed_at := cj_claimed_at r; cj_created_at := cj_created_at r; cj_one_shot := cj_one_shot r;
     cj_last_status := Some status; cj_last_error := error;
     cj_retry_count := match retry_at with Some _ => cj_retry_count r + 1 | None => 0 end |}.

(** [_claimable_clause]; a comparison with a missing time is not true. *)
Definition claimable (stale_before : time) (r : CronJob) : Prop :=
  cj_claimed_by r = None \/ (exists at_, cj_claimed_at r = Some at_ /\ (at_ < stale_before)%Z).
#[export] Instance claimable_dec s r : Decision (claimable s r).
Proof.
  unfold claimable. destruct (cj_claimed_at r) as [a|].
  - destruct (decide (cj_claimed_by r = None)); [left; by left|].
    destruct (decide (a < s)%Z); [left; right; by exists a|].
    right. intros [?|(b & [= <-] & ?)]; done.
  - destruct (decide (cj_claimed_by r = None)); [left; by left|].
    right. intros [?|(b & ? & ?)]; done.
Defined.

Definition due (now stale_before : time) (r : CronJob) : Prop :=
  cj_enabled r = true /\ (cj_next_fire_at r <= now)%Z /\ claimable stale_before r.
Definition wins (job_id : pystr) (expected : time) (stale_before : time) (r : CronJob) : Prop :=
  cj_id r = job_id /\ cj_enabled r = true /\ cj_next_fire_at r = expected /\ claimable stale_before r.

Definition owned (user_id job_id : pystr) (r : CronJob) : Prop := cj_id r = job_id /\ cj_user_id r = user_id.
#[export] Instance due_dec n s r : Decision (due n s r).
Proof. unfold due. apply _. Defined.
#[export] Instance wins_dec j e s r : Decision (wins j e s r).
Proof. unfold wins. apply _. Defined.
#[export] Instance owned_dec u j r : Decision (owned u j r).
Proof. unfold owned. apply _. Defined.

Module SqlCron.
Definition create (job : CronJob) : M (list CronJob) Exn CronJob := fun t =>
  match find_key cj_id (cj_id job) t with
  | Some _ => (Err IntegrityError, t)
  | None => (Ok job, insert_row job t)
  end.
Definition get (job_id : pystr) : M (list CronJob) Exn CronJob := fun t =>
  match find_key cj_id job_id t with
  | None => (Err (CronJobNotFoundError job_id), t)
  | Some row => (Ok row, t)
  end.
Definition list_for_user (user_id : pystr) : M (list CronJob) Exn (list CronJob) :=
  gets (fun t => order_by cj_created_at (order_by_str cj_id (select_where (fun r => cj_user_id r = user_id) t))).

(** [_find_owned_row] *)
Definition find_owned_row (user_id job_id : pystr) : M (list CronJob) Exn CronJob := fun t =>
  match head (select_where (owned user_id job_id) t) with
  | None => (Err (CronJobNotFoundError job_id), t)
  | Some row => (Ok row, t)
  end.
Definition delete_for_user (user_id job_id : pystr) : M (list CronJob) Exn unit :=
  let! row := find_owned_row user_id job_id in
  modify (delete_where (fun r => cj_id r = cj_id row)).
Definition set_enabled (user_id job_id : pystr) (enabled : bool) (next_fire_at : option time)
    : M (list CronJob) Exn CronJob :=
  let! row := find_owned_row user_id job_id in
  modify (update_where (fun r => cj_id r = cj_id row) (assign_enabled enabled next_fire_at)) ;;;
  ret (assign_enabled enabled next_fire_at row).

Definition list_due (now stale_before : time) (limit : Z) : M (list CronJob) Exn (list CronJob) :=
  gets (fun t => take (Z.to_nat limit) (order_by cj_next_fire_at
    (select_where (due now stale_before) t))).
Definition claim (job_id : pystr) (expected : time) (owner : pystr) (now stale_before : time)
    : M (list CronJob) Exn bool := fun t =>
  (Ok (bool_decide (0 < rowcount (wins job_id expected stale_before) t)),
   update_where (wins job_id expected stale_before) (assign_lease (Some owner) (Some now)) t).
Definition release_claim (job_id : pystr) : M (list CronJob) Exn unit :=
  modify (update_where (fun r => cj_id r = job_id) (assign_lease None None)).
Definition complete_fire (job_id : pystr) (fired_at next_fire_at : time) : M (list CronJob) Exn unit :=
  modify (update_where (fun r => cj_id r = job_id) (assign_fire fired_at next_fire_at)).
Definition record_fire_result (job_id : pystr) (status : TaskStatus.t) (error : option pystr)
    (retry_at : option time) : M (list CronJob) Exn unit :=
  modify (update_where (fun r => cj_id r = job_id) (assign_result status error retry_at)).

Definition ops : CronStore (list CronJob) :=
  {| cs_create := create; cs_get := get; cs_list_for_user := list_for_user;
     cs_delete_for_user := delete_for_user; cs_set_enabled := set_enabled; cs_list_due := list_due;
     cs_claim := claim; cs_release_claim := release_claim; cs_complete_fire := complete_fire;
     cs_record_fire_result := record_fire_result |}.
End SqlCron.

(** The store over a state that holds the table. *)
Definition cron_store_on {S} `{HasTable S CronJob} : CronStore S :=
  {| cs_create job := on_table (SqlCron.create job);
     cs_get job_id := on_table (SqlCron.get job_id);
     cs_list_for_user user_id := on_table (SqlCron.list_for_user user_id);
     cs_delete_for_user user_id job_id := on_table (SqlCron.delete_for_user user_id job_id);
     cs_set_enabled user_id job_id enabled next := on_table (SqlCron.set_enabled user_id job_id enabled next);
     cs_list_due now stale_before limit := on_table (SqlCron.list_due now stale_before limit);
     cs_claim job_id expected owner now stale_before := on_table (SqlCron.claim job_id expected owner now stale_before);
     cs_release_claim job_id := on_table (SqlCron.release_claim job_id);
     cs_complete_fire job_id fired_at next := on_table (SqlCron.complete_fire job_id fired_at next);
     cs_record_fire_result job_id status error retry_at :=
       on_table (SqlCron.record_fire_result job_id status error retry_at) |}.

(** ** The schedule *)

Definition MISSED_COUNT_DEFAULT_CAP : Z := 100.
Definition NO_JOBS_MESSAGE : pystr := "no cron jobs".
Definition JOB_NOT_FOUND_MESSAGE : pystr := "error: cron job not found".
Definition DELETED_MESSAGE (job_id : pystr) : pystr := "deleted cron job " +s+ job_id.
Definition DUPLICATE_MESSAGE (job_id : pystr) : pystr := "already exists: cron job " +s+ job_id.
Definition QUOTA_MESSAGE (limit : Z) : pystr :=
  "the plan allows at most " +s+ str_of_Z limit +s+ " scheduled jobs; delete one first (task_list / task_delete)".
Definition PROMPT_PREVIEW_CHARS : Z := 200.

Record CronJobDraft := {
  cd_user_id : pystr;
  cd_channel : pystr;
  cd_title : pystr;
  cd_schedule : pystr;
  cd_prompt : pystr;
  cd_timezone : pystr;
  cd_one_shot : bool }.

(** [" ".join(text.split())], cut. *)
Definition prompt_preview (text : pystr) : pystr :=
  let one_line := str_join " " (str_split text) in
  if (str_len one_line <=? PROMPT_PREVIEW_CHARS)%Z then one_line
  else str_take PROMPT_PREVIEW_CHARS one_line +s+ "…".

(** [_find_duplicate] *)
Definition find_duplicate (existing : list CronJob) (draft : CronJobDraft) : option CronJob :=
  head (filter (fun job => cj_title job = cd_title draft /\ cj_schedule job = cd_schedule draft /\
                  cj_prompt job = cd_prompt draft /\ cj_one_shot job = cd_one_shot draft) existing).

Definition job_quota_refusal (existing_count : Z) (max_jobs : option Z) : option pystr :=
  match max_jobs with
  | None => None
  | Some cap => if (existing_count <? cap)%Z then None else Some (QUOTA_MESSAGE cap)
  end.

Section Schedule.
(** [croniter.is_valid]; whether [ZoneInfo] knows the name; the iterator of
    [croniter], an instant to the next; the wall clock of a zone, which is
    what two datetimes of one zone are compared by; [repr] of a string. *)
Context (is_valid : pystr -> bool) (zone_known : pystr -> bool).
Context (get_next : pystr -> pystr -> time -> time) (wall : pystr -> time -> Z).
Context (repr : pystr -> pystr).
Context {S : Type}.

(** [_load_timezone] and [_ensure_valid] *)
Definition load_timezone (timezone : pystr) : M S Exn unit :=
  if zone_known timezone then ret tt
  else raise (CronScheduleError ("unknown IANA timezone: " +s+ repr timezone)).
Definition ensure_valid (schedule : pystr) : M S Exn unit :=
  if is_valid schedule then ret tt
  else raise (CronScheduleError ("invalid cron expression: " +s+ repr schedule)).

Definition compute_next_fire (schedule timezone : pystr) (base : time) : M S Exn time :=
  load_timezone timezone ;;;
  ensure_valid schedule ;;;
  ret (get_next schedule timezone base).

(** The loop of [count_missed]: the guard on [cap] ends it, [fuel] only has to
    be more than [cap + 1]. *)
Fixpoint count_slots (fuel : nat) (schedule timezone : pystr) (cap : Z) (base now : time) (slots : Z) : Z :=
  match fuel with
  | O => slots
  | Datatypes.S fuel =>
      let next := get_next schedule timezone base in
      if ((wall timezone now <? wall timezone next) || (cap <? slots))%Z then slots
      else count_slots fuel schedule timezone cap next now (slots + 1)
  end.
Definition count_missed (schedule timezone : pystr) (since now : time) (cap : Z) : M S Exn Z :=
  load_timezone timezone ;;;
  ensure_valid schedule ;;;
  let slots := count_slots (Z.to_nat (cap + 3)) schedule timezone cap since now 0 in
  ret (Z.min (Z.max (slots - 1) 0) cap).

Definition format_job (job : CronJob) : pystr :=
  cj_id job +s+ " [" +s+ (if cj_enabled job then "enabled" else "paused") +s+ "] " +s+
  repr (cj_title job) +s+ " — " +s+ cj_schedule job +s+ " (" +s+ cj_timezone job +s+ "), " +s+
  "next fire at " +s+ format_iso (cj_next_fire_at job) +s+
  ", prompt: " +s+ repr (prompt_preview (cj_prompt job)) +s+
  (if cj_one_shot job then ", one-shot" else "") +s+
  match cj_last_fire_at job with Some at_ => ", last fire at " +s+ format_iso at_ | None => "" end +s+
  match cj_last_status job with
  | Some status =>
      ", last run: " +s+ TaskStatus.value status +s+
      match cj_last_error job with
      | Some error => if str_empty error then "" else " (" +s+ error +s+ ")"
      | None => ""
      end
  | None => ""
  end +s+
  (if (0 <? cj_retry_count job)%Z then ", retry #" +s+ str_of_Z (cj_retry_count job) else "").

(** ** Creating a job *)

Context (store : CronStore S) (utc_now : M S Exn time) (new_id : M S Exn pystr).

Definition job_of_draft (id : pystr) (draft : CronJobDraft) (next_fire_at now : time) : CronJob :=
  {| cj_id := id; cj_user_id := cd_user_id draft; cj_channel := cd_channel draft;
     cj_title := cd_title draft; cj_schedule := cd_schedule draft; cj_timezone := cd_timezone draft;
     cj_prompt := cd_prompt draft; cj_enabled := true; cj_next_fire_at := next_fire_at;
     cj_last_fire_at := None; cj_claimed_by := None; cj_claimed_at := None; cj_created_at := now;
     cj_one_shot := cd_one_shot draft; cj_last_status := None; cj_last_error := None; cj_retry_count := 0 |}.

(** [except CronScheduleError as exc: return f"error: {exc}"] *)
Definition or_schedule_error {A} (m : M S Exn A) (k : A -> M S Exn pystr) : M S Exn pystr :=
  let! r := try_except (let! a := m in ret (inl a))
              (fun e => match e with CronScheduleError text => ret (inr text) | _ => raise e end) in
  match r with inl a => k a | inr text => ret ("error: " +s+ text) end.

Definition create_job (draft : CronJobDraft) (max_jobs : option Z) : M S Exn pystr :=
  or_schedule_error (let! now := utc_now in compute_next_fire (cd_schedule draft) (cd_timezone draft) now)
    (fun next_fire_at =>
      let! existing := cs_list_for_user store (cd_user_id draft) in
      match find_duplicate existing draft with
      | Some duplicate => ret (DUPLICATE_MESSAGE (cj_id duplicate) +s+ newline +s+ format_job duplicate)
      | None =>
          match job_quota_refusal (Z.of_nat (length existing)) max_jobs with
          | Some refusal => ret refusal
          | None =>
              let! id := new_id in
              let! now := utc_now in
              let! stored := cs_create store (job_of_draft id draft next_fire_at now) in
              ret ("created cron job " +s+ cj_id stored +s+ newline +s+ format_job stored)
          end
      end).

(** [_set_enabled] of [cron/tools.py]; pausing and resuming are
    [cron_pause] and [cron_resume]. *)
Definition set_enabled (user_id job_id : pystr) (enabled : bool) : M S Exn pystr :=
  let! job := try_except (let! job := cs_get store job_id in ret (Some job))
                (fun e => match e with CronJobNotFoundError _ => ret None | _ => raise e end) in
  match job with
  | None => ret JOB_NOT_FOUND_MESSAGE
  | Some job =>
      if decide (cj_user_id job <> user_id) then ret JOB_NOT_FOUND_MESSAGE
      else
        or_schedule_error
          (if enabled then
             let! now := utc_now in
             let! next := compute_next_fire (cj_schedule job) (cj_timezone job) now in ret (Some next)
           else ret None)
          (fun next_fire_at =>
            let! updated := cs_set_enabled store user_id job_id enabled next_fire_at in
            ret ((if enabled then "resumed" else "paused") +s+ " cron job " +s+ cj_id updated +s+ newline +s+
                 format_job updated))
  end.

(** ** The outcome reporter *)

Definition LAST_ERROR_MAX_CHARS : Z := 500.
Definition CRON_JOB_ID_INPUT_KEY : pystr := "cron_job_id".

(** [_error_for] *)
Definition error_for (task : Task) (status : TaskStatus.t) : option pystr :=
  match status with
  | TaskStatus.FAILED =>
      let error := match tk_error task with
                   | Some error => if str_empty error then "unknown error" else error
                   | None => "unknown error"
                   end in
      Some (str_take LAST_ERROR_MAX_CHARS error)
  | TaskStatus.CANCELLED => Some "cancelled"
  | _ => None
  end.

Definition report_outcome (task : Task) (status : TaskStatus.t) : M S Exn unit :=
  match dict_get CRON_JOB_ID_INPUT_KEY (tk_input task) with
  | Some (JStr job_id) =>
      let! job := try_except (let! job := cs_get store job_id in ret (Some job))
                    (fun e => match e with CronJobNotFoundError _ => ret None | _ => raise e end) in
      match job with
      | None => ret tt
      | Some job =>
          if cj_one_shot job && bool_decide (status = TaskStatus.DONE \/ status = TaskStatus.FAILED)
          then cs_delete_for_user store (cj_user_id job) (cj_id job)
          else cs_record_fire_result store job_id status (error_for task status) None
      end
  | _ => ret tt
  end.
End Schedule.

(** ** The scheduler ([cron/scheduler.py] *)

(** The polling loop: due jobs are leased one by one, delivered to their
    dialog through the waker, and their schedule is advanced.  The store, the
    waker, the clock and the pause between replayed jobs are its ports; any of
    them may raise, the cancellation of a tick that overran its time
    included. *)
Definition MISSED_RUNS_SUFFIX (count : Z) : pystr :=
  newline +s+ "[" +s+ str_of_Z count +s+ " scheduled runs were missed and coalesced into this one.]".

Record CronSchedulerConfig := {
  csc_poll_interval_seconds : time;
  csc_lease_ttl_seconds : time;
  csc_replay_limit : Z }.

Section Scheduler.
Context (is_valid : pystr -> bool) (zone_known : pystr -> bool).
Context (get_next : pystr -> pystr -> time -> time) (wall : pystr -> time -> Z).
Context (repr : pystr -> pystr).
Context {S : Type} (store : CronStore S).
(** [wake]: user, channel, title, prompt, job. *)
Context (wake : pystr -> pystr -> pystr -> pystr -> pystr -> M S Exn WakeOutcome.t).
Context (utc_now : M S Exn time) (stagger poll_sleep : M S Exn unit) (timed_out : S -> bool).
Context (owner : pystr) (config : CronSchedulerConfig).

Definition missed_run_count (job : CronJob) (now : time) : M S Exn Z :=
  let since := default (cj_created_at job) (cj_last_fire_at job) in
  count_missed is_valid zone_known get_next wall repr (cj_schedule job) (cj_timezone job) since now
    MISSED_COUNT_DEFAULT_CAP.
Definition has_missed_runs (job : CronJob) (now : time) : M S Exn bool :=
  let! missed := missed_run_count job now in ret (0 <? missed)%Z.

Definition prompt_for (job : CronJob) (now : time) : M S Exn pystr :=
  let! missed := missed_run_count job now in
  ret (if (missed =? 0)%Z then cj_prompt job else cj_prompt job +s+ MISSED_RUNS_SUFFIX missed).

(** [_fire] *)
Definition deliver (job : CronJob) (now : time) : M S Exn (option WakeOutcome.t) :=
  except_exception
    (let! prompt := prompt_for job now in
     let! outcome := wake (cj_user_id job) (cj_channel job) (cj_title job) prompt (cj_id job) in
     ret (Some outcome))
    (fun _ => cs_release_claim store (cj_id job) ;;; ret None).
Definition complete (job : CronJob) (now : time) : M S Exn unit :=
  except_exception
    (let! next := compute_next_fire is_valid zone_known get_next repr (cj_schedule job) (cj_timezone job) now in
     cs_complete_fire store (cj_id job) now next)
    (fun _ => ret tt).
Definition fire (job : CronJob) (now stale_before : time) : M S Exn unit :=
  let! claimed := cs_claim store (cj_id job) (cj_next_fire_at job) owner now stale_before in
  if negb claimed then ret tt
  else
    let! delivered := deliver job now in
    match delivered with
    | None => ret tt
    | Some WakeOutcome.NOT_OURS => cs_release_claim store (cj_id job)
    | Some WakeOutcome.LIMITED => ret tt
    | Some WakeOutcome.DELIVERED => complete job now
    end.

(** [tick]: every due job but the first is paced when it missed runs. *)
Fixpoint fire_all (index : nat) (due : list CronJob) (fired_at stale_before : time) : M S Exn unit :=
  match due with
  | [] => ret tt
  | job :: due =>
      (if decide (0 < index) then
         let! missed := has_missed_runs job fired_at in when missed stagger
       else ret tt) ;;;
      fire job fired_at stale_before ;;;
      fire_all (Datatypes.S index) due fired_at stale_before
  end.
Definition tick (now : option time) : M S Exn unit :=
  let! fired_at := match now with Some now => ret now | None => utc_now end in
  let stale_before := (fired_at - csc_lease_ttl_seconds config)%Z in
  let! due := cs_list_due store fired_at stale_before (csc_replay_limit config) in
  fire_all 0 due fired_at stale_before.

(** One round of [run_forever]: a tick cut by its time limit, or failing, is
    logged; the cancellation of the loop itself goes through. *)
Definition poll : M S Exn unit :=
  try_except (tick None)
    (fun e => if is_exception e then ret tt
              else let! cut := gets timed_out in if cut then ret tt else raise e) ;;;
  poll_sleep.
Fixpoint run_rounds (n : nat) : M S Exn unit :=
  match n with
  | O => ret tt
  | Datatypes.S n => poll ;;; run_rounds n
  end.
End Scheduler.
