(* ===== verification/CronLaws.v ===== *)
(** * Laws of the cron module

    The lease is exclusive; what a firing leaves of a job, on every branch; how
    many missed runs are reported; and which jobs a tick does not reach. *)
From S2P Require Import Prelude PyStr Clock Sql Dict Domain UnitOfWork Cron.

(** ** The lease *)

Definition jobs_ok (t : list CronJob) : Prop := NoDup (cj_id <$> t).

(** What the processes do to the table. *)
Inductive call :=
| Create (job : CronJob)
| DeleteForUser (user_id job_id : pystr)
| SetEnabled (user_id job_id : pystr) (enabled : bool) (next_fire_at : option time)
| ClaimJob (job_id : pystr) (expected : time) (owner : pystr) (now stale_before : time)
| ReleaseClaim (job_id : pystr)
| CompleteFire (job_id : pystr) (fired_at next_fire_at : time)
| RecordResult (job_id : pystr) (status : TaskStatus.t) (error : option pystr) (retry_at : option time).

Definition perform (c : call) (t : list CronJob) : list CronJob :=
  match c with
  | Create job => (SqlCron.create job t).2
  | DeleteForUser u j => (SqlCron.delete_for_user u j t).2
  | SetEnabled u j e n => (SqlCron.set_enabled u j e n t).2
  | ClaimJob j e o n s => (SqlCron.claim j e o n s t).2
  | ReleaseClaim j => (SqlCron.release_claim j t).2
  | CompleteFire j f n => (SqlCron.complete_fire j f n t).2
  | RecordResult j st er r => (SqlCron.record_fire_result j st er r t).2
  end.
Definition run_calls (h : list call) (t : list CronJob) : list CronJob := foldl (fun t c => perform c t) t h.

(** The row of [j], if there still is one, carries a lease taken at [at_]. *)
Definition leased (j : pystr) (at_ : time) (t : list CronJob) : Prop :=
  Forall (fun r => cj_id r = j -> cj_claimed_by r <> None /\ cj_claimed_at r = Some at_) t.

(** Everything but giving the lease back, taking it over once it is stale, or
    a new job under the old id. *)
Definition respects (j : pystr) (at_ : time) (c : call) : Prop :=
  match c with
  | Create job => cj_id job <> j
  | ClaimJob _ _ _ _ stale_before => (stale_before <= at_)%Z
  | ReleaseClaim j' | CompleteFire j' _ _ => j' <> j
  | _ => True
  end.

Lemma leased_not_claimable (at_ stale : time) r :
  (stale <= at_)%Z -> cj_claimed_by r <> None -> cj_claimed_at r = Some at_ -> ~ claimable stale r.
Proof. intros Hs Hb Ha [?|(b & Hb' & ?)]; [done|]. rewrite Ha in Hb'. simplify_eq. lia. Qed.

Lemma leased_update j at_ P `{!forall r : CronJob, Decision (P r)} f t :
  (forall r, P r -> cj_id (f r) = cj_id r) ->
  (forall r, P r -> cj_id r = j -> cj_claimed_by r <> None /\ cj_claimed_at r = Some at_ ->
     cj_claimed_by (f r) <> None /\ cj_claimed_at (f r) = Some at_) ->
  leased j at_ t -> leased j at_ (update_where P f t).
Proof.
  intros Hid Hf. unfold leased. rewrite !Forall_forall. intros Hl r' Hr'.
  unfold update_where in Hr'. apply list_elem_of_fmap in Hr' as (r & -> & Hr).
  case_decide as HP; [|by apply Hl]. rewrite Hid by done. intros Hj. apply Hf; [done|done|]. by apply Hl.
Qed.

Lemma leased_perform j at_ c t : respects j at_ c -> leased j at_ t -> leased j at_ (perform c t).
Proof.
  intros Hc Hl. destruct c; cbn in *.
  - unfold SqlCron.create. destruct (find_key _ _ t); [done|]. cbn. apply Forall_app. split; [done|]. by constructor.
  - unfold SqlCron.delete_for_user, SqlCron.find_owned_row, bind.
    destruct (head _); [|done]. cbn. by apply Forall_filter_keep.
  - unfold SqlCron.set_enabled, SqlCron.find_owned_row, bind.
    destruct (head _); [|done]. cbn. by apply leased_update.
  - apply leased_update; [done| |done]. intros r (Hj & _ & _ & Hw) _ [Hb Ha].
    by destruct (leased_not_claimable at_ stale_before r Hc Hb Ha).
  - apply leased_update; [done| |done]. congruence.
  - apply leased_update; [done| |done]. congruence.
  - by apply leased_update.
Qed.

Lemma leased_run j at_ h t : Forall (respects j at_) h -> leased j at_ t -> leased j at_ (run_calls h t).
Proof.
  intros Hh. revert t. induction Hh as [|c h Hc Hh IH]; intros t Hl; [done|]. by apply IH, leased_perform.
Qed.

(** C9: A job is leased to one scheduler at a time: once a claim of it succeeded,
    every other claim fails, whatever is done to the table in between, until
    the lease is given back, the fire completed, or the lease stale. *)
Lemma lease_exclusive t j expected owner now stale h expected' owner' now' stale' :
  jobs_ok t -> (SqlCron.claim j expected owner now stale t).1 = Ok true ->
  Forall (respects j now) h -> (stale' <= now)%Z ->
  let t1 := (SqlCron.claim j expected owner now stale t).2 in
  (SqlCron.claim j expected' owner' now' stale' (run_calls h t1)).1 = Ok false.
Proof.
  intros Hok Hwon Hh Hs t1.
  assert (leased j now t1) as Hl.
  { injection Hwon as Hw%bool_decide_eq_true. unfold rowcount in Hw.
    destruct (filter (wins j expected stale) t) as [|r rest] eqn:Hf; [cbn in Hw; lia|].
    assert (r ∈ filter (wins j expected stale) t) as Hr by (rewrite Hf; left).
    apply list_elem_of_filter in Hr as [Hwins Hr]. apply Forall_forall. intros r1 Hr1 Hj.
    unfold t1 in Hr1. cbn in Hr1. unfold update_where in Hr1. apply list_elem_of_fmap in Hr1 as (r0 & -> & Hr0).
    assert (r0 = r) as ->.
    { destruct Hwins as [Hrj _]. assert (cj_id r0 = j) as Hj0 by (case_decide; done).
      apply find_key_elem with (pk := cj_id) (k := j) in Hr, Hr0; [|done..]. congruence. }
    by rewrite decide_True by done. }
  clearbody t1. cbn. f_equal. apply bool_decide_eq_false. intros Hlt.
  assert (rowcount (wins j expected' stale') (run_calls h t1) = 0) as Hz; [|lia].
  apply rowcount_zero. eapply Forall_impl; [by apply leased_run|].
  intros r Hr (Hj & _ & _ & Hw). destruct (Hr Hj) as [Hb Ha].
  by apply (leased_not_claimable now stale' r).
Qed.

(** ** A firing *)

Section Firing.
Context (is_valid : pystr -> bool) (zone_known : pystr -> bool).
Context (get_next : pystr -> pystr -> time -> time) (wall : pystr -> time -> Z) (repr : pystr -> pystr).
Context {S : Type} `{HT : HasTable S CronJob}.
Context (wake : pystr -> pystr -> pystr -> pystr -> pystr -> M S Exn WakeOutcome.t).
Context (owner : pystr).

Abbreviation fire_job := (fire is_valid zone_known get_next wall repr cron_store_on wake owner).
Abbreviation prompt_of := (prompt_for is_valid zone_known get_next wall repr).
Abbreviation complete_job := (complete is_valid zone_known get_next repr cron_store_on).

Definition row_of (j : pystr) (s : S) : option CronJob := find_key cj_id j (table s).

(** The job's prompt is made and delivered. *)
Definition delivery (job : CronJob) (now : time) : M S Exn WakeOutcome.t :=
  let! prompt := prompt_of job now in
  wake (cj_user_id job) (cj_channel job) (cj_title job) prompt (cj_id job).

(** What is left of the row after its delivery ended this way. *)
Definition fired_row (job : CronJob) (now : time) (outcome : Res Exn WakeOutcome.t) (r : CronJob) : CronJob :=
  match outcome with
  | Ok WakeOutcome.DELIVERED => assign_fire now (get_next (cj_schedule job) (cj_timezone job) now) r
  | Ok WakeOutcome.LIMITED => assign_lease (Some owner) (Some now) r
  | Ok WakeOutcome.NOT_OURS | Err _ => assign_lease None None r
  end.

(** The rows of a state, but for one job's, which [f] rewrites. *)
Definition rewrites (j : pystr) (f : CronJob -> CronJob) (s s' : S) : Prop :=
  forall k, row_of k s' = (if decide (k = j) then f else id) <$> row_of k s.

Lemma update_rewrites j f s :
  (forall r, cj_id (f r) = cj_id r) ->
  rewrites j f s (set_table (update_where (fun r => cj_id r = j) f (table s)) s).
Proof.
  intros Hf k. unfold row_of. rewrite table_set, find_key_update_fixed by done.
  destruct (find_key cj_id k (table s)) as [r|] eqn:Hr; [|done]. apply find_key_Some in Hr as [_ <-]. cbn.
  by repeat case_decide.
Qed.
Lemma rewrites_trans j f g s1 s2 s3 :
  rewrites j f s1 s2 -> rewrites j g s2 s3 -> rewrites j (fun r => g (f r)) s1 s3.
Proof. intros Hf Hg k. rewrite Hg, Hf. destruct (row_of k s1); [|done]. cbn. by case_decide. Qed.
Lemma rewrites_same j f s1 s2 s3 : rewrites j f s1 s2 -> table s3 = table s2 -> rewrites j f s1 s3.
Proof. intros Hf Heq k. rewrite <-Hf. unfold row_of. by rewrite Heq. Qed.
Lemma rewrites_row j f g s1 s2 r :
  rewrites j f s1 s2 -> row_of j s1 = Some r -> f r = g r -> rewrites j g s1 s2.
Proof.
  intros Hf Hr Heq k. rewrite Hf. case_decide as Hk; [subst; rewrite Hr; cbn; by rewrite Heq|done].
Qed.

Lemma claim_wins job now stale s r :
  row_of (cj_id job) s = Some r -> wins (cj_id job) (cj_next_fire_at job) stale r ->
  exists s1, cs_claim cron_store_on (cj_id job) (cj_next_fire_at job) owner now stale s = (Ok true, s1) /\
    rewrites (cj_id job) (assign_lease (Some owner) (Some now)) s s1.
Proof.
  intros Hr Hw. eexists. split.
  - unfold cs_claim, cron_store_on, on_table, SqlCron.claim. rewrite bool_decide_eq_true_2; [done|].
    apply find_key_Some in Hr as [Hr _]. unfold rowcount.
    assert (r ∈ filter (wins (cj_id job) (cj_next_fire_at job) stale) (table s)) as Hin
      by (by apply list_elem_of_filter).
    destruct (filter _ _); [by apply not_elem_of_nil in Hin|cbn; lia].
  - intros k. unfold row_of in *. rewrite table_set, find_key_update_fixed by done.
    destruct (find_key cj_id k (table s)) as [r'|] eqn:Hr'; [|done]. cbn.
    destruct (decide (k = cj_id job)) as [->|Hne]; [|rewrite decide_False; [done|]].
    + simplify_eq. by rewrite decide_True.
    + intros [Hk _]. apply find_key_Some in Hr' as [_ Hr']. congruence.
Qed.

(** Making the prompt reads the job and nothing else. *)
Lemma prompt_cases job now :
  (exists p, (forall s : S, prompt_of job now s = (Ok p, s)) /\
     zone_known (cj_timezone job) = true /\ is_valid (cj_schedule job) = true) \/
  exists text, forall s : S, prompt_of job now s = (Err (CronScheduleError text), s).
Proof.
  unfold prompt_for, missed_run_count, count_missed, load_timezone, ensure_valid, bind.
  destruct (zone_known _); [|right; by eexists]. destruct (is_valid _); [|right; by eexists].
  left. eexists. split; [by intros s|done].
Qed.

Context (Hwake : forall u c ti p j s, table (wake u c ti p j s).2 = table s).

Lemma delivery_table job now s : table (delivery job now s).2 = table s.
Proof.
  unfold delivery, bind. destruct (prompt_cases job now) as [(p & Hp & _)|(text & Hp)]; rewrite Hp; [apply Hwake|done].
Qed.
Lemma delivery_usable job now s outcome s' :
  delivery job now s = (Ok outcome, s') -> zone_known (cj_timezone job) = true /\ is_valid (cj_schedule job) = true.
Proof.
  unfold delivery, bind. destruct (prompt_cases job now) as [(p & _ & H)|(text & Hp)]; [done|]. by rewrite Hp.
Qed.

Lemma deliver_eq job now s :
  deliver is_valid zone_known get_next wall repr cron_store_on wake job now s =
    match delivery job now s with
    | (Ok outcome, s1) => (Ok (Some outcome), s1)
    | (Err e, s1) =>
        if is_exception e then
          (Ok None, set_table (update_where (fun r => cj_id r = cj_id job) (assign_lease None None) (table s1)) s1)
        else (Err e, s1)
    end.
Proof.
  unfold deliver, except_exception, try_except, delivery, bind.
  destruct (prompt_of job now s) as [[p|e] s1]; [|by destruct (is_exception e)].
  destruct (wake _ _ _ _ _ s1) as [[o|e] s2]; [done|]. by destruct (is_exception e).
Qed.
Lemma complete_eq job now s :
  zone_known (cj_timezone job) = true -> is_valid (cj_schedule job) = true ->
  complete_job job now s =
    (Ok tt, set_table (update_where (fun r => cj_id r = cj_id job)
              (assign_fire now (get_next (cj_schedule job) (cj_timezone job) now)) (table s)) s).
Proof.
  intros Hz Hv. unfold complete, except_exception, try_except, compute_next_fire, load_timezone, ensure_valid, bind.
  by rewrite Hz, Hv.
Qed.

(** A leased job is left as its delivery says: delivered, its schedule
    advances past now and the lease is dropped; refused by a limit, it stays
    leased until the lease is stale; another process's, or failed, it is free
    again at once.  A job that was not won is not delivered.  No other job is
    touched. *)
Theorem fire_outcomes job now stale s r :
  jobs_ok (table s) -> row_of (cj_id job) s = Some r ->
  (~ wins (cj_id job) (cj_next_fire_at job) stale r -> fire_job job now stale s = (Ok tt, s)) /\
  (wins (cj_id job) (cj_next_fire_at job) stale r ->
   exists s1, rewrites (cj_id job) (assign_lease (Some owner) (Some now)) s s1 /\
     let outcome := (delivery job now s1).1 in
     (outcome <> Err CancelledError ->
      exists s', fire_job job now stale s = (Ok tt, s') /\
        rewrites (cj_id job) (fired_row job now outcome) s s')).
Proof.
  intros Hok Hr. split.
  - intros Hno.
    assert (rowcount (wins (cj_id job) (cj_next_fire_at job) stale) (table s) = 0) as Hz.
    { apply rowcount_zero, Forall_forall. intros r' Hr' Hw. apply Hno.
      unfold row_of in Hr. rewrite (find_key_elem cj_id (cj_id job) _ r' Hok Hr' (proj1 Hw)) in Hr. by simplify_eq. }
    unfold fire, bind, cs_claim, cron_store_on, on_table, SqlCron.claim.
    by rewrite Hz, update_where_none, set_table_same by done.
  - intros Hw. destruct (claim_wins job now stale s r Hr Hw) as (s1 & Hclaim & Hs1).
    exists s1. split; [done|]. intros outcome Hnc.
    unfold fire. rewrite (bind_Ok _ _ _ _ _ Hclaim). cbn [negb].
    pose proof (delivery_table job now s1) as Htab. unfold bind at 1. rewrite deliver_eq.
    destruct (delivery job now s1) as [[o|e] s2] eqn:Hdel; cbn in Htab, outcome; subst outcome.
    + assert (rewrites (cj_id job) (assign_lease (Some owner) (Some now)) s s2) as Hs2 by by eapply rewrites_same.
      destruct o; cbn [fired_row].
      * destruct (delivery_usable _ _ _ _ _ Hdel) as [Hz Hv]. rewrite complete_eq by done.
        eexists. split; [done|].
        eapply rewrites_row; [eapply rewrites_trans; [exact Hs2|by apply update_rewrites]|done|done].
      * by exists s2.
      * eexists. split; [done|].
        eapply rewrites_row; [eapply rewrites_trans; [exact Hs2|by apply update_rewrites]|done|done].
    + assert (rewrites (cj_id job) (assign_lease (Some owner) (Some now)) s s2) as Hs2 by by eapply rewrites_same.
      assert (is_exception e = true) as -> by (destruct e; done).
      eexists. split; [done|].
      eapply rewrites_row; [eapply rewrites_trans; [exact Hs2|by apply update_rewrites]|done|done].
Qed.
End Firing.

(** ** Missed runs *)

Section Missed.
Context (is_valid : pystr -> bool) (zone_known : pystr -> bool).
Context (get_next : pystr -> pystr -> time -> time) (wall : pystr -> time -> Z) (repr : pystr -> pystr).
Context (schedule timezone : pystr) (cap : Z) (Hcap : (0 <= cap)%Z).

(** The n-th slot after an instant. *)
Definition slot (since : time) (n : nat) : time := Nat.iter n (get_next schedule timezone) since.
Definition clamped (slots : Z) : Z := Z.min (Z.max (slots - 1) 0) cap.

Lemma slot_next since n : slot (get_next schedule timezone since) n = slot since (S n).
Proof. unfold slot. by rewrite <-Nat.iter_succ_r. Qed.

Lemma count_slots_run (n fuel : nat) base now k :
  (forall i, i < n -> (wall timezone (slot base (S i)) <= wall timezone now)%Z) ->
  (wall timezone now < wall timezone (slot base (S n)) \/ cap < k + Z.of_nat n)%Z ->
  (0 <= k <= cap + 1)%Z -> (cap + 3 - k <= Z.of_nat fuel)%Z ->
  clamped (count_slots get_next wall fuel schedule timezone cap base now k) = clamped (k + Z.of_nat n).
Proof.
  revert fuel base k. induction n as [|n IH]; intros fuel base k Hpast Hstop Hk Hfuel;
    (destruct fuel as [|fuel]; [lia|]); cbn [count_slots];
    change (get_next schedule timezone base) with (slot base 1).
  - rewrite Z.add_0_r in *.
    assert (orb (wall timezone now <? wall timezone (slot base 1))%Z (cap <? k)%Z = true) as ->; [|done].
    apply orb_true_iff. rewrite !Z.ltb_lt. done.
  - assert ((wall timezone now <? wall timezone (slot base 1))%Z = false) as ->
      by (apply Z.ltb_ge, (Hpast 0); lia). cbn.
    destruct (Z.ltb_spec cap k); [unfold clamped; lia|].
    rewrite IH; [unfold clamped; f_equal; lia| |..|lia|lia].
    + intros i Hi. change (slot base 1) with (get_next schedule timezone base). rewrite slot_next. apply Hpast. lia.
    + change (slot base 1) with (get_next schedule timezone base). rewrite slot_next.
      destruct Hstop; [by left|right; lia].
Qed.

(** The missed runs reported with a firing: of the slots since the last one
    that are not after now, all but the current one, and no more than the cap;
    the count stops looking when the cap is reached. *)
Theorem count_missed_spec {S} (n : nat) since now (s : S) :
  zone_known timezone = true -> is_valid schedule = true ->
  (forall i, i < n -> (wall timezone (slot since (Datatypes.S i)) <= wall timezone now)%Z) ->
  (wall timezone now < wall timezone (slot since (Datatypes.S n)) \/ cap < Z.of_nat n)%Z ->
  count_missed is_valid zone_known get_next wall repr schedule timezone since now cap s =
    (Ok (Z.min (Z.max (Z.of_nat n - 1) 0) cap), s).
Proof.
  intros Hz Hv Hpast Hstop. unfold count_missed, load_timezone, ensure_valid, bind. rewrite Hz, Hv. cbn.
  unfold ret. f_equal. f_equal.
  apply (count_slots_run n (Z.to_nat (cap + 3)) since now 0); [done|done|lia|lia].
Qed.
End Missed.

(** ** What a tick does not reach *)

Section Tick.
Context (is_valid : pystr -> bool) (zone_known : pystr -> bool).
Context (get_next : pystr -> pystr -> time -> time) (wall : pystr -> time -> Z) (repr : pystr -> pystr).
Context {S : Type} (store : CronStore S).
Context (wake : pystr -> pystr -> pystr -> pystr -> pystr -> M S Exn WakeOutcome.t).
Context (utc_now : M S Exn time) (stagger : M S Exn unit) (owner : pystr) (config : CronSchedulerConfig).

Abbreviation fire_jobs := (fire_all is_valid zone_known get_next wall repr store wake stagger owner).
Abbreviation tick_at now := (tick is_valid zone_known get_next wall repr store wake utc_now stagger owner config (Some now)).

(** Neither the zone nor the expression was accepted lately. *)
Definition unusable (job : CronJob) : Prop :=
  zone_known (cj_timezone job) = false \/ is_valid (cj_schedule job) = false.

Lemma unusable_raises job now (s : S) :
  unusable job ->
  exists text, has_missed_runs is_valid zone_known get_next wall repr job now s = (Err (CronScheduleError text), s).
Proof.
  unfold unusable, has_missed_runs, missed_run_count, count_missed, load_timezone, ensure_valid, bind.
  intros H. destruct (zone_known _); [|by eexists].
  destruct H as [H|Hv]; [done|]. rewrite Hv. by eexists.
Qed.

Lemma fire_jobs_cut n pre bad post now stale s s1 :
  0 < n + length pre -> unusable bad -> fire_jobs n pre now stale s = (Ok tt, s1) ->
  exists text, fire_jobs n (pre ++ bad :: post) now stale s = (Err (CronScheduleError text), s1).
Proof.
  intros Hn Hbad. revert n s Hn. induction pre as [|job pre IH]; intros n s Hn; cbn.
  - intros [= <-]. rewrite decide_True by (cbn in Hn; lia). unfold bind.
    destruct (unusable_raises bad now s Hbad) as [text Ht]. exists text. by rewrite Ht.
  - unfold bind. match goal with |- context [match ?x with _ => _ end] => destruct x as [[u|e] s2] end; [|done].
    destruct (fire _ _ _ _ _ _ _ _ _ _ _ s2) as [[u'|e] s3]; [|done]. apply IH. lia.
Qed.

(** A due job whose stored schedule is no longer accepted (an expression or a
    zone the libraries dropped) ends the tick when it is not the first in line:
    the jobs behind it are not even claimed.  It stays due, so they wait as
    long as it exists. *)
Theorem bad_schedule_cuts_tick now pre bad post s s1 s2 :
  let stale := (now - csc_lease_ttl_seconds config)%Z in
  cs_list_due store now stale (csc_replay_limit config) s = (Ok (pre ++ bad :: post), s1) ->
  pre <> [] -> unusable bad -> fire_jobs 0 pre now stale s1 = (Ok tt, s2) ->
  exists text, tick_at now s = (Err (CronScheduleError text), s2).
Proof.
  intros stale Hdue Hpre Hbad Hrun. destruct pre as [|job pre]; [done|].
  destruct (fire_jobs_cut 0 (job :: pre) bad post now stale s1 s2) as [text Ht]; [cbn; lia|done|done|].
  exists text. unfold tick, bind. cbn. fold stale. by rewrite Hdue.
Qed.
End Tick.

(** ** Creating jobs *)

Section Creating.
Context (is_valid : pystr -> bool) (zone_known : pystr -> bool).
Context (get_next : pystr -> pystr -> time -> time) (repr : pystr -> pystr).
Context {S : Type} `{HT : HasTable S CronJob} (utc_now : M S Exn time) (new_id : M S Exn pystr).
Context (Hnow : forall s, table (utc_now s).2 = table s) (Hid : forall s, table (new_id s).2 = table s).

Abbreviation create_cron := (create_job is_valid zone_known get_next repr cron_store_on utc_now new_id).
Definition jobs_of (user_id : pystr) (t : list CronJob) : list CronJob := filter (fun r => cj_user_id r = user_id) t.

(** The same job, as [find_duplicate] sees it. *)
Definition drafted (draft : CronJobDraft) (job : CronJob) : Prop :=
  cj_title job = cd_title draft /\ cj_schedule job = cd_schedule draft /\
  cj_prompt job = cd_prompt draft /\ cj_one_shot job = cd_one_shot draft.

Lemma find_duplicate_none draft user t :
  find_duplicate (order_by cj_created_at (order_by_str cj_id (select_where (fun r => cj_user_id r = user) t))) draft = None ->
  Forall (fun job => ~ drafted draft job) (jobs_of user t).
Proof.
  unfold find_duplicate. rewrite head_filter_None, order_by_perm, order_by_str_perm. done.
Qed.

Lemma or_schedule_cases {A} (m : M S Exn A) (k : A -> M S Exn pystr) s :
  (exists a s1, m s = (Ok a, s1) /\ or_schedule_error m k s = k a s1) \/
  (or_schedule_error m k s).2 = (m s).2.
Proof.
  unfold or_schedule_error, try_except, bind. destruct (m s) as [[a|e] s1]; [left; by eexists _, _|].
  right. by destruct e.
Qed.

(** Asking for a job adds nothing, or one job as drafted: one the user did not
    have, within the plan's cap. *)
Theorem create_job_adds draft cap s :
  let s' := (create_cron draft cap s).2 in
  table s' = table s \/
  exists job, table s' = table s ++ [job] /\ drafted draft job /\ cj_user_id job = cd_user_id draft /\
    cj_enabled job = true /\ cj_claimed_by job = None /\
    Forall (fun job => ~ drafted draft job) (jobs_of (cd_user_id draft) (table s)) /\
    forall c, cap = Some c -> (Z.of_nat (length (jobs_of (cd_user_id draft) (table s'))) <= c)%Z.
Proof.
  intros s'. subst s'. unfold create_job.
  match goal with |- context [or_schedule_error ?m ?k s] => pose proof (or_schedule_cases m k s) as Hc; set (first := m) in *; set (rest := k) in * end.
  assert (table (first s).2 = table s) as Hfirst.
  { unfold first, compute_next_fire, load_timezone, ensure_valid, bind. rewrite <-(Hnow s).
    destruct (utc_now s) as [[now|e] s1]; [|done]. destruct (zone_known _); [|done]. by destruct (is_valid _). }
  destruct Hc as [(next & s1 & Hm & ->)| ->]; [|by left]. rewrite Hm in Hfirst. cbn in Hfirst. clearbody first.
  unfold rest, bind. cbn [cs_list_for_user cron_store_on]. unfold on_table, SqlCron.list_for_user, gets.
  rewrite set_table_same, Hfirst. set (existing := order_by _ _).
  destruct (find_duplicate existing draft) as [dup|] eqn:Hdup; [by left|].
  destruct (job_quota_refusal _ cap) eqn:Hquota; [by left|].
  pose proof (Hid s1) as H2. destruct (new_id s1) as [[id|e] s2]; [|left; cbn in *; congruence].
  pose proof (Hnow s2) as H3. destruct (utc_now s2) as [[now|e] s3]; [|left; cbn in *; congruence].
  cbn [cs_create cron_store_on]. unfold on_table, SqlCron.create.
  match goal with |- context [find_key cj_id ?k ?t] => destruct (find_key cj_id k t) end; [left; rewrite set_table_same; cbn in *; congruence|]. cbn [snd ret].
  right. eexists. rewrite table_set. cbn in *. unfold insert_row. rewrite H3, H2, Hfirst. split; [done|].
  split_and!; [done..| |].
  - by apply find_duplicate_none.
  - intros c ->. unfold job_quota_refusal in Hquota. unfold jobs_of.
    rewrite filter_app, filter_cons_True, filter_nil, length_app by done.
    assert (length existing = length (filter (fun r => cj_user_id r = cd_user_id draft) (table s))) as Hlen.
    { unfold existing. by rewrite length_order_by, order_by_str_perm. }
    destruct (Z.ltb_spec (Z.of_nat (length existing)) c); [|done]. cbn. lia.
Qed.
End Creating.
