(* ===== verification/Manager.v ===== *)
(** * The registry of actors ([ConversationManager], [agent/runner.py])

    One actor per dialog of this process: building and sharing it, recovering
    what its previous owner left, keeping its claim warm, standing it down
    when the dialog moved, shutting down.  An actor is an object of the state,
    a build a task of it; handlers of an actor run on its world inside the
    manager's. *)
From S2P Require Import Prelude PyStr Clock Sql Dict Domain UnitOfWork Broadcast TaskStore ExchangeStore MessageStore ClaimStore Compactor RunnerText RunnerState Outbox Answers Actor Cron.

(** ** State *)

(** [asyncio.Task[ConversationRunner]]: the arguments of its [_build_runner],
    and how far it is; [cancelling]: its cancellation was requested. *)
Inductive Build :=
| Building (cancelling : bool)
| Built (ref : nat)
| BuildFailed (e : Exn)
| BuildCancelled.
Record BuildTask := { bt_user_id : pystr; bt_channel : pystr; bt_state : Build }.
Definition set_bt_state (v : Build) (t : BuildTask) : BuildTask :=
  {| bt_user_id := bt_user_id t; bt_channel := bt_channel t; bt_state := v |}.

(** [_runners] and [_builds] hold references; [_surface] is set or not;
    [_heartbeat_task] runs or not; [_last_beat_at]. *)
Record Manager := {
  mg_runners : list (pystr * nat);
  mg_builds : list ((pystr * pystr) * nat);
  mg_surface : bool;
  mg_heartbeat : bool;
  mg_last_beat : option Z }.
Record MWorld := {
  mw_conn : Conn Db;
  mw_now : time;
  mw_monotonic : time;
  mw_ids : N;
  mw_tick : nat;
  mw_dropped : list pystr;
  mw_actors : list Runner;
  mw_tasks : list BuildTask;
  mw_mgr : Manager }.

Definition set_mw_conn (v : Conn Db) (w : MWorld) : MWorld :=
  {| mw_conn := v; mw_now := mw_now w; mw_monotonic := mw_monotonic w; mw_ids := mw_ids w;
     mw_tick := mw_tick w; mw_dropped := mw_dropped w; mw_actors := mw_actors w;
     mw_tasks := mw_tasks w; mw_mgr := mw_mgr w |}.
Definition set_mw_ids (v : N) (w : MWorld) : MWorld :=
  {| mw_conn := mw_conn w; mw_now := mw_now w; mw_monotonic := mw_monotonic w; mw_ids := v;
     mw_tick := mw_tick w; mw_dropped := mw_dropped w; mw_actors := mw_actors w;
     mw_tasks := mw_tasks w; mw_mgr := mw_mgr w |}.
Definition set_mw_tick (v : nat) (w : MWorld) : MWorld :=
  {| mw_conn := mw_conn w; mw_now := mw_now w; mw_monotonic := mw_monotonic w; mw_ids := mw_ids w;
     mw_tick := v; mw_dropped := mw_dropped w; mw_actors := mw_actors w;
     mw_tasks := mw_tasks w; mw_mgr := mw_mgr w |}.
Definition set_mw_actors (v : list Runner) (w : MWorld) : MWorld :=
  {| mw_conn := mw_conn w; mw_now := mw_now w; mw_monotonic := mw_monotonic w; mw_ids := mw_ids w;
     mw_tick := mw_tick w; mw_dropped := mw_dropped w; mw_actors := v;
     mw_tasks := mw_tasks w; mw_mgr := mw_mgr w |}.
Definition set_mw_tasks (v : list BuildTask) (w : MWorld) : MWorld :=
  {| mw_conn := mw_conn w; mw_now := mw_now w; mw_monotonic := mw_monotonic w; mw_ids := mw_ids w;
     mw_tick := mw_tick w; mw_dropped := mw_dropped w; mw_actors := mw_actors w;
     mw_tasks := v; mw_mgr := mw_mgr w |}.
Definition set_mw_mgr (v : Manager) (w : MWorld) : MWorld :=
  {| mw_conn := mw_conn w; mw_now := mw_now w; mw_monotonic := mw_monotonic w; mw_ids := mw_ids w;
     mw_tick := mw_tick w; mw_dropped := mw_dropped w; mw_actors := mw_actors w;
     mw_tasks := mw_tasks w; mw_mgr := v |}.
Definition set_mg_runners (v : list (pystr * nat)) (m : Manager) : Manager :=
  {| mg_runners := v; mg_builds := mg_builds m; mg_surface := mg_surface m;
     mg_heartbeat := mg_heartbeat m; mg_last_beat := mg_last_beat m |}.
Definition set_mg_builds (v : list ((pystr * pystr) * nat)) (m : Manager) : Manager :=
  {| mg_runners := mg_runners m; mg_builds := v; mg_surface := mg_surface m;
     mg_heartbeat := mg_heartbeat m; mg_last_beat := mg_last_beat m |}.
Definition set_mg_surface (v : bool) (m : Manager) : Manager :=
  {| mg_runners := mg_runners m; mg_builds := mg_builds m; mg_surface := v;
     mg_heartbeat := mg_heartbeat m; mg_last_beat := mg_last_beat m |}.
Definition set_mg_beat (on : bool) (v : option Z) (m : Manager) : Manager :=
  {| mg_runners := mg_runners m; mg_builds := mg_builds m; mg_surface := mg_surface m;
     mg_heartbeat := on; mg_last_beat := v |}.

#[export] Instance mworld_has_conn : HasConn MWorld Db.
Proof. refine {| conn_of := mw_conn; set_conn := set_mw_conn |}; [done|done|by intros []]. Defined.

(** [OwnershipConfig] *)
Definition CLAIM_HEARTBEAT_SECONDS : time := seconds 5.
Definition CLAIM_STALE_AFTER_SECONDS : time := seconds 30.
Record OwnershipConfig := {
  oc_node_id : pystr;
  oc_heartbeat_seconds : time;
  oc_stale_after_seconds : time }.
Definition default_ownership (node_id : pystr) : OwnershipConfig :=
  {| oc_node_id := node_id; oc_heartbeat_seconds := CLAIM_HEARTBEAT_SECONDS;
     oc_stale_after_seconds := CLAIM_STALE_AFTER_SECONDS |}.

(** The transport [use_surface] binds. *)
Record DialogSurface := {
  ds_attach : nat -> M MWorld Exn unit;
  ds_detach : nat -> M MWorld Exn unit }.

(** [ConversationRunner(...)], started. *)
Definition new_runner (dialog : Dialog) (claim : DialogClaim) (history : list ChatMessage) : Runner :=
  {| r_dialog := dialog; r_claim := claim; r_stood_down := false; r_preempted := false;
     r_cancelling := false; r_narrative := history; r_processes := []; r_tariff_notes := [];
     r_pending := []; r_next_key := 0; r_cancel_epoch := 0; r_inbox := [];
     r_hub := {| h_seq := 0; h_dropped := 0; h_subscribers := [] |};
     r_spawn_lock := false; r_assemble_lock := false; r_flush_lock := false |}.

(** A use of an object that was never made: references are not forged. *)
Definition dangling : Exn := OtherError "no such object".

Section Manager.
Context (config : RunnerConfig) (ownership : OwnershipConfig) (surface : DialogSurface).
(** What the other tasks do at an await inside an actor, and at one of the
    manager's; whether the current task is cancelled at an await; whether a
    beat's time limit has passed; the order a set is walked in. *)
Context (others : nat -> World -> World) (m_others : nat -> MWorld -> MWorld).
Context (interrupted : nat -> bool) (overdue : nat -> bool) (set_order : gset pystr -> list pystr).

Definition mgr {A} (f : Manager -> A) : M MWorld Exn A := gets (fun w => f (mw_mgr w)).
Definition set_mgr (f : Manager -> Manager) : M MWorld Exn unit :=
  modify (fun w => set_mw_mgr (f (mw_mgr w)) w).
Definition state_of (build : nat) (w : MWorld) : option Build := bt_state <$> mw_tasks w !! build.
Definition task_of (build : nat) : M MWorld Exn (option Build) := gets (state_of build).
Definition set_task (build : nat) (state : Build) : M MWorld Exn unit :=
  modify (fun w => set_mw_tasks (alter (set_bt_state state) build (mw_tasks w)) w).

(** An [await] of the manager. *)
Definition m_yield : M MWorld Exn unit := fun w =>
  let w' := m_others (mw_tick w) (set_mw_tick (S (mw_tick w)) w) in
  if interrupted (mw_tick w) then (Err CancelledError, w') else (Ok tt, w').

(** ** Calling an actor *)

Definition enter_world (r : Runner) (w : MWorld) : World :=
  {| w_conn := mw_conn w; w_now := mw_now w; w_ids := mw_ids w; w_tick := mw_tick w;
     w_dropped := mw_dropped w; w_run := r |}.
Definition leave_world (ref : nat) (s : World) (w : MWorld) : MWorld :=
  {| mw_conn := w_conn s; mw_now := w_now s; mw_monotonic := mw_monotonic w; mw_ids := w_ids s;
     mw_tick := w_tick s; mw_dropped := w_dropped s; mw_actors := <[ref := w_run s]> (mw_actors w);
     mw_tasks := mw_tasks w; mw_mgr := mw_mgr w |}.
Definition on_actor {A} (ref : nat) (m : M World Exn A) : M MWorld Exn A := fun w =>
  match mw_actors w !! ref with
  | None => (Err dangling, w)
  | Some r => let '(a, s) := m (enter_world r w) in (a, leave_world ref s w)
  end.
(** [await runner.m()]: what the rest of the process did meanwhile. *)
Definition await_actor {A} (ref : nat) (m : M World Exn A) : M MWorld Exn A :=
  let! a := try_except (on_actor ref m) (fun e => m_yield ;;; raise e) in
  m_yield ;;;
  ret a.
Definition actor {A} (ref : nat) (f : Runner -> A) : M MWorld Exn A := on_actor ref (runner f).

(** [finished_build] *)
Definition finished_build (state : option Build) : option nat :=
  match state with Some (Built ref) => Some ref | _ => None end.
Definition is_done (state : option Build) : bool :=
  match state with Some (Building _) => false | _ => true end.

(** ** The surface *)

Definition use_surface : M MWorld Exn unit := set_mgr (set_mg_surface true).
Definition attach_surface (ref : nat) : M MWorld Exn unit :=
  let! bound := mgr mg_surface in
  when bound (except_exception (ds_attach surface ref) (fun _ => ret tt)).
Definition detach_surface (ref : nat) : M MWorld Exn unit :=
  let! bound := mgr mg_surface in
  when bound (except_exception (ds_detach surface ref) (fun _ => ret tt)).

(** ** Recovering a dialog *)

(** Inside a build task an await also ends with its requested cancellation. *)
Definition build_await (build : nat) : M MWorld Exn unit :=
  m_yield ;;;
  let! state := task_of build in
  match state with Some (Building true) => raise CancelledError | _ => ret tt end.
Definition or_default {A} (dflt : A) (m : M MWorld Exn A) : M MWorld Exn A :=
  except_exception m (fun _ => ret dflt).

(** [_reopen_and_list_stranded], [_for_recovery] *)
Definition reopen_stranded (pause : M MWorld Exn unit) (d : pystr) : M MWorld Exn (Z * list Exchange) :=
  or_default (0%Z, [])
    (pause ;;;
     let! now := gets mw_now in
     on_conn (write_session (fun db =>
       on_table (reopen_and_list_stranded now (table db) d) db))).
Definition for_recovery (pause : M MWorld Exn unit) (d : option pystr) : M MWorld Exn (list Task * list Task) :=
  or_default ([], []) (pause ;;; on_conn (read_session (on_table (Sql.list_for_recovery d)))).

(** [_recover_dialog] *)
Definition restart_orphans (ref : nat) (orphaned : list Task) : M MWorld Exn unit :=
  for_each orphaned (fun task =>
    except_exception (await_actor ref (restart_task config others task)) (fun _ => ret tt)).
Definition recover_dialog (build : nat) (ref : nat) : M MWorld Exn unit :=
  let! d := actor ref (fun r => dlg_id (r_dialog r)) in
  let! left_first := gets (fun w => cfg_left_first config (mw_tick w)) in
  let reopen := reopen_stranded (build_await build) d in
  let recovery := for_recovery (build_await build) (Some d) in
  let! ' (stranded, orphaned, undelivered) :=
    (if left_first : bool then
       let! a := reopen in let! b := recovery in ret (a.2, b.1, b.2)
     else
       let! b := recovery in let! a := reopen in ret (a.2, b.1, b.2)) in
  restart_orphans ref orphaned ;;;
  match stranded with
  | [] => ret tt
  | _ => except_exception (await_actor ref (sweep_unowned_open config others)) (fun _ => ret tt)
  end ;;;
  for_each undelivered (fun task => on_actor ref (request_result_delivery (tk_id task))).

(** ** Building an actor *)

(** [_build_runner] *)
Definition build_runner (build : nat) (user_id channel : pystr) : M MWorld Exn nat :=
  build_await build ;;;
  let! ' (dialog, claim) :=
    uow (cfg_null_unit config)
      (let! now := gets mw_now in
       let! new_id := (fun w => (Ok (uuid4_hex (mw_ids w)), set_mw_ids (mw_ids w + 1)%N w)) in
       let! dialog := on_conn (ClaimStore.get_or_create [] new_id now user_id channel) in
       let! claim := on_conn (write_session (on_table (ClaimStore.claim now (dlg_id dialog) (oc_node_id ownership)))) in
       ret (dialog, claim)) in
  build_await build ;;;
  let! history := on_conn (read_session (fun db => on_table (list_hot_slice (table db) (dlg_id dialog)) db)) in
  let! ref := gets (fun w => length (mw_actors w)) in
  modify (fun w => set_mw_actors (mw_actors w ++ [new_runner dialog claim history]) w) ;;;
  set_mgr (fun m => set_mg_runners (dict_set (dlg_id dialog) ref (mg_runners m)) m) ;;;
  recover_dialog build ref ;;;
  ret ref.

(** The task around it. *)
Definition run_build (build : nat) (user_id channel : pystr) : M MWorld Exn unit :=
  try_except
    (let! ref := build_runner build user_id channel in set_task build (Built ref))
    (fun e => set_task build (if is_exception e then BuildFailed e else BuildCancelled)).

(** [_drop_preempted]; [pause] is its await. *)
Definition drop_preempted (ref : nat) : M MWorld Exn unit :=
  let! d := actor ref (fun r => dlg_id (r_dialog r)) in
  modify (fun w => set_mw_mgr
    (set_mg_runners (dict_pop d (mg_runners (mw_mgr w)))
      (set_mg_builds (filter (fun kb => finished_build (state_of kb.2 w) <> Some ref) (mg_builds (mw_mgr w)))
        (mw_mgr w))) w) ;;;
  detach_surface ref ;;;
  except_exception (let! _ := await_actor ref (stand_down config others) in ret tt) (fun _ => ret tt).

(** [_replace_retired] *)
Definition replace_retired (key : pystr * pystr) : M MWorld Exn unit :=
  let! build := mgr (fun m => dict_get key (mg_builds m)) in
  let! state := match build with Some b => task_of b | None => ret None end in
  match finished_build state with
  | None => ret tt
  | Some ref =>
      let! answers := await_actor ref (can_still_answer others) in
      if answers then ret tt else drop_preempted ref
  end.

(** [await asyncio.shield(build)].  The caller that created the task sees it
    run to its end, unless it is cancelled first: then the task runs on beside
    it.  Another caller resumes when the task is done, or when it is cancelled
    itself. *)
Definition await_build (ours : bool) (user_id channel : pystr) (build : nat) : M MWorld Exn nat :=
  (if ours then
     let! k := gets mw_tick in
     if interrupted k then m_yield else run_build build user_id channel
   else
     let! state := task_of build in
     if is_done state then ret tt else m_yield) ;;;
  let! state := task_of build in
  match state with
  | Some (Built ref) => ret ref
  | Some (BuildFailed e) => raise e
  | _ => raise CancelledError
  end.

(** [get_or_create_runner]; the lock around the map is never held across an
    await. *)
Definition forget_dead_build (key : pystr * pystr) (build : nat) : M MWorld Exn unit :=
  modify (fun w =>
    if is_done (state_of build w) && bool_decide (finished_build (state_of build w) = None) &&
       bool_decide (dict_get key (mg_builds (mw_mgr w)) = Some build)
    then set_mw_mgr (set_mg_builds (dict_pop key (mg_builds (mw_mgr w))) (mw_mgr w)) w
    else w).
Definition get_or_create_runner (user_id channel : pystr) : M MWorld Exn nat :=
  let key := (user_id, channel) in
  replace_retired key ;;;
  let! known := mgr (fun m => dict_get key (mg_builds m)) in
  let! ' (ours, build) :=
    match known with
    | Some build => ret (false, build)
    | None =>
        let! build := gets (fun w => length (mw_tasks w)) in
        modify (fun w => set_mw_tasks (mw_tasks w ++ [{| bt_user_id := user_id; bt_channel := channel;
                                                         bt_state := Building false |}]) w) ;;;
        set_mgr (fun m => set_mg_builds (dict_set key build (mg_builds m)) m) ;;;
        ret (true, build)
    end in
  let! ref := try_except (await_build ours user_id channel build)
                (fun e => forget_dead_build key build ;;; raise e) in
  when ours (attach_surface ref) ;;;
  ret ref.

(** ** Work nobody asked this process to do *)

(** [_held_elsewhere] *)
Definition held_elsewhere (dialog_ids : gset pystr) : M MWorld Exn (gset pystr) :=
  if decide (dialog_ids = ∅) then ret ∅
  else
    let! now := gets mw_now in
    let stale_before := (now - oc_stale_after_seconds ownership)%Z in
    or_default dialog_ids
      (m_yield ;;;
       on_conn (read_session (on_table
         (ClaimStore.held_elsewhere dialog_ids (oc_node_id ownership) stale_before)))).

(** [_runner_for_background] *)
Definition find_dialog (user_id channel : pystr) : M MWorld Exn Dialog :=
  m_yield ;;;
  let! now := gets mw_now in
  let! new_id := (fun w => (Ok (uuid4_hex (mw_ids w)), set_mw_ids (mw_ids w + 1)%N w)) in
  on_conn (ClaimStore.get_or_create [] new_id now user_id channel).
Definition runner_for_background (user_id channel : pystr) : M MWorld Exn (option nat) :=
  let! dialog := find_dialog user_id channel in
  let! existing := mgr (fun m => dict_get (dlg_id dialog) (mg_runners m)) in
  let! retired := match existing with
                  | Some ref => actor ref (fun r => r_stood_down r || r_preempted r)
                  | None => ret true
                  end in
  match existing, retired with
  | Some ref, false => ret (Some ref)
  | _, _ =>
      let! elsewhere := held_elsewhere {[dlg_id dialog]} in
      if decide (elsewhere = ∅) then
        let! ref := get_or_create_runner user_id channel in ret (Some ref)
      else ret None
  end.

Definition promote_collection (user_id channel exchange_id : pystr) : M MWorld Exn unit :=
  let! ref := runner_for_background user_id channel in
  match ref with
  | None => ret tt
  | Some ref => await_actor ref (promote_collected exchange_id)
  end.
Definition wake (user_id channel title prompt cron_job_id : pystr) : M MWorld Exn WakeOutcome.t :=
  let! ref := runner_for_background user_id channel in
  match ref with
  | None => ret WakeOutcome.NOT_OURS
  | Some ref =>
      let! started := await_actor ref (Actor.wake config others title prompt cron_job_id) in
      ret (if started : bool then WakeOutcome.DELIVERED else WakeOutcome.LIMITED)
  end.

(** ** The heartbeat *)

Definition start : M MWorld Exn unit :=
  let! running := mgr mg_heartbeat in
  let! now := gets mw_monotonic in
  when (negb running) (set_mgr (set_mg_beat true (Some now))).

(** [_beat_once]; the time limit of a beat cuts it at an await. *)
Definition cut_when_overdue : M MWorld Exn unit :=
  let! k := gets mw_tick in if overdue k then raise CancelledError else ret tt.
Fixpoint claims_of (refs : list nat) : M MWorld Exn (list DialogClaim) :=
  match refs with
  | [] => ret []
  | ref :: refs =>
      let! claim := actor ref r_claim in let! claims := claims_of refs in ret (claim :: claims)
  end.
Definition beat_once : M MWorld Exn unit :=
  let! runners := mgr (fun m => dict_values (mg_runners m)) in
  match runners with
  | [] => ret tt
  | _ =>
      let! claims := claims_of runners in
      m_yield ;;;
      cut_when_overdue ;;;
      let! now := gets mw_now in
      let! kept := on_conn (write_session (on_table (ClaimStore.heartbeat now claims))) in
      for_each runners (fun ref =>
        let! d := actor ref (fun r => dlg_id (r_dialog r)) in
        if decide (d ∈ kept) then ret tt else drop_preempted ref ;;; cut_when_overdue)
  end ;;;
  let! now := gets mw_monotonic in
  set_mgr (fun m => set_mg_beat (mg_heartbeat m) (Some now) m).

(** [_beat_guarded] and [_run_heartbeat] over [n] beats *)
Definition beat_guarded : M MWorld Exn unit :=
  try_except beat_once (fun e =>
    if is_exception e then ret tt
    else let! k := gets mw_tick in if overdue k then ret tt else raise e).
Fixpoint run_heartbeat (n : nat) : M MWorld Exn unit :=
  match n with
  | O => ret tt
  | S n => m_yield ;;; beat_guarded ;;; run_heartbeat n
  end.

(** [heartbeat_fresh] *)
Definition heartbeat_fresh (w : MWorld) : bool :=
  match mg_last_beat (mw_mgr w), mg_runners (mw_mgr w) with
  | None, _ | _, [] => true
  | Some last, _ => (mw_monotonic w - last <? oc_stale_after_seconds ownership)%Z
  end.

(** ** Starting up *)

Definition list_stranded : M MWorld Exn (list pystr) :=
  or_default [] (m_yield ;;; on_conn (read_session (fun db =>
    on_table (list_stranded_dialog_ids (table db)) db))).
Definition orphaned_tasks : M MWorld Exn (list Task) :=
  or_default [] (m_yield ;;; on_conn (read_session (on_table (Sql.list_orphaned None)))).
Definition undelivered_tasks : M MWorld Exn (list Task) :=
  or_default [] (m_yield ;;; on_conn (read_session (on_table (Sql.list_undelivered None)))).

(** [_adopt] *)
Definition adopt (d : pystr) : M MWorld Exn bool :=
  or_default false
    (m_yield ;;;
     let! dialog := on_conn (ClaimStore.get d) in
     let! _ := get_or_create_runner (dlg_user_id dialog) (dlg_channel dialog) in
     ret true).

(** [recover_interrupted] *)
Definition recover_interrupted : M MWorld Exn unit :=
  let! stranded := list_stranded in
  let! orphaned := orphaned_tasks in
  let! undelivered := undelivered_tasks in
  let candidates : gset pystr :=
    list_to_set stranded ∪ list_to_set (tk_dialog_id <$> (orphaned ++ undelivered)) in
  let! elsewhere := held_elsewhere candidates in
  for_each (set_order (candidates ∖ elsewhere)) (fun d => let! _ := adopt d in ret tt).

(** ** Shutting down *)

(** [_release] *)
Definition release (ref : nat) : M MWorld Exn unit :=
  let! claim := actor ref r_claim in
  except_exception
    (m_yield ;;;
     on_conn (write_session (on_table
       (ClaimStore.release (cl_dialog_id claim) (cl_owner claim) (cl_generation claim)))))
    (fun _ => ret tt).

(** [build.cancel()], when it is not done, then awaited with whatever it
    raises suppressed. *)
Definition cancel_build (build : nat) : M MWorld Exn unit :=
  let! state := task_of build in
  if is_done state then ret tt
  else
    set_task build (Building true) ;;;
    try_except m_yield (fun _ => ret tt).

Definition stop_runner (ref : nat) : M MWorld Exn unit :=
  detach_surface ref ;;;
  except_exception (await_actor ref (stop config others)) (fun _ => ret tt) ;;;
  release ref.

(** [evict] *)
Definition evict (user_id channel : pystr) : M MWorld Exn unit :=
  let key := (user_id, channel) in
  let! build := mgr (fun m => dict_get key (mg_builds m)) in
  match build with
  | None => ret tt
  | Some build =>
      set_mgr (fun m => set_mg_builds (dict_pop key (mg_builds m)) m) ;;;
      cancel_build build ;;;
      let! state := task_of build in
      match finished_build state with
      | None => ret tt
      | Some ref =>
          let! d := actor ref (fun r => dlg_id (r_dialog r)) in
          set_mgr (fun m => set_mg_runners (dict_pop d (mg_runners m)) m) ;;;
          stop_runner ref
      end
  end.

(** [stop_all] *)
Definition stop_all : M MWorld Exn unit :=
  let! beating := mgr mg_heartbeat in
  when beating
    (try_except m_yield (fun e => if is_exception e then raise e else ret tt) ;;;
     set_mgr (fun m => set_mg_beat false (mg_last_beat m) m)) ;;;
  let! builds := mgr (fun m => dict_values (mg_builds m)) in
  let! runners := mgr (fun m => dict_values (mg_runners m)) in
  set_mgr (fun m => set_mg_runners [] (set_mg_builds [] m)) ;;;
  for_each builds cancel_build ;;;
  for_each runners stop_runner.
End Manager.
