(* ===== verification/ManagerLaws.v ===== *)
(** * Laws of the registry of actors ([ConversationManager], [agent/runner.py])

    What every operation keeps of the registry, what recovery and the
    heartbeat do, what a shutdown leaves, and where actors get lost. *)
From S2P Require Import Prelude PyStr Clock Sql Dict Domain UnitOfWork Broadcast TaskStore ExchangeStore MessageStore ClaimStore Compactor RunnerText RunnerState Outbox Pump Answers Actor Cron Manager.

(** ** Who an actor is *)

(** An actor keeps its dialog and its claim for life, and once stood down it
    stays so. *)
Definition same_actor (r r' : Runner) : Prop :=
  r_dialog r' = r_dialog r /\ r_claim r' = r_claim r /\ (r_stood_down r = true -> r_stood_down r' = true).
#[export] Instance same_actor_preorder : PreOrder same_actor.
Proof.
  split; [intros r; by split_and!|]. intros a b c (H1 & H2 & H3) (H4 & H5 & H6).
  split_and!; [congruence|congruence|by intros ?%H3%H6].
Qed.
Definition same_run (s s' : World) : Prop := same_actor (w_run s) (w_run s').
#[export] Instance same_run_preorder : PreOrder same_run.
Proof. split; [by intros s|]. intros a b c. unfold same_run. apply transitivity. Qed.

Section Identity.
Context (config : RunnerConfig) (others : nat -> World -> World).

(** The surroundings of an actor do not make it another one. *)
Record identity_kept : Prop := {
  ik_others k s : same_run s (others k s);
  ik_assemble dialog history : evolves same_run (cc_assemble (cfg_compactor config) dialog history);
  ik_aclose dialog : evolves same_run (cc_aclose (cfg_compactor config) dialog);
  ik_budget limits user : cfg_limits config = Some limits -> evolves same_run (lg_check_run_budget limits user) }.
Context (Hik : identity_kept).

Lemma ik_env : env_allows others same_run.
Proof. split; [apply (ik_others Hik)|..]; intros; unfold same_run; reflexivity. Qed.
Lemma ik_update f : (forall r, same_actor r (f r)) -> evolves same_run (update f).
Proof. intros Hf s. apply Hf. Qed.
Lemma ik_modify pid f : evolves same_run (modify_process pid f).
Proof.
  apply ik_update. intros r. destruct (dict_get pid (r_processes r)); [by split_and!|reflexivity].
Qed.
Lemma ik_broadcast event x : evolves same_run (broadcast_event event x).
Proof. intros s. unfold broadcast_event. destruct (broadcast _ _ _ _). by split_and!. Qed.
Lemma ik_delivery events t x : evolves same_run (new_delivery events t x).
Proof. intros s. by split_and!. Qed.
Lemma ik_uow {A} null (body : M World Exn A) : evolves same_run body -> evolves same_run (uow null body).
Proof.
  intros Hb s. unfold uow. destruct null; [apply Hb|]. case_match; [reflexivity|].
  set (s1 := set_conn _ s). specialize (Hb s1). change (same_run s1 (body s1).2) in Hb.
  assert (same_run s s1) as H1 by by split_and!.
  destruct (body s1) as [[a|e] s2]; cbn in Hb.
  - destruct (round_trip (conn_of s2)) as [[[]|e] c]; [destruct (active (conn_of s2))|];
      (etransitivity; [exact H1|]; etransitivity; [exact Hb|]; by split_and!).
  - etransitivity; [exact H1|]. etransitivity; [exact Hb|]. by split_and!.
Qed.
End Identity.

Ltac identity_step :=
  match goal with
  | |- evolves _ (bind _ _) => apply evolves_bind; [exact _| |intros ?]
  | |- evolves _ (ret _) => apply evolves_ret; exact _
  | |- evolves _ (raise _) => apply evolves_raise; exact _
  | |- evolves _ (gets _) => apply evolves_gets; exact _
  | |- evolves _ (runner _) => apply evolves_gets; exact _
  | |- evolves _ utc_now => apply evolves_gets; exact _
  | |- evolves _ dialog_id => apply evolves_gets; exact _
  | |- evolves _ fresh_id => eapply evolves_fresh; eapply ik_env; eassumption
  | |- evolves _ (draw_ids _) => eapply evolves_draw; eapply ik_env; eassumption
  | |- evolves _ (yield _) => eapply evolves_yield; [exact _|eapply ik_env; eassumption]
  | |- evolves _ (on_conn _) => eapply evolves_conn; eapply ik_env; eassumption
  | |- evolves _ (db_read _ _) => eapply evolves_read; [exact _|eapply ik_env; eassumption]
  | |- evolves _ (db_write _ _) => eapply evolves_write; [exact _|eapply ik_env; eassumption]
  | |- evolves _ (broadcast_event _ _) => apply ik_broadcast
  | |- evolves _ (new_delivery _ _ _) => apply ik_delivery
  | |- evolves _ (try_except _ _) => apply evolves_try; [exact _| |intros ?]
  | |- evolves _ (except_exception _ _) => apply evolves_try; [exact _| |intros ?]
  | |- evolves _ (suppress _ _) => apply evolves_suppress; [exact _|]
  | |- evolves _ (when _ _) => apply evolves_when; [exact _|]
  | |- evolves _ (for_each _ _) => apply evolves_for_each; [exact _|intros ?]
  | |- evolves _ (modify_process _ _) => apply ik_modify
  | |- evolves _ (uow _ _) => apply ik_uow
  | |- evolves _ (locked _ _ _) => unfold locked
  | |- evolves _ (update _) => apply ik_update; intros ?; split_and!; done
  | |- evolves _ (match ?x with _ => _ end) => destruct x eqn:?
  end.

Section Identities.
Context (config : RunnerConfig) (others : nat -> World -> World) (Hik : identity_kept config others).

Lemma ik_send events x n : evolves same_run (send_events events x n).
Proof. revert n. induction events as [|e l IH]; intros n; cbn [send_events]; repeat identity_step. apply IH. Qed.
Lemma ik_flush_loop fuel : evolves same_run (flush_loop others fuel).
Proof.
  induction fuel as [|fuel IH]; cbn [flush_loop]; unfold stamp_delivery, tasks_mark_delivered;
    repeat (identity_step || apply ik_send || exact IH).
Qed.
Lemma ik_flush : evolves same_run (flush_deliveries others).
Proof. unfold flush_deliveries. repeat (identity_step || apply ik_flush_loop). Qed.
Lemma ik_persist message usage key : evolves same_run (persist config others message usage key).
Proof. unfold persist, messages_append. repeat identity_step. Qed.
Lemma ik_notice content x : evolves same_run (deliver_notice config others content x).
Proof.
  unfold deliver_notice, narrative_append, push_front, push_back. repeat (identity_step || apply ik_persist || apply ik_flush).
Qed.
Lemma ik_tariff_once key notice : evolves same_run (tariff_notice_once config others key notice).
Proof. unfold tariff_notice_once. repeat (identity_step || apply ik_notice). Qed.
Lemma ik_verdict : evolves same_run (run_budget_verdict config).
Proof. unfold run_budget_verdict. repeat identity_step. by eapply ik_budget. Qed.
Lemma ik_owns : evolves same_run (still_owns_dialog others).
Proof. unfold still_owns_dialog, claims_current_generation. repeat identity_step. Qed.
Lemma ik_prepare title prompt kind cron source :
  evolves same_run (prepare_process_task others title prompt kind cron source).
Proof. unfold prepare_process_task, tasks_add. repeat identity_step. Qed.
Lemma ik_status x status q : evolves same_run (exchanges_set_status others x status q).
Proof. unfold exchanges_set_status. repeat identity_step. Qed.
Lemma ik_assembled own : evolves same_run (assemble_narrative config others own).
Proof.
  unfold assemble_narrative, gather, live_exchange_ids, exchanges_list_live, trim_narrative.
  repeat (identity_step || (eapply ik_assemble; eassumption)).
Qed.
Lemma ik_create_process task branch built : evolves same_run (create_process task branch built).
Proof. unfold create_process. repeat identity_step. Qed.
Lemma ik_start_process task : evolves same_run (start_process task).
Proof. unfold start_process. repeat (identity_step || apply ik_create_process). Qed.
Lemma ik_answer_process task x : evolves same_run (create_answer_process config others task x).
Proof. unfold create_answer_process. repeat (identity_step || apply ik_assembled || apply ik_create_process). Qed.
Lemma ik_start_answer exchange message key epoch notify :
  evolves same_run (start_answer config others exchange message key epoch notify).
Proof.
  unfold start_answer, unit_of_work.
  repeat (identity_step || apply ik_owns || apply ik_verdict || apply ik_tariff_once || apply ik_prepare
          || apply ik_status || apply ik_answer_process).
Qed.
Lemma ik_sweep : evolves same_run (sweep_unowned_open config others).
Proof.
  unfold sweep_unowned_open, exchanges_list_unowned_open, resume_open_exchange, exchanges_get, reject_for_limit.
  repeat (identity_step || apply ik_notice || apply ik_start_answer).
Qed.
Lemma ik_fail_orphaned task error : evolves same_run (fail_orphaned others task error).
Proof. unfold fail_orphaned, tasks_mark_failed, push_back. repeat (identity_step || apply ik_flush). Qed.
Lemma ik_restart task : evolves same_run (restart_task config others task).
Proof.
  unfold restart_task, start_orphaned, admit_orphaned, exchange_awaits_user, set_status_if_there, exchanges_get,
    tasks_mark_done.
  repeat (identity_step || apply ik_verdict || apply ik_fail_orphaned || apply ik_start_process
          || apply ik_status || apply ik_answer_process).
Qed.
Lemma ik_wake title prompt cron : evolves same_run (Actor.wake config others title prompt cron).
Proof.
  unfold Actor.wake, publish_tariff_cron_note, publish_cron_limit_note.
  repeat (identity_step || apply ik_verdict || apply ik_tariff_once || apply ik_notice || apply ik_prepare
          || apply ik_start_process).
Qed.
Lemma ik_can_answer : evolves same_run (can_still_answer others).
Proof. unfold can_still_answer. repeat (identity_step || apply ik_owns). Qed.
Lemma ik_stop : evolves same_run (stop config others).
Proof. unfold stop. repeat identity_step. by eapply ik_aclose. Qed.
Lemma ik_stand_down : evolves same_run (stand_down config others).
Proof. unfold stand_down. repeat (identity_step || apply ik_stop). Qed.
Lemma ik_put c : evolves same_run (put_command c).
Proof. unfold put_command. repeat identity_step. Qed.
End Identities.

(** ** The registry *)

(** Every entry of the registry leads to the actor of its dialog, every build
    to the task of its key, and every finished task to an actor of the person
    and channel it was made for. *)
Record registry_ok (w : MWorld) : Prop := {
  ro_runners d ref : (d, ref) ∈ mg_runners (mw_mgr w) ->
    exists r, mw_actors w !! ref = Some r /\ dlg_id (r_dialog r) = d;
  ro_builds k b : (k, b) ∈ mg_builds (mw_mgr w) ->
    exists t, mw_tasks w !! b = Some t /\ (bt_user_id t, bt_channel t) = k;
  ro_tasks b t ref : mw_tasks w !! b = Some t -> bt_state t = Built ref ->
    exists r, mw_actors w !! ref = Some r /\ dlg_user_id (r_dialog r) = bt_user_id t /\
      dlg_channel (r_dialog r) = bt_channel t }.

(** Actors and tasks stay, as who they are. *)
Record later (w w' : MWorld) : Prop := {
  la_actors ref r : mw_actors w !! ref = Some r ->
    exists r', mw_actors w' !! ref = Some r' /\ same_actor r r';
  la_tasks b t : mw_tasks w !! b = Some t ->
    exists t', mw_tasks w' !! b = Some t' /\ bt_user_id t' = bt_user_id t /\ bt_channel t' = bt_channel t }.
Definition safe (w w' : MWorld) : Prop := later w w' /\ (registry_ok w -> registry_ok w').

#[export] Instance safe_preorder : PreOrder safe.
Proof.
  split.
  - intros w. split; [|done]. split; [intros ref r H; by exists r|intros b t H; by exists t].
  - intros a b c [[Ha1 Ht1] Hr1] [[Ha2 Ht2] Hr2]. split; [split|by intros ?%Hr1%Hr2].
    + intros ref r (r' & Hr' & Hs)%Ha1. destruct (Ha2 ref r' Hr') as (r2 & H2 & Hs2). exists r2.
      split; [done|]. by transitivity r'.
    + intros b0 t (t' & Ht' & Hu & Hc)%Ht1. destruct (Ht2 b0 t' Ht') as (t2 & H2 & Hu2 & Hc2). exists t2.
      split_and!; congruence.
Qed.

(** Moving the database, the clocks and the ids. *)
Lemma safe_aside w w' :
  mw_actors w' = mw_actors w -> mw_tasks w' = mw_tasks w -> mw_mgr w' = mw_mgr w -> safe w w'.
Proof.
  intros Ha Ht Hm. split.
  - split; [intros ref r H; exists r; by rewrite Ha|intros b t H; exists t; by rewrite Ht].
  - intros [H1 H2 H3]. split; rewrite ?Ha, ?Ht, ?Hm; done.
Qed.

(** Replacing an actor by its later self. *)
Lemma safe_actor w ref s r :
  mw_actors w !! ref = Some r -> same_actor r (w_run s) -> safe w (leave_world ref s w).
Proof.
  intros Hr Hs.
  assert (forall ref0 r0, mw_actors w !! ref0 = Some r0 ->
    exists r', <[ref := w_run s]> (mw_actors w) !! ref0 = Some r' /\ same_actor r0 r') as Hl.
  { intros ref0 r0 Hr0. destruct (decide (ref0 = ref)) as [->|Hne].
    - exists (w_run s). rewrite list_lookup_insert_eq by (by eapply lookup_lt_Some). simplify_eq. done.
    - exists r0. rewrite list_lookup_insert_ne by done. done. }
  split; [split; [exact Hl|intros b t H; by exists t]|]. intros [H1 H2 H3]. split; cbn.
  - intros d ref0 (r0 & Hr0 & <-)%H1. destruct (Hl ref0 r0 Hr0) as (r' & Hr' & Hd & _). exists r'. by rewrite Hd.
  - exact H2.
  - intros b t ref0 Hb Hst. destruct (H3 b t ref0 Hb Hst) as (r0 & Hr0 & Hu & Hc).
    destruct (Hl ref0 r0 Hr0) as (r' & Hr' & Hd & _). exists r'. by rewrite Hd.
Qed.

(** A new actor, registered for its dialog. *)
Definition with_actor (r : Runner) (w : MWorld) : MWorld :=
  set_mw_mgr (set_mg_runners (dict_set (dlg_id (r_dialog r)) (length (mw_actors w)) (mg_runners (mw_mgr w))) (mw_mgr w))
    (set_mw_actors (mw_actors w ++ [r]) w).
Lemma safe_new_actor w r : safe w (with_actor r w).
Proof.
  assert (forall ref r0, mw_actors w !! ref = Some r0 -> (mw_actors w ++ [r]) !! ref = Some r0) as Hl
    by (intros; by apply lookup_app_l_Some).
  split; [split; cbn; [intros ref r0 H; exists r0; split; [auto|reflexivity]|intros b t H; by exists t]|].
  intros [H1 H2 H3]. split; cbn.
  - intros d ref [[= -> ->]|(r0 & Hr0 & Hd0)%H1]%elem_of_dict_set.
    + exists r. split; [|done]. by apply list_lookup_middle.
    + exists r0. auto.
  - exact H2.
  - intros b t ref Hb Hst. destruct (H3 b t ref Hb Hst) as (r0 & Hr0 & ?). exists r0. auto.
Qed.

(** Forgetting entries. *)
Lemma safe_forget w runners builds beat :
  runners ⊆ mg_runners (mw_mgr w) -> builds ⊆ mg_builds (mw_mgr w) ->
  mg_runners beat = runners -> mg_builds beat = builds -> safe w (set_mw_mgr beat w).
Proof.
  intros Hr Hb <- <-. split; [split; [intros ref r H; by exists r|intros b t H; by exists t]|].
  intros [H1 H2 H3]. split; cbn; [|by intros k b ?%Hb%H2|exact H3]. by intros d ref ?%Hr%H1.
Qed.

(** A task moves on; when it is done its actor is there. *)
Lemma safe_task w b st :
  (forall t ref, mw_tasks w !! b = Some t -> st = Built ref ->
     exists r, mw_actors w !! ref = Some r /\ dlg_user_id (r_dialog r) = bt_user_id t /\
       dlg_channel (r_dialog r) = bt_channel t) ->
  safe w (set_mw_tasks (alter (set_bt_state st) b (mw_tasks w)) w).
Proof.
  intros Hst.
  assert (forall b0 t, mw_tasks w !! b0 = Some t ->
    exists t', alter (set_bt_state st) b (mw_tasks w) !! b0 = Some t' /\ bt_user_id t' = bt_user_id t /\ bt_channel t' = bt_channel t) as Hl.
  { intros b0 t Ht. destruct (decide (b0 = b)) as [->|Hne].
    - rewrite list_lookup_alter_eq, Ht. by eexists.
    - rewrite list_lookup_alter_ne by done. by exists t. }
  split; [split; cbn; [intros ref r H; by exists r|exact Hl]|]. intros [H1 H2 H3]. split; cbn; [exact H1| |].
  - intros k b0 (t & Ht & <-)%H2. destruct (Hl b0 t Ht) as (t1 & Ht1 & Hu & Hc). exists t1. by rewrite Hu, Hc.
  - intros b0 t ref. destruct (decide (b0 = b)) as [->|Hne].
    + rewrite list_lookup_alter_eq. destruct (mw_tasks w !! b) as [t0|] eqn:Ht0; [|done]. cbn. intros [= <-] Hb.
      by apply (Hst t0).
    + rewrite list_lookup_alter_ne by done. apply H3.
Qed.

(** A new task, registered under its key. *)
Lemma safe_new_task w u c :
  safe w (set_mw_mgr (set_mg_builds (dict_set (u, c) (length (mw_tasks w)) (mg_builds (mw_mgr w))) (mw_mgr w))
    (set_mw_tasks (mw_tasks w ++ [{| bt_user_id := u; bt_channel := c; bt_state := Building false |}]) w)).
Proof.
  set (t0 := {| bt_user_id := u; bt_channel := c; bt_state := Building false |}).
  assert (forall b t, mw_tasks w !! b = Some t -> (mw_tasks w ++ [t0]) !! b = Some t) as Hl
    by (intros; by apply lookup_app_l_Some).
  split; [split; cbn; [intros ref r H; by exists r|intros b t H; exists t; auto]|].
  intros [H1 H2 H3]. split; cbn; [exact H1| |].
  - intros k b [[= -> ->]|(t & Ht & Hk')%H2]%elem_of_dict_set.
    + exists t0. split; [|done]. by apply list_lookup_middle.
    + exists t. auto.
  - intros b t ref [Hb|[_ Hb]]%lookup_app_Some Hst; [by eapply H3|].
    apply list_lookup_singleton_Some in Hb as [_ <-]. done.
Qed.

(** ** The operations keep the registry *)

Section Registry.
Context (config : RunnerConfig) (ownership : OwnershipConfig) (surface : DialogSurface).
Context (others : nat -> World -> World) (m_others : nat -> MWorld -> MWorld).
Context (interrupted overdue : nat -> bool) (set_order : gset pystr -> list pystr).

(** The rest of the process keeps the registry too. *)
Record kept_around : Prop := {
  ka_actors : identity_kept config others;
  ka_others k w : safe w (m_others k w);
  ka_attach ref : evolves safe (ds_attach surface ref);
  ka_detach ref : evolves safe (ds_detach surface ref) }.
Context (Haround : kept_around).

Abbreviation pause := (m_yield m_others interrupted).
Abbreviation get_runner := (get_or_create_runner config ownership surface others m_others interrupted).

Lemma safe_yield : evolves safe pause.
Proof.
  intros w. unfold m_yield.
  assert (safe w (m_others (mw_tick w) (set_mw_tick (S (mw_tick w)) w))) as H.
  { etransitivity; [by apply (safe_aside w (set_mw_tick (S (mw_tick w)) w))|apply (ka_others Haround)]. }
  by destruct (interrupted (mw_tick w)).
Qed.
Lemma safe_conn {A} (m : M (Conn Db) Exn A) : evolves (S := MWorld) safe (on_conn m).
Proof. intros w. unfold on_conn. destruct (m (conn_of w)). by apply safe_aside. Qed.
Lemma safe_fresh : evolves safe (fun w => (Ok (E := Exn) (uuid4_hex (mw_ids w)), set_mw_ids (mw_ids w + 1)%N w)).
Proof. intros w. by apply safe_aside. Qed.
Lemma safe_uow {A} null (body : M MWorld Exn A) : evolves safe body -> evolves safe (uow null body).
Proof.
  intros Hb w. unfold uow. destruct null; [apply Hb|]. case_match; [reflexivity|].
  set (s1 := set_conn _ w). specialize (Hb s1).
  assert (safe w s1) as H1 by by apply safe_aside.
  destruct (body s1) as [[a|e] s2]; cbn in Hb.
  - destruct (round_trip (conn_of s2)) as [[[]|e] c]; [destruct (active (conn_of s2))|];
      (etransitivity; [exact H1|]; etransitivity; [exact Hb|]; by apply safe_aside).
  - etransitivity; [exact H1|]. etransitivity; [exact Hb|]. by apply safe_aside.
Qed.
Lemma safe_on_actor {A} ref (m : M World Exn A) : evolves same_run m -> evolves safe (on_actor ref m).
Proof.
  intros Hm w. unfold on_actor. destruct (mw_actors w !! ref) as [r|] eqn:Hr; [|reflexivity].
  specialize (Hm (enter_world r w)). destruct (m (enter_world r w)) as [a s]. by eapply safe_actor.
Qed.
Lemma safe_read_actor {A} ref (f : Runner -> A) : evolves safe (actor ref f).
Proof. apply safe_on_actor. apply evolves_gets. exact _. Qed.
Lemma safe_set_beat on v : evolves (E := Exn) safe (set_mgr (set_mg_beat on v)).
Proof. intros w. by eapply safe_forget. Qed.

Ltac safe_step :=
  match goal with
  | |- evolves _ (bind _ _) => apply evolves_bind; [exact _| |intros ?]
  | |- evolves _ (ret _) => apply evolves_ret; exact _
  | |- evolves _ (raise _) => apply evolves_raise; exact _
  | |- evolves _ (gets _) => apply evolves_gets; exact _
  | |- evolves _ (mgr _) => apply evolves_gets; exact _
  | |- evolves _ (task_of _) => apply evolves_gets; exact _
  | |- evolves _ (m_yield _ _) => apply safe_yield
  | |- evolves _ (on_conn _) => apply safe_conn
  | |- evolves _ (uow _ _) => apply safe_uow
  | |- evolves _ (actor _ _) => apply safe_read_actor
  | |- evolves _ (fun w => (Ok (uuid4_hex _), _)) => apply safe_fresh
  | |- evolves _ (set_mgr (set_mg_beat _ _)) => apply safe_set_beat
  | |- evolves _ (try_except _ _) => apply evolves_try; [exact _| |intros ?]
  | |- evolves _ (except_exception _ _) => apply evolves_try; [exact _| |intros ?]
  | |- evolves _ (or_default _ _) => apply evolves_try; [exact _| |intros ?]
  | |- evolves _ (when _ _) => apply evolves_when; [exact _|]
  | |- evolves _ (for_each _ _) => apply evolves_for_each; [exact _|intros ?]
  | |- evolves _ (match ?x with _ => _ end) => destruct x eqn:?
  end.

Lemma safe_await_actor {A} ref (m : M World Exn A) :
  evolves same_run m -> evolves safe (await_actor m_others interrupted ref m).
Proof. intros Hm. unfold await_actor. repeat (safe_step || by apply safe_on_actor). Qed.
Lemma safe_attach ref : evolves safe (attach_surface surface ref).
Proof. unfold attach_surface. repeat (safe_step || apply (ka_attach Haround)). Qed.
Lemma safe_detach ref : evolves safe (detach_surface surface ref).
Proof. unfold detach_surface. repeat (safe_step || apply (ka_detach Haround)). Qed.
Lemma safe_build_await b : evolves safe (build_await m_others interrupted b).
Proof. unfold build_await. repeat safe_step. Qed.

Lemma safe_recover b ref : evolves safe (recover_dialog config others m_others interrupted b ref).
Proof.
  unfold recover_dialog, reopen_stranded, for_recovery, restart_orphans. pose proof (ka_actors Haround).
  repeat (safe_step || apply safe_build_await
          || (apply safe_await_actor; first [by apply ik_restart|by apply ik_sweep])
          || (apply safe_on_actor; by eapply ik_put)).
Qed.

Lemma safe_drop ref : evolves safe (drop_preempted config surface others m_others interrupted ref).
Proof.
  unfold drop_preempted. pose proof (ka_actors Haround).
  repeat (safe_step || apply safe_detach || (apply safe_await_actor; by apply ik_stand_down)).
  intros w. eapply safe_forget; [| |done|done]; cbn.
  - intros [d ref'] Hin. by apply elem_of_dict_pop in Hin as [_ Hin].
  - intros kb Hin. by apply list_elem_of_filter in Hin as [_ Hin].
Qed.

(** Building: the actor it ends with is of the person and channel asked for. *)
Definition actor_of (u c : pystr) (ref : nat) (w : MWorld) : Prop :=
  exists r, mw_actors w !! ref = Some r /\ dlg_user_id (r_dialog r) = u /\ dlg_channel (r_dialog r) = c.
Lemma actor_of_later u c ref w w' : safe w w' -> actor_of u c ref w -> actor_of u c ref w'.
Proof.
  intros [[Ha _] _] (r & Hr & Hu & Hc). destruct (Ha ref r Hr) as (r' & Hr' & Hd & _). exists r'. by rewrite Hd.
Qed.

Lemma dialog_result hidden id now u c (conn conn' : Conn Db) dialog :
  ClaimStore.get_or_create hidden id now u c conn = (Ok dialog, conn') ->
  dlg_user_id dialog = u /\ dlg_channel dialog = c.
Proof.
  unfold ClaimStore.get_or_create. intros (row & c1 & Hread & Hrest)%bind_result.
  destruct row as [row|].
  - injection Hrest as <- <-. apply read_result in Hread as (db & Hrow).
    unfold on_table, gets in Hrow. cbn in Hrow. injection Hrow as Hrow. unfold find_row in Hrow.
    by apply head_filter_Some in Hrow as [_ [? ?]].
  - apply bind_result in Hrest as (? & c2 & _ & Hw). apply write_result in Hw as (db & Hrow).
    unfold on_table, insert_dialog in Hrow. case_decide; cbn in Hrow; [done|]. by injection Hrow as <-.
Qed.

(** From a state where [P] holds the registry moves safely, and a result
    satisfies [Q]. *)
Definition steps {A} (P : MWorld -> Prop) (m : M MWorld Exn A) (Q : A -> MWorld -> Prop) : Prop :=
  forall w, P w -> safe w (m w).2 /\ forall a w', m w = (Ok a, w') -> Q a w'.
Lemma steps_bind {A B} P Q R (m : M MWorld Exn A) (k : A -> M MWorld Exn B) :
  steps P m Q -> (forall a, steps (Q a) (k a) R) -> steps P (bind m k) R.
Proof.
  intros Hm Hk w Hw. destruct (Hm w Hw) as [Hs Hq]. unfold bind. destruct (m w) as [[a|e] w1]; [|done].
  destruct (Hk a w1 (Hq a w1 eq_refl)) as [Hs2 Hq2]. split; [by etransitivity|done].
Qed.
Definition stable (P : MWorld -> Prop) : Prop := forall w w', safe w w' -> P w -> P w'.
Lemma steps_evolves {A} P (m : M MWorld Exn A) : stable P -> evolves safe m -> steps P m (fun _ => P).
Proof. intros HP Hm w Hw. specialize (Hm w). split; [done|]. intros a w' Heq. rewrite Heq in Hm. by eapply HP. Qed.
Lemma steps_intro {A} P Q (m : M MWorld Exn A) :
  evolves safe m -> (forall w a w', P w -> m w = (Ok a, w') -> Q a w') -> steps P m Q.
Proof. intros Hm Hq w Hw. split; [apply Hm|]. intros a w' Heq. by eapply Hq. Qed.
Lemma steps_ret {A} (a : A) (Q : A -> MWorld -> Prop) : steps (Q a) (ret a) Q.
Proof. intros w Hw. split; [reflexivity|]. by intros ? ? [= <- <-]. Qed.
Lemma stable_pure (P : Prop) : stable (fun _ => P).
Proof. by intros w w' _. Qed.
Lemma stable_actor_of u c ref : stable (actor_of u c ref).
Proof. intros w w'. apply actor_of_later. Qed.

Lemma uow_result {A} null (body : M MWorld Exn A) w a w' :
  uow null body w = (Ok a, w') -> exists s s', body s = (Ok a, s').
Proof.
  unfold uow. destruct null; [by eexists _, _|]. case_match; [done|].
  match goal with |- context [body ?x] => destruct (body x) as [[a'|e] s2] eqn:Hb end; [|done].
  destruct (round_trip (conn_of s2)) as [[u|e] c]; [|done].
  destruct (active (conn_of s2)); intros [= -> _]; by eexists _, _.
Qed.

Lemma build_runner_steps b u c :
  steps (fun _ => True) (build_runner config ownership others m_others interrupted b u c)
    (fun ref => actor_of u c ref).
Proof.
  unfold build_runner.
  eapply steps_bind; [apply steps_evolves; [apply stable_pure|apply safe_build_await]|intros ?]. cbv beta.
  eapply steps_bind with (Q := fun dc _ => dlg_user_id dc.1 = u /\ dlg_channel dc.1 = c).
  - apply steps_intro; [repeat safe_step|].
    intros w [dialog claim] w' _ (s1 & s2 & Hb)%uow_result.
    apply bind_result in Hb as (now & s3 & _ & Hb). apply bind_result in Hb as (id & s4 & _ & Hb).
    apply bind_result in Hb as (dialog' & s5 & Hd & Hb). apply bind_result in Hb as (claim' & s6 & _ & Hb).
    injection Hb as <- <- _. unfold on_conn in Hd.
    destruct (ClaimStore.get_or_create _ _ _ _ _ _) as [r conn] eqn:Hg. injection Hd as -> _.
    by eapply dialog_result.
  - intros [dialog claim]. cbn [fst].
    eapply steps_bind; [apply steps_evolves; [apply stable_pure|apply safe_build_await]|intros ?].
    eapply steps_bind; [apply steps_evolves; [apply stable_pure|apply safe_conn]|intros history]. cbv beta.
    eapply steps_bind with (Q := fun ref w => (dlg_user_id dialog = u /\ dlg_channel dialog = c) /\ ref = length (mw_actors w)).
    { intros w Hw. split; [reflexivity|]. by intros ref w' [= <- <-]. }
    intros ref w [[Hu Hc] ->]. set (r := new_runner dialog claim history).
    pose proof (safe_new_actor w r) as Hnew.
    assert (actor_of u c (length (mw_actors w)) (with_actor r w)) as Hact.
    { exists r. split; [by apply list_lookup_middle|done]. }
    destruct (steps_bind _ _ (fun ref => actor_of u c ref) (recover_dialog config others m_others interrupted b (length (mw_actors w)))
      (fun _ => ret (length (mw_actors w)))
      (steps_evolves _ _ (stable_actor_of u c _) (safe_recover b _))
      (fun _ => steps_ret _ _) (with_actor r w) Hact) as [Hs Hq].
    split; [by etransitivity|exact Hq].
Qed.

Definition made_for (u c : pystr) (b : nat) (w : MWorld) : Prop :=
  exists t, mw_tasks w !! b = Some t /\ bt_user_id t = u /\ bt_channel t = c.
Lemma stable_made_for u c b : stable (made_for u c b).
Proof.
  intros w w' [[_ Ht] _] (t & Hb & Hu & Hc). destruct (Ht b t Hb) as (t' & Hb' & Hu' & Hc'). exists t'.
  split_and!; congruence.
Qed.

Lemma safe_set_task u c b st w :
  made_for u c b w -> (forall ref, st = Built ref -> actor_of u c ref w) -> safe w (set_task b st w).2.
Proof.
  intros (t & Hb & Hu & Hc) Hst. apply safe_task. intros t' ref Hb' Hbuilt. simplify_eq.
  destruct (Hst ref eq_refl) as (r & Hr & ? & ?). by exists r.
Qed.

Lemma run_build_steps u c b :
  steps (made_for u c b) (run_build config ownership others m_others interrupted b u c) (fun _ => made_for u c b).
Proof.
  intros w Hw. unfold run_build, try_except.
  destruct (build_runner_steps b u c w I) as [Hs Hq].
  unfold bind. destruct (build_runner _ _ _ _ _ b u c w) as [[ref|e] w1] eqn:Hb; cbn in Hs.
  - specialize (Hq ref w1 eq_refl).
    assert (made_for u c b w1) as Hw1 by by eapply stable_made_for.
    assert (safe w1 (set_task b (Built ref) w1).2) as H2 by (eapply safe_set_task; [exact Hw1|intros ref0 Heq; injection Heq as <-; exact Hq]).
    split; [by etransitivity|]. intros ? w' Heq. injection Heq as _ <-. exact (stable_made_for _ _ _ _ _ H2 Hw1).
  - assert (made_for u c b w1) as Hw1 by by eapply stable_made_for.
    assert (safe w1 (set_task b (if is_exception e then BuildFailed e else BuildCancelled) w1).2) as H2
      by (eapply safe_set_task; [exact Hw1|by destruct (is_exception e)]).
    split; [by etransitivity|]. intros ? w' Heq. injection Heq as _ <-. exact (stable_made_for _ _ _ _ _ H2 Hw1).
Qed.

Lemma await_build_steps u c b ours :
  steps (fun w => made_for u c b w /\ registry_ok w)
    (await_build config ownership others m_others interrupted ours u c b) (fun ref => actor_of u c ref).
Proof.
  unfold await_build. eapply steps_bind with (Q := fun _ w => made_for u c b w /\ registry_ok w).
  - assert (stable (fun w => made_for u c b w /\ registry_ok w)) as Hst.
    { intros w w' Hs [Hm Hr]. split; [by eapply stable_made_for|by apply Hs]. }
    destruct ours.
    + eapply steps_bind; [by apply steps_evolves; [|apply evolves_gets; exact _]|intros k]. cbv beta.
      destruct (interrupted k); [by apply steps_evolves; [|apply safe_yield]|].
      intros w [Hm Hr]. destruct (run_build_steps u c b w Hm) as [Hs Hq]. split; [done|]. intros [] w' Heq.
      rewrite Heq in Hs. split; [by eapply Hq|by apply Hs].
    + apply steps_evolves; [done|]. repeat safe_step.
  - intros ? w [(t & Hb & Hu & Hc) Hok]. unfold bind, task_of, gets, state_of. rewrite Hb. cbn.
    destruct (bt_state t) as [cc|ref|e|] eqn:Hst; (split; [reflexivity|]); [done| |done|done].
    intros ref' w' [= <- <-]. destruct (ro_tasks _ Hok b t ref Hb Hst) as (r & Hr & ? & ?). exists r. by subst.
Qed.

Lemma safe_forget_dead k b : evolves safe (forget_dead_build k b).
Proof.
  intros w. unfold forget_dead_build, modify. cbn. case_match; [|reflexivity].
  eapply safe_forget; [done| |done|done]. intros kb Hin. by apply elem_of_dict_pop in Hin as [_ Hin].
Qed.
Lemma safe_replace key : evolves safe (replace_retired config surface others m_others interrupted key).
Proof.
  unfold replace_retired. pose proof (ka_actors Haround).
  repeat (safe_step || apply safe_drop || (apply safe_await_actor; eapply ik_can_answer; eassumption)).
Qed.

(** Who asks for the actor of a person and channel gets an actor of that
    person and channel, whoever built it and whatever happened meanwhile. *)
Lemma get_runner_steps u c : steps registry_ok (get_runner u c) (fun ref => actor_of u c ref).
Proof.
  unfold get_or_create_runner.
  assert (stable registry_ok) as Hst by (intros w w' [_ Hr]; exact Hr).
  eapply steps_bind; [apply steps_evolves; [exact Hst|apply safe_replace]|intros ?]. cbv beta.
  eapply steps_bind with (Q := fun b w => registry_ok w /\ b = dict_get (u, c) (mg_builds (mw_mgr w))).
  { intros w Hw. split; [reflexivity|]. by intros b w' [= <- <-]. }
  intros known. eapply steps_bind with (Q := fun ob w => made_for u c ob.2 w /\ registry_ok w).
  - destruct known as [b|].
    + intros w [Hok Hb]. split; [reflexivity|]. intros ob w' [= <- <-]. split; [|done].
      symmetry in Hb. apply dict_get_elem in Hb. destruct (ro_builds _ Hok _ _ Hb) as (t & Ht & [= Hu Hc]).
      by exists t.
    + intros w [Hok _]. pose proof (safe_new_task w u c) as Hs. split; [exact Hs|].
      intros ob w' [= <- <-]. split; [|by apply Hs]. eexists. split; [by apply list_lookup_middle|done].
  - intros [ours b]. cbn [snd]. eapply steps_bind.
    + intros w Hw. destruct (await_build_steps u c b ours w Hw) as [Hs Hq]. unfold try_except.
      destruct (await_build _ _ _ _ _ ours u c b w) as [[ref|e] w1]; cbn in Hs; [split; [exact Hs|exact Hq]|].
      pose proof (safe_forget_dead (u, c) b w1) as H2. unfold bind.
      destruct (forget_dead_build (u, c) b w1) as [[x|e'] w2]; cbn in H2; split; try by etransitivity; done.
      all: intros; discriminate.
    + intros ref. apply steps_bind with (Q := fun _ => actor_of u c ref);
        [|intros ?; exact (steps_ret ref (fun ref => actor_of u c ref))].
      apply steps_evolves; [apply stable_actor_of|]. apply evolves_when; [exact _|apply safe_attach].
Qed.

Lemma safe_preserves {A} (m : M MWorld Exn A) : evolves safe m -> preserves registry_ok m.
Proof. intros Hm w Hw. by apply Hm. Qed.
Lemma get_runner_ok u c : preserves registry_ok (get_runner u c).
Proof. intros w Hw. destruct (get_runner_steps u c w Hw) as [Hs _]. by apply Hs. Qed.
Lemma safe_elsewhere ids : evolves safe (held_elsewhere ownership m_others interrupted ids).
Proof. unfold held_elsewhere. repeat safe_step. Qed.
Lemma safe_mgr_forget f :
  (forall m, mg_runners (f m) ⊆ mg_runners m /\ mg_builds (f m) ⊆ mg_builds m) -> evolves (E := Exn) safe (set_mgr f).
Proof. intros Hf w. by eapply safe_forget; [apply Hf..| |]. Qed.
Lemma safe_cancel_build b : evolves safe (cancel_build m_others interrupted b).
Proof.
  unfold cancel_build. repeat safe_step. intros w. by apply safe_task.
Qed.
Lemma safe_stop_runner ref : evolves safe (stop_runner config surface others m_others interrupted ref).
Proof.
  unfold stop_runner, release. pose proof (ka_actors Haround).
  repeat (safe_step || apply safe_detach || (apply safe_await_actor; eapply ik_stop; eassumption)).
Qed.
Lemma safe_evict u c : evolves safe (evict config surface others m_others interrupted u c).
Proof.
  unfold evict. repeat (safe_step || apply safe_cancel_build || apply safe_stop_runner); apply safe_mgr_forget;
    intros m; split; cbn; try done; intros kv Hin; by apply elem_of_dict_pop in Hin as [_ Hin].
Qed.
Lemma safe_stop_all : evolves safe (stop_all config surface others m_others interrupted).
Proof.
  unfold stop_all. repeat (safe_step || apply safe_cancel_build || apply safe_stop_runner); apply safe_mgr_forget;
    intros m; split; cbn; try done; apply list_subseteq_nil.
Qed.
Lemma safe_beat : evolves safe (beat_once config surface others m_others interrupted overdue).
Proof.
  unfold beat_once, cut_when_overdue.
  assert (forall refs, evolves safe (claims_of refs)) as Hclaims.
  { induction refs as [|ref refs IH]; cbn [claims_of]; repeat (safe_step || exact IH). }
  repeat (safe_step || apply safe_drop || apply Hclaims). apply safe_mgr_forget. by intros m.
Qed.

Lemma background_ok u c :
  preserves registry_ok (runner_for_background config ownership surface others m_others interrupted u c).
Proof.
  unfold runner_for_background.
  assert (evolves safe (find_dialog m_others interrupted u c)) by (unfold find_dialog; repeat safe_step).
  apply preserves_bind; [by apply safe_preserves|intros dialog].
  apply preserves_bind; [apply preserves_gets|intros existing].
  apply preserves_bind; [apply safe_preserves; repeat safe_step|intros retired].
  assert (preserves registry_ok
    (let! elsewhere := held_elsewhere ownership m_others interrupted {[dlg_id dialog]} in
     if decide (elsewhere = ∅) then let! ref := get_runner u c in ret (Some ref) else ret None)) as Htake.
  { apply preserves_bind; [apply safe_preserves, safe_elsewhere|intros elsewhere]. case_decide; [|apply preserves_ret].
    apply preserves_bind; [apply get_runner_ok|intros ref; apply preserves_ret]. }
  destruct existing as [ref|]; [|exact Htake]. destruct retired; [exact Htake|apply preserves_ret].
Qed.

Lemma promote_ok u c x :
  preserves registry_ok (promote_collection config ownership surface others m_others interrupted u c x).
Proof.
  pose proof (ka_actors Haround) as Hik. unfold promote_collection.
  apply preserves_bind; [apply background_ok|]. intros [ref|]; [|apply preserves_ret].
  apply safe_preserves, safe_await_actor. by eapply ik_put.
Qed.

(** C7: The registry of actors stays sound whatever is asked of it, in whatever
    order, with the rest of the process at work: actors are found under their
    own dialog, builds under the person and channel they are for; and who asks
    for the actor of a person and channel never gets somebody else's. *)
Theorem registry_stays_ok :
  (forall u c, preserves registry_ok (get_runner u c)) /\
  (forall u c x, preserves registry_ok (promote_collection config ownership surface others m_others interrupted u c x)) /\
  (forall u c t p j, preserves registry_ok (wake config ownership surface others m_others interrupted u c t p j)) /\
  preserves registry_ok (beat_once config surface others m_others interrupted overdue) /\
  preserves registry_ok (recover_interrupted config ownership surface others m_others interrupted set_order) /\
  (forall u c, preserves registry_ok (evict config surface others m_others interrupted u c)) /\
  preserves registry_ok (stop_all config surface others m_others interrupted) /\
  (forall u c w ref w', registry_ok w -> get_runner u c w = (Ok ref, w') -> actor_of u c ref w').
Proof.
  pose proof (ka_actors Haround) as Hik. split_and!.
  - apply get_runner_ok.
  - apply promote_ok.
  - intros u c t p j. apply preserves_bind; [apply background_ok|]. intros [ref|]; [|apply preserves_ret].
    apply safe_preserves. repeat safe_step. apply safe_await_actor. by apply ik_wake.
  - apply safe_preserves, safe_beat.
  - unfold recover_interrupted.
    repeat (apply preserves_bind; [apply safe_preserves; first [apply safe_elsewhere|unfold list_stranded, orphaned_tasks, undelivered_tasks; repeat safe_step]|intros ?]).
    apply preserves_for_each. intros d. apply preserves_bind; [|intros ?; apply preserves_ret].
    apply preserves_try; [|intros e; destruct (is_exception e); [apply preserves_ret|apply preserves_raise]].
    apply preserves_bind; [apply safe_preserves, safe_yield|intros ?].
    apply preserves_bind; [apply safe_preserves, safe_conn|intros dialog].
    apply preserves_bind; [apply get_runner_ok|intros ?; apply preserves_ret].
  - intros u c. apply safe_preserves, safe_evict.
  - apply safe_preserves, safe_stop_all.
  - intros u c w ref w' Hw. by apply get_runner_steps.
Qed.

(** ** Recovery never fails a build *)

(** With the actor there, nothing but a cancellation comes out. *)
Definition soft {A} (ref : nat) (m : M MWorld Exn A) : Prop :=
  forall w, is_Some (mw_actors w !! ref) ->
    is_Some (mw_actors (m w).2 !! ref) /\ forall e, (m w).1 = Err e -> e = CancelledError.
Lemma safe_present ref w w' : safe w w' -> is_Some (mw_actors w !! ref) -> is_Some (mw_actors w' !! ref).
Proof. intros [[Ha _] _] [r Hr]. destruct (Ha ref r Hr) as (r' & Hr' & _). by exists r'. Qed.
Lemma soft_bind {A B} ref (m : M MWorld Exn A) (k : A -> M MWorld Exn B) :
  soft ref m -> (forall a, soft ref (k a)) -> soft ref (bind m k).
Proof.
  intros Hm Hk w Hw. destruct (Hm w Hw) as [Hp He]. unfold bind. destruct (m w) as [[a|e] w1]; [by apply Hk|].
  split; [exact Hp|]. intros e0 [= <-]. by apply (He e).
Qed.
Lemma soft_ret {A} ref (a : A) : soft ref (ret a).
Proof. by intros w. Qed.
Lemma soft_gets {A} ref (f : MWorld -> A) : soft ref (gets f).
Proof. by intros w. Qed.
Lemma soft_except {A} ref (m : M MWorld Exn A) a : evolves safe m -> soft ref (except_exception m (fun _ => ret a)).
Proof.
  intros Hm w Hw. specialize (safe_present ref _ _ (Hm w) Hw). unfold except_exception, try_except.
  destruct (m w) as [[b|e] w1]; [done|]. destruct e; cbn; intros Hp; split; try done. by intros ? [= <-].
Qed.
Lemma soft_for_each {A} ref (l : list A) f : (forall x, soft ref (f x)) -> soft ref (for_each l f).
Proof. intros Hf. induction l as [|x l IH]; [apply soft_ret|]. by apply soft_bind. Qed.
Lemma soft_actor {A} ref (f : Runner -> A) : soft ref (actor ref f).
Proof.
  intros w [r Hr]. split; [|unfold actor, on_actor; by rewrite Hr].
  eapply safe_present; [apply safe_read_actor|by exists r].
Qed.

(** Whatever fails while a dialog is recovered, its actor is handed out:
    recovery swallows every failure of the store and of the actor, and only
    the cancellation of the build ends it early. *)
Theorem recovery_fails_soft b ref w e w' :
  is_Some (mw_actors w !! ref) ->
  recover_dialog config others m_others interrupted b ref w = (Err e, w') -> e = CancelledError.
Proof.
  intros Hw Hrun. pose proof (ka_actors Haround) as Hik.
  assert (soft ref (recover_dialog config others m_others interrupted b ref)) as Hsoft.
  { unfold recover_dialog, restart_orphans.
    assert (forall d, soft ref (reopen_stranded (build_await m_others interrupted b) d)) as Hreopen.
    { intros d. apply soft_except. repeat (safe_step || apply safe_build_await). }
    assert (forall d, soft ref (for_recovery (build_await m_others interrupted b) d)) as Hrec.
    { intros d. apply soft_except. repeat (safe_step || apply safe_build_await). }
    apply soft_bind; [apply soft_actor|intros d]. apply soft_bind; [apply soft_gets|intros first].
    apply soft_bind.
    { destruct first; repeat (apply soft_bind; [apply Hreopen || apply Hrec|intros ?]); apply soft_ret. }
    intros [[stranded orphaned] undelivered].
    apply soft_bind; [|intros ?; apply soft_bind; [|intros ?]].
    - apply soft_for_each. intros task. apply soft_except. apply safe_await_actor. by apply ik_restart.
    - destruct stranded; [apply soft_ret|]. apply soft_except, safe_await_actor. by apply ik_sweep.
    - apply soft_for_each. intros task v [r Hr]. split; [|unfold on_actor; by rewrite Hr].
      eapply safe_present; [apply safe_on_actor; by eapply ik_put|by exists r]. }
  destruct (Hsoft w Hw) as [_ He]. apply He. by rewrite Hrun.
Qed.
End Registry.
