(* ===== verification/ManagerRuns.v ===== *)
(** * The registry undisturbed ([ConversationManager], [agent/runner.py])

    With nothing else running and no database failure ahead: what a beat
    keeps, what a shutdown releases, what background work leaves alone, and
    the two ways an actor gets lost. *)
From S2P Require Import Prelude PyStr Clock Sql Dict Domain UnitOfWork Broadcast TaskStore ExchangeStore MessageStore ClaimStore Compactor RunnerText RunnerState Outbox Pump Answers Actor Cron Manager ManagerLaws.

Definition no_surface : DialogSurface := {| ds_attach _ := ret tt; ds_detach _ := ret tt |}.
Definition alone : nat -> MWorld -> MWorld := fun _ w => w.
Definition never : nat -> bool := fun _ => false.

Definition mdb (w : MWorld) : Db := committed (mw_conn w).
Definition m_rest (w : MWorld) : Prop := faults (mw_conn w) = [] /\ live_session (mw_conn w) = None.
Definition m_ticked (w : MWorld) : MWorld := set_mw_tick (S (mw_tick w)) w.
Definition m_with_db (d : Db) (w : MWorld) : MWorld := set_mw_conn (with_committed d (mw_conn w)) w.

Section Quiet.
Context (config : RunnerConfig) (ownership : OwnershipConfig) (others : nat -> World -> World).
(** Awaiting an actor's shutdown keeps who the actors are and the database. *)
Context (Hik : identity_kept config others).
Definition same_conn (s s' : World) : Prop := w_conn s' = w_conn s.
Context (Hothers : forall k s, same_conn s (others k s)).
Context (Haclose : forall d, evolves same_conn (cc_aclose (cfg_compactor config) d)).

#[local] Instance same_conn_preorder : PreOrder same_conn.
Proof. split; [by intros s|]. intros a b c. unfold same_conn. congruence. Qed.

Lemma m_yield_alone w : m_yield alone never w = (Ok tt, m_ticked w).
Proof using Type. done. Qed.

Lemma m_write {A} (body : M Db Exn A) w :
  m_rest w ->
  on_conn (write_session body) w =
    match body (mdb w) with
    | (Ok a, d) => (Ok a, m_with_db d w)
    | (Err e, _) => (Err e, w)
    end.
Proof using Type.
  intros [Hf Hl]. unfold on_conn, write_session, borrow_enter. change (conn_of w) with (mw_conn w). rewrite Hl.
  unfold execute, round_trip. rewrite Hf. change (committed (mw_conn w)) with (mdb w).
  destruct (body (mdb w)) as [[a|e] d]; rewrite ?Hf; [done|]. by destruct w.
Qed.
Lemma m_read {A} (body : M Db Exn A) w :
  m_rest w -> on_conn (read_session body) w = ((body (mdb w)).1, w).
Proof using Type.
  intros [Hf Hl]. unfold on_conn, read_session, borrow_enter. change (conn_of w) with (mw_conn w). rewrite Hl.
  unfold execute, round_trip. rewrite Hf. change (committed (mw_conn w)) with (mdb w).
  destruct (body (mdb w)) as [r d]. by destruct w.
Qed.

(** ** Stopping an actor *)

Lemma stop_conn : evolves same_conn (stop config others).
Proof.
  unfold stop.
  assert (evolves same_conn (yield others)) as Hy.
  { intros s. unfold yield. destruct (in_unit_of_work _); [done|]. apply (Hothers (w_tick s) (set_w_tick _ s)). }
  apply evolves_bind; [exact _|by intros s|intros ps].
  apply evolves_bind; [exact _|by intros s|intros ?].
  apply evolves_bind; [exact _|apply evolves_for_each; [exact _|intros ?; exact Hy]|intros ?].
  apply evolves_bind; [exact _|exact Hy|intros ?].
  apply evolves_bind; [exact _|by intros s|intros d]. apply Haclose.
Qed.
Lemma stand_down_conn : evolves same_conn (stand_down config others).
Proof.
  unfold stand_down. apply evolves_bind; [exact _|by intros s|intros r].
  destruct (r_stood_down r); [by intros s|].
  apply evolves_bind; [exact _|by intros s|intros ?].
  apply evolves_bind; [exact _|apply stop_conn|intros ?]. by intros s.
Qed.
Lemma stand_down_marks s : r_stood_down (w_run (stand_down config others s).2) = true.
Proof.
  unfold stand_down. unfold bind at 1. unfold runner at 1, gets at 1, id. cbv beta iota.
  destruct (r_stood_down (w_run s)) eqn:Hs; [exact Hs|]. unfold bind at 1. cbn [update modify].
  match goal with |- context [bind _ _ ?x] => set (s1 := x) end.
  assert (same_run s1 (stop config others s1).2) as (_ & _ & Hkeep) by by apply ik_stop.
  unfold bind. destruct (stop config others s1) as [[u|e] s2]; by apply Hkeep.
Qed.

(** What happened to one actor; the registry and the other actors are as they
    were. *)
Record touched (ref : nat) (f : Manager -> Manager) (w w' : MWorld) : Prop := {
  to_mgr : mw_mgr w' = f (mw_mgr w);
  to_tasks : mw_tasks w' = mw_tasks w;
  to_conn : mw_conn w' = mw_conn w;
  to_others k : k <> ref -> mw_actors w' !! k = mw_actors w !! k;
  to_actor r : mw_actors w !! ref = Some r -> exists r', mw_actors w' !! ref = Some r' /\ same_actor r r' }.

Lemma await_touched {A} ref (m : M World Exn A) w :
  evolves same_run m -> evolves same_conn m ->
  touched ref id w (await_actor alone never ref m w).2.
Proof.
  intros Hm Hc. unfold await_actor, try_except, bind, on_actor.
  destruct (mw_actors w !! ref) as [r|] eqn:Hr; [|split; cbn; [done..|congruence]].
  pose proof (Hm (enter_world r w)) as H1. pose proof (Hc (enter_world r w)) as H2.
  destruct (m (enter_world r w)) as [[a|e] s]; cbn in H1, H2 |- *; (split; cbn; [done|done|exact H2| |]).
  all: try (intros k Hk; by rewrite list_lookup_insert_ne by done).
  all: intros r0 Hr0; exists (w_run s); rewrite list_lookup_insert_eq by (by eapply lookup_lt_Some);
    split; [done|]; by simplify_eq.
Qed.

Abbreviation drop := (drop_preempted config no_surface others alone never).
(** What [_drop_preempted] forgets. *)
Definition dropped (d : pystr) (ref : nat) (w : MWorld) (m : Manager) : Manager :=
  set_mg_runners (dict_pop d (mg_runners m))
    (set_mg_builds (filter (fun kb => finished_build (state_of kb.2 w) <> Some ref) (mg_builds m)) m).

Lemma detach_nothing ref w : detach_surface no_surface ref w = (Ok tt, w).
Proof using Type. unfold detach_surface, bind, mgr, gets. by destruct (mg_surface (mw_mgr w)). Qed.

Lemma read_actor {A} ref (f : Runner -> A) r w :
  mw_actors w !! ref = Some r -> actor ref f w = (Ok (f r), w).
Proof using Type.
  intros Hr. unfold actor, on_actor. rewrite Hr. cbn. f_equal. unfold leave_world. cbn.
  rewrite list_insert_id by done. by destruct w.
Qed.

Lemma never_cancels {A} ref (m : M World Exn A) e w w' :
  (forall s, (m s).1 <> Err CancelledError) -> mw_actors w !! ref <> None ->
  await_actor alone never ref m w = (Err e, w') -> e <> CancelledError.
Proof.
  intros Hm Hr. unfold await_actor, try_except, bind, on_actor. destruct (mw_actors w !! ref) as [r|]; [|done].
  specialize (Hm (enter_world r w)). destruct (m (enter_world r w)) as [[a|e'] s]; cbn in *; [done|].
  intros [= <- _] ->. by apply Hm.
Qed.

Context (Hcalm : forall s, (stand_down config others s).1 <> Err CancelledError).

Lemma drop_quiet ref r w :
  mw_actors w !! ref = Some r ->
  exists w', drop ref w = (Ok tt, w') /\ touched ref (dropped (dlg_id (r_dialog r)) ref w) w w' /\
    exists r', mw_actors w' !! ref = Some r' /\ r_stood_down r' = true.
Proof.
  intros Hr. unfold drop_preempted. rewrite (bind_Ok _ _ _ _ _ (read_actor ref (fun r => dlg_id (r_dialog r)) r w Hr)).
  unfold bind at 1. cbn [modify].
  match goal with |- context [bind _ _ ?x] => set (w1 := x) end.
  rewrite (bind_Ok _ _ _ _ _ (detach_nothing ref w1)).
  assert (mw_actors w1 !! ref = Some r) as Hr1 by exact Hr.
  pose proof (await_touched ref (stand_down config others) w1 (ik_stand_down _ _ Hik) stand_down_conn) as Ht.
  assert (exists r', mw_actors (await_actor alone never ref (stand_down config others) w1).2 !! ref = Some r' /\
            r_stood_down r' = true) as Hmark.
  { unfold await_actor, try_except, bind, on_actor. rewrite Hr1.
    pose proof (stand_down_marks (enter_world r w1)) as Hm.
    destruct (stand_down config others (enter_world r w1)) as [[a|e] s]; cbn in *;
      exists (w_run s); (split; [|done]); by rewrite list_lookup_insert_eq by (by eapply lookup_lt_Some). }
  unfold except_exception, try_except. unfold bind at 1.
  destruct (await_actor alone never ref (stand_down config others) w1) as [[a|e] w2] eqn:Hw2; cbn in Ht, Hmark.
  - exists w2. split; [done|]. split; [|exact Hmark]. destruct Ht as [? ? ? ? ?]. split; try done.
  - assert (is_exception e = true) as ->.
    { assert (e <> CancelledError) by (eapply never_cancels; [exact Hcalm|by rewrite Hr1|exact Hw2]). by destruct e. }
    exists w2. split; [done|]. split; [|exact Hmark]. destruct Ht as [? ? ? ? ?]. split; try done.
Qed.

(** ** A beat *)

Abbreviation beat := (beat_once config no_surface others alone never never).

(** The claim of an actor is the one in the table. *)
Definition keeps_claim (w : MWorld) (r : Runner) : Prop :=
  holds (d_claims (mdb w)) (dlg_id (r_dialog r)) (cl_owner (r_claim r)) (cl_generation (r_claim r)).
Definition own_claim (r : Runner) : Prop := cl_dialog_id (r_claim r) = dlg_id (r_dialog r).

Lemma claims_of_quiet refs w :
  (forall ref, ref ∈ refs -> is_Some (mw_actors w !! ref)) ->
  exists rs, Forall2 (fun ref r => mw_actors w !! ref = Some r) refs rs /\
    claims_of refs w = (Ok (r_claim <$> rs), w).
Proof.
  induction refs as [|ref refs IH]; intros Hin; [by exists []|].
  destruct (Hin ref (list_elem_of_here _ _)) as [r Hr].
  destruct IH as (rs & Hrs & Hc); [intros; apply Hin; by right|].
  exists (r :: rs). split; [by constructor|]. cbn [claims_of].
  rewrite (bind_Ok _ _ _ _ _ (read_actor ref r_claim r w Hr)). by rewrite (bind_Ok _ _ _ _ _ Hc).
Qed.

Definition registered_as (w : MWorld) (dr : pystr * nat) : Prop :=
  exists r, mw_actors w !! dr.2 = Some r /\ dlg_id (r_dialog r) = dr.1.
Definition stood_down (w : MWorld) (ref : nat) : Prop :=
  exists r, mw_actors w !! ref = Some r /\ r_stood_down r = true.

Lemma touched_actor ref f w w' k r :
  touched ref f w w' -> mw_actors w !! k = Some r -> exists r', mw_actors w' !! k = Some r' /\ same_actor r r'.
Proof.
  intros Ht Hr. destruct (decide (k = ref)) as [->|Hne]; [by apply (to_actor _ _ _ _ Ht)|].
  exists r. rewrite (to_others _ _ _ _ Ht) by done. split; [done|reflexivity].
Qed.
Lemma touched_stood ref f w w' k : touched ref f w w' -> stood_down w k -> stood_down w' k.
Proof.
  intros Ht (r & Hr & Hs). destruct (touched_actor _ _ _ _ _ _ Ht Hr) as (r' & Hr' & _ & _ & Hk). exists r'. auto.
Qed.
Lemma touched_registered ref f w w' dr : touched ref f w w' -> registered_as w dr -> registered_as w' dr.
Proof.
  intros Ht (r & Hr & Hd). destruct (touched_actor _ _ _ _ _ _ Ht Hr) as (r' & Hr' & Hd' & _). exists r'.
  split; [done|]. by rewrite Hd'.
Qed.

(** The walk over the actors: those whose dialog was not kept are dropped. *)
Definition beat_walk (kept : gset pystr) (refs : list nat) : M MWorld Exn unit :=
  for_each refs (fun ref =>
    let! d := actor ref (fun r => dlg_id (r_dialog r)) in
    if decide (d ∈ kept) then ret tt else drop ref ;;; cut_when_overdue never).
Record walked (kept : gset pystr) (l : list (pystr * nat)) (w w' : MWorld) : Prop := {
  wk_stood ref : stood_down w ref -> stood_down w' ref;
  wk_dropped dr : dr ∈ l -> dr.1 ∉ kept -> stood_down w' dr.2;
  wk_kept k : (forall dr, dr ∈ l -> dr.2 = k -> dr.1 ∈ kept) -> mw_actors w' !! k = mw_actors w !! k;
  wk_runners d : dict_get d (mg_runners (mw_mgr w')) =
    if decide (~ (d ∈ kept) /\ d ∈ dict_keys l) then None else dict_get d (mg_runners (mw_mgr w)) }.

Lemma beat_walk_quiet kept l w :
  Forall (registered_as w) l ->
  exists w', beat_walk kept (dict_values l) w = (Ok tt, w') /\ walked kept l w w'.
Proof.
  revert w. induction l as [|[d ref] l IH]; intros w Hl.
  { exists w. split; [done|]. split; [done|by intros dr ?%not_elem_of_nil|done|].
    intros d. rewrite decide_False; [done|]. by intros [_ ?%not_elem_of_nil]. }
  apply Forall_cons in Hl as [(r & Hr & Hd) Hl]. cbn in Hr, Hd. subst d. cbn [dict_values fmap list_fmap beat_walk for_each snd].
  unfold bind at 1. rewrite (bind_Ok _ _ _ _ _ (read_actor ref (fun r => dlg_id (r_dialog r)) r w Hr)).
  set (d := dlg_id (r_dialog r)). destruct (decide (d ∈ kept)) as [Hin|Hout].
  - destruct (IH w Hl) as (w' & Hw' & [H1 H2 H3 H4]). exists w'. split; [exact Hw'|]. split.
    + exact H1.
    + intros dr [->|?]%elem_of_cons Hnk; [done|by apply H2].
    + intros k Hk. apply H3. intros dr Hdr. apply Hk. by right.
    + intros d'. rewrite H4. cbn [dict_keys fmap list_fmap fst]. repeat case_decide; set_solver.
  - destruct (drop_quiet ref r w Hr) as (w1 & Hdrop & Ht & Hst).
    rewrite (bind_Ok _ _ _ _ _ Hdrop). unfold cut_when_overdue at 1, bind at 1, gets at 1, never at 1. cbn [ret].
    destruct (IH w1) as (w' & Hw' & [H1 H2 H3 H4]).
    { eapply Forall_impl; [exact Hl|]. intros dr. by eapply touched_registered. }
    exists w'. split; [exact Hw'|]. split.
    + intros k Hk. by eapply H1, touched_stood.
    + intros dr [->|?]%elem_of_cons Hnk; [|by apply H2]. apply H1. exact Hst.
    + intros k Hk. rewrite H3; [|intros dr Hdr; apply Hk; by right]. apply (to_others _ _ _ _ Ht).
      intros ->. apply Hout. apply (Hk (d, ref)); [by left|done].
    + intros d'. rewrite H4, (to_mgr _ _ _ _ Ht). unfold dropped. cbn [mg_runners set_mg_runners].
      rewrite dict_get_pop. cbn [dict_keys fmap list_fmap fst]. fold d. repeat case_decide; set_solver.
Qed.

Lemma held_of_unique held : forall c, NoDup (cl_dialog_id <$> held) -> c ∈ held -> held_of held !! cl_dialog_id c = Some c.
Proof.
  unfold held_of. assert (forall (m : gmap pystr DialogClaim) c, NoDup (cl_dialog_id <$> held) ->
    (c ∈ held \/ (m !! cl_dialog_id c = Some c /\ cl_dialog_id c ∉ cl_dialog_id <$> held)) ->
    foldl (fun m c => <[cl_dialog_id c := c]> m) m held !! cl_dialog_id c = Some c) as Hgen.
  { induction held as [|c0 held IH]; intros m c Hnd Hc; cbn.
    - destruct Hc as [?%not_elem_of_nil|[? _]]; done.
    - cbn in Hnd. apply NoDup_cons in Hnd as [H0 Hnd]. apply IH; [done|].
      destruct Hc as [[->|Hc]%elem_of_cons|[Hm Hn]].
      + right. by rewrite lookup_insert_eq.
      + by left.
      + cbn in Hn. apply not_elem_of_cons in Hn as [Hne Hn]. right. by rewrite lookup_insert_ne. }
  intros c Hnd Hc. apply Hgen; [done|by left].
Qed.

(** C8: A beat finds out who this process still is: an actor whose claim is the
    one in the table stays as it is; one whose dialog was claimed by somebody
    else is stood down and forgotten. *)
Theorem beat_keeps_confirmed w :
  m_rest w -> registry_ok w -> dict_ok (mg_runners (mw_mgr w)) -> claims_ok (d_claims (mdb w)) ->
  (forall d ref r, dict_get d (mg_runners (mw_mgr w)) = Some ref -> mw_actors w !! ref = Some r -> own_claim r) ->
  exists w', beat w = (Ok tt, w') /\ mg_last_beat (mw_mgr w') = Some (mw_monotonic w') /\
    forall d ref r, dict_get d (mg_runners (mw_mgr w)) = Some ref -> mw_actors w !! ref = Some r ->
      (keeps_claim w r -> dict_get d (mg_runners (mw_mgr w')) = Some ref /\ mw_actors w' !! ref = Some r) /\
      (~ keeps_claim w r -> dict_get d (mg_runners (mw_mgr w')) = None /\ stood_down w' ref).
Proof.
  intros Hrest Hok Hdict Hclaims Hown. unfold beat_once.
  set (l := mg_runners (mw_mgr w)) in *.
  assert (Forall (registered_as w) l) as Hreg.
  { apply Forall_forall. intros [d ref] Hin. by apply (ro_runners _ Hok). }
  destruct (decide (l = [])) as [Hnil|Hcons].
  { exists (set_mw_mgr (set_mg_beat (mg_heartbeat (mw_mgr w)) (Some (mw_monotonic w)) (mw_mgr w)) w).
    split; [unfold mgr, gets, bind at 1; fold l; by rewrite Hnil|]. split; [done|].
    intros d ref r Hd. rewrite Hnil in Hd. discriminate Hd. }
  destruct (claims_of_quiet (dict_values l) w) as (rs & Hrs & Hclaims_of).
  { intros ref (dr & -> & Hin)%list_elem_of_fmap. rewrite Forall_forall in Hreg.
    destruct (Hreg dr Hin) as (r & Hr & _). by exists r. }
  assert (cl_dialog_id <$> (r_claim <$> rs) = dict_keys l) as Hkeys.
  { assert (forall d ref r, (d, ref) ∈ l -> mw_actors w !! ref = Some r -> own_claim r) as Hown'.
    { intros d ref r Hin. apply (Hown d). by apply dict_elem_get. }
    clear -Hrs Hreg Hown'. revert rs Hrs. induction l as [|[d ref] l IH]; intros rs Hrs; inv Hrs; [done|].
    apply Forall_cons in Hreg as [(r & Hr & Hd) Hreg]. cbn in *. simplify_eq. f_equal.
    - by eapply Hown'; [left|].
    - apply IH; [done| |done]. intros d' ref' r' Hin. apply (Hown' d' ref'). by right. }
  destruct (heartbeat_spec (mw_now (m_ticked w)) (r_claim <$> rs) (d_claims (mdb w)) Hclaims) as (kept & t' & Hbeat & Hkept & _).
  set (w2 := m_with_db (set_d_claims t' (mdb w)) (m_ticked w)).
  destruct (beat_walk_quiet kept l w2) as (w3 & Hwalk & [_ Hdrop Hkeep Hrun]).
  { eapply Forall_impl; [exact Hreg|]. done. }
  exists (set_mw_mgr (set_mg_beat (mg_heartbeat (mw_mgr w3)) (Some (mw_monotonic w3)) (mw_mgr w3)) w3).
  split; [|split; [done|]].
  - unfold mgr, gets, bind at 1. fold l.
    assert (dict_values l <> []) as Hvals by (by destruct l).
    match goal with |- ?m = _ => set (lhs := m) end. unfold lhs. clear lhs.
    destruct (dict_values l) as [|ref0 refs] eqn:Hv; [done|]. rewrite <-Hv in *.
    unfold bind at 1. unfold bind at 1. rewrite Hclaims_of. unfold bind at 1. rewrite m_yield_alone.
    unfold bind at 1, cut_when_overdue at 1. unfold bind at 1, gets at 1. unfold never at 1. cbn [ret].
    match goal with |- context [bind ?m ?k (m_ticked w)] => assert (bind m k (m_ticked w) = (Ok tt, w3)) as -> end; [|done].
    unfold bind at 1. cbv beta iota. unfold bind at 1. rewrite m_write by done.
    unfold on_table. change (table (mdb (m_ticked w))) with (d_claims (mdb w)).
    change (mw_now (m_ticked w)) with (mw_now w) in *. rewrite Hbeat. exact Hwalk.
  - intros d ref r Hd Hr.
    assert ((d, ref) ∈ l) as Hin by by apply dict_get_elem.
    assert (dlg_id (r_dialog r) = d) as Hid.
    { rewrite Forall_forall in Hreg. destruct (Hreg _ Hin) as (r' & Hr' & Hd'). cbn in *. congruence. }
    assert (d ∈ kept <-> keeps_claim w r) as Hiff.
    { rewrite Hkept. unfold keeps_claim. rewrite Hid.
      assert (held_of (r_claim <$> rs) !! d = Some (r_claim r)) as Hheld.
      { assert (cl_dialog_id (r_claim r) = d) as <- by (rewrite <-Hid; by eapply Hown).
        apply held_of_unique; [by rewrite Hkeys|]. apply list_elem_of_fmap. exists r. split; [done|].
        apply list_elem_of_lookup in Hin as [i Hi].
        assert (dict_values l !! i = Some ref) as Hv by (unfold dict_values; by rewrite list_lookup_fmap, Hi).
        destruct (Forall2_lookup_l _ _ _ _ _ Hrs Hv) as (r' & Hr' & Heq). apply list_elem_of_lookup. exists i. congruence. }
      rewrite Hheld. split; [by intros (c & [= <-] & ?)|intros ?; by exists (r_claim r)]. }
    rewrite <-Hiff. cbn [mw_mgr set_mw_mgr mg_runners set_mg_beat mw_actors]. split.
    + intros Hk. rewrite Hrun, decide_False by tauto. split; [done|]. rewrite Hkeep; [done|].
      intros [d' ref'] Hin' Heq. cbn in Heq |- *. subst ref'. rewrite Forall_forall in Hreg. destruct (Hreg _ Hin') as (r' & Hr' & Hd'). cbn in *.
      congruence.
    + intros Hk. rewrite Hrun, decide_True by (split; [done|by eapply dict_get_key]). split; [done|].
      exact (Hdrop (d, ref) Hin Hk).
Qed.

(** Forgetting an actor by the id of its dialog forgets whoever is registered
    for it: when the dialog was handed to a new actor while a beat with the
    old one's claim was under way, dropping the old one takes the new one out
    of the registry.  It stays the actor callers are given, but no later beat
    refreshes its claim. *)
Theorem drop_deregisters_successor w old new r key b d :
  registry_ok w -> dict_ok (mg_builds (mw_mgr w)) ->
  mw_actors w !! old = Some r -> dlg_id (r_dialog r) = d ->
  dict_get d (mg_runners (mw_mgr w)) = Some new -> new <> old ->
  dict_get key (mg_builds (mw_mgr w)) = Some b -> state_of b w = Some (Built new) ->
  exists w', drop old w = (Ok tt, w') /\
    dict_get key (mg_builds (mw_mgr w')) = Some b /\ state_of b w' = Some (Built new) /\
    mw_actors w' !! new = mw_actors w !! new /\
    forall d', (d', new) ∉ mg_runners (mw_mgr w').
Proof.
  intros Hok Hdict Hr Hd Hnew Hne Hkey Hb. destruct (drop_quiet old r w Hr) as (w' & Hdrop & Ht & _).
  exists w'. split; [done|]. rewrite (to_mgr _ _ _ _ Ht). cbn [dropped mg_builds mg_runners set_mg_runners set_mg_builds].
  split_and!.
  - apply dict_elem_get; [|apply list_elem_of_filter; split; [|by apply dict_get_elem]].
    + unfold dict_ok, dict_keys. eapply sublist_NoDup; [exact Hdict|]. apply fmap_sublist, sublist_filter.
    + cbn. rewrite Hb. cbn. by intros [= ?].
  - unfold state_of. rewrite (to_tasks _ _ _ _ Ht). exact Hb.
  - by apply (to_others _ _ _ _ Ht).
  - intros d' Hin. apply elem_of_dict_pop in Hin as [Hd' Hin]. cbn in Hd'.
    destruct (ro_runners _ Hok _ _ Hin) as (r1 & Hr1 & Hid1).
    destruct (ro_runners _ Hok _ _ (dict_get_elem _ _ _ Hnew)) as (r2 & Hr2 & Hid2). congruence.
Qed.

(** ** Background work *)

Lemma known_dialog hidden id now u c dialog (conn : Conn Db) :
  faults conn = [] -> live_session conn = None -> find_row u c (d_dialogs (committed conn)) = Some dialog ->
  ClaimStore.get_or_create hidden id now u c conn = (Ok dialog, conn).
Proof using Type.
  intros Hf Hl Hrow. unfold ClaimStore.get_or_create, bind, read_session, borrow_enter. rewrite Hl.
  unfold execute, round_trip. rewrite Hf. unfold on_table, gets.
  change (table (committed conn)) with (d_dialogs (committed conn)). by rewrite Hrow.
Qed.

Lemma find_dialog_quiet u c dialog w :
  m_rest w -> find_row u c (d_dialogs (mdb w)) = Some dialog ->
  find_dialog alone never u c w = (Ok dialog, set_mw_ids (mw_ids w + 1)%N (m_ticked w)).
Proof using Type.
  clear Hik Hothers Haclose Hcalm.
  intros [Hf Hl] Hrow. unfold find_dialog. unfold bind at 1. rewrite m_yield_alone.
  unfold bind at 1, gets at 1. unfold bind at 1. unfold on_conn.
  rewrite (known_dialog _ _ _ u c dialog) by done. by destruct w.
Qed.
Lemma held_elsewhere_quiet d w :
  m_rest w -> claims_ok (d_claims (mdb w)) ->
  exists held, held_elsewhere ownership alone never {[d]} w = (Ok held, m_ticked w) /\
    (d ∈ held <-> exists row, find_key cl_dialog_id d (d_claims (mdb w)) = Some row /\
       cl_owner row <> oc_node_id ownership /\ (mw_now w - oc_stale_after_seconds ownership <= cl_heartbeat_at row)%Z).
Proof using Type.
  clear Hik Hothers Haclose Hcalm.
  intros Hrest Hclaims.
  destruct (held_elsewhere_spec {[d]} (oc_node_id ownership) (mw_now w - oc_stale_after_seconds ownership)%Z
    (d_claims (mdb w)) Hclaims) as (held & Hheld & Hiff).
  exists held. split; [|rewrite Hiff; set_solver].
  unfold held_elsewhere. rewrite decide_False by set_solver.
  unfold bind at 1, gets at 1. unfold or_default, except_exception, try_except. unfold bind at 1. rewrite m_yield_alone.
  rewrite m_read by done. unfold on_table. change (table (mdb (m_ticked w))) with (d_claims (mdb w)). by rewrite Hheld.
Qed.

(** A dialog another process holds is left to it: background work for it
    neither claims it nor makes an actor for it. *)
Theorem foreign_dialog_untouched u c title prompt job dialog row w :
  m_rest w -> claims_ok (d_claims (mdb w)) ->
  find_row u c (d_dialogs (mdb w)) = Some dialog ->
  dict_get (dlg_id dialog) (mg_runners (mw_mgr w)) = None ->
  find_key cl_dialog_id (dlg_id dialog) (d_claims (mdb w)) = Some row ->
  cl_owner row <> oc_node_id ownership -> (mw_now w - oc_stale_after_seconds ownership <= cl_heartbeat_at row)%Z ->
  exists w', wake config ownership no_surface others alone never u c title prompt job w = (Ok WakeOutcome.NOT_OURS, w') /\
    mdb w' = mdb w /\ mw_actors w' = mw_actors w /\ mw_mgr w' = mw_mgr w.
Proof using Type.
  clear Hik Hothers Haclose Hcalm.
  intros Hrest Hclaims Hdialog Hnone Hrow Howner Hfresh.
  set (w1 := set_mw_ids (mw_ids w + 1)%N (m_ticked w)).
  destruct (held_elsewhere_quiet (dlg_id dialog) w1) as (held & Hheld & Hiff); [done|done|].
  assert (held <> ∅) as Hne.
  { assert (dlg_id dialog ∈ held); [|set_solver]. apply Hiff. by exists row. }
  exists (m_ticked w1). split; [|done]. unfold wake, runner_for_background.
  erewrite bind_Ok; [|erewrite bind_Ok; [|by apply find_dialog_quiet]; fold w1].
  2: { unfold bind at 1, mgr, gets. change (mw_mgr w1) with (mw_mgr w). rewrite Hnone. unfold bind at 1. cbn [ret].
       rewrite (bind_Ok _ _ _ _ _ Hheld). by rewrite decide_False. }
  done.
Qed.

(** ** Shutting down *)

Context (Hcalm_stop : forall s, (stop config others s).1 <> Err CancelledError).

(** The claim of a row is exactly this one. *)
Definition same_claim (c row : DialogClaim) : Prop :=
  cl_dialog_id row = cl_dialog_id c /\ cl_owner row = cl_owner c /\ cl_generation row = cl_generation c.

#[local] Instance same_claim_dec c row : Decision (same_claim c row).
Proof. unfold same_claim. apply _. Defined.

Lemma stop_runner_quiet ref r w :
  m_rest w -> mw_actors w !! ref = Some r ->
  exists w', stop_runner config no_surface others alone never ref w = (Ok tt, w') /\
    mw_mgr w' = mw_mgr w /\ m_rest w' /\
    (forall k r0, mw_actors w !! k = Some r0 -> exists r', mw_actors w' !! k = Some r' /\ same_actor r0 r') /\
    forall row, row ∈ d_claims (mdb w') <-> ~ same_claim (r_claim r) row /\ row ∈ d_claims (mdb w).
Proof.
  intros Hrest Hr. unfold stop_runner. rewrite (bind_Ok _ _ _ _ _ (detach_nothing ref w)).
  pose proof (await_touched ref (stop config others) w (ik_stop _ _ Hik) stop_conn) as Ht.
  assert (exists w1, except_exception (await_actor alone never ref (stop config others)) (fun _ => ret tt) w = (Ok tt, w1) /\
            touched ref id w w1) as (w1 & Hstop & Ht1).
  { unfold except_exception, try_except.
    destruct (await_actor alone never ref (stop config others) w) as [[[]|e] w1] eqn:Hw1; exists w1; (split; [|exact Ht]); [done|].
    assert (e <> CancelledError) by (eapply never_cancels; [exact Hcalm_stop|by rewrite Hr|exact Hw1]). by destruct e. }
  rewrite (bind_Ok _ _ _ _ _ Hstop). destruct (to_actor _ _ _ _ Ht1 r Hr) as (r1 & Hr1 & Hs1).
  assert (m_rest w1) as Hrest1 by (destruct Hrest; split; by rewrite (to_conn _ _ _ _ Ht1)).
  unfold release. rewrite (bind_Ok _ _ _ _ _ (read_actor ref r_claim r1 w1 Hr1)).
  destruct Hs1 as (_ & Hclaim & _). rewrite Hclaim.
  unfold except_exception, try_except. unfold bind at 1. rewrite m_yield_alone, m_write by done.
  unfold on_table, ClaimStore.release, modify. eexists. split; [done|]. split_and!.
  - cbn. exact (to_mgr _ _ _ _ Ht1).
  - destruct Hrest1. by split.
  - intros k r0 Hr0. cbn. by eapply touched_actor.
  - intros row. change (row ∈ delete_where (same_claim (r_claim r)) (d_claims (mdb w1)) <->
      ~ same_claim (r_claim r) row /\ row ∈ d_claims (mdb w)).
    rewrite elem_of_delete_where. unfold mdb. by rewrite (to_conn _ _ _ _ Ht1).
Qed.

Lemma stop_runners_quiet refs w :
  m_rest w -> (forall ref, ref ∈ refs -> is_Some (mw_actors w !! ref)) ->
  exists w', for_each refs (stop_runner config no_surface others alone never) w = (Ok tt, w') /\
    mw_mgr w' = mw_mgr w /\
    forall row, row ∈ d_claims (mdb w') <->
      row ∈ d_claims (mdb w) /\ forall ref r, ref ∈ refs -> mw_actors w !! ref = Some r -> ~ same_claim (r_claim r) row.
Proof.
  revert w. induction refs as [|ref refs IH]; intros w Hrest Hin.
  { exists w. split; [done|]. split; [done|]. intros row. split; [|by intros [? _]]. intros ?. split; [done|].
    by intros ref r ?%not_elem_of_nil. }
  destruct (Hin ref (list_elem_of_here _ _)) as [r Hr].
  destruct (stop_runner_quiet ref r w Hrest Hr) as (w1 & Hstop & Hm1 & Hrest1 & Hact & Hrow1).
  destruct (IH w1 Hrest1) as (w' & Hw' & Hm' & Hrow').
  { intros k Hk. destruct (Hin k (list_elem_of_further _ _ _ Hk)) as [r0 Hr0].
    destruct (Hact k r0 Hr0) as (r' & Hr' & _). by exists r'. }
  exists w'. split; [cbn [for_each]; by rewrite (bind_Ok _ _ _ _ _ Hstop)|]. split; [congruence|].
  intros row. rewrite Hrow', Hrow1. split.
  - intros [[Hno Hrow] Hrest']. split; [done|]. intros k r0 [->|Hk]%elem_of_cons Hr0; [by simplify_eq|].
    destruct (Hact k r0 Hr0) as (r' & Hr' & _ & Hc & _). rewrite <-Hc. by apply (Hrest' k).
  - intros [Hrow Hno]. split; [split; [by apply (Hno ref); [left|]|done]|]. intros k r' Hk Hr'.
    destruct (Hin k (list_elem_of_further _ _ _ Hk)) as [r0 Hr0].
    destruct (Hact k r0 Hr0) as (r2 & Hr2 & _ & Hc & _). simplify_eq. rewrite Hc. apply (Hno k); [by right|done].
Qed.

(** A shutdown gives back exactly the claims of its actors: afterwards the
    registry is empty, no claim of theirs is left in the table, and a dialog
    somebody else took over keeps its owner. *)
Theorem stop_all_releases w :
  m_rest w -> registry_ok w ->
  (forall k b, (k, b) ∈ mg_builds (mw_mgr w) -> is_done (state_of b w) = true) ->
  exists w', stop_all config no_surface others alone never w = (Ok tt, w') /\
    mg_runners (mw_mgr w') = [] /\ mg_builds (mw_mgr w') = [] /\ mg_heartbeat (mw_mgr w') = false /\
    forall row, row ∈ d_claims (mdb w') <->
      row ∈ d_claims (mdb w) /\
      forall d ref r, (d, ref) ∈ mg_runners (mw_mgr w) -> mw_actors w !! ref = Some r -> ~ same_claim (r_claim r) row.
Proof.
  intros Hrest Hok Hbuilds. unfold stop_all.
  set (on := mg_heartbeat (mw_mgr w)).
  assert (exists w1, when on (try_except (m_yield alone never) (fun e => if is_exception e then raise e else ret tt) ;;;
            set_mgr (fun m => set_mg_beat false (mg_last_beat m) m)) w = (Ok tt, w1) /\ m_rest w1 /\
            mg_heartbeat (mw_mgr w1) = false /\ mg_runners (mw_mgr w1) = mg_runners (mw_mgr w) /\
            mg_builds (mw_mgr w1) = mg_builds (mw_mgr w) /\ mw_actors w1 = mw_actors w /\ mw_tasks w1 = mw_tasks w /\
            mdb w1 = mdb w) as (w1 & Hw1 & Hrest1 & Hon & Hrun & Hbld & Hact & Htasks & Hdb).
  { destruct on eqn:Hon; [by eexists|]. exists w. by split_and!. }
  unfold bind at 1, mgr at 1, gets at 1. fold on. rewrite (bind_Ok _ _ _ _ _ Hw1).
  unfold bind at 1, mgr at 1, gets at 1. unfold bind at 1, mgr at 1, gets at 1. rewrite Hrun, Hbld.
  unfold bind at 1. cbn [set_mgr modify].
  set (w2 := set_mw_mgr _ w1).
  assert (forall l, (forall b, b ∈ l -> is_done (state_of b w2) = true) -> for_each l (cancel_build alone never) w2 = (Ok tt, w2)) as Hcancel.
  { induction l as [|b l IH]; intros Hl; [done|]. cbn [for_each].
    assert (cancel_build alone never b w2 = (Ok tt, w2)) as Hb.
    { unfold cancel_build, bind, task_of, gets. rewrite Hl by left. done. }
    rewrite (bind_Ok _ _ _ _ _ Hb). apply IH. intros b' Hb'. apply Hl. by right. }
  rewrite (bind_Ok _ _ w2 tt w2).
  2: { apply Hcancel. intros b (kb & -> & Hkb)%list_elem_of_fmap. unfold state_of. cbn. rewrite Htasks.
       destruct kb as [k b]. by apply (Hbuilds k). }
  destruct (stop_runners_quiet (dict_values (mg_runners (mw_mgr w))) w2) as (w' & Hw' & Hm' & Hrow).
  - done.
  - intros ref (dr & -> & Hin)%list_elem_of_fmap. cbn. rewrite Hact. destruct dr as [d ref].
    destruct (ro_runners _ Hok d ref Hin) as (r & Hr & _). by exists r.
  - exists w'. split; [exact Hw'|]. rewrite Hm'. split; [done|]. split; [done|]. split; [exact Hon|].
    intros row. rewrite Hrow. change (mdb w2) with (mdb w1). rewrite Hdb. split; intros [Hin Hno]; (split; [done|]).
    + intros d ref r Hdr Hr. apply (Hno ref); [apply list_elem_of_fmap; by exists (d, ref)|]. cbn. by rewrite Hact.
    + intros ref r (dr & -> & Hdr)%list_elem_of_fmap Hr. destruct dr as [d ref]. cbn in Hr. rewrite Hact in Hr.
      by apply (Hno d ref).
Qed.
End Quiet.

(** ** An eviction during the recovery *)

Section Leak.
Context (config : RunnerConfig) (surface : DialogSurface) (others : nat -> World -> World).

(** What is left of a build task once its actor is registered. *)
Definition rest_of_build (b ref : nat) : M MWorld Exn unit :=
  try_except
    (recover_dialog config others alone never b ref ;;; set_task b (Built ref))
    (fun e => set_task b (if is_exception e then BuildFailed e else BuildCancelled)).

Lemma cancelled_await b w :
  state_of b w = Some (Building true) -> build_await alone never b w = (Err CancelledError, m_ticked w).
Proof. intros Hb. unfold build_await, bind, m_yield, task_of, gets. cbn. unfold state_of in *. cbn. by rewrite Hb. Qed.

Lemma cancelled_recovery b ref r w :
  state_of b w = Some (Building true) -> mw_actors w !! ref = Some r ->
  rest_of_build b ref w = set_task b BuildCancelled (m_ticked w).
Proof.
  intros Hb Hr. unfold rest_of_build, try_except, recover_dialog.
  assert (forall A (d : A) (k : M MWorld Exn A), or_default d (build_await alone never b ;;; k) w = (Err CancelledError, m_ticked w)) as Hcut.
  { intros A d k. unfold or_default, except_exception, try_except. by rewrite (bind_Err _ _ _ _ _ (cancelled_await b w Hb)). }
  unfold bind at 1. rewrite (bind_Ok _ _ _ _ _ (read_actor ref (fun r => dlg_id (r_dialog r)) r w Hr)).
  unfold bind at 1, gets at 1.
  assert (forall {A} (k : _ -> M MWorld Exn A), bind (if cfg_left_first config (mw_tick w)
    then bind (reopen_stranded (build_await alone never b) (dlg_id (r_dialog r))) (fun a =>
           bind (for_recovery (build_await alone never b) (Some (dlg_id (r_dialog r)))) (fun b0 => ret (a.2, b0.1, b0.2)))
    else bind (for_recovery (build_await alone never b) (Some (dlg_id (r_dialog r)))) (fun b0 =>
           bind (reopen_stranded (build_await alone never b) (dlg_id (r_dialog r))) (fun a => ret (a.2, b0.1, b0.2)))) k w
    = (Err CancelledError, m_ticked w)) as ->; [|done].
  intros A k. apply bind_Err. destruct (cfg_left_first _ _); apply bind_Err; apply Hcut.
Qed.

(** An eviction that meets a build in its recovery cancels it and stops
    there: the actor that build had started stays registered and running, and
    its claim stays in the table, while the key is free for another build. *)
Theorem evict_leaks_recovering_actor (m_others : nat -> MWorld -> MWorld) u c b d ref r w :
  dict_get (u, c) (mg_builds (mw_mgr w)) = Some b -> state_of b w = Some (Building false) ->
  dict_get d (mg_runners (mw_mgr w)) = Some ref -> mw_actors w !! ref = Some r ->
  (forall k v, m_others k v = (rest_of_build b ref v).2) ->
  exists w', evict config surface others m_others never u c w = (Ok tt, w') /\
    dict_get (u, c) (mg_builds (mw_mgr w')) = None /\ state_of b w' = Some BuildCancelled /\
    dict_get d (mg_runners (mw_mgr w')) = Some ref /\ mw_actors w' !! ref = Some r /\ mdb w' = mdb w.
Proof.
  intros Hkey Hb Hd Hr Hothers. unfold evict.
  unfold bind at 1, mgr at 1, gets at 1. rewrite Hkey. unfold bind at 1. cbn [set_mgr modify].
  set (w1 := set_mw_mgr _ w).
  assert (state_of b w1 = Some (Building false)) as Hb1 by exact Hb.
  set (w2 := set_mw_tasks (alter (set_bt_state (Building true)) b (mw_tasks w1)) w1).
  set (w3 := set_mw_tick (S (mw_tick w2)) w2).
  assert (state_of b w3 = Some (Building true)) as Hb3.
  { unfold state_of in *. cbn. rewrite list_lookup_alter_eq. cbn in Hb1. by destruct (mw_tasks w !! b). }
  set (w4 := (set_task b BuildCancelled (m_ticked w3)).2).
  assert (cancel_build m_others never b w1 = (Ok tt, w4)) as Hcancel.
  { unfold cancel_build. unfold bind at 1, task_of at 1, gets at 1. rewrite Hb1. cbn [is_done].
    unfold bind at 1. cbn [set_task modify]. fold w2. unfold try_except, m_yield. rewrite Hothers. fold w3.
    rewrite (cancelled_recovery b ref r w3 Hb3 Hr). done. }
  rewrite (bind_Ok _ _ _ _ _ Hcancel). exists w4.
  assert (state_of b w4 = Some BuildCancelled) as Hb4.
  { unfold state_of in *. cbn. rewrite !list_lookup_alter_eq. cbn in Hb1. by destruct (mw_tasks w !! b). }
  split; [unfold bind, task_of, gets; by rewrite Hb4|]. split; [|done]. cbn. rewrite dict_get_pop. by rewrite decide_True.
Qed.
End Leak.
