(* ===== verification/Collecting.v ===== *)
(** * The sweep of collected material ([agent/collecting.py])

    A nominator: it lists the collections that fell quiet and asks each
    dialog's actor to react.  The repositories and the promoter are its ports;
    over the registry of actors they are [manager_sweep]. *)
From S2P Require Import Prelude PyStr Clock Sql Dict Domain UnitOfWork Broadcast TaskStore ExchangeStore MessageStore ClaimStore Compactor RunnerText RunnerState Outbox Pump Answers Actor Cron Manager ManagerLaws.

Definition DEFAULT_QUIET_SECONDS : time := seconds 30.
Definition DEFAULT_INTERVAL_SECONDS : time := seconds 10.

Section Sweeper.
Context {S : Type} (list_stale_collecting : time -> M S Exn (list Exchange)).
Context (get_dialog : pystr -> M S Exn Dialog) (promote_collection : pystr -> pystr -> pystr -> M S Exn unit).
Context (sleep : M S Exn unit) (quiet_seconds : time).

(** One collection handed over; [false] when that failed. *)
Definition nominate (exchange : Exchange) : M S Exn bool :=
  except_exception
    (let! dialog := get_dialog (ex_dialog_id exchange) in
     promote_collection (dlg_user_id dialog) (dlg_channel dialog) (ex_id exchange) ;;;
     ret true)
    (fun _ => ret false).
Fixpoint nominate_all (stale : list Exchange) (promoted : Z) : M S Exn Z :=
  match stale with
  | [] => ret promoted
  | exchange :: stale =>
      let! handed := nominate exchange in
      nominate_all stale (if handed : bool then promoted + 1 else promoted)%Z
  end.
Definition tick : M S Exn Z :=
  let! stale := list_stale_collecting quiet_seconds in
  nominate_all stale 0.

(** [run_forever] over [n] rounds *)
Fixpoint run_rounds (n : nat) : M S Exn unit :=
  match n with
  | O => ret tt
  | Datatypes.S n => except_exception (let! _ := tick in ret tt) (fun _ => ret tt) ;;; sleep ;;; run_rounds n
  end.

(** ** A broken dialog does not stall the others *)

(** The collections handed over, one after the other. *)
Fixpoint handed (stale : list Exchange) (s : S) : list bool * S :=
  match stale with
  | [] => ([], s)
  | exchange :: stale =>
      let '(r, s1) := nominate exchange s in
      let '(l, s2) := handed stale s1 in
      (match r with Ok true => true | _ => false end :: l, s2)
  end.

(** Every collection the store listed is nominated, in the order of the list,
    whatever became of those before it, and the count is that of the ones
    handed over. *)
Lemma tick_reaches_all s stale s1 :
  list_stale_collecting quiet_seconds s = (Ok stale, s1) ->
  (forall x v, (nominate x v).1 <> Err CancelledError) ->
  tick s = (Ok (Z.of_nat (length (filter (fun b => b = true) (handed stale s1).1))), (handed stale s1).2) /\
  length (handed stale s1).1 = length stale.
Proof.
  intros Hlist Hcalm. unfold tick. rewrite (bind_Ok _ _ _ _ _ Hlist).
  clear Hlist. assert (forall n v, nominate_all stale n v =
            (Ok (n + Z.of_nat (length (filter (fun b => b = true) (handed stale v).1)))%Z, (handed stale v).2) /\
            length (handed stale v).1 = length stale) as Hall; [|apply (Hall 0%Z s1)].
  induction stale as [|x l IH]; intros n v; [cbn; by rewrite Z.add_0_r|]. cbn [nominate_all handed].
  specialize (Hcalm x v) as Hx. unfold bind.
  assert (exists b v1, nominate x v = (Ok b, v1)) as (b & v1 & Hb).
  { destruct (nominate x v) as [[b|e] v1] eqn:Hn; [by eexists _, _|]. exfalso.
    unfold nominate, except_exception, try_except in Hn, Hx.
    match type of Hn with context [match ?m with _ => _ end] => destruct m as [[b|e0] v0] end; [done|].
    destruct (is_exception e0) eqn:He; [done|]. injection Hn as <- <-. apply Hx. by destruct e0. }
  rewrite Hb. destruct (IH (if b then n + 1 else n)%Z v1) as [-> Hlen]. destruct (handed l v1) as [bs v2]. cbn in Hlen.
  split; [|cbn; by rewrite Hlen]. unfold fst, snd. apply pair_equal_spec. split; [f_equal|done].
  rewrite filter_cons. destruct b; [rewrite decide_True by done|rewrite decide_False by done]; cbn [length]; lia.
Qed.
End Sweeper.

(** ** Over the registry of actors *)

Section Managed.
Context (config : RunnerConfig) (ownership : OwnershipConfig) (surface : DialogSurface).
Context (others : nat -> World -> World) (m_others : nat -> MWorld -> MWorld).
Context (interrupted : nat -> bool) (quiet_seconds : time).

Definition manager_sweep : M MWorld Exn Z :=
  tick
    (fun quiet =>
       m_yield m_others interrupted ;;;
       let! now := gets mw_now in
       on_conn (read_session (fun db => on_table (list_stale_collecting now quiet) db)))
    (fun d => m_yield m_others interrupted ;;; on_conn (ClaimStore.get d))
    (promote_collection config ownership surface others m_others interrupted)
    quiet_seconds.

Context (Haround : kept_around config surface others m_others).

(** A sweep leaves the registry of actors sound. *)
Lemma sweep_keeps_registry : preserves registry_ok manager_sweep.
Proof.
  unfold manager_sweep, tick. apply preserves_bind.
  { apply preserves_bind; [by eapply safe_preserves, safe_yield|intros _].
    apply preserves_bind; [apply preserves_gets|intros now]. by eapply safe_preserves, safe_conn. }
  intros stale. generalize 0%Z. induction stale as [|x l IH]; intros n; cbn [nominate_all]; [apply preserves_ret|].
  apply preserves_bind; [|intros b; apply IH]. unfold nominate.
  apply preserves_try; [|intros e; destruct (is_exception e); [apply preserves_ret|apply preserves_raise]].
  apply preserves_bind; [|intros dialog; apply preserves_bind; [by apply promote_ok|intros _; apply preserves_ret]].
  apply preserves_bind; [by eapply safe_preserves, safe_yield|intros _]. by eapply safe_preserves, safe_conn.
Qed.
End Managed.
