(* ===== verification/Tariffs.v ===== *)
(** * Plans, metering and limits ([tariffs/])

    The grammar of codes, the catalogue of plans with the bindings of users,
    the usage ledger, the starter plans.  A store method is the statements of
    its session on the three tables; the session around it is
    [UnitOfWork.write_session]. *)
From S2P Require Import Prelude PyStr Clock Sql Dict Domain UnitOfWork.

(** ** Data *)

Module FeatureCode.
Inductive t : Set := SKILL_CREATE | VOICE_TRANSCRIPTION | WEB_SEARCH | MCP_ADD | HTTP_ENDPOINTS | VISION.
Definition value (c : t) : pystr :=
  match c with
  | SKILL_CREATE => "skill_create" | VOICE_TRANSCRIPTION => "voice_transcription"
  | WEB_SEARCH => "web_search" | MCP_ADD => "mcp_add" | HTTP_ENDPOINTS => "http_endpoints"
  | VISION => "vision"
  end.
Definition all : list t := [SKILL_CREATE; VOICE_TRANSCRIPTION; WEB_SEARCH; MCP_ADD; HTTP_ENDPOINTS; VISION].
End FeatureCode.
Definition CORE_FEATURES : gset pystr := list_to_set (FeatureCode.value <$> FeatureCode.all).

Record TariffLimits := {
  daily_tokens : option Z;
  daily_user_messages : option Z;
  daily_assistant_messages : option Z;
  tl_max_cron_jobs : option Z;
  tl_max_datasets : option Z;
  tl_max_memory_chars : option Z }.
Definition no_limits : TariffLimits :=
  {| daily_tokens := None; daily_user_messages := None; daily_assistant_messages := None;
     tl_max_cron_jobs := None; tl_max_datasets := None; tl_max_memory_chars := None |}.

Record Tariff := {
  tf_id : pystr;
  tf_code : pystr;
  tf_title : pystr;
  tf_features : gset pystr;
  tf_limits : TariffLimits;
  tf_created_at : time;
  tf_updated_at : time;
  tf_is_default : bool }.

(** [TariffRow]: the columns of the limits are kept together; the features
    are a sorted list. *)
Record TariffRow := {
  tr_id : pystr;
  tr_code : pystr;
  tr_title : pystr;
  tr_features : list pystr;
  tr_limits : TariffLimits;
  tr_is_default : bool;
  tr_created_at : time;
  tr_updated_at : time }.
Record UserTariffRow := {
  ut_id : pystr;
  ut_user_id : pystr;
  ut_tariff_id : pystr;
  ut_assigned_at : time }.
(** [UsageEventRow]: its id, the event, the stamp of the store. *)
Record UsageEventRow := {
  ur_id : pystr;
  ur_event : UsageEvent;
  ur_created_at : time }.

Record TariffDb := {
  td_tariffs : list TariffRow;
  td_users : list UserTariffRow;
  td_events : list UsageEventRow }.

Record UsageTotals := {
  ut_prompt_tokens : Z;
  ut_completion_tokens : Z;
  ut_user_messages : Z;
  ut_assistant_messages : Z }.
Definition tokens (t : UsageTotals) : Z := ut_prompt_tokens t + ut_completion_tokens t.

(** ** Tables *)

#[export] Instance tariff_db_tariffs : HasTable TariffDb TariffRow.
Proof.
  refine {| table := td_tariffs;
            set_table t d := {| td_tariffs := t; td_users := td_users d; td_events := td_events d |} |};
    [done|done|by intros []].
Defined.
#[export] Instance tariff_db_users : HasTable TariffDb UserTariffRow.
Proof.
  refine {| table := td_users;
            set_table t d := {| td_tariffs := td_tariffs d; td_users := t; td_events := td_events d |} |};
    [done|done|by intros []].
Defined.
#[export] Instance tariff_db_events : HasTable TariffDb UsageEventRow.
Proof.
  refine {| table := td_events;
            set_table t d := {| td_tariffs := td_tariffs d; td_users := td_users d; td_events := t |} |};
    [done|done|by intros []].
Defined.

(** ** Grammar *)

Definition MAX_TITLE_CHARS : Z := 256.
Definition FEATURE_REFUSAL_TEMPLATE (feature : pystr) : pystr :=
  "not available on the current plan: " +s+ feature.

(** [CODE_PATTERN]: [$] also matches before a line feed that ends the
    string. *)
Definition code_char (c : N) : bool :=
  ((97 <=? c) && (c <=? 122) || (48 <=? c) && (c <=? 57) || (c =? 95))%N.
Definition code_word (l : list N) : bool :=
  (1 <=? length l)%nat && (length l <=? 64)%nat && forallb code_char l.
Definition CODE_PATTERN (s : pystr) : bool :=
  code_word (codes s) ||
  (bool_decide (last (codes s) = Some 10%N) && code_word (removelast (codes s))).

Definition feature_enabled (features : option (gset pystr)) (feature : pystr) : bool :=
  match features with None => true | Some features => bool_decide (feature ∈ features) end.
Definition feature_refusal (feature : pystr) : pystr := FEATURE_REFUSAL_TEMPLATE feature.

Section Grammar.
(** [str.lower] of the interpreter. *)
Context (str_lower : pystr -> pystr) {S : Type}.

Definition normalize_feature (raw : pystr) : M S Exn pystr :=
  let feature := str_lower (str_strip raw) in
  if CODE_PATTERN feature then ret feature
  else raise (InvalidTariffError "feature code must be 1-64 characters of [a-z0-9_], e.g. 'web_search'").
Definition normalize_code (raw : pystr) : M S Exn pystr :=
  let code := str_lower (str_strip raw) in
  if CODE_PATTERN code then ret code
  else raise (InvalidTariffError "tariff code must be 1-64 characters of [a-z0-9_], e.g. 'basic'").
Definition normalize_title (raw : pystr) : M S Exn pystr :=
  let title := str_strip raw in
  if str_empty title || (MAX_TITLE_CHARS <? str_len title)%Z
  then raise (InvalidTariffError ("tariff title must be 1.." +s+ str_of_Z MAX_TITLE_CHARS +s+ " characters"))
  else ret title.
Definition normalize_limit (raw : option Z) (name : pystr) : M S Exn (option Z) :=
  match raw with
  | None => ret None
  | Some n =>
      if (n <? 0)%Z then raise (InvalidTariffError (name +s+ " must be non-negative or unlimited (null)"))
      else ret (Some n)
  end.
(** [TariffLimits.normalized] *)
Definition normalized (limits : TariffLimits) : M S Exn TariffLimits :=
  let! a := normalize_limit (daily_tokens limits) "daily_tokens" in
  let! b := normalize_limit (daily_user_messages limits) "daily_user_messages" in
  let! c := normalize_limit (daily_assistant_messages limits) "daily_assistant_messages" in
  let! d := normalize_limit (tl_max_cron_jobs limits) "max_cron_jobs" in
  let! e := normalize_limit (tl_max_datasets limits) "max_datasets" in
  let! f := normalize_limit (tl_max_memory_chars limits) "max_memory_chars" in
  ret {| daily_tokens := a; daily_user_messages := b; daily_assistant_messages := c;
         tl_max_cron_jobs := d; tl_max_datasets := e; tl_max_memory_chars := f |}.

(** [sorted({normalize_feature(feature) for feature in features})] *)
Fixpoint normalize_features (features : list pystr) : M S Exn (gset pystr) :=
  match features with
  | [] => ret ∅
  | feature :: features =>
      let! code := normalize_feature feature in
      let! codes := normalize_features features in
      ret ({[code]} ∪ codes)
  end.
End Grammar.
Definition sorted_codes (codes : gset pystr) : list pystr := order_by_str id (elements codes).

(** ** The catalogue *)

(** [_to_tariff] and [_find_tariff] *)
Definition to_tariff (r : TariffRow) : Tariff :=
  {| tf_id := tr_id r; tf_code := tr_code r; tf_title := tr_title r;
     tf_features := list_to_set (tr_features r); tf_limits := tr_limits r;
     tf_created_at := tr_created_at r; tf_updated_at := tr_updated_at r;
     tf_is_default := tr_is_default r |}.
Definition find_tariff (code : pystr) (t : list TariffRow) : option TariffRow := find_key tr_code code t.

Definition assign_columns (features : list pystr) (limits : TariffLimits) (is_default : bool) (r : TariffRow) : TariffRow :=
  {| tr_id := tr_id r; tr_code := tr_code r; tr_title := tr_title r; tr_features := features;
     tr_limits := limits; tr_is_default := is_default; tr_created_at := tr_created_at r;
     tr_updated_at := tr_updated_at r |}.
Definition assign_title (title : pystr) (now : time) (r : TariffRow) : TariffRow :=
  {| tr_id := tr_id r; tr_code := tr_code r; tr_title := title; tr_features := tr_features r;
     tr_limits := tr_limits r; tr_is_default := tr_is_default r; tr_created_at := tr_created_at r;
     tr_updated_at := now |}.
Definition demote (r : TariffRow) : TariffRow := assign_columns (tr_features r) (tr_limits r) false r.
Definition assign_tariff (tariff_id : pystr) (now : time) (r : UserTariffRow) : UserTariffRow :=
  {| ut_id := ut_id r; ut_user_id := ut_user_id r; ut_tariff_id := tariff_id; ut_assigned_at := now |}.

(** Whether the two rows join: the user is bound to the plan. *)
Definition bound_to (user_id : pystr) (users : list UserTariffRow) (r : TariffRow) : Prop :=
  Exists (fun b => ut_user_id b = user_id /\ ut_tariff_id b = tr_id r) users.
#[export] Instance bound_to_dec u users r : Decision (bound_to u users r).
Proof. unfold bound_to. apply _. Defined.

Module TariffStore.
Section Store.
Context (str_lower : pystr -> pystr) (now : time) (new_id : pystr).

(** [put], inside its session: [code], [title] and [caps] are normalised. *)
Definition put_row (code title : pystr) (features : list pystr) (caps : TariffLimits) (is_default : bool)
    : M TariffDb Exn Tariff :=
  let! found := gets (fun d => find_tariff code (table d)) in
  let row := match found with
             | None => {| tr_id := new_id; tr_code := code; tr_title := title; tr_features := [];
                          tr_limits := no_limits; tr_is_default := false; tr_created_at := now;
                          tr_updated_at := now |}
             | Some row => assign_title title now row
             end in
  let! codes := normalize_features str_lower features in
  let row := assign_columns (sorted_codes codes) caps is_default row in
  on_table (modify (fun t =>
    match found with
    | None => insert_row row t
    | Some _ => update_where (fun r => tr_code r = code) (fun _ => row) t
    end)) ;;;
  when is_default (on_table (modify (update_where (fun r => tr_code r <> code) demote))) ;;;
  ret (to_tariff row).

Definition list : M TariffDb Exn (list Tariff) :=
  gets (fun d => to_tariff <$> order_by_str tr_code (table d : Datatypes.list TariffRow)).

(** [delete] of the normalised code *)
Definition delete_row (code : pystr) : M TariffDb Exn unit :=
  let! found := gets (fun d => find_tariff code (table d)) in
  match found with
  | None => raise (TariffNotFoundError code)
  | Some row =>
      let! assigned := gets (fun d => rowcount (fun b => ut_tariff_id b = tr_id row) (table d)) in
      if decide (assigned = 0) then on_table (modify (delete_where (fun r => tr_id r = tr_id row)))
      else raise (TariffInUseError ("tariff '" +s+ code +s+ "' is assigned to " +s+ str_of_Z (Z.of_nat assigned) +s+ " user(s)"))
  end.

Definition assign (user_id : pystr) (code : option pystr) : M TariffDb Exn unit :=
  let! binding := gets (fun d => find_key ut_user_id user_id (table d)) in
  match code with
  | None =>
      match binding with
      | Some b => on_table (modify (delete_where (fun r => ut_id r = ut_id b)))
      | None => ret tt
      end
  | Some code =>
      let! normal := normalize_code str_lower code in
      let! tariff := gets (fun d => find_tariff normal (table d)) in
      match tariff, binding with
      | None, _ => raise (TariffNotFoundError code)
      | Some tariff, None =>
          on_table (modify (insert_row {| ut_id := new_id; ut_user_id := user_id; ut_tariff_id := tr_id tariff;
                                          ut_assigned_at := now |}))
      | Some tariff, Some b =>
          on_table (modify (update_where (fun r => ut_id r = ut_id b) (assign_tariff (tr_id tariff) now)))
      end
  end.

Definition tariff_for_user (user_id : pystr) : M TariffDb Exn (option Tariff) :=
  gets (fun d =>
    let row := match head (select_where (bound_to user_id (table d)) (table d)) with
               | Some row => Some row
               | None => head (select_where (fun r => tr_is_default r = true) (table d))
               end in
    to_tariff <$> row).

Definition assignments : M TariffDb Exn (Datatypes.list (pystr * pystr)) :=
  gets (fun d =>
    foldl (fun pairs (p : pystr * pystr) => dict_set p.1 p.2 pairs) []
      (b ← (table d : Datatypes.list UserTariffRow);
       (fun r => (ut_user_id b, tr_code r)) <$> select_where (fun r => tr_id r = ut_tariff_id b) (table d))).
End Store.
End TariffStore.

(** ** The ledger *)

Module UsageMeter.
Definition record (now : time) (new_id : pystr) (event : UsageEvent) : M TariffDb Exn unit :=
  on_table (modify (insert_row
    {| ur_id := new_id; ur_event := event; ur_created_at := default now (ue_created_at event) |})).

(** [func.sum(case((kind == ..., quantity)))], a missing sum read as 0. *)
Definition counted (kind : UsageKind.t) (rows : list UsageEventRow) : Z :=
  sum_Z ((fun r => ue_quantity (ur_event r)) <$> filter (fun r => ue_kind (ur_event r) = kind) rows).
Definition in_window (user_id : pystr) (since : time) (r : UsageEventRow) : Prop :=
  ue_user_id (ur_event r) = user_id /\ (since <= ur_created_at r)%Z.
#[export] Instance in_window_dec u s r : Decision (in_window u s r).
Proof. unfold in_window. apply _. Defined.
Definition totals_of (rows : list UsageEventRow) : UsageTotals :=
  {| ut_prompt_tokens := sum_Z ((fun r => ue_prompt_tokens (ur_event r)) <$> rows);
     ut_completion_tokens := sum_Z ((fun r => ue_completion_tokens (ur_event r)) <$> rows);
     ut_user_messages := counted UsageKind.USER_MESSAGE rows;
     ut_assistant_messages := counted UsageKind.LLM_ANSWER rows |}.
Definition totals_since (user_id : pystr) (since : time) : M TariffDb Exn UsageTotals :=
  gets (fun d => totals_of (select_where (in_window user_id since) (table d))).
End UsageMeter.

(** ** The starter plans *)

Definition UNLIMITED_CODE : pystr := "unlimited".
Definition FREEMIUM_CODE : pystr := "freemium".
Definition UNLIMITED_FEATURES : list pystr :=
  ["skill_create"; "voice_transcription"; "web_search"; "mcp_add"; "http_endpoints"; "vision"].
Definition FREEMIUM_FEATURES : list pystr := ["web_search"].
Record StarterPlan := {
  sp_code : pystr;
  sp_title : pystr;
  sp_features : list pystr;
  sp_limits : TariffLimits;
  sp_is_default : bool }.
Definition STARTER_PLANS : list StarterPlan :=
  [{| sp_code := UNLIMITED_CODE; sp_title := "Unlimited"; sp_features := UNLIMITED_FEATURES;
      sp_limits := no_limits; sp_is_default := false |};
   {| sp_code := FREEMIUM_CODE; sp_title := "Freemium"; sp_features := FREEMIUM_FEATURES;
      sp_limits := {| daily_tokens := Some 100000; daily_user_messages := Some 30;
                      daily_assistant_messages := Some 60; tl_max_cron_jobs := Some 1;
                      tl_max_datasets := Some 1; tl_max_memory_chars := Some 4000 |}%Z;
      sp_is_default := false |}].
(** [ids]: one [uuid4] per plan. *)
Definition starter_row (ids : pystr -> pystr) (now : time) (p : StarterPlan) : TariffRow :=
  {| tr_id := ids (sp_code p); tr_code := sp_code p; tr_title := sp_title p; tr_features := sp_features p;
     tr_limits := sp_limits p; tr_is_default := sp_is_default p; tr_created_at := now; tr_updated_at := now |}.
Definition seed_starter_tariffs (has_table : bool) (ids : pystr -> pystr) (now : time) (t : list TariffRow)
    : list TariffRow :=
  if negb has_table then t
  else
    let present := tr_code <$> t in
    t ++ (starter_row ids now <$> filter (fun p => sp_code p ∉ present) STARTER_PLANS).

(** ** Limit checks ([tariffs/service.py]) over the stores ([tariffs/store.py] *)

(** One service per node: the plan of a user is read afresh for every
    question, the totals of the day are cached for a while and dropped when
    this node meters something.  Every store call is an await. *)
(** The entry of [_totals_cache]: when it expires, the day, the totals. *)
Record CachedTotals := {
  ct_expires : time;
  ct_day_start : time;
  ct_totals : UsageTotals }.
Record TWorld := {
  tw_conn : Conn TariffDb;
  tw_now : time;
  tw_monotonic : time;
  tw_ids : N;
  tw_tick : nat;
  tw_cache : list (pystr * CachedTotals) }.
Definition set_tw_conn (v : Conn TariffDb) (w : TWorld) : TWorld :=
  {| tw_conn := v; tw_now := tw_now w; tw_monotonic := tw_monotonic w; tw_ids := tw_ids w;
     tw_tick := tw_tick w; tw_cache := tw_cache w |}.
Definition set_tw_ids (v : N) (w : TWorld) : TWorld :=
  {| tw_conn := tw_conn w; tw_now := tw_now w; tw_monotonic := tw_monotonic w; tw_ids := v;
     tw_tick := tw_tick w; tw_cache := tw_cache w |}.
Definition set_tw_tick (v : nat) (w : TWorld) : TWorld :=
  {| tw_conn := tw_conn w; tw_now := tw_now w; tw_monotonic := tw_monotonic w; tw_ids := tw_ids w;
     tw_tick := v; tw_cache := tw_cache w |}.
Definition set_tw_cache (v : list (pystr * CachedTotals)) (w : TWorld) : TWorld :=
  {| tw_conn := tw_conn w; tw_now := tw_now w; tw_monotonic := tw_monotonic w; tw_ids := tw_ids w;
     tw_tick := tw_tick w; tw_cache := v |}.
#[export] Instance tworld_has_conn : HasConn TWorld TariffDb.
Proof. refine {| conn_of := tw_conn; set_conn := set_tw_conn |}; [done|done|by intros []]. Defined.

(** [utc_now().replace(hour=0, minute=0, second=0, microsecond=0)] *)
Definition day_start (now : time) : time := (utc_day now * day_us)%Z.

Section Service.
Context (str_lower : pystr -> pystr) (others : nat -> TWorld -> TWorld) (verdict_cache_ttl : time).

Definition t_yield : M TWorld Exn unit := fun w =>
  (Ok tt, others (tw_tick w) (set_tw_tick (S (tw_tick w)) w)).
(** A store call: others run before its statements and after them. *)
Definition store_call {A} (m : M TWorld Exn A) : M TWorld Exn A :=
  t_yield ;;;
  let! a := try_except m (fun e => t_yield ;;; raise e) in
  t_yield ;;;
  ret a.
Definition t_uuid : M TWorld Exn pystr := fun w => (Ok (uuid4_hex (tw_ids w)), set_tw_ids (tw_ids w + 1)%N w).
Definition t_now : M TWorld Exn time := gets tw_now.

(** ** The stores over the database *)

Definition put (code title : pystr) (features : list pystr) (limits : option TariffLimits) (is_default : bool)
    : M TWorld Exn Tariff :=
  let! code := normalize_code str_lower code in
  let! title := normalize_title title in
  let! caps := normalized (default no_limits limits) in
  store_call
    (let! now := t_now in
     let! id := t_uuid in
     on_conn (write_session (TariffStore.put_row str_lower now id code title features caps is_default))).
Definition delete (code : pystr) : M TWorld Exn unit :=
  let! code := normalize_code str_lower code in
  store_call (on_conn (write_session (TariffStore.delete_row code))).
Definition assign (user_id : pystr) (code : option pystr) : M TWorld Exn unit :=
  store_call
    (let! now := t_now in
     let! id := t_uuid in
     on_conn (write_session (TariffStore.assign str_lower now id user_id code))).
Definition tariff_for_user (user_id : pystr) : M TWorld Exn (option Tariff) :=
  store_call (on_conn (read_session (TariffStore.tariff_for_user user_id))).
Definition meter_record (event : UsageEvent) : M TWorld Exn unit :=
  store_call
    (let! now := t_now in
     let! id := t_uuid in
     on_conn (write_session (UsageMeter.record now id event))).
Definition totals_since (user_id : pystr) (since : time) : M TWorld Exn UsageTotals :=
  store_call (on_conn (read_session (UsageMeter.totals_since user_id since))).

(** ** [LimitService] *)

Definition resolve (user_id : pystr) : M TWorld Exn (option Tariff) := tariff_for_user user_id.

Definition enabled_features (user_id : pystr) : M TWorld Exn (option (gset pystr)) :=
  let! tariff := resolve user_id in ret (tf_features <$> tariff).
Definition allows (user_id feature : pystr) : M TWorld Exn bool :=
  let! tariff := resolve user_id in
  ret (match tariff with None => true | Some tariff => bool_decide (feature ∈ tf_features tariff) end).

(** [_totals_today] *)
Definition totals_today (user_id : pystr) : M TWorld Exn UsageTotals :=
  let! now := t_now in
  let day := day_start now in
  let! cached := gets (fun w => dict_get user_id (tw_cache w)) in
  let! monotonic := gets tw_monotonic in
  let fresh := match cached with
               | Some c => (monotonic <? ct_expires c)%Z && (ct_day_start c =? day)%Z
               | None => false
               end in
  match cached, fresh with
  | Some c, true => ret (ct_totals c)
  | _, _ =>
      let! totals := totals_since user_id day in
      modify (fun w => set_tw_cache (dict_set user_id
        {| ct_expires := tw_monotonic w + verdict_cache_ttl; ct_day_start := day; ct_totals := totals |}%Z
        (tw_cache w)) w) ;;;
      ret totals
  end.

Definition refused (reason : pystr) (used limit : Z) : LimitVerdict :=
  {| lv_allowed := false; lv_reason := Some reason; lv_used := used; lv_limit := limit |}.
(** [_check_tokens] *)
Definition check_tokens (tariff : Tariff) (totals : UsageTotals) : LimitVerdict :=
  match daily_tokens (tf_limits tariff) with
  | Some cap => if (cap <=? tokens totals)%Z then refused "daily_tokens" (tokens totals) cap else verdict_ok
  | None => verdict_ok
  end.
Definition check_answers (tariff : Tariff) (totals : UsageTotals) : LimitVerdict :=
  match daily_assistant_messages (tf_limits tariff) with
  | Some cap =>
      if (cap <=? ut_assistant_messages totals)%Z
      then refused "daily_assistant_messages" (ut_assistant_messages totals) cap
      else check_tokens tariff totals
  | None => check_tokens tariff totals
  end.
(** What [check_run_budget] says of a plan and the day's totals. *)
Definition budget_verdict (tariff : Tariff) (totals : UsageTotals) : LimitVerdict :=
  match daily_user_messages (tf_limits tariff) with
  | Some cap =>
      if (cap <? ut_user_messages totals)%Z
      then refused "daily_user_messages" (ut_user_messages totals) cap
      else check_answers tariff totals
  | None => check_answers tariff totals
  end.
Definition check_run_budget (user_id : pystr) : M TWorld Exn LimitVerdict :=
  let! tariff := resolve user_id in
  match tariff with
  | None => ret verdict_ok
  | Some tariff => let! totals := totals_today user_id in ret (budget_verdict tariff totals)
  end.

Definition max_cron_jobs (user_id : pystr) : M TWorld Exn (option Z) :=
  let! tariff := resolve user_id in ret (t ← tariff; tl_max_cron_jobs (tf_limits t)).
Definition max_datasets (user_id : pystr) : M TWorld Exn (option Z) :=
  let! tariff := resolve user_id in ret (t ← tariff; tl_max_datasets (tf_limits t)).
Definition max_memory_chars (user_id : pystr) : M TWorld Exn (option Z) :=
  let! tariff := resolve user_id in ret (t ← tariff; tl_max_memory_chars (tf_limits t)).

Definition record (event : UsageEvent) : M TWorld Exn unit :=
  let! stored := except_exception (meter_record event ;;; ret true) (fun _ => ret false) in
  when stored (modify (fun w => set_tw_cache (dict_pop (ue_user_id event) (tw_cache w)) w)).
End Service.
