(* ===== verification/TariffLaws.v ===== *)
(** * Laws of plans and metering

    The catalogue keeps its invariant, starter plans never touch what is
    there, a budget is what the ledger of the day says, and metering never
    fails its caller. *)
From S2P Require Import Prelude PyStr Clock Sql Dict Domain UnitOfWork Tariffs.

(** ** The catalogue *)

Definition defaults (t : list TariffRow) : list TariffRow := filter (fun r => tr_is_default r = true) t.
(** Codes and ids are unique, at most one plan is the default, a user is bound
    at most once, and to a plan that exists. *)
Record catalogue_ok (d : TariffDb) : Prop := {
  ca_codes : NoDup (tr_code <$> td_tariffs d);
  ca_ids : NoDup (tr_id <$> td_tariffs d);
  ca_default : length (defaults (td_tariffs d)) <= 1;
  ca_users : NoDup (ut_user_id <$> td_users d);
  ca_bindings : NoDup (ut_id <$> td_users d);
  ca_bound : Forall (fun b => ut_tariff_id b ∈ (tr_id <$> td_tariffs d)) (td_users d) }.
(** An id no row has. *)
Definition unused (id : pystr) (d : TariffDb) : Prop :=
  (id ∉ (tr_id <$> td_tariffs d)) /\ (id ∉ (ut_id <$> td_users d)).

Lemma fmap_update_where {R K} (key : R -> K) P `{!forall r : R, Decision (P r)} f t :
  (forall r, P r -> r ∈ t -> key (f r) = key r) -> key <$> update_where P f t = key <$> t.
Proof.
  intros Hf. unfold update_where. rewrite <-list_fmap_compose. apply Forall_fmap_ext_1.
  apply Forall_forall. intros r Hr. cbn. case_decide; [by apply Hf|done].
Qed.
Lemma length_filter_filter {A} P Q `{!forall x : A, Decision (P x)} `{!forall x : A, Decision (Q x)} (l : list A) :
  length (filter P (filter Q l)) <= length (filter P l).
Proof.
  induction l as [|x l IH]; [done|]. rewrite (filter_cons Q), (filter_cons P _ l).
  destruct (decide (Q x)); [rewrite filter_cons|]; repeat case_decide; cbn; lia.
Qed.
Lemma NoDup_snoc {A} (l : list A) x : NoDup l -> x ∉ l -> NoDup (l ++ [x]).
Proof.
  intros Hl Hx. apply NoDup_app. split; [done|]. split; [|apply NoDup_singleton].
  intros y Hy ->%list_elem_of_singleton. done.
Qed.

Lemma defaults_demoted code t :
  NoDup (tr_code <$> t) -> length (defaults (update_where (fun r => tr_code r <> code) demote t)) <= 1.
Proof.
  intros Hnd. unfold defaults.
  assert (forall r, r ∈ filter (fun r => tr_is_default r = true) (update_where (fun r => tr_code r <> code) demote t) ->
            r ∈ t /\ tr_code r = code) as Hin.
  { intros r [Hd (r0 & -> & Hr0)%list_elem_of_fmap]%list_elem_of_filter. case_decide; [done|]. split; [done|].
    destruct (decide (tr_code r0 = code)); [done|contradiction]. }
  assert (NoDup (tr_code <$> filter (fun r => tr_is_default r = true) (update_where (fun r => tr_code r <> code) demote t))) as Hnd'.
  { eapply sublist_NoDup; [|apply fmap_sublist, sublist_filter]. by rewrite fmap_update_where. }
  destruct (filter _ _) as [|a [|b l]]; [cbn; lia..|]. exfalso.
  destruct (Hin a) as [_ Ha]; [by left|]. destruct (Hin b) as [_ Hb]; [by right; left|].
  cbn in Hnd'. inv Hnd'. set_solver.
Qed.

Section Catalogue.
Context (str_lower : pystr -> pystr).

Lemma normalize_code_cases {S} raw (s : S) :
  (exists code, normalize_code str_lower raw s = (Ok code, s)) \/
  exists text, normalize_code str_lower raw s = (Err (InvalidTariffError text), s).
Proof. unfold normalize_code. case_match; [left|right]; by eexists. Qed.
Lemma normalize_features_cases {S} l (s : S) :
  (exists codes, normalize_features str_lower l s = (Ok codes, s)) \/
  exists text, normalize_features str_lower l s = (Err (InvalidTariffError text), s).
Proof.
  induction l as [|x l IH]; cbn [normalize_features]; [left; by eexists|].
  unfold bind, normalize_feature. destruct (CODE_PATTERN _); cbn; [|right; by eexists].
  destruct IH as [(codes & ->)|(text & ->)]; [left|right]; by eexists.
Qed.

(** The rows of the catalogue after a [put]. *)
Definition put_rows (row : TariffRow) (found : bool) (is_default : bool) (t : list TariffRow) : list TariffRow :=
  let t := if found then update_where (fun r => tr_code r = tr_code row) (fun _ => row) t else insert_row row t in
  if is_default then update_where (fun r => tr_code r <> tr_code row) demote t else t.

Lemma put_row_cases now id code title features caps is_default d :
  (exists row,
     TariffStore.put_row str_lower now id code title features caps is_default d =
       (Ok (to_tariff row),
        set_table (put_rows row (bool_decide (is_Some (find_tariff code (td_tariffs d)))) is_default (td_tariffs d)) d) /\
     tr_code row = code /\ tr_is_default row = is_default /\ tr_title row = title /\ tr_limits row = caps /\
     tr_id row = match find_tariff code (td_tariffs d) with Some r => tr_id r | None => id end) \/
  exists text, TariffStore.put_row str_lower now id code title features caps is_default d = (Err (InvalidTariffError text), d).
Proof.
  unfold TariffStore.put_row, bind, gets. cbv beta iota zeta. change (table d) with (td_tariffs d).
  destruct (normalize_features_cases features d) as [(codes & ->)|(text & ->)]; [|right; by exists text].
  left. unfold on_table, modify, when, put_rows.
  destruct (find_tariff code (td_tariffs d)) as [r|] eqn:Hf; cbn.
  - apply find_key_Some in Hf as [_ <-].
    exists (assign_columns (sorted_codes codes) caps is_default (assign_title title now r)).
    split; [by destruct is_default|by split_and!].
  - exists (assign_columns (sorted_codes codes) caps is_default
      {| tr_id := id; tr_code := code; tr_title := title; tr_features := []; tr_limits := no_limits;
         tr_is_default := false; tr_created_at := now; tr_updated_at := now |}).
    split; [by destruct is_default|by split_and!].
Qed.

Lemma defaults_update row t :
  tr_is_default row = false ->
  length (defaults (update_where (fun r => tr_code r = tr_code row) (fun _ => row) t)) <= length (defaults t).
Proof.
  intros Hd. unfold defaults, update_where. induction t as [|r t IH]; [done|]. rewrite fmap_cons, !filter_cons.
  destruct (decide (tr_code r = tr_code row)) as [Hc|Hc].
  - rewrite (decide_False (P := tr_is_default row = true)) by congruence. case_decide; cbn; lia.
  - case_decide; cbn; lia.
Qed.

Lemma put_rows_ok row found is_default d :
  catalogue_ok d -> tr_is_default row = is_default ->
  match find_tariff (tr_code row) (td_tariffs d) with
  | Some r => found = true /\ tr_id row = tr_id r
  | None => found = false /\ tr_id row ∉ (tr_id <$> td_tariffs d)
  end ->
  catalogue_ok (set_table (put_rows row found is_default (td_tariffs d)) d).
Proof.
  intros Hok Hdef Hfind. unfold put_rows.
  set (t1 := if found then _ else _).
  assert (NoDup (tr_code <$> t1) /\ NoDup (tr_id <$> t1) /\ (tr_id <$> td_tariffs d) ⊆ (tr_id <$> t1) /\
          (is_default = false -> length (defaults t1) <= 1)) as (Hcodes & Hids & Hsub & Hdefs).
  { destruct (find_tariff (tr_code row) (td_tariffs d)) as [r|] eqn:Hf; destruct Hfind as [-> Hid]; subst t1.
    - assert (tr_id <$> update_where (fun r => tr_code r = tr_code row) (fun _ => row) (td_tariffs d) = tr_id <$> td_tariffs d) as Heq.
      { apply fmap_update_where. intros r' Hr' Hin. rewrite Hid. f_equal.
        unfold find_tariff in Hf. rewrite (find_key_elem tr_code (tr_code row) _ r' (ca_codes _ Hok) Hin Hr') in Hf. by simplify_eq. }
      rewrite Heq. split_and!; [|apply (ca_ids _ Hok)|done|].
      + rewrite fmap_update_where by done. apply (ca_codes _ Hok).
      + intros ->. etrans; [by apply defaults_update|apply (ca_default _ Hok)].
    - unfold insert_row. rewrite !fmap_app. split_and!.
      + apply NoDup_snoc; [apply (ca_codes _ Hok)|]. apply find_key_None in Hf. intros (r & Hr & Hin)%list_elem_of_fmap.
        rewrite Forall_forall in Hf. by apply (Hf r).
      + by apply NoDup_snoc; [apply (ca_ids _ Hok)|].
      + set_solver.
      + intros ->. unfold defaults. rewrite filter_app, filter_cons_False, app_nil_r by congruence. apply (ca_default _ Hok). }
  assert (forall t2, (tr_id <$> t2 = tr_id <$> t1) -> Forall (fun b => ut_tariff_id b ∈ (tr_id <$> t2)) (td_users d)) as Hbound.
  { intros t2 ->. eapply Forall_impl; [apply (ca_bound _ Hok)|]. cbn. set_solver. }
  destruct is_default; split; cbn; try apply (ca_users _ Hok); try apply (ca_bindings _ Hok); try done.
  - by rewrite fmap_update_where.
  - by rewrite fmap_update_where.
  - by apply defaults_demoted.
  - apply Hbound. by apply fmap_update_where.
  - by apply Hdefs.
  - by apply Hbound.
Qed.

(** No ids but the old ones and the new one. *)
Definition grows (id : pystr) (d d' : TariffDb) : Prop := forall x, unused x d -> x <> id -> unused x d'.
Lemma grows_refl id d : grows id d d.
Proof. by intros x. Qed.
Lemma put_grows now id code title features caps is_default d :
  grows id d (TariffStore.put_row str_lower now id code title features caps is_default d).2.
Proof.
  destruct (put_row_cases now id code title features caps is_default d) as [(row & -> & Hc & _ & _ & _ & Hi)|(text & ->)]; [|apply grows_refl].
  intros x [Hx Hu] Hne. split; [|exact Hu]. cbn [snd].
  assert (x <> tr_id row) as Hrow.
  { rewrite Hi. destruct (find_tariff code (td_tariffs d)) as [r|] eqn:Hf; [|done].
    apply find_key_Some in Hf as [Hf _]. intros ->. apply Hx. apply list_elem_of_fmap. by exists r. }
  cbn. unfold put_rows. set (t1 := if bool_decide _ then _ else _).
  assert (x ∉ (tr_id <$> t1)) as Ht1.
  { subst t1. case_bool_decide.
    - intros (r & -> & (r0 & -> & Hr0)%list_elem_of_fmap)%list_elem_of_fmap. case_decide; [done|].
      apply Hx. apply list_elem_of_fmap. by exists r0.
    - unfold insert_row. rewrite fmap_app. set_solver. }
  destruct is_default; [|done]. by rewrite fmap_update_where.
Qed.
Lemma put_ok now id code title features caps is_default d :
  catalogue_ok d -> unused id d ->
  catalogue_ok (TariffStore.put_row str_lower now id code title features caps is_default d).2.
Proof.
  intros Hok [Hid _].
  destruct (put_row_cases now id code title features caps is_default d) as [(row & -> & Hc & Hd & _ & _ & Hi)|(text & ->)]; [|done].
  cbn [snd]. apply put_rows_ok; [done|done|]. rewrite Hc. destruct (find_tariff code (td_tariffs d)); [|by rewrite Hi].
  split; [done|exact Hi].
Qed.

Lemma delete_ok code d : catalogue_ok d -> catalogue_ok (TariffStore.delete_row code d).2.
Proof.
  intros Hok. unfold TariffStore.delete_row, bind, gets. change (table d) with (td_tariffs d).
  destruct (find_tariff code (td_tariffs d)) as [row|] eqn:Hf; [|done].
  destruct (decide _) as [Hz|]; [|done]. cbn. change (table d) with (td_users d) in Hz. apply rowcount_zero in Hz.
  destruct Hok. split; cbn; try done.
  - eapply sublist_NoDup; [exact ca_codes0|]. apply fmap_sublist, sublist_filter.
  - eapply sublist_NoDup; [exact ca_ids0|]. apply fmap_sublist, sublist_filter.
  - etrans; [apply length_filter_filter|done].
  - rewrite Forall_forall in *. intros b Hb. specialize (ca_bound0 b Hb). apply list_elem_of_fmap in ca_bound0 as (r & Hr & Hin).
    apply list_elem_of_fmap. exists r. split; [done|]. apply list_elem_of_filter. split; [|done].
    rewrite <-Hr. by apply Hz.
Qed.

Lemma delete_unused x code d : unused x d -> unused x (TariffStore.delete_row code d).2.
Proof.
  unfold TariffStore.delete_row, bind, gets. destruct (find_tariff _ _) as [row|]; [|done].
  destruct (decide _); [|done]. intros [Hx Hu]. split; [|exact Hu].
  intros (r & -> & [_ Hr]%list_elem_of_filter)%list_elem_of_fmap. apply Hx, list_elem_of_fmap. by exists r.
Qed.
Lemma users_ok users d :
  catalogue_ok d -> NoDup (ut_user_id <$> users) -> NoDup (ut_id <$> users) ->
  Forall (fun b => ut_tariff_id b ∈ (tr_id <$> td_tariffs d)) users -> catalogue_ok (set_table users d).
Proof. by intros [] ???; split. Qed.
Lemma assign_ok now id user_id code d :
  catalogue_ok d -> unused id d -> catalogue_ok (TariffStore.assign str_lower now id user_id code d).2.
Proof.
  intros Hok [_ Hid]. unfold TariffStore.assign, bind, gets. change (table d) with (td_users d).
  destruct code as [code|].
  - destruct (normalize_code_cases code d) as [(normal & ->)|(text & ->)]; [|done]. change (table d) with (td_tariffs d).
    destruct (find_tariff normal (td_tariffs d)) as [tariff|] eqn:Hf; [|done].
    apply find_key_Some in Hf as [Hin _]. assert (tr_id tariff ∈ (tr_id <$> td_tariffs d)) as Ht by (apply list_elem_of_fmap; by exists tariff).
    destruct (find_key ut_user_id user_id (td_users d)) as [b|] eqn:Hb.
    + apply (users_ok (update_where (fun r => ut_id r = ut_id b) (assign_tariff (tr_id tariff) now) (td_users d)));
        rewrite ?fmap_update_where by done; [done|apply Hok|apply Hok|].
      apply Forall_fmap. eapply Forall_impl; [apply (ca_bound _ Hok)|]. cbn. intros r Hr. by case_decide.
    + apply (users_ok (insert_row _ (td_users d))); unfold insert_row; [done| | |].
      * rewrite fmap_app. apply NoDup_snoc; [apply Hok|]. apply find_key_None in Hb. intros (r & Hr & Hr')%list_elem_of_fmap.
        rewrite Forall_forall in Hb. by apply (Hb r).
      * rewrite fmap_app. apply NoDup_snoc; [apply Hok|done].
      * apply Forall_app. split; [apply (ca_bound _ Hok)|]. by constructor.
  - destruct (find_key ut_user_id user_id (td_users d)) as [b|] eqn:Hb; [|done].
    apply (users_ok (delete_where (fun r => ut_id r = ut_id b) (td_users d))); [done| | |].
    + eapply sublist_NoDup; [apply (ca_users _ Hok)|]. apply fmap_sublist, sublist_filter.
    + eapply sublist_NoDup; [apply (ca_bindings _ Hok)|]. apply fmap_sublist, sublist_filter.
    + apply Forall_filter_keep, (ca_bound _ Hok).
Qed.
Lemma assign_grows now id user_id code d : grows id d (TariffStore.assign str_lower now id user_id code d).2.
Proof.
  unfold TariffStore.assign, bind, gets. change (table d) with (td_users d).
  destruct code as [code|].
  - destruct (normalize_code_cases code d) as [(normal & ->)|(text & ->)]; [|apply grows_refl].
    destruct (find_tariff normal _) as [tariff|]; [|apply grows_refl]. intros x [Hx Hu] Hne.
    destruct (find_key ut_user_id user_id (td_users d)) as [b|]; (split; [exact Hx|]).
    + change (x ∉ (ut_id <$> update_where (fun r => ut_id r = ut_id b) (assign_tariff (tr_id tariff) now) (td_users d))).
      by rewrite fmap_update_where.
    + cbn. unfold insert_row. rewrite fmap_app. set_solver.
  - destruct (find_key ut_user_id user_id (td_users d)) as [b|]; [|apply grows_refl]. intros x [Hx Hu] _. split; [exact Hx|].
    intros (r & -> & [_ Hr]%list_elem_of_filter)%list_elem_of_fmap. apply Hu, list_elem_of_fmap. by exists r.
Qed.
End Catalogue.

(** ** The service over the database *)

Definition tdb (w : TWorld) : TariffDb := committed (tw_conn w).
(** Outside any unit of work, with a sound catalogue and ids to spare. *)
Record world_ok (w : TWorld) : Prop := {
  wo_idle : live_session (tw_conn w) = None;
  wo_catalogue : catalogue_ok (tdb w);
  wo_fresh n : (tw_ids w <= n)%N -> unused (uuid4_hex n) (tdb w) }.

Section Service.
Context (str_lower : pystr -> pystr) (others : nat -> TWorld -> TWorld) (ttl : time).
Context (Hothers : forall k w, world_ok w -> world_ok (others k w)).

Lemma yield_ok : preserves world_ok (t_yield others).
Proof. intros w [? ? ?]. apply Hothers. by split. Qed.
Lemma store_call_ok {A} (m : M TWorld Exn A) : preserves world_ok m -> preserves world_ok (store_call others m).
Proof.
  intros Hm. unfold store_call. apply preserves_bind; [apply yield_ok|intros _].
  apply preserves_bind; [|intros a; apply preserves_bind; [apply yield_ok|intros _; apply preserves_ret]].
  apply preserves_try; [done|]. intros e. apply preserves_bind; [apply yield_ok|intros _; apply preserves_raise].
Qed.

Lemma write_committed {A} (body : M TariffDb Exn A) (c : Conn TariffDb) :
  live_session c = None ->
  live_session (write_session body c).2 = None /\
  (committed (write_session body c).2 = committed c \/ committed (write_session body c).2 = (body (committed c)).2).
Proof.
  intros Hl. unfold write_session, borrow_enter. rewrite Hl. unfold execute, round_trip.
  destruct (faults c) as [|[] l] eqn:Hf.
  - destruct (body (committed c)) as [[a|e] d]; rewrite ?Hf; cbn; auto.
  - cbn. auto.
  - destruct (body (committed c)) as [[a|e] d]; cbn; [|auto]. destruct l as [|[] l]; cbn; auto.
Qed.

Lemma write_ok {A} (body : M TariffDb Exn A) (n : N) w :
  world_ok w -> catalogue_ok (body (tdb w)).2 ->
  (forall m, (tw_ids w + n <= m)%N -> unused (uuid4_hex m) (body (tdb w)).2) ->
  world_ok (on_conn (write_session body) (set_tw_ids (tw_ids w + n)%N w)).2.
Proof.
  intros [Hidle Hcat Hfresh] Hok Hnew. unfold on_conn. change (conn_of (set_tw_ids _ w)) with (tw_conn w).
  destruct (write_committed body (tw_conn w) Hidle) as [Hl Hc].
  destruct (write_session body (tw_conn w)) as [r c]. cbn in Hl, Hc |- *. unfold tdb in *.
  split; cbn; [done| |]; unfold tdb; cbn; destruct Hc as [->|Hc]; rewrite ?Hc; [done|done| |done].
  intros m Hm. apply Hfresh. lia.
Qed.
Lemma write_with_id_ok {A} (body : time -> pystr -> M TariffDb Exn A) :
  (forall now id d, catalogue_ok d -> unused id d -> catalogue_ok (body now id d).2) ->
  (forall now id d, grows id d (body now id d).2) ->
  preserves world_ok
    (let! now := t_now in let! id := t_uuid in on_conn (write_session (body now id))).
Proof.
  intros Hok Hgrow w Hw. unfold bind, t_now, gets, t_uuid. cbv beta iota.
  assert (unused (uuid4_hex (tw_ids w)) (tdb w)) as Hid by (apply Hw; lia).
  apply write_ok; [done|apply Hok; [apply Hw|exact Hid]|]. intros m Hm. apply Hgrow; [apply Hw; lia|].
  intros ?%(inj uuid4_hex). lia.
Qed.
Lemma read_ok {A} (body : M TariffDb Exn A) : preserves world_ok (on_conn (read_session body)).
Proof.
  intros w [Hidle Hcat Hfresh]. unfold on_conn, read_session, borrow_enter. change (conn_of w) with (tw_conn w).
  rewrite Hidle. unfold execute, round_trip.
  destruct (faults (tw_conn w)) as [|[] l]; cbn; [destruct (body _)| |destruct (body _)]; by split.
Qed.
Lemma code_ok raw : preserves world_ok (normalize_code str_lower raw).
Proof. intros w Hw. by destruct (normalize_code_cases str_lower raw w) as [(c & ->)|(t & ->)]. Qed.

Lemma caps_ok limits : preserves world_ok (normalized limits).
Proof.
  assert (forall raw name, preserves world_ok (normalize_limit raw name)) as Hlimit.
  { intros [n|] name w Hw; [|done]. unfold normalize_limit. by destruct (n <? 0)%Z. }
  unfold normalized. repeat (apply preserves_bind; [apply Hlimit|intros ?]). apply preserves_ret.
Qed.

(** The catalogue stays sound whatever the operator asks of it, and whatever
    else runs meanwhile: at most one default plan, codes and ids unique, every
    user bound to one plan at most and to one that exists. *)
Theorem catalogue_stays_ok :
  (forall code title features limits is_default,
     preserves world_ok (put str_lower others code title features limits is_default)) /\
  (forall code, preserves world_ok (delete str_lower others code)) /\
  (forall user_id code, preserves world_ok (assign str_lower others user_id code)) /\
  (forall event, preserves world_ok (record others event)) /\
  (forall user_id, preserves world_ok (check_run_budget others ttl user_id)).
Proof.
  split_and!.
  - intros code title features limits is_default. unfold put. apply preserves_bind; [apply code_ok|intros c].
    apply preserves_bind; [intros w Hw; unfold normalize_title; by destruct (_ || _)|intros t].
    apply preserves_bind; [apply caps_ok|intros caps].
    apply store_call_ok, (write_with_id_ok (fun now id => TariffStore.put_row str_lower now id c t features caps is_default));
      intros; [by apply put_ok|apply put_grows].
  - intros code. apply preserves_bind; [apply code_ok|intros c]. apply store_call_ok. intros w Hw.
    pose proof (write_ok (TariffStore.delete_row c) 0 w Hw (delete_ok c _ (wo_catalogue _ Hw))) as H.
    rewrite N.add_0_r in H. replace (set_tw_ids (tw_ids w) w) with w in H by by destruct w. apply H.
    intros m Hm. apply delete_unused, Hw. lia.
  - intros user_id code. apply store_call_ok, (write_with_id_ok (fun now id => TariffStore.assign str_lower now id user_id code));
      intros; [by apply assign_ok|apply assign_grows].
  - intros event. unfold record. apply preserves_bind; [|intros stored].
    + apply preserves_try; [|intros e; destruct (is_exception e); [apply preserves_ret|apply preserves_raise]].
      apply preserves_bind; [|intros _; apply preserves_ret]. apply store_call_ok.
      apply (write_with_id_ok (fun now id => UsageMeter.record now id event)); [by intros now id d [] _; split|by intros now id d x [? ?] _; split].
    + apply preserves_when, preserves_modify. intros w []. by split.
  - intros user_id. unfold check_run_budget. apply preserves_bind; [apply store_call_ok, read_ok|intros [t|]; [|apply preserves_ret]].
    apply preserves_bind; [|intros; apply preserves_ret]. unfold totals_today.
    repeat (apply preserves_bind; [apply preserves_gets|intros]). case_match; [case_match; [apply preserves_ret|]|];
      (apply preserves_bind; [apply store_call_ok, read_ok|intros]; apply preserves_bind; [|intros; apply preserves_ret];
       apply preserves_modify; intros w []; by split).
Qed.
End Service.

(** ** Budgets *)

(** Nothing else runs and the database does not fail. *)
Definition unshared : nat -> TWorld -> TWorld := fun _ w => w.
Definition t_rest (w : TWorld) : Prop := faults (tw_conn w) = [] /\ live_session (tw_conn w) = None.
Definition ticked (w : TWorld) : TWorld := set_tw_tick (S (tw_tick w)) w.
Definition set_tdb (d : TariffDb) (w : TWorld) : TWorld := set_tw_conn (with_committed d (tw_conn w)) w.

(** What the ledger says of a user since an instant; the plan of a user. *)
Definition spent_since (user_id : pystr) (since : time) (d : TariffDb) : UsageTotals :=
  UsageMeter.totals_of (select_where (UsageMeter.in_window user_id since) (td_events d)).
Definition plan_of (user_id : pystr) (d : TariffDb) : option Tariff :=
  match (TariffStore.tariff_for_user user_id d).1 with Ok t => t | Err _ => None end.
(** The cache holds what the ledger says. *)
Definition cache_exact (w : TWorld) : Prop :=
  forall u c, dict_get u (tw_cache w) = Some c -> ct_totals c = spent_since u (ct_day_start c) (tdb w).

Lemma quiet_read {A} (f : TariffDb -> A) w :
  t_rest w -> store_call unshared (on_conn (read_session (gets f))) w = (Ok (f (tdb w)), ticked (ticked w)).
Proof.
  intros [Hf Hl]. unfold store_call, bind, t_yield, unshared, try_except, on_conn. cbn.
  unfold read_session, borrow_enter. change (conn_of _) with (tw_conn w). rewrite Hl.
  unfold execute, round_trip. rewrite Hf. cbn. unfold ticked, tdb. by destruct w.
Qed.
Lemma quiet_write {A} (body : M TariffDb Exn A) a d w :
  t_rest w -> body (tdb w) = (Ok a, d) ->
  on_conn (write_session body) w = (Ok a, set_tdb d w).
Proof.
  intros [Hf Hl] Hbody. unfold on_conn, write_session, borrow_enter. change (conn_of w) with (tw_conn w). rewrite Hl.
  unfold execute, round_trip. rewrite Hf. change (committed (tw_conn w)) with (tdb w). rewrite Hbody, Hf. by destruct w.
Qed.

(** The row a metered event becomes. *)
Definition row_at (e : UsageEvent) (w : TWorld) : UsageEventRow :=
  {| ur_id := uuid4_hex (tw_ids w); ur_event := e; ur_created_at := default (tw_now w) (ue_created_at e) |}.
Lemma record_quiet e w :
  t_rest w ->
  exists w', record unshared e w = (Ok tt, w') /\ t_rest w' /\ tw_now w' = tw_now w /\
    tw_monotonic w' = tw_monotonic w /\
    tdb w' = set_table (td_events (tdb w) ++ [row_at e w]) (tdb w) /\
    tw_cache w' = dict_pop (ue_user_id e) (tw_cache w).
Proof.
  intros Hrest. unfold record, except_exception, meter_record, store_call, try_except.
  set (w1 := set_tw_ids (tw_ids w + 1)%N (ticked w)).
  assert (t_rest w1) as Hrest1 by exact Hrest.
  pose proof (quiet_write (UsageMeter.record (tw_now w) (uuid4_hex (tw_ids w)) e) tt
    (set_table (td_events (tdb w) ++ [row_at e w]) (tdb w)) w1 Hrest1 eq_refl) as Hw.
  unfold bind, t_yield, unshared, t_now, gets, t_uuid. cbv beta iota.
  change (set_tw_ids (tw_ids (set_tw_tick (S (tw_tick w)) w) + 1)%N (set_tw_tick (S (tw_tick w)) w)) with w1.
  cbn [tw_now tw_ids set_tw_tick]. rewrite Hw. cbv beta iota. eexists. split; [done|].
  destruct Hrest. by split_and!.
Qed.
Lemma spent_other u since d row :
  ue_user_id (ur_event row) <> u ->
  spent_since u since (set_table (td_events d ++ [row]) d) = spent_since u since d.
Proof.
  intros Hne. unfold spent_since, select_where. cbn. rewrite filter_app, filter_cons_False, app_nil_r; [done|].
  by intros [? _].
Qed.
Lemma record_exact e w : t_rest w -> cache_exact w -> cache_exact (record unshared e w).2.
Proof.
  intros Hrest Hexact. destruct (record_quiet e w Hrest) as (w' & -> & _ & _ & _ & Hdb & Hcache).
  intros u c. cbn. rewrite Hcache, Hdb, dict_get_pop. case_decide; [done|]. intros Hc.
  rewrite spent_other by done. by apply Hexact.
Qed.

Section Budget.
Context (ttl : time).

Lemma totals_today_quiet u w :
  t_rest w -> cache_exact w ->
  exists w', totals_today unshared ttl u w = (Ok (spent_since u (day_start (tw_now w)) (tdb w)), w') /\
    tdb w' = tdb w /\ t_rest w' /\ cache_exact w'.
Proof.
  intros Hrest Hexact. unfold totals_today, t_now.
  unfold bind at 1, gets at 1. unfold bind at 1, gets at 1. unfold bind at 1, gets at 1.
  destruct (dict_get u (tw_cache w)) as [c|] eqn:Hc.
  1: destruct ((tw_monotonic w <? ct_expires c)%Z && (ct_day_start c =? day_start (tw_now w))%Z) eqn:Hfresh.
  { exists w. apply andb_true_iff in Hfresh as [_ Hday%Z.eqb_eq]. split_and!; [|done..].
    cbn. unfold ret. f_equal. f_equal. rewrite <-Hday. by apply Hexact. }
  all: unfold totals_since, UsageMeter.totals_since; rewrite (bind_Ok _ _ _ _ _ (quiet_read _ w Hrest)).
  all: eexists; split; [done|]; split; [done|]; split; [by destruct Hrest|].
  all: intros u' c'; cbn; rewrite dict_get_set; case_decide as Hu; [intros [= <-]; by subst|apply Hexact].
Qed.

(** Every cap of the plan is respected: a message is counted before it is
    answered, so as many messages as the cap are answered, and an answer or a
    token only when there is room for one more. *)
Definition within (used : Z) (cap : option Z) (strict : bool) : Prop :=
  match cap with
  | None => True
  | Some n => if strict then (used < n)%Z else (used <= n)%Z
  end.
Definition within_budget (t : Tariff) (totals : UsageTotals) : Prop :=
  within (ut_user_messages totals) (daily_user_messages (tf_limits t)) false /\
  within (ut_assistant_messages totals) (daily_assistant_messages (tf_limits t)) true /\
  within (tokens totals) (daily_tokens (tf_limits t)) true.

Lemma budget_verdict_spec t totals :
  lv_allowed (budget_verdict t totals) = true <-> within_budget t totals.
Proof.
  unfold budget_verdict, check_answers, check_tokens, within_budget, within.
  destruct (daily_user_messages _) as [a|], (daily_assistant_messages _) as [b|], (daily_tokens _) as [c|];
    repeat (case_match; try (rewrite Z.ltb_lt in *) || rewrite Z.ltb_ge in * || rewrite Z.leb_le in * || rewrite Z.leb_gt in * );
    cbn; (split; [intros ?; try done; split_and!; done || lia|intros (?&?&?); try done; exfalso; lia]).
Qed.

(** C10: A run may start exactly when the plan of its user has room for it in what
    the ledger says of the day; with nobody else metering, the cached totals
    are never older than the last event. *)
Theorem run_budget_exact u w :
  t_rest w -> cache_exact w ->
  exists v w', check_run_budget unshared ttl u w = (Ok v, w') /\
    (lv_allowed v = true <->
       forall t, plan_of u (tdb w) = Some t -> within_budget t (spent_since u (day_start (tw_now w)) (tdb w))) /\
    tdb w' = tdb w /\ cache_exact w' /\
    forall e, cache_exact (record unshared e w').2.
Proof.
  intros Hrest Hexact. unfold check_run_budget, resolve, tariff_for_user, TariffStore.tariff_for_user.
  rewrite (bind_Ok _ _ _ _ _ (quiet_read _ w Hrest)).
  match goal with |- context [match ?p with Some _ => _ | None => ret verdict_ok end] => change p with (plan_of u (tdb w)) end.
  destruct (plan_of u (tdb w)) as [t|].
  - destruct (totals_today_quiet u (ticked (ticked w)) Hrest Hexact) as (w' & Hrun & Hdb & Hrest' & Hexact').
    rewrite (bind_Ok _ _ _ _ _ Hrun). eexists _, w'. split; [done|]. split_and!; [|done..|].
    + rewrite budget_verdict_spec. split; [by intros ? t' [= <-]|]. intros H. by apply H.
    + intros e. by apply record_exact.
  - eexists verdict_ok, _. split; [done|]. split_and!; [done|done|done|]. intros e. by apply record_exact.
Qed.
End Budget.

(** ** Metering *)

Lemma round_trip_err (c c1 : Conn TariffDb) x : round_trip c = (Err x, c1) -> x = StoreError.
Proof. unfold round_trip. by destruct (faults c) as [|[] l]; intros [=]. Qed.

(** Metering never fails its caller, whatever the database does and whatever
    else runs; undisturbed, the event is in the ledger and the user's cached
    totals are gone. *)
Theorem record_never_fails others e w :
  (record others e w).1 = Ok tt /\
  (t_rest w ->
   let w' := (record unshared e w).2 in
   td_events (tdb w') = td_events (tdb w) ++ [row_at e w] /\ dict_get (ue_user_id e) (tw_cache w') = None).
Proof.
  split.
  - unfold record, except_exception.
    assert (forall v, match (meter_record others e v).1 with Ok _ => True | Err x => x <> CancelledError end) as Hm.
    { intros v. unfold meter_record, store_call, try_except, bind, t_yield, t_now, t_uuid, gets. cbv beta iota.
      set (v1 := set_tw_ids _ _). unfold on_conn. unfold write_session, borrow_enter.
      destruct (live_session (conn_of v1)) as [ses|].
      - destruct (sess_busy ses); [done|]. unfold execute. destruct (round_trip _) as [[u|x] c1] eqn:Hr; cbn; [done|].
        by rewrite (round_trip_err _ _ _ Hr).
      - unfold execute. destruct (round_trip (conn_of v1)) as [[u|x] c1] eqn:Hr; cbn.
        + destruct (round_trip c1) as [[u'|x] c2] eqn:Hr2; cbn; [done|].
          by rewrite (round_trip_err _ _ _ Hr2).
        + by rewrite (round_trip_err _ _ _ Hr). }
    specialize (Hm w). unfold bind, try_except. destruct (meter_record others e w) as [[u|x] w1]; [done|].
    cbn in Hm. destruct x; done.
  - intros Hrest w'. subst w'. destruct (record_quiet e w Hrest) as (w' & -> & _ & _ & _ & Hdb & Hcache).
    cbn. rewrite Hdb, Hcache. split; [done|]. rewrite dict_get_pop. by rewrite decide_True.
Qed.

(** The ledger is read, then the totals are cached: an event this node meters
    in between is dropped from no cache, and the totals without it are served
    until they expire. *)
Theorem metering_between_is_missed ttl u e w :
  t_rest w -> dict_get u (tw_cache w) = None -> ue_user_id e = u ->
  exists w', totals_today (fun k v => if decide (k = S (tw_tick w)) then (record unshared e v).2 else v) ttl u w =
      (Ok (spent_since u (day_start (tw_now w)) (tdb w)), w') /\
    td_events (tdb w') = td_events (tdb w) ++ [row_at e w] /\
    (ct_totals <$> dict_get u (tw_cache w')) = Some (spent_since u (day_start (tw_now w)) (tdb w)).
Proof.
  intros Hrest Hnone Hu. unfold totals_today, t_now.
  unfold bind at 1, gets at 1. unfold bind at 1, gets at 1. unfold bind at 1, gets at 1. rewrite Hnone.
  set (others := fun k v => _).
  destruct (record_quiet e (ticked (ticked w)) Hrest) as (w1 & Hrec & _ & _ & _ & Hdb & _).
  assert (totals_since others u (day_start (tw_now w)) w = (Ok (spent_since u (day_start (tw_now w)) (tdb w)), w1)) as Hread.
  { unfold totals_since, store_call, try_except, bind, t_yield. subst others. cbv beta.
    rewrite (decide_False (P := tw_tick w = S (tw_tick w))) by lia.
    unfold on_conn, read_session, borrow_enter. change (conn_of _) with (tw_conn w). destruct Hrest as [Hf Hl].
    rewrite Hl. unfold execute, round_trip. rewrite Hf. cbn. rewrite decide_True by done.
    unfold ticked, tdb, set_tw_tick, set_tw_conn in *. destruct w; cbn in *. rewrite Hrec. done. }
  rewrite (bind_Ok _ _ _ _ _ Hread). eexists. split; [done|]. cbn.
  change (tdb (set_tw_cache _ w1)) with (tdb w1). unfold tdb at 1. cbn. fold (tdb w1). rewrite Hdb. split; [done|].
  rewrite dict_get_set. by rewrite decide_True.
Qed.

(** ** The starter plans *)

(** Seeding adds the starter plans that are missing and nothing else: what is
    there stays in place, no plan becomes the default, and seeding again adds
    nothing. *)
Theorem seed_is_timid has_table ids now t ids' now' :
  (exists new, seed_starter_tariffs has_table ids now t = t ++ new /\
     Forall (fun r => tr_is_default r = false /\ (tr_code r ∉ (tr_code <$> t))) new /\ NoDup (tr_code <$> new)) /\
  seed_starter_tariffs has_table ids' now' (seed_starter_tariffs has_table ids now t) =
    seed_starter_tariffs has_table ids now t /\
  (has_table = true ->
     {[UNLIMITED_CODE; FREEMIUM_CODE]} ⊆ (list_to_set (tr_code <$> seed_starter_tariffs has_table ids now t) : gset pystr)).
Proof.
  unfold seed_starter_tariffs. destruct has_table; cbn [negb]; [|split_and!; [exists []; rewrite app_nil_r; split_and!; [done|done|constructor]|done|done]].
  set (missing := filter (fun p => sp_code p ∉ (tr_code <$> t)) STARTER_PLANS).
  assert (forall p, p ∈ STARTER_PLANS -> sp_code p ∈ (tr_code <$> (t ++ (starter_row ids now <$> missing)))) as Hall.
  { intros p Hp. rewrite fmap_app. apply elem_of_app. destruct (decide (sp_code p ∈ (tr_code <$> t))) as [|Hn]; [by left|right].
    rewrite <-list_fmap_compose. apply list_elem_of_fmap. exists p. split; [done|]. by apply list_elem_of_filter. }
  split_and!.
  - eexists. split; [done|]. split.
    + apply Forall_fmap, Forall_forall. intros p [Hp Hin]%list_elem_of_filter. split; [|done].
      repeat (apply elem_of_cons in Hin as [->|Hin]; [done|]). by apply not_elem_of_nil in Hin.
    + rewrite <-list_fmap_compose. change (NoDup (sp_code <$> missing)).
      eapply sublist_NoDup; [|apply fmap_sublist, sublist_filter]. vm_decide.
  - rewrite (filter_none (fun p => sp_code p ∉ _)), app_nil_r; [done|].
    apply Forall_forall. intros p Hp Hn. by apply Hn, Hall.
  - intros _ x Hx. apply elem_of_list_to_set. apply elem_of_union in Hx as [->%elem_of_singleton| ->%elem_of_singleton].
    + apply (Hall (default {| sp_code := ""; sp_title := ""; sp_features := []; sp_limits := no_limits; sp_is_default := false |}
        (head STARTER_PLANS))). left.
    + apply (Hall (default {| sp_code := ""; sp_title := ""; sp_features := []; sp_limits := no_limits; sp_is_default := false |}
        (last STARTER_PLANS))). right. left.
Qed.
