(* ===== verification/TaskTools.v ===== *)
(** * The tools of deferred work ([tasks/tools.py])

    [task_create], [task_list] and [task_delete]: one surface over the tasks
    of a dialog and the scheduled jobs of its user.  The callbacks of the
    context are those of the dialog's actor. *)
From S2P Require Import Prelude PyStr Clock Sql Dict Domain UnitOfWork TaskStore RunnerText Actor Cron CronLaws.

Definition DEFAULT_TIMEZONE : pystr := "UTC".
Definition NO_WORK_MESSAGE : pystr := "no tasks or scheduled jobs".
Definition NO_TASKS_MESSAGE : pystr := "no tasks".
Definition TASKS_SECTION : pystr := "background tasks:".
Definition JOBS_SECTION : pystr := "scheduled jobs:".
Definition DELIVERABLE_STATUSES : list TaskStatus.t := [TaskStatus.DONE; TaskStatus.FAILED].
Definition STOPPED_TASK_MESSAGE (task_id : pystr) : pystr := "stopped task " +s+ task_id.
Definition NOT_FOUND_MESSAGE : pystr := "error: no task or cron job with this id".
Definition SELF_DELETE_MESSAGE : pystr := "error: a running task cannot delete itself".
Definition NO_SPAWNER_MESSAGE : pystr := "task spawning is not available in this context".

(** The part of [ToolContext] these tools read. *)
Record TaskToolContext (S : Type) := {
  tt_user_id : pystr;
  tt_channel : pystr;
  tt_dialog_id : pystr;
  tt_task_spawner : option (pystr -> pystr -> M S Exn pystr);
  tt_task_deleter : option (pystr -> M S Exn TaskDeleteOutcome.t);
  tt_owner_task_id : option pystr }.
Arguments tt_user_id {S}. Arguments tt_channel {S}. Arguments tt_dialog_id {S}.
Arguments tt_task_spawner {S}. Arguments tt_task_deleter {S}. Arguments tt_owner_task_id {S}.

Section Tools.
Context (is_valid : pystr -> bool) (zone_known : pystr -> bool).
Context (get_next : pystr -> pystr -> time -> time) (repr : pystr -> pystr).
Context {S : Type} (store : TaskStoreOps S) (cron : CronStore S).
Context (utc_now : M S Exn time) (new_id : M S Exn pystr).
(** [LimitGate.max_cron_jobs], when there is a gate. *)
Context (limits : option (pystr -> M S Exn (option Z))).
Abbreviation arguments := (list (pystr * json)) (only parsing).

Definition non_empty_string (raw : option json) (argument : pystr) : M S Exn pystr :=
  match raw with
  | Some (JStr text) =>
      if str_empty (str_strip text) then raise (ToolArgumentsError (argument +s+ " must be a non-empty string"))
      else ret text
  | _ => raise (ToolArgumentsError (argument +s+ " must be a non-empty string"))
  end.
Definition is_true (v : option json) : bool := match v with Some (JBool true) => true | _ => false end.

(** [TaskCreateTool.execute] *)
Definition task_create (args : arguments) (context : TaskToolContext S) : M S Exn pystr :=
  let! title := non_empty_string (argument "title" args) "title" in
  let! prompt := non_empty_string (argument "prompt" args) "prompt" in
  match argument "schedule" args with
  | None =>
      if is_true (argument "one_shot" args) then raise (ToolArgumentsError "one_shot requires a schedule")
      else
        match tt_task_spawner context with
        | None => raise (ToolArgumentsError NO_SPAWNER_MESSAGE)
        | Some spawn => spawn title prompt
        end
  | Some schedule =>
      let! schedule := non_empty_string (Some schedule) "schedule" in
      let! timezone := non_empty_string
        (match argument "timezone" args with None => Some (JStr DEFAULT_TIMEZONE) | timezone => timezone end) "timezone" in
      let draft := {| cd_user_id := tt_user_id context; cd_channel := tt_channel context; cd_title := title;
                      cd_schedule := schedule; cd_prompt := prompt; cd_timezone := timezone;
                      cd_one_shot := is_true (argument "one_shot" args) |} in
      let! max_jobs := match limits with Some max => max (tt_user_id context) | None => ret None end in
      create_job is_valid zone_known get_next repr cron utc_now new_id draft max_jobs
  end.

(** [_is_visible] and [_format_task] *)
Definition is_visible (task : Task) : bool :=
  if decide (tk_kind task <> TaskKind.RUN) then false
  else if decide (tk_status task ∈ ACTIVE) then true
  else bool_decide (tk_status task ∈ DELIVERABLE_STATUSES /\ tk_delivered_at task = None).
Definition format_task (task : Task) : pystr :=
  tk_id task +s+ " [" +s+ TaskStatus.value (tk_status task) +s+ "] " +s+ tk_title task +s+
  match dict_get "prompt" (tk_input task) with
  | Some (JStr prompt) =>
      if str_empty (str_strip prompt) then "" else " — prompt: " +s+ repr (prompt_preview prompt)
  | _ => ""
  end +s+
  match tk_result task with Some result => " -> " +s+ result | None => "" end +s+
  match tk_error task with Some error => " -> error: " +s+ error | None => "" end.
Definition or_text (text fallback : pystr) : pystr := if str_empty text then fallback else text.

(** [TaskListTool.execute] *)
Definition task_list (context : TaskToolContext S) : M S Exn pystr :=
  let! all_tasks := ts_list _ store (tt_dialog_id context) in
  let tasks := List.filter is_visible all_tasks in
  let! jobs := cs_list_for_user cron (tt_user_id context) in
  match tasks, jobs with
  | [], [] => ret NO_WORK_MESSAGE
  | _, _ =>
      let task_lines := or_text (str_join newline (format_task <$> tasks)) NO_TASKS_MESSAGE in
      let job_lines := or_text (str_join newline (format_job repr <$> jobs)) NO_JOBS_MESSAGE in
      ret (TASKS_SECTION +s+ newline +s+ task_lines +s+ newline +s+ newline +s+ JOBS_SECTION +s+ newline +s+ job_lines)
  end.

(** [_find_task], [_stop_task], [_delete_cron_job] *)
Definition find_task (task_id dialog_id : pystr) : M S Exn (option Task) :=
  let! task := try_except (let! task := ts_get _ store task_id in ret (Some task))
                 (fun e => if is_task_not_found e then ret None else raise e) in
  match task with
  | None => ret None
  | Some task => ret (if decide (tk_dialog_id task <> dialog_id) then None else Some task)
  end.
Definition stop_task (task : Task) (context : TaskToolContext S) : M S Exn pystr :=
  if decide (Some (tk_id task) = tt_owner_task_id context) then ret SELF_DELETE_MESSAGE
  else
    (if decide (tk_status task ∈ ACTIVE) then
       let! stopped := match tt_task_deleter context with
                       | None => ret false
                       | Some delete =>
                           let! outcome := delete (tk_id task) in
                           ret (match outcome with TaskDeleteOutcome.DELETED => true | _ => false end)
                       end in
       if stopped : bool then ret tt
       else
         let! now := utc_now in
         let! _ := ts_mark_cancelled _ store now (tk_id task) in ret tt
     else ret tt) ;;;
    ret (STOPPED_TASK_MESSAGE (tk_id task)).
Definition delete_cron_job (job_id : pystr) (context : TaskToolContext S) : M S Exn pystr :=
  try_except (cs_delete_for_user cron (tt_user_id context) job_id ;;; ret (DELETED_MESSAGE job_id))
    (fun e => match e with CronJobNotFoundError _ => ret NOT_FOUND_MESSAGE | _ => raise e end).

(** [TaskDeleteTool.execute] *)
Definition task_delete (args : arguments) (context : TaskToolContext S) : M S Exn pystr :=
  let! task_id := non_empty_string (argument "task_id" args) "task_id" in
  let! task := find_task task_id (tt_dialog_id context) in
  match task with
  | Some task => stop_task task context
  | None => delete_cron_job task_id context
  end.
End Tools.

(** ** Laws of the tools of deferred work *)

(** The tools of a user stay within that user's jobs and that dialog's tasks;
    a stop that comes late overwrites how the task ended. *)
(** The SQL task store over a state that holds its table. *)
Definition task_store_on {S} `{HasTable S Task} : TaskStoreOps S :=
  {| ts_add task := on_table (Sql.add task);
     ts_get task_id := on_table (Sql.get task_id);
     ts_list dialog_id := on_table (Sql.list_ dialog_id);
     ts_delete task_id := on_table (Sql.delete task_id);
     ts_delete_for_dialog dialog_id := on_table (Sql.delete_for_dialog dialog_id);
     ts_list_orphaned scope := on_table (Sql.list_orphaned scope);
     ts_list_undelivered scope := on_table (Sql.list_undelivered scope);
     ts_list_for_recovery scope := on_table (Sql.list_for_recovery scope);
     ts_mark_delivered now task_id := on_table (Sql.mark_delivered now task_id);
     ts_mark_done now task_id result delivered := on_table (Sql.mark_done now task_id result delivered);
     ts_mark_failed now task_id error delivered := on_table (Sql.mark_failed now task_id error delivered);
     ts_mark_cancelled now task_id := on_table (Sql.mark_cancelled now task_id) |}.

(** ** Isolation *)

Section Isolation.
Context (is_valid : pystr -> bool) (zone_known : pystr -> bool).
Context (get_next : pystr -> pystr -> time -> time) (repr : pystr -> pystr).
Context {S : Type} `{HT : HasTable S Task} `{HJ : HasTable S CronJob}.
Context `{!Apart S Task CronJob} `{!Apart S CronJob Task}.
Context (utc_now : M S Exn time) (new_id : M S Exn pystr) (limits : option (pystr -> M S Exn (option Z))).
Context (u d : pystr).

Definition tasks_of (s : S) : list Task := table s.
Definition jobs_in (s : S) : list CronJob := table s.
Definition foreign_tasks (s : S) : list Task := filter (fun t => tk_dialog_id t <> d) (tasks_of s).
Definition foreign_jobs (s : S) : list CronJob := filter (fun j => cj_user_id j <> u) (jobs_in s).
Definition ids_ok (s : S) : Prop := NoDup (tk_id <$> tasks_of s) /\ NoDup (cj_id <$> jobs_in s).

(** Ids stay unique; what is not this user's, or not of this dialog, stays as
    it is. *)
Definition home (s s' : S) : Prop :=
  ids_ok s -> ids_ok s' /\ foreign_tasks s' = foreign_tasks s /\ foreign_jobs s' = foreign_jobs s.
#[export] Instance home_preorder : PreOrder home.
Proof.
  split; [by intros s|]. intros a b c Hab Hbc Ha. destruct (Hab Ha) as (Hb & H1 & H2).
  destruct (Hbc Hb) as (Hc & H3 & H4). split; [done|]. split; congruence.
Qed.

Context (Hnow : evolves home utc_now) (Hid : evolves home new_id).
Context (Hlimits : forall max user, limits = Some max -> evolves home (max user)).
Context (context : TaskToolContext S) (Huser : tt_user_id context = u) (Hdialog : tt_dialog_id context = d).
Context (Hspawn : forall spawn t p, tt_task_spawner context = Some spawn -> evolves home (spawn t p)).
Context (Hdelete : forall delete j, tt_task_deleter context = Some delete -> evolves home (delete j)).

Lemma home_jobs (s : S) t :
  (NoDup (cj_id <$> jobs_in s) -> NoDup (cj_id <$> t) /\ filter (fun j => cj_user_id j <> u) t = foreign_jobs s) ->
  home s (set_table t s).
Proof.
  intros Ht [Htasks Hjobs]. destruct (Ht Hjobs) as [Hnd Hf]. unfold ids_ok, foreign_tasks, foreign_jobs, tasks_of, jobs_in.
  rewrite (table_set t s), table_apart. done.
Qed.
Lemma home_read {A R} `{HasTable S R} (f : list R -> Res Exn A) : evolves home (on_table (fun t => (f t, t))).
Proof. intros s. unfold on_table. rewrite set_table_same. cbn. reflexivity. Qed.

Lemma home_create job : cj_user_id job = u -> evolves home (cs_create cron_store_on job).
Proof.
  intros Hj s. cbn. unfold on_table, SqlCron.create. destruct (find_key cj_id (cj_id job) (table s)) eqn:Hf.
  - cbn. rewrite set_table_same. reflexivity.
  - cbn. apply home_jobs. intros Hnd. unfold insert_row. split.
    + rewrite fmap_app. apply NoDup_app. split; [done|]. split; [|apply NoDup_singleton].
      intros k Hk ->%list_elem_of_singleton. apply find_key_None in Hf. rewrite Forall_forall in Hf.
      apply list_elem_of_fmap in Hk as (r & Hr & Hin). by apply (Hf r).
    + rewrite filter_app, filter_cons_False, app_nil_r; [done|]. by intros ?.
Qed.
Lemma home_delete_job job_id : evolves home (cs_delete_for_user cron_store_on u job_id).
Proof.
  intros s. cbn. unfold on_table, SqlCron.delete_for_user, SqlCron.find_owned_row, bind.
  destruct (head (select_where (owned u job_id) (table s))) as [row|] eqn:Hrow; cbn; [|rewrite set_table_same; reflexivity].
  apply head_filter_Some in Hrow as [Hin [_ Hu]]. apply home_jobs. intros Hnd. unfold delete_where. split.
  - eapply sublist_NoDup; [exact Hnd|]. apply fmap_sublist, sublist_filter.
  - unfold foreign_jobs. rewrite list_filter_filter. apply list_filter_iff'. intros r Hr.
    split; [by intros [? _]|]. intros Hne. split; [done|]. intros Heq. apply Hne.
    assert (find_key cj_id (cj_id row) (jobs_in s) = Some r) as H1 by by apply find_key_elem.
    assert (find_key cj_id (cj_id row) (jobs_in s) = Some row) as H2 by by apply find_key_elem. congruence.
Qed.
Lemma home_jobs_list user : evolves home (cs_list_for_user cron_store_on user).
Proof. apply (home_read (R := CronJob) (fun t => Ok _)). Qed.

Lemma home_load z : evolves home (load_timezone (S := S) zone_known repr z).
Proof. intros s. unfold load_timezone. by destruct (zone_known z). Qed.
Lemma home_valid e : evolves home (ensure_valid (S := S) is_valid repr e).
Proof. intros s. unfold ensure_valid. by destruct (is_valid e). Qed.
Lemma home_next schedule z base : evolves home (compute_next_fire (S := S) is_valid zone_known get_next repr schedule z base).
Proof.
  unfold compute_next_fire. apply evolves_bind; [exact _|apply home_load|intros _].
  apply evolves_bind; [exact _|apply home_valid|intros _]. by intros s.
Qed.
Lemma home_create_job draft max_jobs :
  cd_user_id draft = u ->
  evolves home (create_job is_valid zone_known get_next repr cron_store_on utc_now new_id draft max_jobs).
Proof.
  intros Hdraft. unfold create_job, or_schedule_error. apply evolves_bind; [exact _| |].
  - apply evolves_try; [exact _| |intros []; by intros s].
    apply evolves_bind; [exact _| |intros ?; by intros s].
    apply evolves_bind; [exact _|exact Hnow|intros now]. apply home_next.
  - intros [next|text]; [|by intros s].
    apply evolves_bind; [exact _|apply home_jobs_list|intros existing].
    destruct (find_duplicate existing draft); [by intros s|].
    destruct (job_quota_refusal _ _); [by intros s|].
    apply evolves_bind; [exact _|exact Hid|intros id]. apply evolves_bind; [exact _|exact Hnow|intros now].
    apply evolves_bind; [exact _|by apply home_create|intros stored]. by intros s.
Qed.
Lemma home_string raw name : evolves home (non_empty_string (S := S) raw name).
Proof. intros s. unfold non_empty_string. destruct raw as [[]|]; try reflexivity. by destruct (str_empty _). Qed.

(** No task of another dialog has this id. *)
Definition mine (j : pystr) (s : S) : Prop := Forall (fun t => tk_id t <> j) (foreign_tasks s).
Lemma mine_home j s s' : ids_ok s -> home s s' -> mine j s -> mine j s'.
Proof. intros Hok Hh. unfold mine. destruct (Hh Hok) as (_ & -> & _). done. Qed.
Lemma mine_found j s row :
  ids_ok s -> find_key tk_id j (tasks_of s) = Some row -> tk_dialog_id row = d -> mine j s.
Proof.
  intros [Hok _] Hrow Hd. apply Forall_forall. intros t [Ht Hin]%list_elem_of_filter Hj.
  rewrite (find_key_elem tk_id j _ t Hok Hin Hj) in Hrow. by simplify_eq.
Qed.

Lemma home_cancel now j s : mine j s -> home s (ts_mark_cancelled S task_store_on now j s).2.
Proof.
  intros Hmine. set (f := finish_values now TaskStatus.CANCELLED None None false).
  assert ((ts_mark_cancelled S task_store_on now j s).2 = set_table (update_where (fun r => tk_id r = j) f (tasks_of s)) s) as ->.
  { cbn. unfold on_table, Sql.mark_cancelled, Sql.finish. by destruct (find_key tk_id j _). }
  intros [Hnd Hjobs].
  assert (foreign_jobs (set_table (update_where (fun r => tk_id r = j) f (tasks_of s)) s) = foreign_jobs s) as Hfj
    by (unfold foreign_jobs, jobs_in; by rewrite table_apart).
  split; [|split; [|exact Hfj]].
  - split; [|unfold jobs_in; by rewrite table_apart]. unfold tasks_of at 1. rewrite table_set.
    unfold update_where. rewrite <-list_fmap_compose. erewrite list_fmap_ext; [exact Hnd|]. intros i r _. cbn. by case_decide.
  - unfold foreign_tasks, tasks_of at 1. rewrite table_set. revert Hmine. unfold mine, foreign_tasks, update_where.
    clear Hnd Hjobs Hfj. induction (tasks_of s) as [|r t IH]; [done|]. rewrite fmap_cons, !filter_cons.
    assert (tk_dialog_id (f r) = tk_dialog_id r) as Hfr by done.
    destruct (decide (tk_id r = j)) as [Hj|Hj]; rewrite ?Hfr.
    + destruct (decide (tk_dialog_id r <> d)) as [Hr|Hr]; [by intros [Hne _]%Forall_cons|apply IH].
    + destruct (decide (tk_dialog_id r <> d)) as [Hr|Hr]; [|apply IH]. intros [_ H]%Forall_cons. by rewrite IH.
Qed.

Lemma home_ok s s' : (ids_ok s -> home s s') -> home s s'.
Proof. intros H Hok. by apply H. Qed.
Lemma home_stop task s : mine (tk_id task) s -> home s (stop_task task_store_on utc_now task context s).2.
Proof.
  intros Hmine.
  unfold stop_task. destruct (decide _); [reflexivity|].
  unfold bind at 1. 
  assert (home s ((if decide (tk_status task ∈ ACTIVE)
     then let! stopped := match tt_task_deleter context with
                          | Some delete => let! outcome := delete (tk_id task) in
                              ret match outcome with TaskDeleteOutcome.DELETED => true | _ => false end
                          | None => ret false end in
          if stopped : bool then ret tt
          else let! now := utc_now in let! _ := ts_mark_cancelled S task_store_on now (tk_id task) in ret tt
     else ret tt) s).2) as H.
  { destruct (decide _); [|reflexivity]. apply home_ok. intros Hok.
    match goal with |- context [bind ?m ?k s] => set (first := m) end.
    assert (evolves home first) as Hfirst.
    { unfold first. destruct (tt_task_deleter context) as [delete|] eqn:Hd; [|by intros v].
      apply evolves_bind; [exact _|by apply Hdelete|intros ?; by intros v]. }
    specialize (Hfirst s). unfold bind at 1. destruct (first s) as [[stopped|x] s1]; [|exact Hfirst].
    cbn in Hfirst. destruct stopped; [exact Hfirst|].
    destruct (Hfirst Hok) as (Hok1 & Ht1 & Hj1). pose proof (Hnow s1) as Hn. unfold bind.
    destruct (utc_now s1) as [[now|x] s2]; cbn in Hn.
    - assert (mine (tk_id task) s2) as Hm2 by (eapply mine_home; [exact Hok1|exact Hn|exact (mine_home _ _ _ Hok Hfirst Hmine)]).
      pose proof (home_cancel now (tk_id task) s2 Hm2) as Hc.
      destruct (ts_mark_cancelled S task_store_on now (tk_id task) s2) as [[r|y] s3]; cbn in Hc |- *;
        exact (transitivity Hfirst (transitivity Hn Hc)).
    - cbn. exact (transitivity Hfirst Hn). }
  match goal with |- home s (match ?x with _ => _ end).2 => destruct x as [[v|e] s1] end; exact H.
Qed.

Lemma find_task_eq j dialog s :
  find_task task_store_on j dialog s =
    (Ok (match find_key tk_id j (tasks_of s) with
         | Some row => if decide (tk_dialog_id row <> dialog) then None else Some row
         | None => None
         end), s).
Proof.
  unfold find_task, try_except, bind. cbn [ts_get task_store_on]. unfold on_table, Sql.get.
  change (table s) with (tasks_of s). destruct (find_key tk_id j (tasks_of s)) as [row|];
    cbn; unfold tasks_of; by rewrite set_table_same.
Qed.

(** The tools work on the jobs of their user and the tasks of their dialog:
    whatever they are asked, the jobs of other users and the tasks of other
    dialogs stay as they are. *)
Theorem tools_stay_home args s :
  ids_ok s ->
  Forall (fun s' => foreign_tasks s' = foreign_tasks s /\ foreign_jobs s' = foreign_jobs s)
    [(task_create is_valid zone_known get_next repr cron_store_on utc_now new_id limits args context s).2;
     (task_list repr task_store_on cron_store_on context s).2;
     (task_delete task_store_on cron_store_on utc_now args context s).2].
Proof.
  intros Hok. assert (forall s', home s s' -> foreign_tasks s' = foreign_tasks s /\ foreign_jobs s' = foreign_jobs s) as Hhome
    by (intros s' H; by destruct (H Hok)).
  rewrite !Forall_cons. split; [|split; [|split; [|constructor]]]; apply Hhome.
  - revert s Hok Hhome. intros s _ _. revert s.
    apply evolves_bind; [exact _|apply home_string|intros title]. apply evolves_bind; [exact _|apply home_string|intros prompt].
    destruct (argument "schedule" args) as [schedule|].
    + apply evolves_bind; [exact _|apply home_string|intros ?]. apply evolves_bind; [exact _|apply home_string|intros ?].
      apply evolves_bind; [exact _| |intros ?; by apply home_create_job].
      destruct limits as [max|] eqn:Hm; [by eapply Hlimits|by intros v].
    + destruct (is_true _); [by intros v|]. destruct (tt_task_spawner context) as [spawn|] eqn:Hsp; [by apply Hspawn|by intros v].
  - revert s Hok Hhome. intros s _ _. revert s.
    apply evolves_bind; [exact _|apply (home_read (R := Task) (fun t => Ok _))|intros tasks].
    apply evolves_bind; [exact _|apply home_jobs_list|intros jobs]. destruct (List.filter _ _); [destruct jobs|]; by intros v.
  - pose proof (home_string (argument "task_id" args) "task_id" s) as H1. unfold task_delete. unfold bind at 1.
    destruct (non_empty_string (argument "task_id" args) "task_id" s) as [[j|e] s1]; [|exact H1]. cbn in H1.
    destruct (H1 Hok) as [Hok1 _]. transitivity s1; [exact H1|]. clear H1.
    rewrite (bind_Ok _ _ _ _ _ (find_task_eq j _ s1)), Hdialog.
    assert (home s1 (delete_cron_job cron_store_on j context s1).2) as Hjob.
    { revert s1 Hok1. intros s1 _. revert s1. apply evolves_try; [exact _| |intros []; by intros v].
      apply evolves_bind; [exact _|rewrite Huser; apply home_delete_job|intros ?; by intros v]. }
    destruct (find_key tk_id j (tasks_of s1)) as [row|] eqn:Hrow; [|exact Hjob].
    destruct (decide (tk_dialog_id row <> d)) as [Hd|Hd]; [exact Hjob|].
    apply home_stop. pose proof (find_key_Some _ _ _ _ Hrow) as [_ Hj]. rewrite Hj.
    eapply mine_found; [done|exact Hrow|]. destruct (decide (tk_dialog_id row = d)); [done|contradiction].
Qed.
End Isolation.

(** ** A stop that comes late *)

Section Late.
Context {S : Type} `{HT : HasTable S Task} (cron : CronStore S) (utc_now : M S Exn time).

(** A run that ends between the tool's look at its task and the request to
    stop it has nothing left to stop; the tool then marks the task cancelled
    without looking again.  The result is still in the row, but it counts as
    cancelled: a restart does not deliver it any more. *)
Theorem late_stop_overwrites args context delete j row ended now s s1 :
  argument "task_id" args = Some (JStr j) -> str_empty (str_strip j) = false ->
  find_key tk_id j (table s) = Some row -> tk_dialog_id row = tt_dialog_id context ->
  tt_owner_task_id context <> Some j -> tk_status row ∈ ACTIVE ->
  tt_task_deleter context = Some delete -> delete j s = (Ok TaskDeleteOutcome.NOT_RUNNING, s1) ->
  find_key tk_id j (table s1) = Some ended -> tk_status ended = TaskStatus.DONE ->
  utc_now s1 = (Ok now, s1) ->
  exists s' row', task_delete task_store_on cron utc_now args context s = (Ok (STOPPED_TASK_MESSAGE j), s') /\
    find_key tk_id j (table s') = Some row' /\ tk_status row' = TaskStatus.CANCELLED /\
    tk_result row' = tk_result ended /\ ~ orphaned row' /\ ~ undelivered row'.
Proof.
  intros Harg Hj Hrow Hdialog Howner Hactive Hdel Hnot Hended Hdone Hnow.
  pose proof (find_key_Some _ _ _ _ Hrow) as [_ Hid].
  set (f := finish_values now TaskStatus.CANCELLED None None false).
  exists (set_table (update_where (fun r => tk_id r = j) f (table s1)) s1), (f ended).
  unfold task_delete. rewrite (bind_Ok _ _ s j s); [|unfold non_empty_string; by rewrite Harg, Hj].
  rewrite (bind_Ok _ _ _ _ _ (find_task_eq j _ s)). unfold tasks_of. rewrite Hrow, decide_False by auto.
  split.
  - unfold stop_task. rewrite decide_False by congruence. rewrite decide_True by done.
    unfold bind. rewrite Hdel, Hid, Hnot. cbv beta iota. unfold ret at 1. cbv beta iota. rewrite Hnow. cbn [ts_mark_cancelled task_store_on].
    unfold on_table, Sql.mark_cancelled, Sql.finish. rewrite find_key_update_fixed, Hended by done. done.
  - rewrite table_set, find_key_update_fixed, Hended by done. pose proof (find_key_Some _ _ _ _ Hended) as [_ He].
    cbn [fmap option_fmap option_map]. rewrite decide_True by done. split_and!; [done|done|done|..].
    + unfold orphaned. cbn. unfold ACTIVE. set_solver.
    + unfold undelivered. cbn. unfold FINISHED. set_solver.
Qed.
End Late.
