(* ===== verification/ResponseMemory.v ===== *)
(** * Responses parked in memory ([net/response_memory.py])

    The store of fetched documents with its budget per owner, the passport a
    model sees instead of a body, and the three tools that read: a capped
    read, a literal search with windows, a window around a position. *)
From S2P Require Import Prelude PyStr PyFloat Clock Dict Domain Tariffs.

(** ** Configuration and data *)

Definition REF_PREFIX : pystr := "resp:".
Definition MEGABYTE : Z := 1024 * 1024.
Definition DEFAULT_MAX_RESPONSE_MB : Z := 2.
Definition DEFAULT_BUDGET_MB : Z := 200.
Definition DEFAULT_GET_CHARS : Z := 8000.
Definition DEFAULT_GET_MAX_CHARS : Z := 100000.
Definition MAX_PATTERN_CHARS : Z := 512.
Definition ESTIMATE_SAMPLE_CHARS : Z := 100000.
Definition LARGE_TEXT_CHARS : Z := 200.
Definition MAX_LISTED_TEXTS : nat := 10.
Definition PREVIEW_CHARS : Z := 400.
Definition THOUSAND : Z := 1000.
Definition KILOBYTE : Z := 1024.

Record ResponseMemoryConfig := {
  max_response_chars : Z;
  budget_chars : Z;
  get_default_chars : Z;
  get_max_chars : Z }.
Definition default_memory_config : ResponseMemoryConfig :=
  {| max_response_chars := DEFAULT_MAX_RESPONSE_MB * MEGABYTE; budget_chars := DEFAULT_BUDGET_MB * MEGABYTE;
     get_default_chars := DEFAULT_GET_CHARS; get_max_chars := DEFAULT_GET_MAX_CHARS |}.

Record StoredResponse := {
  sr_id : pystr;
  sr_owner_id : pystr;
  sr_scope : pystr;
  sr_kind : pystr;
  sr_source : pystr;
  sr_body : pystr;
  sr_document : json;
  sr_last_access : time }.
Definition sr_ref (r : StoredResponse) : pystr := REF_PREFIX +s+ sr_id r.
Definition touched (now : time) (r : StoredResponse) : StoredResponse :=
  {| sr_id := sr_id r; sr_owner_id := sr_owner_id r; sr_scope := sr_scope r; sr_kind := sr_kind r;
     sr_source := sr_source r; sr_body := sr_body r; sr_document := sr_document r; sr_last_access := now |}.

Record StoredDocument := {
  sd_ref : pystr;
  sd_kind : pystr;
  sd_source : pystr;
  sd_body : pystr;
  sd_document : json }.
(** [_to_document] *)
Definition to_document (r : StoredResponse) : StoredDocument :=
  {| sd_ref := sr_ref r; sd_kind := sr_kind r; sd_source := sr_source r; sd_body := sr_body r;
     sd_document := sr_document r |}.

Inductive RmError :=
| ResponseNotFoundError (ref : pystr)
| RmToolArgumentsError (text : pystr).

(** ** The store *)

Abbreviation memory := (list (pystr * StoredResponse)).
Definition body_chars (items : list StoredResponse) : Z := sum_Z ((fun r => str_len (sr_body r)) <$> items).

(** [min(mine, key=last_access)]: the first of the least. *)
Fixpoint oldest_of (first : StoredResponse) (rest : list StoredResponse) : StoredResponse :=
  match rest with
  | [] => first
  | r :: rest => oldest_of (if (sr_last_access r <? sr_last_access first)%Z then r else first) rest
  end.

(** The loop of [_evict]; it ends as [mine] shrinks: [fuel] is its length. *)
Fixpoint evict_loop (fuel : nat) (budget : Z) (mine : list StoredResponse) (items : memory) : memory :=
  match fuel with
  | O => items
  | S fuel =>
      if (budget <? body_chars mine)%Z then
        match mine with
        | [] | [_] => items
        | r :: rest =>
            let oldest := oldest_of r rest in
            evict_loop fuel budget (filter (fun r => sr_id r <> sr_id oldest) mine) (dict_pop (sr_id oldest) items)
        end
      else items
  end.
Definition mine_of (owner_id : pystr) (items : memory) : list StoredResponse :=
  filter (fun r => sr_owner_id r = owner_id) (dict_values items).
Definition evict (config : ResponseMemoryConfig) (owner_id : pystr) (items : memory) : memory :=
  let mine := mine_of owner_id items in
  evict_loop (length mine) (budget_chars config) mine items.

(** [store]: [id] is the start of a fresh [uuid4]. *)
Definition store (config : ResponseMemoryConfig) (id : pystr) (now : time) (owner_id scope kind source body : pystr)
    (document : json) (items : memory) : StoredResponse * memory :=
  let item := {| sr_id := id; sr_owner_id := owner_id; sr_scope := scope; sr_kind := kind; sr_source := source;
                 sr_body := body; sr_document := document; sr_last_access := now |} in
  (item, evict config owner_id (dict_set id item items)).

(** [ref.removeprefix(REF_PREFIX)] *)
Definition ref_id (ref : pystr) : pystr :=
  if str_startswith REF_PREFIX ref then str_drop (str_len REF_PREFIX) ref else ref.
Definition get (now : time) (owner_id ref : pystr) (items : memory) : Res RmError StoredResponse * memory :=
  match dict_get (ref_id ref) items with
  | Some item =>
      if decide (sr_owner_id item = owner_id)
      then (Ok (touched now item), dict_update (ref_id ref) (touched now) items)
      else (Err (ResponseNotFoundError ref), items)
  | None => (Err (ResponseNotFoundError ref), items)
  end.
Definition drop_scope (scope : pystr) (items : memory) : memory :=
  let doomed := fst <$> filter (fun kv => sr_scope kv.2 = scope) items in
  foldl (fun items key => dict_pop key items) items doomed.

(** ** Numbers to decide with *)

Fixpoint dotted_walk (parts : list pystr) (node : json) : json :=
  match parts with
  | [] => node
  | part :: parts =>
      match node with
      | JObj fields => dotted_walk parts (default JNull (dict_get part fields))
      | _ => JNull
      end
  end.
Definition dotted_get (value : json) (path : pystr) : json := dotted_walk (str_split_char 46 path) value.

Definition is_cyrillic (c : N) : bool := ((1040 <=? c) && (c <=? 1103) || (c =? 1105) || (c =? 1025))%N.
Definition is_latin (c : N) : bool := ((97 <=? c) && (c <=? 122) || (65 <=? c) && (c <=? 90))%N.
Definition count (p : N -> bool) (s : pystr) : Z := Z.of_nat (length (List.filter p (codes s))).
Definition estimate_tokens (text : pystr) : Z :=
  let sample := str_take ESTIMATE_SAMPLE_CHARS text in
  let cyrillic := count is_cyrillic sample in
  let latin := count is_latin sample in
  let other := (str_len sample - cyrillic - latin)%Z in
  let estimate := fadd (fadd (fdiv (float_of_Z cyrillic) f2_4) (fdiv (float_of_Z latin) (float_of_Z 4)))
                       (fdiv (float_of_Z other) f2_5) in
  float_trunc
    (if (str_len sample <? str_len text)%Z
     then fmul estimate (fdiv (float_of_Z (str_len text)) (float_of_Z (str_len sample)))
     else estimate).
Definition human_tokens (n : Z) : pystr :=
  if (THOUSAND <=? n)%Z then "~" +s+ format_1f (fdiv (float_of_Z n) (float_of_Z THOUSAND)) +s+ "k tokens"
  else "~" +s+ str_of_Z n +s+ " tokens".
Definition human_size (chars : Z) : pystr :=
  if (MEGABYTE <=? chars)%Z then format_1f (fdiv (float_of_Z chars) (float_of_Z MEGABYTE)) +s+ " MB"
  else if (KILOBYTE <=? chars)%Z then format_1f (fdiv (float_of_Z chars) (float_of_Z KILOBYTE)) +s+ " KB"
  else str_of_Z chars +s+ " chars".

(** ** The passport *)

Definition brief_type (value : json) : pystr :=
  match value with
  | JStr text => if (LARGE_TEXT_CHARS <? str_len text)%Z then "string(" +s+ str_of_Z (str_len text) +s+ " chars)" else "string"
  | JBool _ => "boolean"
  | JInt _ | JFloat _ => "number"
  | JList l => "array[" +s+ str_of_Z (Z.of_nat (length l)) +s+ "]"
  | JObj d => "object(" +s+ str_of_Z (Z.of_nat (length d)) +s+ " keys)"
  | JNull => "null"
  end.

(** [sort(key=len, reverse=True)]: longest first, equals in their order. *)
Fixpoint insert_longest (x : pystr * pystr) (l : list (pystr * pystr)) : list (pystr * pystr) :=
  match l with
  | [] => [x]
  | y :: l' => if (str_len y.2 <=? str_len x.2)%Z then x :: l else y :: insert_longest x l'
  end.
Definition longest_first (l : list (pystr * pystr)) : list (pystr * pystr) := foldr insert_longest [] l.

Definition child_path (prefix name : pystr) : pystr := if str_empty prefix then name else prefix +s+ "." +s+ name.
(** [_large_texts], into a nesting of at most [fuel] objects. *)
Fixpoint large_texts (fuel : nat) (document : json) (prefix : pystr) : list (pystr * pystr) :=
  match fuel with
  | O => []
  | S fuel =>
      match document with
      | JObj fields =>
          longest_first (concat ((fun kv =>
            let path := child_path prefix kv.1 in
            match kv.2 with
            | JStr text => if (LARGE_TEXT_CHARS <? str_len text)%Z then [(path, text)] else []
            | JObj _ => large_texts fuel kv.2 path
            | _ => []
            end) <$> fields))
      | _ => []
      end
  end.
Fixpoint nesting (v : json) : nat :=
  match v with
  | JObj fields => S ((fix go (l : list (pystr * json)) : nat :=
      match l with [] => O | (_, v) :: l => Nat.max (nesting v) (go l) end) fields)
  | _ => 1
  end.

Definition describe_document (document : json) : pystr :=
  match document with
  | JObj fields =>
      let parts := (fun kv => kv.1 +s+ ": " +s+ brief_type kv.2) <$> fields in
      let texts := large_texts (nesting document) document "" in
      "keys: {" +s+ str_join ", " parts +s+ "}" +s+ newline +s+
      match texts with
      | [] => ""
      | _ =>
          "large text values: " +s+
          str_join ", " ((fun pt => pt.1 +s+ " (" +s+ str_of_Z (str_len pt.2) +s+ " chars " +s+
                            human_tokens (estimate_tokens pt.2) +s+ ")") <$> take MAX_LISTED_TEXTS texts) +s+ newline
      end
  | _ => ""
  end.

Definition RAM_LIFETIME_NOTE : pystr := "lives until this task ends".
Definition one_line (s : pystr) : pystr := PyStr ((fun c => if decide (c = 10%N) then 32%N else c) <$> codes s).
Definition render_document_passport (doc : StoredDocument) (config : ResponseMemoryConfig) (lifetime : pystr) : pystr :=
  let head :=
    "[response " +s+ sd_ref doc +s+ "] kind=" +s+ sd_kind doc +s+ " · source=" +s+
    (if str_empty (sd_source doc) then "-" else sd_source doc) +s+ " · " +s+
    human_size (str_len (sd_body doc)) +s+ " · " +s+ human_tokens (estimate_tokens (sd_body doc)) +s+ " · " +s+
    lifetime +s+ newline in
  let details :=
    if decide (sd_kind doc = "json") then describe_document (sd_document doc)
    else "preview: " +s+ one_line (str_take PREVIEW_CHARS (sd_body doc)) +s+ "…" +s+ newline in
  let hint :=
    "Read deliberately: response_get(key, max_chars up to " +s+ str_of_Z (get_max_chars config) +s+ ") " +s+
    "when the size fits your budget; response_find(pattern) + response_window(at) " +s+ "when it does not." in
  head +s+ details +s+ hint.

(** [park]: the kind is told by whether a document was parsed. *)
Definition park (config : ResponseMemoryConfig) (id : pystr) (now : time) (owner_id scope source body : pystr)
    (document : json) (items : memory) : pystr * memory :=
  let kind := match document with JNull => ("text" : pystr) | _ => "json" end in
  let '(item, items) := store config id now owner_id scope kind source body document items in
  (render_document_passport (to_document item) config RAM_LIFETIME_NOTE, items).
Definition fetch (now : time) (owner_id ref : pystr) (items : memory) : Res RmError StoredDocument * memory :=
  match get now owner_id ref items with
  | (Ok item, items) => (Ok (to_document item), items)
  | (Err e, items) => (Err e, items)
  end.

(** ** Searching *)

(** [hay.find(needle, start)]: the least index at or after [start]. *)
Fixpoint find_from (fuel : nat) (hay needle : list N) (at_ : nat) : option nat :=
  match fuel with
  | O => None
  | S fuel =>
      if decide (take (length needle) (drop at_ hay) = needle) then Some at_
      else find_from fuel hay needle (S at_)
  end.
Definition str_find (hay needle : list N) (start : nat) : option nat :=
  find_from (length hay + 1 - length needle - start) hay needle start.

(** The loop of [_find_positions]: the index grows, [fuel] is the length of
    the text and one. *)
Fixpoint positions_from (fuel : nat) (hay needle : list N) (width : Z) (start : nat) : list (Z * Z) :=
  match fuel with
  | O => []
  | S fuel =>
      match str_find hay needle start with
      | None => []
      | Some at_ => (Z.of_nat at_, Z.of_nat at_ + width)%Z :: positions_from fuel hay needle width (S at_)
      end
  end.
Definition find_positions (str_lower : pystr -> pystr) (target pattern : pystr) : list (Z * Z) :=
  let hay := codes (str_lower target) in
  let needle := codes (str_lower pattern) in
  positions_from (S (length hay)) hay needle (str_len pattern) 0.

(** Windows as [(start, end, at)], in the order of tuples. *)
Definition window : Type := Z * Z * Z.
Definition window_leb (a b : window) : bool :=
  let '(s1, e1, a1) := a in
  let '(s2, e2, a2) := b in
  ((s1 <? s2) || ((s1 =? s2) && ((e1 <? e2) || ((e1 =? e2) && (a1 <=? a2)))))%Z.
Fixpoint insert_window (w : window) (l : list window) : list window :=
  match l with
  | [] => [w]
  | v :: l' => if window_leb w v then w :: l else v :: insert_window w l'
  end.
Definition sorted_windows (l : list window) : list window := foldr insert_window [] l.
(** [last] is [merged[-1]]. *)
Fixpoint merge_from (last : window) (l : list window) : list window :=
  match l with
  | [] => [last]
  | (start, end_, at_) :: l =>
      let '(last_start, last_end, last_at) := last in
      if (start <=? last_end)%Z then merge_from (last_start, Z.max last_end end_, last_at) l
      else last :: merge_from (start, end_, at_) l
  end.
Definition merge_windows (windows : list window) : list window :=
  match sorted_windows windows with [] => [] | w :: l => merge_from w l end.

(** ** The tools *)

Definition FIND_DEFAULT_BEFORE : Z := 300.
Definition FIND_DEFAULT_AFTER : Z := 700.
Definition FIND_DEFAULT_MATCHES : Z := 5.
Definition FIND_MAX_MATCHES : Z := 20.
Definition WINDOW_DEFAULT_BEFORE : Z := 1000.
Definition WINDOW_DEFAULT_AFTER : Z := 3000.
Definition NOT_FOUND_TEMPLATE (ref : pystr) : pystr :=
  "response '" +s+ ref +s+ "' is gone (expired, swept or never yours): run the call again for fresh data and a fresh ref".
Definition NO_KEY_TEMPLATE (key known : pystr) : pystr :=
  "key '" +s+ key +s+ "' is not in this response; it has: " +s+ known.
Definition TEXT_HAS_NO_KEYS : pystr := "this response is plain text; call without a key".
Definition str_slice (start stop : Z) (s : pystr) : pystr := str_drop start (str_take stop s).

Section Tools.
(** [str.lower]; [repr] and [json.dumps(.., ensure_ascii=False)]. *)
Context (str_lower : pystr -> pystr) (repr : pystr -> pystr) (json_dumps : json -> pystr).
Context (config : ResponseMemoryConfig).
(** [DocumentHome.fetch] over the state of the home. *)
Context {S : Type} (home_fetch : pystr -> pystr -> M S RmError StoredDocument).
Context (user_id : pystr) (enabled_features : option (gset pystr)).
Abbreviation arguments := (list (pystr * json)) (only parsing).
Abbreviation MRm := (M S RmError) (only parsing).

Definition HTTP_ENDPOINTS : pystr := FeatureCode.value FeatureCode.HTTP_ENDPOINTS.
Definition visible_to : bool := feature_enabled enabled_features HTTP_ENDPOINTS.
Definition refusal : pystr := feature_refusal HTTP_ENDPOINTS.
Definition arg (key : pystr) (args : arguments) : option json :=
  match dict_get key args with Some JNull => None | v => v end.
Definition bad {A} (text : pystr) : MRm A := raise (RmToolArgumentsError text).

Definition parse_ref (raw : option json) : MRm pystr :=
  match raw with
  | Some (JStr text) =>
      if str_empty (str_strip text) then bad "ref must be a non-empty string like 'resp:…'" else ret (str_strip text)
  | _ => bad "ref must be a non-empty string like 'resp:…'"
  end.
Definition parse_optional_str (raw : option json) (name : pystr) : MRm (option pystr) :=
  match raw with
  | None => ret None
  | Some (JStr text) =>
      if str_empty (str_strip text) then bad (name +s+ " must be a non-empty string") else ret (Some (str_strip text))
  | Some _ => bad (name +s+ " must be a non-empty string")
  end.
Definition parse_positive (raw : option json) (dflt : Z) (name : pystr) (floor : Z) : MRm Z :=
  match raw with
  | None => ret dflt
  | Some (JInt n) =>
      if (n <? floor)%Z then bad (name +s+ " must be an integer >= " +s+ str_of_Z floor) else ret n
  | Some _ => bad (name +s+ " must be an integer >= " +s+ str_of_Z floor)
  end.

(** [_target] *)
Definition sorted_keys (fields : list (pystr * json)) : list pystr :=
  foldr (fun k l => (fix insert l := match l with
    | [] => [k] | j :: l' => if str_leb k j then k :: l else j :: insert l' end) l) [] (fst <$> fields).
Definition target_of (item : StoredDocument) (key : option pystr) : MRm pystr :=
  match key with
  | None => ret (sd_body item)
  | Some key =>
      if decide (sd_kind item <> "json") then bad TEXT_HAS_NO_KEYS
      else
        match dotted_get (sd_document item) key with
        | JNull =>
            let known := match sd_document item with
                         | JObj fields => str_join ", " (sorted_keys fields)
                         | _ => "(no keys)"
                         end in
            bad (NO_KEY_TEMPLATE key known)
        | JStr text => ret text
        | value => ret (json_dumps value)
        end
  end.
(** [except ResponseNotFoundError]; [dflt] answers with the ref as given. *)
Definition with_document (ref raw_ref : pystr) (k : StoredDocument -> MRm pystr) : MRm pystr :=
  let! item := try_except (let! item := home_fetch user_id ref in ret (Some item))
                 (fun e => match e with ResponseNotFoundError _ => ret None | _ => raise e end) in
  match item with
  | None => ret (NOT_FOUND_TEMPLATE raw_ref)
  | Some item => k item
  end.
(** [arguments.get("ref")] once it is known to be a string. *)
Definition raw_ref (args : arguments) : pystr := match arg "ref" args with Some (JStr s) => s | _ => "" end.

(** [ResponseGetTool.execute] *)
Definition capped (cap : Z) (target : pystr) : pystr :=
  if (str_len target <=? cap)%Z then target
  else
    str_take cap target +s+ newline +s+ "…[showing " +s+ str_of_Z cap +s+ " of " +s+ str_of_Z (str_len target) +s+
    " chars (" +s+ human_tokens (estimate_tokens target) +s+ " total); raise max_chars (ceiling " +s+
    str_of_Z (get_max_chars config) +s+ ") or search with response_find]".
Definition response_get (args : arguments) : MRm pystr :=
  if negb visible_to then ret refusal
  else
    let! ref := parse_ref (arg "ref" args) in
    let! key := parse_optional_str (arg "key" args) "key" in
    let! asked := parse_positive (arg "max_chars" args) (get_default_chars config) "max_chars" 1 in
    let cap := Z.min asked (get_max_chars config) in
    with_document ref (raw_ref args) (fun item =>
      let! target := target_of item key in
      ret (capped cap target)).

(** [ResponseFindTool.execute] *)
Definition window_at (before after size : Z) (p : Z * Z) : window :=
  (Z.max 0 (p.1 - before), Z.min size (p.2 + after), p.1)%Z.
Definition response_find (args : arguments) : MRm pystr :=
  if negb visible_to then ret refusal
  else
    let! ref := parse_ref (arg "ref" args) in
    let! pattern :=
      match arg "pattern" args with
      | Some (JStr pattern) =>
          if str_empty pattern then bad "pattern must be a non-empty string"
          else if (MAX_PATTERN_CHARS <? str_len pattern)%Z
          then bad ("pattern is longer than " +s+ str_of_Z MAX_PATTERN_CHARS +s+
                    " chars; search for a shorter distinctive fragment instead")
          else ret pattern
      | _ => bad "pattern must be a non-empty string"
      end in
    let! key := parse_optional_str (arg "key" args) "key" in
    let! before := parse_positive (arg "before" args) FIND_DEFAULT_BEFORE "before" 1 in
    let! after := parse_positive (arg "after" args) FIND_DEFAULT_AFTER "after" 1 in
    let! asked := parse_positive (arg "max_matches" args) FIND_DEFAULT_MATCHES "max_matches" 1 in
    let max_matches := Z.min asked FIND_MAX_MATCHES in
    let! offset := parse_positive (arg "match_offset" args) 0 "match_offset" 0 in
    with_document ref (raw_ref args) (fun item =>
      let! target := target_of item key in
      let positions := find_positions str_lower target pattern in
      let total := Z.of_nat (length positions) in
      match positions with
      | [] => ret ("no matches for " +s+ repr pattern +s+ " in " +s+ str_of_Z (str_len target) +s+ " chars")
      | _ =>
          let shown := take (Z.to_nat max_matches) (drop (Z.to_nat offset) positions) in
          let windows := merge_windows (window_at before after (str_len target) <$> shown) in
          let blocks := (fun w : window => let '(start, end_, at_) := w in
            "[at=" +s+ str_of_Z at_ +s+ "] …" +s+ str_slice start end_ target +s+ "…") <$> windows in
          let shown_n := Z.of_nat (length shown) in
          let summary := str_of_Z total +s+ " match(es); showing " +s+ str_of_Z (offset + 1) +s+ "-" +s+
                         str_of_Z (offset + shown_n) +s+
                         (if (shown_n <? total)%Z then " — narrow the pattern or page with match_offset" else "") in
          ret (summary +s+ newline +s+ str_join (newline +s+ "---" +s+ newline) blocks)
      end).

(** [ResponseWindowTool.execute] *)
Definition response_window (args : arguments) : MRm pystr :=
  if negb visible_to then ret refusal
  else
    let! ref := parse_ref (arg "ref" args) in
    let! at_ := match arg "at" args with
                | Some (JInt n) => if (n <? 0)%Z then bad "at must be a position from a response_find match" else ret n
                | _ => bad "at must be a position from a response_find match"
                end in
    let! key := parse_optional_str (arg "key" args) "key" in
    let! before := parse_positive (arg "before" args) WINDOW_DEFAULT_BEFORE "before" 1 in
    let! after := parse_positive (arg "after" args) WINDOW_DEFAULT_AFTER "after" 1 in
    with_document ref (raw_ref args) (fun item =>
      let! target := target_of item key in
      if (str_len target <=? at_)%Z
      then ret ("position " +s+ str_of_Z at_ +s+ " is past the end (" +s+ str_of_Z (str_len target) +s+ " chars)")
      else
        let start := Z.max 0 (at_ - before) in
        let end_ := Z.min (str_len target) (at_ + after) in
        ret ("[" +s+ str_of_Z start +s+ "-" +s+ str_of_Z end_ +s+ " of " +s+ str_of_Z (str_len target) +s+ "] …" +s+
             str_slice start end_ target +s+ "…")).
End Tools.

(** ** Laws of the response memory *)

(** What parking evicts and what it keeps; who reads what; the merging of
    windows; the positions of a search. *)
(** ** The store *)

(** Every document is filed under its own id. *)
Definition memory_ok (items : memory) : Prop :=
  dict_ok items /\ forall k r, (k, r) ∈ items -> sr_id r = k.

Lemma memory_ok_pop k items : memory_ok items -> memory_ok (dict_pop k items).
Proof. intros [Hd Hk]. split; [by apply dict_ok_pop|]. intros k' r [_ H]%elem_of_dict_pop. by apply Hk. Qed.
Lemma memory_ok_set r items : memory_ok items -> memory_ok (dict_set (sr_id r) r items).
Proof.
  intros [Hd Hk]. split; [by apply dict_ok_set|].
  intros k' r' [[= -> ->]|H]%elem_of_dict_set; [done|by apply Hk].
Qed.
Lemma mine_of_pop o k items :
  memory_ok items -> mine_of o (dict_pop k items) = filter (fun r => sr_id r <> k) (mine_of o items).
Proof.
  intros [_ Hk]. unfold mine_of, dict_values, dict_pop.
  induction items as [|[k' r] items IH]; [done|].
  assert (Hr : sr_id r = k') by (by apply Hk; left).
  specialize (IH (fun k r H => Hk k r (list_elem_of_further _ _ _ H))).
  rewrite fmap_cons. cbn [snd]. rewrite (filter_cons _ r), (filter_cons _ (k', r)). cbn [fst].
  destruct (decide (k' = k)) as [He|Hne].
  - rewrite decide_False by naive_solver. rewrite IH. case_decide; [|done].
    rewrite filter_cons, decide_False by naive_solver. done.
  - rewrite decide_True by done. rewrite fmap_cons, filter_cons. cbn [snd]. case_decide; [|done].
    rewrite filter_cons, decide_True by congruence. by rewrite IH.
Qed.
Lemma elem_of_mine o r items : r ∈ mine_of o items <-> sr_owner_id r = o /\ exists k, (k, r) ∈ items.
Proof.
  unfold mine_of, dict_values. rewrite list_elem_of_filter, list_elem_of_fmap. split.
  - intros [Ho [[k r'] [-> H]]]. eauto.
  - intros [Ho [k H]]. split; [done|]. by exists (k, r).
Qed.
Lemma elem_of_mine_get o r items :
  memory_ok items -> r ∈ mine_of o items <-> sr_owner_id r = o /\ dict_get (sr_id r) items = Some r.
Proof.
  intros [Hd Hk]. rewrite elem_of_mine. split.
  - intros [Ho [k H]]. split; [done|]. rewrite (Hk _ _ H). by apply dict_elem_get.
  - intros [Ho H%dict_get_elem]. eauto.
Qed.

Lemma oldest_of_elem r l : oldest_of r l ∈ r :: l.
Proof.
  revert r. induction l as [|x l IH]; intros r; cbn; [left|].
  destruct (elem_of_cons l (oldest_of (if (sr_last_access x <? sr_last_access r)%Z then x else r) l)
              (if (sr_last_access x <? sr_last_access r)%Z then x else r)) as [H _].
  destruct (H (IH _)) as [->|Hl]; [destruct (_ <? _)%Z; set_solver|set_solver].
Qed.
Lemma oldest_of_le r l x : x ∈ r :: l -> (sr_last_access (oldest_of r l) <= sr_last_access x)%Z.
Proof.
  revert r x. induction l as [|y l IH]; intros r x; cbn [oldest_of].
  - by intros ->%list_elem_of_singleton.
  - destruct (_ <? _)%Z eqn:E; intros [->|[->|Hx]%elem_of_cons]%elem_of_cons;
      try (by apply IH; auto using list_elem_of_here, list_elem_of_further).
    + pose proof (IH y y (list_elem_of_here _ _)). lia.
    + pose proof (IH r r (list_elem_of_here _ _)). lia.
Qed.
(** The last of the list is the least only when it is strictly so. *)
Lemma oldest_of_app r l x :
  (forall y, y ∈ r :: l -> (sr_last_access y <= sr_last_access x)%Z) -> oldest_of r (l ++ [x]) ∈ r :: l.
Proof.
  revert r. induction l as [|y l IH]; intros r Hx; cbn.
  - assert (sr_last_access r <= sr_last_access x)%Z by (apply Hx; left).
    destruct (_ <? _)%Z eqn:E; [lia|left].
  - assert (H : oldest_of (if (sr_last_access y <? sr_last_access r)%Z then y else r) (l ++ [x])
                ∈ (if (sr_last_access y <? sr_last_access r)%Z then y else r) :: l).
    { apply IH. intros z Hz. apply Hx. destruct (_ <? _)%Z; set_solver. }
    destruct (_ <? _)%Z; set_solver.
Qed.

(** What a sweep of the owner's documents keeps. *)
Record evicted (budget : Z) (o : pystr) (items items' : memory) : Prop := {
  ev_sublist : sublist items' items;
  ev_fits : (body_chars (mine_of o items') <= budget)%Z \/ (length (mine_of o items') <= 1)%nat;
  ev_others : forall k r, (k, r) ∈ items -> sr_owner_id r <> o -> (k, r) ∈ items';
  ev_oldest : forall r r', r ∈ mine_of o items -> r' ∈ mine_of o items' ->
    r ∉ mine_of o items' -> (sr_last_access r <= sr_last_access r')%Z;
  ev_newest : forall x, last (mine_of o items) = Some x ->
    (forall y, y ∈ mine_of o items -> sr_last_access y <= sr_last_access x)%Z -> x ∈ mine_of o items' }.

Lemma evicted_refl budget o items :
  (body_chars (mine_of o items) <= budget)%Z \/ (length (mine_of o items) <= 1)%nat ->
  evicted budget o items items.
Proof. intros H. split; [done|done|done|done|]. intros x Hx _. by apply last_Some_elem_of. Qed.

Lemma mine_NoDup o items : memory_ok items -> NoDup (sr_id <$> mine_of o items).
Proof.
  intros [Hd Hk]. eapply sublist_NoDup; [|apply fmap_sublist, sublist_filter].
  assert (Heq : sr_id <$> dict_values items = dict_keys items); [|by rewrite Heq].
  unfold dict_values, dict_keys. rewrite <-list_fmap_compose. apply list_fmap_ext.
  intros i [k r] H. cbn. apply Hk. by eapply list_elem_of_lookup_2.
Qed.
Lemma mine_inj o items r r' :
  memory_ok items -> r ∈ mine_of o items -> r' ∈ mine_of o items -> sr_id r = sr_id r' -> r = r'.
Proof.
  intros Hok [_ H]%(elem_of_mine_get _ _ _ Hok) [_ H']%(elem_of_mine_get _ _ _ Hok) He.
  rewrite He, H' in H. congruence.
Qed.
Lemma mine_sublist o items items' : sublist items' items -> forall r, r ∈ mine_of o items' -> r ∈ mine_of o items.
Proof.
  intros Hs r [Ho [k Hk]]%elem_of_mine. apply elem_of_mine. split; [done|]. exists k. by eapply elem_of_sublist.
Qed.

Lemma evict_step budget o items items' oldest r rest :
  memory_ok items -> mine_of o items = r :: rest -> rest <> [] -> oldest = oldest_of r rest ->
  evicted budget o (dict_pop (sr_id oldest) items) items' -> evicted budget o items items'.
Proof.
  intros Hok Hm Hrest Hold [Hs Hf Ho Hl Hn].
  assert (Hmine : oldest ∈ mine_of o items) by (rewrite Hm, Hold; apply oldest_of_elem).
  pose proof (mine_of_pop o (sr_id oldest) _ Hok) as Hpop. rewrite Hpop in Hl, Hn.
  assert (Hsub : sublist items' items) by (etrans; [exact Hs|apply dict_pop_sublist]).
  split; [done|done| | |].
  - intros k x Hx Hne. apply Ho; [|done]. apply elem_of_dict_pop. split; [|done]. cbn. intros Hk.
    destruct Hok as [Hd Hid]. apply Hne. apply dict_elem_get in Hx; [|done].
    pose proof (proj1 (elem_of_mine_get o oldest items (conj Hd Hid)) Hmine) as [Hoo Hog]. congruence.
  - intros x x' Hx Hx' Hnx. destruct (decide (sr_id x = sr_id oldest)) as [He|He].
    + rewrite (mine_inj _ _ _ _ Hok Hx Hmine He), Hold. apply oldest_of_le. rewrite <-Hm.
      by apply (mine_sublist _ _ _ Hsub).
    + apply Hl; [by apply list_elem_of_filter|done|done].
  - intros x Hx Hle. apply Hn.
    + destruct rest as [|y rest' _] using rev_ind; [done|].
      rewrite Hm, app_comm_cons, last_snoc in Hx. injection Hx as ->.
      assert (Hin : oldest ∈ r :: rest').
      { rewrite Hold. apply oldest_of_app. intros z Hz. apply Hle. rewrite Hm, app_comm_cons. set_solver. }
      rewrite Hm, app_comm_cons, filter_app, (filter_cons _ x), decide_True; [by rewrite filter_nil, last_snoc|].
      pose proof (mine_NoDup o items Hok) as Hnd. rewrite Hm, app_comm_cons, fmap_app in Hnd.
      apply NoDup_app in Hnd as (_ & Hnd & _). intros He.
      apply (Hnd (sr_id oldest)); [by apply list_elem_of_fmap_2|]. rewrite <-He. left.
    + intros y [_ Hy]%list_elem_of_filter. by apply Hle.
Qed.

Lemma evict_loop_spec fuel budget o items :
  memory_ok items -> (length (mine_of o items) <= fuel)%nat ->
  evicted budget o items (evict_loop fuel budget (mine_of o items) items).
Proof.
  revert items. induction fuel as [|fuel IH]; intros items Hok Hlen; cbn.
  { apply evicted_refl. right. lia. }
  destruct (budget <? _)%Z eqn:Hb; [|apply evicted_refl; left; lia].
  destruct (mine_of o items) as [|r [|r2 rest]] eqn:Hm; [apply evicted_refl; right; rewrite Hm; cbn; lia..|].
  set (oldest := oldest_of r (r2 :: rest)).
  rewrite <-Hm, <-(mine_of_pop _ _ _ Hok).
  eapply (evict_step _ _ _ _ oldest); [done|done|done|done|].
  apply IH; [by apply memory_ok_pop|]. rewrite (mine_of_pop _ _ _ Hok).
  enough (length (filter (fun r => sr_id r <> sr_id oldest) (mine_of o items)) < length (mine_of o items))%nat
    by (rewrite Hm in *; cbn in *; lia).
  apply length_filter_lt with oldest; [rewrite Hm; apply oldest_of_elem|]. by intros H.
Qed.

(** Parking a document keeps its owner within the budget, or leaves one
    document only; what it drops are documents of that owner, none accessed
    later than one it keeps; documents of others are not touched; and the
    document just parked is there, unless the clock went back. *)
Theorem store_keeps_budget config id now owner_id scope kind source body document items :
  memory_ok items -> dict_get id items = None ->
  let '(item, items') := store config id now owner_id scope kind source body document items in
  memory_ok items' /\
  ((body_chars (mine_of owner_id items') <= budget_chars config)%Z \/ (length (mine_of owner_id items') <= 1)%nat) /\
  (forall k r, sr_owner_id r <> owner_id -> dict_get k items' = Some r <-> dict_get k items = Some r) /\
  (forall r r', r ∈ mine_of owner_id items -> dict_get (sr_id r) items' = None ->
     r' ∈ mine_of owner_id items' -> (sr_last_access r <= sr_last_access r')%Z) /\
  ((forall r, r ∈ mine_of owner_id items -> (sr_last_access r <= now)%Z) -> dict_get id items' = Some item).
Proof.
  intros Hok Hid. unfold store, evict. set (item := {| sr_id := id |}).
  assert (Hok2 : memory_ok (dict_set id item items)) by exact (memory_ok_set item _ Hok).
  pose proof (evict_loop_spec _ (budget_chars config) owner_id _ Hok2 (Nat.le_refl _)) as [Hs Hf Ho Hl Hn].
  set (items' := evict_loop _ _ _ _) in *.
  assert (Hok' : memory_ok items').
  { destruct Hok2 as [Hd Hk]. split.
    - eapply sublist_NoDup; [exact Hd|by apply fmap_sublist].
    - intros k r Hr. apply Hk. by eapply elem_of_sublist. }
  assert (Hset : dict_set id item items = items ++ [(id, item)]) by (by apply dict_set_new).
  assert (Hmine : mine_of owner_id (dict_set id item items) = mine_of owner_id items ++ [item]).
  { rewrite Hset. unfold mine_of, dict_values. rewrite fmap_app, filter_app. f_equal.
    change (snd <$> [(id, item)]) with [item]. by rewrite filter_cons, decide_True. }
  split_and!; [done|done| | |].
  - intros k r Hr. split; intros H.
    + assert (H2 : dict_get k (dict_set id item items) = Some r).
      { apply dict_elem_get; [apply Hok2|]. eapply elem_of_sublist; [|exact Hs]. by apply dict_get_elem. }
      rewrite dict_get_set in H2. case_decide; [|done]. injection H2 as <-. done.
    + apply dict_elem_get; [apply Hok'|]. apply Ho; [|done]. apply dict_get_elem. rewrite dict_get_set.
      case_decide; [congruence|done].
  - intros r r' Hr Hgone Hr'. apply Hl; [|done|].
    + rewrite Hmine. set_solver.
    + intros [_ H]%(elem_of_mine_get _ _ _ Hok'). congruence.
  - intros Hnow. destruct (proj1 (elem_of_mine_get owner_id item items' Hok')) as [_ H]; [|exact H].
    apply Hn; rewrite Hmine; [apply last_snoc|].
    intros y [Hy| ->%list_elem_of_singleton]%elem_of_app; [by apply Hnow|done].
Qed.

(** A document is read under its ref by its owner only; a read refreshes its
    seat and nothing else, a refused read changes nothing. *)
Theorem get_owner_only now owner_id r items :
  memory_ok items -> r ∈ dict_values items ->
  let '(answer, items') := get now owner_id (sr_ref r) items in
  (sr_owner_id r = owner_id -> answer = Ok (touched now r)) /\
  (sr_owner_id r <> owner_id -> answer = Err (ResponseNotFoundError (sr_ref r)) /\ items' = items) /\
  (forall k, dict_get k items' =
     (if decide (k = sr_id r /\ sr_owner_id r = owner_id) then touched now else id) <$> dict_get k items).
Proof.
  intros [Hd Hk] [[k0 r0] [-> H]]%list_elem_of_fmap. cbn [snd]. rewrite <-(Hk _ _ H) in H.
  assert (Href : ref_id (sr_ref r0) = sr_id r0).
  { unfold ref_id, sr_ref, str_startswith, str_drop, str_app, REF_PREFIX. destruct (sr_id r0) as [l]. done. }
  unfold get. rewrite Href, (dict_elem_get _ _ _ Hd H). case_decide as Ho; split_and!; try done.
  - intros k. rewrite dict_get_update. repeat case_decide; naive_solver.
  - intros k. rewrite decide_False by tauto. symmetry. apply option_fmap_id.
Qed.

(** The documents of a task that ends are gone, and only those. *)
Lemma drop_scope_exact scope items :
  memory_ok items -> forall k, dict_get k (drop_scope scope items) =
    match dict_get k items with Some r => if decide (sr_scope r = scope) then None else Some r | None => None end.
Proof.
  intros [Hd _] k. unfold drop_scope.
  assert (Hfold : forall keys (items : memory), dict_get k (foldl (fun m key => dict_pop key m) items keys) =
    if decide (k ∈ keys) then None else dict_get k items).
  { induction keys as [|key keys IH]; intros m; cbn; [done|]. rewrite IH, dict_get_pop.
    repeat case_decide; set_solver. }
  rewrite Hfold. case_decide as Hin.
  - apply list_elem_of_fmap in Hin as [[k' r] [-> [Hs Hr]%list_elem_of_filter]].
    rewrite (dict_elem_get _ _ _ Hd Hr). by rewrite decide_True.
  - destruct (dict_get k items) as [r|] eqn:Hg; [|done]. case_decide; [|done]. destruct Hin.
    apply list_elem_of_fmap. exists (k, r). split; [done|]. apply list_elem_of_filter.
    split; [done|by apply dict_get_elem].
Qed.

(** ** Windows *)

Definition w_start (w : window) : Z := w.1.1.
Definition w_end (w : window) : Z := w.1.2.
Definition within (a b : window) : Prop := (w_start b <= w_start a /\ w_end a <= w_end b)%Z.
Definition in_window (p : Z) (w : window) : Prop := (w_start w <= p < w_end w)%Z.
Definition by_start (a b : window) : Prop := (w_start a <= w_start b)%Z.

Lemma insert_window_elem w l x : x ∈ insert_window w l <-> x = w \/ x ∈ l.
Proof.
  induction l as [|v l IH]; cbn; [set_solver|]. destruct (window_leb w v); [set_solver|].
  rewrite elem_of_cons, IH. set_solver.
Qed.
Lemma window_leb_start w v : window_leb w v = true -> by_start w v.
Proof. destruct w as [[? ?] ?], v as [[? ?] ?]. unfold window_leb, by_start, w_start. cbn. lia. Qed.
Lemma window_leb_start' w v : window_leb w v = false -> by_start v w.
Proof. destruct w as [[? ?] ?], v as [[? ?] ?]. unfold window_leb, by_start, w_start. cbn. lia. Qed.
Lemma sorted_windows_elem l x : x ∈ sorted_windows l <-> x ∈ l.
Proof. induction l as [|w l IH]; cbn; [done|]. rewrite insert_window_elem, IH. set_solver. Qed.
Lemma sorted_windows_sorted l : StronglySorted by_start (sorted_windows l).
Proof.
  induction l as [|w l IH]; cbn; [constructor|].
  change (StronglySorted by_start (insert_window w (sorted_windows l))).
  revert IH. generalize (sorted_windows l) as k. clear l. intros k.
  induction k as [|v l' IHl]; intros IH; cbn; [repeat constructor|].
  apply StronglySorted_inv in IH as [Hs Hall]. specialize (IHl Hs).
  rewrite Forall_forall in Hall. destruct (window_leb w v) eqn:E.
  - apply window_leb_start in E. constructor; [constructor; [done|by apply Forall_forall]|].
    apply Forall_forall. intros x [->|Hx]%elem_of_cons; [done|]. specialize (Hall x Hx).
    unfold by_start in *. lia.
  - apply window_leb_start' in E. constructor; [done|]. apply Forall_forall.
    intros x [->|Hx]%insert_window_elem; [done|]. by apply Hall.
Qed.

Lemma merge_from_spec last l :
  StronglySorted by_start (last :: l) ->
  (forall w, w ∈ last :: l -> exists m, m ∈ merge_from last l /\ within w m) /\
  (forall m p, m ∈ merge_from last l -> in_window p m -> exists w, w ∈ last :: l /\ in_window p w) /\
  (forall m, m ∈ merge_from last l -> exists w, w ∈ last :: l /\ w_start m = w_start w /\ m.2 = w.2) /\
  StronglySorted (fun a b => w_end a < w_start b)%Z (merge_from last l).
Proof.
  revert last. induction l as [|[[s e] a] l IH]; intros [[ls le] la] Hs; cbn [merge_from].
  { split_and!; [..|repeat constructor].
    - intros w Hw. exists w. split; [done|]. unfold within. lia.
    - eauto.
    - eauto. }
  apply StronglySorted_inv in Hs as [Hs Hlast]. apply StronglySorted_inv in Hs as [Hs He].
  apply Forall_cons in Hlast as [Hse Hlast]. unfold by_start, w_start in Hse; cbn in Hse.
  rewrite Forall_forall in He, Hlast. destruct (s <=? le)%Z eqn:E; [apply Z.leb_le in E|apply Z.leb_gt in E].
  - destruct (IH (ls, Z.max le e, la)) as (H1 & H2 & H3 & H4).
    { constructor; [done|]. apply Forall_forall. exact Hlast. }
    split_and!; [| | |done].
    + destruct (H1 _ (list_elem_of_here _ _)) as [m [Hm Hw]].
      unfold within, w_start, w_end in *. cbn in *.
      intros w [->|[->|Hx]%elem_of_cons]%elem_of_cons; [exists m; cbn; split; [done|lia]..|].
      apply H1. by right.
    + intros m p Hm Hp. destruct (H2 m p Hm Hp) as [w [[->|Hw]%elem_of_cons Hin]].
      * unfold in_window, w_start, w_end in *. cbn in *. destruct (decide (p < le)%Z).
        -- exists (ls, le, la). split; [left|cbn; lia].
        -- exists (s, e, a). split; [right; left|cbn; lia].
      * exists w. split; [by do 2 right|done].
    + intros m Hm. destruct (H3 m Hm) as [w [[->|Hw]%elem_of_cons [? ?]]].
      * exists (ls, le, la). split; [left|done].
      * exists w. split; [by do 2 right|done].
  - destruct (IH (s, e, a)) as (H1 & H2 & H3 & H4); [constructor; [done|by apply Forall_forall]|].
    split_and!.
    + intros w [->|Hx]%elem_of_cons.
      * exists (ls, le, la). split; [left|unfold within; lia].
      * destruct (H1 w Hx) as [m [Hm Hw]]. exists m. split; [by right|done].
    + intros m p [->|Hm]%elem_of_cons Hp; [exists (ls, le, la); split; [left|done]|].
      destruct (H2 m p Hm Hp) as [w [Hw Hin]]. exists w. split; [by right|done].
    + intros m [->|Hm]%elem_of_cons; [exists (ls, le, la); split; [left|done]|].
      destruct (H3 m Hm) as [w [Hw Hin]]. exists w. split; [by right|done].
    + constructor; [done|]. apply Forall_forall. intros m Hm. destruct (H3 m Hm) as [w [Hw [-> _]]].
      unfold w_end; cbn. apply elem_of_cons in Hw as [->|Hw]; [cbn; lia|].
      specialize (He w Hw). unfold by_start, w_start in *. cbn in He. lia.
Qed.

(** Merging windows shows the same characters: every window lies in one
    merged window, no character is added, no two merged windows meet, and each
    starts at, and is labelled by, one of the windows. *)
Theorem merge_windows_spec windows :
  (forall w, w ∈ windows -> exists m, m ∈ merge_windows windows /\ within w m) /\
  (forall p, (exists m, m ∈ merge_windows windows /\ in_window p m) <-> exists w, w ∈ windows /\ in_window p w) /\
  (forall m, m ∈ merge_windows windows -> exists w, w ∈ windows /\ w_start m = w_start w /\ m.2 = w.2) /\
  StronglySorted (fun a b => w_end a < w_start b)%Z (merge_windows windows).
Proof.
  unfold merge_windows. pose proof (sorted_windows_sorted windows) as Hs.
  setoid_rewrite <-(sorted_windows_elem windows). destruct (sorted_windows windows) as [|w l].
  { split_and!; [..|constructor]; set_solver. }
  destruct (merge_from_spec w l Hs) as (H1 & H2 & H3 & H4). split_and!; [done| |done|done].
  intros p. split; [intros (m & Hm & Hp); by eapply H2|].
  intros (x & Hx & Hp). destruct (H1 x Hx) as (m & Hm & Hw). exists m. split; [done|].
  unfold in_window, within in *. lia.
Qed.

(** ** Searching *)

Definition occurs (hay needle : list N) (i : nat) : Prop := take (length needle) (drop i hay) = needle.
#[export] Instance occurs_dec hay needle i : Decision (occurs hay needle i) := ltac:(unfold occurs; apply _).

Lemma occurs_bound hay needle i : needle <> [] -> occurs hay needle i -> (i + length needle <= length hay)%nat.
Proof.
  intros Hn Ho. unfold occurs in Ho. apply (f_equal length) in Ho.
  rewrite length_take, length_drop in Ho. destruct needle; [done|]. rewrite length_cons in *. lia.
Qed.

(** [str.find] gives the least occurrence at or after the start. *)
Lemma find_from_spec fuel hay needle at_ :
  match find_from fuel hay needle at_ with
  | Some i => (at_ <= i < at_ + fuel)%nat /\ occurs hay needle i /\ forall j, (at_ <= j < i)%nat -> ~ occurs hay needle j
  | None => forall j, (at_ <= j < at_ + fuel)%nat -> ~ occurs hay needle j
  end.
Proof.
  revert at_. induction fuel as [|fuel IH]; intros at_; cbn; [lia|].
  case_decide as Ho; [split_and!; [lia|lia|done|lia]|].
  specialize (IH (S at_)). destruct (find_from fuel hay needle (S at_)) as [i|].
  - destruct IH as (? & ? & Hj). split_and!; [lia|lia|done|]. intros j Hj'.
    destruct (decide (j = at_)) as [->|]; [done|apply Hj; lia].
  - intros j Hj. destruct (decide (j = at_)) as [->|]; [done|apply IH; lia].
Qed.
Lemma str_find_spec hay needle start :
  needle <> [] ->
  match str_find hay needle start with
  | Some i => (start <= i)%nat /\ occurs hay needle i /\ forall j, (start <= j < i)%nat -> ~ occurs hay needle j
  | None => forall j, (start <= j)%nat -> ~ occurs hay needle j
  end.
Proof.
  intros Hn. unfold str_find. pose proof (find_from_spec (length hay + 1 - length needle - start) hay needle start) as H.
  destruct (find_from _ _ _ _) as [i|]; [destruct H as (? & ? & ?); split_and!; [lia|done|done]|].
  intros j Hj Ho. apply (H j); [|done]. pose proof (occurs_bound _ _ _ Hn Ho). lia.
Qed.

Lemma filter_seq_cut (P : nat -> Prop) `{!forall x, Decision (P x)} start n i :
  (start <= i < start + n)%nat -> P i -> (forall j, start <= j < i -> ~ P j)%nat ->
  filter P (seq start n) = i :: filter P (seq (S i) (start + n - S i)).
Proof.
  intros Hi HP Hno. replace n with (i - start + S (start + n - S i))%nat at 1 by lia.
  rewrite seq_app, filter_app. replace (start + (i - start))%nat with i by lia.
  rewrite <-cons_seq, filter_cons, decide_True by done.
  assert (Hnil : filter P (seq start (i - start)) = []); [|by rewrite Hnil].
  apply elem_of_nil_inv. intros x [Hx Hin]%list_elem_of_filter. apply elem_of_seq in Hin. apply (Hno x); [lia|done].
Qed.

Lemma positions_from_spec fuel hay needle width start :
  needle <> [] -> (length hay < start + fuel)%nat ->
  positions_from fuel hay needle width start =
  (fun i => (Z.of_nat i, Z.of_nat i + width)%Z) <$> filter (occurs hay needle) (seq start (length hay - start)).
Proof.
  intros Hn. revert start. induction fuel as [|fuel IH]; intros start Hf.
  { replace (length hay - start)%nat with 0%nat by lia. done. }
  cbn [positions_from]. pose proof (str_find_spec hay needle start Hn) as H. destruct (str_find hay needle start) as [i|].
  - destruct H as (Hi & Ho & Hno). pose proof (occurs_bound _ _ _ Hn Ho).
    assert (0 < length needle)%nat by (destruct needle; [done|cbn; lia]).
    rewrite IH by lia. rewrite (filter_seq_cut (occurs hay needle) start (length hay - start) i); [|lia|done|done].
    by replace (start + (length hay - start) - S i)%nat with (length hay - S i)%nat by lia.
  - enough (Hnil : filter (occurs hay needle) (seq start (length hay - start)) = []) by (by rewrite Hnil).
    apply elem_of_nil_inv. intros j [Ho Hj]%list_elem_of_filter.
    apply elem_of_seq in Hj. apply (H j); [lia|done].
Qed.

(** A search returns the positions where the lower-cased pattern stands in
    the lower-cased text, all of them and in order. *)
Lemma find_positions_reference str_lower target pattern :
  codes (str_lower pattern) <> [] ->
  find_positions str_lower target pattern =
  (fun i => (Z.of_nat i, Z.of_nat i + str_len pattern)%Z) <$>
    filter (occurs (codes (str_lower target)) (codes (str_lower pattern))) (seq 0 (length (codes (str_lower target)))).
Proof. intros Hn. unfold find_positions. rewrite positions_from_spec; [by rewrite Nat.sub_0_r|done|lia]. Qed.


(** When lower-casing keeps every character in its place, each occurrence a
    search shows is the pattern up to case, and lies whole in one of the
    windows shown. *)
Theorem find_shows_matches str_lower (f : N -> N) target pattern offset n before after p :
  (forall s, codes (str_lower s) = f <$> codes s) -> str_empty pattern = false -> (0 <= before)%Z -> (0 <= after)%Z ->
  let shown := take n (drop offset (find_positions str_lower target pattern)) in
  p ∈ shown ->
  str_lower (str_slice p.1 p.2 target) = str_lower pattern /\
  exists w, w ∈ merge_windows (window_at before after (str_len target) <$> shown) /\
    (w_start w <= p.1)%Z /\ (p.2 <= w_end w)%Z.
Proof.
  intros Hlow Hne Hb Ha shown Hp.
  assert (Hn : codes (str_lower pattern) <> []).
  { rewrite Hlow. intros H%fmap_nil_inv. destruct pattern as [[|]]; done. }
  assert (Hpos : p ∈ find_positions str_lower target pattern).
  { eapply elem_of_sublist; [exact Hp|]. etrans; [apply sublist_take|apply sublist_drop]. }
  rewrite find_positions_reference in Hpos by done.
  apply list_elem_of_fmap in Hpos as [i [-> [Ho _]%list_elem_of_filter]].
  pose proof (occurs_bound _ _ _ Hn Ho) as Hbound. unfold occurs in Ho.
  rewrite !Hlow, ?length_fmap in Ho, Hbound. cbn [fst snd]. unfold str_len in *. split.
  - apply codes_inj. rewrite !Hlow, <-Ho. unfold str_slice, str_drop, str_take. cbn [codes].
    rewrite <-fmap_drop, <-fmap_take. f_equal. rewrite take_drop_commute. do 2 f_equal; lia.
  - destruct (merge_windows_spec (window_at before after (Z.of_nat (length (codes target))) <$> shown)) as [H _].
    destruct (H _ (list_elem_of_fmap_2 _ _ _ Hp)) as [m [Hm [H1 H2]]]. exists m. split; [done|].
    rewrite length_fmap in Hbound. unfold window_at, w_start, w_end in *. cbn in *. lia.
Qed.

(** Lower-casing that makes a text longer moves the positions of a search
    away from the text: a capital I with a dot becomes two characters, and the
    position of the match is refused as past the end. *)
Definition lower_dotted (s : pystr) : pystr :=
  PyStr (concat ((fun c => if decide (c = 304%N) then [105%N; 775%N] else [c]) <$> codes s)).
Lemma find_position_past_end :
  let target := PyStr [304; 304; 304; 120]%N in
  let home (_ _ : pystr) := ret {| sd_ref := "resp:1"; sd_kind := "text"; sd_source := ""; sd_body := target; sd_document := JNull |} in
  find_positions lower_dotted target "x" = [(6, 7)]%Z /\
  (response_window (S := unit) (fun _ => "") home "u" None [("ref" : pystr, JStr "resp:1"); ("at" : pystr, JInt 6)] tt).1 =
    Ok ("position 6 is past the end (4 chars)" : pystr).
Proof. by vm_compute. Qed.
