(* ===== verification/Secrets.v ===== *)
(** * Secrets ([secrets/api.py], [secrets/store.py], [secrets/link_store.py], [secrets/tools.py])

    Values bound to a host, encrypted at rest; the short codes that open the
    form; the two tools.  The encryption, the hashes and the JSON library are
    parameters. *)
From S2P Require Import Prelude PyStr Clock Sql Dict Domain Tariffs.

(** ** Placements and transforms *)

Module SecretPlacement.
Inductive t : Set := HEADER | URL | BODY.
#[global] Instance t_eq_dec : EqDecision t := ltac:(solve_decision).
#[global] Instance t_countable : Countable t.
Proof.
  refine (inj_countable' (fun p => match p with HEADER => 0 | URL => 1 | BODY => 2 end)
            (fun n => match n with 0 => HEADER | 1 => URL | _ => BODY end) _). by intros [].
Defined.
Definition value (p : t) : pystr := match p with HEADER => "header" | URL => "url" | BODY => "body" end.
Definition all : list t := [HEADER; URL; BODY].
Definition parse (s : pystr) : option t := find (fun p => bool_decide (value p = s)) all.
End SecretPlacement.
Definition DEFAULT_PLACEMENTS : gset SecretPlacement.t := {[SecretPlacement.HEADER]}.

Module SecretTransform.
Inductive t : Set := BASE64 | BASE64URL | MD5_HEX | SHA1_HEX | SHA256_HEX.
#[global] Instance t_eq_dec : EqDecision t := ltac:(solve_decision).
Definition value (x : t) : pystr :=
  match x with
  | BASE64 => "base64" | BASE64URL => "base64url" | MD5_HEX => "md5_hex" | SHA1_HEX => "sha1_hex"
  | SHA256_HEX => "sha256_hex"
  end.
Definition all : list t := [BASE64; BASE64URL; MD5_HEX; SHA1_HEX; SHA256_HEX].
Definition parse (s : pystr) : option t := find (fun x => bool_decide (value x = s)) all.
End SecretTransform.

(** [s.encode()]: the UTF-8 bytes of the code points. *)
Definition utf8_char (c : N) : list N :=
  if (c <? 128)%N then [c]
  else if (c <? 2048)%N then [192 + c / 64; 128 + c mod 64]%N
  else if (c <? 65536)%N then [224 + c / 4096; 128 + (c / 64) mod 64; 128 + c mod 64]%N
  else [240 + c / 262144; 128 + (c / 4096) mod 64; 128 + (c / 64) mod 64; 128 + c mod 64]%N.
Definition utf8 (s : pystr) : list N := concat (utf8_char <$> codes s).
(** [base64.b64encode] and [urlsafe_b64encode], which differ in two characters. *)
Definition b64_char (c62 c63 : N) (n : N) : N :=
  if (n <? 26)%N then (65 + n)%N
  else if (n <? 52)%N then (97 + (n - 26))%N
  else if (n <? 62)%N then (48 + (n - 52))%N
  else if (n =? 62)%N then c62 else c63.
Fixpoint b64 (c62 c63 : N) (l : list N) : list N :=
  let ch := b64_char c62 c63 in
  match l with
  | [] => []
  | [a] => [ch (a / 4); ch (a mod 4 * 16); 61; 61]%N
  | [a; b] => [ch (a / 4); ch (a mod 4 * 16 + b / 16); ch (b mod 16 * 4); 61]%N
  | a :: b :: c :: l =>
      [ch (a / 4); ch (a mod 4 * 16 + b / 16); ch (b mod 16 * 4 + c / 64); ch (c mod 64)]%N ++ b64 c62 c63 l
  end.
Definition b64encode (l : list N) : pystr := PyStr (b64 43 47 l).
Definition urlsafe_b64encode (l : list N) : pystr := PyStr (b64 45 95 l).

Section Transform.
(** [hexdigest] of the hashes, of bytes. *)
Context (md5 sha1 sha256 : list N -> pystr).
Definition apply_transform (value : pystr) (transform : option SecretTransform.t) : pystr :=
  match transform with
  | None => value
  | Some SecretTransform.BASE64 => b64encode (utf8 value)
  | Some SecretTransform.BASE64URL => urlsafe_b64encode (utf8 value)
  | Some SecretTransform.MD5_HEX => md5 (utf8 value)
  | Some SecretTransform.SHA1_HEX => sha1 (utf8 value)
  | Some SecretTransform.SHA256_HEX => sha256 (utf8 value)
  end.
End Transform.

Example basic_auth : b64encode (utf8 "user:password") = "dXNlcjpwYXNzd29yZA==".
Proof. by vm_compute. Qed.

(** ** Data *)

Record SecretInfo := {
  si_code : pystr;
  si_allowed_host : pystr;
  si_description : pystr;
  si_placements : gset SecretPlacement.t;
  si_transform : option SecretTransform.t;
  si_created_at : time;
  si_last_used_at : option time }.
Record ResolvedSecret := {
  rs_value : pystr;
  rs_plain : pystr;
  rs_placements : gset SecretPlacement.t }.
Record SecretFormPrefill := {
  pf_code : pystr;
  pf_allowed_host : pystr;
  pf_description : pystr;
  pf_placements : gset SecretPlacement.t;
  pf_transform : option SecretTransform.t }.
Record SecretFormSession := {
  fs_user_id : pystr;
  fs_prefill : option SecretFormPrefill }.
Record SecretRow := {
  se_id : pystr;
  se_user_id : pystr;
  se_code : pystr;
  se_ciphertext : pystr;
  se_allowed_host : pystr;
  se_description : pystr;
  se_placements : option pystr;
  se_transform : option pystr;
  se_created_at : time;
  se_last_used_at : option time }.
Record SecretFormLinkRow := {
  fl_code : pystr;
  fl_user_id : pystr;
  fl_prefill : option pystr;
  fl_created_at : time;
  fl_expires_at : time }.

(** ** Grammar *)

Definition MAX_DESCRIPTION_CHARS : Z := 256.
Definition MAX_VALUE_CHARS : Z := 8192.
Definition WILDCARD_PREFIX : pystr := "*.".
Definition MIN_PATTERN_SUFFIX_DOTS : nat := 1.
Definition dot : N := 46.
Definition star : N := 42.
Definition slash : N := 47.
Definition colon : N := 58.
Definition blank : N := 32.
Definition comma : N := 44.

(** [str.count(c)] of one character *)
Definition count_char (c : N) (s : pystr) : nat := length (filter (fun x => x = c) (codes s)).
Definition sorted_values (placements : gset SecretPlacement.t) : list pystr :=
  order_by_str id (SecretPlacement.value <$> elements placements).

Section Grammar.
Context (str_lower : pystr -> pystr) (repr : pystr -> pystr) {S : Type}.
Abbreviation MS := (M S Exn) (only parsing).
Definition invalid {A} (text : pystr) : MS A := raise (InvalidSecretError text).

(** [normalize_code]: the pattern is the one of the plans. *)
Definition normalize_code (raw : pystr) : MS pystr :=
  let code := str_lower (str_strip raw) in
  if CODE_PATTERN code then ret code
  else invalid "secret code must be 1-64 characters of [a-z0-9_], e.g. 'gmail_token'".

(** [host.strip().lower().rstrip(".")] *)
Definition bare_host (raw : pystr) : pystr := str_rstrip_char dot (str_lower (str_strip raw)).
Definition is_pattern (binding : pystr) : bool := str_startswith WILDCARD_PREFIX binding.
Definition pattern_suffix (binding : pystr) : pystr := str_drop (str_len WILDCARD_PREFIX) binding.
Definition normalize_host (raw : pystr) : MS pystr :=
  let host := bare_host raw in
  if str_empty host || str_has slash host || str_has colon host || str_has blank host then
    invalid "allowed_host must be a bare hostname ('api.example.com') or a one-level pattern ('*.example.com')"
  else if negb (is_pattern host) then
    if str_has star host then invalid "a wildcard is only allowed as the leading label, e.g. '*.example.com'"
    else ret host
  else
    let suffix := pattern_suffix host in
    if str_has star suffix then invalid "only one wildcard label is allowed, e.g. '*.example.com'"
    else if (count_char dot suffix <? MIN_PATTERN_SUFFIX_DOTS)%nat ||
            bool_decide (("" : pystr) ∈ str_split_char dot suffix) then
      invalid ("'" +s+ host +s+ "' is too broad: a pattern must name at least a domain and a suffix, e.g. '*.example.com'")
    else ret host.

Definition host_matches (binding host : pystr) : bool :=
  let target := bare_host host in
  if str_has star target then false
  else if negb (is_pattern binding) then bool_decide (binding = target)
  else
    let suffix := pattern_suffix binding in
    if negb (str_endswith ("." +s+ suffix) target) then false
    else
      let label := str_take (str_len target - (str_len suffix + 1)) target in
      negb (str_empty label) && negb (str_has dot label).

Definition normalize_description (raw : pystr) : MS pystr :=
  let description := str_join " " (str_split raw) in
  if str_empty description then
    invalid "description is required: say what the secret is for, e.g. 'read-only token for the work calendar'"
  else if (MAX_DESCRIPTION_CHARS <? str_len description)%Z then
    invalid ("description must be at most " +s+ str_of_Z MAX_DESCRIPTION_CHARS +s+ " characters")
  else ret description.

Fixpoint collect_placements (raw : list pystr) (placements : gset SecretPlacement.t) : MS (gset SecretPlacement.t) :=
  match raw with
  | [] => ret placements
  | item :: raw =>
      match SecretPlacement.parse (str_lower (str_strip item)) with
      | Some p => collect_placements raw (placements ∪ {[p]})
      | None => invalid ("unknown placement " +s+ repr item +s+ "; allowed: " +s+
                         str_join ", " (SecretPlacement.value <$> SecretPlacement.all))
      end
  end.
Definition normalize_placements (raw : list pystr) : MS (gset SecretPlacement.t) :=
  let! placements := collect_placements raw ∅ in
  ret (if decide (placements = ∅) then DEFAULT_PLACEMENTS else placements).

Definition normalize_transform (raw : option pystr) : MS (option SecretTransform.t) :=
  match raw with
  | None => ret None
  | Some text =>
      if str_empty (str_strip text) then ret None
      else
        match SecretTransform.parse (str_lower (str_strip text)) with
        | Some x => ret (Some x)
        | None => invalid ("unknown transform " +s+ repr text +s+ "; allowed: " +s+
                           str_join ", " (SecretTransform.value <$> SecretTransform.all))
        end
  end.
End Grammar.

(** ** The store *)

(** [_placements_to_column], [_placements_from_column], [_transform_from_column] *)
Definition placements_to_column (placements : gset SecretPlacement.t) : option pystr :=
  if decide (placements = DEFAULT_PLACEMENTS) then None else Some (str_join "," (sorted_values placements)).
Definition placements_from_column (raw : option pystr) : gset SecretPlacement.t :=
  match raw with
  | None => DEFAULT_PLACEMENTS
  | Some raw =>
      let placements := list_to_set (omap SecretPlacement.parse (str_split_char comma raw)) : gset SecretPlacement.t in
      if decide (placements = ∅) then DEFAULT_PLACEMENTS else placements
  end.
(** [all(" " <= char <= "~" for char in value)] *)
Definition is_header_safe (value : pystr) : bool := forallb (fun c => (32 <=? c) && (c <=? 126))%N (codes value).
Definition find_row (user_id code : pystr) (t : list SecretRow) : option SecretRow :=
  head (select_where (fun r => se_user_id r = user_id /\ se_code r = code) t).
Definition HOST_MISMATCH_MESSAGE (code allowed host : pystr) : pystr :=
  "secret '" +s+ code +s+ "' is bound to host '" +s+ allowed +s+ "' and cannot be sent to '" +s+ host +s+ "'".

Module SecretStore.
Section Store.
Context (str_lower repr : pystr -> pystr) (md5 sha1 sha256 : list N -> pystr).
(** [Fernet(key)]: [encrypt] stamps and salts, [decrypt] fails on another key. *)
Context (encrypt : pystr -> pystr) (decrypt : pystr -> option pystr).
Context (now : time) (new_id : pystr).
Abbreviation MT := (M (list SecretRow) Exn) (only parsing).

Definition transform_from_column (raw : option pystr) : MT (option SecretTransform.t) :=
  match raw with
  | None => ret None
  | Some raw =>
      match SecretTransform.parse raw with
      | Some x => ret (Some x)
      | None => raise (InvalidSecretError ("stored transform " +s+ repr raw +s+ " is not supported"))
      end
  end.
Definition to_info (row : SecretRow) : MT SecretInfo :=
  let! transform := transform_from_column (se_transform row) in
  ret {| si_code := se_code row; si_allowed_host := se_allowed_host row; si_description := se_description row;
         si_placements := placements_from_column (se_placements row); si_transform := transform;
         si_created_at := se_created_at row; si_last_used_at := se_last_used_at row |}.

Definition put (user_id code value allowed_host description : pystr) (placements : list pystr)
    (transform : option pystr) : MT SecretInfo :=
  let! code := normalize_code str_lower code in
  let! host := normalize_host str_lower allowed_host in
  let! purpose := normalize_description description in
  let! allowed_placements := normalize_placements str_lower repr placements in
  let! applied_transform := normalize_transform str_lower repr transform in
  if str_empty value || (MAX_VALUE_CHARS <? str_len value)%Z then
    raise (InvalidSecretError ("secret value must be 1.." +s+ str_of_Z MAX_VALUE_CHARS +s+ " characters"))
  else if negb (is_header_safe value) then
    raise (InvalidSecretError "secret value must be printable ASCII (it is sent inside an HTTP request)")
  else
    let ciphertext := encrypt value in
    in_session
      (let! found := gets (find_row user_id code) in
       let row :=
         {| se_id := match found with Some row => se_id row | None => new_id end;
            se_user_id := user_id; se_code := code; se_ciphertext := ciphertext; se_allowed_host := host;
            se_description := purpose; se_placements := placements_to_column allowed_placements;
            se_transform := SecretTransform.value <$> applied_transform;
            se_created_at := now; se_last_used_at := None |} in
       modify (fun t => match found with
                        | None => insert_row row t
                        | Some old => update_where (fun r => se_id r = se_id old) (fun _ => row) t
                        end) ;;;
       to_info row).

Fixpoint infos (rows : list SecretRow) : MT (list SecretInfo) :=
  match rows with
  | [] => ret []
  | row :: rows =>
      let! info := to_info row in
      let! rest := infos rows in
      ret (info :: rest)
  end.
Definition list (user_id : pystr) : MT (Datatypes.list SecretInfo) :=
  let! rows := gets (fun t =>
    order_by (fun r => - se_created_at r)%Z (order_by_str se_code (select_where (fun r => se_user_id r = user_id) t))) in
  infos rows.

Definition delete (user_id code : pystr) : MT unit :=
  let! code := normalize_code str_lower code in
  in_session
    (let! found := gets (find_row user_id code) in
     match found with
     | None => raise (SecretNotFoundError code)
     | Some row => modify (delete_where (fun r => se_id r = se_id row))
     end).

Definition used (now : time) (r : SecretRow) : SecretRow :=
  {| se_id := se_id r; se_user_id := se_user_id r; se_code := se_code r; se_ciphertext := se_ciphertext r;
     se_allowed_host := se_allowed_host r; se_description := se_description r; se_placements := se_placements r;
     se_transform := se_transform r; se_created_at := se_created_at r; se_last_used_at := Some now |}.
Definition resolve (user_id code host : pystr) : MT ResolvedSecret :=
  let! code := normalize_code str_lower code in
  let! target := normalize_host str_lower host in
  in_session
    (let! found := gets (find_row user_id code) in
     match found with
     | None => raise (SecretNotFoundError code)
     | Some row =>
         if negb (host_matches str_lower (se_allowed_host row) target) then
           raise (SecretHostMismatchError (HOST_MISMATCH_MESSAGE code (se_allowed_host row) target))
         else
           match decrypt (se_ciphertext row) with
           | None => raise (SecretNotFoundError code)
           | Some plain =>
               modify (update_where (fun r => se_id r = se_id row) (used now)) ;;;
               let! transform := transform_from_column (se_transform row) in
               ret {| rs_value := apply_transform md5 sha1 sha256 plain transform; rs_plain := plain;
                      rs_placements := placements_from_column (se_placements row) |}
           end
     end).
End Store.
End SecretStore.

(** ** Codes of the form *)

Module SecretFormLinkStore.
Section Links.
Context (str_lower repr : pystr -> pystr) (json_dumps : json -> pystr) (json_loads : pystr -> option json).
(** [str] of a JSON value that is no string. *)
Context (py_str : json -> pystr).
Abbreviation ML := (M (list SecretFormLinkRow) Exn) (only parsing).

Definition text_of (v : json) : pystr := match v with JStr s => s | v => py_str v end.
Definition prefill_payload (prefill : SecretFormPrefill) : json :=
  JObj [("code" : pystr, JStr (pf_code prefill)); ("allowed_host" : pystr, JStr (pf_allowed_host prefill));
        ("description" : pystr, JStr (pf_description prefill));
        ("placements" : pystr, JList (JStr <$> sorted_values (pf_placements prefill)));
        ("transform" : pystr, match pf_transform prefill with Some x => JStr (SecretTransform.value x) | None => JNull end)].
Definition prefill_to_json (prefill : option SecretFormPrefill) : option pystr :=
  (fun p => json_dumps (prefill_payload p)) <$> prefill.

Definition key_error (key : pystr) : Exn := OtherError ("KeyError: " +s+ key).
Definition required (key : pystr) (data : list (pystr * json)) : ML pystr :=
  match dict_get key data with Some v => ret (text_of v) | None => raise (key_error key) end.
Definition prefill_from_json (raw : option pystr) : ML (option SecretFormPrefill) :=
  match raw with
  | None => ret None
  | Some raw =>
      match json_loads raw with
      | None => ret None
      | Some (JObj data) =>
          let! code := required "code" data in
          let! host := required "allowed_host" data in
          let! description := required "description" data in
          let! placements := normalize_placements str_lower repr
            (match dict_get "placements" data with Some (JList l) => text_of <$> l | _ => [] end) in
          let! transform := normalize_transform str_lower repr
            (match dict_get "transform" data with None | Some JNull => None | Some v => Some (text_of v) end) in
          ret (Some {| pf_code := code; pf_allowed_host := host; pf_description := description;
                       pf_placements := placements; pf_transform := transform |})
      | Some _ => raise (OtherError "AttributeError")
      end
  end.

(** [code] is [token_urlsafe(CODE_BYTES)]; the primary key is the code. *)
Definition issue (code : pystr) (now : time) (user_id : pystr) (prefill : option SecretFormPrefill) (ttl : Z) : ML pystr :=
  in_session
    (modify (delete_where (fun r => (fl_expires_at r < now)%Z)) ;;;
     let! clash := gets (fun t => find_key fl_code code t) in
     match clash with
     | Some _ => raise IntegrityError
     | None =>
         modify (insert_row {| fl_code := code; fl_user_id := user_id; fl_prefill := prefill_to_json prefill;
                               fl_created_at := now; fl_expires_at := now + ttl |}) ;;;
         ret code
     end).
Definition redeem (now : time) (code : pystr) : ML (option SecretFormSession) :=
  let! row := gets (find_key fl_code code) in
  match row with
  | None => ret None
  | Some row =>
      if (fl_expires_at row <=? now)%Z then ret None
      else
        let! prefill := prefill_from_json (fl_prefill row) in
        ret (Some {| fs_user_id := fl_user_id row; fs_prefill := prefill |})
  end.
Definition is_expired (now : time) (code : pystr) : ML bool :=
  let! row := gets (find_key fl_code code) in
  ret (match row with Some row => (fl_expires_at row <=? now)%Z | None => false end).
End Links.
End SecretFormLinkStore.

(** ** The tools *)

Definition NO_SECRETS_MESSAGE : pystr :=
  "no secrets stored for this user; mint a pre-filled form link with secret_link when an endpoint needs one".
Definition LINK_MESSAGE_TEMPLATE (url : pystr) : pystr :=
  "One-time secrets-form link (expires in ~10 minutes), everything but the value is pre-filled:" +s+ newline +s+ url +s+
  newline +s+ "Send it to the user; they only paste the secret value. The link never contains the value.".

(** [_format_info] *)
Definition format_info (info : SecretInfo) : pystr :=
  let placements := str_join "," (sorted_values (si_placements info)) in
  let transform := match si_transform info with Some x => SecretTransform.value x | None => "none" end in
  let last_used := match si_last_used_at info with Some t => format_iso t | None => "never" end in
  "- " +s+ si_code info +s+ " → " +s+ si_allowed_host info +s+ "; placements: " +s+ placements +s+ "; transform: " +s+
  transform +s+ "; last used: " +s+ last_used +s+ newline +s+ "  " +s+ si_description info.

Section Tools.
Context (str_lower repr : pystr -> pystr) {S : Type}.
Abbreviation arguments := (Datatypes.list (pystr * json)) (only parsing).

(** [SecretListTool.execute], over [store.list]. *)
Definition secret_list (store_list : pystr -> M S Exn (list SecretInfo)) (user_id : pystr) : M S Exn pystr :=
  let! infos := store_list user_id in
  ret (match infos with [] => NO_SECRETS_MESSAGE | _ => str_join newline (format_info <$> infos) end).

Definition required_str (arguments : arguments) (key : pystr) : M S Exn pystr :=
  match dict_get key arguments with
  | Some (JStr value) =>
      if str_empty (str_strip value) then raise (ToolArgumentsError (key +s+ " must be a non-empty string")) else ret value
  | _ => raise (ToolArgumentsError (key +s+ " must be a non-empty string"))
  end.
(** A number literal is false when its digits are zeros. *)
Fixpoint zero_literal (l : list N) : bool :=
  match l with
  | [] => true
  | c :: l => if ((c =? 101) || (c =? 69))%N then true else negb ((49 <=? c) && (c <=? 57))%N && zero_literal l
  end.
Definition json_false (v : json) : bool :=
  match v with
  | JNull | JBool false | JInt 0 | JList [] | JObj [] => true
  | JFloat literal => zero_literal (codes literal)
  | JStr s => str_empty s
  | _ => false
  end.
Fixpoint strings_of (l : list json) : option (list pystr) :=
  match l with
  | [] => Some []
  | JStr s :: l => cons s <$> strings_of l
  | _ :: _ => None
  end.
(** [_parse_prefill] *)
Definition parse_prefill (arguments : arguments) : M S Exn SecretFormPrefill :=
  let raw_placements := match dict_get "placements" arguments with
                        | Some v => if json_false v then JList [] else v
                        | None => JList []
                        end in
  match (match raw_placements with JList l => strings_of l | _ => None end) with
  | None => raise (ToolArgumentsError "placements must be an array of strings")
  | Some placements =>
      match (match dict_get "transform" arguments with
             | None | Some JNull => Some None | Some (JStr s) => Some (Some s) | Some _ => None end) with
      | None => raise (ToolArgumentsError "transform must be a string")
      | Some raw_transform =>
          try_except
            (let! raw := required_str arguments "code" in
             let! code := normalize_code str_lower raw in
             let! raw := required_str arguments "host" in
             let! host := normalize_host str_lower raw in
             let! raw := required_str arguments "description" in
             let! description := normalize_description raw in
             let! placements := normalize_placements str_lower repr placements in
             let! transform := normalize_transform str_lower repr raw_transform in
             ret {| pf_code := code; pf_allowed_host := host; pf_description := description;
                    pf_placements := placements; pf_transform := transform |})
            (fun e => match e with InvalidSecretError text => raise (ToolArgumentsError text) | _ => raise e end)
      end
  end.
(** [SecretLinkTool.execute], over [links.build_prefilled]. *)
Definition secret_link (build_prefilled : pystr -> SecretFormPrefill -> M S Exn pystr) (user_id : pystr)
    (arguments : arguments) : M S Exn pystr :=
  let! prefill := parse_prefill arguments in
  let! url := build_prefilled user_id prefill in
  ret (LINK_MESSAGE_TEMPLATE url).
End Tools.
