(* ===== verification/SecretLaws.v ===== *)
(** * Laws of the secrets

    The host rule is the one of TLS wildcards; a stored secret comes back to
    its owner for a covered host, and to nobody else; a code opens the form it
    was issued for until it expires. *)
From S2P Require Import Prelude PyStr Clock Sql Dict Domain Tariffs Secrets.

(** ** Hosts *)

Definition labels (host : pystr) : list (list N) := split_char dot (codes host).
(** The rule for certificates: a leading [*] stands for one label that is not
    empty; otherwise the labels are the same. *)
Definition tls_match (binding host : list (list N)) : bool :=
  match binding, host with
  | w :: binding', label :: host' =>
      if decide (w = [star]) then bool_decide (label <> []) && bool_decide (binding' = host')
      else bool_decide (binding = host)
  | _, _ => false
  end.

Lemma first_label_prefix c l w ws : split_char c l = w :: ws -> exists rest, l = w ++ rest.
Proof.
  intros H. pose proof (join_split_char c l) as Hj. rewrite H in Hj. destruct ws; cbn in Hj.
  - exists []. by rewrite app_nil_r.
  - eauto.
Qed.

Lemma join_char_cons_split c w l : join_char c (w :: split_char c l) = w ++ c :: l.
Proof.
  rewrite <-(join_split_char c l) at 2. by destruct (split_char_cons c l) as (v & vs & ->).
Qed.

Lemma is_pattern_codes b : is_pattern b = true -> codes b = star :: dot :: codes (pattern_suffix b).
Proof.
  unfold is_pattern, str_startswith, pattern_suffix. rewrite bool_decide_eq_true.
  destruct b as [[|x [|y l]]]; [done..|]. intros H. by injection H as -> ->.
Qed.
Lemma pattern_labels b : is_pattern b = true -> labels b = [star] :: labels (pattern_suffix b).
Proof.
  intros H. unfold labels. rewrite (is_pattern_codes b H).
  apply (split_char_app dot [star]). by intros ?%list_elem_of_singleton.
Qed.

Lemma endswith_label suffix target :
  (str_endswith ("." +s+ suffix) target &&
   (let label := str_take (str_len target - (str_len suffix + 1)) target in negb (str_empty label) && negb (str_has dot label))) =
  match labels target with
  | label :: rest => bool_decide (label <> []) && bool_decide (labels suffix = rest)
  | [] => false
  end.
Proof.
  apply eq_bool_prop_intro. rewrite !Is_true_true. unfold labels. split.
  - rewrite andb_true_iff, str_endswith_spec. intros [[l Hl] H].
    change (codes ("." +s+ suffix)) with (dot :: codes suffix) in Hl.
    assert (Htake : str_take (str_len target - (str_len suffix + 1)) target = PyStr l).
    { unfold str_take, str_len. rewrite Hl, length_app. cbn.
      replace (Z.to_nat _) with (length l) by lia. by rewrite take_app_length. }
    rewrite Htake in H. apply andb_true_iff in H as [Hne Hdot].
    apply negb_true_iff in Hne, Hdot. unfold str_has in Hdot. rewrite bool_decide_eq_false in Hdot.
    rewrite Hl, split_char_app by exact Hdot. rewrite andb_true_iff, !bool_decide_eq_true. split; [|done].
    intros ->. done.
  - destruct (split_char dot (codes target)) as [|label rest] eqn:E; [done|].
    rewrite andb_true_iff, !bool_decide_eq_true. intros [Hne Hr].
    assert (Hl : codes target = label ++ dot :: codes suffix).
    { rewrite <-(join_split_char dot (codes target)), E, <-Hr. apply join_char_cons_split. }
    assert (Hdot : dot ∉ label) by (apply (split_char_no_sep dot (codes target)); rewrite E; left).
    rewrite andb_true_iff, str_endswith_spec. split; [by exists label|].
    assert (Htake : str_take (str_len target - (str_len suffix + 1)) target = PyStr label).
    { unfold str_take, str_len. rewrite Hl, length_app. cbn.
      replace (Z.to_nat _) with (length label) by lia. by rewrite take_app_length. }
    rewrite Htake, andb_true_iff, !negb_true_iff. unfold str_has. rewrite bool_decide_eq_false.
    split; [by destruct label|done].
Qed.

Lemma normalize_host_inv {S} str_lower raw (s s' : S) b :
  normalize_host str_lower raw s = (Ok b, s') ->
  s' = s /\ b = bare_host str_lower raw /\
  (is_pattern b = false /\ str_has star b = false \/
   is_pattern b = true /\ str_has star (pattern_suffix b) = false /\
   (1 <= count_char dot (pattern_suffix b))%nat /\ ("" : pystr) ∉ str_split_char dot (pattern_suffix b)).
Proof.
  unfold normalize_host, invalid, raise, ret. intros H. destruct (_ || _); [done|].
  destruct (negb (is_pattern _)) eqn:Hp.
  - destruct (str_has star _) eqn:Hs; [done|]. injection H as <- <-. apply negb_true_iff in Hp. auto.
  - destruct (str_has star _) eqn:Hs; [done|]. destruct (_ || _) eqn:Hd; [done|]. injection H as <- <-.
    apply negb_false_iff in Hp. apply orb_false_iff in Hd as [Hd He]. rewrite bool_decide_eq_false in He.
    apply Nat.ltb_ge in Hd. split_and!; [done|done|]. right. done.
Qed.

Lemma labels_count c l : length (split_char c l) = S (length (filter (fun x => x = c) l)).
Proof.
  induction l as [|x l IH]; [done|]. cbn [split_char]. rewrite filter_cons.
  destruct (split_char_cons c l) as (w & ws & E). rewrite E in *. case_decide; cbn in *; lia.
Qed.

(** A binding the store accepts covers a request host exactly by the rule of
    TLS wildcards, label by label, and never a host with a star; a pattern
    names at least two labels after its own. *)
Theorem host_binding_is_tls_rule {S} str_lower raw host (s s' : S) b :
  normalize_host str_lower raw s = (Ok b, s') ->
  let target := bare_host str_lower host in
  host_matches str_lower b host = negb (str_has star target) && tls_match (labels b) (labels target) /\
  (is_pattern b = true -> exists ls, labels b = [star] :: ls /\ (2 <= length ls)%nat /\ [] ∉ ls).
Proof.
  intros (_ & _ & Hb)%normalize_host_inv target. unfold host_matches. fold target. clearbody target. split.
  - destruct (str_has star target); [done|]. cbn. destruct Hb as [[Hp Hs]|(Hp & Hs & _)]; rewrite Hp; cbn.
    + destruct (split_char_cons dot (codes b)) as (w & ws & E). unfold labels, tls_match. rewrite E.
      destruct (split_char_cons dot (codes target)) as (v & vs & E2). rewrite E2.
      rewrite decide_False.
      * apply bool_decide_ext. rewrite <-E, <-E2. split; [by intros ->|].
        intros H%split_char_inj. by apply codes_inj.
      * intros ->. apply first_label_prefix in E as [rest Hr]. unfold str_has in Hs.
        rewrite bool_decide_eq_false in Hs. apply Hs. rewrite Hr. left.
    + pose proof (endswith_label (pattern_suffix b) target) as H. rewrite (pattern_labels b Hp). unfold tls_match.
      destruct (labels target) as [|label rest] eqn:E.
      * destruct (str_endswith _ _); [exact H|done].
      * rewrite decide_True by done. rewrite <-H. by destruct (str_endswith _ _).
  - intros Hp. destruct Hb as [[Hp' _]|(_ & _ & Hd & He)]; [congruence|].
    exists (labels (pattern_suffix b)). split_and!; [by apply pattern_labels| |].
    + unfold labels. rewrite labels_count. unfold count_char in Hd. lia.
    + intros H. apply He. unfold str_split_char. apply list_elem_of_fmap. by exists [].
Qed.

(** ** Columns *)

Section Columns.
Import SecretPlacement.
(** The eight sets of placements. *)
Definition subsets : list (gset t) :=
  [∅; {[HEADER]}; {[URL]}; {[BODY]}; {[HEADER; URL]}; {[HEADER; BODY]}; {[URL; BODY]}; {[HEADER; URL; BODY]}].
Lemma elem_of_subsets (p : gset t) : p ∈ subsets.
Proof.
  unfold subsets. rewrite !elem_of_cons.
  destruct (decide (HEADER ∈ p)), (decide (URL ∈ p)), (decide (BODY ∈ p));
    [do 7 right; left|do 4 right; left|do 5 right; left|do 1 right; left|do 6 right; left|do 2 right; left
    |do 3 right; left|left]; apply set_eq; intros []; set_solver.
Qed.
Lemma for_subsets (Q : gset t -> Prop) `{!forall p, Decision (Q p)} :
  forallb (fun p => bool_decide (Q p)) subsets = true -> forall p, Q p.
Proof.
  intros Hall p. rewrite forallb_forall in Hall.
  apply (bool_decide_unpack _), Is_true_true, Hall, list_elem_of_In, elem_of_subsets.
Qed.

Lemma placements_roundtrip p : p <> ∅ -> placements_from_column (placements_to_column p) = p.
Proof.
  revert p. refine (for_subsets (fun p => p <> ∅ -> placements_from_column (placements_to_column p) = p) _).
  by vm_compute.
Qed.
Definition placements_of_values (l : list pystr) : gset t := list_to_set (omap parse l).
Lemma sorted_values_roundtrip p :
  placements_of_values (sorted_values p) = p /\ Forall (fun v => exists q, v = value q) (sorted_values p).
Proof.
  split; [revert p; refine (for_subsets (fun p => placements_of_values (sorted_values p) = p) _); by vm_compute|].
  unfold sorted_values. rewrite order_by_str_perm.
  apply Forall_fmap, Forall_true. eauto.
Qed.
Lemma parse_value q : parse (value q) = Some q.
Proof. by destruct q. Qed.
End Columns.
Lemma transform_parse_value x : SecretTransform.parse (SecretTransform.value x) = Some x.
Proof. by destruct x. Qed.

(** ** The store *)

Section Store.
Context (str_lower repr : pystr -> pystr) (md5 sha1 sha256 : list N -> pystr).
Context (encrypt : pystr -> pystr) (decrypt : pystr -> option pystr).
Implicit Types (t : list SecretRow).

Definition account (r : SecretRow) : pystr * pystr := (se_user_id r, se_code r).
Definition secrets_ok t : Prop := NoDup (se_id <$> t) /\ NoDup (account <$> t).
Lemma find_row_key user_id code t : find_row user_id code t = find_key account (user_id, code) t.
Proof.
  unfold find_row, find_key, select_where. f_equal. apply list_filter_iff. intros r. unfold account. naive_solver.
Qed.

(** The parts of an attempt that only look at the arguments. *)
Definition pure {S A} (m : M S Exn A) : Prop := forall s, (m s).2 = s.
Lemma bind_pure {S A B} (m : M S Exn A) (k : A -> M S Exn B) s b s' :
  pure m -> bind m k s = (Ok b, s') -> exists a, m s = (Ok a, s) /\ k a s = (Ok b, s').
Proof.
  intros Hm. unfold bind. specialize (Hm s). destruct (m s) as [[a|e] s1]; cbn in Hm; subst; [eauto|done].
Qed.
Lemma pure_code {S} raw : pure (normalize_code str_lower (S := S) raw).
Proof. intros s. unfold normalize_code. by case_match. Qed.
Lemma pure_host {S} raw : pure (normalize_host str_lower (S := S) raw).
Proof. intros s. unfold normalize_host. by repeat case_match. Qed.
Lemma pure_description {S} raw : pure (normalize_description (S := S) raw).
Proof. intros s. unfold normalize_description. by repeat case_match. Qed.
Lemma pure_collect {S} raw acc : pure (collect_placements str_lower repr (S := S) raw acc).
Proof. revert acc. induction raw as [|x raw IH]; intros acc s; cbn; [done|]. case_match; [apply IH|done]. Qed.
Lemma pure_placements {S} raw : pure (normalize_placements str_lower repr (S := S) raw).
Proof.
  intros s. unfold normalize_placements, bind. pose proof (pure_collect raw ∅ s) as H.
  by destruct (collect_placements _ _ raw ∅ s) as [[]].
Qed.
Lemma pure_transform {S} raw : pure (normalize_transform str_lower repr (S := S) raw).
Proof. intros s. unfold normalize_transform. by repeat case_match. Qed.
Lemma placements_nonempty {S} raw (s s' : S) p : normalize_placements str_lower repr raw s = (Ok p, s') -> p <> ∅.
Proof.
  unfold normalize_placements, bind. destruct (collect_placements _ _ raw ∅ s) as [[q|]]; [|done].
  intros [= <- <-]. by case_decide.
Qed.

Lemma transform_column x (t : list SecretRow) :
  SecretStore.transform_from_column repr (SecretTransform.value <$> x) t = (Ok x, t).
Proof. by destruct x as [[]|]. Qed.

(** What [put] writes, when it returns. *)
Definition put_row (now : time) (id user_id code ciphertext host purpose : pystr) p x : SecretRow :=
  {| se_id := id; se_user_id := user_id; se_code := code; se_ciphertext := ciphertext; se_allowed_host := host;
     se_description := purpose; se_placements := placements_to_column p;
     se_transform := SecretTransform.value <$> x; se_created_at := now; se_last_used_at := None |}.
Lemma put_inv now new_id user_id code value host description placements transform t info t' :
  SecretStore.put str_lower repr encrypt now new_id user_id code value host description placements transform t = (Ok info, t') ->
  exists c h purpose p x,
    normalize_code str_lower code t = (Ok c, t) /\ normalize_host str_lower host t = (Ok h, t) /\
    normalize_placements str_lower repr placements t = (Ok p, t) /\
    normalize_transform str_lower repr transform t = (Ok x, t) /\ is_header_safe value = true /\
    let old := find_row user_id c t in
    let row := put_row now (match old with Some r => se_id r | None => new_id end) user_id c (encrypt value) h purpose p x in
    si_code info = c /\ si_allowed_host info = h /\ si_placements info = p /\ si_transform info = x /\
    t' = match old with None => t ++ [row] | Some old => update_where (fun r => se_id r = se_id old) (fun _ => row) t end.
Proof.
  unfold SecretStore.put. intros H.
  apply bind_pure in H as (c & Hc & H); [|apply pure_code].
  apply bind_pure in H as (h & Hh & H); [|apply pure_host].
  apply bind_pure in H as (purpose & Hd & H); [|apply pure_description].
  apply bind_pure in H as (p & Hp & H); [|apply pure_placements].
  apply bind_pure in H as (x & Hx & H); [|apply pure_transform].
  destruct (_ || _); [done|]. destruct (is_header_safe value) eqn:Hsafe; [|done].
  exists c, h, purpose, p, x. do 5 (split; [done|]). cbn zeta. cbn [negb] in H.
  unfold in_session, SecretStore.to_info, bind, gets, modify, ret in H. cbn [se_transform] in H.
  rewrite transform_column in H. injection H as <- <-. cbn.
  rewrite placements_roundtrip by (by eapply placements_nonempty). by split_and!.
Qed.

Lemma stored_ok now new_id user_id code value host description placements transform t info t' :
  secrets_ok t -> new_id ∉ se_id <$> t ->
  SecretStore.put str_lower repr encrypt now new_id user_id code value host description placements transform t = (Ok info, t') ->
  secrets_ok t' /\ forall k, find_key account k t' =
    if decide (k = (user_id, si_code info)) then find_key account k t' else find_key account k t.
Proof.
  intros [Hid Hacc] Hnew (c & h & purpose & p & x & _ & _ & _ & _ & _ & Hput)%put_inv.
  cbn zeta in Hput. destruct Hput as (Hci & _ & _ & _ & ->). rewrite Hci.
  rewrite find_row_key. destruct (find_key account (user_id, c) t) as [old|] eqn:Hold.
  - apply find_key_Some in Hold as [Hin Hka].
    set (row := put_row now (se_id old) user_id c (encrypt value) h purpose p x).
    assert (Hold : forall r, r ∈ t -> se_id r = se_id old -> r = old).
    { intros r Hr He. by apply (key_inj se_id t). }
    assert (Hproj : account <$> update_where (fun r => se_id r = se_id old) (fun _ => row) t = account <$> t).
    { unfold update_where. rewrite <-list_fmap_compose. apply list_fmap_ext. intros i r Hr. cbn.
      case_decide as He; [|done]. apply list_elem_of_lookup_2 in Hr. by rewrite (Hold r Hr He), Hka. }
    split.
    + split; [|by rewrite Hproj]. rewrite update_where_proj; [done|]. by intros r ->.
    + intros k. case_decide as Hk; [done|]. rewrite find_key_update_in.
      * destruct (find_key account k t) as [r|] eqn:Hr; [|done]. cbn. case_decide as He; [|done].
        apply find_key_Some in Hr as [Hr Hkr]. rewrite (Hold r Hr He) in Hkr. congruence.
      * intros r Hr He. by rewrite (Hold r Hr He), Hka.
  - split.
    + unfold secrets_ok. rewrite !fmap_app. cbn. split; apply NoDup_app; split_and!; try done; try apply NoDup_singleton;
        intros y Hy ->%list_elem_of_singleton; [done|].
      apply find_key_None in Hold. rewrite Forall_forall in Hold. apply list_elem_of_fmap in Hy as (r & Hr & Hin).
      by apply (Hold r).
    + intros k. case_decide as Hk; [done|]. rewrite find_key_app. destruct (find_key account k t); [done|].
      rewrite find_key_cons, decide_False; [done|]. intros <-. done.
Qed.

(** A secret that was stored comes back to its owner, for a covered host,
    with its transform applied and the placements it was stored with; no other
    secret of anybody is touched by storing it. *)
Theorem secret_roundtrip now now' new_id user_id code value host host' description placements transform t info t' target :
  secrets_ok t -> new_id ∉ se_id <$> t -> decrypt (encrypt value) = Some value ->
  SecretStore.put str_lower repr encrypt now new_id user_id code value host description placements transform t = (Ok info, t') ->
  normalize_host str_lower host' t' = (Ok target, t') -> host_matches str_lower (si_allowed_host info) target = true ->
  (SecretStore.resolve str_lower repr md5 sha1 sha256 decrypt now' user_id code host' t').1 =
    Ok {| rs_value := apply_transform md5 sha1 sha256 value (si_transform info); rs_plain := value;
          rs_placements := si_placements info |} /\
  (forall u c, (u, c) <> (user_id, si_code info) -> find_row u c t' = find_row u c t).
Proof.
  intros Hok Hnew Hdec Hput Htarget Hcov. pose proof (stored_ok _ _ _ _ _ _ _ _ _ _ _ _ Hok Hnew Hput) as [Hok' Hrest].
  split.
  2: { intros u c Hne. rewrite !find_row_key, Hrest. by rewrite decide_False. }
  apply put_inv in Hput as (c & h & purpose & p & x & Hc & Hh & Hp & Hx & _ & Hrow).
  cbn zeta in Hrow. destruct Hrow as (_ & Hhi & Hpi & Hxi & Ht'). rewrite Hpi, Hxi. rewrite Hhi in Hcov.
  set (row := put_row now _ user_id c (encrypt value) h purpose p x) in Ht'.
  assert (Hfind : find_row user_id c t' = Some row).
  { rewrite find_row_key. apply find_key_elem; [apply Hok'| |done]. rewrite Ht'. subst row. rewrite find_row_key.
    destruct (find_key account (user_id, c) t) as [old|] eqn:Hold; [|set_solver].
    apply find_key_Some in Hold as [Hin _]. unfold update_where. apply list_elem_of_fmap. exists old.
    by rewrite decide_True. }
  unfold SecretStore.resolve.
  assert (Hc' : normalize_code str_lower code t' = (Ok c, t')).
  { unfold normalize_code, ret, raise, invalid in *. destruct (CODE_PATTERN _); [|done]. by injection Hc as ->. }
  rewrite (bind_Ok _ _ _ _ _ Hc'), (bind_Ok _ _ _ _ _ Htarget).
  unfold in_session, bind, gets, modify. rewrite Hfind.
  change (se_allowed_host row) with h. rewrite Hcov. cbn [negb].
  change (se_ciphertext row) with (encrypt value). rewrite Hdec.
  change (se_transform row) with (SecretTransform.value <$> x). rewrite transform_column. cbn.
  by rewrite placements_roundtrip by (by eapply placements_nonempty).
Qed.

(** A value leaves the store only for its owner, under its code, towards a
    host its binding covers; the only trace is the stamp of its row, and a
    refusal leaves none. *)
Theorem resolve_guarded now user_id code host t :
  match SecretStore.resolve str_lower repr md5 sha1 sha256 decrypt now user_id code host t with
  | (Ok secret, t') => exists row target transform,
      row ∈ t /\ se_user_id row = user_id /\ normalize_code str_lower code t = (Ok (se_code row), t) /\
      normalize_host str_lower host t = (Ok target, t) /\ host_matches str_lower (se_allowed_host row) target = true /\
      decrypt (se_ciphertext row) = Some (rs_plain secret) /\
      rs_value secret = apply_transform md5 sha1 sha256 (rs_plain secret) transform /\
      se_transform row = SecretTransform.value <$> transform /\
      t' = update_where (fun r => se_id r = se_id row) (SecretStore.used now) t
  | (Err _, t') => t' = t
  end.
Proof.
  unfold SecretStore.resolve. pose proof (pure_code (S := list SecretRow) code t) as Hc.
  pose proof (pure_host (S := list SecretRow) host t) as Hh. unfold bind at 1.
  destruct (normalize_code str_lower code t) as [[c|e] t1] eqn:Ec; cbn in Hc; subst t1; [|done].
  unfold bind at 1. destruct (normalize_host str_lower host t) as [[h|e] t1] eqn:Eh; cbn in Hh; subst t1; [|done].
  unfold in_session, bind, gets, modify. destruct (find_row user_id c t) as [row|] eqn:Hr; [|done].
  destruct (host_matches _ _ _) eqn:Hm; [|done]. cbn [negb]. destruct (decrypt _) as [plain|] eqn:Hd; [|done].
  rewrite find_row_key in Hr. apply find_key_Some in Hr as [Hin [= Hu Hcode]].
  unfold SecretStore.transform_from_column. destruct (se_transform row) as [raw|] eqn:Ht.
  - destruct (SecretTransform.parse raw) as [x|] eqn:Hx; [|done]. cbn.
    exists row, h, (Some x). rewrite Hcode. split_and!; try done. cbn. f_equal.
    rewrite Ht. f_equal. unfold SecretTransform.parse in Hx. apply find_some in Hx as [_ Hx].
    by apply bool_decide_eq_true in Hx.
  - cbn. exists row, h, None. rewrite Hcode. by split_and!.
Qed.
End Store.

(** ** Codes of the form *)

Section Links.
Context (str_lower repr : pystr -> pystr) (json_dumps : json -> pystr) (json_loads : pystr -> option json).
Context (py_str : json -> pystr).
(** The names of placements and transforms are in lower case. *)
Hypothesis lower_placement : forall p, str_lower (SecretPlacement.value p) = SecretPlacement.value p.
Hypothesis lower_transform : forall x, str_lower (SecretTransform.value x) = SecretTransform.value x.
Abbreviation issue := (SecretFormLinkStore.issue json_dumps).
Abbreviation redeem := (SecretFormLinkStore.redeem str_lower repr json_loads py_str).

Lemma collect_values {S} vs acc (s : S) :
  Forall (fun v => exists q, v = SecretPlacement.value q) vs ->
  collect_placements str_lower repr vs acc s = (Ok (acc ∪ placements_of_values vs), s).
Proof using lower_placement.
  clear -lower_placement.
  intros H. revert acc. induction H as [|v vs [q ->] _ IH]; intros acc; cbn [collect_placements].
  - unfold ret, placements_of_values. cbn. by rewrite (right_id_L ∅ (∪)).
  - assert (Hs : str_strip (SecretPlacement.value q) = SecretPlacement.value q) by (by destruct q).
    rewrite Hs, lower_placement, parse_value, IH. do 2 f_equal.
    unfold placements_of_values. cbn [omap list_omap]. rewrite parse_value. cbn. by rewrite (assoc_L (∪)).
Qed.
Lemma normalize_sorted {S} p (s : S) :
  p <> ∅ -> normalize_placements str_lower repr (sorted_values p) s = (Ok p, s).
Proof using lower_placement.
  intros Hp. unfold normalize_placements. destruct (sorted_values_roundtrip p) as [Hr Hv].
  rewrite (bind_Ok _ _ _ _ _ (collect_values _ _ _ Hv)), Hr, (left_id_L ∅ (∪)). unfold ret. by rewrite decide_False.
Qed.
Lemma normalize_transform_value {S} x (s : S) :
  normalize_transform str_lower repr (SecretTransform.value <$> x) s = (Ok x, s).
Proof using lower_transform.
  destruct x as [x|]; [|done]. cbn [fmap option_fmap option_map normalize_transform].
  assert (Hs : str_strip (SecretTransform.value x) = SecretTransform.value x) by (by destruct x).
  rewrite Hs, lower_transform, transform_parse_value. by destruct x.
Qed.

(** The JSON library reads what it wrote. *)
Definition json_reads (prefill : option SecretFormPrefill) : Prop :=
  forall p, prefill = Some p ->
    json_loads (json_dumps (SecretFormLinkStore.prefill_payload p)) = Some (SecretFormLinkStore.prefill_payload p).
Lemma prefill_roundtrip prefill (t : list SecretFormLinkRow) :
  json_reads prefill -> (forall p, prefill = Some p -> pf_placements p <> ∅) ->
  SecretFormLinkStore.prefill_from_json str_lower repr json_loads py_str
    (SecretFormLinkStore.prefill_to_json json_dumps prefill) t = (Ok prefill, t).
Proof using lower_placement lower_transform.
  destruct prefill as [[code host description placements transform]|]; [|done]. intros Hj Hp.
  specialize (Hp _ eq_refl). cbn [pf_placements] in Hp.
  unfold SecretFormLinkStore.prefill_from_json, SecretFormLinkStore.prefill_to_json.
  cbn [fmap option_fmap option_map]. rewrite (Hj _ eq_refl).
  assert (Hvs : forall vs : list pystr, SecretFormLinkStore.text_of py_str <$> (JStr <$> vs) = vs).
  { intros vs. rewrite <-list_fmap_compose. rewrite <-(list_fmap_id vs) at 2. by apply list_fmap_ext. }
  unfold SecretFormLinkStore.prefill_payload. set (d := [_; _; _; _; _]).
  assert (H1 : dict_get "code" d = Some (JStr code)) by done.
  assert (H2 : dict_get "allowed_host" d = Some (JStr host)) by done.
  assert (H3 : dict_get "description" d = Some (JStr description)) by done.
  assert (H4 : dict_get "placements" d = Some (JList (JStr <$> sorted_values placements))) by done.
  assert (H5 : (match dict_get "transform" d with None | Some JNull => None | Some v => Some (SecretFormLinkStore.text_of py_str v) end)
               = SecretTransform.value <$> transform) by (by destruct transform).
  unfold SecretFormLinkStore.required. rewrite H1, H2, H3, H4, H5, Hvs.
  rewrite !(bind_Ok (ret _) _ t _ t eq_refl), (bind_Ok _ _ _ _ _ (normalize_sorted placements t Hp)),
    (bind_Ok _ _ _ _ _ (normalize_transform_value transform t)). done.
Qed.

(** A fresh code opens, until it expires, the form of the person it was issued
    to with the prefill it was issued with, and is reported as expired after;
    other live codes are as they were. *)
Theorem link_roundtrip code now later user_id prefill ttl (t t' : list SecretFormLinkRow) :
  json_reads prefill -> (forall p, prefill = Some p -> pf_placements p <> ∅) -> (0 <= ttl)%Z ->
  issue code now user_id prefill ttl t = (Ok code, t') ->
  redeem later code t' =
    (Ok (if (now + ttl <=? later)%Z then None else Some {| fs_user_id := user_id; fs_prefill := prefill |}), t') /\
  SecretFormLinkStore.is_expired later code t' = (Ok (now + ttl <=? later)%Z, t') /\
  (forall code' row, code' <> code -> find_key fl_code code' t' = Some row <->
     find_key fl_code code' (delete_where (fun r => (fl_expires_at r < now)%Z) t) = Some row).
Proof using lower_placement lower_transform.
  intros Hj Hp Httl. unfold SecretFormLinkStore.issue, in_session, bind, modify, gets.
  destruct (find_key fl_code code _) as [|] eqn:Hclash; [done|]. unfold ret. intros [= <-].
  set (row := {| fl_code := code |}). unfold insert_row.
  assert (Hfind : find_key fl_code code (delete_where (fun r => (fl_expires_at r < now)%Z) t ++ [row]) = Some row).
  { rewrite find_key_app, Hclash, find_key_cons. by rewrite decide_True. }
  split_and!.
  - unfold SecretFormLinkStore.redeem, bind at 1, gets. rewrite Hfind. change (fl_expires_at row) with (now + ttl)%Z.
    destruct (_ <=? _)%Z; [done|]. by rewrite (bind_Ok _ _ _ _ _ (prefill_roundtrip prefill _ Hj Hp)).
  - unfold SecretFormLinkStore.is_expired, bind, gets. by rewrite Hfind.
  - intros code' r Hne. rewrite find_key_app. destruct (find_key fl_code code' _); [done|].
    rewrite find_key_cons, decide_False by (intros <-; done). done.
Qed.
End Links.
