(* ===== verification/Identity.v ===== *)
(** * People, their accounts and their settings ([identity/], [params/], [settings/])

    A person has an opaque id; each surface knows them by an account; whether
    they may talk is a status the operator's cap decides.  Params and settings
    are two tables of texts by key. *)
From S2P Require Import Prelude PyStr Clock Sql Dict Domain UnitOfWork Tariffs Secrets SecretLaws.

Module UserStatus.
Inductive t : Set := WAITING | ACTIVE | BANNED.
#[global] Instance t_eq_dec : EqDecision t := ltac:(solve_decision).
Definition all : list t := [WAITING; ACTIVE; BANNED].
End UserStatus.

(** ** Data *)

Record User := {
  us_id : pystr;
  us_name : pystr;
  us_email : pystr;
  us_status : UserStatus.t;
  us_created_at : time }.
Record UserIdentity := {
  ui_user_id : pystr;
  ui_surface : pystr;
  ui_external_id : pystr;
  ui_name : pystr;
  ui_username : option pystr;
  ui_details : json;
  ui_active : bool;
  ui_created_at : time;
  ui_updated_at : time }.
Record UserRow := {
  ur_id : pystr;
  ur_name : pystr;
  ur_email : option pystr;
  ur_status : UserStatus.t;
  ur_created_at : time }.
Record UserIdentityRow := {
  ir_id : pystr;
  ir_user_id : pystr;
  ir_surface : pystr;
  ir_external_id : pystr;
  ir_name : pystr;
  ir_username : option pystr;
  ir_details : json;
  ir_active : bool;
  ir_created_at : time;
  ir_updated_at : time }.
Record IdentityDb := {
  db_users : list UserRow;
  db_identities : list UserIdentityRow }.
#[export] Instance identity_db_users : HasTable IdentityDb UserRow.
Proof.
  refine {| table := db_users; set_table t d := {| db_users := t; db_identities := db_identities d |} |};
    [done|done|by intros []].
Defined.
#[export] Instance identity_db_identities : HasTable IdentityDb UserIdentityRow.
Proof.
  refine {| table := db_identities; set_table t d := {| db_users := db_users d; db_identities := t |} |};
    [done|done|by intros []].
Defined.

(** [_to_user], [_to_identity] *)
Definition to_user (row : UserRow) : User :=
  {| us_id := ur_id row; us_name := ur_name row; us_email := default "" (ur_email row); us_status := ur_status row;
     us_created_at := ur_created_at row |}.
Definition to_identity (row : UserIdentityRow) : UserIdentity :=
  {| ui_user_id := ir_user_id row; ui_surface := ir_surface row; ui_external_id := ir_external_id row;
     ui_name := ir_name row; ui_username := ir_username row; ui_details := ir_details row; ui_active := ir_active row;
     ui_created_at := ir_created_at row; ui_updated_at := ir_updated_at row |}.

Definition set_external_id (external_id : pystr) (now : time) (r : UserIdentityRow) : UserIdentityRow :=
  {| ir_id := ir_id r; ir_user_id := ir_user_id r; ir_surface := ir_surface r; ir_external_id := external_id;
     ir_name := ir_name r; ir_username := ir_username r; ir_details := ir_details r; ir_active := true;
     ir_created_at := ir_created_at r; ir_updated_at := now |}.
Definition set_active (active : bool) (now : time) (r : UserIdentityRow) : UserIdentityRow :=
  {| ir_id := ir_id r; ir_user_id := ir_user_id r; ir_surface := ir_surface r; ir_external_id := ir_external_id r;
     ir_name := ir_name r; ir_username := ir_username r; ir_details := ir_details r; ir_active := active;
     ir_created_at := ir_created_at r; ir_updated_at := now |}.
Definition set_details (details : json) (now : time) (r : UserIdentityRow) : UserIdentityRow :=
  {| ir_id := ir_id r; ir_user_id := ir_user_id r; ir_surface := ir_surface r; ir_external_id := ir_external_id r;
     ir_name := ir_name r; ir_username := ir_username r; ir_details := details; ir_active := ir_active r;
     ir_created_at := ir_created_at r; ir_updated_at := now |}.
Definition set_profile (name : pystr) (username : option pystr) (now : time) (r : UserIdentityRow) : UserIdentityRow :=
  {| ir_id := ir_id r; ir_user_id := ir_user_id r; ir_surface := ir_surface r; ir_external_id := ir_external_id r;
     ir_name := name; ir_username := username; ir_details := ir_details r; ir_active := ir_active r;
     ir_created_at := ir_created_at r; ir_updated_at := now |}.
Definition set_name (name : pystr) (r : UserRow) : UserRow :=
  {| ur_id := ur_id r; ur_name := name; ur_email := ur_email r; ur_status := ur_status r; ur_created_at := ur_created_at r |}.
Definition assign_status (status : UserStatus.t) (r : UserRow) : UserRow :=
  {| ur_id := ur_id r; ur_name := ur_name r; ur_email := ur_email r; ur_status := status; ur_created_at := ur_created_at r |}.

(** The account a row is of: the pair the table keeps unique. *)
Definition account (r : UserIdentityRow) : pystr * pystr := (ir_surface r, ir_external_id r).
Definition account_text (a : pystr * pystr) : pystr := a.1 +s+ ":" +s+ a.2.
(** [_find] *)
Definition find_identity (surface external_id : pystr) (t : list UserIdentityRow) : option UserIdentityRow :=
  find_key account (surface, external_id) t.

(** ** The store *)

Module IdentityStore.
Section Store.
(** What the rest of the installation commits at the k-th [await] outside a
    transaction; [==] on dictionaries; whether the database enforces foreign
    keys. *)
Context (others : nat -> IdentityDb -> IdentityDb) (same_details : json -> json -> bool) (foreign_keys : bool).
Abbreviation MI := (M IdentityDb Exn) (only parsing).
Definition await_point (k : nat) : MI unit := modify (others k).

Definition resolve (surface external_id : pystr) : MI (option pystr) :=
  gets (fun d => match find_identity surface external_id (table d) with
                 | Some row => if ir_active row then Some (ir_user_id row) else None
                 | None => None
                 end).

(** [create_user]: a waiting person; the address is unique where there is one. *)
Definition create_user (id : pystr) (now : time) (email : pystr) : MI User :=
  let row := {| ur_id := id; ur_name := ""; ur_email := if str_empty email then None else Some email;
                ur_status := UserStatus.WAITING; ur_created_at := now |} in
  let! users := gets (fun d => table d : list UserRow) in
  if existsb (fun r => bool_decide (ur_id r = id) || bool_decide (is_Some (ur_email row) /\ ur_email r = ur_email row)) users
  then raise IntegrityError
  else on_table (modify (insert_row row)) ;;; ret (to_user row).

Definition get_user (user_id : pystr) : MI User :=
  let! found := gets (fun d => find_key ur_id user_id (table d)) in
  match found with
  | Some row => ret (to_user row)
  | None => raise (UserNotFoundError user_id)
  end.

(** The constraints an insert can break: the key, the account, the person. *)
Definition violates (row : UserIdentityRow) (d : IdentityDb) : bool :=
  bool_decide (is_Some (find_key ir_id (ir_id row) (table d))) ||
  bool_decide (is_Some (find_key account (account row) (table d))) ||
  foreign_keys && bool_decide (find_key ur_id (ir_user_id row) (table d : list UserRow) = None).
(** [link]: the others come between the look-up and the commit, which only
    writes the columns that changed. *)
Definition link (new_id : pystr) (now : time) (user_id surface external_id : pystr) (details : option json) : MI UserIdentity :=
  let! existing := gets (fun d => find_identity surface external_id (table d)) in
  await_point 2 ;;;
  match existing with
  | Some row =>
      if decide (ir_user_id row <> user_id) then raise (IdentityTakenError (account_text (surface, external_id)))
      else
        let revive := if ir_active row then id else set_active true now in
        let retell := match details with
                      | Some details => if same_details (ir_details row) details then id else set_details details now
                      | None => id
                      end in
        on_table (modify (update_where (fun r => ir_id r = ir_id row) (fun r => retell (revive r)))) ;;;
        ret (to_identity (retell (revive row)))
  | None =>
      let row := {| ir_id := new_id; ir_user_id := user_id; ir_surface := surface; ir_external_id := external_id;
                    ir_name := ""; ir_username := None; ir_details := default (JObj []) details; ir_active := true;
                    ir_created_at := now; ir_updated_at := now |} in
      let! clash := gets (violates row) in
      if clash then raise (IdentityTakenError (account_text (surface, external_id)))
      else on_table (modify (insert_row row)) ;;; ret (to_identity row)
  end.

Definition resolve_or_create (user_id id : pystr) (now : time) (surface external_id : pystr) : MI pystr :=
  let! found := resolve surface external_id in
  match found with
  | Some user_id => ret user_id
  | None =>
      await_point 0 ;;;
      let! user := create_user user_id now "" in
      await_point 1 ;;;
      try_except
        (link id now (us_id user) surface external_id None ;;; ret (us_id user))
        (fun e => match e with
                  | IdentityTakenError _ =>
                      await_point 3 ;;;
                      let! owner := resolve surface external_id in
                      match owner with None => raise e | Some owner => ret owner end
                  | _ => raise e
                  end)
  end.

(** [reseat]: the commit fails when another row is of that account. *)
Definition reseat (now : time) (surface user_id external_id : pystr) : MI UserIdentity :=
  let! taken := gets (fun d => find_identity surface external_id (table d)) in
  if match taken with Some row => bool_decide (ir_user_id row <> user_id) | None => false end
  then raise (IdentityTakenError (account_text (surface, external_id)))
  else
    let! found := gets (fun d => head (select_where (fun r => ir_surface r = surface /\ ir_user_id r = user_id) (table d))) in
    match found with
    | None => raise (IdentityNotFoundError (account_text (surface, user_id)))
    | Some row =>
        if match taken with Some other => bool_decide (ir_id other <> ir_id row) | None => false end
        then raise IntegrityError
        else
          on_table (modify (update_where (fun r => ir_id r = ir_id row) (set_external_id external_id now))) ;;;
          ret (to_identity (set_external_id external_id now row))
    end.

Definition deactivate (now : time) (surface external_id : pystr) : MI unit :=
  on_table (modify (update_where (fun r => ir_surface r = surface /\ ir_external_id r = external_id) (set_active false now))).

Definition update_profile (now : time) (surface external_id name : pystr) (username : option pystr) : MI unit :=
  let! found := gets (fun d => find_identity surface external_id (table d)) in
  match found with
  | None => ret tt
  | Some identity =>
      when (bool_decide (ir_name identity <> name \/ ir_username identity <> username))
        (on_table (modify (update_where (fun r => ir_id r = ir_id identity) (set_profile name username now)))) ;;;
      if str_empty name then ret tt
      else
        let! user := gets (fun d => find_key ur_id (ir_user_id identity) (table d)) in
        match user with
        | Some user => when (str_empty (ur_name user))
                         (on_table (modify (update_where (fun r => ur_id r = ur_id user) (set_name name))))
        | None => ret tt
        end
  end.

Definition set_status (user_id : pystr) (status : UserStatus.t) : MI unit :=
  let! found := gets (fun d => find_key ur_id user_id (table d)) in
  match found with
  | None => raise (UserNotFoundError user_id)
  | Some _ => on_table (modify (update_where (fun r => ur_id r = user_id) (assign_status status)))
  end.

(** One statement, serialised across processes: the count is in its clause. *)
Definition active_count (t : list UserRow) : nat := rowcount (fun r => ur_status r = UserStatus.ACTIVE) t.
Definition may_activate (user_id : pystr) (max_active : option Z) (t : list UserRow) (r : UserRow) : Prop :=
  ur_id r = user_id /\ ur_status r = UserStatus.WAITING /\
  match max_active with None => True | Some cap => (Z.of_nat (active_count t) < cap)%Z end.
#[export] Instance may_activate_dec u m t r : Decision (may_activate u m t r).
Proof. unfold may_activate. destruct m; apply _. Defined.
Definition try_activate (user_id : pystr) (max_active : option Z) : MI bool := fun d =>
  let t : list UserRow := table d in
  (Ok (bool_decide (rowcount (may_activate user_id max_active t) t = 1%nat)),
   set_table (update_where (may_activate user_id max_active t) (assign_status UserStatus.ACTIVE) t) d).

Definition count_by_status : MI (list (UserStatus.t * nat)) :=
  gets (fun d => (fun s => (s, rowcount (fun r => ur_status r = s) (table d : list UserRow))) <$> UserStatus.all).
Definition list_users : MI (list User) :=
  gets (fun d => to_user <$> order_by (fun r => - ur_created_at r)%Z (table d : list UserRow)).
Definition identities_of (user_id : pystr) : MI (list UserIdentity) :=
  gets (fun d => to_identity <$> order_by_str ir_surface (order_by ir_created_at
    (select_where (fun r => ir_user_id r = user_id) (table d)))).
Definition list_identities (surface : pystr) : MI (list UserIdentity) :=
  gets (fun d => to_identity <$> order_by ir_created_at (order_by_str ir_id
    (select_where (fun r => ir_surface r = surface) (table d)))).
Definition find_by_identity (surface external_id : pystr) : MI (option UserIdentity) :=
  gets (fun d => to_identity <$> find_identity surface external_id (table d)).

(** ** Admission ([AccessService.admit]) *)

Definition admit_person (cap : MI (option Z)) (user_id : pystr) : MI UserStatus.t :=
  let! user := get_user user_id in
  if decide (us_status user <> UserStatus.WAITING) then ret (us_status user)
  else
    await_point 4 ;;;
    let! max_active := cap in
    await_point 5 ;;;
    let! activated := try_activate user_id max_active in
    ret (if activated then UserStatus.ACTIVE else UserStatus.WAITING).
End Store.
End IdentityStore.

(** ** Parameters and settings ([params/], [settings/] *)

(** The plain values of a person and of the installation, by code. *)
(** [any(category(char) == "Cc")]: the C0 and C1 controls. *)
Definition is_control (c : N) : bool := ((c <=? 31) || (127 <=? c) && (c <=? 159))%N.
Definition MAX_VALUE_CHARS : Z := 2048.

(** ** Parameters of a person *)

Record UserParam := { up_code : pystr; up_value : pystr; up_created_at : time; up_updated_at : time }.
Record UserParamRow := {
  pr_id : pystr;
  pr_user_id : pystr;
  pr_code : pystr;
  pr_value : pystr;
  pr_created_at : time;
  pr_updated_at : time }.
Definition to_param (row : UserParamRow) : UserParam :=
  {| up_code := pr_code row; up_value := pr_value row; up_created_at := pr_created_at row;
     up_updated_at := pr_updated_at row |}.
(** [_find_row] *)
Definition find_param (user_id code : pystr) (t : list UserParamRow) : option UserParamRow :=
  head (select_where (fun r => pr_user_id r = user_id /\ pr_code r = code) t).

Module UserParamStore.
Section Params.
Context (str_lower : pystr -> pystr).
Abbreviation MP := (M (list UserParamRow) Exn) (only parsing).

Definition normalize_code (raw : pystr) : MP pystr :=
  let code := str_lower (str_strip raw) in
  if CODE_PATTERN code then ret code
  else raise (InvalidUserParamError "param code must be 1-64 characters of [a-z0-9_], e.g. 'timezone'").
Definition normalize_value (raw : pystr) : MP pystr :=
  let value := str_strip raw in
  if str_empty value || (MAX_VALUE_CHARS <? str_len value)%Z then
    raise (InvalidUserParamError ("param value must be 1.." +s+ str_of_Z MAX_VALUE_CHARS +s+ " characters"))
  else if existsb is_control (codes value) then
    raise (InvalidUserParamError "param value must not contain control characters")
  else ret value.

Definition assign_value (value : pystr) (now : time) (r : UserParamRow) : UserParamRow :=
  {| pr_id := pr_id r; pr_user_id := pr_user_id r; pr_code := pr_code r; pr_value := value;
     pr_created_at := pr_created_at r; pr_updated_at := now |}.
Definition put (now : time) (new_id user_id code value : pystr) : MP UserParam :=
  let! code := normalize_code code in
  let! value := normalize_value value in
  let! found := gets (find_param user_id code) in
  let row := match found with
             | None => {| pr_id := new_id; pr_user_id := user_id; pr_code := code; pr_value := value;
                          pr_created_at := now; pr_updated_at := now |}
             | Some row => assign_value value now row
             end in
  modify (fun t => match found with
                   | None => insert_row row t
                   | Some old => update_where (fun r => pr_id r = pr_id old) (fun _ => row) t
                   end) ;;;
  ret (to_param row).
Definition get_for_user (user_id : pystr) : MP (list (pystr * pystr)) :=
  gets (fun t => foldl (fun d r => dict_set (pr_code r) (pr_value r) d) [] (select_where (fun r => pr_user_id r = user_id) t)).
Definition list (user_id : pystr) : MP (Datatypes.list UserParam) :=
  gets (fun t => to_param <$> order_by_str pr_code (select_where (fun r => pr_user_id r = user_id) t)).
Definition delete (user_id code : pystr) : MP unit :=
  let! code := normalize_code code in
  let! found := gets (find_param user_id code) in
  match found with
  | None => raise (UserParamNotFoundError code)
  | Some row => modify (delete_where (fun r => pr_id r = pr_id row))
  end.
End Params.
End UserParamStore.

(** ** Settings of the installation *)

Record AppSettingRow := { as_key : pystr; as_value : pystr; as_updated_at : time }.
Record Setting := { st_key : pystr; st_value : pystr; st_updated_at : time }.
Definition to_setting (row : AppSettingRow) : Setting :=
  {| st_key := as_key row; st_value := as_value row; st_updated_at := as_updated_at row |}.
Definition MAX_ACTIVE_USERS_KEY : pystr := "max_active_users".

Module SettingsStore.
Section Settings.
Context (str_lower : pystr -> pystr).
Abbreviation MA := (M (list AppSettingRow) Exn) (only parsing).

Definition normalize_key (raw : pystr) : MA pystr :=
  let key := str_lower (str_strip raw) in
  if CODE_PATTERN key then ret key
  else raise (InvalidSettingError "setting key must be 1-64 characters of [a-z0-9_], e.g. 'max_active_users'").
Definition normalize_value (raw : pystr) : MA pystr :=
  let value := str_strip raw in
  if str_empty value || (MAX_VALUE_CHARS <? str_len value)%Z then
    raise (InvalidSettingError ("setting value must be 1.." +s+ str_of_Z MAX_VALUE_CHARS +s+ " characters"))
  else ret value.
Definition get (key : pystr) : MA (option pystr) :=
  let! key := normalize_key key in
  gets (fun t => as_value <$> find_key as_key key t).
Definition put (now : time) (key value : pystr) : MA Setting :=
  let! key := normalize_key key in
  let! value := normalize_value value in
  let! found := gets (find_key as_key key) in
  let row := {| as_key := key; as_value := value; as_updated_at := now |} in
  modify (fun t => match found with
                   | None => insert_row row t
                   | Some _ => update_where (fun r => as_key r = key) (fun _ => row) t
                   end) ;;;
  ret (to_setting row).
Definition delete (key : pystr) : MA unit :=
  let! key := normalize_key key in
  modify (delete_where (fun r => as_key r = key)).
Definition list : MA (Datatypes.list Setting) :=
  gets (fun t => to_setting <$> order_by_str as_key t).
End Settings.
End SettingsStore.

(** [int(raw)]: blanks around, a sign, digits with single underscores between
    them; [decimal] is the value of a decimal digit in the Unicode tables. *)
Section Int.
Context (decimal : N -> option Z).
Fixpoint int_digits (acc : Z) (after_digit : bool) (l : list N) : option Z :=
  match l with
  | [] => if after_digit then Some acc else None
  | c :: l =>
      match decimal c with
      | Some d => int_digits (acc * 10 + d) true l
      | None => if (c =? 95)%N && after_digit then int_digits acc false l else None
      end
  end.
Definition int_text (l : list N) : option Z := int_digits 0 false l.
Definition python_int (s : pystr) : option Z :=
  match codes (str_strip s) with
  | 45%N :: l => Z.opp <$> int_text l
  | 43%N :: l => int_text l
  | l => int_text l
  end.

(** [max_active_users], over [store.get] *)
Definition max_active_users {S} (store_get : pystr -> M S Exn (option pystr)) : M S Exn (option Z) :=
  let! raw := store_get MAX_ACTIVE_USERS_KEY in
  ret (match raw with
       | None => None
       | Some raw =>
           match python_int raw with
           | None => None
           | Some cap => if (0 <=? cap)%Z then Some cap else None
           end
       end).
End Int.

Definition ascii_decimal (c : N) : option Z := if ((48 <=? c) && (c <=? 57))%N then Some (Z.of_N c - 48)%Z else None.
Example ints : (fun s => python_int ascii_decimal s) <$> [" 12 "; "-7"; "1_000"; "1__0"; "_1"; "1_"; ""; "+"; "12a"]
  = [Some 12; Some (-7); Some 1000; None; None; None; None; None; None]%Z.
Proof. by vm_compute. Qed.

(** ** Laws of parameters and settings *)

(** What was stored is what is read, under any spelling of its code, and
    nothing else changes; the cap on active people is absent or not negative. *)
Section Settings.
Context (str_lower : pystr -> pystr).
Implicit Types (t : list AppSettingRow).

Lemma pure_key raw : pure (SettingsStore.normalize_key str_lower raw).
Proof using Type. intros t. unfold SettingsStore.normalize_key. by case_match. Qed.
Lemma pure_setting_value raw : pure (SettingsStore.normalize_value raw).
Proof using Type. intros t. unfold SettingsStore.normalize_value. by case_match. Qed.
Lemma key_same raw t t' k : SettingsStore.normalize_key str_lower raw t = (Ok k, t) -> SettingsStore.normalize_key str_lower raw t' = (Ok k, t').
Proof using Type. unfold SettingsStore.normalize_key, ret, raise. case_match; [|done]. by intros [= ->]. Qed.

(** A setting that was stored is read back under any spelling of its key that
    normalises to it; the other settings are as they were. *)
Theorem setting_roundtrip now key value s t t' :
  NoDup (as_key <$> t) -> SettingsStore.put str_lower now key value t = (Ok s, t') ->
  NoDup (as_key <$> t') /\ SettingsStore.get str_lower key t' = (Ok (Some (str_strip value)), t') /\
  st_value s = str_strip value /\ forall k, k <> st_key s -> find_key as_key k t' = find_key as_key k t.
Proof using Type.
  intros Hnd H. unfold SettingsStore.put in H.
  apply bind_pure in H as (k & Hk & H); [|apply pure_key]. apply bind_pure in H as (v & Hv & H); [|apply pure_setting_value].
  assert (v = str_strip value) as -> by (unfold SettingsStore.normalize_value, ret, raise in Hv; case_match; congruence).
  unfold bind, gets, modify, ret in H. set (row := {| as_key := k |}) in H.
  assert (Hs : s = to_setting row) by (destruct (find_key as_key k t); by injection H). subst s.
  assert (Hupd : forall k', find_key as_key k' (update_where (fun r => as_key r = k) (fun _ => row) t) =
            (fun r => if decide (as_key r = k) then row else r) <$> find_key as_key k' t).
  { intros k'. apply find_key_update_in. intros r _ <-. done. }
  assert (Ht' : t' = match find_key as_key k t with Some _ => update_where (fun r => as_key r = k) (fun _ => row) t | None => t ++ [row] end)
    by (destruct (find_key as_key k t); by injection H).
  clear H. destruct (find_key as_key k t) as [old|] eqn:Hold; subst t'.
  - split_and!; [|unfold SettingsStore.get; rewrite (bind_Ok _ _ _ _ _ (key_same _ _ _ _ Hk)); unfold gets; rewrite Hupd, Hold; cbn|done|].
    + rewrite update_where_proj; [done|]. by intros r ->.
    + rewrite decide_True; [done|]. by apply find_key_Some in Hold as [_ ?].
    + intros k' Hne. rewrite Hupd. destruct (find_key as_key k' t) as [r|] eqn:Hr; [|done]. cbn.
      apply find_key_Some in Hr as [_ <-]. by rewrite decide_False.
  - split_and!; [|unfold SettingsStore.get; rewrite (bind_Ok _ _ _ _ _ (key_same _ _ _ _ Hk)); unfold gets; rewrite find_key_app, Hold, find_key_cons; cbn|done|].
    + rewrite fmap_app. apply NoDup_app. split_and!; [done| |apply NoDup_singleton].
      intros x Hx ->%list_elem_of_singleton. apply find_key_None in Hold. rewrite Forall_forall in Hold.
      apply list_elem_of_fmap in Hx as (r & Hr & Hin). by apply (Hold r).
    + by rewrite decide_True.
    + intros k' Hne. rewrite find_key_app. destruct (find_key as_key k' t); [done|].
      rewrite find_key_cons, decide_False; [done|]. intros <-. done.
Qed.
End Settings.

(** Whatever is stored, the cap is absent or a number of slots: a value nobody
    can read is no cap. *)
Lemma cap_not_negative {S} decimal store_get (s s' : S) m :
  max_active_users decimal store_get s = (Ok (Some m), s') -> (0 <= m)%Z.
Proof.
  unfold max_active_users, bind, ret. destruct (store_get MAX_ACTIVE_USERS_KEY s) as [[[raw|]|e] s1]; try done.
  destruct (python_int decimal raw) as [cap|]; [|done]. destruct (0 <=? cap)%Z eqn:Hc; [|done]. intros [= <- _]. lia.
Qed.
