(* ===== verification/IdentityLaws.v ===== *)
(** * Laws of the identity store

    An account is of one person for good, unless that person is re-seated;
    the cap on active people is kept; a contact that is refused leaves a
    person behind. *)
From S2P Require Import Prelude PyStr Clock Sql Dict Domain UnitOfWork Identity.
Import IdentityStore.

Record identity_ok (d : IdentityDb) : Prop := {
  ok_users : NoDup (ur_id <$> db_users d);
  ok_ids : NoDup (ir_id <$> db_identities d);
  ok_accounts : NoDup (account <$> db_identities d) }.
(** The person an account is filed under, revoked or not. *)
Definition owner (a : pystr * pystr) (d : IdentityDb) : option pystr := ir_user_id <$> find_key account a (db_identities d).

(** What every writer but a re-seating respects. *)
Definition keeps (d d' : IdentityDb) : Prop :=
  identity_ok d -> identity_ok d' /\ forall a o, owner a d = Some o -> owner a d' = Some o.
#[export] Instance keeps_preorder : PreOrder keeps.
Proof.
  split; [by intros d H|]. intros d1 d2 d3 H12 H23 H1. destruct (H12 H1) as [H2 Ho12], (H23 H2) as [H3 Ho23]. auto.
Qed.

Lemma keeps_users f d :
  (identity_ok d -> NoDup (ur_id <$> f (db_users d))) ->
  keeps d {| db_users := f (db_users d); db_identities := db_identities d |}.
Proof. intros Hf Hok. split; [|done]. destruct Hok. by split; cbn; [apply Hf|..]. Qed.
Lemma keeps_update (P : UserIdentityRow -> Prop) `{!forall r, Decision (P r)} f d :
  (forall r, ir_id (f r) = ir_id r /\ account (f r) = account r /\ ir_user_id (f r) = ir_user_id r) ->
  keeps d {| db_users := db_users d; db_identities := update_where P f (db_identities d) |}.
Proof.
  intros Hf Hok. destruct Hok as [Hu Hi Ha]. split.
  - split; cbn; [done| |]; rewrite update_where_proj; try done; intros r _; apply Hf.
  - intros a o. unfold owner. cbn. rewrite find_key_update_fixed by (intros r; apply Hf).
    destruct (find_key account a _) as [r|]; [|done]. cbn. intros [= <-]. f_equal. case_decide; [apply Hf|done].
Qed.
Lemma keeps_insert row d :
  find_key ir_id (ir_id row) (db_identities d) = None -> find_key account (account row) (db_identities d) = None ->
  keeps d {| db_users := db_users d; db_identities := db_identities d ++ [row] |}.
Proof.
  intros Hid Ha Hok. destruct Hok as [Hu Hi Hac]. split.
  - split; cbn; [done| |]; rewrite fmap_app; apply NoDup_app; split_and!; try done; try apply NoDup_singleton;
      intros x Hx ->%list_elem_of_singleton; apply list_elem_of_fmap in Hx as (r & Hr & Hin).
    + apply find_key_None in Hid. rewrite Forall_forall in Hid. by apply (Hid r).
    + apply find_key_None in Ha. rewrite Forall_forall in Ha. by apply (Ha r).
  - intros a o. unfold owner. cbn. rewrite find_key_app. by destruct (find_key account a _).
Qed.

Section Laws.
Context (others : nat -> IdentityDb -> IdentityDb) (same_details : json -> json -> bool) (foreign_keys : bool).
Abbreviation link := (link others same_details foreign_keys).
Abbreviation resolve_or_create := (resolve_or_create others same_details foreign_keys).

Lemma create_user_keeps id now email : evolves keeps (create_user id now email).
Proof.
  intros d. unfold create_user, bind, gets, on_table, modify, ret, raise. cbn.
  destruct (existsb _ _) eqn:He; [reflexivity|]. cbn. apply (keeps_users (insert_row _)).
  intros Hok. unfold insert_row. rewrite fmap_app. apply NoDup_app. split_and!; [apply Hok| |apply NoDup_singleton].
  intros x Hx ->%list_elem_of_singleton. apply list_elem_of_fmap in Hx as (r & Hr & Hin). cbn in Hr.
  apply not_true_iff_false in He. apply He, existsb_exists. exists r.
  split; [by apply list_elem_of_In|]. by rewrite bool_decide_true.
Qed.
Lemma deactivate_keeps now surface external_id : evolves keeps (deactivate now surface external_id).
Proof. intros d. by apply (keeps_update _ (set_active false now)). Qed.
Lemma update_profile_keeps now surface external_id name username :
  evolves keeps (update_profile now surface external_id name username).
Proof.
  unfold update_profile. apply evolves_bind; [apply _|apply evolves_gets; apply _|]. intros [identity|]; [|apply evolves_ret; apply _].
  apply evolves_bind; [apply _| |intros _].
  - destruct (bool_decide _); [|apply evolves_ret; apply _]. intros d. by apply (keeps_update _ (set_profile _ _ now)).
  - destruct (str_empty name); [apply evolves_ret; apply _|]. apply evolves_bind; [apply _|apply evolves_gets; apply _|].
    intros [user|]; [|apply evolves_ret; apply _]. destruct (str_empty _); [|apply evolves_ret; apply _].
    intros d. apply (keeps_users (update_where _ (set_name name))). intros Hok. rewrite update_where_proj; [apply Hok|done].
Qed.
Lemma set_status_keeps user_id status : evolves keeps (set_status user_id status).
Proof.
  unfold set_status. apply evolves_bind; [apply _|apply evolves_gets; apply _|]. intros [r|]; [|apply evolves_raise; apply _].
  intros d. apply (keeps_users (update_where _ (assign_status status))). intros Hok. rewrite update_where_proj; [apply Hok|done].
Qed.
Lemma try_activate_keeps user_id max_active : evolves keeps (try_activate user_id max_active).
Proof.
  intros d. apply (keeps_users (update_where (may_activate user_id max_active (db_users d)) (assign_status UserStatus.ACTIVE))).
  intros Hok. rewrite update_where_proj; [apply Hok|done].
Qed.

Hypothesis others_keep : forall k d, keeps d (others k d).
Lemma await_keeps k : evolves keeps (await_point others k).
Proof. intros d. apply others_keep. Qed.
Lemma link_keeps id now user_id surface external_id details : evolves keeps (link id now user_id surface external_id details).
Proof.
  unfold IdentityStore.link. apply evolves_bind; [apply _|apply evolves_gets; apply _|]. intros existing.
  apply evolves_bind; [apply _|apply await_keeps|]. intros _. destruct existing as [row|].
  - case_decide; [apply evolves_raise; apply _|]. apply evolves_bind; [apply _| |intros; apply evolves_ret; apply _].
    intros d. apply (keeps_update (fun r => ir_id r = ir_id row)). intros r. by repeat case_match.
  - intros d. unfold bind, gets. destruct (violates _ _ d) eqn:Hv; [reflexivity|].
    unfold violates in Hv. rewrite !orb_false_iff, !bool_decide_eq_false, <-!eq_None_not_Some in Hv.
    destruct Hv as [[Hid Ha] _]. by apply keeps_insert.
Qed.
Lemma resolve_or_create_keeps user_id id now surface external_id :
  evolves keeps (resolve_or_create user_id id now surface external_id).
Proof.
  unfold IdentityStore.resolve_or_create. apply evolves_bind; [apply _|apply evolves_gets; apply _|].
  intros [o|]; [apply evolves_ret; apply _|]. apply evolves_bind; [apply _|apply await_keeps|intros _].
  apply evolves_bind; [apply _|apply create_user_keeps|]. intros user. apply evolves_bind; [apply _|apply await_keeps|intros _].
  apply evolves_try; [apply _| |].
  - apply evolves_bind; [apply _|apply link_keeps|]. intros _. apply evolves_ret; apply _.
  - intros []; try (apply evolves_raise; apply _). apply evolves_bind; [apply _|apply await_keeps|intros _].
    apply evolves_bind; [apply _|apply evolves_gets; apply _|]. intros []; [apply evolves_ret|apply evolves_raise]; apply _.
Qed.

(** ** Re-seating *)

Lemma update_one {R K} `{EqDecision K} (pk : R -> K) (P : R -> Prop) `{!forall r, Decision (P r)} f t row :
  NoDup (pk <$> t) -> row ∈ t -> (forall r, r ∈ t -> P r <-> pk r = pk row) ->
  exists l1 l2, t = l1 ++ row :: l2 /\ update_where P f t = l1 ++ f row :: l2.
Proof using Type.
  clear. intros Hnd Hin HP. apply list_elem_of_split in Hin as (l1 & l2 & ->). exists l1, l2. split; [done|].
  unfold update_where. rewrite fmap_app, fmap_cons, decide_True by (apply HP; [set_solver|done]).
  rewrite fmap_app, fmap_cons in Hnd. apply NoDup_app in Hnd as (_ & Hl1 & Hl2). apply NoDup_cons in Hl2 as [Hl2 _].
  assert (Hid : forall l : list R, (forall r, r ∈ l -> ~ P r) -> (fun r => if decide (P r) then f r else r) <$> l = l).
  { intros l Hl. rewrite <-(list_fmap_id l) at 2. apply list_fmap_ext. intros i r Hr.
    rewrite decide_False; [done|]. apply Hl. by eapply list_elem_of_lookup_2. }
  rewrite (Hid l1), (Hid l2); [done| |].
  - intros r Hr Hp. apply HP in Hp; [|rewrite elem_of_app, elem_of_cons; auto].
    apply Hl2. rewrite <-Hp. by apply list_elem_of_fmap_2.
  - intros r Hr Hp. apply HP in Hp; [|rewrite elem_of_app; auto].
    apply (Hl1 (pk r)); [by apply list_elem_of_fmap_2|]. rewrite Hp. left.
Qed.

Lemma reseat_ok now surface user_id external_id d :
  identity_ok d ->
  let d' := (reseat now surface user_id external_id d).2 in
  identity_ok d' /\ forall a o, owner a d = Some o -> (a.1 = surface /\ o = user_id) \/ owner a d' = Some o.
Proof using Type.
  clear. intros Hok.
  assert (Hsame : identity_ok d /\ forall a o, owner a d = Some o -> (a.1 = surface /\ o = user_id) \/ owner a d = Some o)
    by (split; [done|by right]).
  unfold reseat, bind, gets. destruct (match find_identity surface external_id (table d) with Some _ => _ | None => _ end); [done|].
  destruct (head _) as [row|] eqn:Hrow; [|done]. apply head_filter_Some in Hrow as [Hin [Hsur Huser]].
  destruct (match find_identity surface external_id (table d) with Some _ => _ | None => _ end) eqn:Htaken; [done|].
  cbn [on_table modify snd ret set_table identity_db_identities table].
  destruct (update_one ir_id (fun r => ir_id r = ir_id row) (set_external_id external_id now) (db_identities d) row)
    as (l1 & l2 & Ht & Hu); [apply Hok|done|done|].
  rewrite Hu. set (row' := set_external_id external_id now row).
  assert (Hids : ir_id <$> (l1 ++ row' :: l2) = ir_id <$> db_identities d) by (by rewrite Ht, !fmap_app).
  assert (Hother : forall r, r ∈ l1 ++ l2 -> r ∈ db_identities d /\ ir_id r <> ir_id row).
  { intros r Hr. split; [rewrite Ht; set_solver|]. intros Heq. pose proof (ok_ids _ Hok) as Hi.
    rewrite Ht, fmap_app, fmap_cons, <-Permutation_middle in Hi. apply NoDup_cons in Hi as [Hi _]. apply Hi.
    rewrite <-fmap_app, <-Heq. by apply list_elem_of_fmap_2. }
  assert (Hacc : NoDup (account <$> (l1 ++ row' :: l2))).
  { pose proof (ok_accounts _ Hok) as Ha. rewrite Ht in Ha. rewrite fmap_app, fmap_cons, <-Permutation_middle in Ha |- *.
    apply NoDup_cons in Ha as [_ Ha]. apply NoDup_cons. split; [|done].
    rewrite <-fmap_app. intros (r & Hr & Hmem)%list_elem_of_fmap. destruct (Hother r Hmem) as [Hrt Hne'].
    assert (Htk : find_identity surface external_id (db_identities d) = Some r).
    { apply find_key_elem; [apply Hok|done|]. rewrite <-Hr. unfold account, row'. cbn. by rewrite Hsur. }
    change (table d) with (db_identities d) in Htaken. rewrite Htk in Htaken. by apply bool_decide_eq_false in Htaken. }
  split; [split; cbn; [apply Hok|rewrite Hids; apply Hok|exact Hacc]|].
  intros a o Ho. unfold owner in *. destruct (find_key account a (db_identities d)) as [r|] eqn:Hr; [|done].
  apply find_key_Some in Hr as [Hr <-]. injection Ho as <-. rewrite Ht in Hr.
  apply elem_of_app in Hr as [Hr|[->|Hr]%elem_of_cons]; [right|by left|right];
    cbn; (rewrite (find_key_elem account (account r) _ r Hacc); [done|set_solver|done]).
Qed.

(** ** Requests *)

Inductive request :=
| ResolveOrCreate (user_id id : pystr) (now : time) (surface external_id : pystr)
| CreateUser (id : pystr) (now : time) (email : pystr)
| Link (id : pystr) (now : time) (user_id surface external_id : pystr) (details : option json)
| Reseat (now : time) (surface user_id external_id : pystr)
| Deactivate (now : time) (surface external_id : pystr)
| UpdateProfile (now : time) (surface external_id name : pystr) (username : option pystr)
| SetStatus (user_id : pystr) (status : UserStatus.t)
| TryActivate (user_id : pystr) (max_active : option Z).
Definition serve (r : request) (d : IdentityDb) : IdentityDb :=
  match r with
  | ResolveOrCreate user_id id now surface external_id => (resolve_or_create user_id id now surface external_id d).2
  | CreateUser id now email => (create_user id now email d).2
  | Link id now user_id surface external_id details => (link id now user_id surface external_id details d).2
  | Reseat now surface user_id external_id => (reseat now surface user_id external_id d).2
  | Deactivate now surface external_id => (deactivate now surface external_id d).2
  | UpdateProfile now surface external_id name username => (update_profile now surface external_id name username d).2
  | SetStatus user_id status => (set_status user_id status d).2
  | TryActivate user_id max_active => (try_activate user_id max_active d).2
  end.

(** C25: An account belongs to one person at most, and never passes to another one
    short of re-seating the person it belongs to on that very surface,
    whatever is asked of the store and whatever else writes. *)
Theorem accounts_stay_put r d :
  identity_ok d ->
  identity_ok (serve r d) /\
  forall a o, owner a d = Some o ->
    owner a (serve r d) = Some o \/ exists now external_id, r = Reseat now a.1 o external_id.
Proof using others_keep.
  intros Hok.
  assert (Hkeep : forall m : IdentityDb, keeps d m -> identity_ok m /\ forall a o, owner a d = Some o ->
            owner a m = Some o \/ exists now external_id, r = Reseat now a.1 o external_id).
  { intros m Hm. destruct (Hm Hok) as [? Ho]. split; [done|]. intros a o Ha. left. by apply Ho. }
  destruct r as [| | |now surface user_id external_id| | | |]; cbn [serve].
  - by apply Hkeep, resolve_or_create_keeps.
  - by apply Hkeep, create_user_keeps.
  - by apply Hkeep, link_keeps.
  - destruct (reseat_ok now surface user_id external_id d Hok) as [Hok' Ho]. split; [done|].
    intros a o Ha. destruct (Ho a o Ha) as [[<- ->]|H]; [right; eauto|by left].
  - by apply Hkeep, deactivate_keeps.
  - by apply Hkeep, update_profile_keeps.
  - by apply Hkeep, set_status_keeps.
  - by apply Hkeep, try_activate_keeps.
Qed.

(** ** First contact *)

Lemma resolve_owner surface external_id d o d' :
  resolve surface external_id d = (Ok (Some o), d') -> d' = d /\ owner (surface, external_id) d = Some o.
Proof using Type.
  clear. unfold resolve, gets. intros [= Ho <-]. split; [done|]. unfold owner, find_identity in *.
  change (table d) with (db_identities d) in Ho. destruct (find_key _ _ _) as [r|]; [|done].
  destruct (ir_active r); [exact Ho|done].
Qed.
Lemma link_owner id now user_id surface external_id details d i d' :
  identity_ok d -> link id now user_id surface external_id details d = (Ok i, d') ->
  owner (surface, external_id) d' = Some user_id.
Proof using others_keep.
  intros Hok. unfold IdentityStore.link, bind, gets, await_point, modify.
  set (d1 := others 2 d). destruct (others_keep 2 d Hok) as [Hok1 Ho1].
  destruct (find_identity surface external_id (table d)) as [row|] eqn:Hrow.
  - case_decide as Hu; [done|]. intros H.
    assert (Hown : owner (surface, external_id) d1 = Some user_id).
    { apply Ho1. unfold owner, find_identity in *. change (table d) with (db_identities d) in Hrow.
      rewrite Hrow. cbn. by rewrite Hu. }
    injection H as _ <-.
    refine (proj2 (keeps_update (fun r => ir_id r = ir_id row) _ d1 _ Hok1) _ _ Hown).
    intros r. by repeat case_match.
  - destruct (violates _ _ d1) eqn:Hv; [done|]. intros [= _ <-].
    unfold violates in Hv. rewrite !orb_false_iff, !bool_decide_eq_false, <-!eq_None_not_Some in Hv.
    destruct Hv as [[_ Ha] _]. unfold owner. cbn. unfold insert_row. rewrite find_key_app.
    change (find_key account (surface, external_id) (db_identities d1) = None) in Ha. rewrite Ha.
    by rewrite find_key_cons, decide_True.
Qed.
Lemma resolve_or_create_owner user_id id now surface external_id d o d' :
  identity_ok d -> resolve_or_create user_id id now surface external_id d = (Ok o, d') ->
  identity_ok d' /\ owner (surface, external_id) d' = Some o.
Proof using others_keep.
  intros Hok H. split.
  { pose proof (resolve_or_create_keeps user_id id now surface external_id d Hok) as [Hok' _]. by rewrite H in Hok'. }
  unfold IdentityStore.resolve_or_create in H. unfold bind at 1 in H.
  destruct (resolve surface external_id d) as [[[u|]|e] d0] eqn:Hr; [| |done].
  { injection H as <- <-. by apply resolve_owner in Hr as [-> ?]. }
  assert (d0 = d) as -> by (by injection Hr as _ <-). cbn beta iota in H.
  unfold bind at 1, await_point, modify in H. destruct (others_keep 0 d Hok) as [Hok1 _].
  unfold bind at 1 in H. pose proof (create_user_keeps user_id now "" (others 0 d) Hok1) as [Hok2 _].
  destruct (create_user user_id now "" (others 0 d)) as [[user|] d2] eqn:Hc; [|done]. cbn in Hok2.
  unfold bind at 1 in H. destruct (others_keep 1 d2 Hok2) as [Hok3 _].
  unfold try_except, bind in H. pose proof (link_keeps id now (us_id user) surface external_id None (others 1 d2)) as Hl.
  destruct (link id now (us_id user) surface external_id None (others 1 d2)) as [[i|e] d4] eqn:Hlink.
  - injection H as <- <-. by eapply link_owner.
  - destruct e; try done.
    destruct (resolve surface external_id (others 3 d4)) as [[[w|]|e] d5] eqn:Hr2; [|done|done].
    injection H as <- <-. by apply resolve_owner in Hr2 as [-> ?].
Qed.

(** Whoever a first contact of an account was answered with, every later one is
    answered with: two first messages arriving together end up on the same
    person. *)
Theorem one_person_per_account u1 u2 id1 id2 t1 t2 surface external_id d o1 d1 d2 o2 d3 :
  identity_ok d ->
  resolve_or_create u1 id1 t1 surface external_id d = (Ok o1, d1) -> keeps d1 d2 ->
  resolve_or_create u2 id2 t2 surface external_id d2 = (Ok o2, d3) -> o2 = o1.
Proof using others_keep.
  intros Hok H1 Hk H2. destruct (resolve_or_create_owner _ _ _ _ _ _ _ _ Hok H1) as [Hok1 Ho1].
  destruct (Hk Hok1) as [Hok2 Ho2]. specialize (Ho2 _ _ Ho1).
  destruct (resolve_or_create_owner _ _ _ _ _ _ _ _ Hok2 H2) as [Hok3 Ho3].
  pose proof (resolve_or_create_keeps u2 id2 t2 surface external_id d2 Hok2) as [_ Hkeep]. rewrite H2 in Hkeep.
  specialize (Hkeep _ _ Ho2). cbn in Hkeep. congruence.
Qed.
End Laws.

(** ** The cap *)

Section Cap.
Context (others : nat -> IdentityDb -> IdentityDb) (c : Z).
Definition active (d : IdentityDb) : Z := Z.of_nat (active_count (db_users d)).
Definition status_of (user_id : pystr) (d : IdentityDb) : option UserStatus.t := ur_status <$> find_key ur_id user_id (db_users d).
(** Nobody is admitted past [c] people; who is past it already stays. *)
Definition capped (d d' : IdentityDb) : Prop :=
  identity_ok d -> identity_ok d' /\ (active d' <= Z.max (active d) c)%Z.
#[local] Instance capped_preorder : PreOrder capped.
Proof.
  split; [intros d H; split; [done|lia]|]. intros d1 d2 d3 H12 H23 H1.
  destruct (H12 H1) as [H2 ?], (H23 H2) as [H3 ?]. split; [done|lia].
Qed.

Lemma rowcount_app {R} (P : R -> Prop) `{!forall r, Decision (P r)} l1 l2 :
  rowcount P (l1 ++ l2) = (rowcount P l1 + rowcount P l2)%nat.
Proof using Type. unfold rowcount. by rewrite filter_app, length_app. Qed.

Lemma rowcount_one {R K} `{EqDecision K} (pk : R -> K) (P : R -> Prop) `{!forall r, Decision (P r)} t r :
  NoDup (pk <$> t) -> r ∈ t -> (forall x, x ∈ t -> P x <-> pk x = pk r) -> rowcount P t = 1%nat.
Proof using Type.
  clear. intros Hnd Hr HP. apply list_elem_of_split in Hr as (l1 & l2 & ->).
  rewrite fmap_app, fmap_cons, <-Permutation_middle in Hnd. apply NoDup_cons in Hnd as [Hnd _].
  rewrite <-fmap_app in Hnd.
  assert (Hz : forall l, (forall x, x ∈ l -> x ∈ l1 ++ l2) -> rowcount P l = 0%nat).
  { intros l Hl. apply rowcount_zero, Forall_forall. intros x Hx Hp. specialize (Hl x Hx).
    apply HP in Hp; [|rewrite elem_of_app, elem_of_cons; apply elem_of_app in Hl; tauto].
    apply Hnd. rewrite <-Hp. by apply list_elem_of_fmap_2. }
  rewrite rowcount_app, (Hz l1) by (intros x Hx; apply elem_of_app; auto).
  unfold rowcount. rewrite filter_cons, decide_True by (apply HP; [rewrite elem_of_app, elem_of_cons; auto|done]).
  cbn [length]. change (length (filter P l2)) with (rowcount P l2).
  by rewrite (Hz l2) by (intros x Hx; apply elem_of_app; auto).
Qed.

(** What an attempt does: the person is promoted exactly when waiting with a
    slot free, and nobody else is touched. *)
Lemma try_activate_spec user_id max_active d :
  identity_ok d ->
  let (answer, d') := try_activate user_id max_active d in
  let room := match max_active with None => True | Some cap => (active d < cap)%Z end in
  (status_of user_id d = Some UserStatus.WAITING /\ room /\ answer = Ok true /\
   status_of user_id d' = Some UserStatus.ACTIVE /\ active d' = (active d + 1)%Z /\ identity_ok d' /\
   forall u, u <> user_id -> status_of u d' = status_of u d) \/
  (~ (status_of user_id d = Some UserStatus.WAITING /\ room) /\ answer = Ok false /\ d' = d).
Proof using Type.
  clear. intros Hok. unfold try_activate. change (table d) with (db_users d). set (t := db_users d).
  set (P := may_activate user_id max_active t).
  destruct (decide (rowcount P t = 0%nat)) as [H0|H0].
  - right. rewrite H0, update_where_none by done. split_and!; [|done|by destruct d].
    apply rowcount_zero in H0. rewrite Forall_forall in H0. unfold status_of. intros [Hs Hroom].
    destruct (find_key ur_id user_id (db_users d)) as [r|] eqn:Hr; [|done]. injection Hs as Hs.
    apply find_key_Some in Hr as [Hin Hid]. apply (H0 r Hin). by split_and!.
  - left. assert (Hex : exists r, r ∈ t /\ P r).
    { unfold rowcount in H0. destruct (filter P t) as [|r l] eqn:Hf; [done|]. exists r.
      assert (Hr : r ∈ filter P t) by (rewrite Hf; left). apply list_elem_of_filter in Hr. tauto. }
    destruct Hex as (r & Hr & Hid & Hw & Hroom).
    assert (HP : forall x, x ∈ t -> P x <-> ur_id x = ur_id r).
    { intros x Hx. split; [intros [? _]; congruence|]. intros He.
      rewrite (key_inj ur_id t x r (ok_users _ Hok) Hx Hr He). by split_and!. }
    destruct (update_one ur_id P (assign_status UserStatus.ACTIVE) t r (ok_users _ Hok) Hr HP) as (l1 & l2 & Ht & Hu).
    assert (Hone : rowcount P t = 1%nat) by exact (rowcount_one ur_id P t r (ok_users _ Hok) Hr HP).
    rewrite Hone. cbn [set_table identity_db_users].
    assert (Hr' : find_key ur_id user_id t = Some r) by (apply find_key_elem; [apply Hok|done|done]).
    assert (Hst : forall u, status_of u {| db_users := update_where P (assign_status UserStatus.ACTIVE) t; db_identities := db_identities d |} =
              (fun x => ur_status (if decide (P x) then assign_status UserStatus.ACTIVE x else x)) <$> find_key ur_id u t).
    { intros u. unfold status_of. cbn. rewrite find_key_update_fixed by done. by destruct (find_key ur_id u t). }
    split_and!; try done.
    + unfold status_of. fold t. by rewrite Hr', Hw || (rewrite Hr'; cbn; by rewrite Hw).
    + rewrite Hst, Hr'. cbn. by rewrite decide_True by (by split_and!).
    + unfold active. cbn [db_users]. fold t. unfold active_count. rewrite Hu, Ht, !rowcount_app.
      unfold rowcount at 2 4. rewrite !filter_cons. rewrite decide_True by done. rewrite decide_False by (by rewrite Hw).
      cbn [length]. unfold rowcount. lia.
    + refine (proj1 (keeps_users (update_where P (assign_status UserStatus.ACTIVE)) d _ Hok)).
      intros _. rewrite update_where_proj; [apply Hok|done].
    + intros u Hne. rewrite Hst. unfold status_of. fold t. destruct (find_key ur_id u t) as [x|] eqn:Hx; [|done].
      apply find_key_Some in Hx as [_ Hx]. cbn. rewrite decide_False; [done|]. intros [? _]. congruence.
Qed.

Hypothesis others_capped : forall k d, capped d (others k d).

(** C26: Admission keeps the cap, whoever is admitted meanwhile elsewhere: it
    answers [ACTIVE] only for a person who is, never for a banned one, and the
    people active are at most the cap, or as many as were before. *)
Theorem admit_keeps_cap cap user_id d :
  evolves capped cap -> (forall s m s', cap s = (Ok m, s') -> exists n, m = Some n /\ (n <= c)%Z) ->
  identity_ok d ->
  let (answer, d') := admit_person others cap user_id d in
  identity_ok d' /\ (active d' <= Z.max (active d) c)%Z /\
  (answer = Ok UserStatus.ACTIVE -> status_of user_id d' = Some UserStatus.ACTIVE) /\
  (status_of user_id d = Some UserStatus.BANNED -> answer = Ok UserStatus.BANNED /\ d' = d).
Proof using others_capped.
  intros Hev Hn Hok. unfold admit_person, get_user, bind, gets, await_point, modify.
  change (table d) with (db_users d).
  assert (Hst : status_of user_id d = ur_status <$> find_key ur_id user_id (db_users d)) by done. rewrite Hst.
  destruct (find_key ur_id user_id (db_users d)) as [row|] eqn:Hrow.
  2: { unfold raise. cbn beta iota zeta. split_and!; [done|lia|done|done]. }
  cbn [fmap option_fmap option_map us_status to_user]. unfold ret at 1.
  case_decide as Hs.
  - split_and!; [done|lia| |].
    + intros [= Ha]. unfold status_of. rewrite Hrow. cbn. by rewrite Ha.
    + intros [= Hb]. cbn. by rewrite Hb.
  - cbn [us_status to_user] in Hs. destruct (others_capped 4 d Hok) as [Hok1 Hc1]. pose proof (Hev (others 4 d) Hok1) as [Hok2 Hc2].
    destruct (cap (others 4 d)) as [[m|e] d2] eqn:Hm; cbn in Hok2, Hc2.
    + destruct (Hn _ _ _ Hm) as (n & -> & Hle). destruct (others_capped 5 d2 Hok2) as [Hok3 Hc3].
      pose proof (try_activate_spec user_id (Some n) (others 5 d2) Hok3) as H. unfold ret.
      destruct (try_activate user_id (Some n) (others 5 d2)) as [answer d3].
      destruct H as [(_ & Hroom & -> & Hact & Hinc & Hok4 & _)|(_ & -> & ->)].
      * split_and!; [done|lia|done|]. intros [= Hb]. congruence.
      * split_and!; [done|lia|done|]. intros [= Hb]. congruence.
    + split_and!; [done|lia|done|]. intros [= Hb]. congruence.
Qed.
End Cap.

(** An account that was revoked is refused, but every contact from it leaves
    a person nobody is behind. *)
Theorem refused_contact_leaves_person same_details foreign_keys user_id id now surface external_id row d :
  let quiet (_ : nat) (d : IdentityDb) := d in
  find_identity surface external_id (db_identities d) = Some row -> ir_active row = false ->
  Forall (fun r => ur_id r <> user_id) (db_users d) -> ir_user_id row <> user_id ->
  resolve_or_create quiet same_details foreign_keys user_id id now surface external_id d =
  (Err (IdentityTakenError (account_text (surface, external_id))),
   {| db_users := db_users d ++ [{| ur_id := user_id; ur_name := ""; ur_email := None; ur_status := UserStatus.WAITING;
                                    ur_created_at := now |}];
      db_identities := db_identities d |}).
Proof.
  intros quiet Hrow Hact Hfresh Hne.
  set (orphan := {| ur_id := user_id; ur_name := ""; ur_email := None; ur_status := UserStatus.WAITING; ur_created_at := now |}).
  set (d' := {| db_users := db_users d ++ [orphan]; db_identities := db_identities d |}).
  assert (Hres : forall x, db_identities x = db_identities d -> resolve surface external_id x = (Ok None, x)).
  { intros x Hx. unfold resolve, gets. change (table x) with (db_identities x). by rewrite Hx, Hrow, Hact. }
  assert (Hcreate : create_user user_id now "" d = (Ok (to_user orphan), d')).
  { unfold create_user, bind, gets. change (table d) with (db_users d). cbn [str_empty codes].
    destruct (existsb _ _) eqn:Hex; [exfalso|done]. apply existsb_exists in Hex as (r & Hr & Hb).
    apply list_elem_of_In in Hr.
    rewrite Forall_forall in Hfresh. rewrite orb_true_iff, !bool_decide_eq_true in Hb.
    destruct Hb as [Hb|[[? Hb] Hn]]; [by apply (Hfresh r)|done]. }
  assert (Hlink : link quiet same_details foreign_keys id now user_id surface external_id None d' =
                    (Err (IdentityTakenError (account_text (surface, external_id))), d')).
  { unfold link, bind, gets, await_point, modify, quiet. change (table d') with (db_identities d).
    rewrite Hrow. by rewrite decide_True. }
  unfold resolve_or_create. rewrite (bind_Ok _ _ _ _ _ (Hres d eq_refl)).
  rewrite (bind_Ok (await_point quiet 0) _ d tt d eq_refl), (bind_Ok _ _ _ _ _ Hcreate).
  rewrite (bind_Ok (await_point quiet 1) _ d' tt d' eq_refl). unfold try_except.
  change (us_id (to_user orphan)) with user_id. rewrite (bind_Err _ _ _ _ _ Hlink).
  rewrite (bind_Ok (await_point quiet 3) _ d' tt d' eq_refl). by rewrite (bind_Ok _ _ _ _ _ (Hres d' eq_refl)).
Qed.
