(* ===== verification/CollectionSchema.v ===== *)
(** * Derived schemas ([net/collections/schema_infer.py])

    The schema of a collection is folded from its records; the query compiler
    validates against it and chooses casts by it. *)
From S2P Require Import Prelude PyStr Sql Dict Domain ResponseMemory.

(** ** Nodes *)

(** [{"type": .., "nullable": True?, "optional": True?, ..}] *)
Record flags := { nullable : bool; optional : bool }.
Inductive SchemaNode : Set :=
| NNull (f : flags)
| NBoolean (f : flags)
| NNumber (f : flags)
| NString (f : flags)
| NArray (f : flags) (element : option SchemaNode)
| NObject (f : flags) (fields : list (pystr * SchemaNode)).

Definition MAX_RENDERED_FIELDS : nat := 40.
Definition MAX_RENDER_DEPTH : nat := 4.
Definition plain_flags : flags := {| nullable := false; optional := false |}.
Definition node_flags (n : SchemaNode) : flags :=
  match n with NNull f | NBoolean f | NNumber f | NString f | NArray f _ | NObject f _ => f end.
Definition with_flags (f : flags) (n : SchemaNode) : SchemaNode :=
  match n with
  | NNull _ => NNull f | NBoolean _ => NBoolean f | NNumber _ => NNumber f | NString _ => NString f
  | NArray _ e => NArray f e | NObject _ fields => NObject f fields
  end.
Definition make_nullable (n : SchemaNode) : SchemaNode :=
  with_flags {| nullable := true; optional := optional (node_flags n) |} n.
Definition make_optional (n : SchemaNode) : SchemaNode :=
  with_flags {| nullable := nullable (node_flags n); optional := true |} n.
Definition type_name (n : SchemaNode) : pystr :=
  match n with
  | NNull _ => "null" | NBoolean _ => "boolean" | NNumber _ => "number" | NString _ => "string"
  | NArray _ _ => "array" | NObject _ _ => "object"
  end.

(** [_keep_flags] of a fresh node *)
Definition kept (a b : SchemaNode) : flags :=
  {| nullable := nullable (node_flags a) || nullable (node_flags b);
     optional := optional (node_flags a) || optional (node_flags b) |}.

(** [merge_nodes] of two nodes; [_merge_objects] is its case of objects. *)
Fixpoint merge_nodes (current incoming : SchemaNode) {struct current} : SchemaNode :=
  match current, incoming with
  | NNull _, NNull _ => incoming
  | NNull _, _ => make_nullable incoming
  | _, NNull _ => make_nullable current
  | NObject _ ours, NObject _ theirs =>
      NObject (kept current incoming)
        (((fix go (l : list (pystr * SchemaNode)) : list (pystr * SchemaNode) :=
            match l with
            | [] => []
            | (name, mine) :: l =>
                (name, match dict_get name theirs with Some yours => merge_nodes mine yours | None => make_optional mine end)
                :: go l
            end) ours) ++
         ((fun nr => (nr.1, make_optional nr.2)) <$> filter (fun nr => dict_get nr.1 ours = None) theirs))
  | NArray _ element, NArray _ other =>
      NArray (kept current incoming)
        (match other, element with
         | None, _ => element
         | Some other, None => Some other
         | Some other, Some element => Some (merge_nodes element other)
         end)
  | NBoolean _, NBoolean _ => NBoolean (kept current incoming)
  | NNumber _, NNumber _ => NNumber (kept current incoming)
  | _, _ => NString (kept current incoming)
  end.
(** [merge_nodes] where the running node may be [None]. *)
Definition merge_into (current : option SchemaNode) (incoming : SchemaNode) : SchemaNode :=
  match current with None => incoming | Some current => merge_nodes current incoming end.

Fixpoint infer_value (value : json) : SchemaNode :=
  match value with
  | JNull => NNull plain_flags
  | JBool _ => NBoolean plain_flags
  | JInt _ | JFloat _ => NNumber plain_flags
  | JList l =>
      NArray plain_flags
        ((fix go (element : option SchemaNode) (l : list json) : option SchemaNode :=
            match l with
            | [] => element
            | item :: l => go (Some (merge_into element (infer_value item))) l
            end) None l)
  | JObj d =>
      NObject plain_flags
        ((fix go (d : list (pystr * json)) : list (pystr * SchemaNode) :=
            match d with [] => [] | (key, item) :: d => (key, infer_value item) :: go d end) d)
  | JStr _ => NString plain_flags
  end.

Definition infer_from (node : option SchemaNode) (payloads : list json) : option SchemaNode :=
  foldl (fun node payload => Some (merge_into node (infer_value payload))) node payloads.
Definition infer_records (payloads : list json) : SchemaNode :=
  match infer_from None payloads with Some node => node | None => NObject plain_flags [] end.

(** ** Paths *)

Fixpoint field_walk (node : SchemaNode) (parts : list pystr) : option SchemaNode :=
  match parts with
  | [] => Some node
  | part :: parts =>
      match node with
      | NObject _ fields => match dict_get part fields with Some found => field_walk found parts | None => None end
      | _ => None
      end
  end.
Definition field_node (schema : SchemaNode) (path : pystr) : option SchemaNode :=
  field_walk schema (str_split_char 46 path).
Definition known_fields (schema : SchemaNode) : list pystr :=
  match schema with NObject _ fields => order_by_str id (fst <$> fields) | _ => [] end.

(** ** Rendering *)

Fixpoint render (schema : SchemaNode) (shown_optional : bool) (depth : nat) {struct schema} : pystr :=
  let nullable_text : pystr := if nullable (node_flags schema) then "|null" else "" in
  let suffix : pystr := if optional (node_flags schema) && shown_optional then "?" else "" in
  match schema with
  | NObject _ fields =>
      if (MAX_RENDER_DEPTH <=? depth)%nat then "{…}"
      else
        let parts := order_by_str fst
          ((fix go (l : list (pystr * SchemaNode)) : list (pystr * pystr) :=
             match l with
             | [] => []
             | (name, n) :: l =>
                 (name, name +s+ (if optional (node_flags n) then "?" else "") +s+ ": " +s+ render n false (S depth)) :: go l
             end) fields) in
        let shown := snd <$> take MAX_RENDERED_FIELDS parts in
        let rest := (length parts - MAX_RENDERED_FIELDS)%nat in
        let more := if (0 <? rest)%nat then ["… +" +s+ str_of_Z (Z.of_nat rest) +s+ " fields"] else [] in
        "{" +s+ str_join ", " (shown ++ more) +s+ "}" +s+ nullable_text
  | NArray _ element =>
      let inner := match element with Some e => render e true (S depth) | None => "?" end in
      "array of " +s+ inner +s+ nullable_text +s+ suffix
  | _ => type_name schema +s+ nullable_text +s+ suffix
  end.

Example merged : render (infer_records
    [JObj [("id" : pystr, JInt 1); ("tag" : pystr, JStr "a")]; JObj [("id" : pystr, JNull); ("n" : pystr, JList [JInt 1])]]) true 0
  = "{id: number|null, n?: array of number, tag?: string}".
Proof. by vm_compute. Qed.

(** ** Laws of derived schemas *)

(** Every record fits the schema folded from the records, so a cast chosen by
    the schema never meets a value it cannot cast. *)
(** ** Induction over nested values *)

Lemma json_nested_ind (P : json -> Prop) :
  P JNull -> (forall b, P (JBool b)) -> (forall z, P (JInt z)) -> (forall l, P (JFloat l)) -> (forall s, P (JStr s)) ->
  (forall l, Forall P l -> P (JList l)) -> (forall d, Forall (fun kv => P kv.2) d -> P (JObj d)) -> forall v, P v.
Proof.
  intros Hn Hb Hi Hf Hs Hl Ho. fix IH 1. intros [|b|z|l|s|l|d]; [done|apply Hb|apply Hi|apply Hf|apply Hs| |].
  - apply Hl. induction l as [|v l IHl]; constructor; [apply IH|exact IHl].
  - apply Ho. induction d as [|[k v] d IHd]; constructor; [apply IH|exact IHd].
Qed.
Lemma node_nested_ind (P : SchemaNode -> Prop) :
  (forall f, P (NNull f)) -> (forall f, P (NBoolean f)) -> (forall f, P (NNumber f)) -> (forall f, P (NString f)) ->
  (forall f, P (NArray f None)) -> (forall f e, P e -> P (NArray f (Some e))) ->
  (forall f fields, Forall (fun kn => P kn.2) fields -> P (NObject f fields)) -> forall n, P n.
Proof.
  intros Hn Hb Hu Hs Ha He Ho. fix IH 1. intros [f|f|f|f|f [e|]|f fields];
    [apply Hn|apply Hb|apply Hu|apply Hs|apply He, IH|apply Ha|].
  apply Ho. induction fields as [|[k n] l IHl]; constructor; [apply IH|exact IHl].
Qed.

(** ** Fitting *)

(** No key stands twice in an object, as in any [dict]. *)
Fixpoint json_ok (v : json) : bool :=
  match v with
  | JList l => (fix go l := match l with [] => true | v :: l => json_ok v && go l end) l
  | JObj d => bool_decide (dict_ok d) && (fix go (d : list (pystr * json)) := match d with [] => true | (_, v) :: d => json_ok v && go d end) d
  | _ => true
  end.
(** A value fits a node: of its type, or null where the node allows it;
    a string node, where types met, is fitted by everything.  A field of the
    node may be missing from the value, never the other way round. *)
Fixpoint fits (n : SchemaNode) (v : json) : bool :=
  match n, v with
  | NString _, _ => true
  | NNull _, JNull => true
  | _, JNull => nullable (node_flags n)
  | NBoolean _, JBool _ => true
  | NNumber _, JInt _ | NNumber _, JFloat _ => true
  | NArray _ None, JList l => bool_decide (l = [])
  | NArray _ (Some e), JList l => forallb (fits e) l
  | NObject _ fields, JObj d =>
      (fix go (l : list (pystr * SchemaNode)) := match l with
         | [] => true
         | (name, m) :: l => match dict_get name d with Some x => fits m x | None => true end && go l
         end) fields &&
      forallb (fun kv => bool_decide (is_Some (dict_get kv.1 fields))) d
  | _, _ => false
  end.

Lemma fits_object f fields d :
  fits (NObject f fields) (JObj d) = true <->
  (forall name m, (name, m) ∈ fields -> forall x, dict_get name d = Some x -> fits m x = true) /\
  (forall name x, dict_get name d = Some x -> is_Some (dict_get name fields)).
Proof.
  cbn [fits]. rewrite andb_true_iff. apply and_iff_compat_l' || idtac.
  assert (Hgo : (fix go (l : list (pystr * SchemaNode)) := match l with
         | [] => true
         | (name, m) :: l => match dict_get name d with Some x => fits m x | None => true end && go l
         end) fields = true <-> (forall name m, (name, m) ∈ fields -> forall x, dict_get name d = Some x -> fits m x = true)).
  { induction fields as [|[name m] l IH].
    - split; [intros _ ? ? H; by apply not_elem_of_nil in H|done].
    - rewrite andb_true_iff, IH. split.
      + intros [H1 H2] name' m' [[= -> ->]|Hin]%elem_of_cons x Hx; [by rewrite Hx in H1|by eapply H2].
      + intros H. split; [|intros name' m' Hin; apply H; by right].
        destruct (dict_get name d) as [x|] eqn:Hx; [|done]. eapply H; [left|done]. }
  rewrite Hgo, forallb_forall. split; intros [H1 H2]; (split; [exact H1|]).
  - intros name x Hx%dict_get_elem%list_elem_of_In. specialize (H2 _ Hx). by apply bool_decide_eq_true in H2.
  - intros [k x] Hin%list_elem_of_In. apply bool_decide_eq_true. cbn.
    destruct (dict_get k d) as [y|] eqn:Hk; [by eapply H2|]. apply dict_get_None in Hk. destruct Hk.
    apply list_elem_of_fmap. by exists (k, x).
Qed.
Lemma json_ok_object d : json_ok (JObj d) = true <-> dict_ok d /\ Forall (fun kv => json_ok kv.2 = true) d.
Proof.
  cbn [json_ok]. rewrite andb_true_iff, bool_decide_eq_true.
  assert (Hgo : (fix go (d : list (pystr * json)) := match d with [] => true | (_, v) :: d => json_ok v && go d end) d = true
    <-> Forall (fun kv => json_ok kv.2 = true) d).
  { induction d as [|[k v] d IH]; [by split|]. rewrite Forall_cons, andb_true_iff, IH. done. }
  by rewrite Hgo.
Qed.
Lemma json_ok_list l : json_ok (JList l) = true <-> Forall (fun v => json_ok v = true) l.
Proof. cbn [json_ok]. induction l as [|v l IH]; [by split|]. rewrite Forall_cons, andb_true_iff, IH. done. Qed.

(** Flags only matter for null. *)
Lemma fits_flags f n v :
  fits n v = true -> (nullable (node_flags n) = true -> nullable f = true) -> fits (with_flags f n) v = true.
Proof. destruct n as [| | | |? []|], v; cbn; auto. Qed.
Lemma fits_optional n v : fits n v = true -> fits (make_optional n) v = true.
Proof. intros H. by apply fits_flags. Qed.
Lemma fits_nullable n v : fits n v = true -> fits (make_nullable n) v = true.
Proof. intros H. by apply fits_flags. Qed.
Lemma null_fits_nullable n : fits (make_nullable n) JNull = true.
Proof. by destruct n as [| | | |? []|]. Qed.

(** The merged fields, by name. *)
Definition merged_fields (ours theirs : list (pystr * SchemaNode)) : list (pystr * SchemaNode) :=
  ((fun nl => (nl.1, match dict_get nl.1 theirs with
                     | Some yours => merge_nodes nl.2 yours
                     | None => make_optional nl.2
                     end)) <$> ours) ++
  ((fun nr => (nr.1, make_optional nr.2)) <$> filter (fun nr => dict_get nr.1 ours = None) theirs).
Lemma merge_objects_eq f ours g theirs :
  merge_nodes (NObject f ours) (NObject g theirs) = NObject (kept (NObject f ours) (NObject g theirs)) (merged_fields ours theirs).
Proof.
  cbn [merge_nodes]. f_equal. unfold merged_fields. f_equal.
  induction ours as [|[name mine] l IH]; [done|]. cbn. by rewrite IH.
Qed.
Lemma merged_has ours theirs name :
  is_Some (dict_get name ours) \/ is_Some (dict_get name theirs) -> is_Some (dict_get name (merged_fields ours theirs)).
Proof.
  intros H. destruct (dict_get name (merged_fields ours theirs)) eqn:E; [done|].
  apply dict_get_None in E. destruct E. unfold dict_keys, merged_fields. rewrite fmap_app, elem_of_app.
  destruct (dict_get name ours) as [m|] eqn:Ho.
  - left. apply dict_get_key in Ho. unfold dict_keys in Ho. rewrite <-list_fmap_compose. exact Ho.
  - destruct H as [[? H]|[m H]]; [done|]. right. apply dict_get_elem in H. rewrite <-list_fmap_compose.
    apply list_elem_of_fmap. exists (name, m). split; [done|]. by apply list_elem_of_filter.
Qed.

Lemma kept_null a b :
  nullable (node_flags a) = true \/ nullable (node_flags b) = true -> nullable (kept a b) = true.
Proof. cbn. rewrite orb_true_iff. done. Qed.
Lemma fits_null n : fits n JNull = true -> (exists f, n = NNull f \/ n = NString f) \/ nullable (node_flags n) = true.
Proof. destruct n as [| | | |? []|]; cbn; eauto. Qed.
Lemma merge_null_left f i v : fits (NNull f) v = true \/ fits i v = true -> fits (merge_nodes (NNull f) i) v = true.
Proof.
  intros H. assert (Hv : v = JNull \/ fits i v = true) by (destruct H as [H|H]; [left; by destruct v|by right]).
  destruct i; cbn [merge_nodes]; try (destruct Hv as [->|Hv]; [apply null_fits_nullable|by apply fits_nullable]).
  by destruct Hv as [->|Hv].
Qed.
Lemma merge_null_right c f v :
  (forall g, c <> NNull g) -> fits c v = true \/ fits (NNull f) v = true -> fits (merge_nodes c (NNull f)) v = true.
Proof.
  intros Hc H. assert (Hm : merge_nodes c (NNull f) = make_nullable c) by (destruct c; cbn; [by destruct (Hc f0)|done..]).
  rewrite Hm. destruct H as [H|H]; [by apply fits_nullable|]. destruct v; try done. apply null_fits_nullable.
Qed.

(** Nothing that fitted either side stops fitting. *)
Lemma merge_fits c i v : fits c v = true \/ fits i v = true -> fits (merge_nodes c i) v = true.
Proof.
  revert i v. induction c as [f|f|f|f|f|f e IHe|f ours IH] using node_nested_ind; intros i v H.
  1: by apply merge_null_left.
  all: destruct i as [g|g|g|g|g other|g theirs]; try (by apply merge_null_right); try done.
  1-2: destruct v; cbn in *; try done; rewrite ?orb_true_iff; tauto.
  - cbn [merge_nodes]. destruct v; try (by destruct H, other); [destruct other; cbn in *; rewrite orb_true_iff; tauto|].
    destruct other as [o|]; [|by destruct H]. destruct H as [H|H]; [|exact H]. cbn in H.
    apply bool_decide_eq_true in H as ->. done.
  - cbn [merge_nodes]. destruct v; try (by destruct H, other); [destruct other; cbn in *; rewrite orb_true_iff; tauto|].
    destruct other as [o|].
    + cbn in *. rewrite !forallb_forall in *. intros x Hx. apply IHe. destruct H as [H|H]; [left|right]; by apply H.
    + destruct H as [H|H]; [exact H|]. cbn in H. apply bool_decide_eq_true in H as ->. done.
  - rewrite merge_objects_eq. destruct v as [| | | | | |d]; try (by destruct H); [by apply kept_null|].
    rewrite fits_object. rewrite Forall_forall in IH. split.
    + intros name m Hin x Hx. unfold merged_fields in Hin. apply elem_of_app in Hin as [Hin|Hin].
      * apply list_elem_of_fmap in Hin as [[name' mine] [[= -> ->] Hin]]. cbn [fst snd] in *.
        destruct (dict_get name' theirs) as [yours|] eqn:Hy.
        -- apply (IH _ Hin). destruct H as [H|H]; rewrite fits_object in H; destruct H as [H _]; [left|right].
           ++ by apply (H name' mine).
           ++ apply (H name' yours); [by apply dict_get_elem|done].
        -- apply fits_optional. destruct H as [H|H]; rewrite fits_object in H; destruct H as [H Hk].
           ++ by apply (H name' mine).
           ++ destruct (Hk _ _ Hx) as [? Hk']. congruence.
      * apply list_elem_of_fmap in Hin as [[name' yours] [[= -> ->] [Hn Hin]%list_elem_of_filter]]. cbn [fst snd] in *.
        apply fits_optional. destruct H as [H|H]; rewrite fits_object in H; destruct H as [H Hk].
        -- destruct (Hk _ _ Hx) as [? Hk']. congruence.
        -- by apply (H name' yours).
    + intros name x Hx. apply merged_has. destruct H as [H|H]; rewrite fits_object in H; destruct H as [_ Hk]; eauto.
Qed.
Lemma merge_into_fits c i v :
  (exists n, c = Some n /\ fits n v = true) \/ fits i v = true -> fits (merge_into c i) v = true.
Proof. intros [(n & -> & H)|H]; [apply merge_fits; auto|]. destruct c; [apply merge_fits; auto|done]. Qed.

(** A fold of the nodes of some values fits each of them. *)
Lemma infer_from_fits l acc seen :
  Forall (fun v => fits (infer_value v) v = true) l ->
  (forall x, x ∈ seen -> exists n, acc = Some n /\ fits n x = true) ->
  forall x, x ∈ seen ++ l -> exists n, infer_from acc l = Some n /\ fits n x = true.
Proof.
  revert acc seen. induction l as [|v l IH]; intros acc seen Hl Hs x Hx.
  { rewrite app_nil_r in Hx. by apply Hs. }
  apply Forall_cons in Hl as [Hv Hl]. change (infer_from acc (v :: l)) with (infer_from (Some (merge_into acc (infer_value v))) l).
  apply (IH _ (seen ++ [v])); [done| |by rewrite <-app_assoc].
  intros y [Hy| ->%list_elem_of_singleton]%elem_of_app; eexists; (split; [done|]); apply merge_into_fits; eauto.
Qed.
Lemma infer_list l : infer_value (JList l) = NArray plain_flags (infer_from None l).
Proof.
  reflexivity.
Qed.
Lemma infer_object d : infer_value (JObj d) = NObject plain_flags ((fun kv => (kv.1, infer_value kv.2)) <$> d).
Proof. cbn [infer_value]. f_equal. induction d as [|[k v] d IH]; [done|]. cbn. by rewrite IH. Qed.

(** The node of a value fits it. *)
Lemma infer_fits v : json_ok v = true -> fits (infer_value v) v = true.
Proof.
  induction v as [|b|z|l|s|l IH|d IH] using json_nested_ind; try done; intros Hok.
  - rewrite json_ok_list in Hok. rewrite infer_list.
    assert (Hl : Forall (fun v => fits (infer_value v) v = true) l).
    { rewrite Forall_forall in *. intros x Hx. by apply IH, Hok. }
    pose proof (infer_from_fits l None [] Hl ltac:(intros x Hx; by apply not_elem_of_nil in Hx)) as H. cbn [app] in H.
    destruct l as [|v l]; [done|]. destruct (H v) as (n & Hn & _); [left|]. rewrite Hn. cbn [fits].
    apply forallb_forall. intros x Hx%list_elem_of_In. destruct (H x Hx) as (n' & Hn' & Hf). congruence.
  - rewrite json_ok_object in Hok. destruct Hok as [Hnd Hok]. rewrite infer_object, fits_object.
    rewrite Forall_forall in IH, Hok. split.
    + intros name m [[k v] [[= -> ->] Hin]]%list_elem_of_fmap x Hx. cbn in *.
      rewrite (dict_elem_get _ _ _ Hnd Hin) in Hx. injection Hx as <-. by apply (IH _ Hin), (Hok _ Hin).
    + intros name x Hx%dict_get_key. destruct (dict_get name _) as [|] eqn:E; [done|]. apply dict_get_None in E. destruct E.
      unfold dict_keys in *. by rewrite <-list_fmap_compose.
Qed.

Lemma records_fit payloads p :
  Forall (fun v => json_ok v = true) payloads -> p ∈ payloads -> fits (infer_records payloads) p = true.
Proof.
  intros Hok Hp. unfold infer_records.
  assert (Hl : Forall (fun v => fits (infer_value v) v = true) payloads).
  { eapply Forall_impl; [exact Hok|]. exact infer_fits. }
  destruct (infer_from_fits payloads None [] Hl ltac:(intros x Hx; by apply not_elem_of_nil in Hx) p Hp) as (n & -> & H). done.
Qed.

(** ** Paths *)

Lemma field_walk_fits parts n v found :
  fits n v = true -> field_walk n parts = Some found ->
  dotted_walk parts v = JNull \/ fits found (dotted_walk parts v) = true.
Proof.
  revert n v. induction parts as [|part parts IH]; intros n v Hf; cbn [field_walk dotted_walk].
  { intros [= <-]. by right. }
  destruct n as [| | | | |f fields]; try done. destruct (dict_get part fields) as [m|] eqn:Hm; [|done]. intros Hw.
  destruct v as [| | | | | |d]; try (by left). rewrite fits_object in Hf. destruct Hf as [Hf _].
  destruct (dict_get part d) as [x|] eqn:Hx; cbn [default].
  - apply (IH m); [|done]. apply (Hf part m); [by apply dict_get_elem|done].
  - left. clear. by destruct parts.
Qed.

(** The schema folded from the records of a collection fits every one of them,
    also after more batches were merged into it; where it says a field is
    numeric, that field of every record is a number, null or missing: a cast
    to numeric never fails. *)
Theorem numeric_fields_cast batch more path f record :
  Forall (fun v => json_ok v = true) batch -> Forall (fun v => json_ok v = true) more ->
  let schema := merge_nodes (infer_records batch) (infer_records more) in
  record ∈ batch ++ more ->
  fits schema record = true /\
  (field_node schema path = Some (NNumber f) ->
   dotted_get record path = JNull \/ (exists z, dotted_get record path = JInt z) \/ exists l, dotted_get record path = JFloat l).
Proof.
  intros Hb Hm schema Hr.
  assert (Hfit : fits schema record = true).
  { apply merge_fits. apply elem_of_app in Hr as [Hr|Hr]; [left|right]; by apply records_fit. }
  split; [done|]. intros Hnode. destruct (field_walk_fits _ _ _ _ Hfit Hnode) as [H|H]; [by left|].
  unfold dotted_get. destruct (dotted_walk _ record); try done; eauto.
Qed.

(** A field that is null in its first record, missing in the next and a
    number in the third is rendered as if every record had it. *)
Example optional_is_lost :
  render (infer_records [JObj [("a" : pystr, JNull)]; JObj []; JObj [("a" : pystr, JInt 1)]]) true 0 = "{a: number|null}" /\
  render (infer_records [JObj [("a" : pystr, JInt 1)]; JObj []; JObj [("a" : pystr, JNull)]]) true 0 = "{a?: number|null}".
Proof. by vm_compute. Qed.
