(* ===== verification/Collections.v ===== *)
(** * Collections ([net/collections/api.py], [models.py], [store.py])

    Two fixed tables hold the records of every collection of every user; the
    quotas of a user are kept by eviction when a collection is created and by
    refusal when one grows. *)
From S2P Require Import Prelude PyStr Clock Sql Dict Domain UnitOfWork CollectionSchema.

(** ** Data *)

Module CollectionKind.
Inductive t : Set := JSON | CSV | DOC_JSON | DOC_TEXT.
#[global] Instance t_eq_dec : EqDecision t := ltac:(solve_decision).
Definition value (k : t) : pystr :=
  match k with JSON => "json" | CSV => "csv" | DOC_JSON => "doc_json" | DOC_TEXT => "doc_text" end.
End CollectionKind.

Definition REF_PREFIX : pystr := "col:".
Record CollectionConfig := {
  ttl : Z;
  max_per_user : Z;
  max_bytes_per_user : Z;
  query_default_limit : Z;
  query_max_limit : Z;
  inline_max_chars : Z;
  collect_max_pages : Z;
  query_default_chars : Z;
  query_max_chars : Z }.
Definition default_collection_config : CollectionConfig :=
  {| ttl := seconds 3600; max_per_user := 20; max_bytes_per_user := 50 * 1024 * 1024; query_default_limit := 50;
     query_max_limit := 500; inline_max_chars := 2000; collect_max_pages := 20; query_default_chars := 8000;
     query_max_chars := 32000 |}.

Abbreviation fields := (list (pystr * json)).
Record NewRecords := { nr_payloads : list fields; nr_source : pystr }.
Record CollectionPassport := {
  cp_id : pystr;
  cp_owner_id : pystr;
  cp_label : pystr;
  cp_kind : CollectionKind.t;
  cp_source : pystr;
  cp_schema : SchemaNode;
  cp_envelope : fields;
  cp_record_count : Z;
  cp_byte_size : Z;
  cp_pages_loaded : Z;
  cp_truncated : bool;
  cp_created_at : time;
  cp_expires_at : time }.
Definition cp_ref (p : CollectionPassport) : pystr := REF_PREFIX +s+ cp_id p.

Record CollectionRow := {
  co_id : pystr;
  co_owner_id : pystr;
  co_label : pystr;
  co_kind : CollectionKind.t;
  co_source : pystr;
  co_schema : SchemaNode;
  co_envelope : fields;
  co_record_count : Z;
  co_byte_size : Z;
  co_pages_loaded : Z;
  co_truncated : bool;
  co_created_at : time;
  co_updated_at : time;
  co_expires_at : time }.
Record CollectionRecordRow := {
  cr_collection_id : pystr;
  cr_source : pystr;
  cr_position : Z;
  cr_payload : fields }.
Record CollectionDb := {
  cd_collections : list CollectionRow;
  cd_records : list CollectionRecordRow }.
#[export] Instance collection_db_rows : HasTable CollectionDb CollectionRow.
Proof.
  refine {| table := cd_collections; set_table t d := {| cd_collections := t; cd_records := cd_records d |} |};
    [done|done|by intros []].
Defined.
#[export] Instance collection_db_records : HasTable CollectionDb CollectionRecordRow.
Proof.
  refine {| table := cd_records; set_table t d := {| cd_collections := cd_collections d; cd_records := t |} |};
    [done|done|by intros []].
Defined.

(** [_to_passport] *)
Definition to_passport (row : CollectionRow) : CollectionPassport :=
  {| cp_id := co_id row; cp_owner_id := co_owner_id row; cp_label := co_label row; cp_kind := co_kind row;
     cp_source := co_source row; cp_schema := co_schema row; cp_envelope := co_envelope row;
     cp_record_count := co_record_count row; cp_byte_size := co_byte_size row; cp_pages_loaded := co_pages_loaded row;
     cp_truncated := co_truncated row; cp_created_at := co_created_at row; cp_expires_at := co_expires_at row |}.
(** The columns [append] assigns. *)
Definition grown (count bytes : Z) (schema : SchemaNode) (expires_at now : time) (r : CollectionRow) : CollectionRow :=
  {| co_id := co_id r; co_owner_id := co_owner_id r; co_label := co_label r; co_kind := co_kind r;
     co_source := co_source r; co_schema := schema; co_envelope := co_envelope r;
     co_record_count := co_record_count r + count; co_byte_size := co_byte_size r + bytes;
     co_pages_loaded := co_pages_loaded r + 1; co_truncated := co_truncated r; co_created_at := co_created_at r;
     co_updated_at := now; co_expires_at := expires_at |}.
Definition cut (now : time) (r : CollectionRow) : CollectionRow :=
  {| co_id := co_id r; co_owner_id := co_owner_id r; co_label := co_label r; co_kind := co_kind r;
     co_source := co_source r; co_schema := co_schema r; co_envelope := co_envelope r;
     co_record_count := co_record_count r; co_byte_size := co_byte_size r; co_pages_loaded := co_pages_loaded r;
     co_truncated := true; co_created_at := co_created_at r;
     co_updated_at := if co_truncated r then co_updated_at r else now; co_expires_at := co_expires_at r |}.

(** ** The store *)

Module CollectionStore.
Section Store.
Context (config : CollectionConfig) (now : time).
Abbreviation MC := (M CollectionDb Exn) (only parsing).

(** [_add_records]: the batch in order, numbered from [position]. *)
Fixpoint number_records (collection_id source : pystr) (position : Z) (payloads : list fields) : list CollectionRecordRow :=
  match payloads with
  | [] => []
  | payload :: payloads =>
      {| cr_collection_id := collection_id; cr_source := source; cr_position := position; cr_payload := payload |}
      :: number_records collection_id source (position + 1) payloads
  end.
Definition add_records (collection_id : pystr) (records : NewRecords) (position : Z) : MC unit :=
  on_table (modify (fun t => t ++ number_records collection_id (nr_source records) position (nr_payloads records))).

(** [_live_row] *)
Definition live_row (owner_id collection_id : pystr) : MC CollectionRow :=
  let! found := gets (fun d => find_key co_id collection_id (table d)) in
  match found with
  | Some row =>
      if decide (co_owner_id row = owner_id) then
        if (co_expires_at row <=? now)%Z then raise (CollectionNotFoundError collection_id) else ret row
      else raise (CollectionNotFoundError collection_id)
  | None => raise (CollectionNotFoundError collection_id)
  end.

(** The loops of [_evict_for]: how many of the survivors, oldest first, are
    doomed.  Each takes one more or stops: [fuel] is the survivors left. *)
Definition index_error {A} : MC A := raise (OtherError "IndexError").
Fixpoint over_count (fuel : nat) (survivors : list CollectionRow) (doomed : nat) : MC nat :=
  if (max_per_user config <=? Z.of_nat (length survivors) - Z.of_nat doomed)%Z then
    match fuel with
    | O => index_error
    | S fuel => over_count fuel survivors (S doomed)
    end
  else ret doomed.
Definition bytes_of (rows : list CollectionRow) : Z := sum_Z (co_byte_size <$> rows).
Fixpoint over_bytes (fuel : nat) (survivors : list CollectionRow) (incoming remaining : Z) (doomed : nat) : nat :=
  match fuel with
  | O => doomed
  | S fuel =>
      if decide (doomed <> length survivors) then
        if (max_bytes_per_user config <? remaining + incoming)%Z then
          match survivors !! doomed with
          | Some candidate => over_bytes fuel survivors incoming (remaining - co_byte_size candidate) (S doomed)
          | None => doomed
          end
        else doomed
      else doomed
  end.
Definition drop_collections (ids : list pystr) : MC unit :=
  on_table (modify (delete_where (fun r => cr_collection_id r ∈ ids))) ;;;
  on_table (modify (delete_where (fun r => co_id r ∈ ids))).
Definition evict_for (owner_id : pystr) (incoming_bytes : Z) : MC unit :=
  let! survivors := gets (fun d => order_by co_updated_at (order_by_str co_id
                       (select_where (fun r => co_owner_id r = owner_id) (table d)))) in
  let! counted := over_count (length survivors) survivors 0 in
  let remaining := bytes_of (drop counted survivors) in
  let doomed := take (over_bytes (length survivors) survivors incoming_bytes remaining counted) survivors in
  match doomed with
  | [] => ret tt
  | _ => drop_collections (co_id <$> doomed)
  end.

(** [create]: [id] is a fresh [uuid4]. *)
Definition create (id owner_id label : pystr) (kind : CollectionKind.t) (source : pystr) (schema : SchemaNode)
    (envelope : fields) (records : NewRecords) (byte_size : Z) (truncated : bool) (expires_at : time) : MC CollectionPassport :=
  in_session
    (evict_for owner_id byte_size ;;;
     let row := {| co_id := id; co_owner_id := owner_id; co_label := label; co_kind := kind; co_source := source;
                   co_schema := schema; co_envelope := envelope;
                   co_record_count := Z.of_nat (length (nr_payloads records)); co_byte_size := byte_size;
                   co_pages_loaded := 1; co_truncated := truncated; co_created_at := now; co_updated_at := now;
                   co_expires_at := expires_at |} in
     on_table (modify (insert_row row)) ;;;
     add_records id records 0 ;;;
     ret (to_passport row)).

(** [append]: writers of one collection are serialised by the lock. *)
Definition append (owner_id collection_id : pystr) (records : NewRecords) (schema : SchemaNode) (byte_size : Z)
    (expires_at : time) : MC CollectionPassport :=
  in_session
    (let! owned := gets (fun d => bytes_of (select_where (fun r => co_owner_id r = owner_id) (table d))) in
     if (max_bytes_per_user config <? owned + byte_size)%Z then
       raise (CollectionQuotaError ("appending " +s+ str_of_Z byte_size +s+ " bytes would pass the " +s+
                                    str_of_Z (max_bytes_per_user config) +s+ "-byte quota"))
     else
       let! row := live_row owner_id collection_id in
       add_records (co_id row) records (co_record_count row) ;;;
       let change := grown (Z.of_nat (length (nr_payloads records))) byte_size schema expires_at now in
       on_table (modify (update_where (fun r => co_id r = co_id row) change)) ;;;
       ret (to_passport (change row))).

Definition passport (owner_id collection_id : pystr) : MC CollectionPassport :=
  let! row := live_row owner_id collection_id in
  ret (to_passport row).
Definition mark_truncated (owner_id collection_id : pystr) : MC unit :=
  let! row := live_row owner_id collection_id in
  on_table (modify (update_where (fun r => co_id r = co_id row) (cut now))).
Definition single_payload (owner_id collection_id : pystr) : MC fields :=
  let! _ := live_row owner_id collection_id in
  let! first := gets (fun d => head (order_by cr_position (select_where (fun r => cr_collection_id r = collection_id) (table d)))) in
  match first with
  | Some record => ret (cr_payload record)
  | None => raise (CollectionNotFoundError collection_id)
  end.
Definition delete_expired : MC nat :=
  let! ids := gets (fun d => co_id <$> select_where (fun r => (co_expires_at r <= now)%Z) (table d)) in
  match ids with
  | [] => ret 0%nat
  | _ => drop_collections ids ;;; ret (length ids)
  end.
Definition expiry_from_now : time := now + ttl config.
End Store.
End CollectionStore.
