(* ===== verification/CollectionLaws.v ===== *)
(** * Laws of the collection store

    No record without its collection, positions dense from zero, counters that
    tell the truth; what creating one evicts. *)
From S2P Require Import Prelude PyStr Clock Sql Dict Domain UnitOfWork CollectionSchema Collections.
Import CollectionStore.

Definition records_of (id : pystr) (d : CollectionDb) : list CollectionRecordRow :=
  select_where (fun r => cr_collection_id r = id) (cd_records d).
Definition rows_of (owner : pystr) (d : CollectionDb) : list CollectionRow :=
  select_where (fun r => co_owner_id r = owner) (cd_collections d).
(** The rows are of existing collections, numbered from zero without a gap, as
    many as the passport says. *)
Record collections_ok (d : CollectionDb) : Prop := {
  co_unique : NoDup (co_id <$> cd_collections d);
  co_exists : forall r, r ∈ cd_records d -> exists row, row ∈ cd_collections d /\ co_id row = cr_collection_id r;
  co_dense : forall row, row ∈ cd_collections d ->
    (0 <= co_record_count row)%Z /\ cr_position <$> records_of (co_id row) d = seqZ 0 (co_record_count row) }.

Lemma number_records_spec id source position payloads :
  cr_position <$> number_records id source position payloads = seqZ position (Z.of_nat (length payloads)) /\
  cr_payload <$> number_records id source position payloads = payloads /\
  Forall (fun r => cr_collection_id r = id) (number_records id source position payloads).
Proof.
  revert position. induction payloads as [|p l IH]; intros position; [done|]. destruct (IH (position + 1)%Z) as (H1 & H2 & H3).
  cbn [number_records]. rewrite !fmap_cons, H1, H2. cbn. split_and!; [|done|by constructor].
  rewrite (seqZ_cons position) by lia. f_equal. f_equal; lia.
Qed.
Lemma select_delete {R} (P Q : R -> Prop) `{!forall r, Decision (P r)} `{!forall r, Decision (Q r)} l :
  (forall r, r ∈ l -> P r -> ~ Q r) -> select_where P (delete_where Q l) = select_where P l.
Proof.
  unfold select_where, delete_where. induction l as [|r l IH]; intros Hpq; [done|].
  assert (Hpq' : forall r, r ∈ l -> P r -> ~ Q r) by (intros x Hx; apply Hpq; by right).
  rewrite !filter_cons. case_decide as Hq; rewrite ?filter_cons; case_decide as Hp; rewrite ?IH by done; try done.
  by destruct (Hpq r (list_elem_of_here _ _) Hp).
Qed.

(** ** Each operation keeps the tables sound *)

Lemma drop_eq ids d :
  drop_collections ids d =
  (Ok tt, {| cd_collections := delete_where (fun r => co_id r ∈ ids) (cd_collections d);
             cd_records := delete_where (fun r => cr_collection_id r ∈ ids) (cd_records d) |}).
Proof. done. Qed.
Lemma drop_ok ids d : collections_ok d -> collections_ok (drop_collections ids d).2.
Proof.
  intros [Hu He Hd]. rewrite drop_eq. cbn [snd]. split; cbn [cd_collections cd_records].
  - eapply sublist_NoDup; [exact Hu|]. apply fmap_sublist, sublist_filter.
  - intros r [Hr Hin]%elem_of_delete_where. destruct (He r Hin) as (row & Hrow & Hid). exists row. split; [|done].
    apply elem_of_delete_where. by rewrite Hid.
  - intros row [Hr Hin]%elem_of_delete_where. destruct (Hd row Hin) as [Hc Hp]. split; [done|].
    unfold records_of in *. cbn [cd_records]. rewrite select_delete; [exact Hp|]. by intros r _ ->.
Qed.
Lemma evict_ok config owner incoming d : collections_ok d -> collections_ok (evict_for config owner incoming d).2.
Proof.
  intros Hok. unfold evict_for. apply (preserves_bind collections_ok); [by intros s|intros survivors|done].
  apply preserves_bind; [|intros counted].
  - intros s Hs. generalize 0%nat. generalize (length survivors). intros fuel.
    induction fuel as [|fuel IH]; intros k; cbn [over_count]; case_match; try done; apply IH.
  - destruct (take _ survivors); [by intros s|]. intros s. apply drop_ok.
Qed.
Lemma insert_ok row records d :
  collections_ok d -> co_id row ∉ co_id <$> cd_collections d ->
  co_record_count row = Z.of_nat (length (nr_payloads records)) ->
  collections_ok {| cd_collections := insert_row row (cd_collections d);
                    cd_records := cd_records d ++ number_records (co_id row) (nr_source records) 0 (nr_payloads records) |}.
Proof.
  intros [Hu He Hd] Hnew Hcount.
  destruct (number_records_spec (co_id row) (nr_source records) 0 (nr_payloads records)) as (Hpos & _ & Hcid).
  unfold insert_row. split; cbn.
  - rewrite fmap_app. apply NoDup_app. split_and!; [done| |apply NoDup_singleton].
    by intros x Hx ->%list_elem_of_singleton.
  - intros r [Hr|Hr]%elem_of_app.
    + destruct (He r Hr) as (row' & Hrow & Hid). exists row'. split; [set_solver|done].
    + exists row. split; [set_solver|]. rewrite Forall_forall in Hcid. symmetry. by apply Hcid.
  - intros row' [Hr| ->%list_elem_of_singleton]%elem_of_app; unfold records_of; cbn; unfold select_where; rewrite filter_app.
    + destruct (Hd row' Hr) as [Hc Hp]. split; [done|]. change (filter _ (cd_records d)) with (records_of (co_id row') d).
      assert (Hnil : select_where (fun r => cr_collection_id r = co_id row')
                (number_records (co_id row) (nr_source records) 0 (nr_payloads records)) = []).
      { apply select_none. eapply Forall_impl; [exact Hcid|]. cbn. intros r -> Heq. apply Hnew. rewrite Heq.
        by apply list_elem_of_fmap_2. }
      unfold select_where in Hnil. by rewrite Hnil, app_nil_r.
    + split; [lia|]. assert (Hnil : select_where (fun r => cr_collection_id r = co_id row) (cd_records d) = []).
      { apply select_none, Forall_forall. intros r Hr Heq. destruct (He r Hr) as (row' & Hrow & Hid). apply Hnew.
        rewrite <-Heq, <-Hid. by apply list_elem_of_fmap_2. }
      pose proof (select_all _ _ Hcid) as Hall. unfold select_where in *. rewrite Hnil, Hall. by rewrite Hcount.
Qed.
Lemma update_row_ok (f : CollectionRow -> CollectionRow) row extra d :
  collections_ok d -> row ∈ cd_collections d -> (forall r, co_id (f r) = co_id r) ->
  co_record_count (f row) = (co_record_count row + Z.of_nat (length extra))%Z ->
  Forall (fun r => cr_collection_id r = co_id row) extra ->
  cr_position <$> extra = seqZ (co_record_count row) (Z.of_nat (length extra)) ->
  collections_ok {| cd_collections := update_where (fun r => co_id r = co_id row) f (cd_collections d);
                    cd_records := cd_records d ++ extra |}.
Proof.
  intros [Hu He Hd] Hin Hid Hcount Hcid Hpos. split; cbn.
  - rewrite update_where_proj; [done|]. by intros r _.
  - assert (Hupd : forall r, r ∈ cd_collections d -> exists r', r' ∈ update_where (fun r => co_id r = co_id row) f (cd_collections d) /\ co_id r' = co_id r).
    { intros r Hr. exists (if decide (co_id r = co_id row) then f r else r). split; [|case_decide; [apply Hid|done]].
      unfold update_where. apply list_elem_of_fmap. eauto. }
    intros r [Hr|Hr]%elem_of_app.
    + destruct (He r Hr) as (row' & Hrow & Hid'). destruct (Hupd row' Hrow) as (r' & ? & ?). exists r'. split; [done|congruence].
    + destruct (Hupd row Hin) as (r' & ? & Hr'). exists r'. split; [done|]. rewrite Hr'. symmetry.
      rewrite Forall_forall in Hcid. by apply Hcid.
  - intros row' Hr'. unfold update_where in Hr'. apply list_elem_of_fmap in Hr' as (r & -> & Hr).
    unfold records_of. cbn. unfold select_where. rewrite filter_app. destruct (Hd r Hr) as [Hc Hp].
    case_decide as Heq.
    + assert (r = row) as -> by (by apply (key_inj co_id (cd_collections d))). rewrite Hid, Hcount. split; [lia|].
      pose proof (select_all _ _ Hcid) as Hall. unfold select_where in Hall. rewrite Hall, fmap_app, Hpos.
      unfold records_of, select_where in Hp. rewrite Hp, seqZ_app by lia. done.
    + assert (Hnil : select_where (fun x => cr_collection_id x = co_id r) extra = []).
      { apply select_none. eapply Forall_impl; [exact Hcid|]. cbn. intros x -> Heq'. by apply Heq. }
      unfold select_where in Hnil. rewrite Hnil, app_nil_r. by split.
Qed.
Lemma live_row_inv now owner id d row d' :
  live_row now owner id d = (Ok row, d') ->
  d' = d /\ row ∈ cd_collections d /\ co_id row = id /\ co_owner_id row = owner /\ (now < co_expires_at row)%Z.
Proof.
  unfold live_row, bind, gets, raise, ret. change (table d) with (cd_collections d).
  destruct (find_key co_id id (cd_collections d)) as [r|] eqn:Hr; [|done]. case_decide as Ho; [|done].
  destruct (co_expires_at r <=? now)%Z eqn:He; [done|]. intros [= <- <-]. apply find_key_Some in Hr as [Hin Hid].
  split_and!; try done. lia.
Qed.
Lemma live_row_err now owner id d e d' : live_row now owner id d = (Err e, d') -> d' = d.
Proof. unfold live_row, bind, gets, raise, ret. repeat case_match; by intros [= _ <-]. Qed.
Lemma in_session_keeps {A} (I : CollectionDb -> Prop) (m : M CollectionDb Exn A) d :
  I d -> (forall a d', m d = (Ok a, d') -> I d') -> I (in_session m d).2.
Proof. intros Hd H. unfold in_session. destruct (m d) as [[a|e] d'] eqn:E; [by eapply H|done]. Qed.

Section Operations.
Context (config : CollectionConfig) (now : time).

Inductive change :=
| Create (id owner label : pystr) (kind : CollectionKind.t) (source : pystr) (schema : SchemaNode) (envelope : fields)
    (records : NewRecords) (byte_size : Z) (truncated : bool) (expires_at : time)
| Append (owner id : pystr) (records : NewRecords) (schema : SchemaNode) (byte_size : Z) (expires_at : time)
| MarkTruncated (owner id : pystr)
| DeleteExpired.
Definition apply_change (c : change) (d : CollectionDb) : CollectionDb :=
  match c with
  | Create id owner label kind source schema envelope records byte_size truncated expires_at =>
      (create config now id owner label kind source schema envelope records byte_size truncated expires_at d).2
  | Append owner id records schema byte_size expires_at => (append config now owner id records schema byte_size expires_at d).2
  | MarkTruncated owner id => (mark_truncated now owner id d).2
  | DeleteExpired => (delete_expired now d).2
  end.
(** The id of a new collection is fresh. *)
Definition fresh_for (c : change) (d : CollectionDb) : Prop :=
  match c with Create id _ _ _ _ _ _ _ _ _ _ => id ∉ co_id <$> cd_collections d | _ => True end.

Lemma evict_rows owner incoming d :
  exists ids, (evict_for config owner incoming d).2 = d \/ (evict_for config owner incoming d).2 = (drop_collections ids d).2.
Proof.
  unfold evict_for, bind, gets. match goal with |- context [over_count config ?f ?s 0 d] => set (sv := s) end.
  assert (Hc : forall fuel k, (over_count config fuel sv k d).2 = d).
  { induction fuel as [|fuel IH]; intros k; cbn [over_count]; case_match; try done; apply IH. }
  specialize (Hc (length sv) 0%nat). destruct (over_count config (length sv) sv 0 d) as [[counted|e] d1]; cbn in Hc; subst d1; [|exists []; by left].
  destruct (take _ sv) as [|r l]; [exists []; by left|]. exists (co_id <$> r :: l). by right.
Qed.

(** C27: Whatever is asked of the store, no record is left without its collection,
    the records of one are numbered from zero without a gap in the order they
    came, and its [record_count] is their number; [byte_size] and [pages_loaded] are
    not spoken of. *)
Theorem collections_stay_ok c d : collections_ok d -> fresh_for c d -> collections_ok (apply_change c d).
Proof.
  intros Hok Hfresh. destruct c as [id owner label kind source schema envelope records byte_size truncated expires_at
    |owner id records schema byte_size expires_at|owner id|]; cbn [apply_change].
  - unfold create. apply in_session_keeps; [done|]. intros a d' H. unfold bind at 1 in H.
    pose proof (evict_ok config owner byte_size d Hok) as Hok1.
    assert (Hfresh1 : id ∉ co_id <$> cd_collections (evict_for config owner byte_size d).2).
    { destruct (evict_rows owner byte_size d) as [ids [->| ->]]; [done|]. cbn. intros Hin. apply Hfresh.
      eapply elem_of_sublist; [exact Hin|]. apply fmap_sublist, sublist_filter. }
    destruct (evict_for config owner byte_size d) as [[[]|e] d1]; [|done]. cbn in Hok1, Hfresh1.
    unfold bind, add_records, on_table, modify, ret in H. injection H as _ <-.
    refine (insert_ok _ records d1 Hok1 _ _); [exact Hfresh1|done].
  - unfold append. apply in_session_keeps; [done|]. intros a d' H. unfold bind at 1, gets in H. destruct (_ <? _)%Z; [done|].
    unfold bind at 1 in H. destruct (live_row now owner id d) as [[row|e] d1] eqn:Hrow; [|done].
    apply live_row_inv in Hrow as (-> & Hin & Hid & _). unfold bind, add_records, on_table, modify, ret in H.
    injection H as _ <-. destruct (number_records_spec (co_id row) (nr_source records) (co_record_count row) (nr_payloads records)) as (Hp & Hpay & Hc).
    assert (Hlen : length (number_records (co_id row) (nr_source records) (co_record_count row) (nr_payloads records)) = length (nr_payloads records)).
    { rewrite <-Hpay at 2. by rewrite length_fmap. }
    apply (update_row_ok (grown (Z.of_nat (length (nr_payloads records))) byte_size schema expires_at now) row); try done.
    + by rewrite Hlen.
    + by rewrite Hlen.
  - unfold mark_truncated, bind. destruct (live_row now owner id d) as [[row|e] d1] eqn:Hrow.
    + apply live_row_inv in Hrow as (-> & Hin & _). unfold on_table, modify. cbn.
      rewrite <-(app_nil_r (cd_records d)). apply (update_row_ok (cut now) row []); try done. cbn. lia.
    + by apply live_row_err in Hrow as ->.
  - unfold delete_expired, bind, gets. destruct (co_id <$> _); [done|]. by apply drop_ok.
Qed.

(** ** Quotas *)

Lemma over_count_spec fuel survivors k (d : CollectionDb) :
  (1 <= max_per_user config)%Z -> (fuel + k = length survivors)%nat ->
  exists n, over_count config fuel survivors k d = (Ok n, d) /\ (k <= n <= length survivors)%nat /\
    (Z.of_nat (length survivors) - Z.of_nat n < max_per_user config)%Z.
Proof.
  intros Hmax. revert k. induction fuel as [|fuel IH]; intros k Hk; cbn [over_count]; case_match eqn:Hc.
  - lia.
  - exists k. split_and!; [done|lia|lia|lia].
  - destruct (IH (S k)) as (n & Hn & ? & ?); [lia|]. exists n. split_and!; [done|lia|lia|lia].
  - exists k. split_and!; [done|lia|lia|lia].
Qed.
Lemma over_bytes_spec fuel survivors incoming k :
  (length survivors <= fuel + k)%nat -> (k <= length survivors)%nat ->
  let n := over_bytes config fuel survivors incoming (bytes_of (drop k survivors)) k in
  (k <= n <= length survivors)%nat /\
  (n = length survivors \/ (bytes_of (drop n survivors) + incoming <= max_bytes_per_user config)%Z).
Proof.
  revert k. induction fuel as [|fuel IH]; intros k Hf Hk; cbn [over_bytes]; [split; [lia|left; lia]|].
  case_decide as Hne; [|split; [lia|left; lia]]. destruct (_ <? _)%Z eqn:Hb; [|split; [lia|right; lia]].
  destruct (survivors !! k) as [candidate|] eqn:Hc; [|apply lookup_ge_None in Hc; lia].
  assert (Hbytes : (bytes_of (drop k survivors) - co_byte_size candidate = bytes_of (drop (S k) survivors))%Z).
  { rewrite (drop_S _ _ _ Hc). unfold bytes_of. cbn. lia. }
  rewrite Hbytes. destruct (IH (S k)) as [H1 H2]; [lia|apply lookup_lt_Some in Hc; lia|]. split; [lia|exact H2].
Qed.

Lemma bytes_perm l k : l ≡ₚ k -> bytes_of l = bytes_of k.
Proof. unfold bytes_of. induction 1; cbn; lia. Qed.

(** What is left of the owner is the end of the list of survivors. *)
Lemma rows_after_drop owner (survivors : list CollectionRow) n d :
  collections_ok d -> survivors ≡ₚ rows_of owner d ->
  rows_of owner (drop_collections (co_id <$> take n survivors) d).2 ≡ₚ drop n survivors.
Proof.
  intros Hok Hs. set (ids := co_id <$> take n survivors).
  assert (Hnd : NoDup (co_id <$> survivors)).
  { rewrite Hs. unfold rows_of. eapply sublist_NoDup; [apply Hok|]. apply fmap_sublist, sublist_filter. }
  assert (Hrows : rows_of owner (drop_collections ids d).2 = filter (fun r => ~ co_id r ∈ ids) (rows_of owner d)).
  { unfold rows_of, select_where, drop_collections, bind, on_table, modify. cbn. unfold delete_where.
    rewrite !list_filter_filter. apply list_filter_iff. intros r. tauto. }
  rewrite Hrows, <-Hs. rewrite <-(take_drop n survivors) at 1. rewrite filter_app.
  rewrite <-(take_drop n survivors), fmap_app in Hnd. apply NoDup_app in Hnd as (_ & Hnd & _).
  assert (Htake : select_where (fun r => ~ co_id r ∈ ids) (take n survivors) = []).
  { apply select_none, Forall_forall. intros r Hr Hn. apply Hn. by apply list_elem_of_fmap_2. }
  assert (Hdrop : select_where (fun r => ~ co_id r ∈ ids) (drop n survivors) = drop n survivors).
  { apply select_all, Forall_forall. intros r Hr Hin. apply (Hnd (co_id r)); [done|by apply list_elem_of_fmap_2]. }
  unfold select_where in Htake, Hdrop. rewrite Htake, Hdrop. done.
Qed.

Lemma sorted_app {R} (le : R -> R -> Prop) l1 l2 x y :
  StronglySorted le (l1 ++ l2) -> x ∈ l1 -> y ∈ l2 -> le x y.
Proof using Type.
  clear. induction l1 as [|z l1 IH]; intros Hs Hx Hy; [by apply not_elem_of_nil in Hx|].
  apply StronglySorted_inv in Hs as [Hs Hall]. rewrite Forall_forall in Hall.
  apply elem_of_cons in Hx as [->|Hx]; [apply Hall; set_solver|by apply IH].
Qed.

(** What an eviction leaves: the end of the owner's rows, oldest first. *)
Definition evicted_to (owner : pystr) (incoming : Z) (d d1 : CollectionDb) : Prop :=
  exists gone left, gone ++ left ≡ₚ rows_of owner d /\ StronglySorted (fun a b => co_updated_at a <= co_updated_at b)%Z (gone ++ left) /\
    rows_of owner d1 ≡ₚ left /\ (Z.of_nat (length left) < max_per_user config)%Z /\
    (left = [] \/ (bytes_of left + incoming <= max_bytes_per_user config)%Z) /\
    (forall o, o <> owner -> rows_of o d1 = rows_of o d) /\ sublist (cd_collections d1) (cd_collections d).
Lemma evict_spec owner incoming d :
  collections_ok d -> (1 <= max_per_user config)%Z ->
  exists d1, evict_for config owner incoming d = (Ok tt, d1) /\ evicted_to owner incoming d d1.
Proof using Type.
  intros Hok Hmax. unfold evict_for, bind, gets. change (table d) with (cd_collections d).
  set (sv := order_by co_updated_at (order_by_str co_id (select_where (fun r => co_owner_id r = owner) (cd_collections d)))).
  assert (Hperm : sv ≡ₚ rows_of owner d) by (unfold sv, rows_of; by rewrite order_by_perm, order_by_str_perm).
  assert (Hsorted : StronglySorted (fun a b => co_updated_at a <= co_updated_at b)%Z sv)
    by (apply sorted_by_strong, order_by_sorted).
  destruct (over_count_spec (length sv) sv 0 d Hmax ltac:(lia)) as (counted & Hc & Hc1 & Hc2). rewrite Hc.
  pose proof (over_bytes_spec (length sv) sv incoming counted ltac:(lia) ltac:(lia)) as [Hn Hfit].
  set (n := over_bytes config _ sv _ _ _) in *.
  assert (Hcommon : forall d1, rows_of owner d1 ≡ₚ drop n sv -> (forall o, o <> owner -> rows_of o d1 = rows_of o d) ->
            sublist (cd_collections d1) (cd_collections d) -> evicted_to owner incoming d d1).
  { intros d1 Hr Ho Hs. exists (take n sv), (drop n sv). rewrite take_drop. split_and!; try done.
    - rewrite length_drop. lia.
    - destruct Hfit as [->|Hfit]; [left; by rewrite drop_all|by right]. }
  destruct (take n sv) as [|r l] eqn:Ht.
  - exists d. split; [done|]. apply Hcommon; [|done|done]. rewrite <-Hperm. rewrite <-(take_drop n sv) at 1. by rewrite Ht.
  - exists (drop_collections (co_id <$> take n sv) d).2. rewrite <-Ht, drop_eq. split; [done|].
    rewrite <-(f_equal snd (drop_eq (co_id <$> take n sv) d)). apply Hcommon.
    + by apply rows_after_drop.
    + intros o Hne. rewrite drop_eq. unfold rows_of. cbn [snd cd_collections]. apply select_delete.
      intros x Hx Hox Hin. apply list_elem_of_fmap in Hin as (y & Hy & Hin).
      assert (Hyd : y ∈ rows_of owner d) by (rewrite <-Hperm; rewrite <-(take_drop n sv); set_solver).
      apply elem_of_select in Hyd as [Hoy Hyd].
      rewrite (key_inj co_id (cd_collections d) x y (co_unique _ Hok) Hx Hyd Hy) in Hox. congruence.
    + rewrite drop_eq. apply sublist_filter.
Qed.

(** Creating a collection keeps its owner within both quotas, or leaves the new
    one alone when it is too big by itself; it drops collections of that owner
    only, none touched later than one it keeps. *)
Theorem create_keeps_quotas id owner label kind source schema envelope records byte_size truncated expires_at d :
  collections_ok d -> id ∉ co_id <$> cd_collections d -> (1 <= max_per_user config)%Z ->
  let '(answer, d') := create config now id owner label kind source schema envelope records byte_size truncated expires_at d in
  (exists p, answer = Ok p /\ cp_id p = id /\ cp_record_count p = Z.of_nat (length (nr_payloads records))) /\
  (Z.of_nat (length (rows_of owner d')) <= max_per_user config)%Z /\
  ((bytes_of (rows_of owner d') <= max_bytes_per_user config)%Z \/ co_id <$> rows_of owner d' = [id]) /\
  (forall o, o <> owner -> rows_of o d' = rows_of o d) /\
  (forall r r', r ∈ rows_of owner d -> co_id r ∉ co_id <$> cd_collections d' ->
     r' ∈ rows_of owner d -> co_id r' ∈ co_id <$> cd_collections d' -> (co_updated_at r <= co_updated_at r')%Z).
Proof using Type.
  intros Hok Hnew Hmax. unfold create, in_session. unfold bind at 1.
  destruct (evict_spec owner byte_size d Hok Hmax) as (d1 & Hd1 & gone & left & Hperm & Hsorted & Hr & Hlen & Hfit & Ho & Hsub).
  rewrite Hd1. unfold bind, add_records, on_table, modify, ret. cbn [table set_table collection_db_rows collection_db_records cd_collections cd_records].
  set (row := {| co_id := id |}). unfold insert_row.
  assert (Hrows : forall o, rows_of o {| cd_collections := cd_collections d1 ++ [row];
              cd_records := cd_records d1 ++ number_records id (nr_source records) 0 (nr_payloads records) |} =
            rows_of o d1 ++ (if decide (owner = o) then [row] else [])).
  { intros o. unfold rows_of, select_where. cbn [cd_collections]. rewrite filter_app, filter_cons. cbn. by case_decide. }
  split_and!.
  - by eexists.
  - rewrite Hrows, decide_True, length_app, Hr by done. cbn. lia.
  - rewrite Hrows, decide_True by done. destruct Hfit as [->|Hfit].
    + right. apply Permutation_nil_r in Hr. by rewrite Hr.
    + left. rewrite (bytes_perm _ (left ++ [row])) by (by rewrite Hr). unfold bytes_of in *. rewrite fmap_app, sum_Z_app. cbn. lia.
  - intros o Hne. rewrite Hrows, decide_False, app_nil_r by done. by apply Ho.
  - cbn [cd_collections]. intros r r' Hin Hgone Hin' Hkept. rewrite fmap_app, elem_of_app in Hgone, Hkept.
    rewrite <-Hperm, elem_of_app in Hin, Hin'.
    assert (Hstay : forall x, x ∈ left -> co_id x ∈ co_id <$> cd_collections d1).
    { intros x Hx. rewrite <-Hr in Hx. apply elem_of_select in Hx as [_ Hx]. by apply list_elem_of_fmap_2. }
    apply (sorted_app _ _ _ _ _ Hsorted).
    + destruct Hin as [Hin|Hin]; [done|]. destruct Hgone. left. by apply Hstay.
    + destruct Hin' as [Hin'|Hin']; [|done].
      assert (Hd : r' ∈ cd_collections d /\ co_owner_id r' = owner).
      { assert (H : r' ∈ rows_of owner d) by (rewrite <-Hperm; set_solver). apply elem_of_select in H. tauto. }
      destruct Hd as [Hd Hoe]. destruct Hkept as [Hkept|Hkept].
      * apply list_elem_of_fmap in Hkept as (x & Hx & Hxin). rewrite <-Hr. apply elem_of_select. split; [done|].
        assert (Hxd : x ∈ cd_collections d) by (by eapply elem_of_sublist).
        by rewrite (key_inj co_id (cd_collections d) r' x (co_unique _ Hok) Hd Hxd Hx).
      * apply list_elem_of_singleton in Hkept. cbn in Hkept. destruct Hnew. rewrite <-Hkept. by apply list_elem_of_fmap_2.
Qed.
End Operations.
