(* ===== verification/CollectionQuery.v ===== *)
(** * Queries over collections ([net/collections/api.py], [engine.py])

    The validation of a query against the derived schema, and its compilation
    into SQL text and bound parameters.  The database that runs the statement
    is a parameter. *)
From S2P Require Import Prelude PyStr Clock Sql Dict Domain UnitOfWork Tariffs ResponseMemory CollectionSchema Collections.

(** ** The query language *)

Module QueryOp.
Inductive t : Set := GET | PLUCK | COUNT | SUM | AVG | MIN | MAX | DISTINCT.
#[global] Instance t_eq_dec : EqDecision t := ltac:(solve_decision).
Definition value (o : t) : pystr :=
  match o with
  | GET => "get" | PLUCK => "pluck" | COUNT => "count" | SUM => "sum" | AVG => "avg" | MIN => "min" | MAX => "max"
  | DISTINCT => "distinct"
  end.
Definition all : list t := [GET; PLUCK; COUNT; SUM; AVG; MIN; MAX; DISTINCT].
Definition parse (s : pystr) : option t := find (fun o => bool_decide (value o = s)) all.
End QueryOp.
Definition AGGREGATE_OPS : list QueryOp.t := [QueryOp.COUNT; QueryOp.SUM; QueryOp.AVG; QueryOp.MIN; QueryOp.MAX].
Definition FIELD_OPS : list QueryOp.t :=
  [QueryOp.PLUCK; QueryOp.SUM; QueryOp.AVG; QueryOp.MIN; QueryOp.MAX; QueryOp.DISTINCT].
Definition NUMERIC_OPS : list QueryOp.t := [QueryOp.SUM; QueryOp.AVG].
Definition JOIN_OPS : list QueryOp.t := [QueryOp.GET; QueryOp.COUNT].

Module FilterOp.
Inductive t : Set := EQ | NE | GT | LT | GTE | LTE | CONTAINS.
#[global] Instance t_eq_dec : EqDecision t := ltac:(solve_decision).
Definition value (o : t) : pystr :=
  match o with
  | EQ => "eq" | NE => "ne" | GT => "gt" | LT => "lt" | GTE => "gte" | LTE => "lte" | CONTAINS => "contains"
  end.
Definition all : list t := [EQ; NE; GT; LT; GTE; LTE; CONTAINS].
Definition parse (s : pystr) : option t := find (fun o => bool_decide (value o = s)) all.
End FilterOp.

(** [str | int | float | bool | None] *)
Inductive scalar : Set :=
| SNone
| SBool (b : bool)
| SInt (z : Z)
| SFloat (literal : pystr)
| SStr (s : pystr).
Record FilterPredicate := { fp_field : pystr; fp_op : FilterOp.t; fp_value : scalar }.
Record JoinSpec := { js_ref : pystr; js_on_left : pystr; js_on_right : pystr; js_source : option pystr }.
Record Query := {
  q_op : QueryOp.t;
  q_field : option pystr;
  q_filters : list FilterPredicate;
  q_group_by : option pystr;
  q_source : option pystr;
  q_join : option JoinSpec;
  q_limit : Z;
  q_offset : Z }.
Record QueryResult := { qr_rows : list json; qr_total : Z }.

(** ** Validation *)

Definition COMPARISONS (o : FilterOp.t) : pystr :=
  match o with
  | FilterOp.EQ => "=" | FilterOp.NE => "<>" | FilterOp.GT => ">" | FilterOp.LT => "<" | FilterOp.GTE => ">="
  | FilterOp.LTE => "<=" | FilterOp.CONTAINS => ""
  end.
Definition AGGREGATES (o : QueryOp.t) : pystr :=
  match o with
  | QueryOp.SUM => "sum" | QueryOp.AVG => "avg" | QueryOp.MIN => "min" | QueryOp.MAX => "max" | _ => ""
  end.
Definition NO_FIELD_TEMPLATE (field known : pystr) : pystr :=
  "field '" +s+ field +s+ "' is not in this collection's schema; its records have: " +s+ known.
Definition NOT_NUMERIC_TEMPLATE (op field kind : pystr) : pystr :=
  "'" +s+ op +s+ "' needs a numeric field, but '" +s+ field +s+ "' is " +s+ kind +s+
  " in this collection; numeric coercion is declared in the endpoint record's response section".
Definition is_number (n : SchemaNode) : bool := match n with NNumber _ => true | _ => false end.
Definition is_numeric (schema : SchemaNode) (dotted : pystr) : bool :=
  match field_node schema dotted with Some n => is_number n | None => false end.

Section Validate.
Context {S : Type}.
Abbreviation MV := (M S Exn) (only parsing).
Definition refuse {A} (text : pystr) : MV A := raise (CollectionQueryError text).
Definition require_field (schema : SchemaNode) (path : pystr) (numeric_for : option QueryOp.t) : MV unit :=
  match field_node schema path with
  | None =>
      let known := str_join ", " (known_fields schema) in
      refuse (NO_FIELD_TEMPLATE path (if str_empty known then "(no fields)" else known))
  | Some node =>
      match numeric_for with
      | Some op =>
          if bool_decide (op ∈ NUMERIC_OPS) && negb (is_number node)
          then refuse (NOT_NUMERIC_TEMPLATE (QueryOp.value op) path (type_name node)) else ret tt
      | None => ret tt
      end
  end.
Definition paged (limit offset : Z) (q : Query) : Query :=
  {| q_op := q_op q; q_field := q_field q; q_filters := q_filters q; q_group_by := q_group_by q;
     q_source := q_source q; q_join := q_join q; q_limit := limit; q_offset := offset |}.
(** [_validate]: its checks, then the page clamped; the schema of the right
    side is there when there is a join. *)
Definition validate_parts (query : Query) (schema : SchemaNode) (right_schema : option SchemaNode) : MV unit :=
  (if bool_decide (q_op query ∈ FIELD_OPS) then
     match q_field query with
     | None => refuse ("'" +s+ QueryOp.value (q_op query) +s+ "' needs a field")
     | Some field => require_field schema field (Some (q_op query))
     end
   else ret tt) ;;;
  match q_group_by query with
  | Some group_by =>
      if bool_decide (q_op query ∈ AGGREGATE_OPS) then require_field schema group_by None
      else refuse "group_by combines only with count/sum/avg/min/max"
  | None => ret tt
  end ;;;
  match q_join query with
  | Some join =>
      if bool_decide (q_op query ∈ JOIN_OPS) then
        match right_schema with
        | None => raise (OtherError "AssertionError")
        | Some right_schema =>
            require_field schema (js_on_left join) None ;;;
            require_field right_schema (js_on_right join) None
        end
      else refuse "join combines only with: count, get"
  | None => ret tt
  end ;;;
  for_each (q_filters query) (fun predicate => require_field schema (fp_field predicate) None).
Definition validate (query : Query) (schema : SchemaNode) (right_schema : option SchemaNode) (config : CollectionConfig)
    : MV Query :=
  validate_parts query schema right_schema ;;;
  ret (paged (Z.min (Z.max (q_limit query) 1) (query_max_limit config)) (Z.max (q_offset query) 0) query).
End Validate.

(** ** Compilation *)

(** A statement is its text with the places of its parameters. *)
Inductive piece := T (text : pystr) | B (name : nat).
Inductive bound :=
| BPath (parts : list pystr)
| BText (s : pystr)
| BScalar (v : scalar)
| BInt (z : Z).
Record Params := { pa_values : list bound; pa_arrays : list nat }.
Definition no_params : Params := {| pa_values := []; pa_arrays := [] |}.
Definition sql_text (s : list piece) : pystr :=
  foldr (fun p rest => match p with T text => text | B n => ":p" +s+ str_of_Z (Z.of_nat n) end +s+ rest) "" s.
Record Compiled := { cm_sql : list piece; cm_params : Params }.

Section Compile.
(** [str] of a number that is no integer. *)
Context (float_text : pystr -> pystr).
Abbreviation MP := (M Params Exn) (only parsing).

(** [_Params.path] and [_Params.value] *)
Definition bind_path (dotted : pystr) : MP (list piece) := fun p =>
  let n := length (pa_values p) in
  (Ok [B n], {| pa_values := pa_values p ++ [BPath (str_split_char 46 dotted)]; pa_arrays := pa_arrays p ++ [n] |}).
Definition bind_value (v : bound) : MP (list piece) := fun p =>
  let n := length (pa_values p) in
  (Ok [B n], {| pa_values := pa_values p ++ [v]; pa_arrays := pa_arrays p |}).
Definition txt (s : pystr) : list piece := [T s].

Definition scalar_text (v : scalar) : pystr :=
  match v with
  | SNone => "None" | SBool true => "True" | SBool false => "False" | SInt z => str_of_Z z
  | SFloat literal => float_text literal | SStr s => s
  end.
Definition lower_bool (v : scalar) : pystr :=
  match v with SBool true => "true" | SBool false => "false" | v => scalar_text v end.
Definition is_numeric_value (v : scalar) : bool := match v with SInt _ | SFloat _ => true | _ => false end.

Definition predicate_sql (predicate : FilterPredicate) (schema : SchemaNode) (prefix : pystr) : MP (list piece) :=
  let numeric := is_numeric schema (fp_field predicate) in
  match fp_value predicate with
  | SNone =>
      let! path := bind_path (fp_field predicate) in
      let column := txt (prefix +s+ "payload #>> ") ++ path in
      match fp_op predicate with
      | FilterOp.EQ => ret (column ++ txt " IS NULL")
      | FilterOp.NE => ret (column ++ txt " IS NOT NULL")
      | op => refuse ("'" +s+ FilterOp.value op +s+ "' cannot compare with null")
      end
  | value =>
      if decide (fp_op predicate = FilterOp.CONTAINS) then
        let! path := bind_path (fp_field predicate) in
        let! v := bind_value (BText ("%" +s+ scalar_text value +s+ "%")) in
        ret (txt (prefix +s+ "payload #>> ") ++ path ++ txt " ILIKE " ++ v)
      else
        let comparison := COMPARISONS (fp_op predicate) in
        let! path := bind_path (fp_field predicate) in
        if numeric && is_numeric_value value then
          let! v := bind_value (BScalar value) in
          ret (txt ("(" +s+ prefix +s+ "payload #>> ") ++ path ++ txt (")::numeric " +s+ comparison +s+ " ") ++ v)
        else
          let! v := bind_value (BText (lower_bool value)) in
          ret (txt (prefix +s+ "payload #>> ") ++ path ++ txt (" " +s+ comparison +s+ " ") ++ v)
  end.
Fixpoint and_predicates (predicates : list FilterPredicate) (schema : SchemaNode) (prefix : pystr) : MP (list piece) :=
  match predicates with
  | [] => ret []
  | predicate :: predicates =>
      let! part := predicate_sql predicate schema prefix in
      let! rest := and_predicates predicates schema prefix in
      ret (txt " AND " ++ part ++ rest)
  end.
(** [_where]; [prefix] is the alias with its dot. *)
Definition where_sql (plan : Query) (collection_id : pystr) (schema : SchemaNode) (prefix : pystr) : MP (list piece) :=
  let! id := bind_value (BText collection_id) in
  let! source := match q_source plan with
                 | Some source => let! v := bind_value (BText source) in ret (txt (" AND " +s+ prefix +s+ "source = ") ++ v)
                 | None => ret []
                 end in
  let! filters := and_predicates (q_filters plan) schema prefix in
  ret (txt (prefix +s+ "collection_id = ") ++ id ++ source ++ filters).

Definition page_sql (plan : Query) : MP (list piece) :=
  let! limit := bind_value (BInt (q_limit plan)) in
  let! offset := bind_value (BInt (q_offset plan)) in
  ret (txt "LIMIT " ++ limit ++ txt " OFFSET " ++ offset).
Definition assertion_error {A} : MP A := raise (OtherError "AssertionError").
Definition the_field (plan : Query) : MP pystr :=
  match q_field plan with Some field => ret field | None => assertion_error end.
Definition aggregate_sql (plan : Query) (schema : SchemaNode) : MP (list piece) :=
  if decide (q_op plan = QueryOp.COUNT) then ret (txt "count(*)")
  else
    let! field := the_field plan in
    let! path := bind_path field in
    let column := txt "payload #>> " ++ path in
    let column := if is_numeric schema field then txt "(" ++ column ++ txt ")::numeric" else column in
    ret (txt (AGGREGATES (q_op plan) +s+ "(") ++ column ++ txt ")").

(** [_join_clause] *)
Definition join_sql (join : JoinSpec) : MP (list piece) :=
  let! ref := bind_value (BText (js_ref join)) in
  let! right_path := bind_path (js_on_right join) in
  let! left_path := bind_path (js_on_left join) in
  let! source := match js_source join with
                 | Some source => let! v := bind_value (BText source) in ret (txt " AND b.source = " ++ v)
                 | None => ret []
                 end in
  ret (txt "JOIN collection_records b ON b.collection_id = " ++ ref ++ txt " AND b.payload #>> " ++ right_path ++
       txt " = a.payload #>> " ++ left_path ++ source).
(** [_compile_join] *)
Definition compile_join (plan : Query) (join : JoinSpec) (schema : SchemaNode) (collection_id : pystr) : MP (list piece) :=
  let! joined := join_sql join in
  let! where_ := where_sql plan collection_id schema "a." in
  if decide (q_op plan = QueryOp.COUNT) then
    ret (txt "SELECT count(*) FROM collection_records a " ++ joined ++ txt " WHERE " ++ where_)
  else
    let! page := page_sql plan in
    ret (txt "SELECT a.payload, b.payload FROM collection_records a " ++ joined ++ txt " WHERE " ++ where_ ++
         txt " ORDER BY a.position, b.position " ++ page).
(** [_compile] *)
Definition compile_sql (plan : Query) (schema : SchemaNode) (collection_id : pystr) : MP (list piece) :=
  match q_join plan with
  | Some join => compile_join plan join schema collection_id
  | None =>
      let! where_ := where_sql plan collection_id schema "" in
      match q_op plan, q_group_by plan with
      | QueryOp.GET, _ =>
          let! page := page_sql plan in
          ret (txt "SELECT payload FROM collection_records WHERE " ++ where_ ++ txt " ORDER BY position " ++ page)
      | QueryOp.PLUCK, _ =>
          let! field := the_field plan in
          let! path := bind_path field in
          let! page := page_sql plan in
          ret (txt "SELECT payload #> " ++ path ++ txt " FROM collection_records WHERE " ++ where_ ++
               txt " ORDER BY position " ++ page)
      | QueryOp.DISTINCT, _ =>
          let! field := the_field plan in
          let! path := bind_path field in
          let! page := page_sql plan in
          ret (txt "SELECT DISTINCT payload #> " ++ path ++ txt " FROM collection_records WHERE " ++ where_ ++
               txt " ORDER BY 1 " ++ page)
      | _, Some group_by =>
          let! path := bind_path group_by in
          let! aggregate := aggregate_sql plan schema in
          let! page := page_sql plan in
          ret (txt "SELECT payload #>> " ++ path ++ txt " AS grp, " ++ aggregate ++ txt " FROM collection_records WHERE " ++
               where_ ++ txt " GROUP BY 1 ORDER BY 2 DESC NULLS LAST " ++ page)
      | _, None =>
          let! aggregate := aggregate_sql plan schema in
          ret (txt "SELECT " ++ aggregate ++ txt " FROM collection_records WHERE " ++ where_)
      end
  end.
(** [_compile_count] *)
Definition compile_count_sql (plan : Query) (schema : SchemaNode) (collection_id : pystr) : MP (list piece) :=
  match q_join plan with
  | Some join =>
      let! joined := join_sql join in
      let! where_ := where_sql plan collection_id schema "a." in
      ret (txt "SELECT count(*) FROM collection_records a " ++ joined ++ txt " WHERE " ++ where_)
  | None =>
      let! where_ := where_sql plan collection_id schema "" in
      let! counted :=
        if decide (q_op plan = QueryOp.DISTINCT) then
          let! field := the_field plan in
          let! path := bind_path field in
          ret (txt "count(DISTINCT payload #> " ++ path ++ txt ")")
        else
          match q_group_by plan with
          | Some group_by =>
              let! path := bind_path group_by in
              ret (txt "count(DISTINCT payload #>> " ++ path ++ txt ")")
          | None => ret (txt "count(*)")
          end in
      ret (txt "SELECT " ++ counted ++ txt " FROM collection_records WHERE " ++ where_)
  end.
Definition compiled {S} (m : MP (list piece)) : M S Exn Compiled := fun s =>
  match m no_params with
  | (Ok sql, params) => (Ok {| cm_sql := sql; cm_params := params |}, s)
  | (Err e, _) => (Err e, s)
  end.
Definition compile {S} (plan : Query) (schema : SchemaNode) (collection_id : pystr) : M S Exn Compiled :=
  compiled (compile_sql plan schema collection_id).
Definition compile_count {S} (plan : Query) (schema : SchemaNode) (collection_id : pystr) : M S Exn Compiled :=
  compiled (compile_count_sql plan schema collection_id).

(** ** Execution *)

(** A cell as the driver gives it, and a value of a result: JSON, or a
    number of the database that JSON does not know. *)
Inductive cell := CJson (v : json) | CDecimal (literal : pystr).
(** [_plain_value]: [float(value)] *)
Definition plain_value (c : cell) : json :=
  match c with CJson v => v | CDecimal literal => JFloat (float_text literal) end.

Section Execute.
Context {S : Type} `{HasTable S CollectionRow} (config : CollectionConfig) (now : time).
(** The database: the rows of a statement. *)
Context (run_sql : Compiled -> M S Exn (list (list cell))).
Abbreviation ME := (M S Exn) (only parsing).

(** [_record_schema] *)
Definition record_schema (owner_id collection_id : pystr) : ME SchemaNode :=
  let! found := gets (fun s => find_key co_id collection_id (table s)) in
  match found with
  | Some row =>
      if bool_decide (co_owner_id row <> owner_id) || (co_expires_at row <=? now)%Z
      then raise (CollectionNotFoundError collection_id) else ret (co_schema row)
  | None => raise (CollectionNotFoundError collection_id)
  end.
(** [_shape_rows] *)
Definition index_row (row : list cell) (i : nat) : ME cell :=
  match row !! i with Some c => ret c | None => raise (OtherError "IndexError") end.
Fixpoint map_rows (f : list cell -> ME json) (rows : list (list cell)) : ME (list json) :=
  match rows with
  | [] => ret []
  | row :: rows =>
      let! v := f row in
      let! rest := map_rows f rows in
      ret (v :: rest)
  end.
(** A cell taken as it is; [json.dumps(.., default=str)] shows a decimal as its text. *)
Definition raw_value (c : cell) : json := match c with CJson v => v | CDecimal literal => JStr literal end.
Definition shape_rows (plan : Query) (rows : list (list cell)) : ME (list json) :=
  if bool_decide (is_Some (q_join plan)) && bool_decide (q_op plan = QueryOp.GET) then
    map_rows (fun row =>
      let! l := index_row row 0 in
      let! r := index_row row 1 in
      ret (JObj [("left" : pystr, raw_value l); ("right" : pystr, raw_value r)])) rows
  else if bool_decide (q_op plan ∈ [QueryOp.GET; QueryOp.PLUCK; QueryOp.DISTINCT]) then
    map_rows (fun row => let! c := index_row row 0 in ret (raw_value c)) rows
  else if bool_decide (is_Some (q_group_by plan)) then
    map_rows (fun row =>
      let! g := index_row row 0 in
      let! v := index_row row 1 in
      ret (JObj [("group" : pystr, raw_value g); ("value" : pystr, plain_value v)])) rows
  else map_rows (fun row => let! c := index_row row 0 in ret (plain_value c)) rows.
(** [_total]; [.scalar()] is the first cell of the first row, [int(.. or 0)]. *)
Definition total_of (plan : Query) (schema : SchemaNode) (collection_id : pystr) (returned : Z) : ME Z :=
  if bool_decide (q_op plan ∈ AGGREGATE_OPS) && bool_decide (q_group_by plan = None) then ret 1%Z
  else if (q_offset plan =? 0)%Z && (returned <? q_limit plan)%Z then ret returned
  else
    let! counter := compile_count plan schema collection_id in
    let! rows := run_sql counter in
    match rows with
    | (CJson (JInt n) :: _) :: _ => ret n
    | _ => ret 0%Z
    end.
(** [PostgresCollectionQueryEngine.execute] *)
Definition execute (owner_id collection_id : pystr) (query : Query) : ME QueryResult :=
  let! schema := record_schema owner_id collection_id in
  let! right_schema := match q_join query with
                       | Some join => let! s := record_schema owner_id (js_ref join) in ret (Some s)
                       | None => ret None
                       end in
  let! plan := validate query schema right_schema config in
  let! main := compile plan schema collection_id in
  let! rows := run_sql main in
  let! total := total_of plan schema collection_id (Z.of_nat (length rows)) in
  let! shaped := shape_rows plan rows in
  ret {| qr_rows := shaped; qr_total := total |}.
End Execute.
End Compile.
