(* ===== verification/CollectionQueryLaws.v ===== *)
(** * Laws of the queries

    What the compiler puts into the text of a statement, and what it binds. *)
From S2P Require Import Prelude PyStr Clock Sql Dict Domain UnitOfWork Tariffs ResponseMemory CollectionSchema Collections CollectionQuery.

Ltac unfold_monad := unfold bind, ret, raise, gets, get_st, modify in *.

(** ** The text depends on the shape alone *)

(** Two compilations that, from as many parameters, give the same answer and
    mint as many parameters, with arrays at the same places. *)
Definition same_text {A B} (R : A -> B -> Prop) (m1 : M Params Exn A) (m2 : M Params Exn B) : Prop :=
  forall p1 p2, length (pa_values p1) = length (pa_values p2) -> pa_arrays p1 = pa_arrays p2 ->
    match (m1 p1).1, (m2 p2).1 with
    | Ok a, Ok b => R a b
    | Err e1, Err e2 => e1 = e2
    | _, _ => False
    end /\
    length (pa_values (m1 p1).2) = length (pa_values (m2 p2).2) /\ pa_arrays (m1 p1).2 = pa_arrays (m2 p2).2.
Definition same_shape_opt {A} (o1 o2 : option A) : Prop := is_Some o1 <-> is_Some o2.

Lemma same_ret {A B} (R : A -> B -> Prop) a b : R a b -> same_text R (ret a) (ret b).
Proof. intros H p1 p2 Hl Ha. done. Qed.
Lemma same_raise {A B} (R : A -> B -> Prop) e : same_text R (raise e) (raise e).
Proof. intros p1 p2 Hl Ha. done. Qed.
Lemma same_bind {A B C D} (Q : A -> B -> Prop) (R : C -> D -> Prop) m1 m2 k1 k2 :
  same_text Q m1 m2 -> (forall a b, Q a b -> same_text R (k1 a) (k2 b)) -> same_text R (bind m1 k1) (bind m2 k2).
Proof.
  intros Hm Hk p1 p2 Hl Ha. destruct (Hm p1 p2 Hl Ha) as (Hr & Hl' & Ha'). unfold bind.
  destruct (m1 p1) as [[a|e1] q1], (m2 p2) as [[b|e2] q2]; simpl in *; try done. by apply Hk.
Qed.
Lemma same_bind_path d1 d2 : same_text eq (bind_path d1) (bind_path d2).
Proof. intros p1 p2 Hl Ha. unfold bind_path. simpl. rewrite !length_app, Hl, Ha. done. Qed.
Lemma same_bind_value v1 v2 : same_text eq (bind_value v1) (bind_value v2).
Proof. intros p1 p2 Hl Ha. unfold bind_value. simpl. rewrite !length_app, Hl, Ha. done. Qed.

Create HintDb blind discriminated.
#[export] Hint Constants Opaque : blind.
#[export] Hint Variables Opaque : blind.
#[export] Hint Resolve same_bind_path same_bind_value same_raise : blind.
Ltac blind_step :=
  first
    [ solve [auto with blind]
    | apply same_ret; congruence
    | match goal with H : same_text ?Q ?m1 ?m2 |- same_text _ (bind ?m1 _) (bind ?m2 _) =>
        eapply (same_bind Q); [exact H|]; let a := fresh "a" in let b := fresh "b" in let Hab := fresh "Hab" in
        intros a b Hab; try (subst b) end
    | match goal with |- same_text _ (bind _ _) (bind _ _) =>
        eapply (same_bind eq); [|let a := fresh "a" in intros a ? <-] end
    | case_match; simplify_eq/=; try done ].
Ltac blind := repeat blind_step.

(** The shape of a query over a schema: which parts it has, its operators, and
    which comparisons are of numbers. *)
Inductive ValueKind := KNull | KNumber | KText.
Definition value_kind (schema : SchemaNode) (p : FilterPredicate) : ValueKind :=
  match fp_value p with
  | SNone => KNull
  | v => if is_numeric schema (fp_field p) && is_numeric_value v then KNumber else KText
  end.
Record QueryShape := {
  sh_op : QueryOp.t;
  sh_field : option bool;
  sh_filters : list (FilterOp.t * ValueKind);
  sh_group_by : bool;
  sh_source : bool;
  sh_join : option bool }.
Definition is_there {A} (o : option A) : bool := match o with Some _ => true | None => false end.
Arguments is_there : simpl never.
Definition shape_of (q : Query) (schema : SchemaNode) : QueryShape :=
  {| sh_op := q_op q; sh_field := is_numeric schema <$> q_field q;
     sh_filters := (fun p => (fp_op p, value_kind schema p)) <$> q_filters q; sh_group_by := is_there (q_group_by q);
     sh_source := is_there (q_source q); sh_join := (fun j => is_there (js_source j)) <$> q_join q |}.

Section Blind.
Context (float_text : pystr -> pystr).

Lemma same_predicate p1 p2 schema1 schema2 prefix :
  fp_op p1 = fp_op p2 -> value_kind schema1 p1 = value_kind schema2 p2 ->
  same_text eq (predicate_sql float_text p1 schema1 prefix) (predicate_sql float_text p2 schema2 prefix).
Proof.
  unfold value_kind, predicate_sql. intros <- Hk.
  assert (fp_value p1 = SNone <-> fp_value p2 = SNone) as Hnone.
  { destruct (fp_value p1), (fp_value p2); repeat case_match; done. }
  destruct (decide (fp_op p1 = FilterOp.CONTAINS)) as [Hop|_].
  - destruct (fp_value p1), (fp_value p2); try (exfalso; naive_solver); rewrite ?Hop; blind.
  - set (n1 := is_numeric schema1 _) in *. set (n2 := is_numeric schema2 _) in *.
    destruct (fp_value p1), (fp_value p2); try (exfalso; naive_solver); simpl in *; rewrite ?andb_false_r, ?andb_true_r in *;
      try (destruct n1, n2; simplify_eq); blind.
Qed.
Lemma same_filters l1 l2 schema1 schema2 prefix :
  ((fun p => (fp_op p, value_kind schema1 p)) <$> l1) = ((fun p => (fp_op p, value_kind schema2 p)) <$> l2) ->
  same_text eq (and_predicates float_text l1 schema1 prefix) (and_predicates float_text l2 schema2 prefix).
Proof.
  revert l2. induction l1 as [|p1 l1 IH]; intros [|p2 l2] H; simplify_eq/=; [by apply same_ret|].
  eapply (same_bind eq); [by apply same_predicate|]. intros a ? <-.
  eapply (same_bind eq); [by apply IH|]. intros b ? <-. by apply same_ret.
Qed.

(** Two queries of one shape. *)
Section Shape.
Context (q1 q2 : Query) (schema1 schema2 : SchemaNode) (Hshape : shape_of q1 schema1 = shape_of q2 schema2).

Lemma shape_parts :
  q_op q1 = q_op q2 /\
  is_numeric schema1 <$> q_field q1 = (is_numeric schema2 <$> q_field q2) /\
  is_there (q_group_by q1) = is_there (q_group_by q2) /\
  is_there (q_source q1) = is_there (q_source q2) /\
  (fun j => is_there (js_source j)) <$> q_join q1 = ((fun j => is_there (js_source j)) <$> q_join q2).
Proof using Hshape. unfold shape_of in Hshape. by simplify_eq. Qed.
Lemma same_where id1 id2 prefix :
  same_text eq (where_sql float_text q1 id1 schema1 prefix) (where_sql float_text q2 id2 schema2 prefix).
Proof using Hshape.
  unfold where_sql. destruct shape_parts as (_ & _ & _ & Hs & _).
  eapply (same_bind eq); [solve [auto with blind]|]. intros i ? <-.
  eapply (same_bind eq); [unfold is_there in Hs; destruct (q_source q1), (q_source q2); try done; blind|]. intros sc ? <-.
  eapply (same_bind eq).
  - apply same_filters. unfold shape_of in Hshape. by simplify_eq.
  - intros f ? <-. by apply same_ret.
Qed.
Lemma same_page : same_text eq (page_sql q1) (page_sql q2).
Proof using Type. clear Hshape. unfold page_sql. blind. Qed.
Lemma same_the_field :
  same_text (fun f1 f2 => is_numeric schema1 f1 = is_numeric schema2 f2) (the_field q1) (the_field q2).
Proof using Hshape.
  unfold the_field, assertion_error. destruct shape_parts as (_ & Hf & _).
  destruct (q_field q1), (q_field q2); simplify_eq/=; [by apply same_ret|apply same_raise].
Qed.
Lemma same_aggregate : same_text eq (aggregate_sql q1 schema1) (aggregate_sql q2 schema2).
Proof using Hshape.
  unfold aggregate_sql. destruct shape_parts as (Ho & _). rewrite <- Ho. case_decide; [by apply same_ret|].
  eapply same_bind; [apply same_the_field|]. intros f1 f2 Hf. simpl in Hf. rewrite Hf. blind.
Qed.
Lemma same_join j1 j2 : is_there (js_source j1) = is_there (js_source j2) -> same_text eq (join_sql j1) (join_sql j2).
Proof using Type.
  clear Hshape. unfold is_there. intros H. unfold join_sql. blind.
Qed.
End Shape.
#[local] Hint Resolve same_where same_page same_the_field same_aggregate same_join : blind.

Lemma same_compiled q1 q2 schema1 schema2 id1 id2 :
  shape_of q1 schema1 = shape_of q2 schema2 ->
  same_text eq (compile_sql float_text q1 schema1 id1) (compile_sql float_text q2 schema2 id2) /\
  same_text eq (compile_count_sql float_text q1 schema1 id1) (compile_count_sql float_text q2 schema2 id2).
Proof using Type.
  intros Hshape. destruct (shape_parts _ _ _ _ Hshape) as (Ho & Hf & Hg & Hs & Hj).
  assert (Hw : forall id1 id2 prefix,
    same_text eq (where_sql float_text q1 id1 schema1 prefix) (where_sql float_text q2 id2 schema2 prefix))
    by (intros; by apply same_where).
  assert (Ha := same_aggregate _ _ _ _ Hshape). assert (Ht := same_the_field _ _ _ _ Hshape).
  clear Hshape. unfold compile_sql, compile_count_sql.
  destruct (q_join q1) as [j1|], (q_join q2) as [j2|]; simplify_eq/=.
  - split; [unfold compile_join; rewrite Ho|]; (eapply (same_bind eq); [by apply same_join|]; intros j ? <-);
      (eapply (same_bind eq); [done|]; intros w ? <-); [case_decide|]; blind.
  - rewrite Ho. split; (eapply (same_bind eq); [done|]; intros w ? <-);
      destruct (q_op q2), (q_group_by q1), (q_group_by q2); simplify_eq/=; blind.
Qed.
End Blind.

(** What of a compilation reaches the database besides the values. *)
Definition text_of {S} (r : Res Exn Compiled * S) : Res Exn (list piece * nat * list nat) :=
  match r.1 with
  | Ok c => Ok (cm_sql c, length (pa_values (cm_params c)), pa_arrays (cm_params c))
  | Err e => Err e
  end.
Lemma same_text_compiled {S} m1 m2 (s : S) : same_text eq m1 m2 -> text_of (compiled m1 s) = text_of (compiled m2 s).
Proof.
  intros H. destruct (H no_params no_params eq_refl eq_refl) as (Hr & Hl & Ha). unfold compiled, text_of.
  destruct (m1 no_params) as [[a|e] p1], (m2 no_params) as [[b|e'] p2]; simpl in *; try done; subst; [by rewrite Hl, Ha|done].
Qed.

(** No string of a caller is in the text of a statement: two queries of one shape, with whatever fields, values, sources, references and pages, over whatever collections, compile to the same pieces with as many parameters and the same of them arrays, or are refused with the same error; and so do the statements that count their rows. *)
Theorem query_text_is_shape float_text {S} (s : S) q1 q2 schema1 schema2 id1 id2 :
  shape_of q1 schema1 = shape_of q2 schema2 ->
  text_of (compile float_text q1 schema1 id1 s) = text_of (compile float_text q2 schema2 id2 s) /\
  text_of (compile_count float_text q1 schema1 id1 s) = text_of (compile_count float_text q2 schema2 id2 s).
Proof.
  intros Hs. destruct (same_compiled float_text _ _ _ _ id1 id2 Hs). split; by apply same_text_compiled.
Qed.

(** ** Every parameter is mentioned once *)

Definition piece_is (n : nat) (p : piece) : nat := match p with B m => Nat.b2n (n =? m)%nat | T _ => 0 end.
Fixpoint uses (sql : list piece) (n : nat) : nat :=
  match sql with [] => 0 | p :: sql => piece_is n p + uses sql n end.
(** The places of the paths among values numbered from [k]. *)
Fixpoint array_places (k : nat) (values : list bound) : list nat :=
  match values with
  | [] => []
  | BPath _ :: values => k :: array_places (S k) values
  | _ :: values => array_places (S k) values
  end.
Definition fresh_from (lo len n : nat) : nat := Nat.b2n ((lo <=? n) && (n <? lo + len))%nat.
(** A computation whose answer mentions each parameter it mints once, and the
    earlier ones as [pre] says. *)
Definition mints {A} (use : A -> nat -> nat) (pre : nat -> nat) (m : M Params Exn A) : Prop :=
  forall p a p', m p = (Ok a, p') ->
    exists new, pa_values p' = pa_values p ++ new /\
      pa_arrays p' = pa_arrays p ++ array_places (length (pa_values p)) new /\
      forall n, (use a n = pre n + fresh_from (length (pa_values p)) (length new) n)%nat.
Definition none (_ : nat) : nat := 0%nat.

Lemma uses_app a b n : uses (a ++ b) n = (uses a n + uses b n)%nat.
Proof. induction a as [|p a IH]; simpl; [done|]. lia. Qed.
Lemma uses_txt s n : uses (txt s) n = 0%nat.
Proof. done. Qed.
Lemma array_places_app k a b : array_places k (a ++ b) = array_places k a ++ array_places (k + length a) b.
Proof.
  revert k. induction a as [|v a IH]; intros k; simpl; [by rewrite Nat.add_0_r|].
  rewrite <- Nat.add_succ_comm. destruct v; simpl; by rewrite IH.
Qed.
Lemma fresh_from_app lo a b n : fresh_from lo (a + b) n = (fresh_from lo a n + fresh_from (lo + a) b n)%nat.
Proof.
  unfold fresh_from.
  destruct (Nat.leb_spec lo n), (Nat.ltb_spec n (lo + (a + b))), (Nat.ltb_spec n (lo + a)), (Nat.leb_spec (lo + a) n),
    (Nat.ltb_spec n (lo + a + b)); simpl; lia.
Qed.
Lemma fresh_from_0 lo n : fresh_from lo 0 n = 0%nat.
Proof. unfold fresh_from. destruct (Nat.leb_spec lo n), (Nat.ltb_spec n (lo + 0)); simpl; lia. Qed.

Lemma mints_ret {A} (use : A -> nat -> nat) pre a : (forall n, use a n = pre n) -> mints use pre (ret a).
Proof.
  intros H p b p' Hr. unfold ret in Hr. simplify_eq. exists []. rewrite !app_nil_r. split_and!; [done..|].
  intros n. by rewrite H, fresh_from_0, Nat.add_0_r.
Qed.
Lemma mints_raise {A} (use : A -> nat -> nat) pre e : mints use pre (raise e).
Proof. intros p a p' H. unfold raise in H. done. Qed.
Lemma mints_bind {A C} (use1 : A -> nat -> nat) (use2 : C -> nat -> nat) pre m k :
  mints use1 none m -> (forall a, mints use2 (fun n => pre n + use1 a n)%nat (k a)) -> mints use2 pre (bind m k).
Proof.
  intros Hm Hk p c p' H. unfold bind in H. destruct (m p) as [[a|e] q] eqn:E; [|done].
  destruct (Hm p a q E) as (new1 & Hv1 & Ha1 & Hu1). destruct (Hk a q c p' H) as (new2 & Hv2 & Ha2 & Hu2).
  exists (new1 ++ new2). rewrite Hv2, Ha2, Hv1, Ha1, <- !app_assoc, array_places_app, !length_app. split_and!; [done..|].
  intros n. rewrite Hu2, Hu1, Hv1, length_app, fresh_from_app. unfold none. lia.
Qed.
Lemma mints_path d : mints uses none (bind_path d).
Proof.
  intros p a p' H. unfold bind_path in H. simplify_eq. exists [BPath (str_split_char 46 d)]. split_and!; [done..|].
  intros n. unfold none, fresh_from. simpl.
  destruct (Nat.eqb_spec n (length (pa_values p))), (Nat.leb_spec (length (pa_values p)) n),
    (Nat.ltb_spec n (length (pa_values p) + 1)); simpl; lia.
Qed.
Lemma mints_value v : match v with BPath _ => False | _ => True end -> mints uses none (bind_value v).
Proof.
  intros Hv p a p' H. unfold bind_value in H. simplify_eq. exists [v]. split_and!; [done|by destruct v; rewrite ?app_nil_r|].
  intros n. unfold none, fresh_from. simpl.
  destruct (Nat.eqb_spec n (length (pa_values p))), (Nat.leb_spec (length (pa_values p)) n),
    (Nat.ltb_spec n (length (pa_values p) + 1)); simpl; lia.
Qed.
Create HintDb mint discriminated.
#[export] Hint Constants Opaque : mint.
#[export] Hint Variables Opaque : mint.
#[export] Hint Resolve mints_path mints_raise : mint.
#[export] Hint Extern 1 (mints uses none (bind_value _)) => by apply mints_value : mint.
Ltac mint_step :=
  first
    [ solve [auto with mint]
    | apply mints_ret; intros ?; rewrite ?uses_app, ?uses_txt; unfold none; simpl; lia
    | eapply (mints_bind uses); [solve [auto with mint]|intros ?]
    | eapply (mints_bind uses); [case_match; solve [auto with mint | eapply (mints_bind uses); [solve [auto with mint]|intros ?];
        apply mints_ret; intros ?; rewrite ?uses_app, ?uses_txt; unfold none; simpl; lia | apply mints_ret; done]|intros ?]
    | case_match ].
Ltac mint := repeat mint_step.

Section Mint.
Context (float_text : pystr -> pystr).
Lemma mints_predicate p schema prefix : mints uses none (predicate_sql float_text p schema prefix).
Proof using Type. unfold predicate_sql, refuse. mint. Qed.
#[local] Hint Resolve mints_predicate : mint.
Lemma mints_filters l schema prefix : mints uses none (and_predicates float_text l schema prefix).
Proof using Type.
  induction l as [|p l IH]; [by apply mints_ret|]. unfold and_predicates; fold and_predicates.
  mint.
Qed.
#[local] Hint Resolve mints_filters : mint.
Lemma mints_where q id schema prefix : mints uses none (where_sql float_text q id schema prefix).
Proof using Type. unfold where_sql. mint. Qed.
Lemma mints_page q : mints uses none (page_sql q).
Proof using Type. unfold page_sql. mint. Qed.
Lemma mints_the_field q : mints (fun _ => none) none (the_field q).
Proof using Type. unfold the_field, assertion_error. case_match; [by apply mints_ret|auto with mint]. Qed.
Lemma mints_join j : mints uses none (join_sql j).
Proof using Type. unfold join_sql. mint. Qed.
Lemma mints_aggregate q schema : mints uses none (aggregate_sql q schema).
Proof using Type.
  unfold aggregate_sql. case_decide; [mint|]. eapply mints_bind; [apply mints_the_field|]. intros f. mint.
Qed.
#[local] Hint Resolve mints_where mints_page mints_join mints_aggregate : mint.
#[local] Hint Extern 1 (mints _ _ (bind (the_field _) _)) => eapply mints_bind; [apply mints_the_field|intros ?] : mint.

Lemma mints_compile q schema id : mints uses none (compile_sql float_text q schema id).
Proof using Type.
  unfold compile_sql, compile_join. destruct (q_join q) as [j|]; [mint|].
  eapply (mints_bind uses); [auto with mint|]. intros w.
  destruct (q_op q), (q_group_by q); repeat first [mint_step | eapply mints_bind; [apply mints_the_field|intros ?]].
Qed.
Lemma mints_compile_count q schema id : mints uses none (compile_count_sql float_text q schema id).
Proof using Type.
  unfold compile_count_sql. destruct (q_join q) as [j|]; [mint|].
  eapply (mints_bind uses); [auto with mint|]. intros w.
  eapply (mints_bind uses); [|intros c; mint].
  case_decide; repeat first [mint_step | eapply mints_bind; [apply mints_the_field|intros ?]].
Qed.
End Mint.

(** A statement and its parameters fit: parameter [n] is mentioned once if it
    was minted and never otherwise, and the arrays are the paths. *)
Definition exact (c : Compiled) : Prop :=
  (forall n, uses (cm_sql c) n = Nat.b2n (n <? length (pa_values (cm_params c)))%nat) /\
  pa_arrays (cm_params c) = array_places 0 (pa_values (cm_params c)).
Lemma compiled_exact {S} m (s s' : S) c : mints uses none m -> compiled m s = (Ok c, s') -> exact c.
Proof.
  intros Hm H. unfold compiled in H. destruct (m no_params) as [[sql|e] p] eqn:E; simplify_eq.
  destruct (Hm _ _ _ E) as (new & Hv & Ha & Hu). simpl in *. split; simpl; [|by rewrite Ha, Hv].
  intros n. rewrite Hu, Hv. unfold none, fresh_from. simpl. by destruct (n <? length new)%nat.
Qed.
(** The statements of a query mention every parameter that is bound, once each, and none that is not (the driver refuses both), and exactly the field paths are bound as arrays. *)
Theorem query_params_exact float_text {S} (s : S) q schema id :
  match (compile float_text q schema id s).1 with Ok c => exact c | Err _ => True end /\
  match (compile_count float_text q schema id s).1 with Ok c => exact c | Err _ => True end.
Proof.
  split.
  - destruct (compile float_text q schema id s) as [[c|e] s'] eqn:E; [|done].
    by eapply compiled_exact, E; apply mints_compile.
  - destruct (compile_count float_text q schema id s) as [[c|e] s'] eqn:E; [|done].
    by eapply compiled_exact, E; apply mints_compile_count.
Qed.

(** ** Validation *)

(** The condition [validate] checks. *)
Definition known (schema : SchemaNode) (path : pystr) : Prop := is_Some (field_node schema path).
Definition well_asked (q : Query) (schema : SchemaNode) (right_schema : option SchemaNode) : Prop :=
  (q_op q ∈ FIELD_OPS -> exists field, q_field q = Some field /\ known schema field /\
     (q_op q ∈ NUMERIC_OPS -> is_numeric schema field = true)) /\
  (forall group_by, q_group_by q = Some group_by -> q_op q ∈ AGGREGATE_OPS /\ known schema group_by) /\
  (forall join, q_join q = Some join -> q_op q ∈ JOIN_OPS /\ known schema (js_on_left join) /\
     exists right_side, right_schema = Some right_side /\ known right_side (js_on_right join)) /\
  Forall (fun p => known schema (fp_field p)) (q_filters q).

(** A check: it passes when [P] holds and raises when it does not. *)
Definition checks {S} (P : Prop) (m : M S Exn unit) : Prop :=
  forall s, (m s = (Ok tt, s) /\ P) \/ (exists e, m s = (Err e, s) /\ ~ P).
Section Validation.
Context {S : Type}.
Lemma checks_iff (P Q : Prop) (m : M S Exn unit) : (P <-> Q) -> checks P m -> checks Q m.
Proof. intros HPQ H s. destruct (H s) as [[Hm HP]|(e & Hm & HP)]; [left|right]; naive_solver. Qed.
Lemma checks_ret : checks (S:=S) True (ret tt).
Proof. intros s. by left. Qed.
Lemma checks_raise e : checks (S:=S) False (raise e).
Proof. intros s. right. exists e. naive_solver. Qed.
Lemma checks_bind (P Q : Prop) (m k : M S Exn unit) : checks P m -> checks Q k -> checks (P /\ Q) (m ;;; k).
Proof.
  intros Hm Hk s. unfold bind. destruct (Hm s) as [[-> HP]|(e & -> & HP)].
  - destruct (Hk s) as [[-> HQ]|(e & -> & HQ)]; [left|right]; naive_solver.
  - right. exists e. naive_solver.
Qed.
Lemma checks_each {A} (P : A -> Prop) (f : A -> M S Exn unit) l :
  (forall x, checks (P x) (f x)) -> checks (Forall P l) (for_each l f).
Proof.
  intros Hf. induction l as [|x l IH]; simpl; [eapply checks_iff, checks_ret; by rewrite Forall_nil|].
  eapply checks_iff, (checks_bind _ _ _ _ (Hf x) IH). by rewrite Forall_cons.
Qed.
Lemma checks_field schema path op :
  checks (S:=S) (known schema path /\ (match op with Some op => op ∈ NUMERIC_OPS | None => False end ->
                                is_numeric schema path = true)) (require_field schema path op).
Proof.
  intros s. unfold require_field, known, is_numeric, refuse, raise, ret. destruct (field_node schema path) as [n|]; simpl.
  - destruct op as [op|]; [|left; naive_solver]. case_bool_decide; simpl; [|left; naive_solver].
    destruct (is_number n); simpl; [left|right; eexists]; naive_solver.
  - right. eexists. split; [done|]. by intros [[? ?] _].
Qed.
Lemma checks_known schema path : checks (S:=S) (known schema path) (require_field schema path None).
Proof. eapply checks_iff, checks_field. naive_solver. Qed.

Lemma checks_parts q schema right_schema :
  checks (S:=S) (well_asked q schema right_schema) (validate_parts q schema right_schema).
Proof.
  unfold well_asked, validate_parts. repeat apply checks_bind.
  - case_bool_decide; [|eapply checks_iff, checks_ret; naive_solver].
    destruct (q_field q) as [field|]; [eapply checks_iff, checks_field|eapply checks_iff, checks_raise]; naive_solver.
  - destruct (q_group_by q) as [g|]; [|eapply checks_iff, checks_ret; naive_solver].
    case_bool_decide; [eapply checks_iff, checks_known|eapply checks_iff, checks_raise]; naive_solver.
  - destruct (q_join q) as [j|]; [|eapply checks_iff, checks_ret; naive_solver].
    case_bool_decide; [|eapply checks_iff, checks_raise; naive_solver].
    destruct right_schema; [|eapply checks_iff, checks_raise; naive_solver].
    eapply checks_iff, checks_bind; [|apply checks_known..]. naive_solver.
  - apply checks_each. intros p. apply checks_known.
Qed.
End Validation.

(** Validation passes exactly the queries whose fields are in the schemas, whose numeric operations are over numeric fields and whose clauses combine, and answers them with the page clamped and nothing else changed. *)
Theorem validate_passes_well_asked {S} q schema right_schema config (s : S) :
  match validate q schema right_schema config s with
  | (Ok plan, s') =>
      s' = s /\ well_asked q schema right_schema /\
      plan = paged (Z.min (Z.max (q_limit q) 1) (query_max_limit config)) (Z.max (q_offset q) 0) q
  | (Err _, s') => s' = s /\ ~ well_asked q schema right_schema
  end.
Proof.
  unfold validate, bind, ret.
  by destruct (checks_parts q schema right_schema s) as [[-> H]|(e & -> & H)].
Qed.

(** ** Compilation of what was validated *)

(** Null is compared by equality only. *)
Definition null_ok (p : FilterPredicate) : Prop := fp_value p = SNone -> fp_op p = FilterOp.EQ \/ fp_op p = FilterOp.NE.
Definition runs (m : M Params Exn (list piece)) : Prop := forall p, exists sql, (m p).1 = Ok sql.
Section Runs.
Context (float_text : pystr -> pystr).
Lemma runs_ret a : runs (ret a).
Proof. intros p. by eexists. Qed.
Lemma runs_path d : runs (bind_path d).
Proof. intros p. by eexists. Qed.
Lemma runs_value v : runs (bind_value v).
Proof. intros p. by eexists. Qed.
Lemma runs_bind m k : runs m -> (forall a, runs (k a)) -> runs (bind m k).
Proof.
  intros Hm Hk p. unfold bind. destruct (Hm p) as [a Ha]. destruct (m p) as [[b|e] q]; simplify_eq/=. apply Hk.
Qed.
#[local] Hint Resolve runs_ret runs_path runs_value : blind.
Ltac run := repeat first [solve [auto with blind] | apply runs_bind; [|intros ?] | case_match; try done].
Lemma runs_predicate p schema prefix : null_ok p -> runs (predicate_sql float_text p schema prefix).
Proof using Type.
  intros H. unfold predicate_sql, refuse. destruct (fp_value p) eqn:Hv; [destruct (H Hv) as [->| ->]|..]; run.
Qed.
Lemma runs_filters l schema prefix : Forall null_ok l -> runs (and_predicates float_text l schema prefix).
Proof using Type.
  induction 1 as [|p l Hp _ IH]; [apply runs_ret|]. simpl.
  apply runs_bind; [by apply runs_predicate|]. intros a. apply runs_bind; [done|]. intros b. apply runs_ret.
Qed.
Lemma runs_where q id schema prefix : Forall null_ok (q_filters q) -> runs (where_sql float_text q id schema prefix).
Proof using Type.
  intros H. unfold where_sql. apply runs_bind; [run|intros ?]. apply runs_bind; [run|intros ?].
  apply runs_bind; [by apply runs_filters|intros ?]. run.
Qed.
(** A validated query compiles, unless it orders against null: the assertions on the way never fire. *)
Theorem well_asked_compiles {S} q schema right_schema id (s : S) :
  well_asked q schema right_schema -> Forall null_ok (q_filters q) ->
  (exists c, compile float_text q schema id s = (Ok c, s)) /\
  (exists c, compile_count float_text q schema id s = (Ok c, s)).
Proof.
  intros (Hf & _) Hn.
  assert (Hc : forall m, runs m -> exists c, compiled m s = (Ok c, s)).
  { intros m H. destruct (H no_params) as [sql Hs]. unfold compiled.
    destruct (m no_params) as [[a|e] p]; simplify_eq/=. by eexists. }
  assert (Hfield : q_op q ∈ FIELD_OPS -> exists field, q_field q = Some field) by naive_solver.
  assert (Hw : forall prefix, runs (where_sql float_text q id schema prefix)) by (intros; by apply runs_where).
  clear Hf Hn. unfold compile, compile_count. split; apply Hc.
  - unfold compile_sql, compile_join, join_sql, page_sql, aggregate_sql, the_field, assertion_error.
    destruct (q_join q); [run|]. apply runs_bind; [done|intros w].
    destruct (q_op q); simpl; try (destruct Hfield as [field ->]; [set_solver|]); destruct (q_group_by q); run.
  - unfold compile_count_sql, join_sql, the_field, assertion_error.
    destruct (q_join q); [run|]. apply runs_bind; [done|intros w].
    destruct (q_op q); simpl; try (destruct Hfield as [field ->]; [set_solver|]); destruct (q_group_by q); run.
Qed.
End Runs.
