(* ===== verification/CollectionIngest.v ===== *)
(** * From a response to a collection ([net/collections/ingest.py], [documents.py])

    A large structured body is taken apart into records and stored as a
    collection; a single document parks at its home, in memory or as a
    collection of one record.  The parsers of JSON and CSV are parameters. *)
From S2P Require Import Prelude PyStr PyFloat Clock Sql Dict Domain UnitOfWork Tariffs ResponseMemory CollectionSchema Collections CollectionLaws CollectionQuery.

(** ** Taking a body apart *)

Definition MAX_RECORDS : nat := N.to_nat 100000.
Definition MAX_ENVELOPE_CHARS : Z := 1000.
Definition MAX_UNWRAP_DEPTH : nat := 5.
Definition MAX_UNWRAP_NODES : nat := N.to_nat 2000.
Definition DB_WIRE_LIMIT_BYTES : Z := 2 * 1024 * 1024.
Definition JSON_CONTENT_MARKERS : list pystr := ["application/json"; "text/json"; "+json"].
Definition CSV_CONTENT_MARKERS : list pystr := ["text/csv"; "application/csv"].

Record ParsedBody := {
  pb_kind : CollectionKind.t;
  pb_records : NewRecords;
  pb_envelope : fields;
  pb_document : json;
  pb_single_document : bool;
  pb_record_truncated : bool }.

Definition is_object (v : json) : bool := match v with JObj _ => true | _ => false end.
(** [_is_object_array] *)
Definition object_array (member : json) : option (list json) :=
  match member with
  | JList (v :: l) => if forallb is_object (v :: l) then Some (v :: l) else None
  | _ => None
  end.
(** [_scalars_of] *)
Definition scalars_of (value : json) : fields :=
  match value with
  | JObj d => List.filter (fun kv => match kv.2 with JObj _ | JList _ => false | _ => true end) d
  | _ => []
  end.
(** [_envelope_of]: the records are a list, so no list stays. *)
Definition envelope_of (parent : fields) : fields :=
  List.filter (fun kv => match kv.2 with JList _ => false | _ => true end) parent.
Definition new_records (payloads : list fields) : NewRecords := {| nr_payloads := payloads; nr_source := "" |}.
(** [_as_records] *)
Definition as_records (items : list json) : NewRecords :=
  new_records ((fun item => match item with JObj d => d | v => [("value" : pystr, v)] end) <$> take MAX_RECORDS items).

(** One node of a level: its arrays of objects, each with its parent, and the
    wrapper objects below. *)
Definition node_candidates (node : fields) : list (list json * fields) :=
  omap (fun kv => (fun l => (l, node)) <$> object_array kv.2) node.
Definition node_deeper (node : fields) : list fields :=
  omap (fun kv => match object_array kv.2, kv.2 with None, JObj d => Some d | _, _ => None end) node.
(** The scan of one level, as far as the budget of nodes allows; [visited]
    passes it by the node the scan broke at. *)
Fixpoint scan_level (visited : nat) (frontier : list fields) : nat * list (list json * fields) * list fields :=
  match frontier with
  | [] => (visited, [], [])
  | node :: frontier =>
      if (MAX_UNWRAP_NODES <? S visited)%nat then (S visited, [], [])
      else
        let '(visited, candidates, deeper) := scan_level (S visited) frontier in
        (visited, node_candidates node ++ candidates, node_deeper node ++ deeper)
  end.
(** [max(candidates, key=len)]: the first of the longest. *)
Fixpoint largest (best : list json * fields) (candidates : list (list json * fields)) : list json * fields :=
  match candidates with
  | [] => best
  | c :: candidates => largest (if (length best.1 <? length c.1)%nat then c else best) candidates
  end.
Fixpoint dict_merge (a b : fields) : fields :=
  match b with [] => a | (k, v) :: b => dict_merge (dict_set k v a) b end.
Fixpoint descend (depth : nat) (visited : nat) (frontier : list fields) : option (list json * fields) :=
  match depth with
  | O => None
  | S depth =>
      let '(visited, candidates, deeper) := scan_level visited frontier in
      match candidates with
      | c :: candidates => Some (largest c candidates)
      | [] =>
          if (MAX_UNWRAP_NODES <? visited)%nat || match deeper with [] => true | _ => false end then None
          else descend depth visited deeper
      end
  end.
(** [_locate_records] *)
Definition locate_records (root : fields) : option (list json * fields) :=
  (fun found => (found.1, dict_merge (scalars_of (JObj root)) (envelope_of found.2))) <$>
  descend MAX_UNWRAP_DEPTH 0 [root].
Definition too_many {A} (items : list A) : bool := (MAX_RECORDS <? length items)%nat.
(** [_unwrap] *)
Definition unwrap (value : json) : option NewRecords * fields * bool :=
  match value with
  | JList items => (Some (as_records items), [], too_many items)
  | JObj root =>
      match locate_records root with
      | None => (Some (new_records [root]), [], false)
      | Some (items, envelope) => (Some (as_records items), envelope, too_many items)
      end
  | _ => (None, [], false)
  end.
(** [_take_apart]; a record is the value itself only when no array was located. *)
Definition take_apart (value : json) (items_path : option pystr) : option ParsedBody :=
  match items_path with
  | Some path =>
      match dotted_get value path with
      | JList found =>
          Some {| pb_kind := CollectionKind.JSON; pb_records := as_records found; pb_envelope := scalars_of value;
                  pb_document := value; pb_single_document := false; pb_record_truncated := too_many found |}
      | _ => None
      end
  | None =>
      let '(records, envelope, dropped) := unwrap value in
      match records with
      | None => None
      | Some records =>
          let single := match value with JObj root => bool_decide (locate_records root = None) | _ => false end in
          Some {| pb_kind := CollectionKind.JSON; pb_records := records; pb_envelope := envelope; pb_document := value;
                  pb_single_document := single; pb_record_truncated := dropped |}
      end
  end.

(** [_parse_csv] over the rows of [csv.reader]. *)
Definition csv_header (i : nat) (name : pystr) : pystr :=
  if str_empty (str_strip name) then "column_" +s+ str_of_Z (Z.of_nat i) else str_strip name.
Definition csv_payload (header row : list pystr) : fields :=
  foldl (fun d hc => dict_set hc.1 (JStr hc.2) d) [] (zip header row).
Definition parse_csv_rows (rows : list (list pystr)) : option ParsedBody :=
  match rows with
  | [] | [_] => None
  | names :: rows =>
      let header := imap csv_header names in
      Some {| pb_kind := CollectionKind.CSV;
              pb_records := new_records (csv_payload header <$> take MAX_RECORDS rows); pb_envelope := [];
              pb_document := JNull; pb_single_document := false; pb_record_truncated := too_many rows |}
  end.

(** ** Coercion ([tool_spec.FieldCoercion], [ResponseSpec]) *)

Module FieldCoercion.
Inductive t : Set := NUMBER | STRING | BOOLEAN.
#[global] Instance t_eq_dec : EqDecision t := ltac:(solve_decision).
Definition value (k : t) : pystr := match k with NUMBER => "number" | STRING => "string" | BOOLEAN => "boolean" end.
End FieldCoercion.
Record ResponseSpec := { rs_items_path : option pystr; rs_fields : list (pystr * FieldCoercion.t) }.

Section Ingest.
(** [str.lower]; [float(s)], as the [int] it is or the literal of its [repr];
    [str] of a float; [json.loads], [None] for its [ValueError];
    [json.dumps(.., ensure_ascii=False)]; the rows of a CSV text in the
    dialect sniffed from its start, or the error of the reader. *)
Context (str_lower : pystr -> pystr) (read_number : pystr -> option json) (float_text : pystr -> pystr).
Context (json_loads : pystr -> option json) (json_dumps : json -> pystr) (csv_rows : pystr -> Res Exn (list (list pystr))).

Definition py_str (value : json) : pystr :=
  match value with
  | JNull => "None" | JBool true => "True" | JBool false => "False" | JInt z => str_of_Z z
  | JFloat literal => float_text literal | JStr s => s | v => json_dumps v
  end.
(** [_coerce] *)
Definition coerce (value : json) (kind : FieldCoercion.t) : json :=
  match kind, value with
  | FieldCoercion.NUMBER, JStr text =>
      match read_number (str_strip text) with Some number => number | None => value end
  | FieldCoercion.STRING, (JNull | JStr _) => value
  | FieldCoercion.STRING, _ => JStr (py_str value)
  | FieldCoercion.BOOLEAN, JStr text =>
      let lowered := str_lower (str_strip text) in
      if bool_decide (lowered ∈ (["true"; "1"; "yes"] : list pystr)) then JBool true
      else if bool_decide (lowered ∈ (["false"; "0"; "no"] : list pystr)) then JBool false
      else value
  | _, _ => value
  end.
(** [shape_records] *)
Definition shape_payload (spec : list (pystr * FieldCoercion.t)) (payload : fields) : fields :=
  omap (fun nk => (fun v => (nk.1, coerce v nk.2)) <$> dict_get nk.1 payload) spec.
Definition shape_records (records : NewRecords) (spec : list (pystr * FieldCoercion.t)) : NewRecords :=
  match spec with
  | [] => records
  | _ => {| nr_payloads := shape_payload spec <$> nr_payloads records; nr_source := nr_source records |}
  end.

Definition str_contains (needle hay : pystr) : bool := bool_decide (is_Some (str_find (codes hay) (codes needle) 0)).
(** [parse_structured] *)
Definition looks_json (declared body : pystr) : bool :=
  existsb (fun marker => str_contains marker declared) JSON_CONTENT_MARKERS ||
  match drop_space (codes body) with c :: _ => (c =? 123)%N || (c =? 91)%N | [] => false end.
Definition parse_structured {S} (body content_type : pystr) (items_path : option pystr) : M S Exn (option ParsedBody) :=
  let declared := str_lower content_type in
  if existsb (fun marker => str_contains marker declared) CSV_CONTENT_MARKERS then
    match csv_rows body with Ok rows => ret (parse_csv_rows rows) | Err e => raise e end
  else if looks_json declared body then
    ret (match json_loads body with Some value => take_apart value items_path | None => None end)
  else ret None.

(** ** The passport of a collection *)

Definition TRUNCATED_NOTE : pystr := " · SOURCE CUT at the wire limit: counts reflect what arrived".
Definition minutes_left (expires_at now : time) : Z := Z.max 0 ((expires_at - now) / seconds 60).
(** [render_passport] and [PASSPORT_TEMPLATE] *)
Definition render_passport (passport : CollectionPassport) (now : time) : pystr :=
  let envelope :=
    match cp_envelope passport with
    | [] => "" : pystr
    | d =>
        let rendered := json_dumps (JObj d) in
        let rendered := if (MAX_ENVELOPE_CHARS <? str_len rendered)%Z
                        then str_take MAX_ENVELOPE_CHARS rendered +s+ "…" else rendered in
        "envelope: " +s+ rendered +s+ newline
    end in
  "[collection " +s+ cp_ref passport +s+ "] kind=" +s+ CollectionKind.value (cp_kind passport) +s+ " · source=" +s+
  (if str_empty (cp_source passport) then "-" else cp_source passport) +s+ " · " +s+
  str_of_Z (cp_record_count passport) +s+ " records · " +s+ human_size (cp_byte_size passport) +s+ " · expires in " +s+
  str_of_Z (minutes_left (cp_expires_at passport) now) +s+ " min" +s+
  (if cp_truncated passport then TRUNCATED_NOTE else "") +s+ newline +s+
  "record schema: " +s+ render (cp_schema passport) true 0 +s+ newline +s+ envelope +s+
  "The body is NOT in this message — query the data with collection_query: " +s+
  "ops get/pluck/count/sum/avg/min/max/distinct, filters, group_by; " +s+ "collection_get re-reads this passport.".
End Ingest.

(** ** Where a response goes ([net/collections/ingest.py], [documents.py] *)

(** [ResponseSpill] routes a large body to the store of collections or to the
    home of documents; [CollectionSink] pours batches into one collection;
    [DatabaseDocumentHome] parks a document as a collection of one record. *)
(** ** Ports *)

(** [CollectionStore] of the client state [S]. *)
Record CollectionStorePort (S : Type) := {
  st_create : pystr -> pystr -> CollectionKind.t -> pystr -> SchemaNode -> fields -> NewRecords -> Z -> bool -> time ->
              M S Exn CollectionPassport;
  st_append : pystr -> pystr -> NewRecords -> SchemaNode -> Z -> time -> M S Exn CollectionPassport;
  st_passport : pystr -> pystr -> M S Exn CollectionPassport;
  st_mark_truncated : pystr -> pystr -> M S Exn unit;
  st_single_payload : pystr -> pystr -> M S Exn fields }.
Arguments st_create {S}. Arguments st_append {S}. Arguments st_passport {S}. Arguments st_mark_truncated {S}.
Arguments st_single_payload {S}.
(** [DocumentHome.park]; [JNull] is a body that was not parsed. *)
Definition park_port (S : Type) : Type := pystr -> pystr -> pystr -> pystr -> json -> M S Exn pystr.

(** The store over its two tables, its clock and its source of ids. *)
Section Port.
Context (config : CollectionConfig) (utc_now : M CollectionDb Exn time) (new_id : M CollectionDb Exn pystr).
Definition sql_collections : CollectionStorePort CollectionDb := {|
  st_create owner label kind source schema envelope records bytes truncated expires :=
    let! now := utc_now in
    let! id := new_id in
    CollectionStore.create config now id owner label kind source schema envelope records bytes truncated expires;
  st_append owner id records schema bytes expires :=
    let! now := utc_now in
    CollectionStore.append config now owner id records schema bytes expires;
  st_passport owner id := let! now := utc_now in CollectionStore.passport now owner id;
  st_mark_truncated owner id := let! now := utc_now in CollectionStore.mark_truncated now owner id;
  st_single_payload owner id := let! now := utc_now in CollectionStore.single_payload now owner id |}.
End Port.

Section Spill.
Context (str_lower : pystr -> pystr) (read_number : pystr -> option json) (float_text : pystr -> pystr).
Context (json_loads : pystr -> option json) (json_dumps : json -> pystr) (csv_rows : pystr -> Res Exn (list (list pystr))).
Context {S : Type} (config : CollectionConfig) (utc_now : M S Exn time).
Abbreviation MS := (M S Exn) (only parsing).

(** [ResponseSpill] *)
Record ResponseSpill := {
  sp_store : option (CollectionStorePort S);
  sp_memory : option ResponseMemoryConfig;
  sp_documents : option (park_port S) }.
(** [__init__]: without a home of their own documents go to memory. *)
Definition response_spill (store : option (CollectionStorePort S)) (memory : option (ResponseMemoryConfig * park_port S))
    (documents : option (park_port S)) : ResponseSpill :=
  {| sp_store := store; sp_memory := fst <$> memory;
     sp_documents := match documents with Some d => Some d | None => snd <$> memory end |}.
Definition wire_limit_bytes (spill : ResponseSpill) : Z :=
  match sp_memory spill with Some config => max_response_chars config | None => DB_WIRE_LIMIT_BYTES end.
Definition expiry : MS time :=
  let! now := utc_now in ret (now + ttl config)%Z.
(** [_park] *)
Definition hand_over (spill : ResponseSpill) (owner_id scope source body : pystr) (document : json) : MS (option pystr) :=
  match sp_documents spill with
  | None => ret None
  | Some park => let! passport := park owner_id scope source body document in ret (Some passport)
  end.
Definition payloads_json (records : NewRecords) : list json := JObj <$> nr_payloads records.
(** [_route] *)
Definition route (spill : ResponseSpill) (owner_id body content_type source : pystr) (wire_truncated : bool)
    (label scope : pystr) (response : option ResponseSpec) : MS (option pystr) :=
  let items_path := match response with Some spec => rs_items_path spec | None => None end in
  let! parsed := parse_structured str_lower json_loads csv_rows body content_type items_path in
  match parsed with
  | None => hand_over spill owner_id scope source body JNull
  | Some parsed =>
      match nr_payloads (pb_records parsed) with
      | [] => ret None
      | _ =>
          let! parked := if pb_single_document parsed
                         then hand_over spill owner_id scope source body (pb_document parsed) else ret None in
          match parked with
          | Some passport => ret (Some passport)
          | None =>
              match sp_store spill with
              | None => hand_over spill owner_id scope source body (pb_document parsed)
              | Some store =>
                  let records := match response with
                                 | Some spec => shape_records str_lower read_number float_text json_dumps (pb_records parsed) (rs_fields spec)
                                 | None => pb_records parsed
                                 end in
                  let! expires_at := expiry in
                  let! passport := st_create store owner_id label (pb_kind parsed) source (infer_records (payloads_json records))
                                     (pb_envelope parsed) records (str_len body)
                                     (wire_truncated || pb_record_truncated parsed) expires_at in
                  let! now := utc_now in
                  ret (Some (render_passport json_dumps passport now))
              end
          end
      end
  end.
(** [ResponseSpill.spill]: [except Exception] lets a cancellation through. *)
Definition spill (spill : ResponseSpill) (owner_id body content_type source : pystr) (wire_truncated : bool)
    (label scope : pystr) (response : option ResponseSpec) : MS (option pystr) :=
  if (str_len body <=? inline_max_chars config)%Z then ret None
  else
    try_except (route spill owner_id body content_type source wire_truncated label scope response)
      (fun e => if is_exception e then ret None else raise e).

(** ** The sink *)

Record CollectionSink := {
  sk_owner_id : pystr;
  sk_source : pystr;
  sk_label : pystr;
  sk_collection_id : option pystr;
  sk_started_from_existing : bool;
  sk_schema : option SchemaNode;
  sk_record_count : Z }.
Definition new_sink (owner_id source label : pystr) (into : option pystr) : CollectionSink :=
  {| sk_owner_id := owner_id; sk_source := source; sk_label := label; sk_collection_id := into;
     sk_started_from_existing := bool_decide (is_Some into); sk_schema := None; sk_record_count := 0 |}.
Definition poured (id : pystr) (schema : SchemaNode) (count : Z) (k : CollectionSink) : CollectionSink :=
  {| sk_owner_id := sk_owner_id k; sk_source := sk_source k; sk_label := sk_label k; sk_collection_id := Some id;
     sk_started_from_existing := sk_started_from_existing k; sk_schema := Some schema;
     sk_record_count := sk_record_count k + count |}.
Definition no_assertion {A} (o : option A) : MS A :=
  match o with Some a => ret a | None => raise (OtherError "AssertionError") end.
(** [add]: the sink comes back when the batch was stored.  When it was not, the
    source keeps at most the schema it read: [finish] does not look at it. *)
Definition add (spill : ResponseSpill) (sink : CollectionSink) (parsed : ParsedBody) (byte_size : Z) : MS CollectionSink :=
  let batch := {| nr_payloads := nr_payloads (pb_records parsed); nr_source := sk_source sink |} in
  let! store := no_assertion (sp_store spill) in
  let! current :=
    match sk_schema sink with
    | Some schema => ret (Some schema)
    | None =>
        if sk_started_from_existing sink then
          let! id := no_assertion (sk_collection_id sink) in
          let! existing := st_passport store (sk_owner_id sink) id in
          ret (Some (cp_schema existing))
        else ret None
    end in
  let merged := merge_into current (infer_records (payloads_json batch)) in
  let! expires_at := expiry in
  let! id :=
    match sk_collection_id sink with
    | None =>
        let! passport := st_create store (sk_owner_id sink) (sk_label sink) (pb_kind parsed) (sk_source sink) merged
                           (pb_envelope parsed) batch byte_size false expires_at in
        ret (cp_id passport)
    | Some id =>
        let! _ := st_append store (sk_owner_id sink) id batch merged byte_size expires_at in
        ret id
    end in
  ret (poured id merged (Z.of_nat (length (nr_payloads batch))) sink).
(** [finish] *)
Definition finish (spill : ResponseSpill) (sink : CollectionSink) (truncated : bool) : MS (option CollectionPassport) :=
  match sk_collection_id sink with
  | None => ret None
  | Some id =>
      let! store := no_assertion (sp_store spill) in
      (if truncated then st_mark_truncated store (sk_owner_id sink) id else ret tt) ;;;
      let! passport := st_passport store (sk_owner_id sink) id in
      ret (Some passport)
  end.

(** ** The database home of documents *)

Definition TEXT_PAYLOAD_KEY : pystr := "text".
Section Home.
Context (store : CollectionStorePort S) (memory_config : ResponseMemoryConfig).
(** [DatabaseDocumentHome.park] *)
Definition home_park : park_port S := fun owner_id scope source body document =>
  let kind := match document with JObj _ => CollectionKind.DOC_JSON | _ => CollectionKind.DOC_TEXT end in
  let payload := match document with JObj d => d | _ => [(TEXT_PAYLOAD_KEY, JStr body)] end in
  let! expires_at := expiry in
  let! passport := st_create store owner_id "" kind source (infer_records [JObj payload]) []
                     {| nr_payloads := [payload]; nr_source := source |} (str_len body) false expires_at in
  let doc := {| sd_ref := ResponseMemory.REF_PREFIX +s+ cp_id passport;
                sd_kind := match document with JObj _ => "json" | _ => "text" end; sd_source := source; sd_body := body;
                sd_document := match document with JObj _ => document | _ => JNull end |} in
  let minutes := Z.max 1 (ttl config / seconds 60) in
  ret (render_document_passport doc memory_config ("expires in " +s+ str_of_Z minutes +s+ " min")).
(** [DatabaseDocumentHome.fetch]; [None] is its [ResponseNotFoundError]. *)
Definition is_not_found (e : Exn) : bool := match e with CollectionNotFoundError _ => true | _ => false end.
Definition home_fetch (owner_id ref : pystr) : MS (option StoredDocument) :=
  let collection_id := ref_id ref in
  let! found := try_except
    (let! passport := st_passport store owner_id collection_id in
     let! payload := st_single_payload store owner_id collection_id in
     ret (Some (passport, payload)))
    (fun e => if is_not_found e then ret None else raise e) in
  match found with
  | None => ret None
  | Some (passport, payload) =>
      if decide (cp_kind passport = CollectionKind.DOC_TEXT) then
        (* [str] of what [park] stored there, a string *)
        let body := match dict_get TEXT_PAYLOAD_KEY payload with Some v => py_str float_text json_dumps v | None => "" end in
        ret (Some {| sd_ref := ref; sd_kind := "text"; sd_source := cp_source passport; sd_body := body; sd_document := JNull |})
      else
        ret (Some {| sd_ref := ref; sd_kind := "json"; sd_source := cp_source passport;
                     sd_body := json_dumps (JObj payload); sd_document := JObj payload |})
  end.
End Home.
End Spill.

(** ** Laws of ingestion *)

(** Which array of a body becomes the records, what reaches the store, what a
    sink keeps true of the collection it fills. *)
(** ** The array nearest the root *)

(** The wrapper objects [k] levels below the root, and their arrays. *)
Fixpoint level (k : nat) (root : fields) : list fields :=
  match k with O => [root] | S k => concat (node_deeper <$> level k root) end.
Definition arrays_at (k : nat) (root : fields) : list (list json * fields) := concat (node_candidates <$> level k root).
(** The objects of the first [k] levels. *)
Fixpoint nodes_above (k : nat) (root : fields) : nat :=
  match k with O => 0 | S k => nodes_above k root + length (level k root) end.

Lemma scan_level_full visited frontier :
  (visited + length frontier <= MAX_UNWRAP_NODES)%nat ->
  scan_level visited frontier =
    ((visited + length frontier)%nat, concat (node_candidates <$> frontier), concat (node_deeper <$> frontier)).
Proof.
  revert visited. induction frontier as [|node l IH]; intros visited Hb; cbn [scan_level length] in *.
  { by rewrite Nat.add_0_r. }
  destruct (Nat.ltb_spec MAX_UNWRAP_NODES (S visited)); [lia|]. rewrite IH by lia.
  rewrite !fmap_cons, !concat_cons. f_equal. f_equal. lia.
Qed.
Lemma largest_spec best l :
  largest best l ∈ best :: l /\ forall c, c ∈ best :: l -> (length c.1 <= length (largest best l).1)%nat.
Proof.
  revert best. induction l as [|c l IH]; intros best; cbn [largest].
  { split; [by left|]. by intros c ->%list_elem_of_singleton. }
  destruct (IH (if (length best.1 <? length c.1)%nat then c else best)) as [Hin Hmax]. split.
  - destruct (length best.1 <? length c.1)%nat; set_solver.
  - intros x Hx. destruct (Nat.ltb_spec (length best.1) (length c.1)) as [Hlt|Hge].
    + repeat (apply elem_of_cons in Hx as [->|Hx]).
      * transitivity (length c.1); [lia|]. apply Hmax. by left.
      * apply Hmax. by left.
      * apply Hmax. by right.
    + repeat (apply elem_of_cons in Hx as [->|Hx]).
      * apply Hmax. by left.
      * transitivity (length best.1); [lia|]. apply Hmax. by left.
      * apply Hmax. by right.
Qed.
Lemma level_nil k j root : level k root = [] -> level (j + k) root = [].
Proof. intros H. induction j as [|j IH]; [done|]. cbn [level Nat.add]. by rewrite IH. Qed.
Lemma nodes_above_mono k root : (nodes_above k root <= nodes_above (S k) root)%nat.
Proof. cbn [nodes_above]. lia. Qed.

(** What the hunt answers, read off the levels. *)
Inductive nearest (root : fields) (k : nat) : nat -> option (list json * fields) -> Prop :=
| nearest_here depth found :
    arrays_at k root <> [] -> found ∈ arrays_at k root ->
    (forall c, c ∈ arrays_at k root -> (length c.1 <= length found.1)%nat) -> nearest root k (S depth) (Some found)
| nearest_below depth found : arrays_at k root = [] -> nearest root (S k) depth found -> nearest root k (S depth) found
| nearest_none : nearest root k 0 None.

Lemma nearest_empty root k depth : level k root = [] -> nearest root k depth None.
Proof.
  revert k. induction depth as [|depth IH]; intros k H; [constructor|].
  apply nearest_below; [unfold arrays_at; by rewrite H|]. apply IH. cbn [level]. by rewrite H.
Qed.
Lemma descend_nearest root k depth :
  (nodes_above (k + depth) root <= MAX_UNWRAP_NODES)%nat ->
  nearest root k depth (descend depth (nodes_above k root) (level k root)).
Proof.
  revert k. induction depth as [|depth IH]; intros k Hb; cbn [descend]; [constructor|].
  assert (Hmono : forall j, (nodes_above (S k) root <= nodes_above (S k + j) root)%nat).
  { induction j as [|j IHj]; [by rewrite Nat.add_0_r|]. rewrite Nat.add_succ_r. etrans; [exact IHj|apply nodes_above_mono]. }
  assert (Hk : (nodes_above (S k) root <= MAX_UNWRAP_NODES)%nat).
  { etrans; [apply (Hmono depth)|]. by rewrite Nat.add_succ_l, <- Nat.add_succ_r. }
  rewrite scan_level_full by exact Hk. change (concat (node_candidates <$> level k root)) with (arrays_at k root).
  destruct (arrays_at k root) as [|c l] eqn:Hc.
  - destruct (Nat.ltb_spec MAX_UNWRAP_NODES (nodes_above k root + length (level k root))) as [H|H]; [cbn in Hk; lia|].
    change (concat (node_deeper <$> level k root)) with (level (S k) root). cbn [orb].
    destruct (level (S k) root) as [|d ds] eqn:Hd.
    + apply nearest_below; [done|]. by apply nearest_empty.
    + rewrite <- Hd. apply nearest_below; [done|]. apply (IH (S k)). by rewrite Nat.add_succ_l, <- Nat.add_succ_r.
  - destruct (largest_spec c l) as [Hin Hmax]. rewrite <- Hc in Hin, Hmax. apply nearest_here; [by rewrite Hc|done|done].
Qed.
(** While the objects of its first five levels fit the budget, the records of a body are the longest array of objects on the first of those levels that has one; when none has, there are none. *)
Theorem records_are_nearest root :
  (nodes_above MAX_UNWRAP_DEPTH root <= MAX_UNWRAP_NODES)%nat ->
  exists found, nearest root 0 MAX_UNWRAP_DEPTH found /\
    locate_records root =
      (fun found => (found.1, dict_merge (scalars_of (JObj root)) (envelope_of found.2))) <$> found.
Proof. intros H. exists (descend MAX_UNWRAP_DEPTH 0 [root]). split; [|done]. by apply (descend_nearest root 0). Qed.

(** ** Counts *)

(** The elements of a body that become its records. *)
Definition source_items (value : json) (items_path : option pystr) : list json :=
  match items_path with
  | Some path => match dotted_get value path with JList found => found | _ => [] end
  | None =>
      match value with
      | JList items => items
      | JObj root => match locate_records root with Some (items, _) => items | None => [value] end
      | _ => []
      end
  end.
Lemma as_records_length items : length (nr_payloads (as_records items)) = Nat.min MAX_RECORDS (length items).
Proof. unfold as_records. cbn [nr_payloads new_records]. by rewrite length_fmap, length_take. Qed.
(** A body taken apart keeps the first of its elements, up to the cap, and says it was cut exactly when elements were left out; it is a single document exactly when it is an object whose levels hold no array of objects. *)
Theorem take_apart_tells_cut value items_path parsed :
  take_apart value items_path = Some parsed ->
  nr_payloads (pb_records parsed) =
    ((fun item => match item with JObj d => d | v => [("value" : pystr, v)] end) <$>
     take MAX_RECORDS (source_items value items_path)) /\
  pb_record_truncated parsed =
    bool_decide (length (nr_payloads (pb_records parsed)) < length (source_items value items_path))%nat /\
  (pb_single_document parsed = true <->
   items_path = None /\ exists root, value = JObj root /\ locate_records root = None).
Proof.
  assert (Hcut : forall items : list json,
    too_many items = bool_decide (length (nr_payloads (as_records items)) < length items)%nat).
  { intros items. rewrite as_records_length. unfold too_many. apply Bool.eq_iff_eq_true.
    rewrite bool_decide_eq_true, Nat.ltb_lt. lia. }
  assert (H1 : take MAX_RECORDS [value] = [value]).
  { unfold MAX_RECORDS. destruct (N.to_nat 100000) as [|n] eqn:E; [lia|]. cbn [take]. by rewrite take_nil. }
  unfold take_apart, source_items, unwrap. destruct items_path as [path|].
  - destruct (dotted_get value path); try done. intros [= <-]. cbn [pb_records pb_record_truncated pb_single_document].
    split_and!; [done|by apply Hcut|]. split; [done|]. by intros [? _].
  - destruct value as [| | | | |items|root]; try done.
    + intros [= <-]. cbn [pb_records pb_record_truncated pb_single_document]. split_and!; [done|by apply Hcut|].
      split; [done|]. by intros (_ & ? & ? & _).
    + destruct (locate_records root) as [[items envelope]|] eqn:Hl; intros [= <-];
        cbn [pb_records pb_record_truncated pb_single_document].
      * split_and!; [done|by apply Hcut|]. split; [done|].
        intros (_ & r & [= <-] & ?). congruence.
      * rewrite H1. split_and!; [done|by rewrite bool_decide_eq_false_2 by (cbn; lia)|].
        split; [eauto|done].
Qed.

(** ** The schema a sink carries *)

(** Every record fits the schema of its collection. *)
Definition typed (d : CollectionDb) : Prop :=
  forall row r, row ∈ cd_collections d -> r ∈ cd_records d -> cr_collection_id r = co_id row ->
    fits (co_schema row) (JObj (cr_payload r)) = true.
Lemma typed_drop ids d : typed d -> typed (CollectionStore.drop_collections ids d).2.
Proof.
  intros H row r. rewrite drop_eq. cbn. intros [_ Hrow]%elem_of_delete_where [_ Hr]%elem_of_delete_where. by apply H.
Qed.
Lemma typed_evict config owner incoming d : typed d -> typed (CollectionStore.evict_for config owner incoming d).2.
Proof. intros H. destruct (evict_rows config owner incoming d) as [ids [->| ->]]; [done|by apply typed_drop]. Qed.
Lemma numbered_payload id source position payloads r :
  r ∈ CollectionStore.number_records id source position payloads -> cr_collection_id r = id /\ cr_payload r ∈ payloads.
Proof.
  intros Hr. destruct (number_records_spec id source position payloads) as (_ & Hp & Hc). rewrite Forall_forall in Hc.
  split; [by apply Hc|]. rewrite <- Hp. by apply list_elem_of_fmap_2.
Qed.

Section Sink.
Context (config : CollectionConfig) (now : time) (id : pystr).
Definition clocked : CollectionStorePort CollectionDb := sql_collections config (ret now) (ret id).
Definition with_store : ResponseSpill (S:=CollectionDb) := {| sp_store := Some clocked; sp_memory := None; sp_documents := None |}.
(** The schema a sink remembers is that of its collection, while that lives. *)
Definition in_step (sink : CollectionSink) (d : CollectionDb) : Prop :=
  match sk_collection_id sink with
  | None => sk_schema sink = None /\ sk_started_from_existing sink = false
  | Some cid =>
      match sk_schema sink with
      | None => sk_started_from_existing sink = true
      | Some schema => forall row, row ∈ cd_collections d -> co_id row = cid -> co_schema row = schema
      end
  end.
Definition payloads_ok (records : NewRecords) : Prop := Forall (fun p => json_ok (JObj p) = true) (nr_payloads records).
Lemma merged_fits current records p :
  payloads_ok records -> p ∈ nr_payloads records ->
  fits (merge_into current (infer_records (payloads_json records))) (JObj p) = true.
Proof using Type.
  intros Hok Hp. apply merge_into_fits. right. apply records_fit.
  - apply Forall_fmap. eapply Forall_impl; [exact Hok|]. done.
  - by apply list_elem_of_fmap_2.
Qed.

Lemma create_typed owner label kind source schema envelope records bytes truncated expires d a d' :
  collections_ok d -> typed d -> id ∉ co_id <$> cd_collections d ->
  (forall p, p ∈ nr_payloads records -> fits schema (JObj p) = true) ->
  CollectionStore.create config now id owner label kind source schema envelope records bytes truncated expires d = (Ok a, d') ->
  typed d' /\ cp_id a = id /\ forall row, row ∈ cd_collections d' -> co_id row = id -> co_schema row = schema.
Proof using Type.
  intros Hok Ht Hnew Hfit. unfold CollectionStore.create, in_session. unfold bind at 1.
  pose proof (typed_evict config owner bytes d Ht) as Ht1. pose proof (evict_ok config owner bytes d Hok) as Hok1.
  assert (Hnew1 : id ∉ co_id <$> cd_collections (CollectionStore.evict_for config owner bytes d).2).
  { destruct (evict_rows config owner bytes d) as [ids [->| ->]]; [done|]. cbn. intros Hin. apply Hnew.
    eapply elem_of_sublist; [exact Hin|]. apply fmap_sublist, sublist_filter. }
  destruct (CollectionStore.evict_for config owner bytes d) as [[[]|e] d1]; [|done]. cbn in Ht1, Hok1, Hnew1.
  unfold bind, CollectionStore.add_records, on_table, modify, ret. intros [= <- <-].
  cbn [table set_table collection_db_rows collection_db_records cd_collections cd_records]. unfold insert_row. split_and!; [|done|].
  - intros row r [Hrow| ->%list_elem_of_singleton]%elem_of_app [Hr|Hr]%elem_of_app Hid; cbn in Hid.
    + by apply Ht1.
    + apply numbered_payload in Hr as [Hc _]. destruct Hnew1. rewrite <- Hc, Hid. by apply list_elem_of_fmap_2.
    + destruct (co_exists _ Hok1 r Hr) as (row' & Hin & Heq). destruct Hnew1. rewrite <- Hid, <- Heq. by apply list_elem_of_fmap_2.
    + apply numbered_payload in Hr as [_ Hp]. by apply Hfit.
  - intros row [Hrow| ->%list_elem_of_singleton]%elem_of_app Hid; [|done]. destruct Hnew1. rewrite <- Hid. by apply list_elem_of_fmap_2.
Qed.
Lemma append_typed owner cid records schema bytes expires d a d' :
  collections_ok d -> typed d ->
  (forall row v, row ∈ cd_collections d -> co_id row = cid -> fits (co_schema row) v = true -> fits schema v = true) ->
  (forall p, p ∈ nr_payloads records -> fits schema (JObj p) = true) ->
  CollectionStore.append config now owner cid records schema bytes expires d = (Ok a, d') ->
  typed d' /\ forall row, row ∈ cd_collections d' -> co_id row = cid -> co_schema row = schema.
Proof using Type.
  intros Hok Ht Hgrow Hfit. unfold CollectionStore.append, in_session. unfold bind at 1, gets. destruct (_ <? _)%Z; [done|].
  unfold bind at 1. destruct (CollectionStore.live_row now owner cid d) as [[row|e] d1] eqn:Hrow; [|done].
  apply live_row_inv in Hrow as (-> & Hin & Hid & _). unfold bind, CollectionStore.add_records, on_table, modify, ret.
  intros [= _ <-]. cbn [table set_table collection_db_rows collection_db_records cd_collections cd_records].
  set (change := grown _ _ _ _ _).
  assert (Hcase : forall row', row' ∈ update_where (fun r => co_id r = co_id row) change (cd_collections d) ->
    (co_id row' = cid /\ co_schema row' = schema) \/ (co_id row' <> cid /\ row' ∈ cd_collections d)).
  { intros row' Hr. unfold update_where in Hr. apply list_elem_of_fmap in Hr as (r0 & -> & Hr0).
    case_decide as Hd; [left; split; [cbn; congruence|done]|right; split; [congruence|done]]. }
  split.
  - intros row' r Hrow' [Hr|Hr]%elem_of_app Heq; destruct (Hcase row' Hrow') as [[Hc Hs]|[Hc Hold]].
    + rewrite Hs. destruct (co_exists _ Hok r Hr) as (r0 & Hr0 & Hr0id). apply (Hgrow r0); [done|congruence|].
      by apply Ht.
    + by apply Ht.
    + rewrite Hs. apply numbered_payload in Hr as [_ Hp]. by apply Hfit.
    + apply numbered_payload in Hr as [Hc' _]. congruence.
  - intros row' Hrow' Hc. by destruct (Hcase row' Hrow') as [[_ ?]|[? _]].
Qed.

Lemma in_session_err {A} (m : M CollectionDb Exn A) d e d' : in_session m d = (Err e, d') -> d' = d.
Proof. unfold in_session. destruct (m d) as [[a|e'] d1]; congruence. Qed.
(** The batch poured into a collection whose schema is [schema]. *)
Lemma pour_append owner cid batch schema bytes expires d :
  collections_ok d -> typed d -> payloads_ok batch ->
  (forall row, row ∈ cd_collections d -> co_id row = cid -> co_schema row = schema) ->
  let merged := merge_into (Some schema) (infer_records (payloads_json batch)) in
  match CollectionStore.append config now owner cid batch merged bytes expires d with
  | (Ok _, d') => typed d' /\ forall row, row ∈ cd_collections d' -> co_id row = cid -> co_schema row = merged
  | (Err _, d') => d' = d
  end.
Proof using Type.
  intros Hok Ht Hb Hs merged. destruct (CollectionStore.append _ _ _ _ _ _ _ _ d) as [[a|e] d'] eqn:E; [|by eapply in_session_err].
  eapply append_typed; [done|done| | |exact E].
  - intros row v Hrow Hid Hv. apply merge_into_fits. left. exists schema. split; [done|]. by rewrite <- (Hs row Hrow Hid).
  - intros p Hp. by apply merged_fits.
Qed.

(** A sink in step with its collection stays in step, whatever batches it pours, and every record of the database keeps fitting the schema of its collection; a batch that is refused changes nothing. *)
Theorem sink_keeps_schema sink parsed bytes d :
  collections_ok d -> typed d -> in_step sink d -> payloads_ok (pb_records parsed) -> id ∉ co_id <$> cd_collections d ->
  match add config (ret now) with_store sink parsed bytes d with
  | (Ok sink', d') => typed d' /\ in_step sink' d' /\ is_Some (sk_collection_id sink')
  | (Err _, d') => d' = d
  end.
Proof using Type.
  intros Hok Ht Hstep Hpay Hnew. unfold add. cbn [sp_store with_store no_assertion]. unfold bind at 1, ret at 1.
  set (batch := {| nr_payloads := nr_payloads (pb_records parsed); nr_source := sk_source sink |}).
  assert (Hb : payloads_ok batch) by exact Hpay. unfold in_step in *.
  unfold expiry, poured, clocked, sql_collections, bind, ret. cbn [st_create st_append st_passport].
  destruct (sk_collection_id sink) as [cid|] eqn:Hcid; [destruct (sk_schema sink) as [schema|] eqn:Hsch|].
  - pose proof (pour_append (sk_owner_id sink) cid batch schema bytes (now + ttl config)%Z d Hok Ht Hb Hstep) as H.
    cbv zeta in H. destruct (CollectionStore.append _ _ _ _ _ _ _ _ d) as [[a|e] d']; [|done].
    cbn [sk_collection_id sk_schema sk_started_from_existing]. destruct H as [? ?]. split_and!; [done|done|by eexists].
  - rewrite Hstep. cbn [no_assertion]. unfold ret, CollectionStore.passport, bind.
    destruct (CollectionStore.live_row now (sk_owner_id sink) cid d) as [[row|e] d1] eqn:Hrow; [|by apply live_row_err in Hrow].
    apply live_row_inv in Hrow as (-> & Hin & Hid & _). unfold ret. cbn [to_passport cp_schema].
    assert (Hs : forall r, r ∈ cd_collections d -> co_id r = cid -> co_schema r = co_schema row).
    { intros r Hr Hrid. by rewrite (key_inj co_id _ r row (co_unique _ Hok) Hr Hin (eq_trans Hrid (eq_sym Hid))). }
    pose proof (pour_append (sk_owner_id sink) cid batch (co_schema row) bytes (now + ttl config)%Z d Hok Ht Hb Hs) as H.
    cbv zeta in H. destruct (CollectionStore.append _ _ _ _ _ _ _ _ d) as [[a|e] d']; [|done].
    cbn [sk_collection_id sk_schema sk_started_from_existing]. destruct H as [? ?]. split_and!; [done|done|by eexists].
  - destruct Hstep as [-> ->]. destruct (CollectionStore.create _ _ _ _ _ _ _ _ _ _ _ _ _ d) as [[a|e] d'] eqn:E; [|by eapply in_session_err].
    destruct (create_typed _ _ _ _ _ _ _ _ _ _ _ _ _ Hok Ht Hnew (fun p Hp => merged_fits None batch p Hb Hp) E) as (? & <- & ?).
    cbn [sk_collection_id sk_schema sk_started_from_existing]. split_and!; [done|done|by eexists].
Qed.
End Sink.

(** ** The spill *)

(** A spill that fails leaves the caller its fallback: whatever its tiers do, nothing but a cancellation comes out of it, and a body no longer than the inline threshold reaches none of them. *)
Theorem spill_never_fails str_lower read_number float_text json_loads json_dumps csv_rows {S} config
    (utc_now : M S Exn time) (routes : ResponseSpill) owner body content_type source cut_ label scope response s :
  match spill str_lower read_number float_text json_loads json_dumps csv_rows config utc_now routes owner body content_type
              source cut_ label scope response s with
  | (Ok answer, s') => (str_len body <= inline_max_chars config)%Z -> answer = None /\ s' = s
  | (Err e, _) => is_exception e = false
  end.
Proof.
  unfold spill. destruct (Z.leb_spec (str_len body) (inline_max_chars config)) as [H|H]; [done|].
  unfold try_except. destruct (route _ _ _ _ _ _ _ _ _ _ _ _ _ _ _ _ _ s) as [[a|e] s']; [lia|].
  destruct (is_exception e) eqn:He; unfold ret, raise; [lia|done].
Qed.

(** ** The tools over collections ([net/collections/tools.py] *)

(** [collection_query] runs a query of the model against one collection,
    [collection_get] shows its passport again. *)
Definition NOT_FOUND_TEMPLATE (ref : pystr) : pystr :=
  "collection '" +s+ ref +s+ "' is gone (expired, evicted or never yours): run the call that " +s+
  "produced it again to get fresh data and a fresh ref".
Definition RESULT_TEMPLATE (rows total offset : Z) (body : pystr) : pystr :=
  str_of_Z rows +s+ " of " +s+ str_of_Z total +s+ " matched (offset " +s+ str_of_Z offset +s+ ")" +s+ newline +s+ body.
Definition CUT_NOTE : pystr := newline +s+ "…[cut: narrow the query, page with offset/limit, or raise max_chars]".

Section Tools.
(** [repr] of an argument, [json.dumps(.., ensure_ascii=False)]. *)
Context (repr : option json -> pystr) (json_dumps : json -> pystr).
Context (config : CollectionConfig).
Context {S : Type} (engine : pystr -> pystr -> Query -> M S Exn QueryResult) (store : CollectionStorePort S) (utc_now : M S Exn time).
Context (user_id : pystr) (enabled_features : option (gset pystr)).
Abbreviation arguments := (list (pystr * json)) (only parsing).
Abbreviation MT := (M S Exn) (only parsing).

Definition visible_to : bool := feature_enabled enabled_features (FeatureCode.value FeatureCode.HTTP_ENDPOINTS).
Definition refusal : pystr := feature_refusal (FeatureCode.value FeatureCode.HTTP_ENDPOINTS).
Definition bad {A} (text : pystr) : MT A := raise (ToolArgumentsError text).

(** [_parse_ref] *)
Definition remove_ref_prefix (ref : pystr) : pystr :=
  if str_startswith Collections.REF_PREFIX ref then str_drop (str_len Collections.REF_PREFIX) ref else ref.
Definition parse_ref (raw : option json) : MT pystr :=
  match raw with
  | Some (JStr text) =>
      if str_empty (str_strip text) then bad "ref must be a non-empty string like 'col:…'"
      else ret (remove_ref_prefix (str_strip text))
  | _ => bad "ref must be a non-empty string like 'col:…'"
  end.
(** [_parse_int] *)
Definition parse_int (raw : option json) (dflt : Z) (name : pystr) : MT Z :=
  match raw with
  | None => ret dflt
  | Some (JInt n) => ret n
  | Some _ => bad (name +s+ " must be an integer")
  end.
Definition parse_text (raw : option json) (name : pystr) : MT (option pystr) :=
  match raw with
  | None => ret None
  | Some (JStr text) => ret (Some text)
  | Some _ => bad (name +s+ " must be a string")
  end.
(** [_parse_filters] *)
Definition parse_scalar (raw : option json) : option scalar :=
  match raw with
  | None => Some SNone
  | Some (JBool b) => Some (SBool b)
  | Some (JInt z) => Some (SInt z)
  | Some (JFloat literal) => Some (SFloat literal)
  | Some (JStr s) => Some (SStr s)
  | Some _ => None
  end.
(** [FilterOp(str(raw))]: only a string spells one. *)
Definition op_text (raw : option json) : pystr := match raw with Some (JStr s) => s | _ => "" end.
Definition parse_filter (item : json) : MT FilterPredicate :=
  match item with
  | JObj d =>
      match arg "field" d with
      | Some (JStr field) =>
          match FilterOp.parse (op_text (arg "op" d)) with
          | None => bad ("unknown filter op: " +s+ repr (arg "op" d))
          | Some op =>
              match parse_scalar (arg "value" d) with
              | None => bad "filter value must be a scalar or null"
              | Some value => ret {| fp_field := field; fp_op := op; fp_value := value |}
              end
          end
      | _ => bad "each filter needs a string 'field'"
      end
  | _ => bad "each filter needs a string 'field'"
  end.
Fixpoint parse_each (items : list json) : MT (list FilterPredicate) :=
  match items with
  | [] => ret []
  | item :: items =>
      let! predicate := parse_filter item in
      let! predicates := parse_each items in
      ret (predicate :: predicates)
  end.
Definition parse_filters (raw : option json) : MT (list FilterPredicate) :=
  match raw with
  | None => ret []
  | Some (JList items) => parse_each items
  | Some _ => bad "filters must be an array of {field, op, value}"
  end.
(** [_parse_query]: a join is not exposed. *)
Definition parse_query (args : arguments) : MT Query :=
  match QueryOp.parse (op_text (arg "op" args)) with
  | None => bad ("unknown op: " +s+ repr (arg "op" args))
  | Some op =>
      let! field := parse_text (arg "field" args) "field" in
      let! group_by := parse_text (arg "group_by" args) "group_by" in
      let! source := parse_text (arg "source" args) "source" in
      let! filters := parse_filters (arg "filters" args) in
      let! limit := parse_int (arg "limit" args) (query_default_limit config) "limit" in
      let! offset := parse_int (arg "offset" args) 0 "offset" in
      ret {| q_op := op; q_field := field; q_filters := filters; q_group_by := group_by; q_source := source; q_join := None;
             q_limit := limit; q_offset := offset |}
  end.

(** [s[:n]], where a negative [n] counts from the end. *)
Definition str_until (n : Z) (s : pystr) : pystr := str_take (if (n <? 0)%Z then str_len s + n else n) s.
(** [_render_result]; the offset shown is that of the query as asked. *)
Definition render_result (query : Query) (result : QueryResult) (max_chars : Z) : pystr :=
  let body := json_dumps (JList (qr_rows result)) in
  let body := if (max_chars <? str_len body)%Z then str_until max_chars body +s+ CUT_NOTE else body in
  RESULT_TEMPLATE (Z.of_nat (length (qr_rows result))) (qr_total result) (q_offset query) body.
(** [_failure_text] of a [CollectionError] *)
Definition failure_text (failure : Exn) (ref : pystr) : option pystr :=
  match failure with
  | CollectionNotFoundError _ => Some (NOT_FOUND_TEMPLATE ref)
  | CollectionQueryError text | CollectionQuotaError text => Some ("query refused: " +s+ text)
  | _ => None
  end.
Definition answering {A} (raw_ref : pystr) (m : MT A) (k : A -> MT pystr) : MT pystr :=
  let! found := try_except (let! a := m in ret (inl a))
                  (fun e => match failure_text e raw_ref with Some text => ret (inr text) | None => raise e end) in
  match found with inl a => k a | inr text => ret text end.

(** [CollectionQueryTool.execute] *)
Definition collection_query (args : arguments) : MT pystr :=
  if negb visible_to then ret refusal
  else
    let! ref := parse_ref (arg "ref" args) in
    let! query := parse_query args in
    let! asked := parse_int (arg "max_chars" args) (query_default_chars config) "max_chars" in
    answering (raw_ref args) (engine user_id ref query) (fun result =>
      ret (render_result query result (Z.min asked (query_max_chars config)))).
(** [CollectionGetTool.execute] *)
Definition collection_get (args : arguments) : MT pystr :=
  if negb visible_to then ret refusal
  else
    let! ref := parse_ref (arg "ref" args) in
    answering (raw_ref args) (st_passport store user_id ref) (fun passport =>
      let! now := utc_now in
      ret (render_passport json_dumps passport now)).
End Tools.
