(* ===== verification/Templates.v ===== *)
(** * Templates ([net/tool_spec.py]: [collect_refs], [render_template])

    One placeholder language for the parts of a request.  The parser is
    [string.Formatter().parse] of the standard library; its literal pieces,
    which the source joins again, come a character at a time here. *)
From S2P Require Import Prelude PyStr Domain Tariffs.

(** ** [string.Formatter().parse] *)

Definition lbrace : N := 123.
Definition rbrace : N := 125.
Definition lbracket : N := 91.
Definition rbracket : N := 93.
Definition colon : N := 58.
Definition bang : N := 33.
Record field := { f_name : list N; f_spec : list N; f_conversion : option N }.
Inductive token := TLit (c : N) | TField (f : field).
Abbreviation parsed A := (Res pystr A) (only parsing).

(** The name of a field up to its terminator; a bracket hides what it holds. *)
Fixpoint scan_name (bracketed : bool) (l : list N) : parsed (list N * N * list N) :=
  match l with
  | [] => Err ("expected '}' before end of string" : pystr)
  | c :: r =>
      if bracketed then
        let? '(name, stop, rest) := scan_name (negb (c =? rbracket)%N) r in Ok (c :: name, stop, rest)
      else if (c =? lbrace)%N then Err ("unexpected '{' in field name" : pystr)
      else if (c =? rbrace)%N || (c =? colon)%N || (c =? bang)%N then Ok ([], c, r)
      else let? '(name, stop, rest) := scan_name (c =? lbracket)%N r in Ok (c :: name, stop, rest)
  end.
(** The format spec, inside [depth] braces. *)
Fixpoint scan_spec (depth : nat) (l : list N) : parsed (list N * list N) :=
  match l with
  | [] => Err ("unmatched '{' in format spec" : pystr)
  | c :: r =>
      if (c =? rbrace)%N then
        match depth with
        | O => Ok ([], r)
        | S depth => let? '(spec, rest) := scan_spec depth r in Ok (c :: spec, rest)
        end
      else let? '(spec, rest) := scan_spec (if (c =? lbrace)%N then S depth else depth) r in Ok (c :: spec, rest)
  end.
Definition scan_field (l : list N) : parsed (field * list N) :=
  let? '(name, stop, rest) := scan_name false l in
  let spec conversion l :=
    let? '(spec, rest) := scan_spec 0 l in
    Ok ({| f_name := name; f_spec := spec; f_conversion := conversion |}, rest) in
  if (stop =? rbrace)%N then Ok ({| f_name := name; f_spec := []; f_conversion := None |}, rest)
  else if (stop =? colon)%N then spec None rest
  else
    match rest with
    | [] => Err ("end of string while looking for conversion specifier" : pystr)
    | conversion :: rest =>
        match rest with
        | [] => spec (Some conversion) rest
        | c :: after =>
            if (c =? rbrace)%N then Ok ({| f_name := name; f_spec := []; f_conversion := Some conversion |}, after)
            else if (c =? colon)%N then spec (Some conversion) after
            else Err ("expected ':' after conversion specifier" : pystr)
        end
    end.
(** Each step takes a character at least: [fuel] is the length and one. *)
Fixpoint scan (fuel : nat) (l : list N) : parsed (list token) :=
  match fuel with
  | O => Err ("" : pystr)
  | S fuel =>
      match l with
      | [] => Ok []
      | c :: r =>
          if (c =? lbrace)%N then
            match r with
            | [] => Err ("Single '{' encountered in format string" : pystr)
            | d :: after =>
                if (d =? lbrace)%N then let? ts := scan fuel after in Ok (TLit c :: ts)
                else
                  let? '(f, rest) := scan_field r in
                  let? ts := scan fuel rest in Ok (TField f :: ts)
            end
          else if (c =? rbrace)%N then
            match r with
            | d :: after =>
                if (d =? rbrace)%N then let? ts := scan fuel after in Ok (TLit c :: ts)
                else Err ("Single '}' encountered in format string" : pystr)
            | [] => Err ("Single '}' encountered in format string" : pystr)
            end
          else let? ts := scan fuel r in Ok (TLit c :: ts)
      end
  end.
Definition formatter_parse (template : pystr) : parsed (list token) := scan (S (length (codes template))) (codes template).

(** ** References *)

Definition USER_NAMESPACE : pystr := "user".
Definition SECRET_NAMESPACE : pystr := "secret".
Record TemplateRefs := { tr_params : gset pystr; tr_user_params : gset pystr; tr_secrets : gset pystr }.
Definition no_refs : TemplateRefs := {| tr_params := ∅; tr_user_params := ∅; tr_secrets := ∅ |}.
(** [__or__] *)
Definition refs_or (a b : TemplateRefs) : TemplateRefs :=
  {| tr_params := tr_params a ∪ tr_params b; tr_user_params := tr_user_params a ∪ tr_user_params b;
     tr_secrets := tr_secrets a ∪ tr_secrets b |}.
Definition dot : N := 46.
(** [s.partition(".")], when there is a dot *)
Fixpoint partition_dot (l : list N) : option (list N * list N) :=
  match l with
  | [] => None
  | c :: r => if (c =? dot)%N then Some ([], r) else (fun ab => (c :: ab.1, ab.2)) <$> partition_dot r
  end.
Definition spec_error {A} (text : pystr) : Res Exn A := Err (ToolSpecError text).
(** [_validate_ref_code]: the pattern is the one of the plans. *)
Definition validate_ref_code (field_name code : pystr) : Res Exn unit :=
  if CODE_PATTERN code then Ok tt
  else spec_error ("placeholder {" +s+ field_name +s+ "} must reference a code of 1-64 characters of [a-z0-9_]").
(** One field of the loop of [collect_refs]. *)
Inductive reference := RParam (name : pystr) | RUser (code : pystr) | RSecret (code : pystr).
Definition classify (f : field) : Res Exn reference :=
  let name := PyStr (f_name f) in
  if str_empty name then spec_error "empty placeholder {} is not allowed in templates"
  else if negb (str_empty (PyStr (f_spec f))) || bool_decide (is_Some (f_conversion f)) then
    spec_error ("placeholder {" +s+ name +s+ "} carries a format spec or conversion; substitution is verbatim — remove it")
  else
    match partition_dot (f_name f) with
    | None => Ok (RParam name)
    | Some (namespace, code) =>
        if decide (PyStr namespace = USER_NAMESPACE) then
          let? _ := validate_ref_code name (PyStr code) in Ok (RUser (PyStr code))
        else if decide (PyStr namespace = SECRET_NAMESPACE) then
          let? _ := validate_ref_code name (PyStr code) in Ok (RSecret (PyStr code))
        else spec_error ("unknown namespace in placeholder {" +s+ name +s+ "}: only 'user.' and 'secret.' exist")
    end.
Definition refer (r : reference) (refs : TemplateRefs) : TemplateRefs :=
  match r with
  | RParam name => {| tr_params := {[name]} ∪ tr_params refs; tr_user_params := tr_user_params refs; tr_secrets := tr_secrets refs |}
  | RUser code => {| tr_params := tr_params refs; tr_user_params := {[code]} ∪ tr_user_params refs; tr_secrets := tr_secrets refs |}
  | RSecret code => {| tr_params := tr_params refs; tr_user_params := tr_user_params refs; tr_secrets := {[code]} ∪ tr_secrets refs |}
  end.
Fixpoint refs_of (ts : list token) : Res Exn TemplateRefs :=
  match ts with
  | [] => Ok no_refs
  | TLit _ :: ts => refs_of ts
  | TField f :: ts =>
      let? r := classify f in
      let? refs := refs_of ts in
      Ok (refer r refs)
  end.
Definition collect_refs (template : pystr) : Res Exn TemplateRefs :=
  match formatter_parse template with
  | Err text => spec_error ("malformed template: " +s+ text)
  | Ok ts => refs_of ts
  end.

(** ** Rendering *)

Definition values : Type := pystr -> option pystr.
Fixpoint emit (vals : values) (ts : list token) : Res Exn (list N) :=
  match ts with
  | [] => Ok []
  | TLit c :: ts => let? rest := emit vals ts in Ok (c :: rest)
  | TField f :: ts =>
      match vals (PyStr (f_name f)) with
      | None => Err (OtherError "KeyError")
      | Some value => let? rest := emit vals ts in Ok (codes value ++ rest)
      end
  end.
Definition render_template (template : pystr) (vals : values) : Res Exn pystr :=
  match formatter_parse template with
  | Err text => Err (OtherError "ValueError")
  | Ok ts => let? text := emit vals ts in Ok (PyStr text)
  end.

Example rendered :
  render_template "a{{{x}}}/{user.tz}" (fun k => if decide (k = "x") then Some ("1{secret.t}" : pystr) else Some k)
  = Ok ("a{1{secret.t}}/user.tz" : pystr).
Proof. by vm_compute. Qed.

(** ** Laws *)

Lemma scan_name_app b l q name stop rest :
  scan_name b l = Ok (name, stop, rest) -> scan_name b (l ++ q) = Ok (name, stop, rest ++ q) /\ (length rest < length l)%nat.
Proof.
  revert b name. induction l as [|c l IH]; intros b name; cbn [scan_name app length]; [done|].
  assert (Hrec : forall b', (let? '(name, stop, rest) := scan_name b' l in Ok (c :: name, stop, rest)) = Ok (name, stop, rest) ->
    (let? '(name, stop, rest) := scan_name b' (l ++ q) in Ok (c :: name, stop, rest)) = Ok (name, stop, rest ++ q) /\
    (length rest < S (length l))%nat).
  { intros b' H. apply rbind_Ok in H as ([[n0 s0] r0] & H0 & [= <- -> ->]). destruct (IH _ _ H0) as [H1 H2].
    rewrite H1. split; [done|lia]. }
  destruct b; [apply Hrec|]. destruct (c =? lbrace)%N; [done|]. destruct (_ || _ || _); [|apply Hrec].
  intros [= <- <- <-]. split; [done|lia].
Qed.
Lemma scan_spec_app d l q spec rest :
  scan_spec d l = Ok (spec, rest) -> scan_spec d (l ++ q) = Ok (spec, rest ++ q) /\ (length rest < length l)%nat.
Proof.
  revert d spec. induction l as [|c l IH]; intros d spec; cbn [scan_spec app length]; [done|].
  assert (Hrec : forall d', (let? '(spec, rest) := scan_spec d' l in Ok (c :: spec, rest)) = Ok (spec, rest) ->
    (let? '(spec, rest) := scan_spec d' (l ++ q) in Ok (c :: spec, rest)) = Ok (spec, rest ++ q) /\ (length rest < S (length l))%nat).
  { intros d' H. apply rbind_Ok in H as ([s0 r0] & H0 & [= <- ->]). destruct (IH _ _ H0) as [H1 H2].
    rewrite H1. split; [done|lia]. }
  destruct (c =? rbrace)%N; [destruct d; [|apply Hrec]|apply Hrec]. intros [= <- <-]. split; [done|lia].
Qed.
Lemma scan_field_app l q f rest :
  scan_field l = Ok (f, rest) -> scan_field (l ++ q) = Ok (f, rest ++ q) /\ (length rest < length l)%nat.
Proof.
  unfold scan_field. intros H. apply rbind_Ok in H as ([[name stop] r0] & H0 & H).
  destruct (scan_name_app _ _ q _ _ _ H0) as [H1 Hlen]. rewrite H1. cbn [rbind].
  assert (Hspec : forall conv r, (length r <= length r0)%nat ->
    (let? '(spec, rest) := scan_spec 0 r in Ok ({| f_name := name; f_spec := spec; f_conversion := conv |}, rest)) = Ok (f, rest) ->
    (let? '(spec, rest) := scan_spec 0 (r ++ q) in Ok ({| f_name := name; f_spec := spec; f_conversion := conv |}, rest)) = Ok (f, rest ++ q) /\
    (length rest < length l)%nat).
  { intros conv r Hr Hs. apply rbind_Ok in Hs as ([s1 r1] & Hs & [= <- ->]). destruct (scan_spec_app _ _ q _ _ Hs) as [H2 ?].
    rewrite H2. split; [done|lia]. }
  destruct (stop =? rbrace)%N; [by injection H as <- <-|]. destruct (stop =? colon)%N; [by apply Hspec|].
  destruct r0 as [|conv [|c after]]; [done| |].
  - by apply rbind_Ok in H as ([? ?] & ? & ?).
  - cbn [app]. cbn [length] in *. destruct (c =? rbrace)%N; [injection H as <- <-; split; [done|lia]|].
    destruct (c =? colon)%N; [|done]. apply Hspec; [lia|done].
Qed.
Definition brace_free_head (q : list N) : Prop :=
  match q with c :: _ => (c =? lbrace)%N = false /\ (c =? rbrace)%N = false | [] => True end.
(** A parsed text followed by one that starts outside a brace. *)
Lemma scan_app n m l q ts us :
  scan n l = Ok ts -> scan m q = Ok us -> brace_free_head q -> exists k, scan k (l ++ q) = Ok (ts ++ us).
Proof.
  intros Hl Hq Hfree. revert l ts Hl. induction n as [|n IH]; intros l ts; cbn [scan]; [done|].
  destruct l as [|c l]; [intros [= <-]; by exists m|].
  destruct (c =? lbrace)%N eqn:Hlb; [destruct l as [|d after]; [done|]|].
  - destruct (d =? lbrace)%N eqn:Hd; intros H.
    + apply rbind_Ok in H as (ts' & H & [= <-]). destruct (IH _ _ H) as [k Hk]. exists (S k). cbn [scan app]. by rewrite Hlb, Hd, Hk.
    + apply rbind_Ok in H as ([f rest] & Hf & H). apply rbind_Ok in H as (ts' & H & [= <-]).
      destruct (IH _ _ H) as [k Hk]. destruct (scan_field_app _ q _ _ Hf) as [Hf' _]. exists (S k). cbn [scan app].
      rewrite Hlb, Hd. cbn [app] in Hf'. rewrite Hf'. cbn [rbind]. by rewrite Hk.
  - destruct (c =? rbrace)%N eqn:Hrb; intros H.
    + destruct l as [|d after]; [done|]. destruct (d =? rbrace)%N eqn:Hd; [|done].
      apply rbind_Ok in H as (ts' & H & [= <-]). destruct (IH _ _ H) as [k Hk]. exists (S k). cbn [scan app]. by rewrite Hlb, Hrb, Hd, Hk.
    + apply rbind_Ok in H as (ts' & H & [= <-]). destruct (IH _ _ H) as [k Hk]. exists (S k). cbn [scan app]. by rewrite Hlb, Hrb, Hk.
Qed.
Lemma scan_enough n m l : (length l < n)%nat -> (length l < m)%nat -> scan n l = scan m l.
Proof.
  revert m l. induction n as [|n IH]; intros [|m] l Hn Hm; [lia..|]. cbn [scan].
  destruct l as [|c l]; [done|]. cbn [length] in *. destruct (c =? lbrace)%N; [destruct l as [|d after]; [done|]|].
  - cbn [length] in *. destruct (d =? lbrace)%N; [by rewrite (IH m after) by lia|].
    destruct (scan_field (d :: after)) as [[f rest]|e] eqn:Hf; [|done]. cbn [rbind].
    destruct (scan_field_app _ [] _ _ Hf) as [_ Hlen]. cbn [length] in Hlen. by rewrite (IH m rest) by lia.
  - destruct (c =? rbrace)%N; [|by rewrite (IH m l) by lia].
    destruct l as [|d after]; [done|]. cbn [length] in *. destruct (d =? rbrace)%N; [by rewrite (IH m after) by lia|done].
Qed.
Lemma scan_more n l ts : scan n l = Ok ts -> scan (S (length l)) l = Ok ts.
Proof.
  intros H. destruct (Nat.lt_ge_cases (length l) n) as [Hn|Hn]; [by rewrite (scan_enough _ n) by lia|].
  revert l ts H Hn. induction n as [|n IH]; intros l ts H Hn; [done|]. rename IH into IH0.
  assert (IH : forall r ts, scan n r = Ok ts -> forall k, (length r < k)%nat -> scan k r = Ok ts).
  { intros r ts0 Hr k Hk. rewrite (scan_enough k (S (length r))) by lia.
    destruct (Nat.lt_ge_cases (length r) n); [by rewrite (scan_enough _ n) by lia|]. by apply IH0. }
  cbn [scan] in H |- *. destruct l as [|c l]; [done|]. cbn [length] in *.
  destruct (c =? lbrace)%N; [destruct l as [|d after]; [done|]|].
  - cbn [length] in *. destruct (d =? lbrace)%N.
    + apply rbind_Ok in H as (ts' & H & [= <-]). by rewrite (IH _ _ H) by lia.
    + apply rbind_Ok in H as ([f rest] & Hf & H). apply rbind_Ok in H as (ts' & H & [= <-]). rewrite Hf. cbn [rbind].
      destruct (scan_field_app _ [] _ _ Hf) as [_ Hlen]. cbn [length] in Hlen. by rewrite (IH _ _ H) by lia.
  - destruct (c =? rbrace)%N.
    + destruct l as [|d after]; [done|]. cbn [length] in *. destruct (d =? rbrace)%N; [|done].
      apply rbind_Ok in H as (ts' & H & [= <-]). by rewrite (IH _ _ H) by lia.
    + apply rbind_Ok in H as (ts' & H & [= <-]). by rewrite (IH _ _ H) by lia.
Qed.
(** A text that parses, followed by one that starts outside a brace, parses to
    the tokens of both. *)
Lemma parse_app p q ts us :
  formatter_parse (PyStr p) = Ok ts -> formatter_parse (PyStr q) = Ok us -> brace_free_head q ->
  formatter_parse (PyStr (p ++ q)) = Ok (ts ++ us).
Proof.
  unfold formatter_parse. cbn [codes]. intros Hp Hq Hfree. destruct (scan_app _ _ _ _ _ _ Hp Hq Hfree) as [k Hk].
  by apply scan_more in Hk.
Qed.
(** The same, read backwards: a whole that parses, whose first part does. *)
Lemma scan_app_inv n m k l q ts all :
  scan n l = Ok ts -> scan m (l ++ q) = Ok all -> brace_free_head q -> (length q < k)%nat ->
  exists us, scan k q = Ok us /\ all = ts ++ us.
Proof.
  intros Hl Hall Hfree Hk. destruct (scan k q) as [us|e] eqn:Hq.
  - destruct (scan_app _ _ _ _ _ _ Hl Hq Hfree) as [j Hj]. exists us. split; [done|].
    apply scan_more in Hall, Hj. congruence.
  - exfalso. revert m l ts all Hl Hall. induction n as [|n IH]; intros m l ts all; cbn [scan]; [done|].
    destruct l as [|c l]; [intros _ Hall|].
    { cbn [app] in Hall. apply scan_more in Hall. rewrite (scan_enough _ k) in Hall by lia. congruence. }
    intros Hl Hall. destruct m as [|m]; [done|]. cbn [scan app] in Hall.
    destruct (c =? lbrace)%N; [destruct l as [|d after]; [done|]|].
    + cbn [app] in Hall. destruct (d =? lbrace)%N.
      * apply rbind_Ok in Hl as (? & Hl & _), Hall as (? & Hall & _). eauto.
      * apply rbind_Ok in Hl as ([f rest] & Hf & Hl). destruct (scan_field_app _ q _ _ Hf) as [Hf' _]. cbn [app] in Hf'.
        rewrite Hf' in Hall. cbn [rbind] in Hall. apply rbind_Ok in Hl as (? & Hl & _), Hall as (? & Hall & _). eauto.
    + destruct (c =? rbrace)%N.
      * destruct l as [|d after]; [done|]. cbn [app] in Hall. destruct (d =? rbrace)%N; [|done].
        apply rbind_Ok in Hl as (? & Hl & _), Hall as (? & Hall & _). eauto.
      * apply rbind_Ok in Hl as (? & Hl & _), Hall as (? & Hall & _). eauto.
Qed.
Lemma emit_app vals ts us :
  emit vals (ts ++ us) = let? a := emit vals ts in let? b := emit vals us in Ok (a ++ b).
Proof.
  induction ts as [|[c|f] ts IH]; cbn [emit app].
  - by destruct (emit vals us).
  - rewrite IH. destruct (emit vals ts); cbn [rbind]; [|done]. by destruct (emit vals us).
  - destruct (vals _) as [v|]; [|done]. rewrite IH. destruct (emit vals ts); cbn [rbind]; [|done].
    destruct (emit vals us); cbn [rbind]; [|done]. by rewrite <- app_assoc.
Qed.
(** Two sources of values that agree on the fields give the same text. *)
Lemma emit_ext v1 v2 ts :
  (forall f, TField f ∈ ts -> v1 (PyStr (f_name f)) = v2 (PyStr (f_name f))) -> emit v1 ts = emit v2 ts.
Proof.
  induction ts as [|[c|f] ts IH]; intros H; cbn [emit]; [done| |].
  - rewrite IH; [done|]. intros f Hf. apply H. by right.
  - rewrite (H f) by left. rewrite IH; [done|]. intros g Hg. apply H. by right.
Qed.

(** The name a reference is looked up by. *)
Definition full_name (r : reference) : pystr :=
  match r with
  | RParam name => name
  | RUser code => USER_NAMESPACE +s+ "." +s+ code
  | RSecret code => SECRET_NAMESPACE +s+ "." +s+ code
  end.
Definition in_refs (r : reference) (refs : TemplateRefs) : Prop :=
  match r with
  | RParam name => name ∈ tr_params refs
  | RUser code => code ∈ tr_user_params refs
  | RSecret code => code ∈ tr_secrets refs
  end.
Lemma partition_dot_eq l a b : partition_dot l = Some (a, b) -> l = a ++ dot :: b.
Proof.
  revert a. induction l as [|c l IH]; intros a; cbn [partition_dot]; [done|]. destruct (N.eqb_spec c dot) as [->|Hc].
  - by intros [= <- <-].
  - destruct (partition_dot l) as [[a' b']|]; [|done]. intros [= <- <-]. cbn. by rewrite (IH a' eq_refl) at 1.
Qed.
Lemma classify_name f r : classify f = Ok r -> PyStr (f_name f) = full_name r.
Proof.
  unfold classify. destruct (str_empty _); [done|]. destruct (_ || _); [done|].
  destruct (partition_dot (f_name f)) as [[ns code]|] eqn:Hp; [|by intros [= <-]].
  apply partition_dot_eq in Hp. rewrite Hp. case_decide as H1; [|case_decide as H2; [|done]].
  - intros H. apply rbind_Ok in H as (_ & _ & [= <-]). cbn [full_name]. rewrite <- H1. unfold str_app. f_equal.
  - intros H. apply rbind_Ok in H as (_ & _ & [= <-]). cbn [full_name]. rewrite <- H2. unfold str_app. f_equal.
Qed.
Lemma refs_of_in ts refs f : refs_of ts = Ok refs -> TField f ∈ ts -> exists r, classify f = Ok r /\ in_refs r refs.
Proof.
  revert refs. induction ts as [|[c|g] ts IH]; intros refs; cbn [refs_of].
  - intros _ Hf. by apply not_elem_of_nil in Hf.
  - intros H [?|Hf]%elem_of_cons; [done|]. by apply IH.
  - intros H Hf. apply rbind_Ok in H as (r & Hr & H). apply rbind_Ok in H as (refs' & H & [= <-]).
    apply elem_of_cons in Hf as [[= <-]|Hf].
    + exists r. split; [done|]. destruct r; cbn; set_solver.
    + destruct (IH _ H Hf) as (r' & Hr' & Hin). exists r'. split; [done|]. destruct r, r'; cbn in *; set_solver.
Qed.
Lemma refs_of_app ts us refs :
  refs_of (ts ++ us) = Ok refs -> exists a b, refs_of ts = Ok a /\ refs_of us = Ok b /\ forall r, in_refs r refs <-> in_refs r a \/ in_refs r b.
Proof.
  revert refs. induction ts as [|[c|f] ts IH]; intros refs; cbn [refs_of app].
  - intros H. exists no_refs, refs. split_and!; [done|done|]. intros r. split; [by right|]. intros [H'|]; [|done].
    destruct r; cbn in H'; set_solver.
  - apply IH.
  - intros H. apply rbind_Ok in H as (r & Hr & H). apply rbind_Ok in H as (refs' & H & [= <-]).
    destruct (IH _ H) as (a & b & Ha & Hb & Hab). exists (refer r a), b. rewrite Hr, Ha. cbn [rbind]. split_and!; [done|done|].
    intros r'. specialize (Hab r'). destruct r, r'; cbn in *; set_solver.
Qed.
(** Rendering never misses a field whose references are all given a value. *)
Lemma emit_total vals ts refs :
  refs_of ts = Ok refs -> (forall r, in_refs r refs -> is_Some (vals (full_name r))) -> exists text, emit vals ts = Ok text.
Proof.
  revert refs. induction ts as [|[c|f] ts IH]; intros refs; cbn [refs_of emit]; [by eexists| |].
  - intros H Hv. destruct (IH _ H Hv) as [text ->]. by eexists.
  - intros H Hv. apply rbind_Ok in H as (r & Hr & H). apply rbind_Ok in H as (refs' & H & [= <-]).
    rewrite (classify_name _ _ Hr). destruct (Hv r) as [v ->]; [destruct r; cbn; set_solver|].
    destruct (IH _ H) as [text ->]; [|by eexists]. intros r' Hin. apply Hv. destruct r, r'; cbn in *; set_solver.
Qed.
