(* ===== verification/Guard.v ===== *)
(** * The SSRF guard ([net/guard.py]) and the URLs it judges

    First what is used of [urllib.parse] and [ipaddress]: [quote], the scheme,
    host and port of [urlsplit], and the predicates of an address.  Of the checks [urlsplit] makes on a host, two are parameters:
    what is written in brackets, and the NFKC form of a host beyond ASCII. *)
From S2P Require Import Prelude PyStr Sql Domain Secrets.

(** ** [quote(value, safe="")] *)

Definition hex_digit (n : N) : N := if (n <? 10)%N then (48 + n)%N else (55 + n)%N.
Definition unreserved (c : N) : bool :=
  ((97 <=? c) && (c <=? 122) || (65 <=? c) && (c <=? 90) || (48 <=? c) && (c <=? 57) ||
   (c =? 95) || (c =? 46) || (c =? 45) || (c =? 126))%N.
Definition quote_byte (b : N) : list N :=
  if unreserved b then [b] else [37; hex_digit (b / 16); hex_digit (b mod 16)]%N.
Definition quote_codes (value : pystr) : list N := concat (quote_byte <$> utf8 value).
Definition quote (value : pystr) : pystr := PyStr (quote_codes value).

(** ** [urlsplit] *)

Definition is_alpha (c : N) : bool := ((97 <=? c) && (c <=? 122) || (65 <=? c) && (c <=? 90))%N.
Definition is_digit (c : N) : bool := ((48 <=? c) && (c <=? 57))%N.
Definition scheme_char (c : N) : bool := is_alpha c || is_digit c || (c =? 43)%N || (c =? 45)%N || (c =? 46)%N.
Definition lower_ascii (c : N) : N := if ((65 <=? c) && (c <=? 90))%N then (c + 32)%N else c.
Fixpoint lstrip_control (l : list N) : list N :=
  match l with c :: r => if (c <=? 32)%N then lstrip_control r else l | [] => [] end.
Definition unsafe_byte (c : N) : bool := ((c =? 9) || (c =? 10) || (c =? 13))%N.
Definition clean (l : list N) : list N := List.filter (fun c => negb (unsafe_byte c)) (lstrip_control l).
(** The text before the first [c], and what follows it. *)
Fixpoint cut_at (c : N) (l : list N) : option (list N * list N) :=
  match l with
  | [] => None
  | x :: r => if (x =? c)%N then Some ([], r) else (fun ab => (x :: ab.1, ab.2)) <$> cut_at c r
  end.
Definition url_scheme (l : list N) : list N * list N :=
  match cut_at 58 l with
  | Some (pre, post) =>
      match pre with
      | c :: _ => if is_alpha c && forallb scheme_char pre then (lower_ascii <$> pre, post) else ([], l)
      | [] => ([], l)
      end
  | None => ([], l)
  end.
Definition is_delimiter (c : N) : bool := ((c =? 47) || (c =? 63) || (c =? 35))%N.
Fixpoint until_delimiter (l : list N) : list N :=
  match l with c :: r => if is_delimiter c then [] else c :: until_delimiter r | [] => [] end.
Definition url_netloc (l : list N) : list N :=
  match l with
  | a :: b :: r => if ((a =? 47) && (b =? 47))%N then until_delimiter r else []
  | _ => []
  end.
Definition has (c : N) (l : list N) : bool := existsb (N.eqb c) l.
Section Split.
(** What [_check_bracketed_netloc] and [_checknetloc] accept; [str.lower]. *)
Context (bracketed_ok : list N -> bool) (nfkc_ok : list N -> bool) (str_lower : pystr -> pystr).

Record SplitResult := { sr_scheme : pystr; sr_netloc : list N }.
Definition netloc_ok (netloc : list N) : bool :=
  Bool.eqb (has 91 netloc) (has 93 netloc) &&
  (negb (has 91 netloc) || bracketed_ok netloc) &&
  (forallb (fun c => (c <? 128)%N) netloc || nfkc_ok netloc).
(** [None] is the [ValueError] of [urlsplit]. *)
Definition urlsplit (url : pystr) : option SplitResult :=
  let '(scheme, rest) := url_scheme (clean (codes url)) in
  let netloc := url_netloc rest in
  if netloc_ok netloc then Some {| sr_scheme := PyStr scheme; sr_netloc := netloc |} else None.

(** [_hostinfo]: after the last [@]; the port is [None] when there is none. *)
Fixpoint after_last (c : N) (l : list N) : list N :=
  match cut_at c l with
  | None => l
  | Some _ => match l with [] => [] | _ :: r => after_last c r end
  end.
Definition none_if_empty (l : list N) : option (list N) := match l with [] => None | _ => Some l end.
Definition hostinfo (netloc : list N) : list N * option (list N) :=
  let info := after_last 64 netloc in
  match cut_at 91 info with
  | Some (_, inside) =>
      match cut_at 93 inside with
      | Some (host, after) =>
          (host, match cut_at 58 after with Some (_, port) => none_if_empty port | None => None end)
      | None => (inside, None)
      end
  | None =>
      match cut_at 58 info with
      | Some (host, port) => (host, none_if_empty port)
      | None => (info, None)
      end
  end.
(** [.hostname]: lower case, but for the zone of a scoped address. *)
Definition hostname (r : SplitResult) : option pystr :=
  match (hostinfo (sr_netloc r)).1 with
  | [] => None
  | host =>
      match cut_at 37 host with
      | Some (name, zone) => Some (str_lower (PyStr name) +s+ "%" +s+ PyStr zone)
      | None => Some (str_lower (PyStr host))
      end
  end.
Definition digits_value (l : list N) : Z := foldl (fun n c => n * 10 + Z.of_N (c - 48))%Z 0%Z l.
(** [.port]: [None] is its [ValueError]. *)
Definition port (r : SplitResult) : option (option Z) :=
  match (hostinfo (sr_netloc r)).2 with
  | None => Some None
  | Some text =>
      if forallb is_digit text then
        let n := digits_value text in if (n <=? 65535)%Z then Some (Some n) else None
      else None
  end.
End Split.

(** ** Laws *)

Definition contains (w l : list N) : Prop := exists a b, l = a ++ w ++ b.
Definition scheme_sep : list N := [58; 47; 47]%N.

Lemma until_delimiter_stop a c b : is_delimiter c = true -> until_delimiter (a ++ c :: b) = until_delimiter a.
Proof. intros Hc. induction a as [|x a IH]; cbn; [by rewrite Hc|]. by rewrite IH. Qed.
Lemma lstrip_control_app a b : Exists (fun c => (c <=? 32)%N = false) a -> lstrip_control (a ++ b) = lstrip_control a ++ b.
Proof.
  induction a as [|c a IH]; intros H; [by inversion H|]. cbn. destruct (c <=? 32)%N eqn:Hc; [|done].
  apply IH. inversion H; congruence.
Qed.
Lemma lstrip_control_suffix a : exists k, lstrip_control a = drop k a /\ Forall (fun c => (c <=? 32)%N = true) (take k a).
Proof.
  induction a as [|c a [k [IH1 IH2]]]; [by exists 0%nat|]. cbn. destruct (c <=? 32)%N eqn:Hc; [|by exists 0%nat].
  exists (S k). cbn. by split; [|constructor].
Qed.
Lemma clean_contains a b :
  contains scheme_sep a -> clean (a ++ b) = clean a ++ List.filter (fun c => negb (unsafe_byte c)) b /\ contains scheme_sep (clean a).
Proof.
  intros (p & q & ->). unfold clean.
  assert (Hex : Exists (fun c => (c <=? 32)%N = false) (p ++ scheme_sep ++ q)).
  { apply Exists_app. right. apply Exists_app. left. by left. }
  rewrite lstrip_control_app by done. rewrite List.filter_app. split; [done|].
  assert (Hl : exists p', lstrip_control (p ++ scheme_sep ++ q) = p' ++ scheme_sep ++ q).
  { clear Hex. induction p as [|c p [p' IH]]; [by exists []|]. cbn. destruct (c <=? 32)%N; [by exists p'|by exists (c :: p)]. }
  destruct Hl as [p' ->]. rewrite !List.filter_app. by eexists _, _.
Qed.
Lemma cut_at_app c l r a b : cut_at c l = Some (a, b) -> cut_at c (l ++ r) = Some (a, b ++ r).
Proof.
  revert a. induction l as [|x l IH]; intros a; cbn; [done|]. destruct (x =? c)%N; [by intros [= <- <-]|].
  destruct (cut_at c l) as [[a' b']|]; [|done]. intros [= <- <-]. by rewrite (IH a' eq_refl).
Qed.
Lemma cut_at_sep l : contains scheme_sep l -> exists a b, cut_at 58 l = Some (a, b) /\ (2 <= length b)%nat.
Proof.
  intros (p & q & ->). induction p as [|c p (a & b & IH & Hb)]; cbn.
  - eexists _, _. split; [done|]. cbn. lia.
  - destruct (N.eqb_spec c 58) as [->|Hc].
    + eexists _, _. split; [done|]. rewrite !length_app. cbn. lia.
    + cbn in IH. rewrite IH. by eexists _, _.
Qed.
(** The scheme and the host of a URL stand before the first slash after the
    separator; what follows that slash does not change them. *)
Lemma urlsplit_prefix bracketed_ok nfkc_ok a rest :
  contains scheme_sep a ->
  urlsplit bracketed_ok nfkc_ok (PyStr (a ++ 47%N :: rest)) = urlsplit bracketed_ok nfkc_ok (PyStr a).
Proof.
  intros Hsep. unfold urlsplit. cbn [codes]. destruct (clean_contains a (47%N :: rest) Hsep) as [-> Hc].
  set (l := clean a) in *. cbn [List.filter]. change (negb (unsafe_byte 47)) with true. cbn iota.
  set (r := List.filter _ rest). destruct (cut_at_sep l Hc) as (pre & post & Hcut & Hlen).
  assert (Hnet : forall x, (2 <= length x)%nat -> url_netloc (x ++ 47%N :: r) = url_netloc x).
  { intros [|x1 [|x2 x]] Hx; cbn in Hx; [lia..|]. cbn. destruct (_ && _); [|done]. by apply until_delimiter_stop. }
  assert (Hl2 : (2 <= length l)%nat).
  { destruct Hc as (p & q & ->). rewrite !length_app. cbn. lia. }
  unfold url_scheme. rewrite (cut_at_app _ _ _ _ _ Hcut), Hcut. destruct pre as [|c pre]; [by rewrite Hnet|].
  destruct (_ && _); by rewrite Hnet.
Qed.

(** ** Addresses ([ipaddress])

    An address is its number; a network is the number of its base and the
    length of its prefix.  The tables are those of the registries the standard
    library carries. *)
Inductive ip := V4 (n : Z) | V6 (n : Z).
Definition in_network (width n : Z) (network : Z * Z) : bool :=
  (Z.shiftr n (width - network.2) =? Z.shiftr network.1 (width - network.2))%Z.
Definition in_any (width n : Z) (networks : list (Z * Z)) : bool := existsb (in_network width n) networks.
Definition v4 (a b c d : Z) : Z := (((a * 256 + b) * 256 + c) * 256 + d)%Z.
(** [a:b:c::/..]: the first three groups *)
Definition v6 (a b c : Z) : Z := Z.shiftl ((a * 65536 + b) * 65536 + c) 80.
Definition private_v4 : list (Z * Z) :=
  [(v4 0 0 0 0, 8); (v4 10 0 0 0, 8); (v4 127 0 0 0, 8); (v4 169 254 0 0, 16); (v4 172 16 0 0, 12); (v4 192 0 0 0, 24);
   (v4 192 0 0 170, 31); (v4 192 0 2 0, 24); (v4 192 168 0 0, 16); (v4 198 18 0 0, 15); (v4 198 51 100 0, 24);
   (v4 203 0 113 0, 24); (v4 240 0 0 0, 4); (v4 255 255 255 255, 32)]%Z.
Definition private_exceptions_v4 : list (Z * Z) := [(v4 192 0 0 9, 32); (v4 192 0 0 10, 32)]%Z.
Definition private_v6 : list (Z * Z) :=
  [(1, 128); (0, 128); (Z.shiftl 65535 32, 96); (v6 100 65435 1, 48); (v6 256 0 0, 64); (v6 8193 0 0, 23);
   (v6 8193 3512 0, 32); (v6 8194 0 0, 16); (v6 64512 0 0, 7); (v6 65152 0 0, 10)]%Z.
Definition private_exceptions_v6 : list (Z * Z) :=
  [(v6 8193 1 0 + 1, 128); (v6 8193 1 0 + 2, 128); (v6 8193 3 0, 32); (v6 8193 4 274, 48); (v6 8193 32 0, 28);
   (v6 8193 48 0, 28)]%Z.
Definition reserved_v6 : list (Z * Z) :=
  [(v6 0 0 0, 8); (v6 256 0 0, 8); (v6 512 0 0, 7); (v6 1024 0 0, 6); (v6 2048 0 0, 5); (v6 4096 0 0, 4); (v6 16384 0 0, 3);
   (v6 24576 0 0, 3); (v6 32768 0 0, 3); (v6 40960 0 0, 3); (v6 49152 0 0, 3); (v6 57344 0 0, 4); (v6 61440 0 0, 5);
   (v6 63488 0 0, 6); (v6 65024 0 0, 9)]%Z.
Definition private_ip4 (n : Z) : bool := in_any 32 n private_v4 && negb (in_any 32 n private_exceptions_v4).
(** [ipv4_mapped] *)
Definition ipv4_mapped (n : Z) : option Z :=
  if (Z.shiftr n 32 =? 65535)%Z then Some (Z.land n (2 ^ 32 - 1)) else None.
Definition is_private (a : ip) : bool :=
  match a with
  | V4 n => private_ip4 n
  | V6 n => match ipv4_mapped n with
            | Some m => private_ip4 m
            | None => in_any 128 n private_v6 && negb (in_any 128 n private_exceptions_v6)
            end
  end.
Definition is_loopback (a : ip) : bool := match a with V4 n => in_network 32 n (v4 127 0 0 0, 8)%Z | V6 n => (n =? 1)%Z end.
Definition is_link_local (a : ip) : bool :=
  match a with V4 n => in_network 32 n (v4 169 254 0 0, 16)%Z | V6 n => in_network 128 n (v6 65152 0 0, 10)%Z end.
Definition is_multicast (a : ip) : bool :=
  match a with V4 n => in_network 32 n (v4 224 0 0 0, 4)%Z | V6 n => in_network 128 n (v6 65280 0 0, 8)%Z end.
Definition is_reserved (a : ip) : bool :=
  match a with V4 n => in_network 32 n (v4 240 0 0 0, 4)%Z | V6 n => in_any 128 n reserved_v6 end.
Definition is_unspecified (a : ip) : bool := match a with V4 n | V6 n => (n =? 0)%Z end.
Definition is_global (a : ip) : bool :=
  match a with
  | V4 n => negb (in_network 32 n (v4 100 64 0 0, 10)%Z) && negb (is_private a)
  | V6 _ => negb (is_private a)
  end.
Definition ip_valid (a : ip) : Prop := match a with V4 n => (0 <= n < 2 ^ 32)%Z | V6 n => (0 <= n < 2 ^ 128)%Z end.

(** A network is an interval. *)
Lemma in_network_spec width n base len :
  (0 <= len <= width)%Z -> (base mod 2 ^ (width - len) = 0)%Z ->
  in_network width n (base, len) = true <-> (base <= n < base + 2 ^ (width - len))%Z.
Proof.
  intros Hlen Hbase. unfold in_network. cbn [fst snd]. rewrite Z.eqb_eq, !Z.shiftr_div_pow2 by lia.
  assert (Hp : (0 < 2 ^ (width - len))%Z) by (apply Z.pow_pos_nonneg; lia).
  set (m := (2 ^ (width - len))%Z) in *. pose proof (Z.div_mod base m ltac:(lia)) as Hb. rewrite Hbase in Hb.
  pose proof (Z.div_mod n m ltac:(lia)) as Hn. pose proof (Z.mod_pos_bound n m Hp). split; [intros H'; nia|].
  intros [H1 H2]. assert (m * (base / m) <= n < m * (base / m) + m)%Z as [H3 H4] by lia.
  apply Z.le_antisymm; [apply Z.lt_succ_r; nia|nia].
Qed.

(** ** The SSRF guard ([net/guard.py] *)

(** Which URLs may be fetched: the origin allowlist, and the predicates of
    every address the host resolves to.  The resolver is a parameter. *)
Definition ALLOWED_SCHEMES : list pystr := ["http"; "https"].
Definition DEFAULT_PORTS (scheme : pystr) : Z := if decide (scheme = "http") then 80 else 443.
Record UrlOrigin := { uo_scheme : pystr; uo_host : pystr; uo_port : Z }.
#[export] Instance url_origin_eq_dec : EqDecision UrlOrigin := ltac:(solve_decision).

(** [_is_blocked] *)
Definition is_blocked (a : ip) : bool :=
  is_private a || is_loopback a || is_link_local a || is_multicast a || is_reserved a || is_unspecified a || negb (is_global a).

Section Guard.
Context (bracketed_ok nfkc_ok : list N -> bool) (str_lower : pystr -> pystr) (repr : pystr -> pystr).
(** [ipaddress.ip_address]: [None] is its [ValueError]. *)
Context (ip_address : pystr -> option ip).

Definition parse_origin (url : pystr) : option UrlOrigin :=
  match urlsplit bracketed_ok nfkc_ok url with
  | None => None
  | Some parts =>
      match port parts with
      | None => None
      | Some p =>
          if bool_decide (sr_scheme parts ∈ ALLOWED_SCHEMES) then
            match hostname str_lower parts with
            | None => None
            | Some host =>
                Some {| uo_scheme := sr_scheme parts; uo_host := host;
                        uo_port := default (DEFAULT_PORTS (sr_scheme parts)) p |}
            end
          else None
      end
  end.
Definition matches_url_prefix (url prefix : pystr) : bool :=
  match parse_origin url with
  | None => false
  | Some origin => bool_decide (Some origin = parse_origin prefix)
  end.

Section Check.
(** [HostResolver.resolve]: [None] is its [OSError]. *)
Context {S : Type} (resolve : pystr -> M S Exn (option (list pystr))).
Record SsrfGuard := { sg_allowed_origins : list UrlOrigin }.
(** [__init__], with [_allowlisted_origin] *)
Fixpoint allowlisted_origins (prefixes : list pystr) : Res Exn (list UrlOrigin) :=
  match prefixes with
  | [] => Ok []
  | prefix :: prefixes =>
      match parse_origin prefix with
      | None => Err (OtherError ("allowed prefix is not an http(s) origin: " +s+ repr prefix))
      | Some origin => let? rest := allowlisted_origins prefixes in Ok (origin :: rest)
      end
  end.
Definition new_guard (prefixes : list pystr) : Res Exn SsrfGuard :=
  let? origins := allowlisted_origins prefixes in Ok {| sg_allowed_origins := origins |}.
Definition blocked {A} (text : pystr) : M S Exn A := raise (SsrfBlockedError text).
Fixpoint check_addresses (url : pystr) (addresses : list pystr) : M S Exn unit :=
  match addresses with
  | [] => ret tt
  | address :: addresses =>
      match ip_address address with
      | None => raise (OtherError "ValueError")
      | Some a =>
          if is_blocked a then blocked ("url resolves to a non-public address: " +s+ url)
          else check_addresses url addresses
      end
  end.
Definition check (guard : SsrfGuard) (url : pystr) : M S Exn unit :=
  match parse_origin url with
  | None => blocked ("url is not a valid http(s) url: " +s+ url)
  | Some origin =>
      if bool_decide (origin ∈ sg_allowed_origins guard) then ret tt
      else
        let! addresses := resolve (uo_host origin) in
        match addresses with
        | None | Some [] => blocked ("host does not resolve: " +s+ uo_host origin)
        | Some addresses => check_addresses url addresses
        end
  end.
End Check.
End Guard.

(** ** Laws *)

(** The IPv4 addresses a request may go to, as a list of what is left out. *)
Definition blocked_ranges_v4 : list (Z * Z) :=
  [(v4 0 0 0 0, v4 0 255 255 255); (v4 10 0 0 0, v4 10 255 255 255); (v4 100 64 0 0, v4 100 127 255 255);
   (v4 127 0 0 0, v4 127 255 255 255); (v4 169 254 0 0, v4 169 254 255 255); (v4 172 16 0 0, v4 172 31 255 255);
   (v4 192 0 0 0, v4 192 0 0 8); (v4 192 0 0 11, v4 192 0 0 255); (v4 192 0 2 0, v4 192 0 2 255);
   (v4 192 168 0 0, v4 192 168 255 255); (v4 198 18 0 0, v4 198 19 255 255); (v4 198 51 100 0, v4 198 51 100 255);
   (v4 203 0 113 0, v4 203 0 113 255); (v4 224 0 0 0, v4 255 255 255 255)]%Z.
Definition in_range (n : Z) (r : Z * Z) : bool := (r.1 <=? n)%Z && (n <=? r.2)%Z.

Lemma in_network_bool n base len :
  (0 <= len <= 32)%Z -> (base mod 2 ^ (32 - len) =? 0)%Z = true ->
  in_network 32 n (base, len) = in_range n (base, base + 2 ^ (32 - len) - 1)%Z.
Proof.
  intros Hl Hb. apply Bool.eq_iff_eq_true. rewrite in_network_spec by lia. unfold in_range. cbn [fst snd].
  rewrite andb_true_iff, !Z.leb_le. lia.
Qed.
(** Comparisons of [n] with constants, where bounds on [n] decide them. *)
Ltac decide_leb n :=
  repeat match goal with
  | |- context [(?a <=? n)%Z] =>
      first [ replace (a <=? n)%Z with true by (symmetry; apply Z.leb_le; lia)
            | replace (a <=? n)%Z with false by (symmetry; apply Z.leb_gt; lia) ]
  | |- context [(n <=? ?a)%Z] =>
      first [ replace (n <=? a)%Z with true by (symmetry; apply Z.leb_le; lia)
            | replace (n <=? a)%Z with false by (symmetry; apply Z.leb_gt; lia) ]
  end.
Ltac split_at n ts :=
  lazymatch ts with
  | [] => decide_leb n; reflexivity
  | ?t :: ?ts => let H := fresh "H" in destruct (Z.lt_ge_cases n t) as [H|H]; [decide_leb n; reflexivity|split_at n ts]
  end.
(** Where one range ends or begins, and where two tables meet inside one. *)
Definition boundaries : list Z :=
  Eval vm_compute in order_by id ((v4 192 0 0 10 :: v4 240 0 0 0 :: concat ((fun r => [r.1; r.2 + 1]) <$> blocked_ranges_v4))%Z).

(** An IPv4 address is blocked exactly when it is in one of the ranges listed: the seven predicates leave nothing out between them. *)
Theorem blocked_v4 n : (0 <= n < 2 ^ 32)%Z -> is_blocked (V4 n) = existsb (in_range n) blocked_ranges_v4.
Proof.
  intros Hn. change (2 ^ 32)%Z with 4294967296%Z in Hn.
  unfold is_blocked, is_global, is_private, private_ip4, is_loopback, is_link_local, is_multicast, is_reserved, is_unspecified,
    in_any, private_v4, private_exceptions_v4. cbn [existsb].
  rewrite !in_network_bool by (try lia; vm_compute; reflexivity).
  replace (n =? 0)%Z with (in_range n (0, 0)%Z).
  2:{ unfold in_range. cbn [fst snd]. apply Bool.eq_iff_eq_true. rewrite andb_true_iff, !Z.leb_le, Z.eqb_eq. lia. }
  cbv -[Z.leb Z.le Z.lt Z.ge]. let ts := eval vm_compute in boundaries in split_at n ts.
Qed.

Lemma in_network_v6 n base len :
  (0 <= len <= 128)%Z -> (base mod 2 ^ (128 - len) =? 0)%Z = true ->
  in_network 128 n (base, len) = in_range n (base, base + 2 ^ (128 - len) - 1)%Z.
Proof.
  intros Hl Hb. apply Bool.eq_iff_eq_true. rewrite in_network_spec by lia. unfold in_range. cbn [fst snd].
  rewrite andb_true_iff, !Z.leb_le. lia.
Qed.
(** Global unicast, and the site-local addresses of old. *)
Definition left_open_v6 : list (Z * Z) :=
  [(v6 8192 0 0, v6 16384 0 0 - 1); (v6 65216 0 0, v6 65280 0 0 - 1)]%Z.
Definition boundaries_v6 : list Z :=
  Eval vm_compute in order_by id ([v6 64512 0 0; v6 65152 0 0; v6 65024 0 0; v6 63488 0 0; v6 61440 0 0; v6 57344 0 0;
    v6 49152 0 0; v6 40960 0 0; v6 32768 0 0; v6 24576 0 0; v6 4096 0 0; v6 2048 0 0; v6 1024 0 0; v6 512 0 0; v6 256 0 0]
    ++ concat ((fun r => [r.1; r.2 + 1]) <$> left_open_v6))%Z.
(** What is neither reserved, unique local, link-local nor multicast. *)
Lemma v6_classes n :
  (0 <= n < 2 ^ 128)%Z ->
  (in_any 128 n reserved_v6 || in_network 128 n (v6 64512 0 0, 7)%Z || is_link_local (V6 n) || is_multicast (V6 n)) =
  negb (existsb (in_range n) left_open_v6).
Proof.
  intros Hn. change (2 ^ 128)%Z with 340282366920938463463374607431768211456%Z in Hn.
  unfold is_link_local, is_multicast, in_any, reserved_v6. cbn [existsb].
  rewrite !in_network_v6 by (try lia; vm_compute; reflexivity).
  unfold in_range. cbn [fst snd].
  cbv -[Z.leb Z.le Z.lt Z.ge]. let ts := eval vm_compute in boundaries_v6 in split_at n ts.
Qed.
Lemma unique_local_private n : in_network 128 n (v6 64512 0 0, 7)%Z = true -> is_private (V6 n) = true.
Proof.
  intros H. pose proof H as Hi. rewrite in_network_v6 in Hi by (try lia; vm_compute; reflexivity).
  unfold in_range in Hi. rewrite andb_true_iff, !Z.leb_le in Hi. cbn [fst snd] in Hi.
  unfold is_private, ipv4_mapped. rewrite Z.shiftr_div_pow2 by lia.
  assert (Hbig : (2 ^ 127 <= n)%Z) by (etrans; [|exact (proj1 Hi)]; by vm_compute).
  destruct (Z.eqb_spec (n / 2 ^ 32) 65535) as [He|_].
  { exfalso. pose proof (Z.div_mod n (2 ^ 32) ltac:(lia)). pose proof (Z.mod_pos_bound n (2 ^ 32) ltac:(lia)). lia. }
  apply andb_true_intro. split; [unfold in_any, private_v6; cbn [existsb]; rewrite H; by rewrite !orb_true_r|].
  unfold in_any, private_exceptions_v6. cbn [existsb]. rewrite !in_network_v6 by (try lia; vm_compute; reflexivity).
  unfold in_range. cbn [fst snd].
  cbv -[Z.leb Z.le Z.lt Z.ge] in Hi |- *. decide_leb n. reflexivity.
Qed.
(** An IPv6 address that is let through is global unicast or site-local: no mapped IPv4 address, unique local, link-local, multicast or reserved one is. *)
Theorem open_v6 n :
  (0 <= n < 2 ^ 128)%Z -> is_blocked (V6 n) = false -> existsb (in_range n) left_open_v6 = true.
Proof.
  intros Hn. pose proof (v6_classes n Hn) as Hc. unfold is_blocked.
  destruct (existsb _ left_open_v6); [done|]. cbn [negb] in Hc. intros H. exfalso.
  rewrite !orb_false_iff in H. destruct H as [[[[[[Hp _] Hl] Hm] Hr] _] _]. rewrite Hl, Hm in Hc.
  unfold is_reserved in Hr. rewrite Hr in Hc. cbn [orb] in Hc. rewrite !orb_false_r in Hc.
  apply unique_local_private in Hc. congruence.
Qed.
(** Site-local addresses ([fec0::/10]) are in no table but their own, which the
    guard does not ask. *)
Example site_local_passes : is_blocked (V6 (v6 65216 0 0 + 1)) = false.
Proof. by vm_compute. Qed.

(** ** The check *)

Section CheckLaws.
Context (bracketed_ok nfkc_ok : list N -> bool) (str_lower : pystr -> pystr) (ip_address : pystr -> option ip).
Context {S : Type} (resolve : pystr -> M S Exn (option (list pystr))).

Lemma check_addresses_spec url addresses (s : S) :
  (check_addresses (S:=S) ip_address url addresses s).1 = Ok tt <->
  Forall (fun text => exists a, ip_address text = Some a /\ is_blocked a = false) addresses.
Proof using Type.
  induction addresses as [|text l IH]; cbn [check_addresses]; [by split|]. rewrite Forall_cons.
  destruct (ip_address text) as [a|]; [|split; [done|]; by intros [(? & ? & _) _]].
  destruct (is_blocked a) eqn:Hb; [split; [done|]; intros [(? & [= <-] & ?) _]; congruence|].
  rewrite IH. split; [eauto|]. by intros [_ ?].
Qed.
(** A URL passes the guard exactly when it has an http(s) origin that is allowlisted, or whose host resolves, to addresses none of which is blocked. *)
Theorem check_passes guard url (s : S) :
  (check bracketed_ok nfkc_ok str_lower ip_address resolve guard url s).1 = Ok tt <->
  exists origin, parse_origin bracketed_ok nfkc_ok str_lower url = Some origin /\
    (origin ∈ sg_allowed_origins guard \/
     exists addresses s', resolve (uo_host origin) s = (Ok (Some addresses), s') /\ addresses <> [] /\
       Forall (fun text => exists a, ip_address text = Some a /\ is_blocked a = false) addresses).
Proof using Type.
  unfold check. destruct (parse_origin _ _ _ url) as [origin|]; [|split; [done|]; by intros (? & ? & _)].
  case_bool_decide as Ha; [split; [eauto|done]|]. unfold bind.
  destruct (resolve (uo_host origin) s) as [[[addresses|]|e] s'] eqn:Hr.
  - destruct addresses as [|a l]; [split; [done|]; intros (o & [= <-] & [?|(? & ? & H & ? & _)]); [done|congruence]|].
    rewrite check_addresses_spec. split.
    + intros H. exists origin. split; [done|]. right. by eexists _, _.
    + intros (o & [= <-] & [?|(? & ? & H & ? & Hall)]); [done|]. congruence.
  - split; [done|]. intros (o & [= <-] & [?|(? & ? & H & ? & _)]); [done|congruence].
  - split; [done|]. intros (o & [= <-] & [?|(? & ? & H & ? & _)]); [done|congruence].
Qed.
End CheckLaws.
