(* ===== verification/ToolSpecs.v ===== *)
(** * Endpoint records ([net/tool_spec.py])

    The JSON document of an endpoint, parsed into what the executor runs, with
    the checks that decide where its placeholders may stand. *)
From S2P Require Import Prelude PyStr Sql Dict Domain Secrets CollectionIngest Templates.

(** ** Data *)

Definition ALLOWED_METHODS : list pystr :=
  ["GET"; "POST"; "PUT"; "PATCH"; "DELETE"; "HEAD"; "OPTIONS"; "PROPFIND"; "PROPPATCH"; "REPORT"; "MKCOL"; "MKCALENDAR";
   "COPY"; "MOVE"].
Definition DEFAULT_AUTH : pystr := "none".
Definition DEFAULT_SECRET_HEADER : pystr := "Authorization".
Definition DEFAULT_SECRET_FORMAT : pystr := "Bearer {value}".
Definition SECRET_VALUE_FIELD : pystr := "{value}".
Definition SPEC_KEYS : list pystr :=
  ["method"; "url_template"; "params_schema"; "body_template"; "headers"; "auth"; "response"; "pagination"].
Definition ANNOTATION_KEYS : list pystr := ["notes"; "description"].
Definition KNOWN_KEYS : list pystr := SPEC_KEYS ++ ANNOTATION_KEYS.

Module ParamKind.
Inductive t : Set := STRING | PATH | HOST.
#[global] Instance t_eq_dec : EqDecision t := ltac:(solve_decision).
Definition value (k : t) : pystr := match k with STRING => "string" | PATH => "path" | HOST => "host" end.
Definition all : list t := [STRING; PATH; HOST].
Definition parse (s : pystr) : option t := find (fun k => bool_decide (value k = s)) all.
End ParamKind.
Module PaginationKind.
Inductive t : Set := PAGE | OFFSET | CURSOR.
#[global] Instance t_eq_dec : EqDecision t := ltac:(solve_decision).
Definition value (k : t) : pystr := match k with PAGE => "page" | OFFSET => "offset" | CURSOR => "cursor" end.
Definition all : list t := [PAGE; OFFSET; CURSOR].
Definition parse (s : pystr) : option t := find (fun k => bool_decide (value k = s)) all.
End PaginationKind.
Definition parse_coercion (s : pystr) : option FieldCoercion.t :=
  find (fun k => bool_decide (FieldCoercion.value k = s)) [FieldCoercion.STRING; FieldCoercion.NUMBER; FieldCoercion.BOOLEAN].

Record ToolParamSpec := { tp_required : bool; tp_kind : ParamKind.t; tp_hosts : list pystr }.
Record PaginationSpec := {
  pg_kind : PaginationKind.t;
  pg_param : pystr;
  pg_start : Z;
  pg_cursor_path : option pystr;
  pg_total_path : option pystr }.
Record ToolSpec := {
  ts_method : pystr;
  ts_url_template : pystr;
  ts_params : list (pystr * ToolParamSpec);
  ts_auth : pystr;
  ts_body_template : option pystr;
  ts_headers : list (pystr * pystr);
  ts_response : option ResponseSpec;
  ts_pagination : option PaginationSpec }.

Abbreviation parsed A := (Res Exn A) (only parsing).
Definition check_each {A} (f : A -> Res Exn unit) (l : list A) : Res Exn unit := let? _ := each f l in Ok tt.
Definition str_of (v : option json) : pystr := match v with Some (JStr s) => s | _ => "" end.
(** [raw.get(key)], where [null] is [None]. *)
Definition get_or_none (key : pystr) (d : list (pystr * json)) : option json :=
  match dict_get key d with Some JNull => None | v => v end.
Definition unknown_keys (d : list (pystr * json)) (known : list pystr) : list pystr :=
  order_by_str id (List.filter (fun k => negb (bool_decide (k ∈ known))) (dict_keys d)).
Definition find_text (needle : list N) (hay : list N) (start : nat) : option nat := ResponseMemory.str_find hay needle start.
(** [s.replace(old, new)] of a non-empty [old], left to right. *)
Fixpoint replace_in (fuel : nat) (old new l : list N) : list N :=
  match fuel with
  | O => l
  | S fuel =>
      match l with
      | [] => []
      | c :: r =>
          if decide (take (length old) l = old) then new ++ replace_in fuel old new (drop (length old) l)
          else c :: replace_in fuel old new r
      end
  end.
Definition str_replace (old new s : pystr) : pystr := PyStr (replace_in (S (length (codes s))) (codes old) (codes new) (codes s)).

(** The quotation mark *)
Definition dq : pystr := PyStr [34%N].
Definition in_dq (s : pystr) : pystr := dq +s+ s +s+ dq.

Section Parse.
Context (str_lower str_upper : pystr -> pystr) (repr : option json -> pystr).
(** [json.loads], or the text of its error. *)
Context (json_loads : pystr -> Res pystr json).
Definition quoted (s : pystr) : pystr := repr (Some (JStr s)).

Definition load_json (content : pystr) : parsed (list (pystr * json)) :=
  match json_loads content with
  | Err text => spec_error ("tool spec is not valid JSON: " +s+ text)
  | Ok (JObj data) => Ok data
  | Ok _ => spec_error "tool spec must be a JSON object"
  end.
Definition reject_unknown_keys (data : list (pystr * json)) : parsed unit :=
  match unknown_keys data KNOWN_KEYS with
  | [] => Ok tt
  | unknown =>
      spec_error ("unknown field(s) in the endpoint document: " +s+ str_join ", " unknown +s+ "; allowed: " +s+
        str_join ", " (order_by_str id KNOWN_KEYS) +s+
        ". A secret is declared as auth: {" +s+ in_dq "secret" +s+ ": " +s+ in_dq "<code>" +s+ "} or referenced as {secret.<code>} inside a " +s+
        "header/url/body template; the request body is body_template")
  end.
Definition parse_method (raw : option json) : parsed pystr :=
  match raw with
  | Some (JStr text) =>
      if bool_decide (str_upper text ∈ ALLOWED_METHODS) then Ok (str_upper text)
      else spec_error ("unsupported method: " +s+ quoted text)
  | _ => spec_error "method must be a string"
  end.
Definition parse_url_template (raw : option json) : parsed pystr :=
  match raw with
  | Some (JStr text) => if str_empty text then spec_error "url_template must be a non-empty string" else Ok text
  | _ => spec_error "url_template must be a non-empty string"
  end.
Definition parse_body_template (raw : option json) : parsed (option pystr) :=
  match raw with
  | None => Ok None
  | Some (JStr text) => if str_empty text then spec_error "body_template must be a non-empty string" else Ok (Some text)
  | Some _ => spec_error "body_template must be a non-empty string"
  end.
Definition parse_header (nv : pystr * json) : parsed (pystr * pystr) :=
  if str_empty (str_strip nv.1) then spec_error "headers keys must be non-empty strings"
  else match nv.2 with
       | JStr value => Ok (nv.1, value)
       | _ => spec_error ("headers[" +s+ quoted nv.1 +s+ "] must be a string")
       end.
Definition parse_headers (raw : option json) : parsed (list (pystr * pystr)) :=
  match raw with
  | None => Ok []
  | Some (JObj d) => each parse_header d
  | Some _ => spec_error "headers must be an object of strings"
  end.

(** Parameters *)
Definition parse_param_name (raw : pystr) : parsed pystr :=
  if str_empty raw then spec_error "params_schema keys must be non-empty strings"
  else if str_has Templates.dot raw then
    spec_error ("params_schema key " +s+ quoted raw +s+
      " must not contain '.': dotted names are reserved for the user./secret. namespaces")
  else Ok raw.
Definition parse_host_pattern (name : pystr) (item : json) : parsed pystr :=
  match item with
  | JStr text =>
      match (normalize_host str_lower text tt).1 with
      | Ok pattern => Ok pattern
      | Err (InvalidSecretError why) => spec_error ("params_schema[" +s+ quoted name +s+ "].hosts: " +s+ why)
      | Err e => Err e
      end
  | _ => spec_error ("params_schema[" +s+ quoted name +s+ "].hosts must be strings")
  end.
Definition parse_param_hosts (name : pystr) (raw : list (pystr * json)) (kind : ParamKind.t) : parsed (list pystr) :=
  match kind with
  | ParamKind.HOST =>
      match get_or_none "hosts" raw with
      | Some (JList (item :: items)) => each (parse_host_pattern name) (item :: items)
      | _ =>
          spec_error ("params_schema[" +s+ quoted name +s+ "]: a 'host' param must declare a non-empty 'hosts' " +s+
            "allowlist, e.g. [" +s+ in_dq "*.icloud.com" +s+ "] — the record names where it may go, never the caller")
      end
  | _ =>
      match get_or_none "hosts" raw with
      | None => Ok []
      | Some _ =>
          spec_error ("params_schema[" +s+ quoted name +s+ "]: 'hosts' belongs to a 'host' param, not " +s+
            quoted (ParamKind.value kind))
      end
  end.
Definition parse_param (name : pystr) (raw : json) : parsed ToolParamSpec :=
  match raw with
  | JObj d =>
      match ParamKind.parse (str_of (get_or_none "type" d)) with
      | None =>
          spec_error ("params_schema[" +s+ quoted name +s+ "].type must be one of: " +s+
            str_join ", " (ParamKind.value <$> ParamKind.all))
      | Some kind =>
          let? required := match dict_get "required" d with
                           | None => Ok false
                           | Some (JBool b) => Ok b
                           | Some _ => spec_error ("params_schema[" +s+ quoted name +s+ "].required must be a boolean")
                           end in
          let? hosts := parse_param_hosts name d kind in
          Ok {| tp_required := required; tp_kind := kind; tp_hosts := hosts |}
      end
  | _ => spec_error ("params_schema[" +s+ quoted name +s+ "] must be an object")
  end.
Definition parse_params_schema (raw : option json) : parsed (list (pystr * ToolParamSpec)) :=
  match raw with
  | None => Ok []
  | Some (JObj d) =>
      each (fun nv => let? name := parse_param_name nv.1 in let? param := parse_param nv.1 nv.2 in Ok (name, param)) d
  | Some _ => spec_error "params_schema must be an object"
  end.

(** Credentials *)
Definition parse_auth_word (raw : pystr) : parsed pystr :=
  let auth := str_lower (str_strip raw) in
  if decide (auth <> DEFAULT_AUTH) then
    spec_error ("auth: " +s+ quoted raw +s+ " declares an authentication scheme but attaches no credential. " +s+
      "Use auth: {" +s+ in_dq "secret" +s+ ": " +s+ in_dq "<code>" +s+ ", " +s+ in_dq "format" +s+ ": " +s+ in_dq "Basic {value}" +s+ "} for a per-user secret, or auth: " +s+ in_dq "none" +s+ " for a public endpoint")
  else Ok auth.
Definition expand_secret_auth (raw : list (pystr * json)) : parsed (pystr * pystr) :=
  match dict_get "secret" raw with
  | Some (JStr text) =>
      let code := str_lower (str_strip text) in
      if str_empty (str_strip text) then spec_error "auth.secret must be a non-empty secret code"
      else if negb (Tariffs.CODE_PATTERN code) then spec_error "auth.secret must be 1-64 characters of [a-z0-9_]"
      else
        let? header := match default (JStr DEFAULT_SECRET_HEADER) (dict_get "header" raw) with
                       | JStr header =>
                           if str_empty (str_strip header) then spec_error "auth.header must be a non-empty header name"
                           else Ok header
                       | _ => spec_error "auth.header must be a non-empty header name"
                       end in
        let? value_format := match default (JStr DEFAULT_SECRET_FORMAT) (dict_get "format" raw) with
                             | JStr f =>
                                 if str_contains SECRET_VALUE_FIELD f then Ok f
                                 else spec_error ("auth.format must contain the " +s+ SECRET_VALUE_FIELD +s+ " placeholder")
                             | _ => spec_error ("auth.format must contain the " +s+ SECRET_VALUE_FIELD +s+ " placeholder")
                             end in
        Ok (str_strip header, str_replace SECRET_VALUE_FIELD ("{" +s+ SECRET_NAMESPACE +s+ "." +s+ code +s+ "}") value_format)
  | _ => spec_error "auth.secret must be a non-empty secret code"
  end.

(** Placement of the placeholders *)
Definition label_error {A} (label : pystr) (r : Res Exn A) : parsed A :=
  match r with Err (ToolSpecError text) => spec_error (label +s+ ": " +s+ text) | r => r end.
Definition sorted_set (s : gset pystr) : list pystr := order_by_str id (elements s).
Definition validate_template_fields (label template : pystr) (params : list (pystr * ToolParamSpec)) : parsed unit :=
  let? refs := label_error label (collect_refs template) in
  check_each (fun name =>
    match dict_get name params with
    | None => spec_error (label +s+ " references undeclared parameter: " +s+ quoted name)
    | Some param =>
        if tp_required param then Ok tt
        else spec_error (label +s+ " parameter must be required: " +s+ quoted name)
    end) (sorted_set (tr_params refs)).
(** The part of a template before the path: [find] from the separator on. *)
Definition authority_prefix (url_template : pystr) : pystr :=
  let l := codes url_template in
  let start := match find_text [58; 47; 47]%N l 0 with Some i => (i + 3)%nat | None => O end in
  match find_text [47%N] l start with
  | Some path_start => PyStr (take path_start l)
  | None => url_template
  end.
Definition validate_url_authority (url_template : pystr) (params : list (pystr * ToolParamSpec)) : parsed unit :=
  let? refs := collect_refs (authority_prefix url_template) in
  if decide (tr_secrets refs <> ∅) then spec_error "a secret placeholder cannot appear in the URL scheme or host"
  else
    check_each (fun name =>
      match dict_get name params with
      | Some param =>
          if decide (tp_kind param <> ParamKind.HOST) then
            spec_error ("url_template puts " +s+ quoted name +s+ " in the host, but it is a " +s+
              quoted (ParamKind.value (tp_kind param)) +s+ " param: only a 'host' param (with its own " +s+
              "'hosts' allowlist) may decide where the request goes")
          else Ok tt
      | None => Ok tt
      end) (sorted_set (tr_params refs)).

(** Responses and pages *)
Definition parse_response_spec (raw : option json) : parsed (option ResponseSpec) :=
  match raw with
  | None => Ok None
  | Some (JObj d) =>
      let? items_path := match get_or_none "items_path" d with
                         | None => Ok None
                         | Some (JStr path) =>
                             if str_empty (str_strip path) then spec_error "response.items_path must be a non-empty dotted path"
                             else Ok (Some path)
                         | Some _ => spec_error "response.items_path must be a non-empty dotted path"
                         end in
      let? fields := match get_or_none "fields" d with
                     | None => Ok []
                     | Some (JObj fields) =>
                         each (fun nk : pystr * json =>
                           match parse_coercion (str_of (Some nk.2)) with
                           | Some kind => Ok (nk.1, kind)
                           | None =>
                               spec_error ("response.fields[" +s+ quoted nk.1 +s+ "]: unknown type " +s+ repr (Some nk.2) +s+
                                 "; allowed: boolean, number, string")
                           end) fields
                     | Some _ => spec_error ("response.fields must map field names to types, e.g. {" +s+ in_dq "price" +s+ ": " +s+ in_dq "number" +s+ "}")
                     end in
      match unknown_keys d ["items_path"; "fields"] with
      | [] => Ok (Some {| rs_items_path := items_path; rs_fields := fields |})
      | unknown => spec_error ("unknown field(s) in response: " +s+ str_join ", " unknown)
      end
  | Some _ => spec_error "response must be an object: {items_path?, fields?}"
  end.
Definition parse_pagination_spec (raw : option json) (params : list (pystr * ToolParamSpec)) : parsed (option PaginationSpec) :=
  match raw with
  | None => Ok None
  | Some (JObj d) =>
      match PaginationKind.parse (str_of (get_or_none "kind" d)) with
      | None => spec_error ("pagination.kind must be one of: " +s+ str_join ", " (PaginationKind.value <$> PaginationKind.all))
      | Some kind =>
          let? param := match dict_get "param" d with
                        | Some (JStr param) =>
                            if bool_decide (is_Some (dict_get param params)) then Ok param
                            else spec_error "pagination.param must name a declared parameter (the collect loop advances it)"
                        | _ => spec_error "pagination.param must name a declared parameter (the collect loop advances it)"
                        end in
          let? start := match default (JInt (if decide (kind = PaginationKind.PAGE) then 1 else 0)) (dict_get "start" d) with
                        | JInt start => Ok start
                        | _ => spec_error "pagination.start must be an integer"
                        end in
          let cursor_path := match dict_get "cursor_path" d with Some (JStr path) => Some path | _ => None end in
          if bool_decide (kind = PaginationKind.CURSOR) && bool_decide (cursor_path = None) then
            spec_error "pagination.cursor_path is required for kind 'cursor'"
          else
            let? total_path := match get_or_none "total_path" d with
                               | None => Ok None
                               | Some (JStr path) => Ok (Some path)
                               | Some _ => spec_error "pagination.total_path must be a dotted path string"
                               end in
            match unknown_keys d ["kind"; "param"; "start"; "cursor_path"; "total_path"] with
            | [] => Ok (Some {| pg_kind := kind; pg_param := param; pg_start := start; pg_cursor_path := cursor_path;
                                pg_total_path := total_path |})
            | unknown => spec_error ("unknown field(s) in pagination: " +s+ str_join ", " unknown)
            end
      end
  | Some _ => spec_error "pagination must be an object: {kind, param, …}"
  end.

Definition parse_tool_spec (content : pystr) : parsed ToolSpec :=
  let? data := load_json content in
  let? _ := reject_unknown_keys data in
  let? method := parse_method (dict_get "method" data) in
  let? url_template := parse_url_template (dict_get "url_template" data) in
  let? params := parse_params_schema (get_or_none "params_schema" data) in
  let? body_template := parse_body_template (get_or_none "body_template" data) in
  let? headers := parse_headers (get_or_none "headers" data) in
  let? '(auth, headers) :=
    match default (JStr DEFAULT_AUTH) (dict_get "auth" data) with
    | JObj raw => let? '(name, template) := expand_secret_auth raw in Ok ("secret" : pystr, dict_set name template headers)
    | JStr raw => let? auth := parse_auth_word raw in Ok (auth, headers)
    | _ => spec_error "auth must be a string or a secret declaration object"
    end in
  let? _ := validate_template_fields "url_template" url_template params in
  let? _ := validate_url_authority url_template params in
  let? _ := match body_template with
            | Some body => validate_template_fields "body_template" body params
            | None => Ok tt
            end in
  let? _ := check_each (fun nv => validate_template_fields ("headers[" +s+ quoted nv.1 +s+ "]") nv.2 params) headers in
  let? response := parse_response_spec (get_or_none "response" data) in
  let? pagination := parse_pagination_spec (get_or_none "pagination" data) params in
  Ok {| ts_method := method; ts_url_template := url_template; ts_params := params; ts_auth := auth;
        ts_body_template := body_template; ts_headers := headers; ts_response := response; ts_pagination := pagination |}.
End Parse.
