(* ===== verification/External.v ===== *)
(** * External calls ([net/external.py])

    One rendered, guarded, scrubbed request of an endpoint record, and the
    walk over the pages of an endpoint into one collection.  The client, the
    stores and the delegates are ports over a state [S]. *)
From S2P Require Import Prelude PyStr Clock Sql Dict Domain ResponseMemory Secrets CollectionSchema Collections CollectionIngest Templates Guard ToolSpecs.

Definition MAX_BODY_CHARS : Z := 8000.
Definition MAX_BODY_BYTES : Z := 2 * 1024 * 1024.
Definition TRUNCATED_SUFFIX : pystr := newline +s+ "...[truncated]".
Definition USER_ID_PLACEHOLDER : pystr := "{user_id}".
Definition SECRET_SCRUBBED : pystr := "[secret]".
Definition SECRETS_DISABLED_MESSAGE : pystr :=
  "this endpoint requires a per-user secret, but secrets are not configured on this installation (OF_SECRETS_KEY is not set)".
Definition PARAMS_DISABLED_MESSAGE : pystr :=
  "this endpoint uses per-user params ({{user.*}}), but user params are not wired on this installation".
Definition SECRET_MISSING_TEMPLATE (code host : pystr) : pystr :=
  "secret '" +s+ code +s+ "' is not set for this user (needed for host '" +s+ host +s+ "'): mint " +s+
  "them a pre-filled one-time form link with the secret_link tool — pass this code, this host and a clear " +s+
  "description of what the secret is for. Without the tool they can run /secrets in Telegram and fill the form by hand".
Definition PARAM_MISSING_TEMPLATE (codes : pystr) : pystr :=
  "user param(s) not set for this user: " +s+ codes +s+
  ". An operator sets them in the admin console; tell the user which value is needed and what for".
Definition PLACEMENT_BLOCKED_TEMPLATE (code part allowed : pystr) : pystr :=
  "secret '" +s+ code +s+ "' may not be substituted into the " +s+ part +s+ " of a request (it allows: " +s+ allowed +s+
  "); the user can extend its placements in the secrets form".
Definition UNAUTHENTICATED_STATUSES : list Z := [401; 403]%Z.
Definition COLLECT_UNAVAILABLE_MESSAGE : pystr :=
  "collections are not available here (they need Postgres and a user in context); call the endpoint without collect/into".
Definition NO_CREDENTIAL_HINT : pystr :=
  newline +s+ newline +s+ "[octoforge] This request carried NO credential: the endpoint record " +s+
  "references no secret, so nothing was attached. Do not guess at the secret's value or encoding — fix the record. " +s+
  "Declare the secret as auth: {" +s+ in_dq "secret" +s+ ": " +s+ in_dq "<code>" +s+
  "} or reference it as {secret.<code>} in a header template, and check secret_list for the codes this user actually has.".

(** ** Data *)

Record ExternalCallAuth := { ea_base_url_prefix : pystr; ea_header_name : pystr; ea_header_value : pystr }.
(** [status] 0: no HTTP status worth showing. *)
Record ExternalCallResult := { er_status : Z; er_body : pystr }.
Record RenderPlan := {
  rp_url_refs : TemplateRefs;
  rp_body_refs : TemplateRefs;
  rp_header_refs : list (pystr * TemplateRefs) }.
Definition combined (plan : RenderPlan) : TemplateRefs :=
  foldl (fun refs header => refs_or refs header) (refs_or (rp_url_refs plan) (rp_body_refs plan)) (snd <$> rp_header_refs plan).
Record CallOptions := {
  op_collect : bool;
  op_max_pages : option Z;
  op_into : option pystr;
  op_label : pystr;
  op_scope : pystr }.
Record PageResult := {
  pr_status : Z;
  pr_scrubbed : pystr;
  pr_content_type : pystr;
  pr_wire_truncated : bool;
  pr_had_secrets : bool }.
Record Request := {
  rq_method : pystr;
  rq_url : pystr;
  rq_headers : list (pystr * pystr);
  rq_body : option pystr }.
(** A streaming response: its body comes in chunks of bytes. *)
Record Response := { re_status : Z; re_content_type : pystr; re_chunks : list (list N) }.

(** [read_capped_text], before the bytes are decoded *)
Fixpoint read_chunks (size limit : Z) (chunks : list (list N)) : list N * bool :=
  match chunks with
  | [] => ([], false)
  | chunk :: chunks =>
      let size := (size + Z.of_nat (length chunk))%Z in
      if (limit <=? size)%Z then (chunk, true)
      else let '(rest, truncated) := read_chunks size limit chunks in (chunk ++ rest, truncated)
  end.
Definition read_capped (limit : Z) (chunks : list (list N)) : list N * bool :=
  let '(raw, truncated) := read_chunks 0 limit chunks in (take (Z.to_nat limit) raw, truncated).

(** [_Cursor]: the value presented, and those presented before. *)
Inductive position := AtNumber (n : Z) | AtCursor (s : pystr).
Record Cursor := { cu_spec : PaginationSpec; cu_value : position; cu_seen : gset pystr }.
Definition param_value (c : Cursor) : pystr := match cu_value c with AtNumber n => str_of_Z n | AtCursor s => s end.
Definition new_cursor (spec : PaginationSpec) : Cursor :=
  let value := match pg_kind spec with PaginationKind.CURSOR => AtCursor "" | _ => AtNumber (pg_start spec) end in
  {| cu_spec := spec; cu_value := value;
     cu_seen := {[match value with AtNumber n => str_of_Z n | AtCursor s => s end]} |}.
Definition move (c : Cursor) (value : position) (seen : gset pystr) : Cursor :=
  {| cu_spec := cu_spec c; cu_value := value; cu_seen := seen |}.
Definition number_of (c : Cursor) : Z := match cu_value c with AtNumber n => n | AtCursor _ => 0 end.
(** [advance]: [None] is its [False]. *)
Definition advance (c : Cursor) (document : json) (batch_size : Z) : option Cursor :=
  match pg_kind (cu_spec c) with
  | PaginationKind.PAGE => Some (move c (AtNumber (number_of c + 1)) (cu_seen c))
  | PaginationKind.OFFSET => Some (move c (AtNumber (number_of c + batch_size)) (cu_seen c))
  | PaginationKind.CURSOR =>
      let found := match dotted_get document (default "" (pg_cursor_path (cu_spec c))) with
                   | JStr s => Some s
                   | JInt n => Some (str_of_Z n)
                   | _ => None
                   end in
      match found with
      | None => None
      | Some cursor =>
          if str_empty cursor || bool_decide (cursor ∈ cu_seen c) then None
          else Some (move c (AtCursor cursor) ({[cursor]} ∪ cu_seen c))
      end
  end.
(** [_reached_declared_total] *)
Definition reached_declared_total (pagination : PaginationSpec) (document : json) (collected : Z) : bool :=
  match pg_total_path pagination with
  | None => false
  | Some path => match dotted_get document path with JInt total => (total <=? collected)%Z | _ => false end
  end.

(** ** Secrets in a text *)

Definition longest_form_first (forms : list pystr) : list pystr :=
  foldr (fix insert f l := match l with
         | [] => [f]
         | g :: l' => if (str_len g <=? str_len f)%Z then f :: l else g :: insert f l'
         end) [] forms.
Definition forms_of (secret : ResolvedSecret) : list pystr :=
  concat ((fun value => if str_empty value then [] else [value; quote value]) <$> [rs_value secret; rs_plain secret]).
(** [_scrub]; a tie of length is broken as the forms come, where the source has a set. *)
Definition scrub (body : pystr) (secrets : list ResolvedSecret) : pystr :=
  foldl (fun body form => str_replace form SECRET_SCRUBBED body) body
    (longest_form_first (remove_dups (concat (forms_of <$> secrets)))).

(** [_is_header_safe] *)
Definition is_header_safe (value : pystr) : bool := forallb (fun c => (32 <=? c) && (c <=? 126))%N (codes value).

(** ** Parameters *)

Definition call_error {A} (text : pystr) : Res Exn A := Err (ExternalCallError text).
Definition path_sep : list N := [58; 47; 47]%N.
Definition is_infix (needle hay : list N) : bool := bool_decide (is_Some (find_text needle hay 0)).
Section Params.
Context (str_lower : pystr -> pystr) (repr : option json -> pystr).
(** [_validate_path] *)
Definition validate_path (name value : pystr) : Res Exn pystr :=
  let path := PyStr (drop_char slash (codes (str_strip value))) in
  if str_has 63 path || str_has 35 path || is_infix path_sep (codes path) then
    call_error ("param " +s+ quoted repr name +s+ " is a path, not a URL: drop the scheme, query and fragment")
  else if bool_decide ((".." : pystr) ∈ str_split_char slash path) then
    call_error ("param " +s+ quoted repr name +s+ " must not walk up the path with '..'")
  else Ok path.
(** [_validate_host] *)
Definition validate_host (name : pystr) (spec : ToolParamSpec) (value : pystr) : Res Exn pystr :=
  let host := bare_host str_lower value in
  if str_empty host || existsb (fun c => str_has c host) [slash; 64; Secrets.colon; 63; 35]%N || str_has star host then
    call_error ("param " +s+ quoted repr name +s+ " must be a bare hostname (no scheme, port, path or credentials)")
  else if existsb (fun pattern => host_matches str_lower pattern host) (tp_hosts spec) then Ok host
  else
    call_error ("param " +s+ quoted repr name +s+ ": host " +s+ quoted repr host +s+
      " is not one this endpoint may call (allowed: " +s+ str_join ", " (tp_hosts spec) +s+ ")").
(** [_validate_value] *)
Definition validate_value (name : pystr) (spec : ToolParamSpec) (value : pystr) : Res Exn pystr :=
  match tp_kind spec with
  | ParamKind.STRING => Ok value
  | ParamKind.PATH => validate_path name value
  | ParamKind.HOST => validate_host name spec value
  end.
Definition no_param : ToolParamSpec := {| tp_required := false; tp_kind := ParamKind.STRING; tp_hosts := [] |}.
Definition param_spec (spec : ToolSpec) (name : pystr) : ToolParamSpec := default no_param (dict_get name (ts_params spec)).
(** [_validate_params] *)
Definition validate_params (spec : ToolSpec) (params : list (pystr * json)) : Res Exn (list (pystr * pystr)) :=
  match unknown_keys params (dict_keys (ts_params spec)) with
  | [] =>
      match order_by_str id (fst <$> List.filter (fun np => tp_required np.2 && negb (dict_has np.1 params)) (ts_params spec)) with
      | [] =>
          match order_by_str id (fst <$> List.filter (fun nv => match nv.2 with JStr _ => false | _ => true end) params) with
          | [] =>
              each (fun nv => let? value := validate_value nv.1 (param_spec spec nv.1) (str_of (Some nv.2)) in Ok (nv.1, value)) params
          | not_strings => call_error ("params must be strings for this endpoint: " +s+ str_join ", " not_strings)
          end
      | missing => call_error ("missing required params: " +s+ str_join ", " missing)
      end
  | unknown => call_error ("unknown params: " +s+ str_join ", " unknown)
  end.
End Params.

(** ** The plan and the URL *)

(** [_collect_plan] *)
Definition collect_plan (spec : ToolSpec) : Res Exn RenderPlan :=
  let? url_refs := collect_refs (ts_url_template spec) in
  let? body_refs := match ts_body_template spec with Some body => collect_refs body | None => Ok no_refs end in
  let? header_refs := each (fun nv => let? refs := collect_refs nv.2 in Ok (nv.1, refs)) (ts_headers spec) in
  Ok {| rp_url_refs := url_refs; rp_body_refs := body_refs; rp_header_refs := header_refs |}.
(** [_escape_for_url] *)
Definition escape_for_url (spec : ToolParamSpec) (value : pystr) : pystr :=
  match tp_kind spec with
  | ParamKind.STRING => quote value
  | ParamKind.PATH => str_join "/" (quote <$> str_split_char slash value)
  | ParamKind.HOST => value
  end.
Definition secret_field (code : pystr) : pystr := "secret." +s+ code.
Definition user_field (code : pystr) : pystr := "user." +s+ code.
Definition values_of (d : list (pystr * pystr)) : values := fun name => dict_get name d.
(** [{**a, **b}] *)
Definition merged (a b : list (pystr * pystr)) : list (pystr * pystr) := foldl (fun d nv => dict_set nv.1 nv.2 d) a b.
Definition url_values (spec : ToolSpec) (params user_values sentinels : list (pystr * pystr)) : list (pystr * pystr) :=
  merged (merged ((fun nv => (nv.1, escape_for_url (param_spec spec nv.1) nv.2)) <$> params)
                 ((fun nv => (nv.1, quote nv.2)) <$> user_values))
         ((fun cs => (secret_field cs.1, cs.2)) <$> sentinels).
(** [_render_url] *)
Definition render_url (spec : ToolSpec) (params user_values sentinels : list (pystr * pystr)) : Res Exn pystr :=
  render_template (ts_url_template spec) (values_of (url_values spec params user_values sentinels)).

(** [_enforce_placements] *)
Definition sorted_codes (s : gset pystr) : list pystr := sorted_set s.
Definition placements_of (code : pystr) (resolved : list (pystr * ResolvedSecret)) : gset SecretPlacement.t :=
  match dict_get code resolved with Some secret => rs_placements secret | None => ∅ end.
Definition enforce_placements (plan : RenderPlan) (resolved : list (pystr * ResolvedSecret)) : Res Exn unit :=
  let header_secrets := foldl (fun s nr => s ∪ tr_secrets nr.2) (∅ : gset pystr) (rp_header_refs plan) in
  let demands := [(SecretPlacement.URL, tr_secrets (rp_url_refs plan)); (SecretPlacement.BODY, tr_secrets (rp_body_refs plan));
                  (SecretPlacement.HEADER, header_secrets)] in
  check_each (fun demand : SecretPlacement.t * gset pystr =>
    check_each (fun code =>
      if bool_decide (demand.1 ∈ placements_of code resolved) then Ok tt
      else call_error (PLACEMENT_BLOCKED_TEMPLATE code (SecretPlacement.value demand.1)
             (str_join ", " (sorted_values (placements_of code resolved)))))
      (sorted_codes demand.2)) demands.

Section Guard.
Context (bracketed_ok nfkc_ok : list N -> bool).
(** [_substitute_url_secrets]; the guard has split the URL before. *)
Definition netloc_of (url : pystr) : list N :=
  match urlsplit bracketed_ok nfkc_ok url with Some parts => sr_netloc parts | None => [] end.
Fixpoint substitute (netloc : list N) (sentinels : list (pystr * pystr)) (secrets : list (pystr * ResolvedSecret)) (url : pystr)
    : Res Exn pystr :=
  match sentinels with
  | [] => Ok url
  | (code, sentinel) :: sentinels =>
      if is_infix (codes sentinel) netloc then call_error "a secret placeholder cannot appear in the URL host"
      else
        match dict_get code secrets with
        | None => Err (OtherError "KeyError")
        | Some secret => substitute netloc sentinels secrets (str_replace sentinel (quote (rs_value secret)) url)
        end
  end.
Definition substitute_url_secrets (safe_url : pystr) (sentinels : list (pystr * pystr)) (secrets : list (pystr * ResolvedSecret))
    : Res Exn pystr :=
  substitute (netloc_of safe_url) sentinels secrets safe_url.
End Guard.

(** ** The executor *)

Section Executor.
Context (bracketed_ok nfkc_ok : list N -> bool) (str_lower str_upper : pystr -> pystr) (repr : option json -> pystr).
Context (ip_address : pystr -> option ip) (json_loads : pystr -> Res pystr json) (json_dumps : json -> pystr).
Context (read_number : pystr -> option json) (float_text : pystr -> pystr) (csv_rows : pystr -> Res Exn (list (list pystr))).
(** [raw.decode(response.encoding or "utf-8", errors="replace")] *)
Context (decode : Response -> list N -> pystr).
Context {S : Type} (config : CollectionConfig) (utc_now : M S Exn time) (new_hex : M S Exn pystr).
(** The ports: [InstructionService.get_by_name], the content of a record;
    [HostResolver]; the client, [Err] with the text of its [HTTPError]; the
    secret store and the params of a user, when they are wired; the delegates. *)
Context (get_by_name : pystr -> option pystr -> M S Exn pystr).
Context (resolve_host : pystr -> M S Exn (option (list pystr))) (guard : SsrfGuard).
Context (http : Request -> M S Exn (Res pystr Response)).
Context (secrets : option (pystr -> pystr -> pystr -> M S Exn ResolvedSecret)).
Context (user_params : option (pystr -> M S Exn (list (pystr * pystr)))).
Context (delegates : pystr -> option (pystr -> list (pystr * json) -> option pystr -> pystr -> M S Exn ExternalCallResult)).
Context (auth_whitelist : list ExternalCallAuth) (spilling : option (ResponseSpill (S:=S))) (truncate_chars : Z).
Abbreviation ME := (M S Exn) (only parsing).
Abbreviation params := (list (pystr * json)) (only parsing).

Definition failing {A} (text : pystr) : ME A := raise (ExternalCallError text).
Definition loads (text : pystr) : option json := match json_loads text with Ok v => Some v | Err _ => None end.

(** [_truncate] *)
Definition truncate (body : pystr) : pystr :=
  if (str_len body <=? truncate_chars)%Z then body else str_take truncate_chars body +s+ TRUNCATED_SUFFIX.
(** [_wire_limit] *)
Definition wire_limit : Z := match spilling with Some spill => wire_limit_bytes spill | None => MAX_BODY_BYTES end.

(** [_user_values] *)
Definition load_user_values (plan : RenderPlan) (user_id : option pystr) : ME (list (pystr * pystr)) :=
  match sorted_codes (tr_user_params (combined plan)) with
  | [] => ret []
  | codes =>
      match user_params with
      | None => failing PARAMS_DISABLED_MESSAGE
      | Some get_for_user =>
          match user_id with
          | None => failing "this endpoint uses per-user params: no user in context"
          | Some user_id =>
              let! stored := get_for_user user_id in
              match List.filter (fun code => negb (bool_decide (is_Some (dict_get code stored)))) codes with
              | [] => ret (omap (fun code => (fun v => (user_field code, v)) <$> dict_get code stored) codes)
              | missing => failing (PARAM_MISSING_TEMPLATE (str_join ", " ((fun code => "'" +s+ code +s+ "'") <$> missing)))
              end
          end
      end
  end.
(** The sentinels of the secrets of a URL. *)
Fixpoint mint_sentinels (codes : list pystr) : ME (list (pystr * pystr)) :=
  match codes with
  | [] => ret []
  | code :: codes =>
      let! hex := new_hex in
      let! rest := mint_sentinels codes in
      ret ((code, "of-secret-" +s+ hex) :: rest)
  end.

(** [_resolve_secrets] *)
Definition target_host (url : pystr) : pystr :=
  match urlsplit bracketed_ok nfkc_ok url with
  | Some parts => str_lower (default "" (hostname str_lower parts))
  | None => ""
  end.
Fixpoint resolve_each (resolve : pystr -> pystr -> pystr -> ME ResolvedSecret) (user_id host : pystr) (codes : list pystr)
    : ME (list (pystr * ResolvedSecret)) :=
  match codes with
  | [] => ret []
  | code :: codes =>
      let! secret := try_except (resolve user_id code host) (fun e =>
        match e with
        | SecretNotFoundError _ => failing (SECRET_MISSING_TEMPLATE code host)
        | SecretHostMismatchError text | InvalidSecretError text => failing text
        | e => raise e
        end) in
      let! rest := resolve_each resolve user_id host codes in
      ret ((code, secret) :: rest)
  end.
Definition resolve_secrets (plan : RenderPlan) (url : pystr) (user_id : option pystr) : ME (list (pystr * ResolvedSecret)) :=
  match sorted_codes (tr_secrets (combined plan)) with
  | [] => ret []
  | codes =>
      match secrets with
      | None => failing SECRETS_DISABLED_MESSAGE
      | Some resolve =>
          match user_id with
          | None => failing "this endpoint requires a per-user secret: no user in context"
          | Some user_id =>
              let! resolved := resolve_each resolve user_id (target_host url) codes in
              let! _ := lift (enforce_placements plan resolved) in
              ret resolved
          end
      end
  end.

(** [_render_auth_header], [_auth_headers_for] *)
Definition render_auth_header (entry : ExternalCallAuth) (user_id : option pystr) : list (pystr * pystr) :=
  if negb (is_infix (codes USER_ID_PLACEHOLDER) (codes (ea_header_value entry)))
  then [(ea_header_name entry, ea_header_value entry)]
  else
    match user_id with
    | None => []
    | Some user_id => [(ea_header_name entry, str_replace USER_ID_PLACEHOLDER user_id (ea_header_value entry))]
    end.
Definition auth_headers_for (url : pystr) (user_id : option pystr) : list (pystr * pystr) :=
  match List.find (fun entry => matches_url_prefix bracketed_ok nfkc_ok str_lower url (ea_base_url_prefix entry)) auth_whitelist with
  | Some entry => render_auth_header entry user_id
  | None => []
  end.
(** [_build_headers] *)
Definition has_secrets (plan : RenderPlan) (name : pystr) : bool :=
  match dict_get name (rp_header_refs plan) with Some refs => negb (bool_decide (tr_secrets refs = ∅)) | None => false end.
Definition render_header (values : values) (nv : pystr * pystr) : Res Exn (pystr * pystr) :=
  let? rendered := render_template nv.2 values in
  if is_header_safe rendered then Ok (nv.1, rendered)
  else call_error ("header " +s+ quoted repr nv.1 +s+ " renders to an illegal value (control characters or non-ASCII)").
Definition build_headers (spec : ToolSpec) (plan : RenderPlan) (url : pystr) (user_id : option pystr) (values : values)
    : Res Exn (list (pystr * pystr)) :=
  let? rendered := each (render_header values) (ts_headers spec) in
  let plain := List.filter (fun nv => negb (has_secrets plan nv.1)) rendered in
  let secret_bearing := List.filter (fun nv => has_secrets plan nv.1) rendered in
  Ok (merged (merged plain (auth_headers_for url user_id)) secret_bearing).

(** [_request_once] *)
Definition secret_values (resolved : list (pystr * ResolvedSecret)) : list (pystr * pystr) :=
  (fun cs => (secret_field cs.1, rs_value cs.2)) <$> resolved.
Definition request_once (spec : ToolSpec) (plan : RenderPlan) (validated : list (pystr * pystr)) (user_id : option pystr)
    : ME PageResult :=
  let! user_values := load_user_values plan user_id in
  let! sentinels := mint_sentinels (sorted_codes (tr_secrets (rp_url_refs plan))) in
  let! safe_url := lift (render_url spec validated user_values sentinels) in
  check bracketed_ok nfkc_ok str_lower ip_address resolve_host guard safe_url ;;;
  let! resolved := resolve_secrets plan safe_url user_id in
  let! url := lift (substitute_url_secrets bracketed_ok nfkc_ok safe_url sentinels resolved) in
  let values := values_of (merged (merged validated user_values) (secret_values resolved)) in
  let! headers := lift (build_headers spec plan url user_id values) in
  let! body := lift (match ts_body_template spec with
                     | Some template => let? body := render_template template values in Ok (Some body)
                     | None => Ok None
                     end) in
  let! answer := http {| rq_method := ts_method spec; rq_url := url; rq_headers := headers; rq_body := body |} in
  let used := snd <$> resolved in
  match answer with
  | Err text => failing ("external call failed: " +s+ scrub text used)
  | Ok response =>
      let '(raw, truncated) := read_capped wire_limit (re_chunks response) in
      ret {| pr_status := re_status response; pr_scrubbed := scrub (decode response raw) used;
             pr_content_type := re_content_type response; pr_wire_truncated := truncated;
             pr_had_secrets := match resolved with [] => false | _ => true end |}
  end.

(** ** Pages *)

(** [_shaped] *)
Definition shaped (parsed : ParsedBody) (spec : ToolSpec) : ParsedBody :=
  match ts_response spec with
  | Some response =>
      {| pb_kind := pb_kind parsed;
         pb_records := shape_records str_lower read_number float_text json_dumps (pb_records parsed) (rs_fields response);
         pb_envelope := pb_envelope parsed; pb_document := pb_document parsed;
         pb_single_document := pb_single_document parsed; pb_record_truncated := pb_record_truncated parsed |}
  | None => parsed
  end.
Definition parse_page (spec : ToolSpec) (page : PageResult) : ME (option ParsedBody) :=
  let! parsed := parse_structured str_lower loads csv_rows (pr_scrubbed page) (pr_content_type page)
                   (match ts_response spec with Some response => rs_items_path response | None => None end) in
  ret (match parsed with
       | Some parsed => match nr_payloads (pb_records parsed) with [] => None | _ => Some parsed end
       | None => None
       end).
Definition endpoint_source (name : pystr) : pystr := "endpoint:" +s+ name.
Definition without_prefix (into : pystr) : pystr :=
  if str_startswith Collections.REF_PREFIX into then str_drop (str_len Collections.REF_PREFIX) into else into.
(** The spill with its store, and the user, as both collecting paths need them. *)
Definition collecting (user_id : option pystr) : option (ResponseSpill (S:=S) * pystr) :=
  match spilling, user_id with
  | Some spill, Some user_id => match sp_store spill with Some _ => Some (spill, user_id) | None => None end
  | _, _ => None
  end.

(** [_pour_into] *)
Definition pour_into (name : pystr) (spec : ToolSpec) (page : PageResult) (user_id : option pystr) (into : pystr)
    : ME ExternalCallResult :=
  match collecting user_id with
  | None => failing COLLECT_UNAVAILABLE_MESSAGE
  | Some (spill, user_id) =>
      let! parsed := parse_page spec page in
      match parsed with
      | None =>
          failing ("the response of '" +s+ name +s+ "' carried no records to add (HTTP " +s+ str_of_Z (pr_status page) +s+
            "); nothing was appended")
      | Some parsed =>
          let sink := new_sink user_id (endpoint_source name) "" (Some (without_prefix into)) in
          let! sink := try_except (add config utc_now spill sink (shaped parsed spec) (str_len (pr_scrubbed page))) (fun e =>
            match e with
            | CollectionQuotaError text =>
                failing ("nothing appended: " +s+ text +s+ "; drop an old collection or query what is there")
            | e => raise e
            end) in
          let! passport := finish spill sink (pr_wire_truncated page || pb_record_truncated parsed) in
          match passport with
          | None => raise (OtherError "AssertionError")
          | Some passport =>
              let! now := utc_now in
              ret {| er_status := pr_status page; er_body := render_passport json_dumps passport now |}
          end
      end
  end.

(** [_collect_pages]: the state of the walk, and how it ends; a turn may also
    ask for the next page. *)
Record Walk := { wk_sink : CollectionSink; wk_cursor : Cursor; wk_pages : Z; wk_status : Z }.
Inductive outcome := Answered (r : ExternalCallResult) | Walked (w : Walk) (capped : bool).
Definition stop (w : Walk) (sink : CollectionSink) (status pages : Z) (capped : bool) : outcome + Walk :=
  inl (Walked {| wk_sink := sink; wk_cursor := wk_cursor w; wk_pages := pages; wk_status := status |} capped).
(** One turn of the loop: what it asks of the next, or how the walk ends. *)
Definition walk_turn (spill : ResponseSpill) (spec : ToolSpec) (pagination : PaginationSpec) (plan : RenderPlan)
    (validated : list (pystr * pystr)) (user_id : option pystr) (w : Walk) : ME (outcome + Walk) :=
  let call := dict_set (pg_param pagination) (param_value (wk_cursor w)) validated in
  let! page := request_once spec plan call user_id in
  if (400 <=? pr_status page)%Z then
    if (wk_pages w =? 0)%Z then ret (inl (Answered {| er_status := pr_status page; er_body := truncate (pr_scrubbed page) |}))
    else ret (stop w (wk_sink w) (pr_status page) (wk_pages w) true)
  else
    let! stored := try_except
      (let! parsed := parse_page spec page in
       match parsed with
       | None => ret (inl None)
       | Some parsed =>
           let! sink := add config utc_now spill (wk_sink w) (shaped parsed spec) (str_len (pr_scrubbed page)) in
           ret (inl (Some (parsed, sink)))
       end)
      (fun e => match e with CollectionQuotaError _ => ret (inr tt) | e => raise e end) in
    match stored with
    | inr _ => ret (stop w (wk_sink w) (pr_status page) (wk_pages w) true)
    | inl None => ret (stop w (wk_sink w) (pr_status page) (wk_pages w) false)
    | inl (Some (parsed, sink)) =>
        let pages := (wk_pages w + 1)%Z in
        if pb_record_truncated parsed then ret (stop w sink (pr_status page) pages true)
        else
          match advance (wk_cursor w) (pb_document parsed) (Z.of_nat (length (nr_payloads (pb_records parsed)))) with
          | None => ret (stop w sink (pr_status page) pages false)
          | Some cursor =>
              let w := {| wk_sink := sink; wk_cursor := cursor; wk_pages := pages; wk_status := pr_status page |} in
              if reached_declared_total pagination (pb_document parsed) (sk_record_count sink) then ret (inl (Walked w false))
              else ret (inr w)
          end
    end.
(** The loop counts its pages: [fuel] is the pages left. *)
Fixpoint walk_pages (fuel : nat) (spill : ResponseSpill) (spec : ToolSpec) (pagination : PaginationSpec) (plan : RenderPlan)
    (validated : list (pystr * pystr)) (user_id : option pystr) (w : Walk) : ME outcome :=
  match fuel with
  | O => ret (Walked w true)
  | Datatypes.S fuel =>
      let! next := walk_turn spill spec pagination plan validated user_id w in
      match next with
      | inr w => walk_pages fuel spill spec pagination plan validated user_id w
      | inl ended => ret ended
      end
  end.
(** [opts.max_pages or ceiling], lowered to the ceiling *)
Definition page_ceiling (opts : CallOptions) : Z :=
  let ceiling := collect_max_pages config in
  Z.min (match op_max_pages opts with Some n => if (n =? 0)%Z then ceiling else n | None => ceiling end) ceiling.
Definition collect_pages (name : pystr) (spec : ToolSpec) (plan : RenderPlan) (validated : list (pystr * pystr))
    (user_id : option pystr) (opts : CallOptions) : ME ExternalCallResult :=
  match ts_pagination spec with
  | None =>
      failing ("endpoint '" +s+ name +s+ "' declares no pagination section; collect needs one " +s+
        "(add it to the record: kind page/offset/cursor, the param to advance)")
  | Some pagination =>
      match collecting user_id with
      | None => failing COLLECT_UNAVAILABLE_MESSAGE
      | Some (spill, owner) =>
          let w := {| wk_sink := new_sink owner (endpoint_source name) (op_label opts) (without_prefix <$> op_into opts);
                      wk_cursor := new_cursor pagination; wk_pages := 0; wk_status := 0 |} in
          let! ended := walk_pages (Z.to_nat (page_ceiling opts)) spill spec pagination plan validated user_id w in
          match ended with
          | Answered result => ret result
          | Walked w capped =>
              let! passport := finish spill (wk_sink w) capped in
              match passport with
              | None =>
                  ret {| er_status := wk_status w; er_body := "collect: '" +s+ name +s+ "' returned no records at all" |}
              | Some passport =>
                  let! now := utc_now in
                  ret {| er_status := wk_status w;
                         er_body := render_passport json_dumps passport now +s+ newline +s+ "collected " +s+
                                    str_of_Z (wk_pages w) +s+ " page(s) this call" |}
              end
          end
      end
  end.

(** ** Calls *)

(** [_content_kind] *)
Definition content_kind (content : pystr) : option pystr :=
  match loads content with
  | Some (JObj data) => match dict_get "kind" data with Some (JStr kind) => if str_empty kind then None else Some kind | _ => None end
  | _ => None
  end.
(** [_spill_or_truncate] *)
Definition spill_or_truncate (name : pystr) (user_id : option pystr) (scope : pystr) (response : option ResponseSpec) (page : PageResult)
    : ME pystr :=
  let! passport :=
    match spilling, user_id with
    | Some routes, Some user_id =>
        spill str_lower read_number float_text loads json_dumps csv_rows config utc_now routes user_id (pr_scrubbed page)
          (pr_content_type page) (endpoint_source name) (pr_wire_truncated page) "" scope response
    | _, _ => ret None
    end in
  match passport with
  | Some passport => ret passport
  | None =>
      let result := truncate (pr_scrubbed page) in
      ret (if pr_wire_truncated page && negb (str_endswith TRUNCATED_SUFFIX result) then result +s+ TRUNCATED_SUFFIX else result)
  end.
(** [execute] *)
Definition execute (name : pystr) (params : params) (user_id : option pystr) (opts : CallOptions) : ME ExternalCallResult :=
  let! content := get_by_name name user_id in
  match content_kind content with
  | Some kind =>
      if op_collect opts || bool_decide (is_Some (op_into opts)) then
        failing ("endpoint '" +s+ name +s+ "' is a kind record (" +s+ quoted repr kind +s+
          "); collect/into apply to classic HTTP endpoints only")
      else
        match delegates kind with
        | None =>
            failing ("endpoint '" +s+ name +s+ "' declares kind " +s+ quoted repr kind +s+
              ", which this installation has no executor for")
        | Some delegate => delegate content params user_id (op_scope opts)
        end
  | None =>
      let! spec := lift (parse_tool_spec str_lower str_upper repr json_loads content) in
      let params :=
        match ts_pagination spec with
        | Some pagination =>
            if op_collect opts && negb (dict_has (pg_param pagination) params)
            then dict_set (pg_param pagination) (JStr "") params else params
        | None => params
        end in
      let! validated := try_except (lift (validate_params str_lower repr spec params)) (fun e =>
        match e with
        | ExternalCallError text => failing (text +s+ "; the endpoint declares this contract: " +s+ content)
        | e => raise e
        end) in
      let! plan := lift (collect_plan spec) in
      if op_collect opts then collect_pages name spec plan validated user_id opts
      else
        let! page := request_once spec plan validated user_id in
        match op_into opts with
        | Some into => pour_into name spec page user_id into
        | None =>
            let! result := spill_or_truncate name user_id (op_scope opts) (ts_response spec) page in
            let result := if bool_decide (pr_status page ∈ UNAUTHENTICATED_STATUSES) && negb (pr_had_secrets page)
                          then result +s+ NO_CREDENTIAL_HINT else result in
            ret {| er_status := pr_status page; er_body := result |}
        end
  end.
End Executor.
