(* ===== verification/ExternalLaws.v ===== *)
(** * Laws of external calls

    What decides where a request goes, where secrets go, what of them comes
    back, and how the walk over pages ends. *)
From stdpp Require Import pretty.
From S2P Require Import Prelude PyStr Clock Sql Dict Domain ResponseMemory Secrets Collections CollectionIngest Templates Guard ToolSpecs External.

(** ** Parsed records *)

Lemma each_spec {A B} (f : A -> Res Exn B) l ys : each f l = Ok ys <-> Forall2 (fun x y => f x = Ok y) l ys.
Proof.
  revert ys. induction l as [|x l IH]; intros ys; cbn [each].
  - split; [by intros [= <-]|by intros H%Forall2_nil_inv_l; subst].
  - split.
    + intros H. apply rbind_Ok in H as (y & Hy & H). apply rbind_Ok in H as (ys' & Hys & [= <-]).
      constructor; [done|by apply IH].
    + intros H. apply Forall2_cons_inv_l in H as (y & ys' & Hy & Hys & ->). rewrite Hy. cbn [rbind].
      apply IH in Hys. by rewrite Hys.
Qed.
Lemma check_each_spec {A} (f : A -> Res Exn unit) l : check_each f l = Ok tt <-> Forall (fun x => f x = Ok tt) l.
Proof.
  unfold check_each. split.
  - intros H. apply rbind_Ok in H as (ys & H & _). apply each_spec in H.
    eapply Forall2_Forall_l; [exact H|]. by apply Forall_forall; intros [] _.
  - intros H. assert (H' : each f l = Ok ((fun _ => tt) <$> l)).
    { apply each_spec. induction H; cbn; by constructor. }
    by rewrite H'.
Qed.
Lemma elem_of_sorted_set (s : gset pystr) x : x ∈ sorted_set s <-> x ∈ s.
Proof. unfold sorted_set. rewrite (order_by_str_perm id). apply elem_of_elements. Qed.

(** What a parsed record promises of its templates. *)
Definition declared (refs : TemplateRefs) (params : list (pystr * ToolParamSpec)) : Prop :=
  forall name, name ∈ tr_params refs -> exists param, dict_get name params = Some param /\ tp_required param = true.
Definition host_confined (refs : TemplateRefs) (params : list (pystr * ToolParamSpec)) : Prop :=
  tr_secrets refs = ∅ /\
  forall name param, name ∈ tr_params refs -> dict_get name params = Some param -> tp_kind param = ParamKind.HOST.
Lemma template_fields_declared repr label template params :
  validate_template_fields repr label template params = Ok tt ->
  exists refs, collect_refs template = Ok refs /\ declared refs params.
Proof.
  unfold validate_template_fields. intros H. apply rbind_Ok in H as (refs & Hr & H). exists refs. split.
  - unfold label_error in Hr. destruct (collect_refs template) as [r|e]; [congruence|]. by destruct e.
  - intros name Hn. apply check_each_spec in H. rewrite Forall_forall in H.
    specialize (H name (proj2 (elem_of_sorted_set _ _) Hn)). cbn beta in H.
    destruct (dict_get name params) as [param|]; [|done]. destruct (tp_required param) eqn:Hreq; [by exists param|done].
Qed.
Lemma authority_confined repr url_template params :
  validate_url_authority repr url_template params = Ok tt ->
  exists refs, collect_refs (authority_prefix url_template) = Ok refs /\ host_confined refs params.
Proof.
  unfold validate_url_authority. intros H. apply rbind_Ok in H as (refs & Hr & H). exists refs. split; [done|].
  case_decide as Hs; [done|]. split; [done|].
  intros name param Hn Hp. apply check_each_spec in H. rewrite Forall_forall in H.
  specialize (H name (proj2 (elem_of_sorted_set _ _) Hn)). cbn beta in H. rewrite Hp in H.
  by case_decide.
Qed.
Lemma parse_pagination_declared raw params pagination :
  parse_pagination_spec raw params = Ok (Some pagination) -> is_Some (dict_get (pg_param pagination) params).
Proof.
  unfold parse_pagination_spec. destruct raw as [[| | | | | |d]|]; try done. destruct (PaginationKind.parse _) as [kind|]; [|done].
  intros H. apply rbind_Ok in H as (param & Hp & H). apply rbind_Ok in H as (start & _ & H).
  destruct (_ && _); [done|]. apply rbind_Ok in H as (total_path & _ & H). destruct (unknown_keys _ _); [|done].
  injection H as <-. cbn [pg_param]. destruct (dict_get "param" d) as [[| | | |name| |]|]; try done.
  case_bool_decide; [|done]. by injection Hp as <-.
Qed.
(** The record as the parser leaves it. *)
Record spec_ok (spec : ToolSpec) : Prop := {
  so_url : exists refs, collect_refs (ts_url_template spec) = Ok refs /\ declared refs (ts_params spec);
  so_authority : exists refs, collect_refs (authority_prefix (ts_url_template spec)) = Ok refs /\ host_confined refs (ts_params spec);
  so_body : forall body, ts_body_template spec = Some body -> exists refs, collect_refs body = Ok refs /\ declared refs (ts_params spec);
  so_headers : Forall (fun nv => exists refs, collect_refs nv.2 = Ok refs /\ declared refs (ts_params spec)) (ts_headers spec);
  so_names : Forall (fun np => str_has Templates.dot np.1 = false) (ts_params spec);
  so_method : ts_method spec ∈ ALLOWED_METHODS;
  so_pagination : forall pagination, ts_pagination spec = Some pagination -> is_Some (dict_get (pg_param pagination) (ts_params spec)) }.
Lemma parse_spec_ok str_lower str_upper repr json_loads content spec :
  parse_tool_spec str_lower str_upper repr json_loads content = Ok spec -> spec_ok spec.
Proof.
  unfold parse_tool_spec. intros H.
  apply rbind_Ok in H as (data & _ & H). apply rbind_Ok in H as ([] & _ & H).
  apply rbind_Ok in H as (method & Hm & H). apply rbind_Ok in H as (url & _ & H).
  apply rbind_Ok in H as (params & Hp & H). apply rbind_Ok in H as (body & _ & H).
  apply rbind_Ok in H as (headers & _ & H). apply rbind_Ok in H as ([auth headers'] & _ & H).
  apply rbind_Ok in H as ([] & Hu & H). apply rbind_Ok in H as ([] & Ha & H).
  apply rbind_Ok in H as ([] & Hb & H). apply rbind_Ok in H as ([] & Hh & H).
  apply rbind_Ok in H as (response & _ & H). apply rbind_Ok in H as (pagination & Hpg & [= <-]).
  split; cbn [ts_url_template ts_params ts_body_template ts_headers ts_method ts_pagination].
  - by eapply template_fields_declared.
  - by eapply authority_confined.
  - intros b ->. by eapply template_fields_declared.
  - apply check_each_spec in Hh. eapply Forall_impl; [exact Hh|]. cbn. intros nv Hnv. by eapply template_fields_declared.
  - unfold parse_params_schema in Hp. destruct (get_or_none _ data) as [[| | | | | |d]|]; try done; [|injection Hp as <-; constructor].
    apply each_spec in Hp. eapply Forall2_Forall_r; [exact Hp|]. apply Forall_forall. intros nv _ np H'.
    apply rbind_Ok in H' as (name & Hn & H'). apply rbind_Ok in H' as (param & _ & [= <-]). cbn [fst].
    unfold parse_param_name in Hn. destruct (str_empty nv.1); [done|]. destruct (str_has _ nv.1) eqn:Hd; [done|]. by injection Hn as <-.
  - unfold parse_method in Hm. destruct (dict_get _ data) as [[| | | |m| |]|]; try done. case_bool_decide; [|done]. by injection Hm as <-.
  - intros p ->. by eapply parse_pagination_declared.
Qed.

(** ** Where a request goes *)

Lemma occurs_split hay needle i : occurs hay needle i -> hay = take i hay ++ needle ++ drop (i + length needle) hay.
Proof.
  unfold occurs. intros H. rewrite <- (take_drop i hay) at 1. f_equal. rewrite <- H at 1. rewrite <- drop_drop.
  by rewrite take_drop.
Qed.
(** The place the authority of a template ends at: the first slash past the separator. *)
Lemma cut_at_slash l start :
  exists j, (start <= length l -> start <= j)%nat /\
    (match find_text [47]%N l start with Some path_start => take path_start l | None => l end) = take j l /\
    (drop j l = [] \/ exists r, drop j l = 47%N :: r).
Proof.
  pose proof (str_find_spec l [47%N] start ltac:(done)) as H. unfold find_text.
  destruct (str_find l [47%N] start) as [j|].
  - destruct H as (Hj & Ho & _). exists j. split_and!; [done|done|]. right. unfold occurs in Ho. cbn in Ho.
    destruct (drop j l) as [|c r]; [done|]. injection Ho as ->. by eexists.
  - exists (length l). rewrite firstn_all, drop_all. split_and!; [done|done|by left].
Qed.
Lemma authority_codes t :
  codes (authority_prefix t) =
  match find_text [47]%N (codes t) (match find_text scheme_sep (codes t) 0 with Some i => (i + 3)%nat | None => O end) with
  | Some path_start => take path_start (codes t) | None => codes t end.
Proof. unfold authority_prefix. by destruct (find_text [47%N] _ _). Qed.
Lemma authority_split t :
  exists rest, codes t = codes (authority_prefix t) ++ rest /\ (rest = [] \/ exists r, rest = 47%N :: r).
Proof.
  rewrite authority_codes. edestruct cut_at_slash as (j & _ & -> & Hd). exists (drop j (codes t)). by rewrite take_drop.
Qed.
(** The separator of the scheme stands outside the placeholders. *)
Definition literal_separator (t : pystr) : Prop :=
  exists i ts, find_text scheme_sep (codes t) 0 = Some i /\ formatter_parse (PyStr (take i (codes t))) = Ok ts.
Lemma authority_sep t :
  literal_separator t -> exists p ts q, codes (authority_prefix t) = p ++ scheme_sep ++ q /\ formatter_parse (PyStr p) = Ok ts.
Proof.
  intros (i & ts & Hf & Hp). pose proof (str_find_spec (codes t) scheme_sep 0 ltac:(done)) as Hs.
  rewrite authority_codes, Hf. unfold find_text in Hf. rewrite Hf in Hs. destruct Hs as (_ & Ho & _).
  pose proof (occurs_bound _ scheme_sep i ltac:(done) Ho) as Hb. apply occurs_split in Ho as Hsplit.
  change (length scheme_sep) with 3%nat in *. edestruct cut_at_slash as (j & Hj & -> & _).
  specialize (Hj Hb). exists (take i (codes t)), ts, (drop (i + 3) (take j (codes t))). split; [|done].
  assert (Hi : take (i + 3) (codes t) = take i (codes t) ++ scheme_sep).
  { rewrite Hsplit at 1. rewrite app_assoc, take_app_le.
    - rewrite take_ge; [done|]. rewrite length_app, length_take. cbn. lia.
    - rewrite length_app, length_take. cbn. lia. }
  rewrite app_assoc, <- Hi, <- (take_drop (i + 3) (take j (codes t))) at 1. rewrite take_take. do 2 f_equal. lia.
Qed.

(** The rendering of a template starts with that of its authority, and goes on
    with a slash. *)
Lemma render_split t vals url ts :
  formatter_parse (authority_prefix t) = Ok ts -> render_template t vals = Ok url ->
  exists a r, emit vals ts = Ok a /\ codes url = a ++ r /\ (r = [] \/ exists r', r = 47%N :: r').
Proof.
  unfold render_template. intros Hp H. destruct (formatter_parse t) as [all|] eqn:Hall; [|done].
  apply rbind_Ok in H as (text & He & [= <-]). cbn [codes].
  destruct (authority_split t) as (rest & Hsplit & Hrest). unfold formatter_parse in Hp, Hall. rewrite Hsplit in Hall.
  destruct Hrest as [->|[r ->]].
  - rewrite app_nil_r in Hall. rewrite Hp in Hall. injection Hall as ->. exists text, []. rewrite app_nil_r. auto.
  - assert (Hfree : brace_free_head (47%N :: r)) by done.
    destruct (scan_app_inv _ _ (S (length (47%N :: r))) _ _ _ _ Hp Hall Hfree ltac:(lia)) as (us & Hus & ->).
    cbn [scan] in Hus. change (47 =? lbrace)%N with false in Hus. change (47 =? rbrace)%N with false in Hus. cbn iota in Hus.
    apply rbind_Ok in Hus as (us' & _ & [= <-]). rewrite emit_app in He. apply rbind_Ok in He as (a & Ha & He).
    apply rbind_Ok in He as (b & Hb & [= <-]). cbn [emit] in Hb. apply rbind_Ok in Hb as (b' & _ & [= <-]).
    exists a, (47%N :: b'). eauto.
Qed.
Lemma emit_sep t vals ts a :
  literal_separator t -> formatter_parse (authority_prefix t) = Ok ts -> emit vals ts = Ok a -> contains scheme_sep a.
Proof.
  intros (p & us & q & Hsplit & Hp)%authority_sep Hts Ha. unfold formatter_parse in Hts. rewrite Hsplit in Hts.
  unfold formatter_parse in Hp. cbn [codes] in Hp. assert (Hfree : brace_free_head (scheme_sep ++ q)) by done.
  destruct (scan_app_inv _ _ (3 + S (length q)) _ _ _ _ Hp Hts Hfree ltac:(cbn; lia)) as (vs & Hvs & ->).
  change (58 =? lbrace)%N with false in Hvs. change (58 =? rbrace)%N with false in Hvs.
  change (47 =? lbrace)%N with false in Hvs. change (47 =? rbrace)%N with false in Hvs. cbn iota in Hvs.
  apply rbind_Ok in Hvs as (v1 & Hvs & [= <-]). apply rbind_Ok in Hvs as (v2 & Hvs & [= <-]).
  apply rbind_Ok in Hvs as (v3 & _ & [= <-]). rewrite emit_app in Ha. apply rbind_Ok in Ha as (b & _ & Ha).
  apply rbind_Ok in Ha as (c & Hc & [= <-]). cbn [emit] in Hc. apply rbind_Ok in Hc as (c1 & Hc & [= <-]).
  apply rbind_Ok in Hc as (c2 & Hc & [= <-]). apply rbind_Ok in Hc as (c3 & _ & [= <-]). by exists b, c3.
Qed.

Lemma merged_other k a b : k ∉ dict_keys b -> dict_get k (merged a b) = dict_get k a.
Proof.
  revert a. induction b as [|[k' v] b IH]; intros a; cbn; [done|]. rewrite not_elem_of_cons. intros [Hk Hb].
  unfold merged in IH. rewrite IH by done. rewrite dict_get_set. by rewrite decide_False by done.
Qed.
Lemma merged_over k a a' b : k ∈ dict_keys b -> dict_get k (merged a b) = dict_get k (merged a' b).
Proof.
  revert a a'. induction b as [|[k' v] b IH]; intros a a'; cbn; [by intros ?%not_elem_of_nil|].
  intros Hk. destruct (decide (k ∈ dict_keys b)) as [Hb|Hb]; [by apply IH|].
  apply elem_of_cons in Hk as [->|Hk]; [|done]. fold (merged (dict_set k' v a) b) (merged (dict_set k' v a') b).
  rewrite !merged_other by done. by rewrite !dict_get_set, !decide_True by done.
Qed.
Lemma dict_get_map {A B} k (f : pystr -> A -> B) (d : list (pystr * A)) :
  dict_get k ((fun nv => (nv.1, f nv.1 nv.2)) <$> d) = f k <$> dict_get k d.
Proof. induction d as [|[k' v] d IH]; cbn; [done|]. by case_decide; subst. Qed.
Lemma dict_keys_map {A B} (f : pystr -> A -> B) (d : list (pystr * A)) :
  dict_keys ((fun nv => (nv.1, f nv.1 nv.2)) <$> d) = dict_keys d.
Proof. unfold dict_keys. by rewrite <- list_fmap_compose. Qed.
(** The names of the two namespaces. *)
Definition in_namespace (field : pystr -> pystr) (d : list (pystr * pystr)) : list (pystr * pystr) :=
  (fun cv => (field cv.1, cv.2)) <$> d.
Lemma in_namespace_keys field k d : k ∈ dict_keys (in_namespace field d) -> exists code, k = field code.
Proof. unfold dict_keys, in_namespace. rewrite <- list_fmap_compose, list_elem_of_fmap. intros (cv & -> & _). by eexists. Qed.
Lemma user_dotted code : str_has Templates.dot (user_field code) = true.
Proof. by destruct code. Qed.
Lemma secret_dotted code : str_has Templates.dot (secret_field code) = true.
Proof. by destruct code. Qed.
Lemma user_not_secret code code' : user_field code <> secret_field code'.
Proof. by destruct code, code'. Qed.

Lemma order_by_str_nil {A} (f : A -> pystr) l : order_by_str f l = [] -> l = [].
Proof. intros H. apply Permutation_nil. by rewrite <- H, order_by_str_perm. Qed.
Lemma unknown_nil {A} (d : list (pystr * A)) (raw : list (pystr * json)) k :
  unknown_keys raw (dict_keys d) = [] -> k ∈ dict_keys raw -> is_Some (dict_get k d).
Proof.
  intros H%order_by_str_nil Hk. destruct (dict_get k d) eqn:Hd; [by eexists|]. exfalso. apply dict_get_None in Hd.
  assert (Hin : k ∈ List.filter (fun k => negb (bool_decide (k ∈ dict_keys d))) (dict_keys raw)).
  { rewrite list_elem_of_In, List.filter_In, <- list_elem_of_In. split; [done|]. by rewrite bool_decide_false by done. }
  rewrite H in Hin. by apply not_elem_of_nil in Hin.
Qed.
Section Params.
Context (str_lower str_upper : pystr -> pystr) (repr : option json -> pystr).
(** What the validated values are. *)
Lemma validated_spec spec raw params :
  validate_params str_lower repr spec raw = Ok params ->
  Forall (fun nv => is_Some (dict_get nv.1 (ts_params spec)) /\
    exists given, validate_value str_lower repr nv.1 (param_spec spec nv.1) given = Ok nv.2) params.
Proof using Type.
  unfold validate_params. destruct (unknown_keys _ _) as [|] eqn:Hu; [|done].
  destruct (order_by_str id _) as [|]; [|done]. destruct (order_by_str id _) as [|]; [|done]. intros H%each_spec.
  eapply Forall2_Forall_r; [exact H|]. apply Forall_forall. intros given Hg nv' H'. apply rbind_Ok in H' as (v & Hv & [= <-]). cbn [fst snd]. split; [|eauto].
  eapply unknown_nil; [exact Hu|]. apply list_elem_of_fmap. eauto.
Qed.
Lemma host_covered spec raw params name param v :
  validate_params str_lower repr spec raw = Ok params ->
  dict_get name (ts_params spec) = Some param -> tp_kind param = ParamKind.HOST -> dict_get name params = Some v ->
  exists pattern, pattern ∈ tp_hosts param /\ host_matches str_lower pattern v = true.
Proof using Type.
  intros H Hp Hk Hv. apply validated_spec in H. rewrite Forall_forall in H.
  destruct (H _ (dict_get_elem _ _ _ Hv)) as [_ [given Hg]]. cbn [fst snd] in Hg. unfold validate_value, param_spec in Hg.
  rewrite Hp in Hg. cbn [from_option id] in Hg. rewrite Hk in Hg. unfold validate_host in Hg.
  destruct (_ || _); [done|]. destruct (existsb _ (tp_hosts param)) eqn:He; [|done]. injection Hg as <-.
  apply existsb_exists in He as (pattern & Hin & Hm). exists pattern. by rewrite list_elem_of_In.
Qed.
(** The three layers of values of a URL, by the name asked for. *)
Lemma url_value_param spec params users sentinels name :
  str_has Templates.dot name = false ->
  dict_get name (url_values spec params (in_namespace user_field users) sentinels) =
  escape_for_url (param_spec spec name) <$> dict_get name params.
Proof using Type.
  intros Hd. unfold url_values. rewrite !merged_other.
  - by rewrite (dict_get_map name (fun n => escape_for_url (param_spec spec n))).
  - rewrite (dict_keys_map (fun _ => quote)). intros (code & ->)%in_namespace_keys. by rewrite user_dotted in Hd.
  - intros (code & ->)%in_namespace_keys. by rewrite secret_dotted in Hd.
Qed.
Lemma url_value_user spec p1 p2 users s1 s2 code :
  user_field code ∉ dict_keys p1 -> user_field code ∉ dict_keys p2 ->
  dict_get (user_field code) (url_values spec p1 (in_namespace user_field users) s1) =
  dict_get (user_field code) (url_values spec p2 (in_namespace user_field users) s2).
Proof using Type.
  intros H1 H2. unfold url_values. rewrite !(merged_other (user_field code) (merged _ _)).
  2,3: intros (c & Hc)%in_namespace_keys; by apply user_not_secret in Hc.
  set (u := _ <$> in_namespace user_field users). destruct (decide (user_field code ∈ dict_keys u)) as [Hu|Hu].
  - by apply merged_over.
  - rewrite !merged_other by done. rewrite !(dict_get_map _ (fun n => escape_for_url (param_spec spec n))).
    by rewrite !(proj2 (dict_get_None _ _)).
Qed.
End Params.

Lemma classify_param f name : classify f = Ok (RParam name) -> str_has Templates.dot name = false.
Proof.
  unfold classify. destruct (str_empty _); [done|]. destruct (_ || _); [done|].
  destruct (partition_dot (f_name f)) as [[ns code]|] eqn:Hp.
  - case_decide; [|case_decide; [|done]]; by intros (_ & _ & ?)%rbind_Ok.
  - intros [= <-]. unfold str_has. apply bool_decide_false. cbn [codes]. revert Hp.
    induction (f_name f) as [|c l IH]; cbn [partition_dot]; [by intros _ ?%not_elem_of_nil|].
    destruct (N.eqb_spec c Templates.dot) as [->|Hc]; [done|]. destruct (partition_dot l); [done|]. intros _.
    apply not_elem_of_cons. split; [congruence|by apply IH].
Qed.
Lemma urlsplit_to_slash bracketed_ok nfkc_ok url a r :
  contains scheme_sep a -> codes url = a ++ r -> (r = [] \/ exists r', r = 47%N :: r') ->
  urlsplit bracketed_ok nfkc_ok url = urlsplit bracketed_ok nfkc_ok (PyStr a).
Proof.
  destruct url as [l]. cbn [codes]. intros Hsep -> [->|[r' ->]]; [by rewrite app_nil_r|by apply urlsplit_prefix].
Qed.

Section Destination.
Context (bracketed_ok nfkc_ok : list N -> bool) (str_lower str_upper : pystr -> pystr) (repr : option json -> pystr).
Context (json_loads : pystr -> Res pystr json).

(** The parameters a request of the record carries: those of a call, and in a
    walk over pages those of the call with the page's own value, whatever it
    is, put over the parameter the pagination names. *)
Inductive carried (spec : ToolSpec) : option pystr -> list (pystr * pystr) -> Prop :=
| carried_call raw p : validate_params str_lower repr spec raw = Ok p -> carried spec None p
| carried_page raw p pagination value :
    validate_params str_lower repr spec raw = Ok p -> ts_pagination spec = Some pagination ->
    carried spec (Some (pg_param pagination)) (dict_set (pg_param pagination) value p).
Lemma carried_declared spec over p name :
  spec_ok spec -> carried spec over p -> name ∈ dict_keys p -> is_Some (dict_get name (ts_params spec)).
Proof using Type.
  intros Hok Hc Hn.
  assert (Hv : forall raw p, validate_params str_lower repr spec raw = Ok p -> name ∈ dict_keys p -> is_Some (dict_get name (ts_params spec))).
  { intros raw q H%validated_spec (nv & -> & Hnv)%list_elem_of_fmap. rewrite Forall_forall in H. by destruct (H _ Hnv). }
  destruct Hc as [raw p H|raw p pagination value H Hp]; [by eapply Hv|].
  rewrite dict_keys_set in Hn. case_decide; [by eapply Hv|].
  apply elem_of_app in Hn as [Hn| ->%list_elem_of_singleton]; [by eapply Hv|by apply (so_pagination _ Hok)].
Qed.
Lemma undotted_key spec over params name :
  spec_ok spec -> carried spec over params -> str_has Templates.dot name = true -> name ∉ dict_keys params.
Proof using Type.
  intros Hok Hc Hd Hn. destruct (carried_declared _ _ _ _ Hok Hc Hn) as [param Hp%dict_get_elem].
  pose proof (so_names _ Hok) as Hs. rewrite Forall_forall in Hs. specialize (Hs _ Hp). cbn [fst] in Hs. congruence.
Qed.
(** Two calls that agree on the host parameters render the same authority. *)
Lemma same_authority spec over1 over2 p1 p2 users s1 s2 ts refs :
  spec_ok spec -> carried spec over1 p1 -> carried spec over2 p2 ->
  (forall name param, dict_get name (ts_params spec) = Some param -> tp_kind param = ParamKind.HOST ->
     dict_get name p1 = dict_get name p2) ->
  refs_of ts = Ok refs -> host_confined refs (ts_params spec) ->
  emit (values_of (url_values spec p1 (in_namespace user_field users) s1)) ts =
  emit (values_of (url_values spec p2 (in_namespace user_field users) s2)) ts.
Proof using Type.
  intros Hok H1 H2 Hhost Hrefs [Hsec Hconf]. apply emit_ext. intros f Hf.
  destruct (refs_of_in _ _ _ Hrefs Hf) as (r & Hr & Hin). rewrite (classify_name _ _ Hr). unfold values_of.
  destruct r as [name|code|code]; cbn [full_name in_refs] in *.
  - apply classify_param in Hr. rewrite !url_value_param by done.
    destruct (dict_get name (ts_params spec)) as [param|] eqn:Hp; [by rewrite (Hhost name param Hp (Hconf name param Hin Hp))|].
    assert (Hnone : forall over p, carried spec over p -> dict_get name p = None).
    { intros over p Hc. apply dict_get_None. intros Hn. destruct (carried_declared _ _ _ _ Hok Hc Hn). congruence. }
    by rewrite (Hnone _ _ H1), (Hnone _ _ H2).
  - apply url_value_user; (eapply undotted_key; [done..|apply user_dotted]).
  - rewrite Hsec in Hin. set_solver.
Qed.
(** C29: For a record whose template writes the [://] of its scheme outside the placeholders: a parameter that is not of kind [host] cannot move a request. Requests of one record with the same values of the user, which an operator set and which may stand in the host, that agree on its host parameters go to the same scheme and network location, whatever else they carry, a page's cursor included; and each host parameter is covered by the allowlist the record gives it, but for one that the pagination itself overwrites. *)
Theorem params_keep_destination content spec over1 over2 p1 p2 users s1 s2 url1 url2 :
  parse_tool_spec str_lower str_upper repr json_loads content = Ok spec -> literal_separator (ts_url_template spec) ->
  carried spec over1 p1 -> carried spec over2 p2 ->
  (forall name param, dict_get name (ts_params spec) = Some param -> tp_kind param = ParamKind.HOST ->
     dict_get name p1 = dict_get name p2) ->
  render_url spec p1 (in_namespace user_field users) s1 = Ok url1 ->
  render_url spec p2 (in_namespace user_field users) s2 = Ok url2 ->
  urlsplit bracketed_ok nfkc_ok url1 = urlsplit bracketed_ok nfkc_ok url2 /\
  forall name param v, dict_get name (ts_params spec) = Some param -> tp_kind param = ParamKind.HOST ->
    over1 <> Some name -> dict_get name p1 = Some v ->
    exists pattern, pattern ∈ tp_hosts param /\ host_matches str_lower pattern v = true.
Proof using Type.
  intros Hparse Hlit H1 H2 Hhost Hu1 Hu2. split.
  - apply parse_spec_ok in Hparse as Hok. destruct (so_authority _ Hok) as (refs & Hrefs & Hconf).
    unfold collect_refs in Hrefs. destruct (formatter_parse _) as [ts|] eqn:Hts; [|done].
    destruct (render_split _ _ _ _ Hts Hu1) as (a1 & r1 & Ha1 & Hc1 & Hr1).
    destruct (render_split _ _ _ _ Hts Hu2) as (a2 & r2 & Ha2 & Hc2 & Hr2).
    rewrite (same_authority spec over1 over2 p1 p2 users s1 s2 ts refs) in Ha1 by done. rewrite Ha1 in Ha2. injection Ha2 as <-.
    pose proof (emit_sep _ _ _ _ Hlit Hts Ha1) as Hsep.
    by rewrite (urlsplit_to_slash _ _ url1 a1 r1), (urlsplit_to_slash _ _ url2 a1 r2).
  - intros name param v Hp Hk Hover Hv. destruct H1 as [raw p H|raw p pagination value H _]; [by eapply host_covered|].
    rewrite dict_get_set in Hv. case_decide as Hd; [by subst|by eapply host_covered].
Qed.
End Destination.

(** ** Replacement *)

Lemma replace_in_skip fuel old new c r :
  (length old <= length (c :: r))%nat -> take (length old) (c :: r) <> old ->
  replace_in (S fuel) old new (c :: r) = c :: replace_in fuel old new r.
Proof. intros _ H. cbn [replace_in]. by rewrite decide_False by done. Qed.
Lemma occurs_contains hay needle i : occurs hay needle i -> contains needle hay.
Proof. intros H%occurs_split. by eexists _, _. Qed.
Lemma contains_infix needle hay : needle <> [] -> contains needle hay <-> is_infix needle hay = true.
Proof.
  intros Hn. unfold is_infix, find_text. rewrite bool_decide_eq_true. pose proof (str_find_spec hay needle 0 Hn) as H.
  destruct (str_find hay needle 0) as [i|].
  - destruct H as (_ & Ho & _). split; [by eexists|]. intros _. by eapply occurs_contains.
  - split; [|by intros [? ?]]. intros (a & b & ->). exfalso. apply (H (length a)); [lia|].
    unfold occurs. by rewrite drop_app_length, take_app_length.
Qed.
Lemma contains_cons needle c r : contains needle (c :: r) <-> take (length needle) (c :: r) = needle \/ contains needle r.
Proof.
  split.
  - intros ([|x a] & b & H); cbn in H.
    + left. rewrite H. by rewrite take_app_length.
    + right. injection H as -> ->. by eexists _, _.
  - intros [H|(a & b & ->)]; [|by exists (c :: a), b].
    exists [], (drop (length needle) (c :: r)). cbn [app]. rewrite <- H at 1. by rewrite take_drop.
Qed.
(** Replacing a text leaves what stands before a character it lacks. *)
Lemma replace_in_prefix fuel old new a c r :
  old <> [] -> c ∉ old -> ~ contains old a -> (length a <= fuel)%nat ->
  replace_in fuel old new (a ++ c :: r) = a ++ replace_in (fuel - length a) old new (c :: r).
Proof.
  intros Ho Hc. revert fuel. induction a as [|x a IH]; intros fuel Ha Hf; cbn [app length]; [by rewrite Nat.sub_0_r|].
  cbn [length] in Hf. destruct fuel as [|fuel]; [lia|]. cbn [replace_in]. rewrite decide_False.
  - rewrite IH; [done| |lia]. intros H. apply Ha. apply contains_cons. auto.
  - intros H. apply Ha. apply contains_cons. left. destruct (Nat.le_gt_cases (length old) (length (x :: a))) as [Hl|Hl].
    + change (x :: a ++ c :: r) with ((x :: a) ++ c :: r) in H. by rewrite take_app_le in H.
    + exfalso. apply Hc. rewrite <- H. change (x :: a ++ c :: r) with ((x :: a) ++ c :: r).
      rewrite take_app_ge by lia. apply elem_of_app. right.
      destruct (length old - length (x :: a))%nat eqn:Hd; [lia|]. cbn. by left.
Qed.
Lemma replace_in_none fuel old new a : ~ contains old a -> replace_in fuel old new a = a.
Proof.
  revert a. induction fuel as [|fuel IH]; intros [|c a] Ha; cbn [replace_in]; [done..|].
  rewrite contains_cons in Ha. rewrite decide_False by tauto. by rewrite IH by tauto.
Qed.
Lemma replace_after_slash old new url a r :
  codes old <> [] -> 47%N ∉ codes old -> ~ contains (codes old) a ->
  codes url = a ++ r -> (r = [] \/ exists r', r = 47%N :: r') ->
  exists r', codes (str_replace old new url) = a ++ r' /\ (r' = [] \/ exists r'', r' = 47%N :: r'').
Proof.
  intros Ho Hs Ha Hu Hr. unfold str_replace. cbn [codes]. rewrite Hu. destruct Hr as [->|[r' ->]].
  - exists []. rewrite app_nil_r, replace_in_none by done. by split; [|left].
  - rewrite replace_in_prefix by (rewrite ?length_app; done || lia). eexists. split; [done|]. right.
    rewrite length_app. cbn [length]. replace (S (length a + S (length r')) - length a)%nat with (S (S (length r'))) by lia.
    cbn [replace_in]. rewrite decide_False; [by eexists|]. intros H. apply Hs. rewrite <- H.
    destruct (codes old); [done|]. cbn. by left.
Qed.

Section Substitution.
Context (bracketed_ok nfkc_ok : list N -> bool) (str_lower str_upper : pystr -> pystr) (repr : option json -> pystr).
Context (json_loads : pystr -> Res pystr json).

Lemma substitute_after_slash netloc sentinels secrets safe_url url a r :
  Forall (fun cs => codes cs.2 <> [] /\ (47%N ∉ codes cs.2) /\ ~ contains (codes cs.2) a) sentinels ->
  codes safe_url = a ++ r -> (r = [] \/ exists r', r = 47%N :: r') ->
  substitute netloc sentinels secrets safe_url = Ok url ->
  exists r', codes url = a ++ r' /\ (r' = [] \/ exists r'', r' = 47%N :: r'').
Proof using Type.
  intros Hs. revert safe_url r. induction Hs as [|[code sentinel] sentinels (Hne & Hsl & Hno) Hs IH]; intros safe_url r Hu Hr; cbn [substitute].
  - intros [= <-]. by exists r.
  - destruct (is_infix _ netloc); [done|]. destruct (dict_get code secrets) as [secret|]; [|done]. cbn [fst snd] in *.
    destruct (replace_after_slash sentinel (quote (rs_value secret)) safe_url a r Hne Hsl Hno Hu Hr) as (r' & Hu' & Hr').
    by apply IH with r'.
Qed.
(** Putting the secrets in a URL does not move it: what is sent has the scheme and the network location the guard and the host binding judged, whatever the secrets hold, as long as the marks that stood for them are slash-free and not part of the authority the parameters give. *)
Theorem substitution_keeps_destination content spec params users sentinels secrets safe_url url :
  parse_tool_spec str_lower str_upper repr json_loads content = Ok spec -> literal_separator (ts_url_template spec) ->
  let values := values_of (url_values spec params (in_namespace user_field users) sentinels) in
  (forall host, render_template (authority_prefix (ts_url_template spec)) values = Ok host ->
     Forall (fun cs => codes cs.2 <> [] /\ (47%N ∉ codes cs.2) /\ ~ contains (codes cs.2) (codes host)) sentinels) ->
  render_url spec params (in_namespace user_field users) sentinels = Ok safe_url ->
  substitute_url_secrets bracketed_ok nfkc_ok safe_url sentinels secrets = Ok url ->
  urlsplit bracketed_ok nfkc_ok url = urlsplit bracketed_ok nfkc_ok safe_url.
Proof using Type.
  intros Hparse Hlit values Hmarks Hrender Hsub.
  apply parse_spec_ok in Hparse as Hok. destruct (so_authority _ Hok) as (refs & Hrefs & _).
  unfold collect_refs in Hrefs. destruct (formatter_parse _) as [ts|] eqn:Hts; [|done].
  destruct (render_split _ _ _ _ Hts Hrender) as (a & r & Ha & Hc & Hr).
  pose proof (emit_sep _ _ _ _ Hlit Hts Ha) as Hsep.
  assert (Hhost : render_template (authority_prefix (ts_url_template spec)) values = Ok (PyStr a)).
  { unfold render_template. rewrite Hts. unfold values. by rewrite Ha. }
  destruct (substitute_after_slash _ _ _ _ _ a r (Hmarks _ Hhost) Hc Hr Hsub) as (r' & Hc' & Hr').
  by rewrite (urlsplit_to_slash _ _ url a r'), (urlsplit_to_slash _ _ safe_url a r).
Qed.
End Substitution.

(** ** What of a secret comes back *)


Definition bracket_free (g : list N) : Prop := (91%N ∉ g) /\ (93%N ∉ g).
(** A text without brackets lies on one side of a bracket. *)
Lemma contains_beside g a c r : c ∉ g -> contains g (a ++ c :: r) -> contains g a \/ contains g r.
Proof.
  intros Hc. induction a as [|x a IH]; cbn [app]; rewrite contains_cons.
  - intros [H|H]; [|by right]. destruct g as [|y g]; [left; by exists [], []|]. cbn in H. injection H as -> _.
    exfalso. apply Hc. by left.
  - intros [H|H]; [left|destruct (IH H) as [?|?]; [left; apply contains_cons; auto|by right]].
    apply contains_cons. left. change (x :: a ++ c :: r) with ((x :: a) ++ c :: r) in H.
    destruct (Nat.le_gt_cases (length g) (length (x :: a))) as [Hl|Hl]; [by rewrite take_app_le in H|].
    exfalso. apply Hc. rewrite <- H. rewrite take_app_ge by lia. apply elem_of_app. right.
    destruct (length g - length (x :: a))%nat eqn:Hd; [lia|]. cbn. by left.
Qed.
Definition mark : list N := codes SECRET_SCRUBBED.
Lemma mark_split : exists w, mark = 91%N :: w ++ [93%N] /\ w = codes ("secret" : pystr).
Proof. exists (codes ("secret" : pystr)). by split. Qed.
Lemma contains_mark g r : bracket_free g -> contains g (mark ++ r) -> contains g (codes ("secret" : pystr)) \/ contains g r.
Proof.
  intros [H1 H2] H. destruct mark_split as (w & Hm & <-). rewrite Hm in H. cbn [app] in H. rewrite <- app_assoc in H. cbn [app] in H.
  change (91%N :: w ++ 93%N :: r) with ([] ++ 91%N :: w ++ 93%N :: r) in H. apply contains_beside in H as [H|H]; [|by apply contains_beside in H|done].
  left. destruct H as (a & b & H). destruct a, g; [|done..]. by exists [], w.
Qed.
Lemma replace_in_head fuel old g l :
  bracket_free g -> take (length g) (replace_in fuel old mark l) = g -> take (length g) l = g.
Proof.
  revert g l. induction fuel as [|fuel IH]; intros g l Hg; cbn [replace_in]; [done|]. destruct l as [|c r]; [done|].
  case_decide as Ho.
  - destruct g as [|x g]; [done|]. change mark with (91%N :: drop 1 mark). cbn. intros [= <- _]. exfalso. apply (proj1 Hg). by left.
  - destruct g as [|x g]; [done|]. cbn. intros [= <- H]. f_equal. apply IH; [|done].
    destruct Hg. split; set_solver.
Qed.
Lemma contains_drop g k l : contains g (drop k l) -> contains g l.
Proof. intros (a & b & H). exists (take k l ++ a), b. by rewrite <- app_assoc, <- H, take_drop. Qed.
(** Masking one form brings back no other, and leaves none of itself. *)
Lemma replace_in_contains fuel old g l :
  old <> [] -> bracket_free g -> ~ contains g (codes ("secret" : pystr)) -> (length l < fuel)%nat ->
  contains g (replace_in fuel old mark l) -> contains g l /\ g <> old.
Proof.
  intros Hold Hg Hsec. assert (Hne : g <> []) by (intros ->; apply Hsec; by eexists [], _).
  revert l. induction fuel as [|fuel IH]; intros l Hf; [lia|]. cbn [replace_in]. destruct l as [|c r].
  - intros (a & b & H). by destruct a, g.
  - cbn [length] in Hf. case_decide as Ho; intros H.
    + apply contains_mark in H as [H|H]; [done| |done]. apply IH in H as [H ?].
      * by apply contains_drop in H.
      * rewrite length_drop. destruct old; [done|]. cbn [length]. lia.
    + assert (Hhead : take (length g) (c :: replace_in fuel old mark r) = g -> contains g (c :: r) /\ g <> old).
      { intros Ht. assert (Ht' : take (length g) (c :: r) = g).
        { apply (replace_in_head (S fuel) old); [done|]. cbn [replace_in]. by rewrite decide_False by done. }
        split; [apply contains_cons; by left|]. intros ->. by apply Ho. }
      apply contains_cons in H as [H|H]; [by apply Hhead|]. apply IH in H as [H ?]; [|lia].
      split; [apply contains_cons; by right|done].
Qed.
Lemma replace_form form g body :
  codes form <> [] -> bracket_free (codes g) -> ~ contains (codes g) (codes ("secret" : pystr)) ->
  contains (codes g) (codes (str_replace form SECRET_SCRUBBED body)) -> contains (codes g) (codes body) /\ g <> form.
Proof.
  intros Hf Hg Hs H. apply replace_in_contains in H as [H Hne]; [|done..|lia]. split; [done|]. by intros ->.
Qed.
Lemma longest_form_first_perm forms : longest_form_first forms ≡ₚ forms.
Proof.
  unfold longest_form_first. induction forms as [|f forms IH]; cbn [foldr]; [done|]. rewrite <- IH at 2. clear IH.
  generalize (foldr (fix insert f l := match l with [] => [f] | g :: l' => if (str_len g <=? str_len f)%Z then f :: l else g :: insert f l' end) [] forms).
  intros l. induction l as [|g l IH]; [done|]. destruct (str_len g <=? str_len f)%Z; [done|]. by rewrite IH, Permutation_swap.
Qed.
Definition secret_forms (secrets : list ResolvedSecret) : list pystr := concat (forms_of <$> secrets).
Lemma scrub_forms secrets body :
  (forall form, form ∈ secret_forms secrets -> codes form <> [] /\ bracket_free (codes form) /\ ~ contains (codes form) (codes ("secret" : pystr))) ->
  forall form, form ∈ secret_forms secrets -> ~ contains (codes form) (codes (scrub body secrets)).
Proof.
  intros Hok form Hform. unfold scrub. fold (secret_forms secrets).
  assert (Hin : form ∈ longest_form_first (remove_dups (secret_forms secrets))).
  { rewrite longest_form_first_perm. by apply elem_of_remove_dups. }
  assert (Hall : forall f, f ∈ longest_form_first (remove_dups (secret_forms secrets)) -> f ∈ secret_forms secrets).
  { intros f. rewrite longest_form_first_perm. by rewrite elem_of_remove_dups. }
  revert body Hin. induction (longest_form_first _) as [|f l IH]; intros body Hin; [by apply not_elem_of_nil in Hin|].
  cbn [foldl]. destruct (Hok form Hform) as (Hne & Hbf & Hsec). destruct (decide (form ∈ l)) as [Hl|Hl].
  - apply IH; [|done]. intros g Hg. apply Hall. by right.
  - apply elem_of_cons in Hin as [->|Hin]; [|done].
    enough (Hpres : forall l' b, (forall g, g ∈ l' -> codes g <> []) -> ~ contains (codes f) (codes b) ->
      ~ contains (codes f) (codes (foldl (fun body form => str_replace form SECRET_SCRUBBED body) b l'))).
    { apply Hpres; [intros g Hg; apply Hok, Hall; by right|]. intros H. by apply replace_form in H as [_ H]. }
    clear -Hbf Hsec. induction l' as [|g l' IH]; intros b Hnes Hno; cbn [foldl]; [done|].
    apply IH; [intros; apply Hnes; by right|]. intros H. apply replace_form in H as [H _]; [done|apply Hnes; by left|done..].
Qed.
(** The percent-encoding of a text has no bracket, and is not empty. *)
Lemma hex_digit_range n : (n < 16)%N -> (48 <= hex_digit n <= 70)%N.
Proof. unfold hex_digit. destruct (N.ltb_spec n 10); lia. Qed.
Lemma elem_of_concat {A} (x : A) ls : x ∈ concat ls <-> exists l, x ∈ l /\ l ∈ ls.
Proof.
  rewrite list_elem_of_In, in_concat. split; intros (l & H1 & H2); exists l; rewrite ?list_elem_of_In in *; tauto.
Qed.
Lemma utf8_byte c b : (c < 1114112)%N -> b ∈ utf8_char c -> (b < 256)%N.
Proof.
  intros Hc. pose proof (N.mod_lt (c / 64) 64 ltac:(lia)). pose proof (N.mod_lt c 64 ltac:(lia)).
  pose proof (N.mod_lt (c / 4096) 64 ltac:(lia)). unfold utf8_char.
  destruct (N.ltb_spec c 128); [|destruct (N.ltb_spec c 2048); [|destruct (N.ltb_spec c 65536)]];
    rewrite ?elem_of_cons, ?elem_of_nil; intros Hb; repeat destruct Hb as [->|Hb]; try done; try lia.
  - assert (c / 64 < 32)%N by (apply N.Div0.div_lt_upper_bound; lia). lia.
  - assert (c / 4096 < 16)%N by (apply N.Div0.div_lt_upper_bound; lia). lia.
  - assert (c / 262144 < 8)%N by (apply N.Div0.div_lt_upper_bound; lia). lia.
Qed.
(** A string of Python: code points of Unicode. *)
Definition is_text (s : pystr) : Prop := Forall (fun c => (c < 1114112)%N) (codes s).
Lemma quote_bracket_free value : is_text value -> bracket_free (codes (quote value)).
Proof.
  intros Ht. enough (H : Forall (fun b => b <> 91 /\ b <> 93)%N (codes (quote value))).
  { rewrite Forall_forall in H. split; intros Hin; by apply H in Hin as [? ?]. }
  cbn [quote codes]. unfold quote_codes. apply Forall_concat, Forall_fmap, Forall_forall. intros b Hb.
  assert (Hlt : (b < 256)%N).
  { unfold utf8 in Hb. apply elem_of_concat in Hb as (l & Hl & (c & -> & Hc)%list_elem_of_fmap).
    unfold is_text in Ht. rewrite Forall_forall in Ht. by eapply utf8_byte; [apply Ht|]. }
  cbn [compose]. unfold quote_byte. destruct (unreserved b) eqn:Hu.
  - repeat constructor; intros ->; done.
  - assert (b / 16 < 16)%N by (apply N.Div0.div_lt_upper_bound; lia). pose proof (N.mod_lt b 16 ltac:(lia)).
    pose proof (hex_digit_range (b / 16) ltac:(lia)). pose proof (hex_digit_range (b mod 16) ltac:(lia)).
    repeat constructor; lia.
Qed.
Lemma quote_nonempty value : codes value <> [] -> codes (quote value) <> [].
Proof.
  destruct value as [[|c l]]; [done|]. intros _. cbn. unfold utf8_char, quote_byte.
  destruct (c <? 128)%N; [|destruct (c <? 2048)%N; [|destruct (c <? 65536)%N]]; cbn; by destruct (unreserved _).
Qed.
(** A secret that masking can find: a text without brackets whose forms are not a part of the mark. *)
Definition maskable (secret : ResolvedSecret) : Prop :=
  forall value, value = rs_value secret \/ value = rs_plain secret ->
    is_text value /\ bracket_free (codes value) /\
    ~ contains (codes value) (codes ("secret" : pystr)) /\ ~ contains (codes (quote value)) (codes ("secret" : pystr)).
(** No form of the secret stands in the text: neither the value sent nor the
    plain one, as they are or percent-encoded. *)
Definition hidden (text : pystr) (secret : ResolvedSecret) : Prop :=
  forall value, value = rs_value secret \/ value = rs_plain secret ->
    ~ contains (codes value) (codes text) /\ ~ contains (codes (quote value)) (codes text).
Lemma form_of secret form :
  form ∈ forms_of secret -> exists value, (value = rs_value secret \/ value = rs_plain secret) /\ codes value <> [] /\
    (form = value \/ form = quote value).
Proof.
  intros (l & Hl & (value & -> & Hv)%list_elem_of_fmap)%elem_of_concat. exists value.
  assert (Hv' : value = rs_value secret \/ value = rs_plain secret) by set_solver. split; [done|].
  destruct (str_empty value) eqn:He; [by apply not_elem_of_nil in Hl|]. split; [|set_solver].
  intros Hc. unfold str_empty in He. by rewrite Hc in He.
Qed.
Lemma form_in_secrets secrets form :
  form ∈ secret_forms secrets -> exists secret, secret ∈ secrets /\ form ∈ forms_of secret.
Proof. intros (l & Hl & (secret & -> & Hs)%list_elem_of_fmap)%elem_of_concat. eauto. Qed.
Lemma scrub_hides secrets body : Forall maskable secrets -> Forall (hidden (scrub body secrets)) secrets.
Proof.
  rewrite !Forall_forall. intros Hok secret Hs value Hv. specialize (Hok secret Hs) as Hone.
  assert (Hne : codes value <> []).
  { intros He. destruct (Hone _ Hv) as (_ & _ & Hno & _). apply Hno. rewrite He. by eexists [], _. }
  assert (Hin : value ∈ secret_forms secrets /\ quote value ∈ secret_forms secrets).
  { assert (Hf : value ∈ forms_of secret /\ quote value ∈ forms_of secret).
    { unfold forms_of. cbn. assert (He : str_empty value = false) by (unfold str_empty; by destruct (codes value)).
      destruct Hv; subst value; rewrite He; set_solver. }
    unfold secret_forms. split; apply elem_of_concat; eexists; (split; [|apply list_elem_of_fmap; by exists secret]); tauto. }
  split; apply scrub_forms; try tauto; clear dependent value; clear secret Hs Hone;
    intros form (secret & Hs & (value & Hv & Hne & Hf)%form_of)%form_in_secrets; destruct (Hok _ Hs _ Hv) as (Ht & Hb & H1 & H2);
    destruct Hf as [->| ->]; split_and!; done || by (apply quote_nonempty || apply quote_bracket_free).
Qed.
Lemma scrub_nothing secrets body : Forall (hidden body) secrets -> scrub body secrets = body.
Proof.
  rewrite Forall_forall. intros Hh. unfold scrub. fold (secret_forms secrets).
  assert (Hall : forall f, f ∈ longest_form_first (remove_dups (secret_forms secrets)) -> ~ contains (codes f) (codes body)).
  { intros f. rewrite longest_form_first_perm, elem_of_remove_dups.
    intros (secret & Hs & (value & Hv & _ & [->| ->])%form_of)%form_in_secrets; by apply (Hh _ Hs). }
  induction (longest_form_first _) as [|f l IH]; cbn [foldl]; [done|].
  assert (Hf : str_replace f SECRET_SCRUBBED body = body).
  { unfold str_replace. rewrite replace_in_none by (apply Hall; by left). by destruct body. }
  rewrite Hf. apply IH. intros g Hg. apply Hall. by right.
Qed.

(** ** What is sent *)

Definition secrets_at (placement : SecretPlacement.t) (plan : RenderPlan) : gset pystr :=
  match placement with
  | SecretPlacement.URL => tr_secrets (rp_url_refs plan)
  | SecretPlacement.BODY => tr_secrets (rp_body_refs plan)
  | SecretPlacement.HEADER => foldl (fun s nr => s ∪ tr_secrets nr.2) ∅ (rp_header_refs plan)
  end.
Lemma enforce_placements_spec plan resolved :
  enforce_placements plan resolved = Ok tt ->
  forall placement code, code ∈ secrets_at placement plan ->
    exists secret, dict_get code resolved = Some secret /\ placement ∈ rs_placements secret.
Proof.
  intros H placement code Hin. unfold enforce_placements in H. apply check_each_spec in H. rewrite Forall_forall in H.
  assert (Hd : check_each (fun code => if bool_decide (placement ∈ placements_of code resolved) then Ok tt
      else call_error (PLACEMENT_BLOCKED_TEMPLATE code (SecretPlacement.value placement)
             (str_join ", " (sorted_values (placements_of code resolved))))) (sorted_codes (secrets_at placement plan)) = Ok tt).
  { apply (H (placement, secrets_at placement plan)). destruct placement; set_solver. }
  apply check_each_spec in Hd. rewrite Forall_forall in Hd. specialize (Hd code (proj2 (elem_of_sorted_set _ _) Hin)).
  cbn beta in Hd. case_bool_decide as Hp; [|done]. unfold placements_of in Hp.
  destruct (dict_get code resolved) as [secret|]; [by exists secret|set_solver].
Qed.

Lemma foldl_refs_secrets code (l : list TemplateRefs) acc :
  code ∈ tr_secrets (foldl refs_or acc l) <-> code ∈ tr_secrets acc \/ Exists (fun r => code ∈ tr_secrets r) l.
Proof.
  revert acc. induction l as [|r l IH]; intros acc; cbn [foldl]; [rewrite Exists_nil; tauto|]. rewrite IH, Exists_cons. cbn. set_solver.
Qed.
Lemma foldl_union_secrets {A} code (l : list (A * TemplateRefs)) (acc : gset pystr) :
  code ∈ foldl (fun s nr => s ∪ tr_secrets nr.2) acc l <-> code ∈ acc \/ Exists (fun r => code ∈ tr_secrets r) (snd <$> l).
Proof.
  revert acc. induction l as [|r l IH]; intros acc; cbn [foldl fmap list_fmap]; [rewrite Exists_nil; tauto|].
  rewrite IH, Exists_cons. set_solver.
Qed.
Lemma secrets_at_combined placement plan code : code ∈ secrets_at placement plan -> code ∈ tr_secrets (combined plan).
Proof.
  unfold combined. rewrite foldl_refs_secrets. cbn [tr_secrets refs_or]. destruct placement; cbn [secrets_at]; [..|set_solver|set_solver].
  rewrite foldl_union_secrets. set_solver.
Qed.

Section Sent.
Context (bracketed_ok nfkc_ok : list N -> bool) (str_lower : pystr -> pystr) (repr : option json -> pystr).
Context (ip_address : pystr -> option ip) (decode : Response -> list N -> pystr).
Context {S : Type} (new_hex : M S Exn pystr) (resolve_host : pystr -> M S Exn (option (list pystr))) (guard : SsrfGuard).
Context (secrets : option (pystr -> pystr -> pystr -> M S Exn ResolvedSecret)).
Context (user_params : option (pystr -> M S Exn (list (pystr * pystr)))).
Context (auth_whitelist : list ExternalCallAuth) (spilling : option (ResponseSpill (S:=S))).
Abbreviation once http := (request_once bracketed_ok nfkc_ok str_lower repr ip_address decode new_hex resolve_host guard http
  secrets user_params auth_whitelist spilling).

(** A secret the store gave for the host of the URL. *)
Definition bound_to (url : pystr) (user_id : option pystr) (cs : pystr * ResolvedSecret) : Prop :=
  exists resolve owner s s', secrets = Some resolve /\ user_id = Some owner /\
    resolve owner cs.1 (target_host bracketed_ok nfkc_ok str_lower url) s = (Ok cs.2, s').
(** A header of the installation for this origin, or one of the record, printable. *)
Definition sound_header (url : pystr) (nv : pystr * pystr) : Prop :=
  is_header_safe nv.2 = true \/
  exists entry, entry ∈ auth_whitelist /\ matches_url_prefix bracketed_ok nfkc_ok str_lower url (ea_base_url_prefix entry) = true /\
    nv.1 = ea_header_name entry.
(** What is put in a part of a request: the parameters, the values of the user,
    and of the secrets those that may stand there. *)
Definition allowed_in (placement : SecretPlacement.t) (resolved : list (pystr * ResolvedSecret)) : list (pystr * ResolvedSecret) :=
  List.filter (fun cs => bool_decide (placement ∈ rs_placements cs.2)) resolved.
Definition part_values (placement : SecretPlacement.t) (validated users : list (pystr * pystr))
    (resolved : list (pystr * ResolvedSecret)) : values :=
  values_of (merged (merged validated users) (secret_values (allowed_in placement resolved))).
Definition body_text (spec : ToolSpec) (vals : values) : Res Exn (option pystr) :=
  match ts_body_template spec with
  | Some template => let? body := render_template template vals in Ok (Some body)
  | None => Ok None
  end.
(** A request as it may be sent with some secrets: the guard let its URL
    through before they were put in it, each of them is what the store gives
    for the host of that URL, and each part of the request is made of its
    template and of the secrets whose placements allow that part. *)
Definition built (spec : ToolSpec) (plan : RenderPlan) (validated : list (pystr * pystr)) (user_id : option pystr)
    (resolved : list (pystr * ResolvedSecret)) (rq : Request) : Prop :=
  rq_method rq = ts_method spec /\
  exists safe_url users sentinels,
    (exists s s', load_user_values user_params plan user_id s = (Ok users, s')) /\
    (exists s s', mint_sentinels new_hex (sorted_codes (tr_secrets (rp_url_refs plan))) s = (Ok sentinels, s')) /\
    render_url spec validated users sentinels = Ok safe_url /\
    (exists s s', check bracketed_ok nfkc_ok str_lower ip_address resolve_host guard safe_url s = (Ok tt, s')) /\
    dict_keys resolved = sorted_codes (tr_secrets (combined plan)) /\
    Forall (bound_to safe_url user_id) resolved /\
    substitute_url_secrets bracketed_ok nfkc_ok safe_url sentinels (allowed_in SecretPlacement.URL resolved) = Ok (rq_url rq) /\
    build_headers bracketed_ok nfkc_ok str_lower repr auth_whitelist spec plan (rq_url rq) user_id
      (part_values SecretPlacement.HEADER validated users resolved) = Ok (rq_headers rq) /\
    Forall (sound_header (rq_url rq)) (rq_headers rq) /\
    body_text spec (part_values SecretPlacement.BODY validated users resolved) = Ok (rq_body rq).
Definition cleared (spec : ToolSpec) (plan : RenderPlan) (validated : list (pystr * pystr)) (user_id : option pystr) (rq : Request) : Prop :=
  exists resolved, built spec plan validated user_id resolved rq.

Lemma resolve_each_bound resolve owner url codes s resolved s' :
  secrets = Some resolve ->
  resolve_each resolve owner (target_host bracketed_ok nfkc_ok str_lower url) codes s = (Ok resolved, s') ->
  dict_keys resolved = codes /\ Forall (bound_to url (Some owner)) resolved.
Proof using Type.
  intros Hsec. revert s resolved s'. induction codes as [|code codes IH]; intros s resolved s'; cbn [resolve_each]; [by intros [= <- _]|].
  intros H. apply bind_result in H as (secret & s1 & H1 & H). apply bind_result in H as (rest & s2 & H2 & [= <- _]).
  destruct (IH _ _ _ H2) as [<- Hrest]. split; [done|].
  constructor; [|done]. apply try_result in H1 as [H1|(e & s3 & _ & H1)]; [|by destruct e].
  by exists resolve, owner, s, s1.
Qed.
Lemma resolved_spec plan url user_id s resolved s' :
  resolve_secrets bracketed_ok nfkc_ok str_lower secrets plan url user_id s = (Ok resolved, s') ->
  dict_keys resolved = sorted_codes (tr_secrets (combined plan)) /\ Forall (bound_to url user_id) resolved /\
  forall placement code, code ∈ secrets_at placement plan ->
    exists secret, dict_get code resolved = Some secret /\ placement ∈ rs_placements secret.
Proof using Type.
  unfold resolve_secrets. destruct (sorted_codes _) as [|code codes] eqn:Hcodes.
  - intros [= <- _]. split_and!; [done..|]. intros placement code Hin. exfalso.
    assert (Hc : code ∈ sorted_codes (tr_secrets (combined plan))) by (apply elem_of_sorted_set; by eapply secrets_at_combined).
    rewrite Hcodes in Hc. by apply not_elem_of_nil in Hc.
  - destruct secrets as [resolve|] eqn:Hsec; [|done]. destruct user_id as [owner|]; [|done].
    intros H. apply bind_result in H as (r & s1 & Hr & H). apply bind_result in H as ([] & s2 & [= He _] & [= <- _]).
    destruct (resolve_each_bound _ _ _ _ _ _ _ Hsec Hr) as [Hk Hb]. split_and!; [done..|]. by apply enforce_placements_spec.
Qed.
Lemma merged_elem a b nv : nv ∈ merged a b -> nv ∈ a \/ nv ∈ b.
Proof using Type.
  revert a. induction b as [|[k v] b IH]; intros a; cbn; [by left|]. intros [H|H]%IH; [|right; by right].
  apply elem_of_dict_set in H as [->|H]; [right; by left|by left].
Qed.
Lemma headers_sound spec plan url user_id vals headers :
  build_headers bracketed_ok nfkc_ok str_lower repr auth_whitelist spec plan url user_id vals = Ok headers ->
  Forall (sound_header url) headers.
Proof using Type.
  unfold build_headers. intros H. apply rbind_Ok in H as (rendered & Hr & [= <-]). apply each_spec in Hr.
  assert (Hsafe : forall nv, nv ∈ rendered -> is_header_safe nv.2 = true).
  { apply Forall_forall. eapply Forall2_Forall_r; [exact Hr|]. apply Forall_forall. intros nv _ nv' H.
    unfold render_header in H. apply rbind_Ok in H as (text & _ & H). destruct (is_header_safe text) eqn:Hs; [|done].
    by injection H as <-. }
  apply Forall_forall. intros nv H. apply merged_elem in H as [[H|H]%merged_elem|H].
  - left. apply Hsafe. apply list_elem_of_In in H. apply List.filter_In in H as [H _]. by apply list_elem_of_In.
  - unfold auth_headers_for in H. destruct (List.find _ _) as [entry|] eqn:Hf; [|by apply not_elem_of_nil in H].
    apply List.find_some in Hf as [Hin%list_elem_of_In Hm]. right. exists entry. split_and!; [done..|].
    unfold render_auth_header in H. destruct (negb _); [by apply list_elem_of_singleton in H as ->|].
    destruct user_id; [by apply list_elem_of_singleton in H as ->|by apply not_elem_of_nil in H].
  - left. apply Hsafe. apply list_elem_of_In in H. apply List.filter_In in H as [H _]. by apply list_elem_of_In.
Qed.

(** *** Each part without the secrets it may not have *)

Lemma dict_get_allowed placement code secret resolved :
  dict_get code resolved = Some secret -> placement ∈ rs_placements secret ->
  dict_get code (allowed_in placement resolved) = Some secret.
Proof using Type.
  intros H Hp. induction resolved as [|[k v] resolved IH]; cbn in *; [done|]. case_decide as Hk.
  - injection H as ->. rewrite bool_decide_true by done. cbn. by rewrite decide_True.
  - case_bool_decide; cbn; [rewrite decide_False by done|]; by apply IH.
Qed.
Lemma allowed_keys placement resolved : dict_keys (allowed_in placement resolved) `sublist_of` dict_keys resolved.
Proof using Type.
  induction resolved as [|[k v] resolved IH]; cbn; [constructor|]. case_bool_decide; cbn; by constructor.
Qed.
Lemma secret_field_inj : Inj (=) (=) secret_field.
Proof using Type. intros [c] [c'] H. injection H as H. by subst. Qed.
Lemma secret_values_get code resolved : dict_get (secret_field code) (secret_values resolved) = rs_value <$> dict_get code resolved.
Proof using Type.
  unfold secret_values. induction resolved as [|[k v] resolved IH]; [done|]. cbn [fmap list_fmap dict_get fst snd].
  repeat case_decide; try done; [by apply secret_field_inj in H|by subst].
Qed.
Lemma secret_values_keys resolved : dict_keys (secret_values resolved) = secret_field <$> dict_keys resolved.
Proof using Type. unfold dict_keys, secret_values. by rewrite <- !list_fmap_compose. Qed.
Lemma merged_get k (a b : list (pystr * pystr)) :
  NoDup (dict_keys b) -> dict_get k (merged a b) = match dict_get k b with Some v => Some v | None => dict_get k a end.
Proof using Type.
  revert a. induction b as [|[k' v] b IH]; intros a; cbn; [done|]. intros [Hn Hb]%NoDup_cons.
  fold (merged (dict_set k' v a) b). rewrite IH by done. rewrite dict_get_set. case_decide as Hk.
  - subst k. by rewrite (proj2 (dict_get_None _ _)).
  - done.
Qed.
Lemma merged_secret base resolved code :
  NoDup (dict_keys resolved) ->
  dict_get (secret_field code) (merged base (secret_values resolved)) =
  match dict_get code resolved with Some secret => Some (rs_value secret) | None => dict_get (secret_field code) base end.
Proof using Type.
  intros Hnd. rewrite merged_get.
  - rewrite secret_values_get. by destruct (dict_get code resolved).
  - rewrite secret_values_keys. apply NoDup_fmap_2; [apply secret_field_inj|done].
Qed.
Section Part.
Context (plan : RenderPlan) (resolved : list (pystr * ResolvedSecret)).
Context (Hkeys : dict_keys resolved = sorted_codes (tr_secrets (combined plan))).
Context (Hplaced : forall placement code, code ∈ secrets_at placement plan ->
  exists secret, dict_get code resolved = Some secret /\ placement ∈ rs_placements secret).
Lemma resolved_nodup : NoDup (dict_keys resolved).
Proof using Hkeys. rewrite Hkeys. unfold sorted_codes, sorted_set. rewrite (order_by_str_perm id). apply NoDup_elements. Qed.
(** A template whose secrets may all stand where it does renders alike from them alone. *)
Lemma part_render placement template refs validated users :
  collect_refs template = Ok refs -> tr_secrets refs ⊆ secrets_at placement plan ->
  render_template template (values_of (merged (merged validated users) (secret_values resolved))) =
  render_template template (part_values placement validated users resolved).
Proof using Hkeys Hplaced.
  unfold collect_refs, render_template. intros Hrefs Hsub. destruct (formatter_parse template) as [ts|]; [|done].
  f_equal. apply emit_ext. intros f Hf.
  destruct (refs_of_in _ _ _ Hrefs Hf) as (r & Hr & Hin). rewrite (classify_name _ _ Hr). unfold part_values, values_of.
  assert (Hother : forall k, (forall code, k <> secret_field code) -> forall base l, dict_get k (merged base (secret_values l)) = dict_get k base).
  { intros k Hk base l. apply merged_other. rewrite secret_values_keys. intros (c & -> & _)%list_elem_of_fmap. by apply (Hk c). }
  destruct r as [name|code|code]; cbn [full_name in_refs] in *.
  - apply classify_param in Hr. rewrite !Hother; [done|..]; intros c ->; by rewrite secret_dotted in Hr.
  - rewrite !Hother; [done|..]; apply user_not_secret.
  - change (SECRET_NAMESPACE +s+ "." +s+ code) with (secret_field code).
    pose proof resolved_nodup as Hnd. rewrite merged_secret by done.
    rewrite merged_secret by (eapply sublist_NoDup; [done|apply allowed_keys]).
    destruct (Hplaced placement code) as (secret & Hs & Hp); [by apply Hsub|].
    by rewrite Hs, (dict_get_allowed _ _ _ _ Hs Hp).
Qed.
Lemma each_ext {A B} (f g : A -> Res Exn B) l : (forall x, x ∈ l -> f x = g x) -> each f l = each g l.
Proof using Type.
  induction l as [|x l IH]; intros H; cbn [each]; [done|]. rewrite (H x) by left. rewrite IH; [done|]. intros y Hy. apply H. by right.
Qed.
Context (spec : ToolSpec) (Hplan : collect_plan spec = Ok plan).
Lemma plan_refs :
  (forall body, ts_body_template spec = Some body -> collect_refs body = Ok (rp_body_refs plan)) /\
  (forall nv, nv ∈ ts_headers spec -> exists refs, collect_refs nv.2 = Ok refs /\ tr_secrets refs ⊆ secrets_at SecretPlacement.HEADER plan).
Proof using Hplan.
  clear Hkeys Hplaced. unfold collect_plan in Hplan. apply rbind_Ok in Hplan as (url_refs & _ & H). apply rbind_Ok in H as (body_refs & Hb & H).
  apply rbind_Ok in H as (header_refs & Hh & [= <-]). cbn [rp_body_refs secrets_at rp_header_refs]. split.
  - intros body Hbody. by rewrite Hbody in Hb.
  - intros nv Hnv. apply each_spec in Hh. apply list_elem_of_lookup in Hnv as [i Hi].
    destruct (Forall2_lookup_l _ _ _ _ _ Hh Hi) as (nr & Hin%list_elem_of_lookup_2 & H).
    apply rbind_Ok in H as (refs & Hr & [= <-]). exists refs. split; [done|]. intros code Hc.
    apply foldl_union_secrets. right. apply Exists_exists. exists refs. split; [|done]. apply list_elem_of_fmap. by exists (nv.1, refs).
Qed.
Lemma part_headers url user_id validated users :
  build_headers bracketed_ok nfkc_ok str_lower repr auth_whitelist spec plan url user_id
    (values_of (merged (merged validated users) (secret_values resolved))) =
  build_headers bracketed_ok nfkc_ok str_lower repr auth_whitelist spec plan url user_id
    (part_values SecretPlacement.HEADER validated users resolved).
Proof using Hkeys Hplaced Hplan.
  unfold build_headers. erewrite each_ext; [reflexivity|]. cbn beta. intros nv Hnv. destruct (proj2 plan_refs nv Hnv) as (refs & Hr & Hs).
  unfold render_header. by rewrite (part_render SecretPlacement.HEADER _ refs).
Qed.
Lemma part_body validated users :
  body_text spec (values_of (merged (merged validated users) (secret_values resolved))) =
  body_text spec (part_values SecretPlacement.BODY validated users resolved).
Proof using Hkeys Hplaced Hplan.
  unfold body_text. destruct (ts_body_template spec) as [body|] eqn:Hb; [|done].
  by rewrite (part_render SecretPlacement.BODY _ _ validated users (proj1 plan_refs body Hb)).
Qed.
Lemma part_substitute netloc sentinels url :
  (forall code, code ∈ dict_keys sentinels -> code ∈ secrets_at SecretPlacement.URL plan) ->
  substitute netloc sentinels resolved url = substitute netloc sentinels (allowed_in SecretPlacement.URL resolved) url.
Proof using Hplaced.
  revert url. induction sentinels as [|[code mark] sentinels IH]; intros url H; cbn [substitute]; [done|].
  destruct (is_infix _ _); [done|]. destruct (Hplaced SecretPlacement.URL code) as (secret & Hs & Hp); [apply H; by left|].
  rewrite Hs, (dict_get_allowed _ _ _ _ Hs Hp). apply IH. intros c Hc. apply H. by right.
Qed.
End Part.
Lemma sentinel_keys codes s sentinels s' : mint_sentinels new_hex codes s = (Ok sentinels, s') -> dict_keys sentinels = codes.
Proof using Type.
  revert s sentinels s'. induction codes as [|code codes IH]; intros s sentinels s'; cbn [mint_sentinels]; [by intros [= <- _]|].
  intros H. apply bind_result in H as (hex & s1 & _ & H). apply bind_result in H as (rest & s2 & H2 & [= <- _]).
  cbn. f_equal. by eapply IH.
Qed.

(** What a run does once the request is made. *)
Definition read_answer (used : list ResolvedSecret) (answer : Res pystr Response) : M S Exn PageResult :=
  match answer with
  | Err text => failing ("external call failed: " +s+ scrub text used)
  | Ok response =>
      let '(raw, truncated) := read_capped (wire_limit spilling) (re_chunks response) in
      ret {| pr_status := re_status response; pr_scrubbed := scrub (decode response raw) used;
             pr_content_type := re_content_type response; pr_wire_truncated := truncated;
             pr_had_secrets := match used with [] => false | _ => true end |}
  end.
(** A run makes one request, built from the secrets it reads the answer with,
    or ends before it asks the client. *)
Definition one_request (sent : list (pystr * ResolvedSecret) -> Request -> Prop)
    (run : (Request -> M S Exn (Res pystr Response)) -> M S Exn PageResult) (s : S) : Prop :=
  (exists e s1, forall http, run http s = (Err e, s1)) \/
  exists resolved rq s1, sent resolved rq /\ forall http, run http s = bind (http rq) (read_answer (snd <$> resolved)) s1.
Lemma one_request_bind {A} sent (m : M S Exn A) k s :
  (forall a s1, m s = (Ok a, s1) -> one_request sent (fun http => k http a) s1) ->
  one_request sent (fun http => bind m (k http)) s.
Proof using Type.
  intros H. destruct (m s) as [[a|e] s1] eqn:Hm.
  - destruct (H a s1 eq_refl) as [(e & s2 & Hrun)|(resolved & rq & s2 & Hs & Hrun)].
    + left. exists e, s2. intros http. unfold bind. by rewrite Hm.
    + right. exists resolved, rq, s2. split; [done|]. intros http. unfold bind at 1. by rewrite Hm.
  - left. exists e, s1. intros http. unfold bind. by rewrite Hm.
Qed.
Lemma request_once_sends spec plan validated user_id s :
  collect_plan spec = Ok plan ->
  one_request (built spec plan validated user_id) (fun http => once http spec plan validated user_id) s.
Proof using Type.
  intros Hplan. unfold request_once.
  apply one_request_bind. intros users s1 Husers. apply one_request_bind. intros sentinels s2 Hmint.
  apply one_request_bind. intros safe_url s3 [= Hrender _]. apply one_request_bind. intros [] s4 Hcheck.
  apply one_request_bind. intros resolved s5 (Hkeys & Hbound & Hplaced)%resolved_spec.
  apply one_request_bind. intros url s6 [= Hsub _]. apply one_request_bind. intros headers s7 [= Hheaders _].
  apply one_request_bind. intros body s8 [= Hbody _].
  right. exists resolved, {| rq_method := ts_method spec; rq_url := url; rq_headers := headers; rq_body := body |}, s8. split.
  - split; [done|]. exists safe_url, users, sentinels. cbn [rq_url rq_headers rq_body].
    split_and!; [by eexists _, _|by eexists _, _|done|by eexists _, _|done|done|..].
    + unfold substitute_url_secrets in *. rewrite <- (part_substitute plan resolved Hplaced); [done|].
      intros code. apply sentinel_keys in Hmint as ->. by intros ?%elem_of_sorted_set.
    + by rewrite <- (part_headers plan resolved Hkeys Hplaced spec Hplan).
    + by eapply headers_sound.
    + by rewrite <- (part_body plan resolved Hkeys Hplaced spec Hplan).
  - intros http. apply bind_ext. intros answer s9 _. unfold read_answer. destruct answer as [response|text]; [|done].
    by destruct (read_capped _ _), resolved.
Qed.
(** C28: No request leaves that is not cleared: two clients that answer the cleared requests alike cannot be told apart. The guard stands between every call and the network, each secret is the one the store gives for the host asked for, and a part of the request, URL, header or body, is made of its template, the parameters, the user's values and only those secrets whose placements allow that part. *)
Theorem request_is_cleared http1 http2 spec plan validated user_id s :
  collect_plan spec = Ok plan ->
  (forall rq s, cleared spec plan validated user_id rq -> http1 rq s = http2 rq s) ->
  once http1 spec plan validated user_id s = once http2 spec plan validated user_id s.
Proof using Type.
  intros Hplan Heq. destruct (request_once_sends spec plan validated user_id s Hplan) as [(e & s1 & H)|(resolved & rq & s1 & Hb & H)].
  - by rewrite !H.
  - rewrite !H. unfold bind. by rewrite Heq by (by exists resolved).
Qed.
(** C30: Whatever the server answers, no form of a secret the request was made with is left in the text of the answer the executor keeps and everything shown or stored later is read from, nor in the words of a failure of the client: neither the value sent nor the plain one, as they are or percent-encoded; and an answer with no such form is kept as it is. For secrets without brackets that are no part of the mark; a form the server escaped or encoded in another way, as JSON does with quotes, is not found. *)
Theorem request_leaves_no_form http spec plan validated user_id s r s' :
  collect_plan spec = Ok plan ->
  (forall resolve owner code host s secret s', secrets = Some resolve -> resolve owner code host s = (Ok secret, s') -> maskable secret) ->
  once http spec plan validated user_id s = (r, s') ->
  (exists e, r = Err e /\ forall http', once http' spec plan validated user_id s = (Err e, s')) \/
  exists resolved rq s1, built spec plan validated user_id resolved rq /\
    match http rq s1 with
    | (Ok (Ok response), s2) =>
        let body := decode response (read_capped (wire_limit spilling) (re_chunks response)).1 in
        exists page, r = Ok page /\ s' = s2 /\ Forall (hidden (pr_scrubbed page)) resolved.*2 /\
          (Forall (hidden body) resolved.*2 -> pr_scrubbed page = body)
    | (Ok (Err text), s2) =>
        exists clean, r = Err (ExternalCallError ("external call failed: " +s+ clean)) /\ s' = s2 /\
          Forall (hidden clean) resolved.*2 /\ (Forall (hidden text) resolved.*2 -> clean = text)
    | (Err e, s2) => r = Err e /\ s' = s2
    end.
Proof using Type.
  intros Hplan Hok Hrun.
  destruct (request_once_sends spec plan validated user_id s Hplan) as [(e & s1 & H)|(resolved & rq & s1 & Hb & H)].
  - left. exists e. rewrite H in Hrun. by injection Hrun as <- <-.
  - right. exists resolved, rq, s1. split; [done|]. rewrite H in Hrun. unfold bind in Hrun.
    assert (Hmask : Forall maskable resolved.*2).
    { destruct Hb as (_ & ? & ? & ? & _ & _ & _ & _ & _ & Hb & _). apply Forall_fmap. eapply Forall_impl; [exact Hb|].
      intros cs (resolve & owner & s3 & s4 & Hs & _ & Hr). by eapply Hok. }
    destruct (http rq s1) as [[[response|text]|e] s2]; [| |by injection Hrun as <- <-]; unfold read_answer in Hrun.
    + destruct (read_capped _ _) as [raw truncated]. injection Hrun as <- <-. eexists. cbn [pr_scrubbed fst].
      split_and!; [done|done|by apply scrub_hides|by apply scrub_nothing].
    + injection Hrun as <- <-. eexists. split_and!; [done|done|by apply scrub_hides|by apply scrub_nothing].
Qed.
End Sent.

(** ** What is read *)

Lemma read_chunks_spec size limit chunks :
  let total := (size + Z.of_nat (length (concat chunks)))%Z in
  (size < limit)%Z ->
  (read_chunks size limit chunks).2 = (limit <=? total)%Z /\
  take (Z.to_nat (limit - size)) (read_chunks size limit chunks).1 = take (Z.to_nat (limit - size)) (concat chunks).
Proof.
  revert size. induction chunks as [|chunk chunks IH]; intros size total Hs; subst total; cbn [read_chunks concat length].
  - split; [symmetry; apply Z.leb_gt; cbn; lia|done].
  - rewrite length_app. destruct (Z.leb_spec limit (size + Z.of_nat (length chunk))) as [Hl|Hl].
    + split; [symmetry; apply Z.leb_le; lia|]. cbn [fst]. rewrite take_app_le; [done|lia].
    + destruct (IH (size + Z.of_nat (length chunk))%Z Hl) as [IH1 IH2].
      destruct (read_chunks _ limit chunks) as [rest truncated]. cbn [fst snd] in *. split; [rewrite IH1; f_equal; lia|].
      rewrite !take_app_ge by lia. f_equal. replace (Z.to_nat (limit - size) - length chunk)%nat with
        (Z.to_nat (limit - (size + Z.of_nat (length chunk)))) by lia. done.
Qed.
(** However the body of a response is cut into chunks, what is read is its first [limit] bytes, and it is said to be cut exactly when it is at least as long as the limit: one that just fits is said to be cut. *)
Theorem read_capped_is_prefix limit chunks :
  (0 < limit)%Z ->
  read_capped limit chunks =
  (take (Z.to_nat limit) (concat chunks), (limit <=? Z.of_nat (length (concat chunks)))%Z).
Proof.
  intros Hl. unfold read_capped. destruct (read_chunks_spec 0 limit chunks Hl) as [H1 H2].
  destruct (read_chunks 0 limit chunks) as [raw truncated]. cbn [fst snd] in *. rewrite H1. f_equal.
  by rewrite Z.sub_0_r in H2.
Qed.

(** ** The walk over pages *)

Lemma str_of_Z_inj a b : str_of_Z a = str_of_Z b -> a = b.
Proof.
  unfold str_of_Z. intros [= H]. apply (inj pretty).
  assert (Hinj : Inj (=) (=) Ascii.N_of_ascii).
  { intros x y Hxy. rewrite <- (Ascii.ascii_N_embedding x), <- (Ascii.ascii_N_embedding y). by rewrite Hxy. }
  apply (inj (map Ascii.N_of_ascii)) in H. rewrite <- (String.string_of_list_ascii_of_string (pretty a)).
  by rewrite H, String.string_of_list_ascii_of_string.
Qed.
Lemma advance_kind c document n c' : advance c document n = Some c' -> cu_spec c' = cu_spec c.
Proof.
  unfold advance. destruct (pg_kind _); try by intros [= <-]. destruct (match dotted_get _ _ with JStr _ => _ | _ => _ end) as [s|]; [|done].
  destruct (_ || _); [done|]. by intros [= <-].
Qed.
(** What a cursor has presented: it stands past all of it. *)
Definition past (shown : list pystr) (c : Cursor) : Prop :=
  match pg_kind (cu_spec c) with
  | PaginationKind.CURSOR => forall s, s ∈ shown -> s ∈ cu_seen c
  | _ => exists n, cu_value c = AtNumber n /\ forall s, s ∈ shown -> exists m, s = str_of_Z m /\ (m <= n)%Z
  end.
Lemma advance_fresh shown c document n c' :
  past shown c -> (0 < n)%Z -> advance c document n = Some c' ->
  (param_value c' ∉ shown) /\ past (param_value c' :: shown) c'.
Proof.
  intros Hp Hn Ha. pose proof (advance_kind _ _ _ _ Ha) as Hk. unfold past in *. rewrite Hk. unfold advance in Ha.
  destruct (pg_kind (cu_spec c)).
  1,2: destruct Hp as (m & Hm & Hp); injection Ha as <-; unfold param_value, move, number_of; cbn [cu_value]; rewrite Hm; split;
    [intros H; destruct (Hp _ H) as (k & Hk'%str_of_Z_inj & ?); lia|];
    eexists; split; [done|]; intros s [->|H]%elem_of_cons; [eexists; split; [done|lia]|];
    destruct (Hp _ H) as (k & -> & ?); eexists; split; [done|lia].
  destruct (match dotted_get _ _ with JStr _ => _ | _ => _ end) as [s|]; [|done]. destruct (_ || _) eqn:Hs; [done|].
  injection Ha as <-. unfold param_value, move. cbn [cu_value cu_seen]. apply orb_false_iff in Hs as [_ Hs%bool_decide_eq_false].
  split; [intros H; by apply Hs, Hp|]. intros s' [->|H]%elem_of_cons; [set_solver|]. specialize (Hp _ H). set_solver.
Qed.

Section Executor.
Context (bracketed_ok nfkc_ok : list N -> bool) (str_lower : pystr -> pystr) (repr : option json -> pystr).
Context (ip_address : pystr -> option ip) (json_loads : pystr -> Res pystr json) (json_dumps : json -> pystr).
Context (read_number : pystr -> option json) (float_text : pystr -> pystr) (csv_rows : pystr -> Res Exn (list (list pystr))).
Context (decode : Response -> list N -> pystr).
Context {S : Type} (config : CollectionConfig) (utc_now : M S Exn time) (new_hex : M S Exn pystr).
Context (resolve_host : pystr -> M S Exn (option (list pystr))) (guard : SsrfGuard).
Context (secrets : option (pystr -> pystr -> pystr -> M S Exn ResolvedSecret)).
Context (user_params : option (pystr -> M S Exn (list (pystr * pystr)))).
Context (auth_whitelist : list ExternalCallAuth) (spilling : option (ResponseSpill (S:=S))) (truncate_chars : Z).
Context (http : Request -> M S Exn (Res pystr Response)).

Abbreviation turn := (walk_turn bracketed_ok nfkc_ok str_lower repr ip_address json_loads json_dumps read_number float_text
  csv_rows decode config utc_now new_hex resolve_host guard http secrets user_params auth_whitelist spilling truncate_chars).
Context (spill : ResponseSpill (S:=S)) (spec : ToolSpec) (pagination : PaginationSpec) (plan : RenderPlan).
Context (validated : list (pystr * pystr)) (user_id : option pystr).

Lemma turn_advances w s w' s' :
  turn spill spec pagination plan validated user_id w s = (Ok (inr w'), s') ->
  exists document n, (0 < n)%Z /\ advance (wk_cursor w) document n = Some (wk_cursor w') /\ wk_pages w' = (wk_pages w + 1)%Z.
Proof using Type.
  unfold walk_turn. intros H. apply bind_result in H as (page & s1 & _ & H).
  destruct (400 <=? _)%Z; [by destruct (wk_pages w =? 0)%Z|]. apply bind_result in H as (stored & s2 & Hs & H).
  destruct stored as [[[parsed sink]|]|]; [|done..]. destruct (pb_record_truncated parsed); [done|].
  destruct (advance _ _ _) as [cursor|] eqn:Ha; [|done]. destruct (reached_declared_total _ _ _); [done|].
  injection H as <- <-. cbn [wk_cursor wk_pages]. eexists _, _. split; [|done].
  apply try_result in Hs as [Hs|(e & s3 & _ & Hs)]; [|by destruct e].
  apply bind_result in Hs as (found & s3 & Hp & Hs). destruct found as [found|]; [|done].
  apply bind_result in Hs as (sink' & s4 & _ & [= -> -> _]). apply bind_result in Hp as (body & s5 & _ & [= Hp _]).
  destruct body as [body|]; [|done]. destruct (nr_payloads (pb_records body)) eqn:Hn; [done|]. injection Hp as ->.
  rewrite Hn. cbn [length]. lia.
Qed.
(** The turns of a walk, with what it has presented, last first. *)
Inductive walked (w0 : Walk) : list pystr -> Walk -> Prop :=
| walk_starts : walked w0 [param_value (wk_cursor w0)] w0
| walk_turns shown w w' s s' :
    walked w0 shown w -> turn spill spec pagination plan validated user_id w s = (Ok (inr w'), s') ->
    walked w0 (param_value (wk_cursor w') :: shown) w'.
(** A walk over the pages of an endpoint never asks for the same page twice, of whatever kind its pagination and whatever the server answers; the pages counted are those asked for before. *)
Theorem walk_never_repeats w0 shown w :
  wk_cursor w0 = new_cursor pagination -> wk_pages w0 = 0%Z -> walked w0 shown w ->
  NoDup shown /\ wk_pages w = (Z.of_nat (length shown) - 1)%Z.
Proof using Type.
  intros Hc Hz H. enough (NoDup shown /\ wk_pages w = (Z.of_nat (length shown) - 1)%Z /\ past shown (wk_cursor w)) by naive_solver.
  induction H as [|shown w w' s s' H (Hnd & Hp & Hpast) Ht].
  - split_and!; [apply NoDup_singleton|done|]. rewrite Hc. unfold past, new_cursor. cbn [cu_spec cu_value cu_seen].
    destruct (pg_kind pagination) eqn:Hk; unfold param_value; cbn [cu_value]; [..|set_solver];
      (eexists; split; [done|]; intros s ->%list_elem_of_singleton; eexists; split; [done|lia]).
  - apply turn_advances in Ht as (document & n & Hn & Ha & ->). destruct (advance_fresh shown _ _ _ _ Hpast Hn Ha) as [Hf Hp'].
    split_and!; [by constructor| |done]. cbn [length]. lia.
Qed.
End Executor.
