(* ===== verification/Ranking.v ===== *)
(** * Instructions and their ranking ([instructions/api.py], [instructions/ranking.py])

    The records of the shared store, and how a search orders them: by cosine,
    by the fusion of several rankings, by a cross-encoder, and the share a type
    may take of a mixed result.  Scores are binary64; the products and norms of
    the vectors come from the numeric library. *)
From Stdlib Require Import SpecFloat.
From S2P Require Import Prelude PyStr PyFloat Clock Sql Dict Domain.

(** ** Records *)

Module InstructionType.
Inductive t : Set := KNOWLEDGE | SKILL | ENDPOINT | MEMORY.
#[global] Instance t_eq_dec : EqDecision t := ltac:(solve_decision).
Definition value (k : t) : pystr :=
  match k with KNOWLEDGE => "knowledge" | SKILL => "skill" | ENDPOINT => "endpoint" | MEMORY => "memory" end.
Definition all : list t := [KNOWLEDGE; SKILL; ENDPOINT; MEMORY].
Definition parse (s : pystr) : option t := find (fun k => bool_decide (value k = s)) all.
End InstructionType.

Record Instruction := {
  in_id : pystr;
  in_type : InstructionType.t;
  in_title : pystr;
  in_content : pystr;
  in_tags : list pystr;
  in_version : Z;
  in_usage_count : Z;
  in_success_count : Z;
  in_created_at : time;
  in_updated_at : time;
  in_system : bool;
  in_owner_id : option pystr;
  in_author_id : option pystr }.
Definition vector : Type := list float.
Record SearchHit := { sh_instruction : Instruction; sh_score : float }.
Record EmbeddedInstruction := { ei_instruction : Instruction; ei_embedding : vector }.
Record InstructionDraft := {
  dr_kind : InstructionType.t;
  dr_title : pystr;
  dr_content : pystr;
  dr_tags : list pystr;
  dr_embedding : vector;
  dr_embedding_model : option pystr;
  dr_system : bool;
  dr_owner_id : option pystr;
  dr_author_id : option pystr }.

(** ** Sorting

    [sort(key=..)] keeps the order of elements neither of which is before the
    other. *)
Section Sort.
Context {A : Type} (before : A -> A -> bool).
Fixpoint insert_sorted (a : A) (l : list A) : list A :=
  match l with
  | [] => [a]
  | b :: l' => if before b a then b :: insert_sorted a l' else a :: l
  end.
Definition stable_sort (l : list A) : list A := foldr insert_sorted [] l.

Lemma insert_sorted_perm a l : insert_sorted a l ≡ₚ a :: l.
Proof. induction l as [|b l IH]; cbn; [done|]. destruct (before b a); [|done]. by rewrite IH, Permutation_swap. Qed.
Lemma stable_sort_perm l : stable_sort l ≡ₚ l.
Proof. induction l as [|a l IH]; cbn; [done|]. by rewrite insert_sorted_perm, IH. Qed.
Lemma stable_sort_length l : length (stable_sort l) = length l.
Proof. by rewrite stable_sort_perm. Qed.
(** What is before everything comes first. *)
Lemma stable_sort_head (P : A -> bool) l :
  (forall a b, a ∈ l -> b ∈ l -> P a = true -> P b = false -> before a b = true) ->
  (forall a b, a ∈ l -> b ∈ l -> P a = true -> P b = false -> before b a = false) ->
  exists p q, stable_sort l = p ++ q /\ p ≡ₚ filter (fun a => P a = true) l /\ Forall (fun b => P b = false) q.
Proof.
  intros H1 H2. induction l as [|a l IH]; [by exists [], []|].
  destruct IH as (p & q & Heq & Hp & Hq); [intros; apply H1; auto; by right|intros; apply H2; auto; by right|].
  cbn [stable_sort foldr]. fold (stable_sort l). rewrite Heq.
  assert (Hpl : forall b, b ∈ p -> b ∈ l /\ P b = true).
  { intros b Hb. rewrite Hp in Hb. apply list_elem_of_filter in Hb. tauto. }
  assert (Hql : forall b, b ∈ q -> b ∈ l).
  { intros b Hb. rewrite <- (stable_sort_perm l), Heq. apply elem_of_app. by right. }
  destruct (P a) eqn:Ha.
  - exists (insert_sorted a p), q. split_and!; [|rewrite insert_sorted_perm, filter_cons_True by done; by constructor|done].
    clear Heq Hp. induction p as [|b p IHp]; cbn [app insert_sorted].
    + destruct q as [|b q]; [done|]. cbn [insert_sorted]. rewrite (H2 a b); [done|by left|right; apply Hql; by left|done|].
      rewrite Forall_forall in Hq. apply Hq. by left.
    + destruct (before b a); [|done]. cbn [app]. f_equal. apply IHp. intros c Hc. apply Hpl. by right.
  - exists p, (insert_sorted a q). rewrite filter_cons_False by congruence. split_and!; [|done|rewrite insert_sorted_perm; by constructor].
    clear Heq Hp Hq. induction p as [|b p IHp]; cbn [app insert_sorted]; [done|].
    rewrite (H1 b a); [|right; apply Hpl; by left|by left|apply Hpl; by left|done]. f_equal. apply IHp.
    intros c Hc. apply Hpl. by right.
Qed.
End Sort.

(** ** Scores *)

Definition f_zero : float := S754_zero false.
Definition fltb (a b : float) : bool := SFltb a b.
Definition feqb (a b : float) : bool := SFeqb a b.
Definition EXACT_TITLE_BOOST : float := float_of_Z 2.
Definition ZERO_NORM_SIMILARITY : float := f_zero.
(** The key [(-score, title)] of every ranking, compared as Python compares tuples. *)
Definition key_before (a b : float * pystr) : bool :=
  if feqb a.1 b.1 then negb (str_leb b.2 a.2) else fltb b.1 a.1.
Definition hit_key (h : SearchHit) : float * pystr := (sh_score h, in_title (sh_instruction h)).
Definition hit_before (a b : SearchHit) : bool := key_before (hit_key a) (hit_key b).
Definition sort_hits (hits : list SearchHit) : list SearchHit := stable_sort hit_before hits.
(** [l[:k]] of a non-negative [k] *)
Definition first_of {A} (k : Z) (l : list A) : list A := take (Z.to_nat k) l.
Definition rescored (h : SearchHit) (score : float) : SearchHit := {| sh_instruction := sh_instruction h; sh_score := score |}.

Section Ranking.
(** [str.casefold]; [numpy]: the norm of a vector, the product of two, and the
    quotient of a product by two norms. *)
Context (casefold : pystr -> pystr) (norm : vector -> float) (dot : vector -> vector -> float).
Context (quotient : float -> float -> float -> float).

Definition exact_title (query : pystr) (i : Instruction) : bool := bool_decide (casefold (in_title i) = casefold query).
(** [_cosine_scores] *)
Definition cosine (query candidate : vector) : float :=
  if fltb f_zero (norm candidate) then quotient (dot candidate query) (norm candidate) (norm query) else f_zero.
Definition cosine_scores (candidates : list EmbeddedInstruction) (query : vector) : list float :=
  (fun c =>
     if (length query =? 0)%nat || feqb (norm query) f_zero then ZERO_NORM_SIMILARITY
     else if (length (ei_embedding c) =? length query)%nat then cosine query (ei_embedding c)
     else ZERO_NORM_SIMILARITY) <$> candidates.
(** The score of a hit, boosted when its title is the query. *)
Definition boosted (query : pystr) (i : Instruction) (score : float) : SearchHit :=
  {| sh_instruction := i; sh_score := fadd score (if exact_title query i then EXACT_TITLE_BOOST else f_zero) |}.
Definition rank (candidates : list EmbeddedInstruction) (query : pystr) (query_embedding : vector) (k : Z) : list SearchHit :=
  if (k <=? 0)%Z then []
  else
    first_of k (sort_hits (zip_with (fun c score => boosted query (ei_instruction c) score) candidates
      (cosine_scores candidates query_embedding))).

(** [rerank]: lengths that differ are the [ValueError] of a strict [zip]. *)
Definition rerank (hits : list SearchHit) (scores : list float) (k : Z) (query : pystr) : Res Exn (list SearchHit) :=
  if (k <=? 0)%Z then Ok []
  else if negb (length hits =? length scores)%nat then Err (OtherError "ValueError")
  else
    let all := sort_hits (zip_with rescored hits scores) in
    match list_find (fun h => exact_title query (sh_instruction h) = true) all with
    | None => Ok (first_of k all)
    | Some (i, exact) => Ok (first_of k (exact :: (take i all ++ drop (S i) all)))
    end.

(** ** Fusion *)

Definition RRF_SMOOTHING : Z := 60.
Definition FIRST_RANK : Z := 1.
Definition vote (position : Z) : float := fdiv (float_of_Z 1) (float_of_Z (RRF_SMOOTHING + position)).
(** The two dicts, over the records in the order they were first met. *)
Definition tally : Type := (list (pystr * float)) * list (pystr * EmbeddedInstruction).
Definition count_vote (t : tally) (pc : Z * EmbeddedInstruction) : tally :=
  let key := in_id (ei_instruction pc.2) in
  (dict_set key (fadd (default f_zero (dict_get key t.1)) (vote pc.1)) t.1,
   if bool_decide (is_Some (dict_get key t.2)) then t.2 else dict_set key pc.2 t.2).
Definition numbered {A} (l : list A) : list (Z * A) := imap (fun i a => (FIRST_RANK + Z.of_nat i, a)%Z) l.
Definition reciprocal_rank_scores (rankings : list (list EmbeddedInstruction)) : tally :=
  foldl (fun t ranking => foldl count_vote t (numbered ranking)) ([], []) rankings.
Definition score_of (t : tally) (c : EmbeddedInstruction) : float := default f_zero (dict_get (in_id (ei_instruction c)) t.1).
Definition fuse_rankings (rankings : list (list EmbeddedInstruction)) : list EmbeddedInstruction :=
  let t := reciprocal_rank_scores rankings in
  let key c := (score_of t c, in_title (ei_instruction c)) in
  stable_sort (fun a b => key_before (key a) (key b)) (dict_values t.2).
Definition fuse (rankings : list (list EmbeddedInstruction)) (query : pystr) (k : Z) : list SearchHit :=
  if (k <=? 0)%Z then []
  else
    let t := reciprocal_rank_scores rankings in
    first_of k (sort_hits ((fun c => boosted query (ei_instruction c) (score_of t c)) <$> dict_values t.2)).

(** ** The share of a type ([local.py]: [_cap_types]) *)

Definition type_of (h : SearchHit) : InstructionType.t := in_type (sh_instruction h).
Definition count_type (kind : InstructionType.t) (l : list SearchHit) : nat := length (filter (fun h => type_of h = kind) l).
(** [-(-k // 2)] *)
Definition type_cap (k : Z) : Z := Z.max 1 (- ((- k) / 2)).
(** The loop, with its two lists; [inl] is the early return. *)
Fixpoint cap_loop (k : Z) (taken skipped hits : list SearchHit) : list SearchHit + (list SearchHit * list SearchHit) :=
  match hits with
  | [] => inr (taken, skipped)
  | hit :: hits =>
      if (Z.of_nat (length taken) =? k)%Z then inl taken
      else if (Z.of_nat (count_type (type_of hit) taken) =? type_cap k)%Z then cap_loop k taken (skipped ++ [hit]) hits
      else cap_loop k (taken ++ [hit]) skipped hits
  end.
Definition cap_types (hits : list SearchHit) (k : Z) : list SearchHit :=
  match cap_loop k [] [] hits with
  | inl taken => taken
  | inr (taken, skipped) => sort_hits (taken ++ first_of (k - Z.of_nat (length taken)) skipped)
  end.
End Ranking.

(** ** Laws *)

Section CapLaws.
Lemma filter_length_app {A} (P : A -> Prop) `{!forall x, Decision (P x)} l k :
  length (filter P (l ++ k)) = (length (filter P l) + length (filter P k))%nat.
Proof. by rewrite filter_app, length_app. Qed.
Lemma cap_loop_spec k taken skipped hits :
  (0 < k)%Z -> (Z.of_nat (length taken) <= k)%Z ->
  (forall kind, (Z.of_nat (count_type kind taken) <= type_cap k)%Z) ->
  Forall (fun h => Z.of_nat (count_type (type_of h) taken) = type_cap k) skipped ->
  match cap_loop k taken skipped hits with
  | inl taken' => Z.of_nat (length taken') = k /\ (forall kind, (Z.of_nat (count_type kind taken') <= type_cap k)%Z) /\
      exists rest, hits ++ taken ++ skipped ≡ₚ taken' ++ rest
  | inr (taken', skipped') => (Z.of_nat (length taken') <= k)%Z /\
      (forall kind, (Z.of_nat (count_type kind taken') <= type_cap k)%Z) /\
      Forall (fun h => Z.of_nat (count_type (type_of h) taken') = type_cap k) skipped' /\
      hits ++ taken ++ skipped ≡ₚ taken' ++ skipped'
  end.
Proof using Type.
  intros Hk. revert taken skipped. induction hits as [|hit hits IH]; intros taken skipped Hlen Hcap Hskip; cbn [cap_loop].
  - by split_and!.
  - destruct (Z.eqb_spec (Z.of_nat (length taken)) k) as [He|He].
    + split_and!; [done|done|]. exists (hit :: hits ++ skipped). solve_Permutation.
    + destruct (Z.eqb_spec (Z.of_nat (count_type (type_of hit) taken)) (type_cap k)) as [Hc|Hc].
      * specialize (IH taken (skipped ++ [hit]) Hlen Hcap ltac:(apply Forall_app; by repeat constructor)).
        destruct (cap_loop _ _ _ _) as [taken'|[taken' skipped']].
        -- destruct IH as (H1 & H2 & rest & H3). split_and!; [done|done|]. exists rest. rewrite <- H3. solve_Permutation.
        -- destruct IH as (H1 & H2 & H3 & H4). split_and!; [done..|]. rewrite <- H4. solve_Permutation.
      * assert (Hcount : forall kind, count_type kind (taken ++ [hit]) =
          (count_type kind taken + if decide (type_of hit = kind) then 1 else 0)%nat).
        { intros kind. unfold count_type. rewrite filter_length_app. f_equal. cbn. by destruct (decide (type_of hit = kind)). }
        assert (Hlen' : (Z.of_nat (length (taken ++ [hit])) <= k)%Z) by (rewrite length_app; cbn; lia).
        assert (Hcap' : forall kind, (Z.of_nat (count_type kind (taken ++ [hit])) <= type_cap k)%Z).
        { intros kind. rewrite Hcount. specialize (Hcap kind). destruct (decide (type_of hit = kind)); subst; lia. }
        assert (Hskip' : Forall (fun h => Z.of_nat (count_type (type_of h) (taken ++ [hit])) = type_cap k) skipped).
        { eapply Forall_impl; [exact Hskip|]. cbn beta. intros h Hh. rewrite Hcount.
          destruct (decide (type_of hit = type_of h)) as [Ht|]; [rewrite Ht in Hc; lia|lia]. }
        specialize (IH _ _ Hlen' Hcap' Hskip').
        destruct (cap_loop _ _ _ _) as [taken'|[taken' skipped']].
        -- destruct IH as (H1 & H2 & rest & H3). split_and!; [done|done|]. exists rest. rewrite <- H3. solve_Permutation.
        -- destruct IH as (H1 & H2 & H3 & H4). split_and!; [done..|]. rewrite <- H4. solve_Permutation.
Qed.
Lemma count_type_perm kind l l' : l ≡ₚ l' -> count_type kind l = count_type kind l'.
Proof using Type. intros H. unfold count_type. by rewrite H. Qed.
Lemma count_type_app kind l l' : count_type kind (l ++ l') = (count_type kind l + count_type kind l')%nat.
Proof using Type. apply filter_length_app. Qed.
Lemma count_type_two k1 k2 l : k1 <> k2 -> (count_type k1 l + count_type k2 l <= length l)%nat.
Proof using Type.
  intros Hne. unfold count_type. induction l as [|h l IH]; [done|]. rewrite !filter_cons.
  destruct (decide (type_of h = k1)) as [->|]; [rewrite decide_False by done; cbn; lia|].
  destruct (decide (type_of h = k2)); cbn; lia.
Qed.
(** A mixed result is as long as there are hits for, up to [k]; and a type takes more than half of it only when no hit of another type is left out. *)
Theorem cap_types_spec hits k :
  (0 < k)%Z ->
  exists rest, hits ≡ₚ cap_types hits k ++ rest /\
    length (cap_types hits k) = Nat.min (Z.to_nat k) (length hits) /\
    forall kind, (type_cap k < Z.of_nat (count_type kind (cap_types hits k)))%Z -> Forall (fun h => type_of h = kind) rest.
Proof using Type.
  intros Hk. assert (Hhalf : (1 <= type_cap k /\ k <= 2 * type_cap k)%Z).
  { unfold type_cap. pose proof (Z.div_mod (- k) 2 ltac:(lia)). pose proof (Z.mod_pos_bound (- k) 2 ltac:(lia)). lia. }
  pose proof (cap_loop_spec k [] [] hits Hk ltac:(cbn; lia) ltac:(intros; cbn; lia) ltac:(constructor)) as H.
  unfold cap_types. destruct (cap_loop k [] [] hits) as [taken|[taken skipped]].
  - destruct H as (Hlen & Hcap & rest & Hperm). rewrite app_nil_r in Hperm. exists rest. split_and!; [done| |].
    + apply Permutation_length in Hperm. rewrite length_app in Hperm. lia.
    + intros kind Hc. specialize (Hcap kind). lia.
  - destruct H as (Hlen & Hcap & Hskip & Hperm). rewrite app_nil_r in Hperm. set (n := Z.to_nat (k - Z.of_nat (length taken))).
    assert (Hfirst : first_of (k - Z.of_nat (length taken)) skipped = take n skipped) by done. rewrite Hfirst.
    assert (take_in : forall h, h ∈ take n skipped -> h ∈ skipped).
    { intros h Hh. rewrite <- (take_drop n skipped). apply elem_of_app. by left. }
    assert (drop_in : forall h, h ∈ drop n skipped -> h ∈ skipped).
    { intros h Hh. rewrite <- (take_drop n skipped). apply elem_of_app. by right. }
    exists (drop n skipped). split_and!.
    + rewrite Hperm. unfold sort_hits. rewrite stable_sort_perm, <- app_assoc, take_drop. done.
    + apply Permutation_length in Hperm. rewrite length_app in Hperm. unfold sort_hits.
      rewrite stable_sort_length, length_app, length_take. lia.
    + intros kind Hc. unfold sort_hits in Hc. rewrite (count_type_perm _ _ _ (stable_sort_perm _ _)), count_type_app in Hc.
      specialize (Hcap kind) as Hkind.
      assert (Hin : exists h, h ∈ take n skipped /\ type_of h = kind).
      { destruct (filter (fun h => type_of h = kind) (take n skipped)) as [|h l] eqn:Hf.
        - unfold count_type in Hc at 2. rewrite Hf in Hc. cbn in Hc. lia.
        - exists h. assert (Hh : h ∈ filter (fun h => type_of h = kind) (take n skipped)) by (rewrite Hf; by left).
          apply list_elem_of_filter in Hh. tauto. }
      destruct Hin as (h & Hh & Ht). assert (Hn : (0 < n)%nat) by (destruct n; [by apply not_elem_of_nil in Hh|lia]).
      rewrite Forall_forall in Hskip. pose proof (Hskip h (take_in h Hh)) as Hfull. rewrite Ht in Hfull.
      apply Forall_forall. intros h' Hh'%drop_in. specialize (Hskip _ Hh').
      destruct (decide (type_of h' = kind)) as [|Hne]; [done|]. pose proof (count_type_two _ _ taken Hne). lia.
Qed.
End CapLaws.

(** *** Exact titles *)

Lemma fcompare_swap a b : SFcompare a b = CompOpp <$> SFcompare b a.
Proof.
  destruct a as [sa|sa| |sa ma ea], b as [sb|sb| |sb mb eb]; cbn; try done; try (by destruct sa); try (by destruct sb);
    try (by destruct sa, sb).
  assert (Hm : Pos.compare_cont Eq ma mb = CompOpp (Pos.compare_cont Eq mb ma)) by (by rewrite Pos.compare_cont_antisym).
  rewrite (Z.compare_antisym eb ea), Hm. f_equal. by destruct sa, sb, (eb ?= ea)%Z; cbn; rewrite ?CompOpp_involutive.
Qed.
Lemma higher_first a b :
  fltb (sh_score b) (sh_score a) = true -> hit_before a b = true /\ hit_before b a = false.
Proof.
  unfold hit_before, key_before, hit_key, fltb, feqb, SFltb, SFeqb. cbn [fst snd]. intros H.
  rewrite (fcompare_swap (sh_score a)). destruct (SFcompare (sh_score b) (sh_score a)) as [[]|]; by cbn.
Qed.
Section Exact.
Context (casefold : pystr -> pystr) (norm : vector -> float) (dot : vector -> vector -> float).
Context (quotient : float -> float -> float -> float) (query : pystr).
Abbreviation is_exact := (exact_title casefold query).
(** What the comments on the boost say of the scores [l]. *)
Definition boost_dominates (l : list float) : Prop :=
  forall s s', s ∈ l -> s' ∈ l -> fltb (fadd s' f_zero) (fadd s EXACT_TITLE_BOOST) = true.
(** The hits of exact titles come before the others. *)
Definition exact_first (hits : list SearchHit) (from : list Instruction) (k : Z) : Prop :=
  exists p q, hits = first_of k (p ++ q) /\ sh_instruction <$> p ≡ₚ filter (fun i => is_exact i = true) from /\
    Forall (fun h => is_exact (sh_instruction h) = false) q.
Lemma exact_boosted (l : list (Instruction * float)) :
  sh_instruction <$> filter (fun h => is_exact (sh_instruction h) = true) ((fun p => boosted casefold query p.1 p.2) <$> l) =
  filter (fun i => is_exact i = true) (fst <$> l).
Proof using Type.
  induction l as [|[i s] l IH]; [done|]. cbn in IH |- *. destruct (is_exact i).
  - rewrite !decide_True by done. cbn. f_equal. exact IH.
  - rewrite !decide_False by done. exact IH.
Qed.
Lemma boosted_first (l : list (Instruction * float)) k :
  boost_dominates (snd <$> l) ->
  exact_first (first_of k (sort_hits ((fun p => boosted casefold query p.1 p.2) <$> l))) (fst <$> l) k.
Proof using Type.
  intros Hb. set (hits := _ <$> l). set (P h := is_exact (sh_instruction h)).
  assert (Hdom : forall a b, a ∈ hits -> b ∈ hits -> P a = true -> P b = false -> fltb (sh_score b) (sh_score a) = true).
  { intros a b (x & -> & Hx)%list_elem_of_fmap (y & -> & Hy)%list_elem_of_fmap Ha Hb'. unfold P in Ha, Hb'. cbn in Ha, Hb'.
    cbn [sh_score boosted]. rewrite Ha, Hb'. apply Hb; apply list_elem_of_fmap; eauto. }
  destruct (stable_sort_head hit_before P hits) as (p & q & Heq & Hp & Hq).
  - intros a b Ha Hb' HPa HPb. by apply higher_first, Hdom.
  - intros a b Ha Hb' HPa HPb. by apply higher_first, Hdom.
  - exists p, q. unfold sort_hits. rewrite Heq. split_and!; [done| |done]. rewrite Hp. unfold hits, P. clear.
    by rewrite exact_boosted.
Qed.
Lemma zip_with_fmap_pair {A B C} (f : A -> B -> C) l k : zip_with f l k = (fun p => f p.1 p.2) <$> zip l k.
Proof using Type. revert k. induction l as [|a l IH]; intros [|b k]; cbn; [done..|]. by rewrite IH. Qed.
(** A record whose title is the query comes before every other, in the ranking by cosine and in the fusion of rankings, as long as the boost outweighs the scores at hand. *)
Theorem exact_titles_first candidates query_embedding rankings k :
  (0 < k)%Z -> let t := reciprocal_rank_scores rankings in
  boost_dominates (cosine_scores norm dot quotient candidates query_embedding) ->
  boost_dominates (score_of t <$> dict_values t.2) ->
  exact_first (rank casefold norm dot quotient candidates query query_embedding k) (ei_instruction <$> candidates) k /\
  exact_first (fuse casefold rankings query k) (ei_instruction <$> dict_values t.2) k.
Proof using Type.
  intros Hk t H1 H2. unfold rank, fuse. fold t. rewrite (proj2 (Z.leb_gt k 0) Hk). split.
  - set (scores := cosine_scores _ _ _ _ _) in *. set (l := zip (ei_instruction <$> candidates) scores).
    assert (Hlen : length scores = length (ei_instruction <$> candidates)) by (unfold scores, cosine_scores; by rewrite !length_fmap).
    replace (zip_with _ candidates scores) with ((fun p => boosted casefold query p.1 p.2) <$> l).
    + replace (ei_instruction <$> candidates) with (fst <$> l) by (apply fst_zip; lia). apply boosted_first.
      unfold l. by rewrite snd_zip by lia.
    + unfold l. rewrite <- zip_with_fmap_pair. by rewrite zip_with_fmap_l.
  - set (l := (fun c => (ei_instruction c, score_of t c)) <$> dict_values t.2).
    replace (ei_instruction <$> dict_values t.2) with (fst <$> l) by (unfold l; by rewrite <- list_fmap_compose).
    replace ((fun c => boosted _ _ _ _) <$> dict_values t.2) with ((fun p => boosted casefold query p.1 p.2) <$> l)
      by (unfold l; by rewrite <- list_fmap_compose).
    apply boosted_first. unfold l. rewrite <- list_fmap_compose. exact H2.
Qed.
End Exact.

(** A cross-encoder re-scores the same hits, and a record whose title is the query stays first whatever its score. *)
Lemma rerank_keeps_exact casefold hits scores k query r :
  (0 < k)%Z -> rerank casefold hits scores k query = Ok r ->
  (exists rest, sh_instruction <$> hits ≡ₚ (sh_instruction <$> r) ++ rest) /\
  (Exists (fun h => exact_title casefold query (sh_instruction h) = true) hits ->
   exists h r', r = h :: r' /\ exact_title casefold query (sh_instruction h) = true).
Proof.
  intros Hk H. unfold rerank in H. rewrite (proj2 (Z.leb_gt k 0) Hk) in H.
  destruct (Nat.eqb_spec (length hits) (length scores)) as [Hlen|]; [|done]. cbn [negb] in H.
  set (all := sort_hits _) in H.
  assert (Hall : sh_instruction <$> all ≡ₚ sh_instruction <$> hits).
  { unfold all, sort_hits. rewrite stable_sort_perm. clear -Hlen. revert scores Hlen.
    induction hits as [|h hits IH]; intros [|s scores] Hlen; cbn in *; [done..|]. f_equiv. apply IH. lia. }
  assert (Htake : forall l : list SearchHit, exists rest, sh_instruction <$> l ≡ₚ (sh_instruction <$> first_of k l) ++ rest).
  { intros l. exists (sh_instruction <$> drop (Z.to_nat k) l). unfold first_of. by rewrite <- fmap_app, take_drop. }
  destruct (list_find _ all) as [[i exact]|] eqn:Hf; injection H as <-.
  - apply list_find_Some in Hf as (Hi & He & _). apply list_elem_of_split_length in Hi as (l1 & l2 & Hl & Hn). split.
    + destruct (Htake (exact :: take i all ++ drop (S i) all)) as [rest Hrest]. exists rest. rewrite <- Hrest, <- Hall.
      f_equiv. rewrite Hl, Hn. rewrite take_app_length, drop_app_ge by (rewrite Nat.sub_0_r || lia).
      replace (S (length l1) - length l1)%nat with 1%nat by lia. cbn. rewrite drop_0. by rewrite Permutation_middle.
    + intros _. unfold first_of. destruct (Z.to_nat k) eqn:Hz; [lia|]. cbn. eauto.
  - split.
    + destruct (Htake all) as [rest Hrest]. exists rest. by rewrite <- Hrest, <- Hall.
    + intros Hex. exfalso. apply list_find_None in Hf.
      assert (Hex' : Exists (fun i => exact_title casefold query i = true) (sh_instruction <$> all)).
      { rewrite Hall. by apply Exists_fmap. }
      apply Exists_fmap in Hex'. apply Exists_exists in Hex' as (h & Hh & Hx). rewrite Forall_forall in Hf. by apply (Hf h Hh).
Qed.
(** *** Where hits come from *)

Definition drawn (hits : list SearchHit) (from : list Instruction) : Prop := Forall (fun h => sh_instruction h ∈ from) hits.
Lemma drawn_subset hits hits' from : (forall h, h ∈ hits' -> h ∈ hits) -> drawn hits from -> drawn hits' from.
Proof. unfold drawn. rewrite !Forall_forall. auto. Qed.
Lemma first_of_in {A} k (l : list A) a : a ∈ first_of k l -> a ∈ l.
Proof. unfold first_of. intros H. rewrite <- (take_drop (Z.to_nat k) l). apply elem_of_app. by left. Qed.
Lemma first_of_le {A} k (l : list A) : (length (first_of k l) <= Z.to_nat k)%nat.
Proof. unfold first_of. rewrite length_take. lia. Qed.
Lemma sort_hits_in h l : h ∈ sort_hits l -> h ∈ l.
Proof. unfold sort_hits. by rewrite stable_sort_perm. Qed.
Lemma rank_drawn casefold norm dot quotient candidates query v k :
  drawn (rank casefold norm dot quotient candidates query v k) (ei_instruction <$> candidates) /\
  (length (rank casefold norm dot quotient candidates query v k) <= Z.to_nat k)%nat.
Proof.
  unfold rank. destruct (k <=? 0)%Z; [split; [constructor|cbn; lia]|]. split; [|apply first_of_le].
  apply Forall_forall. intros h Hh%first_of_in%sort_hits_in. rewrite zip_with_fmap_pair in Hh.
  apply list_elem_of_fmap in Hh as ([c score] & -> & Hc). cbn. apply list_elem_of_fmap_2. by apply elem_of_zip_l in Hc.
Qed.
Lemma tally_drawn rankings (P : EmbeddedInstruction -> Prop) :
  Forall (Forall P) rankings -> Forall P (dict_values (reciprocal_rank_scores rankings).2).
Proof.
  intros H. unfold reciprocal_rank_scores.
  assert (Hgen : forall t, Forall P (dict_values t.2) ->
    Forall P (dict_values (foldl (fun t ranking => foldl count_vote t (numbered ranking)) t rankings).2)); [|by apply Hgen].
  induction H as [|ranking rankings Hr _ IH]; intros t Ht; [done|]. apply IH. clear IH.
  assert (Hn : Forall (fun pc : Z * EmbeddedInstruction => P pc.2) (numbered ranking)).
  { unfold numbered. apply Forall_forall. intros pc (i & c & -> & Hc)%elem_of_lookup_imap. rewrite Forall_forall in Hr. apply Hr. by eapply list_elem_of_lookup_2. }
  clear Hr. revert t Ht. induction Hn as [|pc l Hpc _ IH]; intros t Ht; [done|]. apply IH. unfold count_vote. cbn [snd].
  case_bool_decide; [done|]. unfold dict_values in *. rewrite Forall_forall in *.
  intros c ([key c'] & -> & Hin)%list_elem_of_fmap. apply elem_of_dict_set in Hin as [[= _ ->]|Hin]; [done|].
  apply Ht. by apply (list_elem_of_fmap_2 snd _ _ Hin).
Qed.
Lemma fuse_rankings_drawn rankings (P : EmbeddedInstruction -> Prop) :
  Forall (Forall P) rankings -> Forall P (fuse_rankings rankings).
Proof. intros H. unfold fuse_rankings. rewrite stable_sort_perm. by apply tally_drawn. Qed.
Lemma fuse_drawn casefold rankings query k from :
  Forall (Forall (fun c => ei_instruction c ∈ from)) rankings ->
  drawn (fuse casefold rankings query k) from /\ (length (fuse casefold rankings query k) <= Z.to_nat k)%nat.
Proof.
  intros H. unfold fuse. destruct (k <=? 0)%Z; [split; [constructor|cbn; lia]|]. split; [|apply first_of_le].
  apply tally_drawn in H. rewrite Forall_forall in H. apply Forall_forall. intros h Hh%first_of_in%sort_hits_in.
  apply list_elem_of_fmap in Hh as (c & -> & Hc). cbn. by apply H.
Qed.
(** A re-ranking is of the same hits. *)
Lemma rerank_drawn casefold hits scores k query r from :
  rerank casefold hits scores k query = Ok r -> drawn hits from -> drawn r from /\ (length r <= Z.to_nat k)%nat.
Proof.
  unfold rerank. destruct (Z.leb_spec k 0) as [|Hk]; [intros [= <-]; split; [constructor|cbn; lia]|].
  destruct (length hits =? length scores)%nat; [|done]. cbn [negb]. set (all := sort_hits _). intros Hr Hd.
  assert (Hall : drawn all from).
  { apply Forall_forall. intros h Hh%sort_hits_in. rewrite zip_with_fmap_pair in Hh.
    apply list_elem_of_fmap in Hh as ([h' score] & -> & Hh'). apply elem_of_zip_l in Hh'. unfold drawn in Hd.
    rewrite Forall_forall in Hd. exact (Hd h' Hh'). }
  destruct (list_find _ all) as [[i exact]|] eqn:Hf; injection Hr as <-; (split; [|apply first_of_le]);
    (eapply drawn_subset; [|exact Hall]); intros h Hh%first_of_in; [|done].
  apply list_find_Some in Hf as (Hi & _). apply elem_of_cons in Hh as [->|Hh]; [by eapply list_elem_of_lookup_2|].
  apply elem_of_app in Hh as [Hh|Hh]; [exact (subseteq_take _ _ _ Hh)|exact (subseteq_drop _ _ _ Hh)].
Qed.

(** *** What the code does not do *)

(** The share of the types is applied to the ranking of the cross-encoder, and
    sorts it again by score when it is shorter than [k]: the record whose title
    is the query is not first any more. *)
Definition titled (id title : pystr) (score : Z) : SearchHit :=
  {| sh_instruction := {| in_id := id; in_type := InstructionType.SKILL; in_title := title; in_content := ""; in_tags := []; in_version := 1;
       in_usage_count := 0; in_success_count := 0; in_created_at := 0; in_updated_at := 0; in_system := false;
       in_owner_id := None; in_author_id := None |}; sh_score := float_of_Z score |}.
Definition two_hits : list SearchHit := [titled "a" "report" 3; titled "b" "other" 2].
Theorem cap_drops_exact_title :
  exists r, rerank id two_hits [float_of_Z 1; float_of_Z 5] 2 "report" = Ok r /\
    in_title <$> (sh_instruction <$> r) = ["report"; "other"] /\
    in_title <$> (sh_instruction <$> cap_types r 3) = ["other"; "report"].
Proof. eexists. split; [vm_compute; reflexivity|]. split; vm_compute; reflexivity. Qed.
