(* ===== verification/Instructions.v ===== *)
(** * The store of instructions ([instructions/store.py], [pg_store.py], [sqlite_store.py])

    One table of records: public ones, and those of a user.  Its searches on
    the side of the database, where it can. *)
From S2P Require Import Prelude PyStr PyFloat Clock Sql Dict Domain UnitOfWork Ranking.

(** ** The table *)

Record InstructionRow := {
  ro_id : pystr;
  ro_type : InstructionType.t;
  ro_title : pystr;
  ro_content : pystr;
  ro_embedding : vector;
  ro_embedding_vector : option vector;
  ro_embedding_model : option pystr;
  ro_tags : list pystr;
  ro_version : Z;
  ro_usage_count : Z;
  ro_success_count : Z;
  ro_system : bool;
  ro_owner_id : option pystr;
  ro_author_id : option pystr;
  ro_created_at : time;
  ro_updated_at : time }.
#[export] Instance float_eq_dec : EqDecision float.
Proof. unfold float. solve_decision. Defined.
#[export] Instance instruction_row_eq_dec : EqDecision InstructionRow := ltac:(solve_decision).
(** What the table keeps unique: for a user, and among the public records. *)
Definition slot : Type := InstructionType.t * pystr * option pystr.
Definition slot_of (r : InstructionRow) : slot := (ro_type r, ro_title r, ro_owner_id r).

Definition to_instruction (r : InstructionRow) : Instruction :=
  {| in_id := ro_id r; in_type := ro_type r; in_title := ro_title r; in_content := ro_content r; in_tags := ro_tags r;
     in_version := ro_version r; in_usage_count := ro_usage_count r; in_success_count := ro_success_count r;
     in_created_at := ro_created_at r; in_updated_at := ro_updated_at r; in_system := ro_system r;
     in_owner_id := ro_owner_id r; in_author_id := ro_author_id r |}.
Definition to_embedded (r : InstructionRow) : EmbeddedInstruction :=
  {| ei_instruction := to_instruction r; ei_embedding := ro_embedding r |}.
(** [list(embedding) or None] *)
Definition or_null (v : vector) : option vector := match v with [] => None | _ => Some v end.
Definition FIRST_VERSION : Z := 1.
Definition fresh_row (id : pystr) (now : time) (d : InstructionDraft) : InstructionRow :=
  {| ro_id := id; ro_type := dr_kind d; ro_title := dr_title d; ro_content := dr_content d; ro_embedding := dr_embedding d;
     ro_embedding_vector := or_null (dr_embedding d); ro_embedding_model := dr_embedding_model d; ro_tags := dr_tags d;
     ro_version := FIRST_VERSION; ro_usage_count := 0; ro_success_count := 0; ro_system := dr_system d;
     ro_owner_id := dr_owner_id d; ro_author_id := dr_author_id d; ro_created_at := now; ro_updated_at := now |}.
(** [_update_row]: what the object holds when it is written. *)
Definition revised (now : time) (d : InstructionDraft) (r : InstructionRow) : InstructionRow :=
  {| ro_id := ro_id r; ro_type := ro_type r; ro_title := ro_title r; ro_content := dr_content d; ro_embedding := dr_embedding d;
     ro_embedding_vector := or_null (dr_embedding d); ro_embedding_model := dr_embedding_model d; ro_tags := dr_tags d;
     ro_version := ro_version r + 1; ro_usage_count := ro_usage_count r; ro_success_count := ro_success_count r;
     ro_system := dr_system d; ro_owner_id := ro_owner_id r;
     ro_author_id := match dr_author_id d with Some a => Some a | None => ro_author_id r end;
     ro_created_at := ro_created_at r; ro_updated_at := now |}.
(** A flush writes the columns whose value changed since the row was read. *)
Definition column {A} `{EqDecision A} (read new current : A) : A := if decide (new = read) then current else new.
Definition flushed (read new current : InstructionRow) : InstructionRow :=
  let col {A} `{EqDecision A} (f : InstructionRow -> A) := column (f read) (f new) (f current) in
  {| ro_id := ro_id current; ro_type := col ro_type; ro_title := col ro_title; ro_content := col ro_content;
     ro_embedding := col ro_embedding; ro_embedding_vector := col ro_embedding_vector;
     ro_embedding_model := col ro_embedding_model; ro_tags := col ro_tags; ro_version := col ro_version;
     ro_usage_count := col ro_usage_count; ro_success_count := col ro_success_count; ro_system := col ro_system;
     ro_owner_id := col ro_owner_id; ro_author_id := col ro_author_id; ro_created_at := col ro_created_at;
     ro_updated_at := col ro_updated_at |}.
Definition bumped (r : InstructionRow) : InstructionRow :=
  {| ro_id := ro_id r; ro_type := ro_type r; ro_title := ro_title r; ro_content := ro_content r; ro_embedding := ro_embedding r;
     ro_embedding_vector := ro_embedding_vector r; ro_embedding_model := ro_embedding_model r; ro_tags := ro_tags r;
     ro_version := ro_version r; ro_usage_count := ro_usage_count r + 1; ro_success_count := ro_success_count r;
     ro_system := ro_system r; ro_owner_id := ro_owner_id r; ro_author_id := ro_author_id r; ro_created_at := ro_created_at r;
     ro_updated_at := ro_updated_at r |}.
Definition reembedded (v : vector) (model : pystr) (r : InstructionRow) : InstructionRow :=
  {| ro_id := ro_id r; ro_type := ro_type r; ro_title := ro_title r; ro_content := ro_content r; ro_embedding := v;
     ro_embedding_vector := or_null v; ro_embedding_model := Some model; ro_tags := ro_tags r;
     ro_version := ro_version r; ro_usage_count := ro_usage_count r; ro_success_count := ro_success_count r;
     ro_system := ro_system r; ro_owner_id := ro_owner_id r; ro_author_id := ro_author_id r; ro_created_at := ro_created_at r;
     ro_updated_at := ro_updated_at r |}.
Definition published (now : time) (r : InstructionRow) : InstructionRow :=
  {| ro_id := ro_id r; ro_type := ro_type r; ro_title := ro_title r; ro_content := ro_content r; ro_embedding := ro_embedding r;
     ro_embedding_vector := ro_embedding_vector r; ro_embedding_model := ro_embedding_model r; ro_tags := ro_tags r;
     ro_version := ro_version r; ro_usage_count := ro_usage_count r; ro_success_count := ro_success_count r;
     ro_system := ro_system r; ro_owner_id := None;
     ro_author_id := match ro_author_id r with Some a => Some a | None => ro_owner_id r end;
     ro_created_at := ro_created_at r; ro_updated_at := now |}.

(** Who may see a row: [None] asks for the whole table. *)
Definition visible (user_id : option pystr) (r : InstructionRow) : Prop :=
  match user_id with None => True | Some u => ro_owner_id r = None \/ ro_owner_id r = Some u end.
#[export] Instance visible_dec user_id r : Decision (visible user_id r).
Proof. unfold visible. destruct user_id; apply _. Defined.
Definition of_kinds (kinds : list InstructionType.t) (r : InstructionRow) : Prop := kinds = [] \/ ro_type r ∈ kinds.
Definition of_kind (kind : option InstructionType.t) (r : InstructionRow) : Prop :=
  match kind with Some k => ro_type r = k | None => True end.
#[export] Instance of_kind_dec kind r : Decision (of_kind kind r).
Proof. unfold of_kind. destruct kind; apply _. Defined.
(** [list_stale_embeddings]: the three cases of its query. *)
Definition stale (model : pystr) (r : InstructionRow) : Prop :=
  ro_embedding r = [] \/ ro_embedding_model r = None \/ ro_embedding_model r <> Some model.
#[export] Instance of_kinds_dec kinds r : Decision (of_kinds kinds r) := ltac:(unfold of_kinds; apply _).
#[export] Instance stale_dec model r : Decision (stale model r) := ltac:(unfold stale; apply _).
(** [.order_by(created_at, id)] *)
Definition oldest_first (l : list InstructionRow) : list InstructionRow := order_by ro_created_at (order_by_str ro_id l).

(** ** The query language of FTS5 ([db/sqlite_fts.py]: [match_expression]) *)

Definition MIN_TOKEN_LENGTH : nat := 3.
Definition dquote : N := 34.
Definition double_quotes (l : list N) : list N := concat ((fun c => if (c =? dquote)%N then [c; c] else [c]) <$> l).
Definition strip_quotes (l : list N) : list N :=
  let drop_quotes := fix drop_quotes l := match l with c :: r => if (c =? dquote)%N then drop_quotes r else l | [] => [] end in
  rev (drop_quotes (rev (drop_quotes l))).
Definition quoted_phrase (token : pystr) : pystr := PyStr (dquote :: double_quotes (codes token) ++ [dquote]).
Definition match_expression (query : pystr) : option pystr :=
  match List.filter (fun token => (MIN_TOKEN_LENGTH <=? length (strip_quotes (codes token)))%nat) (str_split query) with
  | [] => None
  | tokens => Some (str_join " OR " (quoted_phrase <$> tokens))
  end.

(** ** The store *)

Module InstructionStore.
Section Store.
(** What other processes commit between the look-up of [upsert] and its
    commit, and after a lost race; [LIKE prefix%], which ignores the case of
    ASCII letters on SQLite; the clock and a fresh id. *)
Context (others : nat -> list InstructionRow -> list InstructionRow) (like_prefix : pystr -> pystr -> bool).
Context (now : time) (new_id : pystr).
Abbreviation MI := (M (list InstructionRow) Exn) (only parsing).

(** [_owner_clause], [_find_row] *)
Definition find_row (kind : InstructionType.t) (title : pystr) (owner : option pystr) (t : list InstructionRow)
    : option InstructionRow :=
  head (select_where (fun r => slot_of r = (kind, title, owner)) t).
(** The constraints of the table, for a row written. *)
Definition clashes (r : InstructionRow) (t : list InstructionRow) : bool :=
  existsb (fun r' => bool_decide (ro_id r' <> ro_id r /\ slot_of r' = slot_of r)) t.
(** A flush of an object that was read as [read]. *)
Definition flush (read new : InstructionRow) : MI Instruction :=
  let! t := get_st in
  match find_key ro_id (ro_id read) t with
  | None => raise (OtherError "StaleDataError")
  | Some current =>
      if clashes (flushed read new current) t then raise IntegrityError
      else modify (update_where (fun r => ro_id r = ro_id read) (flushed read new)) ;;; ret (to_instruction new)
  end.
Definition update_row (r : InstructionRow) (d : InstructionDraft) : MI Instruction := flush r (revised now d r).
Definition add_row (d : InstructionDraft) : MI Instruction :=
  let r := fresh_row new_id now d in
  let! t := get_st in
  if clashes r t || bool_decide (is_Some (find_key ro_id new_id t)) then raise IntegrityError
  else modify (insert_row r) ;;; ret (to_instruction r).
Definition upsert (d : InstructionDraft) : MI Instruction :=
  let! found := gets (find_row (dr_kind d) (dr_title d) (dr_owner_id d)) in
  modify (others 0) ;;;
  match found with
  | Some r => update_row r d
  | None =>
      try_except (add_row d) (fun e =>
        match e with
        | IntegrityError =>
            modify (others 1) ;;;
            let! winner := gets (find_row (dr_kind d) (dr_title d) (dr_owner_id d)) in
            match winner with
            | None => raise IntegrityError
            | Some r => modify (others 2) ;;; update_row r d
            end
        | e => raise e
        end)
  end.

Definition get_by_title (title : pystr) (kind : option InstructionType.t) (owner_id : option pystr) : MI (option Instruction) :=
  gets (fun t => to_instruction <$> head (oldest_first (select_where (fun r =>
    ro_title r = title /\ ro_owner_id r = owner_id /\ of_kind kind r) t))).
Definition get (instruction_id : pystr) : MI (option Instruction) :=
  gets (fun t => to_instruction <$> find_key ro_id instruction_id t).
Definition list_with_embeddings (user_id : option pystr) : MI (list EmbeddedInstruction) :=
  gets (fun t => to_embedded <$> order_by_str ro_id (select_where (visible user_id) t)).
Definition list_system : MI (list Instruction) :=
  gets (fun t => to_instruction <$> oldest_first (select_where (fun r => ro_system r = true) t)).
Definition list_public_by_prefix (kind : InstructionType.t) (prefix : pystr) : MI (list Instruction) :=
  gets (fun t => to_instruction <$> order_by_str ro_title (select_where (fun r =>
    ro_type r = kind /\ ro_owner_id r = None /\ ro_system r = false /\ like_prefix prefix (ro_title r) = true) t)).
(** The memories of a user. *)
Definition memory_of (owner_id : pystr) (r : InstructionRow) : Prop :=
  ro_type r = InstructionType.MEMORY /\ ro_owner_id r = Some owner_id.
#[export] Instance memory_of_dec owner_id r : Decision (memory_of owner_id r) := ltac:(unfold memory_of; apply _).
Definition memory_total (owner_id : pystr) (t : list InstructionRow) : Z :=
  foldr (fun r n => str_len (ro_content r) + n)%Z 0%Z (select_where (memory_of owner_id) t).
Definition memory_chars (owner_id : pystr) : MI Z := gets (memory_total owner_id).
Definition bump_usage (instruction_ids : list pystr) : MI unit :=
  match instruction_ids with
  | [] => ret tt
  | _ => modify (update_where (fun r => ro_id r ∈ instruction_ids) bumped)
  end.
Definition delete_where_some (P : InstructionRow -> Prop) `{!forall r, Decision (P r)} : MI bool :=
  let! n := gets (rowcount P) in modify (delete_where P) ;;; ret (0 <? n)%nat.
Definition delete_by_id (instruction_id owner_id : pystr) : MI bool :=
  delete_where_some (fun r => ro_id r = instruction_id /\ ro_owner_id r = Some owner_id).
Definition publish (instruction_id : pystr) : MI (option Instruction) :=
  let! found := gets (find_key ro_id instruction_id) in
  match found with
  | None => ret None
  | Some r =>
      if decide (ro_type r = InstructionType.MEMORY) then ret None
      else let! i := flush r (published now r) in ret (Some i)
  end.
Definition list_stale_embeddings (model : pystr) (limit : Z) : MI (list Instruction) :=
  if (limit <=? 0)%Z then ret []
  else gets (fun t => to_instruction <$> first_of limit (oldest_first (select_where (stale model) t))).
Definition count_stale_embeddings (model : pystr) : MI Z := gets (fun t => Z.of_nat (rowcount (stale model) t)).
Definition set_embedding (instruction_id : pystr) (embedding : vector) (model : pystr) : MI bool :=
  let! n := gets (rowcount (fun r => ro_id r = instruction_id)) in
  modify (update_where (fun r => ro_id r = instruction_id) (reembedded embedding model)) ;;;
  ret (0 <? n)%nat.
Definition delete_by_title (title : pystr) (kind : InstructionType.t) : MI bool :=
  delete_where_some (fun r => slot_of r = (kind, title, None)).

(** *** Searching on the side of the database

    The distance of two vectors; the relevance of a text, negative where it
    shares a term with the query. *)
Context (distance : vector -> vector -> float) (relevance : pystr -> pystr -> float).
Definition nearer (a b : float * InstructionRow) : bool := fltb a.1 b.1.
Definition closest (limit : Z) (scored : list (float * InstructionRow)) : list EmbeddedInstruction :=
  (fun p => to_embedded p.2) <$> first_of limit (stable_sort nearer scored).
Definition search_by_vector (query_embedding : vector) (limit : Z) (user_id : option pystr) (kinds : list InstructionType.t)
    : MI (list EmbeddedInstruction) :=
  if (limit <=? 0)%Z || (length query_embedding =? 0)%nat then ret []
  else gets (fun t => closest limit (omap (fun r =>
    match ro_embedding_vector r with
    | Some v => if (length v =? length query_embedding)%nat then Some (distance v query_embedding, r) else None
    | None => None
    end) (select_where (fun r => visible user_id r /\ of_kinds kinds r) t))).
(** [_ranked_by] *)
Definition ranked_by (col : InstructionRow -> pystr) (query : pystr) (limit : Z) (user_id : option pystr)
    (kinds : list InstructionType.t) (t : list InstructionRow) : list EmbeddedInstruction :=
  closest limit (omap (fun r => let s := relevance (col r) query in if fltb s f_zero then Some (s, r) else None)
    (select_where (fun r => visible user_id r /\ of_kinds kinds r) t)).
Definition search_by_text (query : pystr) (limit : Z) (user_id : option pystr) (kinds : list InstructionType.t)
    : MI (list EmbeddedInstruction) :=
  if (limit <=? 0)%Z || str_empty (str_strip query) then ret []
  else gets (fun t => first_of limit (fuse_rankings [ranked_by ro_content query limit user_id kinds t;
                                                     ranked_by ro_title query limit user_id kinds t])).
(** *** Over the FTS5 mirror: the ids that match, best first, then their rows. *)
Context (match_rank : pystr -> InstructionRow -> option float).
Definition matching_ids (expression : pystr) (limit : Z) (user_id : option pystr) (kinds : list InstructionType.t)
    (t : list InstructionRow) : list pystr :=
  (fun p => ro_id p.2) <$> first_of limit (stable_sort nearer (omap (fun r => (fun s => (s, r)) <$> match_rank expression r)
    (select_where (fun r => visible user_id r /\ of_kinds kinds r) t))).
Definition sqlite_search_by_text (query : pystr) (limit : Z) (user_id : option pystr) (kinds : list InstructionType.t)
    : MI (list EmbeddedInstruction) :=
  match match_expression query with
  | None => ret []
  | Some expression =>
      if (limit <=? 0)%Z then ret []
      else
        let! ids := gets (matching_ids expression limit user_id kinds) in
        modify (others 3) ;;;
        gets (fun t => omap (fun key => to_embedded <$> find_key ro_id key t) ids)
  end.
End Store.
End InstructionStore.
