(* ===== verification/InstructionService.v ===== *)
(** * The service of instructions ([instructions/local.py], [instructions/registry.py])

    Saving, searching and publishing records over the store; the embedder, the
    reranker and what the database can search are ports.  Usage counters are
    written by tasks of their own. *)
From S2P Require Import Prelude PyStr PyFloat Clock Sql Dict Domain UnitOfWork Ranking Instructions.

Definition EMBEDDED_TEXT_SEPARATOR : pystr := newline.
Definition DEFAULT_RERANK_CANDIDATES : Z := 20.
Definition UNKNOWN_EMBEDDING_MODEL : pystr := "unknown".
Definition DEFAULT_RESYNC_BATCH : Z := 256.
Definition SYSTEM_RECORD_MESSAGE (title : pystr) : pystr :=
  "'" +s+ title +s+ "' is a system instruction managed by the registry; it cannot be modified".
Record InstructionSearchPolicy := { sp_rerank_candidates : Z; sp_embedding_model : pystr; sp_resync_batch : Z }.
Definition DEFAULT_SEARCH_POLICY : InstructionSearchPolicy :=
  {| sp_rerank_candidates := DEFAULT_RERANK_CANDIDATES; sp_embedding_model := UNKNOWN_EMBEDDING_MODEL;
     sp_resync_batch := DEFAULT_RESYNC_BATCH |}.
(** [_embedded_text], [_wanted_kinds] *)
Definition embedded_text (title content : pystr) : pystr := title +s+ EMBEDDED_TEXT_SEPARATOR +s+ content.
Definition wanted_kinds (kind : option InstructionType.t) (exclude : list InstructionType.t) : list InstructionType.t :=
  match kind with
  | Some kind => [kind]
  | None => List.filter (fun k => negb (bool_decide (k ∈ exclude))) InstructionType.all
  end.

(** The table, and the counters waiting to be written. *)
Record ServiceState := { ss_rows : list InstructionRow; ss_pending_bumps : list (list pystr) }.
Abbreviation MS := (M ServiceState Exn) (only parsing).
Definition on_rows {A} (m : M (list InstructionRow) Exn A) : MS A := fun s =>
  let '(r, t) := m (ss_rows s) in (r, {| ss_rows := t; ss_pending_bumps := ss_pending_bumps s |}).

Section Service.
Context (policy : InstructionSearchPolicy).
(** The store's own ports; [EmbeddingClient.embed]; the reranker, when there is
    one; whether the store searches by vector, and how it searches by text. *)
Context (others : nat -> list InstructionRow -> list InstructionRow) (like_prefix : pystr -> pystr -> bool).
Context (embed : list pystr -> MS (list vector)) (reranker : option (list (pystr * pystr) -> MS (list float))).
Context (distance : vector -> vector -> float) (vector_capable : bool).
Context (search_by_text : option (pystr -> Z -> option pystr -> list InstructionType.t ->
                                  M (list InstructionRow) Exn (list EmbeddedInstruction))).
Context (casefold : pystr -> pystr) (norm : vector -> float) (dot : vector -> vector -> float).
Context (quotient : float -> float -> float -> float).
(** The clock and the next id, whatever the moment. *)
Context (now : ServiceState -> time) (new_id : ServiceState -> pystr).
Definition upsert (d : InstructionDraft) : MS Instruction := fun s =>
  on_rows (InstructionStore.upsert others (now s) (new_id s) d) s.

(** ** Searching *)

Definition bump_usage_later (ids : list pystr) : MS unit :=
  match ids with
  | [] => ret tt
  | _ => modify (fun s => {| ss_rows := ss_rows s; ss_pending_bumps := ss_pending_bumps s ++ [ids] |})
  end.
(** A turn of the task of [_bump_usage_quietly]; the store's failure is only logged. *)
Definition land_bump : MS unit :=
  let! s := get_st in
  match ss_pending_bumps s with
  | [] => ret tt
  | ids :: rest =>
      modify (fun s => {| ss_rows := ss_rows s; ss_pending_bumps := rest |}) ;;;
      suppress is_exception (on_rows (InstructionStore.bump_usage ids))
  end.
Definition shortlist_size (k : Z) : Z :=
  match reranker with Some _ => Z.max k (sp_rerank_candidates policy) | None => k end.
Definition vector_candidates (query_embedding : vector) (fetch : Z) (user_id : option pystr) (kinds : list InstructionType.t)
    : MS (list EmbeddedInstruction) :=
  if vector_capable then on_rows (InstructionStore.search_by_vector distance query_embedding fetch user_id kinds)
  else
    let! rows := on_rows (InstructionStore.list_with_embeddings user_id) in
    ret (filter (fun c => kinds = [] \/ in_type (ei_instruction c) ∈ kinds) rows).
Definition lexical_candidates (query : pystr) (fetch : Z) (user_id : option pystr) (kinds : list InstructionType.t)
    : MS (option (list EmbeddedInstruction)) :=
  match search_by_text with
  | None => ret None
  | Some search => let! hits := on_rows (search query fetch user_id kinds) in ret (Some hits)
  end.
Definition shortlist (query : pystr) (query_embedding : vector) (fetch : Z) (user_id : option pystr)
    (kinds : list InstructionType.t) : MS (list SearchHit) :=
  let! vector_hits := vector_candidates query_embedding fetch user_id kinds in
  let! lexical_hits := lexical_candidates query fetch user_id kinds in
  ret (match lexical_hits with
       | None => rank casefold norm dot quotient vector_hits query query_embedding fetch
       | Some lexical_hits => fuse casefold [vector_hits; lexical_hits] query fetch
       end).
Definition apply_reranker (query : pystr) (hits : list SearchHit) (k : Z) : MS (list SearchHit) :=
  match reranker, hits with
  | None, _ | _, [] => ret hits
  | Some score, _ =>
      let pairs := (fun h => (query, embedded_text (in_title (sh_instruction h)) (in_content (sh_instruction h)))) <$> hits in
      let! scores := except_exception (let! s := score pairs in ret (Some s)) (fun _ => ret None) in
      match scores with
      | None => ret (first_of k hits)
      | Some scores => lift (rerank casefold hits scores k query)
      end
  end.
Definition search_in (user_id : option pystr) (query : pystr) (k : Z) (kind : option InstructionType.t)
    (exclude : list InstructionType.t) : MS (list SearchHit) :=
  if str_empty (str_strip query) || (k <=? 0)%Z then ret []
  else
    let mixed := bool_decide (kind = None) in
    let fetch := match reranker with None => if mixed then Z.max (shortlist_size k) (k * 3) else shortlist_size k | Some _ => shortlist_size k end in
    let! embeddings := embed [query] in
    let! query_embedding := the_only embeddings in
    let! found := shortlist query query_embedding fetch user_id (wanted_kinds kind exclude) in
    let! hits := apply_reranker query found (if mixed then Z.of_nat (length found) else k) in
    let hits := if mixed then cap_types hits k else hits in
    bump_usage_later ((fun h => in_id (sh_instruction h)) <$> hits) ;;;
    ret hits.
Definition search (user_id query : pystr) (k : Z) (kind : option InstructionType.t) : MS (list SearchHit) :=
  search_in (Some user_id) query k kind [InstructionType.ENDPOINT].
Definition search_all (query : pystr) (k : Z) (kind : option InstructionType.t) : MS (list SearchHit) :=
  search_in None query k kind [InstructionType.MEMORY].

(** ** Saving *)

Definition embed_one (title content : pystr) : MS vector :=
  let! embeddings := embed [embedded_text title content] in the_only embeddings.
Definition embed_lenient (title content : pystr) : MS vector := except_exception (embed_one title content) (fun _ => ret []).
Definition model_of (embedding : vector) : option pystr :=
  match embedding with [] => None | _ => Some (sp_embedding_model policy) end.
Definition system_record {A} (title : pystr) : MS A := raise (SystemInstructionError (SYSTEM_RECORD_MESSAGE title)).
Definition draft (kind : InstructionType.t) (title content : pystr) (tags : list pystr) (embedding : vector) (model : option pystr)
    (system : bool) (owner_id author_id : option pystr) : InstructionDraft :=
  {| dr_kind := kind; dr_title := title; dr_content := content; dr_tags := tags; dr_embedding := embedding;
     dr_embedding_model := model; dr_system := system; dr_owner_id := owner_id; dr_author_id := author_id |}.
Definition save (user_id : pystr) (kind : InstructionType.t) (title content : pystr) (tags : list pystr) : MS Instruction :=
  let! published := on_rows (InstructionStore.get_by_title title (Some kind) None) in
  if match published with Some p => in_system p | None => false end then system_record title
  else
    let author_edit := match published with Some p => negb (in_system p) && bool_decide (in_author_id p = Some user_id) | None => false end in
    let! embedding := embed_lenient title content in
    upsert (draft kind title content tags embedding (model_of embedding) false (if author_edit then None else Some user_id) (Some user_id)).
Definition save_public (kind : InstructionType.t) (title content : pystr) (tags : list pystr) : MS Instruction :=
  let! existing := on_rows (InstructionStore.get_by_title title (Some kind) None) in
  let write :=
    let! embedding := embed_lenient title content in
    upsert (draft kind title content tags embedding (model_of embedding) false None None) in
  match existing with
  | Some e =>
      if in_system e then system_record title
      else if bool_decide (in_owner_id e = None /\ in_content e = content /\ in_tags e = tags) then ret e
      else write
  | None => write
  end.
Definition save_system (kind : InstructionType.t) (title content : pystr) (tags : list pystr) : MS Instruction :=
  let! existing := on_rows (InstructionStore.get_by_title title (Some kind) None) in
  let write :=
    let! embedding := embed_one title content in
    upsert (draft kind title content tags embedding (Some (sp_embedding_model policy)) true None None) in
  match existing with
  | Some e => if in_system e && bool_decide (in_content e = content /\ in_tags e = tags) then ret e else write
  | None => write
  end.

(** ** Reading, deleting, publishing *)

Definition get_by_name (name : pystr) (kind : option InstructionType.t) (user_id : option pystr) : MS Instruction :=
  let! own := match user_id with
              | Some u => on_rows (InstructionStore.get_by_title name kind (Some u))
              | None => ret None
              end in
  let! found := match own with Some i => ret (Some i) | None => on_rows (InstructionStore.get_by_title name kind None) end in
  match found with Some i => ret i | None => raise (InstructionNotFoundError name) end.
Definition memory_chars (owner_id : pystr) : MS Z := on_rows (InstructionStore.memory_chars owner_id).
Definition list_public_by_prefix (kind : InstructionType.t) (prefix : pystr) : MS (list Instruction) :=
  on_rows (InstructionStore.list_public_by_prefix like_prefix kind prefix).
Definition list_system : MS (list Instruction) := on_rows InstructionStore.list_system.
Definition not_found {A} (name : pystr) : MS A := raise (InstructionNotFoundError name).
Definition delete (user_id instruction_id : pystr) : MS unit :=
  let! removed := on_rows (InstructionStore.delete_by_id instruction_id user_id) in
  if removed then ret tt else not_found instruction_id.
Definition publish (instruction_id : pystr) : MS Instruction :=
  let! at_ := gets now in
  let! published := on_rows (InstructionStore.publish at_ instruction_id) in
  match published with Some i => ret i | None => not_found instruction_id end.
Definition delete_public (instruction_id : pystr) : MS unit :=
  let! found := on_rows (InstructionStore.get instruction_id) in
  match found with
  | None => not_found instruction_id
  | Some r =>
      if bool_decide (in_owner_id r <> None) then not_found instruction_id
      else if in_system r then system_record (in_title r)
      else
        let! removed := on_rows (InstructionStore.delete_by_title (in_title r) (in_type r)) in
        if removed then ret tt else not_found instruction_id
  end.
Definition delete_system (name : pystr) (kind : InstructionType.t) : MS unit :=
  let! removed := on_rows (InstructionStore.delete_by_title name kind) in
  if removed then ret tt else not_found name.
(** The loop of [resync_embeddings], which counts what it stored. *)
Fixpoint store_embeddings (pending : list Instruction) (embeddings : list vector) (stored : Z) : MS Z :=
  match pending, embeddings with
  | [], [] => ret stored
  | record :: pending, embedding :: embeddings =>
      let! kept := on_rows (InstructionStore.set_embedding (in_id record) embedding (sp_embedding_model policy)) in
      store_embeddings pending embeddings (if kept then stored + 1 else stored)
  | _, _ => raise (OtherError "ValueError")
  end.
Definition resync_embeddings : MS Z :=
  let! pending := on_rows (InstructionStore.list_stale_embeddings (sp_embedding_model policy) (sp_resync_batch policy)) in
  match pending with
  | [] => ret 0%Z
  | _ =>
      let! embeddings := embed ((fun i => embedded_text (in_title i) (in_content i)) <$> pending) in
      store_embeddings pending embeddings 0
  end.

(** ** The registry *)

Record SystemSkill := { sk_kind : InstructionType.t; sk_title : pystr; sk_content : pystr; sk_tags : list pystr }.
Definition entry_key (e : SystemSkill) : InstructionType.t * pystr := (sk_kind e, sk_title e).
Definition record_key (i : Instruction) : InstructionType.t * pystr := (in_type i, in_title i).
Definition sync_system_registry (entries : list SystemSkill) : MS unit :=
  for_each entries (fun e => save_system (sk_kind e) (sk_title e) (sk_content e) (sk_tags e) ;;; ret tt) ;;;
  let! records := list_system in
  for_each records (fun r => if bool_decide (record_key r ∈ entry_key <$> entries) then ret tt
                             else delete_system (in_title r) (in_type r)).
End Service.

(** *** The records the core ships *)

Definition DEFERRED_WORK_CONTENT : pystr :=
"Scenario: deferred work — background tasks and scheduled jobs (reminders, reports).
1. Work now, result later: call task_create without a schedule — the task runs in
   the background; confirm it started and continue the conversation, do not wait.
   When a system message reports it finished, briefly relay the result.
2. Future or recurring: call task_create with a schedule (compose the cron
   expression yourself; '0 9 * * *' = daily 09:00) and timezone (ask the user
   when unknown, else 'UTC'). One-time reminder: one_shot=true and a dated
   expression (minute hour day-of-month month *), e.g. '30 15 21 7 *' for
   Jul 21 15:30; one-shot jobs delete themselves after firing.
3. The prompt is the instruction the task receives on start / every firing —
   make it self-contained; this conversation's context may be gone by then.
Managing: task_list shows running tasks and scheduled jobs (finished tasks
disappear from it — their results stay in the conversation); task_delete removes
either (stopping a running task first); cron_pause/cron_resume temporarily
disable a scheduled job. Before deleting a scheduled job, show it from task_list
and confirm with the user. A duplicate scheduled job returns 'already exists' —
show the existing one instead of retrying. If spawning is refused because of the
process limit, tell the user instead of retrying in a loop.".
Definition USER_MEMORY_CONTENT : pystr :=
"Scenario: durable user facts and preferences (name, city, diet, goals and the like).
1. Save facts with memory_store. Memory is private to this user; a fact useful to
   everyone is saved as a knowledge record via instruction_save instead (an admin
   publishes it later).
2. Memories come back through recall, ranked together with skills and
   knowledge. Before personal recommendations, or when the answer may depend on
   what the user told you earlier, add a query about the user (e.g. 'user
   preferences diet'); type=memory narrows the search to memories only. When the
   user asks what you remember about them, search type=memory with broad queries
   and present the hits honestly.
3. Do not duplicate what lives in instructions (shared knowledge) or datasets
   (structured records). Memory is per-user and shared across the user's surfaces.
Delete with memory_delete only on the user's explicit request.".
Definition USER_DATASETS_CONTENT : pystr :=
"Scenario: remember and track structured data for the user (food, weight, habits...).
1. Find the dataset via recall; if none fits, create it implicitly with
   data_put by declaring a JSON schema for the record.
2. Write records with data_put; read and build reports with data_query (equality
   filters, date ranges, limit).
3. Delete data with data_forget — after confirming with the user what will be deleted.
Datasets are private to the user: never mix one user's data into another's answers.".
Definition HISTORY_LOOKUP_CONTENT : pystr :=
"Scenario: look up something discussed earlier in this conversation.
Your context holds compressed summaries of earlier topics; only the recent tail is
verbatim. If the user refers to something not covered by the summaries or the tail,
call history_search with the distinctive phrase instead of asking the user to repeat
it. Narrow with topic/date filters when the first search is too broad.".
Definition WEB_LOOKUP_CONTENT : pystr :=
"Scenario: look up current events or facts you do not know.
Call web_search with a focused query; answer from the results and cite the source
links. If the results are thin or contradictory, say so instead of guessing.".
Definition EXTERNAL_HTTP_CONTENT : pystr :=
"Scenario: call an external API.
1. Skills name the endpoints they use. Before the FIRST call of an endpoint in this
   process, resolve its contract with endpoint_get(name) — it returns the method,
   URL template and declared params; the contract stays in your context for repeat
   calls. Several endpoints resolve in one turn (parallel endpoint_get calls).
2. Execute with external_call(name, params), passing exactly the declared params.
   Never call blindly: guessed params fail, and the error will just hand you the
   contract you should have fetched first.
3. No skill names an endpoint? Check whether the integration exists at all:
   recall(type=endpoint, query='...'). Found and used successfully — save a skill
   naming it (instruction_save), so the next run skips discovery.
4. Use http_request only for one-off calls not covered by any endpoint.
Outbound calls pass a security guard: public hosts only, no redirects. If a call is
refused, report the refusal honestly instead of retrying variations.".
Definition ABOUT_OCTOFORGE_CONTENT : pystr :=
"About this system: you are OctoForge, a multi-user LLM agent. Your capabilities are
data, not code: skill scenarios say how tasks are done here, knowledge records hold
shared facts, endpoint records describe external APIs you can call, and each user has
a private memory and private datasets. All of it lives in a searchable store that
admins extend without redeploying you. You serve several surfaces (web chat, Telegram);
each user's dialogs, memory and datasets are isolated from other users.
Installation-specific facts — who operates this deployment, who its author is, what
community it serves — are separate knowledge records maintained by the admins: search
for them, and when no record answers the question, say you do not know rather than
guessing.".
Definition SKILL_AUTHORING_CONTENT : pystr :=
"Scenario: find and author skill scenarios.
1. For every intent in the user's message call recall with a single
   free-text query: phrase it as the normalized intent (remind, schedule,
   report, track, lookup, save, call-api) plus the entity type (reminder,
   recurring-report, user-data, weather, history, web-fact), e.g.
   'remind reminder'; add free text only when it narrows the search. Do not
   improvise tool usage before searching — the scenario says how to use the
   tools correctly. A found scenario is binding: follow its steps as written
   rather than solving the task your own way, and improvise only after a search
   returned nothing usable.
2. After completing a novel multi-step task, save the working scenario with
   instruction_save (type skill): clear steps, naming every tool the scenario uses.
   Save durable facts useful to everyone as type knowledge.
3. Search before saving: update the existing scenario instead of creating a duplicate.".
Definition skill (title content : pystr) (tags : list pystr) : SystemSkill :=
  {| sk_kind := InstructionType.SKILL; sk_title := title; sk_content := content; sk_tags := tags |}.
Definition CORE_SYSTEM_SKILLS : list SystemSkill :=
  [skill "deferred_work" DEFERRED_WORK_CONTENT ["cron"; "scheduler"; "tasks"; "background"; "scenario"];
   skill "user_memory" USER_MEMORY_CONTENT ["memory"; "scenario"];
   skill "user_datasets" USER_DATASETS_CONTENT ["datasets"; "scenario"];
   skill "history_lookup" HISTORY_LOOKUP_CONTENT ["history"; "search"; "scenario"];
   skill "web_lookup" WEB_LOOKUP_CONTENT ["web"; "search"; "scenario"];
   skill "external_http" EXTERNAL_HTTP_CONTENT ["http"; "endpoint"; "scenario"];
   skill "skill_authoring" SKILL_AUTHORING_CONTENT ["skills"; "authoring"; "scenario"];
   {| sk_kind := InstructionType.KNOWLEDGE; sk_title := "about_octoforge"; sk_content := ABOUT_OCTOFORGE_CONTENT;
      sk_tags := ["identity"; "system"; "author"; "capabilities"] |}].
