(* ===== verification/InstructionLaws.v ===== *)
(** * Laws of the instructions

    What a search may show, what a user's writes leave alone, what the registry
    makes of the system's records, and how embeddings catch up. *)
From S2P Require Import Prelude PyStr PyFloat Clock Sql Dict Domain UnitOfWork Ranking Instructions InstructionService.

(** ** The table *)

Abbreviation rows := (list InstructionRow) (only parsing).
Record store_ok (t : rows) : Prop := {
  ok_ids : NoDup (ro_id <$> t);
  ok_slots : NoDup (slot_of <$> t);
  ok_memory : Forall (fun r => ro_type r = InstructionType.MEMORY -> ro_owner_id r <> None) t;
  ok_system : Forall (fun r => ro_system r = true -> ro_owner_id r = None) t }.
Lemma row_of_slot t r r' : store_ok t -> r ∈ t -> r' ∈ t -> slot_of r = slot_of r' -> r = r'.
Proof. intros Hok. by apply key_inj, Hok. Qed.
Lemma slot_row_spec kind title owner t :
  match InstructionStore.find_row kind title owner t with
  | Some r => r ∈ t /\ slot_of r = (kind, title, owner)
  | None => forall r, r ∈ t -> slot_of r <> (kind, title, owner)
  end.
Proof.
  change (InstructionStore.find_row kind title owner t) with (find_key slot_of (kind, title, owner) t).
  destruct (find_key _ _ t) as [r|] eqn:Hf; [by apply find_key_Some in Hf|].
  apply find_key_None in Hf. by rewrite Forall_forall in Hf.
Qed.
(** By title, type and owner there is one row at most: the one of the slot. *)
Lemma get_by_title_spec kind title owner t :
  store_ok t ->
  (InstructionStore.get_by_title title (Some kind) owner t) = (Ok (to_instruction <$> InstructionStore.find_row kind title owner t), t).
Proof.
  intros Hok. unfold InstructionStore.get_by_title, gets. do 2 f_equal.
  set (P := fun r => ro_title r = title /\ ro_owner_id r = owner /\ of_kind (Some kind) r).
  assert (HP : forall r, P r <-> slot_of r = (kind, title, owner)).
  { intros r. unfold P, of_kind, slot_of. split; [intros (-> & -> & ->); done|by intros [= -> -> ->]]. }
  pose proof (slot_row_spec kind title owner t) as Hf. unfold oldest_first, select_where.
  destruct (InstructionStore.find_row kind title owner t) as [r|].
  - destruct Hf as [Hin Hs]. destruct (order_by ro_created_at _) as [|r' l] eqn:Ho.
    + exfalso. assert (Hr : r ∈ order_by ro_created_at (order_by_str ro_id (filter P t))).
      { rewrite order_by_perm, order_by_str_perm. apply list_elem_of_filter. by rewrite HP. }
      rewrite Ho in Hr. by apply not_elem_of_nil in Hr.
    + cbn. do 2 f_equal. assert (Hr : r' ∈ order_by ro_created_at (order_by_str ro_id (filter P t))) by (rewrite Ho; by left).
      rewrite order_by_perm, order_by_str_perm in Hr. apply list_elem_of_filter in Hr as [HPr Hr']. apply HP in HPr.
      apply (row_of_slot t); congruence.
  - destruct (order_by ro_created_at _) as [|r' l] eqn:Ho; [done|]. exfalso.
    assert (Hr : r' ∈ order_by ro_created_at (order_by_str ro_id (filter P t))) by (rewrite Ho; by left).
    rewrite order_by_perm, order_by_str_perm in Hr. apply list_elem_of_filter in Hr as [HPr Hr']. apply HP in HPr. by apply (Hf r').
Qed.

(** ** An upsert nobody interferes with *)

Lemma column_same {A} `{EqDecision A} (read new : A) : column read new read = new.
Proof. unfold column. by case_decide. Qed.
Lemma flushed_same r new : ro_id new = ro_id r -> flushed r new r = new.
Proof. intros H. destruct new. unfold flushed. rewrite !column_same. cbn in *. by rewrite H. Qed.
Definition replaced (r new : InstructionRow) (t : rows) : rows := update_where (fun x => ro_id x = ro_id r) (fun _ => new) t.
Definition upserted (now : time) (id : pystr) (d : InstructionDraft) (t : rows) : rows :=
  match InstructionStore.find_row (dr_kind d) (dr_title d) (dr_owner_id d) t with
  | Some r => replaced r (revised now d r) t
  | None => t ++ [fresh_row id now d]
  end.
Lemma find_id t r : NoDup (ro_id <$> t) -> r ∈ t -> find_key ro_id (ro_id r) t = Some r.
Proof. intros H Hr. by apply find_key_elem. Qed.
Lemma replace_with_flush r new t :
  NoDup (ro_id <$> t) -> r ∈ t -> ro_id new = ro_id r ->
  update_where (fun x => ro_id x = ro_id r) (flushed r new) t = replaced r new t.
Proof.
  intros Hids Hr He. unfold replaced, update_where. apply list_fmap_ext. intros i x Hx. case_decide as Hxr; [|done].
  assert (x = r) as ->; [|by apply flushed_same].
  apply list_elem_of_lookup_2 in Hx. pose proof (find_id t x Hids Hx) as H1. rewrite Hxr, (find_id t r Hids Hr) in H1. congruence.
Qed.
Lemma no_clash r new t :
  store_ok t -> r ∈ t -> ro_id new = ro_id r -> slot_of new = slot_of r -> InstructionStore.clashes new t = false.
Proof.
  intros Hok Hr Hi Hs. unfold InstructionStore.clashes. apply not_true_is_false. intros H. apply existsb_exists in H as (x & Hx & H).
  apply bool_decide_eq_true in H as [H1 H2]. apply list_elem_of_In in Hx. apply H1. rewrite Hi.
  f_equal. apply (row_of_slot t); congruence.
Qed.
Lemma flush_run r new t :
  store_ok t -> r ∈ t -> ro_id new = ro_id r -> slot_of new = slot_of r ->
  InstructionStore.flush r new t = (Ok (to_instruction new), replaced r new t).
Proof.
  intros Hok Hr Hi Hs. unfold InstructionStore.flush, bind, get_st. rewrite (find_id t r (ok_ids _ Hok) Hr).
  rewrite flushed_same by done. rewrite (no_clash r new t) by done.
  unfold modify, ret. by rewrite replace_with_flush by (done || apply Hok).
Qed.
Lemma upsert_run now id d t :
  store_ok t -> id ∉ ro_id <$> t ->
  exists i, InstructionStore.upsert (fun _ t => t) now id d t = (Ok i, upserted now id d t) /\
    exists r, r ∈ upserted now id d t /\ to_instruction r = i /\ slot_of r = (dr_kind d, dr_title d, dr_owner_id d) /\
      ro_content r = dr_content d /\ ro_tags r = dr_tags d /\ ro_system r = dr_system d /\
      (dr_author_id d <> None -> ro_author_id r = dr_author_id d).
Proof.
  intros Hok Hid. unfold InstructionStore.upsert, upserted, bind at 1, gets.
  pose proof (slot_row_spec (dr_kind d) (dr_title d) (dr_owner_id d) t) as Hf.
  destruct (InstructionStore.find_row _ _ _ t) as [r|].
  - destruct Hf as [Hr Hs]. unfold bind, modify, InstructionStore.update_row. cbn beta iota.
    rewrite flush_run by done. eexists. split; [done|]. exists (revised now d r). split_and!; [|done|done|done|done|done|].
    + unfold replaced, update_where. apply list_elem_of_fmap. exists r. by rewrite decide_True by done.
    + cbn. by destruct (dr_author_id d).
  - unfold bind, modify, try_except, InstructionStore.add_row, get_st, bind.
    destruct (InstructionStore.clashes _ t || _) eqn:Hc.
    + exfalso. apply orb_true_iff in Hc as [Hc|Hc].
      * unfold InstructionStore.clashes in Hc. apply existsb_exists in Hc as (x & Hx & H). apply bool_decide_eq_true in H as [_ H].
        apply list_elem_of_In in Hx. by apply (Hf x).
      * apply bool_decide_eq_true in Hc as [x Hx]. unfold find_key, select_where in Hx.
        apply head_Some_elem_of in Hx. apply list_elem_of_filter in Hx as [<- Hx]. apply Hid. by apply list_elem_of_fmap_2.
    + cbn. unfold modify, insert_row. eexists. split; [done|]. exists (fresh_row id now d).
      split_and!; try done. apply elem_of_app. right. by left.
Qed.
Lemma replaced_proj {A} (f : InstructionRow -> A) r new t :
  NoDup (ro_id <$> t) -> r ∈ t -> f new = f r -> f <$> replaced r new t = f <$> t.
Proof.
  intros Hids Hr Hf. unfold replaced, update_where. rewrite <- list_fmap_compose. apply list_fmap_ext. intros i x Hx.
  cbn. case_decide as Hxr; [|done]. rewrite Hf. f_equal. symmetry. apply list_elem_of_lookup_2 in Hx. by apply (key_inj ro_id t).
Qed.
Lemma Forall_replaced (P : InstructionRow -> Prop) r new t : Forall P t -> P new -> Forall P (replaced r new t).
Proof. intros H Hn. unfold replaced, update_where. apply Forall_fmap. eapply Forall_impl; [exact H|]. intros x Hx. cbn. by case_decide. Qed.
Lemma upserted_ok now id d t :
  store_ok t -> id ∉ ro_id <$> t -> (dr_kind d = InstructionType.MEMORY -> dr_owner_id d <> None) ->
  (dr_system d = true -> dr_owner_id d = None) -> store_ok (upserted now id d t).
Proof.
  intros Hok Hid Hmem Hsys. unfold upserted. pose proof (slot_row_spec (dr_kind d) (dr_title d) (dr_owner_id d) t) as Hf.
  destruct (InstructionStore.find_row _ _ _ t) as [r|].
  - destruct Hf as [Hr Hs]. injection Hs as Ht Hti Ho. destruct Hok as [H1 H2 H3 H4]. split.
    + by rewrite replaced_proj.
    + by rewrite replaced_proj.
    + apply Forall_replaced; [done|]. cbn. rewrite Ht, Ho. auto.
    + apply Forall_replaced; [done|]. cbn. rewrite Ho. auto.
  - destruct Hok as [H1 H2 H3 H4]. split.
    + rewrite fmap_app. apply NoDup_app. split_and!; [done| |apply NoDup_singleton]. by intros x Hx ->%list_elem_of_singleton.
    + rewrite fmap_app. apply NoDup_app. split_and!; [done| |apply NoDup_singleton].
      intros x (y & -> & Hy)%list_elem_of_fmap Hx%list_elem_of_singleton. by apply (Hf y).
    + apply Forall_app. split; [done|]. by repeat constructor.
    + apply Forall_app. split; [done|]. by repeat constructor.
Qed.
(** Rows of other slots stay, in their order. *)
Lemma upserted_others (P : InstructionRow -> Prop) `{!forall r, Decision (P r)} now id d t :
  NoDup (ro_id <$> t) ->
  (forall r, r ∈ t -> slot_of r = (dr_kind d, dr_title d, dr_owner_id d) -> ~ P r /\ ~ P (revised now d r)) ->
  ~ P (fresh_row id now d) -> filter P (upserted now id d t) = filter P t.
Proof.
  intros Hids Hold Hnew. unfold upserted. pose proof (slot_row_spec (dr_kind d) (dr_title d) (dr_owner_id d) t) as Hf.
  destruct (InstructionStore.find_row _ _ _ t) as [r|].
  - destruct Hf as [Hr Hs]. destruct (Hold r Hr Hs) as [Hn1 Hn2].
    assert (Hall : forall x, x ∈ t -> ro_id x = ro_id r -> x = r) by (intros x Hx Hi; by apply (key_inj ro_id t)).
    clear -Hall Hn1 Hn2. unfold replaced, update_where. induction t as [|x t IH]; [done|]. cbn [fmap list_fmap].
    rewrite !filter_cons. fold (list_fmap _ _ (fun x => if decide (ro_id x = ro_id r) then revised now d r else x) t).
    specialize (IH (fun y Hy => Hall y (proj2 (elem_of_cons _ _ _) (or_intror Hy)))). cbn [fmap list_fmap] in IH.
    destruct (decide (ro_id x = ro_id r)) as [Hi|Hi].
    + rewrite (decide_False (P := P (revised now d r))) by done. rewrite (Hall x ltac:(by left) Hi), decide_False by done. exact IH.
    + destruct (decide (P x)); [f_equal|]; exact IH.
  - rewrite filter_app. rewrite (filter_cons_False P) by done. by rewrite filter_nil, app_nil_r.
Qed.

(** *** Who wrote what *)

(** A private record is of its author, who has no record of the same title
    published. *)
Record authors_ok (t : rows) : Prop := {
  ok_author : forall r u, r ∈ t -> ro_owner_id r = Some u -> ro_author_id r = None \/ ro_author_id r = Some u;
  ok_exclusive : forall r p u, r ∈ t -> p ∈ t -> ro_owner_id r = Some u -> ro_owner_id p = None -> ro_author_id p = Some u ->
    ro_type p = ro_type r -> ro_title p <> ro_title r }.
Definition sane (t : rows) : Prop := store_ok t /\ authors_ok t.
(** What a draft must be for the table to stay sane. *)
Record draft_ok (d : InstructionDraft) (t : rows) : Prop := {
  dk_memory : dr_kind d = InstructionType.MEMORY -> dr_owner_id d <> None;
  dk_system : dr_system d = true -> dr_owner_id d = None;
  dk_author : forall u, dr_owner_id d = Some u -> dr_author_id d = Some u;
  dk_private : forall u p, dr_owner_id d = Some u -> p ∈ t -> slot_of p = (dr_kind d, dr_title d, None) -> ro_author_id p <> Some u;
  dk_public : dr_owner_id d = None -> dr_author_id d = None \/
    exists p, p ∈ t /\ slot_of p = (dr_kind d, dr_title d, None) /\ ro_author_id p = dr_author_id d }.
Lemma elem_of_upserted now id d t x :
  x ∈ upserted now id d t -> x ∈ t \/
  (slot_of x = (dr_kind d, dr_title d, dr_owner_id d) /\
   (ro_author_id x = dr_author_id d \/
    exists r, r ∈ t /\ slot_of r = slot_of x /\ dr_author_id d = None /\ ro_author_id x = ro_author_id r)).
Proof.
  unfold upserted. pose proof (slot_row_spec (dr_kind d) (dr_title d) (dr_owner_id d) t) as Hf.
  destruct (InstructionStore.find_row _ _ _ t) as [r|].
  - destruct Hf as [Hr Hs]. unfold replaced, update_where. intros (y & -> & Hy)%list_elem_of_fmap. case_decide; [|by left].
    right. split; [exact Hs|]. cbn. destruct (dr_author_id d); [by left|]. right. by exists r.
  - rewrite elem_of_app, list_elem_of_singleton. intros [Hx| ->]; [by left|right]. split; [done|by left].
Qed.
Lemma upserted_sane now id d t : sane t -> id ∉ ro_id <$> t -> draft_ok d t -> sane (upserted now id d t).
Proof.
  intros [Hok [Hau Hex]] Hid Hd. split; [by apply upserted_ok; try apply Hd|].
  assert (Hprivate : forall x u, x ∈ upserted now id d t -> ro_owner_id x = Some u ->
    (ro_author_id x = None \/ ro_author_id x = Some u) /\
    (x ∈ t \/ slot_of x = (dr_kind d, dr_title d, Some u) /\ dr_owner_id d = Some u)).
  { intros x u [Hx|[Hs Ha]]%elem_of_upserted Ho; [split; [by apply Hau|by left]|].
    pose proof Hs as Hs'. injection Hs as Ht Hti Ho'. rewrite Ho in Ho'. split; [|right; split; congruence]. symmetry in Ho'. pose proof (dk_author _ _ Hd _ Ho') as Hda.
    destruct Ha as [->|(r & _ & _ & Hnone & _)]; [by right|congruence]. }
  split; [intros x u Hx Ho; by apply Hprivate|].
  intros x p u Hx Hp Hxo Hpo Hpa Hty Hti. destruct (Hprivate x u Hx Hxo) as [_ Hx'].
  assert (Hp' : exists q, q ∈ t /\ slot_of q = slot_of p /\ ro_author_id q = Some u).
  { apply elem_of_upserted in Hp as [Hp|[Hs Ha]]; [by exists p|]. destruct Ha as [Ha|(q & Hq & Hqs & _ & Hqa)].
    - injection Hs as Hst Hsti Hso. assert (Hdo : dr_owner_id d = None) by congruence. destruct (dk_public _ _ Hd Hdo) as [Hn|(q & Hq & Hqs & Hqa)]; [congruence|].
      exists q. split_and!; [done|unfold slot_of at 2; congruence|congruence].
    - exists q. split_and!; [done|done|congruence]. }
  destruct Hp' as (q & Hq & Hqs & Hqa). injection Hqs as Hqt Hqti Hqo.
  destruct Hx' as [Hxt|[Hxs Hdo]].
  - apply (Hex x q u); congruence.
  - apply (dk_private _ _ Hd u q Hdo Hq); [|done]. injection Hxs as Hxt Hxti. unfold slot_of. congruence.
Qed.
Lemma sublist_sane t t' : sublist t' t -> sane t -> sane t'.
Proof.
  intros Hsub [[H1 H2 H3 H4] [H5 H6]]. assert (Hin : forall x, x ∈ t' -> x ∈ t) by (intros x Hx; by eapply elem_of_sublist).
  split; split.
  - eapply sublist_NoDup; [done|by apply fmap_sublist].
  - eapply sublist_NoDup; [done|by apply fmap_sublist].
  - rewrite Forall_forall in *. auto.
  - rewrite Forall_forall in *. auto.
  - eauto.
  - eauto.
Qed.

(** What a maintenance write leaves alone. *)
Definition frame (r : InstructionRow) : pystr * slot * bool * option pystr := (ro_id r, slot_of r, ro_system r, ro_author_id r).
Lemma frame_sane t t' : frame <$> t' = frame <$> t -> sane t -> sane t'.
Proof.
  intros Hf [[H1 H2 H3 H4] [H5 H6]].
  assert (Hproj : forall A (g : pystr * slot * bool * option pystr -> A), (g ∘ frame) <$> t' = (g ∘ frame) <$> t).
  { intros A g. by rewrite !list_fmap_compose, Hf. }
  assert (Hin : forall x, x ∈ t' -> exists y, y ∈ t /\ frame y = frame x).
  { intros x Hx. assert (Hx' : frame x ∈ frame <$> t') by (by apply list_elem_of_fmap_2).
    rewrite Hf in Hx'. apply list_elem_of_fmap in Hx' as (y & He & Hy). by exists y. }
  split; split.
  - assert (Hp : ro_id <$> t' = ro_id <$> t) by exact (Hproj _ (fun f => f.1.1.1)). by rewrite Hp.
  - assert (Hp : slot_of <$> t' = slot_of <$> t) by exact (Hproj _ (fun f => f.1.1.2)). by rewrite Hp.
  - rewrite Forall_forall in *. intros x Hx. destruct (Hin x Hx) as (y & Hy & [= _ <- _ <- _ _]). by apply H3.
  - rewrite Forall_forall in *. intros x Hx. destruct (Hin x Hx) as (y & Hy & [= _ _ _ <- <- _]). by apply H4.
  - intros x u Hx. destruct (Hin x Hx) as (y & Hy & [= _ _ _ <- _ <-]). by apply H5.
  - intros x p u Hx Hp. destruct (Hin x Hx) as (y & Hy & [= _ <- <- <- _ _]), (Hin p Hp) as (q & Hq & [= _ <- <- <- _ <-]).
    by apply H6.
Qed.
Lemma update_frame (P : InstructionRow -> Prop) `{!forall r, Decision (P r)} f t :
  (forall r, frame (f r) = frame r) -> frame <$> update_where P f t = frame <$> t.
Proof.
  intros Hf. unfold update_where. rewrite <- list_fmap_compose. apply list_fmap_ext. intros i x _. cbn. by case_decide.
Qed.
(** Publishing a row that clashes with none. *)
Lemma published_sane now r t :
  sane t -> r ∈ t -> ro_type r <> InstructionType.MEMORY -> InstructionStore.clashes (published now r) t = false ->
  sane (replaced r (published now r) t).
Proof.
  intros [Hok [H5 H6]] Hr Hmem Hc. pose proof Hok as [H1 H2 H3 H4].
  assert (Helem : forall x, x ∈ replaced r (published now r) t -> x ∈ t /\ x <> r \/ x = published now r).
  { intros x (y & -> & Hy)%list_elem_of_fmap. case_decide as Hd; [by right|left]. split; [done|]. by intros ->. }
  assert (Hfree : forall x, x ∈ t -> x <> r -> slot_of x <> (ro_type r, ro_title r, None)).
  { intros x Hx Hne Hs. assert (Ht : InstructionStore.clashes (published now r) t = true); [|congruence].
    unfold InstructionStore.clashes. apply existsb_exists. exists x. split; [by apply list_elem_of_In|].
    apply bool_decide_eq_true. split; [|exact Hs]. intros He. apply Hne. by apply (key_inj ro_id t). }
  split; split.
  - by rewrite replaced_proj.
  - unfold replaced, update_where. rewrite <- list_fmap_compose. clear Helem H5 H6 H3 H4 Hc.
    apply NoDup_fmap_2_strong; [|by eapply NoDup_fmap_1].
    intros x y Hx Hy. cbn. case_decide as Hdx; case_decide as Hdy.
    + intros _. by apply (key_inj ro_id t); [..|congruence].
    + intros Hs. exfalso. apply (Hfree y Hy); [by intros ->|by rewrite <- Hs].
    + intros Hs. exfalso. apply (Hfree x Hx); [by intros ->|by rewrite Hs].
    + by apply (key_inj slot_of t).
  - apply Forall_forall. intros x [[Hx _]| ->]%Helem; [by rewrite Forall_forall in H3; apply H3|done].
  - apply Forall_forall. intros x [[Hx _]| ->]%Helem; [by rewrite Forall_forall in H4; apply H4|done].
  - intros x u [[Hx _]| ->]%Helem; [by apply H5|done].
  - intros x p u [[Hx Hxr]| ->]%Helem Hp Hxo Hpo Hpa Hty Hti; [|done]. apply Helem in Hp as [[Hp _]| ->]; [by apply (H6 x p u)|].
    cbn in Hpa, Hty, Hti. assert (Hro : ro_owner_id r = Some u \/ ro_owner_id r = None /\ ro_author_id r = Some u).
    { destruct (ro_owner_id r) as [u'|] eqn:Ho; [|right; by destruct (ro_author_id r)]. left.
      destruct (H5 r u' Hr Ho) as [Ha|Ha]; rewrite Ha in Hpa; congruence. }
    destruct Hro as [Ho|[Ho Ha]].
    + apply Hxr. apply (row_of_slot t); [done..|]. unfold slot_of. congruence.
    + by apply (H6 x r u).
Qed.

(** ** The service, alone on its table *)

(** A computation that leaves the table as it is. *)
Definition quiet {A} (m : MS A) : Prop := forall s, ss_rows (m s).2 = ss_rows s.
Lemma quiet_bind {A B} (m : MS A) (k : A -> MS B) : quiet m -> (forall a, quiet (k a)) -> quiet (bind m k).
Proof. intros Hm Hk s. unfold bind. specialize (Hm s). destruct (m s) as [[a|e] s1]; cbn in *; [by rewrite Hk|done]. Qed.
Lemma quiet_try {A} (m : MS A) h : quiet m -> (forall e, quiet (h e)) -> quiet (try_except m h).
Proof. intros Hm Hh s. unfold try_except. specialize (Hm s). destruct (m s) as [[a|e] s1]; cbn in *; [done|by rewrite Hh]. Qed.
Lemma quiet_ret {A} (a : A) : quiet (ret a).
Proof. done. Qed.
Lemma quiet_raise {A} (e : Exn) : quiet (raise (A:=A) e).
Proof. done. Qed.
Lemma quiet_lift {A} (r : Res Exn A) : quiet (lift r).
Proof. done. Qed.
Lemma quiet_only {A} (l : list A) : quiet (the_only l).
Proof. by destruct l as [|? []]. Qed.
Lemma quiet_rows {A} (f : rows -> A) : quiet (on_rows (gets f)).
Proof. done. Qed.
Create HintDb quiet discriminated.
#[export] Hint Resolve quiet_bind quiet_try quiet_ret quiet_raise quiet_lift quiet_only quiet_rows : quiet.

Section Laws.
Context (policy : InstructionSearchPolicy) (like_prefix : pystr -> pystr -> bool).
Context (embed : list pystr -> MS (list vector)) (now : ServiceState -> time) (new_id : ServiceState -> pystr).
(** The embedder has no business with the table; ids are new. *)
Hypothesis (Hembed : forall texts, quiet (embed texts)) (Hnew : forall s, new_id s ∉ ro_id <$> ss_rows s).
Abbreviation alone := (fun (_ : nat) (t : rows) => t).
Abbreviation save := (save policy alone embed now new_id).
Abbreviation save_public := (save_public policy alone embed now new_id).
Abbreviation save_system := (save_system policy alone embed now new_id).
Abbreviation sync := (sync_system_registry policy alone embed now new_id).

Lemma embed_one_quiet title content : quiet (embed_one embed title content).
Proof using Hembed. unfold embed_one. apply quiet_bind; [apply Hembed|intros; apply quiet_only]. Qed.
Lemma embed_lenient_quiet title content : quiet (embed_lenient embed title content).
Proof using Hembed.
  unfold embed_lenient, except_exception. apply quiet_try; [apply embed_one_quiet|]. intros e. by destruct (is_exception e).
Qed.
(** A record of the table with the columns of a draft. *)
Definition carries (d : InstructionDraft) (r : InstructionRow) : Prop :=
  slot_of r = (dr_kind d, dr_title d, dr_owner_id d) /\ ro_content r = dr_content d /\ ro_tags r = dr_tags d /\
  ro_system r = dr_system d /\ (dr_author_id d <> None -> ro_author_id r = dr_author_id d).
Definition wrote (d : InstructionDraft) (s : ServiceState) (i : Instruction) (s' : ServiceState) : Prop :=
  exists s1, ss_rows s1 = ss_rows s /\ ss_rows s' = upserted (now s1) (new_id s1) d (ss_rows s) /\
    exists r, r ∈ ss_rows s' /\ to_instruction r = i /\ carries d r.
Lemma upsert_result (m : MS vector) (f : vector -> InstructionDraft) s r s' :
  quiet m -> store_ok (ss_rows s) -> bind m (fun v => upsert alone now new_id (f v)) s = (r, s') ->
  (exists e, r = Err e /\ ss_rows s' = ss_rows s) \/ (exists v i, r = Ok i /\ wrote (f v) s i s').
Proof using Hnew.
  intros Hq Hok H. unfold bind in H. pose proof (Hq s) as Hs. destruct (m s) as [[v|e] s1]; cbn in Hs; [|left; injection H as <- <-; eauto].
  right. unfold upsert, on_rows in H. rewrite <- Hs in Hok.
  destruct (upsert_run (now s1) (new_id s1) (f v) (ss_rows s1) Hok (Hnew s1)) as (i & Hrun & row & Hin & Hi & Hcar).
  rewrite Hrun in H. injection H as <- <-. exists v, i. split; [done|]. exists s1. rewrite Hs in *. cbn [ss_rows]. split_and!; [done|done|]. by exists row.
Qed.
Definition public_row (kind : InstructionType.t) (title : pystr) (t : rows) : option InstructionRow :=
  InstructionStore.find_row kind title None t.
(** Whether a save of [user] writes the published record. *)
Definition authored (user : pystr) (kind : InstructionType.t) (title : pystr) (t : rows) : bool :=
  match public_row kind title t with
  | Some p => negb (ro_system p) && bool_decide (ro_author_id p = Some user)
  | None => false
  end.
Definition saved_draft (user : pystr) (kind : InstructionType.t) (title content : pystr) (tags : list pystr) (v : vector) (t : rows)
    : InstructionDraft :=
  draft kind title content tags v (model_of policy v) false (if authored user kind title t then None else Some user) (Some user).
Lemma save_result user kind title content tags s r s' :
  store_ok (ss_rows s) -> save user kind title content tags s = (r, s') ->
  (exists e, r = Err e /\ ss_rows s' = ss_rows s) \/
  (exists v i, r = Ok i /\ wrote (saved_draft user kind title content tags v (ss_rows s)) s i s' /\
     forall p, public_row kind title (ss_rows s) = Some p -> ro_system p = false).
Proof using Hembed Hnew.
  intros Hok H. unfold InstructionService.save, bind at 1, on_rows in H. rewrite get_by_title_spec in H by done. cbn iota in H.
  unfold saved_draft, authored, public_row. destruct s as [t pending]. cbn [ss_rows] in *.
  destruct (InstructionStore.find_row kind title None t) as [p|]; cbn [fmap option_fmap option_map] in H.
  - cbn [in_system to_instruction] in H. destruct (ro_system p) eqn:Hsys; [left; injection H as <- <-; eauto|].
    apply upsert_result in H; [|apply embed_lenient_quiet|done].
    destruct H as [H|(v & i & -> & Hw)]; [by left|right]. exists v, i. split_and!; [done|exact Hw|]. by intros ? [= <-].
  - apply upsert_result in H; [|apply embed_lenient_quiet|done].
    destruct H as [H|(v & i & -> & Hw)]; [by left|right]. exists v, i. by split_and!.
Qed.
Lemma save_public_result kind title content tags s r s' :
  store_ok (ss_rows s) -> save_public kind title content tags s = (r, s') ->
  ss_rows s' = ss_rows s \/
  (exists v i, r = Ok i /\ wrote (draft kind title content tags v (model_of policy v) false None None) s i s' /\
     forall p, public_row kind title (ss_rows s) = Some p -> ro_system p = false).
Proof using Hembed Hnew.
  intros Hok H. unfold InstructionService.save_public, bind at 1, on_rows in H. rewrite get_by_title_spec in H by done. cbn iota in H.
  unfold public_row. destruct s as [t pending]. cbn [ss_rows] in *.
  destruct (InstructionStore.find_row kind title None t) as [p|]; cbn [fmap option_fmap option_map] in H.
  - cbn [in_system to_instruction] in H. destruct (ro_system p) eqn:Hsys; [left; by injection H as <- <-|].
    case_bool_decide; [left; by injection H as <- <-|].
    apply upsert_result in H; [|apply embed_lenient_quiet|done].
    destruct H as [(e & _ & ?)|(v & i & -> & Hw)]; [by left|right]. exists v, i. split_and!; [done|exact Hw|]. by intros ? [= <-].
  - apply upsert_result in H; [|apply embed_lenient_quiet|done].
    destruct H as [(e & _ & ?)|(v & i & -> & Hw)]; [by left|right]. exists v, i. by split_and!.
Qed.

Lemma save_system_result kind title content tags s r s' :
  store_ok (ss_rows s) -> save_system kind title content tags s = (r, s') ->
  (ss_rows s' = ss_rows s /\ forall i, r = Ok i ->
     exists p, public_row kind title (ss_rows s) = Some p /\ ro_system p = true /\ ro_content p = content /\ ro_tags p = tags) \/
  (exists v i, r = Ok i /\ wrote (draft kind title content tags v (Some (sp_embedding_model policy)) true None None) s i s').
Proof using Hembed Hnew.
  intros Hok H. unfold InstructionService.save_system, bind at 1, on_rows in H. rewrite get_by_title_spec in H by done. cbn iota in H.
  unfold public_row. destruct s as [t pending]. cbn [ss_rows] in *.
  destruct (InstructionStore.find_row kind title None t) as [p|]; cbn [fmap option_fmap option_map] in H.
  - cbn [in_system in_content in_tags to_instruction] in H. destruct (ro_system p && _) eqn:Hsys.
    + left. injection H as <- <-. split; [done|]. intros _ _. apply andb_true_iff in Hsys as [? [? ?]%bool_decide_eq_true]. by exists p.
    + apply upsert_result in H; [|apply embed_one_quiet|done]. destruct H as [(e & -> & ?)|(v & i & -> & Hw)]; [by left|right]. eauto.
  - apply upsert_result in H; [|apply embed_one_quiet|done]. destruct H as [(e & -> & ?)|(v & i & -> & Hw)]; [by left|right]. eauto.
Qed.

(** *** The calls of the service *)

Inductive call :=
| Save (user : pystr) (kind : InstructionType.t) (title content : pystr) (tags : list pystr)
| SavePublic (kind : InstructionType.t) (title content : pystr) (tags : list pystr)
| SaveSystem (kind : InstructionType.t) (title content : pystr) (tags : list pystr)
| Delete (user id : pystr)
| Publish (id : pystr)
| DeletePublic (id : pystr)
| DeleteSystem (name : pystr) (kind : InstructionType.t)
| Resync
| LandBump.
Definition run (c : call) : MS unit :=
  match c with
  | Save user kind title content tags => save user kind title content tags ;;; ret tt
  | SavePublic kind title content tags => save_public kind title content tags ;;; ret tt
  | SaveSystem kind title content tags => save_system kind title content tags ;;; ret tt
  | Delete user id => delete user id
  | Publish id => publish now id ;;; ret tt
  | DeletePublic id => delete_public id
  | DeleteSystem name kind => delete_system name kind
  | Resync => resync_embeddings policy embed ;;; ret tt
  | LandBump => land_bump
  end.
(** Memories are written for a person. *)
Definition call_ok (c : call) : Prop :=
  match c with SavePublic kind _ _ _ | SaveSystem kind _ _ _ => kind <> InstructionType.MEMORY | _ => True end.
Lemma bind_ret_rows {A} (m : MS A) s : ss_rows (bind m (fun _ => ret tt) s).2 = ss_rows (m s).2.
Proof using Type. unfold bind. by destruct (m s) as [[?|?] ?]. Qed.
Lemma saved_draft_ok user kind title content tags v t :
  sane t -> (forall p, public_row kind title t = Some p -> ro_system p = false) ->
  draft_ok (saved_draft user kind title content tags v t) t.
Proof using Type.
  intros [Hok Hau] Hsys. unfold saved_draft, authored. pose proof (slot_row_spec kind title None t) as Hf. unfold public_row in *.
  destruct (InstructionStore.find_row kind title None t) as [p|].
  - destruct Hf as [Hp Hs]. rewrite (Hsys p eq_refl). cbn [negb andb]. case_bool_decide as Ha; split; cbn; try done.
    + intros ->. exfalso. pose proof (ok_memory _ Hok) as Hm. rewrite Forall_forall in Hm. injection Hs as Ht _ Ho. by apply (Hm p).
    + intros _. right. by exists p.
    + intros u q [= <-] Hq Hqs. rewrite <- Hs in Hqs. by rewrite (row_of_slot t q p Hok Hq Hp Hqs).
  - split; cbn; try done. intros u q _ Hq Hqs. exfalso. by apply (Hf q).
Qed.
Lemma public_draft_ok kind title content tags v m sys t :
  kind <> InstructionType.MEMORY -> draft_ok (draft kind title content tags v m sys None None) t.
Proof using Type. intros Hk. split; cbn; try done. by left. Qed.
Lemma wrote_sane d s i s' : sane (ss_rows s) -> draft_ok d (ss_rows s) -> wrote d s i s' -> sane (ss_rows s').
Proof using Hnew.
  intros Hs Hd (s1 & H1 & -> & _). apply upserted_sane; [done| |done]. rewrite <- H1. apply Hnew.
Qed.
Lemma set_embedding_rows id v m t : (InstructionStore.set_embedding id v m t).2 = update_where (fun r => ro_id r = id) (reembedded v m) t.
Proof using Type. done. Qed.
Lemma store_embeddings_sane pending embeddings n s : sane (ss_rows s) -> sane (ss_rows (store_embeddings policy pending embeddings n s).2).
Proof using Type.
  revert embeddings n s. induction pending as [|record pending IH]; intros [|v embeddings] n s Hs; cbn [store_embeddings]; try done.
  unfold bind, on_rows. destruct (InstructionStore.set_embedding _ _ _ (ss_rows s)) as [r t] eqn:Hr.
  assert (Ht : sane t).
  { pose proof (set_embedding_rows (in_id record) v (sp_embedding_model policy) (ss_rows s)) as He. rewrite Hr in He. cbn in He. subst t.
    eapply frame_sane; [|done]. by apply update_frame. }
  destruct r as [kept|e]; [|done]. by apply IH.
Qed.
Lemma after_quiet {A B} (m : MS A) (k : A -> MS B) s :
  quiet m -> sane (ss_rows s) -> (forall a s1, ss_rows s1 = ss_rows s -> sane (ss_rows (k a s1).2)) -> sane (ss_rows (bind m k s).2).
Proof using Type.
  intros Hq Hs Hk. specialize (Hq s). unfold bind. destruct (m s) as [[a|e] s1]; cbn [snd] in *; [by apply Hk|by rewrite Hq].
Qed.
Lemma stale_quiet model limit : quiet (on_rows (InstructionStore.list_stale_embeddings model limit)).
Proof using Type. intros s. unfold InstructionStore.list_stale_embeddings, on_rows. by destruct (limit <=? 0)%Z. Qed.
Lemma deleted_sane (P : InstructionRow -> Prop) `{!forall r, Decision (P r)} t :
  sane t -> sane (InstructionStore.delete_where_some P t).2.
Proof using Type. apply sublist_sane, sublist_filter. Qed.
Lemma delete_sane (m : M rows Exn bool) name s :
  (forall t, sane t -> sane (m t).2) -> sane (ss_rows s) ->
  sane (ss_rows (bind (on_rows m) (fun removed => if removed then ret tt else not_found name) s).2).
Proof using Type.
  intros Hm Hs. specialize (Hm _ Hs). unfold bind, on_rows. destruct (m (ss_rows s)) as [[[]|e] t]; exact Hm.
Qed.
Lemma publish_sane at_ id t : sane t -> sane (InstructionStore.publish at_ id t).2.
Proof using Type.
  intros Hs. unfold InstructionStore.publish, bind at 1, gets. destruct (find_key ro_id id t) as [r|] eqn:Hr; [|done].
  apply find_key_Some in Hr as [Hr <-]. case_decide as Hm; [done|]. unfold bind, InstructionStore.flush, get_st, bind.
  pose proof Hs as [Hok _]. rewrite (find_id t r (ok_ids _ Hok) Hr). rewrite flushed_same by done.
  destruct (InstructionStore.clashes (published at_ r) t) eqn:Hc; [done|]. unfold modify, ret. cbn [snd].
  rewrite replace_with_flush by (done || apply Hok). by apply published_sane.
Qed.
(** C31: Whatever is asked of the service, one call at a time, but for publishing a memory through [save_public] or [save_system], ids and titles stay unique, memories stay private, the system's records stay public, a private record stays its author's, and nobody has one title both private and published. *)
Theorem instructions_stay_sane c s : call_ok c -> sane (ss_rows s) -> sane (ss_rows (run c s).2).
Proof using Hembed Hnew.
  intros Hc Hs. pose proof Hs as [Hok _]. destruct c as [u k ti co ta|k ti co ta|k ti co ta|u id|id|id|n k| |]; cbn [run]; rewrite ?bind_ret_rows.
  - destruct (save u k ti co ta s) as [r s'] eqn:Hr. cbn [snd]. apply save_result in Hr as [(e & _ & ->)|(v & i & _ & Hw & Hsys)]; [done| |done].
    eapply wrote_sane; [done|by apply saved_draft_ok|exact Hw].
  - destruct (save_public k ti co ta s) as [r s'] eqn:Hr. cbn [snd]. apply save_public_result in Hr as [->|(v & i & _ & Hw & Hsys)]; [done| |done].
    eapply wrote_sane; [done|by apply public_draft_ok|exact Hw].
  - destruct (save_system k ti co ta s) as [r s'] eqn:Hr. cbn [snd]. apply save_system_result in Hr as [[-> _]|(v & i & _ & Hw)]; [done| |done].
    eapply wrote_sane; [done|by apply public_draft_ok|exact Hw].
  - apply delete_sane; [|done]. intros t. apply deleted_sane.
  - unfold publish, bind, gets, on_rows. pose proof (publish_sane (now s) id (ss_rows s) Hs) as Hp.
    destruct (InstructionStore.publish (now s) id (ss_rows s)) as [[[i|]|e] t]; exact Hp.
  - unfold delete_public, bind at 1, on_rows at 1, InstructionStore.get, gets. destruct s as [t pending]. cbn [ss_rows] in *.
    destruct (to_instruction <$> find_key ro_id id t) as [r|]; [|done]. case_bool_decide; [done|]. destruct (in_system r); [done|].
    apply (delete_sane (InstructionStore.delete_by_title (in_title r) (in_type r)) id {| ss_rows := t; ss_pending_bumps := pending |}); [|done].
    intros t'. apply deleted_sane.
  - apply delete_sane; [|done]. intros t. apply deleted_sane.
  - unfold resync_embeddings. apply after_quiet; [apply stale_quiet|done|]. intros [|record rest] s1 H1; [cbn; by rewrite H1|].
    apply after_quiet; [apply Hembed|by rewrite H1|]. intros embeddings s2 H2. apply store_embeddings_sane. by rewrite H2, H1.
  - unfold land_bump, bind, get_st. destruct (ss_pending_bumps s) as [|ids rest]; [done|].
    unfold modify, suppress, try_except, on_rows. cbn [ss_rows]. unfold InstructionStore.bump_usage. destruct ids; [done|].
    unfold modify. cbn [snd ss_rows]. eapply frame_sane; [|exact Hs]. by apply update_frame.
Qed.

(** *** What a user's writes leave alone *)

(** A record that is neither the user's own nor one of theirs published. *)
Definition foreign (u : pystr) (r : InstructionRow) : Prop :=
  ro_owner_id r <> Some u /\ ~ (ro_owner_id r = None /\ ro_author_id r = Some u /\ ro_system r = false).
#[export] Instance foreign_dec u r : Decision (foreign u r) := ltac:(unfold foreign; apply _).
Lemma delete_foreign u id s : filter (foreign u) (ss_rows (delete u id s).2) = filter (foreign u) (ss_rows s).
Proof using Type.
  assert (Hm : forall t, filter (foreign u) (InstructionStore.delete_by_id id u t).2 = filter (foreign u) t).
  { intros t. change (filter (foreign u) (filter (fun r => ~ (ro_id r = id /\ ro_owner_id r = Some u)) t) = filter (foreign u) t).
    rewrite list_filter_filter. apply list_filter_iff. intros r. split; [by intros [? ?]|].
    intros Hf. split; [done|]. intros [_ Ho]. by apply (proj1 Hf). }
  specialize (Hm (ss_rows s)). unfold delete, bind, on_rows.
  destruct (InstructionStore.delete_by_id id u (ss_rows s)) as [[[]|e] t]; exact Hm.
Qed.
(** C32: Saving and deleting, a user writes no record of another one, none of the system, and none published by another one; and a save that returns is what the user reads under that name from then on. *)
Theorem user_writes_stay_home u kind title content tags id s :
  sane (ss_rows s) ->
  filter (foreign u) (ss_rows (delete u id s).2) = filter (foreign u) (ss_rows s) /\
  let '(r, s') := save u kind title content tags s in
  filter (foreign u) (ss_rows s') = filter (foreign u) (ss_rows s) /\
  match r with
  | Ok i => (get_by_name title (Some kind) (Some u) s').1 = Ok i /\ in_content i = content /\ in_tags i = tags /\
            in_system i = false /\ in_author_id i = Some u
  | Err e => ss_rows s' = ss_rows s
  end.
Proof using Hembed Hnew.
  intros Hs. pose proof Hs as [Hok Hau]. split.
  - apply delete_foreign.
  - destruct (save u kind title content tags s) as [r s'] eqn:Hr.
    pose proof (instructions_stay_sane (Save u kind title content tags) s I Hs) as Hs'. cbn [run] in Hs'. rewrite bind_ret_rows, Hr in Hs'.
    cbn [snd] in Hs'. apply save_result in Hr as [(e & -> & ->)|(v & i & -> & Hw & Hsys)]; [done| |done].
    set (d := saved_draft _ _ _ _ _ _ _) in Hw. destruct Hw as (s1 & H1 & Hrows & row & Hin & <- & Hcar).
    destruct Hcar as (Hslot & Hco & Hta & Hsy & Hauth). specialize (Hauth ltac:(done)). split.
    + rewrite Hrows. assert (Hd : dr_owner_id d = Some u \/ dr_owner_id d = None /\ authored u kind title (ss_rows s) = true).
      { unfold d, saved_draft. cbn. destruct (authored _ _ _ _); [by right|by left]. }
      apply upserted_others; [by apply Hok| |].
      * intros r Hr Hrs. destruct Hd as [Hd|[Hd Ha]].
        -- pose proof (f_equal snd Hrs) as Ho. change (ro_owner_id r = dr_owner_id d) in Ho. rewrite Hd in Ho.
           unfold foreign. cbn. by rewrite Ho; split; intros [? _].
        -- rewrite Hd in Hrs. unfold authored, public_row in Ha. pose proof (slot_row_spec kind title None (ss_rows s)) as Hf.
           destruct (InstructionStore.find_row kind title None (ss_rows s)) as [p|]; [|done]. destruct Hf as [Hp Hps].
           assert (r = p) as -> by (apply (row_of_slot (ss_rows s)); [done..|]; by rewrite Hrs, Hps).
           apply andb_true_iff in Ha as [Hn Ha%bool_decide_eq_true]. apply negb_true_iff in Hn. injection Hps as _ _ Ho.
           unfold foreign. cbn. by rewrite Ho; split; intros [_ H]; apply H.
      * unfold foreign. cbn. destruct Hd as [Hd|[Hd _]]; unfold d in Hd; cbn in Hd; rewrite Hd; intros [? H]; [done|]. by apply H.
    + split_and!; [|done|done|done|done]. pose proof Hs' as [Hok' Hau'].
      assert (Hread : forall owner, InstructionStore.get_by_title title (Some kind) owner (ss_rows s') =
        (Ok (to_instruction <$> InstructionStore.find_row kind title owner (ss_rows s')), ss_rows s')) by (intros; by apply get_by_title_spec).
      unfold get_by_name, bind, on_rows. rewrite Hread. pose proof (slot_row_spec kind title (Some u) (ss_rows s')) as Hf.
      destruct (InstructionStore.find_row kind title (Some u) (ss_rows s')) as [r|].
      * destruct Hf as [Hr Hrs]. cbn. do 2 f_equal. apply (row_of_slot (ss_rows s')); [done..|]. rewrite Hslot.
        destruct (dr_owner_id d) as [u'|] eqn:Hd.
        -- unfold d in Hd. cbn in Hd. destruct (authored _ _ _ _); [done|]. by injection Hd as <-.
        -- exfalso. injection Hrs as Hrt Hrti Hro. injection Hslot as Hst Hsti Hso.
           apply (ok_exclusive _ Hau' r row u Hr Hin Hro); [congruence|done|by rewrite Hst, Hrt|by rewrite Hsti, Hrti].
      * cbn [fmap option_fmap option_map]. cbn [ss_rows]. rewrite Hread. pose proof (slot_row_spec kind title None (ss_rows s')) as Hf'.
        destruct (dr_owner_id d) as [u'|] eqn:Hd.
        -- exfalso. unfold d in Hd. cbn in Hd. destruct (authored _ _ _ _); [done|]. injection Hd as <-. by apply (Hf row).
        -- destruct (InstructionStore.find_row kind title None (ss_rows s')) as [p|]; [|by exfalso; apply (Hf' row)].
           destruct Hf' as [Hp Hps]. cbn. do 2 f_equal. apply (row_of_slot (ss_rows s')); [done..|]. by rewrite Hps.
Qed.

(** *** The registry *)

Definition private (r : InstructionRow) : Prop := ro_owner_id r <> None.
#[export] Instance private_dec r : Decision (private r) := ltac:(unfold private; apply _).
(** The table has the record of an entry. *)
Definition holds (e : SystemSkill) (t : rows) : Prop :=
  exists p, public_row (sk_kind e) (sk_title e) t = Some p /\ ro_system p = true /\ ro_content p = sk_content e /\ ro_tags p = sk_tags e.
Definition public_slot (k : InstructionType.t * pystr) : slot := (k, None).
Lemma public_row_filter kind title t : public_row kind title t = head (filter (fun r => slot_of r = (kind, title, None)) t).
Proof using Type. done. Qed.
Lemma held_returns e s : store_ok (ss_rows s) -> holds e (ss_rows s) ->
  exists i, save_system (sk_kind e) (sk_title e) (sk_content e) (sk_tags e) s = (Ok i, s).
Proof using Type.
  intros Hok (p & Hp & Hsys & Hc & Ht). unfold InstructionService.save_system, bind at 1, on_rows. rewrite get_by_title_spec by done.
  unfold public_row in Hp. destruct s as [t pending]. cbn [ss_rows] in *. rewrite Hp. cbn [fmap option_fmap option_map].
  cbn [in_system in_content in_tags to_instruction]. rewrite Hsys, Hc, Ht, bool_decide_eq_true_2 by done. by eexists.
Qed.
Section Sync.
Hypothesis (Hvector : forall text s, exists v s1, embed [text] s = (Ok [v], s1)).
Lemma save_system_step e s :
  sane (ss_rows s) -> sk_kind e <> InstructionType.MEMORY ->
  exists i s', save_system (sk_kind e) (sk_title e) (sk_content e) (sk_tags e) s = (Ok i, s') /\ sane (ss_rows s') /\
    holds e (ss_rows s') /\ filter private (ss_rows s') = filter private (ss_rows s) /\
    forall sl, sl <> public_slot (entry_key e) ->
      filter (fun r => slot_of r = sl) (ss_rows s') = filter (fun r => slot_of r = sl) (ss_rows s).
Proof using Hembed Hnew Hvector.
  intros Hs Hk. pose proof Hs as [Hok _]. pose proof (instructions_stay_sane (SaveSystem (sk_kind e) (sk_title e) (sk_content e) (sk_tags e)) s Hk Hs) as Hs'.
  cbn [run] in Hs'. rewrite bind_ret_rows in Hs'.
  destruct (save_system (sk_kind e) (sk_title e) (sk_content e) (sk_tags e) s) as [r s'] eqn:Hr. cbn [snd] in Hs'.
  assert (Hret : exists i, r = Ok i).
  { pose proof Hr as Hr'. unfold InstructionService.save_system, bind at 1, on_rows in Hr'. rewrite get_by_title_spec in Hr' by done. cbn iota in Hr'.
    destruct s as [t pending]. cbn [ss_rows] in *.
    assert (Hw : forall kind title content tags s r s', store_ok (ss_rows s) ->
      bind (embed_one embed title content) (fun v => upsert alone now new_id (draft kind title content tags v (Some (sp_embedding_model policy)) true None None)) s = (r, s') ->
      exists i, r = Ok i).
    { clear -Hvector Hembed Hnew. intros kind title content tags s r s' Hok H. pose proof H as H'.
      apply upsert_result in H as [(e & -> & _)|(v & i & -> & _)]; [|by eexists|apply embed_one_quiet|done].
      exfalso. unfold embed_one, bind at 1 2 in H'. destruct (Hvector (embedded_text title content) s) as (v & s1 & He).
      pose proof (Hembed [embedded_text title content] s) as Hq. rewrite He in H', Hq. cbn in H', Hq. unfold upsert, on_rows in H'.
      rewrite <- Hq in Hok.
      destruct (upsert_run (now s1) (new_id s1) (draft kind title content tags v (Some (sp_embedding_model policy)) true None None) (ss_rows s1) Hok (Hnew s1)) as (i & Hrun & _).
      rewrite Hrun in H'. by injection H'. }
    destruct (to_instruction <$> InstructionStore.find_row _ _ _ t) as [p|]; [destruct (in_system p && _)|].
    - injection Hr' as <- _. by eexists.
    - by apply Hw in Hr'.
    - by apply Hw in Hr'. }
  destruct Hret as [i ->]. exists i, s'. split; [done|]. split; [done|].
  apply save_system_result in Hr as [[Hrows Hp]|(v & j & _ & Hw)]; [| |done].
  - rewrite Hrows. split_and!; [by eapply Hp|done|done].
  - destruct Hw as (s1 & H1 & Hrows & row & Hin & _ & Hslot & Hc & Ht & Hsys & _). split.
    + pose proof (slot_row_spec (sk_kind e) (sk_title e) None (ss_rows s')) as Hf. unfold holds, public_row.
      destruct (InstructionStore.find_row _ _ _ _) as [p|]; [|by exfalso; apply (Hf row)]. destruct Hf as [Hp Hps].
      assert (p = row) as -> by (apply (row_of_slot (ss_rows s')); [apply Hs'|done|done|by rewrite Hps, Hslot]). by exists row.
    + split; [|intros sl Hsl]; rewrite Hrows; apply upserted_others; try apply Hok; unfold private, public_slot, entry_key in *; cbn.
      * intros r _ Hrs. pose proof (f_equal snd Hrs) as Ho. cbn in Ho. rewrite Ho. by split; intros [].
      * by intros [].
      * intros r _ Hrs. change (slot_of (revised _ _ r)) with (slot_of r). rewrite Hrs. cbn. split; congruence.
      * unfold slot_of. cbn. congruence.
Qed.
Lemma save_entries entries s :
  sane (ss_rows s) -> Forall (fun e => sk_kind e <> InstructionType.MEMORY) entries -> NoDup (entry_key <$> entries) ->
  exists s', for_each entries (fun e => save_system (sk_kind e) (sk_title e) (sk_content e) (sk_tags e) ;;; ret tt) s = (Ok tt, s') /\
    sane (ss_rows s') /\ Forall (fun e => holds e (ss_rows s')) entries /\ filter private (ss_rows s') = filter private (ss_rows s) /\
    forall sl, sl ∉ public_slot <$> (entry_key <$> entries) ->
      filter (fun r => slot_of r = sl) (ss_rows s') = filter (fun r => slot_of r = sl) (ss_rows s).
Proof using Hembed Hnew Hvector.
  revert s. induction entries as [|e entries IH]; intros s Hs Hk Hnd; [by exists s|].
  apply Forall_cons in Hk as [Hke Hk]. cbn [fmap list_fmap] in Hnd. apply NoDup_cons in Hnd as [He Hnd].
  destruct (save_system_step e s Hs Hke) as (i & s1 & Hrun & Hs1 & Hh & Hp & Ho).
  destruct (IH s1 Hs1 Hk Hnd) as (s2 & Hrun2 & Hs2 & Hh2 & Hp2 & Ho2). exists s2. split_and!; [|done| |by rewrite Hp2|].
  - cbn [for_each]. unfold bind at 1 2. by rewrite Hrun.
  - apply Forall_cons. split; [|done]. destruct Hh as (p & Hpr & Hrest). exists p. split; [|done].
    rewrite <- Hpr. rewrite !public_row_filter. f_equal. apply Ho2. intros (k & Hk' & Hin)%list_elem_of_fmap. injection Hk' as Hk'.
    apply He. by unfold entry_key; rewrite Hk'.
  - intros sl Hsl. cbn [fmap list_fmap] in Hsl. apply not_elem_of_cons in Hsl as [Hsl1 Hsl2]. rewrite Ho2 by done. by apply Ho.
Qed.
(** The records the registry does not name any more. *)
Definition dropped (entries : list SystemSkill) (records : list Instruction) (r : InstructionRow) : Prop :=
  exists i, i ∈ records /\ ~ record_key i ∈ (entry_key <$> entries) /\ slot_of r = public_slot (record_key i).
#[export] Instance dropped_dec entries records r : Decision (dropped entries records r).
Proof using Type.
  refine (cast_if (decide (Exists (fun i => ~ record_key i ∈ (entry_key <$> entries) /\ slot_of r = public_slot (record_key i)) records)));
    unfold dropped; rewrite Exists_exists in *; naive_solver.
Defined.
Abbreviation delete_records := (fun entries r =>
  if bool_decide (record_key r ∈ (entry_key <$> entries)) then ret tt else delete_system (in_title r) (in_type r)).
Lemma delete_entries entries records s :
  NoDup (record_key <$> records) ->
  (forall i, i ∈ records -> exists r, r ∈ ss_rows s /\ slot_of r = public_slot (record_key i)) ->
  for_each records (delete_records entries) s =
    (Ok tt, {| ss_rows := filter (fun r => ~ dropped entries records r) (ss_rows s); ss_pending_bumps := ss_pending_bumps s |}).
Proof using Type.
  revert s. induction records as [|i records IH]; intros [t pending] Hnd Hin; cbn [ss_rows ss_pending_bumps] in *.
  - cbn. unfold ret. do 2 f_equal. symmetry. apply (select_all (fun r => ~ dropped entries [] r)).
    apply Forall_forall. intros r _ (i & Hi & _). by apply not_elem_of_nil in Hi.
  - cbn [fmap list_fmap] in Hnd. apply NoDup_cons in Hnd as [Hi Hnd]. cbn [for_each]. unfold bind at 1. case_bool_decide as Hb.
    + unfold ret. rewrite IH; [|done|intros j Hj; apply Hin; by right]. cbn [ss_rows ss_pending_bumps]. do 2 f_equal.
      apply list_filter_iff. intros r. apply not_iff_compat. split.
      * intros (j & Hj & Hrest). exists j. split; [by right|done].
      * intros (j & [->|Hj]%elem_of_cons & Hn & Hs); [done|]. by exists j.
    + set (P := fun r => slot_of r = (in_type i, in_title i, None)).
      destruct (Hin i ltac:(by left)) as (ri & Hri & Hrs).
      assert (Hdel : delete_system (in_title i) (in_type i) {| ss_rows := t; ss_pending_bumps := pending |} =
        (Ok tt, {| ss_rows := filter (fun r => ~ P r) t; ss_pending_bumps := pending |})).
      { unfold delete_system, InstructionStore.delete_by_title, InstructionStore.delete_where_some, bind, on_rows, gets, modify, ret.
        cbn [ss_rows ss_pending_bumps]. fold P.
        assert (Hn : (0 <? rowcount P t)%nat = true); [|by rewrite Hn].
        apply Nat.ltb_lt. unfold rowcount. destruct (filter P t) as [|x l] eqn:Hf; [|cbn; lia].
        exfalso. assert (Hx : ri ∈ filter P t) by (by apply list_elem_of_filter). rewrite Hf in Hx. by apply not_elem_of_nil in Hx. }
      rewrite Hdel. rewrite IH; cbn [ss_rows ss_pending_bumps]; [|done|].
      * do 2 f_equal. rewrite list_filter_filter. apply list_filter_iff. intros r. split.
        -- intros [Hn1 Hn2] (j & [->|Hj]%elem_of_cons & Hn & Hs); [by apply Hn2|]. apply Hn1. by exists j.
        -- intros Hn. split.
           ++ intros (j & Hj & Hrest). apply Hn. exists j. split; [by right|done].
           ++ intros HP. apply Hn. exists i. split; [by left|done].
      * intros j Hj. destruct (Hin j ltac:(by right)) as (r & Hr & Hs). exists r. split; [|done]. apply list_elem_of_filter. split; [|done].
        intros HP. apply Hi. apply list_elem_of_fmap. exists j. split; [|done]. unfold P in HP. rewrite HP in Hs.
        unfold record_key, public_slot in *. congruence.
Qed.
(** The rows of the system, as a start of the process reads them. *)
Lemma list_system_run t :
  exists l, InstructionStore.list_system t = (Ok (to_instruction <$> l), t) /\ l ≡ₚ filter (fun r => ro_system r = true) t.
Proof using Type.
  eexists. split; [done|]. unfold oldest_first, select_where. by rewrite order_by_perm, order_by_str_perm.
Qed.
(** C33: A start of the process leaves, as the system's records, exactly the entries of the registry, each with its content and tags; it touches no private record; and a second start finds nothing to do: it writes nothing and embeds nothing. *)
Theorem sync_makes_registry entries s :
  sane (ss_rows s) -> Forall (fun e => sk_kind e <> InstructionType.MEMORY) entries -> NoDup (entry_key <$> entries) ->
  exists s', sync entries s = (Ok tt, s') /\ sane (ss_rows s') /\
    Forall (fun e => holds e (ss_rows s')) entries /\
    (forall r, r ∈ ss_rows s' -> ro_system r = true -> (ro_type r, ro_title r) ∈ entry_key <$> entries) /\
    filter private (ss_rows s') = filter private (ss_rows s) /\
    sync entries s' = (Ok tt, s').
Proof using Hembed Hnew Hvector.
  intros Hs Hk Hnd. destruct (save_entries entries s Hs Hk Hnd) as (s1 & Hrun1 & Hs1 & Hh1 & Hp1 & _).
  destruct s1 as [t1 pending]. cbn [ss_rows] in *. destruct (list_system_run t1) as (l & Hl & Hperm).
  pose proof Hs1 as [Hok1 _]. assert (Hrow : forall r, r ∈ l -> r ∈ t1 /\ ro_system r = true /\ slot_of r = public_slot (record_key (to_instruction r))).
  { intros r Hr. rewrite Hperm in Hr. apply list_elem_of_filter in Hr as [Hsys Hr]. split_and!; [done|done|].
    pose proof (ok_system _ Hok1) as Ho. rewrite Forall_forall in Ho. unfold slot_of, public_slot, record_key. cbn. by rewrite (Ho r Hr Hsys). }
  set (t2 := filter (fun r => ~ dropped entries (to_instruction <$> l) r) t1).
  assert (Hdel : for_each (to_instruction <$> l) (delete_records entries) {| ss_rows := t1; ss_pending_bumps := pending |} =
    (Ok tt, {| ss_rows := t2; ss_pending_bumps := pending |})).
  { apply (delete_entries entries (to_instruction <$> l) {| ss_rows := t1; ss_pending_bumps := pending |}); cbn [ss_rows].
    - assert (Hnd' : NoDup (slot_of <$> l)).
      { rewrite Hperm. eapply sublist_NoDup; [apply Hok1|]. apply fmap_sublist, sublist_filter. }
      rewrite <- list_fmap_compose. apply NoDup_fmap_2_strong; [|by eapply NoDup_fmap_1].
      intros x y Hx Hy Hxy. cbn in Hxy. apply (row_of_slot t1); [done|by apply Hrow|by apply Hrow|].
      destruct (Hrow x Hx) as (_ & _ & ->), (Hrow y Hy) as (_ & _ & ->). unfold public_slot. by rewrite Hxy.
    - intros i (r & -> & Hr)%list_elem_of_fmap. exists r. destruct (Hrow r Hr) as (? & _ & ?). done. }
  assert (Hsync : sync entries s = (Ok tt, {| ss_rows := t2; ss_pending_bumps := pending |})).
  { unfold sync_system_registry, bind at 1. rewrite Hrun1. unfold bind at 1, list_system, on_rows. cbn [ss_rows ss_pending_bumps].
    rewrite Hl. exact Hdel. }
  exists {| ss_rows := t2; ss_pending_bumps := pending |}. cbn [ss_rows].
  assert (Hs2 : sane t2) by (eapply sublist_sane; [apply sublist_filter|done]).
  assert (Hh2 : Forall (fun e => holds e t2) entries).
  { rewrite Forall_forall in Hh1 |- *. intros e He. destruct (Hh1 e He) as (p & Hp & Hrest). exists p. split; [|done]. rewrite <- Hp.
    rewrite !public_row_filter. f_equal. unfold t2. rewrite list_filter_filter. apply list_filter_iff. intros r. split; [by intros [? _]|].
    intros Hr. split; [done|]. intros (i & _ & Hn & Hi). apply Hn. apply list_elem_of_fmap. exists e. split; [|done].
    rewrite Hr in Hi. unfold public_slot, entry_key, record_key in *. congruence. }
  assert (Hsys2 : forall r, r ∈ t2 -> ro_system r = true -> (ro_type r, ro_title r) ∈ entry_key <$> entries).
  { intros r [Hn Hr]%list_elem_of_filter Hsys. apply dec_stable. intros Hnot. apply Hn.
    assert (Hrl : r ∈ l) by (rewrite Hperm; by apply list_elem_of_filter). exists (to_instruction r). split_and!.
    - by apply list_elem_of_fmap_2.
    - exact Hnot.
    - by apply Hrow. }
  split_and!; [done|done|done|done| |].
  - rewrite <- Hp1. unfold t2. rewrite list_filter_filter. apply list_filter_iff. intros r. split; [by intros [? _]|].
    intros Hr. split; [done|]. intros (i & _ & _ & Hi). apply Hr. by injection Hi.
  - unfold sync_system_registry, bind at 1.
    assert (Hall : for_each entries (fun e => save_system (sk_kind e) (sk_title e) (sk_content e) (sk_tags e) ;;; ret tt)
      {| ss_rows := t2; ss_pending_bumps := pending |} = (Ok tt, {| ss_rows := t2; ss_pending_bumps := pending |})).
    { clear -Hh2 Hs2. clearbody t2. induction entries as [|e entries IH]; [done|]. apply Forall_cons in Hh2 as [He Hh2]. cbn [for_each].
      destruct (held_returns e {| ss_rows := t2; ss_pending_bumps := pending |}) as [i Hi]; [apply Hs2|done|].
      unfold bind at 1 2. rewrite Hi. unfold ret at 1. by apply IH. }
    rewrite Hall. destruct (list_system_run t2) as (l2 & Hl2 & Hperm2). unfold bind at 1, list_system, on_rows. cbn [ss_rows ss_pending_bumps].
    rewrite Hl2. assert (Hkeys : forall r, r ∈ l2 -> record_key (to_instruction r) ∈ entry_key <$> entries).
    { intros r Hr. rewrite Hperm2 in Hr. apply list_elem_of_filter in Hr as [Hsys Hr]. by apply Hsys2. }
    clear -Hkeys. induction l2 as [|r l2 IH]; [done|]. cbn [fmap list_fmap for_each]. unfold bind at 1.
    rewrite bool_decide_eq_true_2 by (apply Hkeys; by left). unfold ret at 1. apply IH. intros x Hx. apply Hkeys. by right.
Qed.
End Sync.

(** *** Embeddings catch up *)

Lemma key_update_once {R K} `{EqDecision K} (pk : R -> K) (P : R -> Prop) `{!forall r, Decision (P r)} f t r :
  NoDup (pk <$> t) -> r ∈ t -> P r -> ~ P (f r) -> S (rowcount P (update_where (fun x => pk x = pk r) f t)) = rowcount P t.
Proof using Type.
  unfold rowcount, update_where. induction t as [|x t IH]; intros Hnd Hr HP Hf; [by apply not_elem_of_nil in Hr|].
  cbn [fmap list_fmap] in *. apply NoDup_cons in Hnd as [Hx Hnd]. rewrite !filter_cons. apply elem_of_cons in Hr as [->|Hr].
  - rewrite (decide_True (P := pk x = pk x)) by done. rewrite (decide_False (P := P (f x))), (decide_True (P := P x)) by done. cbn. do 2 f_equal.
    symmetry. clear IH Hnd. induction t as [|y t IH]; [done|]. cbn [fmap list_fmap] in *. apply not_elem_of_cons in Hx as [Hy Hx].
    rewrite (decide_False (P := pk y = pk x)) by congruence. rewrite !filter_cons. by destruct (decide (P y)); [f_equal|]; apply IH.
  - assert (Hne : pk x <> pk r) by (intros He; apply Hx; rewrite He; by apply list_elem_of_fmap_2).
    rewrite (decide_False (P := pk x = pk r)) by done. specialize (IH Hnd Hr HP Hf). destruct (decide (P x)); cbn; by rewrite <- IH.
Qed.
(** What a new embedding leaves alone. *)
Definition wording (r : InstructionRow) : Instruction := to_instruction r.
Definition stale_count (t : rows) : nat := rowcount (stale (sp_embedding_model policy)) t.
Lemma store_embeddings_run pending embeddings n s :
  NoDup (ro_id <$> ss_rows s) -> NoDup (in_id <$> pending) -> length embeddings = length pending -> Forall (fun v => v <> []) embeddings ->
  (forall i, i ∈ pending -> exists r, r ∈ ss_rows s /\ ro_id r = in_id i /\ stale (sp_embedding_model policy) r) ->
  exists s', store_embeddings policy pending embeddings n s = (Ok (n + Z.of_nat (length pending))%Z, s') /\
    wording <$> ss_rows s' = wording <$> ss_rows s /\ (stale_count (ss_rows s') + length pending = stale_count (ss_rows s))%nat.
Proof using Type.
  revert embeddings n s. induction pending as [|i pending IH]; intros [|v embeddings] n s Hnd Hi Hlen Hv Hin; try done.
  - exists s. cbn. rewrite Z.add_0_r. split_and!; [done|done|lia].
  - cbn [fmap list_fmap] in Hi. apply NoDup_cons in Hi as [Hi Hnd']. apply Forall_cons in Hv as [Hv Hvs].
    destruct (Hin i ltac:(by left)) as (r & Hr & Hri & Hst). destruct s as [t pb]. cbn [ss_rows] in *.
    set (t' := update_where (fun x => ro_id x = in_id i) (reembedded v (sp_embedding_model policy)) t).
    assert (Hids : ro_id <$> t' = ro_id <$> t) by (by apply update_where_proj).
    assert (Hcount : (0 <? rowcount (fun r => ro_id r = in_id i) t)%nat = true).
    { apply Nat.ltb_lt. destruct (rowcount _ t) eqn:Hz; [|lia]. apply rowcount_zero in Hz. rewrite Forall_forall in Hz. by apply Hz in Hr. }
    destruct (IH embeddings (n + 1)%Z {| ss_rows := t'; ss_pending_bumps := pb |}) as (s' & Hrun & Hw & Hc); cbn [ss_rows].
    + by rewrite Hids.
    + done.
    + by injection Hlen.
    + done.
    + intros j Hj. destruct (Hin j ltac:(by right)) as (x & Hx & Hxj & Hxs). exists x. split_and!; [|done|done].
      apply list_elem_of_fmap. exists x. split; [|done]. rewrite decide_False; [done|]. intros He. apply Hi. rewrite <- He, Hxj.
      by apply list_elem_of_fmap_2.
    + exists s'. split_and!.
      * cbn [store_embeddings]. unfold bind at 1, on_rows, InstructionStore.set_embedding, bind at 1, gets, bind, modify, ret. cbn [ss_rows ss_pending_bumps].
        rewrite Hcount. fold t'. rewrite Hrun. do 2 f_equal. cbn [length]. lia.
      * rewrite Hw. by apply update_where_proj.
      * cbn [length ss_rows] in *. unfold stale_count in *. unfold t' in Hc. rewrite <- Hri in Hc.
        pose proof (key_update_once ro_id (stale (sp_embedding_model policy)) (reembedded v (sp_embedding_model policy)) t r Hnd Hr Hst) as Hk.
        rewrite <- Hk; [lia|]. unfold stale. cbn. intros [H|[H|H]]; [by apply Hv|done|by apply H].
Qed.
(** With an embedder that answers, a pass of the resync stores an embedding of the current model for as many stale records as the batch takes, the oldest first, and changes nothing else of any record; so passes repeated leave none stale. *)
Theorem resync_catches_up s :
  (forall texts s, exists vs s1, embed texts s = (Ok vs, s1) /\ length vs = length texts /\ Forall (fun v => v <> []) vs) ->
  NoDup (ro_id <$> ss_rows s) ->
  let n := Nat.min (Z.to_nat (sp_resync_batch policy)) (stale_count (ss_rows s)) in
  exists s', resync_embeddings policy embed s = (Ok (Z.of_nat n), s') /\
    wording <$> ss_rows s' = wording <$> ss_rows s /\ stale_count (ss_rows s') = (stale_count (ss_rows s) - n)%nat.
Proof using Hembed.
  intros Hvec Hnd n. set (l := oldest_first (select_where (stale (sp_embedding_model policy)) (ss_rows s))).
  assert (Hl : l ≡ₚ filter (stale (sp_embedding_model policy)) (ss_rows s)).
  { unfold l, oldest_first. by rewrite order_by_perm, order_by_str_perm. }
  assert (Hlist : on_rows (InstructionStore.list_stale_embeddings (sp_embedding_model policy) (sp_resync_batch policy)) s =
    (Ok (to_instruction <$> take n l), s)).
  { destruct s as [t pb]. unfold on_rows, InstructionStore.list_stale_embeddings, first_of. cbn [ss_rows ss_pending_bumps] in *.
    assert (Hlen : length l = stale_count t) by (unfold stale_count, rowcount; by rewrite Hl).
    assert (Htake : take (Z.to_nat (sp_resync_batch policy)) l = take n l).
    { unfold n. rewrite <- Hlen. destruct (Nat.min_spec (Z.to_nat (sp_resync_batch policy)) (length l)) as [[? ->]|[? ->]]; [done|].
      rewrite !take_ge by lia. done. }
    destruct (Z.leb_spec (sp_resync_batch policy) 0) as [Hb|Hb].
    - replace n with 0%nat by (unfold n; lia). by rewrite take_0.
    - unfold gets. fold l. by rewrite <- Htake. }
  assert (Hlen : length (take n l) = n).
  { rewrite length_take. apply Nat.min_l. rewrite Hl. unfold n, stale_count, rowcount. lia. }
  unfold resync_embeddings, bind at 1. rewrite Hlist. destruct (to_instruction <$> take n l) as [|i0 rest] eqn:Hpending.
  - assert (Hn : n = 0%nat) by (rewrite <- Hlen; by destruct (take n l)). exists s. rewrite Hn. split_and!; [done|done|lia].
  - rewrite <- Hpending in *. unfold bind. set (texts := _ <$> (to_instruction <$> take n l)).
    destruct (Hvec texts s) as (vs & s1 & He & Hvl & Hvs). rewrite He.
    pose proof (Hembed texts s) as Hq. rewrite He in Hq. cbn [snd] in Hq.
    destruct (store_embeddings_run (to_instruction <$> take n l) vs 0 s1) as (s' & Hrun & Hw & Hc).
    + by rewrite Hq.
    + rewrite <- list_fmap_compose. change (NoDup (ro_id <$> take n l)). eapply sublist_NoDup; [|apply fmap_sublist, sublist_take].
      rewrite Hl. eapply sublist_NoDup; [exact Hnd|]. apply fmap_sublist, sublist_filter.
    + unfold texts in Hvl. by rewrite length_fmap in Hvl.
    + done.
    + intros i (r & -> & Hr)%list_elem_of_fmap. exists r. rewrite Hq. apply (elem_of_sublist _ l) in Hr; [|apply sublist_take].
      rewrite Hl in Hr. by apply list_elem_of_filter in Hr as [? ?].
    + exists s'. rewrite length_fmap, Hlen in *. rewrite Hrun, Hw, Hq in *. split_and!; [by f_equal|done|]. lia.
Qed.
End Laws.

(** ** Searching *)

Section SearchLaws.
Context (policy : InstructionSearchPolicy).
Context (embed : list pystr -> MS (list vector)) (reranker : option (list (pystr * pystr) -> MS (list float))).
Context (distance : vector -> vector -> float) (vector_capable : bool).
Context (search_by_text : option (pystr -> Z -> option pystr -> list InstructionType.t -> M rows Exn (list EmbeddedInstruction))).
Context (casefold : pystr -> pystr) (norm : vector -> float) (dot : vector -> vector -> float).
Context (quotient : float -> float -> float -> float).
(** The models have no business with the table. *)
Hypothesis (Hembed : forall texts, quiet (embed texts)).
Hypothesis (Hrerank : forall score, reranker = Some score -> forall pairs, quiet (score pairs)).
(** The records a search may show. *)
Definition in_scope (user_id : option pystr) (kinds : list InstructionType.t) (t : rows) : list Instruction :=
  to_instruction <$> filter (fun r => visible user_id r /\ of_kinds kinds r) t.
Definition scoped (user_id : option pystr) (kinds : list InstructionType.t) (t : rows) (l : list EmbeddedInstruction) : Prop :=
  Forall (fun c => ei_instruction c ∈ in_scope user_id kinds t) l.
(** What the store promises of its full-text search; both of its versions do. *)
Definition text_search_ok (search : pystr -> Z -> option pystr -> list InstructionType.t -> M rows Exn (list EmbeddedInstruction)) : Prop :=
  forall query limit user_id kinds t, NoDup (ro_id <$> t) -> (search query limit user_id kinds t).2 = t /\
    match (search query limit user_id kinds t).1 with Ok l => scoped user_id kinds t l | Err _ => True end.
Lemma scoped_row user_id kinds t r : r ∈ t -> visible user_id r -> of_kinds kinds r -> to_instruction r ∈ in_scope user_id kinds t.
Proof using Type. intros. apply list_elem_of_fmap_2, list_elem_of_filter. by split. Qed.
Lemma closest_scoped limit user_id kinds t (f : InstructionRow -> option (float * InstructionRow)) :
  (forall r p, f r = Some p -> p.2 = r) ->
  scoped user_id kinds t (InstructionStore.closest limit (omap f (select_where (fun r => visible user_id r /\ of_kinds kinds r) t))).
Proof using Type.
  intros Hf. apply Forall_forall. intros c (p & -> & Hp%first_of_in)%list_elem_of_fmap. rewrite stable_sort_perm in Hp.
  apply list_elem_of_omap in Hp as (r & Hr & Hp). apply Hf in Hp. apply elem_of_select in Hr as [[Hv Hk] Hr]. cbn. rewrite Hp.
  by apply scoped_row.
Qed.
Lemma pg_text_search_ok relevance : text_search_ok (InstructionStore.search_by_text relevance).
Proof using Type.
  intros query limit user_id kinds t _. unfold InstructionStore.search_by_text. destruct (_ || _); [split; [done|constructor]|]. split; [done|].
  cbn. apply Forall_forall. intros c Hc%first_of_in.
  assert (Hs : scoped user_id kinds t (fuse_rankings [InstructionStore.ranked_by relevance ro_content query limit user_id kinds t;
    InstructionStore.ranked_by relevance ro_title query limit user_id kinds t])).
  { apply fuse_rankings_drawn. apply Forall_cons. split; [|apply Forall_singleton]; apply closest_scoped; intros r p; cbn;
      destruct (fltb _ _); by intros [= <-]. }
  unfold scoped in Hs. rewrite Forall_forall in Hs. by apply Hs.
Qed.
Lemma sqlite_text_search_ok match_rank : text_search_ok (InstructionStore.sqlite_search_by_text (fun _ t => t) match_rank).
Proof using Type.
  intros query limit user_id kinds t Hnd. unfold InstructionStore.sqlite_search_by_text.
  destruct (match_expression query) as [expression|]; [|split; [done|constructor]]. destruct (limit <=? 0)%Z; [split; [done|constructor]|].
  cbn. split; [done|]. apply Forall_forall. intros c (key & Hkey & Hc)%list_elem_of_omap.
  apply fmap_Some in Hc as (r & Hr & ->). apply find_key_Some in Hr as [Hr <-].
  apply list_elem_of_fmap in Hkey as (p & Hp & Hpl). apply first_of_in in Hpl. rewrite stable_sort_perm in Hpl.
  apply list_elem_of_omap in Hpl as (r' & Hr' & Hrank). apply fmap_Some in Hrank as (? & _ & ->). cbn in Hp.
  apply elem_of_select in Hr' as [[Hv Hk] Hr']. assert (r = r') as -> by (by apply (key_inj ro_id t)). by apply scoped_row.
Qed.
Hypothesis (Htext : forall search, search_by_text = Some search -> text_search_ok search).
Abbreviation search_in := (search_in policy embed reranker distance vector_capable search_by_text casefold norm dot quotient).
Definition apart {A} (Q : A -> Prop) (s : ServiceState) (m : Res Exn A * ServiceState) : Prop :=
  ss_rows m.2 = ss_rows s /\ match m.1 with Ok a => Q a | Err _ => True end.
Lemma apart_bind {A B} (m : MS A) (k : A -> MS B) (Q : A -> Prop) (R : B -> Prop) s :
  apart Q s (m s) -> (forall a s1, ss_rows s1 = ss_rows s -> Q a -> apart R s1 (k a s1)) -> apart R s (bind m k s).
Proof using Type.
  intros [H1 H2] Hk. unfold bind. destruct (m s) as [[a|e] s1]; cbn in *; [|done].
  specialize (Hk a s1 H1 H2) as [H3 H4]. split; [congruence|done].
Qed.
Lemma apart_quiet {A} (m : MS A) s : quiet m -> apart (fun _ => True) s (m s).
Proof using Type. intros H. split; [apply H|]. by destruct (m s).1. Qed.
Lemma scope_rows user_id kinds s s1 l : ss_rows s1 = ss_rows s -> scoped user_id kinds (ss_rows s1) l -> scoped user_id kinds (ss_rows s) l.
Proof using Type. by intros ->. Qed.
Lemma vector_candidates_scoped query_embedding fetch user_id kinds s :
  apart (scoped user_id kinds (ss_rows s)) s (vector_candidates distance vector_capable query_embedding fetch user_id kinds s).
Proof using Type.
  unfold vector_candidates. destruct vector_capable.
  - unfold on_rows, InstructionStore.search_by_vector. destruct (_ || _); [split; [done|constructor]|]. split; [done|]. cbn.
    apply closest_scoped. intros r p. destruct (ro_embedding_vector r); [|done]. destruct (_ =? _)%nat; by intros [= <-].
  - unfold bind, on_rows, InstructionStore.list_with_embeddings, gets, ret. cbn. split; [done|]. cbn. apply Forall_forall.
    intros c [Hk Hc]%list_elem_of_filter. apply list_elem_of_fmap in Hc as (r & -> & Hr). rewrite order_by_str_perm in Hr.
    apply elem_of_select in Hr as [Hv Hr]. by apply scoped_row.
Qed.
Lemma shortlist_scoped query query_embedding fetch user_id kinds s :
  NoDup (ro_id <$> ss_rows s) ->
  apart (fun hits => drawn hits (in_scope user_id kinds (ss_rows s)) /\ (length hits <= Z.to_nat fetch)%nat) s
    (shortlist distance vector_capable search_by_text casefold norm dot quotient query query_embedding fetch user_id kinds s).
Proof using Htext.
  intros Hnd. unfold shortlist. eapply apart_bind; [apply vector_candidates_scoped|]. intros vector_hits s1 H1 Hv.
  eapply (apart_bind _ _ (fun l => match l with Some l => scoped user_id kinds (ss_rows s) l | None => True end)).
  - unfold lexical_candidates. destruct search_by_text as [search|] eqn:Hs; [|by split].
    destruct (Htext search eq_refl query fetch user_id kinds (ss_rows s1)) as [Ht1 Ht2]; [by rewrite H1|].
    unfold bind, on_rows, ret. destruct (search query fetch user_id kinds (ss_rows s1)) as [[l|e] t]; cbn in *; [|done].
    rewrite <- H1. by split.
  - intros lexical_hits s2 H2 Hl. split; [done|]. cbn. destruct lexical_hits as [l|].
    + apply fuse_drawn. apply Forall_cons. split; [exact Hv|]. apply Forall_singleton. exact Hl.
    + destruct (rank_drawn casefold norm dot quotient vector_hits query query_embedding fetch) as [Hd Hn]. split; [|done].
      unfold drawn, scoped in *. rewrite Forall_forall in *. intros h Hh. apply Hd in Hh. apply list_elem_of_fmap in Hh as (c & Hc & Hin).
      rewrite Hc. rewrite Forall_forall in Hv. by apply Hv.
Qed.
Lemma apply_reranker_drawn query hits k from s :
  drawn hits from ->
  apart (fun hits' => drawn hits' from /\ (length hits' <= Nat.max (length hits) (Z.to_nat k))%nat /\
    (reranker <> None -> (length hits' <= Z.to_nat k)%nat)) s (apply_reranker reranker casefold query hits k s).
Proof using Hrerank.
  intros Hd. unfold apply_reranker. destruct reranker as [score|] eqn:Hr; [|split; [done|]; cbn; split_and!; [done|lia|done]].
  destruct hits as [|h0 rest] eqn:Hhits; [split; [done|]; cbn; split_and!; [done|lia|lia]|]. rewrite <- Hhits in *.
  eapply (apart_bind _ _ (fun _ => True)).
  - apply apart_quiet. apply quiet_try; [|intros e; by destruct (is_exception e)]. apply quiet_bind; [by apply (Hrerank score)|]. auto with quiet.
  - intros scores s1 H1 _. destruct scores as [scores|].
    + split; [done|]. cbn. destruct (rerank casefold hits scores k query) as [r|e] eqn:Hrr; [|done].
      destruct (rerank_drawn _ _ _ _ _ _ _ Hrr Hd). split_and!; [done|lia|done].
    + split; [done|]. cbn. pose proof (first_of_le k hits). split_and!; [|lia|done].
      eapply drawn_subset; [|exact Hd]. apply first_of_in.
Qed.
(** A search shows at most [k] records, all of the table, of the kinds asked for and of those the user may see; it changes nothing but the counters of what it showed, which a task writes later. *)
Theorem search_shows_visible user_id query k kind exclude s :
  NoDup (ro_id <$> ss_rows s) -> (0 < k)%Z ->
  let '(r, s') := search_in user_id query k kind exclude s in
  ss_rows s' = ss_rows s /\
  match r with
  | Err _ => True
  | Ok hits =>
      (length hits <= Z.to_nat k)%nat /\
      Forall (fun h => exists row, row ∈ ss_rows s /\ to_instruction row = sh_instruction h /\ visible user_id row /\
                         of_kinds (wanted_kinds kind exclude) row) hits
  end.
Proof using Hembed Hrerank Htext.
  intros Hnd Hk. set (Q hits := (length hits <= Z.to_nat k)%nat /\ drawn hits (in_scope user_id (wanted_kinds kind exclude) (ss_rows s))).
  assert (Hgoal : apart Q s (search_in user_id query k kind exclude s)).
  2:{ destruct (search_in _ _ _ _ _ s) as [r s']. destruct Hgoal as [H1 H2]. split; [done|]. cbn in H2. destruct r as [hits|]; [|done].
      destruct H2 as [Hl Hd]. split; [done|]. unfold drawn in Hd. eapply Forall_impl; [exact Hd|]. intros h Hh. cbn in Hh.
      apply list_elem_of_fmap in Hh as (r & -> & Hr). apply list_elem_of_filter in Hr as [[? ?] ?]. by exists r. }
  unfold InstructionService.search_in. destruct (_ || _); [split; [done|]; split; [cbn; lia|constructor]|].
  eapply apart_bind; [apply apart_quiet, Hembed|]. intros embeddings s1 H1 _.
  eapply apart_bind; [apply apart_quiet, (quiet_only embeddings)|]. intros v s2 H2 _.
  eapply apart_bind; [apply shortlist_scoped; by rewrite H2, H1|]. intros found s3 H3 [Hd Hn].
  eapply apart_bind; [by apply apply_reranker_drawn|]. intros hits s4 H4 (Hd' & Hn' & Hr).
  rewrite H2, H1 in Hd'. unfold bind, bump_usage_later.
  split; [by destruct ((fun h => in_id (sh_instruction h)) <$> _)|].
  assert (HQ : Q (if bool_decide (kind = None) then cap_types hits k else hits)).
  2:{ destruct ((fun h => in_id (sh_instruction h)) <$> _); exact HQ. }
  case_bool_decide as Hkind.
  - destruct (cap_types_spec hits k Hk) as (rest & Hperm & Hlen & _). split; [lia|]. eapply drawn_subset; [|exact Hd'].
    intros h Hh. rewrite Hperm. apply elem_of_app. by left.
  - split; [|done]. destruct reranker as [score|] eqn:Hre; [by apply Hr|]. unfold shortlist_size in Hn. rewrite ?bool_decide_eq_false_2 in Hn by done. lia.
Qed.
End SearchLaws.
