(* ===== verification/Datasets.v ===== *)
(** * Datasets ([datasets/])

    Descriptors and records of a user's own data: the schema and its check, the
    two tables, the service with its quota and its search, and the tools. *)
From S2P Require Import Prelude PyStr PyFloat Clock Sql Dict Domain UnitOfWork Ranking Instructions.

(** ** Schemas ([datasets/api.py], [datasets/validation.py]) *)

Module FieldType.
Inductive t : Set := STRING | INTEGER | NUMBER | BOOLEAN | DATE | DATETIME.
#[global] Instance field_type_eq_dec : EqDecision t := ltac:(solve_decision).
Definition value (k : t) : pystr :=
  match k with
  | STRING => "string" | INTEGER => "integer" | NUMBER => "number" | BOOLEAN => "boolean" | DATE => "date" | DATETIME => "datetime"
  end.
Definition all : list t := [STRING; INTEGER; NUMBER; BOOLEAN; DATE; DATETIME].
Definition parse (s : pystr) : option t := find (fun k => bool_decide (value k = s)) all.
End FieldType.

Record DatasetField := { df_name : pystr; df_type : FieldType.t; df_required : bool }.
Record DatasetSchema := { ds_fields : list DatasetField }.
Record Dataset := {
  da_id : pystr;
  da_owner_user_id : pystr;
  da_name : pystr;
  da_description : pystr;
  da_schema : DatasetSchema;
  da_usage_notes : pystr;
  da_retention : pystr;
  da_version : Z;
  da_created_at : time;
  da_updated_at : time }.
Record DatasetRecord := {
  dc_id : pystr;
  dc_dataset_id : pystr;
  dc_owner_user_id : pystr;
  dc_payload : list (pystr * json);
  dc_created_at : time }.
Record DatasetHit := { dh_dataset : Dataset; dh_score : float }.
Record EmbeddedDataset := { ed_dataset : Dataset; ed_embedding : vector }.

Definition FIELDS_KEY : pystr := "fields".
Definition NAME_KEY : pystr := "name".
Definition TYPE_KEY : pystr := "type".
Definition REQUIRED_KEY : pystr := "required".
Section Validation.
(** [repr] of a value, [None] for an absent one; what [date.fromisoformat] and
    [datetime.fromisoformat] accept. *)
Context (repr : option json -> pystr) (parses_date parses_datetime : pystr -> bool).
Abbreviation result := (Res Exn) (only parsing).
Definition schema_error {A} (text : pystr) : result A := Err (DatasetSchemaError text).

(** [FieldType(str(raw))]: only a string spells one. *)
Definition parse_field_type (name : pystr) (raw : option json) : result FieldType.t :=
  match raw ≫= (fun v => json_str (Some v) ≫= FieldType.parse) with
  | Some kind => Ok kind
  | None => schema_error ("field '" +s+ name +s+ "': unknown type " +s+ repr raw +s+ " (allowed: " +s+
                          str_join ", " (FieldType.value <$> FieldType.all) +s+ ")")
  end.
Definition parse_field (index : Z) (entry : json) : result DatasetField :=
  match entry with
  | JObj d =>
      match dict_get NAME_KEY d with
      | Some (JStr name) =>
          if str_empty (str_strip name) then schema_error ("field #" +s+ str_of_Z index +s+ " must have a non-empty string 'name'")
          else
            rbind (parse_field_type name (dict_get TYPE_KEY d)) (fun field_type =>
            match default (JBool false) (dict_get REQUIRED_KEY d) with
            | JBool required => Ok {| df_name := name; df_type := field_type; df_required := required |}
            | _ => schema_error ("field '" +s+ name +s+ "': 'required' must be a boolean")
            end)
      | _ => schema_error ("field #" +s+ str_of_Z index +s+ " must have a non-empty string 'name'")
      end
  | _ => schema_error ("field #" +s+ str_of_Z index +s+ " must be an object")
  end.
Fixpoint parse_fields (index : Z) (entries : list json) : result (list DatasetField) :=
  match entries with
  | [] => Ok []
  | entry :: entries => rbind (parse_field index entry) (fun f => rbind (parse_fields (index + 1) entries) (fun fs => Ok (f :: fs)))
  end.
Definition parse_schema (raw : json) : result DatasetSchema :=
  match raw with
  | JObj d =>
      match dict_get FIELDS_KEY d with
      | Some (JList entries) =>
          rbind (parse_fields 0 entries) (fun fields =>
          if decide (NoDup (df_name <$> fields)) then Ok {| ds_fields := fields |}
          else schema_error "schema field names must be unique")
      | _ => schema_error "schema must contain a 'fields' list"
      end
  | _ => schema_error "schema must be an object with a 'fields' list"
  end.
Definition dump_field (f : DatasetField) : json :=
  JObj [(NAME_KEY, JStr (df_name f)); (TYPE_KEY, JStr (FieldType.value (df_type f))); (REQUIRED_KEY, JBool (df_required f))].
Definition dump_schema (schema : DatasetSchema) : json := JObj [(FIELDS_KEY, JList (dump_field <$> ds_fields schema))].

Definition matches_type (kind : FieldType.t) (value : json) : bool :=
  match kind, value with
  | FieldType.STRING, JStr _ => true
  | FieldType.INTEGER, JInt _ => true
  | FieldType.NUMBER, (JInt _ | JFloat _) => true
  | FieldType.BOOLEAN, JBool _ => true
  | FieldType.DATE, JStr s => parses_date s
  | FieldType.DATETIME, JStr s => parses_datetime s
  | _, _ => false
  end.
(** [type(value).__name__] *)
Definition type_name (value : json) : pystr :=
  match value with
  | JNull => "NoneType" | JBool _ => "bool" | JInt _ => "int" | JFloat _ => "float" | JStr _ => "str" | JList _ => "list" | JObj _ => "dict"
  end.
Definition violation (payload : list (pystr * json)) (f : DatasetField) : option pystr :=
  match argument (df_name f) payload with
  | None => if df_required f then Some ("field '" +s+ df_name f +s+ "' is required") else None
  | Some value =>
      if matches_type (df_type f) value then None
      else Some ("field '" +s+ df_name f +s+ "' must be " +s+ FieldType.value (df_type f) +s+ ", got " +s+ type_name value)
  end.
Definition validate_record (schema : DatasetSchema) (payload : list (pystr * json)) : result unit :=
  match omap (violation payload) (ds_fields schema) with
  | [] => Ok tt
  | violations => Err (DatasetRecordValidationError violations)
  end.
End Validation.

(** ** The tables ([datasets/models.py], [datasets/store.py]) *)

Record DatasetRow := {
  dw_id : pystr;
  dw_owner_user_id : pystr;
  dw_name : pystr;
  dw_description : pystr;
  dw_schema : json;
  dw_usage_notes : pystr;
  dw_retention : pystr;
  dw_embedding : vector;
  dw_version : Z;
  dw_created_at : time;
  dw_updated_at : time }.
Record DatasetDb := { dd_datasets : list DatasetRow; dd_records : list DatasetRecord }.
Definition set_dd_datasets (l : list DatasetRow) (db : DatasetDb) : DatasetDb := {| dd_datasets := l; dd_records := dd_records db |}.
Definition set_dd_records (l : list DatasetRecord) (db : DatasetDb) : DatasetDb := {| dd_datasets := dd_datasets db; dd_records := l |}.
Abbreviation MD := (M DatasetDb Exn) (only parsing).
Definition MAX_SCAN_ROWS : Z := 1000.
Definition row_slot (r : DatasetRow) : pystr * pystr := (dw_owner_user_id r, dw_name r).
(** [.order_by(created_at.desc(), id.desc())] *)
Definition newest_first (l : list DatasetRecord) : list DatasetRecord :=
  order_by (fun r => (- dc_created_at r)%Z) (rev (order_by_str dc_id l)).
Definition in_range (date_from date_to : option time) (r : DatasetRecord) : Prop :=
  (match date_from with Some d => (d <= dc_created_at r)%Z | None => True end) /\
  (match date_to with Some d => (dc_created_at r <= d)%Z | None => True end).
#[export] Instance in_range_dec date_from date_to r : Decision (in_range date_from date_to r).
Proof. unfold in_range. destruct date_from, date_to; apply _. Defined.

Section Store.
Context (repr : option json -> pystr).
(** Whether the database checks the foreign key of the records; the clock and
    the next id. *)
Context (foreign_keys : bool) (now : DatasetDb -> time) (new_id : DatasetDb -> pystr).
Definition find_dataset (owner_user_id name : pystr) (db : DatasetDb) : option DatasetRow :=
  head (select_where (fun r => row_slot r = (owner_user_id, name)) (dd_datasets db)).
Definition to_dataset (r : DatasetRow) : Res Exn Dataset :=
  rbind (parse_schema repr (dw_schema r)) (fun schema =>
  Ok {| da_id := dw_id r; da_owner_user_id := dw_owner_user_id r; da_name := dw_name r; da_description := dw_description r;
        da_schema := schema; da_usage_notes := dw_usage_notes r; da_retention := dw_retention r; da_version := dw_version r;
        da_created_at := dw_created_at r; da_updated_at := dw_updated_at r |}).
Definition to_embedded_dataset (r : DatasetRow) : Res Exn EmbeddedDataset :=
  rbind (to_dataset r) (fun d => Ok {| ed_dataset := d; ed_embedding := dw_embedding r |}).
Definition store_create (owner_user_id name description : pystr) (schema : DatasetSchema) (usage_notes retention : pystr)
    (embedding : vector) : MD Dataset :=
  let! at_ := gets now in
  let! id := gets new_id in
  let row := {| dw_id := id; dw_owner_user_id := owner_user_id; dw_name := name; dw_description := description;
                dw_schema := dump_schema schema; dw_usage_notes := usage_notes; dw_retention := retention;
                dw_embedding := embedding; dw_version := FIRST_VERSION; dw_created_at := at_; dw_updated_at := at_ |} in
  let! db := get_st in
  if existsb (fun r => bool_decide (row_slot r = row_slot row \/ dw_id r = id)) (dd_datasets db)
  then raise (DatasetExistsError ("dataset '" +s+ name +s+ "' already exists"))
  else modify (fun db => set_dd_datasets (insert_row row (dd_datasets db)) db) ;;; lift (to_dataset row).
Definition store_get (owner_user_id name : pystr) : MD (option Dataset) :=
  let! found := gets (find_dataset owner_user_id name) in
  match found with
  | None => ret None
  | Some r => let! d := lift (to_dataset r) in ret (Some d)
  end.
Definition store_add_record (dataset_id owner_user_id : pystr) (payload : list (pystr * json)) : MD DatasetRecord :=
  let! at_ := gets now in
  let! id := gets new_id in
  let row := {| dc_id := id; dc_dataset_id := dataset_id; dc_owner_user_id := owner_user_id; dc_payload := payload; dc_created_at := at_ |} in
  let! db := get_st in
  if (foreign_keys && negb (existsb (fun r => bool_decide (dw_id r = dataset_id)) (dd_datasets db))) ||
     existsb (fun r => bool_decide (dc_id r = id)) (dd_records db)
  then raise IntegrityError
  else modify (fun db => set_dd_records (insert_row row (dd_records db)) db) ;;; ret row.
Definition store_delete (owner_user_id name : pystr) : MD (option Z) :=
  let! found := gets (find_dataset owner_user_id name) in
  match found with
  | None => ret None
  | Some row =>
      let! records_count := gets (fun db => Z.of_nat (rowcount (fun r => dc_dataset_id r = dw_id row) (dd_records db))) in
      modify (fun db => set_dd_records (delete_where (fun r => dc_dataset_id r = dw_id row) (dd_records db)) db) ;;;
      modify (fun db => set_dd_datasets (delete_where (fun r => dw_id r = dw_id row) (dd_datasets db)) db) ;;;
      ret (Some records_count)
  end.
Definition owned (owner_user_id : pystr) (db : DatasetDb) : list DatasetRow :=
  select_where (fun r => dw_owner_user_id r = owner_user_id) (dd_datasets db).
Definition store_list_with_embeddings (owner_user_id : pystr) : MD (list EmbeddedDataset) :=
  let! rows := gets (owned owner_user_id) in lift (each to_embedded_dataset rows).
Definition query_candidates (dataset_id : pystr) (date_from date_to : option time) (scan_limit : Z) : MD (list DatasetRecord) :=
  gets (fun db => first_of scan_limit (newest_first (select_where (fun r =>
    dc_dataset_id r = dataset_id /\ in_range date_from date_to r) (dd_records db)))).
(** *** Over descriptions ([pg_store.py], [sqlite_store.py]) *)
Context (relevance : pystr -> pystr -> float) (match_rank : pystr -> DatasetRow -> option float).
Definition best_rows (limit : Z) (scored : list (float * DatasetRow)) : list DatasetRow :=
  snd <$> first_of limit (stable_sort (fun a b => fltb a.1 b.1) scored).
Definition pg_search_by_text (owner_user_id query : pystr) (limit : Z) : MD (list EmbeddedDataset) :=
  if (limit <=? 0)%Z || str_empty (str_strip query) then ret []
  else
    let! rows := gets (fun db => best_rows limit (omap (fun r =>
      let s := relevance (dw_description r) query in if fltb s f_zero then Some (s, r) else None) (owned owner_user_id db))) in
    lift (each to_embedded_dataset rows).
Definition sqlite_search_by_text (owner_user_id query : pystr) (limit : Z) : MD (list EmbeddedDataset) :=
  match match_expression query with
  | None => ret []
  | Some expression =>
      if (limit <=? 0)%Z then ret []
      else
        let! ids := gets (fun db => dw_id <$> best_rows limit (omap (fun r => (fun s => (s, r)) <$> match_rank expression r)
                                                                (owned owner_user_id db))) in
        let! rows := gets (fun db => omap (fun key => find_key dw_id key (dd_datasets db)) ids) in
        lift (each to_embedded_dataset rows)
  end.
End Store.

(** ** Ranking ([datasets/ranking.py]) *)

Section Ranking.
Context (casefold : pystr -> pystr) (float_sum : list float -> float) (sqrt : float -> float).
Definition EXACT_NAME_BOOST : float := float_of_Z 2.
Definition norm_of (v : vector) : float := sqrt (float_sum ((fun x => fmul x x) <$> v)).
(** [zip(.., strict=True)] raises on vectors of two lengths. *)
Definition cosine_similarity (left right : vector) : Res Exn float :=
  if feqb (norm_of left) f_zero || feqb (norm_of right) f_zero then Ok ZERO_NORM_SIMILARITY
  else if negb (length left =? length right)%nat then Err (OtherError "ValueError")
  else Ok (fdiv (float_sum (zip_with fmul left right)) (fmul (norm_of left) (norm_of right))).
Definition exact_name (query : pystr) (d : Dataset) : bool := bool_decide (casefold (da_name d) = casefold query).
Definition score_dataset (query : pystr) (query_embedding : vector) (c : EmbeddedDataset) : Res Exn DatasetHit :=
  rbind (cosine_similarity query_embedding (ed_embedding c)) (fun s =>
  Ok {| dh_dataset := ed_dataset c; dh_score := if exact_name query (ed_dataset c) then fadd s EXACT_NAME_BOOST else s |}).
Definition sort_dataset_hits (l : list DatasetHit) : list DatasetHit :=
  stable_sort (fun a b => key_before (dh_score a, da_name (dh_dataset a)) (dh_score b, da_name (dh_dataset b))) l.
Definition rank_datasets (candidates : list EmbeddedDataset) (query : pystr) (query_embedding : vector) (k : Z) : Res Exn (list DatasetHit) :=
  if (k <=? 0)%Z then Ok []
  else rbind (each (score_dataset query query_embedding) candidates) (fun scored => Ok (first_of k (sort_dataset_hits scored))).
Definition dataset_tally : Type := (list (pystr * float)) * list (pystr * EmbeddedDataset).
Definition count_dataset (t : dataset_tally) (pc : Z * EmbeddedDataset) : dataset_tally :=
  let key := da_id (ed_dataset pc.2) in
  (dict_set key (fadd (default f_zero (dict_get key t.1)) (vote pc.1)) t.1,
   if bool_decide (is_Some (dict_get key t.2)) then t.2 else dict_set key pc.2 t.2).
Definition fuse_datasets (rankings : list (list EmbeddedDataset)) (query : pystr) (k : Z) : list DatasetHit :=
  if (k <=? 0)%Z then []
  else
    let t := foldl (fun t ranking => foldl count_dataset t (numbered ranking)) ([], []) rankings in
    first_of k (sort_dataset_hits ((fun kc =>
      {| dh_dataset := ed_dataset kc.2;
         dh_score := fadd (default f_zero (dict_get kc.1 t.1)) (if exact_name query (ed_dataset kc.2) then EXACT_NAME_BOOST else f_zero) |})
      <$> t.2)).
End Ranking.

(** ** The service ([datasets/service.py]) *)

(** [_embedded_text] *)
Definition dataset_text (name description usage_notes : pystr) : pystr := str_join newline [name; description; usage_notes].

Section Service.
Context (repr : option json -> pystr).
Context (foreign_keys : bool) (now : DatasetDb -> time) (new_id : DatasetDb -> pystr).
(** What others commit before the n-th call of the store; the embedder; the
    gate of the tariffs, when there is one. *)
Context (others : nat -> DatasetDb -> DatasetDb) (embed : list pystr -> MD (list vector)).
Context (max_datasets : option (pystr -> MD (option Z))).
(** The searches of the store, where it has them; Python's [==] on values. *)
Context (search_by_vector : option (pystr -> vector -> Z -> MD (list EmbeddedDataset))).
Context (search_by_text : option (pystr -> pystr -> Z -> MD (list EmbeddedDataset))).
Context (casefold : pystr -> pystr) (float_sum : list float -> float) (sqrt : float -> float).
Context (py_eq : json -> json -> bool).
Definition at_turn {A} (n : nat) (m : MD A) : MD A := modify (others n) ;;; m.

Definition check_quota (owner_user_id : pystr) : MD unit :=
  match max_datasets with
  | None => ret tt
  | Some limit =>
      let! cap := limit owner_user_id in
      match cap with
      | None => ret tt
      | Some cap =>
          let! existing := at_turn 0 (store_list_with_embeddings repr owner_user_id) in
          if (cap <=? Z.of_nat (length existing))%Z then raise (DatasetQuotaError cap) else ret tt
      end
  end.
Definition create_dataset (owner_user_id name description : pystr) (schema : DatasetSchema) (usage_notes retention : pystr) : MD Dataset :=
  check_quota owner_user_id ;;;
  let! embeddings := embed [dataset_text name description usage_notes] in
  let! embedding := the_only embeddings in
  at_turn 1 (store_create repr now new_id owner_user_id name description schema usage_notes retention embedding).
Definition get_dataset (owner_user_id name : pystr) : MD Dataset :=
  let! found := at_turn 2 (store_get repr owner_user_id name) in
  match found with None => raise (DatasetNotFoundError name) | Some d => ret d end.
Definition add_record (owner_user_id dataset_name : pystr) (payload : list (pystr * json)) : MD DatasetRecord :=
  let! found := at_turn 3 (store_get repr owner_user_id dataset_name) in
  match found with
  | None => raise (DatasetNotFoundError dataset_name)
  | Some d => at_turn 4 (store_add_record foreign_keys now new_id (da_id d) owner_user_id payload)
  end.
(** [type(a) is type(b)] of decoded values *)
Definition same_type (a b : json) : bool := bool_decide (type_name a = type_name b).
Definition matches_equals (payload equals : list (pystr * json)) : bool :=
  forallb (fun ke => match dict_get ke.1 payload with
                     | None => false
                     | Some value => same_type value ke.2 && py_eq value ke.2
                     end) equals.
(** [l[:n]]: a negative [n] counts from the end. *)
Definition upto {A} (n : Z) (l : list A) : list A := first_of (if (n <? 0)%Z then Z.of_nat (length l) + n else n) l.
Definition query_records (owner_user_id dataset_name : pystr) (equals : option (list (pystr * json)))
    (date_from date_to : option time) (limit : Z) : MD (list DatasetRecord) :=
  let! found := at_turn 5 (store_get repr owner_user_id dataset_name) in
  match found with
  | None => raise (DatasetNotFoundError dataset_name)
  | Some d =>
      let! candidates := at_turn 6 (query_candidates (da_id d) date_from date_to MAX_SCAN_ROWS) in
      ret (upto limit (match equals with
                           | Some (ke :: rest) => List.filter (fun r => matches_equals (dc_payload r) (ke :: rest)) candidates
                           | _ => candidates
                           end))
  end.
Definition delete_dataset (owner_user_id name : pystr) : MD Z :=
  let! records_count := at_turn 7 (store_delete owner_user_id name) in
  match records_count with None => raise (DatasetNotFoundError name) | Some n => ret n end.
Definition dataset_candidates (owner_user_id : pystr) (query_embedding : vector) (k : Z) : MD (list EmbeddedDataset) :=
  match search_by_vector with
  | Some search => search owner_user_id query_embedding k
  | None => store_list_with_embeddings repr owner_user_id
  end.
Definition search_datasets (owner_user_id query : pystr) (k : Z) : MD (list DatasetHit) :=
  if str_empty (str_strip query) then ret []
  else
    let! embeddings := embed [query] in
    let! query_embedding := the_only embeddings in
    let! candidates := at_turn 8 (dataset_candidates owner_user_id query_embedding k) in
    match search_by_text with
    | None => lift (rank_datasets casefold float_sum sqrt candidates query query_embedding k)
    | Some search =>
        let! lexical := at_turn 9 (search owner_user_id query k) in
        ret (fuse_datasets casefold [candidates; lexical] query k)
    end.

(** ** The tools ([datasets/tools.py]) *)

(** What [date.fromisoformat] and [datetime.fromisoformat] read: a day number;
    local microseconds with the offset of the zone, when it says one. *)
Context (date_fromisoformat : pystr -> option Z) (datetime_fromisoformat : pystr -> option (Z * option Z)).
Context (json_dumps : json -> pystr) (default_limit max_limit : Z) (user_id : pystr).
Abbreviation arguments := (list (pystr * json)) (only parsing).
Definition bad {A} (text : pystr) : MD A := raise (ToolArgumentsError text).
Definition CREATION_HINT (name : pystr) : pystr :=
  "dataset '" +s+ name +s+ "' does not exist and will be created: " +s+
  "'schema' (object with a 'fields' list) and 'description' (string) are required".
Definition CREATED_TEMPLATE (name record_id created_at : pystr) : pystr :=
  "dataset '" +s+ name +s+ "' created; record " +s+ record_id +s+ " added at " +s+ created_at.
Definition ADDED_TEMPLATE (name record_id created_at : pystr) : pystr :=
  "record " +s+ record_id +s+ " added to dataset '" +s+ name +s+ "' at " +s+ created_at.
Definition NOT_FOUND_TEMPLATE (name : pystr) : pystr := "dataset '" +s+ name +s+ "' not found".
Definition NO_RECORDS_TEMPLATE (name : pystr) : pystr := "no records in dataset '" +s+ name +s+ "'".
Definition HEADER_TEMPLATE (count : Z) (name : pystr) : pystr :=
  str_of_Z count +s+ " record(s) in dataset '" +s+ name +s+ "' (newest first):".
Definition DELETED_TEMPLATE (name : pystr) (count : Z) : pystr :=
  "dataset '" +s+ name +s+ "' deleted with " +s+ str_of_Z count +s+ " record(s)".
Definition dataset_name (raw : option json) : MD pystr :=
  match raw with
  | Some (JStr name) => if str_empty (str_strip name) then bad "dataset must be a non-empty string" else ret name
  | _ => bad "dataset must be a non-empty string"
  end.
Definition record_payload (raw : option json) : MD (list (pystr * json)) :=
  match raw with Some (JObj d) => ret d | _ => bad "record must be an object" end.
Definition creation_schema (raw : option json) : MD (option DatasetSchema) :=
  match raw with
  | None => ret None
  | Some raw =>
      try_except (let! schema := lift (parse_schema repr raw) in ret (Some schema))
        (fun e => match e with DatasetSchemaError text => bad ("invalid schema: " +s+ text) | _ => raise e end)
  end.
Definition optional_text (raw : option json) (name : pystr) : MD (option pystr) :=
  match raw with
  | None => ret None
  | Some (JStr text) => if str_empty (str_strip text) then bad (name +s+ " must be a non-empty string") else ret (Some text)
  | Some _ => bad (name +s+ " must be a non-empty string")
  end.
Definition equals_filter (raw : option json) : MD (option (list (pystr * json))) :=
  match raw with
  | None => ret None
  | Some (JObj d) => ret (Some d)
  | Some _ => bad "equals must be an object with string keys"
  end.
(** [_date_boundary]; an instant outside the years 1 to 9999 overflows. *)
Definition MIN_TIME : time := (-719162 * day_us)%Z.
Definition MAX_TIME : time := (2932897 * day_us - 1)%Z.
Definition date_boundary (raw : option json) (name : pystr) (end_of_day : bool) : MD (option time) :=
  match raw with
  | None => ret None
  | Some (JStr raw) =>
      let text := str_strip raw in
      if str_empty text then bad (name +s+ " must be an ISO date or datetime string")
      else
        match date_fromisoformat text with
        | Some day => ret (Some (if end_of_day then (day + 1) * day_us - 1 else day * day_us)%Z)
        | None =>
            match datetime_fromisoformat text with
            | None => bad (name +s+ " must be an ISO date or datetime string")
            | Some (local, None) => ret (Some local)
            | Some (local, Some offset) =>
                if (local - offset <? MIN_TIME)%Z || (MAX_TIME <? local - offset)%Z then raise (OtherError "OverflowError")
                else ret (Some (local - offset)%Z)
            end
        end
  | Some _ => bad (name +s+ " must be an ISO date or datetime string")
  end.
Definition parse_limit (raw : option json) : MD Z :=
  match raw with
  | None => ret default_limit
  | Some (JInt n) =>
      if (n <? 1)%Z || (max_limit <? n)%Z then bad ("limit must be between 1 and " +s+ str_of_Z max_limit) else ret n
  | Some _ => bad "limit must be an integer"
  end.
Definition record_line (r : DatasetRecord) : pystr :=
  json_dumps (JObj [("id", JStr (dc_id r)); ("created_at", JStr (format_iso (dc_created_at r))); ("payload", JObj (dc_payload r))]).
Definition ensure_dataset (args : arguments) (name : pystr) : MD (Dataset * bool) :=
  let! found := try_except (let! d := get_dataset user_id name in ret (Some d))
                  (fun e => match e with DatasetNotFoundError _ => ret None | _ => raise e end) in
  match found with
  | Some d => ret (d, false)
  | None =>
      let! schema := creation_schema (argument "schema" args) in
      let! description := optional_text (argument "description" args) "description" in
      match schema, description with
      | Some schema, Some description =>
          let! usage_notes := optional_text (argument "usage_notes" args) "usage_notes" in
          let! retention := optional_text (argument "retention" args) "retention" in
          let! d := try_except (create_dataset user_id name description schema (default "" usage_notes) (default "" retention))
                      (fun e => match e with DatasetExistsError _ => get_dataset user_id name | _ => raise e end) in
          ret (d, true)
      | _, _ => bad (CREATION_HINT name)
      end
  end.
Definition is_date (text : pystr) : bool := bool_decide (is_Some (date_fromisoformat text)).
Definition is_datetime (text : pystr) : bool := bool_decide (is_Some (datetime_fromisoformat text)).
Definition data_put (args : arguments) : MD pystr :=
  let! name := dataset_name (argument "dataset" args) in
  let! record := record_payload (argument "record" args) in
  let! ' (dataset, created) := ensure_dataset args name in
  try_except (lift (validate_record is_date is_datetime (da_schema dataset) record))
    (fun e => match e with
              | DatasetRecordValidationError violations =>
                  bad ("record does not match the schema of dataset '" +s+ name +s+ "': " +s+ str_join "; " violations)
              | _ => raise e
              end) ;;;
  let! added := add_record user_id name record in
  ret ((if created then CREATED_TEMPLATE else ADDED_TEMPLATE) name (dc_id added) (format_iso (dc_created_at added))).
Definition data_query (args : arguments) : MD pystr :=
  let! name := dataset_name (argument "dataset" args) in
  let! equals := equals_filter (argument "equals" args) in
  let! date_from := date_boundary (argument "date_from" args) "date_from" false in
  let! date_to := date_boundary (argument "date_to" args) "date_to" true in
  let! limit := parse_limit (argument "limit" args) in
  let! records := try_except (let! records := query_records user_id name equals date_from date_to limit in ret (Some records))
                    (fun e => match e with DatasetNotFoundError _ => ret None | _ => raise e end) in
  ret (match records with
       | None => NOT_FOUND_TEMPLATE name
       | Some [] => NO_RECORDS_TEMPLATE name
       | Some records => str_join newline (HEADER_TEMPLATE (Z.of_nat (length records)) name :: (record_line <$> records))
       end).
Definition data_forget (args : arguments) : MD pystr :=
  let! name := dataset_name (argument "dataset" args) in
  let! count := try_except (let! n := delete_dataset user_id name in ret (Some n))
                  (fun e => match e with DatasetNotFoundError _ => ret None | _ => raise e end) in
  ret (match count with None => NOT_FOUND_TEMPLATE name | Some n => DELETED_TEMPLATE name n end).
End Service.
