(* ===== verification/DatasetLaws.v ===== *)
(** * Laws of the datasets

    Schemas read back, records fit the schema of their dataset and stay their
    owner's, queries answer what they say, and creation keeps to the quota. *)
From S2P Require Import Prelude PyStr PyFloat Clock Sql Dict Domain UnitOfWork Ranking Instructions Datasets.

(** ** Schemas *)

(** What a schema of the code is: its names are not blank, and not repeated. *)
Record schema_ok (s : DatasetSchema) : Prop := {
  so_unique : NoDup (df_name <$> ds_fields s);
  so_named : Forall (fun f => str_empty (str_strip (df_name f)) = false) (ds_fields s) }.
Section Schemas.
Context (repr : option json -> pystr).
Lemma parse_dump_fields index l :
  Forall (fun f => str_empty (str_strip (df_name f)) = false) l -> parse_fields repr index (dump_field <$> l) = Ok l.
Proof using Type.
  intros H. revert index. induction H as [|[name type required] l Hn _ IH]; intros index; [done|]. cbn [df_name] in Hn.
  cbn [fmap list_fmap parse_fields].
  assert (Hf : parse_field repr index (dump_field {| df_name := name; df_type := type; df_required := required |}) =
    Ok {| df_name := name; df_type := type; df_required := required |}).
  { unfold parse_field, dump_field. cbn [df_name df_type df_required]. set (d := [_; _; _]).
    change (dict_get NAME_KEY d) with (Some (JStr name)). change (dict_get TYPE_KEY d) with (Some (JStr (FieldType.value type))).
    change (dict_get REQUIRED_KEY d) with (Some (JBool required)). cbn iota beta. rewrite Hn. by destruct type. }
  rewrite Hf. cbn [rbind]. by rewrite IH.
Qed.
Lemma parsed_fields index entries l :
  parse_fields repr index entries = Ok l -> Forall (fun f => str_empty (str_strip (df_name f)) = false) l.
Proof using Type.
  revert index l. induction entries as [|e entries IH]; intros index l H; [by injection H as <-|]. cbn in H.
  apply rbind_Ok in H as (f & Hf & H). apply rbind_Ok in H as (fs & Hfs & [= <-]). apply Forall_cons. split; [|by eapply IH].
  unfold parse_field in Hf. destruct e as [| | | | | |d]; try done. destruct (dict_get NAME_KEY d) as [[| | | |name| |]|]; try done.
  destruct (str_empty (str_strip name)) eqn:Hn; [done|]. apply rbind_Ok in Hf as (t & _ & Hf).
  destruct (default _ _); try done. by injection Hf as <-.
Qed.
Lemma parse_dump s : schema_ok s -> parse_schema repr (dump_schema s) = Ok s.
Proof using Type.
  intros [Hu Hn]. destruct s as [l]. unfold parse_schema, dump_schema. cbn [ds_fields] in *.
  change (dict_get FIELDS_KEY _) with (Some (JList (dump_field <$> l))). cbn iota beta. rewrite parse_dump_fields by done.
  cbn [rbind]. by rewrite decide_True.
Qed.
Lemma parsed_ok raw s : parse_schema repr raw = Ok s -> schema_ok s.
Proof using Type.
  intros H. unfold parse_schema in H. destruct raw as [| | | | | |d]; try done.
  destruct (dict_get FIELDS_KEY d) as [[| | | | |entries|]|]; try done. apply rbind_Ok in H as (l & Hl & H).
  case_decide as Hnd; [|done]. injection H as <-. split; [exact Hnd|by eapply parsed_fields].
Qed.
(** A schema that was read has names that are neither blank nor repeated; and such a schema reads back from what the table keeps of it. *)
Theorem schema_round_trip :
  (forall raw s, parse_schema repr raw = Ok s -> schema_ok s) /\ (forall s, schema_ok s -> parse_schema repr (dump_schema s) = Ok s).
Proof using Type. split; [exact parsed_ok|exact parse_dump]. Qed.
End Schemas.

(** ** The tables *)

Lemma filter_ext_in {A} (P Q : A -> Prop) `{!forall x, Decision (P x), !forall x, Decision (Q x)} (l : list A) :
  (forall x, x ∈ l -> (P x <-> Q x)) -> filter P l = filter Q l.
Proof.
  induction l as [|x l IH]; intros Hpq; [done|]. specialize (IH (fun y Hy => Hpq y (proj2 (elem_of_cons _ _ _) (or_intror Hy)))).
  rewrite !filter_cons. pose proof (Hpq x ltac:(by left)). destruct (decide (P x)), (decide (Q x)); [by f_equal|tauto|tauto|done].
Qed.

Section Laws.
Context (repr : option json -> pystr) (foreign_keys : bool) (now : DatasetDb -> time) (new_id : DatasetDb -> pystr).
Context (embed : list pystr -> MD (list vector)) (max_datasets : option (pystr -> MD (option Z))).
Context (py_eq : json -> json -> bool).
Context (date_fromisoformat : pystr -> option Z) (datetime_fromisoformat : pystr -> option (Z * option Z)).
Context (json_dumps : json -> pystr) (default_limit max_limit : Z).
(** What only looks. *)
Definition still {A} (m : MD A) : Prop := forall db, (m db).2 = db.
Hypothesis (Hembed : forall texts, still (embed texts)).
Hypothesis (Hcap : forall limit, max_datasets = Some limit -> forall u, still (limit u)).
Abbreviation alone := (fun (_ : nat) (db : DatasetDb) => db).
Abbreviation valid := (validate_record (is_date date_fromisoformat) (is_datetime datetime_fromisoformat)).

(** A record is of a dataset of its owner, and fits its schema. *)
Definition record_ok (datasets : list DatasetRow) (c : DatasetRecord) : Prop :=
  exists r s, r ∈ datasets /\ dw_id r = dc_dataset_id c /\ dw_owner_user_id r = dc_owner_user_id c /\
    dw_schema r = dump_schema s /\ schema_ok s /\ valid s (dc_payload c) = Ok tt.
Record db_ok (db : DatasetDb) : Prop := {
  bk_ids : NoDup (dw_id <$> dd_datasets db);
  bk_slots : NoDup (row_slot <$> dd_datasets db);
  bk_schemas : Forall (fun r => exists s, dw_schema r = dump_schema s /\ schema_ok s) (dd_datasets db);
  bk_record_ids : NoDup (dc_id <$> dd_records db);
  bk_records : Forall (record_ok (dd_datasets db)) (dd_records db) }.
Definition foreign (u : pystr) (db : DatasetDb) : list DatasetRow * list DatasetRecord :=
  (filter (fun r => dw_owner_user_id r <> u) (dd_datasets db), filter (fun c => dc_owner_user_id c <> u) (dd_records db)).

Lemma find_dataset_spec u name db :
  match find_dataset u name db with
  | Some r => r ∈ dd_datasets db /\ row_slot r = (u, name)
  | None => forall r, r ∈ dd_datasets db -> row_slot r <> (u, name)
  end.
Proof using Type.
  change (find_dataset u name db) with (find_key row_slot (u, name) (dd_datasets db)).
  destruct (find_key _ _ _) as [r|] eqn:Hf; [by apply find_key_Some in Hf|].
  apply find_key_None in Hf. by rewrite Forall_forall in Hf.
Qed.
Lemma row_of_dataset db r : db_ok db -> r ∈ dd_datasets db ->
  exists d, to_dataset repr r = Ok d /\ da_id d = dw_id r /\ da_name d = dw_name r /\ da_owner_user_id d = dw_owner_user_id r /\
    dw_schema r = dump_schema (da_schema d) /\ schema_ok (da_schema d).
Proof using Type.
  intros Hok Hr. pose proof (bk_schemas _ Hok) as Hs. rewrite Forall_forall in Hs. destruct (Hs r Hr) as (s & Hd & Hso).
  unfold to_dataset. rewrite Hd, parse_dump by done. eexists. split; [done|]. cbn. by split_and!.
Qed.
Lemma embedded_rows db l : db_ok db -> (forall r, r ∈ l -> r ∈ dd_datasets db) ->
  exists es, each (to_embedded_dataset repr) l = Ok es /\ length es = length l.
Proof using Type.
  intros Hok. induction l as [|r l IH]; intros Hl; [by exists []|]. destruct IH as (es & He & Hlen); [intros x Hx; apply Hl; by right|].
  destruct (row_of_dataset db r Hok (Hl r ltac:(by left))) as (d & Hd & _).
  exists ({| ed_dataset := d; ed_embedding := dw_embedding r |} :: es). cbn [each]. unfold to_embedded_dataset at 1. rewrite Hd. cbn [rbind]. rewrite He.
  cbn. by rewrite Hlen.
Qed.

(** *** Reasoning about the calls *)

Section Triples.
Context (u : pystr) (db0 : DatasetDb).
Definition J (db : DatasetDb) : Prop := db_ok db /\ foreign u db = foreign u db0.
Definition triple {A} (P : DatasetDb -> Prop) (m : MD A) (Q : A -> DatasetDb -> Prop) : Prop :=
  forall db, J db -> P db -> J (m db).2 /\ match (m db).1 with Ok a => Q a (m db).2 | Err _ => True end.
Lemma triple_bind {A B} P (m : MD A) (k : A -> MD B) Q R :
  triple P m Q -> (forall a, triple (Q a) (k a) R) -> triple P (bind m k) R.
Proof using Type.
  intros Hm Hk db HJ HP. destruct (Hm db HJ HP) as [H1 H2]. unfold bind. destruct (m db) as [[a|e] db1]; cbn in *; [by apply Hk|done].
Qed.
Lemma triple_still {A} P (m : MD A) : still m -> triple P m (fun _ => P).
Proof using Type. intros Hm db HJ HP. rewrite (Hm db). split; [done|]. destruct (m db).1; [exact HP|done]. Qed.
Lemma triple_ret {A} (a : A) (Q : A -> DatasetDb -> Prop) : triple (Q a) (ret a) Q.
Proof using Type. intros db HJ HQ. by split. Qed.
Lemma triple_raise {A} P e (Q : A -> DatasetDb -> Prop) : triple P (raise e) Q.
Proof using Type. intros db HJ HQ. by split. Qed.
Lemma triple_try {A} P (m : MD A) (h : Exn -> MD A) Q :
  triple P m Q -> (forall e, triple (fun _ => True) (h e) Q) -> triple P (try_except m h) Q.
Proof using Type.
  intros Hm Hh db HJ HP. destruct (Hm db HJ HP) as [H1 H2]. unfold try_except. destruct (m db) as [[a|e] db1]; cbn in *; [done|].
  by apply Hh.
Qed.
Lemma triple_weaken {A} (P P' : DatasetDb -> Prop) (m : MD A) (Q Q' : A -> DatasetDb -> Prop) :
  triple P m Q -> (forall db, P' db -> P db) -> (forall a db, Q a db -> Q' a db) -> triple P' m Q'.
Proof using Type.
  intros Hm HP HQ db HJ HP'. destruct (Hm db HJ (HP _ HP')) as [H1 H2]. split; [done|]. destruct (m db).1; [by apply HQ|done].
Qed.
Lemma triple_fact {A} (F : Prop) P (m : MD A) Q : (F -> triple P m Q) -> triple (fun db => P db /\ F) m Q.
Proof using Type. intros Hm db HJ [HP HF]. by apply Hm. Qed.
(** A dataset of the user, as it is in the table. *)
Definition stored (name : pystr) (d : Dataset) (db : DatasetDb) : Prop :=
  exists r, find_dataset u name db = Some r /\ to_dataset repr r = Ok d.
Lemma triple_get name : triple (fun _ => True) (get_dataset repr alone u name) (stored name).
Proof using Type.
  intros db HJ _. unfold get_dataset, at_turn, store_get, bind, modify, gets, lift, ret. cbn.
  destruct (find_dataset u name db) as [r|] eqn:Hf; cbn; [|by split]. destruct (to_dataset repr r) as [d|e] eqn:Hd; cbn; [|by split].
  split; [done|]. by exists r.
Qed.
Lemma triple_quota : triple (fun _ => True) (check_quota repr alone max_datasets u) (fun _ _ => True).
Proof using Hcap.
  eapply triple_weaken; [apply (triple_still (fun _ => True))|done|done]. intros db. unfold check_quota.
  destruct max_datasets as [limit|] eqn:Hm; [|done]. unfold bind at 1. pose proof (Hcap limit eq_refl u db) as Hl.
  destruct (limit u db) as [[[cap|]|e] db1]; cbn in Hl; subst db1; [|done|done].
  unfold at_turn, bind, modify, store_list_with_embeddings, gets, lift. cbn. destruct (each _ _); [|done]. cbn. by destruct (cap <=? _)%Z.
Qed.
Lemma J_put_row r :
  dw_owner_user_id r = u -> (exists s, dw_schema r = dump_schema s /\ schema_ok s) ->
  forall db, J db -> row_slot r ∉ row_slot <$> dd_datasets db -> dw_id r ∉ dw_id <$> dd_datasets db ->
  J (set_dd_datasets (insert_row r (dd_datasets db)) db).
Proof using Type.
  intros Ho Hs db [[H1 H2 H3 H4 H5] Hf] Hn1 Hn2. split; [split; unfold set_dd_datasets, insert_row; cbn|].
  - rewrite fmap_app. apply NoDup_app. split_and!; [done| |apply NoDup_singleton]. by intros x Hx ->%list_elem_of_singleton.
  - rewrite fmap_app. apply NoDup_app. split_and!; [done| |apply NoDup_singleton]. by intros x Hx ->%list_elem_of_singleton.
  - apply Forall_app. split; [done|]. by repeat constructor.
  - done.
  - eapply Forall_impl; [exact H5|]. intros c (r' & s & Hr & Hrest). exists r', s. split; [|done]. apply elem_of_app. by left.
  - rewrite <- Hf. unfold foreign, set_dd_datasets, insert_row. cbn. f_equal. rewrite filter_app.
    rewrite (filter_cons_False _ r) by (intros Hn; by apply Hn). by rewrite filter_nil, app_nil_r.
Qed.
Definition created (name description : pystr) (schema : DatasetSchema) (usage_notes retention : pystr) (v : vector) (db : DatasetDb) : DatasetRow :=
  {| dw_id := new_id db; dw_owner_user_id := u; dw_name := name; dw_description := description; dw_schema := dump_schema schema;
     dw_usage_notes := usage_notes; dw_retention := retention; dw_embedding := v; dw_version := FIRST_VERSION;
     dw_created_at := now db; dw_updated_at := now db |}.
Lemma store_create_run name description schema usage_notes retention v db :
  store_create repr now new_id u name description schema usage_notes retention v db =
  let row := created name description schema usage_notes retention v db in
  if existsb (fun r => bool_decide (row_slot r = row_slot row \/ dw_id r = dw_id row)) (dd_datasets db)
  then (Err (DatasetExistsError ("dataset '" +s+ name +s+ "' already exists")), db)
  else (to_dataset repr row, set_dd_datasets (insert_row row (dd_datasets db)) db).
Proof using Type. cbn zeta. unfold store_create, bind, gets, get_st. fold (created name description schema usage_notes retention v db). by destruct (existsb _ _). Qed.
Lemma triple_create name description schema usage_notes retention :
  schema_ok schema ->
  triple (fun _ => True) (create_dataset repr now new_id alone embed max_datasets u name description schema usage_notes retention)
    (fun d db => stored name d db).
Proof using Hcap Hembed.
  intros Hs. unfold create_dataset. eapply triple_bind; [apply triple_quota|]. intros [].
  eapply triple_bind; [apply triple_still, Hembed|]. intros es. eapply triple_bind.
  { eapply triple_weaken; [apply (triple_still (fun _ => True))|done|done]. intros db. by destruct es as [|? []]. }
  intros v db HJ _. unfold at_turn, bind, modify. rewrite store_create_run. cbn zeta.
  set (row := created _ _ _ _ _ _ _). destruct (existsb _ (dd_datasets db)) eqn:He; [by split|].
  assert (Hnone : forall r, r ∈ dd_datasets db -> row_slot r <> row_slot row /\ dw_id r <> dw_id row).
  { intros r Hr. apply not_true_iff_false in He. rewrite existsb_exists in He.
    split; intros Heq; apply He; exists r; (split; [by apply list_elem_of_In|]); apply bool_decide_eq_true; [by left|by right]. }
  assert (HJ' : J (set_dd_datasets (insert_row row (dd_datasets db)) db)).
  { apply J_put_row; [done|by exists schema|done| |]; intros (r & Hrr & Hr)%list_elem_of_fmap; destruct (Hnone r Hr) as [N1 N2]; [by apply N1|by apply N2]. }
  cbn [fst snd]. split; [done|]. destruct (to_dataset repr row) as [d|e] eqn:Hd; [|done]. exists row. split; [|done].
  pose proof (find_dataset_spec u name (set_dd_datasets (insert_row row (dd_datasets db)) db)) as Hf.
  assert (Hin : row ∈ dd_datasets (set_dd_datasets (insert_row row (dd_datasets db)) db)) by (apply elem_of_app; right; by left).
  destruct (find_dataset u name _) as [r|]; [|by exfalso; apply (Hf row)]. destruct Hf as [Hr Hrs]. f_equal.
  apply (key_inj row_slot (dd_datasets (set_dd_datasets (insert_row row (dd_datasets db)) db))); [apply HJ'|done|done|done].
Qed.
Definition added (d : Dataset) (payload : list (pystr * json)) (db : DatasetDb) : DatasetRecord :=
  {| dc_id := new_id db; dc_dataset_id := da_id d; dc_owner_user_id := u; dc_payload := payload; dc_created_at := now db |}.
Lemma store_get_run name db r d :
  find_dataset u name db = Some r -> to_dataset repr r = Ok d -> store_get repr u name db = (Ok (Some d), db).
Proof using Type. intros Hf Hd. unfold store_get, bind, gets, lift. rewrite Hf. cbn iota. by rewrite Hd. Qed.
Lemma store_add_run d payload db :
  store_add_record foreign_keys now new_id (da_id d) u payload db =
  let row := added d payload db in
  if (foreign_keys && negb (existsb (fun r => bool_decide (dw_id r = da_id d)) (dd_datasets db))) ||
     existsb (fun r => bool_decide (dc_id r = dc_id row)) (dd_records db)
  then (Err IntegrityError, db) else (Ok row, set_dd_records (insert_row row (dd_records db)) db).
Proof using Type. cbn zeta. unfold store_add_record, bind, gets, get_st. fold (added d payload db). by destruct (_ || _). Qed.
Lemma triple_add_record name d payload records :
  valid (da_schema d) payload = Ok tt ->
  triple (fun db => stored name d db /\ dd_records db = records) (add_record repr foreign_keys now new_id alone u name payload)
    (fun c db => stored name d db /\ dd_records db = records ++ [c] /\ dc_payload c = payload /\ dc_dataset_id c = da_id d).
Proof using Type.
  intros Hv db HJ ((r & Hf & Hd) & <-). pose proof HJ as [[H1 H2 H3 H4 H5] Hfor].
  unfold add_record, at_turn, bind, modify. rewrite (store_get_run _ _ _ _ Hf Hd). cbn iota. rewrite store_add_run. cbn zeta.
  set (row := added _ _ _). destruct (_ || _) eqn:He; [by split|]. apply orb_false_iff in He as [_ He]. cbn [fst snd].
  pose proof (find_dataset_spec u name db) as Hs. rewrite Hf in Hs. destruct Hs as [Hr Hrs]. injection Hrs as Ho Hn.
  pose proof Hd as Hd'. unfold to_dataset in Hd'. apply rbind_Ok in Hd' as (s & Hp & [= <-]). cbn in *.
  rewrite Forall_forall in H3. destruct (H3 r Hr) as (s' & Hsd & Hso). rewrite Hsd, parse_dump in Hp by done. injection Hp as ->.
  split; [|split_and!; [by exists r|done|done|done]].
  split; [split; unfold set_dd_records, insert_row; cbn; try done|].
  - rewrite Forall_forall. exact H3.
  - rewrite fmap_app. apply NoDup_app. split_and!; [done| |apply NoDup_singleton]. intros x Hx ->%list_elem_of_singleton.
    apply list_elem_of_fmap in Hx as (c & Hc & Hin). apply not_true_iff_false in He. rewrite existsb_exists in He. apply He. exists c.
    split; [by apply list_elem_of_In|]. by apply bool_decide_eq_true.
  - apply Forall_app. split; [done|]. apply Forall_singleton. exists r, s. by split_and!.
  - rewrite <- Hfor. unfold foreign, set_dd_records, insert_row. cbn. f_equal. rewrite filter_app.
    rewrite (filter_cons_False _ row) by (intros Hneq; by apply Hneq). by rewrite filter_nil, app_nil_r.
Qed.
Lemma find_dataset_own name db r : find_dataset u name db = Some r -> r ∈ dd_datasets db /\ dw_owner_user_id r = u.
Proof using Type. intros Hf. pose proof (find_dataset_spec u name db) as H. rewrite Hf in H. destruct H as [? [= ? ?]]. done. Qed.
Lemma store_delete_run name db :
  store_delete u name db =
  match find_dataset u name db with
  | None => (Ok None, db)
  | Some row => (Ok (Some (Z.of_nat (rowcount (fun r => dc_dataset_id r = dw_id row) (dd_records db)))),
                 {| dd_datasets := filter (fun r => dw_id r <> dw_id row) (dd_datasets db);
                    dd_records := filter (fun c => dc_dataset_id c <> dw_id row) (dd_records db) |})
  end.
Proof using Type. unfold store_delete, bind, gets. by destruct (find_dataset u name db). Qed.
Lemma J_delete row db :
  J db -> row ∈ dd_datasets db -> dw_owner_user_id row = u ->
  J {| dd_datasets := filter (fun r => dw_id r <> dw_id row) (dd_datasets db);
       dd_records := filter (fun c => dc_dataset_id c <> dw_id row) (dd_records db) |}.
Proof using Type.
  intros [[H1 H2 H3 H4 H5] Hf] Hr Ho. rewrite Forall_forall in H5. split; [split; cbn|].
  - eapply sublist_NoDup; [exact H1|]. apply fmap_sublist, sublist_filter.
  - eapply sublist_NoDup; [exact H2|]. apply fmap_sublist, sublist_filter.
  - by apply Forall_filter_keep.
  - eapply sublist_NoDup; [exact H4|]. apply fmap_sublist, sublist_filter.
  - apply Forall_forall. intros c [Hc Hin]%list_elem_of_filter. destruct (H5 c Hin) as (r & s & Hrr & Hid & Hrest).
    exists r, s. split_and!; try done; try apply Hrest. apply list_elem_of_filter. split; [congruence|done].
  - rewrite <- Hf. unfold foreign. cbn. f_equal; rewrite list_filter_filter.
    + apply filter_ext_in. intros r Hin. split; [by intros [? _]|]. intros Hn. split; [done|]. intros Hid. apply Hn. rewrite <- Ho.
      f_equal. by apply (key_inj dw_id (dd_datasets db)).
    + apply filter_ext_in. intros c Hin. split; [by intros [? _]|]. intros Hn. split; [done|]. intros Hid. apply Hn.
      destruct (H5 c Hin) as (r & s & Hrr & Hrid & Hown & _). rewrite <- Hown, <- Ho. f_equal.
      apply (key_inj dw_id (dd_datasets db)); congruence.
Qed.
Lemma triple_delete name :
  triple (fun _ => True) (delete_dataset alone u name) (fun _ _ => True).
Proof using Type.
  intros db HJ _. unfold delete_dataset, at_turn, bind, modify. rewrite store_delete_run.
  destruct (find_dataset u name db) as [row|] eqn:Hf; cbn; [|by split]. apply find_dataset_own in Hf as [Hr Ho].
  split; [by apply J_delete|done].
Qed.
Lemma still_raise {A} (e : Exn) : still (raise (A:=A) e).
Proof using Type. done. Qed.
Lemma still_ret {A} (a : A) : still (ret a).
Proof using Type. done. Qed.
Lemma still_lift {A} (r : Res Exn A) : still (lift r).
Proof using Type. done. Qed.
Lemma still_bind {A B} (m : MD A) (k : A -> MD B) : still m -> (forall a, still (k a)) -> still (bind m k).
Proof using Type. intros Hm Hk db. unfold bind. specialize (Hm db). destruct (m db) as [[a|e] db1]; cbn in *; subst; [apply Hk|done]. Qed.
Lemma still_try {A} (m : MD A) h : still m -> (forall e, still (h e)) -> still (try_except m h).
Proof using Type. intros Hm Hh db. unfold try_except. specialize (Hm db). destruct (m db) as [[a|e] db1]; cbn in *; subst; [done|apply Hh]. Qed.
Lemma still_turn {A} n (m : MD A) : still m -> still (at_turn alone n m).
Proof using Type. intros Hm db. apply Hm. Qed.
(** The parsers of arguments. *)
Lemma still_name raw : still (dataset_name raw).
Proof using Type. intros db. destruct raw as [[]|]; try done. cbn. by destruct (str_empty _). Qed.
Lemma still_payload raw : still (record_payload raw).
Proof using Type. by destruct raw as [[]|]. Qed.
Lemma still_schema raw : still (creation_schema repr raw).
Proof using Type. destruct raw as [raw|]; [|done]. apply still_try; [by apply still_bind|]. by intros []. Qed.
Lemma still_text raw name : still (optional_text raw name).
Proof using Type. intros db. destruct raw as [[]|]; try done. cbn. by destruct (str_empty _). Qed.
Lemma still_equals raw : still (equals_filter raw).
Proof using Type. by destruct raw as [[]|]. Qed.
Lemma still_date raw name eod : still (date_boundary date_fromisoformat datetime_fromisoformat raw name eod).
Proof using Type.
  intros db. destruct raw as [[]|]; try done. unfold date_boundary. destruct (str_empty _); [done|]. destruct (date_fromisoformat _); [done|].
  destruct (datetime_fromisoformat _) as [[local [offset|]]|]; try done. by destruct (_ || _).
Qed.
Lemma still_limit raw : still (parse_limit default_limit max_limit raw).
Proof using Type. intros db. destruct raw as [[]|]; try done. cbn. by destruct (_ || _). Qed.
Lemma triple_still_true {A} P (m : MD A) (Q : A -> DatasetDb -> Prop) : still m -> (forall a db, P db -> Q a db) -> triple P m Q.
Proof using Type. intros Hm HQ. eapply triple_weaken; [by apply (triple_still P)|done|done]. Qed.
Lemma triple_schema raw :
  triple (fun _ => True) (creation_schema repr raw) (fun s _ => match s with Some s => schema_ok s | None => True end).
Proof using Type.
  intros db HJ _. rewrite (still_schema raw db). split; [done|].
  destruct raw as [raw|]; [|done]. unfold creation_schema, try_except, bind, lift.
  destruct (parse_schema repr raw) as [s|e] eqn:Hp; [by apply parsed_ok in Hp|]. cbn. by destruct e.
Qed.
Lemma triple_ensure args name :
  triple (fun _ => True) (ensure_dataset repr now new_id alone embed max_datasets u args name) (fun dc db => stored name dc.1 db).
Proof using Hcap Hembed.
  unfold ensure_dataset.
  eapply (triple_bind _ _ _ (fun d db => match d with Some d => stored name d db | None => True end)).
  { apply triple_try; [|intros []; try apply triple_raise; intros db HJ _; by split].
    eapply triple_bind; [apply triple_get|]. intros d. apply (triple_ret (Some d) (fun d db => match d with Some d => stored name d db | None => True end)). }
  intros [d|]; [apply (triple_ret (d, false) (fun dc db => stored name dc.1 db))|].
  eapply triple_bind; [apply triple_schema|]. intros schema. eapply triple_bind; [apply triple_still, still_text|]. intros description.
  destruct schema as [schema|]; [|apply triple_raise]. destruct description as [description|]; [|apply triple_raise].
  eapply triple_bind; [apply triple_still, still_text|]. intros usage_notes. eapply triple_bind; [apply triple_still, still_text|]. intros retention.
  apply (triple_weaken (fun _ => True /\ schema_ok schema) _ _ (fun dc db => stored name dc.1 db)); [apply triple_fact|by intros db Hs|done].
  intros Hs. eapply (triple_bind _ _ _ (stored name)).
  - apply triple_try; [by apply triple_create|]. intros []; try apply triple_raise. apply triple_get.
  - intros d. apply (triple_ret (d, true) (fun dc db => stored name dc.1 db)).
Qed.
(** What leaves the records alone. *)
Definition keeps_records {A} (m : MD A) : Prop := forall db, dd_records (m db).2 = dd_records db.
Lemma keeps_still {A} (m : MD A) : still m -> keeps_records m.
Proof using Type. intros Hm db. by rewrite (Hm db). Qed.
Lemma keeps_bind {A B} (m : MD A) (k : A -> MD B) : keeps_records m -> (forall a, keeps_records (k a)) -> keeps_records (bind m k).
Proof using Type.
  intros Hm Hk db. unfold bind. specialize (Hm db). destruct (m db) as [[a|e] db1]; cbn in *; [by rewrite (Hk a db1)|done].
Qed.
Lemma keeps_try {A} (m : MD A) h : keeps_records m -> (forall e, keeps_records (h e)) -> keeps_records (try_except m h).
Proof using Type.
  intros Hm Hh db. unfold try_except. specialize (Hm db). destruct (m db) as [[a|e] db1]; cbn in *; [done|by rewrite (Hh e db1)].
Qed.
Lemma still_get name : still (get_dataset repr alone u name).
Proof using Type.
  apply still_bind.
  - apply still_turn, still_bind; [done|]. intros [r|]; [apply still_bind; [apply still_lift|done]|done].
  - by intros [d|].
Qed.
Lemma still_quota : still (check_quota repr alone max_datasets u).
Proof using Hcap.
  unfold check_quota. destruct max_datasets as [limit|] eqn:Hm; [|done]. apply still_bind; [by apply Hcap|]. intros [cap|]; [|done].
  apply still_bind; [|intros l; by destruct (_ <=? _)%Z]. apply still_turn, still_bind; [done|]. intros l. apply still_lift.
Qed.
Lemma create_keeps name description schema usage_notes retention :
  keeps_records (create_dataset repr now new_id alone embed max_datasets u name description schema usage_notes retention).
Proof using Hcap Hembed.
  apply keeps_bind; [apply keeps_still, still_quota|]. intros []. apply keeps_bind; [apply keeps_still, Hembed|]. intros es.
  apply keeps_bind; [apply keeps_still; intros db; by destruct es as [|? []]|]. intros v db. unfold at_turn, bind, modify. rewrite store_create_run.
  cbn zeta. by destruct (existsb _ _).
Qed.
(** A dataset is made exactly when there is none; the records stay. *)
Lemma ensure_run args name db dc db1 :
  db_ok db -> ensure_dataset repr now new_id alone embed max_datasets u args name db = (Ok dc, db1) ->
  dd_records db1 = dd_records db /\ dc.2 = bool_decide (find_dataset u name db = None).
Proof using Hcap Hembed.
  intros Hok. unfold ensure_dataset. intros H. apply bind_result in H as (found & db2 & Hfound & H).
  assert (db2 = db /\ bool_decide (find_dataset u name db = None) = match found with Some _ => false | None => true end) as [-> Hnone].
  { unfold try_except, bind at 1 in Hfound. unfold get_dataset, at_turn, bind, modify, store_get, gets, lift in Hfound. cbn in Hfound.
    unfold bind in Hfound. cbn in Hfound.
    destruct (find_dataset u name db) as [r|] eqn:Hf; cbn in Hfound; [|injection Hfound as <- <-; split; [done|by apply bool_decide_eq_true]].
    apply find_dataset_own in Hf as [Hr _]. destruct (row_of_dataset db r Hok Hr) as (d & Hd & _). rewrite Hd in Hfound. cbn in Hfound.
    injection Hfound as <- <-. by split. }
  rewrite Hnone. destruct found as [d|]; [by injection H as <- <-|].
  apply bind_result in H as (schema & db2 & H1 & H). pose proof (still_schema (argument "schema" args) db) as E. rewrite H1 in E. cbn in E. subst db2.
  apply bind_result in H as (description & db2 & H2 & H). pose proof (still_text (argument "description" args) "description" db) as E. rewrite H2 in E. cbn in E. subst db2.
  destruct schema as [schema|]; [|done]. destruct description as [description|]; [|done].
  apply bind_result in H as (usage_notes & db2 & H3 & H). pose proof (still_text (argument "usage_notes" args) "usage_notes" db) as E. rewrite H3 in E. cbn in E. subst db2.
  apply bind_result in H as (retention & db2 & H4 & H). pose proof (still_text (argument "retention" args) "retention" db) as E. rewrite H4 in E. cbn in E. subst db2.
  apply bind_result in H as (d & db2 & H5 & H). injection H as <- <-. split; [|done].
  pose proof (keeps_try _ (fun e => match e with DatasetExistsError _ => get_dataset repr alone u name | _ => raise e end)
    (create_keeps name description schema (default "" usage_notes) (default "" retention)) ltac:(intros []; try done; apply keeps_still, still_get) db) as E.
  by rewrite H5 in E.
Qed.
Definition put_text (name : pystr) (made : bool) (c : DatasetRecord) : pystr :=
  (if made then CREATED_TEMPLATE else ADDED_TEMPLATE) name (dc_id c) (format_iso (dc_created_at c)).
Lemma triple_put db1 args :
  triple (eq db1) (data_put repr foreign_keys now new_id alone embed max_datasets date_fromisoformat datetime_fromisoformat u args)
    (fun text db => exists name payload d c, argument "dataset" args = Some (JStr name) /\ argument "record" args = Some (JObj payload) /\
       stored name d db /\ dd_records db = dd_records db1 ++ [c] /\ dc_payload c = payload /\ dc_dataset_id c = da_id d /\
       text = put_text name (bool_decide (find_dataset u name db1 = None)) c).
Proof using Hcap Hembed.
  unfold data_put.
  eapply (triple_bind _ _ _ (fun name db => db1 = db /\ argument "dataset" args = Some (JStr name))).
  { intros db HJ Hdb. rewrite (still_name _ db). split; [done|]. destruct (argument "dataset" args) as [[]|]; try done. cbn. by destruct (str_empty _). }
  intros name. eapply (triple_bind _ _ _ (fun payload db => db1 = db /\ argument "dataset" args = Some (JStr name) /\ argument "record" args = Some (JObj payload))).
  { intros db HJ [Hdb Hn]. rewrite (still_payload _ db). split; [done|]. by destruct (argument "record" args) as [[]|]. }
  intros record. apply triple_fact. intros [Hname Hrecord].
  eapply (triple_bind _ _ _ (fun dc db => (stored name dc.1 db /\ dd_records db = dd_records db1) /\ dc.2 = bool_decide (find_dataset u name db1 = None))).
  { intros db HJ <-. destruct (triple_ensure args name db1 HJ I) as [HJ' Hpost]. split; [done|].
    destruct (ensure_dataset _ _ _ _ _ _ u args name db1) as [[dc|e] db2] eqn:E; [|done]. cbn in *. apply ensure_run in E as [? ?]; [done|apply HJ]. }
  intros [d made]. cbn [fst snd]. apply triple_fact. intros ->.
  eapply (triple_bind _ _ _ (fun _ db => (stored name d db /\ dd_records db = dd_records db1) /\ valid (da_schema d) record = Ok tt)).
  - intros db HJ Hs. unfold try_except, lift. destruct (valid (da_schema d) record) as [[]|e]; cbn; [done|]. by destruct e.
  - intros []. apply triple_fact. intros Hv. eapply triple_bind; [by apply triple_add_record|]. intros c.
    intros db HJ (Hc1 & Hc2 & Hc3 & Hc4). split; [done|]. by exists name, record, d, c.
Qed.
End Triples.
Section Service.
Context (search_by_vector : option (pystr -> vector -> Z -> MD (list EmbeddedDataset))).
Context (search_by_text : option (pystr -> pystr -> Z -> MD (list EmbeddedDataset))).
Context (casefold : pystr -> pystr) (float_sum : list float -> float) (sqrt : float -> float).
Hypothesis (Hvector : forall search, search_by_vector = Some search -> forall u v k, still (search u v k)).
Hypothesis (Htext : forall search, search_by_text = Some search -> forall u q k, still (search u q k)).
(** What a user asks of the datasets. *)
Inductive call :=
| CreateDataset (name description : pystr) (schema : DatasetSchema) (usage_notes retention : pystr)
| DataPut (args : list (pystr * json))
| DataQuery (args : list (pystr * json))
| DataForget (args : list (pystr * json))
| SearchDatasets (query : pystr) (k : Z).
Definition run (u : pystr) (c : call) : MD unit :=
  match c with
  | CreateDataset name description schema usage_notes retention =>
      create_dataset repr now new_id alone embed max_datasets u name description schema usage_notes retention ;;; ret tt
  | DataPut args =>
      data_put repr foreign_keys now new_id alone embed max_datasets date_fromisoformat datetime_fromisoformat u args ;;; ret tt
  | DataQuery args =>
      data_query repr alone py_eq date_fromisoformat datetime_fromisoformat json_dumps default_limit max_limit u args ;;; ret tt
  | DataForget args => data_forget alone u args ;;; ret tt
  | SearchDatasets query k =>
      search_datasets repr alone embed search_by_vector search_by_text casefold float_sum sqrt u query k ;;; ret tt
  end.
Lemma query_still u name equals date_from date_to limit : still (query_records repr alone py_eq u name equals date_from date_to limit).
Proof using Type.
  unfold query_records. apply still_bind.
  - apply still_turn. unfold store_get. apply still_bind; [done|]. intros [r|]; [|done]. apply still_bind; [apply still_lift|done].
  - intros [d|]; [|done]. by apply still_bind.
Qed.
Lemma triple_done {A} u db0 (m : MD A) Q : triple u db0 (fun _ => True) m Q -> triple u db0 (fun _ => True) (m ;;; ret tt) (fun _ _ => True).
Proof using Type. intros Hm. eapply triple_bind; [exact Hm|]. intros a. by apply triple_still_true. Qed.
(** C34: Whatever a user asks, one call at a time, each record stays one of an existing dataset of its owner and fits that dataset's schema, names stay unique for an owner and schemas readable; and nothing of anybody else changes. *)
Theorem datasets_stay_sane u c db :
  match c with CreateDataset _ _ schema _ _ => schema_ok schema | _ => True end -> db_ok db ->
  db_ok (run u c db).2 /\ foreign u (run u c db).2 = foreign u db.
Proof using Hcap Hembed Hvector Htext.
  intros Hc Hok. enough (Ht : triple u db (fun _ => True) (run u c) (fun _ _ => True)) by (destruct (Ht db) as [[H1 H2] _]; [by split|done|by split]).
  destruct c as [name description schema usage_notes retention|args|args|args|query k]; cbn [run].
  - eapply triple_done. by apply triple_create.
  - apply (triple_done _ _ _ (fun _ _ => True)). intros db1 HJ _. destruct (triple_put u db db1 args db1 HJ eq_refl) as [HJ' _]. split; [exact HJ'|].
    by destruct (data_put _ _ _ _ _ _ _ _ _ u args db1).1.
  - apply (triple_done _ _ _ (fun _ _ => True)). apply triple_still_true with (P := fun _ => True); [|done]. unfold data_query. apply still_bind; [apply still_name|intros name].
    apply still_bind; [apply still_equals|intros equals]. apply still_bind; [apply still_date|intros date_from].
    apply still_bind; [apply still_date|intros date_to]. apply still_bind; [apply still_limit|intros limit].
    apply still_bind; [|done]. apply still_try; [|by intros []]. apply still_bind; [apply query_still|done].
  - apply (triple_done _ _ _ (fun _ _ => True)). unfold data_forget. eapply triple_bind; [apply triple_still, still_name|]. intros name.
    eapply (triple_bind _ _ _ _ _ (fun _ _ => True)); [|intros n; by apply triple_still_true].
    apply triple_try; [|intros []; try apply triple_raise; by apply triple_still_true].
    eapply triple_bind; [apply triple_delete|]. intros n. by apply triple_still_true.
  - apply (triple_done _ _ _ (fun _ _ => True)). apply triple_still_true with (P := fun _ => True); [|done]. unfold search_datasets. destruct (str_empty _); [done|].
    apply still_bind; [apply Hembed|intros es]. apply still_bind; [by destruct es as [|? []]|intros v].
    apply still_bind; [|intros candidates].
    + apply still_turn. unfold dataset_candidates. destruct search_by_vector as [search|]; [by apply (Hvector search)|].
      apply still_bind; [done|intros rows; apply still_lift].
    + destruct search_by_text as [search|]; [|apply still_lift]. apply still_bind; [by apply still_turn, (Htext search)|done].
Qed.
End Service.

(** *** What a query answers *)

Definition fits (r : DatasetRow) (equals : option (list (pystr * json))) (date_from date_to : option time) (c : DatasetRecord) : Prop :=
  dc_dataset_id c = dw_id r /\ in_range date_from date_to c /\ matches_equals py_eq (dc_payload c) (default [] equals) = true.
Definition latest_first (l : list DatasetRecord) : Prop := sorted_by (fun c => (- dc_created_at c)%Z) l.
Lemma list_filter_sublist {A} (f : A -> bool) l : sublist (List.filter f l) l.
Proof using Type. induction l as [|x l IH]; cbn; [constructor|]. destruct (f x); by constructor. Qed.
Lemma newest_sorted l : latest_first (newest_first l).
Proof using Type. apply order_by_sorted. Qed.
Lemma newest_perm l : newest_first l ≡ₚ l.
Proof using Type. unfold newest_first. by rewrite order_by_perm, <- Permutation_rev, order_by_str_perm. Qed.
Lemma query_run u name equals date_from date_to limit db r :
  db_ok db -> find_dataset u name db = Some r -> (0 <= limit)%Z ->
  exists all, query_records repr alone py_eq u name equals date_from date_to limit db = (Ok (take (Z.to_nat limit) all), db) /\
    all = List.filter (fun c => matches_equals py_eq (dc_payload c) (default [] equals))
            (first_of MAX_SCAN_ROWS (newest_first (select_where (fun c => dc_dataset_id c = dw_id r /\ in_range date_from date_to c) (dd_records db)))).
Proof using Type.
  intros Hok Hf Hl. eexists. split; [|done]. pose proof (find_dataset_spec u name db) as Hs. rewrite Hf in Hs. destruct Hs as [Hr _].
  destruct (row_of_dataset db r Hok Hr) as (d & Hd & Hid & _).
  unfold query_records, at_turn, bind, modify. rewrite (store_get_run u _ _ _ _ Hf Hd). unfold query_candidates, gets, ret. rewrite Hid.
  set (l := first_of MAX_SCAN_ROWS _).
  assert (He : match equals with Some (ke :: rest) => List.filter (fun c => matches_equals py_eq (dc_payload c) (ke :: rest)) l | _ => l end =
    List.filter (fun c => matches_equals py_eq (dc_payload c) (default [] equals)) l).
  { destruct equals as [[|ke rest]|]; cbn [default]; [|done|]; clear; (induction l as [|x l IH]; [done|]); cbn; f_equal; exact IH. }
  cbn beta iota. rewrite He. unfold upto, first_of. by rewrite (proj2 (Z.ltb_ge limit 0) Hl).
Qed.
(** A query answers, the latest first and [limit] at most, records of the owner's dataset in the range of dates whose fields equal those asked for; as long as a scan covers the range, it leaves out such a record only when it has [limit] of them that are as late; and it asks nothing of anybody else. *)
Theorem query_answers u name equals date_from date_to limit db :
  db_ok db -> (0 <= limit)%Z ->
  let '(answer, db') := query_records repr alone py_eq u name equals date_from date_to limit db in
  db' = db /\
  match find_dataset u name db with
  | None => answer = Err (DatasetNotFoundError name)
  | Some r => exists l, answer = Ok l /\
      Forall (fun c => c ∈ dd_records db /\ fits r equals date_from date_to c) l /\ latest_first l /\ (Z.of_nat (length l) <= limit)%Z /\
      ((Z.of_nat (rowcount (fun c => dc_dataset_id c = dw_id r /\ in_range date_from date_to c) (dd_records db)) <= MAX_SCAN_ROWS)%Z ->
       forall c, c ∈ dd_records db -> fits r equals date_from date_to c ->
         c ∈ l \/ Z.of_nat (length l) = limit /\ Forall (fun c' => (dc_created_at c <= dc_created_at c')%Z) l)
  end.
Proof using Type.
  intros Hok Hl. destruct (find_dataset u name db) as [r|] eqn:Hf.
  2:{ unfold query_records, at_turn, bind, modify, store_get, bind, gets. cbn beta. by rewrite Hf. }
  destruct (query_run u name equals date_from date_to limit db r Hok Hf Hl) as (all & Hq & Hall). rewrite Hq. split; [done|].
  exists (take (Z.to_nat limit) all). split; [done|].
  set (S := select_where _ _) in Hall. set (scan := first_of MAX_SCAN_ROWS (newest_first S)) in Hall.
  assert (Hin : forall c, c ∈ all -> c ∈ dd_records db /\ fits r equals date_from date_to c).
  { intros c Hc. rewrite Hall in Hc. apply list_elem_of_In, filter_In in Hc as [Hc Hm]. apply list_elem_of_In in Hc.
    apply first_of_in in Hc. rewrite newest_perm in Hc. apply elem_of_select in Hc as [[H1 H2] H3]. by split_and!. }
  assert (Hsorted : latest_first all).
  { eapply sorted_by_sublist; [apply (newest_sorted S)|]. rewrite Hall. etransitivity; [apply list_filter_sublist|]. apply sublist_take. }
  split_and!.
  - apply Forall_forall. intros c Hc. apply Hin. by apply (subseteq_take (Z.to_nat limit) all).
  - eapply sorted_by_sublist; [exact Hsorted|apply sublist_take].
  - rewrite length_take. lia.
  - intros Hscan c Hc (H1 & H2 & H3).
    assert (Hca : c ∈ all).
    { rewrite Hall. apply list_elem_of_In, filter_In. split; [|done]. apply list_elem_of_In. unfold scan, first_of.
      rewrite take_ge; [rewrite newest_perm; by apply elem_of_select|]. rewrite newest_perm. unfold rowcount in Hscan. unfold S, select_where. lia. }
    rewrite <- (take_drop (Z.to_nat limit) all) in Hca. apply elem_of_app in Hca as [Hca|Hca]; [by left|right].
    assert (Hlen : length (take (Z.to_nat limit) all) = Z.to_nat limit).
    { rewrite length_take. apply Nat.min_l. destruct (decide (Z.to_nat limit <= length all)%nat) as [|Hn]; [done|].
      rewrite drop_ge in Hca by lia. by apply not_elem_of_nil in Hca. }
    split; [lia|]. apply sorted_by_strong in Hsorted. rewrite <- (take_drop (Z.to_nat limit) all) in Hsorted.
    apply Forall_forall. intros c' Hc'. pose proof (StronglySorted_app_1_elem_of _ _ _ _ _ Hsorted Hc' Hca) as Hle. cbn in Hle. lia.
Qed.

(** *** Putting and creating *)

(** C35: When [data_put] answers, one record was added and no other changed: it has a new identifier, the payload asked for, the user and the dataset of that name; the answer names that dataset, whether it was just created, the identifier and the time of that very record; and a query of the dataset answers it, as long as the dataset has no more records than a query scans and is asked for. *)
Theorem put_is_read_back u args db db' text limit :
  db_ok db -> data_put repr foreign_keys now new_id alone embed max_datasets date_fromisoformat datetime_fromisoformat u args db = (Ok text, db') ->
  exists name payload r c, argument "dataset" args = Some (JStr name) /\ argument "record" args = Some (JObj payload) /\
    find_dataset u name db' = Some r /\ dd_records db' = dd_records db ++ [c] /\ (dc_id c ∉ dc_id <$> dd_records db) /\
    dc_payload c = payload /\ dc_owner_user_id c = u /\ dc_dataset_id c = dw_id r /\
    text = (if bool_decide (find_dataset u name db = None) then CREATED_TEMPLATE else ADDED_TEMPLATE) name (dc_id c) (format_iso (dc_created_at c)) /\
    let total := Z.of_nat (rowcount (fun c => dc_dataset_id c = dw_id r) (dd_records db')) in
    ((total <= MAX_SCAN_ROWS)%Z -> (total <= limit)%Z ->
     exists l, query_records repr alone py_eq u name None None None limit db' = (Ok l, db') /\ c ∈ l).
Proof using Hcap Hembed.
  intros Hok Hrun. destruct (triple_put u db db args db) as [[Hok' _] Hpost]; [by split|done|]. rewrite Hrun in Hok', Hpost. cbn [fst snd] in *.
  destruct Hpost as (name & payload & d & c & Hn & Hr & (r & Hf & Hd) & Hc & Hp & Hid & Htext). exists name, payload, r, c.
  destruct (find_dataset_own u name db' r Hf) as [Hrin Hown]. destruct (row_of_dataset db' r Hok' Hrin) as (d' & Hd' & Hdid & _).
  assert (d' = d) as -> by congruence. assert (Hcin : c ∈ dd_records db') by (rewrite Hc; apply elem_of_app; right; by left).
  split_and!; [done|done|done|done| |done| |congruence|done|].
  - pose proof (bk_record_ids _ Hok') as Hnd. rewrite Hc, fmap_app in Hnd. apply NoDup_app in Hnd as (_ & Hnd & _).
    intros Hin. apply (Hnd _ Hin). by left.
  - pose proof (bk_records _ Hok') as Hrec. rewrite Forall_forall in Hrec. destruct (Hrec c Hcin) as (r' & _ & Hr' & Hi & Ho & _).
    rewrite <- Ho, <- Hown. f_equal. apply (key_inj dw_id (dd_datasets db')); [apply Hok'|done|done|congruence].
  - set (total := Z.of_nat _). intros Hscan Hlimit. destruct (query_run u name None None None limit db' r Hok' Hf) as (all & Hq & Hall); [lia|].
    exists (take (Z.to_nat limit) all). split; [done|].
    set (S := select_where _ _) in Hall. assert (HS : Z.of_nat (length S) = total).
    { unfold total, rowcount, S, select_where. do 2 f_equal. apply filter_ext_in. intros x _. unfold in_range. tauto. }
    assert (Hperm : all ≡ₚ S).
    { rewrite Hall. unfold first_of. rewrite take_ge by (rewrite newest_perm; lia).
      rewrite <- (newest_perm S) at 2. generalize (newest_first S). intros l. by induction l as [|x l IH]; [|cbn; rewrite IH]. }
    rewrite take_ge by (rewrite Hperm; lia). rewrite Hperm. apply elem_of_select. split; [|done]. split; [congruence|by split].
Qed.
(** With a cap on a user's datasets, a creation that returns has added one within the cap, and one that raises has added none; at the cap it is the quota that refuses. *)
Theorem quota_is_kept u limit cap name description schema usage_notes retention db :
  db_ok db -> schema_ok schema -> max_datasets = Some limit -> (limit u db).1 = Ok (Some cap) ->
  let '(r, db') := create_dataset repr now new_id alone embed max_datasets u name description schema usage_notes retention db in
  match r with
  | Ok _ => Z.of_nat (length (owned u db')) = (Z.of_nat (length (owned u db)) + 1)%Z /\ (Z.of_nat (length (owned u db')) <= cap)%Z
  | Err e => db' = db /\ ((cap <= Z.of_nat (length (owned u db)))%Z -> e = DatasetQuotaError cap)
  end.
Proof using Hcap Hembed.
  intros Hok Hs Hmax Hlimit. pose proof (Hcap limit Hmax u db) as Hstill.
  assert (Hq : check_quota repr alone max_datasets u db =
    (if (cap <=? Z.of_nat (length (owned u db)))%Z then Err (DatasetQuotaError cap) else Ok tt, db)).
  { unfold check_quota. rewrite Hmax. unfold bind at 1. destruct (limit u db) as [[o|e] db1]; cbn in Hlimit, Hstill; [|done].
    injection Hlimit as ->. subst db1. unfold at_turn, bind, modify, store_list_with_embeddings, bind, gets, lift. cbn beta iota.
    destruct (embedded_rows db (owned u db) Hok) as (es & He & Hlen); [intros r Hr; by apply elem_of_select in Hr as [_ Hr]|].
    rewrite He. cbn beta iota. rewrite Hlen. by destruct (_ <=? _)%Z. }
  unfold create_dataset, bind at 1. rewrite Hq. destruct (Z.leb_spec cap (Z.of_nat (length (owned u db)))) as [Hc|Hc]; [by split|].
  set (text := dataset_text _ _ _). pose proof (Hembed [text] db) as He. unfold bind at 1. destruct (embed [text] db) as [[es|e] db1]; cbn in He; subst db1.
  2:{ split; [done|]. lia. }
  unfold bind at 1, the_only. destruct es as [|v [|? ?]]; try (split; [done|lia]). unfold ret at 1, at_turn, bind, modify. cbn beta iota.
  rewrite store_create_run. cbn zeta. destruct (existsb _ _); [split; [done|lia]|].
  set (row := created _ _ _ _ _ _ _ _). destruct (to_dataset repr row) as [d|e] eqn:Hd.
  - unfold owned, select_where, set_dd_datasets, insert_row. cbn [dd_datasets]. rewrite filter_app, filter_cons_True, filter_nil by done.
    rewrite length_app. cbn. unfold owned, select_where in Hc. lia.
  - exfalso. unfold to_dataset, row, created in Hd. cbn [dw_schema] in Hd. by rewrite parse_dump in Hd.
Qed.
End Laws.
