(* ===== verification/InstructionTools.v ===== *)
(** * The tools over instructions and memories ([instructions/tools.py], [memory/tools.py])

    [recall] searches the instructions and the datasets at once,
    [instruction_save] and [instruction_delete] write a user's own records,
    [memory_store] and [memory_delete] their memories, within the plan's size. *)
From S2P Require Import Prelude PyStr PyFloat Clock Sql Dict Domain UnitOfWork Tariffs Ranking Instructions InstructionService InstructionLaws Datasets.

Definition MAX_K : Z := 20.
Definition DATASET_SNIPPET_CHARS : Z := 300.
Definition MAX_OUTPUT_CHARS : Z := 8000.
Definition NO_HITS_MESSAGE : pystr := "no matching instructions or datasets".
Definition TRUNCATED_MESSAGE (omitted : Z) : pystr :=
  "... output truncated: " +s+ str_of_Z omitted +s+ " more hit(s) not shown " +s+ "— refine the query or lower k".
Definition SAVED_TEMPLATE (kind title : pystr) (version : Z) : pystr :=
  "instruction saved: [" +s+ kind +s+ "] " +s+ title +s+ " (version " +s+ str_of_Z version +s+ ")".
Definition DELETED_MESSAGE : pystr := "instruction deleted".
Definition NOT_FOUND_MESSAGE : pystr := "instruction not found (only your own records can be deleted)".
Definition STORED_TEMPLATE (key : pystr) (version : Z) : pystr :=
  "memory stored (key=" +s+ key +s+ ", version=" +s+ str_of_Z version +s+ ")".
Definition MEMORY_LIMIT_REFUSAL_TEMPLATE (projected limit : Z) : pystr :=
  "cannot store: this would take the memory to " +s+ str_of_Z projected +s+ " of the plan's " +s+ str_of_Z limit +s+
  " characters. Delete something via memory_delete, shorten the content, or upgrade to a bigger plan.".
Definition MEMORY_DELETED_TEMPLATE (key : pystr) : pystr := "memory '" +s+ key +s+ "' deleted".
Definition MEMORY_NOT_FOUND_TEMPLATE (key : pystr) : pystr := "memory '" +s+ key +s+ "' not found".

(** ** The text of a result *)

(** [_render]: the lines so far, their length, the number of the next body. *)
Fixpoint render_loop (lines : list pystr) (length index total : Z) (bodies : list pystr) : list pystr :=
  match bodies with
  | [] => lines
  | body :: bodies =>
      let numbered := str_of_Z index +s+ ". " +s+ body in
      if negb (bool_decide (lines = [])) && (MAX_OUTPUT_CHARS <? length + str_len numbered + 1)%Z
      then lines ++ [TRUNCATED_MESSAGE (total - index + 1)]
      else render_loop (lines ++ [numbered]) (length + (str_len numbered + 1)) (index + 1) total bodies
  end.
Definition render (bodies : list pystr) : pystr := str_join newline (render_loop [] 0 1 (Z.of_nat (length bodies)) bodies).
Definition instruction_body (h : SearchHit) : pystr :=
  let i := sh_instruction h in
  str_join newline
    ["[" +s+ InstructionType.value (in_type i) +s+ "] " +s+ in_title i;
     "   id: " +s+ in_id i;
     "   tags: " +s+ (match in_tags i with [] => "-" | tags => str_join ", " tags end);
     in_content i].
(** [_snippet] *)
Definition snippet (content : pystr) : pystr :=
  str_take DATASET_SNIPPET_CHARS (PyStr ((fun c => if (c =? 10)%N then 32%N else c) <$> codes content)).
Definition dataset_body (h : DatasetHit) : pystr :=
  let d := dh_dataset h in
  let field_names := str_join ", " (df_name <$> ds_fields (da_schema d)) in
  str_join newline
    ["[dataset] " +s+ da_name d;
     "   fields: " +s+ (if str_empty field_names then "-" else field_names);
     "   " +s+ snippet (da_description d)].

Section Tools.
Context (repr : option json -> pystr).
Context (policy : InstructionSearchPolicy).
Context (others : nat -> list InstructionRow -> list InstructionRow).
Context (embed : list pystr -> M ServiceState Exn (list vector)).
Context (now : ServiceState -> time) (new_id : ServiceState -> pystr).
(** [InstructionService.search], and that of the datasets where there are some;
    [LimitGate.max_memory_chars], when there is a gate. *)
Context (search : pystr -> pystr -> Z -> option InstructionType.t -> M ServiceState Exn (list SearchHit)).
Context (datasets : option (pystr -> pystr -> Z -> M ServiceState Exn (list DatasetHit))).
Context (limits : option (pystr -> M ServiceState Exn (option Z))).
Context (default_k : Z) (user_id : pystr) (enabled_features : option (gset pystr)).
Abbreviation arguments := (list (pystr * json)) (only parsing).
Abbreviation MS := (M ServiceState Exn) (only parsing).
Definition bad {A} (text : pystr) : MS A := raise (ToolArgumentsError text).
Definition non_empty (raw : option json) (name : pystr) : MS pystr :=
  match raw with
  | Some (JStr text) => if str_empty (str_strip text) then bad (name +s+ " must be a non-empty string") else ret text
  | _ => bad (name +s+ " must be a non-empty string")
  end.
Definition parse_k (raw : option json) : MS Z :=
  match raw with
  | None => ret default_k
  | Some (JInt k) => if (k <? 1)%Z || (MAX_K <? k)%Z then bad ("k must be between 1 and " +s+ str_of_Z MAX_K) else ret k
  | Some _ => bad "k must be an integer"
  end.
(** [InstructionType(str(raw))]: only a string spells one. *)
Definition parse_kind (raw : option json) : MS InstructionType.t :=
  match raw ≫= (fun v => json_str (Some v) ≫= InstructionType.parse) with
  | Some kind => ret kind
  | None => bad ("unsupported instruction type: " +s+ repr raw)
  end.
Definition parse_optional_kind (raw : option json) : MS (option InstructionType.t) :=
  match raw with None => ret None | Some _ => let! kind := parse_kind raw in ret (Some kind) end.
Fixpoint texts (l : list json) : option (list pystr) :=
  match l with
  | [] => Some []
  | JStr s :: l => (fun r => s :: r) <$> texts l
  | _ => None
  end.
(** [_parse_tags], [_tags] *)
Definition parse_tags (raw : option json) : MS (list pystr) :=
  match raw with
  | None => ret []
  | Some (JList l) => match texts l with Some tags => ret tags | None => bad "tags must be an array of strings" end
  | Some _ => bad "tags must be an array of strings"
  end.
(** [InstructionSearchTool.execute]: the two searches of the [gather] share
    nothing; the first to raise is what it raises. *)
Definition recall (args : arguments) : MS pystr :=
  let! query := non_empty (argument "query" args) "query" in
  let! k := parse_k (argument "k" args) in
  let! kind := parse_optional_kind (argument "type" args) in
  let! hits := search user_id query k kind in
  let! dataset_hits := match datasets with None => ret [] | Some search => search user_id query k end in
  let bodies := (instruction_body <$> hits) ++ (dataset_body <$> dataset_hits) in
  ret (match bodies with [] => NO_HITS_MESSAGE | _ => render (first_of k bodies) end).
(** [InstructionSaveTool.execute] *)
Definition SKILL_CREATE : pystr := FeatureCode.value FeatureCode.SKILL_CREATE.
Definition instruction_save (args : arguments) : MS pystr :=
  let! kind := parse_kind (argument "type" args) in
  if bool_decide (kind = InstructionType.MEMORY) then bad "personal memories are saved with memory_store, not here"
  else if bool_decide (kind = InstructionType.SKILL) && negb (feature_enabled enabled_features SKILL_CREATE)
  then ret (feature_refusal SKILL_CREATE)
  else
    let! title := non_empty (argument "title" args) "title" in
    let! content := non_empty (argument "content" args) "content" in
    let! tags := parse_tags (argument "tags" args) in
    let! i := save policy others embed now new_id user_id kind title content tags in
    ret (SAVED_TEMPLATE (InstructionType.value (in_type i)) (in_title i) (in_version i)).
(** [InstructionDeleteTool.execute] *)
Definition not_found_as {A} (text : pystr) (m : MS A) (k : A -> MS pystr) : MS pystr :=
  let! found := try_except (let! a := m in ret (Some a))
                  (fun e => match e with InstructionNotFoundError _ => ret None | _ => raise e end) in
  match found with None => ret text | Some a => k a end.
Definition instruction_delete (args : arguments) : MS pystr :=
  let! instruction_id := non_empty (argument "id" args) "id" in
  not_found_as NOT_FOUND_MESSAGE (delete user_id instruction_id) (fun _ => ret DELETED_MESSAGE).

(** ** Memories *)

(** [_find_own], [_own_content_length] *)
Definition find_own (key : pystr) : MS (option Instruction) :=
  let! found := try_except (let! r := get_by_name key (Some InstructionType.MEMORY) (Some user_id) in ret (Some r))
                  (fun e => match e with InstructionNotFoundError _ => ret None | _ => raise e end) in
  ret (match found with Some r => if bool_decide (in_owner_id r = Some user_id) then Some r else None | None => None end).
Definition own_content_length (key : pystr) : MS Z :=
  let! record := find_own key in ret (match record with Some r => str_len (in_content r) | None => 0%Z end).
Definition over_the_cap (key content : pystr) : MS (option pystr) :=
  match limits with
  | None => ret None
  | Some max_memory_chars =>
      let! cap := max_memory_chars user_id in
      match cap with
      | None => ret None
      | Some cap =>
          let! used := memory_chars user_id in
          let! replaced := own_content_length key in
          let projected := (used - replaced + str_len content)%Z in
          ret (if (projected <=? cap)%Z then None else Some (MEMORY_LIMIT_REFUSAL_TEMPLATE projected cap))
      end
  end.
(** [MemoryStoreTool.execute] *)
Definition memory_store (args : arguments) : MS pystr :=
  let! key := non_empty (argument "key" args) "key" in
  let! content := non_empty (argument "content" args) "content" in
  let! tags := parse_tags (argument "tags" args) in
  let! refusal := over_the_cap key content in
  match refusal with
  | Some refusal => ret refusal
  | None =>
      let! record := save policy others embed now new_id user_id InstructionType.MEMORY key content tags in
      ret (STORED_TEMPLATE (in_title record) (in_version record))
  end.
(** [MemoryDeleteTool.execute] *)
Definition memory_delete (args : arguments) : MS pystr :=
  let! key := non_empty (argument "key" args) "key" in
  let! record := find_own key in
  match record with
  | None => ret (MEMORY_NOT_FOUND_TEMPLATE key)
  | Some r => not_found_as (MEMORY_NOT_FOUND_TEMPLATE key) (delete user_id (in_id r)) (fun _ => ret (MEMORY_DELETED_TEMPLATE key))
  end.
End Tools.

(** ** Laws *)

(** *** The text of a result *)

Definition numbered_bodies (index : Z) (bodies : list pystr) : list pystr :=
  imap (fun i body => str_of_Z (index + Z.of_nat i) +s+ ". " +s+ body) bodies.
(** The characters of some lines, each with its line break. *)
Definition size (lines : list pystr) : Z := foldr (fun l n => str_len l + 1 + n)%Z 0%Z lines.
Lemma size_app l k : size (l ++ k) = (size l + size k)%Z.
Proof. induction l as [|x l IH]; cbn; [done|]. unfold size in *. lia. Qed.
Lemma numbered_cons index body bodies :
  numbered_bodies index (body :: bodies) = (str_of_Z index +s+ ". " +s+ body) :: numbered_bodies (index + 1) bodies.
Proof.
  unfold numbered_bodies. cbn [imap]. rewrite Z.add_0_r. f_equal. apply imap_ext. intros i x _. cbn. do 2 f_equal. lia.
Qed.
Lemma render_loop_spec lines index total bodies :
  lines <> [] ->
  exists n, (n <= length bodies)%nat /\
    render_loop lines (size lines) index total bodies =
      lines ++ numbered_bodies index (take n bodies) ++
      (if (n =? length bodies)%nat then [] else [TRUNCATED_MESSAGE (total - (index + Z.of_nat n) + 1)]) /\
    (n <> 0%nat -> (size (lines ++ numbered_bodies index (take n bodies)) <= MAX_OUTPUT_CHARS)%Z).
Proof.
  revert lines index. induction bodies as [|body bodies IH]; intros lines index Hne; [exists 0%nat; cbn; by rewrite !app_nil_r|].
  cbn [render_loop]. rewrite bool_decide_eq_false_2 by done. cbn [negb andb].
  destruct (Z.ltb_spec MAX_OUTPUT_CHARS (size lines + str_len (str_of_Z index +s+ ". " +s+ body) + 1)) as [Hm|Hm].
  - exists 0%nat. cbn. rewrite Z.add_0_r. by split_and!; [lia| |].
  - set (line := str_of_Z index +s+ ". " +s+ body) in *.
    assert (Hsize : (size lines + (str_len line + 1))%Z = size (lines ++ [line])) by (rewrite size_app; cbn; lia).
    rewrite Hsize. destruct (IH (lines ++ [line]) (index + 1)%Z) as (n & Hn & Heq & Hle); [by destruct lines|].
    exists (S n). split_and!; [cbn; lia| |].
    + rewrite Heq. cbn [take]. rewrite numbered_cons. fold line. rewrite <- !app_assoc. cbn [app length]. do 3 f_equal.
      replace (S n =? S (length bodies))%nat with (n =? length bodies)%nat by done. destruct (n =? length bodies)%nat; [done|]. do 2 f_equal. lia.
    + intros _. cbn [take]. rewrite numbered_cons. fold line. destruct n as [|n]; [|rewrite <- app_assoc in Hle; by apply Hle].
      change (size (lines ++ [line]) <= MAX_OUTPUT_CHARS)%Z. rewrite <- Hsize. lia.
Qed.
(** A result shows its hits in order, numbered from one, the first one whole; it leaves out the tail that would take it over the size of an output, says how many are left out, and only the first hit may be longer than that size. *)
Theorem render_fits body bodies :
  exists n, (n <= length bodies)%nat /\
    let shown := numbered_bodies 1 (body :: take n bodies) in
    render (body :: bodies) = str_join newline (shown ++
      (if (n =? length bodies)%nat then [] else [TRUNCATED_MESSAGE (Z.of_nat (length bodies - n))])) /\
    (n <> 0%nat -> (size shown <= MAX_OUTPUT_CHARS)%Z).
Proof.
  unfold render. cbn [render_loop]. rewrite bool_decide_eq_true_2 by done. cbn [negb andb app].
  set (line := str_of_Z 1 +s+ ". " +s+ body). replace (0 + (str_len line + 1))%Z with (size [line]) by (cbn; lia).
  destruct (render_loop_spec [line] (1 + 1) (Z.of_nat (length (body :: bodies))) bodies ltac:(done)) as (n & Hn & Heq & Hle).
  exists n. split; [done|]. rewrite Heq. rewrite numbered_cons. fold line. cbn [app] in *. split; [|done]. do 3 f_equal.
  destruct (Nat.eqb_spec n (length bodies)); [done|]. do 2 f_equal. cbn [length]. lia.
Qed.

(** *** The size of a memory *)

Definition chars (l : list InstructionRow) : Z := foldr (fun r n => str_len (ro_content r) + n)%Z 0%Z l.
Lemma memory_total_chars u t : InstructionStore.memory_total u t = chars (filter (InstructionStore.memory_of u) t).
Proof. done. Qed.
Lemma chars_app l k : chars (l ++ k) = (chars l + chars k)%Z.
Proof. induction l as [|x l IH]; cbn; [done|]. unfold chars in *. lia. Qed.
Lemma chars_replaced (P : InstructionRow -> Prop) `{!forall r, Decision (P r)} r new t :
  NoDup (ro_id <$> t) -> r ∈ t -> P r -> P new ->
  chars (filter P (replaced r new t)) = (chars (filter P t) - str_len (ro_content r) + str_len (ro_content new))%Z.
Proof.
  unfold replaced, update_where. set (g := fun x => if decide (ro_id x = ro_id r) then new else x).
  induction t as [|x t IH]; intros Hnd Hr HP Hn; [by apply not_elem_of_nil in Hr|].
  rewrite !fmap_cons in *. apply NoDup_cons in Hnd as [Hx Hnd]. apply elem_of_cons in Hr as [<-|Hr].
  - assert (Ht : g <$> t = t).
    { clear -Hx. induction t as [|y t IH]; [done|]. rewrite fmap_cons in *. apply not_elem_of_cons in Hx as [Hy Hx].
      unfold g at 1. rewrite decide_False by congruence. f_equal. by apply IH. }
    rewrite Ht. unfold g. rewrite decide_True by done. rewrite !filter_cons, (decide_True (P := P new)), (decide_True (P := P r)) by done.
    cbn. lia.
  - assert (Hne : ro_id x <> ro_id r) by (intros He; apply Hx; rewrite He; by apply list_elem_of_fmap_2).
    specialize (IH Hnd Hr HP Hn). unfold g at 1. rewrite decide_False by done. rewrite !filter_cons. destruct (decide (P x)); [|exact IH].
    cbn. cbn in IH. unfold chars in IH. lia.
Qed.
(** The characters a write of that key releases. *)
Definition released (u key : pystr) (t : list InstructionRow) : Z :=
  match InstructionStore.find_row InstructionType.MEMORY key (Some u) t with Some r => str_len (ro_content r) | None => 0 end.
Lemma memory_upserted u key now id d t :
  store_ok t -> dr_kind d = InstructionType.MEMORY -> dr_title d = key -> dr_owner_id d = Some u ->
  InstructionStore.memory_total u (upserted now id d t) = (InstructionStore.memory_total u t - released u key t + str_len (dr_content d))%Z /\
  forall v, v <> u -> InstructionStore.memory_total v (upserted now id d t) = InstructionStore.memory_total v t.
Proof.
  intros Hok Hk Ht Ho. rewrite !memory_total_chars. split.
  - unfold upserted, released. rewrite Hk, Ht, Ho. pose proof (slot_row_spec InstructionType.MEMORY key (Some u) t) as Hf.
    destruct (InstructionStore.find_row _ _ _ t) as [r|].
    + destruct Hf as [Hr [= H1 H2 H3]]. rewrite chars_replaced; [done|apply Hok|done|by split|]. by split.
    + rewrite filter_app, filter_cons_True, filter_nil, chars_app; [cbn; lia|]. by split.
  - intros v Hv. rewrite !memory_total_chars. f_equal. apply upserted_others; [apply Hok| |].
    + intros r _ [= H1 H2 H3]. rewrite Ho in H3. unfold InstructionStore.memory_of. cbn. rewrite H3. split; intros [_ [=]]; done.
    + unfold InstructionStore.memory_of. cbn. rewrite Ho. intros [_ [=]]. done.
Qed.
Section Laws.
Context (policy : InstructionSearchPolicy) (embed : list pystr -> M ServiceState Exn (list vector)).
Context (now : ServiceState -> time) (new_id : ServiceState -> pystr) (gate : pystr -> M ServiceState Exn (option Z)).
Hypothesis (Hembed : forall texts, quiet (embed texts)) (Hnew : forall s, new_id s ∉ ro_id <$> ss_rows s).
Hypothesis (Hgate : forall u, quiet (gate u)).
Abbreviation store := (memory_store policy (fun _ t => t) embed now new_id (Some gate)).
Lemma find_own_run u key s :
  store_ok (ss_rows s) ->
  find_own u key s = (Ok (to_instruction <$> InstructionStore.find_row InstructionType.MEMORY key (Some u) (ss_rows s)), s).
Proof using Type.
  intros Hok. destruct s as [t pending]. cbn [ss_rows] in *. unfold find_own, bind, try_except, get_by_name, bind, on_rows. cbn [ss_rows ss_pending_bumps].
  rewrite get_by_title_spec by done. cbn [ss_rows ss_pending_bumps].
  pose proof (slot_row_spec InstructionType.MEMORY key (Some u) t) as Hf.
  destruct (InstructionStore.find_row _ _ (Some u) t) as [r|].
  - destruct Hf as [Hr [= H1 H2 H3]]. cbn. by rewrite H3, bool_decide_eq_true_2.
  - cbn [fmap option_fmap option_map]. rewrite get_by_title_spec by done. cbn [ss_rows ss_pending_bumps].
    pose proof (slot_row_spec InstructionType.MEMORY key None t) as Hp.
    destruct (InstructionStore.find_row _ _ None t) as [p|]; [|done]. exfalso. destruct Hp as [Hp [= H1 H2 H3]].
    pose proof (ok_memory _ Hok) as Hm. rewrite Forall_forall in Hm. by apply (Hm p).
Qed.
Lemma over_the_cap_run u key content cap s :
  store_ok (ss_rows s) -> (gate u s).1 = Ok (Some cap) ->
  let projected := (InstructionStore.memory_total u (ss_rows s) - released u key (ss_rows s) + str_len content)%Z in
  exists s', over_the_cap (Some gate) u key content s =
    (Ok (if (projected <=? cap)%Z then None else Some (MEMORY_LIMIT_REFUSAL_TEMPLATE projected cap)), s') /\ ss_rows s' = ss_rows s.
Proof using Hgate.
  intros Hok Hc projected. pose proof (Hgate u s) as Hq. unfold over_the_cap, bind at 1.
  destruct (gate u s) as [[o|e] s1]; cbn in Hc, Hq; [|done]. injection Hc as ->. exists s1. split; [|done].
  unfold memory_chars, InstructionStore.memory_chars, bind at 1, on_rows, gets. destruct s1 as [t pending]. cbn [ss_rows ss_pending_bumps] in *. subst t.
  unfold own_content_length, bind at 1 2. rewrite find_own_run by done. unfold ret. cbn [ss_rows].
  assert (Hrel : match to_instruction <$> InstructionStore.find_row InstructionType.MEMORY key (Some u) (ss_rows s) with
                 | Some r => str_len (in_content r) | None => 0%Z end = released u key (ss_rows s)).
  { unfold released. by destruct (InstructionStore.find_row _ _ _ _). }
  by rewrite Hrel.
Qed.
Lemma non_empty_pure raw name s : (non_empty raw name s).2 = s.
Proof using Type. unfold non_empty. destruct raw as [[]|]; try done. cbn. by destruct (str_empty _). Qed.
Lemma parse_tags_pure raw s : (parse_tags raw s).2 = s.
Proof using Type. unfold parse_tags. destruct raw as [[| | | | |l|]|]; try done. by destruct (texts l). Qed.
(** Storing a memory touches no other user's, and leaves the user's own within the plan's size or as they were, whatever the size they had. *)
Theorem memory_stays_in_cap u args cap s :
  sane (ss_rows s) -> (forall s', (gate u s').1 = Ok (Some cap)) ->
  let s' := (store u args s).2 in
  sane (ss_rows s') /\
  (ss_rows s' = ss_rows s \/ (InstructionStore.memory_total u (ss_rows s') <= cap)%Z) /\
  (forall v, v <> u -> InstructionStore.memory_total v (ss_rows s') = InstructionStore.memory_total v (ss_rows s)).
Proof using Hembed Hnew Hgate.
  intros Hs Hcap. cbn zeta. pose proof Hs as [Hok _].
  set (Q := fun s' => sane (ss_rows s') /\ (ss_rows s' = ss_rows s \/ (InstructionStore.memory_total u (ss_rows s') <= cap)%Z) /\
    (forall v, v <> u -> InstructionStore.memory_total v (ss_rows s') = InstructionStore.memory_total v (ss_rows s))).
  assert (Hstay : forall s', ss_rows s' = ss_rows s -> Q s').
  { intros s' Hsame. unfold Q. rewrite Hsame. split; [exact Hs|]. by split; [left|]. }
  change (Q (store u args s).2). unfold memory_store.
  unfold bind at 1. pose proof (non_empty_pure (argument "key" args) "key" s) as H1.
  destruct (non_empty (argument "key" args) "key" s) as [[key|e] s1]; cbn in H1; subst s1; [|by apply Hstay].
  unfold bind at 1. pose proof (non_empty_pure (argument "content" args) "content" s) as H1.
  destruct (non_empty (argument "content" args) "content" s) as [[content|e] s1]; cbn in H1; subst s1; [|by apply Hstay].
  unfold bind at 1. pose proof (parse_tags_pure (argument "tags" args) s) as H1.
  destruct (parse_tags (argument "tags" args) s) as [[tags|e] s1]; cbn in H1; subst s1; [|by apply Hstay].
  destruct (over_the_cap_run u key content cap s Hok (Hcap s)) as (s1 & Hover & Hrows).
  unfold bind at 1. rewrite Hover. rewrite <- Hrows in Hs, Hok |- *. destruct (Z.leb_spec (InstructionStore.memory_total u (ss_rows s1) - released u key (ss_rows s1) + str_len content) cap) as [Hle|Hle];
    [|by apply Hstay].
  unfold bind at 1. pose proof (instructions_stay_sane policy embed now new_id Hembed Hnew (Save u InstructionType.MEMORY key content tags) s1 I Hs) as Hs2.
  cbn [run] in Hs2. rewrite bind_ret_rows in Hs2.
  destruct (save policy (fun _ t => t) embed now new_id u InstructionType.MEMORY key content tags s1) as [r s2] eqn:Hsave.
  cbn [snd] in Hs2. assert (Hgoal : (ss_rows s2 = ss_rows s1 \/ (InstructionStore.memory_total u (ss_rows s2) <= cap)%Z) /\
    forall v, v <> u -> InstructionStore.memory_total v (ss_rows s2) = InstructionStore.memory_total v (ss_rows s1)).
  { eapply save_result in Hsave; [|exact Hembed|exact Hnew|exact Hok].
    destruct Hsave as [(e & _ & Hsame)|(v & i & _ & (s3 & _ & Hw & _) & _)]; [rewrite Hsame; by split; [left|]|].
    rewrite Hw. destruct (memory_upserted u key (now s3) (new_id s3) (saved_draft policy u InstructionType.MEMORY key content tags v (ss_rows s1)) (ss_rows s1)) as [H1 H2];
      [done|done|done| |split; [right|exact H2]].
    - unfold saved_draft. cbn. unfold authored, public_row. pose proof (slot_row_spec InstructionType.MEMORY key None (ss_rows s1)) as Hp.
      destruct (InstructionStore.find_row _ _ None _) as [p|]; [|done]. exfalso. destruct Hp as [Hp [= Ht _ Ho]].
      pose proof (ok_memory _ Hok) as Hm. rewrite Forall_forall in Hm. by apply (Hm p).
    - rewrite H1. exact Hle. }
  rewrite Hrows in Hgoal. destruct r as [i|e]; (split; [exact Hs2|exact Hgoal]).
Qed.
End Laws.
