(* ===== verification/Llm.v ===== *)
(** * The clients of the models ([llm/])

    The taxonomy of failures, the retrying wrapper, and the OpenAI-compatible
    client with the accumulator of its stream.  A generator that is read to its end is a [Play]: the events
    it yields and the exception it ends with, if any.

    A field of the wire whose type the source declares and never tests ([id],
    [index], a [content]) raises [TypeError] here when it is of another type;
    the source raises at the latest when it joins the parts, and passes an
    identifier or an index of another type on. *)
From Stdlib Require Import SpecFloat.
From S2P Require Import Prelude PyStr PyFloat Clock Sql Dict Domain RunnerText RunnerState Loop ResponseMemory CollectionIngest.

(** ** Values of JSON and of floats *)

Definition f_zero : float := S754_zero false.
Definition fltb (a b : float) : bool := SFltb a b.
Definition fsub (a b : float) : float := SFsub prec emax a b.
(** [min(a, b)] *)
Definition fmin (a b : float) : float := if fltb b a then b else a.
(** [n / d] of integers, rounded once. *)
Definition int_div (n : Z) (d : positive) : float :=
  match n with
  | Z0 => f_zero
  | Zpos p => let '(m, e, l) := SFdiv_core_binary prec emax (Zpos p) 0 (Zpos d) 0 in binary_round_aux prec emax false m e l
  | Zneg p => let '(m, e, l) := SFdiv_core_binary prec emax (Zpos p) 0 (Zpos d) 0 in binary_round_aux prec emax true m e l
  end.
(** [timedelta.total_seconds()] *)
Definition total_seconds (us : Z) : float := int_div us 1000000.

Section Values.
(** [float(text)], [None] its [ValueError]; [str(v)] of a value that is no string. *)
Context (read_float : pystr -> option float) (str_other : json -> pystr).

(** [bool(v)] *)
Definition json_truthy (v : json) : bool :=
  match v with
  | JNull => false
  | JBool b => b
  | JInt z => negb (z =? 0)%Z
  | JFloat literal => match read_float literal with Some (S754_zero _) => false | _ => true end
  | JStr s => negb (str_empty s)
  | JList [] | JObj [] => false
  | JList _ | JObj _ => true
  end.
(** [d.get(key) or None] *)
Definition truthy_field (key : pystr) (d : list (pystr * json)) : option json :=
  match dict_get key d with Some v => if json_truthy v then Some v else None | None => None end.
(** [str(v)] *)
Definition str_value (v : json) : pystr := match v with JStr s => s | v => str_other v end.
End Values.

(** ** Failures ([llm/errors.py]) *)

Definition DEFAULT_ERROR_MESSAGE : pystr := "LLM request failed".
Definition transient (kind : ErrorKind.t) : bool :=
  match kind with ErrorKind.RATE_LIMIT | ErrorKind.PROVIDER_INTERNAL | ErrorKind.TRANSPORT => true | _ => false end.
Definition CONTEXT_OVERFLOW_MARKERS : list pystr :=
  ["context_length"; "context_overflow"; "context window"; "maximum context"; "too many tokens"].
Definition QUOTA_MARKERS : list pystr := ["insufficient_quota"; "quota_exceeded"; "billing"].
Definition mentions (markers : list pystr) (text : pystr) : bool := existsb (fun marker => str_contains marker text) markers.

(** What a client reads of a response: [None] stands for a body that was not read. *)
Record ApiResponse := { ar_status : Z; ar_retry_after : option pystr; ar_body : option pystr }.
(** The text and the class name of an [httpx.HTTPError]. *)
Definition http_error : Set := pystr * pystr.

Section Errors.
Context (str_lower : pystr -> pystr) (read_float : pystr -> option float) (str_other : json -> pystr).
(** [json.loads], or the text of its error; [parsedate_to_datetime], a naive moment as UTC. *)
Context (json_loads : pystr -> Res pystr json) (http_date : pystr -> option time).
Abbreviation truthy_field := (truthy_field read_float).

(** [_extract_error_fields] *)
Definition extract_error_fields (body : option json) : pystr * pystr :=
  match body with
  | Some (JObj body) =>
      match dict_get "error" body with
      | Some (JObj error) =>
          (match truthy_field "code" error with
           | Some code => str_value str_other code
           | None => match truthy_field "type" error with Some type => str_value str_other type | None => "" end
           end,
           match truthy_field "message" error with Some message => str_value str_other message | None => "" end)
      | _ => ("", "")
      end
  | _ => ("", "")
  end.

Definition classify (status : Z) (text : pystr) : ErrorKind.t :=
  if mentions QUOTA_MARKERS text then ErrorKind.QUOTA
  else if mentions CONTEXT_OVERFLOW_MARKERS text then ErrorKind.CONTEXT_OVERFLOW
  else if bool_decide (status = 429)%Z then ErrorKind.RATE_LIMIT
  else if bool_decide (status = 401 \/ status = 403)%Z then ErrorKind.AUTH
  else if bool_decide (status = 402)%Z then ErrorKind.QUOTA
  else if (500 <=? status)%Z then ErrorKind.PROVIDER_INTERNAL
  else ErrorKind.CLIENT.
Definition classify_http_error (status : Z) (body : option json) (retry_after : option float) : Exn :=
  let '(code, message) := extract_error_fields body in
  let text := str_lower (code +s+ " " +s+ message) in
  let detail := if str_empty message then DEFAULT_ERROR_MESSAGE +s+ " (HTTP " +s+ str_of_Z status +s+ ")" else message in
  LLMError (classify status text) detail retry_after.

(** [_parse_http_date], [parse_retry_after] *)
Definition parse_http_date (now : time) (raw : pystr) : option float :=
  match http_date raw with
  | Some moment => let rest := total_seconds (moment - now) in Some (if fltb f_zero rest then rest else f_zero)
  | None => None
  end.
Definition parse_retry_after (now : time) (raw : option pystr) : option float :=
  match raw with
  | None => None
  | Some raw =>
      match read_float (str_strip raw) with
      | Some value => if SFleb f_zero value then Some value else None
      | None => parse_http_date now (str_strip raw)
      end
  end.

Definition json_or_none (text : pystr) : option json := match json_loads text with Ok v => Some v | Err _ => None end.
(** [raise_for_error_status], and [araise_for_error_status], which reads the
    body before: [ar_body] is what it got. *)
Definition raise_for_error_status (now : time) (response : ApiResponse) : Res Exn unit :=
  if (ar_status response <? 400)%Z then Ok tt
  else
    let body := match ar_body response with Some text => json_or_none text | None => None end in
    Err (classify_http_error (ar_status response) body (parse_retry_after now (ar_retry_after response))).

(** [TransportError(str(exc) or type(exc).__name__)] *)
Definition transport_error (e : http_error) : Exn :=
  LLMError ErrorKind.TRANSPORT (if str_empty e.1 then e.2 else e.1) None.
End Errors.

(** ** Retries ([llm/retry.py]) *)

Definition RETRY_AFTER_DELAY_CAP_SECONDS : float := float_of_Z 300.
Definition SHORT_RETRY_MAX_RETRIES : Z := 1.
Definition SHORT_RETRY_DELAY_SECONDS : float := fdiv (float_of_Z 1) (float_of_Z 2).

(** What one run of a stream yields, and how it ends. *)
Record Play := { pl_events : list StreamEvent; pl_end : option Exn }.
Definition before (events : list StreamEvent) (play : Play) : Play :=
  {| pl_events := events ++ pl_events play; pl_end := pl_end play |}.

(** [random.uniform(0, ceiling)], from a draw of [random.random()] *)
Definition uniform (draw ceiling : float) : float := fadd f_zero (fmul (fsub ceiling f_zero) draw).

Section Retry.
Context {S : Type} (sleeper : float -> M S Exn unit).

(** The loop the two helpers share; [delay] of an attempt and a hint. *)
Fixpoint retry_loop {A} (delay : Z -> option float -> M S Exn float) (max_retries : Z) (call : M S Exn A)
    (fuel : nat) (attempt : Z) : M S Exn A :=
  try_except call (fun e =>
    match e with
    | LLMError kind _ hint =>
        if negb (transient kind) || (max_retries <=? attempt)%Z then raise e
        else
          match fuel with
          | O => raise (RuntimeError "fuel")
          | Datatypes.S fuel =>
              let! seconds := delay (attempt + 1)%Z hint in
              sleeper seconds ;;;
              retry_loop delay max_retries call fuel (attempt + 1)
          end
    | e => raise e
    end).

(** [exc.retry_after or delay_seconds], capped *)
Definition is_zero (x : float) : bool := match x with S754_zero _ => true | _ => false end.
Definition short_delay (delay_seconds : float) (hint : option float) : float :=
  fmin (match hint with Some hint => if is_zero hint then delay_seconds else hint | None => delay_seconds end)
    RETRY_AFTER_DELAY_CAP_SECONDS.
Definition retry_transient {A} (max_retries : Z) (delay_seconds : float) (call : M S Exn A) : M S Exn A :=
  retry_loop (fun _ hint => ret (short_delay delay_seconds hint)) max_retries call (Z.to_nat max_retries) 0.

(** [RetryingLLMClient], over a source of random draws. *)
Section Client.
Context (random : M S Exn float) (max_retries : Z) (base_seconds max_seconds : float).

Definition delay_ceiling (attempt : Z) : float := fmin max_seconds (fmul base_seconds (float_of_Z (2 ^ (attempt - 1)))).
Definition backoff (attempt : Z) (hint : option float) (draw : float) : float :=
  let jitter := uniform draw (delay_ceiling attempt) in
  match hint with
  | Some hint => fmin (fadd hint jitter) RETRY_AFTER_DELAY_CAP_SECONDS
  | None => jitter
  end.
Definition delay (attempt : Z) (hint : option float) : M S Exn float :=
  let! draw := random in ret (backoff attempt hint draw).

Definition complete_with_retries {A} (complete : M S Exn A) : M S Exn A :=
  retry_loop delay max_retries complete (Z.to_nat max_retries) 0.

(** [stream]: an exception of the sleep ends the stream too. *)
Definition ended (events : list StreamEvent) (r : Res Exn Play) : Res Exn Play :=
  Ok match r with
     | Ok play => before events play
     | Err e => {| pl_events := events; pl_end := Some e |}
     end.
Fixpoint stream_loop (inner : M S Exn Play) (fuel : nat) (attempt : Z) : M S Exn Play :=
  let! play := inner in
  match pl_end play with
  | Some (LLMError kind _ hint as e) =>
      if negb (bool_decide (pl_events play = [])) || negb (transient kind) || (max_retries <=? attempt)%Z then ret play
      else
        match fuel with
        | O => raise (RuntimeError "fuel")
        | Datatypes.S fuel =>
            let! seconds := delay (attempt + 1)%Z hint in
            fun s =>
              let '(r, s) := (sleeper seconds ;;; stream_loop inner fuel (attempt + 1)) s in
              (ended [LlmRetryScheduled (attempt + 1) seconds (ErrorKind.value kind)] r, s)
        end
  | _ => ret play
  end.
Definition stream_with_retries (inner : M S Exn Play) : M S Exn Play := stream_loop inner (Z.to_nat max_retries) 0.
End Client.
End Retry.

(** ** The OpenAI-compatible client ([llm/openai.py]) *)

Definition CHAT_COMPLETIONS_PATH : pystr := "/chat/completions".
Definition PARSE_ERROR_MESSAGE : pystr := "Unexpected LLM response payload".
Definition ARGUMENTS_NOT_OBJECT_MESSAGE : pystr := "tool call arguments are not a JSON object".
Definition FUNCTION_TOOL_TYPE : pystr := "function".
Definition SSE_DATA_PREFIX : pystr := "data:".
Definition SSE_DONE_MARKER : pystr := "[DONE]".
Definition CONSUMED_DELTA_FIELDS : list pystr := ["content"; "tool_calls"; "role"; "reasoning"; "reasoning_content"].

Record LLMConfig := {
  lc_model : pystr;
  lc_api_key : pystr;
  lc_timeout_seconds : float;
  lc_stream_read_timeout_seconds : option float }.
Record Completion := { co_message : ChatMessage; co_usage : option Usage }.
(** A request: the read timeout is that of [_stream_timeout] in a stream. *)
Record ApiRequest := {
  aq_path : pystr;
  aq_json : json;
  aq_headers : list (pystr * pystr);
  aq_timeout : float;
  aq_read_timeout : float }.
(** A streamed response: its lines, and the failure that cuts them short. *)
Record LineStream := { ls_response : ApiResponse; ls_lines : list pystr; ls_broken : option http_error }.

Definition parse_error {A} : Res Exn A := Err (LLMResponseError PARSE_ERROR_MESSAGE).
Definition type_error {A} : Res Exn A := Err (OtherError "TypeError").
Definition attribute_error {A} : Res Exn A := Err (OtherError "AttributeError").
Definition key_error {A} : Res Exn A := Err (OtherError "KeyError").

(** [_ToolCallSlot] *)
Record Slot := {
  sl_call_id : pystr;
  sl_name : pystr;
  sl_argument_parts : list json;
  sl_arguments : list (pystr * json);
  sl_started : bool;
  sl_closed : bool }.
Definition new_slot : Slot :=
  {| sl_call_id := ""; sl_name := ""; sl_argument_parts := []; sl_arguments := []; sl_started := false; sl_closed := false |}.
Definition call_of (slot : Slot) : ToolCall :=
  {| tc_id := sl_call_id slot; tc_name := sl_name slot; tc_arguments := sl_arguments slot |}.
Definition close (arguments : list (pystr * json)) (slot : Slot) : Slot :=
  {| sl_call_id := sl_call_id slot; sl_name := sl_name slot; sl_argument_parts := sl_argument_parts slot;
     sl_arguments := arguments; sl_started := sl_started slot; sl_closed := true |}.

(** [_StreamAccumulator]; a key of the slots is [None] for an index [null],
    which [_open_index] cannot tell from "no slot is open". *)
Record Accumulator := {
  ac_content_parts : list pystr;
  ac_tool_calls : list (option Z * Slot);
  ac_open_index : option Z;
  ac_usage : option Usage;
  ac_ignored_fields : list (pystr * Z) }.
Definition new_accumulator : Accumulator :=
  {| ac_content_parts := []; ac_tool_calls := []; ac_open_index := None; ac_usage := None; ac_ignored_fields := [] |}.
Definition with_slots (slots : list (option Z * Slot)) (open : option Z) (acc : Accumulator) : Accumulator :=
  {| ac_content_parts := ac_content_parts acc; ac_tool_calls := slots; ac_open_index := open;
     ac_usage := ac_usage acc; ac_ignored_fields := ac_ignored_fields acc |}.
Definition with_usage (usage : Usage) (acc : Accumulator) : Accumulator :=
  {| ac_content_parts := ac_content_parts acc; ac_tool_calls := ac_tool_calls acc; ac_open_index := ac_open_index acc;
     ac_usage := Some usage; ac_ignored_fields := ac_ignored_fields acc |}.
Definition with_part (content : pystr) (acc : Accumulator) : Accumulator :=
  {| ac_content_parts := ac_content_parts acc ++ [content]; ac_tool_calls := ac_tool_calls acc;
     ac_open_index := ac_open_index acc; ac_usage := ac_usage acc; ac_ignored_fields := ac_ignored_fields acc |}.
Definition with_ignored (ignored : list (pystr * Z)) (acc : Accumulator) : Accumulator :=
  {| ac_content_parts := ac_content_parts acc; ac_tool_calls := ac_tool_calls acc; ac_open_index := ac_open_index acc;
     ac_usage := ac_usage acc; ac_ignored_fields := ignored |}.

Section OpenAI.
Context (str_lower : pystr -> pystr) (read_float : pystr -> option float) (str_other : json -> pystr).
Context (json_loads : pystr -> Res pystr json) (json_dumps : json -> pystr) (http_date : pystr -> option time).
Abbreviation truthy_field := (truthy_field read_float).
Abbreviation truthy := (json_truthy read_float).
Abbreviation raise_for_error_status := (raise_for_error_status str_lower read_float str_other json_loads http_date).
Abbreviation classify_http_error := (classify_http_error str_lower read_float str_other).

(** *** The wire format *)

(** [_serialize_message], [_serialize_tool], [_build_payload] *)
Definition serialize_call (call : ToolCall) : json :=
  JObj [("id" : pystr, JStr (tc_id call)); ("type" : pystr, JStr FUNCTION_TOOL_TYPE);
        ("function" : pystr, JObj [("name" : pystr, JStr (tc_name call));
                                   ("arguments" : pystr, JStr (json_dumps (JObj (tc_arguments call))))])].
Definition serialize_message (message : ChatMessage) : json :=
  JObj ([("role" : pystr, JStr (MessageRole.value (cm_role message))); ("content" : pystr, JStr (cm_content message))] ++
        match cm_tool_calls message with [] => [] | calls => [("tool_calls" : pystr, JList (serialize_call <$> calls))] end ++
        match cm_tool_call_id message with None => [] | Some id => [("tool_call_id" : pystr, JStr id)] end).
Definition serialize_tool (spec : ToolSpec) : json :=
  JObj [("type" : pystr, JStr FUNCTION_TOOL_TYPE);
        ("function" : pystr, JObj [("name" : pystr, JStr (ts_name spec)); ("description" : pystr, JStr (ts_description spec));
                                   ("parameters" : pystr, JObj (ts_parameters spec))])].
Definition build_payload (config : LLMConfig) (messages : list ChatMessage) (tools : list ToolSpec) (stream : bool) : json :=
  JObj ([("model" : pystr, JStr (lc_model config)); ("messages" : pystr, JList (serialize_message <$> messages));
         ("stream" : pystr, JBool stream)] ++
        (if stream then [("stream_options" : pystr, JObj [("include_usage" : pystr, JBool true)])] else []) ++
        match tools with [] => [] | _ => [("tools" : pystr, JList (serialize_tool <$> tools))] end).
Definition request (config : LLMConfig) (messages : list ChatMessage) (tools : list ToolSpec) (stream : bool) : ApiRequest :=
  {| aq_path := CHAT_COMPLETIONS_PATH; aq_json := build_payload config messages tools stream;
     aq_headers := [("Authorization" : pystr, "Bearer " +s+ lc_api_key config)];
     aq_timeout := lc_timeout_seconds config;
     aq_read_timeout := if stream then default (lc_timeout_seconds config) (lc_stream_read_timeout_seconds config)
                        else lc_timeout_seconds config |}.

(** [_parse_tool_call]: the identifier and the name are read outside the
    [try] of the arguments. *)
Definition parse_arguments (raw : json) : Res Exn (list (pystr * json)) :=
  match raw with
  | JObj call =>
      match dict_get "function" call with
      | Some (JObj function) =>
          match dict_get "arguments" function with
          | Some value =>
              match (if truthy value then value else JStr "{}") with
              | JStr text =>
                  match json_loads text with
                  | Ok (JObj arguments) => Ok arguments
                  | Ok _ => Err (LLMResponseError ARGUMENTS_NOT_OBJECT_MESSAGE)
                  | Err _ => parse_error
                  end
              | _ => parse_error
              end
          | None => parse_error
          end
      | _ => parse_error
      end
  | _ => parse_error
  end.
Definition string_at (key : pystr) (d : list (pystr * json)) : Res Exn pystr :=
  match dict_get key d with Some (JStr s) => Ok s | Some _ => type_error | None => key_error end.
Definition object_at (key : pystr) (d : list (pystr * json)) : list (pystr * json) :=
  match dict_get key d with Some (JObj v) => v | _ => [] end.
Definition parse_tool_call (raw : json) : Res Exn ToolCall :=
  let? arguments := parse_arguments raw in
  let call := match raw with JObj call => call | _ => [] end in
  let? id := string_at "id" call in
  let? name := string_at "name" (object_at "function" call) in
  Ok {| tc_id := id; tc_name := name; tc_arguments := arguments |}.
Fixpoint parse_tool_calls (raws : list json) : Res Exn (list ToolCall) :=
  match raws with
  | [] => Ok []
  | raw :: raws => let? call := parse_tool_call raw in let? calls := parse_tool_calls raws in Ok (call :: calls)
  end.
Definition assistant (content : pystr) (calls : list ToolCall) : ChatMessage :=
  {| cm_role := MessageRole.ASSISTANT; cm_content := content; cm_tool_calls := calls; cm_tool_call_id := None;
     cm_task_id := None; cm_kind := MessageKind.OWN; cm_attachments := []; cm_id := None; cm_exchange_id := None |}.
(** [_parse_reply]; iterating over an object or a string gives strings. *)
Definition reply_content (message : list (pystr * json)) : Res Exn pystr :=
  match truthy_field "content" message with None => Ok "" | Some (JStr content) => Ok content | Some _ => parse_error end.
Definition reply_calls (message : list (pystr * json)) : Res Exn (list ToolCall) :=
  match truthy_field "tool_calls" message with
  | None => Ok []
  | Some (JList raws) => parse_tool_calls raws
  | Some (JObj _ | JStr _) => parse_error
  | Some _ => type_error
  end.
Definition raw_message (data : json) : option (list (pystr * json)) :=
  match data with
  | JObj data =>
      match dict_get "choices" data with
      | Some (JList (JObj choice :: _)) => match dict_get "message" choice with Some (JObj message) => Some message | _ => None end
      | _ => None
      end
  | _ => None
  end.
Definition parse_reply (data : json) : Res Exn ChatMessage :=
  match raw_message data with
  | None => parse_error
  | Some message =>
      let? content := reply_content message in
      let? calls := reply_calls message in
      Ok (assistant content calls)
  end.
Definition usage_of (data : list (pystr * json)) : option Usage := parse_usage (default JNull (dict_get "usage" data)).
Definition completion_of (text : pystr) : Res Exn Completion :=
  match json_loads text with
  | Err _ => parse_error
  | Ok data =>
      let? message := parse_reply data in
      Ok {| co_message := message; co_usage := match data with JObj d => usage_of d | _ => None end |}
  end.

(** *** The stream *)

(** [_stream_error_status]: a boolean is an [int]. *)
Definition stream_error_status (error : list (pystr * json)) : Z := default 500%Z (json_int (dict_get "code" error)).

(** [_note_ignored] *)
Definition note_ignored (delta : list (pystr * json)) (ignored : list (pystr * Z)) : list (pystr * Z) :=
  foldl (fun ignored kv =>
           if truthy kv.2 && negb (bool_decide (kv.1 ∈ CONSUMED_DELTA_FIELDS))
           then dict_set kv.1 (default 0 (dict_get kv.1 ignored) + 1)%Z ignored else ignored) ignored delta.

(** [_close_slot], with ["".join(slot.argument_parts) or "{}"] *)
Fixpoint join_parts (parts : list json) : Res Exn pystr :=
  match parts with
  | [] => Ok ""
  | JStr part :: parts => let? rest := join_parts parts in Ok (part +s+ rest)
  | _ :: _ => type_error
  end.
Definition raw_arguments (slot : Slot) : Res Exn pystr :=
  let? text := join_parts (sl_argument_parts slot) in Ok (if str_empty text then "{}" else text).
Definition closing (index : option Z) (slot : Slot) : Res Exn (StreamEvent * Slot) :=
  let? raw := raw_arguments slot in
  Ok match json_loads raw with
     | Ok (JObj arguments) => (ToolCallReady (call_of (close arguments slot)), close arguments slot)
     | Ok _ => (ToolCallBroken index (sl_call_id slot) (sl_name slot) ARGUMENTS_NOT_OBJECT_MESSAGE raw, close (sl_arguments slot) slot)
     | Err error => (ToolCallBroken index (sl_call_id slot) (sl_name slot) error raw, close (sl_arguments slot) slot)
     end.
Definition close_slot (index : option Z) (acc : Accumulator) : Res Exn (list StreamEvent * Accumulator) :=
  match dict_get index (ac_tool_calls acc) with
  | None => Ok ([], acc)
  | Some slot =>
      if sl_closed slot then Ok ([], acc)
      else
        let? '(event, slot) := closing index slot in
        Ok ([event], with_slots (dict_set index slot (ac_tool_calls acc)) (ac_open_index acc) acc)
  end.

(** [_feed_tool_call] *)
Definition read_index (raw : list (pystr * json)) : Res Exn (option Z) :=
  match dict_get "index" raw with
  | None => Ok (Some 0%Z)
  | Some JNull => Ok None
  | Some v => match json_int (Some v) with Some index => Ok (Some index) | None => type_error end
  end.
Definition leave (index : option Z) (acc : Accumulator) : Res Exn (list StreamEvent * Accumulator) :=
  match ac_open_index acc with
  | Some open => if decide (index = Some open) then Ok ([], acc) else close_slot (Some open) acc
  | None => Ok ([], acc)
  end.
Definition text_or (field : option json) (old : pystr) (f : pystr -> pystr) : Res Exn pystr :=
  match field with None => Ok old | Some (JStr s) => Ok (f s) | Some _ => type_error end.
Definition fill (raw : list (pystr * json)) (slot : Slot) : Res Exn Slot :=
  let? id := text_or (truthy_field "id" raw) (sl_call_id slot) id in
  let? function := match truthy_field "function" raw with
                   | None => Ok []
                   | Some (JObj function) => Ok function
                   | Some _ => attribute_error
                   end in
  let? name := text_or (truthy_field "name" function) (sl_name slot) (fun part => sl_name slot +s+ part) in
  Ok {| sl_call_id := id; sl_name := name;
        sl_argument_parts := sl_argument_parts slot ++
          match truthy_field "arguments" function with Some part => [part] | None => [] end;
        sl_arguments := sl_arguments slot; sl_started := sl_started slot; sl_closed := sl_closed slot |}.
Definition start (index : option Z) (slot : Slot) : list StreamEvent * Slot :=
  if negb (sl_started slot) && negb (str_empty (sl_call_id slot)) && negb (str_empty (sl_name slot)) then
    ([ToolCallStarted index (sl_call_id slot) (sl_name slot)],
     {| sl_call_id := sl_call_id slot; sl_name := sl_name slot; sl_argument_parts := sl_argument_parts slot;
        sl_arguments := sl_arguments slot; sl_started := true; sl_closed := sl_closed slot |})
  else ([], slot).
Definition feed_tool_call (raw : json) (acc : Accumulator) : Res Exn (list StreamEvent * Accumulator) :=
  match raw with
  | JObj raw =>
      let? index := read_index raw in
      let? '(closed, acc) := leave index acc in
      let? slot := fill raw (default new_slot (dict_get index (ac_tool_calls acc))) in
      let '(started, slot) := start index slot in
      Ok (closed ++ started, with_slots (dict_set index slot (ac_tool_calls acc)) index acc)
  | _ => attribute_error
  end.
Fixpoint feed_tool_calls (raws : list json) (acc : Accumulator) : Res Exn (list StreamEvent * Accumulator) :=
  match raws with
  | [] => Ok ([], acc)
  | raw :: raws =>
      let? '(events, acc) := feed_tool_call raw acc in
      let? '(more, acc) := feed_tool_calls raws acc in
      Ok (events ++ more, acc)
  end.

(** [feed] *)
Definition delta_of (choices : json) : Res Exn (list (pystr * json)) :=
  match choices with
  | JList (JObj choice :: _) =>
      match truthy_field "delta" choice with None => Ok [] | Some (JObj delta) => Ok delta | Some _ => attribute_error end
  | JObj _ => key_error
  | _ => parse_error
  end.
Definition feed_content (delta : list (pystr * json)) (acc : Accumulator) : Res Exn (list StreamEvent * Accumulator) :=
  match truthy_field "content" delta with
  | None => Ok ([], acc)
  | Some (JStr content) => Ok ([LlmTextDelta content], with_part content acc)
  | Some _ => type_error
  end.
Definition feed_reasoning (delta : list (pystr * json)) : list StreamEvent :=
  match truthy_field "reasoning" delta, truthy_field "reasoning_content" delta with
  | None, None => []
  | _, _ => [LlmReasoningDelta]
  end.
Definition feed_delta (delta : list (pystr * json)) (acc : Accumulator) : Res Exn (list StreamEvent * Accumulator) :=
  let acc := with_ignored (note_ignored delta (ac_ignored_fields acc)) acc in
  let? '(text, acc) := feed_content delta acc in
  let? '(calls, acc) :=
    match truthy_field "tool_calls" delta with
    | None => Ok ([], acc)
    | Some (JList raws) => feed_tool_calls raws acc
    | Some (JObj _ | JStr _) => attribute_error
    | Some _ => type_error
    end in
  Ok (feed_reasoning delta ++ text ++ calls, acc).
Definition feed (data : pystr) (acc : Accumulator) : Res Exn (list StreamEvent * Accumulator) :=
  match json_loads data with
  | Ok (JObj chunk) =>
      match dict_get "error" chunk with
      | Some (JObj error) => Err (classify_http_error (stream_error_status error) (Some (JObj chunk)) None)
      | _ =>
          let acc := match usage_of chunk with Some usage => with_usage usage acc | None => acc end in
          match truthy_field "choices" chunk with
          | None => Ok ([], acc)
          | Some choices => let? delta := delta_of choices in feed_delta delta acc
          end
      end
  | _ => parse_error
  end.

(** [finish], [build_message] *)
Definition finish (acc : Accumulator) : Res Exn (list StreamEvent * Accumulator) :=
  match ac_open_index acc with None => Ok ([], acc) | Some index => close_slot (Some index) acc end.
Fixpoint close_all (indexes : list (option Z)) (acc : Accumulator) : Res Exn Accumulator :=
  match indexes with
  | [] => Ok acc
  | index :: indexes => let? '(_, acc) := close_slot index acc in close_all indexes acc
  end.
(** [sorted(slots.items())]: [None] compares with no number. *)
Definition sorted_slots (slots : list (option Z * Slot)) : Res Exn (list (option Z * Slot)) :=
  if bool_decide (None ∈ dict_keys slots) && negb (bool_decide (length slots = 1%nat)) then type_error
  else Ok (order_by (fun kv => default 0%Z kv.1) slots).
Definition build_message (acc : Accumulator) : Res Exn ChatMessage :=
  let? acc := close_all (dict_keys (ac_tool_calls acc)) acc in
  let? slots := sorted_slots (ac_tool_calls acc) in
  Ok (assistant (str_join "" (ac_content_parts acc)) ((fun kv => call_of kv.2) <$> slots)).

(** The lines of the body, up to the end marker, the end of the response or
    the failure that cuts it. *)
Definition data_of (line : pystr) : option pystr :=
  if str_startswith SSE_DATA_PREFIX line then Some (str_strip (str_drop 5 line)) else None.
Definition failed_with (e : Exn) : Play := {| pl_events := []; pl_end := Some e |}.
Definition finishing (acc : Accumulator) : Play :=
  match finish acc with
  | Err e => failed_with e
  | Ok (events, acc) =>
      match build_message acc with
      | Err e => {| pl_events := events; pl_end := Some e |}
      | Ok message => {| pl_events := events ++ [StreamFinished message (ac_usage acc)]; pl_end := None |}
      end
  end.
Fixpoint read_lines (lines : list pystr) (broken : option http_error) (acc : Accumulator) : Play :=
  match lines with
  | [] => match broken with Some e => failed_with (transport_error e) | None => finishing acc end
  | line :: lines =>
      match data_of line with
      | None => read_lines lines broken acc
      | Some data =>
          if decide (data = SSE_DONE_MARKER) then finishing acc
          else
            match feed data acc with
            | Err e => failed_with e
            | Ok (events, acc) => before events (read_lines lines broken acc)
            end
      end
  end.

(** *** The two calls *)

Section Calls.
Context {S : Type} (config : LLMConfig) (utc_now : M S Exn time).
Context (http_post : ApiRequest -> M S Exn (Res http_error ApiResponse)).
Context (http_stream : ApiRequest -> M S Exn (Res http_error LineStream)).

Definition complete (messages : list ChatMessage) (tools : list ToolSpec) : M S Exn Completion :=
  let! answer := http_post (request config messages tools false) in
  match answer with
  | Err e => raise (transport_error e)
  | Ok response =>
      let! now := utc_now in
      let! _ := lift (raise_for_error_status now response) in
      lift (completion_of (default "" (ar_body response)))
  end.
Definition stream (messages : list ChatMessage) (tools : list ToolSpec) : M S Exn Play :=
  let! answer := http_stream (request config messages tools true) in
  match answer with
  | Err e => ret (failed_with (transport_error e))
  | Ok response =>
      let! now := utc_now in
      match raise_for_error_status now (ls_response response) with
      | Err e => ret (failed_with e)
      | Ok _ => ret (read_lines (ls_lines response) (ls_broken response) new_accumulator)
      end
  end.
End Calls.
End OpenAI.
