(* ===== verification/LlmLaws.v ===== *)
(** * Laws of the clients of the models

    What a retried call and a retried stream do; what the stream of a reply
    tells of the message it ends with, and the tool runs the agent loop starts
    for it; requests and replies read back. *)
From Stdlib Require Import SpecFloat.
From S2P Require Import Prelude PyStr PyFloat Clock Sql Dict Domain RunnerText RunnerState Loop LoopLaws ResponseMemory CollectionIngest Llm.

(** ** Retries *)

(** [m] always returns. *)
Definition returns {S E A} (m : M S E A) : Prop := forall s, exists a s', m s = (Ok a, s').
Definition ends_retries (e : Exn) : bool := match e with LLMError kind _ _ => negb (transient kind) | _ => true end.
Definition hint_of (e : Exn) : option float := match e with LLMError _ _ hint => hint | _ => None end.
Definition not_past_cap (seconds : float) : Prop := fltb RETRY_AFTER_DELAY_CAP_SECONDS seconds = false.

Lemma fmin_not_past a b : fltb b b = false -> fltb b (fmin a b) = false.
Proof. intros Hb. unfold fmin. by destruct (fltb b a) eqn:E. Qed.
Lemma short_delay_cap seconds hint : not_past_cap (short_delay seconds hint).
Proof. by apply fmin_not_past. Qed.
Lemma backoff_cap base max attempt hint draw : hint <> None -> not_past_cap (backoff base max attempt hint draw).
Proof. destruct hint as [h|]; [|done]. intros _. by apply fmin_not_past. Qed.

Section Retried.
Context {S A : Type} (call : M S Exn A) (sleeper : float -> M S Exn unit) (random : M S Exn float).

(** The calls and the sleeps are written down beside the state. *)
Inductive entry := Called (r : Res Exn A) | Slept (seconds : float).
Definition logged : Type := S * list entry.
Definition log_call : M logged Exn A := fun s =>
  let '(r, s') := call s.1 in (r, (s', s.2 ++ [Called r])).
Definition log_sleep (seconds : float) : M logged Exn unit := fun s =>
  let '(r, s') := sleeper seconds s.1 in (r, (s', s.2 ++ [Slept seconds])).
Definition log_random : M logged Exn float := fun s => let '(r, s') := random s.1 in (r, (s', s.2)).

(** A failed attempt and the sleep after it. *)
Definition hiccup (P : Exn -> float -> Prop) (es : Exn * float) : Prop := ends_retries es.1 = false /\ P es.1 es.2.
Definition hiccups (failures : list (Exn * float)) : list entry :=
  concat ((fun es => [Called (Err es.1); Slept es.2]) <$> failures).
Definition settled (r : Res Exn A) : Prop := match r with Ok _ => True | Err e => ends_retries e = true end.
(** A log of [n] retries at most that ends as [r]. *)
Definition retried (P : Exn -> float -> Prop) (n : nat) (r : Res Exn A) (log : list entry) : Prop :=
  exists failures, log = hiccups failures ++ [Called r] /\ length failures <= n /\
    Forall (hiccup P) failures /\ (settled r \/ length failures = n).

Lemma retried_now P n r : settled r \/ n = 0 -> retried P n r [Called r].
Proof. intros H. exists []. cbn. split_and!; [done|lia|constructor|]. destruct H; [by left|by right]. Qed.
Lemma retried_again P n r e seconds log :
  hiccup P (e, seconds) -> retried P n r log -> retried P (Datatypes.S n) r (Called (Err e) :: Slept seconds :: log).
Proof.
  intros He (failures & -> & Hn & Hf & Hr). exists ((e, seconds) :: failures). cbn.
  split_and!; [done|lia|by constructor|]. destruct Hr; [by left|right; lia].
Qed.

Context (sleeps : forall seconds, returns (sleeper seconds)).

Lemma retry_loop_log (P : Exn -> float -> Prop) delay max_retries :
  (forall attempt e s, ends_retries e = false -> exists seconds s', delay attempt (hint_of e) s = (Ok seconds, s') /\ s'.2 = s.2 /\ P e seconds) ->
  forall fuel attempt s r s', (0 <= attempt)%Z -> fuel = Z.to_nat (max_retries - attempt) ->
  retry_loop log_sleep delay max_retries log_call fuel attempt s = (r, s') ->
  exists log, s'.2 = s.2 ++ log /\ retried P fuel r log.
Proof.
  intros Hdelay fuel. induction fuel as [|fuel IH]; intros attempt s r s' Ha Hfuel;
    cbn [retry_loop]; unfold try_except, log_call; destruct (call s.1) as [[a|e] s1] eqn:Hcall.
  1,3: intros [= <- <-]; eexists; split; [done|]; apply retried_now; by left.
  - assert ((max_retries <=? attempt)%Z = true) as Hmax by (apply Z.leb_le; lia).
    intros H. assert ((r, s') = (Err e, (s1, s.2 ++ [Called (Err e)]))) as [= -> ->].
    { destruct e; try (by injection H as <- <-). rewrite Hmax, orb_true_r in H. by injection H as <- <-. }
    eexists. split; [done|]. apply retried_now. by right.
  - assert ((max_retries <=? attempt)%Z = false) as Hmax by (apply Z.leb_gt; lia).
    intros H. destruct (ends_retries e) eqn:He.
    + assert ((r, s') = (Err e, (s1, s.2 ++ [Called (Err e)]))) as [= -> ->].
      { destruct e; try (by injection H as <- <-). cbn in He. rewrite He in H. by injection H as <- <-. }
      eexists. split; [done|]. apply retried_now. by left.
    + destruct e; try done. rename retry_after into hint.
      cbn [ends_retries] in He. rewrite He, Hmax in H. cbn [orb] in H.
      destruct (Hdelay (attempt + 1)%Z (LLMError kind text hint) (s1, s.2 ++ [Called (Err (LLMError kind text hint))]) He)
        as (seconds & s2 & Hd & Hlog & HP).
      cbn [hint_of] in Hd. rewrite (bind_Ok _ _ _ _ _ Hd) in H.
      destruct (sleeps seconds s2.1) as ([] & s3 & Hs).
      rewrite (bind_Ok _ _ _ tt (s3, s2.2 ++ [Slept seconds])) in H by (unfold log_sleep; by rewrite Hs).
      destruct (IH (attempt + 1)%Z _ _ _ ltac:(lia) ltac:(lia) H) as (log & Hl & Hr).
      exists (Called (Err (LLMError kind text hint)) :: Slept seconds :: log). split.
      * rewrite Hl. cbn [snd]. rewrite Hlog. cbn [snd]. by rewrite <-!app_assoc.
      * apply retried_again; [by split|done].
Qed.

Context (draws : returns random).

Lemma delay_log base max attempt hint (s : logged) :
  exists seconds s', delay log_random base max attempt hint s = (Ok seconds, s') /\ s'.2 = s.2 /\ (hint <> None -> not_past_cap seconds).
Proof using draws.
  destruct (draws s.1) as (draw & s' & Hd). eexists _, (s', s.2). split_and!; [|done|by apply backoff_cap].
  unfold delay, log_random. erewrite bind_Ok; [|by rewrite Hd]. done.
Qed.

(** A call under the retrying client is made [max_retries] times more at
    most, each time after a transient failure; what it ends with is the
    outcome of the last call, which succeeded, failed for good or was the last
    one allowed; a sleep the provider gave a hint for stays within the cap. *)
Theorem complete_retries max_retries base max s r s' log :
  complete_with_retries log_sleep log_random max_retries base max log_call (s, []) = (r, (s', log)) ->
  retried (fun e seconds => hint_of e <> None -> not_past_cap seconds) (Z.to_nat max_retries) r log.
Proof using sleeps draws.
  intros H. unfold complete_with_retries in H. eapply retry_loop_log in H as (log' & Hl & Hr); [| |done|f_equal; lia].
  - cbn in Hl. by subst.
  - intros attempt e s0 _. apply delay_log.
Qed.

(** The short retry of the one-shot clients keeps every sleep within the cap. *)
Theorem short_retries max_retries seconds s r s' log :
  retry_transient log_sleep max_retries seconds log_call (s, []) = (r, (s', log)) ->
  retried (fun _ seconds => not_past_cap seconds) (Z.to_nat max_retries) r log.
Proof using sleeps.
  intros H. unfold retry_transient in H. eapply retry_loop_log in H as (log' & Hl & Hr); [| |done|f_equal; lia].
  - cbn in Hl. by subst.
  - intros attempt e s0 _. eexists _, _. split_and!; [done..|apply short_delay_cap].
Qed.
End Retried.

(** ** Retried streams *)

Section Streams.
Context {S : Type} (inner : M S Exn Play) (sleeper : float -> M S Exn unit) (random : M S Exn float).
Abbreviation logged_stream := (log_call (S:=S) (A:=Play)).
Definition kind_text (e : Exn) : pystr := match e with LLMError kind _ _ => ErrorKind.value kind | _ => "" end.
(** The announcements of the retries, from an attempt on. *)
Fixpoint announced (attempt : Z) (failures : list (Exn * float)) : list StreamEvent :=
  match failures with
  | [] => []
  | (e, seconds) :: failures => LlmRetryScheduled attempt seconds (kind_text e) :: announced (attempt + 1) failures
  end.
Definition stream_hiccups (failures : list (Exn * float)) : list (entry (A:=Play)) :=
  concat ((fun es => [Called (Ok (failed_with es.1)); Slept es.2]) <$> failures).
Definition stream_settled (play : Play) : Prop :=
  pl_events play <> [] \/ match pl_end play with Some e => ends_retries e = true | None => True end.
Definition stream_retried (attempt : Z) (n : nat) (r : Res Exn Play) (log : list entry) : Prop :=
  exists failures last, log = stream_hiccups failures ++ [Called (Ok last)] /\
    r = Ok (before (announced attempt failures) last) /\ length failures <= n /\
    Forall (hiccup (fun e seconds => hint_of e <> None -> not_past_cap seconds)) failures /\
    (stream_settled last \/ length failures = n).
Lemma stream_cases play :
  stream_settled play \/ exists kind text hint, play = failed_with (LLMError kind text hint) /\ transient kind = true.
Proof using Type.
  destruct play as [[|event events] [e|]]; [|by left; right|by left; left..].
  destruct (ends_retries e) eqn:He; [by left; right|]. right. destruct e; try done. cbn in He.
  eexists _, _, _. split; [done|]. by destruct (transient kind).
Qed.
Context (sleeps : forall seconds, returns (sleeper seconds)) (draws : returns random) (plays : returns inner).

Lemma before_nil play : before [] play = play.
Proof. by destruct play. Qed.
Lemma stream_retried_now attempt n last :
  stream_settled last \/ n = 0 -> stream_retried attempt n (Ok last) [Called (Ok last)].
Proof using Type.
  intros H. exists [], last. cbn. rewrite before_nil. split_and!; [done..|lia|constructor|]. destruct H; [by left|by right].
Qed.

Lemma stream_loop_log max_retries base max fuel attempt s r s' :
  (0 <= attempt)%Z -> fuel = Z.to_nat (max_retries - attempt) ->
  stream_loop (log_sleep sleeper) (log_random random) max_retries base max (logged_stream inner) fuel attempt s = (r, s') ->
  exists log, s'.2 = s.2 ++ log /\ stream_retried (attempt + 1) fuel r log.
Proof using sleeps draws plays.
  revert attempt s r s'. induction fuel as [|fuel IH]; intros attempt s r s' Ha Hfuel; cbn [stream_loop];
    destruct (plays s.1) as (play & s1 & Hplay);
    rewrite (bind_Ok _ _ _ play (s1, s.2 ++ [Called (Ok play)])) by (unfold log_call; by rewrite Hplay); intros H.
  - assert ((max_retries <=? attempt)%Z = true) as Hmax by (apply Z.leb_le; lia).
    assert ((r, s') = (Ok play, (s1, s.2 ++ [Called (Ok play)]))) as [= -> ->].
    { rewrite <-H. destruct (pl_end play) as [[]|]; try done. by rewrite Hmax, orb_true_r. }
    eexists. split; [done|]. apply stream_retried_now. by right.
  - assert ((max_retries <=? attempt)%Z = false) as Hmax by (apply Z.leb_gt; lia).
    destruct (stream_cases play) as [Hset|(kind & text & hint & -> & Hkind)].
    { assert ((r, s') = (Ok play, (s1, s.2 ++ [Called (Ok play)]))) as [= -> ->].
      { rewrite <-H. destruct play as [events [e|]]; [|done]. destruct e; try done. cbn [pl_end pl_events].
        destruct Hset as [Hset|Hset]; [by rewrite bool_decide_eq_false_2 by done|].
        cbn in Hset. by rewrite Hset, orb_true_r. }
      eexists. split; [done|]. apply stream_retried_now. by left. }
    cbn [failed_with pl_end pl_events] in H. rewrite Hmax, Hkind in H. rewrite bool_decide_eq_true_2 in H by done. cbn [negb orb] in H.
    destruct (delay_log random draws base max (attempt + 1)%Z hint (s1, s.2 ++ [Called (Ok (failed_with (LLMError kind text hint)))]))
      as (seconds & s2 & Hd & Hlog & HP).
    rewrite (bind_Ok _ _ _ _ _ Hd) in H.
    destruct (sleeps seconds s2.1) as ([] & s3 & Hs).
    rewrite (bind_Ok _ _ _ tt (s3, s2.2 ++ [Slept seconds])) in H by (unfold log_sleep; by rewrite Hs).
    destruct (stream_loop _ _ _ _ _ _ fuel _ _) as [r1 s4] eqn:Hrec. injection H as <- <-.
    destruct (IH (attempt + 1)%Z _ _ _ ltac:(lia) ltac:(lia) Hrec) as (log & Hl & failures & last & -> & -> & Hn & Hf & Hlast).
    eexists (Called (Ok (failed_with (LLMError kind text hint))) :: Slept seconds :: _). split.
    { rewrite Hl. cbn [snd]. rewrite Hlog. cbn [snd]. by rewrite <-!app_assoc. }
    exists ((LLMError kind text hint, seconds) :: failures), last. cbn. split_and!; [done..|lia| |].
    + constructor; [split; [cbn; by rewrite Hkind|done]|done].
    + destruct Hlast; [by left|right; lia].
Qed.

(** C15: A retried stream never repeats what it showed: every attempt but the
    last failed before its first event, and the consumer sees the
    announcements of the retries and then the last attempt, to its end. *)
Theorem stream_retries max_retries base max s r s' log :
  stream_with_retries (log_sleep sleeper) (log_random random) max_retries base max (logged_stream inner) (s, []) = (r, (s', log)) ->
  stream_retried 1 (Z.to_nat max_retries) r log.
Proof using sleeps draws plays.
  intros H. unfold stream_with_retries in H.
  eapply stream_loop_log in H as (log' & Hl & Hr); [|done|f_equal; lia]. cbn in Hl. by subst.
Qed.
End Streams.

(** ** What a stream tells of its message *)

Definition text_of (event : StreamEvent) : option pystr := match event with LlmTextDelta text => Some text | _ => None end.
Definition texts (events : list StreamEvent) : list pystr := omap text_of events.
(** The event a tool call ends its streaming with, as the call it stands for. *)
Definition terminal (event : StreamEvent) : option ToolCall :=
  match event with
  | ToolCallReady call => Some call
  | ToolCallBroken _ call_id name _ _ => Some {| tc_id := call_id; tc_name := name; tc_arguments := [] |}
  | _ => None
  end.
Definition terminals (events : list StreamEvent) : list ToolCall := omap terminal events.
Definition unfinished (event : StreamEvent) : Prop := match event with StreamFinished _ _ => False | _ => True end.
Lemma texts_app a b : texts (a ++ b) = texts a ++ texts b.
Proof. apply omap_app. Qed.
Lemma terminals_app a b : terminals (a ++ b) = terminals a ++ terminals b.
Proof. apply omap_app. Qed.

(** The provider streams its calls one after the other: an index is given,
    and none comes back after another one came. *)
Definition orderly (indexes : list (option Z)) : Prop :=
  forall past i rest, indexes = past ++ i :: rest -> i <> None /\ (last past = Some i \/ i ∉ past).
Lemma orderly_prefix a b : orderly (a ++ b) -> orderly a.
Proof. intros H past i rest ->. apply (H past i (rest ++ b)). by rewrite <-app_assoc. Qed.

Section Told.
Context (str_lower : pystr -> pystr) (read_float : pystr -> option float) (str_other : json -> pystr).
Context (json_loads : pystr -> Res pystr json).
Abbreviation truthy_field := (truthy_field read_float).
Abbreviation close_slot := (close_slot json_loads).
Abbreviation feed_tool_call := (feed_tool_call read_float json_loads).
Abbreviation feed_tool_calls := (feed_tool_calls read_float json_loads).
Abbreviation feed := (feed str_lower read_float str_other json_loads).
Abbreviation read_lines := (read_lines str_lower read_float str_other json_loads).

(** The indexes of the tool-call deltas of a chunk, and of the lines read. *)
Definition index_of (raw : json) : list (option Z) :=
  match raw with JObj raw => match read_index raw with Ok index => [index] | Err _ => [] end | _ => [] end.
Definition indexes_of (raws : list json) : list (option Z) := raws ≫= index_of.
Definition raw_calls (delta : list (pystr * json)) : list json :=
  match truthy_field "tool_calls" delta with Some (JList raws) => raws | _ => [] end.
Definition raws_of (data : pystr) : list json :=
  match json_loads data with
  | Ok (JObj chunk) =>
      match truthy_field "choices" chunk with
      | Some choices => match delta_of read_float choices with Ok delta => raw_calls delta | Err _ => [] end
      | None => []
      end
  | _ => []
  end.
Fixpoint fed_indexes (lines : list pystr) : list (option Z) :=
  match lines with
  | [] => []
  | line :: lines =>
      match data_of line with
      | None => fed_indexes lines
      | Some data => if decide (data = SSE_DONE_MARKER) then [] else indexes_of (raws_of data) ++ fed_indexes lines
      end
  end.

(** The slots so far: all closed and announced but the open one. *)
Definition open_slot (slot : Slot) : Prop := sl_closed slot = false /\ sl_arguments slot = [].
Inductive slots_told (events : list StreamEvent) (l : list (option Z)) (acc : Accumulator) : Prop :=
| told_none : l = [] -> ac_tool_calls acc = [] -> ac_open_index acc = None -> terminals events = [] -> slots_told events l acc
| told_open done i slot :
    ac_tool_calls acc = done ++ [(Some i, slot)] -> ac_open_index acc = Some i -> last l = Some (Some i) ->
    NoDup (dict_keys (ac_tool_calls acc)) -> (forall j, j ∈ dict_keys (ac_tool_calls acc) -> j ∈ l) ->
    open_slot slot -> Forall (fun kv => sl_closed kv.2 = true) done ->
    terminals events = (fun kv => call_of kv.2) <$> done -> slots_told events l acc.

Lemma dict_get_last {K V} `{EqDecision K} (d : list (K * V)) k v :
  NoDup (dict_keys (d ++ [(k, v)])) -> dict_get k (d ++ [(k, v)]) = Some v.
Proof. intros Hnd. apply dict_elem_get; [done|]. apply elem_of_app. right. by apply list_elem_of_singleton. Qed.
Lemma dict_set_last {K V} `{EqDecision K} (d : list (K * V)) k v w :
  NoDup (dict_keys (d ++ [(k, v)])) -> dict_set k w (d ++ [(k, v)]) = d ++ [(k, w)].
Proof.
  induction d as [|[k' v'] d IH]; cbn; [by rewrite decide_True|]. intros [Hk Hnd]%NoDup_cons.
  rewrite decide_False; [by rewrite IH|]. intros ->. apply Hk. apply list_elem_of_fmap. exists (k, v). split; [done|].
  apply elem_of_app. right. by apply list_elem_of_singleton.
Qed.

(** What a close tells. *)
Lemma closing_told index slot event slot' :
  open_slot slot -> closing json_loads index slot = Ok (event, slot') ->
  terminal event = Some (call_of slot') /\ sl_closed slot' = true /\ text_of event = None /\ unfinished event.
Proof using Type.
  intros [_ Hargs] H. unfold closing in H. apply rbind_Ok in H as (raw & _ & [= H]).
  destruct (json_loads raw) as [[]|]; injection H as <- <-; cbn; try done; unfold call_of, close; cbn; by rewrite Hargs.
Qed.
Lemma close_slot_quiet index acc events acc' :
  close_slot index acc = Ok (events, acc') ->
  texts events = [] /\ Forall unfinished events /\ ac_content_parts acc' = ac_content_parts acc /\ ac_open_index acc' = ac_open_index acc.
Proof using Type.
  unfold close_slot. intros H. destruct (dict_get index (ac_tool_calls acc)) as [slot|]; [|by injection H as <- <-].
  destruct (sl_closed slot); [by injection H as <- <-|]. apply rbind_Ok in H as ([event slot'] & Hc & [= <- <-]).
  unfold closing in Hc. apply rbind_Ok in Hc as (raw & _ & [= Hc]).
  destruct (json_loads raw) as [[]|]; injection Hc as <- <-; cbn; repeat constructor.
Qed.
Lemma close_slot_told events l acc i es acc' :
  slots_told events l acc -> ac_open_index acc = Some i -> close_slot (Some i) acc = Ok (es, acc') ->
  terminals (events ++ es) = (fun kv => call_of kv.2) <$> ac_tool_calls acc' /\
  Forall (fun kv => sl_closed kv.2 = true) (ac_tool_calls acc') /\
  dict_keys (ac_tool_calls acc') = dict_keys (ac_tool_calls acc).
Proof using Type.
  intros [? ? Hn|done j slot Hs Ho Hl Hnd Hin Hop Hcl Ht] Hi; [congruence|].
  assert (j = i) as -> by congruence. unfold close_slot. rewrite Hs in *. rewrite dict_get_last by done. destruct Hop as [Hc Ha].
  rewrite Hc. intros H. apply rbind_Ok in H as ([event slot'] & Hev & [= <- <-]).
  apply closing_told in Hev as (Hterm & Hclosed & _ & _); [|by split].
  cbn [ac_tool_calls with_slots]. rewrite dict_set_last by done. rewrite terminals_app, Ht, fmap_app. split_and!.
  - f_equal. cbn. by rewrite Hterm.
  - apply Forall_app. split; [done|by apply Forall_singleton].
  - unfold dict_keys. by rewrite !fmap_app.
Qed.

Lemma fill_open raw slot slot' : fill read_float raw slot = Ok slot' -> open_slot slot -> open_slot slot'.
Proof using Type.
  intros H [Hc Ha]. unfold fill in H. apply rbind_Ok in H as (id & _ & H). apply rbind_Ok in H as (function & _ & H).
  apply rbind_Ok in H as (name & _ & [= <-]). by split.
Qed.
Lemma start_quiet index slot es slot' :
  start index slot = (es, slot') ->
  terminals es = [] /\ texts es = [] /\ Forall unfinished es /\ (open_slot slot -> open_slot slot').
Proof using Type.
  unfold start. destruct (negb (sl_started slot) && negb (str_empty (sl_call_id slot)) && negb (str_empty (sl_name slot)));
    intros [= <- <-]; cbn; split_and!; try done. by repeat constructor.
Qed.
Lemma feed_tool_call_steps raw acc es acc' :
  feed_tool_call raw acc = Ok (es, acc') ->
  exists d index closed acc1 slot started slot',
    raw = JObj d /\ read_index d = Ok index /\ leave json_loads index acc = Ok (closed, acc1) /\
    fill read_float d (default new_slot (dict_get index (ac_tool_calls acc1))) = Ok slot /\
    start index slot = (started, slot') /\ es = closed ++ started /\
    acc' = with_slots (dict_set index slot' (ac_tool_calls acc1)) index acc1.
Proof using Type.
  unfold Llm.feed_tool_call. intros H. destruct raw as [| | | | | |d]; try done.
  apply rbind_Ok in H as (index & Hi & H). apply rbind_Ok in H as ([closed acc1] & Hl & H).
  apply rbind_Ok in H as (slot & Hf & H). destruct (start index slot) as [started slot'] eqn:Hs. injection H as <- <-.
  by eexists d, index, closed, acc1, slot, started, slot'.
Qed.
Lemma leave_quiet index acc es acc' :
  leave json_loads index acc = Ok (es, acc') ->
  texts es = [] /\ Forall unfinished es /\ ac_content_parts acc' = ac_content_parts acc.
Proof using Type.
  unfold leave. destruct (ac_open_index acc) as [open|]; [case_decide as Hi|]; intros H; try (by injection H as <- <-).
  apply close_slot_quiet in H. tauto.
Qed.
Lemma feed_tool_call_quiet raw acc es acc' :
  feed_tool_call raw acc = Ok (es, acc') ->
  texts es = [] /\ Forall unfinished es /\ ac_content_parts acc' = ac_content_parts acc.
Proof using Type.
  intros (d & index & closed & acc1 & slot & started & slot' & -> & _ & Hl & _ & Hs & -> & ->)%feed_tool_call_steps.
  apply leave_quiet in Hl as (Ht & Hu & Hp). apply start_quiet in Hs as (_ & Ht' & Hu' & _).
  rewrite texts_app, Ht, Ht'. split_and!; [done|by apply Forall_app|done].
Qed.
Lemma told_append events es l acc index slot :
  terminals es = [] -> open_slot slot ->
  terminals events = (fun kv => call_of kv.2) <$> ac_tool_calls acc ->
  Forall (fun kv => sl_closed kv.2 = true) (ac_tool_calls acc) -> NoDup (dict_keys (ac_tool_calls acc)) ->
  (forall j, j ∈ dict_keys (ac_tool_calls acc) -> j ∈ l) -> Some index ∉ l ->
  slots_told (events ++ es) (l ++ [Some index]) (with_slots (dict_set (Some index) slot (ac_tool_calls acc)) (Some index) acc).
Proof using Type.
  intros He Ho Ht Hc Hnd Hin Hi.
  assert (Some index ∉ dict_keys (ac_tool_calls acc)) as Hk by (intros Hk; by apply Hi, Hin).
  rewrite dict_set_new by (by apply dict_get_None).
  assert (dict_keys (ac_tool_calls acc ++ [(Some index, slot)]) = dict_keys (ac_tool_calls acc) ++ [Some index]) as Hkeys
    by (unfold dict_keys; by rewrite fmap_app).
  eapply (told_open _ _ _ (ac_tool_calls acc) index slot); cbn [ac_tool_calls ac_open_index with_slots]; try done.
  - by rewrite last_snoc.
  - rewrite Hkeys. apply NoDup_app. split_and!; [done| |apply NoDup_singleton]. intros x Hx ->%list_elem_of_singleton. done.
  - intros j. rewrite Hkeys, !elem_of_app. intros [Hj|Hj]; [left; by apply Hin|by right].
  - by rewrite terminals_app, He, app_nil_r.
Qed.
Lemma feed_tool_call_told events l acc raw es acc' :
  slots_told events l acc -> feed_tool_call raw acc = Ok (es, acc') -> orderly (l ++ index_of raw) ->
  slots_told (events ++ es) (l ++ index_of raw) acc'.
Proof using Type.
  intros Htold (d & index & closed & acc1 & slot & started & slot' & -> & Hi & Hl & Hf & Hs & -> & ->)%feed_tool_call_steps Hord.
  cbn [index_of] in *. rewrite Hi in *. destruct (Hord l index [] eq_refl) as [Hnone Hold]. destruct index as [j|]; [clear Hnone|done].
  apply start_quiet in Hs as (Hterm & _ & _ & Hopen). pose proof (fill_open _ _ _ Hf) as Hfill.
  rewrite app_assoc. unfold leave in Hl. destruct Htold as [-> Hsl Ho Ht|done i sl Hsl Ho Hlast Hnd Hin Hop Hcl Ht].
  - rewrite Ho in Hl. injection Hl as <- <-. rewrite Hsl in Hfill. rewrite app_nil_r.
    apply told_append; rewrite ?Hsl; try done; [by apply Hopen, Hfill|constructor|apply not_elem_of_nil].
  - rewrite Ho in Hl. case_decide as Hj.
    + injection Hj as ->. injection Hl as <- <-. rewrite Hsl in *. rewrite dict_get_last in Hf, Hfill by done.
      rewrite dict_set_last by done. rewrite app_nil_r.
      assert (dict_keys (done ++ [(Some i, slot')]) = dict_keys (done ++ [(Some i, sl)])) as Hkeys
        by (unfold dict_keys; by rewrite !fmap_app).
      eapply (told_open _ _ _ done i slot'); cbn [ac_tool_calls ac_open_index with_slots]; rewrite ?Hkeys; try done.
      * by rewrite last_snoc.
      * intros k Hk. apply elem_of_app. left. by apply Hin.
      * by apply Hopen, Hfill.
      * by rewrite terminals_app, Hterm, app_nil_r.
    + pose proof (close_slot_told events l acc i closed acc1
        (told_open _ _ _ done i sl Hsl Ho Hlast Hnd Hin Hop Hcl Ht) Ho Hl) as (Ht1 & Hc1 & Hk1).
      assert (Some j ∉ l) as Hjl by (destruct Hold as [Hold|Hold]; [congruence|done]).
      apply told_append; rewrite ?Hk1; try done. apply Hopen, Hfill.
      assert (dict_get (Some j) (ac_tool_calls acc1) = None) as ->; [|done].
      apply dict_get_None. rewrite Hk1. intros Hk. by apply Hjl, Hin.
Qed.

(** Events, indexes and accumulator of a stream so far. *)
Record told (events : list StreamEvent) (l : list (option Z)) (acc : Accumulator) : Prop := {
  told_texts : texts events = ac_content_parts acc;
  told_unfinished : Forall unfinished events;
  told_slots : orderly l -> slots_told events l acc }.

Lemma slots_told_same events es l acc acc' :
  slots_told events l acc -> terminals es = [] -> ac_tool_calls acc' = ac_tool_calls acc -> ac_open_index acc' = ac_open_index acc ->
  slots_told (events ++ es) l acc'.
Proof using Type.
  intros H He Hs Ho. assert (terminals (events ++ es) = terminals events) as Ht by (by rewrite terminals_app, He, app_nil_r).
  destruct H as [? ? ? ?|done i slot]; [apply told_none; congruence|].
  eapply (told_open _ _ _ done i slot); rewrite ?Hs, ?Ho, ?Ht; done.
Qed.
Lemma told_same events es l acc acc' :
  told events l acc -> terminals es = [] -> Forall unfinished es ->
  ac_content_parts acc' = ac_content_parts acc ++ texts es ->
  ac_tool_calls acc' = ac_tool_calls acc -> ac_open_index acc' = ac_open_index acc -> told (events ++ es) l acc'.
Proof using Type.
  intros [Ht Hu Hs] He Hes Hp Hsl Ho. split; [by rewrite texts_app, Ht|by apply Forall_app|].
  intros Hord. by eapply slots_told_same; eauto.
Qed.
Lemma told_new : told [] [] new_accumulator.
Proof using Type. split; [done|constructor|]. intros _. by apply told_none. Qed.

Lemma feed_tool_calls_told raws events l acc es acc' :
  told events l acc -> feed_tool_calls raws acc = Ok (es, acc') -> told (events ++ es) (l ++ indexes_of raws) acc'.
Proof using Type.
  revert events l acc es. induction raws as [|raw raws IH]; intros events l acc es Htold; cbn [Llm.feed_tool_calls].
  - intros [= <- <-]. by rewrite !app_nil_r.
  - intros H. apply rbind_Ok in H as ([es1 acc1] & H1 & H). apply rbind_Ok in H as ([es2 acc2] & H2 & [= <- <-]).
    change (indexes_of (raw :: raws)) with (index_of raw ++ indexes_of raws). rewrite !app_assoc. eapply IH; [|done].
    pose proof (feed_tool_call_quiet _ _ _ _ H1) as (Ht1 & Hu1 & Hp1). destruct Htold as [Ht Hu Hs]. split.
    + by rewrite texts_app, Ht1, app_nil_r, Hp1.
    + by apply Forall_app.
    + intros Hord. apply (feed_tool_call_told _ _ acc); [apply Hs; by eapply orderly_prefix|done|done].
Qed.
Lemma feed_reasoning_quiet delta :
  terminals (feed_reasoning read_float delta) = [] /\ texts (feed_reasoning read_float delta) = [] /\
  Forall unfinished (feed_reasoning read_float delta).
Proof using Type.
  unfold feed_reasoning. destruct (truthy_field "reasoning" delta), (truthy_field "reasoning_content" delta); by repeat constructor.
Qed.
Lemma feed_content_told delta events l acc es acc' :
  told events l acc -> feed_content read_float delta acc = Ok (es, acc') -> told (events ++ es) l acc'.
Proof using Type.
  unfold feed_content. intros Ht. destruct (truthy_field "content" delta) as [[]|]; try done; intros [= <- <-].
  - eapply told_same; [done|done|by repeat constructor|done..].
  - by rewrite app_nil_r.
Qed.
Lemma feed_delta_told delta events l acc es acc' :
  told events l acc -> feed_delta read_float json_loads delta acc = Ok (es, acc') ->
  told (events ++ es) (l ++ indexes_of (raw_calls delta)) acc'.
Proof using Type.
  intros Ht H. unfold feed_delta in H. set (acc0 := with_ignored _ acc) in H.
  apply rbind_Ok in H as ([es1 acc1] & H1 & H). apply rbind_Ok in H as ([es2 acc2] & H2 & [= <- <-]).
  destruct (feed_reasoning_quiet delta) as (Hr1 & Hr2 & Hr3).
  assert (told (events ++ feed_reasoning read_float delta) l acc0) as Ht0.
  { eapply told_same; [done..| |done|done]. rewrite Hr2. by rewrite app_nil_r. }
  eapply feed_content_told in H1; [|done]. rewrite !app_assoc. unfold raw_calls.
  destruct (truthy_field "tool_calls" delta) as [[]|]; try done; [by eapply feed_tool_calls_told|].
  injection H2 as <- <-. cbn. by rewrite !app_nil_r.
Qed.
Lemma feed_told data events l acc es acc' :
  told events l acc -> feed data acc = Ok (es, acc') -> told (events ++ es) (l ++ indexes_of (raws_of data)) acc'.
Proof using Type.
  intros Ht H. unfold Llm.feed in H. unfold raws_of. destruct (json_loads data) as [[| | | | | |chunk]|]; try done.
  set (acc0 := match usage_of chunk with Some usage => with_usage usage acc | None => acc end) in H.
  assert (told events l acc0) as Ht0.
  { unfold acc0. destruct (usage_of chunk); [|done]. rewrite <-(app_nil_r events).
    eapply told_same; [done|done|constructor|by rewrite app_nil_r|done..]. }
  assert (match truthy_field "choices" chunk with
          | None => Ok ([], acc0)
          | Some choices => let? delta := delta_of read_float choices in feed_delta read_float json_loads delta acc0
          end = Ok (es, acc')) as H' by (by destruct (dict_get "error" chunk) as [[]|]). clear H.
  destruct (truthy_field "choices" chunk) as [choices|].
  - apply rbind_Ok in H' as (delta & -> & H). by eapply feed_delta_told.
  - injection H' as <- <-. cbn. by rewrite !app_nil_r.
Qed.

(** A stream that ends well says so once, at its end, with a message that has
    the text it showed and the tool calls it announced; one that fails never
    says it finished. *)
Definition tells (l : list (option Z)) (play : Play) : Prop :=
  match pl_end play with
  | None =>
      exists events message usage, pl_events play = events ++ [StreamFinished message usage] /\ Forall unfinished events /\
        cm_role message = MessageRole.ASSISTANT /\ cm_content message = str_join "" (texts events) /\
        (orderly l -> terminals events ≡ₚ cm_tool_calls message)
  | Some _ => Forall unfinished (pl_events play)
  end.

Lemma close_all_parts indexes acc acc' :
  close_all json_loads indexes acc = Ok acc' -> ac_content_parts acc' = ac_content_parts acc.
Proof using Type.
  revert acc. induction indexes as [|index indexes IH]; intros acc; cbn; [by intros [= <-]|].
  intros H. apply rbind_Ok in H as ([es acc1] & Hc & H). apply close_slot_quiet in Hc as (_ & _ & Hp & _).
  by rewrite (IH _ H), Hp.
Qed.
Lemma close_all_closed indexes acc :
  Forall (fun kv => sl_closed kv.2 = true) (ac_tool_calls acc) -> close_all json_loads indexes acc = Ok acc.
Proof using Type.
  intros Hc. induction indexes as [|index indexes IH]; [done|]. cbn. unfold Llm.close_slot.
  destruct (dict_get index (ac_tool_calls acc)) as [slot|] eqn:Hg; [|exact IH].
  apply dict_get_elem in Hg. rewrite Forall_forall in Hc. apply Hc in Hg. cbn in Hg. by rewrite Hg.
Qed.
Lemma build_message_content acc message :
  build_message json_loads acc = Ok message ->
  cm_role message = MessageRole.ASSISTANT /\ cm_content message = str_join "" (ac_content_parts acc).
Proof using Type.
  unfold build_message. intros H. apply rbind_Ok in H as (acc1 & Hc & H). apply close_all_parts in Hc.
  apply rbind_Ok in H as (slots & _ & [= <-]). cbn. by rewrite Hc.
Qed.
Lemma build_message_calls acc message :
  Forall (fun kv => sl_closed kv.2 = true) (ac_tool_calls acc) -> build_message json_loads acc = Ok message ->
  cm_tool_calls message ≡ₚ (fun kv => call_of kv.2) <$> ac_tool_calls acc.
Proof using Type.
  unfold build_message. intros Hc H. rewrite close_all_closed in H by done. cbn [rbind] in H.
  apply rbind_Ok in H as (slots & Hs & [= <-]). cbn. apply fmap_Permutation. unfold sorted_slots in Hs.
  destruct (_ && _); [done|]. injection Hs as <-. apply order_by_perm.
Qed.
Lemma finish_told events l acc es acc' :
  told events l acc -> finish json_loads acc = Ok (es, acc') ->
  texts (events ++ es) = ac_content_parts acc' /\ Forall unfinished (events ++ es) /\
  (orderly l -> terminals (events ++ es) = (fun kv => call_of kv.2) <$> ac_tool_calls acc' /\
                Forall (fun kv => sl_closed kv.2 = true) (ac_tool_calls acc')).
Proof using Type.
  intros [Ht Hu Hs] H. unfold finish in H. destruct (ac_open_index acc) as [index|] eqn:Ho.
  - pose proof (close_slot_quiet _ _ _ _ H) as (Hes & Hues & Hp & _). rewrite texts_app, Hes, app_nil_r, Ht, Hp.
    split_and!; [done|by apply Forall_app|]. intros Hord.
    by destruct (close_slot_told _ _ _ _ _ _ (Hs Hord) Ho H) as (? & ? & _).
  - injection H as <- <-. rewrite app_nil_r. split_and!; [done..|]. intros Hord.
    destruct (Hs Hord) as [_ Hsl _ Hterm|done i slot _ Ho' _ _ _ _ _ _]; [|congruence].
    rewrite Hterm, Hsl. split; [done|constructor].
Qed.
Lemma finishing_tells events l acc :
  told events l acc -> tells l (before events (finishing json_loads acc)).
Proof using Type.
  intros Ht. pose proof (told_unfinished _ _ _ Ht) as Hu. unfold finishing, tells.
  destruct (finish json_loads acc) as [[es acc1]|e] eqn:Hf; cbn; [|by rewrite app_nil_r].
  apply (finish_told _ _ _ _ _ Ht) in Hf as (Htexts & Hues & Hterm).
  destruct (build_message json_loads acc1) as [message|e] eqn:Hb; cbn; [|done].
  exists (events ++ es), message, (ac_usage acc1). rewrite <-app_assoc.
  pose proof (build_message_content _ _ Hb) as [Hrole Hcontent]. split_and!; [done..|by rewrite Htexts|].
  intros [Ht' Hc']%Hterm. rewrite Ht'. symmetry. by apply build_message_calls.
Qed.
Lemma before_before a b play : before a (before b play) = before (a ++ b) play.
Proof using Type. unfold before. cbn. by rewrite app_assoc. Qed.
Lemma read_lines_tells lines broken events l acc :
  told events l acc -> tells (l ++ fed_indexes lines) (before events (read_lines lines broken acc)).
Proof using Type.
  revert events l acc. induction lines as [|line lines IH]; intros events l acc Ht; cbn [Llm.read_lines fed_indexes].
  - rewrite app_nil_r. destruct broken as [e|]; [|by apply finishing_tells].
    unfold tells. cbn. rewrite app_nil_r. apply Ht.
  - destruct (data_of line) as [data|]; [|by apply IH]. case_decide; [rewrite app_nil_r; by apply finishing_tells|].
    destruct (feed data acc) as [[es acc1]|e] eqn:Hf.
    + rewrite before_before, app_assoc. apply IH. by eapply feed_told.
    + unfold tells. cbn. rewrite app_nil_r. apply Ht.
Qed.

Lemma stream_tells lines broken : tells (fed_indexes lines) (read_lines lines broken new_accumulator).
Proof using Type.
  rewrite <-(before_nil (read_lines lines broken new_accumulator)). apply (read_lines_tells _ _ [] []). apply told_new.
Qed.
(** Reading a stream: it says it finished exactly when no failure ends it,
    once and last; the message it carries has the text that was shown, and,
    when the provider sends its calls one after the other, the very calls that
    were announced as ready or broken, each once. *)
Theorem stream_tells_message lines broken : tells (fed_indexes lines) (read_lines lines broken new_accumulator).
Proof using Type. apply stream_tells. Qed.
End Told.

(** ** The runs the agent loop starts for a stream *)

Section Runs.
Context (registry : tools) (repr : pystr -> pystr) (seconds_text : pystr).
Abbreviation land := (land registry repr seconds_text).

(** The loop handles the events of a stream; before each, some of the tools
    it started have ended. *)
Fixpoint handle_all (moments : list (list (nat * ToolOutcome) * StreamEvent)) (tr : Tracker) (st : AssistantState)
    : Tracker * AssistantState :=
  match moments with
  | [] => (tr, st)
  | (landed, event) :: moments =>
      let '(_, tr, st) := handle_stream_event event (foldl land tr landed) st in handle_all moments tr st
  end.

(** The task or the result a call has. *)
Definition has_run (tr : Tracker) (id : pystr) : Prop :=
  is_Some (dict_get id (tt_tasks tr)) \/ is_Some (dict_get id (tt_results tr)).
Definition covered (tr : Tracker) : Prop := forall call, call ∈ tt_order tr -> has_run tr (tc_id call).

Lemma land_keeps tr landing :
  tt_order (land tr landing) = tt_order tr /\ tt_tasks (land tr landing) = tt_tasks tr /\ tt_results (land tr landing) = tt_results tr.
Proof using Type.
  unfold Loop.land. destruct landing as [n outcome]. destruct (tt_runs tr !! n) as [[call []]|]; [|done..].
  by destruct (execute_one registry repr seconds_text call outcome).
Qed.
Lemma land_all_keeps tr landed :
  tt_order (foldl land tr landed) = tt_order tr /\ tt_tasks (foldl land tr landed) = tt_tasks tr /\
  tt_results (foldl land tr landed) = tt_results tr.
Proof using Type.
  revert tr. induction landed as [|x landed IH]; intros tr; [done|]. cbn [foldl].
  destruct (IH (land tr x)) as (-> & -> & ->). apply land_keeps.
Qed.
Lemma drain_has_run tr id : has_run tr id \/ id ∈ ((fun r => tc_id (tr_call r)) <$> tt_queue tr) -> has_run (drain tr).2 id.
Proof using Type.
  unfold has_run. cbn [drain snd tt_tasks tt_results].
  intros [[H|H]|H]; [by left|right; apply drained_some; by left|right; apply drained_some; by right].
Qed.
Lemma handle_tracker event tr st :
  (handle_stream_event event tr st).1.2 =
    (drain match event with
           | ToolCallReady call => spawn call tr
           | ToolCallBroken _ call_id name error _ => mark_broken call_id name error tr
           | _ => tr
           end).2.
Proof using Type. by destruct event. Qed.
Lemma handle_order event tr st :
  tt_order (handle_stream_event event tr st).1.2 = tt_order tr ++ terminals [event].
Proof using Type. rewrite handle_tracker. destruct event; cbn; by rewrite ?app_nil_r. Qed.
Lemma spawn_has_run call tr id : id = tc_id call \/ has_run tr id -> has_run (spawn call tr) id.
Proof using Type.
  unfold has_run. cbn. rewrite dict_get_set. intros [->|[H|H]]; [left; by rewrite decide_True|left; by case_decide|by right].
Qed.
Lemma handle_covered event tr st : covered tr -> covered (handle_stream_event event tr st).1.2.
Proof using Type.
  intros Hc call. rewrite handle_order, elem_of_app, handle_tracker. intros [Hin|Hin]; apply drain_has_run.
  - left. apply Hc in Hin. destruct event; try done. by apply spawn_has_run; right.
  - destruct event; cbn in Hin; try (by apply not_elem_of_nil in Hin); apply list_elem_of_singleton in Hin as ->.
    + left. apply spawn_has_run. by left.
    + right. cbn. rewrite fmap_app. apply elem_of_app. right. by apply list_elem_of_singleton.
Qed.
Lemma handle_texts event tr st :
  unfinished event ->
  as_content_parts (handle_stream_event event tr st).2 = as_content_parts st ++ texts [event] /\
  as_final_message (handle_stream_event event tr st).2 = as_final_message st.
Proof using Type. destruct event; cbn; try done; by rewrite app_nil_r. Qed.

Lemma handle_all_order moments tr st : tt_order (handle_all moments tr st).1 = tt_order tr ++ terminals (snd <$> moments).
Proof using Type.
  revert tr st. induction moments as [|[landed event] moments IH]; intros tr st; [by rewrite app_nil_r|]. cbn [handle_all].
  destruct (handle_stream_event event (foldl land tr landed) st) as [[evs tr1] st1] eqn:Hh. rewrite IH.
  change tr1 with (evs, tr1, st1).1.2. rewrite <-Hh, handle_order, (proj1 (land_all_keeps tr landed)).
  change (snd <$> (landed, event) :: moments) with ([event] ++ (snd <$> moments)). by rewrite terminals_app, app_assoc.
Qed.
Lemma handle_all_covered moments tr st : covered tr -> covered (handle_all moments tr st).1.
Proof using Type.
  revert tr st. induction moments as [|[landed event] moments IH]; intros tr st Hc; [done|]. cbn [handle_all].
  destruct (handle_stream_event event (foldl land tr landed) st) as [[evs tr1] st1] eqn:Hh. apply IH.
  change tr1 with (evs, tr1, st1).1.2. rewrite <-Hh. apply handle_covered. intros call.
  destruct (land_all_keeps tr landed) as (-> & Ht & Hr). unfold has_run. rewrite Ht, Hr. apply Hc.
Qed.
Lemma handle_all_app a b tr st : handle_all (a ++ b) tr st = let '(tr, st) := handle_all a tr st in handle_all b tr st.
Proof using Type.
  revert tr st. induction a as [|[landed event] a IH]; intros tr st; [done|]. cbn [handle_all app].
  destruct (handle_stream_event event (foldl land tr landed) st) as [[evs tr1] st1]. apply IH.
Qed.
Lemma handle_all_texts moments tr st :
  Forall unfinished (snd <$> moments) ->
  as_content_parts (handle_all moments tr st).2 = as_content_parts st ++ texts (snd <$> moments).
Proof using Type.
  revert tr st. induction moments as [|[landed event] moments IH]; intros tr st; [by rewrite app_nil_r|].
  intros [Hu Hus]%Forall_cons. cbn [handle_all]. destruct (handle_texts event (foldl land tr landed) st Hu) as [Ht _].
  destruct (handle_stream_event event (foldl land tr landed) st) as [[evs tr1] st1]. rewrite IH by done. cbn in Ht. rewrite Ht.
  change (snd <$> (landed, event) :: moments) with ([event] ++ (snd <$> moments)). by rewrite texts_app, app_assoc.
Qed.
End Runs.

Section Announced.
Context (str_lower : pystr -> pystr) (read_float : pystr -> option float) (str_other : json -> pystr).
Context (json_loads : pystr -> Res pystr json).
Context (registry : tools) (repr : pystr -> pystr) (seconds_text : pystr).

(** C14: The agent loop over the stream of the client: however the tools it starts
    end meanwhile, the message it is left with has the text it passed on, and
    every tool call of it has a run or a recorded failure, so that none of the
    replies it sends back is made up. *)
Theorem announced_calls_run lines broken moments :
  let play := read_lines str_lower read_float str_other json_loads lines broken new_accumulator in
  pl_end play = None -> orderly (fed_indexes read_float json_loads lines) -> snd <$> moments = pl_events play ->
  let '(tr, st) := handle_all registry repr seconds_text moments new_tracker new_assistant in
  exists message, as_final_message st = Some message /\ cm_content message = str_join "" (as_content_parts st) /\
    forall call, call ∈ cm_tool_calls message -> has_run tr (tc_id call).
Proof using Type.
  intros play Hend Hord Hm.
  pose proof (stream_tells str_lower read_float str_other json_loads lines broken) as Ht. fold play in Ht.
  unfold tells in Ht. rewrite Hend in Ht. destruct Ht as (events & message & usage & Hev & Hu & _ & Hcontent & Hcalls).
  specialize (Hcalls Hord). rewrite Hev in Hm.
  apply fmap_app_inv in Hm as (a & b & -> & Hb & ->).
  destruct b as [|[landed event] [|]]; try done. cbn in Hb. injection Hb as <-.
  rewrite handle_all_app.
  pose proof (handle_all_texts registry repr seconds_text a new_tracker new_assistant Hu) as Htexts.
  pose proof (handle_all_order registry repr seconds_text a new_tracker new_assistant) as Horder.
  pose proof (handle_all_covered registry repr seconds_text a new_tracker new_assistant ltac:(by intros ? ?%not_elem_of_nil)) as Hcov.
  destruct (handle_all registry repr seconds_text a new_tracker new_assistant) as [tr st]. cbn [fst snd] in *.
  cbn [handle_all handle_stream_event drain]. exists message. split_and!; [done|by rewrite Hcontent; cbn; rewrite Htexts|].
  intros call Hin. rewrite <-Hcalls in Hin. destruct (land_all_keeps registry repr seconds_text tr landed) as (Ho & Hta & Hr).
  apply drain_has_run. left. unfold has_run. rewrite Hta, Hr. apply Hcov. by rewrite Horder.
Qed.
End Announced.

(** ** Requests and replies read back *)

Section RoundTrip.
Context (read_float : pystr -> option float) (json_loads : pystr -> Res pystr json) (json_dumps : json -> pystr).

(** The text of a value is not empty and reads back. *)
Definition reads_back (v : json) : Prop := json_dumps v <> "" /\ json_loads (json_dumps v) = Ok v.

Lemma json_truthy_str s : s <> "" -> json_truthy read_float (JStr s) = true.
Proof using Type. intros Hs. cbn. destruct (str_empty s) eqn:E; [|done]. by apply str_empty_spec in E. Qed.
Lemma parse_serialized_call call :
  reads_back (JObj (tc_arguments call)) -> parse_tool_call read_float json_loads (serialize_call json_dumps call) = Ok call.
Proof using Type.
  intros [Hne Hback]. destruct call as [id name args]. cbn [tc_arguments] in *.
  unfold parse_tool_call, serialize_call, parse_arguments. cbn [tc_id tc_name tc_arguments].
  change (dict_get "function" _) with
    (Some (JObj [("name" : pystr, JStr name); ("arguments" : pystr, JStr (json_dumps (JObj args)))])).
  cbn iota. change (dict_get "arguments" _) with (Some (JStr (json_dumps (JObj args)))). cbn iota.
  rewrite json_truthy_str by done. by rewrite Hback.
Qed.
Lemma parse_serialized_calls calls :
  Forall (fun call => reads_back (JObj (tc_arguments call))) calls ->
  parse_tool_calls read_float json_loads (serialize_call json_dumps <$> calls) = Ok calls.
Proof using Type.
  induction 1 as [|call calls Hc _ IH]; [done|]. cbn [fmap list_fmap parse_tool_calls].
  rewrite parse_serialized_call by done. cbn [rbind]. by rewrite IH.
Qed.

(** The message a client sends is the message it would read in a reply:
    content and tool calls survive the wire. *)
Theorem message_reads_back message :
  Forall (fun call => reads_back (JObj (tc_arguments call))) (cm_tool_calls message) ->
  parse_reply read_float json_loads
    (JObj [("choices" : pystr, JList [JObj [("message" : pystr, serialize_message json_dumps message)]])]) =
  Ok (assistant (cm_content message) (cm_tool_calls message)).
Proof using Type.
  intros Hcalls. unfold parse_reply, serialize_message.
  set (tail := match cm_tool_call_id message with None => [] | Some id => [("tool_call_id" : pystr, JStr id)] end).
  set (calls := match cm_tool_calls message with [] => [] | _ => _ end).
  set (fields := _ ++ calls ++ tail).
  change (raw_message _) with (Some fields). cbn iota.
  assert (reply_content read_float fields = Ok (cm_content message)) as ->.
  { unfold reply_content, truthy_field. change (dict_get "content" fields) with (Some (JStr (cm_content message))).
    cbn. destruct (str_empty (cm_content message)) eqn:E; [|done]. cbn. f_equal. symmetry. by apply str_empty_spec. }
  cbn [rbind]. assert (reply_calls read_float json_loads fields = Ok (cm_tool_calls message)) as ->; [|done].
  unfold reply_calls, truthy_field. change (dict_get "tool_calls" fields) with (dict_get "tool_calls" (calls ++ tail)).
  unfold calls. destruct (cm_tool_calls message) as [|call rest] eqn:Hm; [unfold tail; by destruct (cm_tool_call_id message)|].
  change (dict_get "tool_calls" _) with (Some (JList (serialize_call json_dumps <$> call :: rest))). cbn iota.
  change (json_truthy read_float _) with true. cbn iota. by apply parse_serialized_calls.
Qed.
End RoundTrip.

(** ** A reply streamed in pieces *)

(** What a chunk of a stream carries: a piece of the text, pieces of calls and
    what was used so far; nothing is an empty text. *)
Record Piece := { pc_index : Z; pc_id : pystr; pc_name : pystr; pc_arguments : pystr }.
Record Part := { pa_text : pystr; pa_calls : list Piece; pa_usage : option Usage }.
Definition no_part : Part := {| pa_text := ""; pa_calls := []; pa_usage := None |}.

(** How it stands on the wire, next to any other fields: what is missing may
    also be null, and a delta without an index is of the first call. *)
Definition missing (key : pystr) (d : list (pystr * json)) : Prop := dict_get key d = None \/ dict_get key d = Some JNull.
Definition text_at (key : pystr) (d : list (pystr * json)) (s : pystr) : Prop :=
  dict_get key d = Some (JStr s) \/ s = "" /\ missing key d.
Definition fields_at (key : pystr) (d fields : list (pystr * json)) : Prop :=
  dict_get key d = Some (JObj fields) \/ fields = [] /\ missing key d.
Definition piece_at (raw : json) (p : Piece) : Prop :=
  exists d function, raw = JObj d /\
    (dict_get "index" d = Some (JInt (pc_index p)) \/ dict_get "index" d = None /\ pc_index p = 0%Z) /\
    text_at "id" d (pc_id p) /\ fields_at "function" d function /\
    text_at "name" function (pc_name p) /\ text_at "arguments" function (pc_arguments p).
Definition delta_at (d : list (pystr * json)) (part : Part) : Prop :=
  text_at "content" d (pa_text part) /\
  ((exists raws, dict_get "tool_calls" d = Some (JList raws) /\ Forall2 piece_at raws (pa_calls part)) \/
   pa_calls part = [] /\ missing "tool_calls" d).
Definition chunk_at (raw : list (pystr * json)) (part : Part) : Prop :=
  (forall error, dict_get "error" raw <> Some (JObj error)) /\ usage_of raw = pa_usage part /\
  ((exists choice more d, dict_get "choices" raw = Some (JList (JObj choice :: more)) /\ fields_at "delta" choice d /\ delta_at d part) \/
   pa_text part = "" /\ pa_calls part = [] /\ (missing "choices" raw \/ dict_get "choices" raw = Some (JList []))).

(** What is read of one stream of parts. *)
Definition pieces_of (parts : list Part) : list Piece := concat (pa_calls <$> parts).
Definition shown_texts (parts : list Part) : list pystr := filter (fun text => text <> "") (pa_text <$> parts).
Definition last_usage (parts : list Part) : option Usage := last (omap pa_usage parts).
Definition of_call (i : Z) (pieces : list Piece) : list Piece := filter (fun p => pc_index p = i) pieces.
Definition id_of (i : Z) (pieces : list Piece) : pystr := default "" (last (filter (fun id => id <> "") (pc_id <$> of_call i pieces))).
Definition name_of (i : Z) (pieces : list Piece) : pystr := str_join "" (pc_name <$> of_call i pieces).
Definition arguments_of (i : Z) (pieces : list Piece) : pystr := str_join "" (pc_arguments <$> of_call i pieces).
Definition numbers (pieces : list Piece) : list Z := order_by id (remove_dups (pc_index <$> pieces)).
(** The same reply in one piece: the text whole, and each call once, with the
    last identifier it was given and its name and arguments put together. *)
Definition whole_call (pieces : list Piece) (i : Z) : json :=
  JObj [("id" : pystr, JStr (id_of i pieces)); ("type" : pystr, JStr "function");
        ("function" : pystr, JObj [("name" : pystr, JStr (name_of i pieces)); ("arguments" : pystr, JStr (arguments_of i pieces))])].
Definition whole_reply (parts : list Part) : json :=
  let pieces := pieces_of parts in
  JObj [("choices" : pystr, JList [JObj [("message" : pystr,
    JObj [("role" : pystr, JStr "assistant"); ("content" : pystr, JStr (str_join "" (shown_texts parts)));
          ("tool_calls" : pystr, JList (whole_call pieces <$> numbers pieces))])]])].

Section Gathered.
Context (str_lower : pystr -> pystr) (read_float : pystr -> option float) (str_other : json -> pystr).
Context (json_loads : pystr -> Res pystr json).
Abbreviation truthy_field := (truthy_field read_float).
Abbreviation feed_delta := (feed_delta read_float json_loads).
Abbreviation feed_tool_call := (feed_tool_call read_float json_loads).
Abbreviation feed_tool_calls := (feed_tool_calls read_float json_loads).
Abbreviation feed := (feed str_lower read_float str_other json_loads).
Abbreviation close_slot := (close_slot json_loads).
Abbreviation read_lines := (read_lines str_lower read_float str_other json_loads).

(** A line of the body: a chunk, or something that is no event of data. *)
Inductive line_at : pystr -> list Part -> Prop :=
| line_skipped line : str_startswith SSE_DATA_PREFIX line = false -> line_at line []
| line_of_data text raw part :
    str_strip text <> SSE_DONE_MARKER -> json_loads (str_strip text) = Ok (JObj raw) -> chunk_at raw part ->
    line_at (SSE_DATA_PREFIX +s+ text) [part].

(** *** Reading fields *)

Lemma text_truthy key d s : text_at key d s -> truthy_field key d = if str_empty s then None else Some (JStr s).
Proof using Type.
  unfold truthy_field. intros [-> |[-> [-> | ->]]]; [|done..]. cbn [json_truthy]. by destruct (str_empty s).
Qed.
Lemma fields_truthy key d fields : fields_at key d fields -> truthy_field key d = match fields with [] => None | _ => Some (JObj fields) end.
Proof using Type. unfold truthy_field. intros [-> |[-> [-> | ->]]]; [|done..]. by destruct fields. Qed.
Lemma str_app_nil s : s +s+ "" = s.
Proof using Type. apply codes_inj. cbn. by rewrite app_nil_r. Qed.
Lemma str_nil_app s : "" +s+ s = s.
Proof using Type. by apply codes_inj. Qed.
Lemma str_app_assoc a b c : (a +s+ b) +s+ c = a +s+ (b +s+ c).
Proof using Type. apply codes_inj. cbn. by rewrite app_assoc. Qed.
Lemma join_cons s l : str_join "" (s :: l) = s +s+ str_join "" l.
Proof using Type. destruct l; [by rewrite str_app_nil|]. cbn [str_join]. by rewrite str_nil_app. Qed.
Lemma join_app a b : str_join "" (a ++ b) = str_join "" a +s+ str_join "" b.
Proof using Type.
  induction a as [|s a IH]; [cbn [app]; by rewrite str_nil_app|]. cbn [app]. by rewrite !join_cons, IH, str_app_assoc.
Qed.
Lemma join_one s : str_join "" [s] = s.
Proof using Type. done. Qed.
Lemma parts_app a b x y : join_parts a = Ok x -> join_parts b = Ok y -> join_parts (a ++ b) = Ok (x +s+ y).
Proof using Type.
  revert x. induction a as [|[] a IH]; intros x; cbn [app join_parts]; try done; [intros [= <-] ->; by rewrite str_nil_app|].
  intros H Hb. apply rbind_Ok in H as (rest & Hr & [= <-]). rewrite (IH _ Hr Hb). cbn [rbind]. by rewrite str_app_assoc.
Qed.

(** *** The slots gather the pieces *)

Lemma of_call_app i a b : of_call i (a ++ b) = of_call i a ++ of_call i b.
Proof using Type. apply filter_app. Qed.
Lemma of_call_one i p : of_call i [p] = if decide (pc_index p = i) then [p] else [].
Proof using Type. unfold of_call. case_decide; [by rewrite filter_cons_True|by rewrite filter_cons_False]. Qed.
Definition same_call (i : Z) (a b : list Piece) : Prop := of_call i a = of_call i b.
Lemma other_call i pieces p : pc_index p <> i -> same_call i (pieces ++ [p]) pieces.
Proof using Type. intros Hi. unfold same_call. rewrite of_call_app, of_call_one, decide_False by done. apply app_nil_r. Qed.

(** A slot holds what came of its call; once it is closed, that read back. *)
Definition arguments_text (text : pystr) : pystr := if str_empty text then "{}" else text.
Record holds (i : Z) (pieces : list Piece) (slot : Slot) : Prop := {
  ho_id : sl_call_id slot = id_of i pieces;
  ho_name : sl_name slot = name_of i pieces;
  ho_parts : join_parts (sl_argument_parts slot) = Ok (arguments_of i pieces);
  ho_closed arguments : sl_closed slot = true -> json_loads (arguments_text (arguments_of i pieces)) = Ok (JObj arguments) -> sl_arguments slot = arguments }.
Record slots_of (pieces : list Piece) (acc : Accumulator) : Prop := {
  so_nodup : NoDup (dict_keys (ac_tool_calls acc));
  so_keys j : j ∈ dict_keys (ac_tool_calls acc) <-> exists i, j = Some i /\ i ∈ pc_index <$> pieces;
  so_open : ac_open_index acc = last (pc_index <$> pieces);
  so_holds i slot : dict_get (Some i) (ac_tool_calls acc) = Some slot -> holds i pieces slot;
  so_closed i slot : dict_get (Some i) (ac_tool_calls acc) = Some slot -> sl_closed slot = true <-> ac_open_index acc <> Some i }.
Lemma holds_agree i a b slot : same_call i a b -> holds i b slot -> holds i a slot.
Proof using Type. unfold same_call. intros H [H1 H2 H3 H4]. split; unfold id_of, name_of, arguments_of in *; rewrite ?H; done. Qed.
Lemma close_holds i pieces index slot :
  holds i pieces slot -> sl_closed slot = false ->
  exists event slot', closing json_loads index slot = Ok (event, slot') /\ holds i pieces slot' /\ sl_closed slot' = true.
Proof using Type.
  intros [H1 H2 H3 H4] Hopen. unfold closing, raw_arguments. rewrite H3. cbn [rbind]. fold (arguments_text (arguments_of i pieces)).
  destruct (json_loads (arguments_text (arguments_of i pieces))) as [[]|] eqn:Hl; eexists _, _; (split; [done|]); (split; [|done]);
    (split; [done..|]); intros given _; rewrite Hl; first [by intros [= <-]|by intros [=]].
Qed.

(** Leaving a call closes its slot. *)
Lemma leave_slots pieces acc i :
  slots_of pieces acc -> last (pc_index <$> pieces) <> Some i ->
  exists es acc', leave json_loads (Some i) acc = Ok (es, acc') /\ ac_usage acc' = ac_usage acc /\
    dict_keys (ac_tool_calls acc') = dict_keys (ac_tool_calls acc) /\
    forall j slot, dict_get (Some j) (ac_tool_calls acc') = Some slot -> holds j pieces slot /\ sl_closed slot = true.
Proof using Type.
  intros [Hnd Hkeys Hopen Hholds Hclosed] Hi. unfold leave. rewrite Hopen. destruct (last (pc_index <$> pieces)) as [o|] eqn:Hl.
  - rewrite decide_False by congruence. unfold Llm.close_slot.
    assert (Some o ∈ dict_keys (ac_tool_calls acc)) as Hin.
    { apply Hkeys. exists o. split; [done|]. apply last_Some in Hl as [l' ->]. apply elem_of_app. right. by left. }
    destruct (dict_get (Some o) (ac_tool_calls acc)) as [slot|] eqn:Hg; [|by apply dict_get_None in Hg].
    assert (sl_closed slot = false) as Hs.
    { destruct (sl_closed slot) eqn:E; [|done]. apply (Hclosed o slot Hg) in E. congruence. }
    rewrite Hs. destruct (close_holds o pieces (Some o) slot (Hholds o slot Hg) Hs) as (event & slot' & -> & Hh & Hc). cbn [rbind].
    eexists _, _. split; [done|]. split; [done|]. cbn [with_slots ac_tool_calls]. split; [by rewrite dict_keys_set, decide_True|].
    intros j sl. rewrite dict_get_set. case_decide as Hj.
    + injection Hj as ->. by intros [= <-].
    + intros Hg'. split; [by apply Hholds|]. apply (Hclosed j sl Hg'). congruence.
  - eexists _, _. split_and!; [done..|]. intros j slot Hg. split; [by apply Hholds|]. apply (Hclosed j slot Hg). by rewrite Hopen.
Qed.
Lemma fill_holds d function p i pieces slot :
  text_at "id" d (pc_id p) -> fields_at "function" d function -> text_at "name" function (pc_name p) ->
  text_at "arguments" function (pc_arguments p) -> pc_index p = i -> holds i pieces slot -> sl_closed slot = false ->
  exists slot', fill read_float d slot = Ok slot' /\ holds i (pieces ++ [p]) slot' /\ sl_closed slot' = false.
Proof using Type.
  intros Hid Hf Hname Hargs Hi [H1 H2 H3 _] Hopen. unfold fill. rewrite (text_truthy _ _ _ Hid), (fields_truthy _ _ _ Hf).
  set (new := if str_empty (pc_id p) then sl_call_id slot else pc_id p).
  assert (text_or (if str_empty (pc_id p) then None else Some (JStr (pc_id p))) (sl_call_id slot) id = Ok new) as ->
    by (unfold new; by destruct (str_empty (pc_id p))).
  cbn [rbind].
  assert (match match function with [] => None | _ => Some (JObj function) end with
          | None => Ok [] | Some (JObj function) => Ok function | Some _ => attribute_error end = Ok function) as -> by (by destruct function).
  cbn [rbind]. rewrite (text_truthy _ _ _ Hname), (text_truthy _ _ _ Hargs).
  assert (text_or (if str_empty (pc_name p) then None else Some (JStr (pc_name p))) (sl_name slot) (fun part => sl_name slot +s+ part) =
          Ok (sl_name slot +s+ pc_name p)) as ->.
  { destruct (str_empty (pc_name p)) eqn:E; [|done]. apply str_empty_spec in E as ->. cbn [text_or]. by rewrite str_app_nil. }
  cbn [rbind]. eexists. split; [done|]. split; [|done].
  assert (of_call i (pieces ++ [p]) = of_call i pieces ++ [p]) as Hof by (by rewrite of_call_app, of_call_one, decide_True).
  split; cbn [sl_call_id sl_name sl_argument_parts sl_closed]; [..|congruence].
  - unfold id_of, new. rewrite Hof, fmap_app, filter_app. cbn [fmap list_fmap]. destruct (str_empty (pc_id p)) eqn:E.
    + apply str_empty_spec in E. rewrite filter_cons_False by (intros Hn; by apply Hn). rewrite app_nil_r. exact H1.
    + rewrite filter_cons_True, filter_nil by (intros Hn; by rewrite Hn in E). by rewrite last_snoc.
  - unfold name_of. rewrite Hof, fmap_app, join_app. cbn [fmap list_fmap]. by rewrite join_one, H2.
  - unfold arguments_of. rewrite Hof, fmap_app, join_app. cbn [fmap list_fmap]. rewrite join_one. apply parts_app; [exact H3|].
    destruct (str_empty (pc_arguments p)) eqn:E; [by apply str_empty_spec in E as ->|]. cbn. by rewrite str_app_nil.
Qed.
(** A piece of a call: of the open one, or of a new one. *)
Lemma feed_piece pieces acc raw p :
  slots_of pieces acc -> piece_at raw p -> orderly (Some <$> (pc_index <$> pieces ++ [p])) ->
  exists es acc', feed_tool_call raw acc = Ok (es, acc') /\ slots_of (pieces ++ [p]) acc' /\ ac_usage acc' = ac_usage acc.
Proof using Type.
  intros Hslots (d & function & -> & Hindex & Hid & Hf & Hname & Hargs) Hord. set (i := pc_index p) in *.
  rewrite !fmap_app in Hord. destruct (Hord _ (Some i) [] eq_refl) as [_ Hplace]. rewrite fmap_last in Hplace.
  cbn [Llm.feed_tool_call]. assert (read_index d = Ok (Some i)) as ->.
  { unfold read_index. destruct Hindex as [->|[-> ->]]; done. }
  cbn [rbind].
  assert (exists es acc1 slot1, leave json_loads (Some i) acc = Ok (es, acc1) /\ ac_usage acc1 = ac_usage acc /\
    dict_keys (ac_tool_calls acc1) = dict_keys (ac_tool_calls acc) /\
    default new_slot (dict_get (Some i) (ac_tool_calls acc1)) = slot1 /\ holds i pieces slot1 /\ sl_closed slot1 = false /\
    forall j slot, j <> i -> dict_get (Some j) (ac_tool_calls acc1) = Some slot -> holds j pieces slot /\ sl_closed slot = true)
    as (es & acc1 & slot1 & -> & Husage & Hkeys1 & Hslot1 & Hh1 & Hc1 & Hrest).
  { destruct (decide (last (pc_index <$> pieces) = Some i)) as [Hl|Hl].
    - unfold leave. rewrite (so_open _ _ Hslots), Hl, decide_True by done. eexists _, acc, _. split_and!; [done..| | |].
      all: assert (Some i ∈ dict_keys (ac_tool_calls acc)) as Hin by
        (apply (so_keys _ _ Hslots); exists i; split; [done|]; apply last_Some in Hl as [l' ->]; apply elem_of_app; right; by left);
        destruct (dict_get (Some i) (ac_tool_calls acc)) as [slot|] eqn:Hg; [|by apply dict_get_None in Hg]; cbn [default from_option].
      + by apply (so_holds _ _ Hslots).
      + change (sl_closed (id slot)) with (sl_closed slot). destruct (sl_closed slot) eqn:E; [|done].
        apply (so_closed _ _ Hslots i slot Hg) in E. rewrite (so_open _ _ Hslots) in E. congruence.
      + intros j sl Hj Hgj. split; [by apply (so_holds _ _ Hslots)|]. apply (so_closed _ _ Hslots j sl Hgj). rewrite (so_open _ _ Hslots). congruence.
    - destruct (leave_slots pieces acc i Hslots Hl) as (es & acc1 & He & Hu & Hk & Hall). eexists es, acc1, _. split_and!; [done..| | |auto].
      all: assert (i ∉ pc_index <$> pieces) as Hnew by
        (destruct Hplace as [Hp|Hp]; [destruct (last (pc_index <$> pieces)); cbn in Hp; congruence|intros Hin; apply Hp, list_elem_of_fmap; by exists i]);
        assert (dict_get (Some i) (ac_tool_calls acc1) = None) as ->
          by (apply dict_get_None; rewrite Hk; intros (k & [= <-] & Hin)%(so_keys _ _ Hslots); done); cbn [default from_option].
      + assert (of_call i pieces = []) as Hof.
        { destruct (of_call i pieces) as [|q l] eqn:Hq; [done|]. assert (q ∈ of_call i pieces) as Hin by (rewrite Hq; by left).
          apply list_elem_of_filter in Hin as [Hqi Hin]. exfalso. apply Hnew, list_elem_of_fmap. by exists q. }
        split; unfold id_of, name_of, arguments_of; rewrite ?Hof; done.
      + done. }
  cbn [rbind]. rewrite Hslot1.
  destruct (fill_holds d function p i pieces slot1 Hid Hf Hname Hargs eq_refl Hh1 Hc1) as (slot2 & -> & Hh2 & Hc2). cbn [rbind].
  destruct (start (Some i) slot2) as [started slot3] eqn:Hs.
  assert (holds i (pieces ++ [p]) slot3 /\ sl_closed slot3 = false) as [Hh3 Hc3].
  { unfold start in Hs. destruct (negb (sl_started slot2) && _ && _); injection Hs as <- <-; [|done]. by destruct Hh2 as [? ? ? ?]. }
  eexists _, _. split; [done|]. split; [|done].
  split; cbn [with_slots ac_tool_calls ac_open_index].
  - rewrite dict_keys_set, Hkeys1. pose proof (so_nodup _ _ Hslots) as Hnd. case_decide as Hin; [done|].
    apply NoDup_app. split_and!; [done| |apply NoDup_singleton]. intros x Hx ->%list_elem_of_singleton. done.
  - intros j. rewrite dict_keys_set, Hkeys1, fmap_app. case_decide as Hin.
    + rewrite (so_keys _ _ Hslots). setoid_rewrite elem_of_app. split; [intros (k & -> & Hk); eauto|].
      intros (k & -> & [Hk|Hk%list_elem_of_singleton]); [eauto|]. subst k. by apply (so_keys _ _ Hslots).
    + rewrite elem_of_app, (so_keys _ _ Hslots), list_elem_of_singleton. setoid_rewrite elem_of_app. split.
      * intros [(k & -> & Hk)| ->]; [eauto|]. exists i. split; [done|]. right. by left.
      * intros (k & -> & [Hk|Hk%list_elem_of_singleton]); [left; eauto|right; by subst].
  - rewrite fmap_app. symmetry. apply last_snoc.
  - intros j slot. rewrite dict_get_set. case_decide as Hj; [injection Hj as <-; by intros [= <-]|].
    intros Hg. apply (holds_agree _ _ pieces); [|by apply (Hrest j); [congruence|]]. apply other_call. intros Hi. apply Hj. by rewrite <-Hi.
  - intros j slot. rewrite dict_get_set. case_decide as Hj; [injection Hj as <-; intros [= <-]; rewrite Hc3; by split|].
    intros Hg. destruct (Hrest j slot) as [_ ->]; [congruence|done|]. split; [congruence|done].
Qed.
Lemma feed_pieces raws ps pieces acc :
  slots_of pieces acc -> Forall2 piece_at raws ps -> orderly (Some <$> (pc_index <$> pieces ++ ps)) ->
  exists es acc', feed_tool_calls raws acc = Ok (es, acc') /\ slots_of (pieces ++ ps) acc' /\ ac_usage acc' = ac_usage acc /\
    ac_content_parts acc' = ac_content_parts acc.
Proof using Type.
  intros Hslots Hps. revert pieces acc Hslots. induction Hps as [|raw p raws ps Hp _ IH]; intros pieces acc Hslots Hord; cbn [Llm.feed_tool_calls].
  - rewrite app_nil_r. by eexists _, _.
  - change (p :: ps) with ([p] ++ ps) in *. rewrite app_assoc in *.
    destruct (feed_piece pieces acc raw p Hslots Hp) as (es & acc1 & He & Hs1 & Hu1).
    { rewrite (fmap_app _ (pieces ++ [p]) ps), fmap_app in Hord. by eapply orderly_prefix. }
    destruct (IH (pieces ++ [p]) acc1 Hs1 Hord) as (es' & acc2 & He' & Hs2 & Hu2 & Hp2).
    apply feed_tool_call_quiet in He as Hq. destruct Hq as (_ & _ & Hp1).
    rewrite He. cbn [rbind]. rewrite He'. cbn [rbind]. eexists _, _. split_and!; [done|done|congruence|congruence].
Qed.

(** *** Chunks *)

Record gathered (parts : list Part) (events : list StreamEvent) (acc : Accumulator) : Prop := {
  ga_texts : ac_content_parts acc = shown_texts parts;
  ga_usage : ac_usage acc = last_usage parts;
  ga_slots : slots_of (pieces_of parts) acc;
  ga_told : told events (Some <$> (pc_index <$> pieces_of parts)) acc }.
Lemma slots_of_same pieces acc acc' :
  ac_tool_calls acc' = ac_tool_calls acc -> ac_open_index acc' = ac_open_index acc -> slots_of pieces acc -> slots_of pieces acc'.
Proof using Type. intros E1 E2 [H1 H2 H3 H4 H5]. split; rewrite ?E1, ?E2; done. Qed.
Lemma gathered_new : gathered [] [] new_accumulator.
Proof using Type.
  split; [done|done| |apply told_new]. split; cbn; [constructor| |done|done|done].
  intros j. rewrite elem_of_nil. split; [done|]. by intros (i & _ & ?%elem_of_nil).
Qed.
Lemma pieces_snoc parts part : pieces_of (parts ++ [part]) = pieces_of parts ++ pa_calls part.
Proof using Type. unfold pieces_of. rewrite fmap_app, concat_app. cbn. by rewrite app_nil_r. Qed.
Lemma pieces_app a b : pieces_of (a ++ b) = pieces_of a ++ pieces_of b.
Proof using Type. unfold pieces_of. by rewrite fmap_app, concat_app. Qed.
Lemma index_of_piece raw p : piece_at raw p -> index_of raw = [Some (pc_index p)].
Proof using Type. intros (d & _ & -> & [Hi|[Hi Hz]] & _); cbn; unfold read_index; rewrite Hi; [done|by rewrite Hz]. Qed.
Lemma indexes_of_pieces raws ps : Forall2 piece_at raws ps -> indexes_of raws = Some <$> (pc_index <$> ps).
Proof using Type.
  unfold indexes_of. induction 1 as [|raw p raws ps Hp _ IH]; [done|]. cbn [mbind list_bind]. rewrite (index_of_piece _ _ Hp).
  cbn [fmap list_fmap app]. by f_equal.
Qed.
Lemma delta_calls d part :
  delta_at d part -> exists raws, Forall2 piece_at raws (pa_calls part) /\
    truthy_field "tool_calls" d = match raws with [] => None | _ => Some (JList raws) end.
Proof using Type.
  intros [_ [(raws & Hr & Hps)|[-> Hm]]].
  - exists raws. split; [done|]. unfold Llm.truthy_field. rewrite Hr. by destruct raws.
  - exists []. split; [constructor|]. unfold Llm.truthy_field. by destruct Hm as [-> | ->].
Qed.
Lemma chunk_choices raw part :
  chunk_at raw part ->
  (truthy_field "choices" raw = None /\ pa_text part = "" /\ pa_calls part = []) \/
  exists choices d, truthy_field "choices" raw = Some choices /\ delta_of read_float choices = Ok d /\ delta_at d part.
Proof using Type.
  intros (_ & _ & [(choice & more & d & Hc & Hd & Hat)|(Ht & Hcalls & Hnone)]); unfold Llm.truthy_field.
  - right. rewrite Hc. eexists _, d. split; [done|]. split; [|done]. cbn [delta_of]. rewrite (fields_truthy _ _ _ Hd). by destruct d.
  - left. split; [|done]. by destruct Hnone as [[-> | ->]| ->].
Qed.
Lemma raws_index data raw part :
  json_loads data = Ok (JObj raw) -> chunk_at raw part ->
  indexes_of (raws_of read_float json_loads data) = Some <$> (pc_index <$> pa_calls part).
Proof using Type.
  intros Hl Hc. unfold raws_of. rewrite Hl. destruct (chunk_choices _ _ Hc) as [(-> & _ & ->)|(choices & d & -> & -> & Hd)]; [done|].
  unfold raw_calls. destruct (delta_calls d part Hd) as (raws & Hps & ->). rewrite <-(indexes_of_pieces _ _ Hps). by destruct raws.
Qed.
Lemma feed_text d part acc events :
  delta_at d part -> exists es, feed_content read_float d acc = Ok (es,
    {| ac_content_parts := ac_content_parts acc ++ filter (fun text => text <> "") [pa_text part]; ac_tool_calls := ac_tool_calls acc;
       ac_open_index := ac_open_index acc; ac_usage := ac_usage acc; ac_ignored_fields := ac_ignored_fields acc |}) /\ events = events ++ ([] : list StreamEvent).
Proof using Type.
  intros [Ht _]. unfold feed_content. rewrite (text_truthy _ _ _ Ht), app_nil_r. destruct (str_empty (pa_text part)) eqn:E.
  - apply str_empty_spec in E. rewrite filter_cons_False, filter_nil, app_nil_r by (intros Hn; by apply Hn). eexists. split; [|done]. by destruct acc.
  - rewrite filter_cons_True, filter_nil by (intros Hn; by rewrite Hn in E). by eexists.
Qed.
Lemma feed_chunk_body data raw acc :
  json_loads data = Ok (JObj raw) -> (forall error, dict_get "error" raw <> Some (JObj error)) ->
  feed data acc =
  let acc := match usage_of raw with Some usage => with_usage usage acc | None => acc end in
  match truthy_field "choices" raw with
  | None => Ok ([], acc)
  | Some choices => let? delta := delta_of read_float choices in feed_delta delta acc
  end.
Proof using Type.
  intros Hl Herror. unfold Llm.feed. rewrite Hl. destruct (dict_get "error" raw) as [[]|]; try done. by destruct (Herror _ eq_refl).
Qed.
Lemma feed_chunk data raw part parts events acc :
  json_loads data = Ok (JObj raw) -> chunk_at raw part -> gathered parts events acc ->
  orderly (Some <$> (pc_index <$> pieces_of (parts ++ [part]))) ->
  exists es acc', feed data acc = Ok (es, acc') /\ gathered (parts ++ [part]) (events ++ es) acc'.
Proof using Type.
  intros Hl Hc [Htexts Husage Hslots Htold] Hord.
  enough (exists es acc', feed data acc = Ok (es, acc') /\ ac_content_parts acc' = shown_texts (parts ++ [part]) /\
    ac_usage acc' = last_usage (parts ++ [part]) /\ slots_of (pieces_of (parts ++ [part])) acc') as (es & acc' & Hf & H1 & H2 & H3).
  { exists es, acc'. split; [done|]. split; [done..|]. pose proof (feed_told str_lower read_float str_other json_loads _ _ _ _ _ _ Htold Hf) as Ht.
    rewrite (raws_index data raw part Hl Hc) in Ht. rewrite pieces_snoc, !fmap_app. exact Ht. }
  destruct Hc as (Herror & Hu & Hrest). rewrite (feed_chunk_body data raw acc Hl Herror).
  set (acc0 := match usage_of raw with Some usage => with_usage usage acc | None => acc end).
  assert (ac_content_parts acc0 = shown_texts parts) as Ht0 by (unfold acc0; by destruct (usage_of raw)).
  assert (ac_usage acc0 = last_usage (parts ++ [part])) as Hu0.
  { unfold acc0, last_usage. rewrite omap_app. cbn [omap list_omap]. rewrite Hu. destruct (pa_usage part); [by rewrite last_snoc|by rewrite app_nil_r]. }
  assert (slots_of (pieces_of parts) acc0) as Hs0 by (apply (slots_of_same _ acc); [unfold acc0; by destruct (usage_of raw)..|done]).
  clearbody acc0. assert (shown_texts (parts ++ [part]) = shown_texts parts ++ filter (fun text => text <> "") [pa_text part]) as Hsnoc
    by (unfold shown_texts; by rewrite fmap_app, filter_app).
  destruct (chunk_choices raw part (conj Herror (conj Hu Hrest))) as [(-> & Ht & Hcalls)|(choices & d & -> & Hd & Hat)].
  - eexists [], acc0. split; [done|]. rewrite Hsnoc, Ht, pieces_snoc, Hcalls. rewrite filter_cons_False, filter_nil, !app_nil_r by (intros Hn; by apply Hn). done.
  - rewrite Hd. cbn [rbind]. unfold Llm.feed_delta.
    destruct (feed_text d part (with_ignored (note_ignored read_float d (ac_ignored_fields acc0)) acc0) [] Hat) as (es1 & -> & _). cbn [rbind].
    set (acc1 := {| ac_content_parts := _ |}). assert (slots_of (pieces_of parts) acc1) as Hs1 by by apply (slots_of_same _ acc0).
    destruct (delta_calls d part Hat) as (raws & Hps & ->). rewrite pieces_snoc in *.
    destruct (feed_pieces raws _ _ acc1 Hs1 Hps Hord) as (es2 & acc2 & He2 & Hs2 & Hu2 & Hp2).
    assert (match match raws with [] => None | _ => Some (JList raws) end with
            | None => Ok ([], acc1) | Some (JList raws) => feed_tool_calls raws acc1
            | Some (JObj _ | JStr _) => attribute_error | Some _ => type_error end = Ok (es2, acc2)) as -> by (by destruct raws).
    cbn [rbind]. eexists _, acc2. split; [done|]. rewrite Hsnoc, Hp2, Hu2. split_and!; [|done|done].
    unfold acc1. cbn [ac_content_parts with_ignored]. by rewrite Ht0.
Qed.

(** *** The reply in one piece *)

Lemma parse_whole_call pieces i call :
  parse_tool_call read_float json_loads (whole_call pieces i) = Ok call ->
  tc_id call = id_of i pieces /\ tc_name call = name_of i pieces /\
  json_loads (arguments_text (arguments_of i pieces)) = Ok (JObj (tc_arguments call)).
Proof using Type.
  unfold parse_tool_call. intros H. apply rbind_Ok in H as (args & Ha & H).
  change (string_at "id" _) with (@Ok Exn _ (id_of i pieces)) in H. change (string_at "name" _) with (@Ok Exn _ (name_of i pieces)) in H.
  cbn [rbind] in H. injection H as <-. split_and!; [done..|]. cbn [tc_arguments].
  change (parse_arguments read_float json_loads (whole_call pieces i)) with
    (match (if json_truthy read_float (JStr (arguments_of i pieces)) then JStr (arguments_of i pieces) else JStr "{}") with
     | JStr text => match json_loads text with Ok (JObj arguments) => Ok arguments | Ok _ => Err (LLMResponseError ARGUMENTS_NOT_OBJECT_MESSAGE) | Err _ => parse_error end
     | _ => parse_error end) in Ha.
  cbn [json_truthy] in Ha. unfold arguments_text. destruct (str_empty (arguments_of i pieces)); cbn [negb] in Ha;
    destruct (json_loads _) as [[]|]; try done; by injection Ha as <-.
Qed.
Lemma whole_calls_match pieces slots calls :
  (forall kv, kv ∈ slots -> exists i, kv.1 = Some i /\ holds i pieces kv.2 /\ sl_closed kv.2 = true) ->
  parse_tool_calls read_float json_loads (whole_call pieces <$> ((fun kv => default 0%Z kv.1) <$> slots)) = Ok calls ->
  (fun kv => call_of kv.2) <$> slots = calls.
Proof using Type.
  revert calls. induction slots as [|kv slots IH]; intros calls Hslots; cbn [fmap list_fmap parse_tool_calls]; [by intros [= <-]|].
  intros H. apply rbind_Ok in H as (call & Hcall & H). apply rbind_Ok in H as (rest & Hrest & [= <-]). f_equal.
  - destruct (Hslots kv) as (i & Hi & [H1 H2 H3 H4] & Hc); [by left|]. rewrite Hi in Hcall. cbn [default from_option id] in Hcall.
    apply parse_whole_call in Hcall as (E1 & E2 & Hl). destruct call as [cid name args]. cbn [tc_id tc_name tc_arguments] in *.
    unfold call_of. by rewrite H1, H2, (H4 args Hc Hl), E1, E2.
  - apply IH; [|done]. intros kv' Hin. apply Hslots. by right.
Qed.
Lemma parse_whole_reply parts message :
  parse_reply read_float json_loads (whole_reply parts) = Ok message ->
  exists calls, message = assistant (str_join "" (shown_texts parts)) calls /\
    parse_tool_calls read_float json_loads (whole_call (pieces_of parts) <$> numbers (pieces_of parts)) = Ok calls.
Proof using Type.
  unfold parse_reply. change (raw_message (whole_reply parts)) with
    (Some [("role" : pystr, JStr "assistant"); ("content" : pystr, JStr (str_join "" (shown_texts parts)));
           ("tool_calls" : pystr, JList (whole_call (pieces_of parts) <$> numbers (pieces_of parts)))]). cbn iota.
  set (fields := [_; _; _]). intros H. apply rbind_Ok in H as (content & Hc & H). apply rbind_Ok in H as (calls & Hcalls & [= <-]).
  exists calls. split.
  - f_equal. unfold reply_content in Hc. rewrite (text_truthy "content" fields (str_join "" (shown_texts parts))) in Hc by (by left).
    destruct (str_empty (str_join "" (shown_texts parts))) eqn:E; injection Hc as <-; [|done]. symmetry. by apply str_empty_spec.
  - unfold reply_calls, Llm.truthy_field in Hcalls. change (dict_get "tool_calls" fields) with
      (Some (JList (whole_call (pieces_of parts) <$> numbers (pieces_of parts)))) in Hcalls. cbn iota in Hcalls.
    by destruct (whole_call (pieces_of parts) <$> numbers (pieces_of parts)).
Qed.
Lemma slots_numbered pieces slots :
  NoDup (dict_keys slots) -> (forall j, j ∈ dict_keys slots <-> exists i, j = Some i /\ i ∈ pc_index <$> pieces) ->
  (fun kv : option Z * Slot => default 0%Z kv.1) <$> order_by (fun kv => default 0%Z kv.1) slots = numbers pieces.
Proof using Type.
  intros Hnd Hkeys. set (key := fun kv : option Z * Slot => default 0%Z kv.1).
  assert (NoDup (key <$> slots)) as Hnd'.
  { assert (key <$> slots = default 0%Z <$> dict_keys slots) as -> by (unfold dict_keys; by rewrite <-list_fmap_compose).
    apply NoDup_fmap_2_strong; [|done].
    intros x y Hx Hy. apply Hkeys in Hx as (i & -> & _). apply Hkeys in Hy as (k & -> & _). cbn. by intros ->. }
  apply (Sorted_unique Z.le).
  - pose proof (order_by_sorted key slots) as Hs. unfold sorted_by in Hs. clear -Hs.
    induction Hs as [|kv l Hs IH Hhd]; cbn; constructor; [done|]. destruct Hhd; cbn; by constructor.
  - exact (order_by_sorted id (remove_dups (pc_index <$> pieces))).
  - rewrite (order_by_perm key). unfold numbers. rewrite (order_by_perm id). apply NoDup_Permutation; [done|apply NoDup_remove_dups|].
    intros i. rewrite elem_of_remove_dups. split.
    + intros (kv & -> & Hin)%list_elem_of_fmap. assert (kv.1 ∈ dict_keys slots) as Hk by (apply list_elem_of_fmap; by exists kv).
      apply Hkeys in Hk as (i & Hi & Hp). unfold key. by rewrite Hi.
    + intros Hi. assert (Some i ∈ dict_keys slots) as Hk by (apply Hkeys; by exists i).
      apply list_elem_of_fmap in Hk as (kv & Hkv & Hin). apply list_elem_of_fmap. exists kv. unfold key. by rewrite <-Hkv.
Qed.
Lemma finish_closes pieces acc :
  slots_of pieces acc ->
  exists es acc', finish json_loads acc = Ok (es, acc') /\ ac_usage acc' = ac_usage acc /\ ac_content_parts acc' = ac_content_parts acc /\
    dict_keys (ac_tool_calls acc') = dict_keys (ac_tool_calls acc) /\
    forall kv, kv ∈ ac_tool_calls acc' -> exists i, kv.1 = Some i /\ holds i pieces kv.2 /\ sl_closed kv.2 = true.
Proof using Type.
  intros Hslots. set (i := (1 + default 0 (last (pc_index <$> pieces)))%Z).
  assert (last (pc_index <$> pieces) <> Some i) as Hi by (intros H; unfold i in H; rewrite H in H; cbn in H; injection H; lia).
  destruct (leave_slots pieces acc i Hslots Hi) as (es & acc' & Hl & Hu & Hk & Hall).
  assert (finish json_loads acc = leave json_loads (Some i) acc) as Heq.
  { unfold finish, leave. rewrite (so_open _ _ Hslots). destruct (last (pc_index <$> pieces)) as [o|] eqn:E; [|done]. by rewrite decide_False by congruence. }
  exists es, acc'. rewrite Heq. apply leave_quiet in Hl as Hq. destruct Hq as (_ & _ & Hp). split_and!; [done..|]. intros [k slot] Hin.
  assert (k ∈ dict_keys (ac_tool_calls acc')) as Hin' by (apply list_elem_of_fmap; by exists (k, slot)).
  rewrite Hk in Hin'. apply (so_keys _ _ Hslots) in Hin' as (j & -> & _). exists j. split; [done|]. apply Hall. apply dict_elem_get; [|done].
  unfold dict_ok. rewrite Hk. apply (so_nodup _ _ Hslots).
Qed.
Lemma finishing_whole parts events acc message :
  gathered parts events acc -> orderly (Some <$> (pc_index <$> pieces_of parts)) ->
  parse_reply read_float json_loads (whole_reply parts) = Ok message ->
  exists es, finishing json_loads acc = {| pl_events := es ++ [StreamFinished message (last_usage parts)]; pl_end := None |} /\
    texts (events ++ es) = shown_texts parts /\ Forall unfinished (events ++ es) /\ terminals (events ++ es) ≡ₚ cm_tool_calls message.
Proof using Type.
  intros [Htexts Husage Hslots Htold] Hord (calls & -> & Hcalls)%parse_whole_reply.
  destruct (finish_closes _ _ Hslots) as (es & acc' & Hf & Hu & Hp & Hk & Hall).
  destruct (finish_told _ _ _ _ _ _ Htold Hf) as (Ht & Hun & Hterm). specialize (Hterm Hord) as [Hterm Hclosed].
  exists es. unfold finishing. rewrite Hf. unfold build_message. rewrite close_all_closed by done. cbn [rbind]. unfold sorted_slots.
  rewrite bool_decide_eq_false_2 by (rewrite Hk; intros (i & ? & _)%(so_keys _ _ Hslots); done). cbn [andb rbind].
  assert (forall j, j ∈ dict_keys (ac_tool_calls acc') <-> exists i, j = Some i /\ i ∈ pc_index <$> pieces_of parts) as Hkeys
    by (intros j; rewrite Hk; apply (so_keys _ _ Hslots)).
  assert (NoDup (dict_keys (ac_tool_calls acc'))) as Hnd by (rewrite Hk; apply (so_nodup _ _ Hslots)).
  rewrite <-(slots_numbered _ _ Hnd Hkeys) in Hcalls. apply whole_calls_match in Hcalls as Hsame;
    [|intros kv Hin; apply Hall; by rewrite (order_by_perm _) in Hin].
  rewrite Hsame, Hp, Htexts, Hu, Husage. split_and!; [done|by rewrite Ht, Hp|done|].
  cbn [cm_tool_calls assistant]. rewrite Hterm, <-Hsame. by rewrite (order_by_perm _).
Qed.
Lemma data_line text : data_of (SSE_DATA_PREFIX +s+ text) = Some (str_strip text).
Proof using Type.
  unfold data_of, str_startswith. rewrite bool_decide_eq_true_2 by done.
  assert (str_drop 5 (SSE_DATA_PREFIX +s+ text) = text) as -> by (by apply codes_inj). done.
Qed.
(** How a body ends: the end marker and whatever follows, or the end itself. *)
Definition body_ends (rest : list pystr) (broken : option http_error) : Prop :=
  rest = [] /\ broken = None \/ exists text more, rest = (SSE_DATA_PREFIX +s+ text) :: more /\ str_strip text = SSE_DONE_MARKER.
Lemma read_end rest broken acc : body_ends rest broken -> read_lines rest broken acc = finishing json_loads acc.
Proof using Type.
  intros [[-> ->]|(text & more & -> & Ht)]; [done|]. cbn [Llm.read_lines]. rewrite data_line, Ht. by rewrite decide_True by done.
Qed.
Lemma read_gathered lines partss rest broken parts events acc message :
  Forall2 line_at lines partss -> body_ends rest broken -> gathered parts events acc ->
  orderly (Some <$> (pc_index <$> pieces_of (parts ++ concat partss))) ->
  parse_reply read_float json_loads (whole_reply (parts ++ concat partss)) = Ok message ->
  exists es, read_lines (lines ++ rest) broken acc = {| pl_events := es ++ [StreamFinished message (last_usage (parts ++ concat partss))]; pl_end := None |} /\
    texts (events ++ es) = shown_texts (parts ++ concat partss) /\ Forall unfinished (events ++ es) /\
    terminals (events ++ es) ≡ₚ cm_tool_calls message.
Proof using Type.
  intros Hlines Hend. revert parts events acc. induction Hlines as [|line ps lines partss Hline _ IH]; intros parts events acc Hg Hord Hparse.
  - cbn [concat app] in *. rewrite app_nil_r in *. rewrite (read_end _ _ _ Hend). by apply finishing_whole.
  - cbn [concat app Llm.read_lines] in *. rewrite app_assoc in *. destruct Hline as [line Hskip|text raw part Hdone Hl Hat].
    + unfold data_of. rewrite Hskip. rewrite app_nil_r in *. by apply IH.
    + rewrite data_line, decide_False by done.
      destruct (feed_chunk _ raw part parts events acc Hl Hat Hg) as (es & acc' & Hf & Hg').
      { rewrite (pieces_app (parts ++ [part])), (fmap_app pc_index), (fmap_app Some) in Hord. by eapply orderly_prefix. }
      rewrite Hf. destruct (IH (parts ++ [part]) (events ++ es) acc' Hg' Hord Hparse) as (es' & -> & Ht & Hun & Hterm).
      exists (es ++ es'). rewrite !app_assoc in *. split_and!; [unfold before; cbn [pl_events pl_end]; by rewrite app_assoc|done..].
Qed.

(** C37: However a provider cuts a reply: in any chunks, with any fields next to
    those read, texts between the calls, an identifier, a name and arguments
    each in as many pieces as it likes, lines that are no data, a last chunk of
    usage alone, but each call before the next one begins. The stream shows the
    pieces of the text in order, says how every call ended, and finishes with
    the very message that the reply read in one piece is, when that one reads. *)
Theorem streamed_in_pieces lines partss rest broken message :
  let parts := concat partss in
  Forall2 line_at lines partss -> body_ends rest broken -> orderly (Some <$> (pc_index <$> pieces_of parts)) ->
  parse_reply read_float json_loads (whole_reply parts) = Ok message ->
  exists events,
    read_lines (lines ++ rest) broken new_accumulator =
      {| pl_events := events ++ [StreamFinished message (last_usage parts)]; pl_end := None |} /\
    texts events = shown_texts parts /\ Forall unfinished events /\ terminals events ≡ₚ cm_tool_calls message.
Proof using Type.
  intros parts Hlines Hend Hord Hparse. exact (read_gathered lines partss rest broken [] [] _ message Hlines Hend gathered_new Hord Hparse).
Qed.
End Gathered.
