(* ===== verification/Embeddings.v ===== *)
(** * Embeddings and reranking ([llm/embeddings.py], [llm/embedding_cache.py], [llm/http_reranker.py])

    The clients of two HTTP services, and the cache of embeddings with its
    futures.  The calls of the cache interleave: a call runs from one [await]
    to the next, and what happens to the calls in between is a list of events.
    The laws are at the end. *)
From Stdlib Require Import SpecFloat.
From S2P Require Import Prelude PyStr PyFloat Clock Sql Dict Domain Loop Ranking Llm.

(** ** Numbers of the wire *)

Section Numbers.
(** [float(text)], [None] its [ValueError]. *)
Context (read_float : pystr -> option float).

Definition overflow_error {A} : Res Exn A := Err (OtherError "OverflowError").
Definition value_error {A} : Res Exn A := Err (OtherError "ValueError").
Definition is_infinite (x : float) : bool := match x with S754_infinity _ => true | _ => false end.
(** [float(v)] *)
Definition float_value (v : json) : Res Exn float :=
  match v with
  | JInt z => if is_infinite (float_of_Z z) then overflow_error else Ok (float_of_Z z)
  | JBool b => Ok (float_of_Z (Z.b2z b))
  | JFloat text | JStr text => match read_float text with Some x => Ok x | None => value_error end
  | _ => type_error
  end.
(** A number of the wire, exactly: the multiple of [2 ^ -1074] it is; those of
    infinities stand past every finite one.  [None] for what is no number. *)
Definition unit_exponent : Z := 1074.
Definition beyond : Z := Z.shiftl 1 4096.
Definition exact_float (x : float) : option Z :=
  match x with
  | S754_zero _ => Some 0%Z
  | S754_finite s m e => Some (Z.shiftl (if s then Z.neg m else Z.pos m) (e + unit_exponent))
  | S754_infinity s => Some (if s then (- beyond)%Z else beyond)
  | S754_nan => None
  end.
Definition exact (v : json) : option Z :=
  match v with
  | JInt z => Some (Z.shiftl z unit_exponent)
  | JBool b => Some (Z.shiftl (Z.b2z b) unit_exponent)
  | JFloat literal => read_float literal ≫= exact_float
  | _ => None
  end.
End Numbers.

(** ** Embeddings *)

Definition EMBEDDINGS_PATH : pystr := "/embeddings".
Definition EMBEDDINGS_PARSE_ERROR : pystr := "Unexpected embeddings response payload".
Record EmbeddingConfig := { ec_api_key : pystr; ec_model : pystr; ec_timeout_seconds : float }.
Record PostRequest := { pq_url : pystr; pq_json : json; pq_headers : list (pystr * pystr); pq_timeout : float }.

Section Embed.
Context (str_lower : pystr -> pystr) (read_float : pystr -> option float) (str_other : json -> pystr).
Context (json_loads : pystr -> Res pystr json) (http_date : pystr -> option time).
Context {S : Type} (utc_now : M S Exn time) (sleeper : float -> M S Exn unit).
Context (http_post : PostRequest -> M S Exn (Res http_error ApiResponse)).
Abbreviation raise_for_error_status := (raise_for_error_status str_lower read_float str_other json_loads http_date).

(** [_parse_response]: the items ordered by their index, each at the position
    it names.  What is no number compares with nothing or is at no position. *)
Definition embeddings_error {A} : Res Exn A := Err (LLMResponseError EMBEDDINGS_PARSE_ERROR).
Definition as_embeddings_error {A} (e : Exn) : Res Exn A :=
  match e with
  | OtherError name => if bool_decide (name = "TypeError" \/ name = "ValueError") then embeddings_error else Err e
  | e => Err e
  end.
Definition index_of_item (item : json) : option Z :=
  match item with JObj fields => dict_get "index" fields ≫= exact read_float | _ => None end.
Definition components_of (v : json) : option (list json) :=
  match v with
  | JList l => Some l
  | JStr s => Some ((fun c => JStr (PyStr [c])) <$> codes s)
  | JObj fields => Some (JStr <$> dict_keys fields)
  | _ => None
  end.
Definition vector_of_item (item : json) : Res Exn vector :=
  match (match item with JObj fields => dict_get "embedding" fields ≫= components_of | _ => None end) with
  | None => embeddings_error
  | Some components => match each (float_value read_float) components with Ok v => Ok v | Err e => as_embeddings_error e end
  end.
Definition item_at (positioned : Z * (Z * json)) : Res Exn vector :=
  let '(position, (index, item)) := positioned in
  if bool_decide (index = Z.shiftl position unit_exponent) then vector_of_item item else embeddings_error.
Definition numbered {A} (from : Z) (l : list A) : list (Z * A) := zip (Z.add from <$> (Z.of_nat <$> seq 0 (length l))) l.
Definition parse_response (data : json) (expected : nat) : Res Exn (list vector) :=
  match data with
  | JObj fields =>
      match dict_get "data" fields with
      | Some (JList items) =>
          if negb (bool_decide (length items = expected)) then embeddings_error
          else
            match mapM (fun item => (fun index => (index, item)) <$> index_of_item item) items with
            | None => embeddings_error
            | Some keyed => each item_at (numbered 0 (order_by fst keyed))
            end
      | _ => embeddings_error
      end
  | _ => embeddings_error
  end.

(** A POST whose failures are classified; [response.json()] of a body that is
    no JSON raises the error of the library. *)
Definition posted {A} (send : M S Exn (Res http_error ApiResponse)) (parse : json -> Res Exn A) : M S Exn A :=
  let! answer := send in
  match answer with
  | Err e => raise (transport_error e)
  | Ok response =>
      let! now := utc_now in
      let! _ := lift (raise_for_error_status now response) in
      match json_loads (default "" (ar_body response)) with
      | Ok data => lift (parse data)
      | Err _ => raise (OtherError "JSONDecodeError")
      end
  end.
Definition bearer (api_key : pystr) : list (pystr * pystr) := [("Authorization" : pystr, "Bearer " +s+ api_key)].
Definition embeddings_request (config : EmbeddingConfig) (texts : list pystr) : PostRequest :=
  {| pq_url := EMBEDDINGS_PATH; pq_json := JObj [("model" : pystr, JStr (ec_model config)); ("input" : pystr, JList (JStr <$> texts))];
     pq_headers := bearer (ec_api_key config); pq_timeout := ec_timeout_seconds config |}.
(** [_request], [embed] *)
Definition request_embeddings (config : EmbeddingConfig) (texts : list pystr) : M S Exn (list vector) :=
  posted (http_post (embeddings_request config texts)) (fun data => parse_response data (length texts)).
Definition embed (config : EmbeddingConfig) (texts : list pystr) : M S Exn (list vector) :=
  match texts with
  | [] => ret []
  | texts => retry_transient sleeper SHORT_RETRY_MAX_RETRIES SHORT_RETRY_DELAY_SECONDS (request_embeddings config texts)
  end.

(** ** Reranking *)

Record HttpRerankerConfig := { hr_model : pystr; hr_api_key : pystr; hr_api_url : pystr; hr_timeout_seconds : float }.
Definition RERANK_PARSE_ERROR : pystr := "Unexpected rerank response payload".
Definition rerank_error {A} : Res Exn A := Err (LLMResponseError RERANK_PARSE_ERROR).

(** [_parse_scores]; [True] is the index one. *)
Definition int_index (v : option json) : option Z :=
  match v with Some (JInt z) => Some z | Some (JBool b) => Some (Z.b2z b) | _ => None end.
Definition is_number (v : json) : bool := match v with JInt _ | JBool _ | JFloat _ => true | _ => false end.
Definition parse_score (expected : nat) (raw : json) : Res Exn (nat * float) :=
  match raw with
  | JObj fields =>
      match int_index (dict_get "index" fields) with
      | None => rerank_error
      | Some index =>
          if negb ((0 <=? index)%Z && (index <? Z.of_nat expected)%Z) then rerank_error
          else
            match dict_get "relevance_score" fields with
            | Some score =>
                if is_number score then let? value := float_value read_float score in Ok (Z.to_nat index, value)
                else rerank_error
            | None => rerank_error
            end
      end
  | _ => rerank_error
  end.
Definition put_all (results : list (nat * float)) (scores : list float) : list float :=
  foldl (fun scores result => <[result.1 := result.2]> scores) scores results.
Definition parse_scores (payload : json) (expected : nat) : Res Exn (list float) :=
  match payload with
  | JObj fields =>
      match dict_get "results" fields with
      | Some (JList raws) =>
          let? results := each (parse_score expected) raws in
          let scores := put_all results (replicate expected f_zero) in
          if bool_decide (size (list_to_set (fst <$> results) : gset nat) = expected) then Ok scores else rerank_error
      | _ => rerank_error
      end
  | _ => attribute_error
  end.

(** [_group_by_query]: the positions of each query, in the order the queries
    come first. *)
Definition group_by_query (pairs : list (pystr * pystr)) : list (pystr * list nat) :=
  foldl (fun groups ip => dict_set ip.2.1 (default [] (dict_get ip.2.1 groups) ++ [ip.1]) groups) [] (zip (seq 0 (length pairs)) pairs).
Definition rerank_request (config : HttpRerankerConfig) (query : pystr) (documents : list pystr) : PostRequest :=
  {| pq_url := hr_api_url config;
     pq_json := JObj [("model" : pystr, JStr (hr_model config)); ("query" : pystr, JStr query); ("documents" : pystr, JList (JStr <$> documents));
                      ("top_n" : pystr, JInt (Z.of_nat (length documents))); ("return_documents" : pystr, JBool false)];
     pq_headers := bearer (hr_api_key config); pq_timeout := hr_timeout_seconds config |}.
(** [_score_one_query], [_score_group] *)
Definition score_group (config : HttpRerankerConfig) (query : pystr) (documents : list pystr) : M S Exn (list float) :=
  retry_transient sleeper SHORT_RETRY_MAX_RETRIES SHORT_RETRY_DELAY_SECONDS
    (posted (http_post (rerank_request config query documents)) (fun data => parse_scores data (length documents))).
Definition place (indexes : list nat) (group_scores scores : list float) : list float :=
  put_all (zip indexes group_scores) scores.
(** [score]; the groups are scored one after the other. *)
Fixpoint score_groups (group : pystr -> list pystr -> M S Exn (list float)) (pairs : list (pystr * pystr))
    (groups : list (pystr * list nat)) (scores : list float) : M S Exn (list float) :=
  match groups with
  | [] => ret scores
  | (query, indexes) :: groups =>
      let! group_scores := group query ((fun i => default "" (snd <$> pairs !! i)) <$> indexes) in
      if bool_decide (length indexes = length group_scores)
      then score_groups group pairs groups (place indexes group_scores scores)
      else lift value_error
  end.
Definition score (config : HttpRerankerConfig) (pairs : list (pystr * pystr)) : M S Exn (list float) :=
  match pairs with
  | [] => ret []
  | pairs => score_groups (score_group config) pairs (group_by_query pairs) (replicate (length pairs) f_zero)
  end.
End Embed.

(** ** The cache of embeddings *)

Definition DEFAULT_CACHE_ENTRIES : nat := 128.

(** A future, with the text it was made for, and its result once it is done. *)
Record TextFuture := { tf_text : pystr; tf_result : option (Res Exn vector) }.
(** The attributes of a [CachingEmbeddingClient], and the futures it made. *)
Record CacheState := {
  cs_cache : list (pystr * vector);
  cs_in_flight : list (pystr * nat);
  cs_futures : list TextFuture }.
(** Where a call of [embed] stands: it waits for the embedder in [_compute],
    for the future of another call, for the embedder in [_resolve]. *)
Inductive Phase :=
| Starting
| Computing (texts : list (pystr * nat))
| Waiting (got : list vector) (text : pystr) (future : nat) (rest : list pystr)
| Fetching (got : list vector) (text : pystr) (rest : list pystr)
| Finished (r : Res Exn (list vector)).
Record CacheCall := { cl_texts : list pystr; cl_phase : Phase }.
Definition no_cache : CacheState := {| cs_cache := []; cs_in_flight := []; cs_futures := [] |}.

Section Cache.
Context (max_entries : nat).

Definition move_to_end (text : pystr) (v : vector) (cache : list (pystr * vector)) : list (pystr * vector) :=
  dict_pop text cache ++ [(text, v)].
(** [_remember] *)
Definition remember (text : pystr) (v : vector) (s : CacheState) : CacheState :=
  let cache := move_to_end text v (cs_cache s) in
  {| cs_cache := drop (length cache - max_entries) cache; cs_in_flight := cs_in_flight s; cs_futures := cs_futures s |}.
Definition touch (text : pystr) (v : vector) (s : CacheState) : CacheState :=
  {| cs_cache := move_to_end text v (cs_cache s); cs_in_flight := cs_in_flight s; cs_futures := cs_futures s |}.
(** [if not future.done(): future.set_result(..)] *)
Definition settle (future : nat) (r : Res Exn vector) (s : CacheState) : CacheState :=
  {| cs_cache := cs_cache s; cs_in_flight := cs_in_flight s;
     cs_futures := alter (fun f => match tf_result f with None => {| tf_text := tf_text f; tf_result := Some r |} | Some _ => f end) future (cs_futures s) |}.
Definition land (text : pystr) (s : CacheState) : CacheState :=
  {| cs_cache := cs_cache s; cs_in_flight := dict_pop text (cs_in_flight s); cs_futures := cs_futures s |}.

(** [_resolve] of each text left, up to the next [await] that has to wait. *)
Fixpoint resolve (rest : list pystr) (got : list vector) (s : CacheState) : Phase * CacheState :=
  match rest with
  | [] => (Finished (Ok got), s)
  | text :: rest =>
      match dict_get text (cs_cache s) with
      | Some v => resolve rest (got ++ [v]) (touch text v s)
      | None =>
          match dict_get text (cs_in_flight s) with
          | Some future =>
              match (cs_futures s !! future) ≫= tf_result with
              | Some (Ok v) => resolve rest (got ++ [v]) s
              | Some (Err e) => (Finished (Err e), s)
              | None => (Waiting got text future rest, s)
              end
          | None => (Fetching got text rest, s)
          end
      end
  end.

(** [embed] up to its first [await]. *)
Definition distinct (texts : list pystr) : list pystr :=
  foldl (fun seen text => if decide (text ∈ seen) then seen else seen ++ [text]) [] texts.
Definition missing (texts : list pystr) (s : CacheState) : list pystr :=
  filter (fun text => (text ∉ dict_keys (cs_cache s)) /\ (text ∉ dict_keys (cs_in_flight s))) (distinct texts).
Definition take_off (texts : list pystr) (s : CacheState) : list (pystr * nat) * CacheState :=
  let made := zip texts (seq (length (cs_futures s)) (length texts)) in
  (made, {| cs_cache := cs_cache s; cs_in_flight := foldl (fun d tf => dict_set tf.1 tf.2 d) (cs_in_flight s) made;
            cs_futures := cs_futures s ++ ((fun text => {| tf_text := text; tf_result := None |}) <$> texts) |}).
Definition begin (texts : list pystr) (s : CacheState) : Phase * CacheState :=
  match texts with
  | [] => (Finished (Ok []), s)
  | texts =>
      match missing texts s with
      | [] => resolve texts [] s
      | wanted => let '(made, s) := take_off wanted s in (Computing made, s)
      end
  end.

(** The rest of [_compute], with what the embedder answered. *)
Definition publish (s : CacheState) (tfv : (pystr * nat) * vector) : CacheState :=
  let '((text, future), v) := tfv in settle future (Ok v) (land text (remember text v s)).
Definition abandon (e : Exn) (s : CacheState) (tf : pystr * nat) : CacheState := settle tf.2 (Err e) (land tf.1 s).
Definition computed (texts : list pystr) (made : list (pystr * nat)) (answer : Res Exn (list vector)) (s : CacheState) : Phase * CacheState :=
  match answer with
  | Err e => (Finished (Err e), foldl (abandon e) s made)
  | Ok vectors =>
      let s := foldl publish s (zip made vectors) in
      if bool_decide (length made = length vectors) then resolve texts [] s else (Finished value_error, s)
  end.
(** The rest of [_resolve]. *)
Definition fetched (got : list vector) (text : pystr) (rest : list pystr) (answer : Res Exn (list vector)) (s : CacheState) : Phase * CacheState :=
  match answer with
  | Err e => (Finished (Err e), s)
  | Ok [v] => resolve rest (got ++ [v]) (remember text v s)
  | Ok _ => (Finished value_error, s)
  end.
Definition resumed (got : list vector) (future : nat) (rest : list pystr) (s : CacheState) : option (Phase * CacheState) :=
  match (cs_futures s !! future) ≫= tf_result with
  | Some (Ok v) => Some (resolve rest (got ++ [v]) s)
  | Some (Err e) => Some (Finished (Err e), s)
  | None => None
  end.
(** A cancellation: that of a task that awaits a future cancels the future. *)
Definition cancelled (call : CacheCall) (s : CacheState) : Phase * CacheState :=
  match cl_phase call with
  | Computing made => computed (cl_texts call) made (Err CancelledError) s
  | Waiting _ _ future _ => (Finished (Err CancelledError), settle future (Err CancelledError) s)
  | Finished r => (Finished r, s)
  | _ => (Finished (Err CancelledError), s)
  end.

(** What happens to the calls. *)
Inductive Event :=
| Arrive (texts : list pystr)
| Begin (call : nat)
| Answer (call : nat) (answer : Res Exn (list vector))
| Resume (call : nat)
| Cancel (call : nat).
Record CacheWorld := { cw_state : CacheState; cw_calls : list CacheCall }.
Definition idle : CacheWorld := {| cw_state := no_cache; cw_calls := [] |}.
Definition moved (i : nat) (call : CacheCall) (ps : Phase * CacheState) (w : CacheWorld) : CacheWorld :=
  {| cw_state := ps.2; cw_calls := <[i := {| cl_texts := cl_texts call; cl_phase := ps.1 |}]> (cw_calls w) |}.
Definition on_call (i : nat) (f : CacheCall -> CacheState -> option (Phase * CacheState)) (w : CacheWorld) : CacheWorld :=
  match cw_calls w !! i with
  | None => w
  | Some call => match f call (cw_state w) with Some ps => moved i call ps w | None => w end
  end.
Definition happen (w : CacheWorld) (event : Event) : CacheWorld :=
  match event with
  | Arrive texts => {| cw_state := cw_state w; cw_calls := cw_calls w ++ [{| cl_texts := texts; cl_phase := Starting |}] |}
  | Begin i => on_call i (fun call s => match cl_phase call with Starting => Some (begin (cl_texts call) s) | _ => None end) w
  | Answer i answer =>
      on_call i (fun call s =>
        match cl_phase call with
        | Computing made => Some (computed (cl_texts call) made answer s)
        | Fetching got text rest => Some (fetched got text rest answer s)
        | _ => None
        end) w
  | Resume i => on_call i (fun call s => match cl_phase call with Waiting got _ future rest => resumed got future rest s | _ => None end) w
  | Cancel i => on_call i (fun call s => Some (cancelled call s)) w
  end.
End Cache.

(** ** Laws of the embeddings and of reranking *)

(** What a call of the cache is answered whatever the other calls do, and that
    vectors and scores come in the order they were asked for. *)
Section CacheLaws.
Context (max_entries : nat) (F : pystr -> vector).
Abbreviation happen := (happen max_entries).
Abbreviation publish := (publish max_entries).
Abbreviation remember := (remember max_entries).

(** The embedder answers [F] of each text it was asked, or fails. *)
Definition honest (w : CacheWorld) (event : Event) : Prop :=
  match event with
  | Answer i (Ok vectors) =>
      match cl_phase <$> cw_calls w !! i with
      | Some (Computing made) => vectors = F <$> (fst <$> made)
      | Some (Fetching _ text _) => vectors = [F text]
      | _ => True
      end
  | _ => True
  end.
Inductive reached : CacheWorld -> Prop :=
| reached_idle : reached idle
| reached_event w event : reached w -> honest w event -> reached (happen w event).

Definition making (phase : Phase) : list (pystr * nat) := match phase with Computing made => made | _ => [] end.
Definition made_by (w : CacheWorld) : list (pystr * nat) := cw_calls w ≫= (fun call => making (cl_phase call)).
Definition holds (s : CacheState) (text : pystr) (n : nat) : Prop := tf_text <$> cs_futures s !! n = Some text.
Definition future_ok (f : TextFuture) : Prop := match tf_result f with Some (Ok v) => v = F (tf_text f) | _ => True end.

(** The shared state, with the pairs the calls are computing. *)
Record shared_ok (made : list (pystr * nat)) (s : CacheState) : Prop := {
  so_keys : dict_ok (cs_cache s);
  so_values : forall text v, (text, v) ∈ cs_cache s -> v = F text;
  so_bound : length (cs_cache s) <= max_entries;
  so_flight : cs_in_flight s ≡ₚ made;
  so_texts : NoDup (fst <$> made);
  so_futures : Forall future_ok (cs_futures s);
  so_owned : forall text n, (text, n) ∈ made -> holds s text n;
  so_pending : forall n f, cs_futures s !! n = Some f -> tf_result f = None -> (tf_text f, n) ∈ made }.
Definition keeps (s s' : CacheState) : Prop := forall text n, holds s text n -> holds s' text n.
#[local] Instance keeps_preorder : PreOrder keeps.
Proof using Type. split; [by intros s text n|]. intros a b c H1 H2 text n H. by apply H2, H1. Qed.
Definition at_text (texts : list pystr) (got : list vector) (rest : list pystr) : Prop :=
  exists past, texts = past ++ rest /\ got = F <$> past.
Definition phase_ok (texts : list pystr) (s : CacheState) (phase : Phase) : Prop :=
  match phase with
  | Waiting got text n rest => at_text texts got (text :: rest) /\ holds s text n
  | Fetching got text rest => at_text texts got (text :: rest)
  | Finished (Ok vectors) => vectors = F <$> texts
  | _ => True
  end.
Definition lands (texts : list pystr) (made : list (pystr * nat)) (s : CacheState) (ps : Phase * CacheState) : Prop :=
  shared_ok (making ps.1 ++ made) ps.2 /\ keeps s ps.2 /\ phase_ok texts ps.2 ps.1.

(** ** Steps of the shared state *)

Lemma moved_elem text v cache text' v' :
  (text', v') ∈ move_to_end text v cache <-> (text' = text /\ v' = v) \/ (text' <> text /\ (text', v') ∈ cache).
Proof using Type.
  unfold move_to_end, dict_pop. rewrite elem_of_app, list_elem_of_singleton, list_elem_of_filter. cbn. split.
  - intros [[Hn Hin]|[= -> ->]]; [by right|by left].
  - intros [[-> ->]|[Hn Hin]]; [by right|by left].
Qed.
Lemma moved_ok text v cache : dict_ok cache -> dict_ok (move_to_end text v cache).
Proof using Type.
  intros Hok. unfold move_to_end, dict_ok, dict_keys. rewrite fmap_app. apply NoDup_app. split_and!.
  - by apply dict_ok_pop.
  - intros k Hk ->%list_elem_of_singleton. apply list_elem_of_fmap in Hk as ([? ?] & Heq & [Hn _]%elem_of_dict_pop). done.
  - apply NoDup_singleton.
Qed.
Lemma moved_length text v cache w : dict_ok cache -> dict_get text cache = Some w -> length (move_to_end text v cache) = length cache.
Proof using Type.
  clear F. intros Hok Hg. unfold move_to_end. rewrite length_app. cbn [length].
  induction cache as [|[k x] cache IH]; [done|]. unfold dict_ok, dict_keys in *. cbn in Hok, Hg. apply NoDup_cons in Hok as [Hk Hok].
  unfold dict_pop in *. case_decide as Hd.
  - subst k. rewrite filter_cons_False by (cbn; tauto). rewrite filter_all; [cbn; lia|]. apply Forall_forall.
    intros [k y] Hin Heq. cbn in Heq. subst k. apply Hk. apply list_elem_of_fmap. by exists (text, y).
  - rewrite filter_cons_True by done. cbn [length]. rewrite Nat.add_succ_l. by rewrite IH.
Qed.
Lemma dropped_ok n (cache : list (pystr * vector)) : dict_ok cache -> dict_ok (drop n cache).
Proof using Type. unfold dict_ok, dict_keys. intros H. rewrite fmap_drop. eapply sublist_NoDup; [exact H|]. apply sublist_drop. Qed.
Lemma touch_ok made text v s : shared_ok made s -> dict_get text (cs_cache s) = Some v -> shared_ok made (touch text v s).
Proof using Type.
  intros [] Hg. split; cbn; try done.
  - by apply moved_ok.
  - intros text' v' [[-> ->]|[_ Hin]]%moved_elem; [|by apply so_values0]. by apply so_values0, dict_get_elem.
  - by erewrite moved_length.
Qed.
Lemma remember_ok made text s : shared_ok made s -> shared_ok made (remember text (F text) s).
Proof using Type.
  intros []. split; cbn; try done.
  - by apply dropped_ok, moved_ok.
  - intros text' v' Hin. eapply elem_of_sublist in Hin; [|apply sublist_drop].
    apply moved_elem in Hin as [[-> ->]|[_ Hin]]; [done|by apply so_values0].
  - rewrite length_drop. lia.
Qed.
Lemma settle_get n r s m :
  cs_futures (settle n r s) !! m =
  (fun f => if decide (m = n) then match tf_result f with None => {| tf_text := tf_text f; tf_result := Some r |} | Some _ => f end else f) <$> cs_futures s !! m.
Proof using Type.
  cbn [settle cs_futures]. destruct (decide (m = n)) as [->|Hn].
  - rewrite list_lookup_alter_eq. by destruct (cs_futures s !! n).
  - rewrite list_lookup_alter_ne by done. by destruct (cs_futures s !! m).
Qed.
Lemma settle_keeps n r s : keeps s (settle n r s).
Proof using Type.
  intros text m. unfold holds. rewrite settle_get. destruct (cs_futures s !! m) as [f|]; [|done]. cbn.
  case_decide; [|done]. by destruct (tf_result f).
Qed.
Lemma settle_ok made text n r s :
  shared_ok made s -> holds s text n -> match r with Ok v => v = F text | Err _ => True end -> shared_ok made (settle n r s).
Proof using Type.
  intros [] Hh Hr. split; try done.
  - apply Forall_lookup. intros m f. rewrite settle_get. destruct (cs_futures s !! m) as [g|] eqn:Hg; [|done]. cbn. intros [= <-].
    rewrite Forall_lookup in so_futures0. specialize (so_futures0 _ _ Hg). case_decide; [|done]. subst m.
    destruct (tf_result g) eqn:E; [done|]. unfold future_ok. cbn. unfold holds in Hh. rewrite Hg in Hh. injection Hh as <-. by destruct r.
  - intros t m Hm. by apply settle_keeps, so_owned0.
  - intros m f. rewrite settle_get. destruct (cs_futures s !! m) as [g|] eqn:Hg; [|done]. cbn. intros [= <-] Hp.
    case_decide; [|by apply so_pending0]. destruct (tf_result g) eqn:E; cbn in *; congruence.
Qed.
(** A pair that is settled leaves the flight. *)
Lemma land_ok text n made s :
  shared_ok ((text, n) :: made) s -> (exists f r, cs_futures s !! n = Some f /\ tf_result f = Some r) -> shared_ok made (land text s).
Proof using Type.
  intros [] (f & r & Hf & Hr). cbn in *. apply NoDup_cons in so_texts0 as [Hnew Hnd]. split; cbn; try done.
  - unfold dict_pop. rewrite so_flight0. rewrite filter_cons_False by (cbn; tauto). rewrite filter_all; [done|].
    apply Forall_forall. intros [t m] Hin Heq. cbn in Heq. subst t. apply Hnew, list_elem_of_fmap. by exists (text, m).
  - intros t m Hin. apply so_owned0. by right.
  - intros m g Hg Hp. pose proof (so_pending0 m g Hg Hp) as [[= Ht ->]|Hin]%elem_of_cons; [congruence|done].
Qed.
Lemma settled_done n r s text : holds s text n -> exists f q, cs_futures (settle n r s) !! n = Some f /\ tf_result f = Some q.
Proof using Type.
  unfold holds. rewrite settle_get. destruct (cs_futures s !! n) as [f|]; [|done]. intros _. cbn. rewrite decide_True by done.
  destruct (tf_result f) as [q|] eqn:E; [exists f, q|eexists _, r]; by split.
Qed.
Lemma land_settle text n r s : land text (settle n r s) = settle n r (land text s).
Proof using Type. done. Qed.
Lemma abandon_ok e tf made s : shared_ok (tf :: made) s -> shared_ok made (abandon e s tf) /\ keeps s (abandon e s tf).
Proof using Type.
  destruct tf as [text n]. intros Hok. assert (Hh : holds s text n) by (apply Hok; by left). unfold abandon. cbn [fst snd].
  rewrite <-land_settle. split; [|exact (settle_keeps n (Err e) s)]. eapply land_ok; [by eapply settle_ok|by eapply settled_done].
Qed.
Lemma publish_ok text n made s :
  shared_ok ((text, n) :: made) s -> shared_ok made (publish s (text, n, F text)) /\ keeps s (publish s (text, n, F text)).
Proof using Type.
  intros Hok%(remember_ok _ text). set (s1 := remember text (F text) s) in *.
  assert (Hh : holds s1 text n) by (apply Hok; by left). unfold Embeddings.publish. fold s1. rewrite <-land_settle.
  split; [|exact (settle_keeps n (Ok (F text)) s)]. eapply land_ok; [by eapply settle_ok|by eapply settled_done].
Qed.

(** ** Calls *)

Lemma resolve_lands texts made rest got s :
  shared_ok made s -> at_text texts got rest -> lands texts made s (resolve rest got s).
Proof using Type.
  revert got s. induction rest as [|text rest IH]; intros got s Hok (past & -> & ->); cbn [resolve].
  { split_and!; [done|done|]. cbn. by rewrite app_nil_r. }
  assert (Hnext : at_text (past ++ text :: rest) ((F <$> past) ++ [F text]) rest).
  { exists (past ++ [text]). by rewrite <-app_assoc, fmap_app. }
  destruct (dict_get text (cs_cache s)) as [v|] eqn:Hc.
  - assert (v = F text) as -> by (by apply Hok, dict_get_elem).
    destruct (IH _ _ (touch_ok _ _ _ _ Hok Hc) Hnext) as (H1 & H2 & H3). split_and!; [done|exact H2|done].
  - destruct (dict_get text (cs_in_flight s)) as [n|] eqn:Hf; [|split_and!; [done|done|by exists past]].
    assert (Hh : holds s text n) by (apply Hok; rewrite <-(so_flight _ _ Hok); by apply dict_get_elem).
    destruct (cs_futures s !! n) as [f|] eqn:Hn; [|unfold holds in Hh; by rewrite Hn in Hh]. cbn.
    destruct (tf_result f) as [[v|e]|] eqn:Hr; [|split_and!; done|split_and!; [done|done|split; [by exists past|done]]].
    pose proof (so_futures _ _ Hok) as Hfs. rewrite Forall_lookup in Hfs. specialize (Hfs _ _ Hn). unfold future_ok in Hfs. rewrite Hr in Hfs.
    unfold holds in Hh. rewrite Hn in Hh. injection Hh as Ht. rewrite Ht in Hfs. subst v. by apply IH.
Qed.
Lemma abandon_all e made' made s :
  shared_ok (made' ++ made) s -> shared_ok made (foldl (abandon e) s made') /\ keeps s (foldl (abandon e) s made').
Proof using Type.
  revert s. induction made' as [|tf made' IH]; intros s Hok; [done|]. cbn.
  destruct (abandon_ok e tf (made' ++ made) s Hok) as [H1 H2]. destruct (IH _ H1) as [H3 H4]. split; [done|by etrans].
Qed.
Lemma publish_all made' made s :
  shared_ok (made' ++ made) s ->
  let s' := foldl publish s (zip made' (F <$> (fst <$> made'))) in shared_ok made s' /\ keeps s s'.
Proof using Type.
  revert s. induction made' as [|[text n] made' IH]; intros s Hok; [done|]. cbn -[Embeddings.publish].
  destruct (publish_ok text n (made' ++ made) s Hok) as [H1 H2]. destruct (IH _ H1) as [H3 H4]. split; [done|by etrans].
Qed.
Lemma computed_lands texts made' made answer s :
  shared_ok (made' ++ made) s -> (forall vectors, answer = Ok vectors -> vectors = F <$> (fst <$> made')) ->
  lands texts made s (computed max_entries texts made' answer s).
Proof using Type.
  intros Hok Ha. destruct answer as [vectors|e]; cbn [computed].
  - rewrite (Ha _ eq_refl). destruct (publish_all made' made s Hok) as [H1 H2].
    rewrite bool_decide_true by (by rewrite !length_fmap).
    destruct (resolve_lands texts made texts [] _ H1) as (H3 & H4 & H5); [by exists []|]. split_and!; [done|by etrans|done].
  - destruct (abandon_all e made' made s Hok) as [H1 H2]. by split_and!.
Qed.
Lemma take_off_ok made wanted s :
  shared_ok made s -> NoDup wanted -> (forall text, text ∈ wanted -> text ∉ dict_keys (cs_in_flight s)) ->
  let '(made', s') := take_off wanted s in shared_ok (made' ++ made) s' /\ keeps s s'.
Proof using Type.
  intros Hok Hnd Hnew. unfold take_off. set (made' := zip wanted (seq (length (cs_futures s)) (length wanted))).
  assert (Hfst : fst <$> made' = wanted) by (apply fst_zip; by rewrite length_seq).
  assert (Hfold : forall l d, (forall text, text ∈ fst <$> l -> text ∉ dict_keys d) -> NoDup (fst <$> l) ->
    foldl (fun (d : list (pystr * nat)) tf => dict_set tf.1 tf.2 d) d l = d ++ l).
  { clear. induction l as [|[t n] l IH]; intros d Hd Hl; cbn; [by rewrite app_nil_r|]. cbn in Hl. apply NoDup_cons in Hl as [Ht Hl].
    rewrite dict_set_new by (apply dict_get_None, Hd; by left). rewrite IH; [by rewrite <-app_assoc| |done].
    intros x Hx. unfold dict_keys. rewrite fmap_app. change (fst <$> [(t, n)]) with [t].
    intros [Hin|Hin%list_elem_of_singleton]%elem_of_app; [|by subst]. eapply Hd; [|exact Hin]. by right. }
  assert (Hmade : forall text n, (text, n) ∈ made' -> exists i, wanted !! i = Some text /\ n = length (cs_futures s) + i).
  { intros text n Hin. apply list_elem_of_lookup in Hin as [i Hi]. apply lookup_zip_Some in Hi as [Hw Hs].
    apply lookup_seq in Hs as [-> _]. by exists i. }
  split.
  - destruct Hok. split; cbn; try done.
    + rewrite Hfold by (rewrite Hfst; auto). rewrite so_flight0. apply Permutation_app_comm.
    + rewrite fmap_app, Hfst. apply NoDup_app. split_and!; [done| |done]. intros text Hw Hin. apply (Hnew _ Hw).
      unfold dict_keys. rewrite so_flight0. done.
    + apply Forall_app. split; [done|]. apply Forall_fmap, Forall_forall. done.
    + intros text n [Hin|Hin]%elem_of_app.
      * apply Hmade in Hin as (i & Hi & ->). unfold holds. cbn. rewrite lookup_app_r by lia. replace (_ + i - _) with i by lia.
        by rewrite list_lookup_fmap, Hi.
      * apply so_owned0 in Hin. unfold holds in *. cbn. destruct (cs_futures s !! n) eqn:Hn; [|done]. by erewrite lookup_app_l_Some.
    + intros n f Hn Hp. apply elem_of_app. apply lookup_app_Some in Hn as [Hn|[Hle Hn]]; [right; by apply so_pending0|left].
      rewrite list_lookup_fmap in Hn. destruct (wanted !! (n - length (cs_futures s))) as [t|] eqn:Hw; [|done]. injection Hn as <-. cbn.
      apply list_elem_of_lookup. exists (n - length (cs_futures s)). apply lookup_zip_Some. split; [done|].
      apply lookup_seq. apply lookup_lt_Some in Hw. lia.
  - intros text n Hh. unfold holds in *. cbn. destruct (cs_futures s !! n) eqn:Hn; [|done]. by erewrite lookup_app_l_Some.
Qed.
Lemma distinct_texts (texts seen : list pystr) :
  NoDup seen -> NoDup (foldl (fun seen text => if decide (text ∈ seen) then seen else seen ++ [text]) seen texts).
Proof using Type.
  revert seen. induction texts as [|t texts IH]; intros seen Hs; [done|]. cbn. apply IH. case_decide; [done|].
  apply NoDup_app. split_and!; [done|by intros x Hx ->%list_elem_of_singleton|apply NoDup_singleton].
Qed.
Lemma begin_lands texts made s : shared_ok made s -> lands texts made s (begin texts s).
Proof using Type.
  intros Hok. unfold begin. destruct texts as [|t texts]; [by split_and!|]. set (l := t :: texts).
  destruct (missing l s) as [|w wanted] eqn:Hm; [apply resolve_lands; [done|by exists []]|]. rewrite <-Hm.
  assert (NoDup (missing l s)) as Hnd by (apply NoDup_filter, distinct_texts, NoDup_nil_2).
  assert (forall text, text ∈ missing l s -> text ∉ dict_keys (cs_in_flight s)) as Hnew by (intros x [[_ ?] _]%list_elem_of_filter; done).
  pose proof (take_off_ok made (missing l s) s Hok Hnd Hnew) as H. destruct (take_off (missing l s) s) as [made' s']. destruct H as [H1 H2].
  by split_and!.
Qed.
Lemma fetched_lands texts made got text rest answer s :
  shared_ok made s -> at_text texts got (text :: rest) -> (forall vectors, answer = Ok vectors -> vectors = [F text]) ->
  lands texts made s (fetched max_entries got text rest answer s).
Proof using Type.
  intros Hok Hat Ha. destruct answer as [vectors|e]; [|by split_and!]. rewrite (Ha _ eq_refl). cbn [fetched].
  pose proof (remember_ok _ text _ Hok) as H1. destruct Hat as (past & -> & ->).
  destruct (resolve_lands (past ++ text :: rest) made rest ((F <$> past) ++ [F text]) _ H1) as (H3 & H4 & H5).
  { exists (past ++ [text]). by rewrite <-app_assoc, fmap_app. }
  split_and!; [done|exact H4|done].
Qed.
Lemma resumed_lands texts made got text n rest s ps :
  shared_ok made s -> at_text texts got (text :: rest) -> holds s text n -> resumed got n rest s = Some ps -> lands texts made s ps.
Proof using Type.
  intros Hok (past & -> & ->) Hh Hres. unfold resumed in Hres. destruct (cs_futures s !! n) as [f|] eqn:Hn; [|done]. cbn in Hres.
  destruct (tf_result f) as [[v|e]|] eqn:Hr; [|injection Hres as <-; by split_and!|done]. injection Hres as <-.
  pose proof (so_futures _ _ Hok) as Hfs. rewrite Forall_lookup in Hfs. specialize (Hfs _ _ Hn). unfold future_ok in Hfs. rewrite Hr in Hfs.
  unfold holds in Hh. rewrite Hn in Hh. injection Hh as Ht. rewrite Ht in Hfs. subst v. apply resolve_lands; [done|].
  exists (past ++ [text]). by rewrite <-app_assoc, fmap_app.
Qed.
Lemma cancelled_lands call made s :
  shared_ok (making (cl_phase call) ++ made) s -> phase_ok (cl_texts call) s (cl_phase call) ->
  lands (cl_texts call) made s (cancelled max_entries call s).
Proof using Type.
  intros Hok Hp. unfold cancelled. destruct (cl_phase call) eqn:E; cbn [making app] in Hok; try by split_and!.
  - by apply computed_lands.
  - destruct Hp as [_ Hh]. split_and!; [cbn; by eapply settle_ok|by apply settle_keeps|done].
Qed.

(** ** Worlds *)

Record world_ok (w : CacheWorld) : Prop := {
  wo_shared : shared_ok (made_by w) (cw_state w);
  wo_calls : Forall (fun call => phase_ok (cl_texts call) (cw_state w) (cl_phase call)) (cw_calls w) }.
Lemma phase_keeps texts s s' phase : keeps s s' -> phase_ok texts s phase -> phase_ok texts s' phase.
Proof using Type. intros Hk. destruct phase; cbn; try done. intros [? ?]. split; [done|by apply Hk]. Qed.
Lemma shared_perm made made' s : made ≡ₚ made' -> shared_ok made s -> shared_ok made' s.
Proof using Type.
  intros Hp []. split; try done.
  - by rewrite <-Hp.
  - by rewrite <-Hp.
  - intros text n Hin. apply so_owned0. by rewrite Hp.
  - intros n f Hn Hr. rewrite <-Hp. by apply so_pending0.
Qed.
Lemma made_split (calls : list CacheCall) i call :
  calls !! i = Some call -> exists rest, (calls ≫= (fun call => making (cl_phase call))) ≡ₚ making (cl_phase call) ++ rest /\
    forall call', (<[i := call']> calls ≫= (fun call => making (cl_phase call))) ≡ₚ making (cl_phase call') ++ rest.
Proof using Type.
  intros Hi. pose proof (list_elem_of_split_length _ _ _ Hi) as (l1 & l2 & -> & Hl).
  exists ((l1 ≫= (fun call => making (cl_phase call))) ++ (l2 ≫= (fun call => making (cl_phase call)))). split.
  - rewrite bind_app. cbn. by rewrite Permutation_app_swap_app.
  - intros call'. rewrite insert_app_r_alt by lia. replace (i - length l1) with 0 by lia. cbn. rewrite bind_app. cbn.
    by rewrite Permutation_app_swap_app.
Qed.
Lemma on_call_ok w i f :
  world_ok w ->
  (forall call made ps, cw_calls w !! i = Some call -> shared_ok (making (cl_phase call) ++ made) (cw_state w) ->
     phase_ok (cl_texts call) (cw_state w) (cl_phase call) -> f call (cw_state w) = Some ps -> lands (cl_texts call) made (cw_state w) ps) ->
  world_ok (on_call i f w).
Proof using Type.
  intros Hok Hf. unfold on_call. destruct (cw_calls w !! i) as [call|] eqn:Hi; [|done].
  destruct (f call (cw_state w)) as [ps|] eqn:Hps; [|done]. destruct (made_split _ _ _ Hi) as (made & Hmade & Hins).
  destruct Hok as [Hs Hc]. unfold made_by in Hs. pose proof (shared_perm _ _ _ Hmade Hs) as Hs'.
  destruct (Hf call made ps eq_refl Hs') as (H1 & H2 & H3); [|done|].
  { rewrite Forall_lookup in Hc. by apply (Hc i). }
  split; cbn.
  - unfold made_by, moved. cbn. eapply shared_perm; [symmetry; apply Hins|]. done.
  - apply Forall_insert; [|done]. eapply Forall_impl; [exact Hc|]. intros c. by apply phase_keeps.
Qed.
Lemma happen_ok w event : world_ok w -> honest w event -> world_ok (happen w event).
Proof using Type.
  intros Hok Hh. destruct event as [texts|i|i answer|i|i]; cbn [Embeddings.happen].
  - destruct Hok as [Hs Hc]. split; cbn; [|apply Forall_app; by split; [|constructor]].
    unfold made_by in *. cbn. rewrite bind_app. cbn. by rewrite app_nil_r.
  - apply on_call_ok; [done|]. intros call made ps _ Hs _. destruct (cl_phase call); try done. intros [= <-]. by apply begin_lands.
  - apply on_call_ok; [done|]. intros call made ps Hi Hs Hp. cbn in Hh. rewrite Hi in Hh. cbn in Hh.
    destruct (cl_phase call) eqn:E; try done; intros [= <-].
    + apply computed_lands; [done|]. by intros vectors ->.
    + apply fetched_lands; [done|done|]. by intros vectors ->.
  - apply on_call_ok; [done|]. intros call made ps _ Hs Hp. destruct (cl_phase call) eqn:E; try done. destruct Hp as [Ha Hn].
    by apply (resumed_lands _ _ _ text).
  - apply on_call_ok; [done|]. intros call made ps _ Hs Hp [= <-]. by apply cancelled_lands.
Qed.
Lemma reached_ok w : reached w -> world_ok w.
Proof using Type.
  induction 1 as [|w event _ IH Hh]; [|by apply happen_ok]. split; [|constructor].
  split; cbn; try done; try apply NoDup_nil_2; try constructor; try lia; intros; try by apply not_elem_of_nil in H.
Qed.

Fixpoint all_honest (w : CacheWorld) (events : list Event) : Prop :=
  match events with [] => True | event :: events => honest w event /\ all_honest (happen w event) events end.
Lemma reached_run events w : reached w -> all_honest w events -> reached (foldl happen w events).
Proof using Type.
  revert w. induction events as [|event events IH]; intros w Hw; [done|]. intros [He Hes]. cbn [foldl]. apply IH; [by constructor|done].
Qed.

(** C16: However calls come, interleave, fail and are cancelled: the cache stays
    within its size; a call that returns has the vectors of its texts, in
    order; no text is in the batches of missing texts of two calls at once (a
    call that finds a text gone after its batch fetches that text alone, and
    may then compute what a batch computes); and what a call waits for is in
    such a batch or done.  The embedder answers the vectors of the texts it was
    asked, or fails. *)
Theorem cache_serves w :
  reached w ->
  length (cs_cache (cw_state w)) <= max_entries /\
  (forall call vectors, call ∈ cw_calls w -> cl_phase call = Finished (Ok vectors) -> vectors = F <$> cl_texts call) /\
  NoDup (fst <$> made_by w) /\
  (forall call got text n rest, call ∈ cw_calls w -> cl_phase call = Waiting got text n rest ->
     (text, n) ∈ made_by w \/ exists r, tf_result <$> cs_futures (cw_state w) !! n = Some (Some r)).
Proof using Type.
  intros [Hs Hc]%reached_ok. rewrite Forall_forall in Hc. split_and!; [apply Hs| |apply Hs|].
  - intros call vectors Hin Hp. specialize (Hc _ Hin). by rewrite Hp in Hc.
  - intros call got text n rest Hin Hp. specialize (Hc _ Hin). rewrite Hp in Hc. destruct Hc as [_ Hh]. unfold holds in Hh.
    destruct (cs_futures (cw_state w) !! n) as [f|] eqn:Hn; [|done]. injection Hh as <-.
    destruct (tf_result f) as [r|] eqn:Hr; [right; exists r; cbn; by rewrite Hr|left; by eapply (so_pending _ _ Hs)].
Qed.
End CacheLaws.

(** ** Vectors and scores in the order of the request *)

Lemma order_by_unique {A} (key : A -> Z) (l k : list A) :
  l ≡ₚ k -> sorted_by key k -> NoDup (key <$> k) -> order_by key l = k.
Proof.
  intros Hp Hk Hnd. apply (StronglySorted_unique_strong (fun a b => key a <= key b)%Z);
    [|apply sorted_by_strong, order_by_sorted|by apply sorted_by_strong|by rewrite order_by_perm].
  intros a b Ha Hb Hab Hba. rewrite order_by_perm, Hp in Ha. apply list_elem_of_lookup in Ha as [i Hi], Hb as [j Hj].
  assert (i = j) as ->; [|congruence]. eapply NoDup_lookup; [exact Hnd| |]; rewrite list_lookup_fmap; [by rewrite Hi|].
  rewrite Hj. cbn in *. f_equal. lia.
Qed.
Lemma sorted_by_keys {A} (key : A -> Z) (l : list A) : Sorted Z.le (key <$> l) -> sorted_by key l.
Proof.
  unfold sorted_by. induction l as [|a l IH]; intros H; [constructor|]. cbn in H. inv H. constructor; [by apply IH|].
  destruct l; constructor. by inv H3.
Qed.
Lemma numbered_zero {A} (l : list A) : numbered 0 l = zip (Z.of_nat <$> seq 0 (length l)) l.
Proof. unfold numbered. f_equal. rewrite <-list_fmap_compose. by apply list_fmap_ext. Qed.

Section InOrder.
Context (str_lower : pystr -> pystr) (read_float : pystr -> option float) (str_other : json -> pystr).
Context (json_loads : pystr -> Res pystr json) (http_date : pystr -> option time).
Context {S : Type} (utc_now : M S Exn time) (sleeper : float -> M S Exn unit).
Context (http_post : PostRequest -> M S Exn (Res http_error ApiResponse)).
Abbreviation posted := (posted str_lower read_float str_other json_loads http_date utc_now).
Abbreviation embed := (embed str_lower read_float str_other json_loads http_date utc_now sleeper http_post).
Abbreviation score := (score str_lower read_float str_other json_loads http_date utc_now sleeper http_post).
Abbreviation score_group := (score_group str_lower read_float str_other json_loads http_date utc_now sleeper http_post).

(** The service answers a request with a document. *)
Definition answers (request : PostRequest) (data : json) (s s' : S) : Prop :=
  exists response s1 now, http_post request s = (Ok (Ok response), s1) /\ utc_now s1 = (Ok now, s') /\
    (ar_status response < 400)%Z /\ json_loads (default "" (ar_body response)) = Ok data.
Lemma posted_run {A} request (parse : json -> Res Exn A) data s s' :
  answers request data s s' -> posted (http_post request) parse s = (parse data, s').
Proof using Type.
  intros (response & s1 & now & Hp & Hn & Hst & Hd). unfold Embeddings.posted. rewrite (bind_Ok _ _ _ _ _ Hp), (bind_Ok _ _ _ _ _ Hn).
  unfold raise_for_error_status. rewrite (proj2 (Z.ltb_lt _ _) Hst). unfold bind, lift. by rewrite Hd.
Qed.
Lemma retry_once {A} max_retries seconds (call : M S Exn A) s a s' :
  call s = (Ok a, s') -> retry_transient sleeper max_retries seconds call s = (Ok a, s').
Proof using Type. intros H. unfold retry_transient. destruct (Z.to_nat max_retries); cbn; unfold try_except; by rewrite H. Qed.

(** *** Embeddings *)

Definition embedding_item (ic : nat * list json) (item : json) : Prop :=
  exists fields, item = JObj fields /\ dict_get "index" fields = Some (JInt (Z.of_nat ic.1)) /\
    dict_get "embedding" fields = Some (JList ic.2).
Definition key_of (i : nat) : Z := Z.shiftl (Z.of_nat i) unit_exponent.
Lemma key_of_mono i j : (i <= j)%nat -> (key_of i <= key_of j)%Z.
Proof using Type. intros H. unfold key_of. rewrite !Z.shiftl_mul_pow2 by done. apply Z.mul_le_mono_nonneg_r; [|lia]. apply Z.pow_nonneg. lia. Qed.
Lemma key_of_inj i j : key_of i = key_of j -> i = j.
Proof using Type.
  unfold key_of. rewrite !Z.shiftl_mul_pow2 by done. intros H. apply Z.mul_cancel_r in H; [lia|]. apply Z.pow_nonzero; done.
Qed.
Lemma keyed_items components ordered n :
  Forall2 embedding_item (zip (seq n (length components)) components) ordered ->
  mapM (fun item => (fun index => (index, item)) <$> index_of_item read_float item) ordered =
  Some (zip (key_of <$> seq n (length components)) ordered).
Proof using Type.
  revert n ordered. induction components as [|c components IH]; intros n ordered; cbn [length seq zip zip_with]; intros H.
  { apply Forall2_nil_inv_l in H as ->. done. }
  apply Forall2_cons_inv_l in H as (item & rest & (fields & -> & Hi & _) & Hrest & ->). cbn [mapM fmap list_fmap zip zip_with index_of_item].
  rewrite Hi. change (Some (JInt _) ≫= exact read_float) with (Some (key_of n)). cbn [fmap option_fmap option_map mbind option_bind].
  by rewrite (IH _ _ Hrest).
Qed.
Lemma items_read components ordered vectors n :
  Forall2 embedding_item (zip (seq n (length components)) components) ordered ->
  Forall2 (fun cs v => each (float_value read_float) cs = Ok v) components vectors ->
  each (item_at read_float) (zip (Z.of_nat <$> seq n (length components)) (zip (key_of <$> seq n (length components)) ordered)) = Ok vectors.
Proof using Type.
  intros H Hv. revert n ordered H. induction Hv as [|cs v components vectors Hc _ IH]; intros n ordered; cbn [length seq zip zip_with]; intros H.
  { apply Forall2_nil_inv_l in H as ->. done. }
  apply Forall2_cons_inv_l in H as (item & rest & (fields & -> & _ & He) & Hrest & ->). cbn [each fmap list_fmap zip zip_with item_at].
  rewrite bool_decide_true by done. unfold vector_of_item. rewrite He. cbn [mbind option_bind components_of snd]. rewrite Hc. cbn [rbind].
  by rewrite (IH _ _ Hrest).
Qed.
(** The vectors of the answer stand in the order of the texts, in whatever
    order the service put its items. *)
Theorem embeddings_in_order config texts fields items ordered components vectors s s' :
  texts <> [] -> length components = length texts ->
  answers (embeddings_request config texts) (JObj fields) s s' -> dict_get "data" fields = Some (JList items) ->
  items ≡ₚ ordered -> Forall2 embedding_item (zip (seq 0 (length components)) components) ordered ->
  Forall2 (fun cs v => each (float_value read_float) cs = Ok v) components vectors ->
  embed config texts s = (Ok vectors, s').
Proof using Type.
  intros Ht Hlen Ha Hd Hp Ho Hv. destruct texts as [|text texts]; [done|]. unfold Embeddings.embed. apply retry_once.
  unfold request_embeddings. rewrite (posted_run _ _ _ _ _ Ha). f_equal. unfold parse_response. rewrite Hd.
  assert (Hlo : length ordered = length components).
  { apply Forall2_length in Ho. rewrite length_zip, length_seq in Ho. lia. }
  rewrite (bool_decide_true (length items = _)) by (rewrite Hp; lia). cbn [negb].
  pose proof (keyed_items _ _ _ Ho) as Hk.
  assert (exists keyed, mapM (fun item => (fun index => (index, item)) <$> index_of_item read_float item) items = Some keyed /\
    keyed ≡ₚ zip (key_of <$> seq 0 (length components)) ordered) as (keyed & -> & Hkp).
  { apply mapM_Some_1 in Hk. symmetry in Hp. destruct (Permutation_Forall2 Hp Hk) as (keyed & Hkp & Hk2).
    exists keyed. split; [by apply mapM_Some_2|by symmetry]. }
  assert (Hfst : fst <$> zip (key_of <$> seq 0 (length components)) ordered = key_of <$> seq 0 (length components)).
  { apply fst_zip. rewrite length_fmap, length_seq. lia. }
  rewrite (order_by_unique fst keyed _ Hkp).
  - rewrite numbered_zero, length_zip_with, length_fmap, length_seq, Hlo, Nat.min_id. by apply items_read.
  - apply sorted_by_keys. rewrite Hfst. clear. apply StronglySorted_Sorted. generalize 0%nat as k.
    induction (length components) as [|m IH]; intros k; cbn [seq fmap list_fmap]; [constructor|].
    constructor; [apply IH|]. apply Forall_fmap, Forall_forall. intros j [Hj _]%elem_of_seq. apply key_of_mono. lia.
  - rewrite Hfst. apply NoDup_fmap_2; [|apply NoDup_seq]. intros i j. apply key_of_inj.
Qed.

(** *** Scores *)

Lemma put_all_length results l : length (put_all results l) = length l.
Proof using Type. unfold put_all. revert l. induction results as [|r results IH]; intros l; [done|]. cbn. by rewrite IH, length_insert. Qed.
(** What every result for a position says stands there in the end. *)
Lemma put_all_get (g : nat -> float) results l i :
  Forall (fun r => r.2 = g r.1) results -> i < length l -> (i ∈ fst <$> results) \/ l !! i = Some (g i) ->
  put_all results l !! i = Some (g i).
Proof using Type.
  unfold put_all. intros Hg. revert l. induction Hg as [|[j x] results Hx _ IH]; intros l Hi Hor; cbn in *.
  { destruct Hor as [?%not_elem_of_nil|]; done. }
  subst x. apply IH; [by rewrite length_insert|]. destruct (decide (i = j)) as [->|Hn].
  - right. by rewrite list_lookup_insert_eq.
  - destruct Hor as [[->|Hin]%elem_of_cons|Hl]; [done|by left|right; by rewrite list_lookup_insert_ne].
Qed.

Context (value : pystr -> pystr -> float).
Definition rerank_item (query : pystr) (id : nat * pystr) (item : json) : Prop :=
  exists fields v, item = JObj fields /\ dict_get "index" fields = Some (JInt (Z.of_nat id.1)) /\
    dict_get "relevance_score" fields = Some v /\ is_number v = true /\ float_value read_float v = Ok (value query id.2).
(** The service scores the documents of a query, in whatever order. *)
Definition scores_well (config : HttpRerankerConfig) : Prop :=
  forall query documents s, exists s' fields items ordered,
    answers (rerank_request config query documents) (JObj fields) s s' /\ dict_get "results" fields = Some (JList items) /\
    items ≡ₚ ordered /\ Forall2 (rerank_item query) (zip (seq 0 (length documents)) documents) ordered.

Definition result_of (expected : nat) (item : json) : nat * float :=
  match parse_score read_float expected item with Ok r => r | Err _ => (0, f_zero) end.
Lemma item_result query expected id item :
  rerank_item query id item -> id.1 < expected -> parse_score read_float expected item = Ok (id.1, value query id.2).
Proof using Type.
  intros (fields & v & -> & Hi & Hs & Hn & Hv) Hlt. unfold parse_score. rewrite Hi. cbn [int_index].
  rewrite (proj2 (Z.leb_le _ _)), (proj2 (Z.ltb_lt _ _)) by lia. cbn [andb negb]. rewrite Hs, Hn, Hv. cbn. by rewrite Nat2Z.id.
Qed.
Lemma scores_parsed query documents fields items ordered :
  dict_get "results" fields = Some (JList items) -> items ≡ₚ ordered ->
  Forall2 (rerank_item query) (zip (seq 0 (length documents)) documents) ordered ->
  parse_scores read_float (JObj fields) (length documents) = Ok (value query <$> documents).
Proof using Type.
  intros Hd Hp Ho. unfold parse_scores. rewrite Hd. set (n := length documents) in *. set (docs := zip (seq 0 n) documents) in *.
  assert (Hlt : forall id, id ∈ docs -> id.1 < n /\ documents !! id.1 = Some id.2).
  { intros [i d] Hin. apply list_elem_of_lookup in Hin as [k Hk]. apply lookup_zip_Some in Hk as [Hs Hdoc].
    apply lookup_seq in Hs as [-> Hlt]. split; [cbn; lia|done]. }
  assert (Hres : Forall2 (fun id item => result_of n item = (id.1, value query id.2) /\ parse_score read_float n item = Ok (result_of n item)) docs ordered).
  { apply Forall2_same_length_lookup in Ho as [Hlen Ho]. apply Forall2_same_length_lookup. split; [done|].
    intros k id item Hid Hitem. assert (parse_score read_float n item = Ok (id.1, value query id.2)) as Hps.
    { eapply item_result; [by eapply Ho|]. apply Hlt, list_elem_of_lookup. by exists k. }
    unfold result_of. by rewrite Hps. }
  rewrite (each_Ok (parse_score read_float n) (result_of n)).
  2: { intros item Hin. rewrite Hp in Hin. apply list_elem_of_lookup in Hin as [k Hk].
       destruct (Forall2_lookup_r _ _ _ _ _ Hres Hk) as (id & _ & _ & H). exact H. }
  cbn [rbind]. set (results := result_of n <$> items).
  assert (Hperm : results ≡ₚ (fun id => (id.1, value query id.2)) <$> docs).
  { unfold results. rewrite Hp. clear -Hres. induction Hres as [|id item docs ordered [H _] _ IH]; [done|]. rewrite !fmap_cons, H. by constructor. }
  assert (Hfst : fst <$> results ≡ₚ seq 0 n).
  { rewrite Hperm, <-list_fmap_compose. unfold docs. rewrite (list_fmap_ext _ fst) by done. rewrite fst_zip; [done|]. by rewrite length_seq. }
  rewrite bool_decide_true.
  2: { rewrite size_list_to_set by (rewrite Hfst; apply NoDup_seq). by rewrite Hfst, length_seq. }
  f_equal. apply list_eq. intros i. rewrite list_lookup_fmap. destruct (documents !! i) as [d|] eqn:Hi.
  - pose proof (lookup_lt_Some _ _ _ Hi) as Hin. cbn. rewrite (put_all_get (fun i => value query (default "" (documents !! i)))).
    + by rewrite Hi.
    + rewrite Hperm. apply Forall_fmap, Forall_forall. intros id [_ Hdoc]%Hlt. cbn. by rewrite Hdoc.
    + by rewrite length_replicate.
    + left. rewrite Hfst. apply elem_of_seq. lia.
  - apply lookup_ge_None. rewrite put_all_length, length_replicate. by apply lookup_ge_None in Hi.
Qed.
Lemma group_scored config query documents s :
  scores_well config -> exists s', score_group config query documents s = (Ok (value query <$> documents), s').
Proof using Type.
  intros Hw. destruct (Hw query documents s) as (s' & fields & items & ordered & Ha & Hd & Hp & Ho). exists s'.
  apply retry_once. rewrite (posted_run _ _ _ _ _ Ha). f_equal. by eapply scores_parsed.
Qed.

(** Every position is in the group of its query, and only there. *)
Definition grouped (pairs : list (pystr * pystr)) (n : nat) (groups : list (pystr * list nat)) : Prop :=
  (forall query indexes i, (query, indexes) ∈ groups -> i ∈ indexes -> fst <$> pairs !! i = Some query) /\
  (forall i, i < n -> exists query indexes, (query, indexes) ∈ groups /\ i ∈ indexes) /\ dict_ok groups.
Lemma group_grouped pairs : grouped pairs (length pairs) (group_by_query pairs).
Proof using Type.
  unfold group_by_query. set (step := fun groups (ip : nat * (pystr * pystr)) => _).
  assert (forall rest k groups, (forall j, rest !! j = pairs !! (k + j)) -> k <= length pairs -> grouped pairs k groups ->
    grouped pairs (k + length rest) (foldl step groups (zip (seq k (length rest)) rest))) as H.
  2: { apply (H pairs 0 []); [done|lia|]. split_and!; [by intros ? ? ? ?%not_elem_of_nil|lia|apply NoDup_nil_2]. }
  induction rest as [|p rest IH]; intros k groups Hrest Hk Hg; cbn [length seq zip zip_with foldl]; [by rewrite Nat.add_0_r|].
  pose proof (Hrest 0) as H0. rewrite Nat.add_0_r in H0. cbn in H0. symmetry in H0. pose proof (lookup_lt_Some _ _ _ H0) as Hlt.
  replace (k + Datatypes.S (length rest)) with (Datatypes.S k + length rest) by lia. apply IH.
  - intros j. replace (Datatypes.S k + j) with (k + Datatypes.S j) by lia. exact (Hrest (Datatypes.S j)).
  - lia.
  - destruct Hg as (H1 & H2 & H3). unfold step. cbn [fst snd]. set (old := default [] (dict_get p.1 groups)).
    assert (Hold : forall i, i ∈ old -> exists indexes, (p.1, indexes) ∈ groups /\ i ∈ indexes).
    { intros i Hi. unfold old in Hi. destruct (dict_get p.1 groups) as [l|] eqn:E; [|by apply not_elem_of_nil in Hi].
      exists l. split; [by apply dict_get_elem|done]. }
    assert (Hset : dict_get p.1 (dict_set p.1 (old ++ [k]) groups) = Some (old ++ [k])) by (rewrite dict_get_set; by rewrite decide_True).
    split_and!; [| |by apply dict_ok_set].
    + intros query indexes i Hin Hi. apply elem_of_dict_set in Hin as [[= -> ->]|Hin]; [|by eapply H1].
      apply elem_of_app in Hi as [Hi| ->%list_elem_of_singleton]; [|by rewrite H0].
      destruct (Hold i Hi) as (l & Hl & Hil). by eapply H1.
    + intros i Hi. destruct (decide (i = k)) as [->|Hn].
      { exists p.1, (old ++ [k]). split; [by apply dict_get_elem|]. apply elem_of_app. right. by apply list_elem_of_singleton. }
      destruct (H2 i) as (query & indexes & Hin & Hii); [lia|]. destruct (decide (query = p.1)) as [->|Hq].
      * exists p.1, (old ++ [k]). split; [by apply dict_get_elem|]. apply elem_of_app. left. unfold old.
        by rewrite (dict_elem_get _ _ _ H3 Hin).
      * exists query, indexes. split; [|done]. apply dict_get_elem. rewrite dict_get_set, decide_False by done. by apply dict_elem_get.
Qed.

Lemma groups_scored config pairs groups scores s :
  scores_well config ->
  (forall query indexes i, (query, indexes) ∈ groups -> i ∈ indexes -> fst <$> pairs !! i = Some query) ->
  length scores = length pairs ->
  exists scores' s', score_groups (score_group config) pairs groups scores s = (Ok scores', s') /\ length scores' = length pairs /\
    forall i p, pairs !! i = Some p ->
      scores !! i = Some (value p.1 p.2) \/ (exists query indexes, (query, indexes) ∈ groups /\ i ∈ indexes) ->
      scores' !! i = Some (value p.1 p.2).
Proof using Type.
  intros Hw. revert scores s. induction groups as [|[query indexes] groups IH]; intros scores s Hq Hlen; cbn [score_groups].
  { exists scores, s. split_and!; [done|done|]. intros i p _ [H|(? & ? & []%not_elem_of_nil & _)]. done. }
  set (doc := fun i => default "" (snd <$> pairs !! i)).
  destruct (group_scored config query (doc <$> indexes) s Hw) as (s1 & Hrun). rewrite (bind_Ok _ _ _ _ _ Hrun).
  rewrite bool_decide_true by (by rewrite !length_fmap).
  set (g := fun i => match pairs !! i with Some p => value p.1 p.2 | None => f_zero end).
  assert (Hplace : forall i, i < length scores -> i ∈ indexes \/ scores !! i = Some (g i) ->
    place indexes (value query <$> (doc <$> indexes)) scores !! i = Some (g i)).
  { intros i Hi Hor. unfold place. apply put_all_get; [|done|].
    - rewrite <-list_fmap_compose. apply Forall_lookup. intros k [j x] Hk. apply lookup_zip_Some in Hk as [Hj Hx].
      rewrite list_lookup_fmap, Hj in Hx. injection Hx as <-. cbn. unfold g, doc.
      assert (fst <$> pairs !! j = Some query) as Hjq by (eapply Hq; [by left|apply list_elem_of_lookup; by exists k]).
      destruct (pairs !! j) as [p|]; [|done]. injection Hjq as <-. done.
    - rewrite fst_zip by (rewrite !length_fmap; lia). exact Hor. }
  destruct (IH (place indexes (value query <$> (doc <$> indexes)) scores) s1) as (scores' & s' & Hrest & Hlen' & Hall).
  { intros q l i Hin. apply Hq. by right. }
  { unfold place. by rewrite put_all_length. }
  exists scores', s'. split_and!; [done|done|]. intros i p Hp Hor. apply Hall; [done|].
  assert (g i = value p.1 p.2) as Hg by (unfold g; by rewrite Hp).
  assert (i < length scores) as Hi by (rewrite Hlen; by eapply lookup_lt_Some).
  destruct Hor as [H|(q & l & [[= -> ->]|Hin]%elem_of_cons & Hil)].
  - left. rewrite <-Hg. apply Hplace; [done|]. right. by rewrite Hg.
  - left. rewrite <-Hg. apply Hplace; [done|by left].
  - right. by exists q, l.
Qed.

(** C39: The scores stand in the order of the pairs, whatever queries they mix and
    in whatever order the service ranks the documents of each. *)
Theorem scores_in_order config pairs s :
  scores_well config -> exists s', score config pairs s = (Ok ((fun p => value p.1 p.2) <$> pairs), s').
Proof using Type.
  intros Hw. destruct pairs as [|p pairs]; [by eexists|]. set (l := p :: pairs). destruct (group_grouped l) as (H1 & H2 & _).
  destruct (groups_scored config l (group_by_query l) (replicate (length l) f_zero) s Hw H1) as (scores & s' & Hrun & Hlen & Hall);
    [by rewrite length_replicate|].
  exists s'. unfold Embeddings.score, l. fold l. rewrite Hrun. do 2 f_equal. apply list_eq. intros i. rewrite list_lookup_fmap.
  destruct (l !! i) as [q|] eqn:Hi.
  - cbn. apply Hall; [done|]. right. apply H2. by eapply lookup_lt_Some.
  - apply lookup_ge_None. rewrite Hlen. by apply lookup_ge_None.
Qed.
End InOrder.
