(* ===== verification/NetTools.v ===== *)
(** * Tools that look things up ([net/tools.py], [search/], [context/tools.py])

    The raw HTTP request, the two tools over endpoint records, the web search
    with its Google provider, and the search in the history of a dialog. *)
From S2P Require Import Prelude PyStr PyFloat Clock Sql Dict Domain Codec MessageStore SummaryStore Tariffs ResponseMemory Collections CollectionIngest Guard ToolSpecs External Ranking Llm Embeddings.

(** ** Requests ([net/tools.py]) *)

Definition MAX_RESPONSE_CHARS : Z := 4000.
Definition MAX_RESPONSE_BYTES : Z := 2 * 1024 * 1024.
Definition BODY_TOO_LARGE_SUFFIX : pystr := newline +s+ "...[response exceeded the size limit and was cut]".
Definition EGRESS_BLOCKED_TEMPLATE (allowed : pystr) : pystr :=
  "this installation only allows http_request to: " +s+ allowed +s+
  ". For anything else, look for a stored endpoint with recall(type=endpoint).".
Definition ENDPOINT_NOT_FOUND_TEMPLATE (name : pystr) : pystr :=
  "endpoint '" +s+ name +s+ "' not found; discover endpoints with recall(type=endpoint, query=...)".
Definition ENDPOINT_TEMPLATE (title tags content : pystr) : pystr :=
  "[endpoint] " +s+ title +s+ newline +s+ "   tags: " +s+ tags +s+ newline +s+ content.

Module HttpMethod.
Definition values : list pystr :=
  ["GET"; "POST"; "PUT"; "PATCH"; "DELETE"; "HEAD"; "OPTIONS"; "PROPFIND"; "PROPPATCH"; "REPORT"; "MKCOL"; "MKCALENDAR"; "COPY"; "MOVE"].
End HttpMethod.
Record HttpRequestParams := { hp_method : pystr; hp_url : pystr; hp_headers : list (pystr * pystr); hp_body : option pystr }.
Definition bad_argument {A} (text : pystr) : Res Exn A := Err (ToolArgumentsError text).

(** A text with something in it but white space. *)
Definition non_blank (raw : option json) : option pystr :=
  match raw with Some (JStr text) => if str_empty (str_strip text) then None else Some text | _ => None end.

Section Parsing.
Context (repr : option json -> pystr).

(** [_parse_method], [_parse_headers], [from_arguments]; the [str] of what is
    no text spells no method. *)
Definition parse_method (raw : option json) : Res Exn pystr :=
  match raw with
  | Some (JStr method) => if bool_decide (method ∈ HttpMethod.values) then Ok method else bad_argument ("unsupported method: " +s+ repr raw)
  | _ => bad_argument ("unsupported method: " +s+ repr raw)
  end.
Definition header_text (kv : pystr * json) : Res Exn (pystr * pystr) :=
  match kv.2 with JStr text => Ok (kv.1, text) | _ => bad_argument "headers must be an object of strings" end.
Definition parse_headers (raw : option json) : Res Exn (list (pystr * pystr)) :=
  match raw with
  | None => Ok []
  | Some (JObj fields) => each header_text fields
  | Some _ => bad_argument "headers must be an object of strings"
  end.
Definition from_arguments (arguments : list (pystr * json)) : Res Exn HttpRequestParams :=
  let? method := parse_method (argument "method" arguments) in
  let? url := match argument "url" arguments with
              | Some (JStr url) => if str_empty url then bad_argument "url must be a non-empty string" else Ok url
              | _ => bad_argument "url must be a non-empty string"
              end in
  let? headers := parse_headers (argument "headers" arguments) in
  let? body := match argument "body" arguments with
               | None => Ok None
               | Some (JStr body) => Ok (Some body)
               | Some _ => bad_argument "body must be a string"
               end in
  Ok {| hp_method := method; hp_url := url; hp_headers := headers; hp_body := body |}.

(** [_parse_call_options], [_parse_params] *)
Definition parse_call_options (arguments : list (pystr * json)) : Res Exn CallOptions :=
  let? collect := match dict_get "collect" arguments with
                  | None => Ok false
                  | Some (JBool b) => Ok b
                  | Some _ => bad_argument "collect must be a boolean"
                  end in
  let? max_pages := match argument "max_pages" arguments with
                    | None => Ok None
                    | Some (JInt n) => Ok (Some n)
                    | Some _ => bad_argument "max_pages must be an integer"
                    end in
  let? into := match argument "into" arguments with
               | None => Ok None
               | raw => match non_blank raw with
                        | Some text => Ok (Some (str_strip text))
                        | None => bad_argument "into must be a collection ref like 'col:…'"
                        end
               end in
  let? label := match dict_get "label" arguments with
                | None => Ok ("" : pystr)
                | Some (JStr label) => Ok label
                | Some _ => bad_argument "label must be a string"
                end in
  Ok {| op_collect := collect; op_max_pages := max_pages; op_into := into; op_label := label; op_scope := "" |}.
Definition parse_params (raw : option json) : Res Exn (list (pystr * json)) :=
  match raw with
  | None => Ok []
  | Some (JObj fields) => Ok fields
  | Some _ => bad_argument "params must be an object"
  end.
Definition scoped (scope : pystr) (opts : CallOptions) : CallOptions :=
  {| op_collect := op_collect opts; op_max_pages := op_max_pages opts; op_into := op_into opts; op_label := op_label opts; op_scope := scope |}.
End Parsing.

Section Requests.
Context (bracketed_ok nfkc_ok : list N -> bool) (str_lower : pystr -> pystr) (repr : option json -> pystr).
Context (ip_address : pystr -> option ip) (json_loads : pystr -> Res pystr json) (json_dumps : json -> pystr).
Context (read_number : pystr -> option json) (float_text : pystr -> pystr) (csv_rows : pystr -> Res Exn (list (list pystr))).
Context (decode : Response -> list N -> pystr).
Context {S : Type} (config : CollectionConfig) (utc_now : M S Exn time).
Context (resolve_host : pystr -> M S Exn (option (list pystr))) (guard : SsrfGuard).
Context (allowed_origins : list pystr) (spilling : option (ResponseSpill (S:=S))) (max_chars : Z).
Abbreviation MS := (M S Exn) (only parsing).

(** [_check_allowed] *)
Definition check_allowed (url : pystr) : Res Exn unit :=
  match allowed_origins with
  | [] => Ok tt
  | origins =>
      if existsb (matches_url_prefix bracketed_ok nfkc_ok str_lower url) origins then Ok tt
      else Err (EgressBlockedError (EGRESS_BLOCKED_TEMPLATE (str_join ", " origins)))
  end.
Definition request_limit : Z := match spilling with Some spill => wire_limit_bytes spill | None => MAX_RESPONSE_BYTES end.
Definition source_of (url : pystr) : pystr :=
  "http:" +s+ match urlsplit bracketed_ok nfkc_ok url with Some parts => default "" (hostname str_lower parts) | None => "" end.
Definition shown (status : Z) (body : pystr) : pystr := "HTTP " +s+ str_of_Z status +s+ newline +s+ body.
Definition cut (body : pystr) (truncated : bool) : pystr :=
  if (max_chars <? str_len body)%Z then str_take max_chars body +s+ TRUNCATED_SUFFIX
  else if truncated then body +s+ BODY_TOO_LARGE_SUFFIX else body.

(** [HttpRequestTool.execute]; an error of the client is not caught. *)
Definition http_request (http : Request -> MS (Res pystr Response)) (features : option (gset pystr)) (user_id : pystr)
    (owner_task_id : option pystr) (arguments : list (pystr * json)) : MS pystr :=
  let feature := FeatureCode.value FeatureCode.HTTP_ENDPOINTS in
  if negb (feature_enabled features feature) then ret (feature_refusal feature)
  else
    let! params := lift (from_arguments repr arguments) in
    let! _ := lift (check_allowed (hp_url params)) in
    check bracketed_ok nfkc_ok str_lower ip_address resolve_host guard (hp_url params) ;;;
    let! answer := http {| rq_method := hp_method params; rq_url := hp_url params; rq_headers := hp_headers params; rq_body := hp_body params |} in
    match answer with
    | Err text => raise (OtherError text)
    | Ok response =>
        let '(raw, truncated) := read_capped request_limit (re_chunks response) in
        let body := decode response raw in
        let! passport :=
          match spilling with
          | Some routes =>
              spill str_lower read_number float_text (fun text => match json_loads text with Ok v => Some v | Err _ => None end) json_dumps csv_rows
                config utc_now routes user_id body (re_content_type response) (source_of (hp_url params)) truncated "" (default "" owner_task_id) None
          | None => ret None
          end in
        ret (shown (re_status response) (match passport with Some passport => passport | None => cut body truncated end))
    end.

(** [EndpointGetTool.execute] *)
Definition endpoint_get (get_by_name : pystr -> MS Instruction) (arguments : list (pystr * json)) : MS pystr :=
  match non_blank (argument "name" arguments) with
  | None => raise (ToolArgumentsError "name must be a non-empty string")
  | Some name =>
      let! record := try_except (let! record := get_by_name name in ret (Some record))
                       (fun e => match e with InstructionNotFoundError _ => ret None | e => raise e end) in
      ret (match record with
           | None => ENDPOINT_NOT_FOUND_TEMPLATE name
           | Some record => ENDPOINT_TEMPLATE (in_title record) (match in_tags record with [] => "-" | tags => str_join ", " tags end) (in_content record)
           end)
  end.
(** [ExternalCallTool.execute], over the executor. *)
Definition external_call (execute : pystr -> list (pystr * json) -> CallOptions -> MS ExternalCallResult) (features : option (gset pystr))
    (owner_task_id : option pystr) (arguments : list (pystr * json)) : MS pystr :=
  let feature := FeatureCode.value FeatureCode.HTTP_ENDPOINTS in
  if negb (feature_enabled features feature) then ret (feature_refusal feature)
  else
    match non_blank (argument "name" arguments) with
    | None => raise (ToolArgumentsError "name must be a non-empty string")
    | Some name =>
        let! params := lift (parse_params (argument "params" arguments)) in
        let! opts := lift (parse_call_options arguments) in
        let! result := execute name params (scoped (default "" owner_task_id) opts) in
        ret (if (er_status result =? 0)%Z then er_body result else shown (er_status result) (er_body result))
    end.
End Requests.

(** ** Web search ([search/]) *)

Record SearchResult := { sr_title : pystr; sr_link : pystr; sr_snippet : pystr }.
Record SearchResponse := { sp_results : list SearchResult; sp_answer : option pystr }.
Definition SERPER_SEARCH_URL : pystr := "https://google.serper.dev/search".
Definition API_KEY_HEADER : pystr := "X-API-KEY".
Definition DEFAULT_NUM_RESULTS : Z := 5.
Definition MAX_NUM_RESULTS : Z := 10.
Definition MAX_OUTPUT_CHARS : Z := 4000.
Definition SEARCH_TRUNCATED_SUFFIX : pystr := newline +s+ "...[truncated]".
Definition NO_RESULTS_MESSAGE : pystr := "no results".

(** [_parse_organic], [_answer_box], [_parse_response] *)
Definition parse_organic (raw : json) : option SearchResult :=
  match raw with
  | JObj fields =>
      match dict_get "title" fields, dict_get "link" fields with
      | Some (JStr title), Some (JStr link) =>
          Some {| sr_title := title; sr_link := link; sr_snippet := match dict_get "snippet" fields with Some (JStr snippet) => snippet | _ => "" end |}
      | _, _ => None
      end
  | _ => None
  end.
Definition answer_box (raw : option json) : option pystr :=
  match raw with
  | Some (JObj fields) =>
      match non_blank (dict_get "answer" fields) with Some text => Some text | None => non_blank (dict_get "snippet" fields) end
  | _ => None
  end.
Definition parse_search (payload : json) (num_results : Z) : Res Exn SearchResponse :=
  match payload with
  | JObj fields =>
      Ok {| sp_results := match dict_get "organic" fields with Some (JList organic) => omap parse_organic (first_of num_results organic) | _ => [] end;
            sp_answer := answer_box (dict_get "answerBox" fields) |}
  | _ => attribute_error
  end.

Section Search.
Context (str_other : json -> pystr) (json_loads : pystr -> Res pystr json).
Context {S : Type} (http_post : PostRequest -> M S Exn (Res http_error ApiResponse)) (api_key : pystr) (timeout : float).
(** [SerperSearchProvider.search] *)
Definition serper_search (query : pystr) (num_results : Z) : M S Exn SearchResponse :=
  let! answer := http_post {| pq_url := SERPER_SEARCH_URL; pq_json := JObj [("q" : pystr, JStr query); ("num" : pystr, JInt num_results)];
                              pq_headers := [(API_KEY_HEADER, api_key)]; pq_timeout := timeout |} in
  match answer with
  | Err e => raise (SearchError ("search failed: " +s+ e.2))
  | Ok response =>
      if negb (ar_status response =? 200)%Z then raise (SearchError ("search API returned HTTP " +s+ str_of_Z (ar_status response)))
      else
        match json_loads (default "" (ar_body response)) with
        | Ok payload => lift (parse_search payload num_results)
        | Err _ => raise (OtherError "JSONDecodeError")
        end
  end.

Definition parse_num_results (raw : option json) : Z :=
  match raw with Some (JInt n) => Z.min (Z.max n 1) MAX_NUM_RESULTS | _ => DEFAULT_NUM_RESULTS end.
Definition result_lines (numbered : Z * SearchResult) : pystr :=
  let '(position, result) := numbered in
  str_join newline ([str_of_Z position +s+ ". " +s+ sr_title result; sr_link result] ++
                    if str_empty (str_strip (sr_snippet result)) then [] else [sr_snippet result]).
Definition cut_output (text : pystr) : pystr :=
  if (str_len text <=? MAX_OUTPUT_CHARS)%Z then text else str_take MAX_OUTPUT_CHARS text +s+ SEARCH_TRUNCATED_SUFFIX.
Definition format_results (response : SearchResponse) : pystr :=
  let sections := match sp_answer response with Some answer => ["Answer box: " +s+ answer] | None => [] end ++
                  (result_lines <$> numbered 1 (sp_results response)) in
  match sections with
  | [] => NO_RESULTS_MESSAGE
  | sections => cut_output (str_join (newline +s+ newline) sections)
  end.
(** [WebSearchTool.execute] *)
Definition web_search (provider : pystr -> Z -> M S Exn SearchResponse) (features : option (gset pystr)) (arguments : list (pystr * json)) : M S Exn pystr :=
  let feature := FeatureCode.value FeatureCode.WEB_SEARCH in
  if negb (feature_enabled features feature) then ret (feature_refusal feature)
  else
    match dict_get "query" arguments with
    | None => raise (OtherError "KeyError")
    | Some query =>
        try_except
          (let! response := provider (str_value str_other query) (parse_num_results (dict_get "num_results" arguments)) in
           ret (format_results response))
          (fun e => match e with SearchError text => ret ("error: " +s+ text) | e => raise e end)
    end.
End Search.

(** ** The history of a dialog ([context/tools.py]) *)

Definition NO_HITS_MESSAGE : pystr := "no matching messages".
Definition DATE_ONLY_LENGTH : Z := 10.
Definition SNIPPET_CHARS : Z := 300.
Definition ENTRY_TEMPLATE (created : pystr) (seq : Z) (role snippet : pystr) : pystr :=
  "[" +s+ created +s+ "] seq " +s+ str_of_Z seq +s+ " " +s+ role +s+ ": " +s+ snippet.
Definition snippet (content : pystr) : pystr := str_take SNIPPET_CHARS (str_join " " (str_split content)).
Definition format_entry (message : ArchivedMessage) : pystr :=
  ENTRY_TEMPLATE (format_minute (am_created_at message)) (am_seq message) (MessageRole.value (am_role message)) (snippet (am_content message)).
(** The last instant of the year 9999. *)
Definition MAX_INSTANT : time := (2932897 * day_us - 1)%Z.

Section History.
(** [datetime.fromisoformat]: the wall clock of a text, and its offset if it
    names one. *)
Context (datetime_fromisoformat : pystr -> option (Z * option Z)) (default_limit max_limit : Z).
Context {S : Type} (search : pystr -> pystr -> ArchiveFilter -> Z -> M S Exn (list ArchivedMessage)).
Context (find_by_topic : pystr -> pystr -> M S Exn (list DialogueSummary)).
Abbreviation MS := (M S Exn) (only parsing).

(** [_parse_date], [_limit], [_seq_ranges] *)
Definition date_error {A} (name : pystr) : Res Exn A := Err (ToolArgumentsError (name +s+ " must be an ISO date or datetime string")).
Definition parse_date (raw : option json) (name : pystr) (at_end : bool) : Res Exn (option time) :=
  match raw with
  | None => Ok None
  | Some _ =>
      match non_blank raw with
      | None => date_error name
      | Some raw =>
          let text := str_strip raw in
          match datetime_fromisoformat text with
          | None => date_error name
          | Some (wall, offset) =>
              let day := if at_end && (str_len text =? DATE_ONLY_LENGTH)%Z then day_us else 0%Z in
              if (MAX_INSTANT <? wall + day)%Z then Err (OtherError "OverflowError") else Ok (Some (wall + day - default 0 offset)%Z)
          end
      end
  end.
Definition parse_history_limit (raw : option json) : Res Exn Z :=
  match raw with
  | None => Ok default_limit
  | Some (JInt n) =>
      if (n <? 1)%Z || (max_limit <? n)%Z then Err (ToolArgumentsError ("limit must be between 1 and " +s+ str_of_Z max_limit)) else Ok n
  | Some _ => Err (ToolArgumentsError "limit must be an integer")
  end.
Definition seq_ranges (dialog_id : pystr) (raw_topic : option json) : MS (option (list (Z * Z))) :=
  match raw_topic with
  | None => ret None
  | Some _ =>
      match non_blank raw_topic with
      | None => raise (ToolArgumentsError "topic must be a non-empty string")
      | Some topic =>
          let! summaries := find_by_topic dialog_id topic in
          ret (Some ((fun summary => (sm_seq_from summary, sm_seq_to summary)) <$> summaries))
      end
  end.
(** [HistorySearchTool.execute] *)
Definition history_search (dialog_id : pystr) (arguments : list (pystr * json)) : MS pystr :=
  match non_blank (argument "query" arguments) with
  | None => raise (ToolArgumentsError "query must be a non-empty string")
  | Some query =>
      let! limit := lift (parse_history_limit (argument "limit" arguments)) in
      let! ranges := seq_ranges dialog_id (argument "topic" arguments) in
      match ranges with
      | Some [] => ret NO_HITS_MESSAGE
      | ranges =>
          let! date_from := lift (parse_date (argument "date_from" arguments) "date_from" false) in
          let! date_to := lift (parse_date (argument "date_to" arguments) "date_to" true) in
          let! hits := search dialog_id query {| af_seq_ranges := ranges; af_date_from := date_from; af_date_to := date_to |} limit in
          ret (match hits with
               | [] => NO_HITS_MESSAGE
               | hits => str_join newline ((fun ih => str_of_Z ih.1 +s+ ". " +s+ format_entry ih.2) <$> numbered 1 hits)
               end)
      end
  end.
End History.

(** ** What leaves the process *)

Section Confined.
Context (bracketed_ok nfkc_ok : list N -> bool) (str_lower : pystr -> pystr) (repr : option json -> pystr).
Context (ip_address : pystr -> option ip) (json_loads : pystr -> Res pystr json) (json_dumps : json -> pystr).
Context (read_number : pystr -> option json) (float_text : pystr -> pystr) (csv_rows : pystr -> Res Exn (list (list pystr))).
Context (decode : Response -> list N -> pystr).
Context {S : Type} (config : CollectionConfig) (utc_now : M S Exn time).
Context (resolve_host : pystr -> M S Exn (option (list pystr))) (guard : SsrfGuard).
Context (allowed_origins : list pystr) (spilling : option (ResponseSpill (S:=S))) (max_chars : Z).
Abbreviation requested http := (http_request bracketed_ok nfkc_ok str_lower repr ip_address json_loads json_dumps read_number float_text csv_rows
  decode config utc_now resolve_host guard allowed_origins spilling max_chars http).

(** A request in a state: the plan has HTTP calls, the origin is listed where a
    list is kept, the guard has just let the URL pass, and what is sent is what
    the arguments say. *)
Record confined (features : option (gset pystr)) (arguments : list (pystr * json)) (rq : Request) (s : S) : Prop := {
  cf_plan : feature_enabled features (FeatureCode.value FeatureCode.HTTP_ENDPOINTS) = true;
  cf_listed : allowed_origins = [] \/ exists origin, origin ∈ allowed_origins /\ matches_url_prefix bracketed_ok nfkc_ok str_lower (rq_url rq) origin = true;
  cf_guard : exists s0, check bracketed_ok nfkc_ok str_lower ip_address resolve_host guard (rq_url rq) s0 = (Ok tt, s);
  cf_url : argument "url" arguments = Some (JStr (rq_url rq));
  cf_method : rq_method rq ∈ HttpMethod.values /\ argument "method" arguments = Some (JStr (rq_method rq));
  cf_body : argument "body" arguments = JStr <$> rq_body rq;
  cf_headers : default [] (match argument "headers" arguments with Some (JObj fields) => Some fields | _ => None end) =
               (fun nv => (nv.1, JStr nv.2)) <$> rq_headers rq }.

Lemma header_texts fields headers : each header_text fields = Ok headers -> fields = (fun nv => (nv.1, JStr nv.2)) <$> headers.
Proof using Type.
  revert headers. induction fields as [|[k v] fields IH]; cbn; [by intros headers [= <-]|]. intros headers H.
  apply rbind_Ok in H as (nv & Hnv & (nvs & Hnvs & [= <-])%rbind_Ok). rewrite (IH _ Hnvs). unfold header_text in Hnv. cbn in Hnv.
  destruct v; try done. by injection Hnv as <-.
Qed.
Lemma from_arguments_spec arguments params :
  from_arguments repr arguments = Ok params ->
  (hp_method params ∈ HttpMethod.values /\ argument "method" arguments = Some (JStr (hp_method params))) /\
  argument "url" arguments = Some (JStr (hp_url params)) /\ argument "body" arguments = JStr <$> hp_body params /\
  default [] (match argument "headers" arguments with Some (JObj fields) => Some fields | _ => None end) =
  (fun nv => (nv.1, JStr nv.2)) <$> hp_headers params.
Proof using Type.
  unfold from_arguments. intros (method & Hm & (url & Hu & (headers & Hh & (body & Hb & [= <-])%rbind_Ok)%rbind_Ok)%rbind_Ok)%rbind_Ok. cbn.
  split_and!.
  - unfold parse_method in Hm. destruct (argument "method" arguments) as [[]|]; try done.
    destruct (bool_decide (s ∈ HttpMethod.values)) eqn:E; [|done]. apply bool_decide_eq_true in E. by injection Hm as <-.
  - unfold parse_method in Hm. destruct (argument "method" arguments) as [[]|]; try done.
    destruct (bool_decide (s ∈ HttpMethod.values)) eqn:E; [|done]. by injection Hm as <-.
  - destruct (argument "url" arguments) as [[]|]; try done. destruct (str_empty s); [done|]. by injection Hu as <-.
  - destruct (argument "body" arguments) as [[]|]; try done; by injection Hb as <-.
  - unfold parse_headers in Hh. destruct (argument "headers" arguments) as [[]|]; try done; [by apply header_texts|by injection Hh as <-].
Qed.

(** C18: No request of the raw tool leaves that is not confined: two clients that
    answer the confined requests alike cannot be told apart. *)
Theorem http_request_confined http1 http2 features user_id owner_task_id arguments s :
  (forall rq s, confined features arguments rq s -> http1 rq s = http2 rq s) ->
  requested http1 features user_id owner_task_id arguments s = requested http2 features user_id owner_task_id arguments s.
Proof using Type.
  intros Heq. unfold http_request. destruct (feature_enabled features _) eqn:Hf; [|done]. cbn [negb].
  apply bind_ext. intros params s1 [= Hp _]. apply from_arguments_spec in Hp as (Hm & Hu & Hb & Hh).
  apply bind_ext. intros [] s2 [= Hallowed _]. apply bind_ext. intros [] s3 Hguard. unfold bind at 1. rewrite Heq; [done|].
  split; cbn; try done; [|by eexists].
  unfold check_allowed in Hallowed. destruct allowed_origins as [|o os]; [by left|]. right.
  destruct (existsb _ _) eqn:E; [|done]. apply existsb_exists in E as (origin & Hin & Hmatch). exists origin. split; [by apply list_elem_of_In|done].
Qed.
End Confined.

(** ** What a search answers *)

(** Searching shows as many results as were asked for at most, all of them
    objects of the answer with a title and a link, in order, in a text of a
    bounded length. *)
Theorem search_is_bounded payload num_results response :
  (0 <= num_results)%Z -> parse_search payload num_results = Ok response ->
  (Z.of_nat (length (sp_results response)) <= num_results)%Z /\
  (exists fields organic, payload = JObj fields /\ sublist (sp_results response) (omap parse_organic organic) /\
    (organic = [] \/ dict_get "organic" fields = Some (JList organic))) /\
  (str_len (format_results response) <= MAX_OUTPUT_CHARS + str_len SEARCH_TRUNCATED_SUFFIX)%Z.
Proof.
  intros Hn H. destruct payload as [| | | | | |fields]; try done. cbn in H. injection H as <-. cbn [sp_results]. split_and!.
  - destruct (dict_get "organic" fields) as [[]|]; try (cbn; lia). pose proof (length_omap_le parse_organic (first_of num_results l)) as Hle.
    unfold first_of in *. rewrite length_take in Hle. lia.
  - destruct (dict_get "organic" fields) as [[]|] eqn:E; try (exists fields, []; split_and!; [done|constructor|by left]).
    exists fields, l. split_and!; [done| |by right]. rewrite <-(take_drop (Z.to_nat num_results) l) at 2. rewrite omap_app. apply sublist_inserts_r.
    unfold first_of. done.
  - unfold format_results. destruct (_ ++ _) as [|x l]; [vm_compute; congruence|]. unfold cut_output.
    pose proof (str_len_nonneg SEARCH_TRUNCATED_SUFFIX).
    destruct (Z.leb_spec (str_len (str_join (newline +s+ newline) (x :: l))) MAX_OUTPUT_CHARS); [lia|].
    rewrite str_len_app. pose proof (str_len_take_le MAX_OUTPUT_CHARS (str_join (newline +s+ newline) (x :: l))). unfold MAX_OUTPUT_CHARS in *. lia.
Qed.

(** ** What the history answers *)

Section HistoryLaws.
Context (same_char : N -> N -> bool) (datetime_fromisoformat : pystr -> option (Z * option Z)) (default_limit max_limit : Z).
Context (topics : pystr -> pystr -> list DialogueSummary).
(** The archive, and the topics of the summaries, over the table of messages. *)
Definition archive_search (dialog_id query : pystr) (filters : ArchiveFilter) (limit : Z) : M (list MessageRow) Exn (list ArchivedMessage) :=
  SummaryStore.search same_char dialog_id query (Some filters) (Z.to_nat limit).
Definition topic_search (dialog_id topic : pystr) : M (list MessageRow) Exn (list DialogueSummary) := ret (topics dialog_id topic).
Abbreviation searched := (history_search datetime_fromisoformat default_limit max_limit archive_search topic_search).

(** A message a search is for: of the dialog, with the query in it letter by
    letter, in the ranges of the topic and between the dates. *)
Definition looked_for (dialog_id query : pystr) (filters : ArchiveFilter) (r : MessageRow) : Prop :=
  mr_dialog_id r = dialog_id /\
  (exists a m b, codes (mr_content r) = a ++ m ++ b /\ reads same_char (codes (str_strip query)) m) /\
  in_ranges (af_seq_ranges filters) r /\ after_date (af_date_from filters) r /\ before_date (af_date_to filters) r.
Definition entries (messages : list ArchivedMessage) : pystr :=
  str_join newline ((fun ih => str_of_Z ih.1 +s+ ". " +s+ format_entry ih.2) <$> numbered 1 messages).

Lemma take_sorted {A} (key : A -> Z) n (l : list A) x y :
  sorted_by key l -> x ∈ take n l -> y ∈ drop n l -> (key x <= key y)%Z.
Proof using Type.
  intros Hs%sorted_by_strong Hx Hy. rewrite <-(take_drop n l) in Hs. revert Hs. generalize (drop n l) Hy. generalize (take n l) Hx. clear.
  intros a Ha b Hb Hs. induction a as [|z a IH]; [by apply not_elem_of_nil in Ha|]. cbn in Hs. inv Hs.
  apply elem_of_cons in Ha as [->|Ha]; [|by apply IH]. rewrite Forall_forall in H2. apply H2. apply elem_of_app. by right.
Qed.
(** C38: The search in the history lists, oldest first and up to the limit, exactly
    the messages it is for, and leaves one out only for older ones. *)
Theorem history_search_exact dialog_id arguments query limit ranges date_from date_to t :
  (0 <= default_limit)%Z -> Forall (fun r => is_Some (to_archived r)) t ->
  non_blank (argument "query" arguments) = Some query ->
  parse_history_limit default_limit max_limit (argument "limit" arguments) = Ok limit ->
  seq_ranges topic_search dialog_id (argument "topic" arguments) t = (Ok ranges, t) -> ranges <> Some [] ->
  parse_date datetime_fromisoformat (argument "date_from" arguments) "date_from" false = Ok date_from ->
  parse_date datetime_fromisoformat (argument "date_to" arguments) "date_to" true = Ok date_to ->
  let wanted := looked_for dialog_id query {| af_seq_ranges := ranges; af_date_from := date_from; af_date_to := date_to |} in
  exists rows messages,
    searched dialog_id arguments t = (Ok (match messages with [] => NO_HITS_MESSAGE | messages => entries messages end), t) /\
    mapM to_archived rows = Some messages /\ sorted_by mr_seq rows /\ (Z.of_nat (length rows) <= limit)%Z /\
    (forall r, r ∈ rows -> r ∈ t /\ wanted r) /\
    (forall r, r ∈ t -> wanted r -> r ∈ rows \/ (Z.of_nat (length rows) = limit /\ forall r', r' ∈ rows -> (mr_seq r' <= mr_seq r)%Z)).
Proof using Type.
  intros Hdefault Hrows Hq Hl Hranges Hne Hfrom Hto wanted. unfold history_search. rewrite Hq, Hl, Hfrom, Hto.
  set (filters := {| af_seq_ranges := ranges; af_date_from := date_from; af_date_to := date_to |}) in *.
  assert (Hlimit : (0 <= limit)%Z).
  { unfold parse_history_limit in Hl. destruct (argument "limit" arguments) as [[]|]; try done; [|by injection Hl as <-].
    destruct (_ || _) eqn:E; [done|]. injection Hl as <-. lia. }
  assert (Hempty : str_empty (str_strip query) = false).
  { unfold non_blank in Hq. destruct (argument "query" arguments) as [[]|]; try done. destruct (str_empty _) eqn:E; [done|]. by injection Hq as <-. }
  set (matching r := mr_dialog_id r = dialog_id /\ ilike same_char ([PERCENT] ++ escape_like (codes (str_strip query)) ++ [PERCENT]) (codes (mr_content r)) = true /\
                     in_ranges ranges r /\ after_date date_from r /\ before_date date_to r).
  assert (Hiff : forall r, matching r <-> wanted r).
  { intros r. unfold matching, wanted, looked_for. by rewrite search_pattern_literal. }
  set (all := order_by mr_seq (select_where matching t)). set (rows := take (Z.to_nat limit) all).
  assert (Hall : forall r, r ∈ all <-> r ∈ t /\ wanted r).
  { intros r. unfold all, select_where. rewrite order_by_perm, list_elem_of_filter, Hiff. tauto. }
  assert (exists messages, mapM to_archived rows = Some messages) as [messages Hm].
  { apply mapM_is_Some_2, Forall_forall. intros r Hr. rewrite Forall_forall in Hrows. apply Hrows.
    eapply elem_of_sublist in Hr; [|apply sublist_take]. by apply Hall in Hr as [? _]. }
  exists rows, messages. split_and!.
  - rewrite (bind_Ok _ _ t limit t) by done. rewrite (bind_Ok _ _ _ _ _ Hranges).
    assert (archive_search dialog_id query filters limit t = (Ok messages, t)) as Hs.
    { unfold archive_search, SummaryStore.search. rewrite Hempty. rewrite bool_decide_false by exact Hne. cbn [orb]. unfold to_archive. change (take _ (order_by mr_seq (select_where _ t))) with rows. by rewrite Hm. }
    destruct ranges as [[|a l]|]; [done| |];
      rewrite (bind_Ok _ _ t date_from t) by done; rewrite (bind_Ok _ _ t date_to t) by done; fold filters;
      rewrite (bind_Ok _ _ _ _ _ Hs); by destruct messages.
  - done.
  - eapply sorted_by_sublist; [apply order_by_sorted|apply sublist_take].
  - unfold rows. rewrite length_take. lia.
  - intros r Hr. eapply elem_of_sublist in Hr; [|apply sublist_take]. by apply Hall.
  - intros r Hr Hw. assert (r ∈ all) as Hin by (by apply Hall). rewrite <-(take_drop (Z.to_nat limit) all) in Hin.
    apply elem_of_app in Hin as [Hin|Hin]; [by left|right]. split.
    + unfold rows. rewrite length_take. destruct (decide (Z.to_nat limit <= length all)); [lia|].
      rewrite drop_ge in Hin by lia. by apply not_elem_of_nil in Hin.
    + intros r' Hr'. eapply take_sorted; [apply order_by_sorted|exact Hr'|exact Hin].
Qed.
End HistoryLaws.
