(* ===== verification/McpLaws.v ===== *)
(** * Laws of the MCP servers

    What a sync leaves of the mirror of a server, which rows the store of
    servers ends with whatever races, what a mirrored record reads back as. *)
From S2P Require Import Prelude PyStr PyFloat Clock Sql Dict Domain Tariffs Secrets Templates Guard ToolSpecs External Ranking Instructions InstructionService InstructionLaws Llm Mcp.

(** ** Dictionaries filled from a list *)

Section Fill.
Context {K V A : Type} `{EqDecision K} (key : A -> K) (value : A -> V).
Definition fill_dict (l : list A) (d : list (K * V)) : list (K * V) := foldl (fun d a => dict_set (key a) (value a) d) d l.
Lemma fill_dict_ok l d : dict_ok d -> dict_ok (fill_dict l d).
Proof. revert d. induction l as [|a l IH]; intros d Hd; [done|]. cbn. by apply IH, dict_ok_set. Qed.
Lemma fill_dict_get l d k v :
  dict_get k (fill_dict l d) = Some v -> dict_get k d = Some v \/ exists a, a ∈ l /\ key a = k /\ value a = v.
Proof.
  revert d. induction l as [|a l IH]; intros d; cbn; [by left|]. intros [H|(b & Hb & Hk & Hv)]%IH.
  - rewrite dict_get_set in H. case_decide as Hk; [|by left]. right. exists a. split_and!; [by left|done|congruence].
  - right. exists b. split_and!; [by right|done|done].
Qed.
Lemma fill_dict_has l d a : a ∈ l -> is_Some (dict_get (key a) (fill_dict l d)).
Proof.
  assert (Hkeep : forall l d k, is_Some (dict_get k d) -> is_Some (dict_get k (fill_dict l d))).
  { clear. induction l as [|b l IH]; intros d k Hd; [done|]. cbn. apply IH. rewrite dict_get_set. by case_decide. }
  revert d. induction l as [|b l IH]; intros d; [by intros ?%not_elem_of_nil|]. cbn. intros [->|Ha]%elem_of_cons; [|by apply IH].
  apply Hkeep. rewrite dict_get_set, decide_True by done. by eexists.
Qed.
(** Distinct keys: every element is there. *)
Lemma fill_dict_inj l a :
  (forall a b, a ∈ l -> b ∈ l -> key a = key b -> a = b) -> a ∈ l -> dict_get (key a) (fill_dict l []) = Some (value a).
Proof.
  intros Hinj Ha. destruct (fill_dict_has l [] a Ha) as [v Hv]. rewrite Hv.
  destruct (fill_dict_get _ _ _ _ Hv) as [H|(b & Hb & Hk & <-)]; [done|]. do 2 f_equal. by apply Hinj.
Qed.
End Fill.

Lemma dict_get_values {K V W} `{EqDecision K} (f : V -> W) (d : list (K * V)) k :
  dict_get k (map (fun kv => (kv.1, f kv.2)) d) = f <$> dict_get k d.
Proof. induction d as [|[k' v] d IH]; [done|]. cbn. by case_decide. Qed.
Lemma dict_keys_values {K V W} (f : V -> W) (d : list (K * V)) : dict_keys (map (fun kv => (kv.1, f kv.2)) d) = dict_keys d.
Proof. induction d as [|kv d IH]; [done|]. unfold dict_keys in *. cbn. f_equal. exact IH. Qed.
Lemma dict_get_perm {K V} `{EqDecision K} (d d' : list (K * V)) k : dict_ok d -> d ≡ₚ d' -> dict_get k d = dict_get k d'.
Proof.
  intros Hd Hp. assert (Hd' : dict_ok d') by (unfold dict_ok, dict_keys in *; by rewrite <-Hp).
  destruct (dict_get k d) as [v|] eqn:Hg.
  - symmetry. apply dict_elem_get; [done|]. rewrite <-Hp. by apply dict_get_elem.
  - symmetry. apply dict_get_None. apply dict_get_None in Hg. unfold dict_keys in *. by rewrite <-Hp.
Qed.
(** A narrower filter of lists that agree on a wider one. *)
Lemma filter_narrow {A} (P Q : A -> Prop) `{!forall a, Decision (P a)} `{!forall a, Decision (Q a)} (l k : list A) :
  (forall a, Q a -> P a) -> filter P l = filter P k -> filter Q l = filter Q k.
Proof.
  intros HQ Hlk. rewrite <-(list_filter_filter_l Q P l HQ), <-(list_filter_filter_l Q P k HQ). by rewrite Hlk.
Qed.

(** ** A mirrored record *)

Section ReadBack.
Context (json_loads : pystr -> Res pystr json) (json_dumps : json -> pystr).

Lemma sorted_get d k : dict_ok d -> sort_keys (JObj d) = JObj (order_by_str fst (map (fun kv => (kv.1, sort_keys kv.2)) d)) /\
  dict_get k (order_by_str fst (map (fun kv => (kv.1, sort_keys kv.2)) d)) = sort_keys <$> dict_get k d.
Proof using Type.
  intros Hd. split; [done|]. rewrite <-dict_get_values. symmetry. apply dict_get_perm; [|symmetry; apply order_by_str_perm].
  unfold dict_ok. by rewrite dict_keys_values.
Qed.

(** What a sync writes for a tool is what a call of the record executes: the
    contract names that server and that tool, with the schema the server gave. *)
Theorem mirror_reads_back server tool :
  server <> "" -> td_name tool <> "" ->
  json_loads (mirror_content json_dumps server tool) = Ok (sort_keys (JObj (mirror_document server tool))) ->
  parse_mirror json_loads (mirror_content json_dumps server tool) =
  Ok {| mm_server := server; mm_tool := td_name tool; mm_input_schema := object_or_empty (Some (sort_keys (JObj (td_input_schema tool)))) |}.
Proof using Type.
  intros Hs Ht Hload. unfold parse_mirror. rewrite Hload.
  assert (Hok : dict_ok (mirror_document server tool)) by (unfold dict_ok; cbn; vm_decide).
  destruct (sorted_get (mirror_document server tool) KIND_FIELD Hok) as [-> Hk].
  pose proof (fun k => proj2 (sorted_get (mirror_document server tool) k Hok)) as Hget.
  cbn iota. rewrite !Hget.
  change (dict_get KIND_FIELD (mirror_document server tool)) with (Some (JStr MIRROR_KIND)).
  change (dict_get "server" (mirror_document server tool)) with (Some (JStr server)).
  change (dict_get "tool" (mirror_document server tool)) with (Some (JStr (td_name tool))).
  change (dict_get "input_schema" (mirror_document server tool)) with (Some (JObj (td_input_schema tool))).
  cbn [fmap option_fmap option_map sort_keys]. rewrite decide_True by done. unfold non_empty_string.
  destruct (str_empty server) eqn:E1; [by apply str_empty_spec in E1|].
  by destruct (str_empty (td_name tool)) eqn:E2; [apply str_empty_spec in E2|].
Qed.
End ReadBack.

(** ** One row per URL *)

Section Store.
Context (others : nat -> McpDb -> McpDb) (known_user : pystr -> bool) (now : time).
Import McpServerStore.

Record db_ok (db : McpDb) : Prop := {
  db_ids : NoDup (mr_id <$> md_servers db);
  db_names : NoDup (mr_name <$> md_servers db);
  db_urls : NoDup (mr_url <$> md_servers db);
  db_links : NoDup ((fun l => (ml_server_id l, ml_user_id l)) <$> md_links db) }.
(** A row stays what it is addressed by. *)
Definition identity (r : McpServerRow) : pystr * pystr * pystr := (mr_id r, mr_name r, mr_url r).
Definition grows (db db' : McpDb) : Prop :=
  (forall r, r ∈ md_servers db -> identity r ∈ (identity <$> md_servers db')) /\ (md_links db ⊆ md_links db').
(** The other processes keep the constraints and delete nothing. *)
Hypothesis (Hothers : forall k db, db_ok db -> db_ok (others k db) /\ grows db (others k db)).

#[local] Instance grows_preorder : PreOrder grows.
Proof using Type.
  split; [intros db; split; [intros r Hr; by apply list_elem_of_fmap_2|done]|].
  intros a b c [H1 H2] [H3 H4]. split; [|by etrans]. intros r Hr. apply H1 in Hr as Hb.
  apply list_elem_of_fmap in Hb as (r' & Hid & Hr'). apply H3 in Hr'. by rewrite Hid.
Qed.
Lemma find_by_url_spec url db :
  match find_by_url url db with
  | Some r => r ∈ md_servers db /\ mr_url r = url
  | None => forall r, r ∈ md_servers db -> mr_url r <> url
  end.
Proof using Type.
  unfold find_by_url. change (head _) with (find_key mr_url url (md_servers db)).
  destruct (find_key mr_url url (md_servers db)) as [r|] eqn:Hf; [by apply find_key_Some in Hf|].
  apply find_key_None in Hf. by rewrite Forall_forall in Hf.
Qed.
Lemma clashes_spec r db :
  clashes r db = false <-> (mr_id r ∉ mr_id <$> md_servers db) /\ (mr_name r ∉ mr_name <$> md_servers db) /\ (mr_url r ∉ mr_url <$> md_servers db).
Proof using Type.
  unfold clashes. rewrite <-not_true_iff_false, existsb_exists, !list_elem_of_fmap. split.
  - intros H. split_and!; intros (x & Hx & Hin); apply H; exists x; (split; [by apply list_elem_of_In|]); apply bool_decide_eq_true; auto.
  - intros (H1 & H2 & H3) (x & Hx & [?|[?|?]]%bool_decide_eq_true); apply list_elem_of_In in Hx;
      [apply H1|apply H2|apply H3]; by exists x.
Qed.
Lemma add_row_ok r db : db_ok db -> clashes r db = false -> db_ok (on_servers (insert_row r) db) /\ grows db (on_servers (insert_row r) db).
Proof using Type.
  intros [H1 H2 H3 H4] (Hi & Hn & Hu)%clashes_spec. unfold insert_row. split; [split|split]; cbn; try done.
  all: try (rewrite fmap_app; apply NoDup_app; split_and!; [done| |apply NoDup_singleton]; by intros x Hx ->%list_elem_of_singleton).
  intros x Hx. rewrite fmap_app. apply elem_of_app. left. by apply list_elem_of_fmap_2.
Qed.
Lemma linked_spec i u db : linked i u db = true <-> (i, u) ∈ (fun l => (ml_server_id l, ml_user_id l)) <$> md_links db.
Proof using Type.
  unfold linked. rewrite existsb_exists, list_elem_of_fmap. split.
  - intros (l & Hl & [<- <-]%bool_decide_eq_true). exists l. split; [done|by apply list_elem_of_In].
  - intros (l & [= -> ->] & Hl). exists l. split; [by apply list_elem_of_In|by apply bool_decide_eq_true].
Qed.
(** A link to a row that is there always ends up in the table. *)
Lemma link_run i u db :
  db_ok db -> known_user u = true -> i ∈ mr_id <$> md_servers db ->
  exists db', link others known_user now i u db = (Ok tt, db') /\ db_ok db' /\ grows db db' /\ linked i u db' = true.
Proof using Hothers.
  intros Hok Hu Hi. unfold link, bind at 1, gets. destruct (linked i u db) eqn:Hl; [by exists db|].
  destruct (Hothers 3%nat db Hok) as [Hok1 Hg1]. set (db1 := others 3%nat db) in *. unfold bind at 1, modify. fold db1.
  assert (Hi1 : i ∈ mr_id <$> md_servers db1).
  { apply list_elem_of_fmap in Hi as (r & -> & Hr). apply Hg1 in Hr. apply list_elem_of_fmap in Hr as (r' & [= Hid _ _] & Hr').
    rewrite Hid. by apply list_elem_of_fmap_2. }
  assert (Hthere : existsb (fun r => bool_decide (mr_id r = i)) (md_servers db1) = true).
  { apply list_elem_of_fmap in Hi1 as (r & -> & Hr). apply existsb_exists. exists r. split; [by apply list_elem_of_In|].
    by apply bool_decide_eq_true. }
  unfold suppress, try_except, insert_link, bind, get_st. rewrite Hu, Hthere. cbn [negb]. rewrite !orb_false_r.
  destruct (linked i u db1) eqn:Hl1; [by exists db1|].
  eexists. split; [reflexivity|]. unfold insert_row. split_and!.
  - destruct Hok1 as [H1 H2 H3 H4]. split; cbn; try done. rewrite fmap_app. apply NoDup_app. split_and!; [done| |apply NoDup_singleton].
    intros x Hx ->%list_elem_of_singleton. apply linked_spec in Hx. cbn in Hx. congruence.
  - etrans; [done|]. split; cbn; [|set_solver]. intros r Hr. by apply list_elem_of_fmap_2.
  - apply linked_spec. cbn. rewrite fmap_app. apply elem_of_app. right. by apply list_elem_of_singleton.
Qed.

(** C36: However many register one URL at once, the table has one row for it:
    [add] answers with that row, under which the user is then linked; it fails
    only when the name (or the fresh id) belongs to a row of another URL. *)
Theorem add_shares_url server user_id db :
  db_ok db -> known_user user_id = true ->
  let '(r, db') := add others known_user now server user_id db in
  db_ok db' /\ grows db db' /\
  match r with
  | Ok s =>
      ms_url s = ms_url server /\ linked (ms_id s) user_id db' = true /\
      (ms_id s, ms_name s, ms_url s) ∈ identity <$> md_servers db'
  | Err e =>
      e = McpServerNameTakenError (ms_name server) /\
      (forall row, row ∈ md_servers db' -> mr_url row <> ms_url server) /\
      exists row, row ∈ md_servers db' /\ (mr_name row = ms_name server \/ mr_id row = ms_id server)
  end.
Proof using Hothers.
  intros Hok Hu. unfold add, bind at 1, gets.
  assert (Hlast : forall row db1, db_ok db1 -> grows db db1 -> row ∈ md_servers db1 -> mr_url row = ms_url server ->
    let '(r, db') := (modify (others 2) ;;; link others known_user now (mr_id row) user_id ;;; ret (to_server row)) db1 in
    db_ok db' /\ grows db db' /\ match r with
      | Ok s => ms_url s = ms_url server /\ linked (ms_id s) user_id db' = true /\ (ms_id s, ms_name s, ms_url s) ∈ identity <$> md_servers db'
      | Err e => False end).
  { intros row db1 Hok1 Hg1 Hrow Hurl. destruct (Hothers 2%nat db1 Hok1) as [Hok2 Hg2].
    assert (Hid : identity row ∈ identity <$> md_servers (others 2%nat db1)) by (by apply Hg2).
    destruct (link_run (mr_id row) user_id (others 2%nat db1)) as (db' & Hrun & Hok' & Hg' & Hl); [done|done| |].
    { apply list_elem_of_fmap in Hid as (r' & [= -> _ _] & Hr'). by apply list_elem_of_fmap_2. }
    unfold bind at 1, modify. rewrite (bind_Ok _ _ _ _ _ Hrun). cbn. split_and!; [done|by do 2 (etrans; [done|])|done|done|].
    apply list_elem_of_fmap in Hid as (r' & Heq & Hr'). apply Hg' in Hr'. by rewrite <-Heq in Hr'. }
  pose proof (find_by_url_spec (ms_url server) db) as Hf. destruct (find_by_url (ms_url server) db) as [row|].
  { destruct Hf as [Hrow Hurl]. unfold bind at 1, ret at 1. specialize (Hlast row db Hok (reflexivity _) Hrow Hurl).
    destruct (bind _ _ db) as [[s|e] db']; [exact Hlast|by destruct Hlast as (_ & _ & [])]. }
  destruct (Hothers 0%nat db Hok) as [Hok1 Hg1]. rewrite bind_assoc. unfold bind at 1, modify at 1. set (db1 := others 0%nat db) in *.
  set (fresh := row_of_server now server). unfold bind at 1, try_except, insert_server, bind at 1, get_st.
  destruct (clashes fresh db1) eqn:Hc.
  - cbn [raise]. unfold bind at 1, modify at 1. destruct (Hothers 1%nat db1 Hok1) as [Hok2 Hg2]. set (db2 := others 1%nat db1) in *.
    unfold bind at 1, gets. pose proof (find_by_url_spec (ms_url server) db2) as Hf2.
    destruct (find_by_url (ms_url server) db2) as [row|].
    + destruct Hf2 as [Hrow Hurl]. unfold ret at 1. specialize (Hlast row db2 Hok2 ltac:(by etrans) Hrow Hurl).
      destruct (bind _ _ db2) as [[s|e] db']; [exact Hlast|by destruct Hlast as (_ & _ & [])].
    + cbn. split_and!; [done|by etrans|done|done|].
      unfold clashes in Hc. apply existsb_exists in Hc as (x & Hx & Hd%bool_decide_eq_true). apply list_elem_of_In in Hx.
      apply Hg2 in Hx as Hx2. apply list_elem_of_fmap in Hx2 as (y & [= Hyi Hyn Hyu] & Hy). exists y. split; [done|].
      destruct Hd as [Hd|[Hd|Hd]]; [right; cbn in Hd; congruence|left; cbn in Hd; congruence|].
      exfalso. apply (Hf2 y Hy). cbn in Hd. congruence.
  - unfold bind at 1, modify at 1, ret at 1. destruct (add_row_ok fresh db1 Hok1 Hc) as [Hok2 Hg2].
    assert (Hin : fresh ∈ md_servers (on_servers (insert_row fresh) db1)).
    { unfold on_servers, insert_row. cbn. apply elem_of_app. right. by apply list_elem_of_singleton. }
    specialize (Hlast fresh (on_servers (insert_row fresh) db1) Hok2 ltac:(by etrans) Hin eq_refl).
    destruct (bind _ _ _) as [[s|e] db'] eqn:Hb; [exact Hlast|by destruct Hlast as (_ & _ & [])].
Qed.
End Store.

(** ** The mirror follows the server *)

Section Mirror.
Context (json_dumps : json -> pystr) (policy : InstructionSearchPolicy) (like_prefix : pystr -> pystr -> bool).
Context (embed : list pystr -> M ServiceState Exn (list vector)) (now : ServiceState -> time) (new_id : ServiceState -> pystr).
(** The embedder leaves the table alone and the sync is not cancelled; ids are
    new; [LIKE] finds what starts with the prefix. *)
Hypothesis (Hembed : forall texts, quiet (embed texts)) (Hnew : forall s, new_id s ∉ ro_id <$> ss_rows s).
Hypothesis (Hcalm : forall texts s, (embed texts s).1 <> Err CancelledError).
Hypothesis (Hprefix : forall p x, like_prefix p (p +s+ x) = true).
Abbreviation alone := (fun (_ : nat) (t : list InstructionRow) => t).
Abbreviation save_public := (save_public policy alone embed now new_id).
Abbreviation write_tools := (write_tools json_dumps policy alone embed now new_id).
Abbreviation mirror_tools := (mirror_tools json_dumps policy alone like_prefix embed now new_id).
Abbreviation trows := (list InstructionRow).

(** The public endpoint record of a title. *)
Definition endpoint (title : pystr) : slot := (InstructionType.ENDPOINT, title, None).
Definition holds_content (t : trows) (title content : pystr) : Prop :=
  exists r, r ∈ t /\ slot_of r = endpoint title /\ ro_content r = content /\ ro_system r = false.
(** No system record stands in the way. *)
Definition free (t : trows) (title : pystr) : Prop := forall r, r ∈ t -> slot_of r = endpoint title -> ro_system r = false.
(** Two tables agree but for the slots of some titles. *)
Definition same_but (titles : list pystr) (t t' : trows) : Prop :=
  filter (fun r => slot_of r ∉ (endpoint <$> titles)) t' = filter (fun r => slot_of r ∉ (endpoint <$> titles)) t.
Lemma same_but_elem titles t t' r : same_but titles t t' -> slot_of r ∉ (endpoint <$> titles) -> r ∈ t <-> r ∈ t'.
Proof using Type.
  intros H Hr. assert (Hf : r ∈ filter (fun r => slot_of r ∉ (endpoint <$> titles)) t <->
    r ∈ filter (fun r => slot_of r ∉ (endpoint <$> titles)) t') by (by rewrite H).
  rewrite !list_elem_of_filter in Hf. tauto.
Qed.
Lemma same_but_weaken titles titles' t t' : titles ⊆ titles' -> same_but titles t t' -> same_but titles' t t'.
Proof using Type.
  intros Hsub. unfold same_but. apply filter_narrow. intros r Hr Hin. apply Hr. apply list_elem_of_fmap in Hin as (x & -> & Hx).
  apply list_elem_of_fmap_2. by apply Hsub.
Qed.
Lemma same_but_trans titles titles' t t1 t2 :
  same_but titles t t1 -> same_but titles' t1 t2 -> same_but (titles ++ titles') t t2.
Proof using Type.
  intros H1 H2. unfold same_but in *. transitivity (filter (fun r => slot_of r ∉ (endpoint <$> titles ++ titles')) t1).
  - apply (same_but_weaken titles' (titles ++ titles')); [intros x Hx; apply elem_of_app; by right|exact H2].
  - apply (same_but_weaken titles (titles ++ titles')); [intros x Hx; apply elem_of_app; by left|exact H1].
Qed.
Lemma endpoint_in title (titles : list pystr) : endpoint title ∈ (endpoint <$> titles) <-> title ∈ titles.
Proof using Type.
  rewrite list_elem_of_fmap. split; [intros (x & [= ->] & Hx); done|]. intros Hx. by exists title.
Qed.

(** *** Saving a record of the mirror *)

Lemma lenient_returns title content s :
  exists v s1, embed_lenient embed title content s = (Ok v, s1) /\ ss_rows s1 = ss_rows s.
Proof using Hembed Hcalm.
  unfold embed_lenient, except_exception, try_except. pose proof (embed_one_quiet embed Hembed title content s) as Hq.
  unfold embed_one in *. destruct (bind _ _ s) as [[v|e] s1] eqn:Hb; [by exists v, s1|].
  assert (is_exception e = true) as ->; [|by exists [], s1].
  pose proof (Hcalm [embedded_text title content] s) as Hc. unfold bind in Hb.
  destruct (embed [embedded_text title content] s) as [[l|e'] s2]; cbn in Hc.
  - destruct l as [|v [|]]; cbn in Hb; [by injection Hb as <- <-|done|by injection Hb as <- <-].
  - injection Hb as <- <-. by destruct e'.
Qed.
Lemma save_public_run title content tags s :
  store_ok (ss_rows s) -> free (ss_rows s) title ->
  exists i s', save_public InstructionType.ENDPOINT title content tags s = (Ok i, s') /\ store_ok (ss_rows s') /\
    same_but [title] (ss_rows s) (ss_rows s') /\ holds_content (ss_rows s') title content.
Proof using Hembed Hnew Hcalm.
  intros Hok Hfree. unfold InstructionService.save_public, bind at 1, on_rows. rewrite get_by_title_spec by done. cbn iota.
  destruct s as [t pending]. cbn [ss_rows] in *. pose proof (slot_row_spec InstructionType.ENDPOINT title None t) as Hf.
  set (d v := draft InstructionType.ENDPOINT title content tags v (model_of policy v) false None None).
  assert (Hwrite : exists i s', (let! v := embed_lenient embed title content in upsert alone now new_id (d v)) {| ss_rows := t; ss_pending_bumps := pending |} = (Ok i, s') /\
    store_ok (ss_rows s') /\ same_but [title] t (ss_rows s') /\ holds_content (ss_rows s') title content).
  { destruct (lenient_returns title content {| ss_rows := t; ss_pending_bumps := pending |}) as (v & s1 & Hl & Hs1). cbn in Hs1.
    rewrite (bind_Ok _ _ _ _ _ Hl). unfold upsert, on_rows. subst t.
    destruct (upsert_run (now s1) (new_id s1) (d v) (ss_rows s1) Hok (Hnew s1)) as (i & Hrun & row & Hin & _ & Hslot & Hcont & _ & Hsys & _).
    rewrite Hrun. exists i. eexists. split; [reflexivity|]. cbn [ss_rows]. split_and!.
    - apply upserted_ok; [done|apply Hnew|done|done].
    - unfold same_but. apply upserted_others; [apply Hok| |].
      + intros r _ Hr. split; intros Hn; apply Hn; [rewrite Hr|change (slot_of (revised _ _ r)) with (slot_of r); rewrite Hr]; by left.
      + intros Hn. apply Hn. by left.
    - by exists row. }
  destruct (InstructionStore.find_row InstructionType.ENDPOINT title None t) as [p|]; cbn [fmap option_fmap option_map]; [|exact Hwrite].
  destruct Hf as [Hp Hslot]. cbn [in_system in_owner_id in_content in_tags to_instruction]. rewrite (Hfree p Hp Hslot).
  case_bool_decide as Hsame; [|exact Hwrite]. destruct Hsame as (_ & Hc & _). eexists _, _. split; [reflexivity|]. cbn [ss_rows].
  split_and!; [done|done|]. exists p. by split_and!; [..|apply (Hfree p Hp Hslot)].
Qed.

(** *** Writing *)

(** The records a title had when the sync began, as the sync read them. *)
Definition read_of (t : trows) (existing : list (pystr * Instruction)) : Prop :=
  forall title record, dict_get title existing = Some record ->
    exists r, r ∈ t /\ slot_of r = endpoint title /\ to_instruction r = record /\ ro_system r = false.
Definition up_to_date (server_name : pystr) (existing : list (pystr * Instruction)) (wanted : pystr * McpToolDescriptor) : bool :=
  match dict_get wanted.1 existing with
  | Some record => bool_decide (in_content record = mirror_content json_dumps server_name wanted.2)
  | None => false
  end.
Definition mirrored (server_name : pystr) (t : trows) (wanted : pystr * McpToolDescriptor) : Prop :=
  holds_content t wanted.1 (mirror_content json_dumps server_name wanted.2).

Lemma free_same titles t t' title : same_but titles t t' -> title ∉ titles -> free t title -> free t' title.
Proof using Type.
  intros Hs Hn Hf r Hr Hslot. apply Hf; [|done]. apply (same_but_elem titles t t'); [done| |done].
  rewrite Hslot. by rewrite endpoint_in.
Qed.
Lemma holds_same titles t t' title content : same_but titles t t' -> title ∉ titles -> holds_content t title content -> holds_content t' title content.
Proof using Type.
  intros Hs Hn (r & Hr & Hslot & Hc & Hsys). exists r. split_and!; [|done..]. apply (same_but_elem titles t t'); [done| |done].
  rewrite Hslot. by rewrite endpoint_in.
Qed.
Lemma write_tools_run server_name existing wanted n s t :
  store_ok (ss_rows s) -> NoDup (dict_keys wanted) -> read_of t existing ->
  (exists past, same_but past t (ss_rows s) /\ forall title, title ∈ dict_keys wanted -> title ∉ past) ->
  (forall title, title ∈ dict_keys wanted -> free t title) ->
  exists s', write_tools server_name existing wanted n s =
      (Ok (n + Z.of_nat (length (List.filter (fun w => negb (up_to_date server_name existing w)) wanted)))%Z, s') /\
    store_ok (ss_rows s') /\ same_but (dict_keys wanted) (ss_rows s) (ss_rows s') /\ Forall (mirrored server_name (ss_rows s')) wanted.
Proof using Hembed Hnew Hcalm.
  revert n s. induction wanted as [|[title tool] wanted IH]; intros n s Hok Hnd Hread (past & Hpast & Hfresh) Hfree.
  { exists s. cbn. rewrite Z.add_0_r. by split_and!. }
  apply NoDup_cons in Hnd as [Hnew_title Hnd]. cbn [fst] in Hnew_title.
  assert (Hstep : exists m s1, (forall k, Mcp.write_tools json_dumps policy alone embed now new_id server_name existing ((title, tool) :: wanted) k s =
        Mcp.write_tools json_dumps policy alone embed now new_id server_name existing wanted (k + m)%Z s1) /\
      m = (if up_to_date server_name existing (title, tool) then 0 else 1)%Z /\
      store_ok (ss_rows s1) /\ same_but [title] (ss_rows s) (ss_rows s1) /\
      holds_content (ss_rows s1) title (mirror_content json_dumps server_name tool)).
  { destruct (up_to_date server_name existing (title, tool)) eqn:Hup; unfold up_to_date in Hup; cbn [fst snd] in Hup.
    - exists 0%Z, s. split_and!; [|done|done|done|].
      + intros k. cbn [Mcp.write_tools]. by rewrite Hup, Z.add_0_r.
      + destruct (dict_get title existing) as [record|] eqn:Hg; [|done]. apply bool_decide_eq_true in Hup.
        destruct (Hread _ _ Hg) as (r & Hr & Hslot & <- & Hsys). apply (holds_same past t); [done|apply Hfresh; by left|].
        exists r. by split_and!.
    - destruct (save_public_run title (mirror_content json_dumps server_name tool) [MIRROR_TAG; server_name] s Hok) as (i & s1 & Hrun & Hok1 & Hs1 & Hh).
      { apply (free_same past t); [done|apply Hfresh; by left|apply Hfree; by left]. }
      exists 1%Z, s1. split_and!; [|done..]. intros k. cbn [Mcp.write_tools]. rewrite Hup. unfold save_mirror.
      by rewrite (bind_Ok _ _ _ _ _ Hrun). }
  destruct Hstep as (m & s1 & Hstep & Hm & Hok1 & Hs1 & Hh).
  destruct (IH (n + m)%Z s1) as (s2 & Hrun & Hok2 & Hs2 & Hall); [done|done|done| | |].
  - exists (past ++ [title]). split; [by eapply same_but_trans|]. intros x Hx Hin. apply elem_of_app in Hin as [Hin| ->%list_elem_of_singleton].
    + by apply (Hfresh x); [right|].
    + done.
  - intros x Hx. apply Hfree. by right.
  - exists s2. split_and!; [|done| |].
    + rewrite Hstep, Hrun. do 2 f_equal. cbn [List.filter]. rewrite Hm. destruct (up_to_date _ _ _); cbn [negb length]; lia.
    + change (dict_keys ((title, tool) :: wanted)) with ([title] ++ dict_keys wanted). by eapply same_but_trans.
    + constructor; [|done]. unfold mirrored. cbn. by apply (holds_same (dict_keys wanted) (ss_rows s1)).
Qed.

(** *** Removing *)

Definition gone_of (existing : list (pystr * Instruction)) (wanted : list (pystr * McpToolDescriptor)) : list pystr :=
  List.filter (fun title => negb (bool_decide (title ∈ dict_keys wanted))) (dict_keys existing).
Lemma gone_cons title record existing wanted :
  gone_of ((title, record) :: existing) wanted =
  if bool_decide (title ∈ dict_keys wanted) then gone_of existing wanted else title :: gone_of existing wanted.
Proof using Type. unfold gone_of. cbn. by case_bool_decide. Qed.
Lemma delete_by_title_run t title r :
  r ∈ t -> slot_of r = endpoint title ->
  InstructionStore.delete_by_title title InstructionType.ENDPOINT t = (Ok true, filter (fun x => slot_of x ∉ (endpoint <$> [title])) t).
Proof using Type.
  intros Hr Hslot. unfold InstructionStore.delete_by_title, InstructionStore.delete_where_some, bind, gets, modify.
  assert (rowcount (fun x => slot_of x = (InstructionType.ENDPOINT, title, None)) t <> 0%nat) as Hn.
  { rewrite rowcount_zero, Forall_forall. intros Hall. by apply (Hall r Hr). }
  destruct (rowcount _ t) as [|n]; [done|]. unfold ret. f_equal. unfold delete_where. apply list_filter_iff. intros x.
  cbn [fmap list_fmap]. by rewrite list_elem_of_singleton.
Qed.
Lemma delete_public_run t pending title r :
  store_ok t -> r ∈ t -> slot_of r = endpoint title -> ro_system r = false ->
  delete_public (ro_id r) {| ss_rows := t; ss_pending_bumps := pending |} =
  (Ok tt, {| ss_rows := filter (fun x => slot_of x ∉ (endpoint <$> [title])) t; ss_pending_bumps := pending |}).
Proof using Type.
  intros Hok Hr Hslot Hsys. unfold delete_public, bind at 1, on_rows at 1, InstructionStore.get, gets. cbn [ss_rows].
  rewrite find_id by (done || apply Hok). cbn [fmap option_fmap option_map in_owner_id in_system in_title in_type to_instruction].
  pose proof (delete_by_title_run t title r Hr Hslot) as Hdel.
  injection Hslot as Hty Hti Ho. rewrite Ho, Hsys, Hty, Hti. cbn iota. unfold bind, on_rows. cbn [ss_rows ss_pending_bumps].
  rewrite bool_decide_eq_false_2 by (by intros Hn; apply Hn). cbn [ss_rows ss_pending_bumps]. by rewrite Hdel.
Qed.
Lemma remove_gone_run existing wanted n s t :
  store_ok (ss_rows s) -> NoDup (dict_keys existing) -> read_of t existing ->
  (forall title, title ∈ dict_keys existing -> title ∉ dict_keys wanted -> forall r, r ∈ t -> slot_of r = endpoint title -> r ∈ ss_rows s) ->
  exists s', remove_gone existing wanted n s = (Ok (n + Z.of_nat (length (gone_of existing wanted)))%Z, s') /\
    store_ok (ss_rows s') /\ ss_rows s' = filter (fun r => slot_of r ∉ (endpoint <$> gone_of existing wanted)) (ss_rows s).
Proof using now.
  revert n s. induction existing as [|[title record] existing IH]; intros n s Hok Hnd Hread Hkept.
  { exists s. cbn. rewrite Z.add_0_r. split_and!; [done|done|]. symmetry. apply select_all. apply Forall_true. intros; apply not_elem_of_nil. }
  apply NoDup_cons in Hnd as [Htitle Hnd]. cbn [fst] in Htitle.
  assert (Hread' : read_of t existing).
  { intros x rec Hx. apply Hread. cbn. rewrite decide_False; [done|]. intros <-. apply Htitle. by eapply dict_get_key. }
  cbn [remove_gone]. rewrite gone_cons.
  destruct (dict_get title wanted) as [tool|] eqn:Hg.
  - rewrite bool_decide_eq_true_2 by (by eapply dict_get_key). apply IH; [done..|].
    intros x Hx. apply Hkept. by right.
  - apply dict_get_None in Hg. rewrite bool_decide_eq_false_2 by done.
    destruct (Hread title record) as (r & Hr & Hslot & <- & Hsys); [cbn; by rewrite decide_True|].
    destruct s as [rows pending]. cbn [ss_rows] in *. cbn [in_id to_instruction].
    assert (Hin : r ∈ rows) by (apply (Hkept title); [by left|done..]).
    rewrite (bind_Ok _ _ _ _ _ (delete_public_run rows pending title r Hok Hin Hslot Hsys)).
    destruct (IH (n + 1)%Z {| ss_rows := filter (fun x => slot_of x ∉ (endpoint <$> [title])) rows; ss_pending_bumps := pending |})
      as (s' & Hrun & Hok' & Hrows'); [|done|done| |].
    + cbn. destruct Hok as [H1 H2 H3 H4]. split; cbn.
      * eapply sublist_NoDup; [exact H1|]. apply fmap_sublist, sublist_filter.
      * eapply sublist_NoDup; [exact H2|]. apply fmap_sublist, sublist_filter.
      * apply Forall_forall. intros x [_ Hx]%list_elem_of_filter. rewrite Forall_forall in H3. by apply H3.
      * apply Forall_forall. intros x [_ Hx]%list_elem_of_filter. rewrite Forall_forall in H4. by apply H4.
    + intros x Hx Hxw y Hy Hyslot. cbn. apply list_elem_of_filter. split.
      * rewrite Hyslot. intros [= ->]%list_elem_of_singleton. done.
      * apply (Hkept x); [by right|done..].
    + exists s'. split_and!; [|done|].
      * rewrite Hrun. do 2 f_equal. cbn [length]. lia.
      * rewrite Hrows'. cbn [ss_rows]. rewrite list_filter_filter. apply list_filter_iff. intros x. cbn.
        rewrite !not_elem_of_cons. pose proof (not_elem_of_nil (slot_of x)). tauto.
Qed.

(** *** The whole sync *)

Definition in_slice (server_name : pystr) (r : InstructionRow) : Prop :=
  ro_type r = InstructionType.ENDPOINT /\ ro_owner_id r = None /\ ro_system r = false /\
  like_prefix (slice_prefix server_name) (ro_title r) = true.
Definition listed (server_name : pystr) (t : trows) : list Instruction :=
  to_instruction <$> order_by_str ro_title (select_where (fun r =>
    ro_type r = InstructionType.ENDPOINT /\ ro_owner_id r = None /\ ro_system r = false /\
    like_prefix (slice_prefix server_name) (ro_title r) = true) t).
Lemma elem_of_listed server_name t record :
  record ∈ listed server_name t <-> exists r, r ∈ t /\ in_slice server_name r /\ to_instruction r = record.
Proof using Type.
  unfold listed. rewrite list_elem_of_fmap. split.
  - intros (r & -> & Hr). rewrite order_by_str_perm in Hr. apply list_elem_of_filter in Hr as [Hs Hr]. by exists r.
  - intros (r & Hr & Hs & <-). exists r. split; [done|]. rewrite order_by_str_perm. by apply list_elem_of_filter.
Qed.
Lemma slice_slot server_name r : in_slice server_name r -> slot_of r = endpoint (ro_title r).
Proof using Type. intros (H1 & H2 & _). unfold slot_of, endpoint. by rewrite H1, H2. Qed.
Lemma existing_read server_name t : store_ok t -> read_of t (existing_of (listed server_name t)).
Proof using Type.
  intros Hok title record Hg. change (existing_of (listed server_name t)) with (fill_dict in_title id (listed server_name t) []) in Hg.
  apply fill_dict_get in Hg as [Hg|(a & Ha & <- & <-)]; [done|]. apply elem_of_listed in Ha as (r & Hr & Hs & <-).
  exists r. split_and!; [done|by apply (slice_slot server_name)|done|apply Hs].
Qed.
Lemma existing_nodup server_name t : NoDup (dict_keys (existing_of (listed server_name t))).
Proof using Type. apply (fill_dict_ok in_title id). constructor. Qed.
Lemma existing_has server_name t r :
  store_ok t -> r ∈ t -> in_slice server_name r -> dict_get (ro_title r) (existing_of (listed server_name t)) = Some (to_instruction r).
Proof using Type.
  intros Hok Hr Hs. change (existing_of (listed server_name t)) with (fill_dict in_title id (listed server_name t) []).
  apply (fill_dict_inj in_title id (listed server_name t) (to_instruction r)); [|apply elem_of_listed; eauto].
  intros a b (x & Hx & Hxs & <-)%elem_of_listed (y & Hy & Hys & <-)%elem_of_listed Hk. f_equal.
  apply (row_of_slot t); [done..|]. rewrite (slice_slot _ _ Hxs), (slice_slot _ _ Hys). by f_equal.
Qed.
Lemma desired_spec server_name tools title tool :
  dict_get title (desired_of server_name tools) = Some tool -> tool ∈ tools /\ title = mirror_title server_name (td_name tool).
Proof using Type.
  change (desired_of server_name tools) with (fill_dict (fun tool => mirror_title server_name (td_name tool)) id tools []).
  intros [H|(a & Ha & <- & <-)]%fill_dict_get; done.
Qed.
Lemma desired_nodup server_name tools : NoDup (dict_keys (desired_of server_name tools)).
Proof using Type. apply (fill_dict_ok (fun tool => mirror_title server_name (td_name tool)) id). constructor. Qed.
Lemma desired_has server_name tools tool :
  tool ∈ tools -> mirror_title server_name (td_name tool) ∈ dict_keys (desired_of server_name tools).
Proof using Type.
  intros Ht. destruct (fill_dict_has (fun tool => mirror_title server_name (td_name tool)) id tools [] tool Ht) as [v Hv].
  by eapply dict_get_key.
Qed.
Lemma desired_title server_name tools title :
  title ∈ dict_keys (desired_of server_name tools) -> exists x, title = slice_prefix server_name +s+ x.
Proof using Type.
  intros ([k tool] & -> & Hin)%list_elem_of_fmap. apply dict_elem_get in Hin; [|apply desired_nodup].
  apply desired_spec in Hin as [_ ->]. exists (td_name tool). apply codes_inj. unfold slice_prefix, mirror_title. cbn. by rewrite <-!app_assoc.
Qed.

(** What the table says of the tools, and of everything else. *)
Definition in_namespace (server_name : pystr) (r : InstructionRow) : Prop :=
  ro_type r = InstructionType.ENDPOINT /\ ro_owner_id r = None /\ like_prefix (slice_prefix server_name) (ro_title r) = true.
#[local] Instance in_namespace_dec server_name r : Decision (in_namespace server_name r).
Proof using Type. unfold in_namespace. apply _. Defined.
Record follows (server_name : pystr) (tools : list McpToolDescriptor) (t t' : trows) : Prop := {
  fo_ok : store_ok t';
  fo_mirrored : Forall (mirrored server_name t') (desired_of server_name tools);
  fo_slice : forall r, r ∈ t' -> in_slice server_name r -> ro_title r ∈ dict_keys (desired_of server_name tools);
  fo_rest : filter (fun r => ~ in_namespace server_name r) t' = filter (fun r => ~ in_namespace server_name r) t }.

Lemma mirror_tools_run server_name tools s updated removed s1 s2 :
  write_tools server_name (existing_of (listed server_name (ss_rows s))) (desired_of server_name tools) 0 s = (Ok updated, s1) ->
  remove_gone (existing_of (listed server_name (ss_rows s))) (desired_of server_name tools) 0 s1 = (Ok removed, s2) ->
  mirror_tools server_name tools s = (Ok (updated, removed), s2).
Proof using Type.
  intros H1 H2. unfold Mcp.mirror_tools.
  assert (list_public_by_prefix like_prefix InstructionType.ENDPOINT (slice_prefix server_name) s = (Ok (listed server_name (ss_rows s)), s)) as Hl
    by (by destruct s).
  rewrite (bind_Ok _ _ _ _ _ Hl). cbn zeta. rewrite (bind_Ok _ _ _ _ _ H1), (bind_Ok _ _ _ _ _ H2). done.
Qed.
Lemma namespace_titles server_name titles t t' :
  (forall title, title ∈ titles -> exists r, slot_of r = endpoint title /\ in_namespace server_name r) ->
  same_but titles t t' -> filter (fun r => ~ in_namespace server_name r) t' = filter (fun r => ~ in_namespace server_name r) t.
Proof using Type.
  intros Hn. apply filter_narrow. intros r Hr Hin. apply Hr. apply list_elem_of_fmap in Hin as (title & Hslot & Ht).
  destruct (Hn title Ht) as (x & Hx & Hxn). unfold in_namespace in *. rewrite <-Hx in Hslot. injection Hslot as H1 H2 H3. by rewrite H1, H2, H3.
Qed.
Lemma desired_namespace server_name tools title :
  title ∈ dict_keys (desired_of server_name tools) -> forall r, slot_of r = endpoint title -> in_namespace server_name r.
Proof using Hprefix.
  intros (x & ->)%desired_title r [= H1 H2 H3]. split_and!; [done|done|]. rewrite H2. apply Hprefix.
Qed.
Lemma gone_spec existing wanted title :
  title ∈ gone_of existing wanted <-> title ∈ dict_keys existing /\ title ∉ dict_keys wanted.
Proof using Type.
  unfold gone_of. rewrite list_elem_of_In, List.filter_In, <-list_elem_of_In. by rewrite negb_true_iff, bool_decide_eq_false.
Qed.

(** A title of either side belongs to the namespace. *)
Lemma wanted_in_namespace server_name tools title :
  title ∈ dict_keys (desired_of server_name tools) -> exists r, slot_of r = endpoint title /\ in_namespace server_name r.
Proof using Hprefix.
  intros Hin. exists (fresh_row "" 0 (draft InstructionType.ENDPOINT title "" [] [] None false None None)).
  split; [done|]. by eapply desired_namespace.
Qed.
Lemma existing_in_slice server_name t title :
  title ∈ dict_keys (existing_of (listed server_name t)) -> exists r, r ∈ t /\ ro_title r = title /\ in_slice server_name r.
Proof using Type.
  intros ([k record] & -> & Hin)%list_elem_of_fmap. apply dict_elem_get in Hin; [|apply existing_nodup].
  apply (fill_dict_get in_title id) in Hin as [Hx|(a & Ha & <- & _)]; [done|]. apply elem_of_listed in Ha as (r & Hr & Hs & <-).
  by exists r.
Qed.
(** The state after both loops. *)
Lemma loops_follow server_name tools t t1 t2 :
  let existing := existing_of (listed server_name t) in
  let wanted := desired_of server_name tools in
  store_ok t -> store_ok t2 -> same_but (dict_keys wanted) t t1 -> Forall (mirrored server_name t1) wanted ->
  t2 = filter (fun r => slot_of r ∉ (endpoint <$> gone_of existing wanted)) t1 -> follows server_name tools t t2.
Proof using Hprefix.
  intros existing wanted Hok Hok2 Hsame Hmir Ht2.
  assert (Hkeep : forall r, r ∈ t2 <-> r ∈ t1 /\ slot_of r ∉ (endpoint <$> gone_of existing wanted)).
  { intros r. rewrite Ht2, list_elem_of_filter. tauto. }
  split; [done| | |].
  - rewrite Forall_forall in *. intros [title tool] Hin. destruct (Hmir _ Hin) as (r & Hr & Hslot & Hc & Hsys). exists r.
    split_and!; [|done..]. apply Hkeep. split; [done|]. cbn in Hslot. rewrite Hslot, endpoint_in, gone_spec. intros [_ Hn]. apply Hn.
    apply list_elem_of_fmap. by exists (title, tool).
  - intros r [Hr Hgone]%Hkeep Hs. destruct (decide (ro_title r ∈ dict_keys wanted)) as [|Hn]; [done|]. exfalso. apply Hgone.
    rewrite (slice_slot server_name r Hs), endpoint_in, gone_spec. split; [|done].
    assert (r ∈ t) as Hrt.
    { apply (same_but_elem (dict_keys wanted) t t1); [done| |done]. by rewrite (slice_slot server_name r Hs), endpoint_in. }
    pose proof (existing_has server_name t r Hok Hrt Hs) as Hg. by eapply dict_get_key.
  - rewrite <-(namespace_titles server_name (dict_keys wanted) t t1); [|apply wanted_in_namespace|done].
    apply (namespace_titles server_name (gone_of existing wanted)).
    + intros title [(r & Hr & <- & Hs)%existing_in_slice _]%gone_spec. exists r. split; [by apply (slice_slot server_name)|].
      by destruct Hs as (? & ? & _ & ?).
    + unfold same_but. rewrite Ht2, list_filter_filter. apply list_filter_iff. intros x. tauto.
Qed.
(** Nothing to do for a table that follows the tools. *)
Lemma write_tools_idle server_name existing l n s :
  (forall w, w ∈ l -> up_to_date server_name existing w = true) -> write_tools server_name existing l n s = (Ok n, s).
Proof using Type.
  induction l as [|[title tool] l IH]; intros Hl; [done|]. cbn [Mcp.write_tools].
  pose proof (Hl (title, tool) ltac:(by left)) as Hu. unfold up_to_date in Hu. cbn [fst snd] in Hu. rewrite Hu.
  apply IH. intros w Hw. apply Hl. by right.
Qed.
Lemma remove_gone_idle wanted l n s :
  (forall title, title ∈ dict_keys l -> title ∈ dict_keys wanted) -> remove_gone l wanted n s = (Ok n, s).
Proof using Type.
  induction l as [|[title record] l IH]; intros Hl; [done|]. cbn [remove_gone].
  destruct (dict_get title wanted) as [tool|] eqn:Hg; [apply IH; intros x Hx; apply Hl; by right|].
  apply dict_get_None in Hg. destruct Hg. apply Hl. by left.
Qed.
Lemma idle_sync server_name tools t s :
  follows server_name tools t (ss_rows s) -> mirror_tools server_name tools s = (Ok (0, 0)%Z, s).
Proof using Hprefix.
  intros Hf. pose proof (fo_ok _ _ _ _ Hf) as Hok. apply (mirror_tools_run _ _ _ _ _ s).
  - apply write_tools_idle. intros [title tool] Hin. pose proof (fo_mirrored _ _ _ _ Hf) as Hm. rewrite Forall_forall in Hm.
    destruct (Hm _ Hin) as (r & Hr & Hslot & Hc & Hsys). cbn in *. unfold up_to_date. cbn [fst snd].
    destruct (desired_namespace server_name tools title) with (r := r) as (H1 & H2 & H3); [|done|].
    { apply list_elem_of_fmap. by exists (title, tool). }
    injection Hslot as _ Hti _. rewrite <-Hti, (existing_has server_name (ss_rows s) r Hok Hr) by (by split_and!).
    by apply bool_decide_eq_true.
  - apply remove_gone_idle. intros title (r & Hr & <- & Hs)%existing_in_slice. by apply (fo_slice _ _ _ _ Hf).
Qed.

(** C13: After a sync of a server the records of its namespace are its tools, with
    the contracts it gave; nothing outside the namespace is touched; and a
    second sync of the same tools writes and removes nothing. *)
Theorem mirror_follows server_name tools s :
  store_ok (ss_rows s) -> (forall tool, tool ∈ tools -> free (ss_rows s) (mirror_title server_name (td_name tool))) ->
  exists updated removed s',
    mirror_tools server_name tools s = (Ok (updated, removed), s') /\ follows server_name tools (ss_rows s) (ss_rows s') /\
    mirror_tools server_name tools s' = (Ok (0, 0)%Z, s').
Proof using Hembed Hnew Hcalm Hprefix.
  intros Hok Hfree. set (t := ss_rows s) in *. set (existing := existing_of (listed server_name t)). set (wanted := desired_of server_name tools).
  destruct (write_tools_run server_name existing wanted 0 s t Hok (desired_nodup server_name tools) (existing_read server_name t Hok))
    as (s1 & Hwrite & Hok1 & Hsame1 & Hmir1).
  { exists []. split; [done|]. intros; apply not_elem_of_nil. }
  { intros title ([k tool] & -> & Hin)%list_elem_of_fmap. apply dict_elem_get in Hin; [|apply desired_nodup].
    apply desired_spec in Hin as [Hin ->]. by apply Hfree. }
  destruct (remove_gone_run existing wanted 0 s1 t Hok1 (existing_nodup server_name t) (existing_read server_name t Hok))
    as (s2 & Hremove & Hok2 & Hrows2).
  { intros title Hin Hout r Hr Hslot. apply (same_but_elem (dict_keys wanted) t); [done| |done]. rewrite Hslot. by rewrite endpoint_in. }
  assert (Hfollows : follows server_name tools t (ss_rows s2)) by (by eapply loops_follow).
  eexists _, _, s2. split; [by eapply mirror_tools_run|]. split; [done|]. by eapply idle_sync.
Qed.
End Mirror.
