(* ===== verification/TelegramBridge.v ===== *)
(** * The chat of a dialog ([surfaces/telegram]: [bridge.py], [drafts.py])

    A bridge renders the events of a dialog into one Telegram chat: a message
    for each exchange, edited at most once in a while, with the answer and the
    line of what the agent did.  Timers deliver what no later event delivers.
    At each [await] the other tasks of the process run. *)
From S2P Require Import Prelude PyStr PyFloat Clock Sql Dict Domain Broadcast Llm.

(** ** Texts *)

Definition MAX_RICH_MESSAGE_LENGTH : nat := Z.to_nat 32768.
Definition REPLY_TARGET_MAP_SIZE : nat := 512.
Definition MAX_PLAIN_DOTS : Z := 3.
Definition STATUS_SEPARATOR : pystr := "  ".
Definition CANCELLED_LINE : pystr := "🛑 Отменено".
Definition FAILED_LINE_TEMPLATE (error : pystr) : pystr := "❌ Ошибка: " +s+ error.
Definition TOOL_LINE_TEMPLATE (name : pystr) : pystr := "⚙️ " +s+ name.
Definition TOOL_FAIL_LINE_TEMPLATE (name error : pystr) : pystr := "⚠️ " +s+ name +s+ ": " +s+ error.
Definition RETRY_LINE_TEMPLATE (reason : pystr) (attempt : Z) (delay : float) : pystr :=
  "🔁 Провайдер недоступен (" +s+ reason +s+ "), повтор " +s+ str_of_Z attempt +s+ " через " +s+ format_0f delay +s+ " сек".
Definition THINKING_LABEL : pystr := "💭 думаю".
Definition TOOL_GROUPS : list (pystr * pystr) :=
  [("recall" : pystr, "🧠 вспоминаю" : pystr); ("memory_store" : pystr, "🧠 запоминаю" : pystr); ("memory_delete" : pystr, "🧠 забываю" : pystr);
   ("history_search" : pystr, "💬 читаю историю" : pystr); ("web_search" : pystr, "🔎 ищу" : pystr); ("http_request" : pystr, "🌐 запрашиваю" : pystr);
   ("external_call" : pystr, "🔌 вызываю" : pystr); ("endpoint_get" : pystr, "🔌 вызываю" : pystr); ("image_look" : pystr, "🖼 смотрю" : pystr);
   ("cron_pause" : pystr, "⏰ планирую" : pystr); ("cron_resume" : pystr, "⏰ планирую" : pystr); ("data_put" : pystr, "📊 записываю" : pystr);
   ("data_query" : pystr, "📊 выбираю" : pystr); ("data_forget" : pystr, "📊 стираю" : pystr); ("instruction_save" : pystr, "📚 сохраняю" : pystr);
   ("instruction_delete" : pystr, "📚 удаляю" : pystr); ("task_create" : pystr, "🗂 запускаю" : pystr); ("task_delete" : pystr, "🗂 отменяю" : pystr);
   ("task_list" : pystr, "🗂 сверяюсь" : pystr); ("ask_user" : pystr, "❓ спрашиваю" : pystr)].
Definition tool_group (name : pystr) : pystr := default (TOOL_LINE_TEMPLATE name) (dict_get name TOOL_GROUPS).

(** [_notice_line] *)
Definition notice_line (event : LoopEvent) : option pystr :=
  match event with
  | ToolCallFailed call error => Some (TOOL_FAIL_LINE_TEMPLATE (tc_name call) error)
  | RetryScheduled attempt delay reason => Some (RETRY_LINE_TEMPLATE reason attempt delay)
  | _ => None
  end.

(** [text.splitlines(keepends=True)] *)
Fixpoint keep_lines (line l : list N) : list (list N) :=
  match l with
  | [] => match line with [] => [] | _ => [rev line] end
  | c :: r =>
      if is_line_break c then
        match c, r with
        | 13%N, 10%N :: r => rev (10%N :: 13%N :: line) :: keep_lines [] r
        | _, _ => rev (c :: line) :: keep_lines [] r
        end
      else keep_lines (c :: line) r
  end.
Definition non_empty (l : list N) : bool := match l with [] => false | _ => true end.
(** The pieces of the lines past the limit, and what is left of the line. *)
Fixpoint cut_line (fuel limit : nat) (chunks : list (list N)) (current rest : list N) : list (list N) * list N * list N :=
  match fuel with
  | O => (chunks, current, rest)
  | S fuel =>
      if bool_decide (limit < length rest)
      then cut_line fuel limit ((if non_empty current then chunks ++ [current] else chunks) ++ [take limit rest]) [] (drop limit rest)
      else (chunks, current, rest)
  end.
Definition split_step (limit : nat) (acc : list (list N) * list N) (line : list N) : list (list N) * list N :=
  let '(chunks, current, rest) := cut_line (length line) limit acc.1 acc.2 line in
  if bool_decide (limit < length current + length rest) then (chunks ++ [current], rest) else (chunks, current ++ rest).
Definition strip_newlines (l : list N) : list N := rev (drop_char 10 (rev (drop_char 10 l))).
(** [_split_markdown] *)
Definition split_markdown (text : pystr) (limit : nat) : list pystr :=
  if bool_decide (length (codes text) <= limit) then [text]
  else
    let '(chunks, current) := foldl (split_step limit) ([], []) (keep_lines [] (codes text)) in
    let chunks := if non_empty current then chunks ++ [current] else chunks in
    match filter (fun chunk => non_empty chunk = true) (strip_newlines <$> chunks) with
    | [] => [PyStr (take limit (codes text))]
    | trimmed => PyStr <$> trimmed
    end.

(** ** Drafts *)

Record StatusEntry := { se_label : pystr; se_count : Z; se_counted : bool }.
(** [flush_timer]: a task that sleeps, one past its sleep, one that is done. *)
Inductive Timer := NoTimer | Sleeping (delay : float) | Firing | Fired.
Record Draft := {
  dr_message_id : option Z;
  dr_buffer : pystr;
  dr_delivered_text : pystr;
  dr_sealed_chunks : nat;
  dr_reply_to : option Z;
  dr_pending_since : option float;
  dr_flush_timer : Timer;
  dr_status : list StatusEntry;
  dr_exchange_id : option pystr }.
Definition new_draft (exchange_id : option pystr) : Draft :=
  {| dr_message_id := None; dr_buffer := ""; dr_delivered_text := ""; dr_sealed_chunks := 0; dr_reply_to := None; dr_pending_since := None;
     dr_flush_timer := NoTimer; dr_status := []; dr_exchange_id := exchange_id |}.

(** [_progress_dots], [_count_status], [_compose], [_append_line] *)
Definition progress_dots (count : Z) : pystr :=
  if (count <=? MAX_PLAIN_DOTS)%Z then str_join "" (replicate (Z.to_nat count) ("·" : pystr)) else "··" +s+ str_of_Z count.
Definition counted_entry (label : pystr) : StatusEntry := {| se_label := label; se_count := 1; se_counted := true |}.
Definition count_status (label : pystr) (status : list StatusEntry) : list StatusEntry :=
  match status with
  | head :: rest =>
      if se_counted head && bool_decide (se_label head = label)
      then {| se_label := label; se_count := se_count head + 1; se_counted := true |} :: rest
      else counted_entry label :: status
  | [] => [counted_entry label]
  end.
Definition entry_text (entry : StatusEntry) : pystr :=
  if se_counted entry then se_label entry +s+ " " +s+ progress_dots (se_count entry) else se_label entry.
Definition status_line (status : list StatusEntry) : list pystr :=
  match status with
  | [] => []
  | status => ["```" +s+ newline +s+ str_join STATUS_SEPARATOR (entry_text <$> status) +s+ newline +s+ "```"]
  end.
Definition compose_parts (buffer : pystr) (status : list StatusEntry) : pystr :=
  let text := str_rstrip_char 10 buffer in
  str_join newline (status_line status ++ if str_empty text then [] else [text]).
Definition compose (draft : Draft) : pystr := compose_parts (dr_buffer draft) (dr_status draft).
Definition append_line (buffer line : pystr) : pystr :=
  (if str_empty buffer || str_endswith newline buffer then buffer else buffer +s+ newline) +s+ line +s+ newline.

(** Assignments to the attributes of a draft. *)
Definition with_message (m : option Z) (d : Draft) : Draft :=
  {| dr_message_id := m; dr_buffer := dr_buffer d; dr_delivered_text := dr_delivered_text d; dr_sealed_chunks := dr_sealed_chunks d;
     dr_reply_to := dr_reply_to d; dr_pending_since := dr_pending_since d; dr_flush_timer := dr_flush_timer d; dr_status := dr_status d;
     dr_exchange_id := dr_exchange_id d |}.
Definition with_text (buffer : pystr) (status : list StatusEntry) (d : Draft) : Draft :=
  {| dr_message_id := dr_message_id d; dr_buffer := buffer; dr_delivered_text := dr_delivered_text d; dr_sealed_chunks := dr_sealed_chunks d;
     dr_reply_to := dr_reply_to d; dr_pending_since := dr_pending_since d; dr_flush_timer := dr_flush_timer d; dr_status := status;
     dr_exchange_id := dr_exchange_id d |}.
Definition with_delivered (text : pystr) (d : Draft) : Draft :=
  {| dr_message_id := dr_message_id d; dr_buffer := dr_buffer d; dr_delivered_text := text; dr_sealed_chunks := dr_sealed_chunks d;
     dr_reply_to := dr_reply_to d; dr_pending_since := dr_pending_since d; dr_flush_timer := dr_flush_timer d; dr_status := dr_status d;
     dr_exchange_id := dr_exchange_id d |}.
Definition sealed (d : Draft) : Draft :=
  {| dr_message_id := None; dr_buffer := dr_buffer d; dr_delivered_text := ""; dr_sealed_chunks := S (dr_sealed_chunks d);
     dr_reply_to := dr_reply_to d; dr_pending_since := dr_pending_since d; dr_flush_timer := dr_flush_timer d; dr_status := dr_status d;
     dr_exchange_id := dr_exchange_id d |}.
Definition with_reply (reply_to : option Z) (d : Draft) : Draft :=
  {| dr_message_id := dr_message_id d; dr_buffer := dr_buffer d; dr_delivered_text := dr_delivered_text d; dr_sealed_chunks := dr_sealed_chunks d;
     dr_reply_to := reply_to; dr_pending_since := dr_pending_since d; dr_flush_timer := dr_flush_timer d; dr_status := dr_status d;
     dr_exchange_id := dr_exchange_id d |}.
Definition with_pending (since : option float) (d : Draft) : Draft :=
  {| dr_message_id := dr_message_id d; dr_buffer := dr_buffer d; dr_delivered_text := dr_delivered_text d; dr_sealed_chunks := dr_sealed_chunks d;
     dr_reply_to := dr_reply_to d; dr_pending_since := since; dr_flush_timer := dr_flush_timer d; dr_status := dr_status d;
     dr_exchange_id := dr_exchange_id d |}.
Definition with_timer (timer : Timer) (d : Draft) : Draft :=
  {| dr_message_id := dr_message_id d; dr_buffer := dr_buffer d; dr_delivered_text := dr_delivered_text d; dr_sealed_chunks := dr_sealed_chunks d;
     dr_reply_to := dr_reply_to d; dr_pending_since := dr_pending_since d; dr_flush_timer := timer; dr_status := dr_status d;
     dr_exchange_id := dr_exchange_id d |}.

(** ** The bridge *)

(** The remembered part of a draft ([PersistedDraft]) and its table. *)
Record PersistedDraft := { pd_exchange_id : pystr; pd_message_id : Z; pd_reply_to : option Z; pd_sealed_chunks : nat }.
Record DraftRow := { dw_chat_id : Z; dw_draft : PersistedDraft }.
Module DraftStore.
(** [session.get] and the assignments to the row, or a new row. *)
Definition remember (chat_id : Z) (draft : PersistedDraft) : M (list DraftRow) Exn unit :=
  let row := {| dw_chat_id := chat_id; dw_draft := draft |} in
  modify (fun t =>
    match find_key (fun r => pd_exchange_id (dw_draft r)) (pd_exchange_id draft) t with
    | Some _ => (fun r => if decide (pd_exchange_id (dw_draft r) = pd_exchange_id draft) then row else r) <$> t
    | None => t ++ [row]
    end).
Definition load (chat_id : Z) : M (list DraftRow) Exn (list PersistedDraft) :=
  gets (fun t => dw_draft <$> select_where (fun r => dw_chat_id r = chat_id) t).
Definition forget (exchange_id : pystr) : M (list DraftRow) Exn unit :=
  modify (delete_where (fun r => pd_exchange_id (dw_draft r) = exchange_id)).
End DraftStore.

(** What a bridge calls: the chat, the remembered drafts, the clock, its
    runner. *)
Record DraftPort (C : Type) := {
  dp_remember : PersistedDraft -> M C Exn unit;
  dp_load : M C Exn (list PersistedDraft);
  dp_forget : pystr -> M C Exn unit }.
Arguments dp_remember {C}. Arguments dp_load {C}. Arguments dp_forget {C}.
Record BridgePorts (R C : Type) := {
  bp_send_rich_message : pystr -> option Z -> M C Exn Z;
  bp_edit_message_rich : Z -> pystr -> M C Exn unit;
  bp_send_chat_action : M C Exn unit;
  bp_sleep : float -> M C Exn unit;
  bp_monotonic : M C Exn float;
  bp_drafts : option (DraftPort C);
  bp_subscribe : R -> M C Exn nat;
  bp_unsubscribe : R -> nat -> M C Exn unit;
  bp_submit : R -> pystr -> option pystr -> option pystr -> MessageSource -> M C Exn unit }.
Arguments bp_send_rich_message {R C}. Arguments bp_edit_message_rich {R C}. Arguments bp_send_chat_action {R C}. Arguments bp_sleep {R C}.
Arguments bp_monotonic {R C}. Arguments bp_drafts {R C}. Arguments bp_subscribe {R C}. Arguments bp_unsubscribe {R C}. Arguments bp_submit {R C}.

(** The attributes of a [TelegramBridge]: the drafts are objects, which timers
    hold too, so the dictionary holds their places. *)
Inductive Forwarder (R : Type) := NoForwarder | Forwarding (runner : R) (queue : nat) | Ended.
Arguments NoForwarder {R}. Arguments Forwarding {R}. Arguments Ended {R}.
Record Bridge (R : Type) := {
  br_runner : option R;
  br_forwarder : Forwarder R;
  br_starting : bool;
  br_drafts : list (option pystr * nat);
  br_objects : list Draft;
  br_reply_targets : list (Z * pystr);
  br_typing : gset (option pystr);
  br_pulse : bool }.
Arguments br_runner {R}. Arguments br_forwarder {R}. Arguments br_starting {R}. Arguments br_drafts {R}. Arguments br_objects {R}.
Arguments br_reply_targets {R}. Arguments br_typing {R}. Arguments br_pulse {R}.
Definition new_bridge {R} : Bridge R :=
  {| br_runner := None; br_forwarder := NoForwarder; br_starting := false; br_drafts := []; br_objects := []; br_reply_targets := [];
     br_typing := ∅; br_pulse := false |}.
Record Chat (R C : Type) := { ch_bridge : Bridge R; ch_outside : C; ch_tick : nat }.
Arguments ch_bridge {R C}. Arguments ch_outside {R C}. Arguments ch_tick {R C}.

Section Bridging.
Context {R C : Type} (ports : BridgePorts R C) (others : nat -> Chat R C -> Chat R C).
Context (isdigit : pystr -> bool) (to_int : pystr -> option Z) (edit_throttle_seconds : float).
Abbreviation MC := (M (Chat R C) Exn) (only parsing).

Definition bridge {A} (f : Bridge R -> A) : MC A := gets (fun w => f (ch_bridge w)).
Definition change (f : Bridge R -> Bridge R) : MC unit :=
  modify (fun w => {| ch_bridge := f (ch_bridge w); ch_outside := ch_outside w; ch_tick := ch_tick w |}).
Definition set_drafts (drafts : list (option pystr * nat)) (objects : list Draft) (b : Bridge R) : Bridge R :=
  {| br_runner := br_runner b; br_forwarder := br_forwarder b; br_starting := br_starting b; br_drafts := drafts; br_objects := objects;
     br_reply_targets := br_reply_targets b; br_typing := br_typing b; br_pulse := br_pulse b |}.
Definition set_targets (targets : list (Z * pystr)) (b : Bridge R) : Bridge R :=
  {| br_runner := br_runner b; br_forwarder := br_forwarder b; br_starting := br_starting b; br_drafts := br_drafts b; br_objects := br_objects b;
     br_reply_targets := targets; br_typing := br_typing b; br_pulse := br_pulse b |}.
Definition set_typing (typing : gset (option pystr)) (pulse : bool) (b : Bridge R) : Bridge R :=
  {| br_runner := br_runner b; br_forwarder := br_forwarder b; br_starting := br_starting b; br_drafts := br_drafts b; br_objects := br_objects b;
     br_reply_targets := br_reply_targets b; br_typing := typing; br_pulse := pulse |}.
Definition set_running (runner : option R) (forwarder : Forwarder R) (starting : bool) (b : Bridge R) : Bridge R :=
  {| br_runner := runner; br_forwarder := forwarder; br_starting := starting; br_drafts := br_drafts b; br_objects := br_objects b;
     br_reply_targets := br_reply_targets b; br_typing := br_typing b; br_pulse := br_pulse b |}.

(** A draft by its place, and an assignment to one. *)
Definition the_draft (i : nat) : MC Draft := bridge (fun b => default (new_draft None) (br_objects b !! i)).
Definition on_draft (i : nat) (f : Draft -> Draft) : MC unit := change (fun b => set_drafts (br_drafts b) (alter f i (br_objects b)) b).
(** [who] is the draft whose timer runs, if it is one that runs: the [await]
    of a timer that was cancelled meanwhile raises. *)
Definition cancelled_timer (who : option nat) (w : Chat R C) : bool :=
  match who with
  | None => false
  | Some i => match dr_flush_timer <$> br_objects (ch_bridge w) !! i with Some Firing => false | _ => true end
  end.
(** An [await] of something outside: it happens, the other tasks run. *)
Definition await {A} (who : option nat) (call : M C Exn A) : MC A := fun w =>
  let '(r, c) := call (ch_outside w) in
  let w := others (ch_tick w) {| ch_bridge := ch_bridge w; ch_outside := c; ch_tick := S (ch_tick w) |} in
  if cancelled_timer who w then (Err CancelledError, w) else (r, w).
(** A call that gives way to nobody. *)
Definition outside {A} (call : M C Exn A) : MC A := fun w =>
  let '(r, c) := call (ch_outside w) in (r, {| ch_bridge := ch_bridge w; ch_outside := c; ch_tick := ch_tick w |}).

(** [_draft_of] *)
Definition draft_of (exchange_id : option pystr) : MC nat :=
  let! found := bridge (fun b => dict_get exchange_id (br_drafts b)) in
  match found with
  | Some i => ret i
  | None =>
      let! i := bridge (fun b => length (br_objects b)) in
      change (fun b => set_drafts (dict_set exchange_id i (br_drafts b)) (br_objects b ++ [new_draft exchange_id]) b) ;;;
      ret i
  end.
(** [_record_reply_target] *)
Definition record_reply_target (message_id : Z) (exchange_id : pystr) : MC unit :=
  change (fun b =>
    let targets := dict_set message_id exchange_id (br_reply_targets b) in
    set_targets (if bool_decide (REPLY_TARGET_MAP_SIZE < length targets) then tail targets else targets) b).
(** [_remember_draft], [_forget_draft] *)
Definition remember_draft (who : option nat) (i : nat) : MC unit :=
  let! draft := the_draft i in
  match bp_drafts ports, dr_exchange_id draft, dr_message_id draft with
  | Some store, Some exchange_id, Some message_id =>
      except_exception
        (await who (dp_remember store {| pd_exchange_id := exchange_id; pd_message_id := message_id; pd_reply_to := dr_reply_to draft;
                                         pd_sealed_chunks := dr_sealed_chunks draft |}))
        (fun _ => ret tt)
  | _, _, _ => ret tt
  end.
Definition forget_draft (exchange_id : option pystr) : MC unit :=
  match bp_drafts ports, exchange_id with
  | Some store, Some exchange_id => except_exception (await None (dp_forget store exchange_id)) (fun _ => ret tt)
  | _, _ => ret tt
  end.

(** [_deliver] *)
Definition deliver (who : option nat) (i : nat) (markdown : pystr) : MC unit :=
  let! draft := the_draft i in
  match dr_message_id draft with
  | None =>
      let reply_to := if bool_decide (dr_sealed_chunks draft = 0) then dr_reply_to draft else None in
      let! message_id := await who (bp_send_rich_message ports markdown reply_to) in
      on_draft i (with_message (Some message_id)) ;;;
      match dr_exchange_id draft with Some exchange_id => record_reply_target message_id exchange_id | None => ret tt end ;;;
      remember_draft who i
  | Some message_id => await who (bp_edit_message_rich ports message_id markdown)
  end ;;;
  on_draft i (with_delivered markdown).
(** [_flush_draft]; a turn of its loop seals a message. *)
Fixpoint seal_heads (fuel : nat) (who : option nat) (i : nat) (chunks : list pystr) : MC unit :=
  match fuel with
  | O => ret tt
  | S fuel =>
      let! draft := the_draft i in
      if bool_decide (S (dr_sealed_chunks draft) < length chunks) then
        let chunk := default "" (chunks !! dr_sealed_chunks draft) in
        (if decide (chunk = dr_delivered_text draft) then ret tt else deliver who i chunk) ;;;
        on_draft i sealed ;;;
        seal_heads fuel who i chunks
      else ret tt
  end.
Definition flush_draft (who : option nat) (i : nat) : MC unit :=
  let! draft := the_draft i in
  let raw := compose draft in
  if str_empty raw then ret tt
  else
    let chunks := split_markdown raw MAX_RICH_MESSAGE_LENGTH in
    let tail_chunk := default "" (last chunks) in
    seal_heads (length chunks) who i chunks ;;;
    let! draft := the_draft i in
    if decide (tail_chunk = dr_delivered_text draft) then ret tt else deliver who i tail_chunk.

(** [_flush_when_due], [_flush_throttled], [_flush_after],
    [_cancel_flush_timer] *)
Definition flush_when_due (who : option nat) (i : nat) (now : float) : MC unit :=
  let! draft := the_draft i in
  match dr_pending_since draft with
  | None => ret tt
  | Some since =>
      let wait := fsub (fadd since edit_throttle_seconds) now in
      if SpecFloat.SFleb wait f_zero then
        on_draft i (with_pending None) ;;;
        flush_draft who i
      else
        match dr_flush_timer draft with
        | NoTimer | Fired => on_draft i (with_timer (Sleeping wait))
        | _ => ret tt
        end
  end.
Definition flush_throttled (i : nat) : MC unit :=
  let! now := outside (bp_monotonic ports) in
  on_draft i (fun d => match dr_pending_since d with None => with_pending (Some now) d | Some _ => d end) ;;;
  flush_when_due None i now.
Definition is_telegram (e : Exn) : bool := match e with TelegramApiError _ | HttpError _ => true | _ => false end.
(** A timer whose sleep is over; what ends it otherwise stays in its task. *)
Definition timer_fires (i : nat) : MC unit :=
  let! draft := the_draft i in
  match dr_flush_timer draft with
  | Sleeping _ =>
      on_draft i (with_timer Firing) ;;;
      try_except
        (let! now := outside (bp_monotonic ports) in
         try_except (flush_when_due (Some i) i now) (fun e => if is_telegram e then ret tt else raise e))
        (fun _ => ret tt) ;;;
      on_draft i (fun d => match dr_flush_timer d with Firing => with_timer Fired d | _ => d end)
  | _ => ret tt
  end.
Definition cancel_flush_timer (i : nat) : MC unit := on_draft i (with_timer NoTimer).

(** [_typing_on], [_typing_off], [_stop_typing] *)
Definition typing_on (exchange_id : option pystr) : MC unit := change (fun b => set_typing ({[exchange_id]} ∪ br_typing b) true b).
Definition typing_off (exchange_id : option pystr) : MC unit :=
  change (fun b => let typing := br_typing b ∖ {[exchange_id]} in
                   set_typing typing (br_pulse b && negb (bool_decide (typing = ∅))) b).
Definition stop_typing : MC unit := change (set_typing ∅ false).

(** [_flush_terminal_with_retry], [_render_terminal] *)
Definition TERMINAL_FLUSH_RETRY_DELAY_SECONDS : float := float_of_Z 1.
Definition flush_terminal_with_retry (i : nat) : MC unit :=
  try_except (flush_draft None i)
    (fun e =>
       if is_telegram e then
         await None (bp_sleep ports TERMINAL_FLUSH_RETRY_DELAY_SECONDS) ;;;
         try_except (flush_draft None i) (fun e => if is_telegram e then ret tt else raise e)
       else raise e).
Definition terminal_line (event : LoopEvent) : option pystr :=
  match event with Cancelled => Some CANCELLED_LINE | Failed error => Some (FAILED_LINE_TEMPLATE error) | _ => None end.
Definition drop_draft (exchange_id : option pystr) : MC unit :=
  change (fun b => set_drafts (dict_pop exchange_id (br_drafts b)) (br_objects b) b) ;;;
  forget_draft exchange_id.
Definition render_terminal (event : LoopEvent) (exchange_id : option pystr) (i : nat) : MC unit :=
  typing_off exchange_id ;;;
  on_draft i (with_pending None) ;;;
  cancel_flush_timer i ;;;
  match terminal_line event with
  | Some line => on_draft i (fun d => with_text (append_line (dr_buffer d) line) (dr_status d) d)
  | None => ret tt
  end ;;;
  try_except (flush_terminal_with_retry i) (fun e => drop_draft exchange_id ;;; raise e) ;;;
  drop_draft exchange_id.

(** [_reply_target] *)
Definition reply_target (source_client_message_id : option pystr) : MC (option Z) :=
  match source_client_message_id with
  | None => ret None
  | Some key => if isdigit key then match to_int key with Some z => ret (Some z) | None => raise (OtherError "ValueError") end else ret None
  end.
(** [_render] *)
Definition render (event : LoopEvent) (exchange_id : option pystr) : MC unit :=
  let! i := draft_of exchange_id in
  match event with
  | ProcessStarted _ _ source =>
      let! draft := the_draft i in
      match dr_message_id draft with
      | None => let! target := reply_target source in on_draft i (with_reply target)
      | Some _ => ret tt
      end ;;;
      typing_on exchange_id
  | ReasoningDelta =>
      on_draft i (fun d => with_text (dr_buffer d) (count_status THINKING_LABEL (dr_status d)) d) ;;;
      flush_throttled i
  | TextDelta text =>
      on_draft i (fun d => with_text (dr_buffer d +s+ text) (dr_status d) d) ;;;
      flush_throttled i
  | Finished _ _ _ | Cancelled | Failed _ => render_terminal event exchange_id i
  | ToolCallRequested call =>
      on_draft i (fun d => with_text (dr_buffer d) (count_status (tool_group (tc_name call)) (dr_status d)) d) ;;;
      flush_throttled i
  | event =>
      match notice_line event with
      | Some line =>
          on_draft i (fun d => with_text (dr_buffer d) ({| se_label := line; se_count := 1; se_counted := false |} :: dr_status d) d) ;;;
          flush_throttled i
      | None => ret tt
      end
  end.
(** [_render_safely] *)
Definition render_safely (event : LoopEvent) (exchange_id : option pystr) : MC unit :=
  try_except (render event exchange_id) (fun e => if is_telegram e then ret tt else raise e).

(** [_restore_drafts] *)
Definition restored (item : PersistedDraft) : Draft :=
  {| dr_message_id := Some (pd_message_id item); dr_buffer := ""; dr_delivered_text := ""; dr_sealed_chunks := pd_sealed_chunks item;
     dr_reply_to := pd_reply_to item; dr_pending_since := None; dr_flush_timer := NoTimer; dr_status := [];
     dr_exchange_id := Some (pd_exchange_id item) |}.
Definition adopt (item : PersistedDraft) (b : Bridge R) : Bridge R :=
  match dict_get (Some (pd_exchange_id item)) (br_drafts b) with
  | Some _ => b
  | None => set_drafts (dict_set (Some (pd_exchange_id item)) (length (br_objects b)) (br_drafts b)) (br_objects b ++ [restored item]) b
  end.
Definition restore_drafts : MC unit :=
  match bp_drafts ports with
  | None => ret tt
  | Some store =>
      let! remembered := except_exception (let! items := await None (dp_load store) in ret (Some items)) (fun _ => ret None) in
      match remembered with
      | None => ret tt
      | Some items => change (fun b => foldl (fun b item => adopt item b) b items)
      end
  end.
(** [_ensure_runner]; to find the runner is to attach the surface to it, so
    [runner_provider] may start this very bridge. *)
Definition ensure_runner (runner_provider : MC R) : MC R :=
  let! known := bridge br_runner in
  match known with
  | Some runner => ret runner
  | None =>
      let! runner := runner_provider in
      change (fun b => set_running (Some runner) (br_forwarder b) (br_starting b) b) ;;;
      ret runner
  end.
(** [start] *)
Definition lower_flag : MC unit := change (fun b => set_running (br_runner b) (br_forwarder b) false b).
Definition start (runner_provider : MC R) : MC unit :=
  let! starting := bridge br_starting in
  if (starting : bool) then ret tt
  else
    let! forwarder := bridge br_forwarder in
    match forwarder with
    | Forwarding _ _ => ret tt
    | _ =>
        change (fun b => set_running (br_runner b) (br_forwarder b) true b) ;;;
        try_except
          (restore_drafts ;;;
           let! runner := ensure_runner runner_provider in
           let! queue := outside (bp_subscribe ports runner) in
           change (fun b => set_running (br_runner b) (Forwarding runner queue) (br_starting b) b))
          (fun e => lower_flag ;;; raise e) ;;;
        lower_flag
    end.
(** [handle_text] *)
Definition handle_text (runner_provider : MC R) (content : pystr) (client_message_id : option pystr) (reply_to_message_id : option Z)
    (kind : MessageKind.t) (origin : option pystr) (attachments : list Attachment) : MC unit :=
  let! runner := ensure_runner runner_provider in
  start runner_provider ;;;
  (if decide (kind = MessageKind.OWN) then await None (bp_send_chat_action ports) else ret tt) ;;;
  let! reply_to_exchange_id := bridge (fun b => reply_to_message_id ≫= (fun m => dict_get m (br_reply_targets b))) in
  await None (bp_submit ports runner content client_message_id reply_to_exchange_id
                {| src_kind := kind; src_origin := origin; src_attachments := attachments |}).

(** [_forward], one event at a time, and how it ends. *)
Definition clear_timers : MC unit :=
  change (fun b => set_drafts (br_drafts b) (foldr (alter (with_timer NoTimer)) (br_objects b) (snd <$> br_drafts b)) b).
Definition stand_down (runner : R) (queue : nat) : MC unit :=
  stop_typing ;;;
  clear_timers ;;;
  outside (bp_unsubscribe ports runner queue) ;;;
  change (fun b => set_running (br_runner b) Ended (br_starting b) b).
Definition forward_one (event : option ConversationEvent) : MC unit :=
  let! forwarder := bridge br_forwarder in
  match forwarder with
  | Forwarding runner queue =>
      match event with
      | None =>
          change (fun b => set_running None (br_forwarder b) (br_starting b) b) ;;;
          stand_down runner queue
      | Some event => try_except (render_safely (ce_payload event) (ce_exchange_id event)) (fun _ => stand_down runner queue)
      end
  | _ => ret tt
  end.
(** [aclose] *)
Definition aclose : MC unit :=
  stop_typing ;;;
  clear_timers ;;;
  let! forwarder := bridge br_forwarder in
  match forwarder with Forwarding runner queue => stand_down runner queue | _ => ret tt end.
End Bridging.
