(* ===== verification/TelegramBridgeLaws.v ===== *)
(** * What a chat shows of a dialog

    A long answer is cut into messages without loss; a finished answer is in
    the chat whole; starting a bridge from inside its own start changes
    nothing. *)
From S2P Require Import Prelude PyStr PyFloat Clock Sql Dict Domain Broadcast Llm TelegramBridge.

(** ** Pieces of a text *)

(** A text, and the pieces it is cut into: nothing is lost but newlines before,
    between and after them. *)
Inductive cut_of : list N -> list (list N) -> Prop :=
| cut_end n : cut_of (replicate n 10%N) []
| cut_piece n piece rest pieces : piece <> [] -> cut_of rest pieces -> cut_of (replicate n 10%N ++ piece ++ rest) (piece :: pieces).

Lemma keep_lines_concat l line : concat (keep_lines line l) = rev line ++ l.
Proof.
  remember (length l) as n eqn:Hn. revert l line Hn. induction n as [n IH] using lt_wf_ind. intros [|c l] line ->; cbn [keep_lines].
  - destruct line; [done|]. cbn [concat]. by rewrite !app_nil_r.
  - destruct (is_line_break c) eqn:Hc; [|rewrite (IH (length l)); [|cbn; lia|done]; cbn [rev]; by rewrite <-app_assoc].
    assert (Hdefault : concat (rev (c :: line) :: keep_lines [] l) = rev line ++ c :: l).
    { cbn [concat]. rewrite (IH (length l)) by (cbn; lia || done). cbn [rev]. by rewrite <-app_assoc. }
    destruct (decide (c = 13%N)) as [->|Hne].
    + destruct l as [|c' l]; [exact Hdefault|]. destruct (decide (c' = 10%N)) as [->|Hne'].
      * cbn [concat]. rewrite (IH (length l)) by (cbn; lia || done). cbn [rev]. by rewrite <-!app_assoc.
      * replace (match c' with 10%N => _ | _ => _ end) with (rev (13%N :: line) :: keep_lines [] (c' :: l)); [exact Hdefault|].
        destruct c' as [|p]; [done|]. do 4 (try destruct p as [p|p|]; try done).
    + replace (match c with 13%N => _ | _ => _ end) with (rev (c :: line) :: keep_lines [] l); [exact Hdefault|].
      destruct c as [|p]; [done|]. do 4 (try destruct p as [p|p|]; try done).
Qed.
(** Pieces so far, and the text they are of. *)
Definition pieces_of (limit : nat) (acc : list (list N) * list N) (text : list N) : Prop :=
  concat acc.1 ++ acc.2 = text /\ Forall (fun chunk => length chunk <= limit) acc.1 /\ length acc.2 <= limit.
Lemma cut_line_pieces limit : 0 < limit -> forall fuel chunks current rest text chunks' current' rest',
  length rest <= fuel -> pieces_of limit (chunks, current) text -> cut_line fuel limit chunks current rest = (chunks', current', rest') ->
  exists cut, rest = cut ++ rest' /\ length rest' <= limit /\ pieces_of limit (chunks', current') (text ++ cut).
Proof.
  intros Hlimit. induction fuel as [|fuel IH]; intros chunks current rest text chunks' current' rest' Hfuel Hp H; cbn in H.
  - injection H as <- <- <-. exists []. destruct rest; [|cbn in Hfuel; lia]. rewrite (app_nil_r text). split; [done|split; [cbn; lia|done]].
  - case_bool_decide as Hlong; [|injection H as <- <- <-; exists []; rewrite (app_nil_r text); split; [done|split; [lia|done]]].
    destruct Hp as (Htext & Hchunks & Hcurrent). cbn [fst snd] in *.
    assert (pieces_of limit ((if non_empty current then chunks ++ [current] else chunks) ++ [take limit rest], []) (text ++ take limit rest)) as Hp.
    { split_and!; cbn [fst snd]; [| |cbn; lia].
      - rewrite app_nil_r, concat_app. cbn. rewrite app_nil_r, <-Htext. f_equal.
        destruct current; cbn; [by rewrite app_nil_r|]. rewrite concat_app. cbn. by rewrite !app_nil_r.
      - apply Forall_app. split; [|constructor; [rewrite length_take; lia|done]].
        destruct current; cbn; [done|]. apply Forall_app. split; [done|by repeat constructor]. }
    eapply IH in H as (cut & Hcut & Hrest & Hp'); [|rewrite length_drop; lia|exact Hp].
    exists (take limit rest ++ cut). rewrite <-app_assoc, <-Hcut, take_drop, app_assoc. done.
Qed.
Lemma split_step_pieces limit acc text line :
  0 < limit -> pieces_of limit acc text -> pieces_of limit (split_step limit acc line) (text ++ line).
Proof.
  intros Hlimit Hp. unfold split_step. destruct acc as [chunks current]. cbn [fst snd].
  destruct (cut_line _ _ _ _ _) as [[chunks' current'] rest'] eqn:E.
  apply cut_line_pieces with (text := text) in E as (cut & -> & Hrest & Htext & Hchunks & Hcurrent); [|done|done|done]. cbn [fst snd] in *.
  case_bool_decide as Hlong; split_and!; cbn [fst snd].
  - rewrite concat_app. cbn. rewrite app_nil_r, app_assoc, <-Htext. by rewrite <-app_assoc.
  - apply Forall_app. split; [done|by repeat constructor].
  - done.
  - by rewrite app_assoc, Htext, <-app_assoc.
  - done.
  - rewrite length_app. lia.
Qed.
Lemma split_pieces limit lines acc text :
  0 < limit -> pieces_of limit acc text -> pieces_of limit (foldl (split_step limit) acc lines) (text ++ concat lines).
Proof.
  intros Hlimit. revert acc text. induction lines as [|line lines IH]; intros acc text Hp; cbn; [by rewrite app_nil_r|].
  rewrite app_assoc. apply IH. by apply split_step_pieces.
Qed.
Lemma drop_char_length c l : length (drop_char c l) <= length l.
Proof. induction l as [|x l IH]; cbn; [lia|]. case_decide; cbn; lia. Qed.
Lemma strip_length l : length (strip_newlines l) <= length l.
Proof. unfold strip_newlines. rewrite length_rev. etrans; [apply drop_char_length|]. rewrite length_rev. apply drop_char_length. Qed.
Lemma drop_newlines l : exists n, l = replicate n 10%N ++ drop_char 10 l.
Proof.
  induction l as [|c l [n IH]]; [by exists 0|]. cbn [drop_char]. case_decide as Hc; [|by exists 0].
  subst c. exists (S n). cbn. by rewrite <-IH.
Qed.
Lemma strip_cut l : exists a b, l = replicate a 10%N ++ strip_newlines l ++ replicate b 10%N.
Proof.
  destruct (drop_newlines l) as [a Ha]. destruct (drop_newlines (rev (drop_char 10 l))) as [b Hb]. exists a, b.
  rewrite Ha at 1. f_equal. rewrite <-(rev_involutive (drop_char 10 l)), Hb at 1. rewrite rev_app_distr. unfold strip_newlines. f_equal.
  symmetry. apply replicate_as_elem_of. split; [by rewrite length_rev, length_replicate|].
  intros x Hx. rewrite list_elem_of_In, <-in_rev, <-list_elem_of_In in Hx. by apply elem_of_replicate in Hx as [-> _].
Qed.
Lemma cut_newlines n text pieces : cut_of text pieces -> cut_of (replicate n 10%N ++ text) pieces.
Proof.
  destruct 1 as [k|k piece rest pieces Hp Hr]; [rewrite <-replicate_add; constructor|].
  rewrite app_assoc, <-replicate_add. by constructor.
Qed.
Lemma strip_pieces all : cut_of (concat all) (filter (fun l => non_empty l = true) (strip_newlines <$> all)).
Proof.
  induction all as [|l all IH]; [apply (cut_end 0)|]. cbn [concat fmap list_fmap]. destruct (strip_cut l) as (a & b & Hl).
  destruct (strip_newlines l) as [|c piece] eqn:Hs.
  - rewrite filter_cons_False by done. rewrite Hl. cbn [app]. rewrite <-app_assoc. by do 2 apply cut_newlines.
  - rewrite filter_cons_True by done. rewrite Hl at 1. rewrite <-!app_assoc. constructor; [done|]. by apply cut_newlines.
Qed.

(** C40: An answer cut into messages: each is within the limit and there is one
    at least; one that fits is left as it is, and a longer one is the pieces in
    order with nothing but newlines before, between and after them. A text of
    nothing but newlines is the exception: its beginning is sent. *)
Theorem split_keeps_text text limit :
  0 < limit ->
  split_markdown text limit <> [] /\
  Forall (fun chunk => length (codes chunk) <= limit) (split_markdown text limit) /\
  (length (codes text) <= limit -> split_markdown text limit = [text]) /\
  (limit < length (codes text) ->
     cut_of (codes text) (codes <$> split_markdown text limit) \/
     codes text = replicate (length (codes text)) 10%N /\ split_markdown text limit = [PyStr (take limit (codes text))]).
Proof.
  intros Hlimit. unfold split_markdown. case_bool_decide as Hshort.
  { split_and!; [done|by repeat constructor|done|lia]. }
  pose proof (split_pieces limit (keep_lines [] (codes text)) ([], []) [] Hlimit) as Hp. rewrite keep_lines_concat in Hp.
  destruct (foldl _ _ _) as [chunks current]. destruct Hp as (Htext & Hchunks & Hcurrent); [split_and!; cbn; [done|done|lia]|].
  cbn [app rev fst snd] in *. set (all := if non_empty current then chunks ++ [current] else chunks).
  assert (Hall : concat all = codes text /\ Forall (fun chunk => length chunk <= limit) all).
  { unfold all. destruct current; cbn; [by rewrite app_nil_r in Htext|]. rewrite concat_app. cbn. rewrite app_nil_r. split; [done|].
    apply Forall_app. split; [done|by repeat constructor]. }
  clearbody all. destruct Hall as [Hconcat Hall].
  assert (Hbound : Forall (fun chunk => length chunk <= limit) (filter (fun l => non_empty l = true) (strip_newlines <$> all))).
  { apply Forall_forall. intros l [_ (l' & -> & Hl')%list_elem_of_fmap]%list_elem_of_filter. rewrite Forall_forall in Hall.
    etrans; [apply strip_length|by apply Hall]. }
  pose proof (strip_pieces all) as Hcut. rewrite Hconcat in Hcut.
  destruct (filter _ (strip_newlines <$> all)) as [|piece pieces] eqn:E.
  - split_and!; [done|repeat constructor; cbn; rewrite length_take; lia|lia|]. intros _. right. split; [|done].
    inv Hcut. by rewrite length_replicate.
  - split_and!; [done|by apply Forall_fmap|lia|]. intros _. left. rewrite <-list_fmap_compose. replace ((codes ∘ PyStr) <$> piece :: pieces) with (piece :: pieces); [done|]. symmetry. apply list_fmap_id.
Qed.
Lemma split_nonempty text limit : split_markdown text limit <> [].
Proof. unfold split_markdown. case_bool_decide; [done|]. destruct (foldl _ _ _). by destruct (filter _ _). Qed.
Lemma split_short text limit : length (codes text) <= limit -> split_markdown text limit = [text].
Proof. intros H. unfold split_markdown. by rewrite bool_decide_true. Qed.

Lemma seal_heads_S {R C} (ports : BridgePorts R C) others fuel who i chunks :
  seal_heads ports others (S fuel) who i chunks =
  (let! draft := the_draft i in
   if bool_decide (S (dr_sealed_chunks draft) < length chunks) then
     let chunk := default "" (chunks !! dr_sealed_chunks draft) in
     (if decide (chunk = dr_delivered_text draft) then ret tt else deliver ports others who i chunk) ;;;
     on_draft i sealed ;;;
     seal_heads ports others fuel who i chunks
   else ret tt).
Proof. reflexivity. Qed.

Lemma split_pieces_full text limit :
  0 < limit -> str_empty text = false -> Forall (fun chunk => str_empty chunk = false) (split_markdown text limit).
Proof.
  intros Hlimit Htext. unfold split_markdown. case_bool_decide as Hshort; [by repeat constructor|].
  destruct (foldl _ _ _) as [chunks current]. destruct (filter _ _) as [|piece pieces] eqn:E.
  - repeat constructor. destruct text as [l]. cbn in *. destruct l, limit; cbn in *; [lia|lia|lia|done].
  - rewrite <-E. apply Forall_fmap, Forall_forall. intros l [Hl _]%list_elem_of_filter. by destruct l.
Qed.

(** ** What the chat shows *)

(** The chat, as far as the bridge relies on it: what each message shows;
    messages that are sent get an id of their own; a call that fails, by an
    error of the client, leaves what is shown.  [up] says of the surroundings
    that no call fails from here on. *)
Section Shown.
Context {R C : Type} (ports : BridgePorts R C) (isdigit : pystr -> bool) (to_int : pystr -> option Z) (edit_throttle_seconds : float).
Context (shown : C -> Z -> option pystr) (up : C -> Prop).
Record chat_ok : Prop := {
  co_send text reply c r c' : bp_send_rich_message ports text reply c = (r, c') ->
    (forall m t, shown c m = Some t -> shown c' m = Some t) /\ (up c -> up c' /\ exists m, r = Ok m) /\
    match r with Ok m => shown c m = None /\ shown c' m = Some text | Err e => is_telegram e = true end;
  co_edit m text c r c' : bp_edit_message_rich ports m text c = (r, c') ->
    (forall m', m' <> m -> shown c' m' = shown c m') /\ (up c -> up c' /\ r = Ok tt) /\
    match r with Ok _ => shown c' m = Some text | Err e => is_telegram e = true /\ shown c' m = shown c m end;
  co_clock c r c' : bp_monotonic ports c = (r, c') -> (exists now, r = Ok now) /\ shown c' = shown c /\ (up c -> up c');
  co_sleep seconds c r c' : bp_sleep ports seconds c = (r, c') -> r = Ok tt /\ shown c' = shown c /\ (up c -> up c');
  co_remember store draft c r c' : bp_drafts ports = Some store -> dp_remember store draft c = (r, c') ->
    (forall e, r = Err e -> is_exception e = true) /\ shown c' = shown c /\ (up c -> up c');
  co_forget store key c r c' : bp_drafts ports = Some store -> dp_forget store key c = (r, c') ->
    (forall e, r = Err e -> is_exception e = true) /\ shown c' = shown c /\ (up c -> up c') }.
Hypothesis Hchat : chat_ok.

(** Nothing else runs. *)
Definition alone (_ : nat) (w : Chat R C) : Chat R C := w.
Abbreviation deliver := (deliver ports alone).
Abbreviation seal_heads := (seal_heads ports alone).
Abbreviation flush_draft := (flush_draft ports alone).
Abbreviation flush_when_due := (flush_when_due ports alone edit_throttle_seconds).
Abbreviation flush_throttled := (flush_throttled ports alone edit_throttle_seconds).
Abbreviation timer_fires := (timer_fires ports alone edit_throttle_seconds).
Abbreviation render_terminal := (render_terminal ports alone).
Abbreviation render := (render ports alone isdigit to_int edit_throttle_seconds).
Abbreviation render_safely := (render_safely ports alone isdigit to_int edit_throttle_seconds).

Definition objects (w : Chat R C) : list Draft := br_objects (ch_bridge w).
Definition visible (w : Chat R C) : Z -> option pystr := shown (ch_outside w).
Definition drafts (w : Chat R C) : list (option pystr * nat) := br_drafts (ch_bridge w).

(** Each draft with a message knows what it shows, or knows nothing of it; no
    two have one message; each is filed under its exchange. *)
Record world_ok (w : Chat R C) : Prop := {
  wo_shown i d m : objects w !! i = Some d -> dr_message_id d = Some m ->
    exists t, visible w m = Some t /\ (str_empty (dr_delivered_text d) = false -> t = dr_delivered_text d);
  wo_none i d : objects w !! i = Some d -> dr_message_id d = None -> str_empty (dr_delivered_text d) = true;
  wo_owner i j di dj m : objects w !! i = Some di -> objects w !! j = Some dj -> dr_message_id di = Some m -> dr_message_id dj = Some m -> i = j;
  wo_places exchange_id i : dict_get exchange_id (drafts w) = Some i -> exists d, objects w !! i = Some d /\ dr_exchange_id d = exchange_id }.

(** What a call may change of a draft while it writes its message, and what it
    leaves of the rest. *)
Definition same_text (d d' : Draft) : Prop :=
  dr_buffer d' = dr_buffer d /\ dr_status d' = dr_status d /\ dr_exchange_id d' = dr_exchange_id d /\ dr_flush_timer d' = dr_flush_timer d.
Record touches (i : nat) (d d' : Draft) (w w' : Chat R C) : Prop := {
  to_before : objects w !! i = Some d;
  to_after : objects w' !! i = Some d';
  to_text : same_text d d';
  to_rest j : j <> i -> objects w' !! j = objects w !! j;
  to_drafts : drafts w' = drafts w;
  to_typing : br_typing (ch_bridge w') = br_typing (ch_bridge w);
  to_visible m t : visible w m = Some t -> dr_message_id d = Some m \/ visible w' m = Some t;
  to_message m : dr_message_id d' = Some m -> dr_message_id d = Some m \/ visible w m = None;
  to_up : up (ch_outside w) -> up (ch_outside w');
  to_ok : world_ok w' }.
Lemma touches_refl i d w : objects w !! i = Some d -> world_ok w -> touches i d d w w.
Proof using Type. intros Hd Hok. split; try done; [by right|by left]. Qed.
Lemma touches_trans i d1 d2 d3 w1 w2 w3 : touches i d1 d2 w1 w2 -> touches i d2 d3 w2 w3 -> touches i d1 d3 w1 w3.
Proof using Type.
  intros H1 H2. split.
  - apply H1.
  - apply H2.
  - destruct (to_text _ _ _ _ _ H1) as (? & ? & ? & ?), (to_text _ _ _ _ _ H2) as (? & ? & ? & ?). split_and!; congruence.
  - intros j Hj. rewrite (to_rest _ _ _ _ _ H2) by done. by apply H1.
  - rewrite (to_drafts _ _ _ _ _ H2). apply H1.
  - rewrite (to_typing _ _ _ _ _ H2). apply H1.
  - intros m t Hm. destruct (to_visible _ _ _ _ _ H1 m t Hm) as [?|Hm2]; [by left|].
    destruct (to_visible _ _ _ _ _ H2 m t Hm2) as [Ho|?]; [|by right]. destruct (to_message _ _ _ _ _ H1 m Ho) as [?|?]; [by left|congruence].
  - intros m Hm. destruct (to_message _ _ _ _ _ H2 m Hm) as [Hm2|Hm2]; [by apply H1|]. destruct (visible w1 m) as [t|] eqn:E; [|by right].
    destruct (to_visible _ _ _ _ _ H1 m t E) as [?|?]; [by left|congruence].
  - intros Hup. by apply H2, H1.
  - apply H2.
Qed.
(** *** Sealed pieces *)

(** A piece of what a draft holds. *)
Definition piece_of (said : pystr * list StatusEntry) (j : nat) (t : pystr) : Prop :=
  split_markdown (compose_parts said.1 said.2) MAX_RICH_MESSAGE_LENGTH !! j = Some t.
Definition words (d : Draft) : pystr * list StatusEntry := (dr_buffer d, dr_status d).
(** Messages no draft writes to any more, one for each sealed piece, each
    showing a text [P] holds of its place. *)
Definition unowned (w : Chat R C) (m : Z) : Prop := forall k e, objects w !! k = Some e -> dr_message_id e <> Some m.
Definition heads (w : Chat R C) (d : Draft) (P : nat -> pystr -> Prop) : Prop :=
  exists ms, length ms = dr_sealed_chunks d /\ NoDup ms /\
    forall j m, ms !! j = Some m -> unowned w m /\ exists t, visible w m = Some t /\ P j t.
(** What is in such messages stays there. *)
Definition keeps_free (w w' : Chat R C) : Prop := forall m t, unowned w m -> visible w m = Some t -> unowned w' m /\ visible w' m = Some t.
Lemma heads_free w w' d d' P : keeps_free w w' -> dr_sealed_chunks d' = dr_sealed_chunks d -> heads w d P -> heads w' d' P.
Proof using Type.
  intros Hfree Hs (ms & Hlen & Hnd & Hms). exists ms. split_and!; [congruence|done|]. intros j m Hj.
  destruct (Hms j m Hj) as (Hu & t & Ht & HP). destruct (Hfree m t Hu Ht) as [Hu' Ht']. eauto.
Qed.
Lemma heads_impl w d (P Q : nat -> pystr -> Prop) :
  (forall j t, j < dr_sealed_chunks d -> P j t -> Q j t) -> heads w d P -> heads w d Q.
Proof using Type.
  intros HPQ (ms & Hlen & Hnd & Hms). exists ms. split_and!; [done|done|]. intros j m Hj. destruct (Hms j m Hj) as (Hu & t & Ht & HP).
  split; [done|]. exists t. split; [done|]. apply HPQ; [|done]. rewrite <-Hlen. by eapply lookup_lt_Some.
Qed.
Lemma free_touched i d d' w w' : touches i d d' w w' -> keeps_free w w'.
Proof using Type.
  intros H m t Hu Ht. split.
  - intros k e Hk Hm. destruct (decide (k = i)) as [->|Hne].
    + rewrite (to_after _ _ _ _ _ H) in Hk. injection Hk as <-. destruct (to_message _ _ _ _ _ H m Hm) as [Ho|?]; [|congruence].
      by apply (Hu i d (to_before _ _ _ _ _ H)).
    + rewrite (to_rest _ _ _ _ _ H) in Hk by done. by apply (Hu k e Hk).
  - destruct (to_visible _ _ _ _ _ H m t Ht) as [Ho|?]; [|done]. by destruct (Hu i d (to_before _ _ _ _ _ H)).
Qed.
(** Each draft keeps its words; the pieces it seals are of them. *)
Record sealed_on (w w' : Chat R C) (e e' : Draft) : Prop := {
  gr_words : words e' = words e;
  gr_sealed : dr_sealed_chunks e <= dr_sealed_chunks e';
  gr_heads P : (forall j t, dr_sealed_chunks e <= j -> piece_of (words e) j t -> P j t) -> heads w e P -> heads w' e' P }.
Definition seals (w w' : Chat R C) : Prop := forall k e, objects w !! k = Some e -> exists e', objects w' !! k = Some e' /\ sealed_on w w' e e'.
Lemma sealed_on_free w w' e e' : keeps_free w w' -> words e' = words e -> dr_sealed_chunks e' = dr_sealed_chunks e -> sealed_on w w' e e'.
Proof using Type. intros Hfree Ht Hs. split; [done|lia|]. intros P _. by apply heads_free. Qed.
Lemma seals_same w w' : objects w' = objects w -> visible w' = visible w -> seals w w'.
Proof using Type.
  intros E1 E2 k e He. exists e. rewrite E1. split; [done|]. apply sealed_on_free; [|done|done]. intros m t. unfold unowned. by rewrite E1, E2.
Qed.
Lemma seals_trans w1 w2 w3 : seals w1 w2 -> seals w2 w3 -> seals w1 w3.
Proof using Type.
  intros H1 H2 k e He. destruct (H1 k e He) as (e2 & He2 & G1). destruct (H2 k e2 He2) as (e3 & He3 & G2). exists e3. split; [done|]. split.
  - rewrite (gr_words _ _ _ _ G2). apply G1.
  - pose proof (gr_sealed _ _ _ _ G1). pose proof (gr_sealed _ _ _ _ G2). lia.
  - intros P HP Hh. apply (gr_heads _ _ _ _ G2); [|by apply (gr_heads _ _ _ _ G1)]. intros j t Hj. rewrite (gr_words _ _ _ _ G1). apply HP.
    pose proof (gr_sealed _ _ _ _ G1). lia.
Qed.
Lemma touched_words i d d' w w' : touches i d d' w w' -> words d' = words d.
Proof using Type. intros H. unfold words. by destruct (to_text _ _ _ _ _ H) as (-> & -> & _). Qed.
Lemma seals_touched i d d' w w' : touches i d d' w w' -> dr_sealed_chunks d' = dr_sealed_chunks d -> seals w w'.
Proof using Type.
  intros H Hs k e Hk. pose proof (free_touched _ _ _ _ _ H) as Hfree. destruct (decide (k = i)) as [->|Hne].
  - rewrite (to_before _ _ _ _ _ H) in Hk. injection Hk as <-. exists d'. split; [apply H|]. apply sealed_on_free; [done|by eapply touched_words|done].
  - exists e. rewrite (to_rest _ _ _ _ _ H) by done. split; [done|by apply sealed_on_free].
Qed.
Lemma seals_sealed i d w w' m text :
  touches i d (sealed d) w w' -> world_ok w -> dr_message_id d = Some m -> visible w m = Some text -> visible w' m = Some text ->
  piece_of (words d) (dr_sealed_chunks d) text -> seals w w'.
Proof using Type.
  intros H Hok Hm Ht Ht' Hpiece k e Hk. pose proof (free_touched _ _ _ _ _ H) as Hfree. destruct (decide (k = i)) as [->|Hne].
  2: { exists e. rewrite (to_rest _ _ _ _ _ H) by done. split; [done|by apply sealed_on_free]. }
  rewrite (to_before _ _ _ _ _ H) in Hk. injection Hk as <-. exists (sealed d). split; [apply H|]. split; [done|cbn; lia|].
  intros P HP (ms & Hlen & Hnd & Hms). exists (ms ++ [m]). split_and!; [rewrite length_app; cbn; lia| |].
  - apply NoDup_app. split_and!; [done| |apply NoDup_singleton]. intros x Hx ->%list_elem_of_singleton. apply list_elem_of_lookup in Hx as [j Hj].
    destruct (Hms j m Hj) as [Hu _]. by apply (Hu i d (to_before _ _ _ _ _ H)).
  - intros j h Hj. apply lookup_app_Some in Hj as [Hj|[Hge Hj]].
    + destruct (Hms j h Hj) as (Hu & t & Hv & HPt). destruct (Hfree h t Hu Hv) as [? ?]. eauto.
    + apply list_lookup_singleton_Some in Hj as [Hz <-]. split.
      * intros l e He Hem. destruct (decide (l = i)) as [->|Hli]; [rewrite (to_after _ _ _ _ _ H) in He; by injection He as <-|].
        rewrite (to_rest _ _ _ _ _ H) in He by done. apply Hli. by apply (wo_owner w Hok l i e d m He (to_before _ _ _ _ _ H)).
      * exists text. split; [done|]. apply HP; [lia|]. by replace j with (dr_sealed_chunks d) by lia.
Qed.

(** An assignment that leaves the message alone. *)
Definition with_object (i : nat) (f : Draft -> Draft) (w : Chat R C) : Chat R C :=
  {| ch_bridge := set_drafts (br_drafts (ch_bridge w)) (alter f i (br_objects (ch_bridge w))) (ch_bridge w); ch_outside := ch_outside w; ch_tick := ch_tick w |}.
Lemma on_draft_run i f w : on_draft (R:=R) (C:=C) i f w = (Ok tt, with_object i f w).
Proof using Type. done. Qed.
Lemma object_at i f w : objects (with_object i f w) !! i = f <$> objects w !! i.
Proof using Type. unfold objects, with_object. cbn. by rewrite list_lookup_alter, decide_True. Qed.
Lemma object_else i j f w : j <> i -> objects (with_object i f w) !! j = objects w !! j.
Proof using Type. intros Hj. unfold objects, with_object. cbn. rewrite list_lookup_alter, decide_False; congruence. Qed.
Lemma the_draft_run i d w : objects w !! i = Some d -> the_draft (R:=R) (C:=C) i w = (Ok d, w).
Proof using Type. intros Hd. unfold the_draft, bridge, gets. change (br_objects (ch_bridge w)) with (objects w). by rewrite Hd. Qed.
Definition keeps_message (d d' : Draft) : Prop :=
  dr_message_id d' = dr_message_id d /\ dr_delivered_text d' = dr_delivered_text d /\ dr_exchange_id d' = dr_exchange_id d.
Lemma with_object_ok i f w :
  world_ok w -> (forall d, objects w !! i = Some d -> keeps_message d (f d)) -> world_ok (with_object i f w).
Proof using Type.
  intros Hok Hf. assert (Hget : forall j d', objects (with_object i f w) !! j = Some d' -> exists d, objects w !! j = Some d /\ keeps_message d d').
  { intros j d' Hj. destruct (decide (j = i)) as [->|Hne].
    - rewrite object_at in Hj. apply fmap_Some in Hj as (d & Hd & ->). exists d. split; [done|by apply Hf].
    - rewrite object_else in Hj by done. by exists d'. }
  split.
  - intros j d' m Hj Hm. destruct (Hget j d' Hj) as (d & Hd & E1 & -> & _). rewrite E1 in Hm. by apply (wo_shown w Hok j d).
  - intros j d' Hj Hm. destruct (Hget j d' Hj) as (d & Hd & E1 & -> & _). rewrite E1 in Hm. by apply (wo_none w Hok j d).
  - intros j k d' e' m Hj Hk Hdm Hem. destruct (Hget j d' Hj) as (d & Hd & E1 & _), (Hget k e' Hk) as (e & He & E2 & _).
    apply (wo_owner w Hok j k d e m); congruence.
  - intros ex j Hj. destruct (wo_places w Hok ex j Hj) as (d & Hd & Hex). destruct (decide (j = i)) as [->|Hne].
    + exists (f d). rewrite object_at, Hd. split; [done|]. destruct (Hf d Hd) as (_ & _ & ->). done.
    + exists d. by rewrite object_else.
Qed.

(** The surroundings moved on. *)
Definition moved (c : C) (n : nat) (w : Chat R C) : Chat R C := {| ch_bridge := ch_bridge w; ch_outside := c; ch_tick := n |}.
Definition calm (who : option nat) (w : Chat R C) : Prop := cancelled_timer who w = false.
Definition writer (who : option nat) (i : nat) : Prop := who = None \/ who = Some i.
Lemma await_run {A} who (call : M C Exn A) w r c :
  calm who w -> call (ch_outside w) = (r, c) -> await alone who call w = (r, moved c (S (ch_tick w)) w).
Proof using Type. intros Hcalm Hcall. unfold await, alone. rewrite Hcall. unfold calm, cancelled_timer in *. cbn. by rewrite Hcalm. Qed.
Lemma outside_run {A} (call : M C Exn A) (w : Chat R C) r c : call (ch_outside w) = (r, c) -> outside call w = (r, moved c (ch_tick w) w).
Proof using Type. intros Hcall. unfold outside. by rewrite Hcall. Qed.
Lemma calm_touched who i d d' w w' : writer who i -> touches i d d' w w' -> calm who w -> calm who w'.
Proof using Type.
  intros [->| ->] H; unfold calm, cancelled_timer; [done|]. change (br_objects (ch_bridge w)) with (objects w). change (br_objects (ch_bridge w')) with (objects w').
  rewrite (to_before _ _ _ _ _ H), (to_after _ _ _ _ _ H). cbn. by destruct (to_text _ _ _ _ _ H) as (_ & _ & _ & ->).
Qed.
Lemma moved_touches i d c n w :
  objects w !! i = Some d -> world_ok w -> shown c = shown (ch_outside w) -> (up (ch_outside w) -> up c) -> touches i d d w (moved c n w).
Proof using Type.
  intros Hd Hok Hshown Hup. split; try done; unfold visible; cbn; rewrite ?Hshown; [by right|by left|].
  destruct Hok as [H1 H2 H3 H4]. split; [|exact H2|exact H3|exact H4]. unfold visible in *. cbn. rewrite Hshown. exact H1.
Qed.
(** Draft [i] has its message show [text], which is in [c]. *)
Lemma written_touches i d f m text c n w :
  objects w !! i = Some d -> world_ok w -> same_text d (f d) -> dr_message_id (f d) = Some m ->
  (str_empty (dr_delivered_text (f d)) = false -> dr_delivered_text (f d) = text) ->
  dr_message_id d = Some m \/ shown (ch_outside w) m = None -> shown c m = Some text ->
  (forall m' t, m' <> m -> shown (ch_outside w) m' = Some t -> shown c m' = Some t) -> (up (ch_outside w) -> up c) ->
  touches i d (f d) w (with_object i f (moved c n w)).
Proof using Type.
  intros Hd Hok Htext Hm Hdelivered Hmine Hshown Hkept Hup. set (w' := with_object i f (moved c n w)).
  assert (Hi : objects w' !! i = Some (f d)) by (unfold w'; rewrite object_at; change (objects (moved c n w)) with (objects w); by rewrite Hd).
  assert (Hj : forall j, j <> i -> objects w' !! j = objects w !! j) by (intros j Hne; unfold w'; by rewrite object_else).
  assert (Hother : forall j e m', j <> i -> objects w !! j = Some e -> dr_message_id e = Some m' -> m' <> m).
  { intros j e m' Hne He Hem ->. destruct (wo_shown w Hok j e m He Hem) as (t & Ht & _). destruct Hmine as [Hdm|Hnone]; [|unfold visible in Ht; congruence].
    apply Hne. by apply (wo_owner w Hok j i e d m). }
  split; try done.
  - intros m' t Ht. destruct (decide (m' = m)) as [->|Hne]; [|right; by apply Hkept]. destruct Hmine as [?|?]; [by left|unfold visible in Ht; congruence].
  - intros m' Hm'. rewrite Hm in Hm'. injection Hm' as <-. exact Hmine.
  - split.
    + intros j e m' He Hem. destruct (decide (j = i)) as [->|Hne].
      * rewrite Hi in He. injection He as <-. rewrite Hm in Hem. injection Hem as <-. exists text. split; [done|]. intros Hfull. by rewrite Hdelivered.
      * rewrite Hj in He by done. destruct (wo_shown w Hok j e m' He Hem) as (t & Ht & Heq). exists t. split; [|done]. apply Hkept; [by eapply Hother|done].
    + intros j e He Hem. destruct (decide (j = i)) as [->|Hne]; [rewrite Hi in He; injection He as <-; congruence|]. rewrite Hj in He by done. by apply (wo_none w Hok j).
    + intros j k e e' m' He He' Hem Hem'. destruct (decide (j = i)) as [->|Hnj], (decide (k = i)) as [->|Hnk]; try done.
      * rewrite Hi in He. injection He as <-. rewrite Hj in He' by done. rewrite Hm in Hem. injection Hem as <-. by destruct (Hother k e' m Hnk He' Hem').
      * rewrite Hi in He'. injection He' as <-. rewrite Hj in He by done. rewrite Hm in Hem'. injection Hem' as <-. by destruct (Hother j e m Hnj He Hem).
      * rewrite Hj in He by done. rewrite Hj in He' by done. by apply (wo_owner w Hok j k e e' m').
    + intros ex j Hp. destruct (wo_places w Hok ex j Hp) as (e & He & Hex). destruct (decide (j = i)) as [->|Hne]; [|exists e; by rewrite Hj].
      exists (f d). split; [done|]. rewrite Hd in He. injection He as <-. by destruct Htext as (_ & _ & -> & _).
Qed.
(** An assignment to the bridge but for its drafts. *)
Lemma change_touches i d g w :
  objects w !! i = Some d -> world_ok w -> (forall b, br_objects (g b) = br_objects b /\ br_drafts (g b) = br_drafts b /\ br_typing (g b) = br_typing b) ->
  touches i d d w {| ch_bridge := g (ch_bridge w); ch_outside := ch_outside w; ch_tick := ch_tick w |}.
Proof using Type.
  intros Hd Hok Hg. destruct (Hg (ch_bridge w)) as (E1 & E2 & E3). split; try done; unfold objects, drafts, visible; cbn; rewrite ?E1, ?E2, ?E3; try done;
    [by right|by left|]. destruct Hok as [H1 H2 H3 H4]. split; unfold objects, drafts, visible in *; cbn; rewrite ?E1, ?E2; done.
Qed.
Lemma remember_touches who i d w r w' :
  objects w !! i = Some d -> world_ok w -> writer who i -> calm who w -> remember_draft ports alone who i w = (r, w') ->
  r = Ok tt /\ touches i d d w w' /\ visible w' = visible w.
Proof using Hchat.
  intros Hd Hok Hwho Hcalm H. unfold remember_draft in H. rewrite (bind_Ok _ _ _ _ _ (the_draft_run _ _ _ Hd)) in H.
  destruct (bp_drafts ports) as [store|] eqn:Hs, (dr_exchange_id d) as [ex|], (dr_message_id d) as [m|];
    try (injection H as <- <-; split; [done|split; [by apply touches_refl|done]]).
  unfold except_exception, try_except in H. match type of H with context[dp_remember store ?item] => destruct (dp_remember store item (ch_outside w)) as [r1 c] eqn:E end.
  rewrite (await_run _ _ _ _ _ Hcalm E) in H. destruct (co_remember Hchat _ _ _ _ _ Hs E) as (He & Hsh & Hup).
  assert (touches i d d w (moved c (S (ch_tick w)) w)) by by apply moved_touches.
  destruct r1 as [[]|e]; [by injection H as <- <-|]. rewrite He in H by done. by injection H as <- <-.
Qed.
Lemma deliver_spec who i d text w r w' :
  objects w !! i = Some d -> world_ok w -> writer who i -> calm who w -> deliver who i text w = (r, w') ->
  exists d', touches i d d' w w' /\ dr_sealed_chunks d' = dr_sealed_chunks d /\ (up (ch_outside w) -> r = Ok tt) /\
    match r with
    | Ok _ => exists m, dr_message_id d' = Some m /\ visible w' m = Some text /\ dr_delivered_text d' = text
    | Err e => is_telegram e = true
    end.
Proof using Hchat.
  intros Hd Hok Hwho Hcalm H. unfold deliver in H. rewrite (bind_Ok _ _ _ _ _ (the_draft_run _ _ _ Hd)) in H.
  destruct (dr_message_id d) as [m|] eqn:Hm.
  - unfold bind in H. destruct (bp_edit_message_rich ports m text (ch_outside w)) as [r1 c] eqn:E. rewrite (await_run _ _ _ _ _ Hcalm E) in H.
    destruct (co_edit Hchat _ _ _ _ _ E) as (Hrest & Hup & Hr). destruct r1 as [[]|e].
    + rewrite on_draft_run in H. injection H as <- <-. exists (with_delivered text d). split_and!; [|done|done|exists m; split; [exact Hm|split; [exact Hr|done]]].
      apply written_touches with (m := m) (text := text); try done; [by left|intros m' t Hne Ht; by rewrite Hrest|intros Hu; apply (Hup Hu)].
    + injection H as <- <-. exists d. destruct Hr as [He Hsame]. split_and!; [|done|by intros [_ ?]%Hup|done].
      assert (forall m', shown c m' = shown (ch_outside w) m') as Hall by (intros m'; destruct (decide (m' = m)) as [->|]; auto).
      split; try done; unfold visible; cbn; [intros m' t Ht; right; by rewrite Hall|by left|intros Hu; apply (Hup Hu)|].
      destruct Hok as [H1 H2 H3 H4]. split; [|exact H2|exact H3|exact H4]. intros j e' m' Hj Hm'. destruct (H1 j e' m' Hj Hm') as (t & Ht & Heq).
      exists t. split; [|done]. unfold visible. cbn. by rewrite Hall.
  - unfold bind in H. match type of H with context[bp_send_rich_message ports text ?reply] => destruct (bp_send_rich_message ports text reply (ch_outside w)) as [r1 c] eqn:E end. rewrite (await_run _ _ _ _ _ Hcalm E) in H.
    destruct (co_send Hchat _ _ _ _ _ E) as (Hkept & Hup & Hr). destruct r1 as [m|e].
    + rewrite on_draft_run in H. destruct Hr as [Hnew Hshown].
      assert (Hempty : str_empty (dr_delivered_text d) = true) by by apply (wo_none w Hok i).
      set (d1 := with_message (Some m) d). set (w1 := with_object i (with_message (Some m)) (moved c (S (ch_tick w)) w)) in H.
      assert (H1 : touches i d d1 w w1).
      { apply written_touches with (m := m) (text := text); try done; [cbn; congruence|by right|intros m' t _; apply Hkept|intros Hu; apply (Hup Hu)]. }
      assert (Hv1 : visible w1 m = Some text) by done. clearbody w1.
      set (record := match dr_exchange_id d with Some _ => _ | None => _ end) in H.
      destruct (record w1) as [r2 w2] eqn:Hrecord.
      assert (r2 = Ok tt /\ touches i d1 d1 w1 w2 /\ visible w2 = visible w1) as (-> & H2 & Hv2).
      { unfold record in Hrecord. destruct (dr_exchange_id d); [|injection Hrecord as <- <-; split; [done|split; [apply touches_refl; apply H1|done]]].
        unfold record_reply_target, change, modify in Hrecord. injection Hrecord as <- <-. split; [done|]. split; [|done]. apply change_touches; [apply H1|apply H1|done]. }
      destruct (remember_draft ports alone who i w2) as [r3 w3] eqn:Hremember.
      apply remember_touches with (d := d1) in Hremember as (-> & H3 & Hv3); [|apply H2|apply H2|done|].
      2: { eapply calm_touched; [done|exact H2|]. eapply calm_touched; [done|exact H1|done]. }
      rewrite on_draft_run in H. injection H as <- <-. exists (with_delivered text d1).
      pose proof (touches_trans _ _ _ _ _ _ _ (touches_trans _ _ _ _ _ _ _ H1 H2) H3) as H123.
      assert (Hv : visible w3 m = Some text) by by rewrite Hv3, Hv2.
      split_and!; [|done|done|exists m; split; [done|split; [exact Hv|done]]].
      eapply touches_trans; [exact H123|]. apply (written_touches i d1 (with_delivered text) m text (ch_outside w3) (ch_tick w3) w3); try done; [apply H3|apply H3|by left].
    + injection H as <- <-. exists d. split_and!; [|done|by intros [_ [? ?]]%Hup|done].
      split; try done; unfold visible; cbn; [intros m' t Ht; right; by apply Hkept|by left|intros Hu; apply (Hup Hu)|].
      destruct Hok as [H1 H2 H3 H4]. split; [|exact H2|exact H3|exact H4]. intros j e' m' Hj Hm'. destruct (H1 j e' m' Hj Hm') as (t & Ht & Heq).
      exists t. split; [by apply Hkept|done].
Qed.
Lemma seal_touches i d w m text :
  objects w !! i = Some d -> world_ok w -> dr_message_id d = Some m -> visible w m = Some text ->
  piece_of (words d) (dr_sealed_chunks d) text ->
  touches i d (sealed d) w (with_object i sealed w) /\ seals w (with_object i sealed w).
Proof using Type.
  intros Hd Hok Hm Htext Hpiece. set (w' := with_object i sealed w).
  assert (Hi : objects w' !! i = Some (sealed d)) by (unfold w'; by rewrite object_at, Hd).
  assert (Hj : forall j, j <> i -> objects w' !! j = objects w !! j) by (intros j Hne; unfold w'; by rewrite object_else).
  enough (H : touches i d (sealed d) w w') by (split; [done|by eapply seals_sealed]).
  split; try done; [by right|]. split.
  - intros j e m' He Hem. destruct (decide (j = i)) as [->|Hne]; [rewrite Hi in He; by injection He as <-|]. rewrite Hj in He by done. by apply (wo_shown w Hok j).
  - intros j e He Hem. destruct (decide (j = i)) as [->|Hne]; [rewrite Hi in He; by injection He as <-|]. rewrite Hj in He by done. by apply (wo_none w Hok j).
  - intros j k e e' m' He He' Hem Hem'. destruct (decide (j = i)) as [->|Hnj]; [rewrite Hi in He; by injection He as <-|].
    destruct (decide (k = i)) as [->|Hnk]; [rewrite Hi in He'; by injection He' as <-|]. rewrite Hj in He, He' by done. by apply (wo_owner w Hok j k e e' m').
  - intros ex j Hp. destruct (wo_places w Hok ex j Hp) as (e & He & Hex). destruct (decide (j = i)) as [->|Hne]; [|exists e; by rewrite Hj].
    exists (sealed d). split; [done|]. by simplify_eq.
Qed.
(** A chunk is in a message before it is sealed. *)
Lemma written_or_known who i d chunk w r w' :
  objects w !! i = Some d -> world_ok w -> writer who i -> calm who w -> str_empty chunk = false ->
  (if decide (chunk = dr_delivered_text d) then ret tt else deliver who i chunk) w = (r, w') ->
  exists d', touches i d d' w w' /\ dr_sealed_chunks d' = dr_sealed_chunks d /\ (up (ch_outside w) -> r = Ok tt) /\
    match r with Ok _ => exists m, dr_message_id d' = Some m /\ visible w' m = Some chunk | Err e => is_telegram e = true end.
Proof using Hchat.
  intros Hd Hok Hwho Hcalm Hfull H. case_decide as Hsame.
  - injection H as <- <-. exists d. split_and!; [by apply touches_refl|done|done|]. subst chunk. destruct (dr_message_id d) as [m|] eqn:Hm.
    + destruct (wo_shown w Hok i d m Hd Hm) as (t & Ht & Heq). exists m. split; [done|]. by rewrite Ht, Heq.
    + pose proof (wo_none w Hok i d Hd Hm). congruence.
  - destruct (deliver_spec _ _ _ _ _ _ _ Hd Hok Hwho Hcalm H) as (d' & Ht & Hs & Hup & Hr). exists d'. split_and!; try done.
    destruct r; [|done]. destruct Hr as (m & ? & ? & _). by exists m.
Qed.
Lemma seal_spec who i chunks :
  writer who i -> Forall (fun chunk => str_empty chunk = false) chunks -> forall fuel d w r w',
  objects w !! i = Some d -> world_ok w -> calm who w -> split_markdown (compose d) MAX_RICH_MESSAGE_LENGTH = chunks ->
  length chunks <= fuel + S (dr_sealed_chunks d) -> seal_heads fuel who i chunks w = (r, w') ->
  exists d', touches i d d' w w' /\ seals w w' /\ (up (ch_outside w) -> r = Ok tt) /\
    match r with Ok _ => length chunks <= S (dr_sealed_chunks d') | Err e => is_telegram e = true end.
Proof using Hchat.
  intros Hwho Hfull. induction fuel as [|fuel IH]; intros d w r w' Hd Hok Hcalm Hchunks Hfuel H.
  { injection H as <- <-. exists d. split_and!; [by apply touches_refl|by apply seals_same|done|lia]. }
  rewrite seal_heads_S in H. rewrite (bind_Ok _ _ _ _ _ (the_draft_run _ _ _ Hd)) in H. case_bool_decide as Hmore.
  2: { injection H as <- <-. exists d. split_and!; [by apply touches_refl|by apply seals_same|done|lia]. }
  destruct (lookup_lt_is_Some_2 chunks (dr_sealed_chunks d)) as [chunk Hchunk]; [lia|]. rewrite Hchunk in H. cbn [default] in H. unfold bind in H.
  match type of H with context[(if decide (?c = ?t) then ?a else ?b) w] => destruct ((if decide (c = t) then a else b) w) as [r1 w1] eqn:E1 end.
  apply written_or_known in E1 as (d1 & H1 & Hs1 & Hup1 & Hr1); try done; [|by eapply Forall_lookup_1 in Hfull].
  pose proof (seals_touched _ _ _ _ _ H1 Hs1) as G1.
  destruct r1 as [[]|e]; [|injection H as <- <-; exists d1; split_and!; [done|done|by intros ?%Hup1|done]].
  destruct Hr1 as (m & Hm & Hv). rewrite on_draft_run in H. pose proof (touched_words _ _ _ _ _ H1) as Hwords.
  assert (Hcompose : compose d1 = compose d) by (unfold words in Hwords; injection Hwords as E1 E2; unfold compose; by rewrite E1, E2).
  destruct (seal_touches i d1 w1 m chunk (to_after _ _ _ _ _ H1) (to_ok _ _ _ _ _ H1) Hm Hv) as [H2 G2].
  { unfold piece_of, words. cbn [fst snd]. fold (compose d1). by rewrite Hcompose, Hs1, Hchunks. }
  pose proof (touches_trans _ _ _ _ _ _ _ H1 H2) as H12.
  apply IH with (d := sealed d1) in H as (d3 & H3 & G3 & Hup3 & Hr3); [|apply H2|apply H2|by eapply calm_touched|by rewrite <-Hchunks, <-Hcompose|cbn; lia].
  exists d3. split_and!; [by eapply touches_trans|eapply seals_trans; [exact G1|]; by eapply seals_trans|intros Hup; apply Hup3, H12, Hup|done].
Qed.

(** A flush that goes through leaves the last piece in the message of the draft,
    and every other one sealed. *)
Lemma flush_spec who i d w r w' :
  objects w !! i = Some d -> world_ok w -> writer who i -> calm who w -> flush_draft who i w = (r, w') ->
  exists d', touches i d d' w w' /\ seals w w' /\ (up (ch_outside w) -> r = Ok tt) /\
    match r with
    | Ok _ => str_empty (compose d) = true \/
        exists m t, dr_message_id d' = Some m /\ visible w' m = Some t /\ last (split_markdown (compose d) MAX_RICH_MESSAGE_LENGTH) = Some t /\
          length (split_markdown (compose d) MAX_RICH_MESSAGE_LENGTH) <= S (dr_sealed_chunks d')
    | Err e => is_telegram e = true
    end.
Proof using Hchat.
  intros Hd Hok Hwho Hcalm H. unfold flush_draft in H. rewrite (bind_Ok _ _ _ _ _ (the_draft_run _ _ _ Hd)) in H.
  destruct (str_empty (compose d)) eqn:Hempty.
  { injection H as <- <-. exists d. split_and!; [by apply touches_refl|by apply seals_same|done|by left]. }
  assert (0 < MAX_RICH_MESSAGE_LENGTH) as Hlimit by (unfold MAX_RICH_MESSAGE_LENGTH; lia).
  remember (split_markdown (compose d) MAX_RICH_MESSAGE_LENGTH) as chunks eqn:Hchunks.
  assert (Hfull : Forall (fun chunk => str_empty chunk = false) chunks) by (subst chunks; by apply split_pieces_full).
  assert (Hne : chunks <> []) by (subst chunks; apply split_nonempty).
  destruct (last chunks) as [tail_chunk|] eqn:Hlast; [|by apply last_None in Hlast]. cbn [default] in H. unfold bind at 1 in H.
  destruct (seal_heads _ who i chunks w) as [r1 w1] eqn:E1.
  apply seal_spec with (d := d) in E1 as (d1 & H1 & G1 & Hup1 & Hr1); try done; [|lia].
  destruct r1 as [[]|e]; [|injection H as <- <-; exists d1; split_and!; [done|done|by intros ?%Hup1|done]].
  rewrite (bind_Ok _ _ _ _ _ (the_draft_run _ _ _ (to_after _ _ _ _ _ H1))) in H.
  apply written_or_known in H as (d2 & H2 & Hs2 & Hup2 & Hr2); [|apply H1|apply H1|done|by eapply calm_touched|].
  2: { rewrite last_lookup in Hlast. by eapply Forall_lookup_1 in Hfull. }
  exists d2. split_and!; [by eapply touches_trans|eapply seals_trans; [exact G1|by eapply seals_touched]|intros Hup; by apply Hup2, H1|].
  destruct r as [[]|e]; [|done]. destruct Hr2 as (m & Hm & Hv). right. exists m, tail_chunk. split_and!; [done..|lia].
Qed.
(** A text laid out in the chat: its last piece in a message, and the places
    before in messages of their own, of which [P] says what they show. *)
Definition laid_out (P : nat -> pystr -> Prop) (text : pystr) (w : Chat R C) : Prop :=
  str_empty text = true \/
  exists hs m t, NoDup (hs ++ [m]) /\ visible w m = Some t /\ last (split_markdown text MAX_RICH_MESSAGE_LENGTH) = Some t /\
    length (split_markdown text MAX_RICH_MESSAGE_LENGTH) <= length hs + 1 /\
    forall j h, hs !! j = Some h -> exists t, visible w h = Some t /\ P j t.
Lemma flushed_laid_out i w d' P text t m :
  heads w d' P -> objects w !! i = Some d' -> dr_message_id d' = Some m -> visible w m = Some t ->
  last (split_markdown text MAX_RICH_MESSAGE_LENGTH) = Some t ->
  length (split_markdown text MAX_RICH_MESSAGE_LENGTH) <= S (dr_sealed_chunks d') -> laid_out P text w.
Proof using Type.
  intros (ms & Hlen & Hnd & Hms) Hd Hm Hv Hlast Hle. right. exists ms, m, t. split_and!; [|done|done|lia|].
  - apply NoDup_app. split_and!; [done| |apply NoDup_singleton]. intros x Hx ->%list_elem_of_singleton. apply list_elem_of_lookup in Hx as [j Hj].
    destruct (Hms j m Hj) as [Hu _]. by apply (Hu i d').
  - intros j h Hj. by destruct (Hms j h Hj) as [_ ?].
Qed.

(** ** What is written so far *)

(** The text and the status line of the draft of an exchange. *)
Definition text_of (w : Chat R C) (exchange_id : option pystr) : pystr * list StatusEntry :=
  match dict_get exchange_id (drafts w) ≫= (fun i => objects w !! i) with Some d => (dr_buffer d, dr_status d) | None => ("" : pystr, []) end.
(** Steps that write messages and set timers, and say nothing. *)
Record silent (w w' : Chat R C) : Prop := {
  si_ok : world_ok w';
  si_drafts : drafts w' = drafts w;
  si_typing : br_typing (ch_bridge w') = br_typing (ch_bridge w);
  si_text exchange_id : text_of w' exchange_id = text_of w exchange_id;
  si_seals : seals w w';
  si_up : up (ch_outside w) -> up (ch_outside w') }.
Lemma silent_refl w : world_ok w -> silent w w.
Proof using Type. intros Hok. split; try done. by apply seals_same. Qed.
Lemma silent_trans w1 w2 w3 : silent w1 w2 -> silent w2 w3 -> silent w1 w3.
Proof using Type. intros [] []. split; [done|congruence|congruence|congruence|by eapply seals_trans|auto]. Qed.
Lemma silent_touches i d d' w w' : touches i d d' w w' -> seals w w' -> silent w w'.
Proof using Type.
  intros H Hg. split; try apply H; [|done].
  intros ex. unfold text_of. rewrite (to_drafts _ _ _ _ _ H). destruct (dict_get ex (drafts w)) as [j|]; [|done]. cbn [mbind option_bind]. destruct (decide (j = i)) as [->|Hne].
  - rewrite (to_before _ _ _ _ _ H), (to_after _ _ _ _ _ H). by destruct (to_text _ _ _ _ _ H) as (-> & -> & _).
  - by rewrite (to_rest _ _ _ _ _ H).
Qed.
(** An assignment that leaves messages and sealed pieces alone. *)
Lemma free_object i f w : (forall d, objects w !! i = Some d -> keeps_message d (f d)) -> keeps_free w (with_object i f w).
Proof using Type.
  intros Hf m t Hu Ht. split; [|done]. intros k e Hk. destruct (decide (k = i)) as [->|Hne]; [|rewrite object_else in Hk by done; by apply (Hu k)].
  rewrite object_at in Hk. apply fmap_Some in Hk as (d & Hd & ->). destruct (Hf d Hd) as (-> & _). by apply (Hu i).
Qed.
Lemma silent_object i f w :
  world_ok w -> (forall d, objects w !! i = Some d -> keeps_message d (f d) /\ words (f d) = words d /\ dr_sealed_chunks (f d) = dr_sealed_chunks d) ->
  silent w (with_object i f w).
Proof using Type.
  intros Hok Hf. split; try done.
  - apply with_object_ok; [done|]. intros d Hd. by apply Hf.
  - intros ex. unfold text_of. change (drafts (with_object i f w)) with (drafts w). destruct (dict_get ex (drafts w)) as [j|]; [|done]. cbn [mbind option_bind].
    destruct (decide (j = i)) as [->|Hne]; [|by rewrite object_else]. rewrite object_at. destruct (objects w !! i) as [d|] eqn:Hd; [|done]. cbn [fmap option_fmap option_map].
    by destruct (Hf d eq_refl) as (_ & ? & _).
  - assert (keeps_free w (with_object i f w)) as Hfree by (apply free_object; intros d Hd; by apply Hf).
    intros j e He. destruct (decide (j = i)) as [->|Hne].
    + exists (f e). rewrite object_at, He. split; [done|]. destruct (Hf e He) as (_ & ? & ?). by apply sealed_on_free.
    + exists e. rewrite object_else by done. split; [done|by apply sealed_on_free].
Qed.
Lemma clock_silent w r w1 : world_ok w -> outside (bp_monotonic ports) w = (r, w1) -> (exists now, r = Ok now) /\ silent w w1 /\ objects w1 = objects w.
Proof using Hchat.
  intros Hok H. destruct (bp_monotonic ports (ch_outside w)) as [r1 c] eqn:E. rewrite (outside_run _ _ _ _ E) in H. injection H as <- <-.
  destruct (co_clock Hchat _ _ _ E) as (Hr & Hsh & Hup). split; [done|]. split; [|done]. split; try done; [|by apply seals_same].
  destruct Hok as [H1 H2 H3 H4]. split; [|exact H2|exact H3|exact H4]. unfold visible in *. cbn. by rewrite Hsh.
Qed.
Lemma due_silent who i d now w r w' :
  objects w !! i = Some d -> world_ok w -> writer who i -> calm who w -> flush_when_due who i now w = (r, w') ->
  silent w w' /\ match r with Ok _ => True | Err e => is_telegram e = true end.
Proof using Hchat.
  intros Hd Hok Hwho Hcalm H. unfold flush_when_due in H. rewrite (bind_Ok _ _ _ _ _ (the_draft_run _ _ _ Hd)) in H.
  destruct (dr_pending_since d); [|injection H as <- <-; by split; [apply silent_refl|]].
  destruct (SpecFloat.SFleb _ _).
  - unfold bind in H. rewrite on_draft_run in H. set (w1 := with_object i (with_pending None) w) in H.
    assert (H1 : silent w w1) by by apply silent_object.
    assert (Hd1 : objects w1 !! i = Some (with_pending None d)) by (unfold w1; by rewrite object_at, Hd).
    assert (Hcalm1 : calm who w1).
    { destruct Hwho as [->| ->]; [done|]. unfold calm, cancelled_timer in *. change (br_objects (ch_bridge w1)) with (objects w1). rewrite Hd1.
      change (br_objects (ch_bridge w)) with (objects w) in Hcalm. by rewrite Hd in Hcalm. }
    destruct (flush_spec _ _ _ _ _ _ Hd1 (si_ok _ _ H1) Hwho Hcalm1 H) as (d2 & H2 & G2 & _ & Hr). split; [|by destruct r].
    eapply silent_trans; [exact H1|by eapply silent_touches].
  - destruct (dr_flush_timer d); try (injection H as <- <-; by split; [apply silent_refl|]);
      rewrite on_draft_run in H; injection H as <- <-; by split; [apply silent_object|].
Qed.
Lemma throttled_silent i d w r w' :
  objects w !! i = Some d -> world_ok w -> flush_throttled i w = (r, w') ->
  silent w w' /\ match r with Ok _ => True | Err e => is_telegram e = true end.
Proof using Hchat.
  intros Hd Hok H. unfold flush_throttled, bind in H. destruct (outside _ w) as [r1 w1] eqn:E1.
  apply clock_silent in E1 as ([now ->] & H1 & Hobj); [|done]. rewrite on_draft_run in H. set (f := fun d : Draft => _) in H. set (w2 := with_object i f w1) in H.
  assert (Hd2 : objects w2 !! i = Some (f d)) by (unfold w2; by rewrite object_at, Hobj, Hd).
  assert (H2 : silent w1 w2).
  { apply silent_object; [apply H1|]. intros d1 _. unfold f. by destruct (dr_pending_since d1). }
  destruct (due_silent None i (f d) now w2 r w' Hd2 (si_ok _ _ H2) (or_introl eq_refl) eq_refl H) as [H3 Hr]. split; [|done].
  eapply silent_trans; [exact H1|]. by eapply silent_trans.
Qed.
(** A timer says nothing, and nothing of it gets out. *)
Lemma timer_silent i w r w' : world_ok w -> timer_fires i w = (r, w') -> r = Ok tt /\ silent w w'.
Proof using Hchat.
  intros Hok H. unfold timer_fires in H. destruct (objects w !! i) as [d|] eqn:Hd.
  2: { unfold bind at 1, the_draft, bridge, gets in H. change (br_objects (ch_bridge w)) with (objects w) in H. rewrite Hd in H. cbn in H.
       injection H as <- <-. split; [done|by apply silent_refl]. }
  rewrite (bind_Ok _ _ _ _ _ (the_draft_run _ _ _ Hd)) in H.
  destruct (dr_flush_timer d); try (injection H as <- <-; split; [done|by apply silent_refl]).
  unfold bind at 1 in H. rewrite on_draft_run in H. set (w1 := with_object i _ w) in H. assert (H1 : silent w w1) by by apply silent_object.
  assert (Hd1 : objects w1 !! i = Some (with_timer Firing d)) by (unfold w1; by rewrite object_at, Hd).
  unfold bind at 1 in H. unfold try_except at 1 in H.
  match type of H with context[match ?call w1 with _ => _ end] => destruct (call w1) as [r2 w2] eqn:E2 end.
  assert (H2 : silent w1 w2).
  { unfold bind in E2. destruct (outside _ w1) as [r3 w3] eqn:E3. apply clock_silent in E3 as ([now ->] & H3 & Hobj); [|apply H1].
    unfold try_except in E2. destruct (flush_when_due (Some i) i now w3) as [r4 w4] eqn:E4.
    apply due_silent with (d := with_timer Firing d) in E4 as [H4 Hr4]; [|by rewrite Hobj|apply H3|by right|].
    2: { unfold calm, cancelled_timer. change (br_objects (ch_bridge w3)) with (objects w3). by rewrite Hobj, Hd1. }
    destruct r4 as [[]|e]; [|rewrite Hr4 in E2]; injection E2 as <- <-; by eapply silent_trans. }
  assert (H12 : silent w w2) by by eapply silent_trans.
  assert (Hend : forall w', on_draft i (fun d => match dr_flush_timer d with Firing => with_timer Fired d | _ => d end) w2 = (r, w') -> r = Ok tt /\ silent w w').
  { intros w3 H3. rewrite on_draft_run in H3. injection H3 as <- <-. split; [done|]. eapply silent_trans; [exact H12|]. apply silent_object; [apply H12|].
    intros d' _. by destruct (dr_flush_timer d'). }
  destruct r2 as [[]|e]; by apply Hend.
Qed.

(** ** What an event says *)

(** The reference: what a draft holds after an event of its exchange. *)
Definition terminal (event : LoopEvent) : bool := match event with Finished _ _ _ | Cancelled | Failed _ => true | _ => false end.
Definition speak (event : LoopEvent) (said : pystr * list StatusEntry) : pystr * list StatusEntry :=
  match event with
  | TextDelta text => (said.1 +s+ text, said.2)
  | ReasoningDelta => (said.1, count_status THINKING_LABEL said.2)
  | ToolCallRequested call => (said.1, count_status (tool_group (tc_name call)) said.2)
  | event =>
      match terminal_line event, notice_line event with
      | Some line, _ => (append_line said.1 line, said.2)
      | None, Some line => (said.1, {| se_label := line; se_count := 1; se_counted := false |} :: said.2)
      | None, None => said
      end
  end.
Definition hear (event : LoopEvent) (exchange_id : option pystr) (said : option pystr -> pystr * list StatusEntry) (other : option pystr) :=
  if decide (other = exchange_id) then if terminal event then ("" : pystr, []) else speak event (said other) else said other.

Lemma world_ok_same w w' :
  objects w' = objects w -> visible w' = visible w ->
  (forall exchange_id i, dict_get exchange_id (drafts w') = Some i -> dict_get exchange_id (drafts w) = Some i) -> world_ok w -> world_ok w'.
Proof using Type. intros E1 E2 H3 [W1 W2 W3 W4]. split; rewrite ?E1, ?E2; [exact W1|exact W2|exact W3|]. intros ex i Hi. apply W4. by apply H3. Qed.
Lemma told exchange_id i f w :
  world_ok w -> dict_get exchange_id (drafts w) = Some i -> (forall d, objects w !! i = Some d -> keeps_message d (f d)) ->
  world_ok (with_object i f w) /\
  forall other, text_of (with_object i f w) other =
    if decide (other = exchange_id) then match objects w !! i with Some d => (dr_buffer (f d), dr_status (f d)) | None => ("" : pystr, []) end else text_of w other.
Proof using Type.
  intros Hok Hi Hf. split; [by apply with_object_ok|]. intros other. unfold text_of. change (drafts (with_object i f w)) with (drafts w).
  case_decide as Hother; [subst other; rewrite Hi; cbn [mbind option_bind]; rewrite object_at; by destruct (objects w !! i)|].
  destruct (dict_get other (drafts w)) as [j|] eqn:Hj; [|done]. cbn [mbind option_bind]. rewrite object_else; [done|]. intros ->.
  destruct (wo_places w Hok other i Hj) as (d & Hd & Hex), (wo_places w Hok exchange_id i Hi) as (d' & Hd' & Hex'). congruence.
Qed.
(** The sealed pieces of the drafts on file. *)
Definition heads_ok (H : option pystr -> nat -> pystr -> Prop) (w : Chat R C) : Prop :=
  forall ex i d, dict_get ex (drafts w) = Some i -> objects w !! i = Some d -> heads w d (H ex).
Definition keeps_heads (w w' : Chat R C) : Prop :=
  forall k e, objects w !! k = Some e -> exists e', objects w' !! k = Some e' /\ dr_sealed_chunks e' = dr_sealed_chunks e /\
    forall P, heads w e P -> heads w' e' P.
Lemma keeps_heads_ok H w w' :
  world_ok w -> (forall ex i, dict_get ex (drafts w') = Some i -> dict_get ex (drafts w) = Some i) ->
  keeps_heads w w' -> heads_ok H w -> heads_ok H w'.
Proof using Type.
  intros Hok Hdrafts Hk Hh ex i d' Hi%Hdrafts Hd'. destruct (wo_places w Hok ex i Hi) as (d & Hd & _).
  destruct (Hk i d Hd) as (e & He & _ & Hkeep). rewrite Hd' in He. injection He as <-. apply Hkeep. by apply (Hh ex i).
Qed.
Lemma text_of_filed w ex i d : dict_get ex (drafts w) = Some i -> objects w !! i = Some d -> text_of w ex = words d.
Proof using Type. intros Hi Hd. unfold text_of. rewrite Hi. cbn [mbind option_bind]. by rewrite Hd. Qed.
Lemma silent_heads_ok H w w' :
  silent w w' -> world_ok w -> (forall ex j t, piece_of (text_of w ex) j t -> H ex j t) -> heads_ok H w -> heads_ok H w'.
Proof using Type.
  intros Hs Hok HP Hh ex i d' Hi Hd'. rewrite (si_drafts _ _ Hs) in Hi. destruct (wo_places w Hok ex i Hi) as (d & Hd & _).
  destruct (si_seals _ _ Hs i d Hd) as (e & He & Hg). rewrite Hd' in He. injection He as <-. apply (gr_heads _ _ _ _ Hg).
  - intros j t _. rewrite <-(text_of_filed w ex i d) by done. apply HP.
  - by apply (Hh ex i).
Qed.
Lemma keeps_heads_trans w1 w2 w3 : keeps_heads w1 w2 -> keeps_heads w2 w3 -> keeps_heads w1 w3.
Proof using Type.
  intros H1 H2 k e He. destruct (H1 k e He) as (e2 & He2 & Hs2 & Hk2). destruct (H2 k e2 He2) as (e3 & He3 & Hs3 & Hk3).
  exists e3. split_and!; [done|congruence|auto].
Qed.
Lemma keeps_heads_same w w' : objects w' = objects w -> visible w' = visible w -> keeps_heads w w'.
Proof using Type.
  intros E1 E2 k e He. exists e. rewrite E1. split_and!; [done|done|]. intros P. apply heads_free; [|done]. intros m t. unfold unowned. by rewrite E1, E2.
Qed.
Lemma keeps_heads_object i f w :
  (forall d, objects w !! i = Some d -> keeps_message d (f d) /\ dr_sealed_chunks (f d) = dr_sealed_chunks d) -> keeps_heads w (with_object i f w).
Proof using Type.
  intros Hf k e He. assert (keeps_free w (with_object i f w)) as Hfree by (apply free_object; intros d Hd; by apply Hf).
  destruct (decide (k = i)) as [->|Hne].
  - exists (f e). rewrite object_at, He. destruct (Hf e He) as [_ Hs]. split_and!; [done|done|]. intros P. by apply heads_free.
  - exists e. rewrite object_else by done. split_and!; [done|done|]. intros P. by apply heads_free.
Qed.
Lemma draft_of_spec exchange_id w :
  world_ok w -> exists i d w', draft_of exchange_id w = (Ok i, w') /\ world_ok w' /\ dict_get exchange_id (drafts w') = Some i /\
    objects w' !! i = Some d /\ (forall other, text_of w' other = text_of w other) /\ ch_outside w' = ch_outside w /\
    forall H, heads_ok H w -> heads_ok H w'.
Proof using Type.
  intros Hok. unfold draft_of. rewrite (bind_Ok _ _ w (dict_get exchange_id (drafts w)) w) by done. destruct (dict_get exchange_id (drafts w)) as [i|] eqn:Hi.
  - destruct (wo_places w Hok exchange_id i Hi) as (d & Hd & _). by exists i, d, w.
  - rewrite (bind_Ok _ _ w (length (objects w)) w) by done. set (i := length (objects w)).
    set (w' := {| ch_bridge := set_drafts (dict_set exchange_id i (drafts w)) (objects w ++ [new_draft exchange_id]) (ch_bridge w);
                  ch_outside := ch_outside w; ch_tick := ch_tick w |}).
    assert (Hget : forall j d, objects w' !! j = Some d -> (objects w !! j = Some d) \/ (j = i /\ d = new_draft exchange_id)).
    { intros j d Hj. apply lookup_app_Some in Hj as [Hj|[Hge Hj]]; [by left|right]. fold i in Hge, Hj. apply list_lookup_singleton_Some in Hj as [Hz ->]. split; [lia|done]. }
    assert (Hkeep : forall j d, objects w !! j = Some d -> objects w' !! j = Some d) by (intros j d Hj; by apply lookup_app_l_Some).
    exists i, (new_draft exchange_id), w'. split_and!; [done| | |by apply list_lookup_middle| |done|].
    + split.
      * intros j d m Hj Hm. destruct (Hget j d Hj) as [Hj'|[_ ->]]; [by apply (wo_shown w Hok j)|done].
      * intros j d Hj Hm. destruct (Hget j d Hj) as [Hj'|[_ ->]]; [by apply (wo_none w Hok j)|done].
      * intros j k d d' m Hj Hk Hm Hm'. destruct (Hget j d Hj) as [Hj'|[_ ->]]; [|done]. destruct (Hget k d' Hk) as [Hk'|[_ ->]]; [|done].
        by apply (wo_owner w Hok j k d d' m).
      * intros ex j Hp. change (dict_get ex (dict_set exchange_id i (drafts w)) = Some j) in Hp. rewrite dict_get_set in Hp. case_decide as Hex.
        -- injection Hp as <-. exists (new_draft exchange_id). split; [by apply list_lookup_middle|by subst].
        -- destruct (wo_places w Hok ex j Hp) as (d & Hd & Hexd). exists d. split; [by apply Hkeep|done].
    + change (dict_get exchange_id (dict_set exchange_id i (drafts w)) = Some i). rewrite dict_get_set. by rewrite decide_True.
    + intros other. unfold text_of. change (drafts w') with (dict_set exchange_id i (drafts w)). rewrite dict_get_set. case_decide as Hex.
      * subst other. rewrite Hi. cbn [mbind option_bind]. unfold w', objects. cbn. by rewrite list_lookup_middle.
      * destruct (dict_get other (drafts w)) as [j|] eqn:Hj; [|done]. destruct (wo_places w Hok other j Hj) as (d & Hd & _). cbn [mbind option_bind].
        by rewrite Hd, (Hkeep j d Hd).
    + intros HH Hh ex j d Hj Hd. change (dict_get ex (dict_set exchange_id i (drafts w)) = Some j) in Hj. rewrite dict_get_set in Hj. case_decide as Hex.
      * injection Hj as <-. destruct (Hget i d Hd) as [Hd'|[_ ->]]; [apply lookup_lt_Some in Hd'; unfold i in Hd'; lia|].
        exists []. split_and!; [done|constructor|done].
      * destruct (wo_places w Hok ex j Hj) as (d0 & Hd0 & _). rewrite (Hkeep j d0 Hd0) in Hd. injection Hd as <-.
        apply (heads_free w w' d0 d0); [|done|by apply (Hh ex j)]. intros m t Hu Ht. split; [|done].
        intros k e He. destruct (Hget k e He) as [He'|[_ ->]]; [by apply (Hu k)|done].
Qed.
Lemma forget_silent key w r w' :
  world_ok w -> forget_draft ports alone key w = (r, w') -> r = Ok tt /\ ch_bridge w' = ch_bridge w /\ visible w' = visible w /\ (up (ch_outside w) -> up (ch_outside w')).
Proof using Hchat.
  intros Hok H. unfold forget_draft in H. destruct (bp_drafts ports) as [store|] eqn:Hs, key as [key|]; try (by injection H as <- <-).
  unfold except_exception, try_except in H. destruct (dp_forget store key (ch_outside w)) as [r1 c] eqn:E.
  rewrite (await_run None _ w _ _ eq_refl E) in H. destruct (co_forget Hchat _ _ _ _ _ Hs E) as (He & Hsh & Hup).
  destruct r1 as [[]|e]; [|rewrite He in H by done]; injection H as <- <-; done.
Qed.
(** Two attempts at the last flush. *)
Lemma last_flush_spec i d w r w' :
  objects w !! i = Some d -> world_ok w -> flush_terminal_with_retry ports alone i w = (r, w') ->
  r = Ok tt /\ silent w w' /\
  (up (ch_outside w) -> forall P, (forall j t, dr_sealed_chunks d <= j -> piece_of (words d) j t -> P j t) -> heads w d P -> laid_out P (compose d) w').
Proof using Hchat.
  intros Hd Hok H. unfold flush_terminal_with_retry, try_except in H. destruct (flush_draft None i w) as [r1 w1] eqn:E1.
  destruct (flush_spec None i d w r1 w1 Hd Hok (or_introl eq_refl) eq_refl E1) as (d1 & H1 & G1 & Hup1 & Hr1).
  pose proof (silent_touches _ _ _ _ _ H1 G1) as Hs1. destruct r1 as [[]|e].
  { injection H as <- <-. split_and!; [done|done|]. intros _ P HP Hh. destruct Hr1 as [Hempty|(m & t & Hm & Hv & Hlast & Hle)]; [by left|].
    destruct (G1 i d Hd) as (d1' & Hd1' & Hg). rewrite (to_after _ _ _ _ _ H1) in Hd1'. injection Hd1' as <-.
    apply flushed_laid_out with (i := i) (d' := d1) (t := t) (m := m); [by apply Hg|apply H1|done..]. }
  rewrite Hr1 in H. unfold bind in H. destruct (bp_sleep ports TERMINAL_FLUSH_RETRY_DELAY_SECONDS (ch_outside w1)) as [r2 c] eqn:E2.
  rewrite (await_run None _ w1 _ _ eq_refl E2) in H. destruct (co_sleep Hchat _ _ _ _ E2) as (-> & Hsh & Hup).
  set (w2 := moved c _ w1) in H. assert (H2 : touches i d1 d1 w1 w2) by (apply moved_touches; [apply H1|apply H1|done|done]).
  pose proof (seals_touched _ _ _ _ _ H2 eq_refl) as G2. destruct (flush_draft None i w2) as [r3 w3] eqn:E3.
  destruct (flush_spec None i d1 w2 r3 w3 (to_after _ _ _ _ _ H2) (to_ok _ _ _ _ _ H2) (or_introl eq_refl) eq_refl E3) as (d3 & H3 & G3 & _ & Hr3).
  assert (silent w w3) by (eapply silent_trans; [exact Hs1|]; eapply silent_trans; by eapply silent_touches).
  assert (forall P : Prop, up (ch_outside w) -> P) as Hdown by (intros P Hu; specialize (Hup1 Hu); done).
  destruct r3 as [[]|e3]; [|rewrite Hr3 in H]; injection H as <- <-; (split_and!; [done|done|intros Hu; by apply Hdown]).
Qed.
(** The last words are added, and the rest is called off. *)
Lemma last_words event exchange_id i d w :
  terminal event = true -> world_ok w -> dict_get exchange_id (drafts w) = Some i -> objects w !! i = Some d ->
  exists d' w', (forall A (k : M (Chat R C) Exn A), (typing_off exchange_id ;;; on_draft i (with_pending None) ;;; cancel_flush_timer i ;;;
      match terminal_line event with Some line => on_draft i (fun d => with_text (append_line (dr_buffer d) line) (dr_status d) d) | None => ret tt end ;;; k) w = k w') /\
    world_ok w' /\ drafts w' = drafts w /\ ~ (exchange_id ∈ br_typing (ch_bridge w')) /\ ch_outside w' = ch_outside w /\ objects w' !! i = Some d' /\
    dr_sealed_chunks d' = dr_sealed_chunks d /\ (dr_buffer d', dr_status d') = speak event (dr_buffer d, dr_status d) /\
    (forall other, other <> exchange_id -> text_of w' other = text_of w other) /\ keeps_heads w w'.
Proof using Hchat.
  intros Hterminal Hok Hi Hd.
  set (w0 := {| ch_bridge := set_typing (br_typing (ch_bridge w) ∖ {[exchange_id]})
                  (br_pulse (ch_bridge w) && negb (bool_decide (br_typing (ch_bridge w) ∖ {[exchange_id]} = ∅))) (ch_bridge w);
                ch_outside := ch_outside w; ch_tick := ch_tick w |}).
  set (w1 := with_object i (with_timer NoTimer) (with_object i (with_pending None) w0)).
  set (d1 := with_timer NoTimer (with_pending None d)).
  assert (H0 : world_ok w0) by by apply (world_ok_same w).
  assert (H1 : silent w0 w1).
  { eapply silent_trans; [|apply silent_object; [|done]]; apply silent_object; done. }
  assert (Hd1 : objects w1 !! i = Some d1) by (unfold w1; rewrite !object_at; change (objects w0) with (objects w); by rewrite Hd).
  assert (Hoff : exchange_id ∉ br_typing (ch_bridge w0)) by (cbn; set_solver).
  assert (K1 : keeps_heads w w1).
  { eapply keeps_heads_trans; [by apply (keeps_heads_same w w0)|]. eapply keeps_heads_trans; by apply keeps_heads_object. }
  destruct (terminal_line event) as [line|] eqn:Hline.
  - set (f := fun d : Draft => with_text (append_line (dr_buffer d) line) (dr_status d) d). destruct (told exchange_id i f w1 (si_ok _ _ H1)) as [H2 Htext]; [by rewrite (si_drafts _ _ H1)|done|].
    exists (f d1), (with_object i f w1). split_and!; try done; [by rewrite object_at, Hd1|by destruct event; cbn in Hline; simplify_eq/=| |].
    + intros other Hne. rewrite Htext, decide_False by done. apply (si_text _ _ H1).
    + eapply keeps_heads_trans; [exact K1|by apply keeps_heads_object].
  - exists d1, w1. split_and!; try done; [apply H1|by destruct event|]. intros other _. apply (si_text _ _ H1).
Qed.
Lemma terminal_spec event exchange_id i d w r w' :
  terminal event = true -> world_ok w -> dict_get exchange_id (drafts w) = Some i -> objects w !! i = Some d ->
  render_terminal event exchange_id i w = (r, w') ->
  r = Ok tt /\ world_ok w' /\ dict_get exchange_id (drafts w') = None /\ ~ (exchange_id ∈ br_typing (ch_bridge w')) /\
  (forall other, text_of w' other = if decide (other = exchange_id) then ("" : pystr, []) else text_of w other) /\
  (forall H, heads_ok H w -> (forall other j t, other <> exchange_id -> piece_of (text_of w other) j t -> H other j t) -> heads_ok H w') /\
  (up (ch_outside w) -> let said := speak event (words d) in forall P,
     (forall j t, dr_sealed_chunks d <= j -> piece_of said j t -> P j t) -> heads w d P -> laid_out P (compose_parts said.1 said.2) w').
Proof using Hchat.
  intros Hterminal Hok Hi Hd H.
  destruct (last_words event exchange_id i d w Hterminal Hok Hi Hd) as (d2 & w2 & Hrun & Hok2 & Hdrafts2 & Hoff2 & Hout2 & Hd2 & Hsealed2 & Hsaid2 & Htext2 & K2).
  unfold render_terminal in H. rewrite Hrun in H. unfold bind at 1, try_except in H.
  destruct (flush_terminal_with_retry ports alone i w2) as [r3 w3] eqn:E3. apply last_flush_spec with (d := d2) in E3 as (-> & H3 & Hshown3); [|exact Hd2|exact Hok2].
  unfold drop_draft, bind, change, modify in H. set (w4 := {| ch_bridge := _; ch_outside := ch_outside w3; ch_tick := ch_tick w3 |}) in H.
  assert (Hd4 : forall other, dict_get other (drafts w4) = if decide (other = exchange_id) then None else dict_get other (drafts w3)).
  { intros other. change (drafts w4) with (dict_pop exchange_id (drafts w3)). rewrite dict_get_pop. by repeat case_decide; subst. }
  assert (H4 : world_ok w4).
  { apply (world_ok_same w3); [done|done| |apply H3]. intros ex j. rewrite Hd4. by case_decide. }
  destruct (forget_silent exchange_id w4 r w' H4 H) as (-> & Hbridge & Hvisible & _).
  assert (Hdrafts : drafts w' = drafts w4) by (unfold drafts; by rewrite Hbridge).
  assert (Hobjects : objects w' = objects w3) by (unfold objects; by rewrite Hbridge). split_and!.
  - done.
  - apply (world_ok_same w4); [done|done| |done]. intros ex j. by rewrite Hdrafts.
  - by rewrite Hdrafts, Hd4, decide_True.
  - rewrite Hbridge. change (br_typing (ch_bridge w4)) with (br_typing (ch_bridge w3)). by rewrite (si_typing _ _ H3).
  - intros other. transitivity (if decide (other = exchange_id) then ("" : pystr, []) else text_of w3 other).
    + unfold text_of. rewrite Hdrafts, Hd4, Hobjects. by case_decide.
    + case_decide as Hex; [done|]. by rewrite (si_text _ _ H3), Htext2.
  - intros HH Hh HP. set (H' := fun other j t => other <> exchange_id -> HH other j t).
    assert (heads_ok H' w3) as Hh3.
    { apply (silent_heads_ok H' w2); [done|done| |].
      - intros other j t Hpiece Hne. apply HP; [done|]. by rewrite <-Htext2.
      - apply (keeps_heads_ok H' w); [done|by rewrite Hdrafts2|done|]. intros ex j e Hj He. eapply heads_impl; [|by apply (Hh ex j)].
        intros k t _ HHk Hne. exact HHk. }
    intros ex j e Hj He. rewrite Hdrafts, Hd4 in Hj. case_decide as Hex; [done|]. rewrite Hobjects in He.
    eapply heads_impl; [intros k t _ HHk; exact (HHk Hex)|]. destruct (keeps_heads_same w3 w' Hobjects Hvisible j e He) as (e' & He' & _ & Hk).
    rewrite Hobjects, He in He'. injection He' as <-. apply Hk. by apply (Hh3 ex j).
  - intros Hup said P HP Hh. destruct (K2 i d Hd) as (d2' & Hd2' & _ & Hk). rewrite Hd2 in Hd2'. injection Hd2' as <-.
    assert (laid_out P (compose d2) w3) as Hlaid.
    { apply Hshown3; [by rewrite Hout2| |by apply Hk]. intros j t. rewrite Hsealed2. intros Hj Hpiece. apply HP; [done|].
      unfold said, words. rewrite <-Hsaid2. done. }
    unfold said, words. rewrite <-Hsaid2. change (compose_parts (dr_buffer d2) (dr_status d2)) with (compose d2).
    unfold laid_out in *. by rewrite Hvisible.
Qed.
Lemma heads_ok_impl (H H' : option pystr -> nat -> pystr -> Prop) w :
  (forall ex j t, H ex j t -> H' ex j t) -> heads_ok H w -> heads_ok H' w.
Proof using Type. intros HH Hh ex i d Hi Hd. eapply heads_impl; [|by apply (Hh ex i)]. auto. Qed.
Lemma object_heads_ok H i f w :
  world_ok w -> (forall d, objects w !! i = Some d -> keeps_message d (f d) /\ dr_sealed_chunks (f d) = dr_sealed_chunks d) ->
  heads_ok H w -> heads_ok H (with_object i f w).
Proof using Type. intros Hok Hf. apply keeps_heads_ok; [done|done|by apply keeps_heads_object]. Qed.
Lemma started_silent source i d exchange_id w r w' :
  objects w !! i = Some d -> world_ok w ->
  (match dr_message_id d with
   | None => let! target := reply_target isdigit to_int source in on_draft i (with_reply target)
   | Some _ => ret tt
   end ;;; typing_on exchange_id) w = (r, w') ->
  world_ok w' /\ (forall other, text_of w' other = text_of w other) /\ forall H, heads_ok H w -> heads_ok H w'.
Proof using Hchat.
  intros Hd Hok H.
  assert (Htyping : forall w1 r w', typing_on exchange_id w1 = (r, w') -> world_ok w1 ->
    world_ok w' /\ (forall other, text_of w' other = text_of w1 other) /\ forall H, heads_ok H w1 -> heads_ok H w').
  { intros w1 r1 w2 E Hok1. injection E as <- <-. split_and!; [by apply (world_ok_same w1)|done|].
    intros HH. apply keeps_heads_ok; [done|done|by apply keeps_heads_same]. }
  unfold bind at 1 in H. destruct (dr_message_id d) eqn:Hm; [by apply (Htyping w r)|].
  assert (Hpure : exists res, reply_target isdigit to_int source w = (res, w)).
  { unfold reply_target. destruct source as [key|]; [|by eexists]. destruct (isdigit key); [|by eexists]. destruct (to_int key); by eexists. }
  unfold bind at 1 in H. destruct Hpure as [[target|e] Hpure]; rewrite Hpure in H; [|by injection H as <- <-].
  rewrite on_draft_run in H. assert (H1 : silent w (with_object i (with_reply target) w)) by by apply silent_object.
  destruct (Htyping _ _ _ H (si_ok _ _ H1)) as (H2 & H3 & H4). split_and!; [done| |].
  - intros other. rewrite H3. apply (si_text _ _ H1).
  - intros HH Hh. apply H4. by apply object_heads_ok.
Qed.
(** Rendering an event adds what it says to the text of its exchange. *)
Record rendered (event : LoopEvent) (exchange_id : option pystr) (w : Chat R C) (r : Res Exn unit) (w' : Chat R C) : Prop := {
  rd_ok : world_ok w';
  rd_text other : text_of w' other = hear event exchange_id (text_of w) other;
  rd_heads (H H' : option pystr -> nat -> pystr -> Prop) :
    heads_ok H w -> (forall other j t, (terminal event = true -> other <> exchange_id) -> H other j t -> H' other j t) ->
    (forall other j t, piece_of (hear event exchange_id (text_of w) other) j t -> H' other j t) -> heads_ok H' w';
  rd_end : terminal event = true ->
    r = Ok tt /\ dict_get exchange_id (drafts w') = None /\ ~ (exchange_id ∈ br_typing (ch_bridge w')) /\
    (up (ch_outside w) -> let said := speak event (text_of w exchange_id) in forall H, heads_ok H w ->
       exists from, laid_out (fun j t => j < from /\ H exchange_id j t \/ from <= j /\ piece_of said j t) (compose_parts said.1 said.2) w') }.
Lemma terminal_rendered event exchange_id i d w w1 r w' :
  terminal event = true -> world_ok w1 -> dict_get exchange_id (drafts w1) = Some i -> objects w1 !! i = Some d ->
  (forall other, text_of w1 other = text_of w other) -> (forall H, heads_ok H w -> heads_ok H w1) -> ch_outside w1 = ch_outside w ->
  render_terminal event exchange_id i w1 = (r, w') -> rendered event exchange_id w r w'.
Proof using Hchat.
  intros Ht H1 Hi Hd Htext1 Hheads1 Hout1 H.
  destruct (terminal_spec event exchange_id i d w1 r w' Ht H1 Hi Hd H) as (-> & H2 & Hgone & Hoff & Htext2 & Hheads2 & Hlaid). split.
  - done.
  - intros other. rewrite Htext2. unfold hear. rewrite Ht. case_decide; [done|apply Htext1].
  - intros HH HH' Hh Hmono HP. set (H3 := fun other j t => other <> exchange_id -> HH' other j t).
    assert (heads_ok H3 w') as Hh3.
    { apply Hheads2.
      - apply (heads_ok_impl HH); [|by apply Hheads1]. intros ex j t HHt Hex. by apply Hmono.
      - intros other j t Hne Hpiece _. apply HP. unfold hear. rewrite decide_False by done. by rewrite <-Htext1. }
    intros ex j e Hj He. apply (heads_impl w' e (H3 ex)); [|by apply (Hh3 ex j)]. intros k t _ Hk. apply Hk. intros ->. congruence.
  - intros _. split_and!; [done|done|done|]. intros Hup said HH Hh. exists (dr_sealed_chunks d). rewrite Hout1 in Hlaid. unfold said.
    rewrite <-Htext1, (text_of_filed w1 exchange_id i d Hi Hd). apply (Hlaid Hup).
    + intros j t Hj Hpiece. by right.
    + eapply heads_impl; [|by apply (Hheads1 HH Hh exchange_id i)]. intros j t Hj HHt. by left.
Qed.
Lemma said_rendered event exchange_id i f d w w1 r w' :
  terminal event = false -> world_ok w1 -> dict_get exchange_id (drafts w1) = Some i -> objects w1 !! i = Some d ->
  (forall other, text_of w1 other = text_of w other) -> (forall H, heads_ok H w -> heads_ok H w1) ->
  (forall d, keeps_message d (f d) /\ dr_sealed_chunks (f d) = dr_sealed_chunks d) -> words (f d) = speak event (words d) ->
  (on_draft i f ;;; flush_throttled i) w1 = (r, w') -> rendered event exchange_id w r w'.
Proof using Hchat.
  intros Ht H1 Hi Hd Htext1 Hheads1 Hf Hspeak H. unfold bind in H. rewrite on_draft_run in H.
  destruct (told exchange_id i f w1 H1 Hi) as [H2 Htext2]; [intros d1 _; by apply Hf|].
  assert (Hhear : forall other, text_of (with_object i f w1) other = hear event exchange_id (text_of w) other).
  { intros other. rewrite Htext2. unfold hear. rewrite Ht, Hd. case_decide as Hex; [|apply Htext1]. subst other.
    change ((dr_buffer (f d), dr_status (f d))) with (words (f d)). by rewrite Hspeak, <-Htext1, (text_of_filed w1 exchange_id i d Hi Hd). }
  destruct (throttled_silent i (f d) _ _ _ ltac:(by rewrite object_at, Hd) H2 H) as [H3 _]. split.
  - apply H3.
  - intros other. by rewrite (si_text _ _ H3).
  - intros HH HH' Hh Hmono HP. apply (silent_heads_ok HH' (with_object i f w1)); [done|done| |].
    + intros other j t. rewrite Hhear. apply HP.
    + apply object_heads_ok; [done|intros d1 _; apply Hf|]. apply (heads_ok_impl HH); [|by apply Hheads1].
      intros ex j t. apply Hmono. by rewrite Ht.
  - by rewrite Ht.
Qed.
Lemma quiet_rendered event exchange_id w r w' :
  terminal event = false -> (forall said, speak event said = said) -> world_ok w' -> (forall other, text_of w' other = text_of w other) ->
  (forall H, heads_ok H w -> heads_ok H w') -> rendered event exchange_id w r w'.
Proof using Type.
  intros Ht Hspeak Hok Htext Hheads. split; [done| | |by rewrite Ht].
  - intros other. rewrite Htext. unfold hear. rewrite Ht, Hspeak. by case_decide.
  - intros HH HH' Hh Hmono _. apply (heads_ok_impl HH); [|by apply Hheads]. intros ex j t. apply Hmono. by rewrite Ht.
Qed.
Lemma render_spec event exchange_id w r w' :
  world_ok w -> render event exchange_id w = (r, w') -> rendered event exchange_id w r w'.
Proof using Hchat.
  intros Hok H. unfold render in H. destruct (draft_of_spec exchange_id w Hok) as (i & d & w1 & Hrun & H1 & Hi & Hd & Htext1 & Hout1 & Hheads1).
  rewrite (bind_Ok _ _ _ _ _ Hrun) in H.
  destruct event; try (by eapply terminal_rendered); cbn [notice_line] in H;
    try (match type of H with context[flush_throttled] => by eapply said_rendered in H end);
    try (injection H as <- <-; by apply quiet_rendered).
  rewrite (bind_Ok _ _ _ _ _ (the_draft_run _ _ _ Hd)) in H.
  destruct (started_silent source_client_message_id i d exchange_id w1 r w' Hd H1 H) as (H2 & Htext2 & Hheads2).
  apply quiet_rendered; [done|done|done|intros other; by rewrite Htext2|auto].
Qed.

(** ** Answers reach the chat *)

(** What the bridge meets, one after the other: an event to render, a timer
    whose sleep is over. *)
Inductive Happening :=
| Rendered (event : LoopEvent) (exchange_id : option pystr)
| Woken (draft : nat).
Definition happens (w : Chat R C) (h : Happening) : Chat R C :=
  match h with
  | Rendered event exchange_id => (render_safely event exchange_id w).2
  | Woken i => (timer_fires i w).2
  end.
Definition said (past : list Happening) : option pystr -> pystr * list StatusEntry :=
  foldl (fun said h => match h with Rendered event exchange_id => hear event exchange_id said | Woken _ => said end) (fun _ => ("" : pystr, [])) past.
(** What the answer of an exchange said at some time since the last one ended. *)
Definition ends (exchange_id : option pystr) (h : Happening) : Prop :=
  match h with Rendered event other => terminal event = true /\ other = exchange_id | Woken _ => False end.
Definition once_said (past : list Happening) (exchange_id : option pystr) (text : pystr * list StatusEntry) : Prop :=
  exists before after, past = before ++ after /\ Forall (fun h => ~ ends exchange_id h) after /\ text = said before exchange_id.
Definition once_piece (past : list Happening) (exchange_id : option pystr) (j : nat) (t : pystr) : Prop :=
  exists text, once_said past exchange_id text /\ piece_of text j t.
Lemma once_now past exchange_id j t : piece_of (said past exchange_id) j t -> once_piece past exchange_id j t.
Proof using Type. intros H. eexists. split; [|exact H]. exists past, []. by rewrite app_nil_r. Qed.
Lemma once_later past h exchange_id j t : ~ ends exchange_id h -> once_piece past exchange_id j t -> once_piece (past ++ [h]) exchange_id j t.
Proof using Type.
  intros Hh (text & (before & after & -> & Hafter & ->) & Hp). eexists. split; [|exact Hp].
  exists before, (after ++ [h]). rewrite <-app_assoc. split_and!; [done| |done]. apply Forall_app. split; [done|by repeat constructor].
Qed.
Lemma render_safely_spec event exchange_id w r w' :
  world_ok w -> render_safely event exchange_id w = (r, w') -> rendered event exchange_id w r w'.
Proof using Hchat.
  intros Hok H. unfold render_safely, try_except in H. destruct (render event exchange_id w) as [r1 w1] eqn:E.
  destruct (render_spec event exchange_id w r1 w1 Hok E) as [H1 Htext Hheads Hend].
  assert (w' = w1) as -> by (destruct r1 as [[]|e]; [|destruct (is_telegram e)]; by injection H). split; [done..|].
  intros Ht. destruct (Hend Ht) as (-> & Hrest). by injection H as <-.
Qed.
Lemma said_so_far past c :
  let w := foldl happens {| ch_bridge := new_bridge; ch_outside := c; ch_tick := 0 |} past in
  world_ok w /\ (forall exchange_id, text_of w exchange_id = said past exchange_id) /\ heads_ok (once_piece past) w.
Proof using Hchat.
  induction past as [|h past IH] using rev_ind; [split_and!; [split; done|done|done]|]. cbn zeta in *.
  assert (Hsaid : said (past ++ [h]) = match h with Rendered event exchange_id => hear event exchange_id (said past) | Woken _ => said past end)
    by (unfold said; by rewrite foldl_app).
  rewrite !foldl_app. cbn [foldl]. destruct IH as (Hok & Htext & Hheads). set (w := foldl happens _ past) in *. rewrite Hsaid. destruct h as [event ex|i]; unfold happens.
  - destruct (render_safely event ex w) as [r w'] eqn:E. cbn [snd]. destruct (render_safely_spec event ex w r w' Hok E) as [H1 H2 H3 _]. split_and!; [done| |].
    + intros other. rewrite H2. unfold hear. by rewrite Htext.
    + apply (H3 (once_piece past)); [done| |].
      * intros other j t Hne. apply once_later. intros [? ->]. by apply Hne.
      * intros other j t Hp. apply once_now. rewrite Hsaid. unfold hear in *. by rewrite <-Htext.
  - destruct (timer_fires i w) as [r w'] eqn:E. cbn [snd]. destruct (timer_silent i w r w' Hok E) as [_ H]. split_and!; [apply H| |].
    + intros other. by rewrite (si_text _ _ H).
    + apply (silent_heads_ok _ w); [done|done| |].
      * intros ex j t Hp. apply once_now. rewrite Hsaid. by rewrite <-Htext.
      * eapply heads_ok_impl; [|exact Hheads]. intros ex j t. apply once_later. by intros [].
Qed.

End Shown.

(** ** Starting *)

(** To find the runner of a dialog attaches this surface to it, and to attach
    is to start the bridge that is starting: that start inside the start
    changes nothing, whatever else runs, as long as the flag stays up. *)
Section Starting.
Context {R C : Type} (ports : BridgePorts R C) (others : nat -> Chat R C -> Chat R C).
Definition flag (w : Chat R C) : bool := br_starting (ch_bridge w).
Hypothesis Hothers : forall n w, flag w = true -> flag (others n w) = true.

Lemma adopt_flag (items : list PersistedDraft) (b : Bridge R) : br_starting (foldl (fun b item => adopt item b) b items) = br_starting b.
Proof using Type.
  revert b. induction items as [|item items IH]; intros b; [done|]. cbn [foldl]. rewrite IH. unfold adopt. by destruct (dict_get _ _).
Qed.
Lemma await_flag {A} (call : M C Exn A) w r w' : flag w = true -> await others None call w = (r, w') -> flag w' = true.
Proof using Hothers.
  unfold await. destruct (call (ch_outside w)) as [r1 c]. intros Hflag H. cbn in H. injection H as _ <-. by apply Hothers.
Qed.
Lemma restore_flag w r w' : flag w = true -> restore_drafts ports others w = (r, w') -> flag w' = true.
Proof using Hothers.
  intros Hflag H. unfold restore_drafts in H. destruct (bp_drafts ports) as [store|]; [|by injection H as _ <-].
  unfold bind at 1, except_exception, try_except, bind at 1 in H. destruct (await others None (dp_load store) w) as [[items|e] w1] eqn:E;
    pose proof (await_flag _ _ _ _ Hflag E) as H1.
  - unfold ret, change, modify in H. injection H as _ <-. unfold flag in *. cbn. by rewrite adopt_flag.
  - destruct (is_exception e); by injection H as _ <-.
Qed.
Lemma start_inside provider w : flag w = true -> start ports others provider w = (Ok tt, w).
Proof using Type. intros Hflag. unfold start. rewrite (bind_Ok _ _ w true w); [done|]. unfold bridge, gets. by unfold flag in Hflag; rewrite Hflag. Qed.
Theorem start_once inner (resolve : M (Chat R C) Exn R) w :
  start ports others (start ports others inner ;;; resolve) w = start ports others resolve w.
Proof using Hothers.
  unfold start at 1 3. apply bind_ext. intros starting w1 _. destruct starting; [done|]. apply bind_ext. intros forwarder w2 _.
  assert (Hrest : forall w, flag w = true ->
    (restore_drafts ports others ;;;
     let! runner := ensure_runner (start ports others inner ;;; resolve) in
     let! queue := outside (bp_subscribe ports runner) in
     change (fun b => set_running (br_runner b) (Forwarding runner queue) (br_starting b) b)) w =
    (restore_drafts ports others ;;;
     let! runner := ensure_runner resolve in
     let! queue := outside (bp_subscribe ports runner) in
     change (fun b => set_running (br_runner b) (Forwarding runner queue) (br_starting b) b)) w).
  { intros w3 Hflag. apply bind_ext. intros [] w4 H4. apply restore_flag in H4; [|done]. unfold bind at 1. symmetry. unfold bind at 1. symmetry.
    assert (ensure_runner (start ports others inner ;;; resolve) w4 = ensure_runner resolve w4) as ->; [|done].
    unfold ensure_runner. apply bind_ext. intros [runner|] w5 H5; [done|]. injection H5 as _ <-. unfold bind at 1. symmetry. unfold bind at 1. symmetry.
    rewrite (bind_Ok _ _ _ _ _ (start_inside inner w4 H4)). done. }
  destruct forwarder; try done; (apply bind_ext; intros [] w3 H3; unfold change, modify in H3; injection H3 as <-;
    unfold bind at 1; symmetry; unfold bind at 1; symmetry; unfold try_except; rewrite Hrest by done; done).
Qed.
End Starting.
