(* ===== verification/Samples.v ===== *)
(** * Sample data

    A small dialog to evaluate the model on: one user, an exchange, the run
    that answers it, a router that opens an exchange per message, a loop that
    answers at once.  The theorems are instantiated on it. *)
From S2P Require Import Prelude PyStr Clock Sql Dict Domain UnitOfWork Branch Broadcast Codec TaskStore ExchangeStore MessageStore ClaimStore Compactor Router RunnerText RunnerState.

(** ** Data *)

Definition a_message (role : MessageRole.t) (content : pystr) (exchange : option pystr) : ChatMessage :=
  with_exchange exchange (chat_message role content).
Definition forwarded (content : pystr) (exchange : option pystr) : ChatMessage :=
  {| cm_role := MessageRole.USER; cm_content := content; cm_tool_calls := [];
     cm_tool_call_id := None; cm_task_id := None; cm_kind := MessageKind.MATERIAL;
     cm_attachments := []; cm_id := Some "m-fwd"; cm_exchange_id := exchange |}.
Definition an_exchange (id : pystr) (status : ExchangeStatus.t) (at_ : time) : Exchange :=
  {| ex_id := id; ex_dialog_id := "d"; ex_status := status; ex_title := "weather";
     ex_created_at := at_; ex_updated_at := at_; ex_pending_question := None |}.
Definition a_task (id : pystr) (exchange : option pystr) (at_ : time) : Task :=
  {| tk_id := id; tk_dialog_id := "d"; tk_title := "weather"; tk_kind := TaskKind.ANSWER;
     tk_input := []; tk_exchange_id := exchange; tk_status := TaskStatus.RUNNING; tk_result := None;
     tk_error := None; tk_created_at := at_; tk_started_at := Some at_; tk_finished_at := None;
     tk_delivered_at := None |}.
Definition a_row (id dialog : pystr) (seq : Z) (content : pystr) (client : option pystr) : MessageRow :=
  row_of_message id dialog seq (chat_message MessageRole.USER content) None client 0.
Definition a_dialog : Dialog :=
  {| dlg_id := "d"; dlg_user_id := "u"; dlg_channel := "telegram"; dlg_created_at := 0;
     dlg_updated_at := 0 |}.
Definition a_claim (owner : pystr) (generation : Z) (at_ : time) : DialogClaim :=
  {| cl_dialog_id := "d"; cl_owner := owner; cl_generation := generation; cl_heartbeat_at := at_ |}.

(** ** The actor *)

Definition a_process (id : pystr) (exchange : option pystr) : Process :=
  {| p_id := id; p_title := "weather"; p_task_id := id; p_cancelled := false;
     p_branch := [chat_message MessageRole.SYSTEM "be brief"]; p_narrative_built := true;
     p_synced_len := 1; p_watermark := 1; p_exchange_id := exchange; p_source_message_id := None;
     p_source_client_message_id := None; p_terminal_accepted := false; p_overflow_retried := false;
     p_asked := false; p_origin := UsageOrigin.INTERACTIVE; p_spent_prompt := 0;
     p_spent_completion := 0 |}.

Definition answering : Stream World :=
  Next id (fun _ => Yield (IterationStarted 1)
    (Next id (fun _ => Yield (Finished (chat_message MessageRole.ASSISTANT "sunny") None None)
      (Next id (fun _ => Stop))))).

Definition a_config (limits : option LimitGate) (compactor : ContextCompactor World) : RunnerConfig :=
  {| cfg_loop _ _ := answering; cfg_system_prompt := "be brief";
     cfg_router _ _ _ := ret default_decision; cfg_max_processes := 3;
     cfg_compactor := compactor; cfg_task_outcome_listener := None; cfg_limits := limits;
     cfg_material_quiet := 30; cfg_vision := None; cfg_image_resolver := None;
     cfg_response_memory := true; cfg_sqlite := false; cfg_null_unit := false;
     cfg_exn_name _ := "Exception"; cfg_exn_text _ := ""; cfg_left_first _ := true |}.
Definition plain_config : RunnerConfig := a_config None noop_compactor.

Definition a_runner (narrative : list ChatMessage) (processes : list (pystr * Process)) : Runner :=
  {| r_dialog := a_dialog; r_claim := a_claim "host" 1 0; r_stood_down := false;
     r_preempted := false; r_cancelling := false; r_narrative := narrative;
     r_processes := processes; r_tariff_notes := []; r_pending := []; r_next_key := 0;
     r_cancel_epoch := 0; r_inbox := [];
     r_hub := {| h_seq := 0; h_dropped := 0; h_subscribers := [] |}; r_spawn_lock := false;
     r_assemble_lock := false; r_flush_lock := false |}.

Definition a_db (exchanges : list Exchange) (tasks : list Task) (messages : list MessageRow) : Db :=
  {| d_dialogs := [a_dialog]; d_messages := messages; d_exchanges := exchanges; d_tasks := tasks;
     d_claims := [a_claim "host" 1 0]; d_summaries := [] |}.

Definition a_world (d : Db) (faults : list bool) (r : Runner) : World :=
  {| w_conn := {| committed := d; active := None; faults := faults |}; w_now := seconds 100;
     w_ids := 7; w_tick := 0; w_dropped := []; w_run := r |}.

(** The question "weather?" of exchange x is being answered by the run t. *)
Definition answering_world : World :=
  a_world (a_db [an_exchange "x" ExchangeStatus.IN_PROGRESS 0] [a_task "t" (Some "x") 0]
             [a_row "m1" "d" 1 "weather?" (Some "k1")]) []
    (a_runner [a_message MessageRole.USER "weather?" (Some "x")] [("t" : pystr, a_process "t" (Some "x"))]).

(** ** Nobody else *)

Definition nobody : nat -> World -> World := fun _ s => s.
Lemma nobody_quiet : quiet nobody.
Proof. done. Qed.

(** The stores hold what they must; nothing runs but the actor. *)
Lemma answering_at_rest : at_rest answering_world.
Proof. done. Qed.
Lemma nobody_tame R `{!Reflexive R} k s : R s (nobody k s).
Proof. done. Qed.
