(* ===== verification/AnswerLaws.v ===== *)
(** * Laws of starting runs ([agent/runner.py])

    Runs start under the spawn lock: while it is held nobody else adds one.
    Then at most [max_processes] runs are wanted at a time, and an exchange
    never has two. *)
From S2P Require Import Prelude PyStr Clock Sql Dict Domain UnitOfWork Branch Broadcast Codec TaskStore ExchangeStore MessageStore Compactor Router RunnerText RunnerState Outbox Pump PumpLaws Answers Intake Actor.

Definition processes_of (s : World) : list (pystr * Process) := r_processes (w_run s).
Definition spawn_held (s : World) : bool := r_spawn_lock (w_run s).

(** Runs may end or be cancelled; none starts. *)
Definition shrinks (s s' : World) : Prop :=
  (dict_ok (processes_of s) -> dict_ok (processes_of s')) /\
  forall k p', dict_get k (processes_of s') = Some p' ->
    exists p, dict_get k (processes_of s) = Some p /\ p_exchange_id p' = p_exchange_id p /\
      (p_cancelled p = true -> p_cancelled p' = true).
#[export] Instance shrinks_preorder : PreOrder shrinks.
Proof.
  unfold shrinks. split.
  - intros s. split; [done|]. intros k p Hp. by exists p.
  - intros a b c (Hok & Hp) (Hok' & Hp'). split; [auto|].
    intros k p3 H3. destruct (Hp' k p3 H3) as (p2 & H2 & He & Hcn).
    destruct (Hp k p2 H2) as (p1 & H1 & He1 & Hcn1). exists p1. split_and!; [done|congruence|auto].
Qed.

Lemma same_runs_shrink s s' : processes_of s' = processes_of s -> shrinks s s'.
Proof. intros Hp. unfold shrinks. rewrite Hp. split; [done|]. intros k p H. by exists p. Qed.

(** ** What has to hold of the runs *)

Definition load (s : World) : nat :=
  length (filter (fun kv => p_cancelled kv.2 = false) (processes_of s)).
Definition one_run_each (s : World) : Prop :=
  forall k1 k2 p1 p2 e,
    dict_get k1 (processes_of s) = Some p1 -> dict_get k2 (processes_of s) = Some p2 ->
    p_exchange_id p1 = Some e -> p_exchange_id p2 = Some e -> k1 = k2.
Definition runs_ok (max : Z) (s : World) : Prop :=
  dict_ok (processes_of s) /\ (Z.of_nat (load s) <= max)%Z /\ one_run_each s.

Lemma wanted_keys s k :
  dict_ok (processes_of s) ->
  k ∈ (fst <$> filter (fun kv => p_cancelled kv.2 = false) (processes_of s)) <->
  exists p, dict_get k (processes_of s) = Some p /\ p_cancelled p = false.
Proof.
  intros Hok. rewrite list_elem_of_fmap. split.
  - intros ([k' p] & -> & [Hc Hin]%list_elem_of_filter). exists p. split; [|done].
    by apply dict_elem_get.
  - intros (p & Hp & Hc). exists (k, p). split; [done|]. apply list_elem_of_filter.
    split; [done|]. by apply dict_get_elem.
Qed.

Lemma wanted_nodup s :
  dict_ok (processes_of s) ->
  NoDup (fst <$> filter (fun kv => p_cancelled kv.2 = false) (processes_of s)).
Proof.
  unfold dict_ok, dict_keys. intros Hok.
  eapply sublist_NoDup; [exact Hok|]. apply fmap_sublist, sublist_filter.
Qed.

Lemma load_mono s s' : dict_ok (processes_of s) -> shrinks s s' -> load s' <= load s.
Proof.
  intros Hok (Hok' & Hsub). specialize (Hok' Hok). unfold load.
  rewrite <-(length_fmap fst), <-(length_fmap fst (filter _ (processes_of s))).
  apply submseteq_length, NoDup_submseteq; [by apply wanted_nodup|].
  intros k. rewrite !wanted_keys by done. intros (p' & Hp' & Hc).
  destruct (Hsub k p' Hp') as (p & Hp & _ & Hmono). exists p. split; [done|].
  destruct (p_cancelled p); [|done]. rewrite Hmono in Hc by done. done.
Qed.

Lemma runs_ok_mono max s s' : runs_ok max s -> shrinks s s' -> runs_ok max s'.
Proof.
  intros (Hok & Hload & Hone) HR. pose proof (load_mono s s' Hok HR).
  destruct HR as (Hok' & Hsub). split_and!; [auto|lia|].
  intros k1 k2 p1 p2 e H1 H2 E1 E2. destruct (Hsub _ _ H1) as (q1 & Q1 & X1 & _).
  destruct (Hsub _ _ H2) as (q2 & Q2 & X2 & _).
  apply (Hone k1 k2 q1 q2 e); [done|done|by rewrite <-X1|by rewrite <-X2].
Qed.

(** ** The rely *)

(** What the others do: the invariant is kept, and while the spawn lock is
    held nothing starts. *)
Definition tame (max : Z) (s s' : World) : Prop :=
  (runs_ok max s -> runs_ok max s') /\
  (spawn_held s = true -> spawn_held s' = true /\ shrinks s s').
#[export] Instance tame_preorder max : PreOrder (tame max).
Proof.
  unfold tame. split; [done|]. intros a b c [Kab Lab] [Kbc Lbc]. split; [auto|]. intros Ha.
  destruct (Lab Ha) as [Hb Sab]. destruct (Lbc Hb) as [Hc Sbc]. split; [done|by etrans].
Qed.

Lemma shrinks_tame max s s' : spawn_held s' = spawn_held s -> shrinks s s' -> tame max s s'.
Proof. intros Hl Hs. split; [intros Hok; by eapply runs_ok_mono|]. rewrite Hl. done. Qed.
Lemma same_runs_tame max s s' :
  processes_of s' = processes_of s -> spawn_held s' = spawn_held s -> tame max s s'.
Proof. intros Hp Hl. apply shrinks_tame; [done|]. by apply same_runs_shrink. Qed.

(** Adding one run where there was room for it. *)
Lemma dict_set_filter_length {K V} `{EqDecision K} (P : K * V -> Prop) `{!forall x, Decision (P x)}
    (k : K) (v : V) d :
  length (filter P (dict_set k v d)) <= length (filter P d) + 1.
Proof.
  induction d as [|[k' v'] d IH]; simpl.
  - rewrite filter_cons. case_decide; rewrite filter_nil; simpl; lia.
  - case_decide; rewrite !filter_cons; repeat case_decide; simpl; lia.
Qed.

Lemma runs_ok_add max s s' p :
  runs_ok max s -> (Z.of_nat (load s) + 1 <= max)%Z ->
  match p_exchange_id p with
  | Some e => forall k q, dict_get k (processes_of s) = Some q -> p_exchange_id q <> Some e
  | None => True
  end ->
  processes_of s' = dict_set (p_id p) p (processes_of s) -> runs_ok max s'.
Proof.
  intros (Hok & _ & Hone) Hroom Hnew Hs'. unfold runs_ok, load, one_run_each. rewrite Hs'.
  split_and!; [by apply dict_ok_set| |].
  - pose proof (dict_set_filter_length (fun kv => p_cancelled kv.2 = false) (p_id p) p (processes_of s)).
    unfold load in Hroom. lia.
  - intros k1 k2 p1 p2 e. rewrite !dict_get_set. repeat case_decide; intros; simplify_eq; try done.
    + exfalso. destruct (p_exchange_id p1) as [e'|] eqn:He; [|done]. simplify_eq. by eapply Hnew.
    + exfalso. destruct (p_exchange_id p2) as [e'|] eqn:He; [|done]. simplify_eq. by eapply Hnew.
    + by eapply Hone.
Qed.

(** ** What leaves the runs alone *)

Section StartsNothing.
Context (config : RunnerConfig) (others : nat -> World -> World).

(** The surroundings of the actor: nothing in them starts a run behind the
    spawn lock. *)
Record surroundings : Prop := {
  sur_others k s : tame (cfg_max_processes config) s (others k s);
  sur_assemble dialog history : evolves (tame (cfg_max_processes config)) (cc_assemble (cfg_compactor config) dialog history);
  sur_budget limits user : cfg_limits config = Some limits ->
    evolves (tame (cfg_max_processes config)) (lg_check_run_budget limits user) }.
Context (Hsur : surroundings).

Lemma sn_env : env_allows others (tame (cfg_max_processes config)).
Proof. split; [apply (sur_others Hsur)|..]; intros; by apply same_runs_tame. Qed.

Lemma sn_update f :
  (forall r, r_processes (f r) = r_processes r /\ r_spawn_lock (f r) = r_spawn_lock r) ->
  evolves (tame (cfg_max_processes config)) (update f).
Proof.
  intros Hf s. destruct (Hf (w_run s)) as [Hp Hl]. by apply same_runs_tame.
Qed.

Lemma sn_update_keys f g :
  (forall r, r_processes (f r) = g <$> r_processes r /\ r_spawn_lock (f r) = r_spawn_lock r) ->
  (forall k p, (g (k, p)).1 = k /\ p_exchange_id (g (k, p)).2 = p_exchange_id p /\
     (p_cancelled p = true -> p_cancelled (g (k, p)).2 = true)) ->
  evolves (tame (cfg_max_processes config)) (update f).
Proof.
  intros Hf Hg s. destruct (Hf (w_run s)) as [Hp Hl]. apply shrinks_tame; [exact Hl|].
  unfold shrinks, processes_of. cbn. rewrite Hp. split.
  - assert (dict_keys (g <$> r_processes (w_run s)) = dict_keys (r_processes (w_run s))) as Hk.
    { unfold dict_keys. rewrite <-list_fmap_compose. apply list_fmap_ext. intros i [k p] _. apply (Hg k p). }
    unfold dict_ok. by rewrite Hk.
  - intros k p'. clear Hp Hl Hf. induction (r_processes (w_run s)) as [|[k0 p0] l IH]; [done|].
    cbn. destruct (Hg k0 p0) as (Hk & He & Hc). destruct (g (k0, p0)) as [k1 p1]. cbn in *. subst k1.
    case_decide; [|by apply IH]. intros [= <-]. by exists p0.
Qed.

Lemma sn_modify pid f :
  (forall p, p_exchange_id (f p) = p_exchange_id p /\ (p_cancelled p = true -> p_cancelled (f p) = true)) ->
  evolves (tame (cfg_max_processes config)) (modify_process pid f).
Proof.
  intros Hf s. unfold modify_process, update, modify. cbn.
  destruct (dict_get pid (r_processes (w_run s))) as [p|] eqn:Hp;
    (apply shrinks_tame; [done|]); unfold shrinks, processes_of; cbn.
  - split; [by apply dict_ok_set|]. intros k p'. rewrite dict_get_set. case_decide as Hk.
    + intros [= <-]. subst k. exists p. by split; [|apply Hf].
    + intros H. by exists p'.
  - split; [done|]. intros k p' H. by exists p'.
Qed.

Lemma sn_broadcast event x : evolves (tame (cfg_max_processes config)) (broadcast_event event x).
Proof.
  intros s. unfold broadcast_event.
  match goal with |- context [broadcast ?a ?b ?c ?d] => destruct (broadcast a b c d) end.
  by apply same_runs_tame.
Qed.
Lemma sn_delivery events t x : evolves (tame (cfg_max_processes config)) (new_delivery events t x).
Proof. intros s. by apply same_runs_tame. Qed.

Lemma sn_uow {A} null (body : M World Exn A) :
  evolves (tame (cfg_max_processes config)) body -> evolves (tame (cfg_max_processes config)) (uow null body).
Proof.
  intros Hb s. unfold uow. destruct null; [apply Hb|]. case_match; [done|].
  set (s1 := set_conn _ s). specialize (Hb s1).
  assert (tame (cfg_max_processes config) s s1) as H1 by by apply same_runs_tame.
  destruct (body s1) as [[a|e] s2]; cbn in Hb.
  - destruct (round_trip (conn_of s2)) as [[[]|e] c]; [destruct (active (conn_of s2))|];
      (etransitivity; [exact H1|]; etransitivity; [exact Hb|]; by apply same_runs_tame).
  - etransitivity; [exact H1|]. etransitivity; [exact Hb|]. by apply same_runs_tame.
Qed.

Lemma sn_locked {A} lock (body : M World Exn A) :
  (forall b r, r_processes (lock b r) = r_processes r /\ r_spawn_lock (lock b r) = r_spawn_lock r) ->
  evolves (tame (cfg_max_processes config)) body -> evolves (tame (cfg_max_processes config)) (locked others lock body).
Proof.
  intros Hl Hb. unfold locked.
  pose proof (evolves_yield others _ sn_env) as Hy.
  assert (forall b, evolves (tame (cfg_max_processes config)) (update (lock b))) as Hu by (intros b; apply sn_update, Hl).
  repeat (first [assumption | apply Hu | apply evolves_bind; [exact _| |intros ?] | apply evolves_try; [exact _| |intros ?]
    | apply evolves_ret; exact _ | apply evolves_raise; exact _]).
Qed.
End StartsNothing.

(** Closes [evolves (tame (cfg_max_processes config)) m] for the operations below. *)
Ltac starts_step :=
  match goal with
  | |- evolves _ (bind _ _) => apply evolves_bind; [exact _| |intros ?]
  | |- evolves _ (ret _) => apply evolves_ret; exact _
  | |- evolves _ (raise _) => apply evolves_raise; exact _
  | |- evolves _ (gets _) => apply evolves_gets; exact _
  | |- evolves _ (runner _) => apply evolves_gets; exact _
  | |- evolves _ utc_now => apply evolves_gets; exact _
  | |- evolves _ dialog_id => apply evolves_gets; exact _
  | |- evolves _ fresh_id => eapply evolves_fresh; eapply sn_env; eassumption
  | |- evolves _ (draw_ids _) => eapply evolves_draw; eapply sn_env; eassumption
  | |- evolves _ (yield _) => eapply evolves_yield; [exact _|eapply sn_env; eassumption]
  | |- evolves _ (on_conn _) => eapply evolves_conn; eapply sn_env; eassumption
  | |- evolves _ (db_read _ _) => eapply evolves_read; [exact _|eapply sn_env; eassumption]
  | |- evolves _ (db_write _ _) => eapply evolves_write; [exact _|eapply sn_env; eassumption]
  | |- evolves _ (broadcast_event _ _) => apply sn_broadcast
  | |- evolves _ (new_delivery _ _ _) => apply sn_delivery
  | |- evolves _ (try_except _ _) => apply evolves_try; [exact _| |intros ?]
  | |- evolves _ (except_exception _ _) => apply evolves_try; [exact _| |intros ?]
  | |- evolves _ (suppress _ _) => apply evolves_suppress; [exact _|]
  | |- evolves _ (when _ _) => apply evolves_when; [exact _|]
  | |- evolves _ (for_each _ _) => apply evolves_for_each; [exact _|intros ?]
  | |- evolves _ (modify_process _ _) => apply sn_modify; intros ?; split; done
  | |- evolves _ (uow _ _) => apply sn_uow
  | |- evolves _ (update _) => apply sn_update; intros ?; split; done
  | |- evolves _ (match ?x with _ => _ end) => destruct x
  end.

Section Quietly.
Context (config : RunnerConfig) (others : nat -> World -> World) (Hsur : surroundings config others).

Lemma sn_send events x n : evolves (tame (cfg_max_processes config)) (send_events events x n).
Proof. revert n. induction events as [|e l IH]; intros n; cbn [send_events]; repeat starts_step. apply IH. Qed.

Lemma sn_flush : evolves (tame (cfg_max_processes config)) (flush_deliveries others).
Proof.
  unfold flush_deliveries. eapply sn_locked; [eassumption|by intros|]. starts_step; [starts_step|].
  generalize (length a + FLUSH_SLACK) as fuel. intros fuel. induction fuel as [|fuel IH]; cbn [flush_loop]; repeat starts_step;
    [apply sn_send| |done]. unfold stamp_delivery, tasks_mark_delivered. repeat starts_step.
Qed.

Lemma sn_persist message usage key : evolves (tame (cfg_max_processes config)) (persist config others message usage key).
Proof. unfold persist, messages_append. repeat starts_step. Qed.

Lemma sn_notice content x : evolves (tame (cfg_max_processes config)) (deliver_notice config others content x).
Proof.
  unfold deliver_notice, narrative_append, push_front, push_back.
  repeat (starts_step || apply sn_persist || apply sn_flush).
Qed.

Lemma sn_tariff_once key notice : evolves (tame (cfg_max_processes config)) (tariff_notice_once config others key notice).
Proof. unfold tariff_notice_once. repeat (starts_step || apply sn_notice). Qed.

Lemma sn_budget : evolves (tame (cfg_max_processes config)) (run_budget_verdict config).
Proof.
  unfold run_budget_verdict. destruct (cfg_limits config) as [limits|] eqn:Hl; repeat starts_step.
  by eapply sur_budget.
Qed.

Lemma sn_owns : evolves (tame (cfg_max_processes config)) (still_owns_dialog others).
Proof. unfold still_owns_dialog, claims_current_generation. repeat starts_step. Qed.

Lemma sn_prepare title prompt kind cron source :
  evolves (tame (cfg_max_processes config)) (prepare_process_task others title prompt kind cron source).
Proof. unfold prepare_process_task, tasks_add. repeat starts_step. Qed.

Lemma sn_status x status q : evolves (tame (cfg_max_processes config)) (exchanges_set_status others x status q).
Proof. unfold exchanges_set_status. repeat starts_step. Qed.

Lemma sn_trim n : evolves (tame (cfg_max_processes config)) (trim_narrative n).
Proof.
  unfold trim_narrative. case_match; [starts_step|].
  eapply (sn_update_keys _ _ (fun '(k, p) => (k, set_p_watermark (p_watermark p - Z.to_nat n) p))).
  - by intros r.
  - by intros k p.
Qed.

Lemma sn_assemble own : evolves (tame (cfg_max_processes config)) (assemble_narrative config others own).
Proof.
  unfold assemble_narrative. repeat starts_step. eapply sn_locked; [eassumption|by intros|].
  starts_step; [|repeat (starts_step || apply sn_trim)]. unfold gather, live_exchange_ids, exchanges_list_live.
  repeat (starts_step || eapply sur_assemble); done.
Qed.
End Quietly.

(** ** Room for one more run *)

Section Room.
Context (config : RunnerConfig) (others : nat -> World -> World) (Hsur : surroundings config others).
Let limit := cfg_max_processes config.

(** Under the spawn lock there is a slot, and no run of exchange [x]. *)
Definition room_for (x : option pystr) (s : World) : Prop :=
  spawn_held s = true /\ runs_ok limit s /\ (Z.of_nat (load s) + 1 <= limit)%Z /\
  match x with
  | Some e => forall k q, dict_get k (processes_of s) = Some q -> p_exchange_id q <> Some e
  | None => True
  end.

Lemma room_mono x s s' : room_for x s -> tame (cfg_max_processes config) s s' -> room_for x s'.
Proof.
  intros (Hl & Hok & Hroom & Hno) HR. destruct HR as [_ HR]. destruct (HR Hl) as (Hl' & Hsh).
  pose proof (load_mono s s' (proj1 Hok) Hsh). split_and!; [done|by eapply runs_ok_mono|lia|].
  destruct Hsh as [_ Hsub]. destruct x as [e|]; [|done]. intros k q Hq. destruct (Hsub k q Hq) as (q0 & Hq0 & -> & _).
  by eapply Hno.
Qed.

Definition fits (x : option pystr) {A} (m : M World Exn A) : Prop :=
  forall s, room_for x s -> runs_ok limit (m s).2.

Lemma fits_quiet x {A} (m : M World Exn A) : evolves (tame (cfg_max_processes config)) m -> fits x m.
Proof. intros Hm s (Hl & Hok & _). by apply (Hm s). Qed.

Lemma fits_bind x {A B} (m : M World Exn A) (k : A -> M World Exn B) :
  evolves (tame (cfg_max_processes config)) m -> (forall a, fits x (k a)) -> fits x (bind m k).
Proof.
  intros Hm Hk s Hs. unfold bind. specialize (Hm s).
  destruct (m s) as [[a|e] s1]; cbn in *; [apply (Hk a); by eapply room_mono|].
  destruct Hs as (Hl & Hok & _). by apply Hm.
Qed.

(** The new run itself, and what follows it under the lock. *)
Lemma fits_create x task branch built {B} (k : Process -> M World Exn B) :
  tk_exchange_id task = x -> (forall p, evolves (tame (cfg_max_processes config)) (k p)) ->
  fits x (bind (create_process task branch built) k).
Proof.
  intros Hx Hk s (Hl & Hok & Hroom & Hno). unfold create_process.
  match goal with |- context [dict_set _ ?p _] => set (process := p) end.
  unfold bind at 1. unfold bind at 1, update, modify. cbn [ret].
  set (s1 := set_w_run _ s).
  assert (runs_ok limit s1) as Hok1.
  { eapply (runs_ok_add limit s s1 process); [done|done| |done]. cbn. by rewrite Hx. }
  by apply (Hk process s1).
Qed.

Lemma fits_answer_process task x {B} (k : Process -> M World Exn B) :
  tk_exchange_id task = x -> (forall p, evolves (tame (cfg_max_processes config)) (k p)) ->
  fits x (bind (create_answer_process config others task x) k).
Proof.
  intros Hx Hk. unfold create_answer_process. intros s Hs. rewrite bind_assoc. revert s Hs.
  apply fits_bind; [by eapply sn_assemble|]. intros [narrative watermark] s Hs. rewrite bind_assoc.
  revert s Hs. apply fits_create; [done|]. intros p. repeat starts_step. apply Hk.
Qed.

Lemma prepare_exchange title prompt kind cron source s task s' :
  prepare_process_task others title prompt kind cron source s = (Ok task, s') ->
  tk_exchange_id task = source ≫= as_exchange_id.
Proof.
  unfold prepare_process_task, utc_now, dialog_id, runner, gets, bind, fresh_id.
  destruct (tasks_add others _ _) as [[[]|e] s1]; [|done]. by intros [= <- <-].
Qed.

(** [fits] for a computation whose result is known to satisfy [P]. *)
Lemma fits_bind_if x {A B} (P : A -> Prop) (m : M World Exn A) (k : A -> M World Exn B) :
  evolves (tame (cfg_max_processes config)) m -> (forall s a s', m s = (Ok a, s') -> P a) ->
  (forall a, P a -> fits x (k a)) -> fits x (bind m k).
Proof.
  intros Hm HP Hk s Hs. unfold bind. specialize (Hm s).
  destruct (m s) as [[a|e] s1] eqn:Hr; cbn in *; [apply (Hk a); [by eapply HP|by eapply room_mono]|].
  destruct Hs as (Hl & Hok & _). by apply Hm.
Qed.

Lemma fits_start_answer exchange message key epoch notify :
  fits (Some (ex_id exchange)) (start_answer config others exchange message key epoch notify).
Proof.
  unfold start_answer. apply fits_bind; [by eapply sn_owns|]. intros owns. destruct (negb owns).
  { apply fits_quiet. starts_step. }
  apply fits_bind; [by eapply sn_budget|]. intros [verdict|].
  { apply fits_quiet. starts_step. by eapply sn_tariff_once. }
  apply (fits_bind_if _ (fun task => tk_exchange_id task = Some (ex_id exchange))).
  - unfold unit_of_work. repeat (starts_step || (eapply sn_prepare; eassumption) || (eapply sn_status; eassumption)).
  - intros s task s'. unfold unit_of_work, bind at 1. destruct (yield others s) as [[[]|e] s0]; [|done].
    unfold uow. intros Hrun. 
    assert (forall s1 t s2, (let! task := prepare_process_task others (ex_title exchange) (cm_content message)
       TaskKind.ANSWER None (Some {| as_message_id := cm_id message; as_client_message_id := key;
         as_exchange_id := Some (ex_id exchange) |}) in
       exchanges_set_status others (ex_id exchange) ExchangeStatus.IN_PROGRESS None ;;; ret task) s1 = (Ok t, s2) ->
      tk_exchange_id t = Some (ex_id exchange)) as Hbody.
    { intros s1 t s2. unfold bind at 1.
      match goal with |- context [prepare_process_task _ _ _ _ _ _ s1] =>
        destruct (prepare_process_task others (ex_title exchange) (cm_content message) TaskKind.ANSWER None
          (Some {| as_message_id := cm_id message; as_client_message_id := key;
             as_exchange_id := Some (ex_id exchange) |}) s1) as [[t'|e] s3] eqn:Hp end; [|done].
      apply prepare_exchange in Hp. unfold bind.
      destruct (exchanges_set_status _ _ _ _ s3) as [[[]|e] s4]; [|done]. by intros [= <- <-]. }
    destruct (cfg_null_unit config); [by eapply Hbody|]. destruct (in_unit_of_work _); [done|].
    match type of Hrun with context [match ?b with _ => _ end] => destruct b as [[t|e] s2] eqn:Hb end; [|done].
    apply Hbody in Hb. destruct (round_trip _) as [[[]|e] c]; [destruct (active _)|]; by simplify_eq.
  - intros task Htask. apply fits_answer_process; [done|]. intros p. repeat starts_step.
Qed.
End Room.

(** ** Every way to start a run *)

Section Starts.
Context (config : RunnerConfig) (others : nat -> World -> World) (Hsur : surroundings config others).
Let limit := cfg_max_processes config.

(** Taking the spawn lock, and giving it back. *)
Lemma locked_runs_ok {A} (body : M World Exn A) :
  (forall s, spawn_held s = true -> runs_ok limit s -> runs_ok limit (body s).2) ->
  preserves (runs_ok limit) (locked others set_r_spawn_lock body).
Proof.
  intros Hb s Hs. unfold locked. unfold bind at 1.
  pose proof (evolves_yield others _ (sn_env config others Hsur) s) as [Hy _].
  destruct (yield others s) as [[[]|e] s0]; [|by apply Hy]. cbn in Hy.
  unfold bind, update, modify, try_except, ret, raise. set (s1 := set_w_run _ s0).
  specialize (Hb s1 eq_refl (Hy Hs)). destruct (body s1) as [[a|e] s2]; exact Hb.
Qed.

Lemma load_processes s : load s <= length (processes_of s).
Proof. unfold load. apply length_filter. Qed.

(** The guard of the background starts. *)
Lemma room_if_slot s x :
  spawn_held s = true -> runs_ok limit s -> slots_full config (w_run s) = false ->
  match x with
  | Some e => forall k q, dict_get k (processes_of s) = Some q -> p_exchange_id q <> Some e
  | None => True
  end -> room_for config x s.
Proof.
  intros Hl Hok Hfull Hno. split_and!; [done|done| |done].
  unfold slots_full in Hfull. apply Z.leb_gt in Hfull. pose proof (load_processes s).
  unfold processes_of in *. lia.
Qed.

(** The guard of the answers, which counts as free the slots of runs just
    cancelled. *)
Lemma no_run_of s e : live_process_for e (w_run s) = None ->
  forall k q, dict_get k (processes_of s) = Some q -> p_exchange_id q <> Some e.
Proof.
  unfold live_process_for, processes_of. rewrite head_filter_None. intros Hno k q Hq.
  rewrite Forall_forall in Hno. apply Hno. unfold dict_values. apply list_elem_of_fmap.
  exists (k, q). split; [done|]. by apply dict_get_elem.
Qed.

(** Every run of these exchanges is a cancelled one. *)
Definition all_cancelled (cancelled : gset pystr) (s : World) : Prop :=
  forall k p e, dict_get k (processes_of s) = Some p -> p_exchange_id p = Some e -> e ∈ cancelled ->
    p_cancelled p = true.

Lemma load_discount s cancelled :
  dict_ok (processes_of s) -> all_cancelled cancelled s ->
  load s + size (cancelled_tasks cancelled (w_run s)) <= length (processes_of s).
Proof.
  intros Hok Hall.
  set (gone := filter (fun kv : pystr * Process => p_cancelled kv.2 <> false) (processes_of s)).
  assert (load s + length gone = length (processes_of s)) as Hsum.
  { unfold load, gone. clear Hall Hok gone. induction (processes_of s) as [|kv l IH]; [done|].
    rewrite !filter_cons. repeat case_decide; simpl; (lia || tauto). }
  assert (size (cancelled_tasks cancelled (w_run s)) <= length gone); [|lia].
  transitivity (size (list_to_set (omap (fun kv => p_exchange_id kv.2) gone) : gset pystr)).
  - apply subseteq_size. intros e. unfold cancelled_tasks. rewrite elem_of_intersection. intros [Hc He].
    unfold live_exchanges in He. apply elem_of_list_to_set, list_elem_of_omap in He as (p & Hp & He).
    unfold dict_values in Hp. apply list_elem_of_fmap in Hp as ([k p'] & -> & Hin).
    apply elem_of_list_to_set, list_elem_of_omap. exists (k, p'). split; [|done].
    apply list_elem_of_filter. split; [|done]. cbn.
    rewrite (Hall k p' e); [done| |done|done]. by apply dict_elem_get.
  - etransitivity; [apply size_list_to_set_le|]. apply length_omap_le.
Qed.

Lemma tame_keeps {A} (m : M World Exn A) :
  evolves (tame limit) m -> preserves (runs_ok limit) m.
Proof. intros Hm s Hs. by apply (Hm s). Qed.

(** A background run: a task, then its process. *)
Lemma fits_background title prompt cron {B} (b : Task -> B) :
  fits config None (let! task := prepare_process_task others title prompt TaskKind.RUN cron None in
    start_process task ;;; ret (b task)).
Proof.
  apply (fits_bind_if config _ (fun task => tk_exchange_id task = None)); [by eapply sn_prepare| |].
  { intros s task s' Hp. by apply prepare_exchange in Hp. }
  intros task Htask. unfold start_process. intros s. rewrite bind_assoc. revert s.
  apply fits_bind; [repeat starts_step|]. intros now s. rewrite bind_assoc. revert s.
  apply fits_create; [done|]. intros p. repeat starts_step.
Qed.

Lemma spawn_task_runs_ok title prompt : preserves (runs_ok limit) (spawn_task config others title prompt).
Proof.
  unfold spawn_task. apply preserves_bind; [by eapply tame_keeps, sn_budget|]. intros [v|]; [by intros s|].
  apply preserves_bind; [|intros task; by intros s].
  apply locked_runs_ok. intros s Hl Hok. unfold bind at 1, runner, gets, id.
  destruct (slots_full config (w_run s)) eqn:Hfull; [done|]. by apply fits_background, room_if_slot.
Qed.

Lemma wake_runs_ok title prompt cron : preserves (runs_ok limit) (wake config others title prompt cron).
Proof.
  unfold wake. apply preserves_bind; [by eapply tame_keeps, sn_budget|]. intros [v|].
  { apply preserves_bind; [by eapply tame_keeps, sn_tariff_once|intros; by intros s]. }
  apply preserves_bind.
  - apply locked_runs_ok. intros s Hl Hok. unfold bind at 1, runner, gets.
    destruct (slots_full config (w_run s)) eqn:Hfull; [done|]. by apply fits_background, room_if_slot.
  - intros over. apply preserves_bind; [|intros; by intros s]. apply preserves_when, tame_keeps.
    unfold publish_cron_limit_note. repeat starts_step. by eapply sn_notice.
Qed.

Lemma exchanges_get_id x s e s' : exchanges_get others x s = (Ok e, s') -> ex_id e = x.
Proof.
  unfold exchanges_get, db_read, bind. destruct (yield others s) as [[[]|?] s0]; [|done].
  unfold on_conn. destruct (read_session _ _) as [r c] eqn:Hr. intros [= -> _].
  apply read_session_returns in Hr as (d & Hd). unfold on_table, ExchangeStore.get in Hd.
  destruct (find_key ex_id x (table d)) as [row|] eqn:Hf; [|done]. cbn in Hd. simplify_eq.
  by apply find_key_Some in Hf as [_ ?].
Qed.

Lemma room_if_below s x cancelled :
  spawn_held s = true -> runs_ok limit s -> all_cancelled cancelled s ->
  exceeds_limit config (cancelled_tasks cancelled (w_run s)) (w_run s) = false ->
  live_process_for x (w_run s) = None -> room_for config (Some x) s.
Proof.
  intros Hl Hok Hc Hx Hno. split_and!; [done|done| |by apply no_run_of].
  unfold exceeds_limit in Hx. apply Z.ltb_ge in Hx. pose proof (load_discount s cancelled (proj1 Hok) Hc).
  unfold processes_of, limit in *. lia.
Qed.

Lemma resume_runs_ok x notify : preserves (runs_ok limit) (resume_open_exchange config others x notify).
Proof.
  unfold resume_open_exchange. apply preserves_bind; [apply preserves_gets|intros narrative].
  destruct (last_words x narrative) as [message|]; [|by intros s]. apply preserves_suppress.
  apply locked_runs_ok. intros s Hl Hok. unfold bind at 1.
  pose proof (evolves_read others _ (sn_env config others Hsur) (on_table (ExchangeStore.get x)) s) as HR.
  change (db_read others (on_table (ExchangeStore.get x))) with (exchanges_get others x) in HR.
  destruct (exchanges_get others x s) as [[exchange|e] s1] eqn:Hget; [|by apply HR]. cbn in HR.
  apply exchanges_get_id in Hget. destruct HR as [HK HS]. destruct (HS Hl) as [Hl1 _]. specialize (HK Hok).
  unfold bind at 1, runner, gets. case_decide as Hd; [done|]. unfold bind at 1.
  destruct (exceeds_limit config ∅ (w_run s1)) eqn:Hx.
  { assert (evolves (tame limit) (when notify (reject_for_limit config others message))) as Hrej.
    { apply evolves_when; [exact _|]. unfold reject_for_limit. repeat starts_step. by eapply sn_notice. }
    by apply (Hrej s1). }
  subst x. apply fits_start_answer; [done|]. apply (room_if_below s1 _ ∅); [done|done| | |].
  - intros k p e _ _ He. set_solver.
  - unfold cancelled_tasks. by rewrite intersection_empty_l_L.
  - destruct (live_process_for (ex_id exchange) (w_run s1)); [|done]. exfalso. apply Hd. right. by eexists.
Qed.

Lemma all_cancelled_shrinks cancelled s s' :
  all_cancelled cancelled s -> shrinks s s' -> all_cancelled cancelled s'.
Proof.
  intros Hall [_ Hsub] k p' e Hp' He Hin. destruct (Hsub k p' Hp') as (p & Hp & Hex & Hc).
  apply Hc. apply (Hall k p e); [done|congruence|done].
Qed.

Lemma ensure_owner_runs_ok x message key cancelled epoch known s :
  (forall k s, all_cancelled cancelled s -> all_cancelled cancelled (others k s)) ->
  match known with Some e => ex_id e = x | None => True end ->
  runs_ok limit s -> all_cancelled cancelled s ->
  runs_ok limit (ensure_owner config others x message key cancelled epoch known s).2.
Proof.
  intros Hkeep Hknown Hs Hc. unfold ensure_owner.
  match goal with |- context [locked others set_r_spawn_lock ?b] => set (body := b) end.
  assert (runs_ok limit (locked others set_r_spawn_lock body s).2) as Hlocked.
  2: { unfold suppress, try_except. destruct (locked _ _ body s) as [[[]|e] s']; [done|].
       by destruct (is_exchange_not_found e). }
  unfold locked. unfold bind at 1.
  pose proof (evolves_yield others _ (sn_env config others Hsur) s) as [Hy _].
  assert (all_cancelled cancelled (yield others s).2) as Hcy.
  { unfold yield. destruct (in_unit_of_work _); [done|]. cbn. by apply Hkeep. }
  destruct (yield others s) as [[[]|e] s0]; [|by apply Hy]. cbn in Hy, Hcy.
  unfold bind at 1, update, modify. set (s1 := set_w_run _ s0).
  assert (runs_ok limit (body s1).2) as Hbody.
  2: { unfold bind, try_except, ret, raise. destruct (body s1) as [[a|e] s2]; exact Hbody. }
  assert (runs_ok limit s1) as Hok1 by (by apply Hy). assert (all_cancelled cancelled s1) as Hc1 by exact Hcy.
  assert (spawn_held s1 = true) as Hl1 by done. clearbody s1. unfold body.
  unfold bind at 1, runner, gets. destruct (live_process_for x (w_run s1)) eqn:Hno; [done|].
  unfold bind at 1. set (find := match known with Some _ => _ | None => _ end).
  assert (evolves (tame limit) find) as Hfind.
  { unfold find, exchanges_get. destruct known; repeat starts_step. }
  assert (forall e s2, find s1 = (Ok e, s2) -> ex_id e = x) as Hid.
  { unfold find. destruct known as [e'|]; [by intros e s2 [= <- <-]|]. intros e s2. apply exchanges_get_id. }
  specialize (Hfind s1). destruct (find s1) as [[exchange|e] s2]; [|by apply Hfind].
  specialize (Hid exchange s2 eq_refl). cbn in Hfind. destruct Hfind as [HK HS].
  destruct (HS Hl1) as [Hl2 Hsh]. specialize (HK Hok1).
  assert (live_process_for x (w_run s2) = None) as Hno2.
  { unfold live_process_for. apply head_filter_None, Forall_forall. intros p Hp He.
    unfold dict_values in Hp. apply list_elem_of_fmap in Hp as ([k p'] & -> & Hin).
    apply dict_elem_get in Hin; [|apply HK]. destruct Hsh as [_ Hsub].
    destruct (Hsub k p' Hin) as (q & Hq & Heq & _). apply (no_run_of s1 x Hno k q Hq). cbn in He. congruence. }
  unfold bind at 1. destruct (exceeds_limit config _ _) eqn:Hx.
  { assert (evolves (tame limit) (reject_for_limit config others message)) as Hrej.
    { unfold reject_for_limit. repeat starts_step. by eapply sn_notice. }
    by apply (Hrej s2). }
  subst x. apply fits_start_answer; [done|]. eapply room_if_below; [done|done| |exact Hx|done].
  by eapply all_cancelled_shrinks.
Qed.

(** *** Orphans of a restart *)

(** No run of this exchange is registered. *)
Definition unrun (x : option pystr) (s : World) : Prop :=
  match x with
  | Some e => forall k q, dict_get k (processes_of s) = Some q -> p_exchange_id q <> Some e
  | None => True
  end.
Lemma sn_fail_orphaned task error : evolves (tame limit) (fail_orphaned others task error).
Proof.
  unfold fail_orphaned, tasks_mark_failed, push_back. repeat (starts_step || (eapply sn_flush; eassumption)).
Qed.
Lemma sn_admit task : evolves (tame limit) (admit_orphaned config others task).
Proof. unfold admit_orphaned. repeat (starts_step || (eapply sn_budget; eassumption) || apply sn_fail_orphaned). Qed.
Lemma sn_status_if_there x status : evolves (tame limit) (set_status_if_there others x status).
Proof. unfold set_status_if_there. repeat (starts_step || (eapply sn_status; eassumption)). Qed.

Lemma fits_orphan task : fits config (tk_exchange_id task) (start_orphaned config others task).
Proof.
  unfold start_orphaned. case_decide.
  - apply fits_bind; [apply sn_admit|]. intros [|]; cbn [when]; [|apply fits_quiet; repeat starts_step]. unfold start_process.
    apply fits_bind; [repeat starts_step|]. intros now. apply fits_create; [done|]. intros p. repeat starts_step.
  - apply fits_bind; [unfold exchange_awaits_user, exchanges_get; repeat starts_step|]. intros [|].
    { apply fits_quiet. unfold tasks_mark_done. repeat starts_step. }
    apply fits_bind; [apply sn_admit|]. intros [|]; cbn [negb]; [|apply fits_quiet, sn_status_if_there].
    apply (fits_answer_process config others Hsur); [done|]. intros p. apply sn_status_if_there.
Qed.

Lemma restart_runs_ok task s :
  (forall k s, unrun (tk_exchange_id task) s -> unrun (tk_exchange_id task) (others k s)) ->
  runs_ok limit s -> unrun (tk_exchange_id task) s -> runs_ok limit (restart_task config others task s).2.
Proof.
  intros Hkeep Hs Hu. unfold restart_task.
  assert (runs_ok limit (locked others set_r_spawn_lock (let! full := runner (slots_full config) in
     if full then ret false else start_orphaned config others task ;;; ret true) s).2) as Hlocked.
  { unfold locked. unfold bind at 1.
    pose proof (evolves_yield others _ (sn_env config others Hsur) s) as [Hy _].
    assert (unrun (tk_exchange_id task) (yield others s).2) as Huy.
    { unfold yield. destruct (in_unit_of_work _); [done|]. cbn. by apply Hkeep. }
    destruct (yield others s) as [[[]|e] s0]; [|by apply Hy]. cbn in Hy, Huy.
    unfold bind at 1, update, modify. set (s1 := set_w_run _ s0).
    match goal with |- context [try_except ?b _] => set (body := b) end.
    assert (runs_ok limit (body s1).2) as Hbody.
    { unfold body, bind at 1, runner, gets. destruct (slots_full config (w_run s1)) eqn:Hfull; [by apply Hy|].
      pose proof (fits_orphan task s1 (room_if_slot s1 _ eq_refl (Hy Hs) Hfull Huy)) as H.
      unfold bind. by destruct (start_orphaned config others task s1) as [[[]|e] s2]. }
    unfold bind at 1, try_except, ret, raise.
    destruct (body s1) as [[a|e] s2]; exact Hbody. }
  unfold bind. destruct (locked _ _ _ s) as [[[|]|e] s1]; [done| |done]. cbn [snd] in Hlocked. by apply (sn_fail_orphaned task RESTART_LIMIT_ERROR s1).
Qed.

(** C2: Spawned and scheduled runs, fresh answers and revived ones, and the
    orphans of a restart: each start checks for room under the spawn lock, so
    at most [max_processes] runs nobody has cancelled exist, and an exchange
    has one run at most.  The exchange of an orphan has no run when it is
    restarted, and nobody else starts one for it. *)
Theorem starts_keep_limits :
  (forall title prompt, preserves (runs_ok limit) (spawn_task config others title prompt)) /\
  (forall title prompt cron, preserves (runs_ok limit) (wake config others title prompt cron)) /\
  (forall x notify, preserves (runs_ok limit) (resume_open_exchange config others x notify)) /\
  (forall x message key cancelled epoch known s,
    (forall k s, all_cancelled cancelled s -> all_cancelled cancelled (others k s)) ->
    match known with Some e => ex_id e = x | None => True end ->
    runs_ok limit s -> all_cancelled cancelled s ->
    runs_ok limit (ensure_owner config others x message key cancelled epoch known s).2) /\
  (forall task s,
    (forall k s, unrun (tk_exchange_id task) s -> unrun (tk_exchange_id task) (others k s)) ->
    runs_ok limit s -> unrun (tk_exchange_id task) s ->
    runs_ok limit (restart_task config others task s).2).
Proof.
  split_and!; [apply spawn_task_runs_ok|apply wake_runs_ok|apply resume_runs_ok| |].
  - intros. by apply ensure_owner_runs_ok.
  - intros. by apply restart_runs_ok.
Qed.
End Starts.
