(* ===== verification/IntakeLaws.v ===== *)
(** * Laws of the intake and of the actor ([agent/runner.py]) *)
From S2P Require Import Prelude PyStr Clock Sql Dict Domain UnitOfWork Branch Broadcast Codec TaskStore ExchangeStore MessageStore Compactor Router RunnerText RunnerState Outbox Pump PumpLaws Answers Intake Actor.

Section Start.
Context (config : RunnerConfig) (others : nat -> World -> World).

(** ** The run an answer starts *)

(** The run [p] in [s'], started for [exchange] by a submit of epoch [e]. *)
Definition started (exchange : Exchange) (cancel_epoch : option Z) (p : Process) (s' : World) : Prop :=
  dict_get (p_id p) (r_processes (w_run s')) = Some p /\
  p_exchange_id p = Some (ex_id exchange) /\ p_narrative_built p = true /\
  p_synced_len p = length (p_branch p) /\ head (p_branch p) = Some (system_message config) /\
  p_asked p = false /\ p_terminal_accepted p = false /\
  p_cancelled p = match cancel_epoch with
                  | Some e => (e <? r_cancel_epoch (w_run s'))%Z
                  | None => false
                  end.

Lemma broadcast_event_run event x s :
  exists n hub, broadcast_event event x s = (Ok n, set_w_run (set_r_hub hub (w_run s)) s).
Proof.
  unfold broadcast_event.
  match goal with |- context [broadcast ?a ?b ?c ?d] => destruct (broadcast a b c d) end. by eexists _, _.
Qed.

Lemma prepare_task_exchange title prompt kind cron source s task s' :
  prepare_process_task others title prompt kind cron source s = (Ok task, s') ->
  tk_exchange_id task = source ≫= as_exchange_id.
Proof.
  unfold prepare_process_task, utc_now, dialog_id, runner, gets, bind, fresh_id.
  destruct (tasks_add others _ _) as [[[]|e] s1]; [|done]. by intros [= <- <-].
Qed.

(** What a unit of work returns, its body returned. *)
Lemma unit_of_work_returns {A} (body : M World Exn A) s a s' :
  unit_of_work config others body s = (Ok a, s') -> exists s1 s2, body s1 = (Ok a, s2).
Proof.
  unfold unit_of_work, bind. destruct (yield others s) as [[[]|e] s0]; [|done].
  unfold uow. destruct (cfg_null_unit config); [eauto|]. destruct (in_unit_of_work _); [done|].
  destruct (body _) as [[b|e] s2] eqn:Hb; [|done].
  destruct (round_trip _) as [[[]|e] c]; [destruct (active _)|]; intros; simplify_eq; eauto.
Qed.

(** A start that is neither refused for a lost dialog nor for the budget
    leaves a run of the exchange; it is cancelled from the outset exactly
    when the message was submitted before the last stop. *)
Lemma start_answer_spec exchange message key epoch notify s s' :
  start_answer config others exchange message key epoch notify s = (Ok tt, s') ->
  r_preempted (w_run s') = true \/
  (exists v s1 s2, run_budget_verdict config s1 = (Ok (Some v), s2)) \/
  (exists p, started exchange epoch p s').
Proof.
  unfold start_answer. unfold bind at 1. destruct (still_owns_dialog others s) as [[owns|e] s1]; [|done].
  destruct owns; cbn [negb]; [|intros [= <-]; by left]. unfold bind at 1.
  destruct (run_budget_verdict config s1) as [[[v|]|e] s2] eqn:Hb; [|intros Hrun|done].
  { intros _. right. left. by eexists _, _, _. }
  right. right. unfold bind at 1 in Hrun.
  match type of Hrun with context [unit_of_work config others ?b s2] =>
    destruct (unit_of_work config others b s2) as [[task|e] s3] eqn:Hu end; [|done].
  apply unit_of_work_returns in Hu as (t1 & t2 & Hu).
  assert (tk_exchange_id task = Some (ex_id exchange)) as Htask.
  { unfold bind at 1 in Hu.
    match type of Hu with context [prepare_process_task ?o ?a ?b ?c ?d ?e t1] =>
      destruct (prepare_process_task o a b c d e t1) as [[t|?] t3] eqn:Hp end; [|done].
    apply prepare_task_exchange in Hp. unfold bind in Hu.
    destruct (exchanges_set_status _ _ _ _ t3) as [[[]|?] t4]; [|done]. injection Hu as <- _. exact Hp. }
  clear Hu Hb. unfold create_answer_process in Hrun. rewrite bind_assoc in Hrun. unfold bind at 1 in Hrun.
  destruct (assemble_narrative config others (Some (ex_id exchange)) s3) as [[[narr wm]|e] s4]; [|done].
  unfold create_process, modify_process, when, broadcast_event, update, modify, runner, gets, bind, ret in Hrun.
  cbn -[broadcast] in Hrun. rewrite dict_get_set, decide_True in Hrun by done. cbn -[broadcast] in Hrun.
  set (wanted := match epoch with Some e => _ | None => false end) in Hrun.
  exists {| p_id := tk_id task; p_title := tk_title task; p_task_id := tk_id task;
            p_cancelled := wanted;
            p_branch := system_message config :: narr; p_narrative_built := true;
            p_synced_len := S (length narr); p_watermark := wm;
            p_exchange_id := tk_exchange_id task; p_source_message_id := task_source_message task;
            p_source_client_message_id := task_client_source task; p_terminal_accepted := false;
            p_overflow_retried := false; p_asked := false; p_origin := task_origin task;
            p_spent_prompt := 0; p_spent_completion := 0 |}.
  destruct wanted eqn:Hw; cbn -[broadcast] in Hrun.
  - rewrite dict_get_set, decide_True in Hrun by done. cbn -[broadcast] in Hrun.
    match type of Hrun with context [broadcast ?a ?b ?c ?d] => destruct (broadcast a b c d) end.
    injection Hrun as <-. unfold started. cbn. rewrite !dict_get_set, decide_True by done. by split_and!.
  - match type of Hrun with context [broadcast ?a ?b ?c ?d] => destruct (broadcast a b c d) end.
    injection Hrun as <-. unfold started. cbn. rewrite !dict_get_set, decide_True by done. by split_and!.
Qed.
End Start.

(** ** The stop button *)

Section StopButton.
Context (config : RunnerConfig) (others : nat -> World -> World).

(** [cancel]: every run that owes an answer is cancelled, background work is
    not; the epoch moves. *)
Lemma handle_cancel_spec s :
  exists s', handle_cancel s = (Ok tt, s') /\
    r_cancel_epoch (w_run s') = (r_cancel_epoch (w_run s) + 1)%Z /\
    dict_keys (r_processes (w_run s')) = dict_keys (r_processes (w_run s)) /\
    forall k p, dict_get k (r_processes (w_run s)) = Some p ->
      exists p', dict_get k (r_processes (w_run s')) = Some p' /\
        p' = if bool_decide (is_Some (p_exchange_id p)) then set_p_cancelled true p else p.
Proof.
  eexists. split; [done|]. split; [done|]. cbn. split.
  - unfold dict_keys. rewrite <-list_fmap_compose. apply list_fmap_ext. by intros i [k p] _.
  - intros k p. induction (r_processes (w_run s)) as [|[k' q] l IH]; [done|]. cbn.
    case_decide; [|exact IH]. intros [= ->]. by eexists.
Qed.

(** A stop pressed while the message was still on its way to its run covers
    it: whatever run the message gets afterwards starts cancelled. *)
Theorem stop_covers_routing content key reply source s0 s1 sub exchange message client notify s s' :
  submit content key reply source s0 = (Ok tt, s1) -> last (r_inbox (w_run s1)) = Some (CSubmit sub) ->
  (exists t, (r_cancel_epoch (w_run s0) <= r_cancel_epoch (w_run t))%Z /\
     (r_cancel_epoch (w_run (handle_cancel t).2) <= r_cancel_epoch (w_run s'))%Z) ->
  start_answer config others exchange message client (Some (sb_cancel_epoch sub)) notify s = (Ok tt, s') ->
  r_preempted (w_run s') = true \/
  (exists v t t', run_budget_verdict config t = (Ok (Some v), t')) \/
  (exists p, dict_get (p_id p) (r_processes (w_run s')) = Some p /\
     p_exchange_id p = Some (ex_id exchange) /\ p_cancelled p = true).
Proof.
  intros Hsub Hlast (t & Hle & Hafter) Hstart.
  assert (sb_cancel_epoch sub = r_cancel_epoch (w_run s0)) as Hepoch.
  { unfold submit, put_command, update, runner, gets, modify, bind in Hsub. injection Hsub as <-.
    cbn in Hlast. rewrite last_snoc in Hlast. by injection Hlast as <-. }
  destruct (handle_cancel_spec t) as (t' & Ht & He & _). rewrite Ht in Hafter. cbn in Hafter.
  apply start_answer_spec in Hstart as [Hp|[Hb|(p & Hp)]]; [by left|right; by left|right; right].
  destruct Hp as (Hget & Hx & _ & _ & _ & _ & _ & Hc). exists p. split_and!; [done|done|].
  rewrite Hc. apply Z.ltb_lt. lia.
Qed.
End StopButton.

(** ** The actor survives its commands *)

Section Survival.
Context (config : RunnerConfig) (others : nat -> World -> World).

(** C23: A command that fails leaves the actor running: the next turn is taken
    as if it had succeeded, and a failed submit is announced.  Only a lost
    dialog or the actor's own cancellation ends it: the actor is neither
    cancelled nor preempted when the command has failed. *)
Theorem actor_survives command rest s e s1 :
  r_inbox (w_run s) = command :: rest ->
  dispatch config others command (set_w_run (set_r_inbox rest (w_run s)) s) = (Err e, s1) ->
  is_exception e = true -> r_cancelling (w_run s1) = false -> r_preempted (w_run s1) = false ->
  exists s2, actor_turn config others s = (Ok tt, s2) /\
    match command with
    | CSubmit _ => exists n, broadcast_event (Failed SUBMIT_FAILED_ERROR) None s1 = (Ok n, s2)
    | _ => s2 = s1
    end.
Proof.
  intros Hinbox Hdisp He Hc Hp. unfold actor_turn, update, modify, runner, gets, bind. rewrite Hinbox.
  unfold except_exception, try_except. rewrite Hdisp, He. unfold command_failed, runner, gets, bind.
  rewrite Hc. destruct command; try (eexists; unfold ret; cbn; by rewrite Hp, Hc).
  destruct (broadcast_event_run (Failed SUBMIT_FAILED_ERROR) None s1) as (n & hub & Hb).
  eexists. split; [|eexists; exact Hb]. rewrite Hb. cbn. by rewrite Hp, Hc.
Qed.

(** A dialog lost is a dialog left: the turn in which the actor finds out is
    its last. *)
Lemma preempted_actor_stops s s1 command rest :
  r_inbox (w_run s) = command :: rest ->
  dispatch config others command (set_w_run (set_r_inbox rest (w_run s)) s) = (Ok tt, s1) ->
  r_preempted (w_run s1) = true -> actor_turn config others s = (Err CancelledError, s1).
Proof.
  intros Hinbox Hdisp Hp. unfold actor_turn, update, modify, runner, gets, bind. rewrite Hinbox.
  unfold except_exception, try_except. rewrite Hdisp. unfold id. by rewrite Hp.
Qed.
End Survival.

(** ** A submit, undisturbed *)

Section Submit.
Context (config : RunnerConfig) (others : nat -> World -> World) (Hquiet : quiet others).

Definition recorded (d key : pystr) (t : list MessageRow) : Prop :=
  Exists (fun r => mr_dialog_id r = d /\ mr_client_message_id r = Some key) t.

Lemma is_duplicate_quiet key s :
  at_rest s ->
  is_duplicate others (Some key) s =
    (Ok (bool_decide (recorded (dlg_id (r_dialog (w_run s))) key (d_messages (db_of s)))), ticked s).
Proof.
  intros Hs. unfold is_duplicate, messages_find_by_client_id, dialog_id, runner, gets, bind.
  rewrite (db_read_quiet others Hquiet) by done. f_equal. cbn.
  set (P := fun r => mr_dialog_id r = dlg_id (r_dialog (w_run s)) /\ mr_client_message_id r = Some key).
  destruct (head (select_where P (d_messages (db_of s)))) as [r|] eqn:Hh; unfold select_where in Hh.
  - unfold select_where. rewrite Hh. f_equal. symmetry. apply bool_decide_eq_true.
    apply head_filter_Some in Hh as [Hin HP]. apply Exists_exists. by exists r.
  - unfold select_where. rewrite Hh. f_equal. symmetry. apply bool_decide_eq_false. apply head_filter_None in Hh.
    unfold recorded. rewrite Exists_exists. intros (r & Hin & HP). rewrite Forall_forall in Hh.
    by apply (Hh r).
Qed.

(** A delivery retry: a submit whose key the dialog already recorded changes
    nothing at all. *)
Theorem duplicate_submit_ignored command key s :
  at_rest s -> sb_client_message_id command = Some key ->
  recorded (dlg_id (r_dialog (w_run s))) key (d_messages (db_of s)) ->
  handle_submit config others command s = (Ok tt, ticked s).
Proof.
  intros Hs Hkey Hrec. unfold handle_submit, store_submit, except_exception, try_except.
  rewrite Hkey. unfold bind at 1. unfold bind at 1. rewrite is_duplicate_quiet by done.
  by rewrite bool_decide_true.
Qed.
End Submit.

(** ** Intake *)

Definition same_runs (s s' : World) : Prop := r_processes (w_run s') = r_processes (w_run s).
#[export] Instance same_runs_preorder : PreOrder same_runs.
Proof. unfold same_runs. split; [done|]. intros a b c. congruence. Qed.

Definition with_router (router : MessageRouter World) (config : RunnerConfig) : RunnerConfig :=
  {| cfg_loop := cfg_loop config; cfg_system_prompt := cfg_system_prompt config; cfg_router := router;
     cfg_max_processes := cfg_max_processes config; cfg_compactor := cfg_compactor config;
     cfg_task_outcome_listener := cfg_task_outcome_listener config; cfg_limits := cfg_limits config;
     cfg_material_quiet := cfg_material_quiet config; cfg_vision := cfg_vision config;
     cfg_image_resolver := cfg_image_resolver config;
     cfg_response_memory := cfg_response_memory config; cfg_sqlite := cfg_sqlite config;
     cfg_null_unit := cfg_null_unit config; cfg_exn_name := cfg_exn_name config;
     cfg_exn_text := cfg_exn_text config; cfg_left_first := cfg_left_first config |}.

Section MaterialLaws.
Context (config : RunnerConfig) (others : nat -> World -> World).
Context (Henv : env_allows others same_runs).
Context (Hrecord : forall limits e, cfg_limits config = Some limits -> evolves same_runs (lg_record limits e)).

Lemma same_runs_update f : (forall r, r_processes (f r) = r_processes r) -> evolves same_runs (update f).
Proof. intros Hf s. unfold same_runs. cbn. apply Hf. Qed.
Lemma same_runs_broadcast event x : evolves same_runs (broadcast_event event x).
Proof. intros s. by destruct (broadcast_event_run event x s) as (n & hub & ->). Qed.

Ltac same_step :=
  match goal with
  | |- evolves _ (bind _ _) => apply evolves_bind; [exact _| |intros ?]
  | |- evolves _ (ret _) => apply evolves_ret; exact _
  | |- evolves _ (raise _) => apply evolves_raise; exact _
  | |- evolves _ (gets _) => apply evolves_gets; exact _
  | |- evolves _ (runner _) => apply evolves_gets; exact _
  | |- evolves _ utc_now => apply evolves_gets; exact _
  | |- evolves _ dialog_id => apply evolves_gets; exact _
  | |- evolves _ fresh_id => eapply evolves_fresh; eassumption
  | |- evolves _ (draw_ids _) => eapply evolves_draw; eassumption
  | |- evolves _ (yield _) => eapply evolves_yield; [exact _|eassumption]
  | |- evolves _ (on_conn _) => eapply evolves_conn; eassumption
  | |- evolves _ (db_read _ _) => eapply evolves_read; [exact _|eassumption]
  | |- evolves _ (db_write _ _) => eapply evolves_write; [exact _|eassumption]
  | |- evolves _ (broadcast_event _ _) => apply same_runs_broadcast
  | |- evolves _ (except_exception _ _) => apply evolves_try; [exact _| |intros ?]
  | |- evolves _ (update _) => apply same_runs_update; by intros ?
  | |- evolves _ (match ?x with _ => _ end) => destruct x eqn:?
  end.

Lemma same_runs_store command : evolves same_runs (store_submit config others command).
Proof.
  unfold store_submit, is_duplicate, messages_find_by_client_id, persist, messages_append.
  repeat same_step.
Qed.

Lemma same_runs_record kind q usage : evolves same_runs (record_event config kind q usage).
Proof. unfold record_event. repeat same_step. by apply Hrecord. Qed.

Lemma same_runs_collect message command : evolves same_runs (collect_material others message command).
Proof.
  unfold collect_material, material_home, collecting_exchange, exchanges_list_live,
    exchanges_find_collecting, exchanges_create, narrative_append, messages_set_exchange, exchanges_touch.
  repeat same_step.
Qed.

(** Forwarded material owes nothing: taking it in starts and ends no run and
    never asks the router. *)
Theorem material_starts_nothing command s :
  cm_kind (sb_message command) = MessageKind.MATERIAL ->
  same_runs s (handle_submit config others command s).2 /\
  forall router, handle_submit (with_router router config) others command s =
                 handle_submit config others command s.
Proof.
  intros Hk. split.
  - revert s. change (evolves same_runs (handle_submit config others command)). unfold handle_submit.
    apply evolves_bind; [exact _|apply same_runs_store|]. intros [i|]; [|same_step].
    apply evolves_bind; [exact _|apply same_runs_record|]. intros _.
    rewrite decide_True by done. apply same_runs_collect.
  - intros router. unfold handle_submit.
    change (store_submit (with_router router config) others command) with (store_submit config others command).
    apply bind_ext. intros [i|] s1 _; [|done].
    change (record_user_message (with_router router config)) with (record_user_message config).
    apply bind_ext. intros _ s2 _. by rewrite !decide_True.
Qed.
End MaterialLaws.

(** ** The end of a run *)

Section Settling.
Context (config : RunnerConfig) (others : nat -> World -> World) (Hquiet : quiet others).

Definition exchanges_of (s : World) : list Exchange := d_exchanges (db_of s).
Definition exchange_at (x : pystr) (s : World) : option Exchange := find_key ex_id x (exchanges_of s).

(** The run of [command] still owns its exchange [e]: nothing newer pays for
    it, and it is not settled. *)
Definition owns (command : ProcessTerminated) (e : Exchange) (s : World) : Prop :=
  exchange_at (ex_id e) s = Some e /\ pt_exchange_id command = Some (ex_id e) /\
  newest_task_of (d_tasks (db_of s)) (ex_id e) = Some (pt_task_id command) /\ ExchangeStore.live e.

Lemma settle_to_quiet command x status keep s :
  at_rest s -> NoDup (ex_id <$> exchanges_of s) ->
  match exchange_at x s with
  | Some e =>
      if decide (newest_task_of (d_tasks (db_of s)) x = Some (pt_task_id command) /\ ExchangeStore.live e /\
                 (keep = true -> ex_status e <> ExchangeStatus.AWAITING_USER))
      then exists t, settle_to others command x status keep s =
             (Ok true, with_db (set_d_exchanges t (db_of s)) (ticked s)) /\
             find_key ex_id x t = Some (assign_settled (w_now s) status None e) /\
             forall y, y <> x -> find_key ex_id y t = exchange_at y s
      else exists s', settle_to others command x status keep s = (Ok false, s') /\ at_rest s' /\
             db_of s' = db_of s /\ w_run s' = w_run s
  | None => exists s', settle_to others command x status keep s = (Ok false, s') /\ at_rest s' /\
             db_of s' = db_of s /\ w_run s' = w_run s
  end.
Proof.
  intros Hs Hnd. unfold settle_to, exchanges_settle_owned, utc_now, gets, bind.
  rewrite (db_write_quiet others Hquiet) by done. unfold on_table.
  change (table (D:=Db) (R:=Task) (db_of s)) with (d_tasks (db_of s)).
  pose proof (settle_owned_functional (w_now s) (d_tasks (db_of s)) x (pt_task_id command) status keep
    (exchanges_of s) Hnd) as Hf.
  change (table (D:=Db) (R:=Exchange) (db_of s)) with (exchanges_of s). unfold exchange_at.
  assert (db_of (with_db (set_table (exchanges_of s) (db_of s)) (ticked s)) = db_of s) as Hsame.
  { change (set_d_exchanges (d_exchanges (db_of s)) (db_of s) = db_of s). by destruct (db_of s). }
  destruct (find_key ex_id x (exchanges_of s)) as [e|].
  - case_decide.
    + destruct Hf as (t & -> & Hx & Hother). eexists. split; [done|]. by split.
    + rewrite Hf. eexists. split; [done|]. split; [done|]. split; [exact Hsame|done].
  - rewrite Hf. eexists. split; [done|]. split; [done|]. split; [exact Hsame|done].
Qed.

(** What becomes of the exchange of a run that missed nothing, or nothing but
    material; the words a run missed are another matter. *)
Definition next_exchange (now : time) (outcome : ExchangeStatus.t) (unseen : Unseen) (e : Exchange)
    : Exchange :=
  if decide (outcome = ExchangeStatus.CANCELLED) then assign_settled now outcome None e
  else
    match unseen with
    | MATERIAL_ONLY => assign_settled now ExchangeStatus.COLLECTING None e
    | _ => if decide (ex_status e = ExchangeStatus.AWAITING_USER) then e
           else assign_settled now outcome None e
    end.

Lemma touch_quiet x s t e :
  at_rest s -> exchanges_of s = t -> find_key ex_id x t = Some e ->
  exists s', exchanges_touch others x s = (Ok tt, s') /\
    exchange_at x s' = Some (assign_touch (w_now s) e) /\
    forall y, y <> x -> exchange_at y s' = find_key ex_id y t.
Proof.
  intros Hs <- He. unfold exchanges_touch, utc_now, gets, bind.
  rewrite (db_write_quiet others Hquiet) by done. unfold on_table. cbn.
  change (table (D:=Db) (R:=Exchange) (db_of s)) with (exchanges_of s).
  eexists. split; [done|].
  assert (forall r, ex_id (assign_touch (w_now s) r) = ex_id r) as Hid by done.
  assert (forall y, find_key ex_id y (update_where (fun r => ex_id r = x) (assign_touch (w_now s)) (exchanges_of s))
    = (if decide (y = x) then assign_touch (w_now s) <$> find_key ex_id y (exchanges_of s)
       else find_key ex_id y (exchanges_of s))) as Hup.
  { intros y. case_decide as Hy.
    - rewrite find_key_update_fixed by done. destruct (find_key ex_id y (exchanges_of s)) as [r|] eqn:Hr; [|done].
      cbn. apply find_key_Some in Hr as [_ Hr]. rewrite decide_True by congruence. done.
    - apply (find_key_update_ne ex_id y x); [|done|done]. by intros r. }
  split.
  - unfold exchange_at, exchanges_of. cbn. rewrite Hup, decide_True by done. unfold exchange_at in He. by rewrite He.
  - intros y Hy. unfold exchange_at, exchanges_of. cbn. by rewrite Hup, decide_False.
Qed.

(** C4: The run that ended still owns its exchange: the exchange moves as the
    run's end says.  A cancelled run closes it; material that came too late
    parks it as a collection; an exchange waiting for the user keeps waiting;
    otherwise it takes the run's outcome.  The user's own words reopen it and
    go to a fresh run.  Nothing else moves. *)
Theorem run_end_settles command outcome e s :
  at_rest s -> NoDup (ex_id <$> exchanges_of s) -> owns command e s ->
  pt_exchange_status command = Some outcome ->
  if decide (outcome <> ExchangeStatus.CANCELLED /\ pt_unseen command = SPOKEN) then
    exists s1, settle_exchange config others command s = resume_open_exchange config others (ex_id e) true s1 /\
      exchange_at (ex_id e) s1 = Some (assign_settled (w_now s) ExchangeStatus.OPEN None e) /\
      forall y, y <> ex_id e -> exchange_at y s1 = exchange_at y s
  else
    exists s', settle_exchange config others command s = (Ok tt, s') /\
      exchange_at (ex_id e) s' = Some (next_exchange (w_now s) outcome (pt_unseen command) e) /\
      forall y, y <> ex_id e -> exchange_at y s' = exchange_at y s.
Proof.
  intros Hs Hnd (He & Hx & Hnew & Hlive) Hout. unfold settle_exchange. rewrite Hx, Hout.
  pose proof (fun status keep => settle_to_quiet command (ex_id e) status keep s Hs Hnd) as Hset.
  rewrite He in Hset. unfold next_exchange.
  destruct (decide (outcome = ExchangeStatus.CANCELLED)) as [->|Hnc].
  - rewrite decide_False by tauto. rewrite bool_decide_true by done. cbn [negb].
    specialize (Hset ExchangeStatus.CANCELLED false). rewrite decide_True in Hset by done.
    destruct Hset as (t & Hrun & Hxt & Hother). rewrite (bind_Ok _ _ _ _ _ Hrun). eexists. by split_and!.
  - rewrite bool_decide_false by done. cbn [negb]. destruct (pt_unseen command).
    + rewrite decide_False by (by intros []). specialize (Hset outcome true).
      destruct (decide (ex_status e = ExchangeStatus.AWAITING_USER)) as [Ha|Ha].
      * rewrite decide_False in Hset by naive_solver. destruct Hset as (s' & Hrun & _ & Hdb & _).
        rewrite (bind_Ok _ _ _ _ _ Hrun). exists s'. unfold exchange_at, exchanges_of in *. by rewrite Hdb.
      * rewrite decide_True in Hset by done. destruct Hset as (t & Hrun & Hxt & Hother).
        rewrite (bind_Ok _ _ _ _ _ Hrun). eexists. by split_and!.
    + rewrite decide_False by (by intros []). specialize (Hset ExchangeStatus.COLLECTING false).
      rewrite decide_True in Hset by done. destruct Hset as (t & Hrun & Hxt & Hother).
      rewrite (bind_Ok _ _ _ _ _ Hrun). cbn [when].
      destruct (touch_quiet (ex_id e) (with_db (set_d_exchanges t (db_of s)) (ticked s)) t _ Hs eq_refl Hxt)
        as (s' & -> & Hx' & Hother'). exists s'. split; [done|]. split; [exact Hx'|].
      intros y Hy. rewrite Hother' by done. by apply Hother.
    + rewrite decide_True by done. specialize (Hset ExchangeStatus.OPEN false).
      rewrite decide_True in Hset by done. destruct Hset as (t & Hrun & Hxt & Hother).
      rewrite (bind_Ok _ _ _ _ _ Hrun). cbn [when]. eexists. by split_and!.
Qed.
End Settling.
