(* ===== verification/ActorLaws.v ===== *)
(** * More laws of the actor ([agent/runner.py])

    Refusals, questions, shutdown, and two places where the code does less
    than its comments say. *)
From S2P Require Import Prelude PyStr Clock Sql Dict Domain UnitOfWork Branch Broadcast Codec TaskStore ExchangeStore MessageStore ClaimStore Compactor Router RunnerText RunnerState Outbox Pump PumpLaws Answers Intake Actor IntakeLaws.

Section Refusals.
Context (config : RunnerConfig) (others : nat -> World -> World) (Hquiet : quiet others).

(** The stored generation of the actor's dialog is its own, or there is no
    claim at all. *)
Definition holds_claim (s : World) : Prop :=
  match find_key cl_dialog_id (dlg_id (r_dialog (w_run s))) (d_claims (db_of s)) with
  | Some claim => cl_generation claim = cl_generation (r_claim (w_run s))
  | None => True
  end.

Lemma still_owns_quiet s :
  at_rest s -> holds_claim s -> still_owns_dialog others s = (Ok true, ticked s).
Proof.
  intros Hs Hc. unfold still_owns_dialog, except_exception, try_except, claims_current_generation,
    dialog_id, runner, gets, bind.
  rewrite (db_read_quiet others Hquiet) by done. cbn. unfold holds_claim in Hc.
  destruct (find_key cl_dialog_id _ (d_claims (db_of s))) as [claim|]; cbn; [|done].
  by rewrite Hc, Z.eqb_refl.
Qed.

(** The plan's daily budget is spent: the answer is refused and the exchange,
    the log and the runs stay exactly as they are.  The user is told at most
    once a day. *)
Theorem refused_answer_changes_nothing limits verdict exchange message key epoch notify s :
  at_rest s -> holds_claim s -> cfg_limits config = Some limits ->
  (forall user t, lg_check_run_budget limits user t = (Ok verdict, t)) -> lv_allowed verdict = false ->
  start_answer config others exchange message key epoch false s = (Ok tt, ticked s) /\
  (dict_get ANSWER_NOTE_KEY (r_tariff_notes (w_run s)) = Some (format_day (w_now s)) ->
   start_answer config others exchange message key epoch notify s = (Ok tt, ticked s)).
Proof.
  intros Hs Hc Hl Hv Hno.
  assert (run_budget_verdict config (ticked s) = (Ok (Some verdict), ticked s)) as Hb.
  { unfold run_budget_verdict, runner, gets, bind. rewrite Hl, Hv, Hno. done. }
  unfold start_answer. rewrite !(bind_Ok _ _ _ _ _ (still_owns_quiet s Hs Hc)). cbn [negb].
  rewrite !(bind_Ok _ _ _ _ _ Hb). split; [done|]. intros Hday. destruct notify; [|done]. cbn [when].
  unfold tariff_notice_once, utc_now, runner, gets, bind. cbn. by rewrite decide_True.
Qed.

(** The task an answer run works off. *)
Definition answer_task (exchange : Exchange) (message : ChatMessage) (key : option pystr) (s : World) : Task :=
  {| tk_id := uuid4_hex (w_ids s); tk_dialog_id := dlg_id (r_dialog (w_run s));
     tk_title := ex_title exchange; tk_kind := TaskKind.ANSWER;
     tk_input := task_input (w_now s) (ex_title exchange) (cm_content message) TaskKind.ANSWER None
       (Some {| as_message_id := cm_id message; as_client_message_id := key;
                as_exchange_id := Some (ex_id exchange) |});
     tk_exchange_id := Some (ex_id exchange); tk_status := TaskStatus.RUNNING; tk_result := None;
     tk_error := None; tk_created_at := w_now s; tk_started_at := Some (w_now s);
     tk_finished_at := None; tk_delivered_at := None |}.
Definition obliged (exchange : Exchange) (task : Task) (now : time) (d : Db) : Db :=
  set_d_exchanges (update_where (fun e => ex_id e = ex_id exchange)
    (assign_settled now ExchangeStatus.IN_PROGRESS None) (d_exchanges d))
    (set_d_tasks (d_tasks d ++ [task]) d).

(** Inside a unit, whose session holds [d]: the task is added. *)
Lemma prepare_answer_enter exchange message key d w s :
  faults (w_conn s) = [] -> find_key tk_id (uuid4_hex (w_ids s)) (d_tasks d) = None ->
  let task := answer_task exchange message key s in
  exists w', prepare_process_task others (ex_title exchange) (cm_content message) TaskKind.ANSWER None
      (Some {| as_message_id := cm_id message; as_client_message_id := key;
               as_exchange_id := Some (ex_id exchange) |}) (enter_unit d w s) =
    (Ok task, enter_unit (set_d_tasks (d_tasks d ++ [task]) d) w' (set_w_ids (w_ids s + 1)%N s)).
Proof.
  intros Hf Hid task. unfold prepare_process_task, utc_now, dialog_id, runner, gets, fresh_id.
  do 3 (unfold bind at 1). cbn [mbind option_bind as_exchange_id].
  change (set_w_ids _ (enter_unit d w s)) with (enter_unit d w (set_w_ids (w_ids s + 1)%N s)).
  destruct (db_write_enter others (on_table (Sql.add task)) d w (set_w_ids (w_ids s + 1)%N s) Hf) as [w1 Hw1].
  assert (on_table (D:=Db) (Sql.add task) d = (Ok tt, set_d_tasks (d_tasks d ++ [task]) d)) as Hadd.
  { unfold on_table, Sql.add. change (table d) with (d_tasks d). change (tk_id task) with (uuid4_hex (w_ids s)).
    by rewrite Hid. }
  rewrite Hadd in Hw1. unfold tasks_add. exists w1. by rewrite (bind_Ok _ _ _ _ _ Hw1).
Qed.

(** The unit of work of a start: the task and the status, together. *)
Lemma obligation_stored exchange e0 message key s :
  at_rest s -> cfg_null_unit config = false ->
  find_key tk_id (uuid4_hex (w_ids s)) (d_tasks (db_of s)) = None ->
  find_key ex_id (ex_id exchange) (d_exchanges (db_of s)) = Some e0 ->
  let task := answer_task exchange message key s in
  unit_of_work config others
    (let! task := prepare_process_task others (ex_title exchange) (cm_content message) TaskKind.ANSWER None
       (Some {| as_message_id := cm_id message; as_client_message_id := key;
                as_exchange_id := Some (ex_id exchange) |}) in
     exchanges_set_status others (ex_id exchange) ExchangeStatus.IN_PROGRESS None ;;;
     ret task) s =
  (Ok task, with_db (obliged exchange task (w_now s) (db_of s)) (set_w_ids (w_ids s + 1)%N (ticked s))).
Proof.
  intros Hs Hnull Hid Hx task. set (s2 := set_w_ids (w_ids s + 1)%N (ticked s)).
  destruct (prepare_answer_enter exchange message key (db_of s) false (ticked s) (proj1 Hs) Hid) as [w1 Hw1].
  set (d1 := set_d_tasks _ _) in Hw1.
  destruct (db_write_enter others (on_table (ExchangeStore.set_status (w_now s) (ex_id exchange)
    ExchangeStatus.IN_PROGRESS None)) d1 w1 s2 (proj1 Hs)) as [w2 Hw2].
  assert (on_table (D:=Db) (ExchangeStore.set_status (w_now s) (ex_id exchange) ExchangeStatus.IN_PROGRESS None) d1
    = (Ok tt, obliged exchange task (w_now s) (db_of s))) as Hset.
  { unfold on_table, ExchangeStore.set_status. change (table d1) with (d_exchanges (db_of s)).
    rewrite decide_False; [done|]. rewrite rowcount_key. by rewrite Hx. }
  rewrite Hset in Hw2. eapply (unit_quiet others Hquiet); [done|done| |done].
  rewrite (bind_Ok _ _ _ _ _ Hw1). unfold exchanges_set_status, utc_now, gets. rewrite bind_assoc.
  unfold bind at 1. rewrite (bind_Ok _ _ _ _ _ Hw2). done.
Qed.

(** A compactor that raises makes the assembly raise. *)
Lemma assembly_fails err own s :
  at_rest s -> (forall d h t, cc_assemble (cfg_compactor config) d h t = (Err err, t)) ->
  (forall n, cfg_left_first config n = true) ->
  exists s', assemble_narrative config others own s = (Err err, s') /\
    r_processes (w_run s') = r_processes (w_run s) /\ db_of s' = db_of s.
Proof.
  intros Hs Hasm Hleft. unfold assemble_narrative. unfold bind at 1, runner, gets.
  match goal with |- context [locked others set_r_assemble_lock ?b] => set (inner := b) end.
  assert (exists s4, locked others set_r_assemble_lock inner s = (Err err, s4) /\
    r_processes (w_run s4) = r_processes (w_run s) /\ db_of s4 = db_of s) as (s4 & Hlock & Hp4 & Hd4).
  { rewrite (locked_quiet others Hquiet) by done. unfold inner, gather, bind, gets. rewrite Hleft, Hasm.
    by eexists. }
  rewrite (bind_Err _ _ _ _ _ Hlock). by exists s4.
Qed.

(** The run is gone but its obligation is not: when the branch cannot be
    assembled after the task was stored, the start raises, and the unit of
    work already committed leaves the exchange in progress under a running
    task that has no process.  The sweep looks for OPEN exchanges, so it
    passes this one by. *)
Theorem failed_assembly_strands exchange e0 message key epoch notify s err :
  at_rest s -> holds_claim s -> cfg_limits config = None -> cfg_null_unit config = false ->
  (forall d h t, cc_assemble (cfg_compactor config) d h t = (Err err, t)) ->
  (forall n, cfg_left_first config n = true) ->
  find_key tk_id (uuid4_hex (w_ids s)) (d_tasks (db_of s)) = None ->
  find_key ex_id (ex_id exchange) (d_exchanges (db_of s)) = Some e0 ->
  exists s', start_answer config others exchange message key epoch notify s = (Err err, s') /\
    r_processes (w_run s') = r_processes (w_run s) /\
    (exists e', find_key ex_id (ex_id exchange) (d_exchanges (db_of s')) = Some e' /\
       ex_status e' = ExchangeStatus.IN_PROGRESS) /\
    (exists t, find_key tk_id (uuid4_hex (w_ids s)) (d_tasks (db_of s')) = Some t /\
       tk_status t = TaskStatus.RUNNING /\ tk_exchange_id t = Some (ex_id exchange)).
Proof.
  intros Hs Hc Hl Hnull Hasm Hleft Hid Hx. unfold start_answer.
  rewrite (bind_Ok _ _ _ _ _ (still_owns_quiet s Hs Hc)). cbn [negb].
  assert (run_budget_verdict config (ticked s) = (Ok None, ticked s)) as Hb
    by (unfold run_budget_verdict; by rewrite Hl).
  rewrite (bind_Ok _ _ _ _ _ Hb).
  rewrite (bind_Ok _ _ _ _ _ (obligation_stored exchange e0 message key (ticked s) Hs Hnull Hid Hx)).
  set (task := answer_task _ _ _ _). set (s3 := with_db _ _).
  destruct (assembly_fails err (Some (ex_id exchange)) s3 Hs Hasm Hleft) as (s4 & Hrun & Hp & Hd).
  unfold create_answer_process. rewrite bind_assoc, (bind_Err _ _ _ _ _ Hrun).
  exists s4. rewrite Hd, Hp. split_and!; [done|done| |].
  - exists (assign_settled (w_now s) ExchangeStatus.IN_PROGRESS None e0). split; [|done].
    change (d_exchanges (db_of s3)) with (update_where (fun e => ex_id e = ex_id exchange)
      (assign_settled (w_now s) ExchangeStatus.IN_PROGRESS None) (d_exchanges (db_of s))).
    rewrite find_key_update_fixed by done. rewrite Hx. cbn.
    apply find_key_Some in Hx as [_ Hx]. by rewrite decide_True.
  - exists task. split; [|done]. change (d_tasks (db_of s3)) with (d_tasks (db_of s) ++ [task]).
    rewrite find_key_app, Hid. cbn. unfold find_key. cbn. by rewrite decide_True.
Qed.
End Refusals.

(** ** Standing down *)

Section StandDown.
Context (config : RunnerConfig) (others : nat -> World -> World).

Definition silenced (s : World) : Prop :=
  r_stood_down (w_run s) = true /\ h_subscribers (r_hub (w_run s)) = [].

(** Standing down, whatever else goes on: every open stream gets its end
    marker, no subscriber is left, and that stays so; doing it again does
    nothing, and a late subscriber is told at once. *)
Theorem stand_down_closes s :
  (forall k t, silenced t -> silenced (others k t)) ->
  (forall d, preserves silenced (cc_aclose (cfg_compactor config) d)) ->
  r_stood_down (w_run s) = false ->
  Forall (fun kq => queue_bounded kq.2) (h_subscribers (r_hub (w_run s))) ->
  let '(r, s') := stand_down config others s in
  silenced s' /\
  match r with
  | Ok closed => fst <$> closed = fst <$> h_subscribers (r_hub (w_run s)) /\
                 Forall (fun kq => last kq.2 = Some STREAM_CLOSED /\ queue_bounded kq.2) closed
  | Err _ => True
  end /\
  (forall t, r_stood_down (w_run t) = true ->
     stand_down config others t = (Ok [], t) /\
     (forall key, subscribe key t = (Ok [STREAM_CLOSED], t)) /\
     can_still_answer others t = (Ok false, t)).
Proof.
  intros Hothers Haclose Hs Hb.
  assert (forall t, r_stood_down (w_run t) = true ->
     stand_down config others t = (Ok [], t) /\
     (forall key, subscribe key t = (Ok [STREAM_CLOSED], t)) /\
     can_still_answer others t = (Ok false, t)) as Hagain.
  { intros t Ht. unfold stand_down, subscribe, can_still_answer, runner, gets, id, bind. rewrite Ht.
    by split_and!. }
  assert (preserves silenced (yield others)) as Hyield.
  { intros t Ht. unfold yield. destruct (in_unit_of_work _); [done|]. cbn. by apply Hothers. }
  assert (preserves silenced (stop config others)) as Hstop.
  { unfold stop. apply preserves_bind; [apply preserves_gets|intros ps].
    apply preserves_bind; [by apply preserves_modify|intros _].
    apply preserves_bind; [by apply preserves_for_each|intros _].
    apply preserves_bind; [done|intros _]. apply preserves_bind; [apply preserves_gets|intros d]. apply Haclose. }
  unfold stand_down, runner, gets, id, bind, update, modify. rewrite Hs.
  set (s1 := set_w_run _ s). assert (silenced s1) as Hs1 by done. specialize (Hstop s1 Hs1).
  destruct (stop config others s1) as [[[]|e] s2]; cbn in Hstop; (split; [exact Hstop|]); (split; [|exact Hagain]); [|done].
  split.
  - rewrite <-list_fmap_compose. apply list_fmap_ext. by intros i [k q] _.
  - apply Forall_fmap. eapply Forall_impl; [exact Hb|]. intros [k q] Hq. cbn [snd] in Hq.
    change (last (close_stream q) = Some STREAM_CLOSED /\ queue_bounded (close_stream q)).
    destruct (close_stream_spec q Hq) as [Heq Hbound]. split; [|exact Hbound]. by rewrite Heq, last_snoc.
Qed.
End StandDown.

(** ** Moving a collection into an exchange that is being answered *)

Section Reparent.
Context (config : RunnerConfig) (others : nat -> World -> World) (Hquiet : quiet others).
Context (collection target : pystr).

Definition moved (m : ChatMessage) : ChatMessage :=
  if decide (cm_exchange_id m = Some collection) then with_exchange (Some target) m else m.

(** The part of the world a move leaves alone. *)
Definition same_work (s s' : World) : Prop :=
  at_rest s' /\ r_processes (w_run s') = r_processes (w_run s) /\
  d_exchanges (db_of s') = d_exchanges (db_of s) /\ r_dialog (w_run s') = r_dialog (w_run s).

Lemma set_exchange_quiet id x s :
  at_rest s -> exists s', messages_set_exchange others id x s = (Ok tt, s') /\ same_work s s' /\
    r_narrative (w_run s') = r_narrative (w_run s).
Proof.
  intros Hs. unfold messages_set_exchange. rewrite (db_write_quiet others Hquiet) by done. cbn.
  eexists. by split_and!.
Qed.

Lemma insert_drop_take {A} (l : list A) i x y :
  l !! i = Some x -> take (S i) (<[i := y]> l) = take i l ++ [y] /\ drop (S i) (<[i := y]> l) = drop (S i) l.
Proof.
  intros Hx. pose proof (lookup_lt_Some _ _ _ Hx). split.
  - rewrite (take_S_r _ _ y) by (apply list_lookup_insert_eq; lia).
    f_equal. by rewrite take_insert_ge by lia.
  - by rewrite drop_insert_lt by lia.
Qed.

(** The walk of [_reparent_material] relabels the rest of the narrative. *)
Lemma reparent_from_quiet fuel i s :
  at_rest s -> length (r_narrative (w_run s)) <= fuel + i ->
  exists s', reparent_from others fuel i collection target s = (Ok tt, s') /\ same_work s s' /\
    r_narrative (w_run s') = take i (r_narrative (w_run s)) ++ (moved <$> drop i (r_narrative (w_run s))).
Proof.
  revert i s. induction fuel as [|fuel IH]; intros i s Hs Hlen; cbn [reparent_from].
  - exists s. split; [done|]. split; [done|]. rewrite drop_ge, take_ge by lia. by rewrite app_nil_r.
  - unfold bind at 1, runner, gets. destruct (r_narrative (w_run s) !! i) as [m|] eqn:Hm.
    2: { apply lookup_ge_None in Hm. exists s. split; [done|]. split; [done|].
         rewrite drop_ge, take_ge by lia. by rewrite app_nil_r. }
    case_decide as Hx.
    + destruct (IH (S i) s Hs ltac:(lia)) as (s' & Hrun & Hsame & Hn). exists s'. split; [done|].
      split; [done|]. rewrite Hn, (drop_S (r_narrative (w_run s)) m i) by done. cbn. unfold moved at 2. rewrite decide_False by done.
      rewrite (take_S_r (r_narrative (w_run s)) i m) by done. by rewrite <-app_assoc.
    + unfold bind at 1, update, modify.
      set (s1 := set_w_run _ s). assert (at_rest s1) as Hs1 by done.
      set (step := match cm_id m with Some _ => _ | None => _ end).
      assert (exists s2, step s1 = (Ok tt, s2) /\ same_work s1 s2 /\
        r_narrative (w_run s2) = r_narrative (w_run s1)) as (s2 & Hstep & Hsame2 & Hn2).
      { unfold step. destruct (cm_id m); [by apply set_exchange_quiet|]. exists s1. by split_and!. }
      rewrite (bind_Ok _ _ _ _ _ Hstep). destruct Hsame2 as (Hs2 & Hp2 & Hd2 & Hg2).
      change (r_narrative (w_run s1)) with (<[i := with_exchange (Some target) m]> (r_narrative (w_run s))) in Hn2.
      destruct (IH (S i) s2 Hs2) as (s' & Hrun & (Hs' & Hp' & Hd' & Hg') & Hn).
      { rewrite Hn2, length_insert. lia. }
      exists s'. split; [exact Hrun|]. split.
      { split_and!; [done|by rewrite Hp', Hp2|by rewrite Hd', Hd2|by rewrite Hg', Hg2]. }
      rewrite Hn, Hn2. destruct (insert_drop_take _ _ _ (with_exchange (Some target) m) Hm) as [-> ->].
      rewrite (drop_S (r_narrative (w_run s)) m i) by done. cbn. unfold moved at 2. rewrite decide_True by done.
      by rewrite <-app_assoc.
Qed.
End Reparent.

Section ReparentLive.
Context (config : RunnerConfig) (others : nat -> World -> World) (Hquiet : quiet others).

Lemma set_status_quiet x e status q s :
  at_rest s -> find_key ex_id x (d_exchanges (db_of s)) = Some e ->
  exists s', exchanges_set_status others x status q s = (Ok tt, s') /\ at_rest s' /\ w_run s' = w_run s /\
    (forall y, is_Some (find_key ex_id y (d_exchanges (db_of s))) ->
       is_Some (find_key ex_id y (d_exchanges (db_of s')))) /\
    find_key ex_id x (d_exchanges (db_of s')) = Some (assign_settled (w_now s) status q e).
Proof.
  intros Hs He. unfold exchanges_set_status, utc_now, gets, bind.
  rewrite (db_write_quiet others Hquiet) by done. unfold on_table, ExchangeStore.set_status.
  change (table (D:=Db) (R:=Exchange) (db_of s)) with (d_exchanges (db_of s)).
  rewrite decide_False by (rewrite rowcount_key; by rewrite He).
  eexists. split; [done|]. split; [done|]. split; [done|]. cbn. split.
  - intros y Hy. rewrite find_key_update_fixed by done. by apply fmap_is_Some.
  - rewrite find_key_update_fixed by done. rewrite He. cbn. apply find_key_Some in He as [_ He].
    by rewrite decide_True.
Qed.

(** Intake promoted into an exchange that a run is answering, when that run
    has synced it already (as somebody else's material): the run's next sync
    is skipped, its branch never shows the material as its own, and its end
    finds nothing unseen, although the collection is gone. *)
Theorem reparented_material_is_missed collection target p s :
  at_rest s ->
  is_Some (find_key ex_id (ex_id collection) (d_exchanges (db_of s))) ->
  is_Some (find_key ex_id (ex_id target) (d_exchanges (db_of s))) ->
  live_process_for (ex_id target) (w_run s) = Some p ->
  dict_get (p_id p) (r_processes (w_run s)) = Some p ->
  p_watermark p = length (r_narrative (w_run s)) ->
  exists s', reparent_material config others collection target s = (Ok tt, s') /\
    r_narrative (w_run s') = (moved (ex_id collection) (ex_id target) <$> r_narrative (w_run s)) /\
    dict_get (p_id p) (r_processes (w_run s')) = Some p /\
    sync_branch config others (p_id p) false s' = (Ok tt, s') /\
    unseen_kind p (r_narrative (w_run s')) = UNSEEN_NONE.
Proof.
  intros Hs [ec Hec] [et Het] Hlive Hget Hwm. unfold reparent_material. unfold bind at 1, runner, gets.
  destruct (reparent_from_quiet others Hquiet (ex_id collection) (ex_id target)
    (length (r_narrative (w_run s))) 0 s Hs ltac:(lia)) as (s1 & Hr1 & (Hs1 & Hp1 & Hd1 & _) & Hn1).
  rewrite drop_0, take_0 in Hn1. cbn in Hn1. rewrite (bind_Ok _ _ _ _ _ Hr1).
  destruct (set_status_quiet (ex_id collection) ec ExchangeStatus.CANCELLED None s1 Hs1)
    as (s2 & Hr2 & Hs2 & Hw2 & Hk2 & _); [by rewrite Hd1|].
  rewrite (bind_Ok _ _ _ _ _ Hr2).
  destruct (Hk2 (ex_id target)) as [et2 Het2]; [rewrite Hd1; by eexists|].
  destruct (touch_quiet others Hquiet (ex_id target) s2 _ et2 Hs2 eq_refl Het2) as (s3 & Hr3 & _).
  rewrite (bind_Ok _ _ _ _ _ Hr3).
  assert (w_run s3 = w_run s2) as Hw3.
  { unfold exchanges_touch, utc_now, gets, bind in Hr3. rewrite (db_write_quiet others Hquiet) in Hr3 by done.
    cbn in Hr3. by injection Hr3 as <-. }
  assert (r_processes (w_run s3) = r_processes (w_run s)) as Hp3 by by rewrite Hw3, Hw2, Hp1.
  assert (r_narrative (w_run s3) = moved (ex_id collection) (ex_id target) <$> r_narrative (w_run s)) as Hn3
    by by rewrite Hw3, Hw2, Hn1.
  unfold bind, runner, gets.
  assert (live_process_for (ex_id target) (w_run s3) = Some p) as ->.
  { unfold live_process_for in *. by rewrite Hp3. }
  exists s3. split; [done|]. split; [done|]. rewrite Hp3. split; [done|]. split.
  - unfold sync_branch, the_process, get_process, runner, gets, bind. rewrite Hp3, Hget. unfold ret.
    destruct (p_narrative_built p); [|done]. cbn [negb andb].
    by rewrite Hn3, length_fmap, Hwm, bool_decide_true.
  - unfold unseen_kind, arrived. rewrite Hn3, drop_ge by (rewrite length_fmap; lia).
    by destruct (_ || _).
Qed.
End ReparentLive.
