(* ===== verification/StoreExamples.v ===== *)
(** * Stores and the actor on concrete data

    Each theorem of the stores, of the compactor, of the texts and of the actor that has
    hypotheses, applied where they hold. *)
From S2P Require Import Prelude PyStr Clock Sql Dict Domain UnitOfWork Branch Broadcast Codec TaskStore ExchangeStore MessageStore ClaimStore SummaryStore Compactor Router RunnerText RunnerState Outbox Pump PumpLaws Answers Intake Actor Loop LoopLaws Samples AnswerLaws IntakeLaws ActorLaws.

(** ** Units of work *)

Definition two_inserts : M (Conn (list nat)) Exn unit :=
  on_conn (write_session (modify (fun l => 1 :: l))) ;;; on_conn (write_session (modify (fun l => 2 :: l))).
Definition fragile (faults : list bool) : Conn (list nat) :=
  {| committed := [0]; active := None; faults := faults |}.

Lemma uow_atomic_witness :
  uow false two_inserts (fragile [false; false; true]) = (Err StoreError, fragile []) /\
  uow false two_inserts (fragile []) = (Ok tt, {| committed := [2; 1; 0]; active := None; faults := [] |}) /\
  committed (uow false two_inserts (fragile [false; false; true])).2 = [0].
Proof.
  split; [reflexivity|]. split; [reflexivity|].
  assert (evolves within_unit two_inserts) as Hb.
  { unfold two_inserts. apply evolves_bind; [exact _|apply write_session_within|].
    intros _. apply write_session_within. }
  pose proof (uow_atomic two_inserts (fragile [false; false; true]) Hb eq_refl) as H. exact (proj2 H).
Defined.

(** ** Tasks *)

Lemma sql_store_refines_reference_witness :
  let calls := [CAdd (a_task "t1" (Some "x" : option pystr) 5); CMarkDone 9 "t1" "sunny" true;
                CGet "t1"; CAdd (a_task "t2" (Some "x" : option pystr) 7); COrphaned (Some ("d" : pystr));
                CUndelivered None; CForRecovery None] in
  (TaskStore.run_calls InMemory.ops calls []).1 = (TaskStore.run_calls Sql.ops calls []).1.
Proof.
  apply sql_store_refines_reference.
  - split; constructor.
  - cbn [admissible admissible_call]. repeat split; try (vm_compute; reflexivity); apply (bool_decide_unpack _); vm_compute; exact I.
Defined.
(** Where the two stores differ: a used id, and a task made before the others. *)
Example used_id_differs :
  let calls := [CAdd (a_task "t1" None 5); CAdd (a_task "t1" None 6)] in
  (TaskStore.run_calls InMemory.ops calls []).1 = [Ok AUnit; Ok AUnit] /\
  (TaskStore.run_calls Sql.ops calls []).1 = [Ok AUnit; Err IntegrityError].
Proof. split; vm_compute; reflexivity. Qed.
Example earlier_task_differs :
  let calls := [CAdd (a_task "t1" None 6); CAdd (a_task "t2" None 5); CList "d"] in
  last (TaskStore.run_calls InMemory.ops calls []).1 = Some (Ok (ATasks [a_task "t1" None 6; a_task "t2" None 5])) /\
  last (TaskStore.run_calls Sql.ops calls []).1 = Some (Ok (ATasks [a_task "t2" None 5; a_task "t1" None 6])).
Proof. split; vm_compute; reflexivity. Qed.

(** ** Exchanges *)

Lemma settled_is_final_witness :
  exists e', find_key ex_id "x" (ExchangeStore.run_calls
      [(5%Z, [], Touch "x"); (6%Z, [], Reopen "d"); (7%Z, [], Settle "x" "t" ExchangeStatus.FAILED false)]
      [an_exchange "x" ExchangeStatus.ANSWERED 0]) = Some e' /\ ex_status e' = ExchangeStatus.ANSWERED.
Proof.
  destruct (settled_is_final
    [(5%Z, [], Touch "x"); (6%Z, [], Reopen "d"); (7%Z, [], Settle "x" "t" ExchangeStatus.FAILED false)]
    [an_exchange "x" ExchangeStatus.ANSWERED 0] (an_exchange "x" ExchangeStatus.ANSWERED 0) "x")
    as (e' & He & Hs); [reflexivity|reflexivity|repeat constructor|].
  exists e'. split; [exact He|]. symmetry. apply Hs.
Defined.

Lemma stale_run_outvoted_witness :
  let tasks := [a_task "t1" (Some "x" : option pystr) 1; a_task "t2" (Some "x" : option pystr) 2] in
  let t := [an_exchange "x" ExchangeStatus.IN_PROGRESS 0] in
  settle_owned 9 tasks "x" "t1" ExchangeStatus.ANSWERED false t = (Ok None, t).
Proof.
  apply (stale_run_outvoted 9 _ (a_task "t1" (Some "x" : option pystr) 1) (a_task "t2" (Some "x" : option pystr) 2)).
  - apply (bool_decide_unpack _). vm_compute. exact I.
  - apply (bool_decide_unpack _). vm_compute. exact I.
  - left.
  - right. left.
  - reflexivity.
  - discriminate.
  - reflexivity.
Defined.

(** ** The message log *)

(** A log of one dialog, with its seqs. *)
Lemma one_dialog_ok d t :
  NoDup (mr_id <$> t) -> NoDup (client_keys t) -> Forall (fun r => mr_dialog_id r = d) t ->
  mr_seq <$> t = seqZ 1 (Z.of_nat (length t)) -> messages_ok t.
Proof.
  intros Hid Hck Hd Hseq. split_and!; [done|done|]. intros d'. unfold in_dialog.
  destruct (decide (d' = d)) as [->|Hne].
  - by rewrite filter_all.
  - rewrite filter_none; [done|]. eapply Forall_impl; [exact Hd|]. intros r Hr Hx. by rewrite Hr in Hx.
Qed.

Definition short_log : list MessageRow :=
  [a_row "m1" "d" 1 "hello" (Some "k1"); a_row "m2" "d" 2 "weather?" (Some "k2")].
Lemma short_log_ok : messages_ok short_log.
Proof.
  apply (one_dialog_ok "d"); [| |repeat constructor|reflexivity];
    apply (bool_decide_unpack _); vm_compute; exact I.
Qed.

Definition on_log (t : list MessageRow) : Conn (list MessageRow) :=
  {| committed := t; active := None; faults := [] |}.
#[export] Instance log_is_table : HasTable (list MessageRow) MessageRow.
Proof. refine {| table := fun t => t; set_table t _ := t |}; done. Defined.

(** Another writer slips in under the first attempt. *)
Definition one_race (k : nat) : list MessageRow :=
  match k with O => [a_row "m3" "d" 3 "and you?" None] | _ => [] end.
Definition ids (prefix : pystr) (k : nat) : pystr := prefix +s+ str_of_Z (Z.of_nat k).

Ltac log_ok := apply (one_dialog_ok "d"); [| |repeat constructor|reflexivity];
  apply (bool_decide_unpack _); vm_compute; exact I.
Lemma one_race_ok : races_ok one_race (log_of (on_log short_log)).
Proof.
  intros k Hk. unfold MESSAGE_SEQ_RETRY_ATTEMPTS in Hk.
  do 6 (destruct k as [|k]; [log_ok|]). lia.
Qed.

Lemma fresh_one_race prefix :
  fresh_ids (ids prefix) (raced one_race MESSAGE_SEQ_RETRY_ATTEMPTS (log_of (on_log short_log))) <->
  Forall (fun k => ids prefix k ∉ (mr_id <$> short_log ++ one_race 0)) (seq 0 5).
Proof.
  unfold fresh_ids. rewrite Forall_forall. split.
  - intros H k Hk. apply elem_of_seq in Hk. by apply H; unfold MESSAGE_SEQ_RETRY_ATTEMPTS; lia.
  - intros H k Hk. apply H, elem_of_seq. unfold MESSAGE_SEQ_RETRY_ATTEMPTS in Hk. lia.
Qed.
Ltac fresh_ok := apply fresh_one_race; apply (bool_decide_unpack _); vm_compute; exact I.

Lemma append_not_lost_witness :
  exists c', append false one_race (ids "a") 0 "d" (chat_message MessageRole.USER "hi") None (Some "k9")
      (on_log short_log) = (Ok (ids "a" 1), c') /\ map mr_seq (log_of c') = [1; 2; 3; 4]%Z.
Proof.
  destruct (append_not_lost false one_race (ids "a") 0 "d" (chat_message MessageRole.USER "hi") None
    (Some "k9" : option pystr) (on_log short_log) 1) as (k & c' & seq & Hk & Hrun & Hlog & Hseq).
  - by split.
  - apply one_race_ok.
  - fresh_ok.
  - intros k x [= <-] Hin. apply elem_of_client_keys in Hin as (r & Hr & _ & Hx).
    unfold raced in Hr. apply elem_of_app in Hr as [Hr|Hr].
    + assert (Forall (fun r => mr_client_message_id r <> Some ("k9" : pystr)) short_log) as Hall
        by (repeat constructor; discriminate).
      rewrite Forall_forall in Hall. by apply (Hall r Hr).
    + apply list_elem_of_In, in_concat in Hr as (l & Hl & Hr). apply list_elem_of_In in Hl, Hr.
      apply list_elem_of_fmap in Hl as ([|n] & -> & _); [|by apply not_elem_of_nil in Hr].
      apply list_elem_of_singleton in Hr as ->. discriminate.
  - unfold MESSAGE_SEQ_RETRY_ATTEMPTS. lia.
  - reflexivity.
  - exists c'. destruct k as [|[|k]]; [|split; [exact Hrun|]|lia].
    + vm_compute in Hrun. discriminate.
    + rewrite Hlog, Hseq. vm_compute. reflexivity.
Defined.

Lemma append_pair_spec_witness :
  exists c', append_pair false one_race (ids "a") (ids "b") 0 "d"
      (chat_message MessageRole.ASSISTANT "it is") (chat_message MessageRole.SYSTEM INTERRUPTED_NOTE)
      (on_log short_log) = (Ok tt, c') /\ map mr_seq (log_of c') = [1; 2; 3; 4; 5]%Z.
Proof.
  destruct (append_pair_spec false one_race (ids "a") (ids "b") 0 "d"
    (chat_message MessageRole.ASSISTANT "it is") (chat_message MessageRole.SYSTEM INTERRUPTED_NOTE)
    (on_log short_log)) as (k & c' & Hk & _ & Hlost & Hres).
  - by split.
  - apply one_race_ok.
  - fresh_ok.
  - fresh_ok.
  - intros k Heq. by apply (f_equal codes) in Heq.
  - exists c'. cbv zeta in Hres.
    destruct k as [|[|k]].
    + destruct Hres as [[Hno _]|[Hz _]]; [vm_compute in Hno; discriminate|discriminate].
    + destruct Hres as [(_ & Hrun & Hlog)|[Hz _]]; [|discriminate]. split; [exact Hrun|].
      rewrite Hlog. vm_compute. reflexivity.
    + exfalso. apply (Hlost 1); [lia|reflexivity].
Defined.

Definition a_summary (from to : Z) : DialogueSummary :=
  {| sm_id := "s1"; sm_dialog_id := "d"; sm_seq_from := from; sm_seq_to := to; sm_topics := [];
     sm_content := "greeted"; sm_created_at := 0 |}.
Lemma hot_slice_complete_witness :
  filter (fun r => (mr_seq r <= 1)%Z) (in_dialog "d" short_log) ++ select_after "d" 1 short_log =
    in_dialog "d" short_log.
Proof.
  destruct (hot_slice_complete [a_summary 1 1] "d" short_log) as [H _].
  - apply short_log_ok.
  - by repeat constructor.
  - exact H.
Defined.

(** ** Claims and dialogs *)

Lemma preempted_never_confirmed_witness :
  exists kept t2, heartbeat 9 [a_claim "host-a" 1 0]
    (ClaimStore.run_calls [(5%Z, Release "d" "host-b" 2); (6%Z, Claim "d" "host-c")]
       (claim 4 "d" "host-b" [a_claim "host-a" 1 0]).2) = (Ok kept, t2) /\ ("d" : pystr) ∉ kept.
Proof.
  apply (preempted_never_confirmed [(5%Z, Release "d" "host-b" 2); (6%Z, Claim "d" "host-c")]
    [a_claim "host-a" 1 0] "d" "host-a" "host-b" 4 9 [a_claim "host-a" 1 0]).
  - split; repeat constructor; [apply not_elem_of_nil|done].
  - discriminate.
  - repeat constructor; discriminate.
  - intros c. unfold held_of. cbn. intros [= <-]%lookup_insert_Some || (rewrite lookup_insert_eq; intros [= <-]). reflexivity.
Defined.

Lemma release_exact_witness :
  find_key cl_dialog_id "d" (release "d" "host-a" 1 [a_claim "host-a" 1 0]).2 = None /\
  (release "d" "host-a" 1 [a_claim "host-b" 2 0]).2 = [a_claim "host-b" 2 0].
Proof.
  split.
  - apply (release_exact "d" "host-a" 1 [a_claim "host-a" 1 0]).
    + split; repeat constructor; [apply not_elem_of_nil|done].
    + by eexists.
  - apply (release_exact "d" "host-a" 1 [a_claim "host-b" 2 0]).
    + split; repeat constructor; [apply not_elem_of_nil|done].
    + intros (r & [= <-] & Ho & _). discriminate.
Defined.

Lemma get_or_create_spec_witness :
  dialogs_ok (committed (get_or_create [] "d2" 5 "u" "web"
    ({| committed := [a_dialog]; active := None; faults := [] |} : Conn (list Dialog))).2).
Proof.
  assert (dialogs_ok [a_dialog]) as Hok by (split; repeat constructor; apply not_elem_of_nil).
  set (tables := {| table := fun t : list Dialog => t; set_table t _ := t;
    table_set := fun _ _ => eq_refl; set_table_set := fun _ _ _ => eq_refl;
    set_table_same := fun _ => eq_refl |} : HasTable (list Dialog) Dialog).
  pose proof (get_or_create_spec (H := tables) [] "d2" 5 "u" "web"
    {| committed := [a_dialog]; active := None; faults := [] |} eq_refl eq_refl Hok) as H.
  specialize (H Hok). vm_compute get_or_create in H |- *. destruct H as [H _]. exact H.
Defined.

(** ** Compaction *)

(** A compactor alone with a database. *)
Record Bench := { b_conn : Conn Db; b_guard : Guard }.
#[export] Instance bench_has_conn : HasConn Bench Db.
Proof.
  refine {| conn_of := b_conn; set_conn c s := {| b_conn := c; b_guard := b_guard s |} |}; [done|done|by intros []].
Defined.
Definition set_b_guard (g : Guard) (s : Bench) : Bench := {| b_conn := b_conn s; b_guard := g |}.
Definition no_guard : Guard := {| running := ∅; live := ∅; next_task := 0 |}.
Definition bench (messages : list MessageRow) (g : Guard) : Bench :=
  {| b_conn := {| committed := a_db [] [] messages; active := None; faults := [] |}; b_guard := g |}.
Definition alone : nat -> Bench -> Bench := fun _ s => s.
Definition summariser : list ChatMessage -> M Bench Exn (ChatMessage * option Usage) := fun _ =>
  ret (chat_message MessageRole.ASSISTANT
    (str_join newline ["TOPICS: Weather, weather"; "SUMMARY:"; "asked about the weather"]), None).
Definition long_log : list MessageRow :=
  short_log ++ [a_row "m3" "d" 3 "and tomorrow?" None].

Definition one_by_one : CompactorConfig :=
  {| hot_max_chars := 1; compact_target_chars := 12; model_context_tokens := 0; context_buffer_tokens := 0 |}.

Lemma compact_spec_witness :
  let '(r, s') := compact summariser None id id one_by_one alone "s9" 5 a_dialog (bench long_log no_guard) in
  r = Ok tt /\ log_at "d" (bench long_log no_guard) `prefix_of` log_at "d" s' /\
  boundary_at "d" s' = 1%Z /\ boundary_at "d" (bench long_log no_guard) = 0%Z.
Proof.
  assert (messages_ok long_log) as Hlog.
  { apply (one_dialog_ok "d"); [| |repeat constructor|reflexivity];
      apply (bool_decide_unpack _); vm_compute; exact I. }
  assert (forall d (s : Bench), steady "s9" d s s) as Hsame by (intros d s Hs; by split_and!).
  pose proof (compact_spec summariser None id id one_by_one alone a_dialog "s9" 5
    ltac:(intros k s; apply Hsame) ltac:(intros l s; apply Hsame) ltac:(discriminate)
    (bench long_log no_guard)) as H.
  assert (sound "s9" "d" (bench long_log no_guard)) as Hs.
  { split; [by split|exact Hlog|apply not_elem_of_nil|constructor]. }
  specialize (H Hs). 
  assert ((compact summariser None id id one_by_one alone "s9" 5 a_dialog (bench long_log no_guard)).1 = Ok tt /\
    boundary_at "d" (compact summariser None id id one_by_one alone "s9" 5 a_dialog (bench long_log no_guard)).2 = 1%Z)
    as [Hr Hb] by (vm_compute; by split).
  destruct (compact _ _ _ _ _ _ _ _ _ _) as [r s']. destruct H as [Hpre _]. by split_and!.
Defined.

(** A compaction of the first message lands while [assemble] waits for its
    counter. *)
Definition first_summary : DialogueSummary :=
  {| sm_id := "s1"; sm_dialog_id := "d"; sm_seq_from := 1; sm_seq_to := 1; sm_topics := []; sm_content := "greeted"; sm_created_at := 0 |}.
Definition summarised (s : Bench) : Bench :=
  set_conn (with_committed (set_table (table (committed (conn_of s)) ++ [first_summary]) (committed (conn_of s))) (conn_of s)) s.
Definition landing (k : nat) (s : Bench) : Bench := if decide (k = 0) then summarised s else s.
(** The narrative, which is the log here. *)
Definition shown_row (r : MessageRow) : ChatMessage := chat_message MessageRole.USER (mr_content r).
Definition narrative_of (s : Bench) : list ChatMessage := shown_row <$> log_at "d" s.

Lemma landing_grows : boundary_grows landing "d".
Proof.
  intros k s Hs. unfold landing. case_decide; [|by split]. split; [exact Hs|].
  unfold boundary_at, boundary_of, summarised. rewrite conn_set. cbn. unfold select_where. rewrite filter_app.
  set (l := filter _ (d_summaries _)). destruct (decide (l = [])) as [->|Hne]; [done|].
  destruct (max_of_in sm_seq_to NO_COMPACTED_SEQ l Hne) as (m & Hm & ->).
  apply max_of_ge. apply elem_of_app. by left.
Qed.
Lemma assemble_spec_witness :
  exists ac s', assemble one_by_one b_guard set_b_guard landing true a_dialog narrative_of (bench short_log no_guard) = (Ok ac, s') /\
    ac_messages ac = [topics_block [first_summary]; shown_row (a_row "m2" "d" 2 "weather?" (Some "k2"))] /\
    forall r, r ∈ short_log -> (mr_seq r <= 1)%Z \/ shown_row r ∈ ac_messages ac.
Proof.
  destruct (assemble_spec one_by_one b_guard set_b_guard landing true a_dialog narrative_of (bench short_log no_guard))
    as (ac & s' & Hrun & Hmsgs & _ & _ & _ & _ & Hgap).
  - by split.
  - exact landing_grows.
  - exists ac, s'. split; [exact Hrun|]. split; [rewrite Hmsgs; vm_compute; reflexivity|].
    intros r Hr. apply (Hgap [shown_row (a_row "m1" "d" 1 "hello" (Some "k1"))] shown_row); [vm_compute; reflexivity|exact Hr].
Defined.
(** A message that arrives between the count and the look at the narrative
    takes the place of the oldest one counted, which no summary covers. *)
Definition arriving (k : nat) (s : Bench) : Bench :=
  if decide (k = 1) then set_conn (with_committed (set_table (long_log) (committed (conn_of s))) (conn_of s)) s else s.
Example late_message_leaves_gap :
  match (assemble one_by_one b_guard set_b_guard arriving true a_dialog narrative_of (summarised (bench short_log no_guard))).1 with
  | Ok ac => cm_content <$> tail (ac_messages ac) = ["and tomorrow?" : pystr] /\ ac_tail_count ac = 1 /\ ac_snapshot_len ac = 3
  | Err _ => False
  end.
Proof. vm_compute. split_and!; reflexivity. Qed.

Lemma one_compaction_per_dialog_witness :
  let g := (start_compact "d" (start_compact "d" no_guard).2).2 in
  live g !! 0%N = Some ("d" : pystr) /\ (0 = 0)%N.
Proof.
  split; [reflexivity|].
  apply (one_compaction_per_dialog (start_compact "d" (start_compact "d" no_guard).2).2 0 0 "d"); [|reflexivity..].
  eapply star_step; [apply (GStart "d")|]. eapply star_step; [apply (GStart "d")|]. apply star_refl.
Defined.

Lemma compact_now_inherits_failure_witness :
  let g := (start_compact "d" no_guard).2 in
  exists s', compact_now summariser None id id one_by_one b_guard set_b_guard alone
    (fun k => if decide (k = 3) then Err StoreError else Ok tt) "s9" 5 a_dialog (bench short_log g) = (Err StoreError, s').
Proof.
  apply (compact_now_inherits_failure summariser None id id one_by_one b_guard set_b_guard alone
    (fun k => if decide (k = 3) then Err StoreError else Ok tt) "s9" 5 a_dialog
    (bench short_log (start_compact "d" no_guard).2) 0 StoreError); [by split|by split|reflexivity| |reflexivity..].
  by eexists.
Defined.

Definition archived (seq : Z) (content : pystr) : ArchivedMessage :=
  {| am_seq := seq; am_role := MessageRole.USER; am_content := content; am_created_at := 0 |}.
Lemma select_compact_segment_bound_witness :
  let tail := [archived 1 "hello"; archived 2 "there"; archived 3 "now"] in
  select_compact_segment tail 6 = [archived 1 "hello"] /\
  (total_chars (select_compact_segment tail 6) <= Z.max 5 6 + str_len INTERRUPTED_NOTE)%Z.
Proof.
  split; [reflexivity|].
  apply (select_compact_segment_bound [archived 1 "hello"; archived 2 "there"; archived 3 "now"] 6
    (archived 1 "hello")). reflexivity.
Defined.

(** ** Texts, branches, streams *)

Definition many (n : nat) (c : N) : pystr := PyStr (repeat c n).

Lemma middle_out_ends_witness :
  exists a m b, middle_out (many 60 120) 40 = a +s+ m +s+ b /\
    (1 <= str_len a)%Z /\ (1 <= str_len b)%Z.
Proof.
  destruct (middle_out_ends (many 60 120) 40) as (a & m & b & Heq & _ & _ & Ha & Hb).
  - apply (bool_decide_unpack _). vm_compute. exact I.
  - apply (bool_decide_unpack _). vm_compute. exact I.
  - exists a, m, b. split; [exact Heq|]. split; [exact Ha|exact Hb].
Defined.

Lemma bounded_preview_bound_witness :
  (str_len (bounded_preview [many 60 120; many 90 121] 80) <= 81)%Z.
Proof.
  apply (bounded_preview_bound [many 60 120; many 90 121] 80); [discriminate|].
  apply (bool_decide_unpack _). vm_compute. exact I.
Defined.

Lemma render_branch_spec_witness :
  let msgs := [a_message MessageRole.USER "news?" (Some "y"); forwarded "a link" (Some "x");
               a_message MessageRole.USER "weather?" (Some "x")] in
  map cm_content (render_branch msgs (Some "x") {["y"]}) =
    [MATERIAL_NOTE_TEMPLATE "a link"; TASK_NOTE_TEMPLATE "weather?"] /\
  with_content (TASK_NOTE_TEMPLATE "weather?") (a_message MessageRole.USER "weather?" (Some "x"))
    ∈ render_branch msgs (Some "x") {["y"]}.
Proof.
  split; [vm_compute; reflexivity|].
  destruct (render_branch_spec [a_message MessageRole.USER "news?" (Some ("y" : pystr));
    forwarded "a link" (Some ("x" : pystr)); a_message MessageRole.USER "weather?" (Some ("x" : pystr))] "x" {["y"]})
    as (_ & _ & H).
  apply (H 2 _ eq_refl). by split.
Defined.

Definition one_subscriber : Hub := {| h_seq := 4; h_dropped := 0; h_subscribers := [(1%N, [])] |}.
Lemma broadcast_accepted_witness :
  (broadcast "d" (Failed "boom") (Some "x") one_subscriber).2 = 1 /\
  exists i q e, (i, q ++ [Some e]) ∈ h_subscribers (broadcast "d" (Failed "boom") (Some "x") one_subscriber).1 /\
    ce_payload e = Failed "boom" /\ ce_exchange_id e = Some ("x" : pystr) /\ ce_seq e = 5%Z.
Proof.
  split; [reflexivity|].
  apply (broadcast_accepted "d" (Failed "boom") (Some ("x" : pystr)) one_subscriber).
  - unfold hub_ok, one_subscriber, queue_bounded, queue_ordered. repeat constructor.
  - apply (bool_decide_unpack _). vm_compute. exact I.
Defined.

(** ** The theorems of the actor on a concrete dialog *)

(** Each theorem about runs, intake and the actor that has hypotheses,
    applied to the sample dialog. *)
(** ** The end of a run *)

Definition sunny : ChatMessage := chat_message MessageRole.ASSISTANT "sunny".
(** The same dialog over a database whose n-th round trip fails. *)
Definition failing_world (n : nat) : World :=
  set_w_conn {| committed := db_of answering_world; active := None;
                faults := repeat false n ++ [true] |} answering_world.

Lemma finish_done_atomic_witness :
  (let '(r, s') := finish_done plain_config nobody (a_process "t" (Some "x")) sunny None (failing_world 1) in
   r = Err StoreError /\ db_of s' = db_of (failing_world 1) /\
   r_narrative (w_run s') = r_narrative (w_run (failing_world 1))) /\
  (let '(r, s') := finish_done plain_config nobody (a_process "t" (Some "x")) sunny None answering_world in
   (exists task, r = Ok task /\ tk_status task = TaskStatus.DONE) /\
   map cm_content (r_narrative (w_run s')) = ["weather?"; "sunny"]).
Proof.
  split.
  - pose proof (finish_done_atomic plain_config nobody (a_process "t" (Some ("x" : pystr))) sunny None
      (failing_world 1) eq_refl eq_refl eq_refl eq_refl) as H.
    assert ((finish_done plain_config nobody (a_process "t" (Some ("x" : pystr))) sunny None (failing_world 1)).1
      = Err StoreError) as Hr by (vm_compute; reflexivity).
    destruct (finish_done _ _ _ _ _ _) as [r s']. cbn [fst] in Hr. subst r. split; [reflexivity|]. exact H.
  - pose proof (finish_done_atomic plain_config nobody (a_process "t" (Some ("x" : pystr))) sunny None
      answering_world eq_refl eq_refl eq_refl eq_refl) as H.
    destruct (finish_done _ _ _ _ _ answering_world) as [r s'] eqn:Hrun.
    assert (exists task, r = Ok task /\ tk_status task = TaskStatus.DONE) as (task & -> & Hst).
    { apply (f_equal fst) in Hrun. cbn in Hrun. subst r. eexists. split; vm_compute; reflexivity. }
    split; [by exists task|]. destruct H as (i & t & _ & _ & ->). vm_compute. reflexivity.
Defined.

Lemma unseen_kind_spec_witness :
  let narrative := [a_message MessageRole.USER "weather?" (Some "x"); a_message MessageRole.USER "in Oslo" (Some "x")] in
  unseen_kind (a_process "t" (Some "x")) narrative = SPOKEN.
Proof.
  apply (unseen_kind_spec (a_process "t" (Some ("x" : pystr))) "x" eq_refl eq_refl).
  exists (a_message MessageRole.USER "in Oslo" (Some ("x" : pystr))). split; [|discriminate].
  apply list_elem_of_filter. split; [by split|]. cbn. left.
Defined.

Definition followed_up : World :=
  set_w_run (set_r_narrative [a_message MessageRole.USER "hello" None;
      a_message MessageRole.USER "weather?" (Some "x"); a_message MessageRole.USER "in Oslo" (Some "x")]
    (set_r_processes [("t" : pystr, set_p_watermark 2 (a_process "t" (Some "x")))] (w_run answering_world)))
    answering_world.

Lemma trim_keeps_unseen_witness :
  exists p', dict_get "t" (r_processes (w_run (trim_narrative 1 followed_up).2)) = Some p' /\
    unseen_kind p' (r_narrative (w_run (trim_narrative 1 followed_up).2)) = SPOKEN.
Proof.
  destruct (trim_keeps_unseen 1 "t" (set_p_watermark 2 (a_process "t" (Some ("x" : pystr)))) followed_up
    (trim_narrative 1 followed_up).2) as (p' & Hp & Hu); [reflexivity|reflexivity|cbn; lia|].
  exists p'. split; [exact Hp|]. rewrite Hu. reflexivity.
Defined.

Lemma trim_forgets_unseen_witness :
  unseen_kind (set_p_watermark 2 (a_process "t" (Some "x"))) (r_narrative (w_run followed_up)) = SPOKEN /\
  exists p', dict_get "t" (r_processes (w_run (trim_narrative 3 followed_up).2)) = Some p' /\
    unseen_kind p' (r_narrative (w_run (trim_narrative 3 followed_up).2)) = UNSEEN_NONE.
Proof.
  split; [reflexivity|].
  apply (trim_forgets_unseen 3 "t" (set_p_watermark 2 (a_process "t" (Some ("x" : pystr)))) "x" followed_up);
    [reflexivity|reflexivity|reflexivity|cbn; lia|lia|constructor].
Defined.

Lemma asked_run_is_silent_witness :
  let asked := set_p_asked true (a_process "t" (Some "x")) in
  exists out, outgoing asked (Finished sunny None None) = Some out /\ out <> ReasoningDelta /\
    match out with Finished message _ _ => cm_content message = "" | _ => False end.
Proof.
  eexists. split; [reflexivity|]. split; [|reflexivity].
  apply (asked_run_is_silent plain_config nobody (set_p_asked true (a_process "t" (Some ("x" : pystr))))
    (Finished sunny None None) _ eq_refl eq_refl).
Defined.

(** ** While a run works *)

Lemma sync_branch_spec_witness :
  let '(r, s') := sync_branch plain_config nobody "t" false followed_up in
  r = Ok tt /\
  exists p', dict_get "t" (r_processes (w_run s')) = Some p' /\
    synced plain_config s' (set_p_watermark 2 (a_process "t" (Some "x"))) p' /\ length (p_branch p') = 4.
Proof.
  assert (env_allows nobody (leaves_run "t")) as Henv
    by (constructor; intros; (split; [|intros p Hp; by exists p]); done).
  assert (CompactorLaws (cfg_compactor plain_config) (leaves_run "t")) as Hlaws by (apply noop_laws; exact _).
  pose proof (sync_branch_spec plain_config nobody "t" Henv false followed_up
    (sync_branch plain_config nobody "t" false followed_up).2
    (set_p_watermark 2 (a_process "t" (Some ("x" : pystr)))) eq_refl) as H.
  assert ((sync_branch plain_config nobody "t" false followed_up).1 = Ok tt) as Hr by (vm_compute; reflexivity).
  assert (exists p', dict_get "t" (r_processes (w_run (sync_branch plain_config nobody "t" false followed_up).2)) = Some p' /\
    length (p_branch p') = 4) as (p1 & Hp1 & Hlen).
  { eexists. split; vm_compute; reflexivity. }
  destruct (sync_branch plain_config nobody "t" false followed_up) as [r s']. cbn [fst snd] in *. subst r.
  split; [reflexivity|]. destruct (H eq_refl) as [[[[?|[_ ?]] _]|[_ (p' & Hp' & Hs)]] _]; [discriminate|discriminate|].
  exists p'. split; [exact Hp'|]. split; [exact Hs|]. congruence.
Defined.

Lemma stream_terminal_two_turns_witness :
  stream_loop plain_config nobody 5 "t" answering_world = stream_terminal plain_config nobody "t" answering_world /\
  (stream_terminal plain_config nobody "t" answering_world).1 = Ok (Finished sunny None None).
Proof.
  assert (env_keeps plain_config nobody (retried "t")) as Henv.
  { constructor; try (intros; exact H); try discriminate.
    - by intros dialog history s Hs.
    - by intros dialog s Hs.
    - intros pid context s Hs. repeat (split; [exact Hs|]; intros ? ?). by split. }
  split; [|vm_compute; reflexivity].
  apply (stream_terminal_two_turns plain_config nobody "t" Henv 3 answering_world).
Defined.

Lemma pump_releases_slot_witness :
  let s' := (pump_process plain_config nobody (a_process "t" (Some "x")) answering_world).2 in
  dict_get "t" (r_processes (w_run s')) = None /\
  exists inbox c, r_inbox (w_run s') = inbox ++ [CTerminated c] /\ pt_task_id c = "t" /\ pt_exchange_id c = Some ("x" : pystr) /\
    length (r_inbox (w_run s')) = 1.
Proof.
  assert (env_keeps plain_config nobody (own_process "t" (same_run (a_process "t" (Some ("x" : pystr)))))) as Henv.
  { constructor; try (intros; exact H); try discriminate.
    - by intros dialog history s Hs.
    - by intros dialog s Hs.
    - intros pid context s Hs. repeat (split; [exact Hs|]; intros ? ?). by split. }
  assert (length (r_inbox (w_run (pump_process plain_config nobody (a_process "t" (Some ("x" : pystr))) answering_world).2)) = 1) as Hlen
    by (vm_compute; reflexivity).
  pose proof (pump_releases_slot plain_config nobody (a_process "t" (Some ("x" : pystr))) answering_world) as H. cbv zeta in H |- *.
  destruct H as (terminal & status & task & cut & s1 & c & _ & Hslot & _ & _ & Hinbox & _ & _ & _ & _ & Htask & Hex & Hsame).
  destruct (Hsame Henv eq_refl) as [H1 H2]. split; [exact Hslot|]. exists (r_inbox (w_run s1)), c. split; [exact Hinbox|].
  split; [rewrite Htask; exact H1|]. split; [rewrite Hex; exact H2|]. exact Hlen.
Defined.

(** The same dialog before the question is answered. *)
Definition waiting_world : World :=
  a_world (a_db [an_exchange "x" ExchangeStatus.OPEN 0] [] [a_row "m1" "d" 1 "weather?" (Some "k1")]) []
    (a_runner [a_message MessageRole.USER "weather?" (Some "x")] []).
Definition runs_of (s : World) : list (option pystr) := p_exchange_id <$> (snd <$> processes_of s).

(** A run of each kind starts, and the limits hold. *)
Lemma starts_keep_limits_witness :
  let spawned := (spawn_task plain_config nobody "news" "read the news" answering_world).2 in
  let woken := (wake plain_config nobody "news" "read the news" "job" answering_world).2 in
  let resumed := (resume_open_exchange plain_config nobody "x" true waiting_world).2 in
  let owned := (ensure_owner plain_config nobody "x" (a_message MessageRole.USER "weather?" (Some "x")) None ∅ None None waiting_world).2 in
  let restarted := (restart_task plain_config nobody (a_task "o" (Some "y") 0) answering_world).2 in
  Forall (runs_ok 3) [spawned; woken; resumed; owned; restarted] /\
  runs_of <$> [spawned; woken; resumed; owned; restarted] =
    [[Some "x"; None]; [Some "x"; None]; [Some "x"]; [Some "x"]; [Some "x"; Some "y"]].
Proof.
  assert (surroundings plain_config nobody) as Hsur.
  { constructor; [by intros k s|by intros d h s|discriminate]. }
  assert (runs_ok 3 answering_world) as Hok.
  { split_and!; [apply NoDup_singleton|apply (bool_decide_unpack _); vm_compute; exact I|].
    intros k1 k2 p1 p2 e H1 H2 _ _. cbn in H1, H2. repeat case_decide; congruence. }
  assert (runs_ok 3 waiting_world) as Hidle.
  { split_and!; [apply NoDup_nil_2|apply (bool_decide_unpack _); vm_compute; exact I|]. intros k1 k2 p1 p2 e H1 H2 _ _. discriminate H1. }
  destruct (starts_keep_limits plain_config nobody Hsur) as (Hspawn & Hwake & Hresume & Hown & Hrestart).
  cbv zeta. split; [|vm_compute; reflexivity]. repeat apply Forall_cons_2; [| | | | |apply Forall_nil_2].
  - exact (Hspawn _ _ _ Hok).
  - exact (Hwake _ _ _ _ Hok).
  - exact (Hresume _ _ _ Hidle).
  - apply Hown; [by intros k s Hs|exact I|exact Hidle|]. intros k p e H. discriminate H.
  - apply Hrestart; [by intros k s Hs|exact Hok|]. intros k q H He. cbn in H. case_decide; [|discriminate H]. injection H as <-. discriminate He.
Defined.

(** ** The outbox *)

Definition a_delivery : Delivery :=
  {| dv_key := 1; dv_events := [Finished sunny None None]; dv_task_id := Some "t"; dv_exchange_id := Some "x" |}.
Definition attached (n : nat) : World :=
  set_w_run (set_r_pending [a_delivery] (set_r_hub
    {| h_seq := 0; h_dropped := 0; h_subscribers := repeat (1%N, []) n |} (w_run answering_world))) answering_world.

Lemma flush_deliveries_spec_witness :
  outbox_of (flush_deliveries nobody (attached 1)).2 = [] /\
  outbox_of (flush_deliveries nobody (attached 0)).2 = [a_delivery] /\
  exists done, outbox_of (attached 1) = done ++ outbox_of (flush_deliveries nobody (attached 1)).2.
Proof.
  split; [vm_compute; reflexivity|]. split; [vm_compute; reflexivity|].
  destruct (flush_deliveries_spec nobody nobody_quiet (attached 1)) as (s' & done & Hrun & _ & Hdone & _); [by split|].
  exists done. rewrite Hrun. exact Hdone.
Defined.

(** ** Commands of the actor *)

Definition ended (unseen : Unseen) : ProcessTerminated :=
  {| pt_task_id := "t"; pt_terminal := Some (Finished sunny None None); pt_exchange_id := Some "x";
     pt_delivered_live := true; pt_exchange_status := Some ExchangeStatus.ANSWERED; pt_task := None;
     pt_unseen := unseen |}.

Lemma run_end_settles_witness :
  exists s', settle_exchange plain_config nobody (ended MATERIAL_ONLY) answering_world = (Ok tt, s') /\
    ex_status <$> exchange_at "x" s' = Some ExchangeStatus.COLLECTING.
Proof.
  pose proof (run_end_settles plain_config nobody nobody_quiet (ended MATERIAL_ONLY) ExchangeStatus.ANSWERED
    (an_exchange "x" ExchangeStatus.IN_PROGRESS 0) answering_world answering_at_rest) as H.
  rewrite decide_False in H by (intros [_ ?]; discriminate).
  destruct H as (s' & Hrun & Hx & _).
  - apply NoDup_singleton.
  - split_and!; [reflexivity|reflexivity|reflexivity|]. apply (bool_decide_unpack _). vm_compute. exact I.
  - reflexivity.
  - exists s'. split; [exact Hrun|]. change (ex_id (an_exchange "x" ExchangeStatus.IN_PROGRESS 0)) with ("x" : pystr) in Hx.
    rewrite Hx. reflexivity.
Defined.

(** "weather?" was sent, then stop was pressed, then the answer starts. *)
Definition asked_then_stopped : World :=
  (handle_cancel (submit "weather?" (Some "k2") None None answering_world).2).2.
Definition unanswered (s : World) : World := set_w_run (set_r_processes [] (w_run s)) s.

Lemma stop_covers_routing_witness :
  let s := unanswered asked_then_stopped in
  let run := start_answer plain_config nobody (an_exchange "x" ExchangeStatus.OPEN 0)
    (a_message MessageRole.USER "weather?" (Some "x")) (Some "k2") (Some 0%Z) true s in
  run.1 = Ok tt /\
  exists p, dict_get (p_id p) (r_processes (w_run run.2)) = Some p /\
    p_exchange_id p = Some ("x" : pystr) /\ p_cancelled p = true.
Proof.
  cbv zeta.
  pose proof (stop_covers_routing plain_config nobody "weather?" (Some ("k2" : pystr)) None None answering_world
    (submit "weather?" (Some ("k2" : pystr)) None None answering_world).2
    {| sb_message := chat_message MessageRole.USER "weather?"; sb_client_message_id := Some ("k2" : pystr);
       sb_reply_to_exchange_id := None; sb_cancel_epoch := 0; sb_origin := None |}
    (an_exchange "x" ExchangeStatus.OPEN 0) (a_message MessageRole.USER "weather?" (Some ("x" : pystr)))
    (Some ("k2" : pystr)) true (unanswered asked_then_stopped)
    (start_answer plain_config nobody (an_exchange "x" ExchangeStatus.OPEN 0)
      (a_message MessageRole.USER "weather?" (Some ("x" : pystr))) (Some ("k2" : pystr)) (Some 0%Z) true
      (unanswered asked_then_stopped)).2 eq_refl eq_refl) as H.
  cbn [sb_cancel_epoch] in H.
  assert ((start_answer plain_config nobody (an_exchange "x" ExchangeStatus.OPEN 0)
      (a_message MessageRole.USER "weather?" (Some ("x" : pystr))) (Some ("k2" : pystr)) (Some 0%Z) true
      (unanswered asked_then_stopped)).1 = Ok tt /\
    r_cancel_epoch (w_run (start_answer plain_config nobody (an_exchange "x" ExchangeStatus.OPEN 0)
      (a_message MessageRole.USER "weather?" (Some ("x" : pystr))) (Some ("k2" : pystr)) (Some 0%Z) true
      (unanswered asked_then_stopped)).2) = 1%Z /\
    r_preempted (w_run (start_answer plain_config nobody (an_exchange "x" ExchangeStatus.OPEN 0)
      (a_message MessageRole.USER "weather?" (Some ("x" : pystr))) (Some ("k2" : pystr)) (Some 0%Z) true
      (unanswered asked_then_stopped)).2) = false) as (Hr & He & Hp) by (vm_compute; by split_and!).
  destruct (start_answer _ _ _ _ _ _ _ _) as [r s']. cbn [fst snd] in *. subst r. split; [reflexivity|].
  destruct (H) as [Hpre|[(v & t & t' & Hb)|Hrun]]; [|reflexivity|congruence| |exact Hrun].
  - exists answering_world. rewrite He. by split.
  - discriminate.
Defined.

Lemma actor_survives_witness :
  let s := set_w_run (set_r_inbox [CTerminated (ended UNSEEN_NONE)] (w_run (failing_world 0))) (failing_world 0) in
  exists s2, actor_turn plain_config nobody s = (Ok tt, s2) /\ db_of s2 = db_of s.
Proof.
  cbv zeta. set (s := set_w_run _ _).
  set (s1 := (dispatch plain_config nobody (CTerminated (ended UNSEEN_NONE)) (set_w_run (set_r_inbox [] (w_run s)) s)).2).
  destruct (actor_survives plain_config nobody (CTerminated (ended UNSEEN_NONE)) [] s StoreError s1)
    as (s2 & Hrun & ->).
  - reflexivity.
  - vm_compute. reflexivity.
  - reflexivity.
  - vm_compute. reflexivity.
  - vm_compute. reflexivity.
  - exists s1. split; [exact Hrun|]. vm_compute. reflexivity.
Defined.

Definition a_submit (key : pystr) (message : ChatMessage) : Submit :=
  {| sb_message := message; sb_client_message_id := Some key; sb_reply_to_exchange_id := None;
     sb_cancel_epoch := 0; sb_origin := Some "news channel" |}.

Lemma duplicate_submit_ignored_witness :
  handle_submit plain_config nobody (a_submit "k1" (chat_message MessageRole.USER "weather?")) answering_world =
    (Ok tt, ticked answering_world) /\
  length (d_messages (db_of (handle_submit plain_config nobody
    (a_submit "k2" (chat_message MessageRole.USER "weather?")) answering_world).2)) = 2.
Proof.
  split; [|vm_compute; reflexivity].
  apply (duplicate_submit_ignored plain_config nobody nobody_quiet _ "k1"); [exact answering_at_rest|reflexivity|].
  left. by split.
Defined.

Lemma material_starts_nothing_witness :
  let s' := (handle_submit plain_config nobody (a_submit "k3" (forwarded "a link" None)) answering_world).2 in
  same_runs answering_world s' /\ map cm_content (r_narrative (w_run s')) = ["weather?"; "a link"].
Proof.
  split; [|vm_compute; reflexivity].
  apply (material_starts_nothing plain_config nobody); [by repeat split|discriminate|reflexivity].
Defined.

Definition spent : LimitVerdict :=
  {| lv_allowed := false; lv_reason := Some "daily tokens"; lv_used := 10; lv_limit := 10 |}.
Definition strict : LimitGate :=
  {| lg_check_run_budget _ := ret spent; lg_record _ := ret tt; lg_enabled_features _ := ret None |}.

Lemma refused_answer_changes_nothing_witness :
  start_answer (a_config (Some strict) noop_compactor) nobody (an_exchange "x" ExchangeStatus.OPEN 0)
    (a_message MessageRole.USER "weather?" (Some "x")) None None false answering_world =
  (Ok tt, ticked answering_world).
Proof.
  refine (proj1 (refused_answer_changes_nothing (a_config (Some strict) noop_compactor) nobody nobody_quiet strict spent
    (an_exchange "x" ExchangeStatus.OPEN 0) (a_message MessageRole.USER "weather?" (Some ("x" : pystr))) None None
    false answering_world answering_at_rest eq_refl eq_refl _ eq_refl)). reflexivity.
Defined.

(** A compactor whose reads fail. *)
Definition broken_compactor : ContextCompactor World :=
  {| cc_assemble _ _ := raise StoreError; cc_compacted_boundary _ := raise StoreError;
     cc_compact_now _ := ret false; cc_aclose _ := ret tt |}.
Definition open_world : World :=
  a_world (a_db [an_exchange "x" ExchangeStatus.OPEN 0] [] [a_row "m1" "d" 1 "weather?" (Some "k1")]) []
    (a_runner [a_message MessageRole.USER "weather?" (Some "x")] []).

Lemma failed_assembly_strands_witness :
  exists s', start_answer (a_config None broken_compactor) nobody (an_exchange "x" ExchangeStatus.OPEN 0)
      (a_message MessageRole.USER "weather?" (Some "x")) None None true open_world = (Err StoreError, s') /\
    r_processes (w_run s') = [] /\ ex_status <$> d_exchanges (db_of s') = [ExchangeStatus.IN_PROGRESS] /\
    (sweep_unowned_open (a_config None broken_compactor) nobody s').1 = Ok tt /\
    db_of (sweep_unowned_open (a_config None broken_compactor) nobody s').2 = db_of s'.
Proof.
  destruct (failed_assembly_strands (a_config None broken_compactor) nobody nobody_quiet
    (an_exchange "x" ExchangeStatus.OPEN 0) (an_exchange "x" ExchangeStatus.OPEN 0)
    (a_message MessageRole.USER "weather?" (Some ("x" : pystr))) None None true open_world StoreError)
    as (s' & Hrun & Hp & _); [by split|reflexivity..|].
  exists s'. split; [exact Hrun|]. split; [exact Hp|].
  assert (s' = (start_answer (a_config None broken_compactor) nobody (an_exchange "x" ExchangeStatus.OPEN 0)
    (a_message MessageRole.USER "weather?" (Some ("x" : pystr))) None None true open_world).2) as -> by (by rewrite Hrun).
  split; [vm_compute; reflexivity|]. split; vm_compute; reflexivity.
Defined.

Lemma stand_down_closes_witness :
  let '(r, s') := stand_down plain_config nobody (attached 1) in
  r_stood_down (w_run s') = true /\ r = Ok [(1%N, [STREAM_CLOSED])] /\
  stand_down plain_config nobody s' = (Ok [], s').
Proof.
  pose proof (stand_down_closes plain_config nobody (attached 1) ltac:(intros k t Ht; exact Ht)
    ltac:(intros d t Ht; exact Ht) eq_refl) as H.
  assert ((stand_down plain_config nobody (attached 1)).1 = Ok [(1%N, [STREAM_CLOSED])]) as Hr by (vm_compute; reflexivity).
  destruct (stand_down plain_config nobody (attached 1)) as [r s']. cbn in Hr. subst r.
  destruct H as ([Hs _] & _ & Hagain).
  - apply Forall_singleton. apply (bool_decide_unpack _). vm_compute. exact I.
  - split; [exact Hs|]. split; [reflexivity|]. apply Hagain, Hs.
Defined.

Definition collected_world : World :=
  a_world (a_db [an_exchange "x" ExchangeStatus.IN_PROGRESS 0; an_exchange "c" ExchangeStatus.COLLECTING 0]
             [a_task "t" (Some "x") 0]
             [a_row "m1" "d" 1 "weather?" (Some "k1"); a_row "m-fwd" "d" 2 "a link" None]) []
    (a_runner [a_message MessageRole.USER "weather?" (Some "x"); forwarded "a link" (Some "c")]
       [("t" : pystr, set_p_watermark 2 (a_process "t" (Some "x")))]).

Lemma reparented_material_is_missed_witness :
  exists s', reparent_material plain_config nobody (an_exchange "c" ExchangeStatus.COLLECTING 0)
      (an_exchange "x" ExchangeStatus.IN_PROGRESS 0) collected_world = (Ok tt, s') /\
    cm_exchange_id <$> r_narrative (w_run s') = [Some ("x" : pystr); Some ("x" : pystr)] /\
    sync_branch plain_config nobody "t" false s' = (Ok tt, s').
Proof.
  destruct (reparented_material_is_missed plain_config nobody nobody_quiet
    (an_exchange "c" ExchangeStatus.COLLECTING 0) (an_exchange "x" ExchangeStatus.IN_PROGRESS 0)
    (set_p_watermark 2 (a_process "t" (Some ("x" : pystr)))) collected_world) as (s' & Hrun & Hn & _ & Hsync & _).
  - by split.
  - by eexists.
  - by eexists.
  - reflexivity.
  - reflexivity.
  - reflexivity.
  - exists s'. split; [exact Hrun|]. split; [rewrite Hn; reflexivity|exact Hsync].
Defined.

(** ** The agent loop on sample data *)

(** The theorems on the agent loop at a run that calls one tool and answers. *)
Definition a_call (id name : pystr) : ToolCall := {| tc_id := id; tc_name := name; tc_arguments := [] |}.
Definition calling (calls : list ToolCall) : ChatMessage :=
  {| cm_role := MessageRole.ASSISTANT; cm_content := ""; cm_tool_calls := calls; cm_tool_call_id := None;
     cm_task_id := None; cm_kind := MessageKind.OWN; cm_attachments := []; cm_id := None; cm_exchange_id := None |}.
Definition saying (text : pystr) : ChatMessage := chat_message MessageRole.ASSISTANT text.

Definition a_tool (name : pystr) : Tool :=
  {| tool_spec := {| ts_name := name; ts_description := "a tool"; ts_parameters := [] |}; tool_visible_to := None |}.
Definition a_registry : tools := [("look" : pystr, a_tool "look"); ("count" : pystr, a_tool "count")].

Definition arrives (event : StreamEvent) : Moment := {| mo_landed := []; mo_arrival := Arrived event |}.
Definition over : Moment := {| mo_landed := []; mo_arrival := Ended |}.

(** Two calls first; when their replies are there, the answer. *)
Definition two_turns (history : list ChatMessage) : list Moment :=
  if existsb (fun m => bool_decide (cm_role m = MessageRole.TOOL)) history
  then [arrives (LlmTextDelta "four"); arrives (StreamFinished (saying "four") None); over]
  else [arrives (ToolCallReady (a_call "c1" "look")); arrives (ToolCallReady (a_call "c2" "count"));
        arrives (StreamFinished (calling [a_call "c1" "look"; a_call "c2" "count"]) None); over].
Definition second_first : list Round :=
  [{| rd_landed := [(1%nat, Returned "4")]; rd_noticed := false |};
   {| rd_landed := [(0%nat, RaisedError "KeyError" "x")]; rd_noticed := false |}].

(** A consumer that only listens. *)
Fixpoint listen {S} (stream : Stream S) (s : S) : list LoopEvent * S * option Exn :=
  match stream with
  | Next run signal =>
      match signal s with
      | Stop => ([], run s, None)
      | Raise e => ([], run s, Some e)
      | Yield event rest =>
          let '(events, s', r) := listen rest (run s) in (event :: events, s', r)
      end
  end.

Definition a_run : Stream (list ChatMessage) :=
  run (fun l s => s ++ l) (fun _ => false) id two_turns (fun _ => second_first) a_registry id "30" 5.

Definition replying (id content : pystr) : ChatMessage :=
  {| cm_role := MessageRole.TOOL; cm_content := content; cm_tool_calls := []; cm_tool_call_id := Some id;
     cm_task_id := None; cm_kind := MessageKind.OWN; cm_attachments := []; cm_id := None; cm_exchange_id := None |}.

Lemma run_ends_well_witness :
  gen_wp eq (good_end two_turns 5 id) a_run [] [] /\
  listen a_run [] =
    ([IterationStarted 0; ToolCallRequested (a_call "c1" "look"); ToolCallRequested (a_call "c2" "count");
      AssistantMessage (calling [a_call "c1" "look"; a_call "c2" "count"]) false None;
      ToolCallCompleted (a_call "c2" "count") "4"; ToolCallFailed (a_call "c1" "look") "KeyError: x";
      IterationStarted 1; TextDelta "four"; AssistantMessage (saying "four") false None;
      Finished (saying "four") None None],
     [calling [a_call "c1" "look"; a_call "c2" "count"]; replying "c1" "error: KeyError: x";
      replying "c2" "4"; saying "four"], None).
Proof.
  split; [|vm_compute; reflexivity].
  apply (run_ends_well (fun l s => s ++ l) (fun _ => false) id two_turns (fun _ => second_first) a_registry id "30" 5
    (fun _ => True) id eq); [by intros|by intros|by intros ? ? _ ->|exact I|constructor].
Defined.

Definition look_then_count (n : nat) : ToolOutcome :=
  match n with O => RaisedError "KeyError" "x" | _ => Returned "4" end.
Definition two_calls : list ToolCall := [a_call "c1" "look"; a_call "c2" "count"].
Definition crossed : list happening := [Lands 1; Drains; Lands 0].

Lemma replies_in_call_order_witness :
  cm_content <$> tool_messages (drain (foldl (happen a_registry id "30" look_then_count)
    (LoopLaws.started two_calls) crossed)).2 two_calls = imap (content_of a_registry id "30" look_then_count) two_calls /\
  imap (content_of a_registry id "30" look_then_count) two_calls = ["error: KeyError: x" : pystr; "4" : pystr].
Proof.
  split; [|vm_compute; reflexivity].
  apply (replies_in_call_order a_registry id "30" look_then_count two_calls crossed).
  - apply (bool_decide_unpack _). vm_compute. exact I.
  - intros [|[|n]] Hn; [right; right; left|left|cbn in Hn; lia].
Defined.

(** The run t of a dialog, on this loop, with nobody else about. *)
Definition a_context : ToolContext :=
  {| tx_user_id := "u"; tx_channel := "telegram"; tx_dialog_id := "d"; tx_process_id := "t";
     tx_can_see_images := false; tx_owner_task_id := "t"; tx_enabled_features := None |}.
Definition a_loop : AgentLoop World :=
  agent_loop nobody (fun _ s => two_turns (own_part "t" s)) (fun _ => second_first) a_registry id "30" 5.

Lemma agent_run_reports_end_witness :
  let '(r, s') := consume plain_config nobody "t" (a_loop "t" a_context) NO_TERMINAL answering_world in
  r = Ok (Finished (saying "four") None None) /\
  transcript (own_part "t" s') /\ last (own_part "t" s') = Some (saying "four") /\ length (own_part "t" s') = 4 /\
  exists before event p, pulled plain_config nobody "t" (a_loop "t" a_context) NO_TERMINAL answering_world = before ++ [(event, Some p)] /\
    outgoing p event = Some (Finished (saying "four") None None).
Proof.
  assert (env_allows nobody (leaves_run "t")) as Henv
    by (constructor; intros; (split; [|intros p Hp; by exists p]); done).
  assert (CompactorLaws (cfg_compactor plain_config) (leaves_run "t")) as Hlaws by (apply noop_laws; exact _).
  assert (present "t" answering_world) as Hin
    by (eexists; split; [reflexivity|apply (bool_decide_unpack _); vm_compute; exact I]).
  assert (transcript (own_part "t" answering_world)) as Ht by (vm_compute; constructor).
  assert (exists s', consume plain_config nobody "t" (a_loop "t" a_context) NO_TERMINAL answering_world =
    (Ok (Finished (saying "four") None None), s') /\ last (own_part "t" s') = Some (saying "four") /\
    length (own_part "t" s') = 4) as (s' & Hrun & Hlast & Hlen) by (eexists; split; [|split]; vm_compute; reflexivity).
  rewrite Hrun. split; [reflexivity|].
  destruct (agent_run_reports_end plain_config nobody "t" Henv _ (fun _ => second_first) a_registry id "30" 5
    a_context answering_world _ s' Hin Ht Hrun) as (H & before & event & p & Hpull & _ & _ & Hout & _).
  split; [exact H|]. split; [exact Hlast|]. split; [exact Hlen|]. exists before, event, p. split; [exact Hpull|exact Hout].
Defined.
