(* ===== verification/CronExamples.v ===== *)
(** * Scheduled jobs and the registry of actors on sample data

    A clock of minutes, a scheduler that reaches every dialog, two jobs; the
    theorems on the cron module and on the registry of actors applied to them. *)
From S2P Require Import Prelude PyStr Clock Sql Dict Domain UnitOfWork Broadcast TaskStore ExchangeStore MessageStore ClaimStore Compactor RunnerText RunnerState Outbox Pump Answers Actor Cron CronLaws Manager ManagerLaws ManagerRuns TaskTools Samples.

Definition minutes (n : Z) : time := seconds (60 * n).
(** Every expression but one fires once a minute; wall clocks show UTC. *)
Definition minutely (schedule timezone : pystr) (since : time) : time := ((since / minutes 1 + 1) * minutes 1)%Z.
Definition accepted (schedule : pystr) : bool := bool_decide (schedule <> "H 0 * * *").
Definition any_zone (timezone : pystr) : bool := true.
Definition utc_wall (timezone : pystr) (at_ : time) : Z := at_.
Definition quoted (text : pystr) : pystr := "'" +s+ text +s+ "'".

Definition a_job (id schedule : pystr) (next_fire_at : time) : CronJob :=
  {| cj_id := id; cj_user_id := "u"; cj_channel := "telegram"; cj_title := "digest"; cj_schedule := schedule;
     cj_timezone := "UTC"; cj_prompt := "news?"; cj_enabled := true; cj_next_fire_at := next_fire_at;
     cj_last_fire_at := None; cj_claimed_by := None; cj_claimed_at := None; cj_created_at := 0;
     cj_one_shot := false; cj_last_status := None; cj_last_error := None; cj_retry_count := 0 |}.
Definition job1 : CronJob := a_job "j1" "* * * * *" (minutes 1).
Definition job2 : CronJob := a_job "j2" "H 0 * * *" (minutes 2).
Definition job3 : CronJob := a_job "j3" "* * * * *" (minutes 3).
Definition jobs : list CronJob := [job1; job2; job3].
Definition reaching (u c title prompt job : pystr) : M (list CronJob) Exn WakeOutcome.t := ret WakeOutcome.DELIVERED.
Definition a_scheduler : CronSchedulerConfig :=
  {| csc_poll_interval_seconds := seconds 30; csc_lease_ttl_seconds := minutes 5; csc_replay_limit := 10 |}.

Lemma lease_exclusive_witness :
  let t := (SqlCron.claim "j1" (minutes 1) "left" (minutes 4) (minutes 0) jobs).2 in
  (SqlCron.claim "j1" (minutes 1) "right" (minutes 6) (minutes 1)
     (run_calls [ReleaseClaim "j2"; SetEnabled "u" "j1" true (Some (minutes 1))] t)).1 = Ok false /\
  (SqlCron.claim "j1" (minutes 1) "right" (minutes 6) (minutes 1) (run_calls [ReleaseClaim "j1"] t)).1 = Ok true.
Proof.
  split; [|vm_compute; reflexivity].
  apply (lease_exclusive jobs "j1" (minutes 1) "left" (minutes 4) (minutes 0)
    [ReleaseClaim "j2"; SetEnabled "u" "j1" true (Some (minutes 1))] (minutes 1) "right" (minutes 6) (minutes 1)).
  - apply (bool_decide_unpack _). vm_compute. exact I.
  - vm_compute. reflexivity.
  - repeat constructor. discriminate.
  - vm_compute. discriminate.
Defined.

Lemma fire_outcomes_witness :
  exists s', fire accepted any_zone minutely utc_wall quoted cron_store_on reaching "host" job1 (minutes 4) (minutes 0) jobs
             = (Ok tt, s') /\
    rewrites "j1" (assign_fire (minutes 4) (minutes 5)) jobs s'.
Proof.
  destruct (fire_outcomes accepted any_zone minutely utc_wall quoted reaching "host" (fun _ _ _ _ _ _ => eq_refl)
    job1 (minutes 4) (minutes 0) jobs job1) as [_ H].
  - apply (bool_decide_unpack _). vm_compute. exact I.
  - vm_compute. reflexivity.
  - destruct H as (s1 & Hs1 & H); [apply (bool_decide_unpack _); vm_compute; exact I|].
    assert ((delivery accepted any_zone minutely utc_wall quoted reaching job1 (minutes 4) s1).1 = Ok WakeOutcome.DELIVERED) as Hd.
    { unfold delivery, bind.
      destruct (prompt_cases (S := list CronJob) accepted any_zone minutely utc_wall quoted job1 (minutes 4)) as [(p & Hp & _)|(text & Hp)].
      - by rewrite Hp.
      - specialize (Hp []). revert Hp. vm_compute. discriminate. }
    rewrite Hd in H. destruct H as (s' & Hrun & Hs'); [discriminate|].
    exists s'. split; [exact Hrun|]. exact Hs'.
Defined.

Lemma count_missed_spec_witness :
  count_missed accepted any_zone minutely utc_wall quoted "* * * * *" "UTC" (minutes 0) (minutes 4) 100 jobs = (Ok 3%Z, jobs).
Proof.
  apply (count_missed_spec accepted any_zone minutely utc_wall quoted "* * * * *" "UTC" 100 ltac:(lia) 4).
  - reflexivity.
  - reflexivity.
  - intros [|[|[|[|n]]]] Hn; [vm_compute; discriminate..|lia].
  - left. vm_compute. reflexivity.
Defined.

(** The third job is due, and is not even claimed. *)
Lemma bad_schedule_cuts_tick_witness :
  exists text s',
    tick accepted any_zone minutely utc_wall quoted cron_store_on reaching (ret (minutes 4)) (ret tt) "host" a_scheduler
      (Some (minutes 4)) jobs = (Err (CronScheduleError text), s') /\
    row_of "j3" s' = Some job3.
Proof.
  destruct (fire_all accepted any_zone minutely utc_wall quoted cron_store_on reaching (ret tt) "host" 0 [job1] (minutes 4)
    (minutes 4 - minutes 5)%Z jobs) as [r s2] eqn:Hrun.
  destruct (bad_schedule_cuts_tick accepted any_zone minutely utc_wall quoted cron_store_on reaching (ret (minutes 4)) (ret tt)
    "host" a_scheduler (minutes 4) [job1] job2 [job3] jobs jobs s2) as [text Ht].
  - vm_compute. reflexivity.
  - discriminate.
  - right. vm_compute. reflexivity.
  - change (csc_lease_ttl_seconds a_scheduler) with (minutes 5). rewrite Hrun. revert Hrun. vm_compute. congruence.
  - exists text, s2. split; [exact Ht|]. revert Hrun. vm_compute. intros [= _ <-]. reflexivity.
Defined.

(** ** The tools of deferred work on sample data *)

(** The two tables the tools work on. *)
Record Shelf := { sh_tasks : list Task; sh_jobs : list CronJob }.
#[export] Instance shelf_tasks : HasTable Shelf Task.
Proof.
  refine {| table := sh_tasks; set_table t s := {| sh_tasks := t; sh_jobs := sh_jobs s |} |}; [done|done|by intros []].
Defined.
#[export] Instance shelf_jobs : HasTable Shelf CronJob.
Proof.
  refine {| table := sh_jobs; set_table t s := {| sh_tasks := sh_tasks s; sh_jobs := t |} |}; [done|done|by intros []].
Defined.
#[export] Instance shelf_apart_tasks : Apart Shelf Task CronJob.
Proof. done. Defined.
#[export] Instance shelf_apart_jobs : Apart Shelf CronJob Task.
Proof. done. Defined.

Definition elsewhere (id : pystr) : Task :=
  {| tk_id := id; tk_dialog_id := "other"; tk_title := "theirs"; tk_kind := TaskKind.RUN; tk_input := [];
     tk_exchange_id := None; tk_status := TaskStatus.RUNNING; tk_result := None; tk_error := None;
     tk_created_at := 0; tk_started_at := None; tk_finished_at := None; tk_delivered_at := None |}.
Definition their_job : CronJob :=
  {| cj_id := "j9"; cj_user_id := "v"; cj_channel := "telegram"; cj_title := "theirs"; cj_schedule := "* * * * *";
     cj_timezone := "UTC"; cj_prompt := "?"; cj_enabled := true; cj_next_fire_at := 0; cj_last_fire_at := None;
     cj_claimed_by := None; cj_claimed_at := None; cj_created_at := 0; cj_one_shot := false;
     cj_last_status := None; cj_last_error := None; cj_retry_count := 0 |}.
Definition shelf : Shelf := {| sh_tasks := [a_task "t" None 0; elsewhere "t9"]; sh_jobs := [job1; their_job] |}.
Definition at_noon : M Shelf Exn time := ret (seconds 43200).
Definition a_hex : M Shelf Exn pystr := ret "j2".
Definition asked_by (deleter : option (pystr -> M Shelf Exn TaskDeleteOutcome.t)) : TaskToolContext Shelf :=
  {| tt_user_id := "u"; tt_channel := "telegram"; tt_dialog_id := "d"; tt_task_spawner := None;
     tt_task_deleter := deleter; tt_owner_task_id := Some ("me" : pystr) |}.
Definition naming (id : pystr) : list (pystr * json) := [("task_id" : pystr, JStr id)].

(** Asked to delete somebody else's job and task: nothing there changes. *)
Lemma tools_stay_home_witness :
  (task_delete task_store_on cron_store_on at_noon (naming "j9") (asked_by None) shelf).1 = Ok NOT_FOUND_MESSAGE /\
  foreign_jobs "u" (task_delete task_store_on cron_store_on at_noon (naming "j9") (asked_by None) shelf).2 = [their_job] /\
  foreign_tasks "d" (task_delete task_store_on cron_store_on at_noon (naming "t") (asked_by None) shelf).2 = [elsewhere "t9"].
Proof.
  split; [vm_compute; reflexivity|].
  assert (ids_ok shelf) as Hok by (split; vm_decide).
  assert (forall args,
    foreign_tasks "d" (task_delete task_store_on cron_store_on at_noon args (asked_by None) shelf).2 = foreign_tasks "d" shelf /\
    foreign_jobs "u" (task_delete task_store_on cron_store_on at_noon args (asked_by None) shelf).2 = foreign_jobs "u" shelf) as H.
  { intros args.
    pose proof (tools_stay_home accepted any_zone minutely quoted at_noon a_hex None "u" "d"
      (fun s H => conj H (conj eq_refl eq_refl)) (fun s H => conj H (conj eq_refl eq_refl))
      (fun max user H => match H : None = Some max with eq_refl => I end)
      (asked_by None) eq_refl eq_refl
      (fun spawn t p H => match H : None = Some spawn with eq_refl => I end)
      (fun delete j H => match H : None = Some delete with eq_refl => I end) args shelf Hok) as Hall.
    rewrite !Forall_cons in Hall. apply Hall. }
  split; [rewrite (proj2 (H _))|rewrite (proj1 (H _))]; vm_compute; reflexivity.
Defined.

(** The run [t] ended just before it was asked to stop. *)
Definition just_done : Task := finish_values (seconds 9) TaskStatus.DONE (Some ("sunny" : pystr)) None false (a_task "t" None 0).
Definition too_late (id : pystr) : M Shelf Exn TaskDeleteOutcome.t :=
  modify (set_table [just_done; elsewhere "t9"]) ;;; ret TaskDeleteOutcome.NOT_RUNNING.
Lemma late_stop_overwrites_witness :
  exists s' row', task_delete task_store_on cron_store_on at_noon (naming "t") (asked_by (Some too_late)) shelf
      = (Ok (STOPPED_TASK_MESSAGE "t"), s') /\
    find_key tk_id ("t" : pystr) (sh_tasks s') = Some row' /\ tk_status row' = TaskStatus.CANCELLED /\
    tk_result row' = Some ("sunny" : pystr).
Proof.
  destruct (late_stop_overwrites cron_store_on at_noon (naming "t") (asked_by (Some too_late)) too_late "t" (a_task "t" None 0)
    just_done (seconds 43200) shelf {| sh_tasks := [just_done; elsewhere "t9"]; sh_jobs := [job1; their_job] |})
    as (s' & row' & Hrun & Hrow & Hst & Hres & _).
  - reflexivity.
  - vm_compute. reflexivity.
  - reflexivity.
  - reflexivity.
  - discriminate.
  - vm_decide.
  - reflexivity.
  - reflexivity.
  - reflexivity.
  - reflexivity.
  - reflexivity.
  - exists s', row'. split; [exact Hrun|]. split; [exact Hrow|]. split; [exact Hst|exact Hres].
Defined.

(** ** The registry of actors on sample data *)

(** A process with one dialog, and the theorems on the registry applied to
    it. *)
Definition our_host : OwnershipConfig := default_ownership "host".
Definition sorted_somehow (ids : gset pystr) : list pystr := elements ids.

Definition a_process_of (d : Db) (actors : list Runner) (tasks : list BuildTask) (m : Manager) : MWorld :=
  {| mw_conn := {| committed := d; active := None; faults := [] |}; mw_now := seconds 100;
     mw_monotonic := seconds 7; mw_ids := 7; mw_tick := 0; mw_dropped := []; mw_actors := actors;
     mw_tasks := tasks; mw_mgr := m |}.
Definition no_actors : Manager :=
  {| mg_runners := []; mg_builds := []; mg_surface := false; mg_heartbeat := true; mg_last_beat := None |}.
Definition one_actor : Manager :=
  {| mg_runners := [("d" : pystr, 0)]; mg_builds := [(("u" : pystr, "telegram" : pystr), 0)]; mg_surface := false;
     mg_heartbeat := true; mg_last_beat := None |}.
Definition build_done (ref : nat) : BuildTask := {| bt_user_id := "u"; bt_channel := "telegram"; bt_state := Built ref |}.
Definition claimed_by (owner : pystr) (generation : Z) : Db :=
  {| d_dialogs := [a_dialog]; d_messages := []; d_exchanges := []; d_tasks := [];
     d_claims := [a_claim owner generation (seconds 90)]; d_summaries := [] |}.
Definition fresh_process : MWorld := a_process_of (a_db [] [] []) [] [] no_actors.
Definition serving : MWorld := a_process_of (claimed_by "host" 1) [a_runner [] []] [build_done 0] one_actor.

(** ** The surroundings *)

Lemma plain_identity : identity_kept plain_config nobody.
Proof. split; [by intros|by intros d h s|by intros d s|discriminate]. Qed.
Lemma plain_around : kept_around plain_config no_surface nobody alone.
Proof. split; [exact plain_identity|by intros|by intros r w|by intros r w]. Qed.
Lemma nobody_same_conn : forall k s, same_conn s (nobody k s).
Proof. done. Qed.
Lemma noop_same_conn : forall d, evolves same_conn (cc_aclose (cfg_compactor plain_config) d).
Proof. by intros d s. Qed.
Lemma nobody_yields s : (yield nobody s).1 = Ok tt.
Proof. unfold yield. by destruct (in_unit_of_work _). Qed.
Lemma for_each_calm {A} (f : A -> M World Exn unit) l s :
  (forall x s, (f x s).1 = Ok tt) -> (for_each l f s).1 = Ok tt.
Proof.
  intros Hf. revert s. induction l as [|x l IH]; intros s; [done|]. cbn [for_each]. unfold bind.
  specialize (Hf x s). destruct (f x s) as [[[]|e] s1]; [apply IH|done].
Qed.

Lemma plain_stop_calm s : (stop plain_config nobody s).1 <> Err CancelledError.
Proof.
  unfold stop. unfold bind at 1, runner at 1, gets at 1. unfold bind at 1. cbn [update modify].
  unfold bind at 1.
  match goal with |- context [for_each ?l _ ?x] => pose proof (for_each_calm (fun _ : pystr * Process => yield nobody) l x
    (fun _ => nobody_yields)) as H1; destruct (for_each l (fun _ => yield nobody) x) as [[u|e] s1] end; [|done].
  unfold bind at 1. pose proof (nobody_yields s1) as H. by destruct (yield nobody s1) as [[u'|e] s2].
Qed.
Lemma plain_stand_down_calm s : (stand_down plain_config nobody s).1 <> Err CancelledError.
Proof.
  unfold stand_down. rewrite (bind_Ok _ _ s (w_run s) s) by done.
  destruct (r_stood_down (w_run s)); [done|]. unfold bind at 1. cbn [update modify].
  unfold bind. match goal with |- context [stop _ _ ?x] => pose proof (plain_stop_calm x) as H; destruct (stop plain_config nobody x) as [[u|e] s1] end;
    [done|]. intros [= ->]. by apply H.
Qed.

(** ** The theorems *)

Lemma fresh_ok : registry_ok fresh_process.
Proof. split; cbn; [by intros ? ? ?%not_elem_of_nil..|done]. Qed.
Lemma serving_ok : registry_ok serving.
Proof.
  split; cbn.
  - intros d ref [= -> ->]%list_elem_of_singleton. by exists (a_runner [] []).
  - intros k b [= -> ->]%list_elem_of_singleton. by exists (build_done 0).
  - intros [|b] t ref [= <-] [= <-]. by exists (a_runner [] []).
Qed.

Lemma registry_stays_ok_witness :
  (exists w', get_or_create_runner plain_config our_host no_surface nobody alone never "u" "telegram" fresh_process = (Ok 0, w') /\
    registry_ok w' /\ actor_of "u" "telegram" 0 w' /\ mg_runners (mw_mgr w') = [("d" : pystr, 0)]).
Proof.
  destruct (registry_stays_ok plain_config our_host no_surface nobody alone never never sorted_somehow plain_around)
    as (Hok & _ & _ & _ & _ & _ & _ & Hactor).
  destruct (get_or_create_runner plain_config our_host no_surface nobody alone never "u" "telegram" fresh_process) as [r w'] eqn:Hrun.
  assert (r = Ok 0) as -> by (apply (f_equal fst) in Hrun; revert Hrun; vm_compute; congruence).
  exists w'. split; [reflexivity|]. split; [|split].
  - pose proof (Hok "u" "telegram" fresh_process fresh_ok) as H. rewrite Hrun in H. exact H.
  - exact (Hactor "u" "telegram" fresh_process 0 w' fresh_ok Hrun).
  - apply (f_equal (fun x => mg_runners (mw_mgr x.2))) in Hrun. revert Hrun. vm_compute. congruence.
Defined.

(** Every await fails with the cancellation of the task: recovery ends with
    nothing else. *)
Lemma recovery_fails_soft_witness :
  exists e, (recover_dialog plain_config nobody alone (fun _ => true) 0 0 serving).1 = Err e /\ e = CancelledError.
Proof.
  destruct (recover_dialog plain_config nobody alone (fun _ => true) 0 0 serving) as [[u|e] w'] eqn:Hrun.
  - exfalso. apply (f_equal fst) in Hrun. revert Hrun. vm_compute. discriminate.
  - exists e. split; [reflexivity|].
    eapply (recovery_fails_soft plain_config no_surface nobody alone (fun _ => true) plain_around 0 0 serving e w');
      [by exists (a_runner [] [])|exact Hrun].
Defined.

Lemma beat_keeps_confirmed_witness :
  exists w', beat_once plain_config no_surface nobody alone never never serving = (Ok tt, w') /\
    dict_get "d" (mg_runners (mw_mgr w')) = Some 0.
Proof.
  destruct (beat_keeps_confirmed plain_config nobody plain_identity nobody_same_conn noop_same_conn plain_stand_down_calm serving)
    as (w' & Hrun & _ & Hkeep).
  - by split.
  - exact serving_ok.
  - apply (bool_decide_unpack _). vm_compute. exact I.
  - apply (bool_decide_unpack _). vm_compute. exact I.
  - intros d ref r Hd Hr. apply dict_get_elem, list_elem_of_singleton in Hd as [= -> ->]. injection Hr as <-. reflexivity.
  - exists w'. split; [exact Hrun|].
    destruct (Hkeep "d" 0 (a_runner [] []) eq_refl eq_refl) as [H _]. apply H.
    exists (a_claim "host" 1 (seconds 90)). split; [|split; reflexivity]. reflexivity.
Defined.

Definition handed_over : MWorld :=
  a_process_of (claimed_by "host" 2) [a_runner [] []; a_runner [] []] [build_done 1]
    (set_mg_runners [("d" : pystr, 1)] one_actor).
Lemma drop_deregisters_successor_witness :
  exists w', drop_preempted plain_config no_surface nobody alone never 0 handed_over = (Ok tt, w') /\
    forall d', (d', 1) ∉ mg_runners (mw_mgr w').
Proof.
  destruct (drop_deregisters_successor plain_config nobody plain_identity nobody_same_conn noop_same_conn plain_stand_down_calm
    handed_over 0 1 (a_runner [] []) ("u", "telegram") 0 "d") as (w' & Hrun & _ & _ & _ & Hno).
  - split; cbn.
    + intros d ref [= -> ->]%list_elem_of_singleton. by exists (a_runner [] []).
    + intros k b [= -> ->]%list_elem_of_singleton. by exists (build_done 1).
    + intros [|b] t ref [= <-] [= <-]. by exists (a_runner [] []).
  - apply (bool_decide_unpack _). vm_compute. exact I.
  - reflexivity.
  - reflexivity.
  - reflexivity.
  - discriminate.
  - reflexivity.
  - reflexivity.
  - by exists w'.
Defined.

Definition held_over_there : MWorld := a_process_of (claimed_by "elsewhere" 3) [] [] no_actors.
Lemma foreign_dialog_untouched_witness :
  exists w', wake plain_config our_host no_surface nobody alone never "u" "telegram" "digest" "news?" "j" held_over_there
    = (Ok WakeOutcome.NOT_OURS, w') /\ mdb w' = mdb held_over_there /\ mw_actors w' = [].
Proof.
  destruct (foreign_dialog_untouched plain_config our_host nobody "u" "telegram" "digest" "news?" "j" a_dialog
    (a_claim "elsewhere" 3 (seconds 90)) held_over_there) as (w' & Hrun & Hdb & Hact & _).
  - by split.
  - apply (bool_decide_unpack _). vm_compute. exact I.
  - vm_compute. reflexivity.
  - reflexivity.
  - reflexivity.
  - discriminate.
  - vm_compute. discriminate.
  - by exists w'.
Defined.

Lemma stop_all_releases_witness :
  exists w', stop_all plain_config no_surface nobody alone never serving = (Ok tt, w') /\
    mg_runners (mw_mgr w') = [] /\ d_claims (mdb w') = [].
Proof.
  destruct (stop_all_releases plain_config nobody plain_identity nobody_same_conn noop_same_conn plain_stop_calm serving)
    as (w' & Hrun & Hmgr & _ & _ & Hrow).
  - by split.
  - exact serving_ok.
  - intros k b [= -> ->]%list_elem_of_singleton. reflexivity.
  - exists w'. split; [exact Hrun|]. split; [exact Hmgr|].
    destruct (d_claims (mdb w')) as [|row rest]; [reflexivity|]. exfalso.
    destruct (proj1 (Hrow row) (list_elem_of_here _ _)) as [Hin Hno].
    apply list_elem_of_singleton in Hin as ->.
    by apply (Hno "d" 0 (a_runner [] []) (list_elem_of_here _ _) eq_refl).
Defined.

Definition recovering : MWorld :=
  a_process_of (claimed_by "host" 1) [a_runner [] []]
    [{| bt_user_id := "u"; bt_channel := "telegram"; bt_state := Building false |}] one_actor.
Lemma evict_leaks_recovering_actor_witness :
  exists w', evict plain_config no_surface nobody (fun _ v => (rest_of_build plain_config nobody 0 0 v).2) never
      "u" "telegram" recovering = (Ok tt, w') /\
    dict_get ("u" : pystr, "telegram" : pystr) (mg_builds (mw_mgr w')) = None /\
    dict_get "d" (mg_runners (mw_mgr w')) = Some 0 /\ mdb w' = mdb recovering.
Proof.
  destruct (evict_leaks_recovering_actor plain_config no_surface nobody
    (fun _ v => (rest_of_build plain_config nobody 0 0 v).2) "u" "telegram" 0 "d" 0 (a_runner [] []) recovering)
    as (w' & Hrun & Hkey & _ & Hreg & _ & Hdb); [reflexivity..|].
  by exists w'.
Defined.
