(* ===== verification/UserExamples.v ===== *)
(** * Parked responses, secrets, settings and people on sample data *)
From S2P Require Import Prelude PyStr PyFloat Clock Sql Dict Domain UnitOfWork Tariffs TariffLaws ResponseMemory Secrets SecretLaws Identity IdentityLaws.

Definition doc (id owner : pystr) (body : pystr) (t : time) : StoredResponse :=
  {| sr_id := id; sr_owner_id := owner; sr_scope := "task"; sr_kind := "text"; sr_source := "web"; sr_body := body;
     sr_document := JNull; sr_last_access := t |}.
Definition tight : ResponseMemoryConfig :=
  {| max_response_chars := 100; budget_chars := 12; get_default_chars := 8; get_max_chars := 10 |}.
Definition parked : memory := [("a" : pystr, doc "a" "u" "first" 3); ("b" : pystr, doc "b" "v" "foreign" 0);
                               ("c" : pystr, doc "c" "u" "second" 1)].
Lemma parked_ok : memory_ok parked.
Proof.
  split; [by vm_decide|]. intros k r H. unfold parked in H.
  repeat (apply elem_of_cons in H as [[= -> ->]|H]; [done|]). by apply not_elem_of_nil in H.
Qed.

(** The third document of [u] evicts the one read longest ago; [v] keeps its own. *)
Example third_evicts :
  dict_keys (store tight "d" 5 "u" "task" "text" "web" "third" JNull parked).2 = ["a" : pystr; "b" : pystr; "d" : pystr].
Proof. by vm_compute. Qed.
Lemma store_keeps_budget_witness :
  dict_get "d" (store tight "d" 5 "u" "task" "text" "web" "third" JNull parked).2 = Some (doc "d" "u" "third" 5).
Proof.
  pose proof (store_keeps_budget tight "d" 5 "u" "task" "text" "web" "third" JNull parked parked_ok eq_refl) as H.
  destruct (store _ _ _ _ _ _ _ _ _ _) as [item items'] eqn:E. destruct H as (_ & _ & _ & _ & H).
  assert (item = doc "d" "u" "third" 5) as -> by (symmetry; exact (f_equal fst E)).
  apply H. intros r [_ [k Hk]]%elem_of_mine. unfold parked in Hk.
  repeat (apply elem_of_cons in Hk as [[= -> ->]|Hk]; [cbn; lia|]). by apply not_elem_of_nil in Hk.
Defined.
Lemma get_owner_only_witness :
  (get 9 "v" "resp:a" parked).1 = Err (ResponseNotFoundError "resp:a") /\
  (get 9 "u" "resp:a" parked).1 = Ok (doc "a" "u" "first" 9).
Proof.
  assert (Hin : doc "a" "u" "first" 3 ∈ dict_values parked) by left.
  pose proof (get_owner_only 9 "v" _ _ parked_ok Hin) as Hv.
  pose proof (get_owner_only 9 "u" _ _ parked_ok Hin) as Hu.
  change (sr_ref (doc "a" "u" "first" 3)) with ("resp:a" : pystr) in Hv, Hu.
  destruct (get 9 "v" "resp:a" parked) as [av iv], (get 9 "u" "resp:a" parked) as [au iu].
  split; [apply Hv; by vm_compute|apply Hu; by vm_compute].
Defined.

(** Lower-casing of the Latin letters, character by character. *)
Definition lower_char (c : N) : N := if decide (65 <= c <= 90)%N then (c + 32)%N else c.
Definition lower_latin (s : pystr) : pystr := PyStr (lower_char <$> codes s).
Example find_twice : find_positions lower_latin "Bananas" "AN" = [(1, 3)%Z; (3, 5)%Z].
Proof. by vm_compute. Qed.
Example windows_merge : merge_windows [(0, 4, 1)%Z; (9, 12, 10)%Z; (2, 6, 3)%Z] = [(0, 6, 1)%Z; (9, 12, 10)%Z].
Proof. by vm_compute. Qed.
Lemma find_shows_matches_witness :
  lower_latin (str_slice 3 5 "Bananas") = "an" /\
  exists w, w ∈ merge_windows (window_at 1 1 7 <$> [(1, 3)%Z; (3, 5)%Z]) /\ (w_start w <= 3)%Z /\ (5 <= w_end w)%Z.
Proof.
  apply (find_shows_matches lower_latin lower_char "Bananas" "AN" 0 5 1 1 (3, 5)%Z); [done|done|lia|lia|].
  vm_compute. right. left.
Defined.

(** The passport of a small JSON document. *)
Example passport :
  (park tight "x1" 0 "u" "t" "api" "{}" (JObj [("name" : pystr, JStr "n"); ("items" : pystr, JList [JInt 1; JInt 2])]) []).1 =
  ("[response resp:x1] kind=json · source=api · 2 chars · ~0 tokens · lives until this task ends" +s+ newline +s+
   "keys: {name: string, items: array[2]}" +s+ newline +s+
   "Read deliberately: response_get(key, max_chars up to 10) when the size fits your budget; response_find(pattern) + response_window(at) when it does not.").
Proof. by vm_compute. Qed.

(** ** Secrets on sample data *)

Definition hash (_ : list N) : pystr := "0".
Definition quote (s : pystr) : pystr := "'" +s+ s +s+ "'".
(** An encryption that only shifts the characters. *)
Definition shift_encrypt (s : pystr) : pystr := PyStr (N.succ <$> codes s).
Definition shift_decrypt (s : pystr) : option pystr := Some (PyStr (N.pred <$> codes s)).
Definition secret0 : SecretRow :=
  {| se_id := "s0"; se_user_id := "u"; se_code := "calendar"; se_ciphertext := "x"; se_allowed_host := "api.example.com";
     se_description := "calendar"; se_placements := None; se_transform := None; se_created_at := 0; se_last_used_at := None |}.

Example pattern_covers_one_label :
  (fun h => host_matches lower_latin "*.icloud.com" h) <$> ["p54.icloud.com"; "a.b.icloud.com"; "icloud.com"; ".icloud.com"; "P54.iCloud.com."]
  = [true; false; false; false; true].
Proof. by vm_compute. Qed.
Lemma host_binding_is_tls_rule_witness :
  host_matches lower_latin "*.icloud.com" "p54.icloud.com" = true.
Proof.
  assert (Hn : normalize_host lower_latin " *.iCloud.com." tt = (Ok ("*.icloud.com" : pystr), tt)) by (by vm_compute).
  destruct (host_binding_is_tls_rule lower_latin _ "p54.icloud.com" tt tt _ Hn) as [-> _]. by vm_compute.
Defined.

Definition put0 := SecretStore.put lower_latin quote shift_encrypt 5 "s1" "u" " Mail_Token " "user:pw" "*.Example.com" "the  mail"
  ["url"; "header"] (Some ("base64" : pystr)) [secret0].
Lemma secret_roundtrip_witness :
  (SecretStore.resolve lower_latin quote hash hash hash shift_decrypt 9 "u" " Mail_Token " "imap.example.com" put0.2).1
  = Ok {| rs_value := "dXNlcjpwdw=="; rs_plain := "user:pw"; rs_placements := {[SecretPlacement.HEADER; SecretPlacement.URL]} |}.
Proof.
  destruct (secret_roundtrip lower_latin quote hash hash hash shift_encrypt shift_decrypt 5 9 "s1" "u" " Mail_Token " "user:pw" "*.Example.com"
    "imap.example.com" "the  mail" ["url"; "header"] (Some ("base64" : pystr)) [secret0]
    {| si_code := "mail_token"; si_allowed_host := "*.example.com"; si_description := "the mail";
       si_placements := {[SecretPlacement.HEADER; SecretPlacement.URL]}; si_transform := Some SecretTransform.BASE64;
       si_created_at := 5; si_last_used_at := None |} put0.2 "imap.example.com") as [H _].
  - by vm_decide.
  - by vm_decide.
  - by vm_compute.
  - by vm_compute.
  - by vm_compute.
  - by vm_compute.
  - rewrite H. by vm_compute.
Defined.
(** Another user, or another host, gets nothing. *)
Example others_get_nothing :
  (SecretStore.resolve lower_latin quote hash hash hash shift_decrypt 9 "v" "mail_token" "imap.example.com" put0.2).1
    = Err (SecretNotFoundError "mail_token") /\
  (SecretStore.resolve lower_latin quote hash hash hash shift_decrypt 9 "u" "mail_token" "example.com" put0.2).1
    = Err (SecretHostMismatchError "secret 'mail_token' is bound to host '*.example.com' and cannot be sent to 'example.com'").
Proof. by vm_compute. Qed.

(** A serialisation: every value behind its kind and its length. *)
Definition sized (l : list N) : list N := N.of_nat (length l) :: l.
Fixpoint write_json (v : json) : list N :=
  match v with
  | JNull => [0%N]
  | JBool b => [1%N; if b then 1%N else 0%N]
  | JInt z => [2%N; Z.to_N z]
  | JFloat s => 3%N :: sized (codes s)
  | JStr s => 4%N :: sized (codes s)
  | JList l => 5%N :: N.of_nat (length l) :: concat (write_json <$> l)
  | JObj d => 6%N :: N.of_nat (length d) :: concat ((fun kv => sized (codes kv.1) ++ write_json kv.2) <$> d)
  end.
Definition read_sized (l : list N) : option (pystr * list N) :=
  match l with n :: l => Some (PyStr (take (N.to_nat n) l), drop (N.to_nat n) l) | [] => None end.
Fixpoint read_many {A} (read : list N -> option (A * list N)) (n : nat) (l : list N) : option (list A * list N) :=
  match n with
  | O => Some ([], l)
  | S n =>
      match read l with
      | Some (a, l) => match read_many read n l with Some (rest, l) => Some (a :: rest, l) | None => None end
      | None => None
      end
  end.
Fixpoint read_json (fuel : nat) (l : list N) : option (json * list N) :=
  match fuel, l with
  | S fuel, 0%N :: l => Some (JNull, l)
  | S fuel, 1%N :: b :: l => Some (JBool (b =? 1)%N, l)
  | S fuel, 2%N :: n :: l => Some (JInt (Z.of_N n), l)
  | S fuel, 3%N :: l => match read_sized l with Some (s, l) => Some (JFloat s, l) | None => None end
  | S fuel, 4%N :: l => match read_sized l with Some (s, l) => Some (JStr s, l) | None => None end
  | S fuel, 5%N :: n :: l =>
      match read_many (read_json fuel) (N.to_nat n) l with Some (vs, l) => Some (JList vs, l) | None => None end
  | S fuel, 6%N :: n :: l =>
      let field l := match read_sized l with
                     | Some (k, l) => match read_json fuel l with Some (v, l) => Some ((k, v), l) | None => None end
                     | None => None
                     end in
      match read_many field (N.to_nat n) l with Some (d, l) => Some (JObj d, l) | None => None end
  | _, _ => None
  end.
Definition dumps (v : json) : pystr := PyStr (write_json v).
Definition loads (s : pystr) : option json :=
  match read_json (length (codes s)) (codes s) with Some (v, []) => Some v | _ => None end.

Definition form : SecretFormPrefill :=
  {| pf_code := "mail_token"; pf_allowed_host := "*.example.com"; pf_description := "the mail";
     pf_placements := {[SecretPlacement.HEADER]}; pf_transform := Some SecretTransform.BASE64 |}.
Definition form_links : list SecretFormLinkRow := (SecretFormLinkStore.issue dumps "k1" 0 "u" (Some form) 600 []).2.
Lemma link_roundtrip_witness :
  (SecretFormLinkStore.redeem lower_latin quote loads (fun _ => "") 599 "k1" form_links).1
    = Ok (Some {| fs_user_id := "u"; fs_prefill := Some form |}).
Proof.
  destruct (link_roundtrip lower_latin quote dumps loads (fun _ => "") ltac:(by intros []) ltac:(by intros [])
    "k1" 0 599 "u" (Some form) 600 [] form_links) as [H _].
  - intros p [= <-]. by vm_compute.
  - intros p [= <-]. by vm_decide.
  - lia.
  - by vm_compute.
  - rewrite H. by vm_compute.
Defined.
(** A dead code is reported as expired only until the next one is issued. *)
Example cleanup_forgets_expired :
  SecretFormLinkStore.is_expired 700 "k1" form_links = (Ok true, form_links) /\
  (SecretFormLinkStore.is_expired 700 "k1" (SecretFormLinkStore.issue dumps "k2" 650 "v" None 600 form_links).2).1 = Ok false.
Proof. by vm_compute. Qed.
(** A code opens the form as often as it is asked. *)
Example code_opens_twice :
  let (first, t) := SecretFormLinkStore.redeem lower_latin quote loads (fun _ => "") 1 "k1" form_links in
  SecretFormLinkStore.redeem lower_latin quote loads (fun _ => "") 2 "k1" t = (first, t).
Proof. by vm_compute. Qed.
(** The link tool checks the fields and hands them over. *)
Example link_made :
  (secret_link lower_latin quote (S := unit) (fun user form => ret ("https://x/" +s+ user +s+ "/" +s+ pf_allowed_host form)) "u"
     [("code" : pystr, JStr "mail_token"); ("host" : pystr, JStr "*.com"); ("description" : pystr, JStr "the mail")] tt).1
  = Err (ToolArgumentsError "'*.com' is too broad: a pattern must name at least a domain and a suffix, e.g. '*.example.com'").
Proof. by vm_compute. Qed.

(** ** People and settings on sample data *)

Import IdentityStore.

Definition person (id : pystr) (status : UserStatus.t) : UserRow :=
  {| ur_id := id; ur_name := ""; ur_email := None; ur_status := status; ur_created_at := 0 |}.
Definition telegram (id user_id external_id : pystr) (active : bool) : UserIdentityRow :=
  {| ir_id := id; ir_user_id := user_id; ir_surface := "telegram"; ir_external_id := external_id; ir_name := ""; ir_username := None;
     ir_details := JObj []; ir_active := active; ir_created_at := 0; ir_updated_at := 0 |}.
Definition house : IdentityDb :=
  {| db_users := [person "ann" UserStatus.ACTIVE; person "bob" UserStatus.WAITING; person "eve" UserStatus.BANNED];
     db_identities := [telegram "i1" "ann" "1" true; telegram "i2" "bob" "2" false] |}.
Lemma house_ok : identity_ok house.
Proof. split; by vm_decide. Qed.
Definition alone (_ : nat) (d : IdentityDb) : IdentityDb := d.
Lemma alone_keeps k d : keeps d (alone k d).
Proof. by intros H. Qed.

(** Another process answers the same first message: it links the account
    between this one's look-up and its insert. *)
Definition rival (k : nat) (d : IdentityDb) : IdentityDb :=
  if decide (k = 1) then (link alone (fun _ _ => true) true "i9" 0 "ann" "telegram" "7" None d).2 else d.
Lemma rival_keeps k d : keeps d (rival k d).
Proof.
  unfold rival. case_decide; [|reflexivity]. apply (link_keeps alone (fun _ _ => true) true alone_keeps).
Qed.
Definition contact := resolve_or_create rival (fun _ _ => true) true "p9" "i8" 5 "telegram" "7" house.
Example race_is_lost_well : contact.1 = Ok ("ann" : pystr).
Proof. by vm_compute. Qed.
(** The person minted for the contact stays although nobody is behind them. *)
Example race_mints_a_person : (ur_id <$> db_users contact.2) = ["ann" : pystr; "bob" : pystr; "eve" : pystr; "p9" : pystr].
Proof. by vm_compute. Qed.

Lemma accounts_stay_put_witness :
  owner ("telegram", "1") (serve rival (fun _ _ => true) true (ResolveOrCreate "p9" "i8" 5 "telegram" "7") house) = Some ("ann" : pystr).
Proof.
  destruct (accounts_stay_put rival (fun _ _ => true) true rival_keeps
              (ResolveOrCreate "p9" "i8" 5 "telegram" "7") house house_ok) as [_ H].
  destruct (H ("telegram", "1") "ann" eq_refl) as [Ho|(? & ? & [=])]. exact Ho.
Defined.
Lemma one_person_per_account_witness :
  (resolve_or_create rival (fun _ _ => true) true "p7" "i7" 9 "telegram" "7" contact.2).1 = Ok ("ann" : pystr).
Proof.
  destruct (resolve_or_create rival (fun _ _ => true) true "p7" "i7" 9 "telegram" "7" contact.2) as [[o|e] d] eqn:H.
  - cbn. f_equal.
    eapply (one_person_per_account rival (fun _ _ => true) true rival_keeps "p9" "p7" "i8" "i7" 5 9 "telegram" "7"
              house "ann" contact.2 contact.2 o d); [exact house_ok|by vm_compute|reflexivity|exact H].
  - exfalso. by vm_compute in H.
Defined.
Lemma alone_capped c k d : capped c d (alone k d).
Proof. intros H. split; [done|apply Z.le_max_l]. Qed.
Lemma admit_keeps_cap_witness :
  (admit_person alone (ret (Some 1%Z)) "bob" house).1 = Ok UserStatus.WAITING /\ (active (admit_person alone (ret (Some 1%Z)) "bob" house).2 <= 1)%Z.
Proof.
  split; [by vm_compute|].
  assert (Hread : evolves (capped 1) (ret (E := Exn) (Some 1%Z))) by (intros d H; split; [done|apply Z.le_max_l]).
  pose proof (admit_keeps_cap alone 1 (alone_capped 1) (ret (Some 1%Z)) "bob" house Hread
    ltac:(intros s m s' [= <- _]; by exists 1%Z) house_ok) as H.
  destruct (admit_person _ _ _ _) as [answer d']. destruct H as (_ & H & _). exact H.
Defined.
Example a_slot_is_taken : (admit_person alone (ret (Some 2%Z)) "bob" house).1 = Ok UserStatus.ACTIVE.
Proof. by vm_compute. Qed.
Lemma refused_contact_leaves_person_witness :
  (resolve_or_create alone (fun _ _ => true) true "p9" "i8" 5 "telegram" "2" house).1 = Err (IdentityTakenError "telegram:2").
Proof.
  refine (f_equal fst (refused_contact_leaves_person (fun _ _ => true) true "p9" "i8" 5 "telegram" "2"
    (telegram "i2" "bob" "2" false) house _ _ _ _)); [done|done|by vm_decide|by vm_decide].
Defined.

(** A person with two accounts on a surface cannot be re-seated from one to the other. *)
Definition twice : IdentityDb :=
  {| db_users := db_users house; db_identities := [telegram "i1" "ann" "1" true; telegram "i3" "ann" "3" true] |}.
Example reseat_own_account_fails : (reseat 5 "telegram" "ann" "3" twice).1 = Err IntegrityError.
Proof. by vm_compute. Qed.

(** The cap as the operator writes it: absent or malformed means none. *)
Definition cap_of (value : pystr) : option Z :=
  match (max_active_users ascii_decimal (S := list AppSettingRow) (SettingsStore.get id)
           [{| as_key := MAX_ACTIVE_USERS_KEY; as_value := value; as_updated_at := 0 |}]).1 with
  | Ok cap => cap
  | Err _ => Some (-1)%Z
  end.
Example caps : (cap_of <$> ["12"; "0"; "-3"; "many"]) = [Some 12; Some 0; None; None]%Z.
Proof. by vm_compute. Qed.

(** ** Plans on sample data *)

(** An installation with the starter plans, one user bound to the free one;
    the theorems on plans and metering applied to it. *)
Definition as_is (s : pystr) : pystr := s.
Definition seeded : list TariffRow := seed_starter_tariffs true (fun code => uuid4_hex (if decide (code = UNLIMITED_CODE) then 0 else 1)) 0 [].
Definition a_usage (kind : UsageKind.t) (tokens : Z) : UsageEvent :=
  {| ue_user_id := "u"; ue_kind := kind; ue_origin := UsageOrigin.INTERACTIVE; ue_prompt_tokens := tokens;
     ue_completion_tokens := 0; ue_quantity := 1; ue_dialog_id := None; ue_exchange_id := None;
     ue_task_id := None; ue_created_at := None |}.
Definition an_installation (events : list UsageEventRow) : TWorld :=
  {| tw_conn := {| UnitOfWork.committed := {| td_tariffs := seeded;
       td_users := [{| ut_id := uuid4_hex 2; ut_user_id := "u"; ut_tariff_id := uuid4_hex 1; ut_assigned_at := 0 |}];
       td_events := events |}; UnitOfWork.active := None; faults := [] |};
     tw_now := day_us + seconds 100; tw_monotonic := seconds 7; tw_ids := 7; tw_tick := 0; tw_cache := [] |}%Z.
Definition thirty_messages : TWorld :=
  an_installation ((fun n => {| Tariffs.ur_id := uuid4_hex n; Tariffs.ur_event := a_usage UsageKind.USER_MESSAGE 0;
                                Tariffs.ur_created_at := day_us |}) <$> (N.of_nat <$> seq 0 30)).

Lemma installation_ok : world_ok (an_installation []).
Proof.
  split; [done| |].
  - split; [vm_decide..|]. vm_decide.
  - intros n Hn. split.
    1: change (uuid4_hex n ∉ (tr_id <$> seeded)); assert (tr_id <$> seeded = uuid4_hex <$> [0%N; 1%N]) as -> by (vm_compute; reflexivity).
    all: cbn; rewrite ?elem_of_cons; intros H;
      repeat match type of H with _ \/ _ => destruct H as [H|H] end;
      try (by apply not_elem_of_nil in H); apply (inj uuid4_hex) in H; cbn in Hn; lia.
Qed.

Lemma catalogue_stays_ok_witness :
  let w := (put as_is unshared "pro" "Pro" ["vision" : pystr] None true (an_installation [])).2 in
  world_ok w /\ (tf_code <$> plan_of "v" (tdb w)) = Some ("pro" : pystr).
Proof.
  split; [|vm_compute; reflexivity].
  destruct (catalogue_stays_ok as_is unshared (seconds 5) (fun _ _ H => H)) as (Hput & _).
  apply Hput, installation_ok.
Defined.

(** The thirtieth message of the day is answered. *)
Lemma run_budget_exact_witness :
  exists v w', check_run_budget unshared (seconds 5) "u" thirty_messages = (Ok v, w') /\ lv_allowed v = true /\
    cache_exact w'.
Proof.
  destruct (run_budget_exact (seconds 5) "u" thirty_messages) as (v & w' & Hrun & Hv & _ & Hexact & _).
  - by split.
  - intros u c [=].
  - exists v, w'. split; [exact Hrun|]. split; [|exact Hexact]. apply Hv.
    assert (plan_of "u" (tdb thirty_messages) = Some (to_tariff (List.nth 1 seeded (starter_row id 0 (List.nth 0 STARTER_PLANS
      {| sp_code := ""; sp_title := ""; sp_features := []; sp_limits := no_limits; sp_is_default := false |}))))) as ->
      by (vm_compute; reflexivity).
    intros t [= <-]. split; [|split]; vm_compute; [discriminate|reflexivity|reflexivity].
Defined.
Lemma next_message_waits :
  lv_allowed (match (check_run_budget unshared (seconds 5) "u"
    (record unshared (a_usage UsageKind.USER_MESSAGE 0) thirty_messages).2).1 with Ok v => v | Err _ => verdict_ok end) = false.
Proof. vm_compute. reflexivity. Qed.

Lemma record_never_fails_witness :
  (record unshared (a_usage UsageKind.LLM_ANSWER 12) thirty_messages).1 = Ok tt /\
  dict_get "u" (tw_cache (record unshared (a_usage UsageKind.LLM_ANSWER 12) thirty_messages).2) = None.
Proof.
  destruct (record_never_fails unshared (a_usage UsageKind.LLM_ANSWER 12) thirty_messages) as [Hok Hrec].
  split; [exact Hok|]. apply Hrec. by split.
Defined.

Lemma metering_between_is_missed_witness :
  exists w', totals_today (fun k v => if decide (k = 1) then (record unshared (a_usage UsageKind.USER_MESSAGE 0) v).2 else v)
      (seconds 5) "u" thirty_messages = (Ok (spent_since "u" day_us (tdb thirty_messages)), w') /\
    length (td_events (tdb w')) = 31 /\
    (ut_user_messages <$> (ct_totals <$> dict_get "u" (tw_cache w'))) = Some 30%Z.
Proof.
  destruct (metering_between_is_missed (seconds 5) "u" (a_usage UsageKind.USER_MESSAGE 0) thirty_messages)
    as (w' & Hrun & Hevents & Hcached).
  - by split.
  - reflexivity.
  - reflexivity.
  - exists w'. split; [exact Hrun|]. rewrite Hevents, Hcached. split; vm_compute; reflexivity.
Defined.

Lemma seed_is_timid_witness :
  length (seed_starter_tariffs true id (seconds 1) seeded) = 2 /\
  seed_starter_tariffs true id (seconds 2) (seed_starter_tariffs true id (seconds 1) seeded) =
    seed_starter_tariffs true id (seconds 1) seeded.
Proof.
  destruct (seed_is_timid true id (seconds 1) seeded id (seconds 2)) as (_ & Hagain & _).
  split; [vm_compute; reflexivity|exact Hagain].
Defined.
