(* ===== verification/CollectionExamples.v ===== *)
(** * Collections and external calls on concrete data

    Witnesses of the theorems on collections and external calls, and the places where the code
    does not do what it says. *)
From S2P Require Import Prelude PyStr Clock Sql Dict Domain UnitOfWork Tariffs ResponseMemory Secrets CollectionSchema Collections CollectionLaws CollectionQuery CollectionQueryLaws CollectionIngest Templates Guard ToolSpecs External ExternalLaws UserExamples.

Definition price (z : Z) : json := JObj [("price" : pystr, JInt z)].
Definition priced : list json := [price 10; price 20].
Definition oddly_priced : list json := [JObj [("price" : pystr, JNull)]; JObj [("name" : pystr, JStr "x")]].

Lemma numeric_fields_cast_witness :
  dotted_get (price 20) "price" = JInt 20 /\
  let schema := merge_nodes (infer_records priced) (infer_records oddly_priced) in
  fits schema (price 20) = true /\
  (field_node schema "price" = Some (NNumber {| nullable := true; optional := true |}) ->
   dotted_get (price 20) "price" = JNull \/ (exists z, dotted_get (price 20) "price" = JInt z) \/
   exists l, dotted_get (price 20) "price" = JFloat l).
Proof.
  split; [by vm_compute|].
  apply (numeric_fields_cast priced oddly_priced).
  - repeat constructor.
  - repeat constructor.
  - right. left.
Defined.

(** A database with one collection of two records. *)
Definition stored (id : pystr) (at_ bytes : Z) : CollectionRow :=
  {| co_id := id; co_owner_id := "u"; co_label := ""; co_kind := CollectionKind.JSON; co_source := "s";
     co_schema := infer_records priced; co_envelope := []; co_record_count := 1; co_byte_size := bytes;
     co_pages_loaded := 1; co_truncated := false; co_created_at := at_; co_updated_at := at_; co_expires_at := 100 |}.
Definition stored_record (id : pystr) (z : Z) : CollectionRecordRow :=
  {| cr_collection_id := id; cr_source := "s"; cr_position := 0; cr_payload := [("price" : pystr, JInt z)] |}.
Definition two_collections : CollectionDb :=
  {| cd_collections := [stored "a" 1 60; stored "b" 2 30]; cd_records := [stored_record "a" 1; stored_record "b" 2] |}.
Definition small_config : CollectionConfig :=
  {| ttl := seconds 60; max_per_user := 3; max_bytes_per_user := 100; query_default_limit := 2; query_max_limit := 5;
     inline_max_chars := 10; collect_max_pages := 3; query_default_chars := 20; query_max_chars := 30 |}.
Lemma two_collections_ok : collections_ok two_collections.
Proof.
  split; cbn.
  - vm_decide.
  - intros r Hr. repeat (apply elem_of_cons in Hr as [->|Hr]); [eexists; split; [left|done]|eexists; split; [right; left|done]|].
    by apply not_elem_of_nil in Hr.
  - intros row Hr. repeat (apply elem_of_cons in Hr as [->|Hr]); [done|done|]. by apply not_elem_of_nil in Hr.
Qed.
Definition batch : NewRecords := {| nr_payloads := [[("price" : pystr, JInt 7)]]; nr_source := "s" |}.

Lemma collections_stay_ok_witness :
  length (cd_records (apply_change small_config 5 (Append "u" "b" batch (infer_records priced) 10 200) two_collections)) = 3 /\
  collections_ok (apply_change small_config 5 (Append "u" "b" batch (infer_records priced) 10 200) two_collections).
Proof. split; [by vm_compute|]. apply collections_stay_ok; [exact two_collections_ok|exact I]. Defined.

(** Fifty bytes more than fit: the collection touched first is evicted. *)
Lemma create_keeps_quotas_witness :
  co_id <$> cd_collections (CollectionStore.create small_config 5 "c" "u" "" CollectionKind.JSON "s" (infer_records priced) []
      batch 50 false 200 two_collections).2 = ["b"; "c"] /\
  let '(answer, d') := CollectionStore.create small_config 5 "c" "u" "" CollectionKind.JSON "s" (infer_records priced) []
      batch 50 false 200 two_collections in
  (exists p, answer = Ok p /\ cp_id p = "c" /\ cp_record_count p = Z.of_nat (length (nr_payloads batch))) /\
  (Z.of_nat (length (rows_of "u" d')) <= max_per_user small_config)%Z /\
  ((CollectionStore.bytes_of (rows_of "u" d') <= max_bytes_per_user small_config)%Z \/ co_id <$> rows_of "u" d' = ["c" : pystr]) /\
  (forall o, o <> "u" -> rows_of o d' = rows_of o two_collections) /\
  (forall r r', r ∈ rows_of "u" two_collections -> co_id r ∉ co_id <$> cd_collections d' ->
     r' ∈ rows_of "u" two_collections -> co_id r' ∈ co_id <$> cd_collections d' -> (co_updated_at r <= co_updated_at r')%Z).
Proof.
  split; [by vm_compute|].
  apply create_keeps_quotas; [exact two_collections_ok|vm_decide|vm_decide].
Defined.

(** ** Queries *)

Definition text_id (s : pystr) : pystr := s.
Definition plain_query (op : QueryOp.t) (field : option pystr) (filters : list FilterPredicate) : Query :=
  {| q_op := op; q_field := field; q_filters := filters; q_group_by := None; q_source := None; q_join := None;
     q_limit := 2; q_offset := 0 |}.
Definition cheap : Query := plain_query QueryOp.SUM (Some "price") [{| fp_field := "price"; fp_op := FilterOp.LT; fp_value := SInt 15 |}].
Definition cheap_other : Query :=
  plain_query QueryOp.SUM (Some "cost'; DROP TABLE collections; --")
    [{| fp_field := "cost'; DROP TABLE collections; --"; fp_op := FilterOp.LT; fp_value := SInt 9 |}].
Definition hostile_schema : SchemaNode := infer_records [JObj [("cost'; DROP TABLE collections; --" : pystr, JInt 1)]].

Lemma query_text_is_shape_witness :
  (match (compile text_id cheap (infer_records priced) "a" tt).1 with Ok c => sql_text (cm_sql c) | Err _ => "" end) =
    "SELECT sum((payload #>> :p3)::numeric) FROM collection_records WHERE collection_id = :p0 AND (payload #>> :p1)::numeric < :p2" /\
  text_of (compile text_id cheap (infer_records priced) "a" tt) = text_of (compile text_id cheap_other hostile_schema "b" tt) /\
  text_of (compile_count text_id cheap (infer_records priced) "a" tt) = text_of (compile_count text_id cheap_other hostile_schema "b" tt).
Proof. split; [by vm_compute|]. apply query_text_is_shape. by vm_compute. Defined.

Lemma well_asked_compiles_witness :
  (exists c, compile text_id cheap (infer_records priced) "a" tt = (Ok c, tt)) /\
  (exists c, compile_count text_id cheap (infer_records priced) "a" tt = (Ok c, tt)).
Proof.
  apply (well_asked_compiles text_id cheap (infer_records priced) None "a" tt).
  - split_and!; try done.
    + intros _. exists "price". split_and!; [done|by eexists|done].
    + repeat constructor. by eexists.
  - repeat constructor. done.
Defined.

(** A count over a join may also ask for groups: the check lets it through, the
    statement has one column, and shaping its rows indexes a second one. *)
Definition grouped_join : Query :=
  {| q_op := QueryOp.COUNT; q_field := None; q_filters := []; q_group_by := Some "price"; q_source := None;
     q_join := Some {| js_ref := "b"; js_on_left := "price"; js_on_right := "price"; js_source := None |};
     q_limit := 2; q_offset := 0 |}.
Example grouped_join_fails (one_column : Compiled -> M CollectionDb Exn (list (list cell))) n :
  (forall c d, one_column c d = (Ok [[CJson (JInt n)]], d)) ->
  (CollectionQuery.execute text_id small_config 5 one_column "u" "a" grouped_join two_collections).1 = Err (OtherError "IndexError").
Proof.
  intros H. vm_compute. by rewrite H.
Qed.

(** A negative [max_chars] passes the ceiling: the cut counts from the end. *)
Definition long_result : QueryResult := {| qr_rows := [JNull]; qr_total := 1 |}.
Example negative_max_chars_passes_ceiling :
  let body : pystr := "0123456789012345678901234567890123456789" in
  let shown := render_result (fun _ => body) cheap long_result (Z.min (-1) (query_max_chars small_config)) in
  shown = "1 of 1 matched (offset 0)" +s+ newline +s+ "012345678901234567890123456789012345678" +s+ CUT_NOTE /\
  (query_max_chars small_config < 39)%Z.
Proof. by vm_compute. Qed.

(** ** Ingestion *)

Definition envelope_body : fields :=
  [("ok" : pystr, JBool true);
   ("data" : pystr, JObj [("total" : pystr, JInt 2); ("items" : pystr, JList priced); ("one" : pystr, JList [price 1])])].
Lemma records_are_nearest_witness :
  locate_records envelope_body = Some (priced, [("ok" : pystr, JBool true); ("total" : pystr, JInt 2)]) /\
  exists found, nearest envelope_body 0 MAX_UNWRAP_DEPTH found /\
    locate_records envelope_body =
      (fun found => (found.1, dict_merge (scalars_of (JObj envelope_body)) (envelope_of found.2))) <$> found.
Proof. split; [by vm_compute|]. apply records_are_nearest. apply Nat.leb_le. by vm_compute. Defined.
Lemma take_apart_tells_cut_witness :
  exists parsed, take_apart (JObj envelope_body) None = Some parsed /\
  nr_payloads (pb_records parsed) =
    ((fun item => match item with JObj d => d | v => [("value" : pystr, v)] end) <$>
     take MAX_RECORDS (source_items (JObj envelope_body) None)) /\
  pb_record_truncated parsed =
    bool_decide (length (nr_payloads (pb_records parsed)) < length (source_items (JObj envelope_body) None))%nat /\
  (pb_single_document parsed = true <->
   (None : option pystr) = None /\ exists root, JObj envelope_body = JObj root /\ locate_records root = None).
Proof.
  eexists. split; [reflexivity|]. apply take_apart_tells_cut. reflexivity.
Defined.

Definition poured_body (payload : fields) : ParsedBody :=
  {| pb_kind := CollectionKind.JSON; pb_records := new_records [payload]; pb_envelope := []; pb_document := JNull;
     pb_single_document := false; pb_record_truncated := false |}.
Definition into_b : CollectionSink := new_sink "u" "s" "" (Some "b").
Definition named : ParsedBody := poured_body [("price" : pystr, JStr "many")].
Lemma two_collections_typed : typed two_collections.
Proof.
  intros row r Hrow Hr. cbn in Hrow, Hr.
  repeat (apply elem_of_cons in Hrow as [->|Hrow]); try (by apply not_elem_of_nil in Hrow);
    repeat (apply elem_of_cons in Hr as [->|Hr]); try (by apply not_elem_of_nil in Hr); done.
Qed.
Lemma sink_keeps_schema_witness :
  (match (add small_config (ret 5%Z) (with_store small_config 5 "c") into_b named 1 two_collections).1 with
   | Ok sink => field_node (default (NNull plain_flags) (sk_schema sink)) "price" = Some (NString plain_flags)
   | Err _ => False
   end) /\
  match add small_config (ret 5%Z) (with_store small_config 5 "c") into_b named 1 two_collections with
  | (Ok sink', d') => typed d' /\ in_step sink' d' /\ is_Some (sk_collection_id sink')
  | (Err _, d') => d' = two_collections
  end.
Proof.
  split; [by vm_compute|].
  apply sink_keeps_schema; [exact two_collections_ok|exact two_collections_typed|done|repeat constructor|vm_decide].
Defined.

(** Two sinks over one collection, the second of which read the schema before
    the first one poured text: its next batch declares the field numeric
    again, and the text no longer fits. *)
Definition behind : CollectionSink :=
  poured "b" (infer_records priced) 1 into_b.
Example sink_behind_breaks_schema :
  let store := with_store small_config 5 "c" in
  let d1 := (add small_config (ret 5%Z) store into_b named 1 two_collections).2 in
  let d2 := (add small_config (ret 5%Z) store behind (poured_body [("price" : pystr, JInt 3)]) 1 d1).2 in
  (exists row, find_key co_id ("b" : pystr) (cd_collections d2) = Some row /\ is_numeric (co_schema row) "price" = true) /\
  [("price" : pystr, JStr "many")] ∈ cr_payload <$> records_of "b" d2.
Proof. split; [eexists; by vm_compute|]. apply list_elem_of_In. vm_compute. tauto. Qed.

(** ** External calls on concrete data *)

(** Witnesses of the theorems on endpoints, the guard and the executor, and the
    places where the code does not do what it says. *)
Definition always {A} (_ : A) : bool := true.
Definition quote_repr (v : option json) : pystr := match v with Some (JStr s) => "'" +s+ s +s+ "'" | _ => "..." end.
Definition upper_latin (s : pystr) : pystr := PyStr ((fun c => if (97 <=? c) && (c <=? 122) then c - 32 else c)%N <$> codes s).
(** A parser that knows a few texts. *)
Definition reads (texts : list (pystr * json)) (text : pystr) : Res pystr json :=
  match dict_get text texts with Some v => Ok v | None => Err ("Expecting value" : pystr) end.

(** An endpoint with a host parameter, a path, a secret in the query. *)
Definition host_schema : json :=
  JObj [("type" : pystr, JStr "host"); ("required" : pystr, JBool true); ("hosts" : pystr, JList [JStr "*.example.com"])].
Definition required_of (kind : pystr) : json := JObj [("type" : pystr, JStr kind); ("required" : pystr, JBool true)].
Definition items_document : json :=
  JObj [("method" : pystr, JStr "get"); ("url_template" : pystr, JStr "https://{h}/items/{id}?t={secret.tok}");
        ("params_schema" : pystr, JObj [("h" : pystr, host_schema); ("id" : pystr, required_of "string")])].
Definition parse_document (document : json) : Res Exn ToolSpec :=
  parse_tool_spec lower_latin upper_latin quote_repr (reads [("d" : pystr, document)]) "d".
Definition items_spec : ToolSpec :=
  {| ts_method := "GET"; ts_url_template := "https://{h}/items/{id}?t={secret.tok}";
     ts_params := [("h" : pystr, {| tp_required := true; tp_kind := ParamKind.HOST; tp_hosts := ["*.example.com"] |});
                   ("id" : pystr, {| tp_required := true; tp_kind := ParamKind.STRING; tp_hosts := [] |})];
     ts_auth := "none"; ts_body_template := None; ts_headers := []; ts_response := None; ts_pagination := None |}.
Lemma items_parse : parse_document items_document = Ok items_spec.
Proof. by vm_compute. Qed.
Definition call (h id : pystr) : list (pystr * json) := [("h" : pystr, JStr h); ("id" : pystr, JStr id)].
Definition given (h id : pystr) : list (pystr * pystr) := [("h" : pystr, h); ("id" : pystr, id)].
Definition tok_mark : list (pystr * pystr) := [("tok" : pystr, "of-secret-1" : pystr)].
Lemma items_literal : literal_separator (ts_url_template items_spec).
Proof. eexists _, _. split; vm_compute; reflexivity. Qed.
Lemma items_hosts (p q : list (pystr * pystr)) name param :
  dict_get ("h" : pystr) p = dict_get ("h" : pystr) q ->
  dict_get name (ts_params items_spec) = Some param -> tp_kind param = ParamKind.HOST -> dict_get name p = dict_get name q.
Proof.
  intros Heq. cbn. case_decide as Hh; [by subst|]. case_decide; [by intros [= <-]|done].
Qed.

Lemma params_keep_destination_witness :
  let url1 : pystr := "https://api.example.com/items/1?t=of-secret-1" in
  let url2 : pystr := "https://api.example.com/items/%40evil.com%2F..?t=of-secret-1" in
  urlsplit always always url1 = Some {| sr_scheme := "https"; sr_netloc := codes ("api.example.com" : pystr) |} /\
  urlsplit always always url1 = urlsplit always always url2 /\
  forall name param v, dict_get name (ts_params items_spec) = Some param -> tp_kind param = ParamKind.HOST ->
    (None : option pystr) <> Some name -> dict_get name (given "api.example.com" "1") = Some v -> exists pattern, pattern ∈ tp_hosts param /\ host_matches lower_latin pattern v = true.
Proof.
  intros url1 url2. split; [by vm_compute|].
  apply (params_keep_destination always always lower_latin upper_latin quote_repr (reads [("d" : pystr, items_document)]) "d" items_spec
    None None (given "api.example.com" "1")
    (given "api.example.com" "@evil.com/..") [] tok_mark tok_mark).
  - exact items_parse.
  - exact items_literal.
  - apply (carried_call _ _ _ (call "api.example.com" "1")). vm_compute. reflexivity.
  - apply (carried_call _ _ _ (call " API.example.com" "@evil.com/..")). vm_compute. reflexivity.
  - intros name param. by apply items_hosts.
  - vm_compute. reflexivity.
  - vm_compute. reflexivity.
Defined.

Definition token (value : pystr) : ResolvedSecret := {| rs_value := value; rs_plain := value; rs_placements := {[SecretPlacement.URL]} |}.
Lemma substitution_keeps_destination_witness :
  let safe_url : pystr := "https://api.example.com/items/1?t=of-secret-1" in
  let url : pystr := "https://api.example.com/items/1?t=%40%2Fevil" in
  substitute_url_secrets always always safe_url tok_mark [("tok" : pystr, token "@/evil")] = Ok url /\
  urlsplit always always url = urlsplit always always safe_url.
Proof.
  intros safe_url url. split; [by vm_compute|].
  apply (substitution_keeps_destination always always lower_latin upper_latin quote_repr (reads [("d" : pystr, items_document)]) "d" items_spec
    (given "api.example.com" "1") [] tok_mark [("tok" : pystr, token "@/evil")]).
  - exact items_parse.
  - exact items_literal.
  - intros host Hr. assert (Hc : Ok (E:=Exn) ("https://api.example.com" : pystr) = Ok host) by (rewrite <- Hr; vm_compute; reflexivity).
    injection Hc as <-. repeat constructor; cbn [snd]; [done|vm_decide|]. intros H.
    apply contains_infix in H; [|done]. vm_compute in H. discriminate H.
  - vm_compute. reflexivity.
  - vm_compute. reflexivity.
Defined.

(** ** A client over a list of answers *)

(** The state: the answers to come, and the requests made. *)
Record Net := { ne_answers : list Response; ne_sent : list Request }.
Abbreviation MN := (M Net Exn) (only parsing).
Definition serve (rq : Request) : MN (Res pystr Response) := fun s =>
  match ne_answers s with
  | [] => (Ok (Err ("timed out" : pystr)), {| ne_answers := []; ne_sent := ne_sent s ++ [rq] |})
  | r :: rs => (Ok (Ok r), {| ne_answers := rs; ne_sent := ne_sent s ++ [rq] |})
  end.
Definition latin (_ : Response) (raw : list N) : pystr := PyStr raw.
Definition public_host (_ : pystr) : MN (option (list pystr)) := ret (Some (["93.184.216.34"] : list pystr)).
Definition one_address (text : pystr) : option ip := if decide (text = "93.184.216.34") then Some (V4 (v4 93 184 216 34)) else None.
Definition no_guard : SsrfGuard := {| sg_allowed_origins := [] |}.
Definition vault (_ code host : pystr) : MN ResolvedSecret :=
  if decide (host = "api.example.com") then ret (token "@/evil") else raise (SecretHostMismatchError "not this host").
Definition items_plan : RenderPlan :=
  {| rp_url_refs := {| tr_params := {["h" : pystr; "id" : pystr]}; tr_user_params := ∅; tr_secrets := {["tok" : pystr]} |};
     rp_body_refs := no_refs; rp_header_refs := [] |}.
Lemma items_plan_ok : collect_plan items_spec = Ok items_plan.
Proof. by vm_compute. Qed.
Definition ask (http : Request -> MN (Res pystr Response)) : MN PageResult :=
  request_once always always lower_latin quote_repr one_address latin (ret ("1" : pystr)) public_host no_guard http (Some vault) None
    [] None items_spec items_plan (given "api.example.com" "1") (Some ("u" : pystr)).
Definition answer (body : pystr) : Response := {| re_status := 200; re_content_type := "application/json"; re_chunks := [codes body] |}.
Definition net (bodies : list pystr) : Net := {| ne_answers := answer <$> bodies; ne_sent := [] |}.
(** A client that would let a [DELETE] through unrecorded. *)
Definition serve_but_delete (rq : Request) : MN (Res pystr Response) :=
  if decide (rq_method rq = "DELETE") then ret (Err ("" : pystr)) else serve rq.
Lemma request_is_cleared_witness :
  (rq_url <$> ne_sent (ask serve (net ["@/evil"])).2) = ["https://api.example.com/items/1?t=%40%2Fevil"] /\
  ask serve_but_delete (net ["@/evil"]) = ask serve (net ["@/evil"]).
Proof.
  split; [by vm_compute|]. apply request_is_cleared; [exact items_plan_ok|]. intros rq s (? & Hm & _). unfold serve_but_delete.
  by rewrite decide_False by (rewrite Hm; vm_compute; discriminate).
Defined.
(** What is masked, and what stays. *)
Definition reflected : pystr := "t=%40%2Fevil and @/evil and evil".
Lemma token_maskable : maskable (token "@/evil").
Proof.
  intros value Hv. assert (value = "@/evil") as -> by (by destruct Hv).
  split_and!; [vm_decide|split; vm_decide|..]; intros H; apply contains_infix in H; try done; vm_compute in H; discriminate H.
Qed.
Lemma request_leaves_no_form_witness :
  (match (ask serve (net [reflected])).1 with Ok page => pr_scrubbed page | Err _ => "" end) = "t=[secret] and [secret] and evil" /\
  let r := (ask serve (net [reflected])).1 in
  (exists e, r = Err e /\ forall http', ask http' (net [reflected]) = (Err e, (ask serve (net [reflected])).2)) \/
  exists resolved rq s1,
    built always always lower_latin quote_repr one_address (ret ("1" : pystr)) public_host no_guard (Some vault) None [] items_spec items_plan
      (given "api.example.com" "1") (Some ("u" : pystr)) resolved rq /\
    match serve rq s1 with
    | (Ok (Ok response), s2) =>
        let body := latin response (read_capped MAX_BODY_BYTES (re_chunks response)).1 in
        exists page, r = Ok page /\ (ask serve (net [reflected])).2 = s2 /\ Forall (hidden (pr_scrubbed page)) resolved.*2 /\
          (Forall (hidden body) resolved.*2 -> pr_scrubbed page = body)
    | (Ok (Err text), s2) =>
        exists clean, r = Err (ExternalCallError ("external call failed: " +s+ clean)) /\ (ask serve (net [reflected])).2 = s2 /\
          Forall (hidden clean) resolved.*2 /\ (Forall (hidden text) resolved.*2 -> clean = text)
    | (Err e, s2) => r = Err e /\ (ask serve (net [reflected])).2 = s2
    end.
Proof.
  split; [by vm_compute|].
  eapply (request_leaves_no_form always always lower_latin quote_repr one_address latin (ret ("1" : pystr)) public_host no_guard
    (Some vault) None [] None serve items_spec items_plan (given "api.example.com" "1") (Some ("u" : pystr)) (net [reflected])).
  - exact items_plan_ok.
  - intros resolve owner code host s secret s' [= <-]. unfold vault. destruct (decide _); [|done]. intros [= <- _]. exact token_maskable.
  - unfold ask. apply surjective_pairing.
Defined.
Lemma read_capped_is_prefix_witness :
  (0 < 3)%Z /\ read_capped 3 [[1; 2]; [3; 4]; [5]]%N = (take 3 (concat [[1; 2]; [3; 4]; [5]]%N), (3 <=? 5)%Z).
Proof. split; [done|]. exact (read_capped_is_prefix 3 [[1; 2]; [3; 4]; [5]]%N eq_refl). Defined.

(** ** Pages *)

Definition pages_spec (kind : PaginationKind.t) : ToolSpec :=
  {| ts_method := "GET"; ts_url_template := "https://api.example.com/i?p={p}";
     ts_params := [("p" : pystr, {| tp_required := true; tp_kind := ParamKind.STRING; tp_hosts := [] |})];
     ts_auth := "none"; ts_body_template := None; ts_headers := []; ts_response := None;
     ts_pagination := Some {| pg_kind := kind; pg_param := "p"; pg_start := 1; pg_cursor_path := Some "next"; pg_total_path := None |} |}.
Definition pages_of (kind : PaginationKind.t) : PaginationSpec :=
  {| pg_kind := kind; pg_param := "p"; pg_start := 1; pg_cursor_path := Some "next"; pg_total_path := None |}.
Definition pages_plan : RenderPlan :=
  {| rp_url_refs := {| tr_params := {["p" : pystr]}; tr_user_params := ∅; tr_secrets := ∅ |}; rp_body_refs := no_refs; rp_header_refs := [] |}.
(** A store of one collection, which nothing marks. *)
Definition kept (truncated : bool) : CollectionPassport :=
  {| cp_id := "c"; cp_owner_id := "u"; cp_label := ""; cp_kind := CollectionKind.CSV; cp_source := "s"; cp_schema := infer_records [];
     cp_envelope := []; cp_record_count := 1; cp_byte_size := 1; cp_pages_loaded := 1; cp_truncated := truncated; cp_created_at := 0;
     cp_expires_at := 0 |}.
Definition one_store : CollectionStorePort Net :=
  {| st_create _ _ _ _ _ _ _ _ truncated _ := ret (kept truncated); st_append _ _ _ _ _ _ := ret (kept false);
     st_passport _ _ := ret (kept false); st_mark_truncated _ _ := ret tt; st_single_payload _ _ := ret [] |}.
Definition small_memory : ResponseMemoryConfig :=
  {| max_response_chars := 8; budget_chars := 100; get_default_chars := 10; get_max_chars := 10 |}.
Definition storing : ResponseSpill (S:=Net) := {| sp_store := Some one_store; sp_memory := Some small_memory; sp_documents := None |}.
Definition collecting_config : CollectionConfig :=
  {| ttl := seconds 60; max_per_user := 3; max_bytes_per_user := 100; query_default_limit := 2; query_max_limit := 5;
     inline_max_chars := 10; collect_max_pages := 3; query_default_chars := 20; query_max_chars := 30 |}.
Definition cursor_page (next : pystr) : json :=
  JObj [("items" : pystr, JList [JObj [("id" : pystr, JInt 1)]]); ("next" : pystr, JStr next)].
Definition page_texts : list (pystr * json) := [("A" : pystr, cursor_page "a"); ("B" : pystr, cursor_page "b")].
(** Lines of one column. *)
Definition one_column (text : pystr) : Res Exn (list (list pystr)) := Ok ((fun line => [line]) <$> str_split_char 10 text).
Definition pages_turn (kind : PaginationKind.t) (w : Walk) : MN (outcome + Walk) :=
  walk_turn always always lower_latin quote_repr one_address (reads page_texts) (fun _ => "") (fun _ => None) (fun s => s) one_column
    latin collecting_config (ret 0%Z) (ret ("1" : pystr)) public_host no_guard serve None None [] (Some storing) 100
    storing (pages_spec kind) (pages_of kind) pages_plan [] (Some ("u" : pystr)) w.
Definition walk_start (kind : PaginationKind.t) : Walk :=
  {| wk_sink := new_sink "u" "s" "" None; wk_cursor := new_cursor (pages_of kind); wk_pages := 0; wk_status := 0 |}.
Definition second (kind : PaginationKind.t) (s : Net) : Walk :=
  match (pages_turn kind (walk_start kind) s).1 with Ok (inr w) => w | _ => walk_start kind end.
Lemma walk_never_repeats_witness :
  param_value (wk_cursor (second PaginationKind.CURSOR (net ["A"]))) = "a" /\
  NoDup ["a" : pystr; "" : pystr] /\ wk_pages (second PaginationKind.CURSOR (net ["A"])) = (Z.of_nat 2 - 1)%Z.
Proof.
  split; [by vm_compute|].
  apply (walk_never_repeats always always lower_latin quote_repr one_address (reads page_texts) (fun _ => "") (fun _ => None) (fun s => s)
    one_column latin collecting_config (ret 0%Z) (ret ("1" : pystr)) public_host no_guard None None [] (Some storing) 100 serve storing
    (pages_spec PaginationKind.CURSOR) (pages_of PaginationKind.CURSOR) pages_plan [] (Some ("u" : pystr)) (walk_start PaginationKind.CURSOR)
    ["a" : pystr; "" : pystr] (second PaginationKind.CURSOR (net ["A"]))); [done|done|].
  apply (walk_turns _ _ _ _ _ _ _ _ _ _ _ _ _ _ _ _ _ _ _ _ _ _ _ _ _ _ _ _ _ ["" : pystr] (walk_start PaginationKind.CURSOR)
    (second PaginationKind.CURSOR (net ["A"])) (net ["A"]) (pages_turn PaginationKind.CURSOR (walk_start PaginationKind.CURSOR) (net ["A"])).2).
  - constructor.
  - vm_compute. reflexivity.
Defined.

Lemma blocked_v4_witness :
  is_blocked (V4 (v4 224 0 0 251)) = true /\ is_blocked (V4 (v4 224 0 0 251)) = existsb (in_range (v4 224 0 0 251)) blocked_ranges_v4.
Proof. split; [by vm_compute|]. apply blocked_v4. by vm_compute. Defined.

(** ** What the code does not do *)

(** A scheme with one slash passes the parser: the authority it looks at is
    [https:], and an empty first parameter lets the second name the host. *)
Definition one_slash_document : json :=
  JObj [("method" : pystr, JStr "GET"); ("url_template" : pystr, JStr "https:/{p}/{q}");
        ("params_schema" : pystr, JObj [("p" : pystr, required_of "string"); ("q" : pystr, required_of "string")])].
Theorem one_slash_lets_a_string_name_the_host :
  exists spec, parse_document one_slash_document = Ok spec /\
  render_url spec [("p" : pystr, "" : pystr); ("q" : pystr, "evil.com" : pystr)] [] [] = Ok ("https://evil.com" : pystr) /\
  (uo_host <$> parse_origin always always lower_latin "https://evil.com") = Some ("evil.com" : pystr).
Proof.
  eexists. split; [vm_compute; reflexivity|]. split; vm_compute; reflexivity.
Qed.
(** The parameter a walk advances may be the one of the host: the cursor a
    server answers is not looked at again, and names the host of the next page. *)
Definition cursor_host_document : json :=
  JObj [("method" : pystr, JStr "GET"); ("url_template" : pystr, JStr "https://{h}/items");
        ("params_schema" : pystr, JObj [("h" : pystr, host_schema)]);
        ("pagination" : pystr, JObj [("kind" : pystr, JStr "cursor"); ("param" : pystr, JStr "h"); ("cursor_path" : pystr, JStr "next")])].
Theorem cursor_names_the_host :
  exists spec pagination cursor,
    parse_document cursor_host_document = Ok spec /\ ts_pagination spec = Some pagination /\
    validate_params lower_latin quote_repr spec [("h" : pystr, JStr "evil.com")] <> Ok [("h" : pystr, "evil.com" : pystr)] /\
    advance (new_cursor pagination) (JObj [("next" : pystr, JStr "evil.com")]) 1 = Some cursor /\
    render_url spec (dict_set (pg_param pagination) (param_value cursor) [("h" : pystr, "api.example.com" : pystr)]) [] [] =
      Ok ("https://evil.com/items" : pystr).
Proof.
  eexists _, _, _. split; [vm_compute; reflexivity|]. split; [reflexivity|]. split; [by vm_compute|].
  split; [vm_compute; reflexivity|]. vm_compute. reflexivity.
Qed.
(** A server that escapes a character of a secret gets it past the mask, and
    reading its body undoes the escape. *)
Definition escaped_answer : pystr := str_join "" ["{"; in_dq "t"; ":"; in_dq "@\/evil"; "}"].
Definition unescapes (text : pystr) : option json :=
  if decide (text = escaped_answer) then Some (JObj [("t" : pystr, JStr "@/evil")]) else None.
Theorem escaped_secret_is_kept :
  scrub escaped_answer [token "@/evil"] = escaped_answer /\
  exists parsed,
    parse_structured lower_latin unescapes (fun _ => Err (OtherError "")) escaped_answer "application/json" None (net []) =
      (Ok (Some parsed), net []) /\
    nr_payloads (pb_records parsed) = [[("t" : pystr, JStr "@/evil")]].
Proof. split; [by vm_compute|]. eexists. split; vm_compute; reflexivity. Qed.
(** The walk does not look at the wire: the second record is cut in the middle,
    the third is lost, and the collection is not marked. *)
Definition csv_answer : Response :=
  {| re_status := 200; re_content_type := "text/csv"; re_chunks := [codes ("n" +s+ newline +s+ "100" +s+ newline +s+ "200" +s+ newline +s+ "300")] |}.
Theorem walk_misses_wire_cut :
  let page := request_once always always lower_latin quote_repr one_address latin (ret ("1" : pystr)) public_host no_guard serve None None
                [] (Some storing) (pages_spec PaginationKind.CURSOR) pages_plan [("p" : pystr, "" : pystr)] (Some ("u" : pystr))
                {| ne_answers := [csv_answer]; ne_sent := [] |} in
  (exists result, page.1 = Ok result /\ pr_wire_truncated result = true) /\
  exists w s, pages_turn PaginationKind.CURSOR (walk_start PaginationKind.CURSOR) {| ne_answers := [csv_answer]; ne_sent := [] |}
    = (Ok (inl (Walked w false)), s) /\ sk_record_count (wk_sink w) = 2%Z.
Proof.
  intros page. split; [eexists; split; [vm_compute; reflexivity|reflexivity]|].
  eexists _, _. split; [vm_compute; reflexivity|reflexivity].
Qed.
(** The whitelist is meant to win over the plain header of a record; it does
    when both spell the name alike. *)
Definition guarded_entry : ExternalCallAuth :=
  {| ea_base_url_prefix := "https://api.example.com"; ea_header_name := "Authorization"; ea_header_value := "Bearer real" |}.
Definition shadowing (name : pystr) : Res Exn (list (pystr * pystr)) :=
  build_headers always always lower_latin quote_repr [guarded_entry]
    {| ts_method := "GET"; ts_url_template := "https://api.example.com/"; ts_params := []; ts_auth := "none"; ts_body_template := None;
       ts_headers := [(name, "Bearer other" : pystr)]; ts_response := None; ts_pagination := None |}
    {| rp_url_refs := no_refs; rp_body_refs := no_refs; rp_header_refs := [(name, no_refs)] |}
    "https://api.example.com/" None (fun _ => None).
Example whitelist_wins : shadowing "Authorization" = Ok [("Authorization" : pystr, "Bearer real" : pystr)].
Proof. by vm_compute. Qed.
Example whitelist_shadowed :
  shadowing "authorization" = Ok [("authorization" : pystr, "Bearer other" : pystr); ("Authorization" : pystr, "Bearer real" : pystr)].
Proof. by vm_compute. Qed.
