(* ===== verification/InstructionExamples.v ===== *)
(** * Instructions and datasets at concrete inputs

    The theorems on instructions, memories and datasets applied to small
    tables, and runs that show what the code does not do. *)
From S2P Require Import Prelude PyStr PyFloat Clock Sql Dict Domain UnitOfWork Ranking Instructions InstructionService InstructionLaws Datasets DatasetLaws InstructionTools.

(** ** A store with three records *)

Definition a_row (id : pystr) (kind : InstructionType.t) (title content : pystr) (v : vector) (system : bool) (owner author : option pystr)
    : InstructionRow :=
  {| ro_id := id; ro_type := kind; ro_title := title; ro_content := content; ro_embedding := v; ro_embedding_vector := or_null v;
     ro_embedding_model := None; ro_tags := []; ro_version := 1; ro_usage_count := 0; ro_success_count := 0; ro_system := system;
     ro_owner_id := owner; ro_author_id := author; ro_created_at := 0; ro_updated_at := 0 |}.
Definition f1 : float := float_of_Z 1.
Definition f0 : float := float_of_Z 0.
Definition a_memory : InstructionRow := a_row "m" InstructionType.MEMORY "birthday" "the fifth of March" [f1; f0] false (Some "ann") (Some "ann").
Definition a_system : InstructionRow := a_row "s" InstructionType.SKILL "remind" "how to remind" [f0; f1] true None None.
Definition a_public : InstructionRow := a_row "p" InstructionType.KNOWLEDGE "office" "third floor" [f1; f1] false None (Some "bob").
Definition a_store : ServiceState := {| ss_rows := [a_memory; a_system; a_public]; ss_pending_bumps := [] |}.
Definition constant_embed (v : vector) (texts : list pystr) : M ServiceState Exn (list vector) := ret ((fun _ => v) <$> texts).
Definition at_noon (s : ServiceState) : time := seconds 43200.
(** A text longer than every one of a list. *)
Definition longer (l : list pystr) : pystr := PyStr (48%N :: concat (codes <$> l)).
Definition a_new_id (s : ServiceState) : pystr := longer (ro_id <$> ss_rows s).
Lemma longer_new l : longer l ∉ l.
Proof.
  intros Hin. assert (Hlen : forall x, x ∈ l -> (length (codes x) <= length (concat (codes <$> l)))%nat).
  { clear. intros x. induction l as [|y l IH]; intros Hx; [by apply not_elem_of_nil in Hx|]. cbn. rewrite length_app.
    apply elem_of_cons in Hx as [->|Hx]; [lia|]. specialize (IH Hx). cbn in IH. lia. }
  apply Hlen in Hin. cbn in Hin. lia.
Qed.
Lemma constant_quiet v texts : quiet (constant_embed v texts).
Proof. done. Qed.
Lemma a_store_sane : sane (ss_rows a_store).
Proof.
  split; split.
  - apply (bool_decide_unpack _). by vm_compute.
  - apply (bool_decide_unpack _). by vm_compute.
  - by repeat constructor.
  - by repeat constructor.
  - intros r u Hr. repeat (apply elem_of_cons in Hr as [->|Hr]; [cbn; try done; intros [= <-]; by right|]). by apply not_elem_of_nil in Hr.
  - intros r p u Hr Hp Ho Hpo Ha. repeat (apply elem_of_cons in Hr as [->|Hr]; [|]); [| | |by apply not_elem_of_nil in Hr]; try done.
    injection Ho as <-. repeat (apply elem_of_cons in Hp as [->|Hp]; [done|]). by apply not_elem_of_nil in Hp.
Qed.
Definition a_policy : InstructionSearchPolicy := DEFAULT_SEARCH_POLICY.
Abbreviation alone := (fun (_ : nat) (t : list InstructionRow) => t).

Lemma instructions_stay_sane_witness :
  let s' := (InstructionLaws.run a_policy (constant_embed [f1]) at_noon a_new_id (Save "ann" InstructionType.KNOWLEDGE "desk" "by the window" []) a_store).2 in
  sane (ss_rows s') /\ length (ss_rows s') = 4%nat.
Proof.
  split; [|vm_compute; reflexivity].
  apply instructions_stay_sane; [intros; apply constant_quiet|intros; apply longer_new|exact I|exact a_store_sane].
Defined.
Lemma user_writes_stay_home_witness :
  filter (InstructionLaws.foreign "bob") (ss_rows (delete "bob" "s" a_store).2) = filter (InstructionLaws.foreign "bob") (ss_rows a_store).
Proof.
  refine (proj1 (user_writes_stay_home a_policy (constant_embed [f1]) at_noon a_new_id _ _ "bob" InstructionType.KNOWLEDGE "office" "fourth floor" [] "s" a_store _)).
  - intros. apply constant_quiet.
  - intros. apply longer_new.
  - exact a_store_sane.
Defined.
(** Bob's save of the record he published rewrites the published one. *)
Example author_edits_published :
  let s' := (save a_policy alone (constant_embed [f1]) at_noon a_new_id "bob" InstructionType.KNOWLEDGE "office" "fourth floor" [] a_store).2 in
  (fun r => (ro_id r, ro_owner_id r, ro_content r)) <$> ss_rows s' =
  [("m", Some (PyStr (codes "ann")), "the fifth of March"); ("s", None, "how to remind"); ("p", None, "fourth floor")].
Proof. vm_compute. reflexivity. Qed.
Definition an_entry : SystemSkill := {| sk_kind := InstructionType.SKILL; sk_title := "report"; sk_content := "how to report"; sk_tags := ["report"] |}.
Lemma sync_makes_registry_witness :
  exists s', sync_system_registry a_policy alone (constant_embed [f1]) at_noon a_new_id [an_entry] a_store = (Ok tt, s') /\
    sync_system_registry a_policy alone (constant_embed [f1]) at_noon a_new_id [an_entry] s' = (Ok tt, s').
Proof.
  refine (let '(ex_intro _ s' (conj H1 (conj _ (conj _ (conj _ (conj _ H2)))))) :=
    sync_makes_registry a_policy (constant_embed [f1]) at_noon a_new_id _ _ _ [an_entry] a_store _ _ _ in ex_intro _ s' (conj H1 H2)).
  - intros. apply constant_quiet.
  - intros. apply longer_new.
  - intros text s. by eexists _, _.
  - exact a_store_sane.
  - by repeat constructor.
  - apply NoDup_singleton.
Defined.
(** The records the core ships are a registry of the kind the theorem asks for. *)
Example core_registry_ok :
  Forall (fun e => sk_kind e <> InstructionType.MEMORY) CORE_SYSTEM_SKILLS /\ NoDup (entry_key <$> CORE_SYSTEM_SKILLS).
Proof. split; [by repeat constructor|]. apply (bool_decide_unpack _). by vm_compute. Qed.
(** Ann sees her memory and what is public; the search leaves out endpoints. *)
Lemma search_shows_visible_witness :
  let '(r, s') := search_in a_policy (constant_embed [f1; f0]) None (fun _ _ => f0) false None id (fun _ => f1)
                    (fun v q => match v, q with x :: _, y :: _ => fmul x y | _, _ => f0 end) (fun p _ _ => p) (Some (PyStr (codes "ann"))) "when" 2 None
                    [InstructionType.ENDPOINT] a_store in
  ss_rows s' = ss_rows a_store /\
  match r with
  | Err _ => True
  | Ok hits => (length hits <= 2)%nat /\
      Forall (fun h => exists row, row ∈ ss_rows a_store /\ to_instruction row = sh_instruction h /\ visible (Some (PyStr (codes "ann"))) row /\
                         of_kinds (wanted_kinds None [InstructionType.ENDPOINT]) row) hits
  end.
Proof.
  apply (search_shows_visible a_policy (constant_embed [f1; f0]) None (fun _ _ => f0) false None id); try done.
  apply (bool_decide_unpack _). by vm_compute.
Defined.
Lemma cap_types_spec_witness :
  exists rest, two_hits ≡ₚ cap_types two_hits 1 ++ rest /\ length (cap_types two_hits 1) = 1%nat.
Proof.
  refine (let '(ex_intro _ rest (conj H1 (conj H2 _))) := cap_types_spec two_hits 1 _ in ex_intro _ rest (conj H1 H2)). done.
Defined.
Definition a_gate (cap : Z) (u : pystr) : M ServiceState Exn (option Z) := ret (Some cap).
Definition memory_args (key content : pystr) : list (pystr * json) := [("key", JStr key); ("content", JStr content)].
Lemma memory_stays_in_cap_witness :
  let s' := (memory_store a_policy alone (constant_embed [f1]) at_noon a_new_id (Some (a_gate 30)) "ann" (memory_args "cat" "Tom") a_store).2 in
  sane (ss_rows s') /\ InstructionStore.memory_total "ann" (ss_rows s') = 21%Z.
Proof.
  split; [|vm_compute; reflexivity].
  refine (proj1 (memory_stays_in_cap a_policy (constant_embed [f1]) at_noon a_new_id (a_gate 30) _ _ _ "ann" (memory_args "cat" "Tom") 30 a_store _ _)).
  - intros. apply constant_quiet.
  - intros. apply longer_new.
  - done.
  - exact a_store_sane.
  - done.
Defined.

(** ** Datasets *)

Definition shown (v : option json) : pystr := "?".
Definition no_dates (text : pystr) : option Z := None.
Definition no_datetimes (text : pystr) : option (Z * option Z) := None.
Definition db_time (db : DatasetDb) : time := Z.of_nat (length (dd_records db)).
Definition db_id (db : DatasetDb) : pystr := longer ((dw_id <$> dd_datasets db) ++ (dc_id <$> dd_records db)).
Definition db_embed (texts : list pystr) : M DatasetDb Exn (list vector) := ret ((fun _ => [f1]) <$> texts).
Definition no_datasets : DatasetDb := {| dd_datasets := []; dd_records := [] |}.
Definition meal_args : list (pystr * json) :=
  [("dataset", JStr "food"); ("record", JObj [("kcal", JInt 200)]); ("description", JStr "meals of the day");
   ("schema", JObj [("fields", JList [JObj [("name", JStr "kcal"); ("type", JStr "integer"); ("required", JBool true)]])])].
Definition same_json (a b : json) : bool := match a, b with JInt x, JInt y => (x =? y)%Z | _, _ => false end.
Lemma no_datasets_ok : db_ok no_dates no_datetimes no_datasets.
Proof. split; cbn; try apply NoDup_nil_2; constructor. Qed.
Abbreviation put_meal := (data_put shown true db_time db_id (fun _ db => db) db_embed None no_dates no_datetimes "ann" meal_args no_datasets).
Lemma put_is_read_back_witness :
  exists text db', put_meal = (Ok text, db') /\ text = CREATED_TEMPLATE "food" (db_id (set_dd_records [] db')) "1970-01-01T00:00:00+00:00" /\
    exists name payload r c, argument "dataset" meal_args = Some (JStr name) /\ argument "record" meal_args = Some (JObj payload) /\
      find_dataset "ann" name db' = Some r /\ dd_records db' = [c] /\ dc_payload c = payload /\ dc_dataset_id c = dw_id r /\
      text = CREATED_TEMPLATE name (dc_id c) (format_iso (dc_created_at c)).
Proof.
  eexists _, _. split; [vm_compute; reflexivity|]. split; [vm_compute; reflexivity|].
  destruct (put_is_read_back shown true db_time db_id db_embed None same_json no_dates no_datetimes ltac:(done) ltac:(done) "ann" meal_args no_datasets
    _ _ 10 no_datasets_ok ltac:(vm_compute; reflexivity)) as (name & payload & r & c & H1 & H2 & H3 & H4 & _ & H5 & _ & H6 & H7 & _).
  exists name, payload, r, c. split_and!; [exact H1|exact H2|exact H3|exact H4|exact H5|exact H6|]. rewrite H7. by rewrite bool_decide_eq_true_2.
Defined.
Lemma datasets_stay_sane_witness :
  let c := DataPut meal_args in
  let db' := (DatasetLaws.run shown true db_time db_id db_embed None same_json no_dates no_datetimes (fun _ => "") 10 100 None None id (fun _ => f1) id "ann" c no_datasets).2 in
  db_ok no_dates no_datetimes db' /\ length (dd_records db') = 1%nat.
Proof.
  split; [|vm_compute; reflexivity].
  refine (proj1 (datasets_stay_sane shown true db_time db_id db_embed None same_json no_dates no_datetimes (fun _ => "") 10 100 _ _ None None id (fun _ => f1) id _ _
    "ann" (DataPut meal_args) no_datasets I no_datasets_ok)); done.
Defined.
Lemma query_answers_witness :
  let '(answer, db') := query_records shown (fun _ db => db) same_json "ann" "food" None None None 10 no_datasets in
  db' = no_datasets /\ answer = Err (DatasetNotFoundError (PyStr (codes "food"))).
Proof.
  exact (query_answers shown same_json no_dates no_datetimes "ann" "food" None None None 10 no_datasets no_datasets_ok ltac:(done)).
Defined.
(** Two records, the query for the one of 300 calories. *)
Definition two_meals : DatasetDb :=
  let put record db := (data_put shown true db_time db_id (fun _ db => db) db_embed None no_dates no_datetimes "ann"
                          (("record", JObj [("kcal", JInt record)]) :: List.filter (fun kv => negb (bool_decide (kv.1 = PyStr (codes "record")))) meal_args) db).2 in
  put 300%Z (put 200%Z no_datasets).
Example query_filters :
  match (query_records shown (fun _ db => db) same_json "ann" "food" (Some [("kcal", JInt 300)]) None None 10 two_meals).1 with
  | Ok l => map dc_payload l
  | Err _ => []
  end = [[(PyStr (codes "kcal"), JInt 300)]].
Proof. vm_compute. reflexivity. Qed.

(** ** What the code does not do *)

(** Publishing a private record whose title is taken by a public one of its
    type breaks the constraint of the table: an error of the database, neither
    of those the service names. *)
Definition a_draft_row : InstructionRow := a_row "d" InstructionType.KNOWLEDGE "office" "my own note" [] false (Some "ann") (Some "ann").
Example publish_of_a_taken_title :
  (publish at_noon "d" {| ss_rows := [a_public; a_draft_row]; ss_pending_bumps := [] |}).1 = Err IntegrityError.
Proof. vm_compute. reflexivity. Qed.
(** A memory over the plan's size cannot be shortened to one still over it,
    which the tool says always passes. *)
Example shrinking_rewrite_is_refused :
  (memory_store a_policy alone (constant_embed [f1]) at_noon a_new_id (Some (a_gate 5)) "ann" (memory_args "birthday" "in March") a_store).1 =
  Ok (MEMORY_LIMIT_REFUSAL_TEMPLATE 8 5) /\ InstructionStore.memory_total "ann" (ss_rows a_store) = 18%Z.
Proof. split; vm_compute; reflexivity. Qed.
(** With a store that searches text and not vectors, as the one on SQLite, the
    vector half of the ranking is the order of the ids: of two records neither
    of which has a word of the query, the one whose embedding is the query's
    comes second.  Without the text search it comes first. *)
Definition near : InstructionRow := a_row "b" InstructionType.KNOWLEDGE "near" "one" [f1; f0] false None None.
Definition far : InstructionRow := a_row "a" InstructionType.KNOWLEDGE "far" "two" [f0; f1] false None None.
Definition first_half_dot (v q : vector) : float := match v, q with x :: _, y :: _ => fmul x y | _, _ => f0 end.
Definition titles_of (by_text : option (pystr -> Z -> option pystr -> list InstructionType.t -> M (list InstructionRow) Exn (list EmbeddedInstruction)))
    : option (list pystr) :=
  match (search_in a_policy (constant_embed [f1; f0]) None (fun _ _ => f0) false by_text id (fun _ => f1) first_half_dot (fun p _ _ => p)
           None "anything" 2 (Some InstructionType.KNOWLEDGE) [] {| ss_rows := [near; far]; ss_pending_bumps := [] |}).1 with
  | Ok hits => Some ((fun h => in_title (sh_instruction h)) <$> hits)
  | Err _ => None
  end.
Example text_search_forgets_vectors :
  titles_of None = Some [PyStr (codes "near"); PyStr (codes "far")] /\
  titles_of (Some (InstructionStore.sqlite_search_by_text (fun _ t => t) (fun _ _ => None))) = Some [PyStr (codes "far"); PyStr (codes "near")].
Proof. split; vm_compute; reflexivity. Qed.
(** One descriptor embedded by a model of another dimension fails every search
    of its owner's datasets. *)
Example old_embedding_fails_the_search :
  rank_datasets id (fun l => foldr fadd f0 l) id
    [{| ed_dataset := {| da_id := "d"; da_owner_user_id := "ann"; da_name := "food"; da_description := ""; da_schema := {| ds_fields := [] |};
          da_usage_notes := ""; da_retention := ""; da_version := 1; da_created_at := 0; da_updated_at := 0 |}; ed_embedding := [f1; f0; f0] |}]
    "food" [f1; f0] 3 = Err (OtherError "ValueError").
Proof. vm_compute. reflexivity. Qed.
