(* ===== verification/ServiceExamples.v ===== *)
(** * External services at concrete inputs

    The theorems on the clients of models and of MCP servers applied to small
    conversations, and runs that show what the code does not do. *)
From S2P Require Import Prelude PyStr PyFloat Clock Sql Dict Domain Broadcast Codec MessageStore SummaryStore Loop Tariffs ResponseMemory Collections CollectionIngest Guard ToolSpecs External Ranking Instructions InstructionService InstructionLaws Llm LlmLaws Embeddings Media NetTools Mcp McpLaws TelegramBridge TelegramBridgeLaws Samples UserExamples CollectionExamples InstructionExamples.

(** ** Retries *)

(** A provider that limits the rate of the first calls, the number left in the
    state. *)
Definition a_limit (hint : option float) : Exn := LLMError ErrorKind.RATE_LIMIT "slow down" hint.
Definition a_flaky_call (n : nat) : Res Exn pystr * nat := match n with O => (Ok ("answer" : pystr), O) | S n => (Err (a_limit (Some (float_of_Z 900))), n) end.
Definition a_nap (seconds : float) : M nat Exn unit := ret tt.
Definition a_draw : M nat Exn float := ret (fdiv (float_of_Z 1) (float_of_Z 2)).
Lemma a_nap_ends seconds : returns (a_nap seconds).
Proof. intros s. by eexists _, _. Qed.
Lemma a_draw_ends : returns a_draw.
Proof. intros s. by eexists _, _. Qed.
Lemma complete_retries_witness :
  let '(r, (_, log)) := complete_with_retries (log_sleep a_nap) (log_random a_draw) 2 f1 (float_of_Z 60) (LlmLaws.log_call a_flaky_call) (1%nat, []) in
  r = Ok ("answer" : pystr) /\ length log = 3%nat /\
  retried (fun e seconds => hint_of e <> None -> not_past_cap seconds) 2 r log.
Proof.
  split; [vm_compute; reflexivity|]. split; [vm_compute; reflexivity|].
  eapply (complete_retries a_flaky_call a_nap a_draw a_nap_ends a_draw_ends 2 f1 (float_of_Z 60) 1%nat). vm_compute. reflexivity.
Defined.
(** A stream that breaks before its first event, then one that plays. *)
Definition a_broken_stream (n : nat) : Res Exn Play * nat :=
  match n with O => (Ok {| pl_events := [LlmTextDelta "hi"]; pl_end := None |}, O) | S n => (Ok (failed_with (a_limit None)), n) end.
Lemma stream_retries_witness :
  let '(r, (_, log)) := stream_with_retries (log_sleep a_nap) (log_random a_draw) 2 f1 (float_of_Z 60) (LlmLaws.log_call a_broken_stream) (1%nat, []) in
  (pl_events <$> match r with Ok p => Some p | Err _ => None end) =
    Some [LlmRetryScheduled 1 (fdiv (float_of_Z 1) (float_of_Z 2)) "rate_limit"; LlmTextDelta "hi"] /\
  stream_retried 1 2 r log.
Proof.
  assert (returns a_broken_stream) as Hplays by (intros s; destruct s; by eexists _, _).
  pose proof (stream_retries a_broken_stream a_nap a_draw a_nap_ends a_draw_ends Hplays 2 f1 (float_of_Z 60) 1%nat) as H.
  destruct (stream_with_retries _ _ _ _ _ _ _) as [r [n log]] eqn:E. specialize (H _ _ _ eq_refl). split; [|exact H].
  vm_compute in E. injection E as <- <- <-. reflexivity.
Defined.
(** A hint of no wait at all is taken for none: the short retry sleeps its own
    delay. *)
Example hint_of_zero_is_ignored :
  short_delay SHORT_RETRY_DELAY_SECONDS (Some f0) = SHORT_RETRY_DELAY_SECONDS.
Proof. vm_compute. reflexivity. Qed.
(** Without a hint nothing holds the backoff under the cap. *)
Example backoff_has_no_cap :
  fltb RETRY_AFTER_DELAY_CAP_SECONDS (backoff (float_of_Z 400) (float_of_Z 800) 2 None (fdiv (float_of_Z 1) (float_of_Z 2))) = true.
Proof. vm_compute. reflexivity. Qed.

(** ** Streams *)

Definition chunk (d : list (pystr * json)) : json := JObj [("choices" : pystr, JList [JObj [("delta" : pystr, JObj d)]])].
Definition content_delta (piece : pystr) : list (pystr * json) := [("content" : pystr, JStr piece)].
Definition opening (index : Z) (call : ToolCall) : json :=
  JObj [("index" : pystr, JInt index); ("id" : pystr, JStr (tc_id call)); ("function" : pystr, JObj [("name" : pystr, JStr (tc_name call))])].
Definition argument_part (index : Z) (part : pystr) : json :=
  JObj [("index" : pystr, JInt index); ("function" : pystr, JObj [("arguments" : pystr, JStr part)])].
Definition call_delta (raw : json) : list (pystr * json) := [("tool_calls" : pystr, JList [raw])].
Definition a_call : ToolCall := {| tc_id := "t1"; tc_name := "look"; tc_arguments := [("q" : pystr, JInt 1)] |}.
Definition a_wire : list (pystr * json) :=
  [("c0" : pystr, chunk (content_delta "Hel")); ("c1" : pystr, chunk (content_delta "lo")); ("c2" : pystr, chunk (call_delta (opening 0 a_call)));
   ("c3" : pystr, chunk (call_delta (argument_part 0 "ar"))); ("c4" : pystr, chunk (call_delta (argument_part 0 "gs")));
   ("args" : pystr, JObj (tc_arguments a_call))].
Definition loads_from (known : list (pystr * json)) (text : pystr) : Res pystr json :=
  match dict_get text known with Some v => Ok v | None => Err ("not json" : pystr) end.
Definition no_float (text : pystr) : option float := None.
Definition no_str (v : json) : pystr := "?".
Definition wire_lines (names : list pystr) : list pystr := ((fun text => SSE_DATA_PREFIX +s+ text) <$> names) ++ ["data: [DONE]" : pystr].
Abbreviation a_read known lines := (read_lines id no_float no_str (loads_from known) lines None new_accumulator).
(** A reply as a provider streams it: a role, text with reasoning between, a
    call whose name and arguments come in pieces, a remark, the usage. *)
Definition piece (index : Z) (id name arguments : pystr) : Piece :=
  {| pc_index := index; pc_id := id; pc_name := name; pc_arguments := arguments |}.
Definition text_part (text : pystr) : Part := {| pa_text := text; pa_calls := []; pa_usage := None |}.
Definition call_part (p : Piece) : Part := {| pa_text := ""; pa_calls := [p]; pa_usage := None |}.
Definition a_stream : list (pystr * json) :=
  [("c0" : pystr, chunk [("role" : pystr, JStr "assistant"); ("content" : pystr, JNull)]); ("c1" : pystr, chunk (content_delta "Hel"));
   ("c2" : pystr, chunk [("reasoning" : pystr, JStr "hm")]); ("c3" : pystr, chunk (content_delta "lo"));
   ("c4" : pystr, chunk (call_delta (JObj [("index" : pystr, JInt 0); ("id" : pystr, JStr "t1"); ("type" : pystr, JStr "function");
      ("function" : pystr, JObj [("name" : pystr, JStr "lo"); ("arguments" : pystr, JStr "")])])));
   ("c5" : pystr, chunk (call_delta (JObj [("index" : pystr, JInt 0); ("id" : pystr, JNull);
      ("function" : pystr, JObj [("name" : pystr, JStr "ok"); ("arguments" : pystr, JStr "ar")])])));
   ("c6" : pystr, chunk (call_delta (argument_part 0 "gs")));
   ("c7" : pystr, JObj [("choices" : pystr, JList []); ("usage" : pystr, JObj [("prompt_tokens" : pystr, JInt 5); ("completion_tokens" : pystr, JInt 3)])]);
   ("args" : pystr, JObj (tc_arguments a_call))].
Definition a_usage : Usage := {| prompt_tokens := 5; completion_tokens := 3; cached_tokens := None |}.
Definition stream_parts : list (list Part) :=
  [[no_part]; [text_part "Hel"]; []; [no_part]; [text_part "lo"]; [call_part (piece 0 "t1" "lo" "")]; [call_part (piece 0 "" "ok" "ar")];
   [call_part (piece 0 "" "" "gs")]; [{| pa_text := ""; pa_calls := []; pa_usage := Some a_usage |}]].
Definition stream_lines : list pystr :=
  ["data: c0"; "data: c1"; ": still there"; "data: c2"; "data:c3"; "data: c4"; "data: c5"; "data: c6"; "data: c7"].
Lemma stream_lines_at : Forall2 (line_at (loads_from a_stream)) stream_lines stream_parts.
Proof.
  assert (forall text part, str_strip text <> SSE_DONE_MARKER ->
    (exists raw, loads_from a_stream (str_strip text) = Ok (JObj raw) /\ chunk_at raw part) -> line_at (loads_from a_stream) (SSE_DATA_PREFIX +s+ text) [part]) as Hline
    by (intros text part Hd (raw & Hl & Hc); by eapply line_of_data).
  assert (forall d part, delta_at d part -> pa_usage part = None -> chunk_at [("choices" : pystr, JList [JObj [("delta" : pystr, JObj d)]])] part) as Hchunk.
  { intros d part Hd Hu. split; [done|]. split; [by rewrite Hu|]. left. eexists _, _, _. split; [reflexivity|]. split; [by left|done]. }
  assert (forall raw p, piece_at raw p -> delta_at (call_delta raw) (call_part p)) as Hcall.
  { intros raw p Hp. split; [right; split; [done|by left]|]. left. exists [raw]. split; [done|by repeat constructor]. }
  repeat (constructor; [first [by apply line_skipped|apply (Hline (PyStr _)); [by vm_compute|eexists; split; [vm_compute; reflexivity|]]]|]); [..|constructor].
  - apply Hchunk; [|done]. split; [right; split; [done|by right]|right; split; [done|by left]].
  - apply Hchunk; [|done]. split; [by left|right; split; [done|by left]].
  - apply Hchunk; [|done]. split; [right; split; [done|by left]|right; split; [done|by left]].
  - apply Hchunk; [|done]. split; [by left|right; split; [done|by left]].
  - apply Hchunk; [apply Hcall|done]. eexists _, _. split; [done|]. split; [by left|]. split; [by left|]. split; [by left|]. by split; left.
  - apply Hchunk; [apply Hcall|done]. eexists _, _. split; [done|]. split; [by left|]. split; [right; split; [done|by right]|]. split; [by left|]. by split; left.
  - apply Hchunk; [apply Hcall|done]. eexists _, _. split; [done|]. split; [by left|]. split; [right; split; [done|by left]|]. split; [by left|].
    split; [right; split; [done|by left]|by left].
  - split; [done|]. split; [vm_compute; reflexivity|]. right. split; [done|]. split; [done|by right].
Qed.
Lemma streamed_in_pieces_witness :
  read_lines id no_float no_str (loads_from a_stream) (stream_lines ++ ["data: [DONE]"]) None new_accumulator =
    {| pl_events := [LlmTextDelta "Hel"; LlmReasoningDelta; LlmTextDelta "lo"; ToolCallStarted (Some 0%Z) "t1" "lo"; ToolCallReady a_call;
                     StreamFinished (assistant "Hello" [a_call]) (Some a_usage)]; pl_end := None |} /\
  exists events,
    read_lines id no_float no_str (loads_from a_stream) (stream_lines ++ ["data: [DONE]"]) None new_accumulator =
      {| pl_events := events ++ [StreamFinished (assistant "Hello" [a_call]) (Some a_usage)]; pl_end := None |} /\
    texts events = ["Hel"; "lo"] /\ Forall unfinished events /\ terminals events ≡ₚ [a_call].
Proof.
  split; [vm_compute; reflexivity|].
  refine (streamed_in_pieces id no_float no_str (loads_from a_stream) stream_lines stream_parts ["data: [DONE]"] None (assistant "Hello" [a_call]) stream_lines_at _ _ _).
  - right. exists (PyStr [32; 91; 68; 79; 78; 69; 93]%N), []. split; [reflexivity|vm_compute; reflexivity].
  - intros past i rest H. cbn in H. destruct past as [|x [|y [|z past]]]; cbn in H; try (injection H as <- H); try (injection H as <- <- H);
      subst; try (split; [done|]); [right; apply not_elem_of_nil|by left|by left|by destruct past].
  - vm_compute. reflexivity.
Defined.
(** Deltas of a single call come in order. *)
Lemma orderly_one i l : Forall (fun index => index = Some i) l -> orderly l.
Proof.
  intros Hl past j rest ->. apply Forall_app in Hl as [Hp Hr]. apply Forall_cons in Hr as [-> _]. split; [done|].
  induction past as [|x past IH] using rev_ind; [right; apply not_elem_of_nil|]. left. rewrite last_snoc. f_equal.
  apply Forall_app in Hp as [_ Hx]. by inversion Hx.
Qed.
Definition one_call : Play := a_read a_wire (wire_lines ["c0"; "c2"; "c3"; "c4"]).
Definition one_call_moments : list (list (nat * ToolOutcome) * StreamEvent) := (fun event => ([], event)) <$> pl_events one_call.
Lemma one_call_final : as_final_message (handle_all [] id "" one_call_moments new_tracker new_assistant).2 = Some (assistant "Hel" [a_call]).
Proof. vm_compute. reflexivity. Qed.
Lemma one_call_orderly : orderly (fed_indexes no_float (loads_from a_wire) (wire_lines ["c0"; "c2"; "c3"; "c4"])).
Proof. apply (orderly_one 0). vm_compute. by repeat constructor. Qed.
Lemma announced_calls_run_witness :
  let '(tr, st) := handle_all [] id "" one_call_moments new_tracker new_assistant in
  as_final_message st = Some (assistant "Hel" [a_call]) /\ has_run tr "t1".
Proof.
  pose proof (announced_calls_run id no_float no_str (loads_from a_wire) [] id "" (wire_lines ["c0"; "c2"; "c3"; "c4"]) None one_call_moments
    ltac:(vm_compute; reflexivity) one_call_orderly ltac:(vm_compute; reflexivity)) as H.
  pose proof one_call_final as Hfinal. destruct (handle_all _ _ _ _ _ _) as [tr st]. cbn [snd] in Hfinal.
  split; [exact Hfinal|]. destruct H as (message & Hm & _ & Hr). rewrite Hfinal in Hm. injection Hm as <-.
  apply (Hr a_call). by left.
Defined.
Definition a_message : ChatMessage := assistant "Hello" [a_call].
Lemma message_reads_back_witness :
  let dumps (v : json) : pystr := "args" in
  parse_reply no_float (loads_from a_wire)
    (JObj [("choices" : pystr, JList [JObj [("message" : pystr, serialize_message dumps a_message)]])]) = Ok (assistant "Hello" [a_call]).
Proof.
  cbv zeta. apply (message_reads_back no_float (loads_from a_wire) (fun _ => "args") a_message).
  constructor; [|constructor]. split; [done|vm_compute; reflexivity].
Defined.

(** A tool call without an identifier fails a reply with an error no client
    expects. *)
Example call_without_id :
  parse_reply no_float (loads_from a_wire)
    (JObj [("choices" : pystr, JList [JObj [("message" : pystr,
      JObj [("tool_calls" : pystr, JList [JObj [("function" : pystr, JObj [("arguments" : pystr, JStr "args")])]])])]])]) =
  Err (OtherError "KeyError").
Proof. vm_compute. reflexivity. Qed.
(** A call streamed under the index null is in the final message and never
    announced as ready. *)
Definition null_index_wire : list (pystr * json) :=
  [("c0" : pystr, chunk (call_delta (JObj [("index" : pystr, JNull); ("id" : pystr, JStr "t1");
      ("function" : pystr, JObj [("name" : pystr, JStr "look"); ("arguments" : pystr, JStr "args")])])))].
Example null_index_is_never_ready :
  pl_events (a_read null_index_wire (wire_lines ["c0"])) =
  [ToolCallStarted None "t1" "look"; StreamFinished (assistant "" [{| tc_id := "t1"; tc_name := "look"; tc_arguments := [] |}]) None].
Proof. vm_compute. reflexivity. Qed.
(** Calls whose deltas interleave: what comes for the first after the second
    began is dropped. *)
Definition interleaved_wire : list (pystr * json) :=
  [("c0" : pystr, chunk (call_delta (opening 0 a_call))); ("c1" : pystr, chunk (call_delta (opening 1 a_call)));
   ("c2" : pystr, chunk (call_delta (argument_part 0 "args"))); ("args" : pystr, JObj (tc_arguments a_call)); ("{}" : pystr, JObj [])].
Example interleaved_arguments_are_lost :
  terminals (pl_events (a_read interleaved_wire (wire_lines ["c0"; "c1"; "c2"]))) =
  [{| tc_id := "t1"; tc_name := "look"; tc_arguments := [] |}; {| tc_id := "t1"; tc_name := "look"; tc_arguments := [] |}].
Proof. vm_compute. reflexivity. Qed.

(** ** The servers and their mirror *)

Definition maps_row (id name : pystr) : McpServerRow :=
  {| mr_id := id; mr_name := name; mr_url := "https://maps.example"; mr_auth_secret_code := None; mr_auth_header := "Authorization";
     mr_auth_format := "Bearer {value}"; mr_last_synced_at := None; mr_last_sync_error := None; mr_tools_fingerprint := None;
     mr_created_at := 0; mr_updated_at := 0 |}.
(** Another process registers the URL meanwhile. *)
Definition a_rival (k : nat) (db : McpDb) : McpDb :=
  if McpServerStore.clashes (maps_row "s0" "theirs") db then db else McpServerStore.on_servers (insert_row (maps_row "s0" "theirs")) db.
Lemma a_rival_ok k db : db_ok db -> db_ok (a_rival k db) /\ grows db (a_rival k db).
Proof.
  intros Hok. unfold a_rival. destruct (McpServerStore.clashes _ db) eqn:E; [|by apply add_row_ok].
  split; [done|]. split; [intros r Hr; by apply list_elem_of_fmap_2|done].
Qed.
Definition no_servers : McpDb := {| md_servers := []; md_links := [] |}.
Lemma no_servers_ok : db_ok no_servers.
Proof. split; apply NoDup_nil_2. Qed.
Lemma add_shares_url_witness :
  let db' := (McpServerStore.add a_rival (fun _ => true) 0 (to_server (maps_row "s1" "ours")) "ann" no_servers).2 in
  db_ok db' /\ mr_id <$> md_servers db' = ["s0" : pystr] /\ McpServerStore.linked "s0" "ann" db' = true.
Proof.
  pose proof (add_shares_url a_rival (fun _ => true) 0 a_rival_ok (to_server (maps_row "s1" "ours")) "ann" no_servers no_servers_ok eq_refl) as H.
  cbv zeta. split; [|split; vm_compute; reflexivity].
  destruct (McpServerStore.add _ _ _ _ _ _) as [r db']. apply H.
Defined.

Definition a_tool : McpToolDescriptor := {| td_name := "route"; td_description := "how to get there"; td_input_schema := [("type" : pystr, JStr "object")] |}.
Definition a_dump (v : json) : pystr := "contract".
Lemma mirror_reads_back_witness :
  let known := [("contract" : pystr, sort_keys (JObj (mirror_document "maps" a_tool)))] in
  parse_mirror (loads_from known) "contract" =
  Ok {| mm_server := "maps"; mm_tool := "route"; mm_input_schema := [("type" : pystr, JStr "object")] |}.
Proof.
  cbv zeta. exact (mirror_reads_back (loads_from [("contract" : pystr, sort_keys (JObj (mirror_document "maps" a_tool)))]) a_dump "maps" a_tool
    ltac:(done) ltac:(done) ltac:(vm_compute; reflexivity)).
Defined.

Lemma startswith_app p x : str_startswith p (p +s+ x) = true.
Proof. unfold str_startswith. cbn. apply bool_decide_eq_true. by rewrite take_app_length. Qed.
(** A server whose old tool is gone, in a table with other records. *)
Definition gone_row : InstructionRow := a_row "o" InstructionType.ENDPOINT "mcp/maps/old" "old contract" [] false None None.
Definition maps_store : ServiceState := {| ss_rows := [a_memory; a_public; gone_row]; ss_pending_bumps := [] |}.
Abbreviation sync_maps := (mirror_tools a_dump a_policy alone str_startswith (constant_embed [f1]) at_noon a_new_id "maps" [a_tool]).
Lemma mirror_follows_witness :
  let '(r, s') := sync_maps maps_store in
  r = Ok (1, 1)%Z /\ ro_title <$> ss_rows s' = ["birthday" : pystr; "office" : pystr; "mcp/maps/route" : pystr] /\ sync_maps s' = (Ok (0, 0)%Z, s').
Proof.
  assert (exists updated removed s', sync_maps maps_store = (Ok (updated, removed), s') /\
    follows a_dump str_startswith "maps" [a_tool] (ss_rows maps_store) (ss_rows s') /\ sync_maps s' = (Ok (0, 0)%Z, s')) as H.
  { apply (mirror_follows a_dump a_policy str_startswith (constant_embed [f1]) at_noon a_new_id).
    - intros. apply constant_quiet.
    - intros. apply longer_new.
    - done.
    - apply startswith_app.
    - split; [apply (bool_decide_unpack _); by vm_compute..|by repeat constructor|by repeat constructor].
    - intros tool ->%list_elem_of_singleton r Hr _. repeat (apply elem_of_cons in Hr as [->|Hr]; [done|]). by apply not_elem_of_nil in Hr. }
  assert ((sync_maps maps_store).1 = Ok (1, 1)%Z /\ ro_title <$> ss_rows (sync_maps maps_store).2 = ["birthday" : pystr; "office" : pystr; "mcp/maps/route" : pystr])
    as [H1 H2] by (split; vm_compute; reflexivity).
  destruct H as (updated & removed & s' & Hs & _ & Hidle). rewrite Hs in H1, H2 |- *. split_and!; [exact H1|exact H2|exact Hidle].
Defined.

(** ** Embeddings, media and lookups at concrete inputs *)

(** The theorems on the embedding cache, the reranker, the media service and
    the lookup tools applied to small cases, and runs that show what the code
    does not do. *)
Definition f_one : float := float_of_Z 1.
Definition f_half : float := fdiv (float_of_Z 1) (float_of_Z 2).

(** ** The cache of embeddings *)

Definition length_vector (text : pystr) : vector := [float_of_Z (str_len text)].
(** Two calls ask for a text at once in a cache of one entry: the second waits
    for the first, which computes its other text again. *)
Definition two_asks : list Event :=
  [Arrive ["a"; "bc"]; Arrive ["a"]; Begin 0; Begin 1; Answer 0 (Ok [length_vector "a"; length_vector "bc"]); Resume 1;
   Answer 0 (Ok [length_vector "a"]); Answer 0 (Ok [length_vector "bc"])].
Definition after_asks : CacheWorld := foldl (happen 1) idle two_asks.
Lemma cache_serves_witness :
  (cl_phase <$> cw_calls after_asks) = [Finished (Ok [length_vector "a"; length_vector "bc"]); Finished (Ok [length_vector "a"])] /\
  length (cs_cache (cw_state after_asks)) <= 1.
Proof.
  split; [vm_compute; reflexivity|].
  refine (proj1 (cache_serves 1 length_vector after_asks _)). apply reached_run; [constructor|].
  repeat (split; [first [exact I|vm_compute; reflexivity]|]). exact I.
Defined.
(** A text that was evicted while its batch landed is fetched alone and not put
    in flight: another call computes it at the same time. *)
Example evicted_text_is_computed_twice :
  let w := foldl (happen 1) idle [Arrive ["a"; "bc"]; Begin 0; Answer 0 (Ok [length_vector "a"; length_vector "bc"]); Arrive ["a"]; Begin 1] in
  (cl_phase <$> cw_calls w) = [Fetching [] "a" ["bc"]; Computing [("a" : pystr, 2)]].
Proof. vm_compute. reflexivity. Qed.
(** Cancelling a call that waits for the vector of another cancels the future,
    and with it every other call that waits. *)
Example cancelled_waiter_cancels_others :
  let w := foldl (happen 1) idle [Arrive ["a"]; Arrive ["a"]; Arrive ["a"]; Begin 0; Begin 1; Begin 2; Cancel 1; Resume 2] in
  (cl_phase <$> cw_calls w !! 2) = Some (Finished (Err CancelledError)).
Proof. vm_compute. reflexivity. Qed.
(** So does cancelling the call that computes. *)
Example cancelled_computation_cancels_others :
  let w := foldl (happen 1) idle [Arrive ["a"]; Arrive ["a"]; Begin 0; Begin 1; Cancel 0; Resume 1] in
  (cl_phase <$> cw_calls w !! 1) = Some (Finished (Err CancelledError)).
Proof. vm_compute. reflexivity. Qed.
(** An embedder that answers with a vector less leaves the last text in flight
    for good: who asks for it next waits for nobody. *)
Example short_answer_strands :
  let w := foldl (happen 8) idle [Arrive ["a"; "b"]; Begin 0; Answer 0 (Ok [length_vector "a"]); Arrive ["b"]; Begin 1] in
  (cl_phase <$> cw_calls w) = [Finished value_error; Waiting [] "b" 1 []] /\ (tf_result <$> cs_futures (cw_state w) !! 1) = Some None.
Proof. split; vm_compute; reflexivity. Qed.

(** ** Vectors and scores *)

Definition known_document (known : list (pystr * json)) (text : pystr) : Res pystr json :=
  match dict_get text known with Some v => Ok v | None => Err ("not json" : pystr) end.
Definition a_clock : M nat Exn time := ret (seconds 0).
Definition a_sleep (seconds : float) : M nat Exn unit := ret tt.
Definition no_float_text (text : pystr) : option float := None.
Definition no_http_date (text : pystr) : option time := None.
Definition some_text (v : json) : pystr := "?".
Definition replies (body : pystr) (request : PostRequest) : M nat Exn (Res http_error ApiResponse) :=
  ret (Ok {| ar_status := 200; ar_retry_after := None; ar_body := Some body |}).
Definition an_item (index : Z) (component : Z) : json := JObj [("index" : pystr, JInt index); ("embedding" : pystr, JList [JInt component])].
Definition swapped_items : list (pystr * json) := [("body" : pystr, JObj [("data" : pystr, JList [an_item 1 7; an_item 0 1])])].
Definition embedding_config : EmbeddingConfig := {| ec_api_key := "k"; ec_model := "m"; ec_timeout_seconds := f_one |}.
Lemma embeddings_in_order_witness :
  embed id no_float_text some_text (known_document swapped_items) no_http_date a_clock a_sleep (replies "body") embedding_config ["x"; "y"] 0 =
  (Ok [[float_of_Z 1]; [float_of_Z 7]], 0).
Proof.
  apply (embeddings_in_order id no_float_text some_text (known_document swapped_items) no_http_date a_clock a_sleep (replies "body") embedding_config
    ["x"; "y"] [("data" : pystr, JList [an_item 1 7; an_item 0 1])] [an_item 1 7; an_item 0 1] [an_item 0 1; an_item 1 7] [[JInt 1]; [JInt 7]]).
  - done.
  - done.
  - eexists _, 0, (seconds 0). split; [reflexivity|]. split; [reflexivity|]. split; [vm_compute; reflexivity|vm_compute; reflexivity].
  - reflexivity.
  - apply perm_swap.
  - repeat constructor; eexists; (split; [reflexivity|split; reflexivity]).
  - repeat constructor.
Defined.
(** A reranker that likes one document, and answers in the opposite order; the
    body of its answer spells the documents, each ended by a zero. *)
Definition likes (document : pystr) : Z := if bool_decide (document = "good") then 1 else 0.
Definition a_value (query document : pystr) : float := float_of_Z (likes document).
Definition rerank_config : HttpRerankerConfig := {| hr_model := "m"; hr_api_key := "k"; hr_api_url := "u"; hr_timeout_seconds := f_one |}.
Definition spell (documents : list pystr) : list N := concat ((fun d => (N.succ <$> codes d) ++ [0%N]) <$> documents).
Fixpoint unspell (word l : list N) : list pystr :=
  match l with
  | [] => []
  | 0%N :: l => PyStr word :: unspell [] l
  | c :: l => unspell (word ++ [N.pred c]) l
  end.
Lemma unspell_word w word l : unspell word ((N.succ <$> w) ++ 0%N :: l) = PyStr (word ++ w) :: unspell [] l.
Proof.
  revert word. induction w as [|c w IH]; intros word; cbn [fmap list_fmap app unspell]; [by rewrite app_nil_r|].
  destruct (N.succ c) as [|p] eqn:E; [lia|]. rewrite <-E, N.pred_succ. rewrite IH. by rewrite <-app_assoc.
Qed.
Lemma unspell_spell documents : unspell [] (spell documents) = documents.
Proof.
  induction documents as [|[w] documents IH]; [done|]. unfold spell in *. cbn [fmap list_fmap concat]. rewrite <-app_assoc. cbn [app].
  rewrite unspell_word, IH. done.
Qed.
Definition scored (id : nat * pystr) : json := JObj [("index" : pystr, JInt (Z.of_nat id.1)); ("relevance_score" : pystr, JInt (likes id.2))].
Definition ranking (text : pystr) : Res pystr json :=
  let documents := unspell [] (codes text) in
  Ok (JObj [("results" : pystr, JList (rev (scored <$> zip (seq 0 (length documents)) documents)))]).
Definition rank_server (request : PostRequest) : M nat Exn (Res http_error ApiResponse) :=
  let documents := match pq_json request with
                   | JObj fields => match dict_get "documents" fields with Some (JList l) => omap (fun v => json_str (Some v)) l | _ => [] end
                   | _ => []
                   end in
  ret (Ok {| ar_status := 200; ar_retry_after := None; ar_body := Some (PyStr (spell documents)) |}).
Lemma texts_back (documents : list pystr) : omap (fun v => json_str (Some v)) (JStr <$> documents) = documents.
Proof. induction documents as [|d documents IH]; [done|]. cbn. by f_equal. Qed.
Lemma rank_server_scores : scores_well no_float_text ranking a_clock rank_server a_value rerank_config.
Proof.
  intros query documents s. exists s. eexists _, _, _. split_and!.
  - eexists _, s, (seconds 0). split; [reflexivity|]. split; [reflexivity|]. split; [vm_compute; reflexivity|].
    unfold rank_server, ranking. cbn [default ar_body pq_json rerank_request]. change (dict_get "documents" _) with (Some (JList (JStr <$> documents))).
    cbn iota. rewrite texts_back. unfold id. set (answered := unspell _ _). assert (answered = documents) as -> by exact (unspell_spell documents).
    reflexivity.
  - reflexivity.
  - symmetry. apply Permutation_rev.
  - apply Forall2_fmap_r. apply Forall_Forall2_diag. apply Forall_forall. intros id _. unfold scored, rerank_item. eexists _, _.
    split; [reflexivity|]. split; [reflexivity|]. split; [reflexivity|]. split; [reflexivity|]. cbn. unfold a_value, likes. by case_bool_decide.
Qed.
Lemma scores_in_order_witness :
  score id no_float_text some_text ranking no_http_date a_clock a_sleep rank_server rerank_config [("q", "good"); ("p", "good"); ("q", "bad")] 0 =
  (Ok [float_of_Z 1; float_of_Z 1; float_of_Z 0], 0).
Proof.
  destruct (scores_in_order id no_float_text some_text ranking no_http_date a_clock a_sleep rank_server a_value rerank_config
    [("q", "good"); ("p", "good"); ("q", "bad")] 0 rank_server_scores) as [n H].
  rewrite H. vm_compute in H. injection H as <-. reflexivity.
Defined.

(** ** Media *)

Definition gate_of (features : list FeatureCode.t) : MediaGate nat :=
  {| mg_allows := fun _ feature => ret (bool_decide (FeatureCode.value feature ∈ (FeatureCode.value <$> features)));
     mg_record := fun _ => ret tt |}.
(** A model that counts its calls, and a store of two pictures, one of them gone. *)
Definition media_ports (features : list FeatureCode.t) : MediaPorts nat :=
  {| mp_vision := Some (fun _ _ n => (Ok ("a cat" : pystr), Datatypes.S n));
     mp_images := Some (fun ref => if bool_decide (ref = "gone") then raise (OtherError "gone") else ret {| im_content := []; im_media_type := "image/jpeg" |});
     mp_speech := Some (fun _ => ret ("hello" : pystr));
     mp_audio := Some (fun _ => ret {| au_content := [1%N]; au_file_name := "a.ogg"; au_media_type := "audio/ogg" |});
     mp_limits := Some (gate_of features) |}.
Lemma describe_is_metered_witness :
  let '(r, (n, log)) := describe (log_ports (media_ports [FeatureCode.VISION])) "" [1; 0; 1] "ann" ["x"; "y"; "gone"] (0, []) in
  (ok <$> match r with Ok results => results | Err _ => [] end) = [true; true; false] /\ n = 2 /\
  match r with Ok results => length results = 3 | Err _ => False end /\
  let '(r, (_, log)) := describe (log_ports (media_ports [])) "" [1; 0; 1] "ann" ["x"; "y"] (0, []) in
  is_ok r = true /\ log = [Asked FeatureCode.VISION].
Proof.
  pose proof (describe_is_metered (media_ports [FeatureCode.VISION]) "" [1; 0; 1] "ann" ["x"; "y"; "gone"] 0) as H.
  destruct (describe _ _ _ _ _ _) as [r [n log]] eqn:E. pose proof E as E'. vm_compute in E. injection E as <- <- _.
  split; [vm_compute; reflexivity|]. split; [reflexivity|]. split; [exact (proj1 (H _ _ _ eq_refl))|].
  clear. pose proof (describe_is_metered (media_ports []) "" [1; 0; 1] "ann" ["x"; "y"] 0) as H.
  destruct (describe _ _ _ _ _ _) as [r [n log]] eqn:E. destruct r as [results|e]; [|vm_compute in E; discriminate E].
  split; [reflexivity|]. exact (proj1 (proj2 (H _ _ _ eq_refl))).
Defined.
Lemma transcribe_is_metered_witness :
  let '(r, (_, log)) := transcribe (log_ports (media_ports [FeatureCode.VISION])) "ann" "v" (Some 3%Z) 1 (float_of_Z 60) (0, []) in
  r = Ok (verdict MediaOutcome.REFUSED_BY_PLAN) /\ log = [Asked FeatureCode.VOICE_TRANSCRIPTION].
Proof.
  pose proof (transcribe_is_metered (media_ports [FeatureCode.VISION]) "ann" "v" (Some 3%Z) 1 (float_of_Z 60) 0) as H.
  destruct (transcribe _ _ _ _ _ _) as [r [n log]] eqn:E. specialize (fun result => H result n log eq_refl).
  assert (r = Ok (verdict MediaOutcome.REFUSED_BY_PLAN)) as -> by (vm_compute in E; injection E as <- <- <-; reflexivity).
  split; [reflexivity|]. exact (H _ eq_refl).
Defined.

(** ** Requests and lookups *)

(** A client that answers one URL, and fails for every other. *)
Definition only (url : pystr) (rq : Request) : M Net Exn (Res pystr Response) :=
  if decide (rq_url rq = url) then serve rq else raise (OtherError "reached").
Definition get_of (url : pystr) : list (pystr * json) := [("method" : pystr, JStr "GET"); ("url" : pystr, JStr url)].
Definition asks (http : Request -> M Net Exn (Res pystr Response)) (url : pystr) : M Net Exn pystr :=
  http_request always always lower_latin quote_repr one_address (reads []) (fun _ => "") (fun _ => None) id one_column latin collecting_config
    (ret 0%Z) public_host no_guard ["https://api.example.com" : pystr] None 3 http None "u" None (get_of url).
Lemma http_request_confined_witness :
  (asks serve "https://api.example.com/x" (net ["hello"])).1 = Ok ("HTTP 200" +s+ newline +s+ "hel" +s+ TRUNCATED_SUFFIX) /\
  asks serve "https://api.example.com/x" (net ["hello"]) = asks (only "https://api.example.com/x") "https://api.example.com/x" (net ["hello"]).
Proof.
  split; [vm_compute; reflexivity|]. apply http_request_confined. intros rq s H. unfold only. rewrite decide_True; [done|].
  pose proof (cf_url _ _ _ _ _ _ _ _ _ _ _ H) as Hu. change (Some (JStr "https://api.example.com/x") = Some (JStr (rq_url rq))) in Hu. by injection Hu as <-.
Defined.
(** A URL that is not listed is not asked for. *)
Example unlisted_url_stays : asks serve "https://other.example.com/x" (net ["hello"]) = (Err (EgressBlockedError (EGRESS_BLOCKED_TEMPLATE "https://api.example.com")), net ["hello"]).
Proof. vm_compute. reflexivity. Qed.

Definition found (title link : pystr) : json := JObj [("title" : pystr, JStr title); ("link" : pystr, JStr link)].
Definition a_payload : json := JObj [("organic" : pystr, JList [found "a" "b"; JNull; found "c" "d"])].
Lemma search_is_bounded_witness :
  exists response, parse_search a_payload 2 = Ok response /\ format_results response = "1. a" +s+ newline +s+ "b" /\
  (Z.of_nat (length (sp_results response)) <= 2)%Z.
Proof.
  eexists. split; [vm_compute; reflexivity|]. split; [vm_compute; reflexivity|].
  refine (proj1 (search_is_bounded a_payload 2 _ _ _)); [lia|vm_compute; reflexivity].
Defined.

(** Dates of ten characters, and of eight. *)
Definition a_date (text : pystr) : option (Z * option Z) :=
  if decide (text = "1970-01-01") then Some (0%Z, None) else if decide (text = "19700101") then Some (0%Z, None) else None.
Definition a_history : list MessageRow := [Samples.a_row "m2" "d" 2 "rain today" None; Samples.a_row "m1" "d" 1 "RAIN" None; Samples.a_row "m0" "e" 1 "rain" None].
Definition asked (date_to : pystr) : list (pystr * json) := [("query" : pystr, JStr " rain "); ("date_to" : pystr, JStr date_to); ("limit" : pystr, JInt 1)].
Definition lower_equal (a b : N) : bool := bool_decide (codes (lower_latin (PyStr [a])) = codes (lower_latin (PyStr [b]))).
Lemma history_search_exact_witness :
  let searched := history_search a_date 10 50 (archive_search lower_equal) (topic_search (fun _ _ => [])) "d" (asked "1970-01-01") a_history in
  searched.1 = Ok ("1. [1970-01-01 00:00] seq 1 user: RAIN" : pystr) /\
  exists rows messages, searched = (Ok (match messages with [] => NO_HITS_MESSAGE | messages => entries messages end), a_history) /\
    mapM to_archived rows = Some messages /\ forall r, r ∈ rows -> r ∈ a_history /\ mr_dialog_id r = "d".
Proof.
  intros searched. split; [vm_compute; reflexivity|].
  destruct (history_search_exact lower_equal a_date 10 50 (fun _ _ => []) "d" (asked "1970-01-01") " rain " 1 None None (Some day_us) a_history)
    as (rows & messages & Hs & Hm & _ & _ & Hin & _); [lia|repeat constructor; vm_compute; by eexists|vm_compute; reflexivity|vm_compute; reflexivity|
    vm_compute; reflexivity|done|vm_compute; reflexivity|vm_compute; reflexivity|].
  exists rows, messages. split; [exact Hs|]. split; [exact Hm|]. intros r Hr. destruct (Hin r Hr) as [Ht Hw]. split; [exact Ht|exact (proj1 Hw)].
Defined.
(** A date written in the short form does not take the whole day in. *)
Example short_date_ends_at_midnight : parse_date a_date (Some (JStr "19700101")) "date_to" true = Ok (Some 0%Z).
Proof. vm_compute. reflexivity. Qed.

(** ** A chat *)

(** The messages of a chat, the clock that advances at each reading, and how
    many calls the chat will refuse. *)
Record Room := { rm_messages : list (Z * pystr); rm_now : Z; rm_refusals : nat }.
Definition fresh_message (room : Room) : Z := (1 + foldr Z.max 0 (fst <$> rm_messages room))%Z.
Definition accepted {A} (room : Room) (a : A) (messages : list (Z * pystr)) : Res Exn A * Room :=
  match rm_refusals room with
  | O => (Ok a, {| rm_messages := messages; rm_now := rm_now room; rm_refusals := 0 |})
  | S n => (Err (TelegramApiError "too many requests"), {| rm_messages := rm_messages room; rm_now := rm_now room; rm_refusals := n |})
  end.
Definition room_ports : BridgePorts nat Room :=
  {| bp_send_rich_message := fun text _ room => accepted room (fresh_message room) (rm_messages room ++ [(fresh_message room, text)]);
     bp_edit_message_rich := fun m text room => accepted room tt (dict_set m text (rm_messages room));
     bp_send_chat_action := ret tt; bp_sleep := fun _ => ret tt;
     bp_monotonic := fun room => (Ok (float_of_Z (rm_now room)), {| rm_messages := rm_messages room; rm_now := rm_now room + 1; rm_refusals := rm_refusals room |});
     bp_drafts := None; bp_subscribe := fun _ => ret 7; bp_unsubscribe := fun _ _ => ret tt; bp_submit := fun _ _ _ _ _ => ret tt |}.
Definition room_shows (room : Room) (m : Z) : option pystr := dict_get m (rm_messages room).
Definition room_up (room : Room) : Prop := rm_refusals room = 0.
Lemma fresh_key room : dict_get (fresh_message room) (rm_messages room) = None.
Proof.
  apply dict_get_None. unfold fresh_message, dict_keys. intros H.
  assert (forall l x, x ∈ l -> (x <= foldr Z.max 0 l)%Z) as Hmax.
  { induction l as [|y l IH]; intros x; [by intros ?%not_elem_of_nil|]. intros [->|Hx]%elem_of_cons; cbn; [lia|]. specialize (IH x Hx). lia. }
  apply Hmax in H. lia.
Qed.
Lemma dict_get_fresh (l : list (Z * pystr)) m text k : dict_get m l = None -> dict_get k (l ++ [(m, text)]) = if decide (k = m) then Some text else dict_get k l.
Proof. intros H. rewrite <-(dict_set_new m text l H), dict_get_set. repeat case_decide; congruence. Qed.
Lemma room_ok : chat_ok room_ports room_shows room_up.
Proof.
  split; cbn [bp_send_rich_message bp_edit_message_rich bp_monotonic bp_sleep bp_drafts room_ports]; try done.
  - intros text reply c r c' H. pose proof (fresh_key c) as Hfresh. unfold accepted, room_shows, room_up in *. destruct (rm_refusals c) as [|n]; injection H as <- <-; cbn.
    + split; [|split; [intros _; split; [done|by eexists]|split; [done|by rewrite dict_get_fresh, decide_True]]].
      intros m t Hm. rewrite dict_get_fresh by done. rewrite decide_False; [done|]. congruence.
    + split; [done|]. by split.
  - intros m text c r c' H. unfold accepted, room_shows, room_up in *. destruct (rm_refusals c) as [|n]; injection H as <- <-; cbn.
    + split; [|split; [done|by rewrite dict_get_set, decide_True]]. intros m' Hne. rewrite dict_get_set. case_decide; congruence.
    + split; [done|]. by split.
  - intros c r c' H. injection H as <- <-. split; [by eexists|done].
  - intros seconds c r c' H. by injection H as <- <-.
Qed.
Definition throttle : float := float_of_Z 1.
Definition ended : LoopEvent := Domain.Finished (assistant "" []) None None.
Definition show (event : LoopEvent) : M (Chat nat Room) Exn unit := render_safely room_ports TelegramBridgeLaws.alone (fun _ => true) (fun _ => None) throttle event (Some ("x" : pystr)).
Definition quiet_room (refusals : nat) : Chat nat Room :=
  {| ch_bridge := new_bridge; ch_outside := {| rm_messages := []; rm_now := 0; rm_refusals := refusals |}; ch_tick := 0 |}.
(** An answer in two pieces around a tool call; the chat refuses the first
    message. *)
Definition an_answer : list Happening :=
  [Rendered (TextDelta "Let me ") (Some ("x" : pystr)); Rendered (ToolCallRequested a_call) (Some ("x" : pystr)); Rendered (TextDelta "see.") (Some ("x" : pystr))].
Lemma split_keeps_text_witness :
  let text : pystr := "one" +s+ newline +s+ "two" +s+ newline +s+ "three" in
  split_markdown text 8 = ["one" +s+ newline +s+ "two"; "three"] /\
  (cut_of (codes text) (codes <$> split_markdown text 8) \/
   codes text = replicate (length (codes text)) 10%N /\ split_markdown text 8 = [PyStr (take 8 (codes text))]).
Proof.
  intros text. split; [vm_compute; reflexivity|]. destruct (split_keeps_text text 8) as (_ & _ & _ & H); [lia|].
  apply H. apply Nat.ltb_lt. vm_compute. reflexivity.
Defined.
Lemma start_once_witness :
  let resolve : M (Chat nat Room) Exn nat := ret 3 in
  let start p := start room_ports TelegramBridgeLaws.alone p in
  br_forwarder (ch_bridge (start (start resolve ;;; resolve) (quiet_room 0)).2) = Forwarding 3 7 /\
  start (start resolve ;;; resolve) (quiet_room 0) = start resolve (quiet_room 0).
Proof. split; [vm_compute; reflexivity|]. apply start_once. intros n w Hw. exact Hw. Defined.

(** The draft of the exchange, and what the bridge does when something happens
    while a request of a timer is on its way. *)
Definition meanwhile (event : LoopEvent) (tick : nat) (w : Chat nat Room) : Chat nat Room := if decide (tick = 0) then (show event w).2 else w.
Definition timer_with (event : LoopEvent) (w : Chat nat Room) : Chat nat Room := (timer_fires room_ports (meanwhile event) throttle 0 w).2.
Definition greeted : Chat nat Room := (show (TextDelta "Hello") (quiet_room 0)).2.
Definition the_timer (w : Chat nat Room) : option (bool * Timer) :=
  (fun d => (bool_decide (is_Some (dr_pending_since d)), dr_flush_timer d)) <$> br_objects (ch_bridge w) !! 0.
(** Text that comes while a timer is sending waits for nobody: the timer that
    is not done yet keeps another one from being set. *)
Example late_text_is_stranded :
  let w := timer_with (TextDelta " world") greeted in
  rm_messages (ch_outside w) = [(1%Z, "Hello" : pystr)] /\ the_timer w = Some (true, Fired).
Proof. split; vm_compute; reflexivity. Qed.
(** So does the text of a timer that wakes before its time. *)
Example early_timer_strands :
  let w := (timer_fires room_ports TelegramBridgeLaws.alone (float_of_Z 2) 0 (render_safely room_ports TelegramBridgeLaws.alone (fun _ => true) (fun _ => None) (float_of_Z 2) (TextDelta "Hello") None (quiet_room 0)).2).2 in
  rm_messages (ch_outside w) = [] /\ the_timer w = Some (true, Fired).
Proof. split; vm_compute; reflexivity. Qed.
(** An answer that ends while a timer is sending its first message is sent
    twice. *)
Example cancelled_send_repeats :
  rm_messages (ch_outside (timer_with ended greeted)) = [(1%Z, "Hello" : pystr); (2%Z, "Hello" : pystr)].
Proof. vm_compute. reflexivity. Qed.
(** A status line that comes after the first piece of a long answer was sealed
    moves the pieces: what was the first is the second then, and is sent once
    more. *)
Example sealed_head_repeats :
  let long := PyStr (replicate 30 97%N) in
  split_markdown (compose_parts long []) 24 = [PyStr (replicate 24 97%N); PyStr (replicate 6 97%N)] /\
  split_markdown (compose_parts long [counted_entry "look"]) 24 =
    ["```" +s+ newline +s+ "look ·" +s+ newline +s+ "```"; PyStr (replicate 24 97%N); PyStr (replicate 6 97%N)].
Proof. split; vm_compute; reflexivity. Qed.
